(* ===== verification/_CoqProject ===== *)
-Q . S2P
Prelude.v
GoStrings.v
Sha256.v
Types.v
Config.v
Hlc.v
Epoch.v
ActiveView.v
SingleWriter.v
ForkDetector.v
Helpers.v
Database.v
Store.v
StoreSpec.v
HealStore.v
AppDatabase.v
Identity.v
Roster.v
InviteStore.v
Replicated.v
AddOperations.v
InviteRequests.v
Wire.v
Runtime.v
Categories.v
CategoryService.v
Auth.v
Frames.v
Membership.v
Profiles.v
ReplicaFrames.v
SqlLogic.v
InviteStoreSpec.v
AuthSpec.v
FramesSpec.v
MembershipSpec.v
CategorySpec.v
SessionSpec.v
AuthDemo.v
Coordinator.v
CoordBroadcast.v
CoordApplication.v
CoordCommit.v
CoordMessage.v
CoordMembers.v
CoordReplay.v
CoordHeal.v
CoordLogic.v
CoordInv.v
CoordSafe.v
CoordSafeCommit.v
CoordSafeHeal.v
CoordEvents.v
CoordStart.v
CoordDemo.v
CoordSpec.v
CoordHealSpec.v
CoordReplaySpec.v
Node.v
OfflineSync.v
OfflineSyncSpec.v
OfflineSyncDemo.v
Recovery.v
Service.v
ServiceLogic.v
ServiceSpec.v
ServiceDemo.v
Invites.v
InvitesSpec.v
InviteFlow.v
InviteFlowSpec.v
InvitesDemo.v
RemovalSpec.v
Replication.v
BlindStore.v
BlindStoreSpec.v
ReplicationSpec.v
ReplicationInv.v
ReplicationPull.v
ReplicationDemo.v
