(* ===== verification/Prelude.v ===== *)
(** * Verification of the coordination and trust layers of a serverless MLS messenger

    ** The program

    The program is a peer-to-peer group messenger.  Every node keeps, per
    group, an MLS state that advances by commits; there is no server that
    orders the commits.  The package [src/app/coordination] is what keeps the
    nodes on one sequence of epochs:

    - a hybrid logical clock ([hlc.go]) orders application messages;
    - the epoch tracker ([epoch.go]) tells stale, current and future envelopes
      apart and buffers the future ones;
    - the active view ([active_view.go]) is the set of peers heard of recently;
    - the single-writer protocol ([single_writer.go]) elects, per epoch and
      batch of proposals, the one node that may commit, and buffers proposals;
    - the fork detector ([fork_healing.go]) compares announced branches and
      says which side has to give way; the history chain
      [R(E) = H(R(E-1) || CommitHash(E))] identifies a branch;
    - the coordinator ([coordinator*.go]) holds one of each for a group.  It
      receives envelopes from the transport, calls the MLS engine, stores the
      result in SQLite and publishes its own envelopes; it adds and removes
      members, and rejoins the winning branch of a fork;
    - the storage ([src/app/adapter/store/coordination_storage.go]) keeps group
      records, messages, the log of envelopes served to offline peers, pending
      membership operations and the journal of fork healing.

    Around it, the layers that decide who takes part:

    - an administrator signs tokens with a root key ([src/app/admin]); a node
      imports its bundle ([adapter/p2p/auth.go]) and proves its token and its
      session to the peers it connects to ([auth_protocol.go],
      [session_claim.go], [gater.go]);
    - the session service ([service/session.go]) locks a device whose identity
      has been taken over by another one;
    - the roster of a group ([db_group_members.go]), with the roles that
      [group_permissions.go] asks for, is kept by the services for members,
      admin roles and removals; roles travel as signed, replicated records
      ([replicated_store.go]);
    - adding a member is a journalled operation ([group_add_operations.go]) that
      may come from an invite request ([group_invite_requests.go]);
    - the runtime ([service/group.go], [invite.go], [invite_lifecycle.go]) runs
      one coordinator per group over one database and one clock: it creates
      groups, invites members, delivers Welcomes and joins with them, and
      restores the groups at start-up;
    - peers that were away pull what they missed ([offline_sync.go]) and replay
      what is stored ([recovery_replay.go]);
    - the profiles of the users ([service/profile.go]), the avatars and the
      invite policies of groups travel as signed records too: they are pushed
      to peers and pulled from them ([replicated_sync.go],
      [group_avatar_replicate.go], [group_invite_policy_replicate.go]); what is
      meant for a peer that is away is kept by the peers closest to it
      ([blind_store.go]);
    - channels are filed under categories that peers exchange
      ([channel_categories.go]), and messages and invitations leave
      notifications ([notifications.go]).

    ** The files: coordination

    - [Prelude]: machine integers with their wrap-around, bytes, strings,
      times, lists, sorting; the tactics and hint databases of the library.
    - [Sha256]: the hash, executable, so elections and history hashes are the
      program's values.  [GoStrings]: what is used of the packages
      [strings], [unicode/utf8] and [encoding/hex].
    - [Types], [Config]: the structs and constants of [types.go], [config.go].
    - [Hlc], [Epoch], [ActiveView], [SingleWriter], [ForkDetector], [Helpers]:
      one file per component, a record for its fields, one definition per Go
      method, under the method's name.  A method that mutates its receiver
      takes the record last and returns the new one.
    - [Database]: the tables and the SQL monad.  Every statement may fail (the
      failures are an oracle argument), a transaction that does not commit is
      undone.  [Store] and [HealStore] translate the methods of the storage,
      [StoreSpec] proves them.
    - [Coordinator]: the fields of [Coordinator], the options, and the monad
      [C] of its methods: they read an environment, change the coordinator and
      the tables, append to a trace of effects, and may panic.
      [CoordBroadcast], [CoordApplication], [CoordCommit], [CoordMessage],
      [CoordMembers], [CoordReplay] and [CoordHeal] are the methods, grouped as
      in the Go files.  A fork heal is a goroutine that gives up the mutex
      between its phases: [HealPC] is where it stands, [heal_step] a phase.
    - [CoordLogic]: the judgements [wp] and [spec] for the monad.  [CoordInv]:
      the invariant [coord_ok] and what only grows, [extends].  [CoordSafe],
      [CoordSafeCommit], [CoordSafeHeal], [CoordEvents]: every method keeps it.  [CoordStart]: [Start] establishes it.
      [CoordSpec], [CoordHealSpec], [CoordReplaySpec]: the theorems.
      [CoordDemo]: a concrete codec and environment for the witnesses.

    ** The files: services and trust

    - [AppDatabase]: the other tables of the SQLite file, with the
      coordination tables as a field; [ASQL] is the SQL monad over them.
    - [Identity]: configuration, identity, root key, tokens and bundles.
      [Auth]: the handshake as steps of goroutines that interleave.
    - [Roster], [Replicated], [AddOperations], [InviteRequests]: one file per
      table of [adapter/store], with the theorems about it.
    - [Runtime]: the state behind the services, session and permissions.
      [Membership]: the member directory, admin roles and leaving.
    - [InviteStore]: key packages, Welcomes, pending invites and the purge of a
      group, with [InviteStoreSpec].  [Categories], [CategoryService]:
      categories and notifications, with [CategorySpec].  [Wire]: the records
      that travel between nodes and the frames a service has sent; [Frames]:
      their encodings with the limits, with [FramesSpec].
    - [Node]: coordinators that share a database and a clock.  [OfflineSync]:
      responder and puller, the latter a machine whose steps interleave with
      the events of the coordinators; [OfflineSyncSpec], [OfflineSyncDemo].
      [Recovery]: the replay of the stored log.
    - [Service]: the state [Svc] of the runtime (tables, coordinators, clock,
      what it has sent and started) and the methods of [group.go];
      [ServiceLogic] is its logic, [ServiceSpec] and [ServiceDemo] the theorems.
      [Invites]: the methods of [invite.go] and [invite_lifecycle.go];
      [InviteFlow]: requests to invite; [InvitesSpec], [InviteFlowSpec],
      [InvitesDemo].  [RemovalSpec]: the removal of a member, with the
      reconciliation of the roster that the new epoch starts.
    - [Profiles]: the tables and the service of profiles.  [ReplicaFrames]:
      their frames.  [Replication]: own records, pushes, pulls and what is
      served.  [ReplicationSpec], [ReplicationInv], [ReplicationPull]: the
      theorems.  [BlindStore]: replicas on peers, with [BlindStoreSpec].
      [ReplicationDemo]: two nodes that replicate, five of a blind store.
    - [SqlLogic]: the judgement [swp] for methods over tables.  [AuthSpec],
      [MembershipSpec], [SessionSpec]: the theorems.  [AuthDemo]: instances of
      the interfaces and witnesses.

    ** What is a parameter

    Code that is not in the repository is an argument of the model: the MLS
    engine, the clock, the random source, the transport's answers, AES-GCM and
    the signature check of the coordinator are fields of [Coordinator.Env],
    given the number of the call so that they may answer differently each
    time; JSON is the class [WireCodec], peer identifiers are the class
    [PeerCodec], the authorisation policy is an option of the coordinator.  The
    laws that proofs rely on are [WireCodecLaws] (decoding an encoded envelope
    gives its epoch and its type) and [PeerCodecLaws] (peer identifiers print
    injectively); both have instances.  For the services, [Runtime.RtEnv] holds
    whether there is a database and a node, the tokens its peers have proved
    and the MLS engine; [Ed25519], [TokenJSON], [HandshakeJSON] and [KeyCrypto] (Argon2id with AES-GCM) are
    classes whose laws, [...Laws], say what is decoded is what was encoded and
    what is signed verifies; [AuthDemo] gives instances.  The records of the
    direct protocols are in the class [JSON], with [JSONLaws] for what is
    printed and read back; [SeqSort] is the sort of the puller, [PayloadJSON] the
    payload of a message.  [Service.SvEnv] adds what the runtime asks the MLS
    engine, the peers and the network.  An answer of a peer is an argument; a
    frame that a service sends is recorded as a value, so that its size limit
    counts in [Frames] only.  The texts of errors leave out the values they
    print.  SQLite is modelled by what its statements do to the tables.

    A method runs under the coordinator's mutex, so it is one sequential
    step.  The goroutines it starts are recorded in the trace as tasks; timers,
    loop rounds, view changes and the phases of a heal run later, in any order
    and any number ([CoordSpec.reachable]).  A service method is one sequential
    run over the tables, of which every statement may fail.

    ** Granularity

    Where the code gives up a lock within what is one step here, the theorems
    say nothing of what other goroutines may do in the gap:
    - [batchAndReplay] gives up the mutex between encrypting a batch and
      storing the new group state, and [sendMessage] asks whether a heal runs
      before it takes the mutex; both are one step;
    - a phase of a heal ([CoordHeal.heal_step]) is one step, although [runHeal]
      holds the mutex for parts of a phase only;
    - a recovery ([Recovery.replayPendingEnvelopesForGroup]) is one action on
      the coordinator, which in the code takes its mutex for each envelope;
    - the puller appends and replays an entry in one step
      ([OfflineSync.pull_step]), and looks up the coordinator of a group when it
      comes to the entry, where the code uses a copy of the map made at the
      start; the puller's steps interleave with everything else;
    - a call of a running coordinator from the services
      ([Service.on_coord]) runs the epoch and message handlers that it has
      called when the method is done; the handlers of a coordinator that acts
      on its own (an envelope, a timer) are recorded as effects.

    ** What is shown

    - Coordinator over all runs ([CoordSpec]): each event is handled to the
      end, without panic and within a bounded depth of nested calls; the
      components, the memory and the tables agree on the epoch; a message
      envelope is delivered at most once; what is published was stored; only
      the elected node's commits are admitted; a refused commit leaves no
      trace; a node that catches up only fills its inbox; skewed envelopes and
      unauthorised sends have no effect.
    - Fork heals ([CoordHealSpec]): a heal returns and releases what it holds;
      a swap of the group state keeps the invariant; as the tables stand, no
      heal is ever answered.
    - Replays ([CoordReplaySpec]): batches partition an outbox, sealed payloads
      open again, a repeated member request changes nothing.
    - Election ([SingleWriter]): nodes with the same view, policy and
      suspensions elect the same holder whatever order proposals arrived in,
      the holder is the eligible node with the least hash, failover reaches
      every eligible node; the proposal buffer is bounded and free of
      duplicates.  [MembershipSpec] composes it with the roster: nodes whose
      rosters name the same privileged members elect the same writer.
    - Clock ([Hlc]): in runs of any number of nodes that are too short for a
      counter to wrap, timestamps respect happened-before; the guard bounds how
      far a peer can push the clock.
    - Epoch tracker: refines a queue of future envelopes; none is lost,
      duplicated or released early.
    - Fork detector: among nodes that have heard each other, and of which
      some are on a branch not known to be invalid, one such branch wins and
      every node of another one is told to join it, if the branches differ in
      weight; forks are reported exactly when history hashes differ; histories
      of the same length with the same hash are the same, up to collisions of
      SHA-256.
    - Storage ([StoreSpec], [HealStore]): transactions are all-or-nothing, an
      envelope is applied at most once whatever fails, the log stays well
      formed and a pull with a cursor misses nothing, jobs and their limits,
      pruning terminates.
    - Trust ([AuthSpec], [SessionSpec]): a verified peer has shown a token the
      root key signed for it and a session its key signed, however handshakes
      interleave; sessions move forward while handshakes follow each other; an
      old device locks itself; bundles, handshakes and the root key round-trip.
    - Membership ([Roster], [MembershipSpec], [RemovalSpec]): the creator keeps
      the role, only the creator changes roles, removals respect the hierarchy
      and change nobody's role, a role record from another node is applied only
      if authentic.
    - Tables of the services: replicas converge and records move forward
      ([Replicated]); add operations go through their life cycle
      ([AddOperations]); one open request per member to be, and pages
      enumerate the requests ([InviteRequests]).
    - Nodes ([Node], [ServiceSpec]): the groups of a node do not interfere;
      joining with a Welcome and restarting give coordinators to which the
      theorems about runs apply.
    - Catching up ([OfflineSyncSpec], [Recovery]): pages are the whole log, a
      pull ends and its cursors never pass an envelope that was neither applied
      nor out of date nor undecryptable; a recovery keeps the coordinator safe.
    - Invitations ([InviteStoreSpec], [InvitesSpec], [InviteFlowSpec]): a
      decision about an invite sticks until it is reopened, a purge empties
      every table of the group and touches no row of another, whatever
      a peer sends as a Welcome stays within the group it names, accepting joins
      or refuses; requests go through their life cycle, and only admins decide
      them.
    - Replication: a record that arrives is taken over only if its author
      signed it and may write it ([ReplicationSpec]); every record a node holds
      verifies, whatever happens to the node ([ReplicationInv]); a cursor never
      passes its record, as long as peers serve records that verify
      ([ReplicationPull]).
    - Blind store ([BlindStoreSpec]): a node that looks for a key package has a
      peer that keeps it among those it asks, and among the first ones if it
      got the same answer from the DHT as the publisher.
    - Categories and frames ([CategorySpec], [FramesSpec]): active channels
      stay filed; every frame format gives back what was written and refuses
      what is over its limit, nothing else.
    - Where the code does not do what it means to, the theorem states what it
      does: the counter that wraps, two branches that both give way, an invalid
      branch that wins among invalid ones, batched
      messages that are not stored and not delivered, sequence numbers that
      are used again, a private key that is not saved, a name refresh that
      forgets a key, overlapping handshakes that go back to an old session, a
      log that is not served after a rejoin, a rejected invitation that is
      joined, replies that notify nobody, a cleared field that absent peers
      keep, a request that is refused for its size, a key package from the
      future that stays.

    ** Bounds

    Handling a commit may apply commits that were buffered, which nests calls.
    [CoordMessage.run] takes a bound on the depth; the first theorem of
    [CoordSpec] shows that the number of future epochs with buffered envelopes
    plus the number of envelopes the event brings is enough
    ([CoordSpec.depth_for]), for a positive [BatchingDelay], as in the default
    configuration (with none, as in the test configuration, rebasing an
    operation may commit in the same call and the depth also depends on the
    pending operations).  A recovery needs a hundred per round, the size of its
    pages, besides the envelopes that are buffered; a pull one per entry.  A
    heal takes at most ten phases.  The two pruning
    loops of the storage iterate at most once per row.  Epochs are [uint64]
    values; a commit past [2^63] cannot be stored, so the theorems need no
    bound on the length of a run.

    ** What is not modelled

    Of the coordinator: [fetchGroupInfoForHeal] (a network call, an answer of
    the environment) and three user-interface queries of the storage.  Of the
    services: file transfer, backups, diagnostics and the queries that only
    present the tables to the user interface; of the tables, those these
    services use, and the creation and migration of the schema.  The timers, tickers and connection events that
    start rounds of synchronisation and of refreshing are not modelled, the
    rounds are.  Cancellation contexts, log output, the libp2p host, the sidecar
    client, the command line, the user interface and the demonstration
    controller are outside the development: they are calls of third-party code,
    without state of their own that the modelled parts depend on. *)
From Stdlib Require Export ZArith Lia Strings.Byte Strings.Ascii Sorting.Sorted.
From stdpp Require Export base tactics gmap strings list sorting.

Declare Scope coord_scope.
Delimit Scope coord_scope with coord.
Global Open Scope Z_scope.

(** ** Machine integers

    Go's fixed-width integers are [Z] values kept in range by an explicit
    wrap-around after every arithmetic operation that can leave it. *)

Definition u32 (z : Z) : Z := z mod 2 ^ 32.
Definition u64 (z : Z) : Z := z mod 2 ^ 64.
Definition i64 (z : Z) : Z := (z + 2 ^ 63) mod 2 ^ 64 - 2 ^ 63.

Definition in_u32 (z : Z) : Prop := 0 <= z < 2 ^ 32.
Definition in_u64 (z : Z) : Prop := 0 <= z < 2 ^ 64.
Definition in_i64 (z : Z) : Prop := - 2 ^ 63 <= z < 2 ^ 63.

Lemma u32_small z : in_u32 z -> u32 z = z.
Proof. unfold in_u32, u32. intros. by apply Z.mod_small. Qed.

Lemma u64_small z : in_u64 z -> u64 z = z.
Proof. unfold in_u64, u64. intros. by apply Z.mod_small. Qed.

Lemma i64_small z : in_i64 z -> i64 z = z.
Proof.
  unfold in_i64, i64. intros. rewrite Z.mod_small by lia. lia.
Qed.

Lemma u32_range z : in_u32 (u32 z).
Proof. apply Z.mod_pos_bound. lia. Qed.

Lemma u64_range z : in_u64 (u64 z).
Proof. apply Z.mod_pos_bound. lia. Qed.

(** ** Bytes *)

Abbreviation bytes := (list byte).

#[export] Instance byte_eq_decision : EqDecision byte := byte_eq_dec.
#[export] Program Instance byte_countable : Countable byte :=
  inj_countable Byte.to_N Byte.of_N _.
Next Obligation. apply Byte.of_to_N. Qed.

Definition byte_lt (a b : byte) : bool := (Byte.to_N a <? Byte.to_N b)%N.

(** [len(b) == 0] of a byte slice; [nil] and the empty slice have length 0. *)
Definition is_empty {A} (l : list A) : bool :=
  match l with [] => true | _ :: _ => false end.

Lemma is_empty_true {A} (l : list A) : is_empty l = true <-> l = [].
Proof. by destruct l. Qed.

Lemma is_empty_false {A} (l : list A) : is_empty l = false <-> l <> [].
Proof. by destruct l. Qed.

(** Go's [bytes.Compare]: lexicographic order, a proper prefix is smaller. *)
Fixpoint bytes_compare (a b : bytes) : comparison :=
  match a, b with
  | [], [] => Eq
  | [], _ :: _ => Lt
  | _ :: _, [] => Gt
  | x :: a', y :: b' =>
      match (Byte.to_N x ?= Byte.to_N y)%N with
      | Eq => bytes_compare a' b'
      | c => c
      end
  end.

(** [bytes.Compare(a, b) < 0] *)
Definition bytes_ltb (a b : bytes) : bool :=
  match bytes_compare a b with Lt => true | _ => false end.

(** [bytes.Equal] *)
Definition bytes_eqb (a b : bytes) : bool := bool_decide (a = b).

Lemma to_N_inj x y : Byte.to_N x = Byte.to_N y -> x = y.
Proof.
  intros H. pose proof (Byte.of_to_N x) as Hx. rewrite H, Byte.of_to_N in Hx.
  by injection Hx.
Qed.

Lemma bytes_compare_eq a b : bytes_compare a b = Eq <-> a = b.
Proof.
  split; [|intros ->].
  - revert b. induction a as [|x a IH]; intros [|y b]; simpl; try done.
    destruct (N.compare_spec (Byte.to_N x) (Byte.to_N y)); try done.
    intros Hc. f_equal; [by apply to_N_inj | by apply IH].
  - induction b as [|y b IH]; simpl; [done|]. by rewrite N.compare_refl.
Qed.

Lemma bytes_compare_refl a : bytes_compare a a = Eq.
Proof. by apply bytes_compare_eq. Qed.

Lemma bytes_compare_antisym a b : bytes_compare b a = CompOpp (bytes_compare a b).
Proof.
  revert b. induction a as [|x a IH]; intros [|y b]; simpl; try done.
  rewrite N.compare_antisym. by destruct (_ ?= _)%N; simpl.
Qed.

Lemma bytes_compare_lt_trans a b c :
  bytes_compare a b = Lt -> bytes_compare b c = Lt -> bytes_compare a c = Lt.
Proof.
  revert b c. induction a as [|x a IH]; intros [|y b] [|z c]; simpl; try done.
  destruct (N.compare_spec (Byte.to_N x) (Byte.to_N y)) as [E1|L1|];
    destruct (N.compare_spec (Byte.to_N y) (Byte.to_N z)) as [E2|L2|];
    intros H1 H2; try done.
  - rewrite E1, E2, N.compare_refl. by eapply IH.
  - rewrite E1. by apply N.compare_lt_iff in L2 as ->.
  - rewrite <-E2. by apply N.compare_lt_iff in L1 as ->.
  - assert (Byte.to_N x < Byte.to_N z)%N as L by (by etrans).
    by apply N.compare_lt_iff in L as ->.
Qed.

Lemma bytes_ltb_irrefl a : bytes_ltb a a = false.
Proof. unfold bytes_ltb. by rewrite bytes_compare_refl. Qed.

Lemma bytes_ltb_trans a b c :
  bytes_ltb a b = true -> bytes_ltb b c = true -> bytes_ltb a c = true.
Proof.
  unfold bytes_ltb. intros H1 H2.
  destruct (bytes_compare a b) eqn:E1; try done.
  destruct (bytes_compare b c) eqn:E2; try done.
  by rewrite (bytes_compare_lt_trans _ _ _ E1 E2).
Qed.

Lemma bytes_ltb_asym a b : bytes_ltb a b = true -> bytes_ltb b a = false.
Proof.
  unfold bytes_ltb. rewrite (bytes_compare_antisym a b).
  by destruct (bytes_compare a b).
Qed.

Lemma bytes_ltb_total a b :
  bytes_ltb a b = false -> bytes_ltb b a = false -> a = b.
Proof.
  unfold bytes_ltb. rewrite (bytes_compare_antisym a b).
  destruct (bytes_compare a b) eqn:E; try done.
  intros _ _. by apply bytes_compare_eq.
Qed.

Lemma bytes_eqb_true a b : bytes_eqb a b = true <-> a = b.
Proof. apply bool_decide_eq_true. Qed.

Lemma bytes_eqb_refl a : bytes_eqb a a = true.
Proof. by apply bytes_eqb_true. Qed.

(** ** Strings

    A Go string is a sequence of bytes; [<] on strings is the byte order. *)

Definition str_bytes (s : string) : bytes := String.list_byte_of_string s.

Lemma str_bytes_inj a b : str_bytes a = str_bytes b -> a = b.
Proof.
  intros H. rewrite <-(String.string_of_list_byte_of_string a).
  rewrite <-(String.string_of_list_byte_of_string b). by f_equal.
Qed.

Definition str_ltb (a b : string) : bool := bytes_ltb (str_bytes a) (str_bytes b).
Definition str_eqb (a b : string) : bool := bool_decide (a = b).

Lemma str_eqb_true a b : str_eqb a b = true <-> a = b.
Proof. apply bool_decide_eq_true. Qed.

Lemma str_eqb_false a b : str_eqb a b = false <-> a <> b.
Proof. apply bool_decide_eq_false. Qed.

Lemma str_eqb_spec a b : reflect (a = b) (str_eqb a b).
Proof. apply bool_decide_reflect. Qed.
Lemma str_eqb_refl a : str_eqb a a = true.
Proof. by apply str_eqb_true. Qed.

Lemma str_ltb_total a b : str_ltb a b = false -> str_ltb b a = false -> a = b.
Proof. intros. apply str_bytes_inj. by apply bytes_ltb_total. Qed.

(** Go's [hex.EncodeToString]: two lower-case hex digits per byte. *)
Definition hex_digit (n : N) : ascii := ascii_of_N (if n <? 10 then 48 + n else 87 + n)%N.

Fixpoint hex_EncodeToString (b : bytes) : string :=
  match b with
  | [] => EmptyString
  | x :: b' =>
      String (hex_digit (Byte.to_N x / 16))
        (String (hex_digit (Byte.to_N x mod 16)) (hex_EncodeToString b'))
  end.

Lemma hex_byte_inj x y :
  hex_digit (Byte.to_N x / 16) = hex_digit (Byte.to_N y / 16) ->
  hex_digit (Byte.to_N x mod 16) = hex_digit (Byte.to_N y mod 16) -> x = y.
Proof.
  assert (Hd : forall m n, (m < 16)%N -> (n < 16)%N -> hex_digit m = hex_digit n -> m = n).
  { intros m n Hm Hn E. apply (f_equal N_of_ascii) in E. unfold hex_digit in E.
    rewrite !N_ascii_embedding in E by (repeat case_match; lia).
    destruct (N.ltb_spec m 10), (N.ltb_spec n 10); lia. }
  assert (Hb : forall z, (Byte.to_N z < 256)%N).
  { intros z. pose proof (Byte.to_N_bounded z). lia. }
  intros H1 H2. apply to_N_inj.
  apply Hd in H1; [|apply N.Div0.div_lt_upper_bound; apply Hb ..].
  apply Hd in H2; [|by apply N.mod_lt ..].
  rewrite (N.div_mod (Byte.to_N x) 16), (N.div_mod (Byte.to_N y) 16) by done.
  by rewrite H1, H2.
Qed.

Lemma hex_EncodeToString_inj a b :
  hex_EncodeToString a = hex_EncodeToString b -> a = b.
Proof.
  revert b. induction a as [|x a IH]; intros [|y b]; cbn [hex_EncodeToString];
    try done.
  intros H. injection H as H1 H2 H3. f_equal; [by apply hex_byte_inj | by apply IH].
Qed.

(** ** Stable sorting

    [sort.SliceStable] with comparison [less]: the sorted permutation that
    keeps the order of incomparable elements.  The order facts need [less] to
    be a strict weak order, which is an explicit class. *)

Class StrictWeak {A} (less : A -> A -> bool) : Prop := {
  sw_asym : forall x y, less x y = true -> less y x = false;
  sw_negtrans : forall x y z, less x z = true -> less x y = true \/ less y z = true;
}.

Section StableSort.
Context {A : Type} (less : A -> A -> bool).

Fixpoint sort_insert (x : A) (l : list A) : list A :=
  match l with
  | [] => [x]
  | y :: l' => if less y x then y :: sort_insert x l' else x :: y :: l'
  end.

Fixpoint stable_sort (l : list A) : list A :=
  match l with
  | [] => []
  | x :: l' => sort_insert x (stable_sort l')
  end.

Definition sort_le (x y : A) : Prop := less y x = false.

Lemma sort_insert_perm x l : sort_insert x l ≡ₚ x :: l.
Proof.
  induction l as [|y l IH]; simpl; [done|].
  destruct (less y x); [|done]. rewrite IH. by constructor.
Qed.

Lemma stable_sort_perm l : stable_sort l ≡ₚ l.
Proof.
  induction l as [|x l IH]; simpl; [done|]. by rewrite sort_insert_perm, IH.
Qed.

Lemma stable_sort_elem x l : x ∈ stable_sort l <-> x ∈ l.
Proof. by rewrite stable_sort_perm. Qed.

Lemma stable_sort_length l : length (stable_sort l) = length l.
Proof. by rewrite stable_sort_perm. Qed.

Context `{!StrictWeak less}.

Lemma sort_le_trans x y z : sort_le x y -> sort_le y z -> sort_le x z.
Proof.
  unfold sort_le. intros H1 H2. destruct (less z x) eqn:E; [|done].
  destruct (sw_negtrans z y x E); congruence.
Qed.

Lemma sort_insert_sorted x l :
  StronglySorted sort_le l -> StronglySorted sort_le (sort_insert x l).
Proof.
  induction 1 as [|y l Hl IH Hy]; simpl; [by repeat constructor|].
  destruct (less y x) eqn:E.
  - constructor; [done|]. rewrite sort_insert_perm. constructor; [|done].
    by apply sw_asym.
  - constructor; [by constructor|]. constructor; [done|].
    eapply Forall_impl; [exact Hy|]. intros z Hz. by eapply sort_le_trans.
Qed.

Lemma stable_sort_sorted l : StronglySorted sort_le (stable_sort l).
Proof.
  induction l as [|x l IH]; simpl; [constructor | by apply sort_insert_sorted].
Qed.

(** The sorted list depends only on the multiset when incomparable elements
    of it are equal. *)
Lemma stable_sort_unique l1 l2 :
  (forall x y, x ∈ l1 -> y ∈ l1 -> less x y = false -> less y x = false -> x = y) ->
  l1 ≡ₚ l2 -> stable_sort l1 = stable_sort l2.
Proof.
  intros Hinj Hp. apply (StronglySorted_unique_strong sort_le).
  - intros x y Hx Hy Hxy Hyx. rewrite stable_sort_elem in Hx, Hy.
    rewrite <-Hp in Hy. by apply Hinj.
  - apply stable_sort_sorted.
  - apply stable_sort_sorted.
  - by rewrite !stable_sort_perm.
Qed.

(** A sorted list stays as it is, and filtering commutes with sorting. *)
Lemma stable_sort_id l : StronglySorted sort_le l -> stable_sort l = l.
Proof.
  induction 1 as [|x l Hl IH Hx]; simpl; [done|]. rewrite IH. destruct l as [|y l]; simpl; [done|].
  inversion Hx as [|? ? Hy _]; subst. unfold sort_le in Hy. by rewrite Hy.
Qed.

Lemma stable_sort_filter (p : A -> bool) l :
  (forall x y, x ∈ l -> y ∈ l -> less x y = false -> less y x = false -> x = y) ->
  stable_sort (List.filter p l) = List.filter p (stable_sort l).
Proof.
  intros Hinj. rewrite <-(stable_sort_id (List.filter p (stable_sort l))).
  - apply stable_sort_unique.
    + intros x y Hx Hy. apply Hinj; by apply list_elem_of_In, filter_In in Hx as [?%list_elem_of_In _],
        Hy as [?%list_elem_of_In _].
    + assert (Hp : forall l1 l2, l1 ≡ₚ l2 -> List.filter p l1 ≡ₚ List.filter p l2).
      { induction 1; simpl; repeat case_match; try done; [by constructor|constructor|by etrans]. }
      apply Hp. by rewrite stable_sort_perm.
  - induction (stable_sort_sorted l) as [|x l' Hl IH Hx]; simpl; [constructor|].
    case_match; [|done]. constructor; [done|]. rewrite Forall_forall in Hx |- *. intros y Hy.
    apply list_elem_of_In, filter_In in Hy as [Hy _]. by apply Hx, list_elem_of_In.
Qed.
End StableSort.

#[export] Instance bytes_ltb_weak : StrictWeak bytes_ltb.
Proof.
  split; [apply bytes_ltb_asym|].
  intros x y z H. destruct (bytes_ltb x y) eqn:E; [by left|right].
  destruct (decide (y = x)) as [->|Hne]; [done|].
  eapply bytes_ltb_trans; [|exact H].
  destruct (bytes_ltb y x) eqn:E'; [done|].
  exfalso. apply Hne. by apply bytes_ltb_total.
Qed.

#[export] Instance str_ltb_weak : StrictWeak str_ltb.
Proof.
  split; unfold str_ltb; intros.
  - by apply bytes_ltb_asym.
  - by apply sw_negtrans.
Qed.

(** ** Lists *)

Lemma NoDup_fmap_inj {A B} (f : A -> B) l x y : NoDup (f <$> l) -> x ∈ l -> y ∈ l -> f x = f y -> x = y.
Proof.
  induction l as [|z l IH]; simpl; [by intros _ ?%not_elem_of_nil|]. rewrite NoDup_cons. intros [Hn Hd].
  rewrite !elem_of_cons. intros [->|Hx] [->|Hy] E; try done; [..|by apply IH];
    exfalso; apply Hn; [rewrite E|rewrite <- E]; by apply list_elem_of_fmap_2.
Qed.
Lemma filter_all {A} (P : A -> Prop) `{!forall x, Decision (P x)} (l : list A) : (forall x, x ∈ l -> P x) -> filter P l = l.
Proof.
  induction l as [|x l IH]; intros Hl; [done|]. rewrite filter_cons_True by (apply Hl, list_elem_of_here).
  f_equal. apply IH. intros y Hy. by apply Hl, list_elem_of_further.
Qed.
Lemma filter_none {A} (P : A -> Prop) `{!forall x, Decision (P x)} (l : list A) : (forall x, x ∈ l -> ~ P x) -> filter P l = [].
Proof.
  induction l as [|x l IH]; intros Hl; [done|]. rewrite filter_cons_False by (apply Hl, list_elem_of_here).
  apply IH. intros y Hy. by apply Hl, list_elem_of_further.
Qed.
Lemma filter_app_perm {A} (P : A -> Prop) `{!forall x, Decision (P x)} (l : list A) :
  filter P l ++ filter (fun x => ~ P x) l ≡ₚ l.
Proof.
  induction l as [|x l IH]; [done|]. rewrite !filter_cons.
  repeat case_decide; try tauto; simpl.
  - by rewrite IH.
  - rewrite <-Permutation_middle. by rewrite IH.
Qed.

(** ** Automation *)

Create HintDb coord.

#[export] Hint Rewrite @is_empty_true @is_empty_false bytes_eqb_true str_eqb_true
  str_eqb_false andb_true_iff andb_false_iff orb_true_iff orb_false_iff
  negb_true_iff negb_false_iff Z.eqb_eq Z.eqb_neq Z.ltb_lt Z.ltb_ge Z.leb_le
  Z.leb_gt Z.gtb_lt bool_decide_eq_true bool_decide_eq_false : bool_coord.
#[export] Hint Resolve u32_range u64_range bytes_eqb_refl str_eqb_refl : coord.

(** Turn boolean tests of the context and the goal into propositions. *)
Ltac breflect := autorewrite with bool_coord in *.

(** Case on the scrutinee of the innermost [if] or [match] of the goal. *)
Ltac case_goal :=
  match goal with
  | |- context [ if ?b then _ else _ ] =>
      lazymatch b with
      | context [ if _ then _ else _ ] => fail
      | context [ match _ with _ => _ end ] => fail
      | _ => let E := fresh "E" in destruct b eqn:E
      end
  | |- context [ match ?e with _ => _ end ] =>
      lazymatch e with
      | context [ if _ then _ else _ ] => fail
      | context [ match _ with _ => _ end ] => fail
      | _ => let E := fresh "E" in destruct e eqn:E
      end
  end.
