(* ===== verification/GoStrings.v ===== *)
(** * Go strings

    What the program uses of the packages [strings] and [unicode/utf8]:
    [TrimSpace], [ToLower], [EqualFold], [Contains] and [Split].  A string is
    its bytes; runes are decoded and encoded as UTF-8. *)
From S2P Require Import Prelude.

Definition bytes_str (l : bytes) : string := String.string_of_list_byte l.

Lemma bytes_str_bytes s : bytes_str (str_bytes s) = s.
Proof. apply String.string_of_list_byte_of_string. Qed.

Lemma str_bytes_str l : str_bytes (bytes_str l) = l.
Proof. apply String.list_byte_of_string_of_list_byte. Qed.

(** ** White space

    [unicode.IsSpace] on the encoded character at an end of a string: the
    number of its bytes, 0 when the character there is not white space. *)

Definition space1 (a : byte) : bool :=
  let x := Byte.to_N a in ((9 <=? x) && (x <=? 13) || (x =? 32))%N.
Definition space2 (a b : byte) : bool :=
  let y := Byte.to_N b in ((Byte.to_N a =? 194) && ((y =? 133) || (y =? 160)))%N.
Definition space3 (a b c : byte) : bool :=
  let x := Byte.to_N a in let y := Byte.to_N b in let z := Byte.to_N c in
  ((x =? 225) && (y =? 154) && (z =? 128)
   || (x =? 226) && (y =? 128) && ((128 <=? z) && (z <=? 138) || (z =? 168) || (z =? 169) || (z =? 175))
   || (x =? 226) && (y =? 129) && (z =? 159)
   || (x =? 227) && (y =? 128) && (z =? 128))%N.

Definition space_front (l : bytes) : nat :=
  match l with
  | [] => 0
  | a :: r =>
      if space1 a then 1
      else match r with
           | [] => 0
           | b :: r' =>
               if space2 a b then 2
               else match r' with [] => 0 | c :: _ => if space3 a b c then 3 else 0 end
           end
  end.

(** The same at the end of a string, which is given in reverse. *)
Definition space_back (l : bytes) : nat :=
  match l with
  | [] => 0
  | c :: r =>
      if space1 c then 1
      else match r with
           | [] => 0
           | b :: r' =>
               if space2 b c then 2
               else match r' with [] => 0 | a :: _ => if space3 a b c then 3 else 0 end
           end
  end.

(** Drop characters as long as [w] finds one at the front. *)
Fixpoint trim_with (w : bytes -> nat) (fuel : nat) (l : bytes) : bytes :=
  match fuel with
  | O => l
  | S fuel => match w l with O => l | n => trim_with w fuel (drop n l) end
  end.

Definition trim_left (l : bytes) : bytes := trim_with space_front (length l) l.
Definition trim_right (l : bytes) : bytes := rev (trim_with space_back (length l) (rev l)).

(** [strings.TrimSpace] *)
Definition TrimSpace (s : string) : string := bytes_str (trim_right (trim_left (str_bytes s))).

(** ** UTF-8 *)

Definition cont (lo hi : N) (b : byte) : bool := ((lo <=? Byte.to_N b) && (Byte.to_N b <=? hi))%N.
Definition RuneError : N := 65533.

(** [utf8.DecodeRune]: the rune and the rest; an invalid byte is [RuneError]
    of width 1. *)
Definition decode_rune (a : byte) (r : bytes) : N * bytes :=
  let x := Byte.to_N a in
  let two := match r with
    | b :: r' => if cont 128 191 b then Some ((x - 192) * 64 + (Byte.to_N b - 128), r') else None
    | _ => None end%N in
  let three lo hi := match r with
    | b :: c :: r' =>
        if cont lo hi b && cont 128 191 c
        then Some ((x - 224) * 4096 + (Byte.to_N b - 128) * 64 + (Byte.to_N c - 128), r') else None
    | _ => None end%N in
  let four lo hi := match r with
    | b :: c :: e :: r' =>
        if cont lo hi b && cont 128 191 c && cont 128 191 e
        then Some ((x - 240) * 262144 + (Byte.to_N b - 128) * 4096 + (Byte.to_N c - 128) * 64
                   + (Byte.to_N e - 128), r') else None
    | _ => None end%N in
  let bad := (RuneError, r) in
  (if x <? 128 then (x, r)
   else if x <? 194 then bad
   else if x <? 224 then default bad two
   else if x =? 224 then default bad (three 160 191)
   else if x =? 237 then default bad (three 128 159)
   else if x <? 240 then default bad (three 128 191)
   else if x =? 240 then default bad (four 144 191)
   else if x <? 244 then default bad (four 128 191)
   else if x =? 244 then default bad (four 128 143)
   else bad)%N.

Fixpoint decode_runes (fuel : nat) (l : bytes) : list N :=
  match fuel, l with
  | S fuel, a :: r => let '(c, r') := decode_rune a r in c :: decode_runes fuel r'
  | _, _ => []
  end.

(** The runes of a string, as [range] visits them. *)
Definition runes (s : string) : list N := decode_runes (String.length s) (str_bytes s).

Definition byte_of (n : N) : byte := default Byte.x00 (Byte.of_N n).

(** [utf8.AppendRune] of a rune that decoding can give *)
Definition encode_rune (c : N) : bytes :=
  (if c <? 128 then [byte_of c]
   else if c <? 2048 then [byte_of (192 + c / 64); byte_of (128 + c mod 64)]
   else if c <? 65536 then
     [byte_of (224 + c / 4096); byte_of (128 + c / 64 mod 64); byte_of (128 + c mod 64)]
   else [byte_of (240 + c / 262144); byte_of (128 + c / 4096 mod 64);
         byte_of (128 + c / 64 mod 64); byte_of (128 + c mod 64)])%N.

Definition of_runes (l : list N) : string := bytes_str (concat (encode_rune <$> l)).

(** ** Letter case *)

(** The simple lower-case mapping of Unicode above ASCII: first and last code
    point, stride, and what is added. *)
Definition lower_table : list (Z * Z * Z * Z) :=
  [
    (192,214,1,32); (216,222,1,32); (256,302,2,1); (304,304,1, -199); (306,310,2,1); (313,327,2,1);
    (330,374,2,1); (376,376,1, -121); (377,381,2,1); (385,385,1,210); (386,388,2,1); (390,390,1,206);
    (391,391,1,1); (393,394,1,205); (395,395,1,1); (398,398,1,79); (399,399,1,202); (400,400,1,203);
    (401,401,1,1); (403,403,1,205); (404,404,1,207); (406,406,1,211); (407,407,1,209);
    (408,408,1,1); (412,412,1,211); (413,413,1,213); (415,415,1,214); (416,420,2,1);
    (422,422,1,218); (423,423,1,1); (425,425,1,218); (428,428,1,1); (430,430,1,218); (431,431,1,1);
    (433,434,1,217); (435,437,2,1); (439,439,1,219); (440,440,1,1); (444,444,1,1); (452,452,1,2);
    (453,453,1,1); (455,455,1,2); (456,456,1,1); (458,458,1,2); (459,475,2,1); (478,494,2,1);
    (497,497,1,2); (498,500,2,1); (502,502,1, -97); (503,503,1, -56); (504,542,2,1); (544,544,1, -130);
    (546,562,2,1); (570,570,1,10795); (571,571,1,1); (573,573,1, -163); (574,574,1,10792);
    (577,577,1,1); (579,579,1, -195); (580,580,1,69); (581,581,1,71); (582,590,2,1); (880,882,2,1);
    (886,886,1,1); (895,895,1,116); (902,902,1,38); (904,906,1,37); (908,908,1,64); (910,911,1,63);
    (913,929,1,32); (931,939,1,32); (975,975,1,8); (984,1006,2,1); (1012,1012,1, -60);
    (1015,1015,1,1); (1017,1017,1, -7); (1018,1018,1,1); (1021,1023,1, -130); (1024,1039,1,80);
    (1040,1071,1,32); (1120,1152,2,1); (1162,1214,2,1); (1216,1216,1,15); (1217,1229,2,1);
    (1232,1326,2,1); (1329,1366,1,48); (4256,4293,1,7264); (4295,4295,1,7264); (4301,4301,1,7264);
    (5024,5103,1,38864); (5104,5109,1,8); (7312,7354,1, -3008); (7357,7359,1, -3008); (7680,7828,2,1);
    (7838,7838,1, -7615); (7840,7934,2,1); (7944,7951,1, -8); (7960,7965,1, -8); (7976,7983,1, -8);
    (7992,7999,1, -8); (8008,8013,1, -8); (8025,8031,2, -8); (8040,8047,1, -8); (8072,8079,1, -8);
    (8088,8095,1, -8); (8104,8111,1, -8); (8120,8121,1, -8); (8122,8123,1, -74); (8124,8124,1, -9);
    (8136,8139,1, -86); (8140,8140,1, -9); (8152,8153,1, -8); (8154,8155,1, -100); (8168,8169,1, -8);
    (8170,8171,1, -112); (8172,8172,1, -7); (8184,8185,1, -128); (8186,8187,1, -126); (8188,8188,1, -9);
    (8486,8486,1, -7517); (8490,8490,1, -8383); (8491,8491,1, -8262); (8498,8498,1,28);
    (8544,8559,1,16); (8579,8579,1,1); (9398,9423,1,26); (11264,11311,1,48); (11360,11360,1,1);
    (11362,11362,1, -10743); (11363,11363,1, -3814); (11364,11364,1, -10727); (11367,11371,2,1);
    (11373,11373,1, -10780); (11374,11374,1, -10749); (11375,11375,1, -10783); (11376,11376,1, -10782);
    (11378,11378,1,1); (11381,11381,1,1); (11390,11391,1, -10815); (11392,11490,2,1);
    (11499,11501,2,1); (11506,11506,1,1); (42560,42604,2,1); (42624,42650,2,1); (42786,42798,2,1);
    (42802,42862,2,1); (42873,42875,2,1); (42877,42877,1, -35332); (42878,42886,2,1);
    (42891,42891,1,1); (42893,42893,1, -42280); (42896,42898,2,1); (42902,42920,2,1);
    (42922,42922,1, -42308); (42923,42923,1, -42319); (42924,42924,1, -42315); (42925,42925,1, -42305);
    (42926,42926,1, -42308); (42928,42928,1, -42258); (42929,42929,1, -42282); (42930,42930,1, -42261);
    (42931,42931,1,928); (42932,42946,2,1); (42948,42948,1, -48); (42949,42949,1, -42307);
    (42950,42950,1, -35384); (42951,42953,2,1); (42960,42960,1,1); (42966,42968,2,1);
    (42997,42997,1,1); (65313,65338,1,32); (66560,66599,1,40); (66736,66771,1,40);
    (66928,66938,1,39); (66940,66954,1,39); (66956,66962,1,39); (66964,66965,1,39);
    (68736,68786,1,64); (71840,71871,1,32); (93760,93791,1,32); (125184,125217,1,34)
  ].

(** [unicode.ToLower] *)
Definition rune_ToLower (c : N) : N :=
  if (c <? 128)%N then (if (65 <=? c) && (c <=? 90) then c + 32 else c)%N
  else
    let z := Z.of_N c in
    match List.find (fun r : Z * Z * Z * Z => let '(lo, hi, st, _) := r in
                       (lo <=? z) && (z <=? hi) && ((z - lo) mod st =? 0)) lower_table with
    | Some (_, _, _, d) => Z.to_N (z + d)
    | None => c
    end.

(** [strings.ToLower]: every rune is mapped, an invalid byte becomes U+FFFD. *)
Definition ToLower (s : string) : string := of_runes (rune_ToLower <$> runes s).

(** The folding of a rune against ASCII: the Kelvin sign folds to [k], the
    long s to [s]. *)
Definition rune_fold (c : N) : N :=
  if (c =? 8490)%N then 107%N
  else if (c =? 383)%N then 115%N
  else if ((65 <=? c) && (c <=? 90))%N then (c + 32)%N else c.

(** [strings.EqualFold(s, t)] for an ASCII [t], as at each call. *)
Definition EqualFold (s t : string) : bool :=
  bool_decide (rune_fold <$> runes s = rune_fold <$> runes t).

(** ** Substrings *)

Fixpoint bytes_prefix (p l : bytes) : bool :=
  match p, l with
  | [], _ => true
  | x :: p, y :: l => bool_decide (x = y) && bytes_prefix p l
  | _ :: _, [] => false
  end.

Fixpoint bytes_contains (p l : bytes) : bool :=
  bytes_prefix p l || match l with [] => false | _ :: l => bytes_contains p l end.

(** [strings.Contains(s, sub)] *)
Definition Contains (s sub : string) : bool := bytes_contains (str_bytes sub) (str_bytes s).

(** [strings.Split(s, sep)] at a separator of one byte *)
Fixpoint split_bytes (sep : byte) (l : bytes) : list bytes :=
  match l with
  | [] => [[]]
  | x :: l =>
      if bool_decide (x = sep) then [] :: split_bytes sep l
      else match split_bytes sep l with
           | [] => [[x]]
           | p :: ps => (x :: p) :: ps
           end
  end.
Definition Split (s : string) (sep : byte) : list string := bytes_str <$> split_bytes sep (str_bytes s).

(** [hex.DecodeString] *)
Definition hex_value (a : ascii) : option N :=
  let n := N_of_ascii a in
  (if (48 <=? n) && (n <=? 57) then Some (n - 48)
   else if (97 <=? n) && (n <=? 102) then Some (n - 87)
   else if (65 <=? n) && (n <=? 70) then Some (n - 55) else None)%N.
Fixpoint hex_DecodeString (s : string) : option bytes :=
  match s with
  | EmptyString => Some []
  | String a (String b r) =>
      hi ← hex_value a; lo ← hex_value b; rest ← hex_DecodeString r;
      Some (byte_of (hi * 16 + lo)%N :: rest)
  | String _ EmptyString => None
  end.

Example lower_ascii : ToLower "Creator" = "creator". Proof. reflexivity. Qed.
Example lower_kelvin :
  ToLower (of_runes [8490; 304; 201]%N) = of_runes [107; 105; 233]%N. Proof. reflexivity. Qed.
Example trim_mixed :
  TrimSpace (of_runes [32; 9; 8195; 97; 160; 98; 12288; 10]%N) = of_runes [97; 160; 98]%N.
Proof. reflexivity. Qed.
Example fold_ascii : EqualFold "ADMIN" "admin" = true. Proof. reflexivity. Qed.

(** ** Laws *)

Lemma trim_with_drop w fuel l : exists n, trim_with w fuel l = drop n l.
Proof.
  revert l. induction fuel as [|fuel IH]; intros l; simpl; [by exists 0%nat|].
  destruct (w l) as [|n]; [by exists 0%nat|].
  destruct (IH (drop (S n) l)) as [m ->]. rewrite drop_drop. eauto.
Qed.

(** Enough fuel leaves nothing to drop, when what [w] finds is in the list. *)
Lemma trim_with_done w fuel l :
  w [] = 0%nat -> (length l <= fuel)%nat -> w (trim_with w fuel l) = 0%nat.
Proof.
  intros H0. revert l. induction fuel as [|fuel IH]; intros l Hl; simpl.
  - by destruct l; simpl in Hl; [|lia].
  - destruct (w l) as [|n] eqn:E; [done|]. apply IH. destruct l; simpl; [lia|].
    rewrite length_drop. simpl in Hl. lia.
Qed.

Lemma trim_with_id w fuel l : w l = 0%nat -> trim_with w fuel l = l.
Proof. destruct fuel; simpl; [done|]. by intros ->. Qed.

(** White space at the front of a prefix is at the front of the whole. *)
Lemma space_front_prefix l k : space_front (l ++ k) = 0%nat -> space_front l = 0%nat.
Proof.
  destruct l as [|a [|b [|c l]]]; simpl; try done; repeat case_match; done.
Qed.

Lemma trim_right_prefix l : exists k, l = trim_right l ++ k.
Proof.
  unfold trim_right. destruct (trim_with_drop space_back (length l) (rev l)) as [n ->].
  exists (rev (take n (rev l))). rewrite <-rev_app_distr, take_drop. by rewrite rev_involutive.
Qed.

Lemma trim_left_id l : space_front l = 0%nat -> trim_left l = l.
Proof. apply trim_with_id. Qed.
Lemma trim_right_id l : space_back (rev l) = 0%nat -> trim_right l = l.
Proof. intros H. unfold trim_right. rewrite trim_with_id by done. apply rev_involutive. Qed.

Lemma trim_right_done l : space_back (rev (trim_right l)) = 0%nat.
Proof.
  unfold trim_right. rewrite rev_involutive. apply trim_with_done; [done|].
  by rewrite length_rev.
Qed.

(** [TrimSpace] leaves nothing to trim. *)
Lemma TrimSpace_idemp s : TrimSpace (TrimSpace s) = TrimSpace s.
Proof.
  unfold TrimSpace. rewrite str_bytes_str. f_equal.
  set (l := trim_left (str_bytes s)).
  assert (Hl : space_front l = 0%nat) by (by apply trim_with_done).
  rewrite (trim_left_id (trim_right l)); [apply trim_right_id, trim_right_done|].
  destruct (trim_right_prefix l) as [k E]. rewrite E in Hl. by eapply space_front_prefix.
Qed.

(** Hex digits are neither space nor upper case. *)
Definition plain_byte (b : byte) : bool :=
  let x := Byte.to_N b in ((33 <=? x) && (x <? 128) && negb ((65 <=? x) && (x <=? 90)))%N.

Lemma plain_not_space a b c : plain_byte a = true ->
  space1 a = false /\ space2 a b = false /\ space2 b a = false /\ space3 a b c = false /\ space3 c b a = false.
Proof.
  unfold plain_byte, space1, space2, space3. intros H. breflect.
  rewrite N.leb_le, N.ltb_lt in H. destruct H as [[H1 H2] _].
  repeat match goal with
  | |- context [(Byte.to_N a =? ?k)%N] =>
      replace (Byte.to_N a =? k)%N with false by (symmetry; apply N.eqb_neq; lia)
  | |- context [(Byte.to_N a <=? 13)%N] =>
      replace (Byte.to_N a <=? 13)%N with false by (symmetry; apply N.leb_gt; lia)
  | |- context [(128 <=? Byte.to_N a)%N] =>
      replace (128 <=? Byte.to_N a)%N with false by (symmetry; apply N.leb_gt; lia)
  end.
  simpl. tauto.
Qed.

Lemma TrimSpace_plain s : forallb plain_byte (str_bytes s) = true -> TrimSpace s = s.
Proof.
  intros H. unfold TrimSpace. rewrite trim_left_id, trim_right_id; [apply bytes_str_bytes| |].
  - destruct (rev (str_bytes s)) as [|a l] eqn:E; [done|].
    assert (Ha : plain_byte a = true).
    { apply (proj1 (forallb_forall _ _) H). apply in_rev. rewrite E. by left. }
    destruct l as [|b [|c l]]; simpl;
      destruct (plain_not_space a Byte.x00 Byte.x00 Ha) as (-> & _); try done;
      destruct (plain_not_space a b Byte.x00 Ha) as (_ & _ & -> & _); try done;
      by destruct (plain_not_space a b c Ha) as (_ & _ & _ & _ & ->).
  - destruct (str_bytes s) as [|a l] eqn:E; [done|]. simpl in H. apply andb_true_iff in H as [Ha _].
    destruct l as [|b [|c l]]; simpl;
      destruct (plain_not_space a Byte.x00 Byte.x00 Ha) as (-> & _); try done;
      destruct (plain_not_space a b Byte.x00 Ha) as (_ & -> & _); try done;
      by destruct (plain_not_space a b c Ha) as (_ & _ & _ & -> & _).
Qed.

Lemma decode_plain l fuel : forallb plain_byte l = true -> (length l <= fuel)%nat ->
  decode_runes fuel l = Byte.to_N <$> l.
Proof.
  revert fuel. induction l as [|a l IH]; intros fuel H Hf; destruct fuel; simpl in *; try done; [lia|].
  apply andb_true_iff in H as [Ha H].
  assert (E : decode_rune a l = (Byte.to_N a, l)).
  { unfold decode_rune. unfold plain_byte in Ha. breflect. destruct Ha as [[_ Ha] _]. by rewrite Ha. }
  rewrite E. f_equal. apply IH; [done|lia].
Qed.

Lemma ToLower_plain s : forallb plain_byte (str_bytes s) = true -> ToLower s = s.
Proof.
  intros H. unfold ToLower, runes, of_runes.
  assert (Hlen : String.length s = length (str_bytes s)).
  { unfold str_bytes. clear. induction s as [|a s IH]; simpl; [done|]. by rewrite IH. }
  rewrite decode_plain by (done || lia).
  transitivity (bytes_str (str_bytes s)); [|apply bytes_str_bytes]. f_equal.
  clear Hlen. induction (str_bytes s) as [|a l IH]; [done|].
  simpl in H. apply andb_true_iff in H as [Ha H]. cbn [fmap list_fmap concat].
  rewrite (IH H). clear IH. unfold plain_byte in Ha. breflect.
  rewrite ?N.leb_le, ?N.ltb_lt in Ha. destruct Ha as [[_ Ha] Hu].
  assert (El : rune_ToLower (Byte.to_N a) = Byte.to_N a).
  { unfold rune_ToLower. apply N.ltb_lt in Ha as ->. destruct Hu as [->| ->]; [done|]. by rewrite andb_false_r. }
  rewrite El. unfold encode_rune. apply N.ltb_lt in Ha as ->. unfold byte_of. by rewrite Byte.of_to_N.
Qed.

Lemma hex_plain b : forallb plain_byte (str_bytes (hex_EncodeToString b)) = true.
Proof.
  assert (Hd : forall n, (n < 16)%N -> plain_byte (byte_of_ascii (hex_digit n)) = true).
  { intros n Hn. destruct n as [|p]; [done|]. do 4 (destruct p as [p|p|]; try done; try lia). }
  unfold str_bytes. induction b as [|x b IH]; [done|].
  cbn [hex_EncodeToString String.list_byte_of_string String.list_ascii_of_string map forallb].
  pose proof (Byte.to_N_bounded x).
  change (plain_byte (byte_of_ascii (hex_digit (Byte.to_N x / 16))) &&
          (plain_byte (byte_of_ascii (hex_digit (Byte.to_N x mod 16))) &&
           forallb plain_byte (String.list_byte_of_string (hex_EncodeToString b))) = true).
  rewrite !Hd, IH; [done|by apply N.mod_lt|apply N.Div0.div_lt_upper_bound; lia].
Qed.

Lemma hex_Decode_Encode b : hex_DecodeString (hex_EncodeToString b) = Some b.
Proof.
  assert (Hd : forall n, (n < 16)%N -> hex_value (hex_digit n) = Some n).
  { intros n Hn. destruct n as [|p]; [done|]. do 4 (destruct p as [p|p|]; try done; try lia). }
  induction b as [|x b IH]; cbn [hex_EncodeToString hex_DecodeString]; [done|].
  pose proof (Byte.to_N_bounded x).
  rewrite !Hd, IH; [|by apply N.mod_lt || (apply N.Div0.div_lt_upper_bound; lia)..]. simpl.
  unfold byte_of. rewrite N.mul_comm, <-N.div_mod by done. by rewrite Byte.of_to_N.
Qed.

Lemma TrimSpace_hex b : TrimSpace (hex_EncodeToString b) = hex_EncodeToString b.
Proof. apply TrimSpace_plain, hex_plain. Qed.
Lemma ToLower_hex b : ToLower (hex_EncodeToString b) = hex_EncodeToString b.
Proof. apply ToLower_plain, hex_plain. Qed.

(** An ASCII letter in front. *)
Lemma ToLower_ascii a r : (N_of_ascii a < 128)%N ->
  ToLower (String a r) = String (ascii_of_N (rune_ToLower (N_of_ascii a))) (ToLower r).
Proof.
  intros Ha. unfold ToLower, runes, of_runes. change (str_bytes (String a r)) with (byte_of_ascii a :: str_bytes r).
  assert (Ea : Byte.to_N (byte_of_ascii a) = N_of_ascii a) by (destruct a as [[] [] [] [] [] [] [] []]; reflexivity).
  cbn [String.length decode_runes]. unfold decode_rune at 1. rewrite Ea. pose proof Ha as Ha'. apply N.ltb_lt in Ha' as ->.
  cbn [fmap list_fmap concat].
  assert (Er : encode_rune (rune_ToLower (N_of_ascii a)) = [byte_of_ascii (ascii_of_N (rune_ToLower (N_of_ascii a)))]).
  { clear Ea. destruct a as [[] [] [] [] [] [] [] []]; first [reflexivity | by vm_compute in Ha]. }
  rewrite Er. set (l := concat _).
  change (bytes_str ([byte_of_ascii (ascii_of_N (rune_ToLower (N_of_ascii a)))] ++ l))
    with (String (ascii_of_byte (byte_of_ascii (ascii_of_N (rune_ToLower (N_of_ascii a))))) (bytes_str l)).
  by rewrite ascii_of_byte_of_ascii.
Qed.
Lemma hex_value_lower a n : hex_value a = Some n ->
  (N_of_ascii a < 128)%N /\ ascii_of_N (rune_ToLower (N_of_ascii a)) = hex_digit n /\ (n < 16)%N.
Proof. destruct a as [[] [] [] [] [] [] [] []]; vm_compute; intros [= <-]; done. Qed.
(** Lower case makes what decodes the encoding of it. *)
Lemma ToLower_hex_digits s b : hex_DecodeString s = Some b -> ToLower s = hex_EncodeToString b.
Proof.
  revert b. induction s as [s IH] using (induction_ltof1 _ String.length). unfold ltof in IH.
  intros b Hb. destruct s as [|x [|y r]]; simpl in Hb; [by injection Hb as <-|done|].
  destruct (hex_value x) as [hi|] eqn:Ex; [|done]. destruct (hex_value y) as [lo|] eqn:Ey; [|done]. simpl in Hb.
  destruct (hex_DecodeString r) as [rest|] eqn:Er; [|done]. injection Hb as <-.
  apply hex_value_lower in Ex as (Hx & Ex & Lx). apply hex_value_lower in Ey as (Hy & Ey & Ly).
  rewrite !ToLower_ascii, Ex, Ey by done. rewrite (IH r ltac:(simpl; lia) rest Er).
  assert (Hn : Byte.to_N (byte_of (hi * 16 + lo)) = (hi * 16 + lo)%N).
  { unfold byte_of. destruct (Byte.of_N (hi * 16 + lo)) as [c|] eqn:Ec; [by apply Byte.to_of_N|].
    apply Byte.of_N_None_iff in Ec. lia. }
  cbn [hex_EncodeToString]. rewrite Hn. rewrite N.div_add_l, N.div_small, N.add_0_r by done.
  by rewrite N.add_comm, N.Div0.mod_add, N.mod_small.
Qed.

#[export] Hint Rewrite TrimSpace_idemp TrimSpace_hex ToLower_hex : gostr.
