(* ===== verification/Sha256.v ===== *)
(** * SHA-256

    The hash of Go's [crypto/sha256] (FIPS 180-4), executable, so that token
    holder election, commit hashes and history hashes are the values the
    program computes.  Words are [N] below [2^32]. *)
From S2P Require Import Prelude.

Module Sha256.
Local Open Scope N_scope.

Definition word : Type := N.
Definition wmask : N := 4294967295.
Definition wadd (a b : word) : word := N.land (a + b) wmask.
Definition wnot (a : word) : word := N.lxor a wmask.
Definition rotr (n : N) (a : word) : word :=
  N.lor (N.shiftr a n) (N.land (N.shiftl a (32 - n)) wmask).

Definition Ch (x y z : word) : word := N.lxor (N.land x y) (N.land (wnot x) z).
Definition Maj (x y z : word) : word :=
  N.lxor (N.lxor (N.land x y) (N.land x z)) (N.land y z).
Definition bigSigma0 (x : word) : word := N.lxor (N.lxor (rotr 2 x) (rotr 13 x)) (rotr 22 x).
Definition bigSigma1 (x : word) : word := N.lxor (N.lxor (rotr 6 x) (rotr 11 x)) (rotr 25 x).
Definition smallSigma0 (x : word) : word :=
  N.lxor (N.lxor (rotr 7 x) (rotr 18 x)) (N.shiftr x 3).
Definition smallSigma1 (x : word) : word :=
  N.lxor (N.lxor (rotr 17 x) (rotr 19 x)) (N.shiftr x 10).

Definition K : list word :=
  [1116352408; 1899447441; 3049323471; 3921009573; 961987163; 1508970993; 2453635748; 2870763221;
   3624381080; 310598401; 607225278; 1426881987; 1925078388; 2162078206; 2614888103; 3248222580;
   3835390401; 4022224774; 264347078; 604807628; 770255983; 1249150122; 1555081692; 1996064986;
   2554220882; 2821834349; 2952996808; 3210313671; 3336571891; 3584528711; 113926993; 338241895;
   666307205; 773529912; 1294757372; 1396182291; 1695183700; 1986661051; 2177026350; 2456956037;
   2730485921; 2820302411; 3259730800; 3345764771; 3516065817; 3600352804; 4094571909; 275423344;
   430227734; 506948616; 659060556; 883997877; 958139571; 1322822218; 1537002063; 1747873779;
   1955562222; 2024104815; 2227730452; 2361852424; 2428436474; 2756734187; 3204031479; 3329325298].

Record hstate := HState { ha : word; hb : word; hc : word; hd : word;
                          he : word; hf : word; hg : word; hh : word }.

Definition H0 : hstate :=
  HState 1779033703 3144134277 1013904242 2773480762 1359893119 2600822924 528734635 1541459225.

Definition byte_of_N (n : N) : byte := default x00 (Byte.of_N (n mod 256)).

(** Padding: 0x80, zeros to 56 modulo 64, then the bit length, big endian. *)
Definition be_bytes (k : nat) (n : N) : bytes :=
  rev ((fun i => byte_of_N (N.shiftr n (8 * N.of_nat i))) <$> seq 0 k).

Definition pad (m : bytes) : bytes :=
  let len := length m in
  let zeros := ((119 - len mod 64) mod 64)%nat in
  m ++ [x80] ++ replicate zeros x00 ++ be_bytes 8 (8 * N.of_nat len).

Definition word_of_bytes (a b c d : byte) : word :=
  N.lor (N.lor (N.shiftl (Byte.to_N a) 24) (N.shiftl (Byte.to_N b) 16))
        (N.lor (N.shiftl (Byte.to_N c) 8) (Byte.to_N d)).

Fixpoint words (l : bytes) : list word :=
  match l with
  | a :: b :: c :: d :: l' => word_of_bytes a b c d :: words l'
  | _ => []
  end.

(** The message schedule keeps the last sixteen words, most recent first. *)
Fixpoint schedule (n : nat) (recent : list word) : list word :=
  match n with
  | O => []
  | S n' =>
      let w := wadd (wadd (smallSigma1 (nth 1 recent 0)) (nth 6 recent 0))
                    (wadd (smallSigma0 (nth 14 recent 0)) (nth 15 recent 0)) in
      w :: schedule n' (w :: recent)
  end.

Definition round (s : hstate) (kw : word * word) : hstate :=
  let t1 := wadd (wadd (wadd (hh s) (bigSigma1 (he s))) (Ch (he s) (hf s) (hg s)))
                 (wadd (fst kw) (snd kw)) in
  let t2 := wadd (bigSigma0 (ha s)) (Maj (ha s) (hb s) (hc s)) in
  HState (wadd t1 t2) (ha s) (hb s) (hc s) (wadd (hd s) t1) (he s) (hf s) (hg s).

Definition compress (s : hstate) (blk : list word) : hstate :=
  let ws := blk ++ schedule 48 (rev blk) in
  let s' := foldl round s (zip K ws) in
  HState (wadd (ha s) (ha s')) (wadd (hb s) (hb s')) (wadd (hc s) (hc s'))
         (wadd (hd s) (hd s')) (wadd (he s) (he s')) (wadd (hf s) (hf s'))
         (wadd (hg s) (hg s')) (wadd (hh s) (hh s')).

Fixpoint blocks (n : nat) (s : hstate) (ws : list word) : hstate :=
  match n with
  | O => s
  | S n' => blocks n' (compress s (take 16 ws)) (drop 16 ws)
  end.

Definition sha256 (m : bytes) : bytes :=
  let p := pad m in
  let s := blocks (length p / 64) H0 (words p) in
  be_bytes 4 (ha s) ++ be_bytes 4 (hb s) ++ be_bytes 4 (hc s) ++ be_bytes 4 (hd s) ++
  be_bytes 4 (he s) ++ be_bytes 4 (hf s) ++ be_bytes 4 (hg s) ++ be_bytes 4 (hh s).

Lemma length_be_bytes k n : length (be_bytes k n) = k.
Proof. unfold be_bytes. by rewrite length_rev, length_fmap, length_seq. Qed.

(** The digest has [sha256.Size] bytes. *)
Lemma length_sha256 m : length (sha256 m) = 32%nat.
Proof. unfold sha256. by rewrite !length_app, !length_be_bytes. Qed.

(** Digests of the FIPS 180-4 test messages. *)
Example sha256_abc :
  hex_EncodeToString (sha256 (str_bytes "abc"))
  = "ba7816bf8f01cfea414140de5dae2223b00361a396177a9cb410ff61f20015ad"%string.
Proof. vm_compute. reflexivity. Qed.

Example sha256_empty :
  hex_EncodeToString (sha256 [])
  = "e3b0c44298fc1c149afbf4c8996fb92427ae41e4649b934ca495991b7852b855"%string.
Proof. vm_compute. reflexivity. Qed.

Example sha256_two_blocks :
  hex_EncodeToString (sha256 (str_bytes "abcdbcdecdefdefgefghfghighijhijkijkljklmklmnlmnomnopnopq"))
  = "248d6a61d20638b8e5c026930c3e6039a33ce45964ff2167f6ecedd419db06c1"%string.
Proof. vm_compute. reflexivity. Qed.

End Sha256.

Abbreviation sha256_sum := Sha256.sha256.
#[global] Opaque Sha256.sha256.
