(* ===== verification/Types.v ===== *)
(** * Data model of the coordination layer

    The structs and enumerations of [coordination/types.go].  Byte slices are
    lists of bytes; a slice whose [nil] value the code distinguishes from the
    empty one is an option.  Pointers to scalars are options.  A field keeps
    its Go name behind a prefix for its struct. *)
From S2P Require Import Prelude.

(** A libp2p [peer.ID] is a Go string holding the raw multihash bytes. *)
Abbreviation peerID := string.

(** Instants are nanoseconds since the Unix epoch; durations are nanoseconds. *)
Abbreviation time := Z.
Abbreviation duration := Z.

(** Go's zero [time.Time]: January 1, year 1, 00:00:00 UTC. *)
Definition time_zero : time := - 62135596800 * 10 ^ 9.
Definition time_IsZero (t : time) : bool := t =? time_zero.
Definition UnixMilli (t : time) : Z := t / 10 ^ 6.
Definition Unix (t : time) : Z := t / 10 ^ 9.
Definition time_UnixMilli (ms : Z) : time := ms * 10 ^ 6.

(** [t.Sub(u)]: the difference, saturated to the range of a duration. *)
Definition time_Sub (t u : time) : duration :=
  Z.max (- 2 ^ 63) (Z.min (2 ^ 63 - 1) (t - u)).

Definition Millisecond : duration := 10 ^ 6.
Definition Second : duration := 10 ^ 9.
Definition Minute : duration := 60 * Second.
Definition Hour : duration := 60 * Minute.

(** ** Errors

    The sentinel errors (those of other packages are [ErrSentinel] with
    their text), formatted errors and wrapping with [%w]. *)
Inductive GoError :=
| ErrNotTokenHolder
| ErrStaleEpoch
| ErrFutureEpoch
| ErrGroupNotFound
| ErrNoActiveView
| ErrInvalidConfig
| ErrAccessRevoked
| ErrClockDrift
| ErrSentinel (msg : string)
| ErrText (msg : string)
| ErrWrap (context : string) (inner : GoError).

#[export] Instance GoError_eq_dec : EqDecision GoError.
Proof. solve_decision. Defined.

(** [errors.Is(err, target)] for a sentinel [target]. *)
Fixpoint errors_Is (e target : GoError) : bool :=
  bool_decide (e = target) ||
  match e with ErrWrap _ i => errors_Is i target | _ => false end.

(** [err.Error()]; a formatted message is kept as the text that names it. *)
Fixpoint err_Error (e : GoError) : string :=
  match e with
  | ErrNotTokenHolder => "coordination: not the current epoch token holder"
  | ErrStaleEpoch => "coordination: message epoch is behind local epoch"
  | ErrFutureEpoch => "coordination: message epoch is ahead of local epoch"
  | ErrGroupNotFound => "coordination: group not found"
  | ErrNoActiveView => "coordination: active view is empty"
  | ErrInvalidConfig => "coordination: invalid configuration"
  | ErrAccessRevoked => "coordination: local membership revoked"
  | ErrClockDrift => "hlc: clock drift limit exceeded"
  | ErrSentinel s => s
  | ErrText s => s
  | ErrWrap c i => c +:+ ": " +:+ err_Error i
  end.

(** Result of a fallible Go call returning [(A, error)]. *)
Abbreviation result A := (A + GoError)%type.

(** ** HLC timestamps *)

(** [HLCTimestamp]: physical component, logical counter, node id. *)
Record HLCTimestamp := mkHLC {
  WallTimeMs : Z;
  Counter : Z;
  NodeID : string;
}.

#[export] Instance HLCTimestamp_eq_dec : EqDecision HLCTimestamp.
Proof. solve_decision. Defined.

(** [HLCTimestamp.Before] *)
Definition Before (t other : HLCTimestamp) : bool :=
  if negb (WallTimeMs t =? WallTimeMs other) then WallTimeMs t <? WallTimeMs other
  else if negb (Counter t =? Counter other) then Counter t <? Counter other
  else str_ltb (NodeID t) (NodeID other).

(** [HLCTimestamp.Equal] *)
Definition Equal (t other : HLCTimestamp) : bool :=
  (WallTimeMs t =? WallTimeMs other) && (Counter t =? Counter other)
  && str_eqb (NodeID t) (NodeID other).

(** [HLCTimestamp.IsZero] *)
Definition IsZero (t : HLCTimestamp) : bool :=
  (WallTimeMs t =? 0) && (Counter t =? 0) && str_eqb (NodeID t) "".

(** The zero value of the struct. *)
Definition hlc_zero : HLCTimestamp := mkHLC 0 0 "".

(** ** Message and proposal kinds

    [MessageType] is a string on the wire and [ProposalType] an integer, so a
    value outside the named constants can arrive. *)
Abbreviation MessageType := string.
Definition MsgProposal : MessageType := "proposal".
Definition MsgCommit : MessageType := "commit".
Definition MsgHeartbeat : MessageType := "heartbeat".
Definition MsgAnnounce : MessageType := "announce".
Definition MsgEpochNotify : MessageType := "epoch_notify".
Definition MsgApplication : MessageType := "application".
Definition MsgApplicationBatched : MessageType := "application_batched".
Definition MsgDeliveryAck : MessageType := "delivery_ack".
Definition MsgHistoryQuery : MessageType := "history_query".
Definition MsgHistoryReply : MessageType := "history_reply".

Abbreviation ProposalType := Z.
Definition ProposalAdd : ProposalType := 0.
Definition ProposalRemove : ProposalType := 1.
Definition ProposalUpdate : ProposalType := 2.
Definition ProposalJoin : ProposalType := 3.

(** [EpochAction] *)
Inductive EpochAction := ActionProcess | ActionRejectStale | ActionBufferFuture.

(** [BranchResult] *)
Inductive BranchResult := BranchLocal | BranchRemote | BranchEqual.

(** [GroupOperationalMode] *)
Inductive GroupOperationalMode := ModeLive | ModeCatchingUp | ModeFrozen | ModeFrozenForApply.

#[export] Instance EpochAction_eq_dec : EqDecision EpochAction.
Proof. solve_decision. Defined.
#[export] Instance BranchResult_eq_dec : EqDecision BranchResult.
Proof. solve_decision. Defined.
#[export] Instance GroupOperationalMode_eq_dec : EqDecision GroupOperationalMode.
Proof. solve_decision. Defined.

Definition RoleCreator : string := "creator".
Definition RoleMember : string := "member".

(** [GroupTopic] *)
Definition GroupTopic (groupID : string) : string := "/org/group/" +:+ groupID.

(** ** Replay states of a logged envelope *)
Abbreviation ReplayEnvelopeState := string.
Definition ReplayStateReceived : ReplayEnvelopeState := "RECEIVED".
Definition ReplayStateReady : ReplayEnvelopeState := "READY".
Definition ReplayStateApplied : ReplayEnvelopeState := "APPLIED".
Definition ReplayStateDuplicateApplied : ReplayEnvelopeState := "DUPLICATE".
Definition ReplayStateFutureEpoch : ReplayEnvelopeState := "FUTURE_EPOCH".
Definition ReplayStateStaleEpoch : ReplayEnvelopeState := "STALE_EPOCH".
Definition ReplayStateDecryptFailed : ReplayEnvelopeState := "DECRYPT_FAILED".
Definition ReplayStatePersistFailed : ReplayEnvelopeState := "PERSIST_FAILED".
Definition ReplayStateInvalid : ReplayEnvelopeState := "INVALID".
Definition ReplayStateBlockedMissingPriorEpoch : ReplayEnvelopeState := "BLOCKED_MISSING_PRIOR_EPOCH".
Definition ReplayStateBlockedMissingCommit : ReplayEnvelopeState := "BLOCKED_MISSING_COMMIT".
Definition ReplayStateBlockedStaleRequiresSnapshot : ReplayEnvelopeState := "BLOCKED_STALE_REQUIRES_SNAPSHOT".
Definition ReplayStateBlockedDecryptFailed : ReplayEnvelopeState := "BLOCKED_DECRYPT_FAILED".
Definition ReplayStateForkConflict : ReplayEnvelopeState := "FORK_CONFLICT".
Definition ReplayStateWaitingSync : ReplayEnvelopeState := "WAITING_SYNC".
Definition ReplayStateTerminalDroppedWithReason : ReplayEnvelopeState := "TERMINAL_DROPPED_WITH_REASON".

(** [IsPendingApplyState] *)
Definition IsPendingApplyState (state : string) : bool :=
  bool_decide (state ∈ ["pending"; ReplayStateReceived; ReplayStateReady;
    ReplayStateFutureEpoch; ReplayStatePersistFailed;
    ReplayStateBlockedMissingPriorEpoch; ReplayStateBlockedMissingCommit;
    ReplayStateForkConflict; ReplayStateWaitingSync;
    "future_epoch"; "persist_failed"]).

(** ** Structs *)

(** [Envelope]: the wire format of every coordination message; the payload is raw JSON. *)
Record Envelope := mkEnvelope {
  env_Type : MessageType;
  env_GroupID : string;
  env_Epoch : Z;
  env_From : string;
  env_Timestamp : HLCTimestamp;
  env_Payload : bytes;
}.

(** [ProposalMsg] *)
Record ProposalMsg := mkProposalMsg {
  pm_ProposalType : ProposalType;
  pm_Data : bytes;
  pm_ProposalRef : bytes;
  pm_OperationID : string;
  pm_TargetPeerID : string;
  pm_TargetIdentity : bytes;
  pm_RequestID : string;
  pm_GroupType : string;
  pm_CategoryID : string;
  pm_KeyPackageHash : bytes;
}.

(** [AddCommitDelivery] *)
Record AddCommitDelivery := mkAddCommitDelivery {
  ad_OperationID : string;
  ad_TargetPeerID : string;
  ad_RequestID : string;
  ad_GroupType : string;
  ad_CategoryID : string;
  ad_KeyPackageHash : bytes;
  ad_WelcomeHash : bytes;
}.

(** [CommitMsg] *)
Record CommitMsg := mkCommitMsg {
  cm_CommitData : bytes;
  cm_WelcomeData : bytes;
  cm_NewTreeHash : bytes;
  cm_AddDeliveries : list AddCommitDelivery;
  cm_IncludedProposals : list ProposalMsg;
  cm_CommittedProposalRefs : list bytes;
}.

(** [BufferedProposal] *)
Record BufferedProposal := mkBufferedProposal {
  bp_Type : ProposalType;
  bp_Data : bytes;
  bp_ProposalRef : bytes;
  bp_OperationID : string;
  bp_TargetPeerID : string;
  bp_RequestID : string;
  bp_GroupType : string;
  bp_CategoryID : string;
  bp_KeyPackageHash : bytes;
}.

(** [RemoveMemberRequest] *)
Record RemoveMemberRequest := mkRemoveMemberRequest {
  rm_TargetPeerID : peerID;
  rm_TargetIdentity : bytes;
  rm_OperationID : string;
}.

(** [AddMemberRequest] of coordinator_members.go *)
Record AddMemberRequest := mkAddMemberRequest {
  ar_TargetPeerID : peerID;
  ar_KeyPackageBytes : bytes;
  ar_OperationID : string;
  ar_RequestID : string;
  ar_GroupType : string;
  ar_CategoryID : string;
  ar_KeyPackageHash : bytes;
}.

(** [AddMemberResult] *)
Record AddMemberResult := mkAddMemberResult {
  res_OperationID : string;
  res_Deferred : bool;
  res_Welcome : bytes;
  res_CommitEpoch : Z;
  res_Delivery : AddCommitDelivery;
}.

(** [ProposalAuditSummary] *)
Record ProposalAuditSummary := mkProposalAuditSummary {
  pas_GroupID : string;
  pas_Epoch : Z;
  pas_ActorPeerID : string;
  pas_ProposalType : ProposalType;
  pas_OperationID : string;
  pas_TargetPeerID : string;
  pas_RequestID : string;
  pas_GroupType : string;
  pas_CategoryID : string;
  pas_KeyPackageHash : bytes;
}.

(** [CommitAuditProposalSummary] *)
Record CommitAuditProposalSummary := mkCommitAuditProposalSummary {
  cap_ProposalType : ProposalType;
  cap_OperationID : string;
  cap_TargetPeerID : string;
  cap_RequestID : string;
  cap_GroupType : string;
  cap_CategoryID : string;
}.

(** [CommitAuditSummary] *)
Record CommitAuditSummary := mkCommitAuditSummary {
  cas_GroupID : string;
  cas_TokenHolderPeerID : string;
  cas_PrevEpoch : Z;
  cas_NewEpoch : Z;
  cas_Proposals : list CommitAuditProposalSummary;
}.

(** [PendingOperationAuditSummary] *)
Record PendingOperationAuditSummary := mkPendingOperationAuditSummary {
  poa_GroupID : string;
  poa_OperationID : string;
  poa_OpType : string;
  poa_TargetPeerID : string;
  poa_Stage : string;
  poa_RetryCount : Z;
  poa_CurrentEpoch : Z;
  poa_PreconditionEpoch : Z;
  poa_LastError : string;
}.

(** [ForkHealAuditSummary] *)
Record ForkHealAuditSummary := mkForkHealAuditSummary {
  fha_GroupID : string;
  fha_TraceID : string;
  fha_Stage : string;
  fha_WinnerPeerID : string;
  fha_WinnerEpoch : Z;
  fha_NewEpoch : Z;
  fha_FailedStep : string;
  fha_ReplayedMessageCount : Z;
  fha_DurationMs : Z;
}.

(** [GroupStateAnnouncement] *)
Record GroupStateAnnouncement := mkGroupStateAnnouncement {
  ann_TreeHash : bytes;
  ann_MemberCount : Z;
  ann_Epoch : Z;
  ann_CommitHash : bytes;
  ann_HistoryHash : bytes;
}.

(** [EpochNotification] *)
Record EpochNotification := mkEpochNotification {
  en_CurrentEpoch : Z;
  en_TreeHash : bytes;
}.

(** [HistoryQueryMsg] *)
Record HistoryQueryMsg := mkHistoryQueryMsg {
  hq_Epoch : Z;
}.

(** [HistoryReplyMsg] *)
Record HistoryReplyMsg := mkHistoryReplyMsg {
  hr_Epoch : Z;
  hr_HistoryHash : bytes;
  hr_Known : bool;
}.

(** [ApplicationMsg] *)
Record ApplicationMsg := mkApplicationMsg {
  am_Ciphertext : bytes;
}.

(** [BatchedApplicationMsg] *)
Record BatchedApplicationMsg := mkBatchedApplicationMsg {
  bam_Ciphertext : bytes;
}.

(** [ApplicationEventPayload] *)
Record ApplicationEventPayload := mkApplicationEventPayload {
  aep_EventID : string;
  aep_Plaintext : bytes;
  aep_HLC : bytes;
}.

(** [BatchedPlaintext] *)
Record BatchedPlaintext := mkBatchedPlaintext {
  bpt_Events : list ApplicationEventPayload;
}.

(** [DeliveryAckMsg] *)
Record DeliveryAckMsg := mkDeliveryAckMsg {
  ack_EnvelopeHash : bytes;
}.

(** [GroupRecord]: the persistent state of an MLS group. *)
Record GroupRecord := mkGroupRecord {
  gr_GroupID : string;
  gr_GroupState : bytes;
  gr_Epoch : Z;
  gr_TreeHash : bytes;
  gr_MyRole : string;
  gr_GroupType : string;
  gr_CategoryID : string;
  gr_DMCounterpartyPeerID : string;
  gr_CreatedAt : time;
  gr_UpdatedAt : time;
}.

(** [CoordState]: the persistent coordination metadata of a group. *)
Record CoordState := mkCoordState {
  cs_GroupID : string;
  cs_ActiveView : list peerID;
  cs_TokenHolder : peerID;
  cs_LastCommitHash : bytes;
  cs_LastCommitAt : time;
  cs_PendingProposals : list bytes;
  cs_HistoryChain : gmap Z bytes;
}.

(** [StoredMessage]; the message id is the hex envelope hash. *)
Record StoredMessage := mkStoredMessage {
  sm_MessageID : string;
  sm_GroupID : string;
  sm_Epoch : Z;
  sm_SenderID : peerID;
  sm_Content : bytes;
  sm_Timestamp : HLCTimestamp;
  sm_LocalEchoToken : string;
  sm_EnvelopeHash : bytes;
  sm_CommentCount : Z;
  sm_ReplayedAt : option Z;
  sm_SupersedesMessageID : string;
}.
Definition set_sm_MessageID (v : string) (r : StoredMessage) : StoredMessage :=
  {| sm_MessageID := v; sm_GroupID := sm_GroupID r; sm_Epoch := sm_Epoch r; sm_SenderID :=
     sm_SenderID r; sm_Content := sm_Content r; sm_Timestamp := sm_Timestamp r;
     sm_LocalEchoToken := sm_LocalEchoToken r; sm_EnvelopeHash := sm_EnvelopeHash r;
     sm_CommentCount := sm_CommentCount r; sm_ReplayedAt := sm_ReplayedAt r;
     sm_SupersedesMessageID := sm_SupersedesMessageID r |}.
Definition set_sm_EnvelopeHash (v : bytes) (r : StoredMessage) : StoredMessage :=
  {| sm_MessageID := sm_MessageID r; sm_GroupID := sm_GroupID r; sm_Epoch := sm_Epoch r;
     sm_SenderID := sm_SenderID r; sm_Content := sm_Content r; sm_Timestamp := sm_Timestamp
     r; sm_LocalEchoToken := sm_LocalEchoToken r; sm_EnvelopeHash := v; sm_CommentCount :=
     sm_CommentCount r; sm_ReplayedAt := sm_ReplayedAt r; sm_SupersedesMessageID :=
     sm_SupersedesMessageID r |}.
Definition set_sm_ReplayedAt (v : option Z) (r : StoredMessage) : StoredMessage :=
  {| sm_MessageID := sm_MessageID r; sm_GroupID := sm_GroupID r; sm_Epoch := sm_Epoch r;
     sm_SenderID := sm_SenderID r; sm_Content := sm_Content r; sm_Timestamp := sm_Timestamp
     r; sm_LocalEchoToken := sm_LocalEchoToken r; sm_EnvelopeHash := sm_EnvelopeHash r;
     sm_CommentCount := sm_CommentCount r; sm_ReplayedAt := v; sm_SupersedesMessageID :=
     sm_SupersedesMessageID r |}.

(** [EnvelopeRecord]: one row of the offline envelope log. *)
Record EnvelopeRecord := mkEnvelopeRecord {
  er_Seq : Z;
  er_GroupID : string;
  er_MsgType : MessageType;
  er_Epoch : Z;
  er_Envelope : bytes;
  er_Timestamp : HLCTimestamp;
  er_EnvelopeHash : bytes;
  er_SourcePath : string;
  er_ApplyState : string;
  er_LastApplyError : string;
  er_LastApplyAttemptAt : Z;
  er_AppliedAt : Z;
  er_FirstSeenAtMs : Z;
  er_ReceivedAtMs : Z;
}.
Definition set_er_ApplyState (v : string) (r : EnvelopeRecord) : EnvelopeRecord :=
  {| er_Seq := er_Seq r; er_GroupID := er_GroupID r; er_MsgType := er_MsgType r; er_Epoch :=
     er_Epoch r; er_Envelope := er_Envelope r; er_Timestamp := er_Timestamp r;
     er_EnvelopeHash := er_EnvelopeHash r; er_SourcePath := er_SourcePath r; er_ApplyState :=
     v; er_LastApplyError := er_LastApplyError r; er_LastApplyAttemptAt :=
     er_LastApplyAttemptAt r; er_AppliedAt := er_AppliedAt r; er_FirstSeenAtMs :=
     er_FirstSeenAtMs r; er_ReceivedAtMs := er_ReceivedAtMs r |}.
Definition set_er_LastApplyError (v : string) (r : EnvelopeRecord) : EnvelopeRecord :=
  {| er_Seq := er_Seq r; er_GroupID := er_GroupID r; er_MsgType := er_MsgType r; er_Epoch :=
     er_Epoch r; er_Envelope := er_Envelope r; er_Timestamp := er_Timestamp r;
     er_EnvelopeHash := er_EnvelopeHash r; er_SourcePath := er_SourcePath r; er_ApplyState :=
     er_ApplyState r; er_LastApplyError := v; er_LastApplyAttemptAt := er_LastApplyAttemptAt
     r; er_AppliedAt := er_AppliedAt r; er_FirstSeenAtMs := er_FirstSeenAtMs r;
     er_ReceivedAtMs := er_ReceivedAtMs r |}.
Definition set_er_LastApplyAttemptAt (v : Z) (r : EnvelopeRecord) : EnvelopeRecord :=
  {| er_Seq := er_Seq r; er_GroupID := er_GroupID r; er_MsgType := er_MsgType r; er_Epoch :=
     er_Epoch r; er_Envelope := er_Envelope r; er_Timestamp := er_Timestamp r;
     er_EnvelopeHash := er_EnvelopeHash r; er_SourcePath := er_SourcePath r; er_ApplyState :=
     er_ApplyState r; er_LastApplyError := er_LastApplyError r; er_LastApplyAttemptAt := v;
     er_AppliedAt := er_AppliedAt r; er_FirstSeenAtMs := er_FirstSeenAtMs r; er_ReceivedAtMs
     := er_ReceivedAtMs r |}.
Definition set_er_AppliedAt (v : Z) (r : EnvelopeRecord) : EnvelopeRecord :=
  {| er_Seq := er_Seq r; er_GroupID := er_GroupID r; er_MsgType := er_MsgType r; er_Epoch :=
     er_Epoch r; er_Envelope := er_Envelope r; er_Timestamp := er_Timestamp r;
     er_EnvelopeHash := er_EnvelopeHash r; er_SourcePath := er_SourcePath r; er_ApplyState :=
     er_ApplyState r; er_LastApplyError := er_LastApplyError r; er_LastApplyAttemptAt :=
     er_LastApplyAttemptAt r; er_AppliedAt := v; er_FirstSeenAtMs := er_FirstSeenAtMs r;
     er_ReceivedAtMs := er_ReceivedAtMs r |}.
Definition set_er_ReceivedAtMs (v : Z) (r : EnvelopeRecord) : EnvelopeRecord :=
  {| er_Seq := er_Seq r; er_GroupID := er_GroupID r; er_MsgType := er_MsgType r; er_Epoch :=
     er_Epoch r; er_Envelope := er_Envelope r; er_Timestamp := er_Timestamp r;
     er_EnvelopeHash := er_EnvelopeHash r; er_SourcePath := er_SourcePath r; er_ApplyState :=
     er_ApplyState r; er_LastApplyError := er_LastApplyError r; er_LastApplyAttemptAt :=
     er_LastApplyAttemptAt r; er_AppliedAt := er_AppliedAt r; er_FirstSeenAtMs :=
     er_FirstSeenAtMs r; er_ReceivedAtMs := v |}.

(** [ReplayEnvelopeResult] *)
Record ReplayEnvelopeResult := mkReplayEnvelopeResult {
  rr_GroupID : string;
  rr_MsgType : MessageType;
  rr_EnvelopeHash : bytes;
  rr_State : ReplayEnvelopeState;
  rr_Seq : Z;
  rr_MsgEpoch : Z;
  rr_LocalEpoch : Z;
  rr_Error : string;
  rr_Terminal : bool;
  rr_CursorSafe : bool;
  rr_Applied : bool;
  rr_AlreadyApplied : bool;
}.
Definition set_rr_EnvelopeHash (v : bytes) (r : ReplayEnvelopeResult) : ReplayEnvelopeResult :=
  {| rr_GroupID := rr_GroupID r; rr_MsgType := rr_MsgType r; rr_EnvelopeHash := v; rr_State
     := rr_State r; rr_Seq := rr_Seq r; rr_MsgEpoch := rr_MsgEpoch r; rr_LocalEpoch :=
     rr_LocalEpoch r; rr_Error := rr_Error r; rr_Terminal := rr_Terminal r; rr_CursorSafe :=
     rr_CursorSafe r; rr_Applied := rr_Applied r; rr_AlreadyApplied := rr_AlreadyApplied r |}.
Definition set_rr_State (v : ReplayEnvelopeState) (r : ReplayEnvelopeResult) : ReplayEnvelopeResult :=
  {| rr_GroupID := rr_GroupID r; rr_MsgType := rr_MsgType r; rr_EnvelopeHash :=
     rr_EnvelopeHash r; rr_State := v; rr_Seq := rr_Seq r; rr_MsgEpoch := rr_MsgEpoch r;
     rr_LocalEpoch := rr_LocalEpoch r; rr_Error := rr_Error r; rr_Terminal := rr_Terminal r;
     rr_CursorSafe := rr_CursorSafe r; rr_Applied := rr_Applied r; rr_AlreadyApplied :=
     rr_AlreadyApplied r |}.
Definition set_rr_Error (v : string) (r : ReplayEnvelopeResult) : ReplayEnvelopeResult :=
  {| rr_GroupID := rr_GroupID r; rr_MsgType := rr_MsgType r; rr_EnvelopeHash :=
     rr_EnvelopeHash r; rr_State := rr_State r; rr_Seq := rr_Seq r; rr_MsgEpoch :=
     rr_MsgEpoch r; rr_LocalEpoch := rr_LocalEpoch r; rr_Error := v; rr_Terminal :=
     rr_Terminal r; rr_CursorSafe := rr_CursorSafe r; rr_Applied := rr_Applied r;
     rr_AlreadyApplied := rr_AlreadyApplied r |}.
Definition set_rr_Terminal (v : bool) (r : ReplayEnvelopeResult) : ReplayEnvelopeResult :=
  {| rr_GroupID := rr_GroupID r; rr_MsgType := rr_MsgType r; rr_EnvelopeHash :=
     rr_EnvelopeHash r; rr_State := rr_State r; rr_Seq := rr_Seq r; rr_MsgEpoch :=
     rr_MsgEpoch r; rr_LocalEpoch := rr_LocalEpoch r; rr_Error := rr_Error r; rr_Terminal :=
     v; rr_CursorSafe := rr_CursorSafe r; rr_Applied := rr_Applied r; rr_AlreadyApplied :=
     rr_AlreadyApplied r |}.
Definition set_rr_CursorSafe (v : bool) (r : ReplayEnvelopeResult) : ReplayEnvelopeResult :=
  {| rr_GroupID := rr_GroupID r; rr_MsgType := rr_MsgType r; rr_EnvelopeHash :=
     rr_EnvelopeHash r; rr_State := rr_State r; rr_Seq := rr_Seq r; rr_MsgEpoch :=
     rr_MsgEpoch r; rr_LocalEpoch := rr_LocalEpoch r; rr_Error := rr_Error r; rr_Terminal :=
     rr_Terminal r; rr_CursorSafe := v; rr_Applied := rr_Applied r; rr_AlreadyApplied :=
     rr_AlreadyApplied r |}.
Definition set_rr_Applied (v : bool) (r : ReplayEnvelopeResult) : ReplayEnvelopeResult :=
  {| rr_GroupID := rr_GroupID r; rr_MsgType := rr_MsgType r; rr_EnvelopeHash :=
     rr_EnvelopeHash r; rr_State := rr_State r; rr_Seq := rr_Seq r; rr_MsgEpoch :=
     rr_MsgEpoch r; rr_LocalEpoch := rr_LocalEpoch r; rr_Error := rr_Error r; rr_Terminal :=
     rr_Terminal r; rr_CursorSafe := rr_CursorSafe r; rr_Applied := v; rr_AlreadyApplied :=
     rr_AlreadyApplied r |}.
Definition set_rr_AlreadyApplied (v : bool) (r : ReplayEnvelopeResult) : ReplayEnvelopeResult :=
  {| rr_GroupID := rr_GroupID r; rr_MsgType := rr_MsgType r; rr_EnvelopeHash :=
     rr_EnvelopeHash r; rr_State := rr_State r; rr_Seq := rr_Seq r; rr_MsgEpoch :=
     rr_MsgEpoch r; rr_LocalEpoch := rr_LocalEpoch r; rr_Error := rr_Error r; rr_Terminal :=
     rr_Terminal r; rr_CursorSafe := rr_CursorSafe r; rr_Applied := rr_Applied r;
     rr_AlreadyApplied := v |}.

(** [PendingDeliveryAckRow] *)
Record PendingDeliveryAckRow := mkPendingDeliveryAckRow {
  pda_ID : Z;
  pda_TargetPeerID : string;
  pda_GroupID : string;
  pda_AckedSeq : Z;
}.

(** [ForkHealEventRecord] *)
Record ForkHealEventRecord := mkForkHealEventRecord {
  fhe_TraceID : string;
  fhe_GroupID : string;
  fhe_WinnerPeerID : string;
  fhe_WinnerEpoch : Z;
  fhe_NewEpoch : Z;
  fhe_Outcome : string;
  fhe_FailedStep : string;
  fhe_WinnerTreeHash : bytes;
  fhe_NewTreeHash : bytes;
  fhe_PartitionStartedAtMs : Z;
  fhe_ScheduledAtMs : Z;
  fhe_StartedAtMs : Z;
  fhe_CompletedAtMs : Z;
  fhe_DurationMs : Z;
  fhe_TotalMs : Z;
  fhe_ReplayedMessageCount : Z;
}.

(** [ForkHealAuditRecord] *)
Record ForkHealAuditRecord := mkForkHealAuditRecord {
  fhr_TraceID : string;
  fhr_GroupID : string;
  fhr_Step : string;
  fhr_Status : string;
  fhr_TimestampMs : Z;
  fhr_DurationMs : Z;
  fhr_Error : string;
}.

(** [PendingOperation]: a durable user intention. *)
Record PendingOperation := mkPendingOperation {
  po_OperationID : string;
  po_GroupID : string;
  po_OpType : string;
  po_IdempotencyKey : option string;
  po_OperationHash : bytes;
  po_PreconditionEpoch : option Z;
  po_PreconditionStateHash : bytes;
  po_TargetMemberID : option string;
  po_SemanticPayload : bytes;
  po_LatestProposalHash : bytes;
  po_Status : string;
  po_RetryCount : Z;
  po_ExpiresAt : option Z;
  po_LastError : option string;
  po_CreatedAt : time;
  po_UpdatedAt : time;
}.
Definition set_po_IdempotencyKey (v : option string) (r : PendingOperation) : PendingOperation :=
  {| po_OperationID := po_OperationID r; po_GroupID := po_GroupID r; po_OpType := po_OpType
     r; po_IdempotencyKey := v; po_OperationHash := po_OperationHash r; po_PreconditionEpoch
     := po_PreconditionEpoch r; po_PreconditionStateHash := po_PreconditionStateHash r;
     po_TargetMemberID := po_TargetMemberID r; po_SemanticPayload := po_SemanticPayload r;
     po_LatestProposalHash := po_LatestProposalHash r; po_Status := po_Status r;
     po_RetryCount := po_RetryCount r; po_ExpiresAt := po_ExpiresAt r; po_LastError :=
     po_LastError r; po_CreatedAt := po_CreatedAt r; po_UpdatedAt := po_UpdatedAt r |}.
Definition set_po_PreconditionEpoch (v : option Z) (r : PendingOperation) : PendingOperation :=
  {| po_OperationID := po_OperationID r; po_GroupID := po_GroupID r; po_OpType := po_OpType
     r; po_IdempotencyKey := po_IdempotencyKey r; po_OperationHash := po_OperationHash r;
     po_PreconditionEpoch := v; po_PreconditionStateHash := po_PreconditionStateHash r;
     po_TargetMemberID := po_TargetMemberID r; po_SemanticPayload := po_SemanticPayload r;
     po_LatestProposalHash := po_LatestProposalHash r; po_Status := po_Status r;
     po_RetryCount := po_RetryCount r; po_ExpiresAt := po_ExpiresAt r; po_LastError :=
     po_LastError r; po_CreatedAt := po_CreatedAt r; po_UpdatedAt := po_UpdatedAt r |}.
Definition set_po_LatestProposalHash (v : bytes) (r : PendingOperation) : PendingOperation :=
  {| po_OperationID := po_OperationID r; po_GroupID := po_GroupID r; po_OpType := po_OpType
     r; po_IdempotencyKey := po_IdempotencyKey r; po_OperationHash := po_OperationHash r;
     po_PreconditionEpoch := po_PreconditionEpoch r; po_PreconditionStateHash :=
     po_PreconditionStateHash r; po_TargetMemberID := po_TargetMemberID r; po_SemanticPayload
     := po_SemanticPayload r; po_LatestProposalHash := v; po_Status := po_Status r;
     po_RetryCount := po_RetryCount r; po_ExpiresAt := po_ExpiresAt r; po_LastError :=
     po_LastError r; po_CreatedAt := po_CreatedAt r; po_UpdatedAt := po_UpdatedAt r |}.
Definition set_po_Status (v : string) (r : PendingOperation) : PendingOperation :=
  {| po_OperationID := po_OperationID r; po_GroupID := po_GroupID r; po_OpType := po_OpType
     r; po_IdempotencyKey := po_IdempotencyKey r; po_OperationHash := po_OperationHash r;
     po_PreconditionEpoch := po_PreconditionEpoch r; po_PreconditionStateHash :=
     po_PreconditionStateHash r; po_TargetMemberID := po_TargetMemberID r; po_SemanticPayload
     := po_SemanticPayload r; po_LatestProposalHash := po_LatestProposalHash r; po_Status :=
     v; po_RetryCount := po_RetryCount r; po_ExpiresAt := po_ExpiresAt r; po_LastError :=
     po_LastError r; po_CreatedAt := po_CreatedAt r; po_UpdatedAt := po_UpdatedAt r |}.
Definition set_po_RetryCount (v : Z) (r : PendingOperation) : PendingOperation :=
  {| po_OperationID := po_OperationID r; po_GroupID := po_GroupID r; po_OpType := po_OpType
     r; po_IdempotencyKey := po_IdempotencyKey r; po_OperationHash := po_OperationHash r;
     po_PreconditionEpoch := po_PreconditionEpoch r; po_PreconditionStateHash :=
     po_PreconditionStateHash r; po_TargetMemberID := po_TargetMemberID r; po_SemanticPayload
     := po_SemanticPayload r; po_LatestProposalHash := po_LatestProposalHash r; po_Status :=
     po_Status r; po_RetryCount := v; po_ExpiresAt := po_ExpiresAt r; po_LastError :=
     po_LastError r; po_CreatedAt := po_CreatedAt r; po_UpdatedAt := po_UpdatedAt r |}.
Definition set_po_LastError (v : option string) (r : PendingOperation) : PendingOperation :=
  {| po_OperationID := po_OperationID r; po_GroupID := po_GroupID r; po_OpType := po_OpType
     r; po_IdempotencyKey := po_IdempotencyKey r; po_OperationHash := po_OperationHash r;
     po_PreconditionEpoch := po_PreconditionEpoch r; po_PreconditionStateHash :=
     po_PreconditionStateHash r; po_TargetMemberID := po_TargetMemberID r; po_SemanticPayload
     := po_SemanticPayload r; po_LatestProposalHash := po_LatestProposalHash r; po_Status :=
     po_Status r; po_RetryCount := po_RetryCount r; po_ExpiresAt := po_ExpiresAt r;
     po_LastError := v; po_CreatedAt := po_CreatedAt r; po_UpdatedAt := po_UpdatedAt r |}.
Definition set_po_UpdatedAt (v : time) (r : PendingOperation) : PendingOperation :=
  {| po_OperationID := po_OperationID r; po_GroupID := po_GroupID r; po_OpType := po_OpType
     r; po_IdempotencyKey := po_IdempotencyKey r; po_OperationHash := po_OperationHash r;
     po_PreconditionEpoch := po_PreconditionEpoch r; po_PreconditionStateHash :=
     po_PreconditionStateHash r; po_TargetMemberID := po_TargetMemberID r; po_SemanticPayload
     := po_SemanticPayload r; po_LatestProposalHash := po_LatestProposalHash r; po_Status :=
     po_Status r; po_RetryCount := po_RetryCount r; po_ExpiresAt := po_ExpiresAt r;
     po_LastError := po_LastError r; po_CreatedAt := po_CreatedAt r; po_UpdatedAt := v |}.

(** [ForkHealingJob]: the durable record of a fork-heal attempt. *)
Record ForkHealingJob := mkForkHealingJob {
  job_JobID : string;
  job_GroupID : string;
  job_TraceID : string;
  job_Status : string;
  job_LosingBranchID : string;
  job_WinningBranchID : string;
  job_ForkBaseEpoch : Z;
  job_LosingEpoch : Z;
  job_WinningEpoch : Z;
  job_LosingTreeHash : bytes;
  job_WinningTreeHash : bytes;
  job_WinningCommitHash : bytes;
  job_WinningGroupInfoHash : bytes;
  job_WinnerPeerID : string;
  job_WinnerGroupInfo : bytes;
  job_BranchWeightJSON : string;
  job_PendingGroupState : bytes;
  job_PendingEpoch : Z;
  job_PendingTreeHash : bytes;
  job_PendingBundlePrivate : bytes;
  job_ErrorMessage : string;
  job_RetryCount : Z;
  job_CreatedAtMs : Z;
  job_UpdatedAtMs : Z;
  job_CompletedAtMs : Z;
}.
Definition set_job_Status (v : string) (r : ForkHealingJob) : ForkHealingJob :=
  {| job_JobID := job_JobID r; job_GroupID := job_GroupID r; job_TraceID := job_TraceID r;
     job_Status := v; job_LosingBranchID := job_LosingBranchID r; job_WinningBranchID :=
     job_WinningBranchID r; job_ForkBaseEpoch := job_ForkBaseEpoch r; job_LosingEpoch :=
     job_LosingEpoch r; job_WinningEpoch := job_WinningEpoch r; job_LosingTreeHash :=
     job_LosingTreeHash r; job_WinningTreeHash := job_WinningTreeHash r;
     job_WinningCommitHash := job_WinningCommitHash r; job_WinningGroupInfoHash :=
     job_WinningGroupInfoHash r; job_WinnerPeerID := job_WinnerPeerID r; job_WinnerGroupInfo
     := job_WinnerGroupInfo r; job_BranchWeightJSON := job_BranchWeightJSON r;
     job_PendingGroupState := job_PendingGroupState r; job_PendingEpoch := job_PendingEpoch
     r; job_PendingTreeHash := job_PendingTreeHash r; job_PendingBundlePrivate :=
     job_PendingBundlePrivate r; job_ErrorMessage := job_ErrorMessage r; job_RetryCount :=
     job_RetryCount r; job_CreatedAtMs := job_CreatedAtMs r; job_UpdatedAtMs :=
     job_UpdatedAtMs r; job_CompletedAtMs := job_CompletedAtMs r |}.
Definition set_job_WinningEpoch (v : Z) (r : ForkHealingJob) : ForkHealingJob :=
  {| job_JobID := job_JobID r; job_GroupID := job_GroupID r; job_TraceID := job_TraceID r;
     job_Status := job_Status r; job_LosingBranchID := job_LosingBranchID r;
     job_WinningBranchID := job_WinningBranchID r; job_ForkBaseEpoch := job_ForkBaseEpoch r;
     job_LosingEpoch := job_LosingEpoch r; job_WinningEpoch := v; job_LosingTreeHash :=
     job_LosingTreeHash r; job_WinningTreeHash := job_WinningTreeHash r;
     job_WinningCommitHash := job_WinningCommitHash r; job_WinningGroupInfoHash :=
     job_WinningGroupInfoHash r; job_WinnerPeerID := job_WinnerPeerID r; job_WinnerGroupInfo
     := job_WinnerGroupInfo r; job_BranchWeightJSON := job_BranchWeightJSON r;
     job_PendingGroupState := job_PendingGroupState r; job_PendingEpoch := job_PendingEpoch
     r; job_PendingTreeHash := job_PendingTreeHash r; job_PendingBundlePrivate :=
     job_PendingBundlePrivate r; job_ErrorMessage := job_ErrorMessage r; job_RetryCount :=
     job_RetryCount r; job_CreatedAtMs := job_CreatedAtMs r; job_UpdatedAtMs :=
     job_UpdatedAtMs r; job_CompletedAtMs := job_CompletedAtMs r |}.
Definition set_job_WinningTreeHash (v : bytes) (r : ForkHealingJob) : ForkHealingJob :=
  {| job_JobID := job_JobID r; job_GroupID := job_GroupID r; job_TraceID := job_TraceID r;
     job_Status := job_Status r; job_LosingBranchID := job_LosingBranchID r;
     job_WinningBranchID := job_WinningBranchID r; job_ForkBaseEpoch := job_ForkBaseEpoch r;
     job_LosingEpoch := job_LosingEpoch r; job_WinningEpoch := job_WinningEpoch r;
     job_LosingTreeHash := job_LosingTreeHash r; job_WinningTreeHash := v;
     job_WinningCommitHash := job_WinningCommitHash r; job_WinningGroupInfoHash :=
     job_WinningGroupInfoHash r; job_WinnerPeerID := job_WinnerPeerID r; job_WinnerGroupInfo
     := job_WinnerGroupInfo r; job_BranchWeightJSON := job_BranchWeightJSON r;
     job_PendingGroupState := job_PendingGroupState r; job_PendingEpoch := job_PendingEpoch
     r; job_PendingTreeHash := job_PendingTreeHash r; job_PendingBundlePrivate :=
     job_PendingBundlePrivate r; job_ErrorMessage := job_ErrorMessage r; job_RetryCount :=
     job_RetryCount r; job_CreatedAtMs := job_CreatedAtMs r; job_UpdatedAtMs :=
     job_UpdatedAtMs r; job_CompletedAtMs := job_CompletedAtMs r |}.
Definition set_job_PendingGroupState (v : bytes) (r : ForkHealingJob) : ForkHealingJob :=
  {| job_JobID := job_JobID r; job_GroupID := job_GroupID r; job_TraceID := job_TraceID r;
     job_Status := job_Status r; job_LosingBranchID := job_LosingBranchID r;
     job_WinningBranchID := job_WinningBranchID r; job_ForkBaseEpoch := job_ForkBaseEpoch r;
     job_LosingEpoch := job_LosingEpoch r; job_WinningEpoch := job_WinningEpoch r;
     job_LosingTreeHash := job_LosingTreeHash r; job_WinningTreeHash := job_WinningTreeHash
     r; job_WinningCommitHash := job_WinningCommitHash r; job_WinningGroupInfoHash :=
     job_WinningGroupInfoHash r; job_WinnerPeerID := job_WinnerPeerID r; job_WinnerGroupInfo
     := job_WinnerGroupInfo r; job_BranchWeightJSON := job_BranchWeightJSON r;
     job_PendingGroupState := v; job_PendingEpoch := job_PendingEpoch r; job_PendingTreeHash
     := job_PendingTreeHash r; job_PendingBundlePrivate := job_PendingBundlePrivate r;
     job_ErrorMessage := job_ErrorMessage r; job_RetryCount := job_RetryCount r;
     job_CreatedAtMs := job_CreatedAtMs r; job_UpdatedAtMs := job_UpdatedAtMs r;
     job_CompletedAtMs := job_CompletedAtMs r |}.
Definition set_job_PendingEpoch (v : Z) (r : ForkHealingJob) : ForkHealingJob :=
  {| job_JobID := job_JobID r; job_GroupID := job_GroupID r; job_TraceID := job_TraceID r;
     job_Status := job_Status r; job_LosingBranchID := job_LosingBranchID r;
     job_WinningBranchID := job_WinningBranchID r; job_ForkBaseEpoch := job_ForkBaseEpoch r;
     job_LosingEpoch := job_LosingEpoch r; job_WinningEpoch := job_WinningEpoch r;
     job_LosingTreeHash := job_LosingTreeHash r; job_WinningTreeHash := job_WinningTreeHash
     r; job_WinningCommitHash := job_WinningCommitHash r; job_WinningGroupInfoHash :=
     job_WinningGroupInfoHash r; job_WinnerPeerID := job_WinnerPeerID r; job_WinnerGroupInfo
     := job_WinnerGroupInfo r; job_BranchWeightJSON := job_BranchWeightJSON r;
     job_PendingGroupState := job_PendingGroupState r; job_PendingEpoch := v;
     job_PendingTreeHash := job_PendingTreeHash r; job_PendingBundlePrivate :=
     job_PendingBundlePrivate r; job_ErrorMessage := job_ErrorMessage r; job_RetryCount :=
     job_RetryCount r; job_CreatedAtMs := job_CreatedAtMs r; job_UpdatedAtMs :=
     job_UpdatedAtMs r; job_CompletedAtMs := job_CompletedAtMs r |}.
Definition set_job_PendingTreeHash (v : bytes) (r : ForkHealingJob) : ForkHealingJob :=
  {| job_JobID := job_JobID r; job_GroupID := job_GroupID r; job_TraceID := job_TraceID r;
     job_Status := job_Status r; job_LosingBranchID := job_LosingBranchID r;
     job_WinningBranchID := job_WinningBranchID r; job_ForkBaseEpoch := job_ForkBaseEpoch r;
     job_LosingEpoch := job_LosingEpoch r; job_WinningEpoch := job_WinningEpoch r;
     job_LosingTreeHash := job_LosingTreeHash r; job_WinningTreeHash := job_WinningTreeHash
     r; job_WinningCommitHash := job_WinningCommitHash r; job_WinningGroupInfoHash :=
     job_WinningGroupInfoHash r; job_WinnerPeerID := job_WinnerPeerID r; job_WinnerGroupInfo
     := job_WinnerGroupInfo r; job_BranchWeightJSON := job_BranchWeightJSON r;
     job_PendingGroupState := job_PendingGroupState r; job_PendingEpoch := job_PendingEpoch
     r; job_PendingTreeHash := v; job_PendingBundlePrivate := job_PendingBundlePrivate r;
     job_ErrorMessage := job_ErrorMessage r; job_RetryCount := job_RetryCount r;
     job_CreatedAtMs := job_CreatedAtMs r; job_UpdatedAtMs := job_UpdatedAtMs r;
     job_CompletedAtMs := job_CompletedAtMs r |}.
Definition set_job_PendingBundlePrivate (v : bytes) (r : ForkHealingJob) : ForkHealingJob :=
  {| job_JobID := job_JobID r; job_GroupID := job_GroupID r; job_TraceID := job_TraceID r;
     job_Status := job_Status r; job_LosingBranchID := job_LosingBranchID r;
     job_WinningBranchID := job_WinningBranchID r; job_ForkBaseEpoch := job_ForkBaseEpoch r;
     job_LosingEpoch := job_LosingEpoch r; job_WinningEpoch := job_WinningEpoch r;
     job_LosingTreeHash := job_LosingTreeHash r; job_WinningTreeHash := job_WinningTreeHash
     r; job_WinningCommitHash := job_WinningCommitHash r; job_WinningGroupInfoHash :=
     job_WinningGroupInfoHash r; job_WinnerPeerID := job_WinnerPeerID r; job_WinnerGroupInfo
     := job_WinnerGroupInfo r; job_BranchWeightJSON := job_BranchWeightJSON r;
     job_PendingGroupState := job_PendingGroupState r; job_PendingEpoch := job_PendingEpoch
     r; job_PendingTreeHash := job_PendingTreeHash r; job_PendingBundlePrivate := v;
     job_ErrorMessage := job_ErrorMessage r; job_RetryCount := job_RetryCount r;
     job_CreatedAtMs := job_CreatedAtMs r; job_UpdatedAtMs := job_UpdatedAtMs r;
     job_CompletedAtMs := job_CompletedAtMs r |}.
Definition set_job_UpdatedAtMs (v : Z) (r : ForkHealingJob) : ForkHealingJob :=
  {| job_JobID := job_JobID r; job_GroupID := job_GroupID r; job_TraceID := job_TraceID r;
     job_Status := job_Status r; job_LosingBranchID := job_LosingBranchID r;
     job_WinningBranchID := job_WinningBranchID r; job_ForkBaseEpoch := job_ForkBaseEpoch r;
     job_LosingEpoch := job_LosingEpoch r; job_WinningEpoch := job_WinningEpoch r;
     job_LosingTreeHash := job_LosingTreeHash r; job_WinningTreeHash := job_WinningTreeHash
     r; job_WinningCommitHash := job_WinningCommitHash r; job_WinningGroupInfoHash :=
     job_WinningGroupInfoHash r; job_WinnerPeerID := job_WinnerPeerID r; job_WinnerGroupInfo
     := job_WinnerGroupInfo r; job_BranchWeightJSON := job_BranchWeightJSON r;
     job_PendingGroupState := job_PendingGroupState r; job_PendingEpoch := job_PendingEpoch
     r; job_PendingTreeHash := job_PendingTreeHash r; job_PendingBundlePrivate :=
     job_PendingBundlePrivate r; job_ErrorMessage := job_ErrorMessage r; job_RetryCount :=
     job_RetryCount r; job_CreatedAtMs := job_CreatedAtMs r; job_UpdatedAtMs := v;
     job_CompletedAtMs := job_CompletedAtMs r |}.
Definition set_job_CompletedAtMs (v : Z) (r : ForkHealingJob) : ForkHealingJob :=
  {| job_JobID := job_JobID r; job_GroupID := job_GroupID r; job_TraceID := job_TraceID r;
     job_Status := job_Status r; job_LosingBranchID := job_LosingBranchID r;
     job_WinningBranchID := job_WinningBranchID r; job_ForkBaseEpoch := job_ForkBaseEpoch r;
     job_LosingEpoch := job_LosingEpoch r; job_WinningEpoch := job_WinningEpoch r;
     job_LosingTreeHash := job_LosingTreeHash r; job_WinningTreeHash := job_WinningTreeHash
     r; job_WinningCommitHash := job_WinningCommitHash r; job_WinningGroupInfoHash :=
     job_WinningGroupInfoHash r; job_WinnerPeerID := job_WinnerPeerID r; job_WinnerGroupInfo
     := job_WinnerGroupInfo r; job_BranchWeightJSON := job_BranchWeightJSON r;
     job_PendingGroupState := job_PendingGroupState r; job_PendingEpoch := job_PendingEpoch
     r; job_PendingTreeHash := job_PendingTreeHash r; job_PendingBundlePrivate :=
     job_PendingBundlePrivate r; job_ErrorMessage := job_ErrorMessage r; job_RetryCount :=
     job_RetryCount r; job_CreatedAtMs := job_CreatedAtMs r; job_UpdatedAtMs :=
     job_UpdatedAtMs r; job_CompletedAtMs := v |}.

(** [ApplicationEvent]: an application message kept for replay after a fork heal. *)
Record ApplicationEvent := mkApplicationEvent {
  ae_EventID : string;
  ae_JobID : string;
  ae_GroupID : string;
  ae_OriginalBranchID : string;
  ae_OriginalEpoch : Z;
  ae_AuthorID : string;
  ae_EnvelopeHash : bytes;
  ae_PayloadSealed : bytes;
  ae_PayloadHash : bytes;
  ae_SealKeyID : string;
  ae_SealNonce : bytes;
  ae_HlcWallTimeMs : Z;
  ae_HlcCounter : Z;
  ae_HlcNodeID : string;
  ae_Status : string;
  ae_ReplayOperationID : string;
  ae_ReplayedEnvelopeHash : bytes;
  ae_ReplayedAtMs : Z;
  ae_ReplayAttemptCount : Z;
  ae_LastError : string;
  ae_CreatedAtMs : Z;
  ae_UpdatedAtMs : Z;
}.
Definition set_ae_PayloadSealed (v : bytes) (r : ApplicationEvent) : ApplicationEvent :=
  {| ae_EventID := ae_EventID r; ae_JobID := ae_JobID r; ae_GroupID := ae_GroupID r;
     ae_OriginalBranchID := ae_OriginalBranchID r; ae_OriginalEpoch := ae_OriginalEpoch r;
     ae_AuthorID := ae_AuthorID r; ae_EnvelopeHash := ae_EnvelopeHash r; ae_PayloadSealed :=
     v; ae_PayloadHash := ae_PayloadHash r; ae_SealKeyID := ae_SealKeyID r; ae_SealNonce :=
     ae_SealNonce r; ae_HlcWallTimeMs := ae_HlcWallTimeMs r; ae_HlcCounter := ae_HlcCounter
     r; ae_HlcNodeID := ae_HlcNodeID r; ae_Status := ae_Status r; ae_ReplayOperationID :=
     ae_ReplayOperationID r; ae_ReplayedEnvelopeHash := ae_ReplayedEnvelopeHash r;
     ae_ReplayedAtMs := ae_ReplayedAtMs r; ae_ReplayAttemptCount := ae_ReplayAttemptCount r;
     ae_LastError := ae_LastError r; ae_CreatedAtMs := ae_CreatedAtMs r; ae_UpdatedAtMs :=
     ae_UpdatedAtMs r |}.
Definition set_ae_SealKeyID (v : string) (r : ApplicationEvent) : ApplicationEvent :=
  {| ae_EventID := ae_EventID r; ae_JobID := ae_JobID r; ae_GroupID := ae_GroupID r;
     ae_OriginalBranchID := ae_OriginalBranchID r; ae_OriginalEpoch := ae_OriginalEpoch r;
     ae_AuthorID := ae_AuthorID r; ae_EnvelopeHash := ae_EnvelopeHash r; ae_PayloadSealed :=
     ae_PayloadSealed r; ae_PayloadHash := ae_PayloadHash r; ae_SealKeyID := v; ae_SealNonce
     := ae_SealNonce r; ae_HlcWallTimeMs := ae_HlcWallTimeMs r; ae_HlcCounter :=
     ae_HlcCounter r; ae_HlcNodeID := ae_HlcNodeID r; ae_Status := ae_Status r;
     ae_ReplayOperationID := ae_ReplayOperationID r; ae_ReplayedEnvelopeHash :=
     ae_ReplayedEnvelopeHash r; ae_ReplayedAtMs := ae_ReplayedAtMs r; ae_ReplayAttemptCount
     := ae_ReplayAttemptCount r; ae_LastError := ae_LastError r; ae_CreatedAtMs :=
     ae_CreatedAtMs r; ae_UpdatedAtMs := ae_UpdatedAtMs r |}.
Definition set_ae_SealNonce (v : bytes) (r : ApplicationEvent) : ApplicationEvent :=
  {| ae_EventID := ae_EventID r; ae_JobID := ae_JobID r; ae_GroupID := ae_GroupID r;
     ae_OriginalBranchID := ae_OriginalBranchID r; ae_OriginalEpoch := ae_OriginalEpoch r;
     ae_AuthorID := ae_AuthorID r; ae_EnvelopeHash := ae_EnvelopeHash r; ae_PayloadSealed :=
     ae_PayloadSealed r; ae_PayloadHash := ae_PayloadHash r; ae_SealKeyID := ae_SealKeyID r;
     ae_SealNonce := v; ae_HlcWallTimeMs := ae_HlcWallTimeMs r; ae_HlcCounter :=
     ae_HlcCounter r; ae_HlcNodeID := ae_HlcNodeID r; ae_Status := ae_Status r;
     ae_ReplayOperationID := ae_ReplayOperationID r; ae_ReplayedEnvelopeHash :=
     ae_ReplayedEnvelopeHash r; ae_ReplayedAtMs := ae_ReplayedAtMs r; ae_ReplayAttemptCount
     := ae_ReplayAttemptCount r; ae_LastError := ae_LastError r; ae_CreatedAtMs :=
     ae_CreatedAtMs r; ae_UpdatedAtMs := ae_UpdatedAtMs r |}.
Definition set_ae_Status (v : string) (r : ApplicationEvent) : ApplicationEvent :=
  {| ae_EventID := ae_EventID r; ae_JobID := ae_JobID r; ae_GroupID := ae_GroupID r;
     ae_OriginalBranchID := ae_OriginalBranchID r; ae_OriginalEpoch := ae_OriginalEpoch r;
     ae_AuthorID := ae_AuthorID r; ae_EnvelopeHash := ae_EnvelopeHash r; ae_PayloadSealed :=
     ae_PayloadSealed r; ae_PayloadHash := ae_PayloadHash r; ae_SealKeyID := ae_SealKeyID r;
     ae_SealNonce := ae_SealNonce r; ae_HlcWallTimeMs := ae_HlcWallTimeMs r; ae_HlcCounter :=
     ae_HlcCounter r; ae_HlcNodeID := ae_HlcNodeID r; ae_Status := v; ae_ReplayOperationID :=
     ae_ReplayOperationID r; ae_ReplayedEnvelopeHash := ae_ReplayedEnvelopeHash r;
     ae_ReplayedAtMs := ae_ReplayedAtMs r; ae_ReplayAttemptCount := ae_ReplayAttemptCount r;
     ae_LastError := ae_LastError r; ae_CreatedAtMs := ae_CreatedAtMs r; ae_UpdatedAtMs :=
     ae_UpdatedAtMs r |}.
Definition set_ae_ReplayOperationID (v : string) (r : ApplicationEvent) : ApplicationEvent :=
  {| ae_EventID := ae_EventID r; ae_JobID := ae_JobID r; ae_GroupID := ae_GroupID r;
     ae_OriginalBranchID := ae_OriginalBranchID r; ae_OriginalEpoch := ae_OriginalEpoch r;
     ae_AuthorID := ae_AuthorID r; ae_EnvelopeHash := ae_EnvelopeHash r; ae_PayloadSealed :=
     ae_PayloadSealed r; ae_PayloadHash := ae_PayloadHash r; ae_SealKeyID := ae_SealKeyID r;
     ae_SealNonce := ae_SealNonce r; ae_HlcWallTimeMs := ae_HlcWallTimeMs r; ae_HlcCounter :=
     ae_HlcCounter r; ae_HlcNodeID := ae_HlcNodeID r; ae_Status := ae_Status r;
     ae_ReplayOperationID := v; ae_ReplayedEnvelopeHash := ae_ReplayedEnvelopeHash r;
     ae_ReplayedAtMs := ae_ReplayedAtMs r; ae_ReplayAttemptCount := ae_ReplayAttemptCount r;
     ae_LastError := ae_LastError r; ae_CreatedAtMs := ae_CreatedAtMs r; ae_UpdatedAtMs :=
     ae_UpdatedAtMs r |}.
Definition set_ae_ReplayedEnvelopeHash (v : bytes) (r : ApplicationEvent) : ApplicationEvent :=
  {| ae_EventID := ae_EventID r; ae_JobID := ae_JobID r; ae_GroupID := ae_GroupID r;
     ae_OriginalBranchID := ae_OriginalBranchID r; ae_OriginalEpoch := ae_OriginalEpoch r;
     ae_AuthorID := ae_AuthorID r; ae_EnvelopeHash := ae_EnvelopeHash r; ae_PayloadSealed :=
     ae_PayloadSealed r; ae_PayloadHash := ae_PayloadHash r; ae_SealKeyID := ae_SealKeyID r;
     ae_SealNonce := ae_SealNonce r; ae_HlcWallTimeMs := ae_HlcWallTimeMs r; ae_HlcCounter :=
     ae_HlcCounter r; ae_HlcNodeID := ae_HlcNodeID r; ae_Status := ae_Status r;
     ae_ReplayOperationID := ae_ReplayOperationID r; ae_ReplayedEnvelopeHash := v;
     ae_ReplayedAtMs := ae_ReplayedAtMs r; ae_ReplayAttemptCount := ae_ReplayAttemptCount r;
     ae_LastError := ae_LastError r; ae_CreatedAtMs := ae_CreatedAtMs r; ae_UpdatedAtMs :=
     ae_UpdatedAtMs r |}.
Definition set_ae_ReplayedAtMs (v : Z) (r : ApplicationEvent) : ApplicationEvent :=
  {| ae_EventID := ae_EventID r; ae_JobID := ae_JobID r; ae_GroupID := ae_GroupID r;
     ae_OriginalBranchID := ae_OriginalBranchID r; ae_OriginalEpoch := ae_OriginalEpoch r;
     ae_AuthorID := ae_AuthorID r; ae_EnvelopeHash := ae_EnvelopeHash r; ae_PayloadSealed :=
     ae_PayloadSealed r; ae_PayloadHash := ae_PayloadHash r; ae_SealKeyID := ae_SealKeyID r;
     ae_SealNonce := ae_SealNonce r; ae_HlcWallTimeMs := ae_HlcWallTimeMs r; ae_HlcCounter :=
     ae_HlcCounter r; ae_HlcNodeID := ae_HlcNodeID r; ae_Status := ae_Status r;
     ae_ReplayOperationID := ae_ReplayOperationID r; ae_ReplayedEnvelopeHash :=
     ae_ReplayedEnvelopeHash r; ae_ReplayedAtMs := v; ae_ReplayAttemptCount :=
     ae_ReplayAttemptCount r; ae_LastError := ae_LastError r; ae_CreatedAtMs :=
     ae_CreatedAtMs r; ae_UpdatedAtMs := ae_UpdatedAtMs r |}.
Definition set_ae_ReplayAttemptCount (v : Z) (r : ApplicationEvent) : ApplicationEvent :=
  {| ae_EventID := ae_EventID r; ae_JobID := ae_JobID r; ae_GroupID := ae_GroupID r;
     ae_OriginalBranchID := ae_OriginalBranchID r; ae_OriginalEpoch := ae_OriginalEpoch r;
     ae_AuthorID := ae_AuthorID r; ae_EnvelopeHash := ae_EnvelopeHash r; ae_PayloadSealed :=
     ae_PayloadSealed r; ae_PayloadHash := ae_PayloadHash r; ae_SealKeyID := ae_SealKeyID r;
     ae_SealNonce := ae_SealNonce r; ae_HlcWallTimeMs := ae_HlcWallTimeMs r; ae_HlcCounter :=
     ae_HlcCounter r; ae_HlcNodeID := ae_HlcNodeID r; ae_Status := ae_Status r;
     ae_ReplayOperationID := ae_ReplayOperationID r; ae_ReplayedEnvelopeHash :=
     ae_ReplayedEnvelopeHash r; ae_ReplayedAtMs := ae_ReplayedAtMs r; ae_ReplayAttemptCount
     := v; ae_LastError := ae_LastError r; ae_CreatedAtMs := ae_CreatedAtMs r; ae_UpdatedAtMs
     := ae_UpdatedAtMs r |}.
Definition set_ae_LastError (v : string) (r : ApplicationEvent) : ApplicationEvent :=
  {| ae_EventID := ae_EventID r; ae_JobID := ae_JobID r; ae_GroupID := ae_GroupID r;
     ae_OriginalBranchID := ae_OriginalBranchID r; ae_OriginalEpoch := ae_OriginalEpoch r;
     ae_AuthorID := ae_AuthorID r; ae_EnvelopeHash := ae_EnvelopeHash r; ae_PayloadSealed :=
     ae_PayloadSealed r; ae_PayloadHash := ae_PayloadHash r; ae_SealKeyID := ae_SealKeyID r;
     ae_SealNonce := ae_SealNonce r; ae_HlcWallTimeMs := ae_HlcWallTimeMs r; ae_HlcCounter :=
     ae_HlcCounter r; ae_HlcNodeID := ae_HlcNodeID r; ae_Status := ae_Status r;
     ae_ReplayOperationID := ae_ReplayOperationID r; ae_ReplayedEnvelopeHash :=
     ae_ReplayedEnvelopeHash r; ae_ReplayedAtMs := ae_ReplayedAtMs r; ae_ReplayAttemptCount
     := ae_ReplayAttemptCount r; ae_LastError := v; ae_CreatedAtMs := ae_CreatedAtMs r;
     ae_UpdatedAtMs := ae_UpdatedAtMs r |}.

(** [OutboundReplay]: one row of the durable outbound replay queue. *)
Record OutboundReplay := mkOutboundReplay {
  or_ReplayOperationID : string;
  or_EventID : string;
  or_JobID : string;
  or_GroupID : string;
  or_ReplayEnvelope : bytes;
  or_ReplayedEnvelopeHash : bytes;
  or_Status : string;
  or_AttemptCount : Z;
  or_CreatedAtMs : Z;
  or_UpdatedAtMs : Z;
}.
Definition set_or_Status (v : string) (r : OutboundReplay) : OutboundReplay :=
  {| or_ReplayOperationID := or_ReplayOperationID r; or_EventID := or_EventID r; or_JobID :=
     or_JobID r; or_GroupID := or_GroupID r; or_ReplayEnvelope := or_ReplayEnvelope r;
     or_ReplayedEnvelopeHash := or_ReplayedEnvelopeHash r; or_Status := v; or_AttemptCount :=
     or_AttemptCount r; or_CreatedAtMs := or_CreatedAtMs r; or_UpdatedAtMs := or_UpdatedAtMs
     r |}.
Definition set_or_UpdatedAtMs (v : Z) (r : OutboundReplay) : OutboundReplay :=
  {| or_ReplayOperationID := or_ReplayOperationID r; or_EventID := or_EventID r; or_JobID :=
     or_JobID r; or_GroupID := or_GroupID r; or_ReplayEnvelope := or_ReplayEnvelope r;
     or_ReplayedEnvelopeHash := or_ReplayedEnvelopeHash r; or_Status := or_Status r;
     or_AttemptCount := or_AttemptCount r; or_CreatedAtMs := or_CreatedAtMs r; or_UpdatedAtMs
     := v |}.


#[export] Instance ProposalMsg_eq_dec : EqDecision ProposalMsg.
Proof. solve_decision. Defined.
#[export] Instance BufferedProposal_eq_dec : EqDecision BufferedProposal.
Proof. solve_decision. Defined.
#[export] Instance GroupStateAnnouncement_eq_dec : EqDecision GroupStateAnnouncement.
Proof. solve_decision. Defined.
#[export] Instance PendingOperation_eq_dec : EqDecision PendingOperation.
Proof. solve_decision. Defined.

(** ** The order of timestamps *)

Lemma Before_irrefl t : Before t t = false.
Proof.
  unfold Before. rewrite !Z.eqb_refl. simpl. apply bytes_ltb_irrefl.
Qed.

(** [Before] compares lexicographically. *)
Lemma Before_spec a b :
  Before a b = true <->
  WallTimeMs a < WallTimeMs b \/
  (WallTimeMs a = WallTimeMs b /\
   (Counter a < Counter b \/
    (Counter a = Counter b /\ str_ltb (NodeID a) (NodeID b) = true))).
Proof.
  unfold Before.
  destruct (Z.eqb_spec (WallTimeMs a) (WallTimeMs b)); simpl; [|rewrite Z.ltb_lt; lia].
  destruct (Z.eqb_spec (Counter a) (Counter b)); simpl; [|rewrite Z.ltb_lt; lia].
  split; [auto with lia|]. intros [?|[? [?|[? ?]]]]; done || lia.
Qed.

Lemma Before_asym a b : Before a b = true -> Before b a = false.
Proof.
  intros H. destruct (Before b a) eqn:E; [|done].
  apply Before_spec in H, E.
  destruct H as [?|[? [?|[? H]]]], E as [?|[? [?|[? E]]]]; try lia.
  apply sw_asym in H. congruence.
Qed.

Lemma Before_trans a b c : Before a b = true -> Before b c = true -> Before a c = true.
Proof.
  rewrite !Before_spec. intros [?|[? [?|[? H1]]]] [?|[? [?|[? H2]]]]; try lia.
  right. split; [lia|]. right. split; [lia|]. by eapply bytes_ltb_trans.
Qed.

Lemma Before_total a b : Before a b = true \/ a = b \/ Before b a = true.
Proof.
  destruct (Before a b) eqn:E1; [by left|]. destruct (Before b a) eqn:E2; [tauto|].
  right; left.
  destruct a as [la ca na], b as [lb cb nb]. unfold Before in *; simpl in *.
  destruct (Z.eqb_spec la lb), (Z.eqb_spec lb la); simpl in *; breflect; try lia.
  destruct (Z.eqb_spec ca cb), (Z.eqb_spec cb ca); simpl in *; breflect; try lia.
  subst. f_equal. by apply str_ltb_total.
Qed.

Lemma Equal_spec a b : Equal a b = true <-> a = b.
Proof.
  unfold Equal. destruct a, b; simpl. breflect.
  split; [intros [[-> ->] ->] | intros [= -> -> ->]]; done.
Qed.

#[export] Instance Before_weak : StrictWeak Before.
Proof.
  split; [apply Before_asym|].
  intros x y z H. destruct (Before_total x y) as [?|[->|Hyx]]; [by left|by right|].
  right. by eapply Before_trans.
Qed.
