(* ===== verification/Config.v ===== *)
(** * Coordinator configuration

    [coordination/config.go]: the tuneable parameters, their defaults, the
    retention policy derived from them and their validation. *)
From S2P Require Import Prelude Types.

Module Config.

(** [MLSRetentionMode]; any other string falls back to the balanced policy. *)
Definition RetentionStrictSecurity : string := "STRICT_SECURITY".
Definition RetentionBalanced : string := "BALANCED".
Definition RetentionHighAvailability : string := "HIGH_AVAILABILITY".

Record CoordinatorConfig := mkConfig {
  TokenHolderTimeout : duration;
  HeartbeatInterval : duration;
  AnnounceInterval : duration;
  PeerDeadAfter : Z;
  MaxBatchedProposals : Z;
  KeyRotationInterval : duration;
  ReplayThrottleMs : Z;
  MetricsEnabled : bool;
  OfflineSyncEnabled : bool;
  EnvelopeLogTTL : duration;
  EnvelopeLogMaxPerGroup : Z;
  BatchingDelay : duration;
  ViewBootstrapGrace : duration;
  MLSOperationTimeout : duration;
  ApplicationAckTimeout : duration;
  ApplicationDirectRetryLimit : Z;
  RetentionMode : string;
  MaxPastEpochsOverride : Z;
}.

Definition GetMaxPastEpochs (c : CoordinatorConfig) : Z :=
  if MaxPastEpochsOverride c >? 0 then MaxPastEpochsOverride c
  else if str_eqb (RetentionMode c) RetentionStrictSecurity then 0
  else if str_eqb (RetentionMode c) RetentionHighAvailability then 10
  else 3.

Definition GetMaxPastAgeSeconds (c : CoordinatorConfig) : Z :=
  if str_eqb (RetentionMode c) RetentionStrictSecurity then 0
  else if str_eqb (RetentionMode c) RetentionHighAvailability then 3600
  else 300.

Definition DefaultConfig : CoordinatorConfig := {|
  TokenHolderTimeout := 4 * Second;
  HeartbeatInterval := 5 * Second;
  AnnounceInterval := 10 * Second;
  PeerDeadAfter := 3;
  MaxBatchedProposals := 10;
  KeyRotationInterval := 5 * Minute;
  ReplayThrottleMs := 100;
  MetricsEnabled := true;
  OfflineSyncEnabled := true;
  EnvelopeLogTTL := 7 * 24 * Hour;
  EnvelopeLogMaxPerGroup := 10000;
  BatchingDelay := 1 * Second;
  ViewBootstrapGrace := 2 * Second;
  MLSOperationTimeout := 20 * Second;
  ApplicationAckTimeout := 10 * Second;
  ApplicationDirectRetryLimit := 2;
  RetentionMode := RetentionBalanced;
  MaxPastEpochsOverride := 0;
|}.

Definition TestConfig : CoordinatorConfig := {|
  TokenHolderTimeout := 100 * Millisecond;
  HeartbeatInterval := 50 * Millisecond;
  AnnounceInterval := 0;
  PeerDeadAfter := 3;
  MaxBatchedProposals := 10;
  KeyRotationInterval := 0;
  ReplayThrottleMs := 0;
  MetricsEnabled := true;
  OfflineSyncEnabled := true;
  EnvelopeLogTTL := 7 * 24 * Hour;
  EnvelopeLogMaxPerGroup := 10000;
  BatchingDelay := 0;
  ViewBootstrapGrace := 0;
  MLSOperationTimeout := 250 * Millisecond;
  ApplicationAckTimeout := 50 * Millisecond;
  ApplicationDirectRetryLimit := 2;
  RetentionMode := RetentionBalanced;
  MaxPastEpochsOverride := 0;
|}.

(** The error text carries the name of the offending field. *)
Definition invalid (field : string) : option GoError := Some (ErrWrap field ErrInvalidConfig).

(** [Validate]: [None] is the nil error. *)
Definition Validate (c : CoordinatorConfig) : option GoError :=
  if TokenHolderTimeout c <=? 0 then invalid "TokenHolderTimeout"
  else if HeartbeatInterval c <=? 0 then invalid "HeartbeatInterval"
  else if PeerDeadAfter c <? 1 then invalid "PeerDeadAfter"
  else if MaxBatchedProposals c <? 1 then invalid "MaxBatchedProposals"
  else if KeyRotationInterval c <? 0 then invalid "KeyRotationInterval"
  else if AnnounceInterval c <? 0 then invalid "AnnounceInterval"
  else if ReplayThrottleMs c <? 0 then invalid "ReplayThrottleMs"
  else if EnvelopeLogTTL c <? 0 then invalid "EnvelopeLogTTL"
  else if EnvelopeLogMaxPerGroup c <? 1 then invalid "EnvelopeLogMaxPerGroup"
  else if BatchingDelay c <? 0 then invalid "BatchingDelay"
  else if ViewBootstrapGrace c <? 0 then invalid "ViewBootstrapGrace"
  else if MLSOperationTimeout c <=? 0 then invalid "MLSOperationTimeout"
  else if ApplicationAckTimeout c <=? 0 then invalid "ApplicationAckTimeout"
  else if ApplicationDirectRetryLimit c <? 0 then invalid "ApplicationDirectRetryLimit"
  else None.

(** What a validated configuration guarantees the protocol. *)
Record valid (c : CoordinatorConfig) : Prop := {
  valid_holder : 0 < TokenHolderTimeout c;
  valid_heartbeat : 0 < HeartbeatInterval c;
  valid_dead : 1 <= PeerDeadAfter c;
  valid_batch : 1 <= MaxBatchedProposals c;
  valid_rotation : 0 <= KeyRotationInterval c;
  valid_announce : 0 <= AnnounceInterval c;
  valid_throttle : 0 <= ReplayThrottleMs c;
  valid_ttl : 0 <= EnvelopeLogTTL c;
  valid_cap : 1 <= EnvelopeLogMaxPerGroup c;
  valid_delay : 0 <= BatchingDelay c;
  valid_grace : 0 <= ViewBootstrapGrace c;
  valid_mls : 0 < MLSOperationTimeout c;
  valid_ack : 0 < ApplicationAckTimeout c;
  valid_retry : 0 <= ApplicationDirectRetryLimit c;
}.

Lemma Validate_None c : Validate c = None <-> valid c.
Proof.
  unfold Validate. split.
  - intros H. repeat case_match; try discriminate; breflect. constructor; lia.
  - intros []. repeat case_match; breflect; lia || done.
Qed.

Lemma Validate_error c e : Validate c = Some e -> errors_Is e ErrInvalidConfig = true.
Proof. unfold Validate, invalid. repeat case_match; intros [= <-]; reflexivity. Qed.

Lemma GetMaxPastEpochs_range c :
  in_u32 (MaxPastEpochsOverride c) -> in_u32 (GetMaxPastEpochs c).
Proof. unfold GetMaxPastEpochs, in_u32. repeat case_match; lia. Qed.

End Config.
