(* ===== verification/Hlc.v ===== *)
(** * Hybrid logical clock

    [coordination/hlc.go].  A clock reading is an explicit argument: the first
    reading of the call, and the one taken after the one-millisecond sleep of
    the counter-overflow path. *)
From S2P Require Import Prelude Types.

Module Hlc.

Definition MaxClockDriftMs : Z := 10000.
Definition counter_guard : Z := 0xFFFFFFFE.

Record HLC := mkHLCState { h_l : Z; h_c : Z; h_id : string }.

Definition NewHLC (nodeID : string) : HLC := mkHLCState 0 0 nodeID.

Definition max2 (a b : Z) : Z := if b >? a then b else a.
Definition max3 (a b c : Z) : Z :=
  let a := if b >? a then b else a in
  if c >? a then c else a.
Definition maxU32 (a b : Z) : Z := if b >? a then b else a.

Definition stamp (h : HLC) : HLCTimestamp := mkHLC (h_l h) (h_c h) (h_id h).

(** [HLC.Now] with wall-clock readings [pt] and, after the sleep, [pt']. *)
Definition Now (pt pt' : Z) (h : HLC) : HLCTimestamp * HLC :=
  let h' :=
    if pt >? h_l h then mkHLCState pt 0 (h_id h)
    else if h_c h >=? counter_guard then mkHLCState (max2 (i64 (h_l h + 1)) pt') 0 (h_id h)
    else mkHLCState (h_l h) (u32 (h_c h + 1)) (h_id h) in
  (stamp h', h').

(** [HLC.Update] *)
Definition Update (pt pt' : Z) (received : HLCTimestamp) (h : HLC) : result HLCTimestamp * HLC :=
  let msgL := WallTimeMs received in
  if i64 (msgL - pt) >? MaxClockDriftMs then (inr (ErrWrap "received" ErrClockDrift), h)
  else
    let overflow := h_c h >=? counter_guard in
    let pt1 := if overflow then pt' else pt in
    let l1 := if overflow then max2 (i64 (h_l h + 1)) pt' else h_l h in
    let c1 := if overflow then 0 else h_c h in
    let newL := max3 l1 msgL pt1 in
    let c2 :=
      if (newL =? l1) && (newL =? msgL) then u32 (maxU32 c1 (Counter received) + 1)
      else if newL =? l1 then u32 (c1 + 1)
      else if newL =? msgL then u32 (Counter received + 1)
      else 0 in
    let h' := mkHLCState newL c2 (h_id h) in
    (inl (stamp h'), h').

(** ** Basic facts *)

(** The fields are in the range of their Go types, with room for [l + 1]. *)
Definition wf (h : HLC) : Prop := - 2 ^ 63 <= h_l h < 2 ^ 63 - 1 /\ in_u32 (h_c h).

(** Order of clock values on the physical component and the counter. *)
Definition lc_lt (l1 c1 l2 c2 : Z) : Prop := l1 < l2 \/ (l1 = l2 /\ c1 < c2).

Lemma lc_lt_trans a b c d e f : lc_lt a b c d -> lc_lt c d e f -> lc_lt a b e f.
Proof. unfold lc_lt. lia. Qed.

Lemma lc_lt_Before t u :
  lc_lt (WallTimeMs t) (Counter t) (WallTimeMs u) (Counter u) -> Before t u = true.
Proof. unfold lc_lt. rewrite Before_spec. tauto. Qed.

Lemma max2_spec a b : max2 a b = Z.max a b.
Proof. unfold max2. rewrite Z.gtb_ltb. destruct (Z.ltb_spec a b); lia. Qed.

Lemma max3_spec a b c : max3 a b c = Z.max (Z.max a b) c.
Proof.
  unfold max3. rewrite !Z.gtb_ltb. destruct (Z.ltb_spec a b); simpl;
    rewrite ?Z.gtb_ltb; [destruct (Z.ltb_spec b c) | destruct (Z.ltb_spec a c)]; lia.
Qed.

Lemma maxU32_spec a b : maxU32 a b = Z.max a b.
Proof. apply max2_spec. Qed.

Ltac hlc_cases :=
  rewrite ?max2_spec, ?max3_spec, ?maxU32_spec, ?Z.gtb_ltb, ?Z.geb_leb in *;
  repeat match goal with
  | |- context [ if ?a <? ?b then _ else _ ] => destruct (Z.ltb_spec a b)
  | |- context [ if ?a <=? ?b then _ else _ ] => destruct (Z.leb_spec a b)
  | |- context [ ?a =? ?b ] => destruct (Z.eqb_spec a b)
  end; simpl.

Lemma Now_stamp pt pt' h : fst (Now pt pt' h) = stamp (snd (Now pt pt' h)).
Proof. reflexivity. Qed.

Lemma Now_lt pt pt' h :
  wf h -> lc_lt (h_l h) (h_c h) (h_l (snd (Now pt pt' h))) (h_c (snd (Now pt pt' h))).
Proof.
  intros [Hl Hc]. unfold Now, counter_guard, in_u32 in *; simpl. hlc_cases; unfold lc_lt.
  - lia.
  - rewrite i64_small by (unfold in_i64; lia). lia.
  - rewrite u32_small by (unfold in_u32; lia). lia.
Qed.

(** The counter of an emitted timestamp never exceeds the guard. *)
Lemma Now_counter pt pt' h :
  wf h -> 0 <= h_c (snd (Now pt pt' h)) <= counter_guard.
Proof.
  intros [Hl Hc]. unfold Now, counter_guard, in_u32 in *; simpl. hlc_cases; try lia.
  rewrite u32_small by (unfold in_u32; lia). lia.
Qed.

Lemma Now_l_bound pt pt' h :
  wf h ->
  h_l h <= h_l (snd (Now pt pt' h)) <= Z.max (h_l h + 1) (Z.max pt pt').
Proof.
  intros [Hl Hc]. unfold Now; simpl. hlc_cases; try lia.
  rewrite i64_small by (unfold in_i64; lia). lia.
Qed.

Lemma Update_ok pt pt' r h t h' :
  Update pt pt' r h = (inl t, h') -> t = stamp h' /\ i64 (WallTimeMs r - pt) <= MaxClockDriftMs.
Proof.
  unfold Update. rewrite Z.gtb_ltb. destruct (Z.ltb_spec MaxClockDriftMs (i64 (WallTimeMs r - pt))).
  - intros [=].
  - intros [= <- <-]. done.
Qed.

Lemma Update_error pt pt' r h e h' :
  Update pt pt' r h = (inr e, h') ->
  h' = h /\ errors_Is e ErrClockDrift = true /\ MaxClockDriftMs < i64 (WallTimeMs r - pt).
Proof.
  unfold Update. rewrite Z.gtb_ltb. destruct (Z.ltb_spec MaxClockDriftMs (i64 (WallTimeMs r - pt))).
  - intros [= <- <-]. done.
  - intros [=].
Qed.

(** One receive: the new value is after the old one and after the received
    one.  The received counter must not be at its maximum. *)
Lemma Update_lt pt pt' r h t h' :
  wf h -> 0 <= Counter r < 2 ^ 32 - 1 ->
  Update pt pt' r h = (inl t, h') ->
  lc_lt (h_l h) (h_c h) (h_l h') (h_c h') /\
  lc_lt (WallTimeMs r) (Counter r) (h_l h') (h_c h').
Proof.
  intros [Hl Hc] Hr. unfold Update. rewrite Z.gtb_ltb.
  destruct (Z.ltb_spec MaxClockDriftMs (i64 (WallTimeMs r - pt))); [done|].
  intros [= _ <-]; simpl. unfold counter_guard, in_u32 in *.
  rewrite Z.geb_leb, max3_spec, maxU32_spec, max2_spec.
  destruct (Z.leb_spec 0xFFFFFFFE (h_c h)); unfold lc_lt;
    rewrite ?i64_small by (unfold in_i64; lia);
    repeat match goal with |- context [ ?a =? ?b ] => destruct (Z.eqb_spec a b) end; simpl;
    rewrite ?u32_small by (unfold in_u32; lia); lia.
Qed.

Lemma Update_counter pt pt' r h t h' :
  wf h -> 0 <= Counter r < 2 ^ 32 - 1 -> Update pt pt' r h = (inl t, h') -> in_u32 (h_c h').
Proof.
  intros [Hl Hc] Hr. unfold Update. rewrite Z.gtb_ltb.
  destruct (Z.ltb_spec MaxClockDriftMs (i64 (WallTimeMs r - pt))); [done|].
  intros [= _ <-]; simpl. repeat case_match; first [apply u32_range | unfold in_u32; lia].
Qed.

Lemma Update_l_bound pt pt' r h t h' :
  wf h -> Update pt pt' r h = (inl t, h') ->
  h_l h <= h_l h' <= Z.max (Z.max (h_l h + 1) (WallTimeMs r)) (Z.max pt pt').
Proof.
  intros [Hl Hc]. unfold Update. rewrite Z.gtb_ltb.
  destruct (Z.ltb_spec MaxClockDriftMs (i64 (WallTimeMs r - pt))); [done|].
  intros [= _ <-]; simpl.
  rewrite Z.geb_leb, max3_spec, max2_spec.
  destruct (Z.leb_spec counter_guard (h_c h));
    rewrite ?i64_small by (unfold in_i64; lia); lia.
Qed.

Lemma Now_id pt pt' h : h_id (snd (Now pt pt' h)) = h_id h.
Proof. unfold Now; simpl. by repeat case_match. Qed.

Lemma Update_id pt pt' r h : h_id (snd (Update pt pt' r h)) = h_id h.
Proof. unfold Update; simpl. by repeat case_match. Qed.

(** ** Causality in a system of nodes

    Every node owns an [HLC]; a send stamps its message with [Now], a receive
    feeds the stamp of an earlier send to [Update].  The log records the
    events in the order they happen; a rejected receive leaves no event. *)
Section System.

Inductive kind := Send | Recv (of_event : nat).
Record event := Event { ev_node : string; ev_ts : HLCTimestamp; ev_kind : kind }.

Record system := System { sys_clock : string -> HLC; sys_log : list event }.

Definition sys_init : system := System (fun n => NewHLC n) [].

Definition upd (f : string -> HLC) (n : string) (h : HLC) (m : string) : HLC :=
  if str_eqb n m then h else f m.

(** Clock readings are milliseconds since 1970, before the year 146 million. *)
Definition reading (pt : Z) : Prop := 0 <= pt < 2 ^ 62.

Inductive sys_step : system -> system -> Prop :=
| step_send s n pt pt' :
    reading pt -> reading pt' ->
    let r := Now pt pt' (sys_clock s n) in
    sys_step s (System (upd (sys_clock s) n (snd r)) (sys_log s ++ [Event n (fst r) Send]))
| step_recv s n pt pt' k e t h' :
    reading pt -> reading pt' ->
    sys_log s !! k = Some e -> ev_kind e = Send ->
    Update pt pt' (ev_ts e) (sys_clock s n) = (inl t, h') ->
    sys_step s (System (upd (sys_clock s) n h') (sys_log s ++ [Event n t (Recv k)]))
| step_reject s n pt pt' k e err h' :
    reading pt -> reading pt' ->
    sys_log s !! k = Some e -> ev_kind e = Send ->
    Update pt pt' (ev_ts e) (sys_clock s n) = (inr err, h') ->
    sys_step s (System (upd (sys_clock s) n h') (sys_log s)).

Inductive reachable : system -> Prop :=
| reach_init : reachable sys_init
| reach_step s s' : reachable s -> sys_step s s' -> reachable s'.

(** Happened-before: program order, message order, and their closure. *)
Inductive hb (log : list event) : nat -> nat -> Prop :=
| hb_node i j a b :
    log !! i = Some a -> log !! j = Some b -> (i < j)%nat -> ev_node a = ev_node b -> hb log i j
| hb_msg i j a b :
    log !! i = Some a -> log !! j = Some b -> ev_kind b = Recv i -> hb log i j
| hb_trans i j k : hb log i j -> hb log j k -> hb log i k.

Definition ts_lt (t u : HLCTimestamp) : Prop :=
  lc_lt (WallTimeMs t) (Counter t) (WallTimeMs u) (Counter u).

(** The invariant of a log of bounded length: every clock is in range, the
    events of a node are increasing and below its clock, a receive is after
    its send, and every send carries a counter the guard allows. *)
Record sys_inv (s : system) : Prop := {
  inv_clock n : - 1 < h_l (sys_clock s n) <= 2 ^ 62 + Z.of_nat (length (sys_log s))
                /\ in_u32 (h_c (sys_clock s n));
  inv_below i a : sys_log s !! i = Some a ->
    ts_lt (ev_ts a) (stamp (sys_clock s (ev_node a))) \/ ev_ts a = stamp (sys_clock s (ev_node a));
  inv_order i j a b : sys_log s !! i = Some a -> sys_log s !! j = Some b ->
    (i < j)%nat -> ev_node a = ev_node b -> ts_lt (ev_ts a) (ev_ts b);
  inv_msg i j a b : sys_log s !! i = Some a -> sys_log s !! j = Some b ->
    ev_kind b = Recv i -> ts_lt (ev_ts a) (ev_ts b);
  inv_fwd i j b : sys_log s !! j = Some b -> ev_kind b = Recv i -> (i < j)%nat;
  inv_send i a : sys_log s !! i = Some a -> ev_kind a = Send ->
    0 <= Counter (ev_ts a) <= counter_guard /\
    0 <= WallTimeMs (ev_ts a) <= 2 ^ 62 + Z.of_nat (length (sys_log s));
}.

Definition short (log : list event) : Prop := Z.of_nat (length log) < 2 ^ 62 - 2.

Lemma inv_wf s n : short (sys_log s) -> sys_inv s -> wf (sys_clock s n).
Proof. unfold short. intros Hs I. destruct (inv_clock s I n). split; [lia|done]. Qed.

(** Appending an event of node [n] whose stamp is the node's new clock. *)
Lemma inv_append s n h' k :
  short (sys_log s) -> sys_inv s ->
  lc_lt (h_l (sys_clock s n)) (h_c (sys_clock s n)) (h_l h') (h_c h') ->
  - 1 < h_l h' <= 2 ^ 62 + Z.of_nat (length (sys_log s)) + 1 -> in_u32 (h_c h') ->
  match k with
  | Send => 0 <= h_c h' <= counter_guard
  | Recv i => exists a, sys_log s !! i = Some a /\ ts_lt (ev_ts a) (stamp h')
  end ->
  sys_inv (System (upd (sys_clock s) n h') (sys_log s ++ [Event n (stamp h') k])).
Proof.
  intros Hs I Hlt Hl Hc Hk.
  assert (Hlast : forall j b, (sys_log s ++ [Event n (stamp h') k]) !! j = Some b ->
            (sys_log s !! j = Some b) \/ (j = length (sys_log s) /\ b = Event n (stamp h') k)).
  { intros j b [[_ ?]|[-> <-]]%lookup_snoc_Some; auto. }
  assert (Hlen : forall j b, sys_log s !! j = Some b -> (j < length (sys_log s))%nat).
  { intros j b. apply lookup_lt_Some. }
  assert (Hbel : forall i a, sys_log s !! i = Some a -> ev_node a = n ->
            ts_lt (ev_ts a) (stamp h')).
  { intros i a Ha <-. destruct (inv_below s I i a Ha) as [Hb| ->]; unfold ts_lt in *; simpl in *.
    - by eapply lc_lt_trans.
    - done. }
  split; cbn [sys_clock sys_log]; rewrite ?length_app; cbn [length].
  - intros m. unfold upd. destruct (str_eqb n m); [split; [lia|done]|].
    destruct (inv_clock s I m). split; [lia|done].
  - intros i a [Ha|[-> ->]]%Hlast; unfold upd; cbn [ev_node ev_ts].
    + destruct (str_eqb n (ev_node a)) eqn:E.
      * left. apply str_eqb_true in E. by eapply Hbel.
      * by apply (inv_below s I i).
    + right. by rewrite str_eqb_refl.
  - intros i j a b [Ha|[-> ->]]%Hlast [Hb|[-> ->]]%Hlast Hij Hn; cbn [ev_node ev_ts] in *.
    + by eapply (inv_order s I i j).
    + by eapply Hbel.
    + apply Hlen in Hb. lia.
    + lia.
  - intros i j a b Ha Hb Hbk. destruct (Hlast _ _ Hb) as [Hb'|[-> ->]].
    + assert (i < length (sys_log s))%nat.
      { etrans; [by eapply (inv_fwd s I)|by eapply Hlen]. }
      destruct (Hlast _ _ Ha) as [Ha'|[-> ->]]; [by eapply (inv_msg s I i j)|lia].
    + cbn [ev_kind ev_ts] in *. subst k. destruct Hk as (a' & Ha' & Hta).
      destruct (Hlast _ _ Ha) as [Ha''|[-> ->]]; [congruence|].
      apply Hlen in Ha'. lia.
  - intros i j b [Hb|[-> ->]]%Hlast Hbk; [by eapply (inv_fwd s I)|].
    cbn [ev_kind] in *. subst k. destruct Hk as (a' & Ha' & _). by eapply Hlen.
  - intros i a [Ha|[-> ->]]%Hlast Hak; cbn [ev_ts stamp] in *.
    + destruct (inv_send s I i a Ha Hak). lia.
    + cbn [ev_kind] in *. subst k. cbn. lia.
Qed.

Lemma short_app l1 l2 : short (l1 ++ l2) -> short l1.
Proof. unfold short. rewrite length_app. lia. Qed.

Lemma sys_inv_step s s' : short (sys_log s') -> sys_inv s -> sys_step s s' -> sys_inv s'.
Proof.
  intros Hs I Hstep.
  destruct Hstep as [s n pt pt' Hp Hp' r | s n pt pt' k e t h' Hp Hp' He Hek HU
                    | s n pt pt' k e err h' Hp Hp' He Hek HU]; cbn [sys_log] in Hs.
  - apply short_app in Hs. pose proof (inv_wf s n Hs I) as Hwf.
    pose proof (Now_counter pt pt' _ Hwf). pose proof (Now_l_bound pt pt' _ Hwf).
    destruct (inv_clock s I n). unfold reading in *.
    subst r. rewrite Now_stamp. apply inv_append; try done.
    + by apply Now_lt.
    + lia.
    + unfold counter_guard, in_u32 in *. lia.
  - apply short_app in Hs. pose proof (inv_wf s n Hs I) as Hwf.
    destruct (inv_send s I k e He Hek) as [Hc Hl]. unfold counter_guard in Hc.
    assert (0 <= Counter (ev_ts e) < 2 ^ 32 - 1) as Hc' by lia.
    destruct (Update_lt _ _ _ _ _ _ Hwf Hc' HU) as [H1 H2].
    pose proof (Update_l_bound _ _ _ _ _ _ Hwf HU).
    pose proof (Update_counter _ _ _ _ _ _ Hwf Hc' HU).
    destruct (inv_clock s I n). unfold reading in *.
    destruct (Update_ok _ _ _ _ _ _ HU) as [-> _].
    apply inv_append; try done; [lia|]. by exists e.
  - apply Update_error in HU as (-> & _ & _).
    assert (Hc : forall m, upd (sys_clock s) n (sys_clock s n) m = sys_clock s m).
    { intros m. unfold upd. destruct (str_eqb n m) eqn:E; [|done].
      by apply str_eqb_true in E as ->. }
    destruct I. split; cbn [sys_clock sys_log]; try done.
    + intros m. rewrite Hc. done.
    + intros i a Ha. rewrite Hc. eauto.
Qed.

Lemma sys_step_log s s' : sys_step s s' -> exists l, sys_log s' = sys_log s ++ l.
Proof. destruct 1; cbn; eauto. exists []. by rewrite app_nil_r. Qed.

Lemma reachable_inv s : reachable s -> short (sys_log s) -> sys_inv s.
Proof.
  induction 1 as [|s s' Hr IH Hstep].
  - intros _. split; cbn [sys_init sys_log sys_clock]; intros *; rewrite ?lookup_nil; try done.
  - intros Hs. eapply sys_inv_step; [done| |done].
    destruct (sys_step_log _ _ Hstep) as [l E]. rewrite E in Hs. apply IH. by eapply short_app.
Qed.

Lemma hb_dom log i j : hb log i j -> is_Some (log !! i) /\ is_Some (log !! j).
Proof. induction 1; naive_solver. Qed.

Lemma hb_ts_lt s i j a b :
  sys_inv s -> hb (sys_log s) i j ->
  sys_log s !! i = Some a -> sys_log s !! j = Some b -> ts_lt (ev_ts a) (ev_ts b).
Proof.
  intros I H. revert a b. induction H as [i j a b Ha Hb Hij Hn|i j a b Ha Hb Hk|i j k H1 IH1 H2 IH2];
    intros a' b' Ha' Hb'.
  - simplify_eq. by eapply (inv_order s I).
  - simplify_eq. by eapply (inv_msg s I).
  - destruct (hb_dom _ _ _ H2) as [[c Hc] _].
    unfold ts_lt in *. eapply lc_lt_trans; eauto.
Qed.

End System.

(** ** Properties *)

(** C33: Causal consistency.  In every run of a system of nodes that stamp
    sends with [Now] and merge received stamps with [Update], if one event
    happened before another (same node earlier, message delivery, or a chain
    of both) then its timestamp is [Before] the other's, whatever the wall
    clocks of the nodes read and however skewed they are, as long as the clocks
    read, and the events count, less than 2^62. *)
Theorem hlc_causal_order s i j a b :
  reachable s -> short (sys_log s) -> hb (sys_log s) i j ->
  sys_log s !! i = Some a -> sys_log s !! j = Some b ->
  Before (ev_ts a) (ev_ts b) = true.
Proof.
  intros Hr Hs Hhb Ha Hb. apply lc_lt_Before.
  exact (hb_ts_lt s i j a b (reachable_inv s Hr Hs) Hhb Ha Hb).
Qed.

(** A run with a skewed receiver: the sender's clock reads 5000, the
    receiver's 10. *)
Definition demo_sent : system :=
  System (upd (sys_clock sys_init) "A" (snd (Now 5000 5000 (NewHLC "A"))))
         [Event "A" (fst (Now 5000 5000 (NewHLC "A"))) Send].

Definition demo_recv : system :=
  System (upd (sys_clock demo_sent) "B" (mkHLCState 5000 1 "B"))
         (sys_log demo_sent ++ [Event "B" (mkHLC 5000 1 "B") (Recv 0)]).

Lemma hlc_causal_order_witness :
  exists a b, sys_log demo_recv !! 0%nat = Some a /\ sys_log demo_recv !! 1%nat = Some b /\
              Before (ev_ts a) (ev_ts b) = true.
Proof.
  exists (Event "A" (mkHLC 5000 0 "A") Send), (Event "B" (mkHLC 5000 1 "B") (Recv 0)).
  split; [reflexivity|]. split; [reflexivity|].
  apply (hlc_causal_order demo_recv 0 1
           (Event "A" (mkHLC 5000 0 "A") Send) (Event "B" (mkHLC 5000 1 "B") (Recv 0))).
  - eapply reach_step; [eapply reach_step; [apply reach_init|]|].
    + apply (step_send sys_init "A" 5000 5000); unfold reading; lia.
    + apply (step_recv demo_sent "B" 10 10 0 (Event "A" (mkHLC 5000 0 "A") Send));
        try (unfold reading; lia); reflexivity.
  - unfold short; simpl; lia.
  - eapply hb_msg; reflexivity.
  - reflexivity.
  - reflexivity.
Defined.



(** The counter of a received stamp is not guarded against overflow: a
    stamp that carries the maximal counter at a physical time that is the
    maximum of the three readings makes the counter wrap to zero, so the
    receive event is stamped [Before] the message it received and, when the
    local clock was at the same physical time, before the node's own previous
    stamp. *)
Theorem hlc_counter_wraps pt pt' r h :
  wf h -> h_c h < counter_guard -> in_i64 (WallTimeMs r - pt) ->
  Counter r = 2 ^ 32 - 1 -> WallTimeMs r <= pt + MaxClockDriftMs ->
  pt <= WallTimeMs r -> h_l h <= WallTimeMs r ->
  exists t h', Update pt pt' r h = (inl t, h') /\ Before t r = true /\
    (h_l h = WallTimeMs r -> 0 < h_c h -> Before t (stamp h) = true).
Proof.
  intros [Hl Hc] Hg Hi Hm Hd Hp Hle. eexists _, _. unfold Update.
  rewrite i64_small by done. rewrite Z.gtb_ltb.
  destruct (Z.ltb_spec MaxClockDriftMs (WallTimeMs r - pt)); [lia|].
  rewrite Z.geb_leb. destruct (Z.leb_spec counter_guard (h_c h)); [lia|].
  split; [reflexivity|]. rewrite max3_spec, maxU32_spec.
  replace (Z.max (Z.max (h_l h) (WallTimeMs r)) pt) with (WallTimeMs r) by lia.
  unfold in_u32 in Hc. rewrite Hm, Z.eqb_refl, andb_true_r.
  replace (Z.max (h_c h) (2 ^ 32 - 1) + 1) with (2 ^ 32) by lia.
  change (u32 (2 ^ 32 - 1 + 1)) with 0. change (u32 (2 ^ 32)) with 0.
  assert (E : forall b : bool, (if b then 0 else if b then u32 (h_c h + 1) else 0) = 0)
    by (by intros []).
  rewrite E. split.
  - apply lc_lt_Before. right. simpl. lia.
  - intros Hl1 Hc1. apply lc_lt_Before. right. simpl. lia.
Qed.

Lemma hlc_counter_wraps_witness :
  exists t h', Update 1000 1000 (mkHLC 1000 (2 ^ 32 - 1) "B") (mkHLCState 1000 7 "A") = (inl t, h')
    /\ Before t (mkHLC 1000 (2 ^ 32 - 1) "B") = true
    /\ (1000 = 1000 -> 0 < 7 -> Before t (mkHLC 1000 7 "A") = true).
Proof.
  apply (hlc_counter_wraps 1000 1000 (mkHLC 1000 (2 ^ 32 - 1) "B") (mkHLCState 1000 7 "A"));
    unfold wf, in_u32, in_i64, counter_guard, MaxClockDriftMs; simpl; lia.
Defined.

End Hlc.
