(* ===== verification/Epoch.v ===== *)
(** * Epoch tracking

    [coordination/epoch.go]: classification of an incoming epoch and the
    tracker with its buffer of envelopes from future epochs. *)
From S2P Require Import Prelude Types.

Module Epoch.

(** [ValidateEpoch] *)
Definition ValidateEpoch (msgEpoch localEpoch : Z) : EpochAction :=
  if msgEpoch =? localEpoch then ActionProcess
  else if msgEpoch <? localEpoch then ActionRejectStale
  else ActionBufferFuture.

Record EpochTracker := mkTracker {
  et_epoch : Z;
  et_treeHash : bytes;
  et_futureBuffer : gmap Z (list bytes);
}.

Definition NewEpochTracker (initialEpoch : Z) (treeHash : bytes) : EpochTracker :=
  mkTracker initialEpoch treeHash ∅.

Definition Current (et : EpochTracker) : Z := et_epoch et.
Definition TreeHash (et : EpochTracker) : bytes := et_treeHash et.

(** [Advance]: the buffered envelopes of the new epoch and the tracker with
    every entry at or below the new epoch dropped. *)
Definition Advance (newEpoch : Z) (newTreeHash : bytes) (et : EpochTracker)
  : list bytes * EpochTracker :=
  let buffered := default [] (et_futureBuffer et !! newEpoch) in
  let fb := delete newEpoch (et_futureBuffer et) in
  let fb := filter (fun kv : Z * list bytes => ~ (kv.1 <= newEpoch)) fb in
  (buffered, mkTracker newEpoch newTreeHash fb).

(** [Validate] *)
Definition Validate (msgEpoch : Z) (et : EpochTracker) : EpochAction :=
  ValidateEpoch msgEpoch (et_epoch et).

(** [BufferFuture] *)
Definition BufferFuture (epoch : Z) (raw : bytes) (et : EpochTracker) : EpochTracker :=
  if epoch <=? et_epoch et then et
  else mkTracker (et_epoch et) (et_treeHash et)
         (<[epoch := default [] (et_futureBuffer et !! epoch) ++ [raw]]> (et_futureBuffer et)).

(** [FutureBufferSize] *)
Definition FutureBufferSize (et : EpochTracker) : nat :=
  map_fold (fun _ msgs total => (total + length msgs)%nat) 0%nat (et_futureBuffer et).

(** ** Facts *)

Lemma ValidateEpoch_process m l : ValidateEpoch m l = ActionProcess <-> m = l.
Proof.
  unfold ValidateEpoch. destruct (Z.eqb_spec m l); [done|].
  destruct (Z.ltb_spec m l); naive_solver.
Qed.

Lemma ValidateEpoch_stale m l : ValidateEpoch m l = ActionRejectStale <-> m < l.
Proof.
  unfold ValidateEpoch. destruct (Z.eqb_spec m l); [split; [done|lia]|].
  destruct (Z.ltb_spec m l); naive_solver lia.
Qed.

Lemma ValidateEpoch_future m l : ValidateEpoch m l = ActionBufferFuture <-> l < m.
Proof.
  unfold ValidateEpoch. destruct (Z.eqb_spec m l); [split; [done|lia]|].
  destruct (Z.ltb_spec m l); split; done || lia.
Qed.

Lemma Advance_epoch n th et : et_epoch (snd (Advance n th et)) = n.
Proof. reflexivity. Qed.

Lemma Advance_lookup n th et e :
  et_futureBuffer (snd (Advance n th et)) !! e =
  if decide (n < e) then et_futureBuffer et !! e else None.
Proof.
  unfold Advance; cbn [snd et_futureBuffer]. rewrite map_lookup_filter, lookup_delete.
  destruct (decide (n = e)) as [->|]; simpl; [by rewrite decide_False by lia|].
  destruct (et_futureBuffer et !! e); simpl; [|by case_decide].
  case_guard; case_decide; simpl in *; done || lia.
Qed.

Lemma BufferFuture_epoch e r et : et_epoch (BufferFuture e r et) = et_epoch et.
Proof. unfold BufferFuture. by case_match. Qed.

Lemma BufferFuture_lookup e r et e' :
  et_futureBuffer (BufferFuture e r et) !! e' =
  if decide (et_epoch et < e /\ e = e')
  then Some (default [] (et_futureBuffer et !! e) ++ [r])
  else et_futureBuffer et !! e'.
Proof.
  unfold BufferFuture. destruct (Z.leb_spec e (et_epoch et)).
  - case_decide; [lia|done].
  - simpl. rewrite lookup_insert. repeat case_decide; done || lia.
Qed.

(** The buffer only holds epochs ahead of the current one. *)
Definition tracker_ok (et : EpochTracker) : Prop :=
  forall e msgs, et_futureBuffer et !! e = Some msgs -> et_epoch et < e /\ msgs <> [].

Lemma tracker_ok_new e th : tracker_ok (NewEpochTracker e th).
Proof. intros e' m. simpl. by rewrite lookup_empty. Qed.

Lemma tracker_ok_buffer e r et : tracker_ok et -> tracker_ok (BufferFuture e r et).
Proof.
  intros H e' m. rewrite BufferFuture_lookup, BufferFuture_epoch. case_decide.
  - intros [= <-]. split; [lia|]. by destruct (default _ _).
  - apply H.
Qed.

Lemma tracker_ok_advance n th et : tracker_ok et -> tracker_ok (snd (Advance n th et)).
Proof.
  intros H e' m. rewrite Advance_lookup, Advance_epoch. case_decide; [|done].
  intros Hm. split; [done|]. by eapply H.
Qed.

#[export] Hint Resolve tracker_ok_new tracker_ok_buffer tracker_ok_advance : coord.

(** ** Specification: an arrival-ordered queue of pending envelopes *)

Record queue := mkQueue { q_epoch : Z; q_pending : list (Z * bytes) }.

Definition q_buffer (e : Z) (r : bytes) (q : queue) : queue :=
  if q_epoch q <? e then mkQueue (q_epoch q) (q_pending q ++ [(e, r)]) else q.

Definition q_advance (n : Z) (q : queue) : list bytes * queue :=
  (snd <$> filter (fun p : Z * bytes => p.1 = n) (q_pending q),
   mkQueue n (filter (fun p : Z * bytes => n < p.1) (q_pending q))).

(** The tracker represents the queue: per epoch, the envelopes in order. *)
Definition represents (et : EpochTracker) (q : queue) : Prop :=
  et_epoch et = q_epoch q /\
  forall e, default [] (et_futureBuffer et !! e) = snd <$> filter (fun p : Z * bytes => p.1 = e) (q_pending q).

Lemma represents_buffer e r et q :
  represents et q -> represents (BufferFuture e r et) (q_buffer e r q).
Proof.
  intros [He Hb]. unfold represents. rewrite BufferFuture_epoch. split.
  - unfold q_buffer. by case_match.
  - intros e'. rewrite BufferFuture_lookup. unfold q_buffer.
    destruct (Z.ltb_spec (q_epoch q) e); case_decide as Hc; try (exfalso; lia); simpl.
    + destruct Hc as [_ <-]. rewrite filter_app, fmap_app, Hb. f_equal.
      rewrite filter_cons_True by done. done.
    + rewrite filter_app, fmap_app, Hb. rewrite filter_cons_False, filter_nil by (simpl; lia).
      by rewrite app_nil_r.
    + apply Hb.
Qed.

Lemma represents_advance n th et q :
  represents et q ->
  fst (Advance n th et) = fst (q_advance n q) /\
  represents (snd (Advance n th et)) (snd (q_advance n q)).
Proof.
  intros [He Hb]. split; [apply Hb|]. split; [done|].
  intros e. rewrite Advance_lookup. simpl. rewrite list_filter_filter.
  case_decide; simpl.
  - rewrite Hb. f_equal. apply list_filter_iff. intros [k v]; simpl. lia.
  - clear Hb He. induction (q_pending q) as [|[k v] l IH]; [done|].
    rewrite filter_cons_False by (simpl; lia). apply IH.
Qed.

(** Operations of the tracker's clients and the envelopes they get back. *)
Inductive op := OpBuffer (e : Z) (r : bytes) | OpAdvance (n : Z) (th : bytes).

Definition run_op (o : op) (et : EpochTracker) : list bytes * EpochTracker :=
  match o with
  | OpBuffer e r => ([], BufferFuture e r et)
  | OpAdvance n th => Advance n th et
  end.

Definition spec_op (o : op) (q : queue) : list bytes * queue :=
  match o with
  | OpBuffer e r => ([], q_buffer e r q)
  | OpAdvance n th => q_advance n q
  end.

Fixpoint run_ops {S} (f : op -> S -> list bytes * S) (os : list op) (s : S) : list (list bytes) :=
  match os with
  | [] => []
  | o :: os' => let r := f o s in fst r :: run_ops f os' (snd r)
  end.

(** ** Properties *)

(** C36: Refinement.  For every sequence of [BufferFuture] and [Advance]
    calls the tracker releases the same envelopes, in the same order and at
    the same calls, as a queue that keeps the accepted future envelopes in
    arrival order, hands out those of the epoch that is reached and drops the
    ones that were overtaken: none is lost, duplicated or released early. *)
Theorem epoch_tracker_refines os et q :
  represents et q -> run_ops run_op os et = run_ops spec_op os q.
Proof.
  revert et q. induction os as [|o os IH]; intros et q H; [done|]. simpl.
  destruct o as [e r|n th]; simpl.
  - f_equal. apply IH. by apply represents_buffer.
  - destruct (represents_advance n th et q H) as [H1 H2]. simpl in *. f_equal; [done|]. by apply IH.
Qed.

Lemma epoch_tracker_refines_witness :
  run_ops run_op [OpBuffer 2 [x01]; OpBuffer 1 [x02]; OpBuffer 2 [x03]; OpAdvance 2 []]
    (NewEpochTracker 0 []) = [[]; []; []; [[x01]; [x03]]] /\
  run_ops run_op [OpBuffer 2 [x01]; OpAdvance 2 []] (NewEpochTracker 0 [])
    = run_ops spec_op [OpBuffer 2 [x01]; OpAdvance 2 []] (mkQueue 0 []).
Proof.
  split; [reflexivity|].
  apply (epoch_tracker_refines [OpBuffer 2 [x01]; OpAdvance 2 []] (NewEpochTracker 0 []) (mkQueue 0 [])).
  split; [reflexivity|]. intros e. reflexivity.
Defined.

End Epoch.
