(* ===== verification/ActiveView.v ===== *)
(** * Active view

    [coordination/active_view.go]: the online peers of a group with their
    missed-check counters.  A call that fires the [onChange] callback returns
    the member list it passes. *)
From S2P Require Import Prelude Types Config.

Module ActiveView.

Record ActiveView := mkView {
  av_localID : peerID;
  av_members : gmap peerID Z;
}.

Definition NewActiveView (localID : peerID) : ActiveView :=
  mkView localID {[ localID := 0 ]}.

(** [Seed] *)
Definition seed_one (m : gmap peerID Z) (id : peerID) : gmap peerID Z :=
  if str_eqb id "" then m
  else match m !! id with Some _ => m | None => <[id := 0]> m end.

Definition Seed (ids : list peerID) (av : ActiveView) : ActiveView :=
  mkView (av_localID av) (foldl seed_one (av_members av) ids).

(** [sortedMembersLocked] *)
Definition sortedMembersLocked (av : ActiveView) : list peerID :=
  stable_sort str_ltb (map_to_list (av_members av)).*1.

(** [RecordHeartbeat]: whether the peer is new, the argument of [onChange] if
    it fires, the new view. *)
Definition RecordHeartbeat (id : peerID) (av : ActiveView)
  : bool * option (list peerID) * ActiveView :=
  match av_members av !! id with
  | Some _ => (false, None, mkView (av_localID av) (<[id := 0]> (av_members av)))
  | None =>
      let av' := mkView (av_localID av) (<[id := 0]> (av_members av)) in
      (true, Some (sortedMembersLocked av'), av')
  end.

(** One peer's counter after a liveness check: [None] if it is evicted. *)
Definition check_one (cfg : Config.CoordinatorConfig) (local id : peerID) (missed : Z) : option Z :=
  if str_eqb id local then Some missed
  else if missed + 1 >=? Config.PeerDeadAfter cfg then None
  else Some (missed + 1).

(** [CheckLiveness]: the evicted peers (in no particular order), the argument
    of [onChange] if it fires, the new view. *)
Definition CheckLiveness (cfg : Config.CoordinatorConfig) (av : ActiveView)
  : list peerID * option (list peerID) * ActiveView :=
  let m' := map_imap (fun id missed => check_one cfg (av_localID av) id missed) (av_members av) in
  let evicted := (filter (fun kv : peerID * Z => m' !! kv.1 = None) (map_to_list (av_members av))).*1 in
  let av' := mkView (av_localID av) m' in
  (evicted, if is_empty evicted then None else Some (sortedMembersLocked av'), av').

(** [Evict] *)
Definition Evict (id : peerID) (av : ActiveView) : option (list peerID) * ActiveView :=
  if str_eqb id (av_localID av) then (None, av)
  else match av_members av !! id with
       | None => (None, av)
       | Some _ =>
           let av' := mkView (av_localID av) (delete id (av_members av)) in
           (Some (sortedMembersLocked av'), av')
       end.

Definition Members (av : ActiveView) : list peerID := sortedMembersLocked av.
Definition Contains (id : peerID) (av : ActiveView) : bool :=
  match av_members av !! id with Some _ => true | None => false end.
Definition Size (av : ActiveView) : Z := Z.of_nat (size (av_members av)).

(** ** Facts *)

Lemma elem_of_Members id av : id ∈ Members av <-> is_Some (av_members av !! id).
Proof.
  unfold Members, sortedMembersLocked. rewrite stable_sort_elem, list_elem_of_fmap.
  split.
  - intros ([k v] & -> & H%elem_of_map_to_list). by exists v.
  - intros [v H]. exists (id, v). split; [done|]. by apply elem_of_map_to_list.
Qed.

Lemma Members_sorted av : StronglySorted (sort_le str_ltb) (Members av).
Proof. apply stable_sort_sorted. apply _. Qed.

Lemma Members_nodup av : NoDup (Members av).
Proof.
  unfold Members, sortedMembersLocked. rewrite stable_sort_perm.
  apply NoDup_fst_map_to_list.
Qed.

Lemma Members_length av : Z.of_nat (length (Members av)) = Size av.
Proof.
  unfold Members, sortedMembersLocked, Size. rewrite stable_sort_length, length_fmap.
  by rewrite length_map_to_list.
Qed.

(** The member list is a function of the set of members. *)
Lemma Members_ext av av' :
  dom (av_members av) = dom (av_members av') -> Members av = Members av'.
Proof.
  intros H. apply stable_sort_unique; [apply _| |].
  - intros x y _ _. intros. by apply str_ltb_total.
  - apply NoDup_Permutation; [apply NoDup_fst_map_to_list ..|].
    assert (Hd : forall (m : gmap peerID Z) x, x ∈ (map_to_list m).*1 <-> x ∈ dom m).
    { intros m x. rewrite list_elem_of_fmap, elem_of_dom. split.
      - intros ([k v] & -> & Hk%elem_of_map_to_list). by exists v.
      - intros [v Hv]. exists (x, v). split; [done|]. by apply elem_of_map_to_list. }
    intros x. by rewrite !Hd, H.
Qed.

Lemma check_lookup cfg av id :
  av_members (snd (CheckLiveness cfg av)) !! id =
  av_members av !! id ≫= check_one cfg (av_localID av) id.
Proof. unfold CheckLiveness; simpl. apply map_lookup_imap. Qed.

(** ** Invariant *)

(** The local node is present with a zero counter; a remote peer's counter
    stays below the eviction threshold. *)
Definition view_ok (cfg : Config.CoordinatorConfig) (av : ActiveView) : Prop :=
  av_members av !! av_localID av = Some 0 /\
  forall id n, av_members av !! id = Some n -> 0 <= n < Config.PeerDeadAfter cfg.

Section Invariant.
Context (cfg : Config.CoordinatorConfig) (Hcfg : Config.valid cfg).

Lemma view_ok_new id : view_ok cfg (NewActiveView id).
Proof.
  destruct Hcfg. split; simpl; [by rewrite lookup_singleton_eq|].
  intros id' n. rewrite lookup_singleton_Some. intros [_ <-]. lia.
Qed.

Lemma seed_one_ok m id :
  (forall id n, m !! id = Some n -> 0 <= n < Config.PeerDeadAfter cfg) ->
  forall id' n, seed_one m id !! id' = Some n -> 0 <= n < Config.PeerDeadAfter cfg.
Proof.
  intros H id' n. unfold seed_one. case_match; [apply H|].
  destruct (m !! id) eqn:E; [apply H|].
  rewrite lookup_insert_Some. intros [[<- <-]|[_ ?]]; [destruct Hcfg; lia|by eapply H].
Qed.

Lemma seed_one_keep m id k v : m !! k = Some v -> seed_one m id !! k = Some v.
Proof.
  intros H. unfold seed_one. case_match; [done|]. destruct (m !! id) eqn:E; [done|].
  rewrite lookup_insert_ne; [done|]. congruence.
Qed.

Lemma view_ok_seed ids av : view_ok cfg av -> view_ok cfg (Seed ids av).
Proof.
  unfold Seed, view_ok; simpl. generalize (av_members av). generalize (av_localID av).
  intros l. induction ids as [|id ids IH]; intros m [H1 H2]; simpl; [done|].
  apply IH. split; [by apply seed_one_keep|by apply seed_one_ok].
Qed.

Lemma view_ok_heartbeat id av : view_ok cfg av -> view_ok cfg (snd (RecordHeartbeat id av)).
Proof.
  intros [H1 H2]. unfold RecordHeartbeat. destruct (av_members av !! id); simpl;
    (split; simpl;
     [rewrite lookup_insert; by case_decide
     |intros id' n; rewrite lookup_insert_Some;
      intros [[<- <-]|[_ ?]]; [destruct Hcfg; lia|by eapply H2]]).
Qed.

Lemma view_ok_check av : view_ok cfg av -> view_ok cfg (snd (CheckLiveness cfg av)).
Proof.
  intros [H1 H2]. split.
  - rewrite check_lookup. change (av_localID (snd (CheckLiveness cfg av))) with (av_localID av).
    rewrite H1. simpl. unfold check_one. by rewrite str_eqb_refl.
  - intros id n. rewrite check_lookup. intros (m & Hm & Hc)%bind_Some.
    unfold check_one in Hc. specialize (H2 _ _ Hm). rewrite Z.geb_leb in Hc.
    destruct (str_eqb id _); [naive_solver|].
    destruct (Z.leb_spec (Config.PeerDeadAfter cfg) (m + 1)); simplify_eq; lia.
Qed.

Lemma view_ok_evict id av : view_ok cfg av -> view_ok cfg (snd (Evict id av)).
Proof.
  intros [H1 H2]. unfold Evict. destruct (str_eqb id (av_localID av)) eqn:E; [done|].
  apply str_eqb_false in E. destruct (av_members av !! id); [|done].
  split; simpl.
  - by rewrite lookup_delete_ne.
  - intros id' n. rewrite lookup_delete_Some. intros [_ ?]. by eapply H2.
Qed.
End Invariant.

#[export] Hint Resolve view_ok_new view_ok_seed view_ok_heartbeat view_ok_check view_ok_evict : coord.

(** [n] liveness checks in a row. *)
Fixpoint checks (cfg : Config.CoordinatorConfig) (n : nat) (av : ActiveView) : ActiveView :=
  match n with
  | O => av
  | S n' => checks cfg n' (snd (CheckLiveness cfg av))
  end.

Lemma checks_local cfg n av : av_localID (checks cfg n av) = av_localID av.
Proof. revert av. induction n; intros; simpl; [done|]. by rewrite IHn. Qed.

Lemma checks_lookup cfg n av id m :
  id <> av_localID av -> av_members av !! id = Some m ->
  m < Config.PeerDeadAfter cfg ->
  av_members (checks cfg n av) !! id =
  if decide (m + Z.of_nat n < Config.PeerDeadAfter cfg) then Some (m + Z.of_nat n) else None.
Proof.
  intros Hne. revert av m Hne. induction n as [|n IH]; intros av m Hne Hm Hlt.
  - simpl. rewrite decide_True by lia. rewrite Hm. f_equal; lia.
  - cbn [checks]. assert (Hl : str_eqb id (av_localID av) = false) by (by apply str_eqb_false).
    pose proof (check_lookup cfg av id) as Hc. rewrite Hm in Hc. simpl in Hc.
    unfold check_one in Hc. rewrite Hl, Z.geb_leb in Hc.
    destruct (Z.leb_spec (Config.PeerDeadAfter cfg) (m + 1)).
    + rewrite decide_False by lia.
      assert (Hgone : forall k av, av_members av !! id = None -> av_members (checks cfg k av) !! id = None).
      { induction k as [|k IHk]; intros av' Hav; [done|]. simpl. apply IHk.
        change (mkView _ _) with (snd (CheckLiveness cfg av')).
        by rewrite check_lookup, Hav. }
      by apply Hgone.
    + rewrite (IH _ (m + 1)); [|done..].
      replace (m + Z.of_nat (S n)) with (m + 1 + Z.of_nat n) by lia. done.
Qed.

(** ** Properties *)

(** Failure detection.  After [n] liveness checks without a heartbeat a
    remote peer whose counter was reset is still in the view if and only if
    [n] is below [PeerDeadAfter], while the local node is never evicted: the
    detector neither evicts early nor keeps a dead peer. *)
Theorem liveness_eviction_exact cfg av id n :
  Config.valid cfg -> view_ok cfg av -> id <> av_localID av -> Contains id av = true ->
  let av' := checks cfg n (snd (RecordHeartbeat id av)) in
  Contains id av' = bool_decide (Z.of_nat n < Config.PeerDeadAfter cfg) /\
  Contains (av_localID av) av' = true.
Proof.
  intros Hv Hok Hne Hin av'.
  assert (Hok' : view_ok cfg (snd (RecordHeartbeat id av))) by eauto with coord.
  assert (Hloc : av_localID (snd (RecordHeartbeat id av)) = av_localID av).
  { unfold RecordHeartbeat. by destruct (av_members av !! id). }
  assert (H0 : av_members (snd (RecordHeartbeat id av)) !! id = Some 0).
  { unfold RecordHeartbeat. by destruct (av_members av !! id); simpl; rewrite lookup_insert_eq. }
  assert (Hpos : 1 <= Config.PeerDeadAfter cfg) by by destruct Hv.
  split.
  - unfold Contains, av'. rewrite (checks_lookup cfg n _ id 0); [|by rewrite Hloc|done|lia].
    simpl. case_decide; by rewrite ?bool_decide_true, ?bool_decide_false by done.
  - unfold av'. clear Hne Hin H0 av'. revert Hok' Hloc.
    generalize (snd (RecordHeartbeat id av)). induction n as [|n IH]; intros v Hok' Hloc.
    + simpl. unfold Contains. destruct Hok' as [Hl _]. by rewrite <-Hloc, Hl.
    + simpl. apply IH; [|done]. change (mkView _ _) with (snd (CheckLiveness cfg v)).
      by apply view_ok_check.
Qed.

Lemma liveness_eviction_exact_witness :
  let av := Seed ["B"; "C"] (NewActiveView "A") in
  let av' := checks Config.DefaultConfig 3 (snd (RecordHeartbeat "B" av)) in
  Contains "B" av' = false /\ Contains "A" av' = true.
Proof.
  apply (liveness_eviction_exact Config.DefaultConfig (Seed ["B"; "C"] (NewActiveView "A")) "B" 3).
  - by apply Config.Validate_None.
  - apply view_ok_seed; [by apply Config.Validate_None|].
    apply view_ok_new; by apply Config.Validate_None.
  - done.
  - reflexivity.
Defined.

End ActiveView.
