(* ===== verification/SingleWriter.v ===== *)
(** * Single-writer protocol

    [coordination/single_writer.go]: token-holder election, the proposal
    buffer with its deterministic batch, draining and suspension.

    [peer.ID.String] and [peer.Decode] belong to libp2p and are parameters;
    the authorization policy is a callback of the application layer.  It may
    read mutable storage, so a call carries the instant [now] at which it is
    made; the active view is passed as the sorted member list. *)
From S2P Require Import Prelude Sha256 Types Config.

(** libp2p's textual encoding of peer ids (base58 of the multihash). *)
Class PeerCodec := {
  peer_String : peerID -> string;
  peer_Decode : string -> option peerID;
}.

(** What the code relies on: the encoding is injective, only the empty id
    prints as the empty string, and decoding inverts printing for every id
    that decoding can produce. *)
Class PeerCodecLaws `{PeerCodec} : Prop := {
  peer_String_inj : forall p q, peer_String p = peer_String q -> p = q;
  peer_String_empty : peer_String "" = "";
  peer_Decode_nonempty : forall s, peer_Decode s <> Some "";
  peer_Decode_String : forall s p, peer_Decode s = Some p -> peer_Decode (peer_String p) = Some p;
}.

(** The identity encoding, for evaluation on concrete inputs. *)
Definition plain_codec : PeerCodec := {|
  peer_String := fun p => p;
  peer_Decode := fun s => if str_eqb s "" then None else Some s;
|}.

Lemma plain_codec_laws : @PeerCodecLaws plain_codec.
Proof.
  split; simpl; try done.
  - intros s. case_match; [done|]. intros [= ->]. done.
  - intros s p. destruct (str_eqb s "") eqn:E; [done|]. intros [= <-]. by rewrite E.
Qed.

Module SingleWriter.

(** [AuthorizedCommittersProvider] *)
Abbreviation Provider := (nat -> string -> Z -> list BufferedProposal -> result (list peerID)).

Record SingleWriter := mkSW {
  sw_localID : peerID;
  sw_epoch : Z;
  sw_proposals : list BufferedProposal;
  sw_groupID : string;
  sw_authorized : option Provider;
  sw_suspended : gset peerID;
}.

(** ** Election *)

(** [binary.LittleEndian.PutUint64] *)
Definition le64 (n : Z) : bytes :=
  (fun i => Sha256.byte_of_N (Z.to_N (Z.shiftr n (8 * Z.of_nat i)))) <$> seq 0 8.

(** [hashLess] *)
Fixpoint hashLess (a b : bytes) : bool :=
  match a, b with
  | x :: a', y :: b' =>
      if negb (bool_decide (x = y)) then byte_lt x y else hashLess a' b'
  | _, _ => false
  end.

(** The candidate hash of one peer. *)
Definition holderHash (groupID : string) (epoch : Z) (pid : peerID) : bytes :=
  sha256_sum (str_bytes groupID ++ le64 epoch ++ str_bytes pid).

(** One iteration of the election loop; [None] is [first = true]. *)
Definition elect_step (groupID : string) (epoch : Z) (best : option (peerID * bytes)) (pid : peerID)
  : option (peerID * bytes) :=
  let candidate := holderHash groupID epoch pid in
  match best with
  | None => Some (pid, candidate)
  | Some (_, bestHash) => if hashLess candidate bestHash then Some (pid, candidate) else best
  end.

(** [ComputeTokenHolder] *)
Definition ComputeTokenHolder (groupID : string) (activeView : list peerID) (epoch : Z) : result peerID :=
  match activeView with
  | [] => inr ErrNoActiveView
  | _ => match foldl (elect_step groupID epoch) None activeView with
         | Some (best, _) => inl best
         | None => inl ""
         end
  end.

(** [intersectPeerIDs] *)
Definition intersectPeerIDs (active authorized : list peerID) : list peerID :=
  if is_empty active || is_empty authorized then []
  else
    let allowed : gset peerID := list_to_set (filter (fun pid => pid <> "") authorized) in
    filter (fun pid => pid ∈ allowed) active.

(** [filterSuspended] *)
Definition filterSuspended (candidates : list peerID) (suspended : gset peerID) : list peerID :=
  if bool_decide (suspended = ∅) || is_empty candidates then candidates
  else filter (fun pid => pid ∉ suspended) candidates.

Section Ops.
Context `{PeerCodec}.

(** Targets of the batch's remove proposals. *)
Definition removedTargets (batch : list BufferedProposal) : gset string :=
  list_to_set (bp_TargetPeerID <$>
    filter (fun p => bp_Type p = ProposalRemove /\ bp_TargetPeerID p <> "") batch).

(** [filterRemovedByBatch] *)
Definition filterRemovedByBatch (candidates : list peerID) (batch : list BufferedProposal) : list peerID :=
  if is_empty candidates || is_empty batch then candidates
  else
    let removed := removedTargets batch in
    if bool_decide (removed = ∅) then candidates
    else filter (fun pid => peer_String pid ∉ removed) candidates.

(** [computeHolder] *)
Definition computeHolder (now : nat) (activeView : list peerID) (epoch : Z) (groupID : string)
  (batch : list BufferedProposal) (provider : option Provider) (suspended : gset peerID)
  : result peerID :=
  let finish eligible :=
    let eligible := filterRemovedByBatch eligible batch in
    let eligible := filterSuspended eligible suspended in
    ComputeTokenHolder groupID eligible epoch in
  match provider with
  | None => finish activeView
  | Some f =>
      match f now groupID epoch batch with
      | inr e => inr e
      | inl authorized => finish (intersectPeerIDs activeView authorized)
      end
  end.

(** ** Construction and state changes *)

(** [NewSingleWriter] *)
Definition NewSingleWriter (localID : peerID) (epoch : Z) : SingleWriter :=
  mkSW localID epoch [] "" None ∅.

(** [SetAuthorizedCommitters] *)
Definition SetAuthorizedCommitters (groupID : string) (provider : option Provider) (sw : SingleWriter) : SingleWriter :=
  mkSW (sw_localID sw) (sw_epoch sw) (sw_proposals sw) groupID provider (sw_suspended sw).

(** [Suspend] *)
Definition Suspend (id : peerID) (sw : SingleWriter) : SingleWriter :=
  mkSW (sw_localID sw) (sw_epoch sw) (sw_proposals sw) (sw_groupID sw) (sw_authorized sw)
       ({[id]} ∪ sw_suspended sw).

Definition set_proposals (ps : list BufferedProposal) (sw : SingleWriter) : SingleWriter :=
  mkSW (sw_localID sw) (sw_epoch sw) ps (sw_groupID sw) (sw_authorized sw) (sw_suspended sw).

(** [BufferProposal]: a proposal with a known reference is not buffered
    twice, and the buffer is capped. *)
Definition BufferProposal (cfg : Config.CoordinatorConfig) (p : BufferedProposal) (sw : SingleWriter) : SingleWriter :=
  if negb (is_empty (bp_ProposalRef p)) &&
     existsb (fun e => bytes_eqb (bp_ProposalRef e) (bp_ProposalRef p)) (sw_proposals sw)
  then sw
  else if Z.of_nat (length (sw_proposals sw)) >=? Config.MaxBatchedProposals cfg then sw
  else set_proposals (sw_proposals sw ++ [p]) sw.

(** [proposalRefLess] *)
Definition proposalRefLess (a b : BufferedProposal) : bool :=
  let la := length (bp_ProposalRef a) in
  let lb := length (bp_ProposalRef b) in
  if (la =? 0)%nat || (lb =? 0)%nat then
    if negb (la =? lb)%nat then (lb <? la)%nat
    else if negb (bp_Type a =? bp_Type b) then bp_Type a <? bp_Type b
    else bytes_ltb (bp_Data a) (bp_Data b)
  else bytes_ltb (bp_ProposalRef a) (bp_ProposalRef b).

(** [snapshotNextBatchLocked], [SnapshotNextBatch], [PeekNextBatch] *)
Definition SnapshotNextBatch (cfg : Config.CoordinatorConfig) (sw : SingleWriter) : list BufferedProposal :=
  let batch := stable_sort proposalRefLess (sw_proposals sw) in
  if Z.of_nat (length batch) >? Config.MaxBatchedProposals cfg
  then take (Z.to_nat (Config.MaxBatchedProposals cfg)) batch else batch.

(** [CurrentTokenHolder] *)
Definition CurrentTokenHolder (cfg : Config.CoordinatorConfig) (now : nat) (members : list peerID) (sw : SingleWriter) : result peerID :=
  computeHolder now members (sw_epoch sw) (sw_groupID sw) (SnapshotNextBatch cfg sw)
    (sw_authorized sw) (sw_suspended sw).

(** [IsTokenHolder] *)
Definition IsTokenHolder (cfg : Config.CoordinatorConfig) (now : nat) (members : list peerID) (sw : SingleWriter) : bool :=
  match CurrentTokenHolder cfg now members sw with
  | inl holder => str_eqb holder (sw_localID sw)
  | inr _ => false
  end.

(** [HolderForBatch] *)
Definition HolderForBatch (now : nat) (members : list peerID) (batch : list BufferedProposal) (sw : SingleWriter) : result peerID :=
  computeHolder now members (sw_epoch sw) (sw_groupID sw) batch (sw_authorized sw) (sw_suspended sw).

(** [DrainBatchByRefs] *)
Definition DrainBatchByRefs (refs : list bytes) (sw : SingleWriter) : list BufferedProposal * SingleWriter :=
  if is_empty refs || is_empty (sw_proposals sw) then ([], sw)
  else
    let drained := filter (fun p => bp_ProposalRef p ∈ refs) (sw_proposals sw) in
    let remaining := filter (fun p => bp_ProposalRef p ∉ refs) (sw_proposals sw) in
    (stable_sort proposalRefLess drained, set_proposals remaining sw).

(** [DrainBatchByData] *)
Definition DrainBatchByData (datas : list bytes) (sw : SingleWriter) : list BufferedProposal * SingleWriter :=
  if is_empty datas || is_empty (sw_proposals sw) then ([], sw)
  else
    let drained := filter (fun p => bp_Data p ∈ datas) (sw_proposals sw) in
    let remaining := filter (fun p => bp_Data p ∉ datas) (sw_proposals sw) in
    (drained, set_proposals remaining sw).

(** [DrainProposals] *)
Definition DrainProposals (sw : SingleWriter) : list BufferedProposal * SingleWriter :=
  (sw_proposals sw, set_proposals [] sw).

Definition ProposalCount (sw : SingleWriter) : Z := Z.of_nat (length (sw_proposals sw)).

(** [AdvanceEpoch] *)
Definition AdvanceEpoch (newEpoch : Z) (sw : SingleWriter) : SingleWriter :=
  mkSW (sw_localID sw) newEpoch [] (sw_groupID sw) (sw_authorized sw) ∅.

End Ops.

(** ** Election facts *)

Lemma hashLess_compare a b : length a = length b -> hashLess a b = bytes_ltb a b.
Proof.
  revert b. induction a as [|x a IH]; intros [|y b] Hl; try done.
  injection Hl as Hl. unfold bytes_ltb; simpl. destruct (bool_decide_reflect (x = y)) as [->|Hne]; simpl.
  - rewrite N.compare_refl. rewrite (IH b Hl). done.
  - unfold byte_lt. destruct (N.compare_spec (Byte.to_N x) (Byte.to_N y)) as [E|L|L].
    + exfalso. apply Hne. by apply to_N_inj.
    + by apply N.ltb_lt.
    + apply N.ltb_ge. lia.
Qed.

Lemma length_holderHash g e p : length (holderHash g e p) = 32%nat.
Proof. apply Sha256.length_sha256. Qed.

Lemma holder_hashLess g e p q :
  hashLess (holderHash g e p) (holderHash g e q) = bytes_ltb (holderHash g e p) (holderHash g e q).
Proof. apply hashLess_compare. by rewrite !length_holderHash. Qed.

(** [p] is elected by [l]: a member whose hash no member beats. *)
Definition argmin (g : string) (e : Z) (l : list peerID) (p : peerID) : Prop :=
  p ∈ l /\ forall q, q ∈ l -> bytes_ltb (holderHash g e q) (holderHash g e p) = false.

Lemma elect_fold g e l p0 :
  exists p, foldl (elect_step g e) (Some (p0, holderHash g e p0)) l = Some (p, holderHash g e p)
            /\ argmin g e (p0 :: l) p.
Proof.
  revert p0. induction l as [|x l IH]; intros p0; simpl.
  - exists p0. split; [done|]. split; [by left|]. intros q Hq.
    apply list_elem_of_singleton in Hq as ->. apply bytes_ltb_irrefl.
  - rewrite holder_hashLess. destruct (bytes_ltb (holderHash g e x) (holderHash g e p0)) eqn:E.
    + destruct (IH x) as (p & Hf & Hin & Hmin). exists p. split; [done|].
      split; [set_solver|]. intros q. rewrite elem_of_cons. intros [->|Hq]; [|by apply Hmin].
      destruct (bytes_ltb (holderHash g e p0) (holderHash g e p)) eqn:E'; [|done].
      rewrite <-(Hmin x) by (by left). symmetry. by eapply bytes_ltb_trans.
    + destruct (IH p0) as (p & Hf & Hin & Hmin). exists p. split; [done|].
      split; [set_solver|]. intros q. rewrite !elem_of_cons. intros [->|[->|Hq]].
      * apply Hmin. by left.
      * destruct (bytes_ltb (holderHash g e x) (holderHash g e p)) eqn:E'; [|done].
        destruct (sw_negtrans _ (holderHash g e p0) _ E') as [?|E'']; [congruence|].
        rewrite (Hmin p0) in E'' by (by left). done.
      * apply Hmin. by right.
Qed.

Lemma ComputeTokenHolder_nil g e : ComputeTokenHolder g [] e = inr ErrNoActiveView.
Proof. done. Qed.

Lemma ComputeTokenHolder_argmin g l e :
  l <> [] -> exists p, ComputeTokenHolder g l e = inl p /\ argmin g e l p.
Proof.
  destruct l as [|x l]; [done|]. intros _. unfold ComputeTokenHolder. simpl.
  destruct (elect_fold g e l x) as (p & -> & Hp). eauto.
Qed.

Lemma ComputeTokenHolder_inl g l e p : ComputeTokenHolder g l e = inl p -> argmin g e l p.
Proof.
  intros H. destruct (decide (l = [])) as [->|Hne]; [done|].
  destruct (ComputeTokenHolder_argmin g l e Hne) as (p' & Hp & Ha). congruence.
Qed.

Lemma ComputeTokenHolder_inr g l e err :
  ComputeTokenHolder g l e = inr err -> l = [] /\ err = ErrNoActiveView.
Proof.
  intros H. destruct (decide (l = [])) as [->|Hne]; [simpl in H; naive_solver|].
  destruct (ComputeTokenHolder_argmin g l e Hne) as (p' & Hp & Ha). congruence.
Qed.

(** Distinct candidates have distinct election hashes. *)
Definition collision_free (g : string) (e : Z) (l : list peerID) : Prop :=
  forall p q, p ∈ l -> q ∈ l -> holderHash g e p = holderHash g e q -> p = q.

Lemma argmin_unique g e l l' p q :
  collision_free g e l -> (forall x, x ∈ l <-> x ∈ l') ->
  argmin g e l p -> argmin g e l' q -> p = q.
Proof.
  intros Hc Hl [Hp1 Hp2] [Hq1 Hq2]. apply Hc; [done|by apply Hl|].
  apply bytes_ltb_total; [apply Hq2; by apply Hl|apply Hp2; by apply Hl].
Qed.

Lemma ComputeTokenHolder_ext g e l l' :
  collision_free g e l -> (forall x, x ∈ l <-> x ∈ l') ->
  ComputeTokenHolder g l e = ComputeTokenHolder g l' e.
Proof.
  intros Hc Hl. destruct (decide (l = [])) as [->|Hne].
  - destruct l' as [|x l']; [done|]. exfalso. apply (not_elem_of_nil x). apply Hl. by left.
  - assert (l' <> []) as Hne'.
    { intros ->. destruct l as [|x l]; [done|]. apply (not_elem_of_nil x). apply Hl. by left. }
    destruct (ComputeTokenHolder_argmin g l e Hne) as (p & -> & Hp).
    destruct (ComputeTokenHolder_argmin g l' e Hne') as (q & -> & Hq).
    f_equal. by eapply argmin_unique.
Qed.

(** ** Eligibility *)

Lemma elem_of_intersect p active authorized :
  p ∈ intersectPeerIDs active authorized <-> p ∈ active /\ p ∈ authorized /\ p <> "".
Proof.
  unfold intersectPeerIDs. destruct (is_empty active || is_empty authorized) eqn:E.
  - apply orb_true_iff in E as [->%is_empty_true| ->%is_empty_true]; set_solver.
  - rewrite list_elem_of_filter, elem_of_list_to_set, list_elem_of_filter. tauto.
Qed.

Lemma elem_of_filterSuspended p l (s : gset peerID) :
  p ∈ filterSuspended l s <-> p ∈ l /\ p ∉ s.
Proof.
  unfold filterSuspended. destruct (bool_decide (s = ∅)) eqn:E; simpl.
  - apply bool_decide_eq_true in E as ->. set_solver.
  - destruct l; simpl; [set_solver|]. rewrite list_elem_of_filter. tauto.
Qed.

Section Election.
Context `{PeerCodec}.

(** The batch removes [p]. *)
Definition batch_removes (batch : list BufferedProposal) (p : peerID) : Prop :=
  exists b, b ∈ batch /\ bp_Type b = ProposalRemove /\ bp_TargetPeerID b <> "" /\
            bp_TargetPeerID b = peer_String p.

Lemma elem_of_removedTargets batch t :
  t ∈ removedTargets batch <->
  exists b, b ∈ batch /\ bp_Type b = ProposalRemove /\ bp_TargetPeerID b <> "" /\ bp_TargetPeerID b = t.
Proof.
  unfold removedTargets. rewrite elem_of_list_to_set, list_elem_of_fmap.
  setoid_rewrite list_elem_of_filter. naive_solver.
Qed.

Lemma elem_of_filterRemoved p l batch :
  p ∈ filterRemovedByBatch l batch <-> p ∈ l /\ ~ batch_removes batch p.
Proof.
  unfold filterRemovedByBatch.
  assert (Hr : peer_String p ∈ removedTargets batch <-> batch_removes batch p)
    by apply elem_of_removedTargets.
  destruct l as [|x l]; [set_solver|]. destruct batch as [|b batch]; simpl.
  - split; [|tauto]. intros Hp. split; [done|]. intros (b & Hb & _). set_solver.
  - case_bool_decide as E.
    + split; [|tauto]. intros Hp. split; [done|]. rewrite <-Hr, E. set_solver.
    + rewrite list_elem_of_filter. tauto.
Qed.

(** Who may be elected, given the policy's answer. *)
Definition eligible (members : list peerID) (authorized : option (list peerID))
  (batch : list BufferedProposal) (suspended : gset peerID) (p : peerID) : Prop :=
  p ∈ members /\ match authorized with Some a => p ∈ a /\ p <> "" | None => True end /\
  ~ batch_removes batch p /\ p ∉ suspended.

Definition candidates (members : list peerID) (authorized : option (list peerID))
  (batch : list BufferedProposal) (suspended : gset peerID) : list peerID :=
  let l := match authorized with Some a => intersectPeerIDs members a | None => members end in
  filterSuspended (filterRemovedByBatch l batch) suspended.

Lemma elem_of_candidates members a batch s p :
  p ∈ candidates members a batch s <-> eligible members a batch s p.
Proof.
  unfold candidates, eligible. rewrite elem_of_filterSuspended, elem_of_filterRemoved.
  destruct a; rewrite ?elem_of_intersect; tauto.
Qed.

(** The policy's answer at an instant. *)
Definition policy (provider : option Provider) (now : nat) (g : string) (e : Z)
  (batch : list BufferedProposal) : result (option (list peerID)) :=
  match provider with
  | None => inl None
  | Some f => match f now g e batch with inl a => inl (Some a) | inr err => inr err end
  end.

Lemma computeHolder_policy now members e g batch provider s :
  computeHolder now members e g batch provider s =
  match policy provider now g e batch with
  | inr err => inr err
  | inl a => ComputeTokenHolder g (candidates members a batch s) e
  end.
Proof. unfold computeHolder, policy, candidates. destruct provider as [f|]; [|done]. by destruct (f _ _ _ _). Qed.

(** ** The proposal order *)

#[export] Instance proposalRefLess_weak : StrictWeak proposalRefLess.
Proof.
  split.
  - intros x y. unfold proposalRefLess.
    destruct (bp_ProposalRef x) as [|rx lx], (bp_ProposalRef y) as [|ry ly]; simpl; try done.
    + destruct (Z.eqb_spec (bp_Type x) (bp_Type y)), (Z.eqb_spec (bp_Type y) (bp_Type x)); simpl; try lia.
      apply bytes_ltb_asym.
    + apply bytes_ltb_asym.
  - intros x y z. unfold proposalRefLess.
    destruct (bp_ProposalRef x) as [|rx lx], (bp_ProposalRef y) as [|ry ly],
      (bp_ProposalRef z) as [|rz lz]; simpl; auto.
    + destruct (Z.eqb_spec (bp_Type x) (bp_Type z)), (Z.eqb_spec (bp_Type x) (bp_Type y)),
        (Z.eqb_spec (bp_Type y) (bp_Type z)); simpl; try lia.
      apply sw_negtrans.
    + apply sw_negtrans.
Qed.

(** Two different proposals of the list are told apart by the order. *)
Definition refs_distinct (l : list BufferedProposal) : Prop :=
  forall x y, x ∈ l -> y ∈ l -> bp_ProposalRef x = bp_ProposalRef y -> x = y.
Definition refs_nonempty (l : list BufferedProposal) : Prop :=
  forall x, x ∈ l -> bp_ProposalRef x <> [].

Lemma proposalRefLess_refs x y :
  bp_ProposalRef x <> [] -> bp_ProposalRef y <> [] ->
  proposalRefLess x y = bytes_ltb (bp_ProposalRef x) (bp_ProposalRef y).
Proof. unfold proposalRefLess. by destruct (bp_ProposalRef x), (bp_ProposalRef y). Qed.

Lemma batch_ext cfg sw sw' :
  refs_distinct (sw_proposals sw) -> refs_nonempty (sw_proposals sw) ->
  sw_proposals sw ≡ₚ sw_proposals sw' ->
  SnapshotNextBatch cfg sw = SnapshotNextBatch cfg sw'.
Proof.
  intros Hd Hn Hp. unfold SnapshotNextBatch.
  rewrite (stable_sort_unique proposalRefLess (sw_proposals sw) (sw_proposals sw')); [done| |done].
  intros x y Hx Hy. rewrite !proposalRefLess_refs by auto. intros.
  apply Hd; try done. by apply bytes_ltb_total.
Qed.

(** ** Suspension and failover *)

Lemma filterSuspended_filter l (s : gset peerID) :
  filterSuspended l s = filter (fun pid => pid ∉ s) l.
Proof.
  unfold filterSuspended. destruct (bool_decide (s = ∅)) eqn:E; simpl.
  - apply bool_decide_eq_true in E as ->. induction l as [|x l IH]; [done|].
    rewrite filter_cons_True by set_solver. by f_equal.
  - by destruct l.
Qed.

Lemma candidates_suspend members a batch s h :
  candidates members a batch ({[h]} ∪ s) = filter (fun p => p <> h) (candidates members a batch s).
Proof.
  unfold candidates. rewrite !filterSuspended_filter, list_filter_filter.
  apply list_filter_iff. set_solver.
Qed.

(** The failover timer's action on an epoch whose holder stays silent. *)
Definition failover (cfg : Config.CoordinatorConfig) (now : nat) (members : list peerID)
  (sw : SingleWriter) : SingleWriter :=
  if IsTokenHolder cfg now members sw then sw
  else match CurrentTokenHolder cfg now members sw with
       | inl holder => Suspend holder sw
       | inr _ => sw
       end.

Fixpoint failovers (cfg : Config.CoordinatorConfig) (now : nat) (members : list peerID)
  (k : nat) (sw : SingleWriter) : SingleWriter :=
  match k with
  | O => sw
  | S k' => failovers cfg now members k' (failover cfg now members sw)
  end.

Definition sw_policy cfg now sw := policy (sw_authorized sw) now (sw_groupID sw) (sw_epoch sw) (SnapshotNextBatch cfg sw).

Lemma Current_policy cfg now members sw a :
  sw_policy cfg now sw = inl a ->
  CurrentTokenHolder cfg now members sw =
  ComputeTokenHolder (sw_groupID sw) (candidates members a (SnapshotNextBatch cfg sw) (sw_suspended sw)) (sw_epoch sw).
Proof. unfold CurrentTokenHolder, sw_policy. rewrite computeHolder_policy. by intros ->. Qed.

Lemma failovers_elect cfg now members a k sw :
  sw_policy cfg now sw = inl a ->
  eligible members a (SnapshotNextBatch cfg sw) (sw_suspended sw) (sw_localID sw) ->
  (length (candidates members a (SnapshotNextBatch cfg sw) (sw_suspended sw)) <= S k)%nat ->
  IsTokenHolder cfg now members (failovers cfg now members k sw) = true.
Proof.
  revert sw. induction k as [|k IH]; intros sw Hpol Hel Hlen.
  - simpl. unfold IsTokenHolder. rewrite (Current_policy _ _ _ _ _ Hpol).
    apply elem_of_candidates in Hel. revert Hel Hlen.
    generalize (candidates members a (SnapshotNextBatch cfg sw) (sw_suspended sw)).
    intros [|x [|y l]]; simpl; intros Hel Hlen; [by apply not_elem_of_nil in Hel| |lia].
    apply list_elem_of_singleton in Hel as ->. apply str_eqb_refl.
  - cbn [failovers]. unfold failover.
    destruct (IsTokenHolder cfg now members sw) eqn:E.
    { assert (Hk : forall n, failovers cfg now members n sw = sw).
      { induction n as [|n IHn]; [done|]. simpl. unfold failover. by rewrite E. }
      by rewrite Hk. }
    unfold IsTokenHolder in E. rewrite (Current_policy _ _ _ _ _ Hpol) in *.
    destruct (ComputeTokenHolder _ _ _) as [h|err] eqn:Eh.
    + apply str_eqb_false in E. apply ComputeTokenHolder_inl in Eh as [Hh _].
      apply IH; [done| |]; cbn [Suspend sw_suspended sw_localID sw_proposals SnapshotNextBatch].
      * destruct Hel as (? & ? & ? & ?). repeat split; try done. set_solver.
      * change (SnapshotNextBatch cfg (Suspend h sw)) with (SnapshotNextBatch cfg sw).
        rewrite candidates_suspend.
        assert (length (filter (fun p => p <> h) (candidates members a (SnapshotNextBatch cfg sw) (sw_suspended sw)))
          < length (candidates members a (SnapshotNextBatch cfg sw) (sw_suspended sw)))%nat; [|lia].
        eapply length_filter_lt; [done|]. naive_solver.
    + apply ComputeTokenHolder_inr in Eh as [Hn _].
      apply elem_of_candidates in Hel. rewrite Hn in Hel. by apply not_elem_of_nil in Hel.
Qed.

(** ** The proposal buffer *)

(** At most [MaxBatchedProposals] entries, no reference twice. *)
Definition buffer_ok (cfg : Config.CoordinatorConfig) (sw : SingleWriter) : Prop :=
  Z.of_nat (length (sw_proposals sw)) <= Config.MaxBatchedProposals cfg /\
  NoDup (filter (fun r => r <> []) (bp_ProposalRef <$> sw_proposals sw)).

Lemma buffer_ok_new cfg id e : Config.valid cfg -> buffer_ok cfg (NewSingleWriter id e).
Proof. intros []. split; simpl; [lia|constructor]. Qed.

Lemma buffer_ok_buffer cfg p sw : buffer_ok cfg sw -> buffer_ok cfg (BufferProposal cfg p sw).
Proof.
  intros [Hl Hd]. unfold BufferProposal.
  destruct (negb (is_empty (bp_ProposalRef p)) && _) eqn:E; [done|].
  rewrite Z.geb_leb. destruct (Z.leb_spec (Config.MaxBatchedProposals cfg) (Z.of_nat (length (sw_proposals sw)))); [done|].
  split; cbn [set_proposals sw_proposals].
  - rewrite length_app. simpl. lia.
  - rewrite fmap_app, filter_app. apply NoDup_app. split; [done|]. simpl.
    destruct (decide (bp_ProposalRef p = [])) as [Hp|Hp].
    + rewrite Hp. rewrite filter_cons_False by tauto. split; [set_solver|constructor].
    + rewrite filter_cons_True, filter_nil by done. split; [|apply NoDup_singleton].
      intros r Hr. rewrite list_elem_of_singleton. intros ->.
      apply list_elem_of_filter in Hr as [_ Hr]. apply list_elem_of_fmap in Hr as (b & Hb & Hbin).
      apply andb_false_iff in E as [E|E].
      * apply negb_false_iff, is_empty_true in E. done.
      * assert (existsb (fun e => bytes_eqb (bp_ProposalRef e) (bp_ProposalRef p)) (sw_proposals sw) = true); [|congruence].
        apply existsb_exists. exists b. split; [by apply list_elem_of_In|].
        by apply bytes_eqb_true.
Qed.

Lemma buffer_ok_sublist cfg sw ps :
  sublist ps (sw_proposals sw) -> buffer_ok cfg sw -> buffer_ok cfg (set_proposals ps sw).
Proof.
  intros Hs [Hl Hd]. split; cbn [set_proposals sw_proposals].
  - apply sublist_length in Hs as ?. lia.
  - assert (Hs' : sublist (filter (fun r => r <> []) (bp_ProposalRef <$> ps))
       (filter (fun r => r <> []) (bp_ProposalRef <$> sw_proposals sw))).
    { clear Hl Hd. induction Hs as [|x l1 l2 Hs IH|x l1 l2 Hs IH]; [done| |];
        rewrite !fmap_cons, !filter_cons; case_decide; try done; by constructor. }
    by eapply sublist_NoDup.
Qed.

Lemma buffer_ok_drain_refs cfg refs sw : buffer_ok cfg sw -> buffer_ok cfg (snd (DrainBatchByRefs refs sw)).
Proof.
  intros Hok. unfold DrainBatchByRefs. case_match; [done|].
  apply buffer_ok_sublist; [apply sublist_filter|done].
Qed.

Lemma buffer_ok_drain_data cfg ds sw : buffer_ok cfg sw -> buffer_ok cfg (snd (DrainBatchByData ds sw)).
Proof.
  intros Hok. unfold DrainBatchByData. case_match; [done|].
  apply buffer_ok_sublist; [apply sublist_filter|done].
Qed.

Lemma buffer_ok_suspend cfg h sw : buffer_ok cfg sw -> buffer_ok cfg (Suspend h sw).
Proof. done. Qed.

Lemma buffer_ok_advance cfg e sw : Config.valid cfg -> buffer_ok cfg (AdvanceEpoch e sw).
Proof. intros []. split; simpl; [lia|constructor]. Qed.

End Election.

#[export] Hint Resolve buffer_ok_new buffer_ok_buffer buffer_ok_drain_refs buffer_ok_drain_data
  buffer_ok_suspend buffer_ok_advance : coord.

(** ** Properties *)

Section Properties.
Context `{PeerCodec}.

(** The elected token holder is an active member that the policy
    authorizes, that no remove proposal of the candidate batch targets and
    that is not suspended; among the peers with these properties its election
    hash is minimal.  Election fails with [ErrNoActiveView] exactly when no
    peer has them. *)
Theorem holder_is_eligible_argmin cfg now members sw a :
  sw_policy cfg now sw = inl a ->
  let el := eligible members a (SnapshotNextBatch cfg sw) (sw_suspended sw) in
  match CurrentTokenHolder cfg now members sw with
  | inl p => el p /\ forall q, el q ->
               bytes_ltb (holderHash (sw_groupID sw) (sw_epoch sw) q)
                         (holderHash (sw_groupID sw) (sw_epoch sw) p) = false
  | inr err => err = ErrNoActiveView /\ forall q, ~ el q
  end.
Proof.
  intros Hpol el. rewrite (Current_policy _ _ _ _ _ Hpol).
  destruct (ComputeTokenHolder _ _ _) as [p|err] eqn:E.
  - apply ComputeTokenHolder_inl in E as [Hin Hmin]. split; [by apply elem_of_candidates|].
    intros q Hq. apply Hmin. by apply elem_of_candidates.
  - apply ComputeTokenHolder_inr in E as [Hn ->]. split; [done|].
    intros q Hq. apply elem_of_candidates in Hq. rewrite Hn in Hq. by apply not_elem_of_nil in Hq.
Qed.

(** Answers of a policy with the same peers. *)
Definition same_answer (a a' : option (list peerID)) : Prop :=
  match a, a' with
  | None, None => True
  | Some l, Some l' => forall p, p ∈ l <-> p ∈ l'
  | _, _ => False
  end.

Lemma agreement cfg now now' members members' sw sw' a a' :
  sw_epoch sw = sw_epoch sw' -> sw_groupID sw = sw_groupID sw' ->
  (forall p, p ∈ members <-> p ∈ members') ->
  sw_proposals sw ≡ₚ sw_proposals sw' ->
  refs_distinct (sw_proposals sw) -> refs_nonempty (sw_proposals sw) ->
  sw_policy cfg now sw = inl a -> sw_policy cfg now' sw' = inl a' -> same_answer a a' ->
  sw_suspended sw = sw_suspended sw' ->
  collision_free (sw_groupID sw) (sw_epoch sw) members ->
  CurrentTokenHolder cfg now members sw = CurrentTokenHolder cfg now' members' sw' /\
  (sw_localID sw <> sw_localID sw' ->
   ~ (IsTokenHolder cfg now members sw = true /\ IsTokenHolder cfg now' members' sw' = true)).
Proof.
  intros He Hg Hm Hp Hd Hn Hpol Hpol' Ha Hs Hc.
  assert (Heq : CurrentTokenHolder cfg now members sw = CurrentTokenHolder cfg now' members' sw').
  { rewrite (Current_policy _ _ _ _ _ Hpol), (Current_policy _ _ _ _ _ Hpol').
    rewrite <-(batch_ext cfg sw sw' Hd Hn Hp), <-He, <-Hg, <-Hs.
    apply ComputeTokenHolder_ext.
    - intros p q Hp1 Hq1. apply elem_of_candidates in Hp1 as [? _], Hq1 as [? _]. by apply Hc.
    - intros p. rewrite !elem_of_candidates. unfold eligible. rewrite Hm. unfold same_answer in Ha.
      destruct a as [l|], a' as [l'|]; try done. by rewrite Ha. }
  split; [done|]. intros Hne [H1 H2]. unfold IsTokenHolder in *. rewrite <-Heq in H2.
  destruct (CurrentTokenHolder cfg now members sw); [|done].
  apply str_eqb_true in H1, H2. congruence.
Qed.

(** C3: Single writer.  Two nodes at the same epoch of a group, with the same
    set of active members, the same pending proposals in whatever arrival
    order, the same policy answer and the same suspensions elect the same
    holder, so two different nodes never both believe they may commit.  The
    proposals carry distinct non-empty references and no two candidates
    collide under SHA-256. *)
Theorem single_writer_agreement cfg now now' members members' sw sw' a :
  sw_epoch sw = sw_epoch sw' -> sw_groupID sw = sw_groupID sw' ->
  (forall p, p ∈ members <-> p ∈ members') ->
  sw_proposals sw ≡ₚ sw_proposals sw' ->
  refs_distinct (sw_proposals sw) -> refs_nonempty (sw_proposals sw) ->
  sw_policy cfg now sw = inl a -> sw_policy cfg now' sw' = inl a ->
  sw_suspended sw = sw_suspended sw' ->
  collision_free (sw_groupID sw) (sw_epoch sw) members ->
  CurrentTokenHolder cfg now members sw = CurrentTokenHolder cfg now' members' sw' /\
  (sw_localID sw <> sw_localID sw' ->
   ~ (IsTokenHolder cfg now members sw = true /\ IsTokenHolder cfg now' members' sw' = true)).
Proof.
  intros He Hg Hm Hp Hd Hn Hpol Hpol' Hs Hc.
  apply (agreement cfg now now' members members' sw sw' a a); try done. by destruct a.
Qed.

(** C37: Failover liveness.  While the holder of an epoch stays silent, each
    failover timeout suspends the current holder; an eligible node becomes the
    token holder after at most as many failovers as there are other eligible
    peers, so a silent or censoring holder cannot block it forever. *)
Theorem failover_reaches_every_eligible_node cfg now members sw a :
  sw_policy cfg now sw = inl a ->
  eligible members a (SnapshotNextBatch cfg sw) (sw_suspended sw) (sw_localID sw) ->
  IsTokenHolder cfg now members
    (failovers cfg now members
       (length (candidates members a (SnapshotNextBatch cfg sw) (sw_suspended sw)) - 1) sw) = true.
Proof.
  intros Hpol Hel. apply (failovers_elect cfg now members a); [done|done|].
  apply elem_of_candidates in Hel.
  destruct (candidates members a _ _); simpl; [by apply not_elem_of_nil in Hel|lia].
Qed.

(** C39: The proposal buffer holds no reference twice and never exceeds
    [MaxBatchedProposals], whatever proposals arrive and whatever is drained,
    and the batch handed to the committer is the whole buffer, sorted. *)
Theorem proposal_buffer_invariant cfg sw p refs datas h e :
  Config.valid cfg -> buffer_ok cfg sw ->
  buffer_ok cfg (BufferProposal cfg p sw) /\
  buffer_ok cfg (snd (DrainBatchByRefs refs sw)) /\
  buffer_ok cfg (snd (DrainBatchByData datas sw)) /\
  buffer_ok cfg (Suspend h sw) /\ buffer_ok cfg (AdvanceEpoch e sw) /\
  SnapshotNextBatch cfg sw ≡ₚ sw_proposals sw /\
  StronglySorted (sort_le proposalRefLess) (SnapshotNextBatch cfg sw).
Proof.
  intros Hv Hok. do 5 (split; [by eauto with coord|]).
  unfold SnapshotNextBatch. rewrite stable_sort_length, Z.gtb_ltb.
  destruct Hok as [Hl _].
  destruct (Z.ltb_spec (Config.MaxBatchedProposals cfg) (Z.of_nat (length (sw_proposals sw)))); [lia|].
  split; [apply stable_sort_perm|apply stable_sort_sorted; apply _].
Qed.

(** Draining by references splits the buffer: what is returned are
    exactly the buffered proposals a committed reference names, sorted, what
    stays are exactly the others in their order, and nothing is lost. *)
Theorem drain_by_refs_partitions refs sw :
  let r := DrainBatchByRefs refs sw in
  fst r ++ sw_proposals (snd r) ≡ₚ sw_proposals sw /\
  (forall p, p ∈ fst r -> bp_ProposalRef p ∈ refs) /\
  (forall p, p ∈ sw_proposals (snd r) -> bp_ProposalRef p ∉ refs) /\
  sublist (sw_proposals (snd r)) (sw_proposals sw).
Proof.
  unfold DrainBatchByRefs. destruct (is_empty refs || is_empty (sw_proposals sw)) eqn:E; simpl.
  - split; [done|]. split; [set_solver|]. split; [|done].
    apply orb_true_iff in E as [->%is_empty_true|E%is_empty_true]; [set_solver|].
    rewrite E. set_solver.
  - split; [by rewrite stable_sort_perm, filter_app_perm|]. split.
    + intros p. rewrite stable_sort_elem, list_elem_of_filter. tauto.
    + split; [|apply sublist_filter]. intros p. rewrite list_elem_of_filter. tauto.
Qed.

End Properties.

(** ** Witnesses *)

Definition demo_prop (ref : bytes) : BufferedProposal :=
  mkBufferedProposal ProposalAdd [] ref "" "" "" "" "" [].
Definition demo_sw (id : peerID) (ps : list BufferedProposal) : SingleWriter :=
  set_proposals ps (SetAuthorizedCommitters "g" None (NewSingleWriter id 7)).

#[local] Existing Instance plain_codec.

(** In group [g] at epoch 7 the hashes of [A], [B] and [C] elect [B]. *)
Example demo_holder :
  CurrentTokenHolder Config.DefaultConfig 0 ["A"; "B"; "C"] (demo_sw "A" []) = inl "B".
Proof. vm_compute. reflexivity. Qed.

Lemma holder_is_eligible_argmin_witness :
  let el := eligible ["A"; "B"; "C"] None (SnapshotNextBatch Config.DefaultConfig (demo_sw "A" [])) ∅ in
  el "B" /\ forall q, el q -> bytes_ltb (holderHash "g" 7 q) (holderHash "g" 7 "B") = false.
Proof.
  pose proof (holder_is_eligible_argmin Config.DefaultConfig 0 ["A"; "B"; "C"]
                (demo_sw "A" []) None eq_refl) as Hx.
  cbv zeta in Hx. rewrite demo_holder in Hx. exact Hx.
Defined.

(** The token depends on the batch: with a removal of "B" buffered, "A" holds
    it, but a commit of the other proposal alone is "B"'s to make. *)
Definition demo_remove (target : string) (ref : bytes) : BufferedProposal :=
  mkBufferedProposal ProposalRemove [] ref "" target "" "" "" [].
Definition demo_split : SingleWriter := demo_sw "A" [demo_remove "B" [x01]; demo_prop [x02]].

Theorem single_commit_may_not_be_the_holders :
  demo_prop [x02] ∈ sw_proposals demo_split /\
  IsTokenHolder Config.DefaultConfig 0 ["A"; "B"] demo_split = true /\
  HolderForBatch 0 ["A"; "B"] [demo_prop [x02]] demo_split = inl "B".
Proof. split; [set_solver|]. split; vm_compute; reflexivity. Qed.

Lemma demo_collision_free : collision_free "g" 7 ["A"; "B"; "C"].
Proof.
  intros p q Hp Hq. rewrite !elem_of_cons in Hp, Hq.
  destruct Hp as [->|[->|[->|[]%not_elem_of_nil]]];
    destruct Hq as [->|[->|[->|[]%not_elem_of_nil]]];
    intros E; first [reflexivity | exfalso; vm_compute in E; discriminate E].
Qed.

Lemma single_writer_agreement_witness :
  ~ (IsTokenHolder Config.DefaultConfig 0 ["A"; "B"; "C"] (demo_sw "A" [demo_prop [x01]; demo_prop [x02]]) = true /\
     IsTokenHolder Config.DefaultConfig 5 ["C"; "B"; "A"] (demo_sw "B" [demo_prop [x02]; demo_prop [x01]]) = true).
Proof.
  refine (proj2 (single_writer_agreement Config.DefaultConfig 0 5 ["A"; "B"; "C"] ["C"; "B"; "A"]
            (demo_sw "A" [demo_prop [x01]; demo_prop [x02]])
            (demo_sw "B" [demo_prop [x02]; demo_prop [x01]]) None _ _ _ _ _ _ _ _ _ _) _);
    try reflexivity.
  - intros p. set_solver.
  - apply Permutation_swap.
  - intros x y Hx Hy. simpl in Hx, Hy. rewrite !elem_of_cons in Hx, Hy.
    destruct Hx as [->|[->|[]%not_elem_of_nil]], Hy as [->|[->|[]%not_elem_of_nil]]; done.
  - intros x Hx. simpl in Hx. rewrite !elem_of_cons in Hx.
    destruct Hx as [->|[->|[]%not_elem_of_nil]]; done.
  - apply demo_collision_free.
  - done.
Defined.

Lemma failover_reaches_every_eligible_node_witness :
  IsTokenHolder Config.DefaultConfig 0 ["A"; "B"; "C"]
    (failovers Config.DefaultConfig 0 ["A"; "B"; "C"] 2 (demo_sw "A" [demo_prop [x01]])) = true.
Proof.
  change 2%nat with (length (candidates ["A"; "B"; "C"] None
    (SnapshotNextBatch Config.DefaultConfig (demo_sw "A" [demo_prop [x01]])) ∅) - 1)%nat.
  refine (failover_reaches_every_eligible_node Config.DefaultConfig 0 ["A"; "B"; "C"]
           (demo_sw "A" [demo_prop [x01]]) None _ _); [reflexivity|].
  repeat split; [set_solver| |set_solver].
  intros (b & Hb & Ht & _). vm_compute in Hb. apply list_elem_of_singleton in Hb as ->. discriminate Ht.
Defined.

Lemma proposal_buffer_invariant_witness :
  buffer_ok Config.DefaultConfig
    (BufferProposal Config.DefaultConfig (demo_prop [x01]) (demo_sw "A" [demo_prop [x01]])).
Proof.
  refine (proj1 (proposal_buffer_invariant Config.DefaultConfig (demo_sw "A" [demo_prop [x01]])
            (demo_prop [x01]) [] [] "" 0 _ _)).
  - by apply Config.Validate_None.
  - split; simpl; [lia|]. apply NoDup_singleton.
Defined.

End SingleWriter.
