(* ===== verification/ForkDetector.v ===== *)
(** * Fork detection and branch weight

    [coordination/fork_healing.go] and the history chain of
    [coordination/coordinator_replay.go]: [R(0) = H(tag || group)],
    [R(E) = H(R(E-1) || CommitHash(E))].  Go iterates over the map of known
    branches in an unspecified order; where the order can matter it is an
    argument. *)
From S2P Require Import Prelude Sha256 Types.

Module ForkDetector.

(** ** Branch identity *)

(** [branchKey] *)
Definition branchKey (ann : GroupStateAnnouncement) : string :=
  "h:" +:+ hex_EncodeToString (ann_HistoryHash ann).

(** [sameBranch] *)
Definition sameBranch (a b : GroupStateAnnouncement) : bool := str_eqb (branchKey a) (branchKey b).

(** ** Branch weight *)

(** [compareBranchWeightWithSupport] *)
Definition compareBranchWeightWithSupport (local remote : GroupStateAnnouncement)
  (localSupport remoteSupport : Z) (localInvalid remoteInvalid : bool) : BranchResult :=
  if sameBranch local remote then BranchEqual
  else if negb (Bool.eqb localInvalid remoteInvalid) then
    (if localInvalid then BranchRemote else BranchLocal)
  else if negb (localSupport =? remoteSupport) then
    (if localSupport >? remoteSupport then BranchLocal else BranchRemote)
  else if negb (ann_MemberCount local =? ann_MemberCount remote) then
    (if ann_MemberCount local >? ann_MemberCount remote then BranchLocal else BranchRemote)
  else if negb (ann_Epoch local =? ann_Epoch remote) then
    (if ann_Epoch local >? ann_Epoch remote then BranchLocal else BranchRemote)
  else match bytes_compare (ann_CommitHash local) (ann_CommitHash remote) with
       | Gt => BranchLocal
       | Lt => BranchRemote
       | Eq =>
           match bytes_compare (ann_TreeHash local) (ann_TreeHash remote) with
           | Lt => BranchLocal
           | _ => BranchRemote
           end
       end.

(** [CompareBranchWeight] *)
Definition CompareBranchWeight (local remote : GroupStateAnnouncement) : BranchResult :=
  compareBranchWeightWithSupport local remote 1 1 false false.

(** ** The detector *)

(** [ForkEvent] *)
Record ForkEvent := mkForkEvent {
  fe_GroupID : string;
  fe_RemotePeer : peerID;
  fe_LocalAnnounce : GroupStateAnnouncement;
  fe_RemoteAnnounce : GroupStateAnnouncement;
  fe_RemoteEpoch : Z;
  fe_Result : BranchResult;
  fe_NeedExternalJoin : bool;
  fe_WinnerPeers : list peerID;
  fe_PartitionStartedAt : time;
}.

Record branchInfo := mkBranch {
  bi_announcement : GroupStateAnnouncement;
  bi_peers : gset peerID;
  bi_firstSeenAt : time;
}.

Record ForkDetector := mkFD {
  fd_local : option GroupStateAnnouncement;
  fd_known : gmap string branchInfo;
  fd_invalidCommits : gset string;
}.

Definition NewForkDetector : ForkDetector := mkFD None ∅ ∅.

(** [UpdateLocal] *)
Definition UpdateLocal (ann : GroupStateAnnouncement) (fd : ForkDetector) : ForkDetector :=
  let known :=
    match fd_local fd with
    | Some l => if ann_Epoch ann >? ann_Epoch l then ∅ else fd_known fd
    | None => fd_known fd
    end in
  mkFD (Some ann) known (fd_invalidCommits fd).

(** [branchSupportLocked] *)
Definition branchSupportLocked (ann : GroupStateAnnouncement) (fd : ForkDetector) : Z :=
  match fd_known fd !! branchKey ann with
  | Some bi => 1 + Z.of_nat (size (bi_peers bi))
  | None => 1
  end.

(** [isInvalidCommitLocked] *)
Definition isInvalidCommitLocked (commitHash : bytes) (fd : ForkDetector) : bool :=
  if is_empty commitHash then false
  else bool_decide (hex_EncodeToString commitHash ∈ fd_invalidCommits fd).

(** [ProcessRemote] *)
Definition ProcessRemote (observedAt : time) (from : peerID) (remoteEpoch : Z)
  (ann : GroupStateAnnouncement) (fd : ForkDetector) : option ForkEvent * ForkDetector :=
  match fd_local fd with
  | None => (None, fd)
  | Some local =>
      let key := branchKey ann in
      let bi := match fd_known fd !! key with
                | None => mkBranch ann {[from]} observedAt
                | Some bi => mkBranch ann ({[from]} ∪ bi_peers bi) (bi_firstSeenAt bi)
                end in
      let fd' := mkFD (fd_local fd) (<[key := bi]> (fd_known fd)) (fd_invalidCommits fd) in
      if sameBranch ann local then (None, fd')
      else
        let result := compareBranchWeightWithSupport local ann
                        (branchSupportLocked local fd') (Z.of_nat (size (bi_peers bi)))
                        (isInvalidCommitLocked (ann_CommitHash local) fd')
                        (isInvalidCommitLocked (ann_CommitHash ann) fd') in
        let winnerPeers := from :: filter (fun p => p <> from) (elements (bi_peers bi)) in
        (Some (mkForkEvent "" from local ann remoteEpoch result
                 (bool_decide (result = BranchRemote)) winnerPeers (bi_firstSeenAt bi)), fd')
  end.

(** [CompareWithPeer]; [order] is the iteration order of the known branches. *)
Definition ann_zero : GroupStateAnnouncement := mkGroupStateAnnouncement [] 0 0 [] [].

Definition CompareWithPeer (order : list (string * branchInfo)) (from : peerID) (fd : ForkDetector)
  : BranchResult * GroupStateAnnouncement * bool :=
  match fd_local fd with
  | None => (BranchRemote, ann_zero, false)
  | Some local =>
      match find (fun kb : string * branchInfo => bool_decide (from ∈ bi_peers kb.2)) order with
      | None => (BranchRemote, ann_zero, false)
      | Some (_, bi) =>
          let ann := bi_announcement bi in
          let result := compareBranchWeightWithSupport local ann
                          (branchSupportLocked local fd) (Z.of_nat (size (bi_peers bi)))
                          (isInvalidCommitLocked (ann_CommitHash local) fd)
                          (isInvalidCommitLocked (ann_CommitHash ann) fd) in
          (result, ann, true)
      end
  end.

Definition KnownBranches (fd : ForkDetector) : Z := Z.of_nat (size (fd_known fd)).

(** [MarkInvalidCommit] *)
Definition MarkInvalidCommit (commitHash : bytes) (fd : ForkDetector) : ForkDetector :=
  if is_empty commitHash then fd
  else mkFD (fd_local fd) (fd_known fd) ({[hex_EncodeToString commitHash]} ∪ fd_invalidCommits fd).

(** [Reset] *)
Definition Reset (fd : ForkDetector) : ForkDetector := mkFD (fd_local fd) ∅ (fd_invalidCommits fd).

(** ** History chain *)

(** [hashCommitData] and [hashEnvelope]: no bytes, no hash. *)
Definition hashCommitData (commitData : bytes) : bytes :=
  if is_empty commitData then [] else sha256_sum commitData.
Definition hashEnvelope (wire : bytes) : bytes :=
  if is_empty wire then [] else sha256_sum wire.

(** [initialHistoryHash], [computeHistoryHash] *)
Definition initialHistoryInput (groupID : string) : bytes :=
  str_bytes "phoenix/history/v1" ++ str_bytes groupID.
Definition initialHistoryHash (groupID : string) : bytes := sha256_sum (initialHistoryInput groupID).
Definition computeHistoryHash (prevHistoryHash commitHash : bytes) : bytes :=
  sha256_sum (prevHistoryHash ++ commitHash).

(** [R(n)] after the commits with the given hashes, oldest first, and the
    hash inputs computed along the way. *)
Definition chain (r0 : bytes) (commits : list bytes) : bytes := foldl computeHistoryHash r0 commits.

Fixpoint chain_inputs (r0 : bytes) (commits : list bytes) : list bytes :=
  match commits with
  | [] => []
  | c :: cs => (r0 ++ c) :: chain_inputs (computeHistoryHash r0 c) cs
  end.

(** SHA-256 does not collide on the listed inputs. *)
Definition no_collision (inputs : list bytes) : Prop :=
  forall x y, x ∈ inputs -> y ∈ inputs -> sha256_sum x = sha256_sum y -> x = y.

(** ** Facts *)

Lemma sameBranch_spec a b : sameBranch a b = true <-> ann_HistoryHash a = ann_HistoryHash b.
Proof.
  unfold sameBranch, branchKey. rewrite str_eqb_true. split; [|by intros ->].
  intros E. apply hex_EncodeToString_inj. by injection E.
Qed.

Lemma sameBranch_sym a b : sameBranch a b = sameBranch b a.
Proof.
  destruct (sameBranch a b) eqn:E1, (sameBranch b a) eqn:E2; try done;
    [apply sameBranch_spec in E1|apply sameBranch_spec in E2];
    [assert (sameBranch b a = true) by by apply sameBranch_spec
    |assert (sameBranch a b = true) by by apply sameBranch_spec]; congruence.
Qed.

(** The weight of a branch: what the comparison looks at after identity. *)
Record weight := mkWeight { w_invalid : bool; w_support : Z; w_members : Z;
                            w_epoch : Z; w_commit : bytes; w_tree : bytes }.

Definition weight_of (a : GroupStateAnnouncement) (support : Z) (invalid : bool) : weight :=
  mkWeight invalid support (ann_MemberCount a) (ann_Epoch a) (ann_CommitHash a) (ann_TreeHash a).

(** Lexicographic: valid first, then support, members, epoch and commit hash
    (larger wins), then tree hash (smaller wins). *)
Definition heavier (a b : weight) : Prop :=
  (w_invalid a = false /\ w_invalid b = true) \/ (w_invalid a = w_invalid b /\
  (w_support b < w_support a \/ (w_support a = w_support b /\
  (w_members b < w_members a \/ (w_members a = w_members b /\
  (w_epoch b < w_epoch a \/ (w_epoch a = w_epoch b /\
  (bytes_ltb (w_commit b) (w_commit a) = true \/ (w_commit a = w_commit b /\
   bytes_ltb (w_tree a) (w_tree b) = true))))))))).

#[export] Instance weight_eq_dec : EqDecision weight.
Proof. solve_decision. Defined.
#[export] Instance heavier_dec a b : Decision (heavier a b).
Proof. unfold heavier. apply _. Defined.

Lemma heavier_irrefl a : ~ heavier a a.
Proof. unfold heavier. rewrite !bytes_ltb_irrefl. intuition (congruence || lia). Qed.

Lemma heavier_trans a b c : heavier a b -> heavier b c -> heavier a c.
Proof.
  unfold heavier. intros H1 H2.
  destruct H1 as [[? ?]|[E1 H1]], H2 as [[? ?]|[E2 H2]]; try (left; split; congruence); try congruence.
  right. split; [congruence|].
  destruct H1 as [?|[F1 H1]], H2 as [?|[F2 H2]]; try (left; lia). right. split; [lia|].
  destruct H1 as [?|[G1 H1]], H2 as [?|[G2 H2]]; try (left; lia). right. split; [lia|].
  destruct H1 as [?|[I1 H1]], H2 as [?|[I2 H2]]; try (left; lia). right. split; [lia|].
  destruct H1 as [?|[J1 H1]], H2 as [?|[J2 H2]].
  - left. by eapply bytes_ltb_trans.
  - left. congruence.
  - left. congruence.
  - right. split; [congruence|]. by eapply bytes_ltb_trans.
Qed.

Lemma heavier_total a b : a <> b -> heavier a b \/ heavier b a.
Proof.
  destruct a as [ia sa ma ea ca ta], b as [ib sb mb eb cb tb]. unfold heavier; simpl. intros Hne.
  destruct (decide (ia = ib)) as [->|]; [|destruct ia, ib; tauto].
  destruct (Z.lt_trichotomy sa sb) as [|[->|]]; [tauto| |tauto].
  destruct (Z.lt_trichotomy ma mb) as [|[->|]]; [tauto| |tauto].
  destruct (Z.lt_trichotomy ea eb) as [|[->|]]; [tauto| |tauto].
  destruct (bytes_ltb cb ca) eqn:E1; [tauto|]. destruct (bytes_ltb ca cb) eqn:E2; [tauto|].
  pose proof (bytes_ltb_total _ _ E1 E2); subst.
  destruct (bytes_ltb ta tb) eqn:E3; [tauto|]. destruct (bytes_ltb tb ta) eqn:E4; [tauto|].
  pose proof (bytes_ltb_total _ _ E3 E4); subst. done.
Qed.

Lemma compare_spec l r ls rs li ri :
  sameBranch l r = false ->
  (compareBranchWeightWithSupport l r ls rs li ri = BranchLocal <->
   heavier (weight_of l ls li) (weight_of r rs ri)) /\
  (compareBranchWeightWithSupport l r ls rs li ri = BranchRemote <->
   ~ heavier (weight_of l ls li) (weight_of r rs ri)).
Proof.
  intros Hs. unfold compareBranchWeightWithSupport, heavier; simpl. rewrite Hs.
  destruct li, ri; simpl; try (split; intuition congruence);
  (rewrite !Z.gtb_ltb;
   destruct (Z.eqb_spec ls rs); simpl; [subst|destruct (Z.ltb_spec rs ls); split; intuition (congruence || lia)];
   destruct (Z.eqb_spec (ann_MemberCount l) (ann_MemberCount r)); simpl;
     [|destruct (Z.ltb_spec (ann_MemberCount r) (ann_MemberCount l)); split; intuition (congruence || lia)];
   destruct (Z.eqb_spec (ann_Epoch l) (ann_Epoch r)); simpl;
     [|destruct (Z.ltb_spec (ann_Epoch r) (ann_Epoch l)); split; intuition (congruence || lia)];
   unfold bytes_ltb; rewrite (bytes_compare_antisym (ann_CommitHash l) (ann_CommitHash r));
   destruct (bytes_compare (ann_CommitHash l) (ann_CommitHash r)) eqn:E; simpl;
   [apply bytes_compare_eq in E; destruct (bytes_compare (ann_TreeHash l) (ann_TreeHash r)) | |];
   split; intuition (try congruence; try lia)).
  all: match goal with H : ann_CommitHash _ = ann_CommitHash _ |- _ =>
         rewrite H, bytes_compare_refl in E; discriminate E end.
Qed.

(** A finite set of candidates has a heaviest one. *)
Lemma heaviest_exists (ws : list weight) :
  ws <> [] -> exists w, w ∈ ws /\ forall x, x ∈ ws -> x <> w -> heavier w x.
Proof.
  induction ws as [|a ws IH]; [done|]. intros _. destruct ws as [|b ws].
  { exists a. split; [constructor|]. intros x Hx. by apply list_elem_of_singleton in Hx. }
  destruct IH as (w & Hw & Hmax); [done|].
  destruct (decide (heavier a w \/ a = w)) as [Ha|Ha].
  - exists a. split; [constructor|]. intros x Hx Hne.
    apply elem_of_cons in Hx as [->|Hx]; [done|].
    destruct Ha as [Ha|<-]; [|by apply Hmax].
    destruct (decide (x = w)) as [->|]; [done|]. eapply heavier_trans; [exact Ha|by apply Hmax].
  - exists w. split; [by constructor|]. intros x Hx Hne.
    apply elem_of_cons in Hx as [->|Hx]; [|by apply Hmax].
    destruct (heavier_total a w Hne) as [?|?]; [tauto|done].
Qed.

Lemma compare_flip l r ls rs li ri :
  sameBranch l r = false ->
  weight_of l ls li <> weight_of r rs ri ->
  compareBranchWeightWithSupport l r ls rs li ri = BranchLocal <->
  compareBranchWeightWithSupport r l rs ls ri li = BranchRemote.
Proof.
  intros Hs Hne. pose proof Hs as Hs'. rewrite sameBranch_sym in Hs'.
  rewrite (proj1 (compare_spec l r ls rs li ri Hs)), (proj2 (compare_spec r l rs ls ri li Hs')).
  split.
  - intros H1 H2. eapply heavier_irrefl, heavier_trans; eassumption.
  - intros H. destruct (heavier_total _ _ Hne); tauto.
Qed.

(** A branch as it stands for election: announcement, support and whether
    its tip commit is known to be invalid. *)
Record candidate := mkCand { c_ann : GroupStateAnnouncement; c_support : Z; c_invalid : bool }.

Definition c_weight (c : candidate) : weight := weight_of (c_ann c) (c_support c) (c_invalid c).

#[export] Instance candidate_eq_dec : EqDecision candidate.
Proof. solve_decision. Defined.

(** The verdict of a node on branch [x] about branch [y]. *)
Definition verdict (x y : candidate) : BranchResult :=
  compareBranchWeightWithSupport (c_ann x) (c_ann y) (c_support x) (c_support y)
    (c_invalid x) (c_invalid y).

Lemma sameBranch_false a b : ann_HistoryHash a <> ann_HistoryHash b -> sameBranch a b = false.
Proof. intros H. destruct (sameBranch a b) eqn:E; [|done]. by apply sameBranch_spec in E. Qed.

Lemma computeHistoryHash_inj r1 r2 c1 c2 :
  length r1 = length r2 ->
  no_collision [r1 ++ c1; r2 ++ c2] ->
  computeHistoryHash r1 c1 = computeHistoryHash r2 c2 -> r1 = r2 /\ c1 = c2.
Proof.
  unfold computeHistoryHash. intros Hl Hn E. apply app_inj_1; [done|].
  refine (Hn _ _ _ _ E); rewrite !elem_of_cons; auto.
Qed.

Lemma no_collision_sub l1 l2 : l1 ⊆ l2 -> no_collision l2 -> no_collision l1.
Proof. intros Hs Hn x y Hx Hy. apply Hn; by apply Hs. Qed.

Lemma chain_snoc r cs c : chain r (cs ++ [c]) = computeHistoryHash (chain r cs) c.
Proof. unfold chain. by rewrite foldl_app. Qed.

Lemma chain_inputs_snoc r cs c :
  chain_inputs r (cs ++ [c]) = chain_inputs r cs ++ [chain r cs ++ c].
Proof.
  revert r. induction cs as [|d cs IH]; intros r; [done|].
  simpl. rewrite IH. done.
Qed.

Lemma chain_length r cs : length r = 32%nat -> length (chain r cs) = 32%nat.
Proof.
  intros Hr. destruct cs as [|c cs _] using rev_ind; [done|].
  rewrite chain_snoc. apply Sha256.length_sha256.
Qed.

(** ** Theorems *)

(** *** Nodes that have heard of each other *)

(** What each node stands on; [inv] are the commits known to be invalid. *)
Definition known_invalid (inv : gset string) (a : GroupStateAnnouncement) : bool :=
  isInvalidCommitLocked (ann_CommitHash a) (mkFD None ∅ inv).
Definition nodes_on (nodes : gmap peerID GroupStateAnnouncement) (a : GroupStateAnnouncement) : gset peerID :=
  dom (filter (fun kv => kv.2 = a) nodes).
Definition cand_of (inv : gset string) (nodes : gmap peerID GroupStateAnnouncement) (a : GroupStateAnnouncement) : candidate :=
  mkCand a (Z.of_nat (size (nodes_on nodes a))) (known_invalid inv a).

(** The detector of [p] has heard every other node, and nothing else. *)
Record informed (inv : gset string) (nodes : gmap peerID GroupStateAnnouncement) (p : peerID) (fd : ForkDetector) : Prop := {
  inf_local : fd_local fd = nodes !! p;
  inf_invalid : fd_invalidCommits fd = inv;
  inf_heard : forall q a, nodes !! q = Some a -> q <> p -> exists bi, fd_known fd !! branchKey a = Some bi /\ q ∈ bi_peers bi;
  inf_true : forall k bi q, fd_known fd !! k = Some bi -> q ∈ bi_peers bi ->
    q <> p /\ nodes !! q = Some (bi_announcement bi) /\ k = branchKey (bi_announcement bi);
}.

Lemma nodes_on_elem nodes a q : q ∈ nodes_on nodes a <-> nodes !! q = Some a.
Proof.
  unfold nodes_on. rewrite elem_of_dom. split.
  - intros [b H]. apply map_lookup_filter_Some in H as [H E]. simpl in E. by subst.
  - intros H. exists a. by apply map_lookup_filter_Some.
Qed.

Section Informed.
Context (inv : gset string) (nodes : gmap peerID GroupStateAnnouncement).
(** The nodes of a branch announce the same. *)
Hypothesis one_ann : forall p q a b, nodes !! p = Some a -> nodes !! q = Some b -> ann_HistoryHash a = ann_HistoryHash b -> a = b.

Lemma branch_eq p q a b : nodes !! p = Some a -> nodes !! q = Some b -> branchKey a = branchKey b -> a = b.
Proof. intros Hp Hq E. eapply one_ann; [done..|]. apply sameBranch_spec. by apply str_eqb_true. Qed.

Lemma informed_peers p fd k bi a q : informed inv nodes p fd -> nodes !! q = Some a -> q ∈ bi_peers bi ->
  fd_known fd !! k = Some bi -> bi_announcement bi = a /\ bi_peers bi = nodes_on nodes a ∖ {[p]}.
Proof using one_ann.
  intros [_ _ Hh Ht] Hq Hin Hk. destruct (Ht _ _ _ Hk Hin) as (_ & Hq' & ->). assert (bi_announcement bi = a) as Ea by congruence.
  split; [done|]. apply leibniz_equiv. intros q'. rewrite elem_of_difference, elem_of_singleton, nodes_on_elem, <- Ea. split.
  - intros Hin'. destruct (Ht _ _ _ Hk Hin') as (Hne & Hn & _). done.
  - intros [Hn Hne]. destruct (Hh _ _ Hn Hne) as (bi' & Hk' & Hin'). congruence.
Qed.

Lemma informed_support p fd a : informed inv nodes p fd -> nodes !! p = Some a ->
  branchSupportLocked a fd = Z.of_nat (size (nodes_on nodes a)).
Proof using one_ann.
  intros Hi Hp. assert (Hsz : size (nodes_on nodes a) = S (size (nodes_on nodes a ∖ {[p]}))).
  { pose proof (proj2 (nodes_on_elem nodes a p) Hp) as Hin.
    rewrite (union_difference_L {[p]} (nodes_on nodes a)) at 1 by set_solver. rewrite size_union, size_singleton by set_solver. done. }
  unfold branchSupportLocked. destruct (fd_known fd !! branchKey a) as [bi|] eqn:Ek.
  - destruct (decide (bi_peers bi = ∅)) as [E0|(q & Hq)%set_choose_L].
    + assert (nodes_on nodes a ∖ {[p]} = ∅) as En; [|rewrite E0, Hsz, En, !size_empty; lia].
      apply leibniz_equiv. intros q. split; [|set_solver]. rewrite elem_of_difference, nodes_on_elem, elem_of_singleton. intros [Hq Hne].
      destruct (inf_heard _ _ _ _ Hi q a Hq Hne) as (bi' & Hk' & Hin). assert (bi' = bi) by congruence. set_solver.
    + destruct (inf_true _ _ _ _ Hi _ _ _ Ek Hq) as (_ & Hn & Hb). assert (Ea := branch_eq _ _ _ _ Hp Hn Hb).
      destruct (informed_peers p fd _ bi a q Hi ltac:(congruence) Hq Ek) as [_ ->]. lia.
  - assert (nodes_on nodes a ∖ {[p]} = ∅) as En; [|rewrite Hsz, En, size_empty; lia].
    apply leibniz_equiv. intros q. split; [|set_solver]. rewrite elem_of_difference, nodes_on_elem, elem_of_singleton. intros [Hq Hne].
    destruct (inf_heard _ _ _ _ Hi q a Hq Hne) as (bi & Hk & _). congruence.
Qed.

(** What an informed node finds out about a peer of another branch. *)
Lemma informed_verdict p q a b fd order :
  informed inv nodes p fd -> order ≡ₚ map_to_list (fd_known fd) -> nodes !! p = Some a -> nodes !! q = Some b -> a <> b ->
  CompareWithPeer order q fd = (verdict (cand_of inv nodes a) (cand_of inv nodes b), b, true).
Proof using one_ann.
  intros Hi Ho Hp Hq Hab. unfold CompareWithPeer. rewrite (inf_local _ _ _ _ Hi), Hp.
  assert (Hqp : q <> p) by congruence. destruct (inf_heard _ _ _ _ Hi q b Hq Hqp) as (bi0 & Hk0 & Hin0).
  destruct (find _ order) as [[k bi]|] eqn:Ef.
  - apply find_some in Ef as [Hin Hd]. apply bool_decide_eq_true in Hd. simpl in Hd.
    apply list_elem_of_In in Hin. rewrite Ho in Hin. apply elem_of_map_to_list in Hin.
    destruct (informed_peers p fd k bi b q Hi Hq Hd Hin) as [-> Hpe].
    assert (nodes_on nodes b ∖ {[p]} = nodes_on nodes b) as En.
    { apply leibniz_equiv. intros x. pose proof (nodes_on_elem nodes b p). set_solver. }
    rewrite (informed_support p fd a Hi Hp), Hpe, En. unfold verdict, cand_of, known_invalid, isInvalidCommitLocked. simpl.
    by rewrite (inf_invalid _ _ _ _ Hi).
  - exfalso. pose proof (find_none _ _ Ef (branchKey b, bi0)) as Hn. simpl in Hn. apply bool_decide_eq_false in Hn; [done|].
    apply list_elem_of_In. rewrite Ho. by apply elem_of_map_to_list.
Qed.
End Informed.

(** Among any collection of candidates with distinct histories whose weights
    differ, one of them valid, exactly one wins every comparison from either
    side, and it is valid. *)
Lemma unique_winner (cands : list candidate) :
  (exists x, x ∈ cands /\ c_invalid x = false) ->
  (forall x y, x ∈ cands -> y ∈ cands -> x <> y ->
     ann_HistoryHash (c_ann x) <> ann_HistoryHash (c_ann y) /\ c_weight x <> c_weight y) ->
  exists w, w ∈ cands /\ c_invalid w = false /\
    forall x, x ∈ cands -> x <> w -> verdict w x = BranchLocal /\ verdict x w = BranchRemote.
Proof.
  intros (x0 & Hx0 & Hv0) Hdist.
  destruct (heaviest_exists (c_weight <$> cands)) as (ww & Hw & Hmax); [by destruct cands; [apply not_elem_of_nil in Hx0|]|].
  apply list_elem_of_fmap in Hw as (w & -> & Hw).
  assert (Hwin : forall x, x ∈ cands -> x <> w -> heavier (c_weight w) (c_weight x)).
  { intros x Hx Hxw. apply Hmax; [by apply list_elem_of_fmap_2|]. by apply (Hdist x w). }
  assert (Hloc : forall x, x ∈ cands -> x <> w -> verdict w x = BranchLocal).
  { intros x Hx Hxw. apply compare_spec; [|by apply Hwin].
    apply sameBranch_false, not_eq_sym. by apply (Hdist x w). }
  exists w. split_and!; [done| |].
  - destruct (decide (x0 = w)) as [->|Hne]; [done|]. pose proof (Hwin x0 Hx0 Hne) as Hh. unfold heavier, c_weight in Hh. simpl in Hh.
    rewrite Hv0 in Hh. destruct Hh as [[? ?]|[? ?]]; [done|congruence].
  - intros x Hx Hxw. split; [by apply Hloc|]. apply compare_flip; [| |by apply Hloc].
    + apply sameBranch_false, not_eq_sym. by apply (Hdist x w).
    + apply not_eq_sym. by apply (Hdist x w).
Qed.

(** C34: A fork has one winner.  Take any number of nodes, those on one branch
    announcing the same, that have each heard all the others and know the same
    commits to be invalid; the weights of their branches (validity, number of
    nodes, members, epoch, commit and tree hash) differ and one branch is not
    known to be invalid.  Then there is one branch, not known to be invalid,
    that every node on it is told to keep when it compares with any peer of
    another branch, and that every other node is told to move to when it
    compares with a peer on it, in whatever order the branches are visited. *)
Theorem fork_has_unique_winner (inv : gset string) (nodes : gmap peerID GroupStateAnnouncement) :
  (exists p a, nodes !! p = Some a /\ known_invalid inv a = false) ->
  (forall p q a b, nodes !! p = Some a -> nodes !! q = Some b -> ann_HistoryHash a = ann_HistoryHash b -> a = b) ->
  (forall p q a b, nodes !! p = Some a -> nodes !! q = Some b -> a <> b -> c_weight (cand_of inv nodes a) <> c_weight (cand_of inv nodes b)) ->
  exists w, (exists p, nodes !! p = Some w) /\ known_invalid inv w = false /\
    forall p q a b fd order, nodes !! p = Some a -> nodes !! q = Some b ->
      informed inv nodes p fd -> order ≡ₚ map_to_list (fd_known fd) ->
      (a = w -> b <> w -> CompareWithPeer order q fd = (BranchLocal, b, true)) /\
      (a <> w -> b = w -> CompareWithPeer order q fd = (BranchRemote, w, true)).
Proof.
  intros (p0 & a0 & Hp0 & Hv0) Hone Hdist. set (cands := cand_of inv nodes <$> (map_to_list nodes).*2).
  assert (Hc : forall x, x ∈ cands <-> exists p a, nodes !! p = Some a /\ x = cand_of inv nodes a).
  { intros x. unfold cands. rewrite list_elem_of_fmap. setoid_rewrite list_elem_of_fmap. split.
    - intros (a & -> & [p a'] & -> & H%elem_of_map_to_list). by exists p, a'.
    - intros (p & a & H & ->). exists a. split; [done|]. exists (p, a). by rewrite elem_of_map_to_list. }
  destruct (unique_winner cands) as (w & Hw & Hvw & Hwin).
  - exists (cand_of inv nodes a0). split; [apply Hc; by exists p0, a0|done].
  - intros x y (p & a & Hp & ->)%Hc (q & b & Hq & ->)%Hc Hxy. assert (Hab : a <> b) by congruence. split; [|by eapply Hdist].
    simpl. intros E. by apply Hab, (Hone p q).
  - apply Hc in Hw as (pw & w' & Hpw & ->). exists w'. split; [by exists pw|]. split; [done|].
    intros p q a b fd order Hp Hq Hi Ho. split.
    + intros -> Hb. rewrite (informed_verdict inv nodes Hone p q w' b fd order) by (done || congruence).
      destruct (Hwin (cand_of inv nodes b)) as [-> _]; [apply Hc; by exists q, b| |done]. intros E. by injection E.
    + intros Ha ->. rewrite (informed_verdict inv nodes Hone p q a w' fd order) by (done || congruence).
      destruct (Hwin (cand_of inv nodes a)) as [_ ->]; [apply Hc; by exists p, a| |done]. intros E. by injection E.
Qed.

(** When every branch is known to be invalid one of them wins all the same. *)
Theorem invalid_branch_may_win :
  exists a b : candidate, c_invalid a = true /\ c_invalid b = true /\ verdict a b = BranchLocal /\ verdict b a = BranchRemote.
Proof.
  exists (mkCand (mkGroupStateAnnouncement [] 2 6 [x01] [x01]) 1 true), (mkCand (mkGroupStateAnnouncement [] 2 5 [x02] [x02]) 1 true).
  split_and!; vm_compute; reflexivity.
Qed.

(** The comparison does not separate two branches whose weights agree:
    if only the histories differ, each side is told that the other one wins,
    and both plan to leave their branch. *)
Theorem fork_tie_both_yield (a b : candidate) :
  ann_HistoryHash (c_ann a) <> ann_HistoryHash (c_ann b) ->
  c_weight a = c_weight b ->
  verdict a b = BranchRemote /\ verdict b a = BranchRemote.
Proof.
  intros Hh Hw. unfold verdict. split; apply compare_spec; try (by apply sameBranch_false; auto);
    fold (c_weight a) (c_weight b); rewrite Hw; apply heavier_irrefl.
Qed.

(** An announcement raises a fork event exactly when the detector has a
    local announcement and the histories differ; the event asks for an
    external join exactly when the local branch does not outweigh the
    announced one, never for an invalid branch against a valid local one; and
    the sender is afterwards recorded on the announced branch, whose first
    sighting is kept. *)
Theorem process_remote_detects_forks now from re ann fd e fd' :
  ProcessRemote now from re ann fd = (e, fd') ->
  match fd_local fd with
  | None => e = None /\ fd' = fd
  | Some local =>
      (is_Some e <-> ann_HistoryHash ann <> ann_HistoryHash local) /\
      (exists bi, fd_known fd' !! branchKey ann = Some bi /\ from ∈ bi_peers bi /\
         bi_announcement bi = ann /\
         bi_firstSeenAt bi = from_option bi_firstSeenAt now (fd_known fd !! branchKey ann) /\
         (forall k, k <> branchKey ann -> fd_known fd' !! k = fd_known fd !! k) /\
         forall ev, e = Some ev ->
           (fe_NeedExternalJoin ev = true <->
            ~ heavier (weight_of local (branchSupportLocked local fd')
                         (isInvalidCommitLocked (ann_CommitHash local) fd'))
                      (weight_of ann (Z.of_nat (size (bi_peers bi)))
                         (isInvalidCommitLocked (ann_CommitHash ann) fd'))) /\
           (isInvalidCommitLocked (ann_CommitHash ann) fd = true ->
            isInvalidCommitLocked (ann_CommitHash local) fd = false ->
            fe_NeedExternalJoin ev = false) /\
           (forall p, p ∈ fe_WinnerPeers ev <-> p ∈ bi_peers bi))
  end.
Proof.
  unfold ProcessRemote. destruct (fd_local fd) as [local|] eqn:El; [|by intros [= <- <-]].
  set (bi := match fd_known fd !! branchKey ann with None => _ | Some _ => _ end).
  assert (Hbi : from ∈ bi_peers bi /\ bi_announcement bi = ann /\
     bi_firstSeenAt bi = from_option bi_firstSeenAt now (fd_known fd !! branchKey ann)).
  { subst bi. destruct (fd_known fd !! branchKey ann); simpl; set_solver. }
  destruct Hbi as (Hfrom & Hann & Hseen).
  set (fdn := mkFD _ _ _). destruct (sameBranch ann local) eqn:Es; intros [= <- <-].
  - apply sameBranch_spec in Es. split.
    + split; [by intros []|congruence].
    + exists bi. split_and!; try done; [apply lookup_insert_eq|].
      intros k Hk. by apply lookup_insert_ne.
  - assert (Hs : ann_HistoryHash ann <> ann_HistoryHash local).
    { intros E. apply sameBranch_spec in E. congruence. }
    split; [by split|]. exists bi. split_and!; try done; [apply lookup_insert_eq| |].
    { intros k Hk. by apply lookup_insert_ne. }
    intros ev [= <-]. cbn [fe_NeedExternalJoin fe_WinnerPeers].
    assert (Hs' : sameBranch local ann = false) by (apply sameBranch_false; congruence).
    split_and!.
    + rewrite bool_decide_eq_true. by apply compare_spec.
    + intros Hi Hl. rewrite bool_decide_eq_false.
      unfold isInvalidCommitLocked in *. simpl in *.
      unfold compareBranchWeightWithSupport. rewrite Hs', Hi, Hl. done.
    + intros p. rewrite elem_of_cons, list_elem_of_filter, elem_of_elements.
      destruct (decide (p = from)); set_solver.
Qed.

(** With a collision-free hash, two histories of the same length have the
    same history hash only if they contain the same commits in the same order:
    the history hash identifies the branch. *)
Theorem history_hash_identifies_branch groupID cs1 cs2 :
  length cs1 = length cs2 ->
  no_collision (chain_inputs (initialHistoryHash groupID) cs1 ++
                chain_inputs (initialHistoryHash groupID) cs2) ->
  chain (initialHistoryHash groupID) cs1 = chain (initialHistoryHash groupID) cs2 <-> cs1 = cs2.
Proof.
  intros Hl Hn. split; [|by intros ->].
  revert cs2 Hl Hn. induction cs1 as [|c1 cs1 IH] using rev_ind; intros cs2 Hl Hn E.
  { by destruct cs2. }
  destruct cs2 as [|c2 cs2 _] using rev_ind; [rewrite length_app in Hl; simpl in Hl; lia|].
  rewrite !length_app in Hl. simpl in Hl.
  rewrite !chain_snoc in E. rewrite !chain_inputs_snoc in Hn.
  apply computeHistoryHash_inj in E as [E ->].
  - f_equal. apply IH; [lia| |done].
    eapply no_collision_sub; [|exact Hn].
    intros x. rewrite !elem_of_app, ?elem_of_cons, ?list_elem_of_singleton. tauto.
  - rewrite !chain_length; [done|apply Sha256.length_sha256..].
  - eapply no_collision_sub; [|exact Hn].
    intros x. rewrite !elem_of_app, ?elem_of_cons, ?list_elem_of_singleton. tauto.
Qed.

(** The verdict recomputed for a peer that has announced two branches
    depends on the order in which the branches are visited, which the map
    iteration leaves unspecified. *)
Theorem compare_with_peer_order_dependent :
  exists fd order1 order2 p,
    order1 ≡ₚ map_to_list (fd_known fd) /\ order2 ≡ₚ map_to_list (fd_known fd) /\
    (CompareWithPeer order1 p fd).1.1 = BranchLocal /\
    (CompareWithPeer order2 p fd).1.1 = BranchRemote.
Proof.
  set (ann := fun (h : byte) ep => mkGroupStateAnnouncement [] 2 ep [] [h]).
  set (f0 := UpdateLocal (ann x00 5) NewForkDetector).
  set (f1 := (ProcessRemote 1 "p" 4 (ann x01 4) f0).2).
  set (f2 := (ProcessRemote 2 "p" 6 (ann x02 6) f1).2).
  exists f2, (map_to_list (fd_known f2)), (rev (map_to_list (fd_known f2))), "p".
  split; [done|]. split; [by rewrite <-Permutation_rev|].
  split; vm_compute; reflexivity.
Qed.

(** ** Instances *)

Definition ex_ann (h : byte) (ep : Z) : GroupStateAnnouncement :=
  mkGroupStateAnnouncement [x01] 2 ep [] [h].

(** A and B on one branch, C on another; all have heard each other. *)
Definition ex_nodes : gmap peerID GroupStateAnnouncement := {["A" := ex_ann x00 5; "B" := ex_ann x00 5; "C" := ex_ann x01 6]}.
Definition ex_fd : ForkDetector :=
  (ProcessRemote 8 "B" 5 (ex_ann x00 5) (ProcessRemote 7 "A" 5 (ex_ann x00 5) (UpdateLocal (ex_ann x01 6) NewForkDetector)).2).2.
Lemma ex_nodes_lookup p a : ex_nodes !! p = Some a -> a = ex_ann x00 5 /\ (p = "A" \/ p = "B") \/ a = ex_ann x01 6 /\ p = "C".
Proof.
  unfold ex_nodes. intros H. apply lookup_insert_Some in H as [[<- <-]|[_ H]]; [auto|].
  apply lookup_insert_Some in H as [[<- <-]|[_ H]]; [auto|]. apply lookup_singleton_Some in H as [<- <-]. auto.
Qed.
Lemma ex_fd_known : fd_known ex_fd = {[branchKey (ex_ann x00 5) := mkBranch (ex_ann x00 5) {["B"; "A"]} 7]}.
Proof. vm_compute. reflexivity. Qed.
Lemma ex_informed : informed ∅ ex_nodes "C" ex_fd.
Proof.
  split; [vm_compute; reflexivity|vm_compute; reflexivity| |].
  - intros q a [[-> Hq]|[-> ->]]%ex_nodes_lookup Hne; [|done]. rewrite ex_fd_known, lookup_singleton_eq. eexists. split; [done|]. set_solver.
  - intros k bi q. rewrite ex_fd_known. intros [<- <-]%lookup_singleton_Some. simpl.
    intros [->%elem_of_singleton| ->%elem_of_singleton]%elem_of_union; (split; [done|]; split; [vm_compute; reflexivity|done]).
Qed.

Lemma fork_has_unique_winner_witness :
  CompareWithPeer (map_to_list (fd_known ex_fd)) "A" ex_fd = (BranchRemote, ex_ann x00 5, true).
Proof.
  destruct (fork_has_unique_winner ∅ ex_nodes) as (w & (p & Hp) & _ & H).
  - exists "A", (ex_ann x00 5). split; vm_compute; reflexivity.
  - intros p q a b [[-> _]|[-> _]]%ex_nodes_lookup [[-> _]|[-> _]]%ex_nodes_lookup E; try reflexivity; discriminate E.
  - intros p q a b [[-> _]|[-> _]]%ex_nodes_lookup [[-> _]|[-> _]]%ex_nodes_lookup Hab E; try (by apply Hab); vm_compute in E; discriminate E.
  - assert (HA : ex_nodes !! "A" = Some (ex_ann x00 5)) by (vm_compute; reflexivity).
    assert (HC : ex_nodes !! "C" = Some (ex_ann x01 6)) by (vm_compute; reflexivity).
    destruct (H "C" "A" _ _ ex_fd _ HC HA ex_informed (reflexivity _)) as [H1 H2].
    apply ex_nodes_lookup in Hp as [[-> _]|[-> _]]; [apply H2; [discriminate|reflexivity]|].
    assert (E := H1 eq_refl ltac:(discriminate)). vm_compute in E. discriminate E.
Defined.

Lemma fork_tie_both_yield_witness :
  verdict (mkCand (ex_ann x00 5) 1 false) (mkCand (ex_ann x01 5) 1 false) = BranchRemote /\
  verdict (mkCand (ex_ann x01 5) 1 false) (mkCand (ex_ann x00 5) 1 false) = BranchRemote.
Proof.
  apply (fork_tie_both_yield (mkCand (ex_ann x00 5) 1 false) (mkCand (ex_ann x01 5) 1 false)).
  - done.
  - reflexivity.
Defined.

Lemma process_remote_detects_forks_witness :
  is_Some (ProcessRemote 7 "p" 6 (ex_ann x01 6) (UpdateLocal (ex_ann x00 5) NewForkDetector)).1.
Proof.
  refine (proj2 (proj1 (process_remote_detects_forks 7 "p" 6 (ex_ann x01 6)
    (UpdateLocal (ex_ann x00 5) NewForkDetector) _ _ (surjective_pairing _))) _).
  done.
Defined.

Lemma history_hash_identifies_branch_witness :
  chain (initialHistoryHash "g") [[x01]] <> chain (initialHistoryHash "g") [[x02]].
Proof.
  assert (Hd : sha256_sum (initialHistoryHash "g" ++ [x01]) <> sha256_sum (initialHistoryHash "g" ++ [x02])).
  { vm_compute. discriminate. }
  intros E. apply (history_hash_identifies_branch "g" [[x01]] [[x02]]) in E; [discriminate E|reflexivity|].
  intros x y Hx Hy. cbn [chain_inputs app] in Hx, Hy.
  rewrite elem_of_cons, list_elem_of_singleton in Hx, Hy.
  destruct Hx as [-> | ->], Hy as [-> | ->]; intros C;
    [reflexivity|destruct (Hd C)|destruct (Hd (eq_sym C))|reflexivity].
Defined.

End ForkDetector.
