(* ===== verification/Helpers.v ===== *)
(** * Batch helpers and metrics

    [coordination/coordinator_helpers.go]: projections between the buffered
    form of a batch of proposals and its wire form, comparison of proposal
    reference sets; and the counters of [coordination/metrics.go].  Go copies
    byte slices to avoid aliasing; values are immutable here, so a copy is the
    value itself. *)
From S2P Require Import Prelude Sha256 Types SingleWriter.

Module Helpers.
Section Batch.
Context {PC : PeerCodec}.

(** [summarizeBufferedProposal] *)
Definition summarizeBufferedProposal (p : BufferedProposal) : CommitAuditProposalSummary :=
  mkCommitAuditProposalSummary (bp_Type p) (bp_OperationID p) (bp_TargetPeerID p)
    (bp_RequestID p) (bp_GroupType p) (bp_CategoryID p).

(** [buildAddDeliveriesFromBatch] *)
Definition buildAddDeliveriesFromBatch (batch : list BufferedProposal) (welcomeBytes : bytes)
  : list AddCommitDelivery :=
  let welcomeHash := if is_empty welcomeBytes then [] else sha256_sum welcomeBytes in
  omap (fun p =>
    if negb (bp_Type p =? ProposalAdd) then None
    else Some (mkAddCommitDelivery (bp_OperationID p) (bp_TargetPeerID p) (bp_RequestID p)
                 (bp_GroupType p) (bp_CategoryID p) (bp_KeyPackageHash p) welcomeHash)) batch.

(** [proposalMsgsFromBatch]: the target identity is not carried. *)
Definition proposalMsgsFromBatch (batch : list BufferedProposal) : list ProposalMsg :=
  (fun p => mkProposalMsg (bp_Type p) (bp_Data p) (bp_ProposalRef p) (bp_OperationID p)
              (bp_TargetPeerID p) [] (bp_RequestID p) (bp_GroupType p) (bp_CategoryID p)
              (bp_KeyPackageHash p)) <$> batch.

(** [bufferedBatchFromProposalMsgs] *)
Definition bufferedBatchFromProposalMsgs (proposals : list ProposalMsg) : list BufferedProposal :=
  (fun p => mkBufferedProposal (pm_ProposalType p) (pm_Data p) (pm_ProposalRef p)
              (pm_OperationID p) (pm_TargetPeerID p) (pm_RequestID p) (pm_GroupType p)
              (pm_CategoryID p) (pm_KeyPackageHash p)) <$> proposals.

(** [proposalBytesFromMsgs] *)
Definition proposalBytesFromMsgs (proposals : list ProposalMsg) : list bytes := pm_Data <$> proposals.

(** [cloneBytesList] *)
Definition cloneBytesList (l : list bytes) : list bytes := (fun b => b) <$> l.

(** [sortBytesList] *)
Definition sortBytesList (items : list bytes) : list bytes := stable_sort bytes_ltb items.

Fixpoint bytes_list_eqb (a b : list bytes) : bool :=
  match a, b with
  | x :: a', y :: b' => if negb (bytes_eqb x y) then false else bytes_list_eqb a' b'
  | _, _ => true
  end.

(** [proposalRefSetsEqual]: the loop indexes both sorted copies by the first
    one's positions; the lengths were compared before. *)
Definition proposalRefSetsEqual (a b : list bytes) : bool :=
  if negb (Nat.eqb (length a) (length b)) then false
  else bytes_list_eqb (sortBytesList (cloneBytesList a)) (sortBytesList (cloneBytesList b)).

(** [removesPeer] *)
Definition removesPeer (batch : list BufferedProposal) (pid : peerID) : bool :=
  if str_eqb pid "" then false
  else existsb (fun p => (bp_Type p =? ProposalRemove) && str_eqb (bp_TargetPeerID p) (peer_String pid)) batch.

(** [batchContainsType] *)
Definition batchContainsType (batch : list BufferedProposal) (pType : ProposalType) : bool :=
  existsb (fun p => bp_Type p =? pType) batch.

(** ** Lemmas *)

Lemma bytes_list_eqb_spec a b : length a = length b -> bytes_list_eqb a b = true <-> a = b.
Proof.
  revert b. induction a as [|x a IH]; intros [|y b]; simpl; try done. intros [= Hl].
  destruct (bytes_eqb x y) eqn:E; simpl; breflect.
  - rewrite (IH b Hl), E. split; [by intros ->|by intros [= ->]].
  - split; [done|]. intros [= -> ->]. by rewrite bytes_eqb_refl in E.
Qed.

Lemma removesPeer_spec batch pid :
  removesPeer batch pid = true <->
  pid <> "" /\ exists p, p ∈ batch /\ bp_Type p = ProposalRemove /\ bp_TargetPeerID p = peer_String pid.
Proof.
  unfold removesPeer. destruct (str_eqb pid "") eqn:E; breflect.
  { split; [done|]. by intros [? _]. }
  rewrite existsb_exists. split.
  - intros (p & Hp & Ht). apply list_elem_of_In in Hp. breflect. naive_solver.
  - intros (_ & p & Hp & Ht & Hg). exists p. rewrite <-list_elem_of_In. split; [done|]. breflect. done.
Qed.

Lemma buildAddDeliveries_filter batch w :
  buildAddDeliveriesFromBatch batch w =
  (fun p => mkAddCommitDelivery (bp_OperationID p) (bp_TargetPeerID p) (bp_RequestID p)
              (bp_GroupType p) (bp_CategoryID p) (bp_KeyPackageHash p)
              (if is_empty w then [] else sha256_sum w))
    <$> filter (fun p => bp_Type p = ProposalAdd) batch.
Proof.
  unfold buildAddDeliveriesFromBatch. induction batch as [|p batch IH]; [done|].
  rewrite filter_cons. csimpl. rewrite IH.
  destruct (Z.eqb_spec (bp_Type p) ProposalAdd); case_decide; done.
Qed.

(** A batch survives the trip through the wire form of a commit: the
    receiver recovers exactly the batch the holder elected on, in order. *)
Theorem batch_wire_round_trip batch :
  bufferedBatchFromProposalMsgs (proposalMsgsFromBatch batch) = batch /\
  proposalBytesFromMsgs (proposalMsgsFromBatch batch) = bp_Data <$> batch /\
  (forall ps, proposalMsgsFromBatch (bufferedBatchFromProposalMsgs ps) = ps <->
              Forall (fun p => pm_TargetIdentity p = []) ps).
Proof.
  unfold bufferedBatchFromProposalMsgs, proposalMsgsFromBatch, proposalBytesFromMsgs.
  split_and!.
  - rewrite <-list_fmap_compose. rewrite <-(list_fmap_id batch) at 2.
    apply list_fmap_ext. by intros ? [].
  - by rewrite <-list_fmap_compose.
  - intros ps. rewrite <-list_fmap_compose. induction ps as [|p ps IH]; simpl; [by split|].
    rewrite Forall_cons, <-IH. destruct p; simpl. split.
    + intros E. injection E as E1 E2. split; [done|exact E2].
    + intros [-> E]. f_equal. exact E.
Qed.

(** The comparison of committed references with the announced ones holds
    exactly when the two lists are permutations of each other, duplicates
    counted, so the order in which a commit lists its references is free and
    nothing else is. *)
Theorem proposal_ref_sets_equal_iff_permutation a b :
  proposalRefSetsEqual a b = true <-> a ≡ₚ b.
Proof.
  unfold proposalRefSetsEqual, sortBytesList, cloneBytesList. rewrite !list_fmap_id.
  destruct (Nat.eqb_spec (length a) (length b)) as [Hl|Hl]; simpl.
  - rewrite bytes_list_eqb_spec by (rewrite !stable_sort_length; done). split.
    + intros E. by rewrite <-(stable_sort_perm bytes_ltb a), E, stable_sort_perm.
    + intros Hp. apply stable_sort_unique; [apply _| |exact Hp].
      intros x y _ _. apply bytes_ltb_total.
  - split; [done|]. intros Hp. destruct (Hl (Permutation_length Hp)).
Qed.

(** One delivery per invitee, in batch order, all of them naming the
    digest of the one Welcome. *)
Theorem add_deliveries_cover_adds batch w :
  length (buildAddDeliveriesFromBatch batch w) =
    length (filter (fun p => bp_Type p = ProposalAdd) batch) /\
  ad_TargetPeerID <$> buildAddDeliveriesFromBatch batch w =
    bp_TargetPeerID <$> filter (fun p => bp_Type p = ProposalAdd) batch /\
  (forall d, d ∈ buildAddDeliveriesFromBatch batch w ->
     ad_WelcomeHash d = if is_empty w then [] else sha256_sum w) /\
  (batchContainsType batch ProposalAdd = false <-> buildAddDeliveriesFromBatch batch w = []).
Proof.
  rewrite buildAddDeliveries_filter. split_and!.
  - by rewrite length_fmap.
  - by rewrite <-list_fmap_compose.
  - intros d Hd. apply list_elem_of_fmap in Hd as (p & -> & _). done.
  - unfold batchContainsType. rewrite <-not_true_iff_false, existsb_exists. split.
    + intros Hn. destruct (filter _ batch) as [|p l] eqn:E; [done|]. destruct Hn. exists p.
      assert (Hp : p ∈ filter (fun p => bp_Type p = ProposalAdd) batch) by (rewrite E; constructor).
      apply list_elem_of_filter in Hp as [? ?]. rewrite <-list_elem_of_In. split; [done|lia].
    + intros E (p & Hp & Ht). apply list_elem_of_In in Hp.
      assert (Hf : p ∈ filter (fun p => bp_Type p = ProposalAdd) batch).
      { apply list_elem_of_filter. split; [lia|done]. }
      apply fmap_nil_inv in E. rewrite E in Hf. by apply not_elem_of_nil in Hf.
Qed.

End Batch.
End Helpers.

(** ** Metrics *)
Module Metrics.

Record Metrics := mkMetrics {
  m_commitsIssued : Z;
  m_proposalsReceived : Z;
  m_duplicateEpochDetected : Z;
  m_epochFinalizations : list duration;
  m_externalJoins : list duration;
  m_tokenElections : list duration;
  m_commitBytesTotal : Z;
  m_partitionsDetected : Z;
  m_forkHealingsAttempted : Z;
  m_forkHealingsSucceeded : Z;
}.

(** [NewMetrics] and [Reset] *)
Definition NewMetrics : Metrics := mkMetrics 0 0 0 [] [] [] 0 0 0 0.
Definition Reset (m : Metrics) : Metrics := NewMetrics.

Definition IncrCommitsIssued (m : Metrics) : Metrics :=
  let '(mkMetrics a b c d e f g h i j) := m in mkMetrics (i64 (a + 1)) b c d e f g h i j.
Definition IncrProposalsReceived (m : Metrics) : Metrics :=
  let '(mkMetrics a b c d e f g h i j) := m in mkMetrics a (i64 (b + 1)) c d e f g h i j.
Definition IncrDuplicateEpochDetected (m : Metrics) : Metrics :=
  let '(mkMetrics a b c d e f g h i j) := m in mkMetrics a b (i64 (c + 1)) d e f g h i j.
Definition RecordEpochFinalization (x : duration) (m : Metrics) : Metrics :=
  let '(mkMetrics a b c d e f g h i j) := m in mkMetrics a b c (d ++ [x]) e f g h i j.
Definition RecordExternalJoin (x : duration) (m : Metrics) : Metrics :=
  let '(mkMetrics a b c d e f g h i j) := m in mkMetrics a b c d (e ++ [x]) f g h i j.
Definition RecordTokenElection (x : duration) (m : Metrics) : Metrics :=
  let '(mkMetrics a b c d e f g h i j) := m in mkMetrics a b c d e (f ++ [x]) g h i j.
Definition AddCommitBytes (n : Z) (m : Metrics) : Metrics :=
  let '(mkMetrics a b c d e f g h i j) := m in mkMetrics a b c d e f (i64 (g + n)) h i j.
Definition IncrPartitionsDetected (m : Metrics) : Metrics :=
  let '(mkMetrics a b c d e f g h i j) := m in mkMetrics a b c d e f g (i64 (h + 1)) i j.
Definition IncrForkHealingsAttempted (m : Metrics) : Metrics :=
  let '(mkMetrics a b c d e f g h i j) := m in mkMetrics a b c d e f g h (i64 (i + 1)) j.
Definition IncrForkHealingsSucceeded (m : Metrics) : Metrics :=
  let '(mkMetrics a b c d e f g h i j) := m in mkMetrics a b c d e f g h i (i64 (j + 1)).

(** [Snapshot]: the exported copy has the same fields. *)
Definition Snapshot (m : Metrics) : Metrics := m.

End Metrics.
