(* ===== verification/Database.v ===== *)
(** * The coordination tables and the SQL layer

    The tables of [adapter/store/db.go] that the coordination storage reads
    and writes, and the effects of a statement: it can fail, it reads the wall
    clock, and inside a transaction its writes are undone unless the
    transaction commits.

    Blobs and texts are stored as values; [NULL] and an empty blob are not
    told apart except where a column is an option.  Rows are kept in insertion
    order (the order of the implicit row id), which is also how ties of an
    [ORDER BY] come out.  Foreign keys are not enforced, as the connection
    never enables them. *)
From S2P Require Import Prelude GoStrings Sha256 Types.

(** ** Rows *)

(** [mls_groups] *)
Record GroupRow := mkGroupRow {
  grow_rec : GroupRecord;
  grow_lifecycle_status : string;
  grow_left_at : Z;
}.

(** [envelope_log]: the record and its [created_at] in seconds. *)
Record LogRow := mkLogRow { lr_rec : EnvelopeRecord; lr_created_at : Z }.

(** [coordination_state]: peers as printed ids. *)
Record CoordRow := mkCoordRow {
  crow_active_view : list string;
  crow_token_holder : string;
  crow_last_commit_hash : bytes;
  crow_last_commit_at : option time;
  crow_pending_proposals : list bytes;
  crow_history_chain : gmap Z bytes;
}.

(** [stored_messages]: the sender as printed id. *)
Record MessageRow := mkMessageRow {
  mrow_group_id : string;
  mrow_epoch : Z;
  mrow_sender_id : string;
  mrow_content : bytes;
  mrow_hlc : HLCTimestamp;
  mrow_envelope_hash : bytes;
  mrow_replayed_at : option Z;
}.

(** A row of the fork heal history with its [created_at] in seconds. *)
Record HealEventRow := mkHealEventRow { her_rec : ForkHealEventRecord; her_created_at : Z }.
Record HealAuditRow := mkHealAuditRow { har_rec : ForkHealAuditRecord; har_created_at : Z }.

Record DB := mkDB {
  db_groups : gmap string GroupRow;
  db_coord : gmap string CoordRow;
  db_messages : list MessageRow;
  db_applied : gmap (string * bytes) (MessageType * Z * Z);
  db_log : list LogRow;
  db_dedup : gmap (string * bytes) Z;
  db_sync_acks : gmap (string * string) (Z * Z);
  db_delivery_acks : list PendingDeliveryAckRow;
  db_delivery_ack_id : Z;
  db_pull_cursors : gmap (string * string) Z;
  db_heal_events : list HealEventRow;
  db_heal_audit : list HealAuditRow;
  db_pending_ops : list PendingOperation;
  db_heal_jobs : list ForkHealingJob;
  db_app_events : list ApplicationEvent;
  db_outbound : list OutboundReplay;
}.

Definition db_empty : DB :=
  mkDB ∅ ∅ [] ∅ [] ∅ ∅ [] 0 ∅ [] [] [] [] [] [].

Definition set_db_groups (v : gmap string GroupRow) (d : DB) : DB :=
  mkDB v (db_coord d) (db_messages d) (db_applied d) (db_log d) (db_dedup d) (db_sync_acks d)
    (db_delivery_acks d) (db_delivery_ack_id d) (db_pull_cursors d) (db_heal_events d)
    (db_heal_audit d) (db_pending_ops d) (db_heal_jobs d) (db_app_events d) (db_outbound d).
Definition set_db_coord (v : gmap string CoordRow) (d : DB) : DB :=
  mkDB (db_groups d) v (db_messages d) (db_applied d) (db_log d) (db_dedup d) (db_sync_acks d)
    (db_delivery_acks d) (db_delivery_ack_id d) (db_pull_cursors d) (db_heal_events d)
    (db_heal_audit d) (db_pending_ops d) (db_heal_jobs d) (db_app_events d) (db_outbound d).
Definition set_db_messages (v : list MessageRow) (d : DB) : DB :=
  mkDB (db_groups d) (db_coord d) v (db_applied d) (db_log d) (db_dedup d) (db_sync_acks d)
    (db_delivery_acks d) (db_delivery_ack_id d) (db_pull_cursors d) (db_heal_events d)
    (db_heal_audit d) (db_pending_ops d) (db_heal_jobs d) (db_app_events d) (db_outbound d).
Definition set_db_applied (v : gmap (string * bytes) (MessageType * Z * Z)) (d : DB) : DB :=
  mkDB (db_groups d) (db_coord d) (db_messages d) v (db_log d) (db_dedup d) (db_sync_acks d)
    (db_delivery_acks d) (db_delivery_ack_id d) (db_pull_cursors d) (db_heal_events d)
    (db_heal_audit d) (db_pending_ops d) (db_heal_jobs d) (db_app_events d) (db_outbound d).
Definition set_db_log (v : list LogRow) (d : DB) : DB :=
  mkDB (db_groups d) (db_coord d) (db_messages d) (db_applied d) v (db_dedup d) (db_sync_acks d)
    (db_delivery_acks d) (db_delivery_ack_id d) (db_pull_cursors d) (db_heal_events d)
    (db_heal_audit d) (db_pending_ops d) (db_heal_jobs d) (db_app_events d) (db_outbound d).
Definition set_db_dedup (v : gmap (string * bytes) Z) (d : DB) : DB :=
  mkDB (db_groups d) (db_coord d) (db_messages d) (db_applied d) (db_log d) v (db_sync_acks d)
    (db_delivery_acks d) (db_delivery_ack_id d) (db_pull_cursors d) (db_heal_events d)
    (db_heal_audit d) (db_pending_ops d) (db_heal_jobs d) (db_app_events d) (db_outbound d).
Definition set_db_sync_acks (v : gmap (string * string) (Z * Z)) (d : DB) : DB :=
  mkDB (db_groups d) (db_coord d) (db_messages d) (db_applied d) (db_log d) (db_dedup d) v
    (db_delivery_acks d) (db_delivery_ack_id d) (db_pull_cursors d) (db_heal_events d)
    (db_heal_audit d) (db_pending_ops d) (db_heal_jobs d) (db_app_events d) (db_outbound d).
Definition set_db_delivery_acks (v : list PendingDeliveryAckRow) (d : DB) : DB :=
  mkDB (db_groups d) (db_coord d) (db_messages d) (db_applied d) (db_log d) (db_dedup d)
    (db_sync_acks d) v (db_delivery_ack_id d) (db_pull_cursors d) (db_heal_events d)
    (db_heal_audit d) (db_pending_ops d) (db_heal_jobs d) (db_app_events d) (db_outbound d).
Definition set_db_delivery_ack_id (v : Z) (d : DB) : DB :=
  mkDB (db_groups d) (db_coord d) (db_messages d) (db_applied d) (db_log d) (db_dedup d)
    (db_sync_acks d) (db_delivery_acks d) v (db_pull_cursors d) (db_heal_events d)
    (db_heal_audit d) (db_pending_ops d) (db_heal_jobs d) (db_app_events d) (db_outbound d).
Definition set_db_pull_cursors (v : gmap (string * string) Z) (d : DB) : DB :=
  mkDB (db_groups d) (db_coord d) (db_messages d) (db_applied d) (db_log d) (db_dedup d)
    (db_sync_acks d) (db_delivery_acks d) (db_delivery_ack_id d) v (db_heal_events d)
    (db_heal_audit d) (db_pending_ops d) (db_heal_jobs d) (db_app_events d) (db_outbound d).
Definition set_db_heal_events (v : list HealEventRow) (d : DB) : DB :=
  mkDB (db_groups d) (db_coord d) (db_messages d) (db_applied d) (db_log d) (db_dedup d)
    (db_sync_acks d) (db_delivery_acks d) (db_delivery_ack_id d) (db_pull_cursors d) v
    (db_heal_audit d) (db_pending_ops d) (db_heal_jobs d) (db_app_events d) (db_outbound d).
Definition set_db_heal_audit (v : list HealAuditRow) (d : DB) : DB :=
  mkDB (db_groups d) (db_coord d) (db_messages d) (db_applied d) (db_log d) (db_dedup d)
    (db_sync_acks d) (db_delivery_acks d) (db_delivery_ack_id d) (db_pull_cursors d)
    (db_heal_events d) v (db_pending_ops d) (db_heal_jobs d) (db_app_events d) (db_outbound d).
Definition set_db_pending_ops (v : list PendingOperation) (d : DB) : DB :=
  mkDB (db_groups d) (db_coord d) (db_messages d) (db_applied d) (db_log d) (db_dedup d)
    (db_sync_acks d) (db_delivery_acks d) (db_delivery_ack_id d) (db_pull_cursors d)
    (db_heal_events d) (db_heal_audit d) v (db_heal_jobs d) (db_app_events d) (db_outbound d).
Definition set_db_heal_jobs (v : list ForkHealingJob) (d : DB) : DB :=
  mkDB (db_groups d) (db_coord d) (db_messages d) (db_applied d) (db_log d) (db_dedup d)
    (db_sync_acks d) (db_delivery_acks d) (db_delivery_ack_id d) (db_pull_cursors d)
    (db_heal_events d) (db_heal_audit d) (db_pending_ops d) v (db_app_events d) (db_outbound d).
Definition set_db_app_events (v : list ApplicationEvent) (d : DB) : DB :=
  mkDB (db_groups d) (db_coord d) (db_messages d) (db_applied d) (db_log d) (db_dedup d)
    (db_sync_acks d) (db_delivery_acks d) (db_delivery_ack_id d) (db_pull_cursors d)
    (db_heal_events d) (db_heal_audit d) (db_pending_ops d) (db_heal_jobs d) v (db_outbound d).
Definition set_db_outbound (v : list OutboundReplay) (d : DB) : DB :=
  mkDB (db_groups d) (db_coord d) (db_messages d) (db_applied d) (db_log d) (db_dedup d)
    (db_sync_acks d) (db_delivery_acks d) (db_delivery_ack_id d) (db_pull_cursors d)
    (db_heal_events d) (db_heal_audit d) (db_pending_ops d) (db_heal_jobs d) (db_app_events d)
    v.

(** ** Statements *)

(** What a run does not control: which statement fails and with what text,
    and the wall clock at each statement.  The number of statements issued so
    far indexes both. *)
Record SqlEnv := mkSqlEnv {
  sql_fails : nat -> option string;
  sql_clock : nat -> time;
  (** offset of the local time zone of a time value, in nanoseconds *)
  zone_offset : time -> duration;
  (** whether the driver binds a nil byte slice as [NULL] *)
  nil_blob_null : bool;
}.

(** A computation over tables [D]; the coordination tables are one instance,
    the tables of the application another. *)
Definition SQLs (D A : Type) : Type := SqlEnv -> nat -> D -> result A * nat * D.
Abbreviation SQL := (SQLs DB).

Definition sql_ret {D A} (a : A) : SQLs D A := fun _ t d => (inl a, t, d).
Definition sql_throw {D A} (e : GoError) : SQLs D A := fun _ t d => (inr e, t, d).
Definition sql_bind {D A B} (m : SQLs D A) (k : A -> SQLs D B) : SQLs D B := fun env t d =>
  match m env t d with
  | (inl a, t', d') => k a env t' d'
  | (inr e, t', d') => (inr e, t', d')
  end.

(** [if err != nil { return fmt.Errorf(ctx + ": %w", err) }] *)
Definition sql_wrap {D A} (ctx : string) (m : SQLs D A) : SQLs D A := fun env t d =>
  match m env t d with
  | (inl a, t', d') => (inl a, t', d')
  | (inr e, t', d') => (inr (ErrWrap ctx e), t', d')
  end.

(** [_, _ = db.Exec(...)] *)
Definition sql_ignore {D A} (m : SQLs D A) : SQLs D unit := fun env t d =>
  match m env t d with (_, t', d') => (inl tt, t', d') end.

(** A read: fails or returns what the tables hold. *)
Definition sql_query {D A} (f : D -> A) : SQLs D A := fun env t d =>
  match sql_fails env t with
  | Some e => (inr (ErrText e), S t, d)
  | None => (inl (f d), S t, d)
  end.

(** A write: fails without effect, or updates the tables. *)
Definition sql_exec {D} (f : D -> D) : SQLs D unit := fun env t d =>
  match sql_fails env t with
  | Some e => (inr (ErrText e), S t, d)
  | None => (inl tt, S t, f d)
  end.

(** [time.Now()] and SQLite's clock *)
Definition sql_time {D} : SQLs D time := fun env t d => (inl (sql_clock env t), S t, d).

(** [database/sql] refuses a [uint64] argument with the high bit set. *)
Definition sql_uint64 {D} (n : Z) : SQLs D unit :=
  if n <? 2 ^ 63 then sql_ret tt
  else sql_throw (ErrText "uint64 values with high bit set are not supported").

(** [tx, err := db.Begin(); defer tx.Rollback(); ...; tx.Commit()]: the body
    returns its value and whether the transaction was committed; otherwise
    its writes are rolled back. *)
Definition sql_tx {D A} (ctx : string) (body : SQLs D (A * bool)) : SQLs D A := fun env t d =>
  match sql_fails env t with
  | Some e => (inr (ErrWrap ctx (ErrText e)), S t, d)
  | None =>
      match body env (S t) d with
      | (inl (a, true), t', d') => (inl a, t', d')
      | (inl (a, false), t', _) => (inl a, t', d)
      | (inr e, t', _) => (inr e, t', d)
      end
  end.

(** [tx.Commit()] *)
Definition sql_commit {D} : SQLs D unit := sql_exec (fun d => d).

Notation "x <-! m ; k" := (sql_bind m (fun x => k))
  (at level 100, m at next level, k at level 200, right associativity) : coord_scope.
Notation "m ;;! k" := (sql_bind m (fun _ => k))
  (at level 100, k at level 200, right associativity) : coord_scope.
Open Scope coord_scope.

(** [t.Format(time.DateTime)] read back by [time.Parse]: whole seconds of the
    local wall clock, taken as UTC. *)
Definition DateTime (env : SqlEnv) (t : time) : time := (t + zone_offset env t) / Second * Second.

(** [strings.TrimSpace(s) == ""] *)
Definition TrimSpace_empty (s : string) : bool := str_eqb (TrimSpace s) "".

(** SQL [trim(s) != '']: some character is not a space. *)
Definition sql_nonblank (s : string) : bool :=
  existsb (fun c => negb (Byte.to_N c =? 32)%N) (str_bytes s).

(** ** What statements can and cannot do *)

(** A computation that reads only. *)
Definition readonly {D A} (m : SQLs D A) : Prop := forall env t d, (m env t d).2 = d.

(** A computation that on failure leaves the tables as they were. *)
Definition atomic {D A} (m : SQLs D A) : Prop := forall env t d e t' d', m env t d = (inr e, t', d') -> d' = d.

Lemma readonly_atomic {D A} (m : SQLs D A) : readonly m -> atomic m.
Proof. intros H env t d e t' d' E. specialize (H env t d). by rewrite E in H. Qed.

Lemma readonly_query {D A} (f : D -> A) : readonly (sql_query f).
Proof. intros env t d. unfold sql_query. by case_match. Qed.
Lemma readonly_time {D} : readonly (@sql_time D).
Proof. done. Qed.
Lemma readonly_ret {D A} (a : A) : readonly (@sql_ret D A a).
Proof. done. Qed.
Lemma readonly_throw {D A} e : readonly (@sql_throw D A e).
Proof. done. Qed.
Lemma readonly_uint64 {D} n : readonly (@sql_uint64 D n).
Proof. unfold sql_uint64. by case_match. Qed.

Lemma readonly_bind {D A B} (m : SQLs D A) (k : A -> SQLs D B) :
  readonly m -> (forall a, readonly (k a)) -> readonly (sql_bind m k).
Proof.
  intros Hm Hk env t d. unfold sql_bind. specialize (Hm env t d).
  destruct (m env t d) as [[[a|e] t'] d']; simpl in *; subst; [apply Hk|done].
Qed.

Lemma readonly_wrap {D A} c (m : SQLs D A) : readonly m -> readonly (sql_wrap c m).
Proof.
  intros Hm env t d. unfold sql_wrap. specialize (Hm env t d).
  destruct (m env t d) as [[[a|e] t'] d']; done.
Qed.

Lemma atomic_exec {D} (f : D -> D) : atomic (sql_exec f).
Proof. intros env t d e t' d'. unfold sql_exec. case_match; by intros [= <- <- <-]. Qed.

Lemma atomic_wrap {D A} c (m : SQLs D A) : atomic m -> atomic (sql_wrap c m).
Proof.
  intros Hm env t d e t' d'. unfold sql_wrap.
  destruct (m env t d) as [[[a|e0] t0] d0] eqn:E; intros [= <- <- <-]. by eapply Hm.
Qed.

(** Reads before an atomic step keep the sequence atomic. *)
Lemma atomic_bind_read {D A B} (m : SQLs D A) (k : A -> SQLs D B) :
  readonly m -> (forall a, atomic (k a)) -> atomic (sql_bind m k).
Proof.
  intros Hm Hk env t d e t' d'. unfold sql_bind. specialize (Hm env t d).
  destruct (m env t d) as [[[a|e0] t0] d0]; simpl in *; subst.
  - apply Hk.
  - by intros [= _ _ <-].
Qed.

(** A transaction is atomic whatever its body does. *)
Lemma atomic_tx {D A} c (body : SQLs D (A * bool)) : atomic (sql_tx c body).
Proof.
  intros env t d e t' d'. unfold sql_tx. destruct (sql_fails env t); [by intros [= _ _ <-]|].
  destruct (body env (S t) d) as [[[[a []]|e0] t0] d0]; by intros [= _ _ <-].
Qed.

#[export] Hint Resolve readonly_query readonly_time readonly_ret readonly_throw readonly_uint64
  readonly_bind readonly_wrap atomic_exec atomic_wrap atomic_bind_read atomic_tx
  readonly_atomic : coord.

(** Inversion of a successful sequence. *)
Lemma bind_inl {D A B} (m : SQLs D A) (k : A -> SQLs D B) env t d b t' d' :
  sql_bind m k env t d = (inl b, t', d') ->
  exists a t1 d1, m env t d = (inl a, t1, d1) /\ k a env t1 d1 = (inl b, t', d').
Proof.
  unfold sql_bind. destruct (m env t d) as [[[a|e] t1] d1]; [by eauto 6|done].
Qed.

Lemma wrap_inl {D A} c (m : SQLs D A) env t d a t' d' :
  sql_wrap c m env t d = (inl a, t', d') -> m env t d = (inl a, t', d').
Proof. unfold sql_wrap. destruct (m env t d) as [[[?|?] ?] ?]; [by intros [= <- <- <-]|done]. Qed.

Lemma exec_inl {D} (f : D -> D) env t d u t' d' :
  sql_exec f env t d = (inl u, t', d') -> d' = f d /\ sql_fails env t = None.
Proof. unfold sql_exec. destruct (sql_fails env t); [done|by intros [= _ _ <-]]. Qed.

Lemma query_inl {D A} (f : D -> A) env t d a t' d' :
  sql_query f env t d = (inl a, t', d') -> a = f d /\ d' = d.
Proof. unfold sql_query. destruct (sql_fails env t); [done|by intros [= <- _ <-]]. Qed.

Lemma uint64_inl {D} n env t (d : D) u t' d' :
  sql_uint64 n env t d = (inl u, t', d') -> n < 2 ^ 63 /\ d' = d.
Proof. unfold sql_uint64. case_match; [|done]. intros [= _ _ <-]. split; [lia|done]. Qed.

Lemma time_inl {D} env t (d : D) a t' d' :
  sql_time env t d = (inl a, t', d') -> a = sql_clock env t /\ d' = d.
Proof. by intros [= <- _ <-]. Qed.

Lemma ignore_inl {D A} (m : SQLs D A) env t d u t' d' :
  sql_ignore m env t d = (inl u, t', d') -> d' = (m env t d).2.
Proof. unfold sql_ignore. destruct (m env t d) as [[? ?] ?]. by intros [= _ _ <-]. Qed.

Lemma tx_inl {D A} c (body : SQLs D (A * bool)) env t d a t' d' :
  sql_tx c body env t d = (inl a, t', d') ->
  (exists d1, body env (S t) d = (inl (a, false), t', d1) /\ d' = d) \/
  body env (S t) d = (inl (a, true), t', d').
Proof.
  unfold sql_tx. destruct (sql_fails env t); [done|].
  destruct (body env (S t) d) as [[[[? []]|?] ?] d1]; try done; intros [= <- <- <-]; eauto.
Qed.

(** Take a successful sequence apart. *)
Ltac sql_inv :=
  repeat match goal with
  | H : sql_bind _ _ _ _ _ = (inl _, _, _) |- _ =>
      apply bind_inl in H; destruct H as (? & ? & ? & ? & H)
  | H : sql_wrap _ _ _ _ _ = (inl _, _, _) |- _ => apply wrap_inl in H
  | H : sql_exec _ _ _ _ = (inl _, _, _) |- _ => apply exec_inl in H; destruct H as [-> ?]
  | H : sql_commit _ _ _ = (inl _, _, _) |- _ => apply exec_inl in H; destruct H as [-> ?]
  | H : sql_query _ _ _ _ = (inl _, _, _) |- _ => apply query_inl in H; destruct H as [-> ->]
  | H : sql_time _ _ _ = (inl _, _, _) |- _ => apply time_inl in H; destruct H as [-> ->]
  | H : sql_uint64 _ _ _ _ = (inl _, _, _) |- _ => apply uint64_inl in H; destruct H as [? ->]
  | H : sql_ret _ _ _ _ = (inl _, _, _) |- _ =>
      unfold sql_ret in H; simplify_eq
  | H : sql_throw _ _ _ _ = (inl _, _, _) |- _ => done
  end.

(** ** Relations that hold across a computation

    [respects R m]: whatever the outcome, [m] moves the tables along [R];
    [ensures R m]: so does a successful run. *)
Definition respects {D A} (R : D -> D -> Prop) (m : SQLs D A) : Prop :=
  forall env t d, R d (m env t d).2.
Definition ensures {D A} (R : D -> D -> Prop) (m : SQLs D A) : Prop :=
  forall env t d a t' d', m env t d = (inl a, t', d') -> R d d'.

Section Respects.
Context {D : Type} (R : D -> D -> Prop) `{!PreOrder R}.

Lemma respects_ensures {A} (m : SQLs D A) : respects R m -> ensures R m.
Proof. intros H env t d a t' d' E. specialize (H env t d). by rewrite E in H. Qed.

Lemma respects_readonly {A} (m : SQLs D A) : readonly m -> respects R m.
Proof. intros H env t d. by rewrite H. Qed.

Lemma respects_exec f : (forall d, R d (f d)) -> respects R (sql_exec f).
Proof. intros H env t d. unfold sql_exec. case_match; simpl; [reflexivity|apply H]. Qed.

Lemma respects_env {A} (m : SqlEnv -> SQLs D A) :
  (forall env, respects R (m env)) -> respects R (fun env => m env env).
Proof. intros H env t d. apply H. Qed.

Lemma respects_bind {A B} (m : SQLs D A) (k : A -> SQLs D B) :
  respects R m -> (forall a, respects R (k a)) -> respects R (sql_bind m k).
Proof.
  intros Hm Hk env t d. unfold sql_bind. specialize (Hm env t d).
  destruct (m env t d) as [[[a|e] t'] d']; simpl in *; [|done].
  etrans; [exact Hm|apply Hk].
Qed.

Lemma respects_wrap {A} c (m : SQLs D A) : respects R m -> respects R (sql_wrap c m).
Proof.
  intros Hm env t d. unfold sql_wrap. specialize (Hm env t d).
  by destruct (m env t d) as [[[a|e] t'] d'].
Qed.

Lemma respects_ignore {A} (m : SQLs D A) : respects R m -> respects R (sql_ignore m).
Proof.
  intros Hm env t d. unfold sql_ignore. specialize (Hm env t d).
  by destruct (m env t d) as [[r t'] d'].
Qed.

(** A transaction needs the relation only on success. *)
Lemma respects_tx {A} c (body : SQLs D (A * bool)) : ensures R body -> respects R (sql_tx c body).
Proof.
  intros Hb env t d. unfold sql_tx. destruct (sql_fails env t); [reflexivity|].
  destruct (body env (S t) d) as [[[[a []]|e] t'] d'] eqn:E; simpl; try reflexivity.
  by eapply Hb.
Qed.

Lemma ensures_bind {A B} (m : SQLs D A) (k : A -> SQLs D B) :
  ensures R m -> (forall a, ensures R (k a)) -> ensures R (sql_bind m k).
Proof.
  intros Hm Hk env t d b t' d' E. apply bind_inl in E as (a & t1 & d1 & E1 & E2).
  etrans; [by eapply Hm|by eapply Hk].
Qed.

Lemma ensures_wrap {A} c (m : SQLs D A) : ensures R m -> ensures R (sql_wrap c m).
Proof. intros Hm env t d a t' d' E. apply wrap_inl in E. by eapply Hm. Qed.

End Respects.

#[export] Hint Resolve respects_readonly respects_wrap respects_ignore respects_tx
  respects_ensures ensures_wrap : coord.

(** Decompose a [respects] or [ensures] goal along the structure of the code. *)
Ltac sql_step :=
  match goal with
  | |- respects _ (sql_bind _ _) => apply respects_bind; [apply _| |intro]
  | |- respects _ (sql_wrap _ _) => apply respects_wrap
  | |- respects _ (sql_ignore _) => apply respects_ignore
  | |- respects _ (sql_tx _ _) => apply respects_tx; [apply _|]
  | |- respects _ (sql_exec _) => apply respects_exec; [apply _|intro]
  | |- respects _ (sql_query _) => apply respects_readonly; [apply _|apply readonly_query]
  | |- respects _ sql_time => apply respects_readonly; [apply _|apply readonly_time]
  | |- respects _ (sql_ret _) => apply respects_readonly; [apply _|apply readonly_ret]
  | |- respects _ (sql_throw _) => apply respects_readonly; [apply _|apply readonly_throw]
  | |- respects _ (sql_uint64 _) => apply respects_readonly; [apply _|apply readonly_uint64]
  | |- respects _ sql_commit => apply respects_exec; [apply _|intro; reflexivity]
  | |- respects _ (if ?b then _ else _) => destruct b
  | |- respects _ (match ?o with _ => _ end) => destruct o
  | |- respects _ (fun env => _) => apply (respects_env _ (fun env => _)); intro
  | |- ensures _ (sql_bind _ _) => apply ensures_bind; [apply _| |intro]
  | |- ensures _ (sql_wrap _ _) => apply ensures_wrap
  | |- ensures _ (if ?b then _ else _) => destruct b
  | |- ensures _ _ => apply respects_ensures
  end.
