(* ===== verification/Store.v ===== *)
(** * Coordination storage: groups, messages and the envelope log

    [adapter/store/coordination_storage.go]: group records, coordination
    state, stored messages, the applied-envelope set, the offline envelope log
    with its deduplication, sync acknowledgements and pull cursors. *)
From S2P Require Import Prelude Sha256 Types SingleWriter Database.

Module Store.
Section Operations.
Context {PC : PeerCodec}.

(** ** Group records *)

(** [validateGroupRecordForSave] *)
Definition validateGroupRecordForSave (rec : GroupRecord) : option GoError :=
  if TrimSpace_empty (gr_GroupID rec) then Some (ErrText "SaveGroupRecord: empty group ID")
  else if is_empty (gr_GroupState rec) then
    Some (ErrText "SaveGroupRecord: empty group_state (stale or incompatible MLS sidecar response)")
  else None.

Definition or_else (new old : string) : string := if str_eqb new "" then old else new.

(** The upsert of [SaveGroupRecord] and [saveGroupRecordTx]. *)
Definition upsert_group (env : SqlEnv) (rec : GroupRecord) (old : option GroupRow) : GroupRow :=
  match old with
  | None =>
      mkGroupRow (mkGroupRecord (gr_GroupID rec) (gr_GroupState rec) (gr_Epoch rec)
        (gr_TreeHash rec) (gr_MyRole rec) (gr_GroupType rec) (gr_CategoryID rec)
        (gr_DMCounterpartyPeerID rec) (DateTime env (gr_CreatedAt rec))
        (DateTime env (gr_UpdatedAt rec))) "active" 0
  | Some row =>
      let o := grow_rec row in
      let gtype := or_else (gr_GroupType rec) (gr_GroupType o) in
      mkGroupRow (mkGroupRecord (gr_GroupID o) (gr_GroupState rec) (gr_Epoch rec)
        (gr_TreeHash rec) (or_else (gr_MyRole rec) (gr_MyRole o)) gtype
        (if str_eqb gtype "channel" then
           if sql_nonblank (gr_CategoryID rec) then gr_CategoryID rec else gr_CategoryID o
         else "")
        (if str_eqb gtype "dm" then
           if sql_nonblank (gr_DMCounterpartyPeerID rec) then gr_DMCounterpartyPeerID rec
           else gr_DMCounterpartyPeerID o
         else "")
        (gr_CreatedAt o) (DateTime env (gr_UpdatedAt rec))) "active" 0
  end.

(** [saveGroupRecordTx] *)
Definition saveGroupRecordTx (rec : GroupRecord) : SQL unit :=
  match validateGroupRecordForSave rec with
  | Some e => sql_throw e
  | None =>
      sql_uint64 (gr_Epoch rec) ;;!
      (fun env => sql_exec (fun d =>
         set_db_groups (<[gr_GroupID rec := upsert_group env rec (db_groups d !! gr_GroupID rec)]> (db_groups d)) d) env)
  end.

(** [SaveGroupRecord] *)
Definition SaveGroupRecord (rec : GroupRecord) : SQL unit :=
  match validateGroupRecordForSave rec with
  | Some e => sql_throw e
  | None =>
      sql_wrap "SaveGroupRecord" (sql_uint64 (gr_Epoch rec) ;;!
      (fun env => sql_exec (fun d =>
         set_db_groups (<[gr_GroupID rec := upsert_group env rec (db_groups d !! gr_GroupID rec)]> (db_groups d)) d) env))
  end.

(** [GetGroupRecord] *)
Definition GetGroupRecord (groupID : string) : SQL GroupRecord :=
  row <-! sql_wrap "GetGroupRecord" (sql_query (fun d => db_groups d !! groupID)) ;
  match row with
  | None => sql_throw ErrGroupNotFound
  | Some r => sql_ret (grow_rec r)
  end.

(** [ListGroups]: the active groups, in the order of the table. *)
Definition ListGroups : SQL (list GroupRecord) :=
  sql_wrap "ListGroups" (sql_query (fun d =>
    omap (fun kr : string * GroupRow =>
      if str_eqb (grow_lifecycle_status kr.2) "active" then Some (grow_rec kr.2) else None)
      (map_to_list (db_groups d)))).

(** ** Coordination state

    The JSON columns hold lists of printed peer ids, byte strings and the
    history chain keyed by epoch; encoding and decoding them again yields the
    same value. *)

Definition decode_peer (s : string) : peerID := default s (peer_Decode s).

(** [SaveCoordState] *)
Definition SaveCoordState (state : CoordState) : SQL unit :=
  sql_wrap "SaveCoordState" (fun env => sql_exec (fun d =>
    set_db_coord (<[cs_GroupID state := mkCoordRow (peer_String <$> cs_ActiveView state)
       (peer_String (cs_TokenHolder state)) (cs_LastCommitHash state)
       (if time_IsZero (cs_LastCommitAt state) then None else Some (DateTime env (cs_LastCommitAt state)))
       (cs_PendingProposals state) (cs_HistoryChain state)]> (db_coord d)) d) env).

(** [GetCoordState] *)
Definition GetCoordState (groupID : string) : SQL CoordState :=
  row <-! sql_wrap "GetCoordState" (sql_query (fun d => db_coord d !! groupID)) ;
  match row with
  | None => sql_throw ErrGroupNotFound
  | Some r => sql_ret (mkCoordState groupID (decode_peer <$> crow_active_view r)
      (if str_eqb (crow_token_holder r) "" then "" else decode_peer (crow_token_holder r))
      (crow_last_commit_hash r) (default time_zero (crow_last_commit_at r))
      (crow_pending_proposals r) (crow_history_chain r))
  end.

(** ** Messages *)

(** [INSERT OR IGNORE] under the unique index on [(group_id, envelope_hash)],
    which ignores rows without a hash. *)
Definition insert_message (row : MessageRow) (d : DB) : DB :=
  if negb (is_empty (mrow_envelope_hash row)) &&
     existsb (fun m => str_eqb (mrow_group_id m) (mrow_group_id row) &&
                       bytes_eqb (mrow_envelope_hash m) (mrow_envelope_hash row)) (db_messages d)
  then d
  else set_db_messages (db_messages d ++ [row]) d.

Definition message_row (msg : StoredMessage) : MessageRow :=
  mkMessageRow (sm_GroupID msg) (sm_Epoch msg) (peer_String (sm_SenderID msg)) (sm_Content msg)
    (sm_Timestamp msg) (sm_EnvelopeHash msg) None.

(** [SaveMessage] *)
Definition SaveMessage (msg : StoredMessage) : SQL unit :=
  sql_wrap "SaveMessage" (sql_uint64 (sm_Epoch msg) ;;! sql_exec (insert_message (message_row msg))).

(** [saveMessageTx] *)
Definition saveMessageTx (msg : StoredMessage) : SQL unit :=
  sql_uint64 (sm_Epoch msg) ;;! sql_exec (insert_message (message_row msg)).

(** [scanMessages] *)
Definition scan_message (m : MessageRow) : StoredMessage :=
  mkStoredMessage (hex_EncodeToString (mrow_envelope_hash m)) (mrow_group_id m) (mrow_epoch m)
    (decode_peer (mrow_sender_id m)) (mrow_content m) (mrow_hlc m) "" (mrow_envelope_hash m) 0
    (mrow_replayed_at m) "".

Definition scanMessages (rows : list MessageRow) : SQL (list StoredMessage) :=
  if existsb (fun m => is_empty (mrow_envelope_hash m)) rows
  then sql_throw (ErrText "scanMessages: missing envelope_hash")
  else sql_ret (scan_message <$> rows).

Definition hlc_asc (a b : MessageRow) : bool := Before (mrow_hlc a) (mrow_hlc b).
Definition hlc_desc (a b : MessageRow) : bool := Before (mrow_hlc b) (mrow_hlc a).

(** SQL [LIMIT l OFFSET o]; a negative limit means none. *)
Definition limit_offset {A} (l o : Z) (rows : list A) : list A :=
  let r := drop (Z.to_nat o) rows in if l <? 0 then r else take (Z.to_nat l) r.

(** [GetMessagesByOwnerInRange] *)
Definition GetMessagesByOwnerInRange (groupID senderID : string) (startMs endMs : Z)
  : SQL (list StoredMessage) :=
  rows <-! sql_wrap "GetMessagesByOwnerInRange" (sql_query (fun d =>
    stable_sort hlc_asc (filter (fun m =>
      mrow_group_id m = groupID /\ mrow_sender_id m = senderID /\
      startMs <= WallTimeMs (mrow_hlc m) /\ WallTimeMs (mrow_hlc m) <= endMs) (db_messages d)))) ;
  scanMessages rows.

(** [GetMessagesSince] *)
Definition GetMessagesSince (groupID : string) (after : HLCTimestamp) : SQL (list StoredMessage) :=
  rows <-! sql_wrap "GetMessagesSince" (sql_query (fun d =>
    stable_sort hlc_asc (filter (fun m =>
      mrow_group_id m = groupID /\
      (WallTimeMs after < WallTimeMs (mrow_hlc m) \/
       (WallTimeMs (mrow_hlc m) = WallTimeMs after /\ Counter after < Counter (mrow_hlc m)) \/
       (WallTimeMs (mrow_hlc m) = WallTimeMs after /\ Counter (mrow_hlc m) = Counter after /\
        str_ltb (NodeID after) (NodeID (mrow_hlc m)) = true))) (db_messages d)))) ;
  scanMessages rows.

(** [GetMessagesPaginated] *)
Definition GetMessagesPaginated (groupID : string) (limit offset : Z) : SQL (list StoredMessage) :=
  rows <-! sql_wrap "GetMessagesPaginated" (sql_query (fun d =>
    limit_offset limit offset (stable_sort hlc_desc
      (filter (fun m => mrow_group_id m = groupID) (db_messages d))))) ;
  scanMessages rows.

(** [MarkMessageReplayed] *)
Definition MarkMessageReplayed (groupID : string) (envelopeHash : bytes) (now : time) : SQL unit :=
  if is_empty envelopeHash then sql_ret tt
  else sql_wrap "MarkMessageReplayed" (sql_exec (fun d =>
    set_db_messages ((fun m =>
      if str_eqb (mrow_group_id m) groupID && bytes_eqb (mrow_envelope_hash m) envelopeHash
      then mkMessageRow (mrow_group_id m) (mrow_epoch m) (mrow_sender_id m) (mrow_content m)
             (mrow_hlc m) (mrow_envelope_hash m) (Some (UnixMilli now))
      else m) <$> db_messages d) d)).

(** [GetKnownGroupMembers]: the distinct senders seen in the group. *)
Definition GetKnownGroupMembers (groupID : string) : SQL (list string) :=
  sql_wrap "GetKnownGroupMembers" (sql_query (fun d =>
    remove_dups (mrow_sender_id <$> filter (fun m => mrow_group_id m = groupID) (db_messages d)))).

(** ** Applied envelopes *)

(** [hasAppliedEnvelopeTx] *)
Definition hasAppliedEnvelopeTx (groupID : string) (envelopeHash : bytes) : SQL bool :=
  sql_query (fun d => bool_decide (is_Some (db_applied d !! (groupID, envelopeHash)))).

(** [HasAppliedEnvelope] *)
Definition HasAppliedEnvelope (groupID : string) (envelopeHash : bytes) : SQL bool :=
  if is_empty envelopeHash then sql_ret false
  else sql_wrap "HasAppliedEnvelope"
         (sql_query (fun d => bool_decide (is_Some (db_applied d !! (groupID, envelopeHash))))).

(** [markEnvelopeAppliedSQL]: [INSERT OR IGNORE]. *)
Definition markEnvelopeAppliedSQL (groupID : string) (msgType : MessageType) (epoch : Z)
  (envelopeHash : bytes) : SQL unit :=
  sql_uint64 epoch ;;!
  now <-! sql_time ;
  sql_exec (fun d =>
    match db_applied d !! (groupID, envelopeHash) with
    | Some _ => d
    | None => set_db_applied (<[(groupID, envelopeHash) := (msgType, epoch, Unix now)]> (db_applied d)) d
    end).

(** The update of [MarkEnvelopeReplayState] and [markEnvelopeReplayStateTx]. *)
Definition replay_state_row (groupID : string) (h : bytes) (state : ReplayEnvelopeState)
  (lastErr : string) (now : time) (r : LogRow) : LogRow :=
  let e := lr_rec r in
  if str_eqb (er_GroupID e) groupID && bytes_eqb (er_EnvelopeHash e) h then
    mkLogRow (set_er_AppliedAt
      (if str_eqb state ReplayStateApplied || str_eqb state ReplayStateDuplicateApplied
       then Unix now else er_AppliedAt e)
      (set_er_LastApplyAttemptAt (Unix now) (set_er_LastApplyError lastErr (set_er_ApplyState state e))))
      (lr_created_at r)
  else r.

(** [markEnvelopeReplayStateTx] *)
Definition markEnvelopeReplayStateTx (groupID : string) (h : bytes) (state : ReplayEnvelopeState)
  (lastErr : string) (now : time) : SQL unit :=
  if is_empty h then sql_ret tt
  else sql_exec (fun d => set_db_log (replay_state_row groupID h state lastErr now <$> db_log d) d).

(** [MarkEnvelopeReplayState] *)
Definition MarkEnvelopeReplayState (groupID : string) (h : bytes) (state : ReplayEnvelopeState)
  (lastErr : string) (now : time) : SQL unit :=
  if is_empty h then sql_ret tt
  else sql_wrap "MarkEnvelopeReplayState"
         (sql_exec (fun d => set_db_log (replay_state_row groupID h state lastErr now <$> db_log d) d)).

(** [markEnvelopeAppliedTx] *)
Definition markEnvelopeAppliedTx (groupID : string) (msgType : MessageType) (epoch : Z)
  (h : bytes) : SQL unit :=
  markEnvelopeAppliedSQL groupID msgType epoch h ;;!
  now <-! sql_time ;
  markEnvelopeReplayStateTx groupID h ReplayStateApplied "" now.

(** [MarkEnvelopeApplied] *)
Definition MarkEnvelopeApplied (groupID : string) (msgType : MessageType) (epoch : Z)
  (h : bytes) : SQL unit :=
  if is_empty h then sql_ret tt
  else sql_tx "MarkEnvelopeApplied begin"
    (sql_wrap "MarkEnvelopeApplied" (markEnvelopeAppliedTx groupID msgType epoch h) ;;!
     sql_commit ;;! sql_ret (tt, true)).

(** ** The envelope log *)

Definition group_log (groupID : string) (d : DB) : list LogRow :=
  filter (fun r => er_GroupID (lr_rec r) = groupID) (db_log d).

(** [COALESCE(MAX(seq), 0)] *)
Definition max_seq (groupID : string) (d : DB) : Z :=
  foldr (fun r m => Z.max (er_Seq (lr_rec r)) m) 0 (group_log groupID d).

(** [INSERT OR IGNORE INTO envelope_dedup]: whether a row was inserted. *)
Definition dedup_insert (groupID : string) (h : bytes) : SQL bool :=
  now <-! sql_time ;
  fresh <-! sql_query (fun d => bool_decide (db_dedup d !! (groupID, h) = None)) ;
  (if fresh : bool then sql_exec (fun d => set_db_dedup (<[(groupID, h) := Unix now]> (db_dedup d)) d)
   else sql_ret tt) ;;!
  sql_ret fresh.

(** [UPDATE envelope_log SET received_at_ms] of a duplicate. *)
Definition touch_received (groupID : string) (h : bytes) : SQL unit :=
  now <-! sql_time ;
  sql_exec (fun d => set_db_log ((fun r =>
    if str_eqb (er_GroupID (lr_rec r)) groupID && bytes_eqb (er_EnvelopeHash (lr_rec r)) h
    then mkLogRow (set_er_ReceivedAtMs (UnixMilli now) (lr_rec r)) (lr_created_at r)
    else r) <$> db_log d) d).

(** [INSERT INTO envelope_log] *)
Definition log_insert (groupID : string) (next : Z) (msgType : MessageType) (epoch : Z)
  (ts : HLCTimestamp) (envelope h : bytes) (source state : string) (appliedAt : Z) (now : time)
  : SQL unit :=
  sql_uint64 epoch ;;!
  sql_exec (fun d => set_db_log (db_log d ++
    [mkLogRow (mkEnvelopeRecord next groupID msgType epoch envelope ts h source state "" 0
                 appliedAt (UnixMilli now) (UnixMilli now)) (Unix now)]) d).

(** [appendEnvelopeTx] *)
Definition appendEnvelopeTx (groupID : string) (msgType : MessageType) (epoch : Z)
  (ts : HLCTimestamp) (envelope : bytes) : SQL Z :=
  let hash := sha256_sum envelope in
  fresh <-! dedup_insert groupID hash ;
  if negb fresh then
    sql_ignore (touch_received groupID hash) ;;! sql_ret 0
  else
    next <-! sql_query (fun d => max_seq groupID d + 1) ;
    now <-! sql_time ;
    log_insert groupID next msgType epoch ts envelope hash "local" "applied" (Unix now) now ;;!
    sql_ret next.

(** [AppendEnvelopeWithSource]: the duplicate path returns without committing. *)
Definition AppendEnvelopeWithSource (groupID : string) (msgType : MessageType) (epoch : Z)
  (ts : HLCTimestamp) (envelope : bytes) (sourcePath : string) : SQL Z :=
  sql_tx "AppendEnvelope begin"
    (let hash := sha256_sum envelope in
     fresh <-! sql_wrap "AppendEnvelope dedup" (dedup_insert groupID hash) ;
     if negb fresh then
       sql_ignore (touch_received groupID hash) ;;! sql_ret (0, false)
     else
       let sourcePath := if TrimSpace_empty sourcePath then "local" else sourcePath in
       next <-! sql_wrap "AppendEnvelope seq" (sql_query (fun d => max_seq groupID d + 1)) ;
       now <-! sql_time ;
       sql_wrap "AppendEnvelope insert"
         (log_insert groupID next msgType epoch ts envelope hash sourcePath "pending" 0 now) ;;!
       sql_wrap "AppendEnvelope commit" sql_commit ;;!
       sql_ret (next, true)).

(** [AppendEnvelope] *)
Definition AppendEnvelope (groupID : string) (msgType : MessageType) (epoch : Z)
  (ts : HLCTimestamp) (envelope : bytes) : SQL Z :=
  AppendEnvelopeWithSource groupID msgType epoch ts envelope "local".

(** [ApplyCommit] *)
Definition ApplyCommit (rec : GroupRecord) (msgType : MessageType) (envelope : bytes)
  (ts : HLCTimestamp) (envEpoch : Z) : SQL (bool * Z) :=
  if str_eqb (gr_GroupID rec) "" || is_empty envelope then sql_throw (ErrText "ApplyCommit: invalid input")
  else sql_tx "ApplyCommit begin"
    (let hash := sha256_sum envelope in
     applied <-! sql_wrap "ApplyCommit has-applied" (hasAppliedEnvelopeTx (gr_GroupID rec) hash) ;
     if applied : bool then
       sql_wrap "ApplyCommit commit-noop" sql_commit ;;! sql_ret ((false, 0), true)
     else
       sql_wrap "ApplyCommit save-group" (saveGroupRecordTx rec) ;;!
       sql_wrap "ApplyCommit mark-applied"
         (markEnvelopeAppliedTx (gr_GroupID rec) msgType (gr_Epoch rec) hash) ;;!
       seq <-! sql_wrap "ApplyCommit append-envelope"
         (appendEnvelopeTx (gr_GroupID rec) msgType envEpoch ts envelope) ;
       sql_wrap "ApplyCommit commit" sql_commit ;;!
       sql_ret ((true, seq), true)).

(** The message with the envelope hash as its identity; [ApplyApplication]
    writes it through the caller's pointer. *)
Definition stamp_message (hash : bytes) (msg : StoredMessage) : StoredMessage :=
  set_sm_MessageID (hex_EncodeToString hash) (set_sm_EnvelopeHash hash msg).

(** [ApplyApplication] *)
Definition ApplyApplication (rec : GroupRecord) (msg : StoredMessage) (msgType : MessageType)
  (envelope : bytes) (ts : HLCTimestamp) (envEpoch : Z) : SQL (bool * Z) :=
  if str_eqb (gr_GroupID rec) "" || str_eqb (sm_GroupID msg) "" || is_empty envelope
  then sql_throw (ErrText "ApplyApplication: invalid input")
  else sql_tx "ApplyApplication begin"
    (let hash := sha256_sum envelope in
     let msg := stamp_message hash msg in
     applied <-! sql_wrap "ApplyApplication has-applied" (hasAppliedEnvelopeTx (gr_GroupID rec) hash) ;
     if applied : bool then
       sql_wrap "ApplyApplication commit-noop" sql_commit ;;! sql_ret ((false, 0), true)
     else
       sql_wrap "ApplyApplication save-group" (saveGroupRecordTx rec) ;;!
       sql_wrap "ApplyApplication save-message" (saveMessageTx msg) ;;!
       sql_wrap "ApplyApplication mark-applied"
         (markEnvelopeAppliedTx (gr_GroupID rec) msgType (gr_Epoch rec) hash) ;;!
       seq <-! sql_wrap "ApplyApplication append-envelope"
         (appendEnvelopeTx (gr_GroupID rec) msgType envEpoch ts envelope) ;
       sql_wrap "ApplyApplication commit" sql_commit ;;!
       sql_ret ((true, seq), true)).

Fixpoint save_messages (hash : bytes) (msgs : list StoredMessage) : SQL unit :=
  match msgs with
  | [] => sql_ret tt
  | msg :: rest =>
      sql_wrap "ApplyBatchedApplication save-message" (saveMessageTx (stamp_message hash msg)) ;;!
      save_messages hash rest
  end.

(** [ApplyBatchedApplication] *)
Definition ApplyBatchedApplication (rec : GroupRecord) (msgs : list StoredMessage)
  (msgType : MessageType) (envelope : bytes) (ts : HLCTimestamp) (envEpoch : Z) : SQL (bool * Z) :=
  if is_empty msgs || str_eqb (gr_GroupID rec) "" || is_empty envelope
  then sql_throw (ErrText "ApplyBatchedApplication: invalid input")
  else sql_tx "ApplyBatchedApplication begin"
    (let hash := sha256_sum envelope in
     applied <-! sql_wrap "ApplyBatchedApplication has-applied"
       (hasAppliedEnvelopeTx (gr_GroupID rec) hash) ;
     if applied : bool then
       sql_wrap "ApplyBatchedApplication commit-noop" sql_commit ;;! sql_ret ((false, 0), true)
     else
       sql_wrap "ApplyBatchedApplication save-group" (saveGroupRecordTx rec) ;;!
       save_messages hash msgs ;;!
       sql_wrap "ApplyBatchedApplication mark-applied"
         (markEnvelopeAppliedTx (gr_GroupID rec) msgType (gr_Epoch rec) hash) ;;!
       seq <-! sql_wrap "ApplyBatchedApplication append-envelope"
         (appendEnvelopeTx (gr_GroupID rec) msgType envEpoch ts envelope) ;
       sql_wrap "ApplyBatchedApplication commit" sql_commit ;;!
       sql_ret ((true, seq), true)).

(** ** Reading the log *)

Definition seq_asc (a b : EnvelopeRecord) : bool := er_Seq a <? er_Seq b.

(** [GetEnvelopesSince] *)
Definition GetEnvelopesSince (groupID : string) (afterSeq maxCount : Z) : SQL (list EnvelopeRecord) :=
  let maxCount := if maxCount <? 1 then 50 else maxCount in
  sql_wrap "GetEnvelopesSince" (sql_query (fun d =>
    take (Z.to_nat maxCount) (stable_sort seq_asc
      (filter (fun e => afterSeq < er_Seq e) (lr_rec <$> group_log groupID d))))).

(** Epoch first, then causal order. *)
Definition pending_less (a b : EnvelopeRecord) : bool :=
  (er_Epoch a <? er_Epoch b) || ((er_Epoch a =? er_Epoch b) && Before (er_Timestamp a) (er_Timestamp b)).

(** [GetPendingEnvelopes] *)
Definition GetPendingEnvelopes (groupID : string) (maxCount : Z) : SQL (list EnvelopeRecord) :=
  let maxCount := if maxCount <? 1 then 100 else maxCount in
  sql_wrap "GetPendingEnvelopes" (sql_query (fun d =>
    take (Z.to_nat maxCount) (stable_sort pending_less
      (filter (fun e => er_ApplyState e ∈ ["pending"; "RECEIVED"; "READY"; "FUTURE_EPOCH";
         "PERSIST_FAILED"; "BLOCKED_MISSING_PRIOR_EPOCH"; "BLOCKED_MISSING_COMMIT";
         "FORK_CONFLICT"; "WAITING_SYNC"; "future_epoch"; "persist_failed"])
        (lr_rec <$> group_log groupID d))))).

(** [GetEnvelope] *)
Definition GetEnvelope (envelopeHash : bytes) : SQL (option EnvelopeRecord) :=
  sql_wrap "GetEnvelope" (sql_query (fun d =>
    head (filter (fun e => er_EnvelopeHash e = envelopeHash) (lr_rec <$> db_log d)))).

(** [GetLatestSeq] *)
Definition GetLatestSeq (groupID : string) : SQL Z :=
  sql_wrap "GetLatestSeq" (sql_query (max_seq groupID)).

(** [ListEnvelopeStateCounts] *)
Definition ListEnvelopeStateCounts (groupID : string) : SQL (gmap string Z) :=
  sql_wrap "ListEnvelopeStateCounts" (sql_query (fun d =>
    foldr (fun r (m : gmap string Z) =>
      let s := er_ApplyState (lr_rec r) in <[s := default 0 (m !! s) + 1]> m) ∅ (group_log groupID d))).

(** The row a [SELECT id ... ORDER BY seq ASC LIMIT 1] picks, removed. *)
Definition oldest_seq (groupID : string) (l : list LogRow) : Z :=
  match filter (fun r => er_GroupID (lr_rec r) = groupID) l with
  | [] => 0
  | r :: rest => foldr (fun x m => Z.min (er_Seq (lr_rec x)) m) (er_Seq (lr_rec r)) rest
  end.

Fixpoint delete_first (groupID : string) (s : Z) (l : list LogRow) : list LogRow :=
  match l with
  | [] => []
  | r :: rest =>
      if str_eqb (er_GroupID (lr_rec r)) groupID && (er_Seq (lr_rec r) =? s) then rest
      else r :: delete_first groupID s rest
  end.

(** [for cnt > maxPerGroup { DELETE oldest; removed++; cnt-- }] *)
Fixpoint prune_cap (n : nat) (groupID : string) (removed : Z) : SQL Z :=
  match n with
  | O => sql_ret removed
  | S n' =>
      sql_wrap "PruneEnvelopes cap" (sql_exec (fun d =>
        set_db_log (delete_first groupID (oldest_seq groupID (db_log d)) (db_log d)) d)) ;;!
      prune_cap n' groupID (removed + 1)
  end.

Fixpoint prune_groups (groups : list string) (maxPerGroup removed : Z) : SQL Z :=
  match groups with
  | [] => sql_ret removed
  | gid :: rest =>
      cnt <-! sql_query (fun d => Z.of_nat (length (group_log gid d))) ;
      removed <-! prune_cap (Z.to_nat (cnt - maxPerGroup)) gid removed ;
      prune_groups rest maxPerGroup removed
  end.

(** [PruneEnvelopes] *)
Definition PruneEnvelopes (cutoffUnix maxPerGroup : Z) : SQL Z :=
  removed <-! sql_wrap "PruneEnvelopes age" (
    n <-! sql_query (fun d => Z.of_nat (length (filter (fun r => lr_created_at r < cutoffUnix) (db_log d)))) ;
    sql_exec (fun d => set_db_log (filter (fun r => ~ lr_created_at r < cutoffUnix) (db_log d)) d) ;;!
    sql_ret n) ;
  sql_ignore (sql_exec (fun d =>
    set_db_dedup (filter (fun kv => ~ kv.2 < cutoffUnix) (db_dedup d)) d)) ;;!
  if maxPerGroup <? 1 then sql_ret removed
  else
    groups <-! sql_wrap "PruneEnvelopes list groups" (sql_query (fun d =>
      remove_dups ((fun r => er_GroupID (lr_rec r)) <$> db_log d))) ;
    prune_groups groups maxPerGroup removed.

(** ** Acknowledgements and cursors *)

(** [RecordSyncAck]: the acknowledged sequence number never decreases. *)
Definition RecordSyncAck (peerID groupID : string) (ackedSeq : Z) : SQL unit :=
  now <-! sql_time ;
  sql_wrap "RecordSyncAck" (sql_exec (fun d =>
    let v := match db_sync_acks d !! (peerID, groupID) with
             | None => ackedSeq
             | Some (old, _) => if ackedSeq >? old then ackedSeq else old
             end in
    set_db_sync_acks (<[(peerID, groupID) := (v, Unix now)]> (db_sync_acks d)) d)).

(** [GetSyncAck] *)
Definition GetSyncAck (peerID groupID : string) : SQL Z :=
  sql_wrap "GetSyncAck" (sql_query (fun d =>
    match db_sync_acks d !! (peerID, groupID) with Some (ack, _) => ack | None => 0 end)).

Fixpoint min_acked (groupID : string) (minAck : Z) (peerIDs : list string) : SQL Z :=
  match peerIDs with
  | [] => sql_ret minAck
  | pid :: rest =>
      ack <-! GetSyncAck pid groupID ;
      min_acked groupID (if (minAck <? 0) || (ack <? minAck) then ack else minAck) rest
  end.

(** [GetMinAckedSeq] *)
Definition GetMinAckedSeq (groupID : string) (peerIDs : list string) : SQL Z :=
  if is_empty peerIDs then sql_ret 0
  else
    minAck <-! min_acked groupID (-1) peerIDs ;
    sql_ret (if minAck <? 0 then 0 else minAck).

(** [EnqueuePendingDeliveryAck] *)
Definition EnqueuePendingDeliveryAck (target groupID : string) (ackedSeq : Z) : SQL unit :=
  now <-! sql_time ;
  sql_wrap "EnqueuePendingDeliveryAck" (sql_exec (fun d =>
    if existsb (fun r => str_eqb (pda_TargetPeerID r) target && str_eqb (pda_GroupID r) groupID)
         (db_delivery_acks d)
    then set_db_delivery_acks ((fun r =>
      if str_eqb (pda_TargetPeerID r) target && str_eqb (pda_GroupID r) groupID
      then mkPendingDeliveryAckRow (pda_ID r) target groupID
             (if ackedSeq >? pda_AckedSeq r then ackedSeq else pda_AckedSeq r)
      else r) <$> db_delivery_acks d) d
    else set_db_delivery_ack_id (db_delivery_ack_id d + 1)
           (set_db_delivery_acks (db_delivery_acks d ++
              [mkPendingDeliveryAckRow (db_delivery_ack_id d + 1) target groupID ackedSeq]) d))).

(** [ListPendingDeliveryAcksForTarget] *)
Definition ListPendingDeliveryAcksForTarget (target : string) : SQL (list PendingDeliveryAckRow) :=
  sql_wrap "ListPendingDeliveryAcksForTarget"
    (sql_query (fun d => filter (fun r => pda_TargetPeerID r = target) (db_delivery_acks d))).

(** [DeletePendingDeliveryAck] *)
Definition DeletePendingDeliveryAck (id : Z) : SQL unit :=
  sql_exec (fun d => set_db_delivery_acks (filter (fun r => pda_ID r <> id) (db_delivery_acks d)) d).

(** [GetOfflinePullCursor] and [SetOfflinePullCursor] *)
Definition GetOfflinePullCursor (groupID remote : string) : SQL Z :=
  sql_wrap "GetOfflinePullCursor" (sql_query (fun d => default 0 (db_pull_cursors d !! (groupID, remote)))).
Definition SetOfflinePullCursor (groupID remote : string) (seq : Z) : SQL unit :=
  sql_wrap "SetOfflinePullCursor" (sql_exec (fun d =>
    set_db_pull_cursors (<[(groupID, remote) := seq]> (db_pull_cursors d)) d)).

End Operations.
End Store.
