(* ===== verification/StoreSpec.v ===== *)
(** * Correctness of the coordination storage

    Transactions are all-or-nothing, an envelope is applied at most once, the
    envelope log keeps its invariant and serves cursors without loss. *)
From S2P Require Import Prelude Sha256 Types SingleWriter Database Store.
Import Store.

Section Spec.
Context {PC : PeerCodec}.

(** ** Applied envelopes only accumulate *)

Definition applied_mono (d d' : DB) : Prop :=
  forall k, is_Some (db_applied d !! k) -> is_Some (db_applied d' !! k).

#[export] Instance applied_mono_preorder : PreOrder applied_mono.
Proof. split; [by intros ? ?|]. intros ? ? ? H1 H2 k Hk. by apply H2, H1. Qed.

Lemma applied_mono_eq d d' : db_applied d' = db_applied d -> applied_mono d d'.
Proof. intros E k. by rewrite E. Qed.

Lemma insert_message_applied row d : db_applied (insert_message row d) = db_applied d.
Proof. unfold insert_message. by case_match. Qed.

Ltac applied_auto := repeat (sql_step || (apply applied_mono_eq; reflexivity)).

Lemma saveGroup_applied rec : respects applied_mono (saveGroupRecordTx rec).
Proof. unfold saveGroupRecordTx. applied_auto. Qed.

Lemma saveMessage_applied m : respects applied_mono (saveMessageTx m).
Proof. unfold saveMessageTx. applied_auto. apply applied_mono_eq, insert_message_applied. Qed.

Lemma save_messages_applied h ms : respects applied_mono (save_messages h ms).
Proof. induction ms; simpl; applied_auto; [apply saveMessage_applied|done]. Qed.

Lemma markAppliedSQL_applied g ty e h : respects applied_mono (markEnvelopeAppliedSQL g ty e h).
Proof.
  unfold markEnvelopeAppliedSQL. applied_auto.
  match goal with |- context [db_applied ?d !! (g, h)] =>
    destruct (db_applied d !! (g, h)) eqn:E; [reflexivity|] end.
  intros k Hk. simpl. destruct (decide (k = (g, h))) as [->|]; simplify_map_eq; eauto.
Qed.

Lemma replayStateTx_applied g h s e now : respects applied_mono (markEnvelopeReplayStateTx g h s e now).
Proof. unfold markEnvelopeReplayStateTx. applied_auto. Qed.

Lemma markAppliedTx_applied g ty e h : respects applied_mono (markEnvelopeAppliedTx g ty e h).
Proof.
  unfold markEnvelopeAppliedTx. applied_auto; auto using markAppliedSQL_applied, replayStateTx_applied.
Qed.

Lemma dedup_applied g h : respects applied_mono (dedup_insert g h).
Proof. unfold dedup_insert. applied_auto. Qed.

Lemma appendTx_applied g ty e ts w : respects applied_mono (appendEnvelopeTx g ty e ts w).
Proof.
  unfold appendEnvelopeTx, touch_received, log_insert. applied_auto. apply dedup_applied.
Qed.

(** What marking an envelope leaves behind. *)
Lemma markAppliedTx_marks g ty e h env t d u t' d' :
  markEnvelopeAppliedTx g ty e h env t d = (inl u, t', d') -> is_Some (db_applied d' !! (g, h)).
Proof.
  unfold markEnvelopeAppliedTx, markEnvelopeAppliedSQL. intros H. sql_inv.
  match goal with Hr : markEnvelopeReplayStateTx _ _ _ _ _ _ _ ?d1 = _ |- _ =>
    apply (respects_ensures applied_mono _ (replayStateTx_applied g h _ _ _)) in Hr; apply Hr end.
  case_match; [by eauto|]. simpl. rewrite lookup_insert_eq. by eauto.
Qed.

(** ** The promise of an apply operation to its callers

    It is atomic; it reports "applied" only for an envelope that was not
    applied before and is afterwards; on an applied envelope it changes
    nothing and does not report "applied". *)
Class AppliesOnce (groupID : string) (h : bytes) (m : SQL (bool * Z)) : Prop := {
  ao_atomic : atomic m;
  ao_mono : respects applied_mono m;
  ao_fresh : forall env t d s t' d', m env t d = (inl (true, s), t', d') ->
    db_applied d !! (groupID, h) = None /\ is_Some (db_applied d' !! (groupID, h));
  ao_seen : forall env t d r t' d', is_Some (db_applied d !! (groupID, h)) ->
    m env t d = (r, t', d') -> d' = d /\ forall s, r <> inl (true, s);
}.

Lemma throw_applies_once g h e : AppliesOnce g h (sql_throw e).
Proof.
  split; [auto with coord| |done|].
  - apply respects_readonly; [apply _|done].
  - by intros env t d r t' d' _ [= <- <- <-].
Qed.

(** The shape shared by the three apply operations. *)
Lemma tx_applies_once c c1 c2 g h (work : SQL (bool * Z * bool)) :
  (forall env t d r t' d', work env t d = (inl r, t', d') ->
     r.2 = true /\ applied_mono d d' /\ is_Some (db_applied d' !! (g, h))) ->
  AppliesOnce g h (sql_tx c (applied <-! sql_wrap c1 (hasAppliedEnvelopeTx g h) ;
    if applied : bool then sql_wrap c2 sql_commit ;;! sql_ret ((false, 0), true) else work)).
Proof.
  intros Hw. unfold hasAppliedEnvelopeTx. split; [auto with coord| | |].
  - apply respects_tx; [apply _|]. intros env t d r t' d' H. sql_inv. case_match; sql_inv; [reflexivity|].
    by eapply Hw.
  - intros env t d s t' d' H. apply tx_inl in H as [(d1 & H & ->)|H]; sql_inv;
      case_match; sql_inv; apply Hw in H as (? & Hm & Hk); [done|].
    split; [|done]. apply eq_None_not_Some. by eapply bool_decide_eq_false_1.
  - intros env t d r t' d' Hs. unfold sql_tx, sql_bind, sql_wrap, sql_query, sql_commit, sql_exec.
    rewrite bool_decide_eq_true_2 by done.
    destruct (sql_fails env t), (sql_fails env (S t)), (sql_fails env (S (S t)));
      unfold sql_ret; intros; simplify_eq; done.
Qed.

(** A step that marks the envelope, between steps that keep what is applied. *)
Lemma marks_between {A} d1 d2 d' g ty e h env t u t' (rest : SQL A) env' t2 b t3 :
  applied_mono d1 d2 ->
  markEnvelopeAppliedTx g ty e h env t d2 = (inl u, t', d') ->
  respects applied_mono rest ->
  forall d'', rest env' t2 d' = (inl b, t3, d'') ->
  applied_mono d1 d'' /\ is_Some (db_applied d'' !! (g, h)).
Proof.
  intros H1 Hm Hr d'' Er. apply respects_ensures in Hr. apply Hr in Er.
  split; [|by apply Er; eapply markAppliedTx_marks].
  etrans; [exact H1|]. etrans; [|exact Er]. by eapply respects_ensures, Hm; apply markAppliedTx_applied.
Qed.

#[export] Instance ApplyCommit_once rec ty envelope ts e :
  AppliesOnce (gr_GroupID rec) (sha256_sum envelope) (ApplyCommit rec ty envelope ts e).
Proof.
  unfold ApplyCommit. case_match; [apply throw_applies_once|]. apply tx_applies_once.
  intros env t d r t' d' Hw. sql_inv. split; [done|].
  eapply marks_between; [|eassumption|apply appendTx_applied|eassumption].
  by eapply (respects_ensures _ _ (saveGroup_applied rec)).
Qed.

#[export] Instance ApplyApplication_once rec msg ty envelope ts e :
  AppliesOnce (gr_GroupID rec) (sha256_sum envelope) (ApplyApplication rec msg ty envelope ts e).
Proof.
  unfold ApplyApplication. case_match; [apply throw_applies_once|]. apply tx_applies_once.
  intros env t d r t' d' Hw. sql_inv. split; [done|].
  eapply marks_between; [|eassumption|apply appendTx_applied|eassumption].
  etrans; [by eapply (respects_ensures _ _ (saveGroup_applied rec))|].
  by eapply (respects_ensures _ _ (saveMessage_applied _)).
Qed.

#[export] Instance ApplyBatchedApplication_once rec msgs ty envelope ts e :
  AppliesOnce (gr_GroupID rec) (sha256_sum envelope) (ApplyBatchedApplication rec msgs ty envelope ts e).
Proof.
  unfold ApplyBatchedApplication. case_match; [apply throw_applies_once|]. apply tx_applies_once.
  intros env t d r t' d' Hw. sql_inv. split; [done|].
  eapply marks_between; [|eassumption|apply appendTx_applied|eassumption].
  etrans; [by eapply (respects_ensures _ _ (saveGroup_applied rec))|].
  by eapply (respects_ensures _ _ (save_messages_applied _ _)).
Qed.

(** ** Histories of storage calls *)

Inductive storage_op :=
| OpCommit (rec : GroupRecord) (ty : MessageType) (envelope : bytes) (ts : HLCTimestamp) (e : Z)
| OpApplication (rec : GroupRecord) (msg : StoredMessage) (ty : MessageType) (envelope : bytes)
    (ts : HLCTimestamp) (e : Z)
| OpBatched (rec : GroupRecord) (msgs : list StoredMessage) (ty : MessageType) (envelope : bytes)
    (ts : HLCTimestamp) (e : Z)
| OpAppend (g : string) (ty : MessageType) (e : Z) (ts : HLCTimestamp) (envelope : bytes) (src : string)
| OpMarkApplied (g : string) (ty : MessageType) (e : Z) (h : bytes)
| OpReplayState (g : string) (h : bytes) (st : ReplayEnvelopeState) (msg : string) (now : time)
| OpPrune (cutoff cap : Z).

(** The result is kept for the operations that report "applied". *)
Definition run_op (o : storage_op) : SQL (bool * Z) :=
  match o with
  | OpCommit rec ty w ts e => ApplyCommit rec ty w ts e
  | OpApplication rec msg ty w ts e => ApplyApplication rec msg ty w ts e
  | OpBatched rec msgs ty w ts e => ApplyBatchedApplication rec msgs ty w ts e
  | OpAppend g ty e ts w src => AppendEnvelopeWithSource g ty e ts w src ;;! sql_ret (false, 0)
  | OpMarkApplied g ty e h => MarkEnvelopeApplied g ty e h ;;! sql_ret (false, 0)
  | OpReplayState g h st msg now => MarkEnvelopeReplayState g h st msg now ;;! sql_ret (false, 0)
  | OpPrune c m => PruneEnvelopes c m ;;! sql_ret (false, 0)
  end.

(** The envelope an operation is about. *)
Definition op_key (o : storage_op) : option (string * bytes) :=
  match o with
  | OpCommit rec _ w _ _ | OpApplication rec _ _ w _ _ | OpBatched rec _ _ w _ _ =>
      Some (gr_GroupID rec, sha256_sum w)
  | _ => None
  end.

(** Run a history from the empty statement counter on, whatever fails, and
    collect the envelopes reported as applied. *)
Fixpoint applied_by (ops : list storage_op) (env : SqlEnv) (t : nat) (d : DB) : list (string * bytes) :=
  match ops with
  | [] => []
  | o :: rest =>
      match run_op o env t d with
      | (inl (true, _), t', d') => option_list (op_key o) ++ applied_by rest env t' d'
      | (_, t', d') => applied_by rest env t' d'
      end
  end.

Lemma prune_cap_applied n g r : respects applied_mono (prune_cap n g r).
Proof. revert r. induction n; intros; simpl; applied_auto. apply IHn. Qed.
Lemma prune_groups_applied gs m r : respects applied_mono (prune_groups gs m r).
Proof. revert r. induction gs; intros; simpl; applied_auto; [apply prune_cap_applied|apply IHgs]. Qed.

Lemma run_op_mono o : respects applied_mono (run_op o).
Proof.
  destruct o; simpl; try apply ao_mono; unfold AppendEnvelopeWithSource, MarkEnvelopeApplied,
    MarkEnvelopeReplayState, PruneEnvelopes, touch_received, log_insert; applied_auto;
    auto using dedup_applied, markAppliedTx_applied, prune_groups_applied.
Qed.

Lemma run_op_applied o env t d s t' d' :
  run_op o env t d = (inl (true, s), t', d') ->
  exists k, op_key o = Some k /\ db_applied d !! k = None /\ is_Some (db_applied d' !! k).
Proof.
  destruct o; simpl; intros E; try (sql_inv; done);
    (eexists; split; [done|]; refine (ao_fresh _ _ _ _ _ _ E)).
Qed.

Lemma applied_mono_None d d' k : applied_mono d d' -> db_applied d' !! k = None -> db_applied d !! k = None.
Proof. intros Hm. rewrite !eq_None_not_Some. auto. Qed.

(** C25: over any history of storage calls, with any statements failing, an
    envelope is reported as applied at most once, and never if it had been
    applied before the history began. *)
Theorem envelope_applied_at_most_once ops env t d :
  NoDup (applied_by ops env t d) /\
  forall k, k ∈ applied_by ops env t d -> db_applied d !! k = None.
Proof.
  revert t d. induction ops as [|o ops IH]; intros t d; simpl.
  { split; [constructor|]. intros k Hk. by apply not_elem_of_nil in Hk. }
  pose proof (run_op_mono o env t d) as Hm.
  destruct (run_op o env t d) as [[[[[] s]|e] t'] d'] eqn:E; simpl in Hm;
    destruct (IH t' d') as [Hn Hk]; try (split; [done|]; eauto using applied_mono_None).
  apply run_op_applied in E as (k & -> & Hnone & Hsome). simpl. split.
  - constructor; [|done]. intros Hin. apply Hk, eq_None_not_Some in Hin. done.
  - intros k'. rewrite elem_of_cons. intros [->|Hk']; [done|]. eauto using applied_mono_None.
Qed.

(** ** Effects of a successful apply *)

(** Fields other than those an operation writes stay as they are. *)
Lemma saveGroupTx_inl rec env t d u t' d' :
  saveGroupRecordTx rec env t d = (inl u, t', d') ->
  d' = set_db_groups (<[gr_GroupID rec := upsert_group env rec (db_groups d !! gr_GroupID rec)]> (db_groups d)) d
  /\ validateGroupRecordForSave rec = None.
Proof.
  unfold saveGroupRecordTx. destruct (validateGroupRecordForSave rec); [done|]. intros H.
  apply bind_inl in H as (? & ? & ? & H1 & H). apply uint64_inl in H1 as [_ ->].
  by apply exec_inl in H as [-> _].
Qed.

Lemma saveMessageTx_inl m env t d u t' d' :
  saveMessageTx m env t d = (inl u, t', d') -> d' = insert_message (message_row m) d.
Proof. unfold saveMessageTx. intros H. by sql_inv. Qed.

(** Marking touches the applied set and the log only. *)
Definition keeps_groups (d d' : DB) : Prop := db_groups d' = db_groups d.
Definition keeps_messages (d d' : DB) : Prop := db_messages d' = db_messages d.
#[export] Instance keeps_groups_preorder : PreOrder keeps_groups.
Proof. split; [done|]. unfold keeps_groups. intros ? ? ? ? ?. congruence. Qed.
#[export] Instance keeps_messages_preorder : PreOrder keeps_messages.
Proof. split; [done|]. unfold keeps_messages. intros ? ? ? ? ?. congruence. Qed.

Lemma markTx_keeps g ty e h :
  respects keeps_groups (markEnvelopeAppliedTx g ty e h) /\
  respects keeps_messages (markEnvelopeAppliedTx g ty e h).
Proof.
  unfold markEnvelopeAppliedTx, markEnvelopeAppliedSQL, markEnvelopeReplayStateTx.
  split; repeat (sql_step || (unfold keeps_groups, keeps_messages; case_match; reflexivity) || reflexivity).
Qed.

Lemma appendTx_keeps g ty e ts w :
  respects keeps_groups (appendEnvelopeTx g ty e ts w) /\
  respects keeps_messages (appendEnvelopeTx g ty e ts w).
Proof.
  unfold appendEnvelopeTx, dedup_insert, touch_received, log_insert.
  split; repeat (sql_step || reflexivity).
Qed.

Definition has_message (g : string) (h : bytes) (d : DB) : bool :=
  existsb (fun m => str_eqb (mrow_group_id m) g && bytes_eqb (mrow_envelope_hash m) h) (db_messages d).

Lemma insert_message_spec row d :
  mrow_envelope_hash row <> [] ->
  db_messages (insert_message row d) =
    if has_message (mrow_group_id row) (mrow_envelope_hash row) d then db_messages d
    else db_messages d ++ [row].
Proof.
  intros Hne. unfold insert_message, has_message. apply is_empty_false in Hne. rewrite Hne. simpl.
  by case_match.
Qed.

Lemma sha256_nonempty w : sha256_sum w <> [].
Proof. intros E. pose proof (Sha256.length_sha256 w) as H. by rewrite E in H. Qed.

Lemma insert_message_groups row d : db_groups (insert_message row d) = db_groups d.
Proof. unfold insert_message. by case_match. Qed.

Lemma mark_append_keeps g ty e h env t d u t1 d1 g' ty' e' ts w t2 r t3 d2 :
  markEnvelopeAppliedTx g ty e h env t d = (inl u, t1, d1) ->
  appendEnvelopeTx g' ty' e' ts w env t2 d1 = (inl r, t3, d2) ->
  db_groups d2 = db_groups d /\ db_messages d2 = db_messages d.
Proof.
  intros Hm Ha. destruct (markTx_keeps g ty e h) as [M1 M2].
  destruct (appendTx_keeps g' ty' e' ts w) as [A1 A2].
  specialize (M1 env t d). specialize (M2 env t d). rewrite Hm in M1, M2.
  specialize (A1 env t2 d1). specialize (A2 env t2 d1). rewrite Ha in A1, A2.
  unfold keeps_groups, keeps_messages in *. simpl in *. split; congruence.
Qed.

Lemma stored_has_message g h d row :
  mrow_group_id row = g -> mrow_envelope_hash row = h ->
  existsb (fun m => str_eqb (mrow_group_id m) g && bytes_eqb (mrow_envelope_hash m) h)
    (if has_message g h d then db_messages d else db_messages d ++ [row]) = true.
Proof.
  intros <- <-. destruct (has_message _ _ d) eqn:E; [exact E|].
  rewrite existsb_app. simpl. by rewrite str_eqb_refl, bytes_eqb_refl, orb_true_r.
Qed.

(** A successful [ApplyApplication] that reports "applied" has stored
    the group state and the message under its envelope hash; one that fails
    at any statement has stored nothing. *)
Theorem apply_application_all_or_nothing rec msg ty w ts e env t d r t' d' :
  ApplyApplication rec msg ty w ts e env t d = (r, t', d') ->
  match r with
  | inr _ => d' = d
  | inl (false, s) => d' = d /\ s = 0 /\ is_Some (db_applied d !! (gr_GroupID rec, sha256_sum w))
  | inl (true, _) =>
      is_Some (db_applied d' !! (gr_GroupID rec, sha256_sum w)) /\
      (exists row, db_groups d' !! gr_GroupID rec = Some row /\
         gr_GroupState (grow_rec row) = gr_GroupState rec /\ gr_Epoch (grow_rec row) = gr_Epoch rec) /\
      has_message (sm_GroupID msg) (sha256_sum w) d' = true /\
      (forall g, g <> gr_GroupID rec -> db_groups d' !! g = db_groups d !! g)
  end.
Proof.
  intros E. destruct r as [[[] s]|err]; [| |exact (ao_atomic _ _ _ _ _ _ E)].
  - destruct (ao_fresh _ _ _ _ _ _ E) as [_ Happ]. split; [done|].
    unfold ApplyApplication in E. case_match; [done|].
    apply tx_inl in E as [(d1 & E & ->)|E]; sql_inv; unfold hasAppliedEnvelopeTx in *; sql_inv;
      case_match; sql_inv.
    repeat match goal with
    | Hs : saveGroupRecordTx _ _ _ _ = _ |- _ => apply saveGroupTx_inl in Hs as [-> _]
    | Hs : saveMessageTx _ _ _ _ = _ |- _ => apply saveMessageTx_inl in Hs as ->
    | Hm : markEnvelopeAppliedTx _ _ _ _ _ _ _ = _, Ha : appendEnvelopeTx _ _ _ _ _ _ _ _ = _ |- _ =>
        destruct (mark_append_keeps _ _ _ _ _ _ _ _ _ _ _ _ _ _ _ _ _ _ _ Hm Ha) as [Hg Hs]; clear Hm Ha
    end.
    rewrite Hg. unfold has_message. rewrite Hs, insert_message_groups. simpl. split_and!.
    + eexists. split; [apply lookup_insert_eq|]. unfold upsert_group. case_match; split; reflexivity.
    + rewrite insert_message_spec by apply sha256_nonempty. by apply stored_has_message.
    + intros g Hne. by apply lookup_insert_ne.
  - unfold ApplyApplication in E. case_match; [done|].
    apply tx_inl in E as [(d1 & E & ->)|E]; sql_inv; unfold hasAppliedEnvelopeTx in *; sql_inv;
      case_match; sql_inv. split_and!; [done..|]. by eapply bool_decide_eq_true_1.
Qed.

(** ** Batched messages *)

Lemma has_message_insert row d :
  mrow_envelope_hash row <> [] ->
  has_message (mrow_group_id row) (mrow_envelope_hash row) (insert_message row d) = true.
Proof.
  intros Hne. unfold has_message at 1. rewrite insert_message_spec by done.
  by apply stored_has_message.
Qed.

Lemma insert_message_seen row d :
  mrow_envelope_hash row <> [] ->
  has_message (mrow_group_id row) (mrow_envelope_hash row) d = true -> insert_message row d = d.
Proof.
  intros Hne Hs. unfold insert_message. apply is_empty_false in Hne. rewrite Hne.
  unfold has_message in Hs. by rewrite Hs.
Qed.

Lemma save_messages_seen g w msgs env t d u t' d' :
  Forall (fun m => sm_GroupID m = g) msgs ->
  has_message g (sha256_sum w) d = true ->
  save_messages (sha256_sum w) msgs env t d = (inl u, t', d') -> d' = d.
Proof.
  intros Hg. revert t d. induction Hg as [|m msgs Hm _ IH]; intros t d Hs E; simpl in E; [by sql_inv|].
  sql_inv. match goal with Hx : saveMessageTx _ _ _ _ = _ |- _ => apply saveMessageTx_inl in Hx as -> end.
  rewrite insert_message_seen in E; [by eapply IH|apply sha256_nonempty|by simpl; rewrite Hm].
Qed.

(** Of a batch of messages of the group only the first is stored: every
    message of the batch gets the hash of the common envelope, and the unique
    index on the hash makes the store skip the others. *)
Theorem batched_apply_keeps_first_message_only rec msg rest ty w ts e env t d s t' d' :
  Forall (fun m => sm_GroupID m = sm_GroupID msg) rest ->
  has_message (sm_GroupID msg) (sha256_sum w) d = false ->
  ApplyBatchedApplication rec (msg :: rest) ty w ts e env t d = (inl (true, s), t', d') ->
  db_messages d' = db_messages d ++ [message_row (stamp_message (sha256_sum w) msg)].
Proof.
  intros Hg Hf E. unfold ApplyBatchedApplication in E. case_match; [done|].
  apply tx_inl in E as [(d1 & E & ->)|E]; sql_inv; unfold hasAppliedEnvelopeTx in *; sql_inv;
    case_match; sql_inv.
  match goal with Hs : save_messages _ _ _ _ _ = _ |- _ => simpl in Hs end. sql_inv.
  repeat match goal with
  | Hs : saveGroupRecordTx _ _ _ _ = _ |- _ => apply saveGroupTx_inl in Hs as [-> _]
  | Hs : saveMessageTx _ _ _ _ = _ |- _ => apply saveMessageTx_inl in Hs as ->
  | Hs : save_messages _ _ _ _ _ = _ |- _ =>
      apply (save_messages_seen (sm_GroupID msg)) in Hs;
        [subst|done|apply (has_message_insert (message_row (stamp_message (sha256_sum w) msg)));
                    apply sha256_nonempty]
  | Hm : markEnvelopeAppliedTx _ _ _ _ _ _ _ = _, Ha : appendEnvelopeTx _ _ _ _ _ _ _ _ = _ |- _ =>
      destruct (mark_append_keeps _ _ _ _ _ _ _ _ _ _ _ _ _ _ _ _ _ _ _ Hm Ha) as [_ Hs]; clear Hm Ha
  end.
  rewrite Hs, insert_message_spec by apply sha256_nonempty.
  unfold has_message in *. simpl in *. by rewrite Hf.
Qed.

(** ** The envelope log invariant *)

Definition log_seq_key (r : LogRow) : string * Z := (er_GroupID (lr_rec r), er_Seq (lr_rec r)).
Definition log_hash_key (r : LogRow) : string * bytes := (er_GroupID (lr_rec r), er_EnvelopeHash (lr_rec r)).
Definition msg_key (m : MessageRow) : string * bytes := (mrow_group_id m, mrow_envelope_hash m).
Definition hashed (m : MessageRow) : Prop := mrow_envelope_hash m <> [].

Record log_inv (log : list LogRow) (dedup : gmap (string * bytes) Z) (msgs : list MessageRow) : Prop := {
  lo_seq : NoDup (log_seq_key <$> log);
  lo_pos : Forall (fun r => 1 <= er_Seq (lr_rec r)) log;
  lo_hash : Forall (fun r => er_EnvelopeHash (lr_rec r) = sha256_sum (er_Envelope (lr_rec r))) log;
  lo_unique : NoDup (log_hash_key <$> log);
  lo_dedup : Forall (fun r => is_Some (dedup !! log_hash_key r)) log;
  lo_msgs : NoDup (msg_key <$> filter hashed msgs);
}.
Definition log_ok (d : DB) : Prop := log_inv (db_log d) (db_dedup d) (db_messages d).
Definition log_keep (d d' : DB) : Prop := log_ok d -> log_ok d'.

#[export] Instance log_keep_preorder : PreOrder log_keep.
Proof. split; unfold log_keep; [by intros ? ?|]. intros ? ? ? H1 H2 H3. auto. Qed.

Lemma log_inv_map f log dd ms :
  (forall r, er_GroupID (lr_rec (f r)) = er_GroupID (lr_rec r) /\ er_Seq (lr_rec (f r)) = er_Seq (lr_rec r) /\
     er_EnvelopeHash (lr_rec (f r)) = er_EnvelopeHash (lr_rec r) /\
     er_Envelope (lr_rec (f r)) = er_Envelope (lr_rec r)) ->
  log_inv log dd ms -> log_inv (f <$> log) dd ms.
Proof.
  intros Hf [H1 H2 H3 H4 H5 H6].
  assert (Hk : log_seq_key <$> (f <$> log) = log_seq_key <$> log).
  { rewrite <-list_fmap_compose. apply list_fmap_ext. intros _ r _. unfold log_seq_key; simpl.
    destruct (Hf r) as (-> & -> & _). done. }
  assert (Hh : forall r, log_hash_key (f r) = log_hash_key r).
  { intros r. unfold log_hash_key. destruct (Hf r) as (-> & _ & -> & _). done. }
  split; try done.
  - by rewrite Hk.
  - rewrite Forall_fmap. eapply Forall_impl; [exact H2|]. intros r ?. simpl. destruct (Hf r) as (_ & -> & _). done.
  - rewrite Forall_fmap. eapply Forall_impl; [exact H3|]. intros r ?. simpl. destruct (Hf r) as (_ & _ & -> & ->). done.
  - rewrite <-list_fmap_compose. erewrite list_fmap_ext; [exact H4|]. intros _ r _. simpl. apply Hh.
  - rewrite Forall_fmap. eapply Forall_impl; [exact H5|]. intros r ?. simpl. by rewrite Hh.
Qed.

Lemma max_seq_ge g d r : r ∈ db_log d -> er_GroupID (lr_rec r) = g -> er_Seq (lr_rec r) <= max_seq g d.
Proof.
  intros Hr Hg. unfold max_seq, group_log.
  assert (Hin : r ∈ filter (fun r => er_GroupID (lr_rec r) = g) (db_log d)) by by apply list_elem_of_filter.
  revert Hin. generalize (filter (fun r => er_GroupID (lr_rec r) = g) (db_log d)).
  clear Hr Hg. induction l as [|x l IH]; simpl; intros Hin; [by apply not_elem_of_nil in Hin|].
  apply elem_of_cons in Hin as [->|Hin]; [lia|]. specialize (IH Hin). lia.
Qed.

Lemma max_seq_nonneg g d : 0 <= max_seq g d.
Proof. unfold max_seq. induction (group_log g d); simpl; lia. Qed.

(** A fresh envelope, entered in the deduplication table and the log. *)
Lemma log_inv_append d g ty e w ts src st a b c c0 now h :
  log_ok d -> h = sha256_sum w -> db_dedup d !! (g, h) = None ->
  log_inv (db_log d ++ [mkLogRow (mkEnvelopeRecord (max_seq g d + 1) g ty e w ts h src st "" 0 a b c) c0])
    (<[(g, h) := now]> (db_dedup d)) (db_messages d).
Proof.
  intros [H1 H2 H3 H4 H5 H6] Hh Hd. split; try done.
  - rewrite fmap_app; cbn. apply NoDup_app. split; [done|]. split; [|apply NoDup_singleton].
    intros k Hk. rewrite list_elem_of_singleton. intros ->. apply list_elem_of_fmap in Hk as (r & Hr & Hin).
    unfold log_seq_key in Hr; simpl in Hr. injection Hr as Hg Hs.
    pose proof (max_seq_ge g d r Hin (eq_sym Hg)). lia.
  - apply Forall_app. split; [done|]. constructor; [|done]. simpl. pose proof (max_seq_nonneg g d). lia.
  - apply Forall_app. split; [done|]. by constructor.
  - rewrite fmap_app; cbn. apply NoDup_app. split; [done|]. split; [|apply NoDup_singleton].
    intros k Hk. rewrite list_elem_of_singleton. intros ->. apply list_elem_of_fmap in Hk as (r & Hr & Hin).
    rewrite Forall_forall in H5. specialize (H5 r Hin). rewrite <-Hr in H5.
    unfold log_hash_key in H5; simpl in H5. rewrite Hd in H5. by destruct H5.
  - apply Forall_app. split.
    + eapply Forall_impl; [exact H5|]. intros r Hr.
      destruct (decide (log_hash_key r = (g, h))) as [->|Hne].
      * rewrite lookup_insert_eq. eauto.
      * by rewrite lookup_insert_ne.
    + constructor; [|done]. unfold log_hash_key; simpl. rewrite lookup_insert_eq. eauto.
Qed.

Lemma log_keep_eq d d' :
  db_log d' = db_log d -> db_dedup d' = db_dedup d -> db_messages d' = db_messages d -> log_keep d d'.
Proof. unfold log_keep, log_ok. by intros -> -> ->. Qed.

Lemma insert_message_log row d : log_keep d (insert_message row d).
Proof.
  intros [H1 H2 H3 H4 H5 H6]. unfold insert_message. case_match eqn:E; [by split|].
  split; try done. simpl. rewrite filter_app, fmap_app. apply NoDup_app. split; [done|].
  destruct (decide (hashed row)) as [Hh|Hh].
  - rewrite filter_cons_True by done. simpl. split; [|apply NoDup_singleton].
    intros k Hk. rewrite list_elem_of_singleton. intros ->.
    apply list_elem_of_fmap in Hk as (m & Hm & Hin). apply list_elem_of_filter in Hin as [_ Hin].
    apply is_empty_false in Hh. rewrite Hh in E. simpl in E.
    apply not_true_iff_false in E. apply E, existsb_exists. exists m.
    rewrite <-list_elem_of_In. split; [done|]. unfold msg_key in Hm. injection Hm as -> ->.
    by rewrite str_eqb_refl, bytes_eqb_refl.
  - rewrite filter_cons_False by done. simpl. split; [set_solver|constructor].
Qed.

Lemma replay_state_row_keys g h st msg now r :
  let r' := replay_state_row g h st msg now r in
  er_GroupID (lr_rec r') = er_GroupID (lr_rec r) /\ er_Seq (lr_rec r') = er_Seq (lr_rec r) /\
  er_EnvelopeHash (lr_rec r') = er_EnvelopeHash (lr_rec r) /\ er_Envelope (lr_rec r') = er_Envelope (lr_rec r).
Proof. unfold replay_state_row. by case_match. Qed.

Ltac log_auto := repeat (sql_step || (apply log_keep_eq; reflexivity)).

Lemma saveGroup_log rec : respects log_keep (saveGroupRecordTx rec).
Proof. unfold saveGroupRecordTx. log_auto. Qed.
Lemma saveMessage_log m : respects log_keep (saveMessageTx m).
Proof. unfold saveMessageTx. log_auto. apply insert_message_log. Qed.
Lemma save_messages_log h ms : respects log_keep (save_messages h ms).
Proof. induction ms; simpl; log_auto; [apply saveMessage_log|done]. Qed.

Lemma replayState_log g h st msg now d :
  log_keep d (set_db_log (replay_state_row g h st msg now <$> db_log d) d).
Proof. intros Hd. apply log_inv_map; [|exact Hd]. intros r. apply replay_state_row_keys. Qed.

Lemma markTx_log g ty e h : respects log_keep (markEnvelopeAppliedTx g ty e h).
Proof.
  unfold markEnvelopeAppliedTx, markEnvelopeAppliedSQL, markEnvelopeReplayStateTx. log_auto.
  - by case_match; [|apply log_keep_eq].
  - apply replayState_log.
Qed.

Lemma touch_log g h : respects log_keep (touch_received g h).
Proof.
  unfold touch_received. log_auto. intros Hd. apply log_inv_map; [|exact Hd]. intros r. by case_match.
Qed.

Lemma dedup_insert_inl g h env t d fresh t' d' :
  dedup_insert g h env t d = (inl fresh, t', d') ->
  (fresh = true /\ db_dedup d !! (g, h) = None /\
     exists now, d' = set_db_dedup (<[(g, h) := now]> (db_dedup d)) d) \/
  (fresh = false /\ is_Some (db_dedup d !! (g, h)) /\ d' = d).
Proof.
  unfold dedup_insert. intros E. apply bind_inl in E as (now & ? & ? & E1 & E).
  apply time_inl in E1 as [-> ->]. apply bind_inl in E as (f & ? & ? & E1 & E).
  apply query_inl in E1 as [-> ->]. case_bool_decide as Hd.
  - sql_inv. left. eauto.
  - sql_inv. right. split_and!; [done| |done]. by apply not_eq_None_Some.
Qed.

Lemma log_insert_inl g n ty e ts w h src st a now env t d u t' d' :
  log_insert g n ty e ts w h src st a now env t d = (inl u, t', d') ->
  d' = set_db_log (db_log d ++
    [mkLogRow (mkEnvelopeRecord n g ty e w ts h src st "" 0 a (UnixMilli now) (UnixMilli now)) (Unix now)]) d.
Proof. unfold log_insert. intros E. by sql_inv. Qed.

Lemma appendTx_log g ty e ts w : ensures log_keep (appendEnvelopeTx g ty e ts w).
Proof.
  intros env t d a t' d' E. unfold appendEnvelopeTx in E. apply bind_inl in E as (fr & ? & ? & Ed & E).
  apply dedup_insert_inl in Ed as [(-> & Hnone & now & ->)|(-> & _ & ->)]; simpl in E; sql_inv.
  - match goal with Hl : log_insert _ _ _ _ _ _ _ _ _ _ _ _ _ _ = _ |- _ => apply log_insert_inl in Hl as -> end.
    intros Hd. unfold log_ok; simpl. by apply (log_inv_append d).
  - match goal with Hi : sql_ignore _ _ _ _ = _ |- _ => apply ignore_inl in Hi as -> end.
    apply touch_log.
Qed.

Lemma append_log g ty e ts w src : respects log_keep (AppendEnvelopeWithSource g ty e ts w src).
Proof.
  unfold AppendEnvelopeWithSource. apply respects_tx; [apply _|]. intros env t d a t' d' E.
  apply bind_inl in E as (fr & ? & ? & Ed & E). apply wrap_inl in Ed.
  apply dedup_insert_inl in Ed as [(-> & Hnone & now & ->)|(-> & _ & ->)]; simpl in E; sql_inv.
  - match goal with Hl : log_insert _ _ _ _ _ _ _ _ _ _ _ _ _ _ = _ |- _ => apply log_insert_inl in Hl as -> end.
    intros Hd. unfold log_ok; simpl. by apply (log_inv_append d).
  - match goal with Hi : sql_ignore _ _ _ _ = _ |- _ => apply ignore_inl in Hi as -> end.
    apply touch_log.
Qed.

Definition is_prune (o : storage_op) : bool := match o with OpPrune _ _ => true | _ => false end.

Lemma has_applied_log g h : respects log_keep (hasAppliedEnvelopeTx g h).
Proof. unfold hasAppliedEnvelopeTx. log_auto. Qed.

Lemma run_op_log o : is_prune o = false -> respects log_keep (run_op o).
Proof.
  destruct o; intros Hp; simpl; try done;
    unfold ApplyCommit, ApplyApplication, ApplyBatchedApplication, MarkEnvelopeApplied, MarkEnvelopeReplayState;
    repeat (apply appendTx_log || sql_step || (apply log_keep_eq; reflexivity)); try reflexivity;
    auto using saveGroup_log, saveMessage_log, save_messages_log, markTx_log, appendTx_log, append_log,
      has_applied_log, respects_ensures, replayState_log.
Qed.

(** The tables after a history. *)
Fixpoint run_history (ops : list storage_op) (env : SqlEnv) (t : nat) (d : DB) : DB :=
  match ops with
  | [] => d
  | o :: rest => let '(_, t', d') := run_op o env t d in run_history rest env t' d'
  end.

(** Whatever statements fail, a history of storage calls other than
    pruning keeps the log well formed: per group the sequence numbers are
    distinct and positive, no envelope is logged twice, every logged envelope
    is in the deduplication table under its digest, and no message is stored
    twice under one digest. *)
Theorem envelope_log_invariant ops env t :
  Forall (fun o => is_prune o = false) ops -> log_ok (run_history ops env t db_empty).
Proof.
  intros Hops. assert (H0 : log_ok db_empty) by (split; constructor).
  revert H0 t. generalize db_empty. induction Hops as [|o ops Ho _ IH]; intros d Hd t; simpl; [done|].
  pose proof (run_op_log o Ho env t d) as Hk. destruct (run_op o env t d) as [[r t'] d'].
  apply IH. by apply Hk.
Qed.

(** ** Serving a cursor *)

#[export] Instance seq_asc_weak : StrictWeak seq_asc.
Proof.
  unfold seq_asc. split; intros.
  - rewrite Z.ltb_lt in *. apply Z.ltb_ge. lia.
  - rewrite !Z.ltb_lt in *. lia.
Qed.

Lemma StronglySorted_impl {A} (R S : A -> A -> Prop) l :
  (forall x y, R x y -> S x y) -> StronglySorted R l -> StronglySorted S l.
Proof. intros Hi Hs. rewrite <-(list_fmap_id l). by eapply StronglySorted_fmap. Qed.

(** A pull after a cursor returns, in order of sequence number, at most
    the requested number of envelopes of the group above the cursor, and
    leaves none out below the last one returned: advancing the cursor to the
    last envelope of the answer never skips one. *)
Theorem pull_serves_every_envelope g after maxCount env t d l t' d' :
  1 <= maxCount ->
  GetEnvelopesSince g after maxCount env t d = (inl l, t', d') ->
  d' = d /\ Z.of_nat (length l) <= maxCount /\
  StronglySorted (fun a b => er_Seq a <= er_Seq b) l /\
  (forall e, e ∈ l -> e ∈ (lr_rec <$> group_log g d) /\ after < er_Seq e) /\
  (forall e, e ∈ (lr_rec <$> group_log g d) -> after < er_Seq e ->
     e ∈ l \/ (Z.of_nat (length l) = maxCount /\ forall x, x ∈ l -> er_Seq x <= er_Seq e)).
Proof.
  intros Hm E. unfold GetEnvelopesSince in E. rewrite (proj2 (Z.ltb_ge _ _)) in E by lia. sql_inv.
  set (rows := filter (fun e => after < er_Seq e) (lr_rec <$> group_log g d)).
  set (n := Z.to_nat maxCount).
  assert (Hs : StronglySorted (fun a b => er_Seq a <= er_Seq b) (stable_sort seq_asc rows)).
  { eapply StronglySorted_impl; [|apply (stable_sort_sorted seq_asc)].
    unfold sort_le, seq_asc. intros a b. rewrite Z.ltb_ge. done. }
  split_and!; try done.
  - rewrite length_take. lia.
  - rewrite <-(take_drop n) in Hs. by eapply StronglySorted_app_1_l.
  - intros e He. assert (Hin : e ∈ rows).
    { rewrite <-(stable_sort_elem seq_asc), <-(take_drop n (stable_sort seq_asc rows)), elem_of_app. by left. }
    apply list_elem_of_filter in Hin as [? ?]. done.
  - intros e He Ha.
    assert (Hin : e ∈ stable_sort seq_asc rows) by (by apply stable_sort_elem, list_elem_of_filter).
    rewrite <-(take_drop n (stable_sort seq_asc rows)), elem_of_app in Hin.
    destruct Hin as [Hin|Hin]; [by left|right]. split.
    + rewrite length_take. assert (n < length (stable_sort seq_asc rows))%nat; [|lia].
      destruct (decide (length (stable_sort seq_asc rows) <= n)%nat) as [Hle|]; [|lia].
      rewrite drop_ge in Hin by done. by apply not_elem_of_nil in Hin.
    + intros x Hx. rewrite <-(take_drop n) in Hs.
      by apply (StronglySorted_app_1_elem_of _ _ _ _ _ Hs Hx Hin).
Qed.

(** Appending a new envelope gives it the next sequence number of its
    group and a pull from just below that number returns it; appending an
    envelope that is already known returns 0 and leaves the tables exactly as
    they were, the time of the repeated reception included. *)
Theorem append_envelope_dedups g ty e ts w src env t d s t' d' :
  AppendEnvelopeWithSource g ty e ts w src env t d = (inl s, t', d') ->
  (is_Some (db_dedup d !! (g, sha256_sum w)) /\ s = 0 /\ d' = d) \/
  (db_dedup d !! (g, sha256_sum w) = None /\ s = max_seq g d + 1 /\
   exists r, db_log d' = db_log d ++ [r] /\ er_Envelope (lr_rec r) = w /\ er_Seq (lr_rec r) = s /\
     er_GroupID (lr_rec r) = g /\ er_ApplyState (lr_rec r) = "pending" /\
     filter (fun x => s - 1 < er_Seq x) (lr_rec <$> group_log g d') = [lr_rec r]).
Proof.
  intros E. unfold AppendEnvelopeWithSource in E.
  assert (Hnil : forall l, Forall (fun r => er_Seq (lr_rec r) <= max_seq g d) l ->
    filter (fun x => max_seq g d + 1 - 1 < er_Seq x) (lr_rec <$> l) = []).
  { intros l Hl. induction Hl as [|r l Hr _ IH]; [done|]. simpl.
    rewrite filter_cons_False by lia. apply IH. }
  apply tx_inl in E as [(d1 & E & ->)|E]; apply bind_inl in E as (fr & ? & ? & Ed & E);
    apply wrap_inl in Ed;
    apply dedup_insert_inl in Ed as [(-> & Hnone & now & ->)|(-> & Hs & ->)]; simpl in E; sql_inv;
    [by left|].
  right. split; [done|]. split; [done|].
  match goal with Hl : log_insert _ _ _ _ _ _ _ _ _ _ _ _ _ _ = _ |- _ => apply log_insert_inl in Hl as -> end.
  simpl. eexists. split_and!; [done..|]. unfold group_log; simpl.
  rewrite filter_app, fmap_app, filter_app. rewrite Hnil.
  - rewrite filter_cons_True by done. simpl. rewrite filter_cons_True; [done|]. simpl.
    change (max_seq g (set_db_dedup (<[(g, sha256_sum w):=now]> (db_dedup d)) d)) with (max_seq g d). lia.
  - apply Forall_forall. intros r Hr. apply list_elem_of_filter in Hr as [Hg Hr]. by apply max_seq_ge.
Qed.

Lemma hlc_asc_weak : StrictWeak hlc_asc.
Proof. unfold hlc_asc. split; intros; [by apply sw_asym|by apply sw_negtrans]. Qed.

(** The messages after a timestamp are exactly those of the group whose
    timestamp the clock order puts after it, in causal order. *)
Theorem messages_since_exact g after env t d l t' d' :
  GetMessagesSince g after env t d = (inl l, t', d') ->
  d' = d /\ StronglySorted (fun a b => Before (sm_Timestamp b) (sm_Timestamp a) = false) l /\
  l ≡ₚ scan_message <$> filter (fun m => mrow_group_id m = g /\ Before after (mrow_hlc m) = true) (db_messages d).
Proof.
  intros E. unfold GetMessagesSince, scanMessages in E. sql_inv. case_match; sql_inv.
  split; [done|]. split.
  - eapply StronglySorted_fmap; [|apply (stable_sort_sorted hlc_asc (StrictWeak0 := hlc_asc_weak))].
    by intros x y.
  - rewrite stable_sort_perm. apply reflexive_eq. f_equal. apply list_filter_iff. intros m.
    rewrite Before_spec. intuition lia.
Qed.
End Spec.

(** ** Pruning and sequence numbers *)

Definition quiet_env (clock : nat -> time) : SqlEnv := mkSqlEnv (fun _ => None) clock (fun _ => 0) true.

(** Sequence numbers start again after pruning: an envelope appended
    after the log of its group was emptied gets a number that was used
    before, and a peer whose cursor stands at that number is never served
    it. *)
Theorem sequence_numbers_reused_after_prune :
  exists env w1 w2,
    let append w := AppendEnvelopeWithSource "g" MsgApplication 0 (mkHLC 0 0 "") w "local" env in
    let '(s1, t1, d1) := append w1 O db_empty in
    let '(n, t2, d2) := PruneEnvelopes 10 0 env t1 d1 in
    let '(s2, t3, d3) := append w2 t2 d2 in
    w1 <> w2 /\ s1 = inl 1 /\ n = inl 1 /\ s2 = inl 1 /\
    (GetEnvelopesSince "g" 1 10 env t3 d3).1.1 = inl [].
Proof.
  exists (quiet_env (fun n => Z.of_nat n * Second)), [x01], [x02].
  vm_compute. split_and!; [done|reflexivity..].
Qed.

(** ** Instances *)

Lemma triple_eta {A B C} (x : A * B * C) : x = (x.1.1, x.1.2, x.2).
Proof. by destruct x as [[? ?] ?]. Qed.

Lemma triple_with {A B C} (x : A * B * C) a : x.1.1 = a -> x = (a, x.1.2, x.2).
Proof. intros <-. apply triple_eta. Qed.

#[local] Existing Instance plain_codec.

Definition demo_env : SqlEnv := quiet_env (fun n => Z.of_nat n * Second).
Definition demo_rec : GroupRecord := mkGroupRecord "g" [x07] 3 [] "member" "channel" "" "" 0 0.
Definition demo_msg (b : byte) : StoredMessage :=
  mkStoredMessage "" "g" 3 "alice" [b] (mkHLC 5 0 "alice") "" [] 0 None "".
Definition demo_apply : result (bool * Z) * nat * DB :=
  ApplyApplication demo_rec (demo_msg x01) MsgApplication [x0a] (mkHLC 5 0 "alice") 3 demo_env O db_empty.
Definition demo_batch : result (bool * Z) * nat * DB :=
  ApplyBatchedApplication demo_rec [demo_msg x01; demo_msg x02] MsgApplicationBatched [x0a]
    (mkHLC 5 0 "alice") 3 demo_env O db_empty.

Lemma apply_application_all_or_nothing_witness :
  has_message "g" (sha256_sum [x0a]) demo_apply.2 = true.
Proof.
  assert (E : demo_apply.1.1 = inl (true, 1)) by (vm_compute; reflexivity).
  exact (proj1 (proj2 (proj2 (apply_application_all_or_nothing demo_rec (demo_msg x01) MsgApplication
    [x0a] (mkHLC 5 0 "alice") 3 demo_env O db_empty _ _ _ (triple_with demo_apply _ E))))).
Defined.

Lemma batched_apply_keeps_first_message_only_witness :
  db_messages demo_batch.2 =
    db_messages db_empty ++ [message_row (stamp_message (sha256_sum [x0a]) (demo_msg x01))].
Proof.
  assert (E : demo_batch.1.1 = inl (true, 1)) by (vm_compute; reflexivity).
  apply (batched_apply_keeps_first_message_only demo_rec (demo_msg x01) [demo_msg x02]
    MsgApplicationBatched [x0a] (mkHLC 5 0 "alice") 3 demo_env O db_empty 1 demo_batch.1.2 demo_batch.2).
  - by repeat constructor.
  - reflexivity.
  - exact (triple_with demo_batch _ E).
Defined.

Definition demo_ops : list storage_op :=
  [OpAppend "g" MsgCommit 3 (mkHLC 4 0 "bob") [x0b] "gossip";
   OpApplication demo_rec (demo_msg x01) MsgApplication [x0a] (mkHLC 5 0 "alice") 3].

Lemma envelope_log_invariant_witness : log_ok (run_history demo_ops demo_env O db_empty).
Proof. apply (envelope_log_invariant demo_ops demo_env O). by repeat constructor. Defined.

Lemma pull_serves_every_envelope_witness :
  (GetEnvelopesSince "g" 0 10 demo_env O demo_apply.2).2 = demo_apply.2.
Proof.
  assert (E : exists l, (GetEnvelopesSince "g" 0 10 demo_env O demo_apply.2).1.1 = inl l)
    by (eexists; vm_compute; reflexivity).
  destruct E as [l E].
  refine (proj1 (pull_serves_every_envelope "g" 0 10 demo_env O demo_apply.2 l _ _ _
    (triple_with _ _ E))). lia.
Defined.

Lemma append_envelope_dedups_witness :
  exists s, (AppendEnvelope "g" MsgCommit 3 (mkHLC 4 0 "bob") [x0b] demo_env O db_empty).1.1 = inl s /\
    s = max_seq "g" db_empty + 1.
Proof.
  exists 1. assert (E : (AppendEnvelope "g" MsgCommit 3 (mkHLC 4 0 "bob") [x0b] demo_env O db_empty).1.1 = inl 1)
    by (vm_compute; reflexivity).
  split; [exact E|].
  destruct (append_envelope_dedups "g" MsgCommit 3 (mkHLC 4 0 "bob") [x0b] "local" demo_env O db_empty _ _ _
    (triple_with _ _ E)) as [[[? Hs] _]|(_ & Hs & _)]; [discriminate Hs|exact Hs].
Defined.

Lemma messages_since_exact_witness :
  exists l, (GetMessagesSince "g" (mkHLC 4 0 "") demo_env O demo_apply.2).1.1 = inl l /\
    StronglySorted (fun a b => Before (sm_Timestamp b) (sm_Timestamp a) = false) l.
Proof.
  assert (E : exists l, (GetMessagesSince "g" (mkHLC 4 0 "") demo_env O demo_apply.2).1.1 = inl l)
    by (eexists; vm_compute; reflexivity).
  destruct E as [l E]. exists l. split; [exact E|].
  exact (proj1 (proj2 (messages_since_exact "g" (mkHLC 4 0 "") demo_env O demo_apply.2 l _ _
    (triple_with _ _ E)))).
Defined.
