(* ===== verification/HealStore.v ===== *)
(** * Coordination storage: durable operations and fork-heal records

    [adapter/store/coordination_storage.go], second part: pending operations,
    fork healing jobs, application events kept for replay, the outbound replay
    queue and the fork heal history. *)
From S2P Require Import Prelude Sha256 Types Database.

Module HealStore.

Definition ErrNoRows : GoError := ErrText "sql: no rows in result set".
Definition ErrUnique (index : string) : GoError := ErrText ("UNIQUE constraint failed: " +:+ index).

(** A write refused when it would break a unique index. *)
Definition sql_exec_unique {D} (index : string) (violates : D -> bool) (f : D -> D) : SQLs D unit :=
  bad <-! sql_query violates ;
  if bad : bool then sql_throw (ErrUnique index) else sql_exec f.

(** [INSERT ... ON CONFLICT(key) DO UPDATE]: the row with the key is replaced
    in place, a new one goes to the end. *)
Section Upsert.
Context {A : Type} (key : A -> string) (merge : A -> A -> A).

Definition upsert (x : A) (rows : list A) : list A :=
  if existsb (fun r => str_eqb (key r) (key x)) rows
  then (fun r => if str_eqb (key r) (key x) then merge r x else r) <$> rows
  else rows ++ [x].
End Upsert.

(** [uint64] arguments of a statement *)
Fixpoint sql_uint64s (ns : list Z) : SQL unit :=
  match ns with
  | [] => sql_ret tt
  | n :: rest => sql_uint64 n ;;! sql_uint64s rest
  end.

(** A [NOT NULL] column of bytes; a missing value is a nil byte slice. *)
Definition sql_not_null {D} (column : string) (h : bytes) : SQLs D unit := fun env t d =>
  if nil_blob_null env && is_empty h
  then (inr (ErrText ("NOT NULL constraint failed: " +:+ column)), t, d) else (inl tt, t, d).

(** ** Pending operations *)

Definition op_active (o : PendingOperation) : bool :=
  str_eqb (po_Status o) "PENDING" || str_eqb (po_Status o) "PROPOSED".

(** The row as stored: an empty idempotency key is [NULL], times are whole
    seconds. *)
Definition op_row (o : PendingOperation) : PendingOperation :=
  mkPendingOperation (po_OperationID o) (po_GroupID o) (po_OpType o)
    (match po_IdempotencyKey o with Some k => if str_eqb k "" then None else Some k | None => None end)
    (po_OperationHash o) (po_PreconditionEpoch o) (po_PreconditionStateHash o) (po_TargetMemberID o)
    (po_SemanticPayload o) (po_LatestProposalHash o) (po_Status o) (po_RetryCount o) (po_ExpiresAt o)
    (po_LastError o) (Unix (po_CreatedAt o) * Second) (Unix (po_UpdatedAt o) * Second).

(** On conflict the creation time is kept. *)
Definition op_merge (old new : PendingOperation) : PendingOperation :=
  mkPendingOperation (po_OperationID old) (po_GroupID new) (po_OpType new) (po_IdempotencyKey new)
    (po_OperationHash new) (po_PreconditionEpoch new) (po_PreconditionStateHash new)
    (po_TargetMemberID new) (po_SemanticPayload new) (po_LatestProposalHash new) (po_Status new)
    (po_RetryCount new) (po_ExpiresAt new) (po_LastError new) (po_CreatedAt old) (po_UpdatedAt new).

(** The partial unique index on [(group_id, idempotency_key)] of active
    operations, against the other rows. *)
Definition op_conflicts (o : PendingOperation) (rows : list PendingOperation) : bool :=
  op_active o && match po_IdempotencyKey o with
                 | None => false
                 | Some k => existsb (fun r => negb (str_eqb (po_OperationID r) (po_OperationID o)) &&
                     op_active r && str_eqb (po_GroupID r) (po_GroupID o) &&
                     bool_decide (po_IdempotencyKey r = Some k)) rows
                 end.

(** [SavePendingOperation] *)
Definition SavePendingOperation (op : PendingOperation) : SQL unit :=
  sql_wrap "SavePendingOperation" (
    sql_uint64s (option_list (po_PreconditionEpoch op)) ;;!
    sql_exec_unique "idx_op_idempotency_active"
      (fun d => op_conflicts (op_row op) (db_pending_ops d))
      (fun d => set_db_pending_ops (upsert po_OperationID op_merge (op_row op) (db_pending_ops d)) d)).

(** [GetPendingOperation] *)
Definition GetPendingOperation (opID : string) : SQL PendingOperation :=
  row <-! sql_wrap "GetPendingOperation" (sql_query (fun d =>
    head (filter (fun o => po_OperationID o = opID) (db_pending_ops d)))) ;
  match row with None => sql_throw ErrNoRows | Some o => sql_ret o end.

(** [ListPendingOperations]: oldest first. *)
Definition ListPendingOperations (groupID : string) : SQL (list PendingOperation) :=
  sql_wrap "ListPendingOperations" (sql_query (fun d =>
    stable_sort (fun a b => po_CreatedAt a <? po_CreatedAt b)
      (filter (fun o => po_GroupID o = groupID) (db_pending_ops d)))).

(** [GetPendingOperationByIdempotencyKey]: the first row with the key,
    whatever its status. *)
Definition GetPendingOperationByIdempotencyKey (groupID key : string) : SQL PendingOperation :=
  row <-! sql_wrap "GetPendingOperationByIdempotencyKey" (sql_query (fun d =>
    head (filter (fun o => po_GroupID o = groupID /\ po_IdempotencyKey o = Some key) (db_pending_ops d)))) ;
  match row with None => sql_throw ErrNoRows | Some o => sql_ret o end.

(** [DeletePendingOperation] *)
Definition DeletePendingOperation (opID : string) : SQL unit :=
  sql_wrap "DeletePendingOperation" (sql_exec (fun d =>
    set_db_pending_ops (filter (fun o => po_OperationID o <> opID) (db_pending_ops d)) d)).

(** ** Fork healing jobs *)

Definition job_active (j : ForkHealingJob) : bool :=
  negb (str_eqb (job_Status j) "CLEANED" || str_eqb (job_Status j) "FAILED_TERMINAL").

(** The row as stored: the table has no column for the private part of the
    key package. *)
Definition job_row (j : ForkHealingJob) : ForkHealingJob := set_job_PendingBundlePrivate [] j.

Definition job_merge (old new : ForkHealingJob) : ForkHealingJob :=
  mkForkHealingJob (job_JobID old) (job_GroupID new) (job_TraceID new) (job_Status new)
    (job_LosingBranchID new) (job_WinningBranchID new) (job_ForkBaseEpoch new) (job_LosingEpoch new)
    (job_WinningEpoch new) (job_LosingTreeHash new) (job_WinningTreeHash new)
    (job_WinningCommitHash new) (job_WinningGroupInfoHash new) (job_WinnerPeerID new)
    (job_WinnerGroupInfo new) (job_BranchWeightJSON new) (job_PendingGroupState new)
    (job_PendingEpoch new) (job_PendingTreeHash new) (job_PendingBundlePrivate new)
    (job_ErrorMessage new) (job_RetryCount new) (job_CreatedAtMs old) (job_UpdatedAtMs new)
    (job_CompletedAtMs new).

(** The partial unique index on the group of active jobs. *)
Definition job_conflicts (j : ForkHealingJob) (rows : list ForkHealingJob) : bool :=
  job_active j && existsb (fun r => negb (str_eqb (job_JobID r) (job_JobID j)) && job_active r &&
                             str_eqb (job_GroupID r) (job_GroupID j)) rows.

(** [SaveForkHealingJob] *)
Definition SaveForkHealingJob (job : ForkHealingJob) : SQL unit :=
  sql_wrap "SaveForkHealingJob" (
    sql_uint64s [job_ForkBaseEpoch job; job_LosingEpoch job; job_WinningEpoch job; job_PendingEpoch job] ;;!
    sql_not_null "fork_healing_job.winning_tree_hash" (job_WinningTreeHash job) ;;!
    sql_exec_unique "idx_fork_healing_active_group"
      (fun d => job_conflicts (job_row job) (db_heal_jobs d))
      (fun d => set_db_heal_jobs (upsert job_JobID job_merge (job_row job) (db_heal_jobs d)) d)).

(** [GetActiveForkHealingJob]: the newest active job. *)
Definition active_job (groupID : string) (rows : list ForkHealingJob) : option ForkHealingJob :=
  head (stable_sort (fun a b => job_CreatedAtMs b <? job_CreatedAtMs a)
    (filter (fun j => job_GroupID j = groupID /\ job_active j = true) rows)).
Definition GetActiveForkHealingJob (groupID : string) : SQL (option ForkHealingJob) :=
  sql_wrap "GetActiveForkHealingJob" (sql_query (fun d => active_job groupID (db_heal_jobs d))).

(** [GetForkHealingJobByID] *)
Definition GetForkHealingJobByID (jobID : string) : SQL (option ForkHealingJob) :=
  sql_wrap "GetForkHealingJobByID" (sql_query (fun d =>
    head (filter (fun j => job_JobID j = jobID) (db_heal_jobs d)))).

(** [DeleteForkHealingJob] *)
Definition DeleteForkHealingJob (jobID : string) : SQL unit :=
  sql_wrap "DeleteForkHealingJob" (sql_exec (fun d =>
    set_db_heal_jobs (filter (fun j => job_JobID j <> jobID) (db_heal_jobs d)) d)).

(** ** Application events *)

(** On conflict only the payload and the replay progress are replaced. *)
Definition event_merge (old new : ApplicationEvent) : ApplicationEvent :=
  mkApplicationEvent (ae_EventID old) (ae_JobID old) (ae_GroupID old) (ae_OriginalBranchID old)
    (ae_OriginalEpoch old) (ae_AuthorID old) (ae_EnvelopeHash old) (ae_PayloadSealed new)
    (ae_PayloadHash old) (ae_SealKeyID old) (ae_SealNonce old) (ae_HlcWallTimeMs old)
    (ae_HlcCounter old) (ae_HlcNodeID old) (ae_Status new) (ae_ReplayOperationID new)
    (ae_ReplayedEnvelopeHash new) (ae_ReplayedAtMs new) (ae_ReplayAttemptCount new)
    (ae_LastError new) (ae_CreatedAtMs old) (ae_UpdatedAtMs new).

(** [SaveApplicationEvent] *)
Definition SaveApplicationEvent (ev : ApplicationEvent) : SQL unit :=
  sql_wrap "SaveApplicationEvent" (sql_uint64 (ae_OriginalEpoch ev) ;;!
    sql_not_null "application_event.envelope_hash" (ae_EnvelopeHash ev) ;;!
    sql_not_null "application_event.payload_hash" (ae_PayloadHash ev) ;;!
    sql_exec (fun d => set_db_app_events (upsert ae_EventID event_merge ev (db_app_events d)) d)).

Definition event_less (a b : ApplicationEvent) : bool :=
  (ae_HlcWallTimeMs a <? ae_HlcWallTimeMs b) ||
  ((ae_HlcWallTimeMs a =? ae_HlcWallTimeMs b) && (ae_HlcCounter a <? ae_HlcCounter b)).

(** [ListApplicationEvents] *)
Definition ListApplicationEvents (jobID : string) : SQL (list ApplicationEvent) :=
  sql_wrap "ListApplicationEvents" (sql_query (fun d =>
    stable_sort event_less (filter (fun e => ae_JobID e = jobID) (db_app_events d)))).

(** [UpdateApplicationEventStatus] *)
Definition UpdateApplicationEventStatus (eventID status : string) : SQL unit :=
  now <-! sql_time ;
  sql_wrap "UpdateApplicationEventStatus" (sql_exec (fun d =>
    set_db_app_events ((fun e =>
      if str_eqb (ae_EventID e) eventID
      then mkApplicationEvent (ae_EventID e) (ae_JobID e) (ae_GroupID e) (ae_OriginalBranchID e)
        (ae_OriginalEpoch e) (ae_AuthorID e) (ae_EnvelopeHash e) (ae_PayloadSealed e)
        (ae_PayloadHash e) (ae_SealKeyID e) (ae_SealNonce e) (ae_HlcWallTimeMs e) (ae_HlcCounter e)
        (ae_HlcNodeID e) status (ae_ReplayOperationID e) (ae_ReplayedEnvelopeHash e)
        (ae_ReplayedAtMs e) (ae_ReplayAttemptCount e) (ae_LastError e) (ae_CreatedAtMs e)
        (UnixMilli now)
      else e) <$> db_app_events d) d)).

(** [ClearSealedPayloads] *)
Definition ClearSealedPayloads (jobID : string) : SQL unit :=
  sql_wrap "ClearSealedPayloads" (sql_exec (fun d =>
    set_db_app_events ((fun e =>
      if str_eqb (ae_JobID e) jobID &&
         bool_decide (ae_Status e ∈ ["REPLAYED"; "WAITING_AUTHOR_REPLAY"; "UNRECOVERABLE"])
      then set_ae_PayloadSealed [] (set_ae_SealNonce [] (set_ae_SealKeyID "" e))
      else e) <$> db_app_events d) d)).

(** ** Outbound replays *)

Definition replay_merge (old new : OutboundReplay) : OutboundReplay :=
  mkOutboundReplay (or_ReplayOperationID old) (or_EventID old) (or_JobID old) (or_GroupID old)
    (or_ReplayEnvelope old) (or_ReplayedEnvelopeHash old) (or_Status new) (or_AttemptCount new)
    (or_CreatedAtMs old) (or_UpdatedAtMs new).

(** [SaveOutboundReplay] *)
Definition SaveOutboundReplay (req : OutboundReplay) : SQL unit :=
  sql_wrap "SaveOutboundReplay" (
    sql_not_null "outbound_replay_queue.replay_envelope" (or_ReplayEnvelope req) ;;!
    sql_exec (fun d => set_db_outbound (upsert or_ReplayOperationID replay_merge req (db_outbound d)) d)).

(** [ListOutboundReplays] *)
Definition ListOutboundReplays (jobID : string) : SQL (list OutboundReplay) :=
  sql_wrap "ListOutboundReplays" (sql_query (fun d =>
    filter (fun r => or_JobID r = jobID) (db_outbound d))).

(** [DeleteOutboundReplaysForJob] *)
Definition DeleteOutboundReplaysForJob (jobID : string) : SQL unit :=
  sql_wrap "DeleteOutboundReplaysForJob" (sql_exec (fun d =>
    set_db_outbound (filter (fun r => or_JobID r <> jobID) (db_outbound d)) d)).

(** ** Fork heal history *)

(** [RecordForkHealEvent]; the pruning it starts in the background is
    [PruneForkHealHistory]. *)
Definition RecordForkHealEvent (event : ForkHealEventRecord) : SQL unit :=
  now <-! sql_time ;
  sql_wrap "RecordForkHealEvent" (sql_uint64s [fhe_WinnerEpoch event; fhe_NewEpoch event] ;;!
    sql_exec (fun d => set_db_heal_events (db_heal_events d ++ [mkHealEventRow event (Unix now)]) d)).

(** [RecordForkHealAudit] *)
Definition RecordForkHealAudit (audit : ForkHealAuditRecord) : SQL unit :=
  now <-! sql_time ;
  sql_wrap "RecordForkHealAudit" (sql_exec (fun d =>
    set_db_heal_audit (db_heal_audit d ++ [mkHealAuditRow audit (Unix now)]) d)).

(** [ListForkHealEvents]: newest first, later rows before earlier ones of the
    same second. *)
Definition ListForkHealEvents (groupID : string) (limit : Z) : SQL (list ForkHealEventRecord) :=
  let limit := if limit <=? 0 then 50 else limit in
  sql_wrap "ListForkHealEvents" (sql_query (fun d =>
    her_rec <$> take (Z.to_nat limit) (stable_sort (fun a b => her_created_at b <? her_created_at a)
      (rev (filter (fun r => groupID = "" \/ fhe_GroupID (her_rec r) = groupID) (db_heal_events d)))))).

(** [ListForkHealAudit] *)
Definition ListForkHealAudit (traceID : string) : SQL (list ForkHealAuditRecord) :=
  sql_wrap "ListForkHealAudit" (sql_query (fun d =>
    har_rec <$> filter (fun r => fhr_TraceID (har_rec r) = traceID) (db_heal_audit d))).

Definition heal_count (gid : string) (d : DB) : Z :=
  Z.of_nat (length (filter (fun r => fhe_GroupID (her_rec r) = gid) (db_heal_events d))).

(** The oldest event among those selected. *)
Definition oldest_event (sel : ForkHealEventRecord -> bool) (rows : list HealEventRow) : option HealEventRow :=
  head (stable_sort (fun a b => her_created_at a <? her_created_at b)
    (filter (fun r => sel (her_rec r) = true) rows)).

Fixpoint remove_event (sel : ForkHealEventRecord -> bool) (created : Z) (rows : list HealEventRow)
  : list HealEventRow :=
  match rows with
  | [] => []
  | r :: rest =>
      if sel (her_rec r) && (her_created_at r =? created) then rest
      else r :: remove_event sel created rest
  end.

(** The loop of [PruneForkHealHistory] over one group: each round deletes the
    oldest event and its audit trail.  [fuel] bounds the number of rounds; one
    more than the number of events is enough. *)
Fixpoint prune_heal_group (fuel : nat) (gid : string) (maxPerGroup removed : Z) : SQL (option Z) :=
  match fuel with
  | O => sql_ret None
  | S fuel' =>
      cnt <-! sql_query (heal_count gid) ;
      if cnt <=? maxPerGroup then sql_ret (Some removed)
      else
        row <-! sql_query (fun d => oldest_event (fun e => str_eqb (fhe_GroupID e) gid) (db_heal_events d)) ;
        match row with
        | None => sql_ret (Some removed)
        | Some r =>
            let tid := fhe_TraceID (her_rec r) in
            sql_wrap "PruneForkHealHistory delete audit cap" (sql_exec (fun d =>
              set_db_heal_audit (filter (fun a => ~ (fhr_GroupID (har_rec a) = gid /\ fhr_TraceID (har_rec a) = tid))
                (db_heal_audit d)) d)) ;;!
            let sel e := str_eqb (fhe_GroupID e) gid && str_eqb (fhe_TraceID e) tid in
            sql_wrap "PruneForkHealHistory delete event cap" (sql_exec (fun d =>
              match oldest_event sel (db_heal_events d) with
              | None => d
              | Some x => set_db_heal_events (remove_event sel (her_created_at x) (db_heal_events d)) d
              end)) ;;!
            prune_heal_group fuel' gid maxPerGroup (removed + 1)
        end
  end.

Fixpoint prune_heal_groups (groups : list string) (maxPerGroup removed : Z) : SQL (option Z) :=
  match groups with
  | [] => sql_ret (Some removed)
  | gid :: rest =>
      fuel <-! (fun env t d => (inl (S (length (db_heal_events d))), t, d)) ;
      r <-! prune_heal_group fuel gid maxPerGroup removed ;
      match r with
      | None => sql_ret None
      | Some removed => prune_heal_groups rest maxPerGroup removed
      end
  end.

(** [PruneForkHealHistory] *)
Definition PruneForkHealHistory (cutoffUnix maxPerGroup : Z) : SQL (option Z) :=
  n1 <-! sql_query (fun d => Z.of_nat (length (filter (fun a => har_created_at a < cutoffUnix) (db_heal_audit d)))) ;
  sql_wrap "PruneForkHealHistory audit age" (sql_exec (fun d =>
    set_db_heal_audit (filter (fun a => ~ har_created_at a < cutoffUnix) (db_heal_audit d)) d)) ;;!
  n2 <-! sql_query (fun d => Z.of_nat (length (filter (fun a => her_created_at a < cutoffUnix) (db_heal_events d)))) ;
  sql_wrap "PruneForkHealHistory event age" (sql_exec (fun d =>
    set_db_heal_events (filter (fun a => ~ her_created_at a < cutoffUnix) (db_heal_events d)) d)) ;;!
  if maxPerGroup <? 1 then sql_ret (Some (n1 + n2))
  else
    groups <-! sql_wrap "PruneForkHealHistory list groups" (sql_query (fun d =>
      remove_dups ((fun r => fhe_GroupID (her_rec r)) <$> db_heal_events d))) ;
    prune_heal_groups groups maxPerGroup (n1 + n2).

(** ** Facts *)

Lemma upsert_lookup {A} (key : A -> string) merge x rows :
  (forall o, key (merge o x) = key o) ->
  head (filter (fun r => key r = key x) (upsert key merge x rows)) =
  Some (match head (filter (fun r => key r = key x) rows) with Some o => merge o x | None => x end).
Proof.
  intros Hk. unfold upsert. destruct (existsb _ rows) eqn:E.
  - induction rows as [|r rows IH]; [done|]. cbn [existsb] in E. rewrite fmap_cons, !filter_cons.
    destruct (str_eqb (key r) (key x)) eqn:Er; breflect.
    + rewrite !decide_True by (rewrite ?Hk; done). done.
    + rewrite !decide_False by done. apply IH. destruct E; [congruence|done].
  - assert (Hn : filter (fun r => key r = key x) rows = []).
    { apply not_true_iff_false in E. destruct (filter _ rows) as [|r l] eqn:El; [done|].
      exfalso. apply E, existsb_exists. exists r. rewrite <-list_elem_of_In.
      assert (Hr : r ∈ filter (fun r => key r = key x) rows) by (rewrite El; constructor).
      apply list_elem_of_filter in Hr as [? ?]. by rewrite str_eqb_true. }
    rewrite filter_app, Hn. simpl. by rewrite filter_cons_True.
Qed.

(** A first row goes to the end; a second one with its key replaces it there. *)
Lemma upsert_new {A} (key : A -> string) merge x rows :
  (forall r, r ∈ rows -> key r <> key x) -> upsert key merge x rows = rows ++ [x].
Proof.
  intros Hn. unfold upsert. destruct (existsb _ rows) eqn:E; [|done].
  apply existsb_exists in E as (r & Hr & He%str_eqb_true). by apply list_elem_of_In, Hn in Hr.
Qed.
Lemma upsert_again {A} (key : A -> string) merge x y rows :
  key y = key x -> (forall r, r ∈ rows -> key r <> key x) -> upsert key merge y (rows ++ [x]) = rows ++ [merge x y].
Proof.
  intros Hk Hn. unfold upsert. rewrite existsb_app. cbn [existsb]. rewrite Hk, str_eqb_refl, orb_true_r, fmap_app. f_equal.
  - transitivity (id <$> rows); [|apply list_fmap_id]. apply list_fmap_ext. intros i r Hr.
    apply list_elem_of_lookup_2, Hn in Hr. by destruct (str_eqb_spec (key r) (key x)).
  - cbn. by rewrite str_eqb_refl.
Qed.

Lemma readonly_uint64s ns : readonly (sql_uint64s ns).
Proof. induction ns; simpl; [apply readonly_ret|]. apply readonly_bind; [apply readonly_uint64|done]. Qed.

Lemma uint64s_inl ns env t d u t' d' : sql_uint64s ns env t d = (inl u, t', d') -> d' = d.
Proof. intros E. pose proof (readonly_uint64s ns env t d) as H. by rewrite E in H. Qed.

Lemma readonly_not_null {D} c h : readonly (@sql_not_null D c h).
Proof. intros env t d. unfold sql_not_null. by case_match. Qed.

Lemma not_null_inl {D} c h env t (d : D) u t' d' : sql_not_null c h env t d = (inl u, t', d') -> d' = d.
Proof. intros E. pose proof (readonly_not_null c h env t d) as H. by rewrite E in H. Qed.

Lemma exec_unique_inl {D} i (v : D -> bool) f env t d u t' d' :
  sql_exec_unique i v f env t d = (inl u, t', d') -> v d = false /\ d' = f d.
Proof.
  unfold sql_exec_unique. intros E. apply bind_inl in E as (b & ? & ? & E1 & E).
  apply query_inl in E1 as [-> ->]. destruct (v d); [done|]. by apply exec_inl in E as [-> _].
Qed.

Lemma SaveApplicationEvent_inl ev env t d u t' d' :
  SaveApplicationEvent ev env t d = (inl u, t', d') ->
  d' = set_db_app_events (upsert ae_EventID event_merge ev (db_app_events d)) d.
Proof.
  intros E. apply wrap_inl, bind_inl in E as (? & ? & ? & Eu & E). apply uint64_inl in Eu as [_ ->].
  do 2 (apply bind_inl in E as (? & ? & ? & En & E); apply not_null_inl in En as ->).
  by apply exec_inl in E as [-> _].
Qed.

(** A healing job read back after a save has every field as saved, the
    creation time of the first save, and no private key package: the private
    part does not survive the store. *)
Theorem heal_job_round_trip job env t d u t1 d1 r t2 d2 :
  SaveForkHealingJob job env t d = (inl u, t1, d1) ->
  GetForkHealingJobByID (job_JobID job) env t1 d1 = (inl r, t2, d2) ->
  exists j, r = Some j /\ job_PendingBundlePrivate j = [] /\
    j = set_job_PendingBundlePrivate [] (mkForkHealingJob (job_JobID job) (job_GroupID job) (job_TraceID job)
      (job_Status job) (job_LosingBranchID job) (job_WinningBranchID job) (job_ForkBaseEpoch job)
      (job_LosingEpoch job) (job_WinningEpoch job) (job_LosingTreeHash job) (job_WinningTreeHash job)
      (job_WinningCommitHash job) (job_WinningGroupInfoHash job) (job_WinnerPeerID job)
      (job_WinnerGroupInfo job) (job_BranchWeightJSON job) (job_PendingGroupState job)
      (job_PendingEpoch job) (job_PendingTreeHash job) (job_PendingBundlePrivate job)
      (job_ErrorMessage job) (job_RetryCount job)
      (from_option job_CreatedAtMs (job_CreatedAtMs job)
         (head (filter (fun j => job_JobID j = job_JobID job) (db_heal_jobs d))))
      (job_UpdatedAtMs job) (job_CompletedAtMs job)).
Proof.
  intros E1 E2. apply wrap_inl, bind_inl in E1 as (? & ? & ? & Eu & E1).
  apply uint64s_inl in Eu as ->. apply bind_inl in E1 as (? & ? & ? & En & E1).
  apply not_null_inl in En as ->. apply exec_unique_inl in E1 as [_ ->].
  apply wrap_inl, query_inl in E2 as [-> ->]. simpl.
  change (job_JobID job) with (job_JobID (job_row job)) at 1.
  rewrite (upsert_lookup job_JobID job_merge (job_row job)) by done.
  change (job_JobID (job_row job)) with (job_JobID job).
  destruct (head (filter (fun j => job_JobID j = job_JobID job) (db_heal_jobs d))) as [o|] eqn:Eo.
  - assert (Ho : job_JobID o = job_JobID job).
    { destruct (filter _ (db_heal_jobs d)) as [|y l] eqn:El; [done|]. injection Eo as ->.
      assert (Hr : o ∈ filter (fun j => job_JobID j = job_JobID job) (db_heal_jobs d))
        by (rewrite El; constructor).
      by apply list_elem_of_filter in Hr as [? _]. }
    eexists. split; [done|]. split; [done|]. unfold job_merge. rewrite Ho. done.
  - eexists. split; [done|]. split; [done|]. by destruct job.
Qed.

(** ** At most one active job per group *)

Definition jobs_ok (rows : list ForkHealingJob) : Prop :=
  NoDup (job_JobID <$> rows) /\
  forall a b, a ∈ rows -> b ∈ rows -> job_active a = true -> job_active b = true ->
    job_GroupID a = job_GroupID b -> a = b.

Lemma upsert_ids {A} (key : A -> string) merge x rows :
  (forall o, key (merge o x) = key o) ->
  NoDup (key <$> rows) -> NoDup (key <$> upsert key merge x rows).
Proof.
  intros Hk Hn. unfold upsert. destruct (existsb _ rows) eqn:E.
  - rewrite <-list_fmap_compose. erewrite list_fmap_ext; [exact Hn|].
    intros _ r _. simpl. case_match; [apply Hk|done].
  - rewrite fmap_app. apply NoDup_app. split; [done|]. split; [|apply NoDup_singleton].
    intros k Hin. cbn. rewrite list_elem_of_singleton. intros ->.
    apply list_elem_of_fmap in Hin as (r & Hr & Hin). apply not_true_iff_false in E.
    apply E, existsb_exists. exists r. rewrite <-list_elem_of_In. split; [done|]. by apply str_eqb_true.
Qed.

Lemma elem_of_upsert {A} (key : A -> string) merge x rows y :
  y ∈ upsert key merge x rows ->
  (y ∈ rows /\ key y <> key x) \/ y = x \/ exists o, o ∈ rows /\ key o = key x /\ y = merge o x.
Proof.
  unfold upsert. destruct (existsb _ rows) eqn:E.
  - intros Hy. apply list_elem_of_fmap in Hy as (r & -> & Hr).
    destruct (str_eqb (key r) (key x)) eqn:Er; breflect; eauto 6.
  - rewrite elem_of_app, list_elem_of_singleton. intros [Hy| ->]; [left|by auto]. split; [done|].
    intros Hk. apply not_true_iff_false in E. apply E, existsb_exists. exists y.
    rewrite <-list_elem_of_In. split; [done|]. by apply str_eqb_true.
Qed.

Lemma NoDup_key_inj {A} (key : A -> string) rows a b :
  NoDup (key <$> rows) -> a ∈ rows -> b ∈ rows -> key a = key b -> a = b.
Proof.
  intros Hn Ha Hb Hk. apply list_elem_of_lookup in Ha as [i Hi], Hb as [j Hj].
  assert (i = j) as ->; [|congruence].
  eapply (NoDup_lookup (key <$> rows) i j (key a)); [done| |]; rewrite list_lookup_fmap.
  - by rewrite Hi.
  - by rewrite Hj, Hk.
Qed.

Lemma jobs_ok_upsert j rows :
  job_conflicts j rows = false -> jobs_ok rows -> jobs_ok (upsert job_JobID job_merge j rows).
Proof.
  intros Hc [Hn Hu].
  assert (Hn' : NoDup (job_JobID <$> upsert job_JobID job_merge j rows)) by by apply upsert_ids.
  split; [done|].
  assert (Hold : job_active j = true ->
    forall a, a ∈ rows -> job_JobID a <> job_JobID j -> job_active a = true -> job_GroupID a <> job_GroupID j).
  { intros Hact a Ha Hid Haa Hg. unfold job_conflicts in Hc. rewrite Hact in Hc. simpl in Hc.
    apply not_true_iff_false in Hc. apply Hc, existsb_exists. exists a. rewrite <-list_elem_of_In.
    split; [done|]. rewrite Haa, (proj2 (str_eqb_false _ _)), (proj2 (str_eqb_true _ _)) by done. done. }
  intros a b Ha Hb Haa Hba Hg.
  assert (Hcase : forall y, y ∈ upsert job_JobID job_merge j rows ->
    (y ∈ rows /\ job_JobID y <> job_JobID j) \/
    (job_JobID y = job_JobID j /\ job_active y = job_active j /\ job_GroupID y = job_GroupID j)).
  { intros y Hy. apply elem_of_upsert in Hy as [?|[-> |(o & _ & Ho & ->)]]; auto. }
  destruct (Hcase a Ha) as [[Ha1 Ha2]|(Ha1 & Ha2 & Ha3)], (Hcase b Hb) as [[Hb1 Hb2]|(Hb1 & Hb2 & Hb3)].
  - by apply Hu.
  - exfalso. apply (Hold (eq_trans (eq_sym Hb2) Hba) a); congruence.
  - exfalso. apply (Hold (eq_trans (eq_sym Ha2) Haa) b); congruence.
  - eapply NoDup_key_inj; eauto. congruence.
Qed.

Lemma jobs_ok_filter P `{!forall x, Decision (P x)} rows : jobs_ok rows -> jobs_ok (filter P rows).
Proof.
  intros [Hn Hu]. split.
  - eapply sublist_NoDup; [exact Hn|]. apply fmap_sublist, sublist_filter.
  - intros a b Ha Hb. apply list_elem_of_filter in Ha as [_ Ha], Hb as [_ Hb]. by apply Hu.
Qed.

Inductive job_op := JobSave (j : ForkHealingJob) | JobDelete (jobID : string).
Definition run_job_op (o : job_op) : SQL unit :=
  match o with JobSave j => SaveForkHealingJob j | JobDelete id => DeleteForkHealingJob id end.
Fixpoint run_job_ops (ops : list job_op) (env : SqlEnv) (t : nat) (d : DB) : DB :=
  match ops with
  | [] => d
  | o :: rest => let '(_, t', d') := run_job_op o env t d in run_job_ops rest env t' d'
  end.

Definition jobs_keep (d d' : DB) : Prop := jobs_ok (db_heal_jobs d) -> jobs_ok (db_heal_jobs d').
#[export] Instance jobs_keep_preorder : PreOrder jobs_keep.
Proof. split; unfold jobs_keep; [by intros ? ?|]. intros ? ? ? H1 H2 H3. auto. Qed.

Lemma respects_exec_unique {D} (R : D -> D -> Prop) `{!PreOrder R} i v f :
  (forall d, v d = false -> R d (f d)) -> respects R (sql_exec_unique i v f).
Proof.
  intros Hf env t d. unfold sql_exec_unique, sql_bind, sql_query, sql_throw, sql_exec.
  destruct (sql_fails env t); simpl; [reflexivity|]. destruct (v d) eqn:E; simpl; [reflexivity|].
  destruct (sql_fails env (S t)); simpl; [reflexivity|]. by apply Hf.
Qed.

Lemma run_job_op_keep o : respects jobs_keep (run_job_op o).
Proof.
  destruct o; simpl; unfold SaveForkHealingJob, DeleteForkHealingJob.
  - apply respects_wrap, respects_bind; [apply _| |intros _].
    + apply respects_readonly; [apply _|apply readonly_uint64s].
    + apply respects_bind; [apply _| |intros _]; [apply respects_readonly; [apply _|apply readonly_not_null]|].
      apply respects_exec_unique; [apply _|]. intros d Hc Hd. by apply jobs_ok_upsert.
  - repeat sql_step. intros Hd. by apply jobs_ok_filter.
Qed.

(** Over any history of job saves and deletions, with any statements
    failing, a group has at most one healing job that is not finished: the
    unique index refuses a second one. *)
Theorem one_active_heal_job_per_group ops env t a b :
  let rows := db_heal_jobs (run_job_ops ops env t db_empty) in
  a ∈ rows -> b ∈ rows -> job_active a = true -> job_active b = true ->
  job_GroupID a = job_GroupID b -> a = b.
Proof.
  assert (H0 : jobs_ok (db_heal_jobs db_empty)).
  { split; [constructor|]. intros x y Hx. by apply not_elem_of_nil in Hx. }
  assert (Hr : forall ops t d, jobs_ok (db_heal_jobs d) -> jobs_ok (db_heal_jobs (run_job_ops ops env t d))).
  { clear. induction ops as [|o ops IH]; intros t d Hd; simpl; [done|].
    pose proof (run_job_op_keep o env t d) as Hk. destruct (run_job_op o env t d) as [[r t'] d'].
    apply IH. by apply Hk. }
  intros rows. by apply (Hr ops t db_empty H0).
Qed.

(** ** Pruning the heal history terminates *)

Lemma remove_event_sublist sel c rows : remove_event sel c rows `sublist_of` rows.
Proof.
  induction rows as [|r rows IH]; simpl; [done|]. case_match; by constructor.
Qed.

Lemma remove_event_count sel c rows x gid :
  x ∈ rows -> sel (her_rec x) = true -> her_created_at x = c ->
  (forall e, sel e = true -> fhe_GroupID e = gid) ->
  S (length (filter (fun r => fhe_GroupID (her_rec r) = gid) (remove_event sel c rows))) =
  length (filter (fun r => fhe_GroupID (her_rec r) = gid) rows).
Proof.
  intros Hx Hs Hc Hg. induction rows as [|r rows IH]; [by apply not_elem_of_nil in Hx|].
  cbn [remove_event]. destruct (sel (her_rec r) && (her_created_at r =? c)) eqn:E.
  - apply andb_true_iff in E as [E _]. rewrite filter_cons_True by by apply Hg. done.
  - apply elem_of_cons in Hx as [->|Hx]; [rewrite Hs, Hc, Z.eqb_refl in E; done|].
    rewrite !filter_cons. case_decide; cbn [length]; rewrite ?IH by done; done.
Qed.

Lemma oldest_event_Some sel rows x :
  oldest_event sel rows = Some x -> x ∈ rows /\ sel (her_rec x) = true.
Proof.
  unfold oldest_event. intros E.
  assert (Hx : x ∈ stable_sort (fun a b => her_created_at a <? her_created_at b)
                     (filter (fun r => sel (her_rec r) = true) rows)).
  { destruct (stable_sort _ _); [done|]. injection E as ->. constructor. }
  apply stable_sort_elem, list_elem_of_filter in Hx as [? ?]. done.
Qed.

Lemma oldest_event_None sel rows x : x ∈ rows -> sel (her_rec x) = true -> oldest_event sel rows <> None.
Proof.
  unfold oldest_event. intros Hx Hs E.
  assert (Hin : x ∈ stable_sort (fun a b => her_created_at a <? her_created_at b)
                     (filter (fun r => sel (her_rec r) = true) rows))
    by by apply stable_sort_elem, list_elem_of_filter.
  destruct (stable_sort _ _); [by apply not_elem_of_nil in Hin|done].
Qed.

Definition heal_shrinks (d d' : DB) : Prop := db_heal_events d' `sublist_of` db_heal_events d.
#[export] Instance heal_shrinks_preorder : PreOrder heal_shrinks.
Proof. split; unfold heal_shrinks; [by intros ?|]. intros ? ? ? H1 H2. by etrans. Qed.

Lemma heal_count_shrinks d d' g : heal_shrinks d d' -> heal_count g d' <= heal_count g d.
Proof.
  unfold heal_shrinks, heal_count. intros Hs. apply Nat2Z.inj_le.
  induction Hs; [done|rewrite !filter_cons; case_decide; simpl; lia|].
  rewrite (filter_cons _ x l2). case_decide; simpl; lia.
Qed.

Lemma prune_heal_group_spec fuel gid m removed env t d r t' d' :
  heal_count gid d < Z.of_nat fuel -> 0 <= m ->
  prune_heal_group fuel gid m removed env t d = (inl r, t', d') ->
  r <> None /\ heal_count gid d' <= m /\ heal_shrinks d d'.
Proof.
  revert removed t d. induction fuel as [|fuel IH]; intros removed t d Hf Hm E.
  { unfold heal_count in Hf. lia. }
  cbn [prune_heal_group] in E. apply bind_inl in E as (cnt & t1 & d1 & E1 & E).
  apply query_inl in E1 as [-> ->].
  destruct (Z.leb_spec (heal_count gid d) m) as [Hle|Hgt]; [sql_inv; split_and!; done|].
  apply bind_inl in E as (row & t2 & d2 & E1 & E). apply query_inl in E1 as [-> ->].
  destruct (oldest_event (fun e => str_eqb (fhe_GroupID e) gid) (db_heal_events d)) as [x|] eqn:Ex.
  - apply oldest_event_Some in Ex as [Hx Hg]. apply str_eqb_true in Hg.
    apply bind_inl in E as (? & t3 & d3 & E1 & E). apply wrap_inl, exec_inl in E1 as [-> _].
    apply bind_inl in E as (? & t4 & d4 & E1 & E). apply wrap_inl, exec_inl in E1 as [-> _].
    cbn [db_heal_events set_db_heal_audit] in E.
    set (sel := fun e => str_eqb (fhe_GroupID e) gid && str_eqb (fhe_TraceID e) (fhe_TraceID (her_rec x))) in E.
    assert (Hsx : sel (her_rec x) = true) by (unfold sel; by rewrite Hg, !str_eqb_refl).
    destruct (oldest_event sel (db_heal_events d)) as [y|] eqn:Ey;
      [|by destruct (oldest_event_None sel (db_heal_events d) x)].
    apply oldest_event_Some in Ey as [Hy Hsy].
    pose proof (remove_event_count sel (her_created_at y) (db_heal_events d) y gid Hy Hsy eq_refl) as Hcnt.
    apply IH in E; [|unfold heal_count in *; simpl; rewrite <-Hcnt in Hf; [lia|]|done].
    + destruct E as (? & ? & Hs). split_and!; [done..|]. etrans; [|exact Hs].
      apply remove_event_sublist.
    + intros e. unfold sel. intros He. by apply andb_true_iff in He as [He%str_eqb_true _].
  - exfalso. unfold heal_count in Hgt.
    destruct (filter (fun r => fhe_GroupID (her_rec r) = gid) (db_heal_events d)) as [|x l] eqn:El; [simpl in Hgt; lia|].
    assert (Hx : x ∈ filter (fun r => fhe_GroupID (her_rec r) = gid) (db_heal_events d)) by (rewrite El; constructor).
    apply list_elem_of_filter in Hx as [Hg Hx].
    eapply oldest_event_None; [exact Hx| |exact Ex]. by apply str_eqb_true.
Qed.

Lemma prune_heal_groups_spec gs m removed env t d r t' d' :
  0 <= m -> prune_heal_groups gs m removed env t d = (inl r, t', d') ->
  r <> None /\ heal_shrinks d d' /\ forall g, g ∈ gs -> heal_count g d' <= m.
Proof.
  intros Hm. revert removed t d. induction gs as [|g gs IH]; intros removed t d E; cbn [prune_heal_groups] in E.
  { sql_inv. split_and!; [done..|]. intros g Hg. by apply not_elem_of_nil in Hg. }
  apply bind_inl in E as (fuel & t1 & d1 & E1 & E). injection E1 as <- <- <-.
  apply bind_inl in E as (r1 & t2 & d2 & E1 & E).
  apply prune_heal_group_spec in E1 as (Hr & Hc & Hs); [|unfold heal_count|done].
  - destruct r1 as [n|]; [|done]. apply IH in E as (? & Hs' & Hg). split_and!; [done|by etrans|].
    intros g'. rewrite elem_of_cons. intros [->|Hin]; [|by apply Hg].
    etrans; [|exact Hc]. by apply heal_count_shrinks.
  - pose proof (length_filter (fun r => fhe_GroupID (her_rec r) = g) (db_heal_events d)). lia.
Qed.

(** Pruning the heal history always finishes, and leaves every group
    with at most the requested number of events. *)
Theorem heal_history_prune_terminates cutoff m env t d r t' d' :
  PruneForkHealHistory cutoff m env t d = (inl r, t', d') ->
  r <> None /\ (1 <= m -> forall g, heal_count g d' <= m).
Proof.
  unfold PruneForkHealHistory. intros E. sql_inv. destruct (Z.ltb_spec m 1).
  { sql_inv. split; [done|lia]. }
  sql_inv. apply prune_heal_groups_spec in E as (Hr & Hs & Hg); [|lia]. split; [done|]. intros _ g.
  match type of Hs with heal_shrinks ?d1 _ => set (d1' := d1) in * end.
  destruct (decide (g ∈ remove_dups ((fun r => fhe_GroupID (her_rec r)) <$> db_heal_events d1'))) as [Hin|Hin].
  - by apply Hg.
  - etrans; [by apply heal_count_shrinks|]. unfold heal_count.
    destruct (filter (fun r => fhe_GroupID (her_rec r) = g) (db_heal_events d1')) as [|x l] eqn:El; [simpl; lia|].
    destruct Hin. apply elem_of_remove_dups. apply list_elem_of_fmap. exists x.
    assert (Hx : x ∈ filter (fun r => fhe_GroupID (her_rec r) = g) (db_heal_events d1')) by (rewrite El; constructor).
    by apply list_elem_of_filter in Hx as [? ?].
Qed.
(** ** Instances *)

Definition demo_env : SqlEnv := mkSqlEnv (fun _ => None) (fun n => Z.of_nat n * Second) (fun _ => 0) true.
Definition demo_job (id : string) : ForkHealingJob :=
  mkForkHealingJob id "g" "t" "INITIATED" "" "" 0 1 2 [] [x01] [] [] "w" [] "" [] 0 [] [x09] "" 0 7 7 0.
Definition demo_saved : result unit * nat * DB := SaveForkHealingJob (demo_job "j") demo_env O db_empty.
Definition demo_got : result (option ForkHealingJob) * nat * DB :=
  GetForkHealingJobByID "j" demo_env demo_saved.1.2 demo_saved.2.

Lemma heal_job_round_trip_witness :
  exists j, demo_got.1.1 = inl (Some j) /\ job_PendingBundlePrivate j = [].
Proof.
  destruct (heal_job_round_trip (demo_job "j") demo_env O db_empty tt demo_saved.1.2 demo_saved.2
    (Some (job_row (demo_job "j"))) demo_got.1.2 demo_got.2) as (j & Hj & Hp & _).
  - vm_compute. reflexivity.
  - vm_compute. reflexivity.
  - exists j. split; [|exact Hp]. injection Hj as <-. vm_compute. reflexivity.
Defined.

Definition demo_job_ops : list job_op := [JobSave (demo_job "j"); JobSave (demo_job "k")].

Lemma one_active_heal_job_per_group_witness :
  Forall (fun b => job_active b = true -> job_GroupID b = "g" -> b = job_row (demo_job "j"))
    (db_heal_jobs (run_job_ops demo_job_ops demo_env O db_empty)).
Proof.
  apply Forall_forall. intros b Hb Hact Hg. symmetry.
  apply (one_active_heal_job_per_group demo_job_ops demo_env O (job_row (demo_job "j")) b); try done.
  vm_compute. left.
Defined.

Definition demo_event (trace : string) : HealEventRow :=
  mkHealEventRow (mkForkHealEventRecord trace "g" "w" 1 2 "ok" "" [] [] 0 0 0 0 0 0 0) 20.
Definition demo_events : DB := set_db_heal_events [demo_event "a"; demo_event "b"; demo_event "c"] db_empty.

Lemma heal_history_prune_terminates_witness :
  heal_count "g" (PruneForkHealHistory 10 1 demo_env O demo_events).2 <= 1.
Proof.
  refine (proj2 (heal_history_prune_terminates 10 1 demo_env O demo_events (Some 2)
    (PruneForkHealHistory 10 1 demo_env O demo_events).1.2
    (PruneForkHealHistory 10 1 demo_env O demo_events).2 _) _ "g").
  - vm_compute. reflexivity.
  - lia.
Defined.

End HealStore.
