(* ===== verification/AppDatabase.v ===== *)
(** * The tables of the application

    The tables of [adapter/store/db.go] that the services above the
    coordinator read and write: the group roster, the peer directory, the
    replicated records with their blobs, invite requests, add operations,
    welcomes, key packages and invites, the group event log, notifications, the
    profile of the user with the avatars, and the configuration.  The coordination tables are a
    field, since both live in one SQLite file.

    A table whose queries order by a key is a map under its primary key; the
    tables whose row order shows are lists in the order of the row id. *)
From S2P Require Import Prelude GoStrings Sha256 Types SingleWriter Database Store HealStore.

(** ** Rows *)

(** [GroupMemberRecord], a row of [group_members] *)
Record GroupMemberRecord := mkGroupMemberRecord {
  gm_GroupID : string;
  gm_PeerID : string;
  gm_DisplayName : string;
  gm_Role : string;
  gm_Status : string;
  gm_Source : string;
  gm_JoinedAt : Z;
  gm_LeftAt : Z;
  gm_UpdatedAt : Z;
}.
#[export] Instance GroupMemberRecord_eq_dec : EqDecision GroupMemberRecord.
Proof. solve_decision. Defined.

(** The columns of [mls_groups] that the group record does not have, with
    their defaults; they are meaningful where the group has a row. *)
Record GroupCols := mkGroupCols {
  gc_creator_peer_id : string;
  gc_invite_policy : string;
  gc_avatar_hash : string;
  gc_avatar_mime : string;
  gc_avatar_updated_at : Z;
}.
Definition default_cols : GroupCols := mkGroupCols "" "creator_approval" "" "" 0.

(** [peer_directory] *)
Record PeerDirectoryRow := mkPeerDirectoryRow {
  pd_PeerID : string;
  pd_DisplayName : string;
  pd_PublicKeyHex : string;
  pd_Email : option string;
  pd_Phone : option string;
  pd_AvatarHash : option string;
  pd_AvatarMime : option string;
  pd_AvatarUpdatedAt : Z;
  pd_ProfileRevision : Z;
  pd_ProfileSignature : option string;
  pd_UpdatedAt : Z;
}.

(** [ReplicatedRecordRow], a row of [replicated_records] *)
Record ReplicatedRecordRow := mkReplicatedRecordRow {
  rr_Namespace : string;
  rr_RecordKey : string;
  rr_OwnerPeerID : string;
  rr_Revision : Z;
  rr_SchemaVersion : Z;
  rr_BodyJSON : string;
  rr_BodyHash : string;
  rr_Signature : bytes;
  rr_SigningPublicKeyHex : string;
  rr_DeletedAt : Z;
  rr_UpdatedAt : Z;
}.

(** [replicated_blobs] and [avatar_blobs] *)
Record BlobRow := mkBlobRow {
  bl_mime : string;
  bl_bytes : bytes;
  bl_created_at : Z;
  bl_last_used_at : Z;
}.

(** [GroupInviteRequestRecord] and its row, which also has the link to the
    add operation. *)
Record GroupInviteRequestRecord := mkInviteRequest {
  ir_RequestID : string;
  ir_GroupID : string;
  ir_RequesterPeerID : string;
  ir_TargetPeerID : string;
  ir_Status : string;
  ir_FailureCode : string;
  ir_FailureMessage : string;
  ir_RejectionReason : string;
  ir_AttemptCount : Z;
  ir_MaxAttempts : Z;
  ir_ProcessingStartedAt : option Z;
  ir_ExpiresAt : Z;
  ir_CreatedAt : Z;
  ir_UpdatedAt : Z;
  ir_IsMirror : bool;
}.
#[export] Instance GroupInviteRequestRecord_eq_dec : EqDecision GroupInviteRequestRecord.
Proof. solve_decision. Defined.

Record InviteRow := mkInviteRow { iv_rec : GroupInviteRequestRecord; iv_add_operation_id : string }.

(** [GroupAddOperationRecord], a row of [group_add_operations] *)
Record GroupAddOperationRecord := mkAddOperation {
  ao_OperationID : string;
  ao_RequestID : string;
  ao_GroupID : string;
  ao_TargetPeerID : string;
  ao_RequesterPeerID : string;
  ao_ApproverPeerID : string;
  ao_KeyPackageHash : string;
  ao_ProposalEpoch : option Z;
  ao_CommitEpoch : option Z;
  ao_CommitHash : bytes;
  ao_WelcomeHash : string;
  ao_Status : string;
  ao_FailureCode : string;
  ao_FailureMessage : string;
  ao_CreatedAt : Z;
  ao_UpdatedAt : Z;
  ao_LastAttemptAt : Z;
}.

(** [GroupEventLogRecord], a row of [group_event_log] *)
Record GroupEventLogRecord := mkGroupEvent {
  ge_ID : Z;
  ge_GroupID : string;
  ge_EventType : string;
  ge_ActorPeerID : string;
  ge_TargetPeerID : string;
  ge_Epoch : Z;
  ge_PayloadJSON : bytes;
  ge_CreatedAtMs : Z;
}.

(** [MLSIdentity], the row of [mls_identity] *)
Record MLSIdentity := mkMLSIdentity {
  mi_DisplayName : string;
  mi_PublicKey : bytes;
  mi_SigningKeyPrivate : bytes;
  mi_Credential : bytes;
}.

(** [StoredAuthBundle], the row of [auth_bundle] *)
Record StoredAuthBundle := mkAuthBundle {
  sb_DisplayName : string;
  sb_PeerID : string;
  sb_PublicKey : bytes;
  sb_TokenIssuedAt : Z;
  sb_TokenExpiresAt : Z;
  sb_TokenSignature : bytes;
  sb_BootstrapAddr : string;
  sb_RootPublicKey : bytes;
}.

(** [PendingWelcome], a row of [pending_welcomes_out] with its [delivered]
    flag *)
Record PendingWelcome := mkPendingWelcome {
  pw_ID : Z;
  pw_TargetPeerID : string;
  pw_GroupID : string;
  pw_WelcomeBytes : bytes;
  pw_delivered : bool;
  pw_AnchorEpoch : Z;
  pw_AnchorHistoryHash : bytes;
}.
#[export] Instance PendingWelcome_eq_dec : EqDecision PendingWelcome.
Proof. solve_decision. Defined.

(** [stored_keypackages] *)
Record StoredKeyPackage := mkStoredKP { sk_public_kp : bytes; sk_source_peer_id : string; sk_updated_at : Z }.

(** [StoredWelcome], a row of [stored_welcomes] *)
Record StoredWelcome := mkStoredWelcome {
  stw_InviteePeerID : string;
  stw_GroupID : string;
  stw_GroupType : string;
  stw_CategoryID : string;
  stw_WelcomeBytes : bytes;
  stw_SourcePeerID : string;
  stw_AnchorEpoch : Z;
  stw_AnchorHistoryHash : bytes;
  stw_CreatedAt : Z;
}.
#[export] Instance StoredWelcome_eq_dec : EqDecision StoredWelcome.
Proof. solve_decision. Defined.

(** [PendingInvite], a row of [pending_invites] *)
Record PendingInvite := mkPendingInvite {
  pi_ID : string;
  pi_GroupID : string;
  pi_GroupType : string;
  pi_CategoryID : string;
  pi_GroupName : string;
  pi_InviterPeerID : string;
  pi_WelcomeHash : bytes;
  pi_WelcomeBytes : bytes;
  pi_SourcePeerID : string;
  pi_Status : string;
  pi_ReceivedAt : Z;
  pi_UpdatedAt : Z;
}.
#[export] Instance PendingInvite_eq_dec : EqDecision PendingInvite.
Proof. solve_decision. Defined.

(** [ChannelCategoryRecord], a row of [channel_categories] *)
Record ChannelCategoryRecord := mkChannelCategory {
  cc_CategoryID : string;
  cc_Name : string;
  cc_SortOrder : Z;
  cc_CreatedBy : string;
  cc_CreatedAt : Z;
  cc_UpdatedAt : Z;
}.

(** [domain.Notification], a row of [notifications] *)
Record Notification := mkNotification {
  nt_ID : string;
  nt_Type : string;
  nt_GroupID : string;
  nt_ActorPeerID : string;
  nt_TargetID : string;
  nt_Content : string;
  nt_IsRead : bool;
  nt_CreatedAt : time;
}.

(** [LocalProfileRow], the row of [local_profile] *)
Record LocalProfileRow := mkLocalProfile {
  lp_PeerID : string;
  lp_DisplayName : string;
  lp_Email : option string;
  lp_Phone : option string;
  lp_AvatarHash : option string;
  lp_AvatarMime : option string;
  lp_AvatarUpdatedAt : Z;
  lp_ProfileRevision : Z;
  lp_UpdatedAt : Z;
}.

(** ** The tables *)

Record AppDB := mkAppDB {
  adb_core : DB;
  adb_group_cols : gmap string GroupCols;
  adb_members : gmap (string * string) GroupMemberRecord;
  adb_directory : list PeerDirectoryRow;
  adb_records : gmap (string * string) ReplicatedRecordRow;
  adb_record_blobs : gmap (string * string) (gmap string bool);
  adb_pull_state : gmap (string * string * string) Z;
  adb_replicated_blobs : gmap string BlobRow;
  adb_invites : gmap string InviteRow;
  adb_add_ops : gmap string GroupAddOperationRecord;
  adb_applied_welcomes : gmap string (string * Z);
  adb_events : list GroupEventLogRecord;
  adb_event_id : Z;
  adb_config : gmap string bytes;
  adb_identity : option MLSIdentity;
  adb_auth : option StoredAuthBundle;
  adb_kp_bundles : gmap string (bytes * bytes);
  adb_welcomes_out : list PendingWelcome;
  adb_welcome_out_id : Z;
  adb_stored_kps : gmap string StoredKeyPackage;
  adb_stored_welcomes : list StoredWelcome;
  adb_pending_invites : list PendingInvite;
  adb_notifications : list Notification;
  adb_categories : gmap string ChannelCategoryRecord;
  adb_category_events : gmap string Z;
  adb_local_profile : option LocalProfileRow;
  adb_avatar_blobs : gmap string BlobRow;
}.

Definition set_adb_core (v : DB) (d : AppDB) : AppDB :=
  mkAppDB v (adb_group_cols d) (adb_members d) (adb_directory d) (adb_records d)
    (adb_record_blobs d) (adb_pull_state d) (adb_replicated_blobs d) (adb_invites d) (adb_add_ops d)
    (adb_applied_welcomes d) (adb_events d) (adb_event_id d) (adb_config d) (adb_identity d)
    (adb_auth d) (adb_kp_bundles d) (adb_welcomes_out d) (adb_welcome_out_id d) (adb_stored_kps d)
    (adb_stored_welcomes d) (adb_pending_invites d) (adb_notifications d) (adb_categories d)
    (adb_category_events d) (adb_local_profile d) (adb_avatar_blobs d).
Definition set_adb_group_cols (v : gmap string GroupCols) (d : AppDB) : AppDB :=
  mkAppDB (adb_core d) v (adb_members d) (adb_directory d) (adb_records d) (adb_record_blobs d)
    (adb_pull_state d) (adb_replicated_blobs d) (adb_invites d) (adb_add_ops d)
    (adb_applied_welcomes d) (adb_events d) (adb_event_id d) (adb_config d) (adb_identity d)
    (adb_auth d) (adb_kp_bundles d) (adb_welcomes_out d) (adb_welcome_out_id d) (adb_stored_kps d)
    (adb_stored_welcomes d) (adb_pending_invites d) (adb_notifications d) (adb_categories d)
    (adb_category_events d) (adb_local_profile d) (adb_avatar_blobs d).
Definition set_adb_members (v : gmap (string * string) GroupMemberRecord) (d : AppDB) : AppDB :=
  mkAppDB (adb_core d) (adb_group_cols d) v (adb_directory d) (adb_records d) (adb_record_blobs d)
    (adb_pull_state d) (adb_replicated_blobs d) (adb_invites d) (adb_add_ops d)
    (adb_applied_welcomes d) (adb_events d) (adb_event_id d) (adb_config d) (adb_identity d)
    (adb_auth d) (adb_kp_bundles d) (adb_welcomes_out d) (adb_welcome_out_id d) (adb_stored_kps d)
    (adb_stored_welcomes d) (adb_pending_invites d) (adb_notifications d) (adb_categories d)
    (adb_category_events d) (adb_local_profile d) (adb_avatar_blobs d).
Definition set_adb_directory (v : list PeerDirectoryRow) (d : AppDB) : AppDB :=
  mkAppDB (adb_core d) (adb_group_cols d) (adb_members d) v (adb_records d) (adb_record_blobs d)
    (adb_pull_state d) (adb_replicated_blobs d) (adb_invites d) (adb_add_ops d)
    (adb_applied_welcomes d) (adb_events d) (adb_event_id d) (adb_config d) (adb_identity d)
    (adb_auth d) (adb_kp_bundles d) (adb_welcomes_out d) (adb_welcome_out_id d) (adb_stored_kps d)
    (adb_stored_welcomes d) (adb_pending_invites d) (adb_notifications d) (adb_categories d)
    (adb_category_events d) (adb_local_profile d) (adb_avatar_blobs d).
Definition set_adb_records (v : gmap (string * string) ReplicatedRecordRow) (d : AppDB) : AppDB :=
  mkAppDB (adb_core d) (adb_group_cols d) (adb_members d) (adb_directory d) v (adb_record_blobs d)
    (adb_pull_state d) (adb_replicated_blobs d) (adb_invites d) (adb_add_ops d)
    (adb_applied_welcomes d) (adb_events d) (adb_event_id d) (adb_config d) (adb_identity d)
    (adb_auth d) (adb_kp_bundles d) (adb_welcomes_out d) (adb_welcome_out_id d) (adb_stored_kps d)
    (adb_stored_welcomes d) (adb_pending_invites d) (adb_notifications d) (adb_categories d)
    (adb_category_events d) (adb_local_profile d) (adb_avatar_blobs d).
Definition set_adb_record_blobs (v : gmap (string * string) (gmap string bool)) (d : AppDB) : AppDB :=
  mkAppDB (adb_core d) (adb_group_cols d) (adb_members d) (adb_directory d) (adb_records d) v
    (adb_pull_state d) (adb_replicated_blobs d) (adb_invites d) (adb_add_ops d)
    (adb_applied_welcomes d) (adb_events d) (adb_event_id d) (adb_config d) (adb_identity d)
    (adb_auth d) (adb_kp_bundles d) (adb_welcomes_out d) (adb_welcome_out_id d) (adb_stored_kps d)
    (adb_stored_welcomes d) (adb_pending_invites d) (adb_notifications d) (adb_categories d)
    (adb_category_events d) (adb_local_profile d) (adb_avatar_blobs d).
Definition set_adb_pull_state (v : gmap (string * string * string) Z) (d : AppDB) : AppDB :=
  mkAppDB (adb_core d) (adb_group_cols d) (adb_members d) (adb_directory d) (adb_records d)
    (adb_record_blobs d) v (adb_replicated_blobs d) (adb_invites d) (adb_add_ops d)
    (adb_applied_welcomes d) (adb_events d) (adb_event_id d) (adb_config d) (adb_identity d)
    (adb_auth d) (adb_kp_bundles d) (adb_welcomes_out d) (adb_welcome_out_id d) (adb_stored_kps d)
    (adb_stored_welcomes d) (adb_pending_invites d) (adb_notifications d) (adb_categories d)
    (adb_category_events d) (adb_local_profile d) (adb_avatar_blobs d).
Definition set_adb_replicated_blobs (v : gmap string BlobRow) (d : AppDB) : AppDB :=
  mkAppDB (adb_core d) (adb_group_cols d) (adb_members d) (adb_directory d) (adb_records d)
    (adb_record_blobs d) (adb_pull_state d) v (adb_invites d) (adb_add_ops d)
    (adb_applied_welcomes d) (adb_events d) (adb_event_id d) (adb_config d) (adb_identity d)
    (adb_auth d) (adb_kp_bundles d) (adb_welcomes_out d) (adb_welcome_out_id d) (adb_stored_kps d)
    (adb_stored_welcomes d) (adb_pending_invites d) (adb_notifications d) (adb_categories d)
    (adb_category_events d) (adb_local_profile d) (adb_avatar_blobs d).
Definition set_adb_invites (v : gmap string InviteRow) (d : AppDB) : AppDB :=
  mkAppDB (adb_core d) (adb_group_cols d) (adb_members d) (adb_directory d) (adb_records d)
    (adb_record_blobs d) (adb_pull_state d) (adb_replicated_blobs d) v (adb_add_ops d)
    (adb_applied_welcomes d) (adb_events d) (adb_event_id d) (adb_config d) (adb_identity d)
    (adb_auth d) (adb_kp_bundles d) (adb_welcomes_out d) (adb_welcome_out_id d) (adb_stored_kps d)
    (adb_stored_welcomes d) (adb_pending_invites d) (adb_notifications d) (adb_categories d)
    (adb_category_events d) (adb_local_profile d) (adb_avatar_blobs d).
Definition set_adb_add_ops (v : gmap string GroupAddOperationRecord) (d : AppDB) : AppDB :=
  mkAppDB (adb_core d) (adb_group_cols d) (adb_members d) (adb_directory d) (adb_records d)
    (adb_record_blobs d) (adb_pull_state d) (adb_replicated_blobs d) (adb_invites d) v
    (adb_applied_welcomes d) (adb_events d) (adb_event_id d) (adb_config d) (adb_identity d)
    (adb_auth d) (adb_kp_bundles d) (adb_welcomes_out d) (adb_welcome_out_id d) (adb_stored_kps d)
    (adb_stored_welcomes d) (adb_pending_invites d) (adb_notifications d) (adb_categories d)
    (adb_category_events d) (adb_local_profile d) (adb_avatar_blobs d).
Definition set_adb_applied_welcomes (v : gmap string (string * Z)) (d : AppDB) : AppDB :=
  mkAppDB (adb_core d) (adb_group_cols d) (adb_members d) (adb_directory d) (adb_records d)
    (adb_record_blobs d) (adb_pull_state d) (adb_replicated_blobs d) (adb_invites d) (adb_add_ops d)
    v (adb_events d) (adb_event_id d) (adb_config d) (adb_identity d) (adb_auth d)
    (adb_kp_bundles d) (adb_welcomes_out d) (adb_welcome_out_id d) (adb_stored_kps d)
    (adb_stored_welcomes d) (adb_pending_invites d) (adb_notifications d) (adb_categories d)
    (adb_category_events d) (adb_local_profile d) (adb_avatar_blobs d).
Definition set_adb_events (v : list GroupEventLogRecord) (d : AppDB) : AppDB :=
  mkAppDB (adb_core d) (adb_group_cols d) (adb_members d) (adb_directory d) (adb_records d)
    (adb_record_blobs d) (adb_pull_state d) (adb_replicated_blobs d) (adb_invites d) (adb_add_ops d)
    (adb_applied_welcomes d) v (adb_event_id d) (adb_config d) (adb_identity d) (adb_auth d)
    (adb_kp_bundles d) (adb_welcomes_out d) (adb_welcome_out_id d) (adb_stored_kps d)
    (adb_stored_welcomes d) (adb_pending_invites d) (adb_notifications d) (adb_categories d)
    (adb_category_events d) (adb_local_profile d) (adb_avatar_blobs d).
Definition set_adb_event_id (v : Z) (d : AppDB) : AppDB :=
  mkAppDB (adb_core d) (adb_group_cols d) (adb_members d) (adb_directory d) (adb_records d)
    (adb_record_blobs d) (adb_pull_state d) (adb_replicated_blobs d) (adb_invites d) (adb_add_ops d)
    (adb_applied_welcomes d) (adb_events d) v (adb_config d) (adb_identity d) (adb_auth d)
    (adb_kp_bundles d) (adb_welcomes_out d) (adb_welcome_out_id d) (adb_stored_kps d)
    (adb_stored_welcomes d) (adb_pending_invites d) (adb_notifications d) (adb_categories d)
    (adb_category_events d) (adb_local_profile d) (adb_avatar_blobs d).
Definition set_adb_config (v : gmap string bytes) (d : AppDB) : AppDB :=
  mkAppDB (adb_core d) (adb_group_cols d) (adb_members d) (adb_directory d) (adb_records d)
    (adb_record_blobs d) (adb_pull_state d) (adb_replicated_blobs d) (adb_invites d) (adb_add_ops d)
    (adb_applied_welcomes d) (adb_events d) (adb_event_id d) v (adb_identity d) (adb_auth d)
    (adb_kp_bundles d) (adb_welcomes_out d) (adb_welcome_out_id d) (adb_stored_kps d)
    (adb_stored_welcomes d) (adb_pending_invites d) (adb_notifications d) (adb_categories d)
    (adb_category_events d) (adb_local_profile d) (adb_avatar_blobs d).
Definition set_adb_identity (v : option MLSIdentity) (d : AppDB) : AppDB :=
  mkAppDB (adb_core d) (adb_group_cols d) (adb_members d) (adb_directory d) (adb_records d)
    (adb_record_blobs d) (adb_pull_state d) (adb_replicated_blobs d) (adb_invites d) (adb_add_ops d)
    (adb_applied_welcomes d) (adb_events d) (adb_event_id d) (adb_config d) v (adb_auth d)
    (adb_kp_bundles d) (adb_welcomes_out d) (adb_welcome_out_id d) (adb_stored_kps d)
    (adb_stored_welcomes d) (adb_pending_invites d) (adb_notifications d) (adb_categories d)
    (adb_category_events d) (adb_local_profile d) (adb_avatar_blobs d).
Definition set_adb_auth (v : option StoredAuthBundle) (d : AppDB) : AppDB :=
  mkAppDB (adb_core d) (adb_group_cols d) (adb_members d) (adb_directory d) (adb_records d)
    (adb_record_blobs d) (adb_pull_state d) (adb_replicated_blobs d) (adb_invites d) (adb_add_ops d)
    (adb_applied_welcomes d) (adb_events d) (adb_event_id d) (adb_config d) (adb_identity d) v
    (adb_kp_bundles d) (adb_welcomes_out d) (adb_welcome_out_id d) (adb_stored_kps d)
    (adb_stored_welcomes d) (adb_pending_invites d) (adb_notifications d) (adb_categories d)
    (adb_category_events d) (adb_local_profile d) (adb_avatar_blobs d).
Definition set_adb_kp_bundles (v : gmap string (bytes * bytes)) (d : AppDB) : AppDB :=
  mkAppDB (adb_core d) (adb_group_cols d) (adb_members d) (adb_directory d) (adb_records d)
    (adb_record_blobs d) (adb_pull_state d) (adb_replicated_blobs d) (adb_invites d) (adb_add_ops d)
    (adb_applied_welcomes d) (adb_events d) (adb_event_id d) (adb_config d) (adb_identity d)
    (adb_auth d) v (adb_welcomes_out d) (adb_welcome_out_id d) (adb_stored_kps d)
    (adb_stored_welcomes d) (adb_pending_invites d) (adb_notifications d) (adb_categories d)
    (adb_category_events d) (adb_local_profile d) (adb_avatar_blobs d).
Definition set_adb_welcomes_out (v : list PendingWelcome) (d : AppDB) : AppDB :=
  mkAppDB (adb_core d) (adb_group_cols d) (adb_members d) (adb_directory d) (adb_records d)
    (adb_record_blobs d) (adb_pull_state d) (adb_replicated_blobs d) (adb_invites d) (adb_add_ops d)
    (adb_applied_welcomes d) (adb_events d) (adb_event_id d) (adb_config d) (adb_identity d)
    (adb_auth d) (adb_kp_bundles d) v (adb_welcome_out_id d) (adb_stored_kps d)
    (adb_stored_welcomes d) (adb_pending_invites d) (adb_notifications d) (adb_categories d)
    (adb_category_events d) (adb_local_profile d) (adb_avatar_blobs d).
Definition set_adb_welcome_out_id (v : Z) (d : AppDB) : AppDB :=
  mkAppDB (adb_core d) (adb_group_cols d) (adb_members d) (adb_directory d) (adb_records d)
    (adb_record_blobs d) (adb_pull_state d) (adb_replicated_blobs d) (adb_invites d) (adb_add_ops d)
    (adb_applied_welcomes d) (adb_events d) (adb_event_id d) (adb_config d) (adb_identity d)
    (adb_auth d) (adb_kp_bundles d) (adb_welcomes_out d) v (adb_stored_kps d)
    (adb_stored_welcomes d) (adb_pending_invites d) (adb_notifications d) (adb_categories d)
    (adb_category_events d) (adb_local_profile d) (adb_avatar_blobs d).
Definition set_adb_stored_kps (v : gmap string StoredKeyPackage) (d : AppDB) : AppDB :=
  mkAppDB (adb_core d) (adb_group_cols d) (adb_members d) (adb_directory d) (adb_records d)
    (adb_record_blobs d) (adb_pull_state d) (adb_replicated_blobs d) (adb_invites d) (adb_add_ops d)
    (adb_applied_welcomes d) (adb_events d) (adb_event_id d) (adb_config d) (adb_identity d)
    (adb_auth d) (adb_kp_bundles d) (adb_welcomes_out d) (adb_welcome_out_id d) v
    (adb_stored_welcomes d) (adb_pending_invites d) (adb_notifications d) (adb_categories d)
    (adb_category_events d) (adb_local_profile d) (adb_avatar_blobs d).
Definition set_adb_stored_welcomes (v : list StoredWelcome) (d : AppDB) : AppDB :=
  mkAppDB (adb_core d) (adb_group_cols d) (adb_members d) (adb_directory d) (adb_records d)
    (adb_record_blobs d) (adb_pull_state d) (adb_replicated_blobs d) (adb_invites d) (adb_add_ops d)
    (adb_applied_welcomes d) (adb_events d) (adb_event_id d) (adb_config d) (adb_identity d)
    (adb_auth d) (adb_kp_bundles d) (adb_welcomes_out d) (adb_welcome_out_id d) (adb_stored_kps d) v
    (adb_pending_invites d) (adb_notifications d) (adb_categories d) (adb_category_events d)
    (adb_local_profile d) (adb_avatar_blobs d).
Definition set_adb_pending_invites (v : list PendingInvite) (d : AppDB) : AppDB :=
  mkAppDB (adb_core d) (adb_group_cols d) (adb_members d) (adb_directory d) (adb_records d)
    (adb_record_blobs d) (adb_pull_state d) (adb_replicated_blobs d) (adb_invites d) (adb_add_ops d)
    (adb_applied_welcomes d) (adb_events d) (adb_event_id d) (adb_config d) (adb_identity d)
    (adb_auth d) (adb_kp_bundles d) (adb_welcomes_out d) (adb_welcome_out_id d) (adb_stored_kps d)
    (adb_stored_welcomes d) v (adb_notifications d) (adb_categories d) (adb_category_events d)
    (adb_local_profile d) (adb_avatar_blobs d).
Definition set_adb_notifications (v : list Notification) (d : AppDB) : AppDB :=
  mkAppDB (adb_core d) (adb_group_cols d) (adb_members d) (adb_directory d) (adb_records d)
    (adb_record_blobs d) (adb_pull_state d) (adb_replicated_blobs d) (adb_invites d) (adb_add_ops d)
    (adb_applied_welcomes d) (adb_events d) (adb_event_id d) (adb_config d) (adb_identity d)
    (adb_auth d) (adb_kp_bundles d) (adb_welcomes_out d) (adb_welcome_out_id d) (adb_stored_kps d)
    (adb_stored_welcomes d) (adb_pending_invites d) v (adb_categories d) (adb_category_events d)
    (adb_local_profile d) (adb_avatar_blobs d).
Definition set_adb_categories (v : gmap string ChannelCategoryRecord) (d : AppDB) : AppDB :=
  mkAppDB (adb_core d) (adb_group_cols d) (adb_members d) (adb_directory d) (adb_records d)
    (adb_record_blobs d) (adb_pull_state d) (adb_replicated_blobs d) (adb_invites d) (adb_add_ops d)
    (adb_applied_welcomes d) (adb_events d) (adb_event_id d) (adb_config d) (adb_identity d)
    (adb_auth d) (adb_kp_bundles d) (adb_welcomes_out d) (adb_welcome_out_id d) (adb_stored_kps d)
    (adb_stored_welcomes d) (adb_pending_invites d) (adb_notifications d) v (adb_category_events d)
    (adb_local_profile d) (adb_avatar_blobs d).
Definition set_adb_category_events (v : gmap string Z) (d : AppDB) : AppDB :=
  mkAppDB (adb_core d) (adb_group_cols d) (adb_members d) (adb_directory d) (adb_records d)
    (adb_record_blobs d) (adb_pull_state d) (adb_replicated_blobs d) (adb_invites d) (adb_add_ops d)
    (adb_applied_welcomes d) (adb_events d) (adb_event_id d) (adb_config d) (adb_identity d)
    (adb_auth d) (adb_kp_bundles d) (adb_welcomes_out d) (adb_welcome_out_id d) (adb_stored_kps d)
    (adb_stored_welcomes d) (adb_pending_invites d) (adb_notifications d) (adb_categories d) v
    (adb_local_profile d) (adb_avatar_blobs d).
Definition set_adb_local_profile (v : option LocalProfileRow) (d : AppDB) : AppDB :=
  mkAppDB (adb_core d) (adb_group_cols d) (adb_members d) (adb_directory d) (adb_records d)
    (adb_record_blobs d) (adb_pull_state d) (adb_replicated_blobs d) (adb_invites d) (adb_add_ops d)
    (adb_applied_welcomes d) (adb_events d) (adb_event_id d) (adb_config d) (adb_identity d)
    (adb_auth d) (adb_kp_bundles d) (adb_welcomes_out d) (adb_welcome_out_id d) (adb_stored_kps d)
    (adb_stored_welcomes d) (adb_pending_invites d) (adb_notifications d) (adb_categories d)
    (adb_category_events d) v (adb_avatar_blobs d).
Definition set_adb_avatar_blobs (v : gmap string BlobRow) (d : AppDB) : AppDB :=
  mkAppDB (adb_core d) (adb_group_cols d) (adb_members d) (adb_directory d) (adb_records d)
    (adb_record_blobs d) (adb_pull_state d) (adb_replicated_blobs d) (adb_invites d) (adb_add_ops d)
    (adb_applied_welcomes d) (adb_events d) (adb_event_id d) (adb_config d) (adb_identity d)
    (adb_auth d) (adb_kp_bundles d) (adb_welcomes_out d) (adb_welcome_out_id d) (adb_stored_kps d)
    (adb_stored_welcomes d) (adb_pending_invites d) (adb_notifications d) (adb_categories d)
    (adb_category_events d) (adb_local_profile d) v.

Definition adb_empty : AppDB := mkAppDB db_empty ∅ ∅ [] ∅ ∅ ∅ ∅ ∅ ∅ ∅ [] 0 ∅ None None ∅ [] 0 ∅ [] [] [] ∅ ∅ None ∅.

(** ** Statements *)

Abbreviation ASQL := (SQLs AppDB).

(** A storage method of the coordination layer, on its tables. *)
Definition core {A} (m : SQL A) : ASQL A := fun env t d =>
  match m env t (adb_core d) with (r, t', c) => (r, t', set_adb_core c d) end.

(** [Exec] with [RowsAffected]: the statement gives the new tables and the
    number of rows it changed. *)
Definition sql_update {D} (f : D -> D * Z) : SQLs D Z := fun env t d =>
  match sql_fails env t with
  | Some e => (inr (ErrText e), S t, d)
  | None => (inl (f d).2, S t, (f d).1)
  end.

(** An [UPDATE] that a unique index can refuse. *)
Definition sql_update_unique {D} (index : string) (violates : D -> bool) (f : D -> D * Z) : SQLs D Z :=
  bad <-! sql_query violates ;
  if bad : bool then sql_throw (HealStore.ErrUnique index) else sql_update f.

(** [time.Now().Unix()] and [strftime('%s','now')] *)
Definition unix_now {D} : SQLs D Z := t <-! sql_time ; sql_ret (t / Second).
(** [time.Now().UnixMilli()] *)
Definition unix_milli_now {D} : SQLs D Z := t <-! sql_time ; sql_ret (t / Millisecond).

(** [sql.ErrNoRows] *)
Definition sql_ErrNoRows : GoError := ErrSentinel "sql: no rows in result set".

(** [QueryRow(...).Scan(...)] *)
Definition sql_row {D A} (f : D -> option A) : SQLs D A :=
  r <-! sql_query f ;
  match r with Some a => sql_ret a | None => sql_throw sql_ErrNoRows end.

(** Run and hand the error to the continuation, as code that looks at [err]
    before it returns. *)
Definition sql_try {D A} (m : SQLs D A) : SQLs D (result A) := fun env t d =>
  match m env t d with (r, t', d') => (inl r, t', d') end.

(** SQL [trim(s)]: spaces only *)
Definition sql_trim_empty (s : string) : bool := negb (sql_nonblank s).

(** Wrapped errors of an existing statement are those of [fmt.Errorf("...%w")]. *)
Lemma readonly_unix_now {D} : readonly (@unix_now D).
Proof. apply readonly_bind; intros; apply readonly_time || apply readonly_ret. Qed.
Lemma readonly_row {D A} (f : D -> option A) : readonly (sql_row f).
Proof. apply readonly_bind; [apply readonly_query|]. by intros [a|]. Qed.
Lemma readonly_try {D A} (m : SQLs D A) : readonly m -> readonly (sql_try m).
Proof. intros H env t d. specialize (H env t d). unfold sql_try. by destruct (m env t d) as [[r t'] d']. Qed.
#[export] Hint Resolve readonly_unix_now readonly_row readonly_try : coord.

Lemma update_inl {D} (f : D -> D * Z) env t d n t' d' :
  sql_update f env t d = (inl n, t', d') -> d' = (f d).1 /\ n = (f d).2.
Proof. unfold sql_update. destruct (sql_fails env t); [done|]. by intros [= <- <- <-]. Qed.

Lemma row_inl {D A} (f : D -> option A) env t d a t' d' :
  sql_row f env t d = (inl a, t', d') -> f d = Some a /\ d' = d.
Proof.
  unfold sql_row. intros H. sql_inv. case_match; sql_inv. done.
Qed.

Lemma unix_now_inl {D} env t (d : D) a t' d' :
  unix_now env t d = (inl a, t', d') -> d' = d.
Proof. unfold unix_now. intros H. by sql_inv. Qed.

Lemma respects_update {D} (R : D -> D -> Prop) `{!PreOrder R} f :
  (forall d, R d (f d).1) -> respects R (sql_update f).
Proof. intros H env t d. unfold sql_update. case_match; simpl; [reflexivity|apply H]. Qed.

Lemma respects_update_unique {D} (R : D -> D -> Prop) `{!PreOrder R} i v f :
  (forall d, v d = false -> R d (f d).1) -> respects R (sql_update_unique i v f).
Proof.
  intros H env t d. unfold sql_update_unique, sql_bind, sql_query, sql_throw, sql_update.
  destruct (sql_fails env t); simpl; [reflexivity|]. destruct (v d) eqn:E; simpl; [reflexivity|].
  destruct (sql_fails env (S t)); simpl; [reflexivity|]. by apply H.
Qed.

Lemma respects_try {D A} (R : D -> D -> Prop) (m : SQLs D A) : respects R m -> respects R (sql_try m).
Proof. intros H env t d. specialize (H env t d). unfold sql_try. by destruct (m env t d) as [[r t'] d']. Qed.

Lemma respects_weaken {D A} (R R' : D -> D -> Prop) (m : SQLs D A) :
  (forall d d', R d d' -> R' d d') -> respects R m -> respects R' m.
Proof. intros HR H env t d. apply HR, H. Qed.

(** An invariant, as a relation. *)
Definition keeps {D} (P : D -> Prop) (d d' : D) : Prop := P d -> P d'.
#[export] Instance keeps_preorder {D} (P : D -> Prop) : PreOrder (keeps P).
Proof. split; [by intros d Hd|intros d1 d2 d3 H1 H2 Hd; by apply H2, H1]. Qed.

(** A part of the tables that stays. *)
Definition same {D X} (f : D -> X) (d d' : D) : Prop := f d' = f d.
#[export] Instance same_preorder {D X} (f : D -> X) : PreOrder (same f).
Proof. split; [done|]. intros d1 d2 d3 H1 H2. unfold same in *. congruence. Qed.

(** [sql_step] and [sql_inv] with the statements of this file. *)
Ltac asql_step :=
  match goal with
  | |- respects _ (sql_update _) => apply respects_update; [apply _|intro]
  | |- respects _ (sql_update_unique _ _ _) => apply respects_update_unique; [apply _|intros ? ?]
  | |- respects _ (HealStore.sql_exec_unique _ _ _) => apply HealStore.respects_exec_unique; [apply _|intros ? ?]
  | |- respects _ (HealStore.sql_not_null _ _) => apply respects_readonly; [apply _|apply HealStore.readonly_not_null]
  | |- respects _ (sql_try _) => apply respects_try
  | |- respects _ unix_now => apply respects_readonly; [apply _|apply readonly_unix_now]
  | |- respects _ (sql_row _) => apply respects_readonly; [apply _|apply readonly_row]
  | |- respects _ (let '(_, _) := ?p in _) => destruct p
  | _ => sql_step
  end.

Ltac asql_inv :=
  repeat first [ progress sql_inv |
  match goal with
  | H : sql_update _ _ _ _ = (inl _, _, _) |- _ => apply update_inl in H; destruct H as [-> ->]
  | H : sql_row _ _ _ _ = (inl _, _, _) |- _ => apply row_inl in H; destruct H as [? ->]
  | H : unix_now _ _ _ = (inl _, _, _) |- _ => apply unix_now_inl in H; subst
  end ].
