(* ===== verification/Identity.v ===== *)
(** * Identity: keys, tokens and the bundle of the administrator

    [adapter/store/db_config.go] and [db_identity.go]: the configuration and
    the identity of the node; [admin/token.go] and [admin/admin.go]: the root
    key and the tokens it signs; [adapter/p2p/auth.go]: importing a bundle.

    Ed25519, JSON, Argon2id and AES-GCM are interfaces with the laws that their
    documentation states. *)
From S2P Require Import Prelude GoStrings Sha256 Types SingleWriter Database Store HealStore AppDatabase.

(** ** Interfaces *)

(** [crypto/ed25519] *)
Class Ed25519 := {
  ed_Sign : bytes -> bytes -> bytes;
  ed_Verify : bytes -> bytes -> bytes -> bool;
  ed_NewKeyFromSeed : bytes -> bytes;
  ed_Public : bytes -> bytes;
}.
Class Ed25519Laws `{Ed25519} := {
  ed_verify_sign : forall priv m, length priv = 64%nat -> ed_Verify (ed_Public priv) m (ed_Sign priv m) = true;
  ed_public_length : forall priv, length priv = 64%nat -> length (ed_Public priv) = 32%nat;
  ed_sign_length : forall priv m, length priv = 64%nat -> length (ed_Sign priv m) = 64%nat;
  ed_seed_length : forall seed, length seed = 32%nat -> length (ed_NewKeyFromSeed seed) = 64%nat;
}.

(** A panic of the library, which ends the goroutine. *)
Definition panicked (msg : string) : GoError := ErrSentinel ("panic: " +:+ msg).

(** [ed25519.Verify] and [ed25519.Sign] panic on a key of the wrong length. *)
Definition ed25519_Verify `{Ed25519} (pub m sig : bytes) : result bool :=
  if (length pub =? 32)%nat then inl (ed_Verify pub m sig) else inr (panicked "ed25519: bad public key length").
Definition ed25519_Sign `{Ed25519} (priv m : bytes) : result bytes :=
  if (length priv =? 64)%nat then inl (ed_Sign priv m) else inr (panicked "ed25519: bad private key length").

(** [InvitationToken], [tokenPayload] and [InvitationBundle] of [token.go] *)
Record InvitationToken := mkToken {
  tk_Version : Z;
  tk_DisplayName : string;
  tk_PeerID : string;
  tk_PublicKey : bytes;
  tk_IssuedAt : Z;
  tk_ExpiresAt : Z;
  tk_Signature : bytes;
}.
Record tokenPayload := mkTokenPayload {
  tp_Version : Z;
  tp_DisplayName : string;
  tp_PeerID : string;
  tp_PublicKey : bytes;
  tp_IssuedAt : Z;
  tp_ExpiresAt : Z;
}.
Record InvitationBundle := mkBundle {
  ib_Token : option InvitationToken;
  ib_BootstrapAddr : string;
  ib_RootPublicKey : bytes;
}.

#[export] Instance InvitationToken_eq_dec : EqDecision InvitationToken.
Proof. solve_decision. Defined.
#[export] Instance InvitationBundle_eq_dec : EqDecision InvitationBundle.
Proof. solve_decision. Defined.

(** Text that JSON keeps: valid UTF-8. *)
Definition valid_text (s : string) : Prop := of_runes (runes s) = s.

(** [encoding/json] on these types; [Marshal] does not fail on them. *)
Class TokenJSON := {
  payload_Marshal : tokenPayload -> bytes;
  bundle_Marshal : InvitationBundle -> bytes;
  bundle_Unmarshal : bytes -> option InvitationBundle;
}.
Definition valid_token (t : InvitationToken) : Prop := valid_text (tk_DisplayName t) /\ valid_text (tk_PeerID t).
Class TokenJSONLaws `{TokenJSON} := {
  bundle_round_trip : forall t addr root, valid_token t -> valid_text addr ->
    bundle_Unmarshal (bundle_Marshal (mkBundle (Some t) addr root)) = Some (mkBundle (Some t) addr root);
}.

(** Argon2id with the parameters of [deriveKey], and AES-256-GCM. *)
Class KeyCrypto := {
  argon2_IDKey : string -> bytes -> bytes;
  gcm_Seal : bytes -> bytes -> bytes -> bytes;
  gcm_Open : bytes -> bytes -> bytes -> option bytes;
}.
Class KeyCryptoLaws `{KeyCrypto} := {
  argon2_length : forall pass salt, length (argon2_IDKey pass salt) = 32%nat;
  gcm_open_seal : forall key nonce p, length key = 32%nat -> length nonce = 12%nat ->
    gcm_Open key nonce (gcm_Seal key nonce p) = Some p;
  gcm_seal_length : forall key nonce p, length (gcm_Seal key nonce p) = (length p + 16)%nat;
}.

(** A signature scheme for evaluation: whoever knows the public key can sign. *)
Definition toy_ed25519 : Ed25519 := {|
  ed_Sign := fun priv m => drop 32 priv ++ sha256_sum m;
  ed_Verify := fun pub m sig => bool_decide (sig = pub ++ sha256_sum m);
  ed_NewKeyFromSeed := fun seed => seed ++ seed;
  ed_Public := fun priv => drop 32 priv;
|}.

Lemma toy_ed25519_laws : @Ed25519Laws toy_ed25519.
Proof.
  split; simpl.
  - intros. by apply bool_decide_eq_true.
  - intros priv H. rewrite length_drop. lia.
  - intros priv m H. rewrite length_app, length_drop. rewrite Sha256.length_sha256. lia.
  - intros seed H. rewrite length_app. lia.
Qed.

(** ** The configuration and the identity *)

Module Identity.

(** [SetConfig], [GetConfig], [HasConfig], [DeleteConfig] *)
Definition SetConfig (key : string) (value : bytes) : ASQL unit :=
  sql_wrap "SetConfig" (sql_exec (fun d => set_adb_config (<[key := value]> (adb_config d)) d)).
Definition GetConfig (key : string) : ASQL bytes := sql_row (fun d => adb_config d !! key).
Definition HasConfig (key : string) : ASQL bool :=
  sql_wrap "HasConfig" (sql_query (fun d => bool_decide (is_Some (adb_config d !! key)))).
Definition DeleteConfig (key : string) : ASQL unit :=
  sql_wrap "DeleteConfig" (sql_exec (fun d => set_adb_config (delete key (adb_config d)) d)).

(** [SaveMLSIdentity]: an empty credential is stored as an empty blob *)
Definition SaveMLSIdentity (id : MLSIdentity) : ASQL unit :=
  sql_wrap "SaveMLSIdentity" (
    HealStore.sql_not_null "mls_identity.public_key" (mi_PublicKey id) ;;!
    HealStore.sql_not_null "mls_identity.signing_key_private" (mi_SigningKeyPrivate id) ;;!
    sql_exec (set_adb_identity (Some id))).

(** [GetMLSIdentity], [HasMLSIdentity], [UpdateMLSDisplayName] *)
Definition GetMLSIdentity : ASQL MLSIdentity := sql_row adb_identity.
Definition HasMLSIdentity : ASQL bool :=
  sql_wrap "HasMLSIdentity" (sql_query (fun d => bool_decide (is_Some (adb_identity d)))).
Definition UpdateMLSDisplayName (displayName : string) : ASQL unit :=
  sql_wrap "UpdateMLSDisplayName" (sql_exec (fun d => set_adb_identity
    ((fun id => mkMLSIdentity displayName (mi_PublicKey id) (mi_SigningKeyPrivate id) (str_bytes displayName))
       <$> adb_identity d) d)).

(** [SaveAuthBundle], [GetAuthBundle], [HasAuthBundle] *)
Definition SaveAuthBundle (b : StoredAuthBundle) : ASQL unit :=
  sql_wrap "SaveAuthBundle" (
    HealStore.sql_not_null "auth_bundle.public_key" (sb_PublicKey b) ;;!
    HealStore.sql_not_null "auth_bundle.token_signature" (sb_TokenSignature b) ;;!
    HealStore.sql_not_null "auth_bundle.root_public_key" (sb_RootPublicKey b) ;;!
    sql_exec (set_adb_auth (Some b))).
Definition GetAuthBundle : ASQL StoredAuthBundle := sql_row adb_auth.
Definition HasAuthBundle : ASQL bool :=
  sql_wrap "HasAuthBundle" (sql_query (fun d => bool_decide (is_Some (adb_auth d)))).

(** [SaveKPBundle], [GetKPBundle] *)
Definition SaveKPBundle (peerID : string) (publicKP privateBundle : bytes) : ASQL unit :=
  sql_wrap "SaveKPBundle" (
    HealStore.sql_not_null "kp_bundles.public_kp" publicKP ;;!
    HealStore.sql_not_null "kp_bundles.private_bundle" privateBundle ;;!
    sql_exec (fun d => set_adb_kp_bundles (<[peerID := (publicKP, privateBundle)]> (adb_kp_bundles d)) d)).
Definition GetKPBundle (peerID : string) : ASQL (bytes * bytes) := sql_row (fun d => adb_kp_bundles d !! peerID).

End Identity.

(** ** Tokens *)

Module Admin.
Section Tokens.
Context {ED : Ed25519} {TJ : TokenJSON} {KC : KeyCrypto}.

Definition TokenVersion : Z := 1.
Definition TokenValidityDays : Z := 365.

(** [signingPayload] *)
Definition signingPayload (t : InvitationToken) : bytes :=
  payload_Marshal (mkTokenPayload (tk_Version t) (tk_DisplayName t) (tk_PeerID t) (tk_PublicKey t)
    (tk_IssuedAt t) (tk_ExpiresAt t)).

(** [SignToken] at the time [now], in seconds *)
Definition SignToken (now : Z) (privKey : bytes) (displayName peerID pubKeyHex : string) : result InvitationToken :=
  if str_eqb displayName "" then inr (ErrText "display_name is required")
  else if str_eqb peerID "" then inr (ErrText "peer_id is required")
  else match hex_DecodeString pubKeyHex with
  | None => inr (ErrText "invalid pubKeyHex")
  | Some pubKey =>
      if is_empty pubKey then inr (ErrText "public_key is required")
      else
        let unsigned := mkToken TokenVersion displayName peerID pubKey now
          (i64 (now + TokenValidityDays * 24 * 60 * 60)) [] in
        match ed25519_Sign privKey (signingPayload unsigned) with
        | inr e => inr e
        | inl sig => inl (mkToken TokenVersion displayName peerID pubKey now (tk_ExpiresAt unsigned) sig)
        end
  end.

(** [VerifyToken] *)
Definition VerifyToken (token : option InvitationToken) (rootPubKey : bytes) : result bool :=
  match token with
  | None => inl false
  | Some t =>
      if is_empty (tk_Signature t) || is_empty rootPubKey then inl false
      else ed25519_Verify rootPubKey (signingPayload t) (tk_Signature t)
  end.

(** [SerializeBundle], [DeserializeBundle] *)
Definition SerializeBundle (b : InvitationBundle) : bytes := bundle_Marshal b.
Definition DeserializeBundle (data : bytes) : result InvitationBundle :=
  match bundle_Unmarshal data with
  | None => inr (ErrText "invalid bundle format")
  | Some b =>
      match ib_Token b with
      | None => inr (ErrText "bundle missing token")
      | Some t =>
          if str_eqb (tk_PeerID t) "" then inr (ErrText "bundle token missing peer_id")
          else if str_eqb (ib_BootstrapAddr b) "" then inr (ErrText "bundle missing bootstrap_addr")
          else if is_empty (ib_RootPublicKey b) then inr (ErrText "bundle missing root_public_key")
          else inl b
      end
  end.

(** [CreateInvitationBundle] *)
Definition CreateInvitationBundle (now : Z) (privKey : bytes) (displayName peerID pubKeyHex bootstrapAddr : string)
  : result bytes :=
  if str_eqb bootstrapAddr "" then inr (ErrText "bootstrap_addr is required")
  else match SignToken now privKey displayName peerID pubKeyHex with
  | inr e => inr (ErrWrap "failed to sign token" e)
  | inl token => inl (SerializeBundle (mkBundle (Some token) bootstrapAddr (ed_Public privKey)))
  end.

(** ** The root key *)

Definition AdminKeyConfigKey := "admin_root_private_key".

(** [aes.NewCipher] accepts keys of 16, 24 and 32 bytes. *)
Definition aes_size_ok (key : bytes) : bool := bool_decide (length key ∈ [16; 24; 32]%nat).

(** [encryptKey], with the random salt and nonce *)
Definition encryptKey (salt nonce plaintext : bytes) (passphrase : string) : result bytes :=
  let key := argon2_IDKey passphrase salt in
  if aes_size_ok key then inl (salt ++ nonce ++ gcm_Seal key nonce plaintext)
  else inr (ErrText "crypto/aes: invalid key size").

(** [decryptKey] *)
Definition decryptKey (data : bytes) (passphrase : string) : result bytes :=
  if (length data <? 16 + 12 + 1)%nat then inr (ErrText "encrypted data too short")
  else
    let salt := take 16 data in
    let nonce := take 12 (drop 16 data) in
    let ciphertext := drop 28 data in
    let key := argon2_IDKey passphrase salt in
    if aes_size_ok key then
      match gcm_Open key nonce ciphertext with
      | Some p => inl p
      | None => inr (ErrText "decryption failed (wrong passphrase?)")
      end
    else inr (ErrText "crypto/aes: invalid key size").

(** [SetupAdminKey]: the new private key and the random bytes come from
    [rand.Reader]. *)
Definition SetupAdminKey (privKey salt nonce : bytes) (passphrase : string) : ASQL bytes :=
  hasKey <-! Identity.HasConfig AdminKeyConfigKey ;
  if hasKey : bool then sql_throw (ErrText "admin key already exists; use passphrase to unlock it")
  else match encryptKey salt nonce privKey passphrase with
  | inr e => sql_throw (ErrWrap "failed to encrypt admin key" e)
  | inl encrypted =>
      sql_wrap "failed to store admin key" (Identity.SetConfig AdminKeyConfigKey encrypted) ;;!
      sql_ret (ed_Public privKey)
  end.

(** [UnlockAdminKey] *)
Definition UnlockAdminKey (passphrase : string) : ASQL bytes :=
  stored <-! sql_try (Identity.GetConfig AdminKeyConfigKey) ;
  match stored with
  | inr e =>
      if errors_Is e sql_ErrNoRows then sql_throw (ErrText "no admin key found; run --admin-setup first")
      else sql_throw e
  | inl encrypted =>
      match decryptKey encrypted passphrase with
      | inl k => sql_ret k
      | inr e => sql_throw (ErrWrap "failed to decrypt admin key (wrong passphrase?)" e)
      end
  end.

(** ** Importing a bundle *)

(** [ImportInvitationBundle] of [adapter/p2p/auth.go]: [local] is the peer id
    of the libp2p key, as text *)
Definition ImportInvitationBundle (local : string) (bundleJSON : bytes) : ASQL unit :=
  match DeserializeBundle bundleJSON with
  | inr e => sql_throw (ErrWrap "failed to parse bundle" e)
  | inl bundle =>
      match ib_Token bundle, VerifyToken (ib_Token bundle) (ib_RootPublicKey bundle) with
      | _, inr e => sql_throw e
      | Some token, inl true =>
          now <-! unix_now ;
          if now >? tk_ExpiresAt token then sql_throw (ErrText "token has expired")
          else if negb (str_eqb (tk_PeerID token) local) then sql_throw (ErrText "token PeerID mismatch")
          else
            identity <-! sql_wrap "failed to load local MLS identity" Identity.GetMLSIdentity ;
            if negb (bool_decide (tk_PublicKey token = mi_PublicKey identity)) then
              sql_throw (ErrText "token PublicKey does not match local MLS identity")
            else
              Identity.SaveAuthBundle (mkAuthBundle (tk_DisplayName token) (tk_PeerID token) (tk_PublicKey token)
                (tk_IssuedAt token) (tk_ExpiresAt token) (tk_Signature token) (ib_BootstrapAddr bundle)
                (ib_RootPublicKey bundle)) ;;!
              Identity.UpdateMLSDisplayName (tk_DisplayName token)
      | _, _ => sql_throw (ErrText "invalid Admin signature on token")
      end
  end.

(** [BuildLocalToken] *)
Definition BuildLocalToken (b : StoredAuthBundle) : InvitationToken :=
  mkToken TokenVersion (sb_DisplayName b) (sb_PeerID b) (sb_PublicKey b) (sb_TokenIssuedAt b) (sb_TokenExpiresAt b)
    (sb_TokenSignature b).

End Tokens.
End Admin.
