(* ===== verification/Roster.v ===== *)
(** * The group roster

    [adapter/store/db_group_members.go]: who is in a group, with which role
    and status; [db_group_metadata.go]: the creator, the life cycle and the
    invite policy of a group; [db_peer_directory.go]: names and public keys of
    peers.  Group and peer ids are trimmed at every entry. *)
From S2P Require Import Prelude GoStrings Sha256 Types SingleWriter Database Store HealStore AppDatabase.

Module Roster.

Definition GroupMemberStatusActive := "active".
Definition GroupMemberStatusLeft := "left".
Definition GroupMemberRoleCreator := "creator".
Definition GroupMemberRoleAdmin := "admin".
Definition GroupMemberRoleMember := "member".

(** [normalizeGroupMemberStatus] *)
Definition normalizeGroupMemberStatus (status : string) : string :=
  if str_eqb (TrimSpace (ToLower status)) GroupMemberStatusLeft then GroupMemberStatusLeft
  else GroupMemberStatusActive.

(** [normalizeGroupMemberRole] *)
Definition normalizeGroupMemberRole (role : string) : string :=
  let r := TrimSpace (ToLower role) in
  if str_eqb r GroupMemberRoleCreator then GroupMemberRoleCreator
  else if str_eqb r GroupMemberRoleAdmin then GroupMemberRoleAdmin
  else GroupMemberRoleMember.

(** A row as the queries return it. *)
Definition scan_member (r : GroupMemberRecord) : GroupMemberRecord :=
  mkGroupMemberRecord (gm_GroupID r) (gm_PeerID r) (gm_DisplayName r)
    (normalizeGroupMemberRole (gm_Role r)) (normalizeGroupMemberStatus (gm_Status r))
    (gm_Source r) (gm_JoinedAt r) (gm_LeftAt r) (gm_UpdatedAt r).

(** ** Writes *)

(** The [ON CONFLICT] clause of the two upserts, which differ in the role. *)
Definition merge_member (role : string -> string -> string) (new old : GroupMemberRecord) : GroupMemberRecord :=
  mkGroupMemberRecord (gm_GroupID old) (gm_PeerID old)
    (Store.or_else (gm_DisplayName new) (gm_DisplayName old))
    (role (gm_Role old) (gm_Role new)) (gm_Status new)
    (Store.or_else (gm_Source new) (gm_Source old))
    (if gm_JoinedAt old =? 0 then gm_JoinedAt new else gm_JoinedAt old)
    (if str_eqb (gm_Status new) GroupMemberStatusLeft then gm_LeftAt new else gm_LeftAt old)
    (gm_UpdatedAt new).

Definition upsert_member (ctx : string) (role : string -> string -> string) (rec : GroupMemberRecord) : ASQL unit :=
  let g := TrimSpace (gm_GroupID rec) in
  let p := TrimSpace (gm_PeerID rec) in
  if str_eqb g "" || str_eqb p "" then
    sql_throw (ErrText (ctx +:+ ": group_id and peer_id are required"))
  else
    now <-! unix_now ;
    let new := mkGroupMemberRecord g p (gm_DisplayName rec) (normalizeGroupMemberRole (gm_Role rec))
      (normalizeGroupMemberStatus (gm_Status rec)) (gm_Source rec)
      (if gm_JoinedAt rec =? 0 then now else gm_JoinedAt rec) (gm_LeftAt rec) now in
    sql_wrap ctx (sql_exec (fun d =>
      set_adb_members (<[(g, p) :=
        match adb_members d !! (g, p) with
        | None => new
        | Some old => merge_member role new old
        end]> (adb_members d)) d)).

(** [UpsertGroupMember]: the creator role sticks, any other is replaced. *)
Definition UpsertGroupMember (rec : GroupMemberRecord) : ASQL unit :=
  upsert_member "UpsertGroupMember"
    (fun old new => if str_eqb old GroupMemberRoleCreator then old else new) rec.

(** [UpsertGroupMemberPreservingRole] *)
Definition UpsertGroupMemberPreservingRole (rec : GroupMemberRecord) : ASQL unit :=
  upsert_member "UpsertGroupMemberPreservingRole" (fun old _ => old) rec.

(** ** Queries *)

(** The rows of a group that satisfy the rest of the [WHERE] clause. *)
Definition select_members (g : string) (f : GroupMemberRecord -> bool) (d : AppDB) : list GroupMemberRecord :=
  omap (fun kr : (string * string) * GroupMemberRecord =>
    if str_eqb kr.1.1 g && f kr.2 then Some kr.2 else None) (map_to_list (adb_members d)).

(** [ORDER BY joined_at ASC, peer_id ASC] *)
Definition joined_less (a b : GroupMemberRecord) : bool :=
  (gm_JoinedAt a <? gm_JoinedAt b) ||
  (gm_JoinedAt a =? gm_JoinedAt b) && str_ltb (gm_PeerID a) (gm_PeerID b).

(** [ORDER BY role ASC, joined_at ASC, peer_id ASC] *)
Definition role_less (a b : GroupMemberRecord) : bool :=
  str_ltb (gm_Role a) (gm_Role b) || str_eqb (gm_Role a) (gm_Role b) && joined_less a b.

(** [ListGroupMembers] *)
Definition ListGroupMembers (groupID : string) (statuses : list string) : ASQL (list GroupMemberRecord) :=
  let g := TrimSpace groupID in
  if str_eqb g "" then sql_throw (ErrText "ListGroupMembers: group_id is required")
  else
    let holders := normalizeGroupMemberStatus <$> statuses in
    rows <-! sql_wrap "ListGroupMembers" (sql_query (fun d =>
      stable_sort joined_less (select_members g
        (fun r => is_empty holders || bool_decide (gm_Status r ∈ holders)) d))) ;
    sql_ret (scan_member <$> rows).

(** [GetGroupMember] *)
Definition GetGroupMember (groupID peerID : string) : ASQL GroupMemberRecord :=
  let g := TrimSpace groupID in
  let p := TrimSpace peerID in
  if str_eqb g "" || str_eqb p "" then
    sql_throw (ErrText "GetGroupMember: group_id and peer_id are required")
  else
    rec <-! sql_row (fun d => adb_members d !! (g, p)) ;
    sql_ret (scan_member rec).

(** [listGroupMembersByRoles] *)
Definition listGroupMembersByRoles (groupID : string) (roles : list string) : ASQL (list GroupMemberRecord) :=
  let g := TrimSpace groupID in
  if str_eqb g "" then sql_throw (ErrText "listGroupMembersByRoles: group_id is required")
  else
    let filtered := normalizeGroupMemberRole <$> roles in
    if is_empty filtered then sql_ret []
    else
      rows <-! sql_wrap "listGroupMembersByRoles" (sql_query (fun d =>
        stable_sort role_less (select_members g
          (fun r => str_eqb (gm_Status r) GroupMemberStatusActive && bool_decide (gm_Role r ∈ filtered)) d))) ;
      sql_ret (scan_member <$> rows).

(** [ListGroupAdmins], [ListAuthorizedCommitters] *)
Definition ListGroupAdmins (groupID : string) : ASQL (list GroupMemberRecord) :=
  listGroupMembersByRoles groupID [GroupMemberRoleCreator; GroupMemberRoleAdmin].
Definition ListAuthorizedCommitters (groupID : string) : ASQL (list GroupMemberRecord) := ListGroupAdmins groupID.

(** ** Changes of one row *)

(** [UPDATE ... WHERE group_id = ? AND peer_id = ? AND <cond>] *)
Definition update_member (g p : string) (cond : GroupMemberRecord -> bool)
  (f : GroupMemberRecord -> GroupMemberRecord) (d : AppDB) : AppDB * Z :=
  match adb_members d !! (g, p) with
  | Some r => if cond r then (set_adb_members (<[(g, p) := f r]> (adb_members d)) d, 1) else (d, 0)
  | None => (d, 0)
  end.

(** [SetGroupMemberRole] *)
Definition SetGroupMemberRole (groupID peerID role : string) : ASQL unit :=
  let g := TrimSpace groupID in
  let p := TrimSpace peerID in
  let role := normalizeGroupMemberRole role in
  let immutable := ErrText "SetGroupMemberRole: creator role is immutable" in
  if str_eqb g "" || str_eqb p "" then
    sql_throw (ErrText "SetGroupMemberRole: group_id and peer_id are required")
  else if str_eqb role GroupMemberRoleCreator then sql_throw immutable
  else
    rec <-! GetGroupMember g p ;
    if negb (str_eqb (gm_Status rec) GroupMemberStatusActive) then sql_throw sql_ErrNoRows
    else if str_eqb (gm_Role rec) GroupMemberRoleCreator then sql_throw immutable
    else
      now <-! unix_now ;
      n <-! sql_wrap "SetGroupMemberRole" (sql_update (update_member g p
        (fun r => str_eqb (gm_Status r) GroupMemberStatusActive && negb (str_eqb (gm_Role r) GroupMemberRoleCreator))
        (fun r => mkGroupMemberRecord (gm_GroupID r) (gm_PeerID r) (gm_DisplayName r) role
                    (gm_Status r) (gm_Source r) (gm_JoinedAt r) (gm_LeftAt r) now))) ;
      if n =? 0 then sql_throw sql_ErrNoRows else sql_ret tt.

(** [MarkGroupMemberLeft] *)
Definition MarkGroupMemberLeft (groupID peerID : string) (leftAt : Z) : ASQL unit :=
  let g := TrimSpace groupID in
  let p := TrimSpace peerID in
  if str_eqb g "" || str_eqb p "" then
    sql_throw (ErrText "MarkGroupMemberLeft: group_id and peer_id are required")
  else
    leftAt <-! (if leftAt <=? 0 then unix_now else sql_ret leftAt) ;
    now <-! unix_now ;
    n <-! sql_wrap "MarkGroupMemberLeft" (sql_update (update_member g p (fun _ => true)
      (fun r => mkGroupMemberRecord (gm_GroupID r) (gm_PeerID r) (gm_DisplayName r) (gm_Role r)
                  GroupMemberStatusLeft (gm_Source r) (gm_JoinedAt r) leftAt now))) ;
    if n =? 0 then sql_throw sql_ErrNoRows else sql_ret tt.

(** [UpdateGroupMemberDisplayNameByPeer] *)
Definition UpdateGroupMemberDisplayNameByPeer (peerID displayName : string) : ASQL unit :=
  let p := TrimSpace peerID in
  let name := TrimSpace displayName in
  if str_eqb p "" || str_eqb name "" then sql_ret tt
  else
    now <-! unix_now ;
    sql_wrap "UpdateGroupMemberDisplayNameByPeer" (sql_exec (fun d =>
      set_adb_members (map_imap (fun (k : string * string) r => Some
        (if str_eqb k.2 p
         then mkGroupMemberRecord (gm_GroupID r) (gm_PeerID r) name (gm_Role r) (gm_Status r)
                (gm_Source r) (gm_JoinedAt r) (gm_LeftAt r) now
         else r)) (adb_members d)) d)).

(** ** Group metadata *)

Definition group_row (g : string) (d : AppDB) : option GroupRow := db_groups (adb_core d) !! g.
Definition group_cols (g : string) (d : AppDB) : GroupCols := default default_cols (adb_group_cols d !! g).

(** [CURRENT_TIMESTAMP]: whole seconds of UTC *)
Definition current_timestamp {D} : SQLs D time := t <-! sql_time ; sql_ret (t / Second * Second).

Definition touch_group (now : time) (row : GroupRow) : GroupRow :=
  let r := grow_rec row in
  mkGroupRow (mkGroupRecord (gr_GroupID r) (gr_GroupState r) (gr_Epoch r) (gr_TreeHash r) (gr_MyRole r)
    (gr_GroupType r) (gr_CategoryID r) (gr_DMCounterpartyPeerID r) (gr_CreatedAt r) now)
    (grow_lifecycle_status row) (grow_left_at row).

(** [UPDATE mls_groups SET ..., updated_at = CURRENT_TIMESTAMP WHERE group_id = ?] *)
Definition update_group (g : string) (now : time) (row : GroupRow -> GroupRow) (cols : GroupCols -> GroupCols)
  (d : AppDB) : AppDB * Z :=
  match group_row g d with
  | None => (d, 0)
  | Some r =>
      (set_adb_group_cols (<[g := cols (group_cols g d)]> (adb_group_cols d))
        (set_adb_core (set_db_groups (<[g := touch_group now (row r)]> (db_groups (adb_core d))) (adb_core d)) d), 1)
  end.

(** [SetGroupCreatorPeerID]: the first non-empty value stays. *)
Definition SetGroupCreatorPeerID (groupID creatorPeerID : string) : ASQL unit :=
  let g := TrimSpace groupID in
  let c := TrimSpace creatorPeerID in
  if str_eqb g "" then sql_throw (ErrText "group id required")
  else if str_eqb c "" then sql_throw (ErrText "creator peer id required")
  else
    now <-! current_timestamp ;
    sql_wrap "SetGroupCreatorPeerID" (sql_exec (fun d => fst (update_group g now id
      (fun k => mkGroupCols (if sql_trim_empty (gc_creator_peer_id k) then c else gc_creator_peer_id k)
         (gc_invite_policy k) (gc_avatar_hash k) (gc_avatar_mime k) (gc_avatar_updated_at k)) d))).

(** [GetGroupCreatorPeerID] *)
Definition GetGroupCreatorPeerID (groupID : string) : ASQL string :=
  let g := TrimSpace groupID in
  if str_eqb g "" then sql_throw (ErrText "group id required")
  else
    row <-! sql_wrap "GetGroupCreatorPeerID" (sql_query (fun d =>
      match group_row g d with Some _ => Some (gc_creator_peer_id (group_cols g d)) | None => None end)) ;
    match row with Some c => sql_ret (TrimSpace c) | None => sql_throw sql_ErrNoRows end.

(** [HasGroup] *)
Definition HasGroup (groupID : string) : ASQL bool :=
  sql_wrap "HasGroup" (sql_query (fun d => bool_decide (is_Some (group_row groupID d)))).

(** [MarkGroupLeft] *)
Definition MarkGroupLeft (groupID : string) : ASQL unit :=
  exists_ <-! HasGroup groupID ;
  if negb exists_ then sql_throw sql_ErrNoRows
  else
    now <-! unix_now ;
    ts <-! current_timestamp ;
    sql_wrap "MarkGroupLeft" (sql_exec (fun d => fst (update_group groupID ts
      (fun r => mkGroupRow (grow_rec r) "left" (if grow_left_at r =? 0 then now else grow_left_at r)) id d))).

(** [IsGroupActive] *)
Definition IsGroupActive (groupID : string) : ASQL bool :=
  row <-! sql_wrap "IsGroupActive" (sql_query (group_row groupID)) ;
  match row with
  | Some r => sql_ret (str_eqb (grow_lifecycle_status r) "" || str_eqb (grow_lifecycle_status r) "active")
  | None => sql_throw sql_ErrNoRows
  end.

(** [NormalizeGroupInvitePolicy] *)
Definition NormalizeGroupInvitePolicy (policy : string) : result string :=
  let p := TrimSpace (ToLower policy) in
  if str_eqb p "" || str_eqb p "creator_approval" then inl "creator_approval"
  else if str_eqb p "any_member" then inl "any_member"
  else inr (ErrText "invalid invite policy").

Definition of_result {D A} (r : result A) : SQLs D A :=
  match r with inl a => sql_ret a | inr e => sql_throw e end.

(** [Database.GetGroupInvitePolicy] *)
Definition GetGroupInvitePolicy (groupID : string) : ASQL string :=
  let g := TrimSpace groupID in
  if str_eqb g "" then sql_throw sql_ErrNoRows
  else
    policy <-! sql_row (fun d =>
      match group_row g d with Some _ => Some (gc_invite_policy (group_cols g d)) | None => None end) ;
    of_result (NormalizeGroupInvitePolicy policy).

(** [Database.SetGroupInvitePolicy] *)
Definition SetGroupInvitePolicy (groupID policy : string) : ASQL unit :=
  let g := TrimSpace groupID in
  if str_eqb g "" then sql_throw sql_ErrNoRows
  else
    normalized <-! of_result (NormalizeGroupInvitePolicy policy) ;
    ts <-! current_timestamp ;
    n <-! sql_wrap "SetGroupInvitePolicy" (sql_update (update_group g ts id
      (fun k => mkGroupCols (gc_creator_peer_id k) normalized (gc_avatar_hash k) (gc_avatar_mime k)
                  (gc_avatar_updated_at k)))) ;
    if n =? 0 then sql_throw sql_ErrNoRows else sql_ret tt.

(** ** Peer directory *)

Definition pd_key (p : string) (r : PeerDirectoryRow) : bool := str_eqb (pd_PeerID r) p.

(** [SavePeerProfile], [UpsertPeerProfile]: [INSERT OR REPLACE] of two columns
    makes a new row, in which the other columns have their defaults. *)
Definition SavePeerProfile (peerID displayName : string) : ASQL unit :=
  if str_eqb peerID "" || str_eqb displayName "" then sql_ret tt
  else
    ts <-! unix_now ;
    sql_wrap "SavePeerProfile" (sql_exec (fun d =>
      set_adb_directory (filter (fun r => pd_PeerID r <> peerID) (adb_directory d) ++
        [mkPeerDirectoryRow peerID displayName "" None None None None 0 0 None ts]) d)).

(** [UpsertPeerProfileWithKey] *)
Definition UpsertPeerProfileWithKey (peerID displayName publicKeyHex : string) : ASQL unit :=
  let p := TrimSpace peerID in
  if str_eqb p "" then sql_ret tt
  else
    let name := TrimSpace displayName in
    let key := ToLower (TrimSpace publicKeyHex) in
    ts <-! unix_now ;
    sql_wrap "UpsertPeerProfileWithKey" (sql_exec (fun d =>
      set_adb_directory
        (if existsb (pd_key p) (adb_directory d) then
           (fun r => if pd_key p r then
              mkPeerDirectoryRow (pd_PeerID r) (Store.or_else name (pd_DisplayName r))
                (Store.or_else key (pd_PublicKeyHex r)) (pd_Email r) (pd_Phone r) (pd_AvatarHash r)
                (pd_AvatarMime r) (pd_AvatarUpdatedAt r) (pd_ProfileRevision r)
                (pd_ProfileSignature r) (pd_UpdatedAt r)
            else r) <$> adb_directory d
         else adb_directory d ++ [mkPeerDirectoryRow p name key None None None None 0 0 None ts]) d)).

(** [GetPeerIDByPublicKeyHex] *)
Definition GetPeerIDByPublicKeyHex (publicKeyHex : string) : ASQL string :=
  let key := ToLower (TrimSpace publicKeyHex) in
  if str_eqb key "" then sql_ret ""
  else
    row <-! sql_wrap "GetPeerIDByPublicKeyHex" (sql_query (fun d =>
      List.find (fun r => str_eqb (pd_PublicKeyHex r) key) (adb_directory d))) ;
    match row with Some r => sql_ret (TrimSpace (pd_PeerID r)) | None => sql_ret "" end.

(** [GetPeerDisplayName], [GetPeerProfile] *)
Definition GetPeerDisplayName (peerID : string) : ASQL string :=
  row <-! sql_query (fun d => List.find (pd_key peerID) (adb_directory d)) ;
  sql_ret (match row with Some r => pd_DisplayName r | None => "" end).

(** [GetPeerDirectoryProfile] *)
Definition GetPeerDirectoryProfile (peerID : string) : ASQL PeerDirectoryRow :=
  let p := TrimSpace peerID in
  if str_eqb p "" then sql_throw (ErrText "peer_id is required")
  else sql_row (fun d => List.find (pd_key p) (adb_directory d)).

(** ** The roster over time *)

Definition known_role (r : string) : Prop :=
  r ∈ [GroupMemberRoleCreator; GroupMemberRoleAdmin; GroupMemberRoleMember].
Definition known_status (s : string) : Prop := s ∈ [GroupMemberStatusActive; GroupMemberStatusLeft].

(** A row under its key: trimmed non-empty ids, a known role and status. *)
Record member_ok (k : string * string) (r : GroupMemberRecord) : Prop := {
  mo_group : gm_GroupID r = k.1;
  mo_peer : gm_PeerID r = k.2;
  mo_group_trim : TrimSpace k.1 = k.1 /\ k.1 <> "";
  mo_peer_trim : TrimSpace k.2 = k.2 /\ k.2 <> "";
  mo_role : known_role (gm_Role r);
  mo_status : known_status (gm_Status r);
}.
Definition members_ok (d : AppDB) : Prop := map_Forall member_ok (adb_members d).

(** The writes of the roster table. *)
Inductive RosterOp :=
| OpUpsert (rec : GroupMemberRecord)
| OpObserve (rec : GroupMemberRecord)
| OpSetRole (groupID peerID role : string)
| OpLeft (groupID peerID : string) (leftAt : Z)
| OpRename (peerID displayName : string).

Definition roster_op (op : RosterOp) : ASQL unit :=
  match op with
  | OpUpsert rec => UpsertGroupMember rec
  | OpObserve rec => UpsertGroupMemberPreservingRole rec
  | OpSetRole g p role => SetGroupMemberRole g p role
  | OpLeft g p t => MarkGroupMemberLeft g p t
  | OpRename p name => UpdateGroupMemberDisplayNameByPeer p name
  end.

(** A sequence of them; a caller goes on after a failed one. *)
Fixpoint roster_run (ops : list RosterOp) : ASQL unit :=
  match ops with
  | [] => sql_ret tt
  | op :: ops => sql_ignore (roster_op op) ;;! roster_run ops
  end.

(** [op] names [k] with the role of creator. *)
Definition names_creator (k : string * string) (op : RosterOp) : Prop :=
  match op with
  | OpUpsert rec | OpObserve rec =>
      k = (TrimSpace (gm_GroupID rec), TrimSpace (gm_PeerID rec)) /\
      normalizeGroupMemberRole (gm_Role rec) = GroupMemberRoleCreator
  | _ => False
  end.

(** What may happen to the row of [k], given who may be named creator. *)
Definition evolves (named : string * string -> Prop) (k : string * string)
  (old new : option GroupMemberRecord) : Prop :=
  match old, new with
  | None, None => True
  | Some _, None => False
  | None, Some r' => member_ok k r' /\ (gm_Role r' = GroupMemberRoleCreator -> named k)
  | Some r, Some r' =>
      (member_ok k r -> member_ok k r') /\
      (gm_Role r = GroupMemberRoleCreator -> gm_Role r' = GroupMemberRoleCreator) /\
      (gm_Role r' = GroupMemberRoleCreator -> gm_Role r = GroupMemberRoleCreator \/ named k) /\
      (gm_JoinedAt r <> 0 -> gm_JoinedAt r' = gm_JoinedAt r)
  end.
Definition roster_evolves (named : string * string -> Prop) (d d' : AppDB) : Prop :=
  forall k, evolves named k (adb_members d !! k) (adb_members d' !! k).

#[export] Instance roster_evolves_preorder named : PreOrder (roster_evolves named).
Proof.
  split; [intros d k|intros d1 d2 d3 H12 H23 k; specialize (H12 k); specialize (H23 k)].
  - destruct (adb_members d !! k); simpl; tauto.
  - destruct (adb_members d1 !! k), (adb_members d2 !! k), (adb_members d3 !! k); simpl in *; try tauto.
    destruct H12 as (?&?&?&J12), H23 as (?&?&?&J23). split_and!; try tauto.
    intros HJ. specialize (J12 HJ). rewrite <-J12 in HJ |- *. by apply J23.
Qed.

Lemma roster_evolves_weaken (named named' : string * string -> Prop) d d' :
  (forall k, named k -> named' k) -> roster_evolves named d d' -> roster_evolves named' d d'.
Proof.
  intros Hn H k. specialize (H k). unfold evolves in *.
  destruct (adb_members d !! k), (adb_members d' !! k); naive_solver.
Qed.

(** An update of one row evolves the roster if that row does. *)
Lemma roster_evolves_insert named k r' d :
  evolves named k (adb_members d !! k) (Some r') ->
  roster_evolves named d (set_adb_members (<[k := r']> (adb_members d)) d).
Proof.
  intros H k'. simpl. destruct (decide (k = k')) as [<-|Hne].
  - by rewrite lookup_insert_eq.
  - rewrite lookup_insert_ne by done. destruct (adb_members d !! k'); simpl; tauto.
Qed.

Lemma normalize_role_known r : known_role (normalizeGroupMemberRole r).
Proof. unfold normalizeGroupMemberRole, known_role. repeat case_match; set_solver. Qed.
Lemma normalize_status_known r : known_status (normalizeGroupMemberStatus r).
Proof. unfold normalizeGroupMemberStatus, known_status. repeat case_match; set_solver. Qed.
Lemma normalize_role_id r : known_role r -> normalizeGroupMemberRole r = r.
Proof. unfold known_role. set_unfold. by intros [-> | [-> | [-> | []]]]. Qed.
Lemma normalize_status_id r : known_status r -> normalizeGroupMemberStatus r = r.
Proof. unfold known_status. set_unfold. by intros [-> | [-> | []]]. Qed.
#[local] Hint Resolve normalize_role_known normalize_status_known : coord.

Lemma upsert_member_evolves named ctx role rec :
  (forall old new, known_role old -> known_role new -> known_role (role old new)) ->
  (forall new, role GroupMemberRoleCreator new = GroupMemberRoleCreator) ->
  (forall old new, role old new = GroupMemberRoleCreator ->
     old = GroupMemberRoleCreator \/ new = GroupMemberRoleCreator) ->
  (normalizeGroupMemberRole (gm_Role rec) = GroupMemberRoleCreator ->
     named (TrimSpace (gm_GroupID rec), TrimSpace (gm_PeerID rec))) ->
  respects (roster_evolves named) (upsert_member ctx role rec).
Proof.
  intros Hknown Hkeep Horigin Hn. unfold upsert_member.
  destruct (str_eqb _ "" || str_eqb _ "") eqn:E; [apply respects_readonly; [apply _|done]|].
  breflect. destruct E as [Eg Ep]. repeat asql_step.
  apply roster_evolves_insert. destruct (adb_members _ !! _) as [old|]; simpl.
  - split_and!.
    + intros [Hg Hp Tg Tp Hr Hs]. split; simpl in *; eauto with coord.
    + intros ->. apply Hkeep.
    + intros Hc. apply Horigin in Hc as [Hc|Hc]; eauto.
    + intros HJ. by apply Z.eqb_neq in HJ as ->.
  - split; [|done]. split; simpl; rewrite ?TrimSpace_idemp; eauto with coord.
Qed.

Lemma update_member_evolves named g p cond f d :
  (forall r, cond r = true -> evolves named (g, p) (Some r) (Some (f r))) ->
  roster_evolves named d (fst (update_member g p cond f d)).
Proof.
  intros H. unfold update_member. destruct (adb_members d !! (g, p)) as [r|] eqn:E; [|reflexivity].
  destruct (cond r) eqn:Ec; [|reflexivity]. simpl. apply roster_evolves_insert. rewrite E. by apply H.
Qed.

Lemma GetGroupMember_readonly g p : readonly (GetGroupMember g p).
Proof. unfold GetGroupMember. case_match; eauto with coord. Qed.

Lemma roster_op_evolves op :
  respects (roster_evolves (fun k => names_creator k op)) (roster_op op).
Proof.
  destruct op as [rec|rec|g p role|g p t|p name]; simpl.
  - apply upsert_member_evolves; [intros; by case_match|done| |done].
    intros old new. case_match; auto.
  - apply upsert_member_evolves; by auto.
  - unfold SetGroupMemberRole. repeat (case_match || asql_step);
      try (apply respects_readonly; [apply _|apply GetGroupMember_readonly]).
    apply update_member_evolves. intros r Hc. breflect. destruct Hc as [_ Hc]. simpl.
    split_and!; try done.
    intros [? ? ? ? ? ?]. split; simpl; auto with coord.
  - unfold MarkGroupMemberLeft. repeat (case_match || asql_step).
    all: apply update_member_evolves; intros r _; simpl; split_and!; try done; auto.
    all: intros [? ? ? ? ? ?]; split; simpl; auto; unfold known_status; set_solver.
  - unfold UpdateGroupMemberDisplayNameByPeer. repeat (case_match || asql_step).
    intros k. simpl. rewrite map_lookup_imap. destruct (adb_members _ !! k) as [r|]; simpl; [|done].
    case_match; simpl; split_and!; auto. intros [? ? ? ? ? ?]. by split.
Qed.

Lemma roster_run_evolves ops :
  respects (roster_evolves (fun k => Exists (names_creator k) ops)) (roster_run ops).
Proof.
  induction ops as [|op ops IH]; simpl; [apply respects_readonly; [apply _|apply readonly_ret]|].
  apply respects_bind; [apply _| |intros []].
  - apply respects_ignore. intros env t d. eapply roster_evolves_weaken; [|apply roster_op_evolves].
    intros k Hk. by left.
  - intros env t d. eapply roster_evolves_weaken; [|apply IH]. intros k Hk. by right.
Qed.

Lemma evolves_members_ok named d d' : roster_evolves named d d' -> members_ok d -> members_ok d'.
Proof.
  intros H Hd k r' E. specialize (H k). rewrite E in H. destruct (adb_members d !! k) eqn:E0; simpl in H.
  - apply H. by apply (Hd k).
  - apply H.
Qed.

(** Privileges in the roster.  Whatever sequence of upserts, observations,
    role changes, departures and renames is applied, and whichever of them
    fail: the table stays well formed (trimmed ids, known roles and statuses,
    rows under their key); no row disappears; a creator stays a creator; and a
    row holds the creator role only if it did before or an upsert named that
    very peer of that group as creator. *)
Theorem roster_privileges ops env t d d' :
  members_ok d -> d' = (roster_run ops env t d).2 ->
  members_ok d' /\
  (forall k r, adb_members d !! k = Some r -> exists r', adb_members d' !! k = Some r' /\
     (gm_Role r = GroupMemberRoleCreator -> gm_Role r' = GroupMemberRoleCreator)) /\
  (forall k r', adb_members d' !! k = Some r' -> gm_Role r' = GroupMemberRoleCreator ->
     (exists r, adb_members d !! k = Some r /\ gm_Role r = GroupMemberRoleCreator) \/
     Exists (names_creator k) ops).
Proof.
  intros Hd ->. pose proof (roster_run_evolves ops env t d) as H. split_and!.
  - by eapply evolves_members_ok.
  - intros k r E. specialize (H k). rewrite E in H.
    destruct (adb_members _ !! k) as [r'|] eqn:E'; [|done]. exists r'. split; [done|]. apply H.
  - intros k r' E' Hc. specialize (H k). rewrite E' in H. destruct (adb_members d !! k) as [r|]; simpl in H.
    + destruct H as (_ & _ & Ho & _). destruct (Ho Hc); eauto.
    + right. by apply H.
Qed.

(** ** Instances *)

Definition sample_member (peer role : string) : GroupMemberRecord :=
  mkGroupMemberRecord "g" peer peer role GroupMemberStatusActive "self" 1 0 1.
Definition sample_roster_ops : list RosterOp :=
  [OpUpsert (sample_member "alice" GroupMemberRoleCreator); OpObserve (sample_member "bob" GroupMemberRoleMember);
   OpSetRole "g" "alice" GroupMemberRoleMember; OpSetRole "g" "bob" GroupMemberRoleAdmin; OpLeft "g" "alice" 5].

Lemma roster_privileges_witness :
  let d := (roster_run sample_roster_ops HealStore.demo_env O adb_empty).2 in
  members_ok d /\
  (fun r => (gm_Role r, gm_Status r)) <$> adb_members d !! ("g", "alice") = Some (GroupMemberRoleCreator, GroupMemberStatusLeft) /\
  gm_Role <$> adb_members d !! ("g", "bob") = Some GroupMemberRoleAdmin.
Proof.
  intros d. split; [|by vm_compute].
  apply (roster_privileges sample_roster_ops HealStore.demo_env O adb_empty d); [apply map_Forall_empty|done].
Defined.

End Roster.
