(* ===== verification/InviteStore.v ===== *)
(** * Welcomes, key packages and invites in the local database

    [adapter/store/db_invite_assets.go]: the Welcomes a node has still to
    deliver, the replicas of key packages and Welcomes it keeps for others, and
    the invites its user sees; and the rest of [db_group_metadata.go]: avatars,
    the counterparty of a direct message, purging a group.

    Where a query leaves the order of rows open the model takes the order of
    the row ids. *)
From S2P Require Import Prelude GoStrings Sha256 Types SingleWriter Database Store HealStore AppDatabase Roster.

(** [INSERT ... ON CONFLICT ... DO UPDATE] on a table kept in row order. *)
Section UpsertBy.
Context {A : Type} (hit : A -> bool) (merge : A -> A).
Definition upsert_by (x : A) (rows : list A) : list A :=
  if existsb hit rows then (fun r => if hit r then merge r else r) <$> rows else rows ++ [x].
(** [UPDATE ... WHERE]: the rows and how many of them have changed. *)
Definition update_where (rows : list A) : list A * Z :=
  ((fun r => if hit r then merge r else r) <$> rows, Z.of_nat (length (List.filter hit rows))).
(** [DELETE ... WHERE] *)
Definition delete_where (rows : list A) : list A * Z :=
  (List.filter (fun r => negb (hit r)) rows, Z.of_nat (length (List.filter hit rows))).
End UpsertBy.

Module InviteStore.

(** [normalizeGroupType] *)
Definition normalizeGroupType (groupType : string) : string :=
  let g := TrimSpace groupType in
  if str_eqb g "dm" then "dm" else if str_eqb g "group" then "group" else "channel".

(** ** Welcomes to deliver *)

Definition out_hit (target g : string) (w : PendingWelcome) : bool :=
  str_eqb (pw_TargetPeerID w) target && str_eqb (pw_GroupID w) g.

(** [SavePendingWelcome]: [INSERT OR REPLACE] makes a new row, not delivered. *)
Definition SavePendingWelcome (target g : string) (welcome : bytes) (anchorEpoch : Z) (anchorHash : bytes) : ASQL unit :=
  sql_wrap "SavePendingWelcome"
    (sql_uint64 anchorEpoch ;;! HealStore.sql_not_null "pending_welcomes_out.welcome_bytes" welcome ;;!
     sql_exec (fun d =>
       set_adb_welcome_out_id (adb_welcome_out_id d + 1)
         (set_adb_welcomes_out (List.filter (fun w => negb (out_hit target g w)) (adb_welcomes_out d) ++
            [mkPendingWelcome (adb_welcome_out_id d + 1) target g welcome false anchorEpoch anchorHash]) d))).

(** [GetAnyPendingWelcomeForGroup] *)
Definition GetAnyPendingWelcomeForGroup (target g : string) : ASQL bytes :=
  row <-! sql_row (fun d => last (List.filter (out_hit target g) (adb_welcomes_out d))) ;
  if is_empty (pw_WelcomeBytes row) then sql_throw sql_ErrNoRows else sql_ret (pw_WelcomeBytes row).

(** [GetPendingWelcomesFor], [ListPendingWelcomes] *)
Definition GetPendingWelcomesFor (target : string) : ASQL (list PendingWelcome) :=
  sql_wrap "GetPendingWelcomesFor" (sql_query (fun d =>
    List.filter (fun w => str_eqb (pw_TargetPeerID w) target && negb (pw_delivered w)) (adb_welcomes_out d))).
Definition ListPendingWelcomes : ASQL (list PendingWelcome) :=
  sql_wrap "ListPendingWelcomes" (sql_query (fun d => List.filter (fun w => negb (pw_delivered w)) (adb_welcomes_out d))).

Definition set_delivered (b : bool) (w : PendingWelcome) : PendingWelcome :=
  mkPendingWelcome (pw_ID w) (pw_TargetPeerID w) (pw_GroupID w) (pw_WelcomeBytes w) b (pw_AnchorEpoch w) (pw_AnchorHistoryHash w).

Definition update_out (hit : AppDB -> PendingWelcome -> bool) (b : bool) (d : AppDB) : AppDB * Z :=
  let '(rows, n) := update_where (hit d) (set_delivered b) (adb_welcomes_out d) in (set_adb_welcomes_out rows d, n).

(** [MarkWelcomeDelivered], [MarkWelcomeDeliveredFor], [ReopenWelcomeDelivery] *)
Definition MarkWelcomeDelivered (id : Z) : ASQL unit :=
  sql_exec (fun d => fst (update_out (fun _ w => pw_ID w =? id) true d)).
Definition MarkWelcomeDeliveredFor (target g : string) : ASQL unit :=
  sql_exec (fun d => fst (update_out (fun _ => out_hit target g) true d)).
Definition ReopenWelcomeDelivery (target g : string) : ASQL unit :=
  sql_exec (fun d => fst (update_out (fun _ => out_hit target g) false d)).

(** The add operation of a Welcome is still open. *)
Definition unacknowledged (d : AppDB) (w : PendingWelcome) : bool :=
  existsb (fun kr : string * GroupAddOperationRecord =>
    str_eqb (ao_GroupID kr.2) (pw_GroupID w) && str_eqb (ao_TargetPeerID kr.2) (pw_TargetPeerID w) &&
    negb (str_eqb (ao_Status kr.2) "welcome_delivered") && negb (str_eqb (ao_Status kr.2) "failed"))
    (map_to_list (adb_add_ops d)).

(** [ReopenUnacknowledgedPendingWelcomes] *)
Definition ReopenUnacknowledgedPendingWelcomes : ASQL Z :=
  sql_wrap "ReopenUnacknowledgedPendingWelcomes"
    (sql_update (update_out (fun d w => pw_delivered w && unacknowledged d w) false)).

(** ** Replicas of key packages *)

(** [SaveStoredKeyPackage]: the time is in seconds. *)
Definition SaveStoredKeyPackage (peerID : string) (publicKP : bytes) (source : string) : ASQL unit :=
  now <-! unix_now ;
  sql_wrap "SaveStoredKeyPackage"
    (HealStore.sql_not_null "stored_keypackages.public_kp" publicKP ;;!
     sql_exec (fun d => set_adb_stored_kps (<[peerID := mkStoredKP publicKP source now]> (adb_stored_kps d)) d)).

(** The [ON CONFLICT] clause of [SaveStoredKeyPackageIfNewer]. *)
Definition newer_kp (new old : StoredKeyPackage) : StoredKeyPackage :=
  if sk_updated_at new >=? sk_updated_at old then new else old.
Definition put_newer_kp (peerID : string) (new : StoredKeyPackage) (m : gmap string StoredKeyPackage)
  : gmap string StoredKeyPackage :=
  <[peerID := match m !! peerID with Some old => newer_kp new old | None => new end]> m.

(** [SaveStoredKeyPackageIfNewer] *)
Definition SaveStoredKeyPackageIfNewer (peerID : string) (publicKP : bytes) (source : string) (publishedAt : Z) : ASQL unit :=
  sql_wrap "SaveStoredKeyPackageIfNewer"
    (HealStore.sql_not_null "stored_keypackages.public_kp" publicKP ;;!
     sql_exec (fun d => set_adb_stored_kps (put_newer_kp peerID (mkStoredKP publicKP source publishedAt) (adb_stored_kps d)) d)).

(** [GetStoredKeyPackage] *)
Definition GetStoredKeyPackage (peerID : string) : ASQL bytes :=
  sk <-! sql_row (fun d => adb_stored_kps d !! peerID) ; sql_ret (sk_public_kp sk).

(** ** Replicas of Welcomes *)

Definition stw_hit (invitee g : string) (w : StoredWelcome) : bool :=
  str_eqb (stw_InviteePeerID w) invitee && str_eqb (stw_GroupID w) g.

(** The [ON CONFLICT] clauses; [wins] tells whether the new row replaces the
    Welcome. *)
Definition merge_welcome (wins : bool) (new old : StoredWelcome) : StoredWelcome :=
  let anchor := stw_AnchorEpoch new >? stw_AnchorEpoch old in
  mkStoredWelcome (stw_InviteePeerID old) (stw_GroupID old)
    (if wins then stw_GroupType new else stw_GroupType old)
    (if str_eqb (stw_CategoryID new) "" then stw_CategoryID old else stw_CategoryID new)
    (if wins then stw_WelcomeBytes new else stw_WelcomeBytes old)
    (if negb (sql_trim_empty (stw_SourcePeerID new)) && wins then stw_SourcePeerID new else stw_SourcePeerID old)
    (if anchor then stw_AnchorEpoch new else stw_AnchorEpoch old)
    (if anchor then stw_AnchorHistoryHash new else stw_AnchorHistoryHash old)
    (if wins then stw_CreatedAt new else stw_CreatedAt old).

Definition put_welcome (wins : StoredWelcome -> StoredWelcome -> bool) (new : StoredWelcome) (d : AppDB) : AppDB :=
  set_adb_stored_welcomes (upsert_by (stw_hit (stw_InviteePeerID new) (stw_GroupID new))
    (fun old => merge_welcome (wins new old) new old) new (adb_stored_welcomes d)) d.

(** The row of both upserts. *)
Definition welcome_row (invitee g groupType categoryID : string) (welcome : bytes) (source : string)
  (anchorEpoch : Z) (anchorHash : bytes) (createdAt : Z) : StoredWelcome :=
  mkStoredWelcome invitee g (normalizeGroupType groupType) (TrimSpace categoryID) welcome (TrimSpace source)
    anchorEpoch anchorHash createdAt.

(** [SaveStoredWelcome]: the new Welcome always wins; its time is in seconds. *)
Definition SaveStoredWelcome (invitee g groupType categoryID : string) (welcome : bytes) (source : string)
  (anchorEpoch : Z) (anchorHash : bytes) : ASQL unit :=
  now <-! unix_now ;
  sql_wrap "SaveStoredWelcome"
    (sql_uint64 anchorEpoch ;;! HealStore.sql_not_null "stored_welcomes.welcome_bytes" welcome ;;!
     sql_exec (put_welcome (fun _ _ => true) (welcome_row invitee g groupType categoryID welcome source anchorEpoch anchorHash now))).

(** [SaveStoredWelcomeIfNewer] *)
Definition SaveStoredWelcomeIfNewer (invitee g groupType categoryID : string) (welcome : bytes) (source : string)
  (publishedAt anchorEpoch : Z) (anchorHash : bytes) : ASQL unit :=
  sql_wrap "SaveStoredWelcomeIfNewer"
    (sql_uint64 anchorEpoch ;;! HealStore.sql_not_null "stored_welcomes.welcome_bytes" welcome ;;!
     sql_exec (put_welcome (fun new old => stw_CreatedAt new >=? stw_CreatedAt old)
       (welcome_row invitee g groupType categoryID welcome source anchorEpoch anchorHash publishedAt))).

(** [DeleteStoredWelcome] *)
Definition DeleteStoredWelcome (invitee g : string) : ASQL unit :=
  n <-! sql_wrap "DeleteStoredWelcome" (sql_update (fun d =>
    let '(rows, n) := delete_where (stw_hit invitee g) (adb_stored_welcomes d) in (set_adb_stored_welcomes rows d, n))) ;
  if n =? 0 then sql_throw sql_ErrNoRows else sql_ret tt.

(** A row as the queries return it. *)
Definition scan_welcome (w : StoredWelcome) : StoredWelcome :=
  mkStoredWelcome (stw_InviteePeerID w) (stw_GroupID w) (normalizeGroupType (stw_GroupType w)) (TrimSpace (stw_CategoryID w))
    (stw_WelcomeBytes w) (stw_SourcePeerID w) (stw_AnchorEpoch w) (stw_AnchorHistoryHash w) (stw_CreatedAt w).

(** [GetStoredWelcome]: the source is trimmed too. *)
Definition GetStoredWelcome (invitee g : string) : ASQL StoredWelcome :=
  w <-! sql_row (fun d => head (List.filter (stw_hit invitee g) (adb_stored_welcomes d))) ;
  let w := scan_welcome w in
  sql_ret (mkStoredWelcome (stw_InviteePeerID w) (stw_GroupID w) (stw_GroupType w) (stw_CategoryID w)
    (stw_WelcomeBytes w) (TrimSpace (stw_SourcePeerID w)) (stw_AnchorEpoch w) (stw_AnchorHistoryHash w) (stw_CreatedAt w)).

(** [ListStoredWelcomesFor] *)
Definition ListStoredWelcomesFor (invitee : string) : ASQL (list StoredWelcome) :=
  rows <-! sql_wrap "ListStoredWelcomesFor" (sql_query (fun d =>
    stable_sort (fun a b => stw_CreatedAt a >? stw_CreatedAt b)
      (List.filter (fun w => str_eqb (stw_InviteePeerID w) invitee) (adb_stored_welcomes d)))) ;
  sql_ret (scan_welcome <$> rows).

(** ** Invites *)

Definition PendingInviteStatusPending := "pending".
Definition PendingInviteStatusAccepted := "accepted".
Definition PendingInviteStatusRejected := "rejected".

(** [PendingInviteID], [pendingInviteHash] *)
Definition PendingInviteID (g : string) (welcome : bytes) : string :=
  hex_EncodeToString (sha256_sum (str_bytes g ++ [x00] ++ welcome)).
Definition pendingInviteHash (welcome : bytes) : bytes := sha256_sum welcome.

Definition invite_hit (g : string) (h : bytes) (i : PendingInvite) : bool :=
  str_eqb (pi_GroupID i) g && bool_decide (pi_WelcomeHash i = h).
Definition invite_id (id : string) (i : PendingInvite) : bool := str_eqb (pi_ID i) id.

Definition or_old (new old : string) : string := if str_eqb new "" then old else new.

Definition terminal (status : string) : bool :=
  str_eqb status PendingInviteStatusAccepted || str_eqb status PendingInviteStatusRejected.

(** The [ON CONFLICT] clause of [SavePendingInvite]. *)
Definition merge_invite (new old : PendingInvite) : PendingInvite :=
  mkPendingInvite (pi_ID old) (pi_GroupID old)
    (if bool_decide (pi_GroupType new ∈ ["channel"; "group"; "dm"]) then pi_GroupType new else pi_GroupType old)
    (or_old (pi_CategoryID new) (pi_CategoryID old))
    (or_old (pi_GroupName old) (pi_GroupName new)) (or_old (pi_InviterPeerID old) (pi_InviterPeerID new))
    (pi_WelcomeHash old) (pi_WelcomeBytes new) (or_old (pi_SourcePeerID new) (pi_SourcePeerID old))
    (if terminal (pi_Status old) then pi_Status old else pi_Status new)
    (pi_ReceivedAt old) (pi_UpdatedAt new).

(** The row that is inserted. *)
Definition invite_row (now : Z) (inv : PendingInvite) : PendingInvite :=
  mkPendingInvite
    (or_old (TrimSpace (pi_ID inv)) (PendingInviteID (pi_GroupID inv) (pi_WelcomeBytes inv)))
    (pi_GroupID inv) (normalizeGroupType (pi_GroupType inv)) (TrimSpace (pi_CategoryID inv)) (pi_GroupName inv)
    (pi_InviterPeerID inv)
    (if is_empty (pi_WelcomeHash inv) then pendingInviteHash (pi_WelcomeBytes inv) else pi_WelcomeHash inv)
    (pi_WelcomeBytes inv) (pi_SourcePeerID inv) (or_old (TrimSpace (pi_Status inv)) PendingInviteStatusPending)
    (if pi_ReceivedAt inv =? 0 then now else pi_ReceivedAt inv) now.

(** [SavePendingInvite]: a row with the same group and Welcome is merged;
    otherwise the primary key may refuse the new row. *)
Definition SavePendingInvite (inv : PendingInvite) : ASQL unit :=
  if str_eqb (TrimSpace (pi_GroupID inv)) "" then sql_throw (ErrText "SavePendingInvite: group_id is required")
  else if is_empty (pi_WelcomeBytes inv) then sql_throw (ErrText "SavePendingInvite: welcome_bytes is required")
  else
    now <-! unix_now ;
    let row := invite_row now inv in
    sql_wrap "SavePendingInvite" (HealStore.sql_exec_unique "pending_invites.id"
      (fun d => negb (existsb (invite_hit (pi_GroupID row) (pi_WelcomeHash row)) (adb_pending_invites d)) &&
                existsb (invite_id (pi_ID row)) (adb_pending_invites d))
      (fun d => set_adb_pending_invites
        (upsert_by (invite_hit (pi_GroupID row) (pi_WelcomeHash row)) (merge_invite row) row (adb_pending_invites d)) d)).

Definition scan_invite (i : PendingInvite) : PendingInvite :=
  mkPendingInvite (pi_ID i) (pi_GroupID i) (normalizeGroupType (pi_GroupType i)) (TrimSpace (pi_CategoryID i))
    (pi_GroupName i) (pi_InviterPeerID i) (pi_WelcomeHash i) (pi_WelcomeBytes i) (pi_SourcePeerID i) (pi_Status i)
    (pi_ReceivedAt i) (pi_UpdatedAt i).

Definition received_later (a b : PendingInvite) : bool :=
  (pi_ReceivedAt a >? pi_ReceivedAt b) || (pi_ReceivedAt a =? pi_ReceivedAt b) && (pi_UpdatedAt a >? pi_UpdatedAt b).
Definition updated_later (a b : PendingInvite) : bool :=
  (pi_UpdatedAt a >? pi_UpdatedAt b) || (pi_UpdatedAt a =? pi_UpdatedAt b) && (pi_ReceivedAt a >? pi_ReceivedAt b).

(** [ListPendingInvites] *)
Definition ListPendingInvites (includeTerminal : bool) : ASQL (list PendingInvite) :=
  rows <-! sql_wrap "ListPendingInvites" (sql_query (fun d => stable_sort received_later
    (List.filter (fun i => includeTerminal || str_eqb (pi_Status i) PendingInviteStatusPending) (adb_pending_invites d)))) ;
  sql_ret (scan_invite <$> rows).

(** [GetPendingInvite], [GetLatestPendingInviteByGroup] *)
Definition GetPendingInvite (id : string) : ASQL PendingInvite :=
  i <-! sql_row (fun d => head (List.filter (invite_id id) (adb_pending_invites d))) ; sql_ret (scan_invite i).
Definition GetLatestPendingInviteByGroup (groupID : string) : ASQL PendingInvite :=
  let g := TrimSpace groupID in
  if str_eqb g "" then sql_throw sql_ErrNoRows
  else
    i <-! sql_row (fun d => head (stable_sort updated_later
      (List.filter (fun i => str_eqb (pi_GroupID i) g) (adb_pending_invites d)))) ;
    sql_ret (scan_invite i).

Definition with_status (status : string) (now : Z) (i : PendingInvite) : PendingInvite :=
  mkPendingInvite (pi_ID i) (pi_GroupID i) (pi_GroupType i) (pi_CategoryID i) (pi_GroupName i) (pi_InviterPeerID i)
    (pi_WelcomeHash i) (pi_WelcomeBytes i) (pi_SourcePeerID i) status (pi_ReceivedAt i) now.

(** [markPendingInviteStatus], [MarkPendingInviteAccepted], [MarkPendingInviteRejected] *)
Definition markPendingInviteStatus (id status : string) : ASQL unit :=
  now <-! unix_now ;
  n <-! sql_wrap "markPendingInviteStatus" (sql_update (fun d =>
    let '(rows, n) := update_where (invite_id id) (with_status status now) (adb_pending_invites d) in
    (set_adb_pending_invites rows d, n))) ;
  if n =? 0 then sql_throw sql_ErrNoRows else sql_ret tt.
Definition MarkPendingInviteAccepted (id : string) : ASQL unit := markPendingInviteStatus id PendingInviteStatusAccepted.
Definition MarkPendingInviteRejected (id : string) : ASQL unit := markPendingInviteStatus id PendingInviteStatusRejected.

(** [DeletePendingInvite] *)
Definition DeletePendingInvite (id : string) : ASQL unit :=
  n <-! sql_wrap "DeletePendingInvite" (sql_update (fun d =>
    let '(rows, n) := delete_where (invite_id id) (adb_pending_invites d) in (set_adb_pending_invites rows d, n))) ;
  if n =? 0 then sql_throw sql_ErrNoRows else sql_ret tt.

(** The rows that [ReopenRejectedInvite] changes: those rejected last. *)
Definition rejected (g : string) (i : PendingInvite) : bool :=
  str_eqb (pi_GroupID i) g && str_eqb (pi_Status i) PendingInviteStatusRejected.
Definition last_rejected (g : string) (d : AppDB) (i : PendingInvite) : bool :=
  rejected g i && forallb (fun j => negb (rejected g j) || (pi_UpdatedAt j <=? pi_UpdatedAt i)) (adb_pending_invites d).

Definition reopened (now : Z) (id : string) (hash : bytes) (inv i : PendingInvite) : PendingInvite :=
  mkPendingInvite id (pi_GroupID i) (normalizeGroupType (pi_GroupType inv)) (or_old (TrimSpace (pi_CategoryID inv)) (pi_CategoryID i))
    (or_old (TrimSpace (pi_GroupName inv)) (pi_GroupName i)) (or_old (TrimSpace (pi_InviterPeerID inv)) (pi_InviterPeerID i))
    hash (pi_WelcomeBytes inv) (or_old (TrimSpace (pi_SourcePeerID inv)) (pi_SourcePeerID i)) PendingInviteStatusPending now now.

(** Both unique keys of the rows that would be changed: a second such row, or
    another row that has the id or the Welcome. *)
Definition reopen_refused (g id : string) (hash : bytes) (d : AppDB) : bool :=
  (1 <? Z.of_nat (length (List.filter (last_rejected g d) (adb_pending_invites d)))) ||
  (existsb (last_rejected g d) (adb_pending_invites d) &&
   existsb (fun i => negb (last_rejected g d i) && (invite_id id i || invite_hit g hash i)) (adb_pending_invites d)).

(** [ReopenRejectedInvite] *)
Definition ReopenRejectedInvite (inv : PendingInvite) : ASQL string :=
  let g := TrimSpace (pi_GroupID inv) in
  if str_eqb g "" || is_empty (pi_WelcomeBytes inv) then
    sql_throw (ErrText "ReopenRejectedInvite: group_id and welcome_bytes are required")
  else
    now <-! unix_now ;
    let hash := if is_empty (pi_WelcomeHash inv) then pendingInviteHash (pi_WelcomeBytes inv) else pi_WelcomeHash inv in
    let id := or_old (TrimSpace (pi_ID inv)) (PendingInviteID (pi_GroupID inv) (pi_WelcomeBytes inv)) in
    n <-! sql_wrap "ReopenRejectedInvite" (sql_update_unique "pending_invites" (reopen_refused g id hash) (fun d =>
      let '(rows, n) := update_where (last_rejected g d) (reopened now id hash inv) (adb_pending_invites d) in
      (set_adb_pending_invites rows d, n))) ;
    if n =? 0 then sql_throw sql_ErrNoRows else sql_ret id.

(** ** Who created a group *)

Definition latest_source (less : PendingInvite -> PendingInvite -> bool) (f : PendingInvite -> string) (g : string) (d : AppDB)
  : option string :=
  f <$> head (stable_sort less
    (List.filter (fun i => str_eqb (pi_GroupID i) g && negb (sql_trim_empty (f i))) (adb_pending_invites d))).

(** [GetGroupInviteCreatorHint]: the source of the latest Welcome, of the
    latest invite, the inviter. *)
Definition GetGroupInviteCreatorHint (groupID : string) : ASQL string :=
  let g := TrimSpace groupID in
  let try_next (found : result (option string)) (next : ASQL string) : ASQL string :=
    match found with
    | inl (Some src) => if str_eqb (TrimSpace src) "" then next else sql_ret (TrimSpace src)
    | _ => next
    end in
  if str_eqb g "" then sql_throw sql_ErrNoRows
  else
    stored <-! sql_try (sql_query (fun d => stw_SourcePeerID <$> head (stable_sort (fun a b => stw_CreatedAt a >? stw_CreatedAt b)
      (List.filter (fun w => str_eqb (stw_GroupID w) g && negb (sql_trim_empty (stw_SourcePeerID w))) (adb_stored_welcomes d))))) ;
    try_next stored (
      source <-! sql_try (sql_query (latest_source (fun a b => pi_ReceivedAt a >? pi_ReceivedAt b) pi_SourcePeerID g)) ;
      try_next source (
        inviter <-! sql_row (latest_source updated_later pi_InviterPeerID g) ;
        if str_eqb (TrimSpace inviter) "" then sql_throw sql_ErrNoRows else sql_ret (TrimSpace inviter))).
End InviteStore.

(** ** Group metadata *)

Module GroupMeta.
Import Roster.

(** [GetGroupChatAvatarMeta] *)
Definition GetGroupChatAvatarMeta (groupID : string) : ASQL (string * string * Z) :=
  let g := TrimSpace groupID in
  if str_eqb g "" then sql_throw (ErrText "group id required")
  else
    row <-! sql_wrap "GetGroupChatAvatarMeta" (sql_query (fun d =>
      match group_row g d with Some _ => Some (group_cols g d) | None => None end)) ;
    match row with
    | Some k => sql_ret (TrimSpace (gc_avatar_hash k), TrimSpace (gc_avatar_mime k), gc_avatar_updated_at k)
    | None => sql_throw sql_ErrNoRows
    end.

Definition set_avatar (hash mime : string) (at_ : Z) (k : GroupCols) : GroupCols :=
  mkGroupCols (gc_creator_peer_id k) (gc_invite_policy k) hash mime at_.

(** [SetGroupChatAvatar], [ClearGroupChatAvatar] *)
Definition SetGroupChatAvatar (groupID hash mime : string) (updatedAtUnix : Z) : ASQL unit :=
  let g := TrimSpace groupID in
  let hash := TrimSpace (ToLower hash) in
  let mime := TrimSpace mime in
  if str_eqb g "" then sql_throw (ErrText "group id required")
  else if str_eqb hash "" || str_eqb mime "" then sql_throw (ErrText "avatar hash and mime are required")
  else
    now <-! current_timestamp ;
    sql_wrap "SetGroupChatAvatar" (sql_exec (fun d => fst (update_group g now id (set_avatar hash mime updatedAtUnix) d))).
Definition ClearGroupChatAvatar (groupID : string) : ASQL unit :=
  let g := TrimSpace groupID in
  if str_eqb g "" then sql_throw (ErrText "group id required")
  else
    now <-! current_timestamp ;
    sql_wrap "ClearGroupChatAvatar" (sql_exec (fun d => fst (update_group g now id (set_avatar "" "" 0) d))).

(** SQL [lower]: the ASCII letters *)
Definition sql_lower (s : string) : string :=
  bytes_str ((fun b => if (65 <=? Byte.to_N b)%N && (Byte.to_N b <=? 90)%N
                       then default b (Byte.of_N (Byte.to_N b + 32)) else b) <$> str_bytes s).

Definition set_counterparty (p : string) (row : GroupRow) : GroupRow :=
  let r := grow_rec row in
  mkGroupRow (mkGroupRecord (gr_GroupID r) (gr_GroupState r) (gr_Epoch r) (gr_TreeHash r) (gr_MyRole r)
    (gr_GroupType r) (gr_CategoryID r) p (gr_CreatedAt r) (gr_UpdatedAt r)) (grow_lifecycle_status row) (grow_left_at row).

(** [SetDMCounterpartyPeerID] *)
Definition SetDMCounterpartyPeerID (groupID peerID : string) : ASQL unit :=
  let g := TrimSpace groupID in
  let p := TrimSpace peerID in
  if str_eqb g "" then sql_throw (ErrText "group id required")
  else if str_eqb p "" then sql_throw (ErrText "counterparty peer id required")
  else
    now <-! current_timestamp ;
    n <-! sql_wrap "SetDMCounterpartyPeerID" (sql_update (fun d =>
      match group_row g d with
      | Some row => if str_eqb (sql_lower (gr_GroupType (grow_rec row))) "dm"
                    then update_group g now (set_counterparty p) id d else (d, 0)
      | None => (d, 0)
      end)) ;
    if n =? 0 then sql_throw sql_ErrNoRows else sql_ret tt.

(** [ListJoinedGroupChatIDsForReplication] *)
Definition ListJoinedGroupChatIDsForReplication (limit : Z) : ASQL (list string) :=
  let limit := if limit <=? 0 then 256 else limit in
  let limit := if limit >? 512 then 512 else limit in
  rows <-! sql_wrap "ListJoinedGroupChatIDsForReplication" (sql_query (fun d =>
    take (Z.to_nat limit) (stable_sort (fun a b : string * GroupRow => gr_UpdatedAt (grow_rec a.2) >? gr_UpdatedAt (grow_rec b.2))
      (List.filter (fun kr : string * GroupRow =>
         str_eqb (gr_GroupType (grow_rec kr.2)) "group" && str_eqb (grow_lifecycle_status kr.2) "active")
        (map_to_list (db_groups (adb_core d))))))) ;
  sql_ret (filter (fun g => g <> "") ((fun kr : string * GroupRow => TrimSpace kr.1) <$> rows)).

(** *** Purging *)

Definition on_core (f : DB -> DB) (d : AppDB) : AppDB := set_adb_core (f (adb_core d)) d.
Definition other_group {A} (group : A -> string) (g : string) (l : list A) : list A :=
  List.filter (fun x => negb (str_eqb (group x) g)) l.
Definition other_key {K A} `{Countable K} (group : K -> string) (g : string) (m : gmap K A) : gmap K A :=
  filter (fun kv => group kv.1 <> g) m.
Definition other_val {A} (group : A -> string) (g : string) (m : gmap string A) : gmap string A :=
  filter (fun kv => group kv.2 <> g) m.

(** The [DELETE] of each table. *)
Definition purge_tables (g : string) : list (string * (AppDB -> AppDB)) :=
  [("mls_groups", fun d => set_adb_group_cols (delete g (adb_group_cols d)) (on_core (fun c => set_db_groups (delete g (db_groups c)) c) d));
   ("group_members", fun d => set_adb_members (other_key fst g (adb_members d)) d);
   ("coordination_state", on_core (fun c => set_db_coord (delete g (db_coord c)) c));
   ("group_add_operations", fun d => set_adb_add_ops (other_val ao_GroupID g (adb_add_ops d)) d);
   ("pending_welcomes_out", fun d => set_adb_welcomes_out (other_group pw_GroupID g (adb_welcomes_out d)) d);
   ("stored_welcomes", fun d => set_adb_stored_welcomes (other_group stw_GroupID g (adb_stored_welcomes d)) d);
   ("pending_invites", fun d => set_adb_pending_invites (other_group pi_GroupID g (adb_pending_invites d)) d);
   ("applied_welcomes", fun d => set_adb_applied_welcomes (other_val fst g (adb_applied_welcomes d)) d);
   ("applied_envelopes", on_core (fun c => set_db_applied (other_key fst g (db_applied c)) c));
   ("envelope_log", on_core (fun c => set_db_log (other_group (fun r => er_GroupID (lr_rec r)) g (db_log c)) c));
   ("envelope_dedup", on_core (fun c => set_db_dedup (other_key fst g (db_dedup c)) c));
   ("group_event_log", fun d => set_adb_events (other_group ge_GroupID g (adb_events d)) d);
   ("fork_heal_events", on_core (fun c => set_db_heal_events (other_group (fun r => fhe_GroupID (her_rec r)) g (db_heal_events c)) c));
   ("fork_audit", on_core (fun c => set_db_heal_audit (other_group (fun r => fhr_GroupID (har_rec r)) g (db_heal_audit c)) c));
   ("group_invite_requests", fun d => set_adb_invites (other_val (fun r => ir_GroupID (iv_rec r)) g (adb_invites d)) d)].

Fixpoint delete_all (tables : list (string * (AppDB -> AppDB))) : ASQL unit :=
  match tables with
  | [] => sql_ret tt
  | (table, f) :: rest => sql_wrap ("PurgeGroupMetadata delete from " +:+ table) (sql_exec f) ;;! delete_all rest
  end.

(** [PurgeGroupMetadata] *)
Definition PurgeGroupMetadata (groupID : string) : ASQL unit :=
  let g := TrimSpace groupID in
  if str_eqb g "" then sql_throw (ErrText "PurgeGroupMetadata: group ID is required")
  else sql_tx "PurgeGroupMetadata begin tx"
    (delete_all (purge_tables g) ;;! sql_wrap "PurgeGroupMetadata commit" sql_commit ;;! sql_ret (tt, true)).

(** What a purge that commits leaves. *)
Definition purged (g : string) (d : AppDB) : AppDB := foldl (fun d tf => tf.2 d) d (purge_tables g).
End GroupMeta.
