(* ===== verification/Replicated.v ===== *)
(** * Replicated records

    [adapter/store/replicated_store.go]: signed records that every node keeps
    under [(namespace, record key)], with a revision that decides which of two
    versions stays, the references of a record to blobs, the cursors of pulls
    and the collection of blobs that no record references. *)
From S2P Require Import Prelude GoStrings Sha256 Types SingleWriter Database Store HealStore AppDatabase.

Module Replicated.

Definition NamespaceUserProfileV1 := "user.profile.v1".
Definition NamespaceGroupAvatarV1 := "group.avatar.v1".
Definition NamespaceGroupRoleV1 := "group.role.v1".
Definition NamespaceGroupInvitePolicyV1 := "group.invite_policy.v1".

Definition ErrReplicatedStaleRevision : GoError := ErrSentinel "replicated: stale revision".
Definition ErrReplicatedConflict : GoError := ErrSentinel "replicated: same revision conflicting payload".

(** [ReplicatedBodyHash] *)
Definition ReplicatedBodyHash (bodyJSON : string) : string :=
  hex_EncodeToString (sha256_sum (str_bytes bodyJSON)).

(** The arguments of [TryMergeReplicatedRecord] and
    [PutReplicatedRecordForce]; a blob reference is a hash and whether the
    blob is required. *)
Record ReplicatedPut := mkPut {
  rp_namespace : string;
  rp_recordKey : string;
  rp_ownerPeerID : string;
  rp_revision : Z;
  rp_schemaVersion : Z;
  rp_bodyJSON : string;
  rp_bodyHash : string;
  rp_signature : bytes;
  rp_signingPublicKeyHex : string;
  rp_deletedAt : Z;
  rp_blobRefs : list (string * bool);
}.

(** [GetReplicatedRecord] *)
Definition GetReplicatedRecord (namespace recordKey : string) : ASQL ReplicatedRecordRow :=
  let ns := TrimSpace namespace in
  let k := TrimSpace recordKey in
  if str_eqb ns "" || str_eqb k "" then sql_throw (ErrText "replicated: namespace and record_key required")
  else sql_row (fun d => adb_records d !! (ns, k)).

(** [normalizeReplicatedBlobRefs]: the map [seen] of the loop; the list it is
    turned into has no order. *)
Definition add_ref (seen : gmap string bool) (ref : string * bool) : gmap string bool :=
  let h := TrimSpace (ToLower ref.1) in
  if str_eqb h "" then seen
  else match seen !! h with
       | Some required => <[h := required || ref.2]> seen
       | None => <[h := ref.2]> seen
       end.
Definition normalizeReplicatedBlobRefs (refs : list (string * bool)) : gmap string bool := foldl add_ref ∅ refs.

Definition insert_ref (k : string * string) (ref : string * bool) (d : AppDB) : AppDB :=
  set_adb_record_blobs (<[k := <[ref.1 := ref.2]> (default ∅ (adb_record_blobs d !! k))]> (adb_record_blobs d)) d.

Fixpoint insert_refs (k : string * string) (refs : list (string * bool)) : ASQL unit :=
  match refs with
  | [] => sql_ret tt
  | ref :: refs => sql_wrap "replicated blob refs insert" (sql_exec (insert_ref k ref)) ;;! insert_refs k refs
  end.

(** [replaceReplicatedRecordBlobRefs] *)
Definition replaceReplicatedRecordBlobRefs (ns k : string) (refs : gmap string bool) : ASQL unit :=
  sql_tx "replicated blob refs begin" (
    sql_wrap "replicated blob refs delete" (sql_exec (fun d =>
      set_adb_record_blobs (delete (ns, k) (adb_record_blobs d)) d)) ;;!
    insert_refs (ns, k) (map_to_list refs) ;;!
    sql_wrap "replicated blob refs commit" sql_commit ;;!
    sql_ret (tt, true)).

(** The row an accepted put stores. *)
Definition put_key (x : ReplicatedPut) : string * string :=
  (TrimSpace (rp_namespace x), TrimSpace (rp_recordKey x)).
Definition put_row (x : ReplicatedPut) (now : Z) : ReplicatedRecordRow :=
  mkReplicatedRecordRow (put_key x).1 (put_key x).2 (TrimSpace (rp_ownerPeerID x)) (rp_revision x)
    (rp_schemaVersion x) (rp_bodyJSON x) (ToLower (TrimSpace (rp_bodyHash x))) (rp_signature x)
    (ToLower (TrimSpace (rp_signingPublicKeyHex x))) (rp_deletedAt x) now.

(** The argument checks; the message for a missing hash differs. *)
Definition put_invalid (nohash : string) (x : ReplicatedPut) : option GoError :=
  let wantHash := ToLower (TrimSpace (rp_bodyHash x)) in
  if str_eqb (put_key x).1 "" || str_eqb (put_key x).2 "" || str_eqb (TrimSpace (rp_ownerPeerID x)) "" then
    Some (ErrText "replicated: namespace, record_key, owner_peer_id required")
  else if rp_revision x <=? 0 then Some (ErrText "replicated: revision must be > 0")
  else if str_eqb wantHash "" then Some (ErrText nohash)
  else if negb (str_eqb (ReplicatedBodyHash (rp_bodyJSON x)) wantHash) then
    Some (ErrText "replicated: body_hash mismatch")
  else None.

Definition write_row (ctx : string) (x : ReplicatedPut) : ASQL unit :=
  now <-! unix_now ;
  sql_wrap ctx (HealStore.sql_not_null "replicated_records.signature" (rp_signature x) ;;!
    sql_exec (fun d => set_adb_records (<[put_key x := put_row x now]> (adb_records d)) d)).

(** [TryMergeReplicatedRecord] *)
Definition TryMergeReplicatedRecord (x : ReplicatedPut) : ASQL unit :=
  match put_invalid "replicated: body_hash required" x with
  | Some e => sql_throw e
  | None =>
      let replace := replaceReplicatedRecordBlobRefs (put_key x).1 (put_key x).2
                       (normalizeReplicatedBlobRefs (rp_blobRefs x)) in
      let wantHash := ToLower (TrimSpace (rp_bodyHash x)) in
      cur <-! sql_query (fun d => adb_records d !! put_key x) ;
      match cur with
      | None => write_row "replicated insert" x ;;! replace
      | Some r =>
          if rr_Revision r >? rp_revision x then sql_throw (ErrWrap "have a later one" ErrReplicatedStaleRevision)
          else if rr_Revision r =? rp_revision x then
            if EqualFold (TrimSpace (rr_BodyHash r)) wantHash then replace
            else sql_throw ErrReplicatedConflict
          else write_row "replicated update" x ;;! replace
      end
  end.

(** [PutReplicatedRecordForce] *)
Definition PutReplicatedRecordForce (x : ReplicatedPut) : ASQL unit :=
  match put_invalid "replicated: body_hash mismatch" x with
  | Some e => sql_throw e
  | None =>
      write_row "PutReplicatedRecordForce" x ;;!
      replaceReplicatedRecordBlobRefs (put_key x).1 (put_key x).2 (normalizeReplicatedBlobRefs (rp_blobRefs x))
  end.

(** [GetReplicatedRecordBlobRefs] *)
Definition GetReplicatedRecordBlobRefs (namespace recordKey : string) : ASQL (list (string * bool)) :=
  sql_wrap "GetReplicatedRecordBlobRefs" (sql_query (fun d =>
    stable_sort (fun a b : string * bool => str_ltb a.1 b.1)
      (map_to_list (default ∅ (adb_record_blobs d !! (TrimSpace namespace, TrimSpace recordKey)))))).

(** ** Pull cursors *)

Definition cursor_key (remote ns k : string) : string * string * string := (TrimSpace remote, TrimSpace ns, TrimSpace k).

(** [GetReplicatedPullCursor] *)
Definition GetReplicatedPullCursor (remotePeerID namespace recordKey : string) : ASQL Z :=
  sql_query (fun d => default 0 (adb_pull_state d !! cursor_key remotePeerID namespace recordKey)).

(** [UpsertReplicatedPullCursor] *)
Definition UpsertReplicatedPullCursor (remotePeerID namespace recordKey : string) (lastRevision : Z) : ASQL unit :=
  let k := cursor_key remotePeerID namespace recordKey in
  sql_wrap "UpsertReplicatedPullCursor" (sql_exec (fun d =>
    set_adb_pull_state (<[k :=
      match adb_pull_state d !! k with
      | Some cur => Z.max cur lastRevision
      | None => lastRevision
      end]> (adb_pull_state d)) d)).

(** ** Blobs *)

Definition MaxAvatarBytes : Z := 256 * 1024.

(** [UpsertReplicatedBlob] *)
Definition UpsertReplicatedBlob (hash mime : string) (data : bytes) : ASQL unit :=
  let h := TrimSpace (ToLower hash) in
  let m := TrimSpace mime in
  if str_eqb h "" || str_eqb m "" || is_empty data then
    sql_throw (ErrText "replicated blob: hash, mime and bytes are required")
  else if Z.of_nat (length data) >? MaxAvatarBytes then
    sql_throw (ErrText "replicated blob: size exceeds max")
  else
    now <-! unix_now ;
    sql_wrap "UpsertReplicatedBlob insert" (sql_exec (fun d =>
      match adb_replicated_blobs d !! h with
      | Some _ => d
      | None => set_adb_replicated_blobs (<[h := mkBlobRow m data now now]> (adb_replicated_blobs d)) d
      end)) ;;!
    sql_wrap "UpsertReplicatedBlob touch" (sql_exec (fun d =>
      set_adb_replicated_blobs (alter (fun b => mkBlobRow (bl_mime b) (bl_bytes b) (bl_created_at b) now) h
        (adb_replicated_blobs d)) d)).

Definition referenced (h : string) (d : AppDB) : bool :=
  existsb (fun kr : (string * string) * gmap string bool => bool_decide (is_Some (kr.2 !! h)))
    (map_to_list (adb_record_blobs d)).

(** The loop of [gcBlobTable]: the number of rows deleted. *)
Fixpoint gc_delete (hashes : list string) (deleted : Z) : ASQL Z :=
  match hashes with
  | [] => sql_ret deleted
  | h :: hashes =>
      n <-! sql_wrap "gc delete" (sql_update (fun d =>
        (set_adb_replicated_blobs (delete h (adb_replicated_blobs d)) d,
         if bool_decide (is_Some (adb_replicated_blobs d !! h)) then 1 else 0))) ;
      gc_delete hashes (deleted + n)
  end.

(** [GCUnreferencedReplicatedBlobs] through [gcBlobTable] *)
Definition GCUnreferencedReplicatedBlobs (cutoffUnix limit : Z) : ASQL Z :=
  let limit := if limit <=? 0 then 100 else limit in
  hashes <-! sql_wrap "gc select" (sql_query (fun d =>
    take (Z.to_nat limit) (fst <$>
      stable_sort (fun a b : string * BlobRow => bl_last_used_at a.2 <? bl_last_used_at b.2)
        (List.filter (fun hb : string * BlobRow => (bl_last_used_at hb.2 <? cutoffUnix) && negb (referenced hb.1 d))
          (map_to_list (adb_replicated_blobs d)))))) ;
  gc_delete hashes 0.

(** ** Records over time *)

(** A stored record is under its key, has a positive revision and carries the
    hash of its body. *)
Record record_ok (k : string * string) (r : ReplicatedRecordRow) : Prop := {
  ro_key : (rr_Namespace r, rr_RecordKey r) = k;
  ro_revision : 0 < rr_Revision r;
  ro_hash : rr_BodyHash r = ReplicatedBodyHash (rr_BodyJSON r);
}.
Definition records_ok (d : AppDB) : Prop := map_Forall record_ok (adb_records d).

Lemma put_valid m x : put_invalid m x = None ->
  0 < rp_revision x /\ ToLower (TrimSpace (rp_bodyHash x)) = ReplicatedBodyHash (rp_bodyJSON x).
Proof.
  unfold put_invalid. repeat (case_match; [done|]). intros _. breflect. split; [lia|done].
Qed.

Lemma put_row_ok m x now : put_invalid m x = None -> record_ok (put_key x) (put_row x now).
Proof. intros H. apply put_valid in H as [Hr Hh]. split; [reflexivity|exact Hr|exact Hh]. Qed.

(** Merging moves a record forward only, and keeps the table well formed. *)
Definition forward (d d' : AppDB) : Prop :=
  (records_ok d -> records_ok d') /\
  forall k r, adb_records d !! k = Some r ->
    exists r', adb_records d' !! k = Some r' /\ rr_Revision r <= rr_Revision r'.

#[export] Instance forward_preorder : PreOrder forward.
Proof.
  split; [intros d; split; eauto with lia|]. intros d1 d2 d3 [K1 H1] [K2 H2]. split; [tauto|].
  intros k r E. destruct (H1 k r E) as (r2 & E2 & L2). destruct (H2 k r2 E2) as (r3 & E3 & L3).
  eauto with lia.
Qed.

Lemma forward_same d d' : adb_records d' = adb_records d -> forward d d'.
Proof. intros E. unfold forward, records_ok. rewrite E. eauto with lia. Qed.

(** Replacing the references changes nothing but them. *)
Lemma replace_refs_only {X} (f : AppDB -> X) ns k refs :
  (forall v d, f (set_adb_record_blobs v d) = f d) ->
  respects (same f) (replaceReplicatedRecordBlobRefs ns k refs).
Proof.
  intros Hf. unfold replaceReplicatedRecordBlobRefs. asql_step. apply respects_ensures. repeat asql_step; try apply Hf.
  induction (map_to_list refs) as [|ref l IH]; simpl; repeat asql_step; [apply Hf|apply IH].
Qed.

Lemma replace_same ns k refs : respects (same adb_records) (replaceReplicatedRecordBlobRefs ns k refs).
Proof. by apply replace_refs_only. Qed.

(** Merging changes only the record and its references. *)
Lemma merge_only {X} (f : AppDB -> X) x :
  (forall v d, f (set_adb_record_blobs v d) = f d) -> (forall v d, f (set_adb_records v d) = f d) ->
  respects (same f) (TryMergeReplicatedRecord x).
Proof.
  intros Hb Hr. unfold TryMergeReplicatedRecord, write_row. repeat asql_step; try apply Hr; by apply replace_refs_only.
Qed.

Lemma replace_forward ns k refs : respects forward (replaceReplicatedRecordBlobRefs ns k refs).
Proof. eapply respects_weaken; [apply forward_same|apply replace_same]. Qed.

(** The outcome of [write_row]. *)
Lemma write_row_run ctx x env t d r t' d' :
  write_row ctx x env t d = (r, t', d') ->
  d' = d /\ r <> inl tt \/
  r = inl tt /\ exists now, d' = set_adb_records (<[put_key x := put_row x now]> (adb_records d)) d.
Proof.
  unfold write_row, unix_now, HealStore.sql_not_null, sql_exec, sql_wrap, sql_bind, sql_time, sql_ret.
  destruct (nil_blob_null env && _); [intros [= <- _ <-]; by left|].
  destruct (sql_fails env _); intros [= <- _ <-]; eauto.
Qed.

Lemma write_row_forward ctx m x d :
  put_invalid m x = None ->
  (forall r, adb_records d !! put_key x = Some r -> rr_Revision r <= rp_revision x) ->
  forall env t, forward d (write_row ctx x env t d).2.
Proof.
  intros Hok Hr env t. destruct (write_row ctx x env t d) as [[r t'] d'] eqn:E.
  apply write_row_run in E as [[-> _]|[-> (now & ->)]]; [reflexivity|]. split; simpl.
  - intros Hd. by apply map_Forall_insert_2; [apply (put_row_ok m)|].
  - intros k r0 E0. destruct (decide (put_key x = k)) as [<-|Hne].
    + rewrite lookup_insert_eq. eexists. split; [done|]. simpl. by apply Hr.
    + rewrite lookup_insert_ne by done. eauto with lia.
Qed.

(** Merging a replicated record, whatever statement fails on the way,
    never moves a record backwards: no record disappears, its revision does
    not decrease, and every stored record keeps the hash of its body and a
    positive revision. *)
Theorem merge_moves_forward x env t d d' :
  records_ok d -> d' = (TryMergeReplicatedRecord x env t d).2 ->
  records_ok d' /\
  forall k r, adb_records d !! k = Some r ->
    exists r', adb_records d' !! k = Some r' /\ rr_Revision r <= rr_Revision r'.
Proof.
  intros Hd ->. assert (H : forward d (TryMergeReplicatedRecord x env t d).2); [|by destruct H; auto].
  clear Hd. unfold TryMergeReplicatedRecord. destruct (put_invalid _ x) eqn:Hok; [reflexivity|].
  unfold sql_bind at 1, sql_query. destruct (sql_fails env t); [reflexivity|].
  assert (Hw : forall ctx, (forall r, adb_records d !! put_key x = Some r -> rr_Revision r <= rp_revision x) ->
    forall env t, forward d ((write_row ctx x ;;! replaceReplicatedRecordBlobRefs (put_key x).1 (put_key x).2
      (normalizeReplicatedBlobRefs (rp_blobRefs x))) env t d).2).
  { intros ctx Hr env' t0. pose proof (write_row_forward ctx _ x d Hok Hr env' t0) as Hf. unfold sql_bind.
    destruct (write_row ctx x env' t0 d) as [[[u|e] t1] d1]; simpl in *; [|done].
    etrans; [exact Hf|apply replace_forward]. }
  destruct (adb_records d !! put_key x) as [r|] eqn:E; [|by apply Hw].
  destruct (Z.gtb_spec (rr_Revision r) (rp_revision x)); [reflexivity|].
  destruct (rr_Revision r =? rp_revision x) eqn:Er.
  - case_match; [apply replace_forward|reflexivity].
  - apply Hw. intros r' [= <-]. lia.
Qed.

(** ** Convergence *)

(** Merging what arrives, one record after the other; the caller goes on after
    an error. *)
Fixpoint merge_all (l : list ReplicatedPut) : ASQL unit :=
  match l with
  | [] => sql_ret tt
  | x :: l => sql_ignore (TryMergeReplicatedRecord x) ;;! merge_all l
  end.

(** No statement fails. *)
Definition reliable (env : SqlEnv) : Prop := forall n, sql_fails env n = None.

Definition valid_put (x : ReplicatedPut) : Prop := put_invalid "replicated: body_hash required" x = None.
#[export] Instance valid_put_dec x : Decision (valid_put x).
Proof. unfold valid_put. apply _. Defined.

(** A record without the time it was written here. *)
Definition content (r : ReplicatedRecordRow) : ReplicatedRecordRow :=
  mkReplicatedRecordRow (rr_Namespace r) (rr_RecordKey r) (rr_OwnerPeerID r) (rr_Revision r)
    (rr_SchemaVersion r) (rr_BodyJSON r) (rr_BodyHash r) (rr_Signature r) (rr_SigningPublicKeyHex r)
    (rr_DeletedAt r) 0.

(** [o] is the newest of the records that [l] offers for [k]. *)
Definition newest (l : list ReplicatedPut) (k : string * string) (o : option ReplicatedRecordRow) : Prop :=
  match o with
  | None => forall x, x ∈ l -> valid_put x -> put_key x <> k
  | Some r =>
      (exists x, x ∈ l /\ valid_put x /\ put_key x = k /\ content r = put_row x 0) /\
      forall x, x ∈ l -> valid_put x -> put_key x = k -> rp_revision x <= rr_Revision r
  end.

(** A record that is offered replaces the stored one if it is later. *)
Definition replaces (x : ReplicatedPut) (o : option ReplicatedRecordRow) : bool :=
  bool_decide (valid_put x) && match o with Some r => rr_Revision r <? rp_revision x | None => true end.

Lemma merge_reliable env t d x :
  reliable env -> rp_signature x <> [] ->
  exists now, adb_records (TryMergeReplicatedRecord x env t d).2 =
    if replaces x (adb_records d !! put_key x)
    then <[put_key x := put_row x now]> (adb_records d) else adb_records d.
Proof.
  intros Hrel Hsig. exists (sql_clock env (S t) / Second).
  unfold TryMergeReplicatedRecord, replaces.
  destruct (bool_decide_reflect (valid_put x)) as [Hok|Hok]; unfold valid_put in Hok.
  2: { by destruct (put_invalid _ x). }
  rewrite Hok. unfold sql_bind at 1, sql_query. rewrite Hrel.
  assert (Hw : forall ctx, adb_records ((write_row ctx x ;;! replaceReplicatedRecordBlobRefs (put_key x).1 (put_key x).2
      (normalizeReplicatedBlobRefs (rp_blobRefs x))) env (S t) d).2 =
      <[put_key x := put_row x (sql_clock env (S t) / Second)]> (adb_records d)).
  { intros ctx. unfold sql_bind at 1, write_row, unix_now, HealStore.sql_not_null, sql_exec, sql_wrap, sql_bind,
      sql_time, sql_ret. apply is_empty_false in Hsig as ->. rewrite andb_false_r.
    cbv beta iota. rewrite Hrel. by rewrite replace_same. }
  destruct (adb_records d !! put_key x) as [r|]; [|apply Hw]. cbn [andb].
  destruct (Z.gtb_spec (rr_Revision r) (rp_revision x)).
  { by destruct (Z.ltb_spec (rr_Revision r) (rp_revision x)); [lia|]. }
  destruct (Z.eqb_spec (rr_Revision r) (rp_revision x)) as [->|Hne].
  - rewrite Z.ltb_irrefl. case_match; [apply replace_same|done].
  - destruct (Z.ltb_spec (rr_Revision r) (rp_revision x)); [apply Hw|lia].
Qed.

(** A put that is invalid or of another key changes nothing. *)
Lemma newest_other l k o x :
  newest l k o -> (valid_put x -> put_key x <> k) -> newest (l ++ [x]) k o.
Proof.
  intros H Hx. destruct o as [r|]; simpl in *.
  - destruct H as [(y & Hy & ?) Hmax]. split; [exists y; set_solver|]. intros z.
    rewrite elem_of_app, list_elem_of_singleton. intros [Hz| ->] Hvz Hkz; [by apply Hmax|].
    by destruct (Hx Hvz).
  - intros z. rewrite elem_of_app, list_elem_of_singleton. intros [Hz| ->]; auto.
Qed.

Lemma newest_step (m : gmap (string * string) ReplicatedRecordRow) l k x now :
  newest l k (m !! k) ->
  newest (l ++ [x]) k ((if replaces x (m !! put_key x) then <[put_key x := put_row x now]> m else m) !! k).
Proof.
  intros H. unfold replaces. destruct (bool_decide_reflect (valid_put x)) as [Hv|Hv]; simpl.
  2: { by apply newest_other. }
  destruct (decide (put_key x = k)) as [<-|Hne].
  - destruct (m !! put_key x) as [r|] eqn:E; simpl in H.
    + destruct H as [(y & Hy & Hy') Hmax]. destruct (Z.ltb_spec (rr_Revision r) (rp_revision x)) as [Hl|Hl].
      * rewrite lookup_insert_eq. split; [exists x; split_and!; [apply elem_of_app; right; by left|done..]|]. intros z.
        rewrite elem_of_app, list_elem_of_singleton. intros [Hz| ->] Hvz Hkz; simpl; [|lia].
        specialize (Hmax z Hz Hvz Hkz). lia.
      * rewrite E. split; [exists y; split; [apply elem_of_app; by left|done]|]. intros z.
        rewrite elem_of_app, list_elem_of_singleton. intros [Hz| ->] Hvz Hkz; [by apply Hmax|lia].
    + rewrite lookup_insert_eq. split; [exists x; split_and!; [apply elem_of_app; right; by left|done..]|]. intros z.
      rewrite elem_of_app, list_elem_of_singleton. intros [Hz| ->] Hvz Hkz; simpl; [|lia].
      by destruct (H z Hz Hvz).
  - assert (Hk : newest (l ++ [x]) k (m !! k)) by (by apply newest_other).
    case_match; [by rewrite lookup_insert_ne|done].
Qed.

Lemma merge_all_newest env l l0 t d :
  reliable env -> (forall x, x ∈ l -> rp_signature x <> []) ->
  (forall k, newest l0 k (adb_records d !! k)) ->
  forall k, newest (l0 ++ l) k (adb_records (merge_all l env t d).2 !! k).
Proof.
  intros Hrel. revert l0 t d. induction l as [|x l IH]; intros l0 t d Hsig H k; simpl.
  { by rewrite app_nil_r. }
  unfold sql_bind, sql_ignore. destruct (TryMergeReplicatedRecord x env t d) as [[r t1] d1] eqn:E.
  change (x :: l) with ([x] ++ l). rewrite app_assoc. apply IH; [set_solver|].
  intros k'. destruct (merge_reliable env t d x Hrel) as [now Hm]; [set_solver|].
  rewrite E in Hm. simpl in Hm. rewrite Hm. by apply newest_step.
Qed.

(** Two puts of a record with the same revision are the same put. *)
Definition one_per_revision (l : list ReplicatedPut) : Prop :=
  forall x y, x ∈ l -> y ∈ l -> valid_put x -> valid_put y ->
    put_key x = put_key y -> rp_revision x = rp_revision y -> put_row x 0 = put_row y 0.

(** C27: Replicas converge.  Two nodes that start without records and merge
    the same signed records, in any order and with any repetition, hold the
    same records, up to the local time of writing; for each key it is the
    valid record of the highest revision.  Their owners give a revision out
    once, and no statement fails. *)
Theorem replicas_converge env env' t t' l l' d d' :
  reliable env -> reliable env' -> adb_records d = ∅ -> adb_records d' = ∅ ->
  (forall x, x ∈ l <-> x ∈ l') -> (forall x, x ∈ l -> rp_signature x <> []) -> one_per_revision l ->
  forall k, content <$> adb_records (merge_all l env t d).2 !! k =
            content <$> adb_records (merge_all l' env' t' d').2 !! k /\
            newest l k (adb_records (merge_all l env t d).2 !! k).
Proof.
  intros Hr Hr' Hd Hd' Hl Hsig Hone k.
  assert (H := merge_all_newest env l [] t d Hr Hsig). rewrite Hd in H. specialize (H ltac:(by intros; rewrite lookup_empty; intros ? ?%not_elem_of_nil) k).
  assert (H' := merge_all_newest env' l' [] t' d' Hr'). rewrite Hd' in H'.
  specialize (H' ltac:(set_solver) ltac:(by intros; rewrite lookup_empty; intros ? ?%not_elem_of_nil) k).
  simpl in H, H'. split; [|done].
  destruct (adb_records (merge_all l env t d).2 !! k) as [r|], (adb_records (merge_all l' env' t' d').2 !! k) as [r'|];
    simpl in *; [f_equal| | |done].
  - destruct H as [(x & Hx & Hvx & Hkx & Ex) Hmax], H' as [(y & Hy & Hvy & Hky & Ey) Hmax'].
    apply Hl in Hy. rewrite Ex, Ey. apply Hone; try done; [by rewrite Hkx|].
    assert (rr_Revision r = rp_revision x) by (by apply (f_equal rr_Revision) in Ex).
    assert (rr_Revision r' = rp_revision y) by (by apply (f_equal rr_Revision) in Ey).
    apply Hl in Hx. specialize (Hmax y Hy Hvy Hky). specialize (Hmax' x Hx Hvx Hkx). lia.
  - destruct H as [(x & Hx & Hvx & Hkx & _) _]. apply Hl in Hx. by destruct (H' x Hx Hvx).
  - destruct H' as [(x & Hx & Hvx & Hkx & _) _]. apply Hl in Hx. by destruct (H x Hx Hvx).
Qed.

(** ** Collection of blobs *)

Lemma gc_delete_keeps hashes n env t d h :
  h ∉ hashes -> adb_replicated_blobs (gc_delete hashes n env t d).2 !! h = adb_replicated_blobs d !! h.
Proof.
  revert n t d. induction hashes as [|h' hashes IH]; intros n t d Hh; simpl; [done|].
  unfold sql_bind, sql_wrap, sql_update. destruct (sql_fails env t); simpl; [done|].
  rewrite IH by set_solver. simpl. apply lookup_delete_ne. set_solver.
Qed.

(** Collecting blobs deletes neither a blob that some record references
    nor one used after the cutoff, whatever fails. *)
Theorem gc_keeps_referenced_blobs cutoff limit env t d h b :
  adb_replicated_blobs d !! h = Some b ->
  referenced h d = true \/ cutoff <= bl_last_used_at b ->
  adb_replicated_blobs (GCUnreferencedReplicatedBlobs cutoff limit env t d).2 !! h = Some b.
Proof.
  intros Hb Hkeep. unfold GCUnreferencedReplicatedBlobs, sql_bind, sql_wrap, sql_query.
  destruct (sql_fails env t); simpl; [done|]. rewrite gc_delete_keeps; [done|].
  intros Hin. apply elem_of_take in Hin as (i & Hi & _). apply list_elem_of_lookup_2 in Hi.
  apply list_elem_of_fmap in Hi as ([h' b'] & -> & Hs). rewrite stable_sort_elem in Hs.
  apply list_elem_of_In, filter_In in Hs as [Hm Hf].
  apply list_elem_of_In, elem_of_map_to_list in Hm. simpl in *. breflect. destruct Hf as [Hc Hr].
  rewrite Hm in Hb. injection Hb as ->. destruct Hkeep; [congruence|lia].
Qed.

(** ** Instances *)

(** Revisions of one record, named by its group and member. *)
Definition sample_put (rev : Z) (body : string) : ReplicatedPut :=
  mkPut NamespaceGroupRoleV1 "g|bob" "alice" rev 1 body (ReplicatedBodyHash body) [Byte.x01] "aa" 0 [("ab", true)].
Definition sample_key : string * string := (NamespaceGroupRoleV1, "g|bob").

Lemma body_hash_nonempty body : ReplicatedBodyHash body <> "".
Proof.
  intros E. pose proof (Sha256.length_sha256 (str_bytes body)) as Hl. unfold ReplicatedBodyHash in E.
  change (sha256_sum (str_bytes body)) with (Sha256.sha256 (str_bytes body)) in E. by destruct (Sha256.sha256 (str_bytes body)).
Qed.

Lemma sample_valid rev body : 0 < rev -> valid_put (sample_put rev body).
Proof.
  intros Hr. unfold valid_put, put_invalid, sample_put, put_key.
  cbn [rp_namespace rp_recordKey rp_ownerPeerID rp_revision rp_bodyHash rp_bodyJSON fst snd].
  assert (E : ToLower (TrimSpace (ReplicatedBodyHash body)) = ReplicatedBodyHash body).
  { unfold ReplicatedBodyHash. by rewrite TrimSpace_hex, ToLower_hex. }
  rewrite E, str_eqb_refl. pose proof (body_hash_nonempty body) as Hne. apply str_eqb_false in Hne as ->.
  destruct (Z.leb_spec rev 0); [lia|]. by vm_compute.
Qed.

Lemma merge_moves_forward_witness :
  let d := (TryMergeReplicatedRecord (sample_put 2 "b") HealStore.demo_env O adb_empty).2 in
  records_ok (TryMergeReplicatedRecord (sample_put 1 "a") HealStore.demo_env O d).2.
Proof.
  assert (H : forall d, records_ok d -> forall rev body,
    records_ok (TryMergeReplicatedRecord (sample_put rev body) HealStore.demo_env O d).2).
  { intros d Hd rev body. by apply (merge_moves_forward (sample_put rev body) HealStore.demo_env O d). }
  apply H, H, map_Forall_empty.
Defined.

(** Two nodes get two revisions in different orders; both end with the later. *)
Lemma replicas_converge_witness :
  let run l := adb_records (merge_all l HealStore.demo_env O adb_empty).2 in
  let l := [sample_put 1 "a"; sample_put 2 "b"] in
  let l' := [sample_put 2 "b"; sample_put 1 "a"; sample_put 2 "b"] in
  content <$> run l !! sample_key = content <$> run l' !! sample_key /\
  exists r, run l !! sample_key = Some r /\ 2 <= rr_Revision r.
Proof.
  intros run l l'.
  assert (Hv : forall rev body, 0 < rev -> valid_put (sample_put rev body)) by apply sample_valid.
  assert (Hrel : reliable HealStore.demo_env) by (intros n; reflexivity).
  assert (Hl : forall x, x ∈ l -> x = sample_put 1 "a" \/ x = sample_put 2 "b").
  { intros x. subst l. rewrite !elem_of_cons, elem_of_nil. tauto. }
  pose proof (replicas_converge HealStore.demo_env HealStore.demo_env O O l l' adb_empty adb_empty Hrel Hrel
    eq_refl eq_refl) as H.
  destruct H with (k := sample_key) as [Hc Hn].
  - intros x. subst l l'. rewrite !elem_of_cons, elem_of_nil. tauto.
  - intros x [->| ->]%Hl; discriminate.
  - intros x y [->| ->]%Hl [->| ->]%Hl _ _ _ E; [reflexivity|discriminate E|discriminate E|reflexivity].
  - split; [exact Hc|]. fold (run l) in Hn. destruct (run l !! sample_key) as [r|].
    + exists r. split; [done|]. apply (proj2 Hn (sample_put 2 "b")); [subst l; rewrite !elem_of_cons; tauto|by apply Hv|by vm_compute].
    + exfalso. apply (Hn (sample_put 2 "b")); [subst l; rewrite !elem_of_cons; tauto|by apply Hv|by vm_compute].
Defined.

Definition sample_blobs : AppDB :=
  set_adb_record_blobs {[sample_key := {["ab" := true]}]}
    (set_adb_replicated_blobs {["ab" := mkBlobRow "image/png" [Byte.x01] 1 1; "cd" := mkBlobRow "image/png" [Byte.x02] 1 1]}
       adb_empty).

Lemma gc_keeps_referenced_blobs_witness :
  let d := (GCUnreferencedReplicatedBlobs 10 0 HealStore.demo_env O sample_blobs).2 in
  adb_replicated_blobs d !! "ab" = Some (mkBlobRow "image/png" [Byte.x01] 1 1) /\ adb_replicated_blobs d !! "cd" = None.
Proof.
  intros d. split; [|by vm_compute].
  apply (gc_keeps_referenced_blobs 10 0 HealStore.demo_env O sample_blobs); [by vm_compute|left; by vm_compute].
Defined.

End Replicated.
