(* ===== verification/AddOperations.v ===== *)
(** * Add operations

    [adapter/store/group_add_operations.go]: the life cycle of adding one peer
    to one group, from the approval to the delivered Welcome.  A row only
    moves forward in the order of the statuses; [welcome_delivered] and
    [failed] are terminal. *)
From S2P Require Import Prelude GoStrings Sha256 Types SingleWriter Database Store HealStore AppDatabase.

Module AddOperations.

Definition AddOpStatusApproved := "approved".
Definition AddOpStatusProposalBroadcast := "proposal_broadcast".
Definition AddOpStatusCommitObserved := "commit_observed".
Definition AddOpStatusWelcomeQueued := "welcome_queued".
Definition AddOpStatusWelcomeDelivered := "welcome_delivered".
Definition AddOpStatusFailed := "failed".

(** [addOpStatusOrder] *)
Definition addOpStatusOrder : list (string * Z) :=
  [(AddOpStatusApproved, 1); (AddOpStatusProposalBroadcast, 2); (AddOpStatusCommitObserved, 3);
   (AddOpStatusWelcomeQueued, 4); (AddOpStatusWelcomeDelivered, 5); (AddOpStatusFailed, 99)].

(** [addOpStatusOrder[s]] with its second result *)
Definition status_rank (s : string) : option Z :=
  snd <$> List.find (fun kr => str_eqb kr.1 s) addOpStatusOrder.
(** [addOpStatusOrder[s]]: 0 for a missing key *)
Definition rank_of (s : string) : Z := default 0 (status_rank s).

Definition ErrAddOperationTerminal : GoError := ErrSentinel "group_add_operations: terminal status".

(** A row of the partial unique index [idx_group_add_operations_active_unique] *)
Definition add_live (s : string) : bool :=
  negb (str_eqb s AddOpStatusFailed) && negb (str_eqb s AddOpStatusWelcomeDelivered).
Definition same_add (g p kp : string) (r : GroupAddOperationRecord) : bool :=
  str_eqb (ao_GroupID r) g && str_eqb (ao_TargetPeerID r) p && str_eqb (ao_KeyPackageHash r) kp.

(** [INSERT OR IGNORE]: refused by the primary key or by the live index. *)
Definition add_ignored (r : GroupAddOperationRecord) (d : AppDB) : bool :=
  bool_decide (is_Some (adb_add_ops d !! ao_OperationID r)) ||
  add_live (ao_Status r) &&
  existsb (fun kr : string * GroupAddOperationRecord => add_live (ao_Status kr.2) &&
     same_add (ao_GroupID r) (ao_TargetPeerID r) (ao_KeyPackageHash r) kr.2) (map_to_list (adb_add_ops d)).

(** [GetGroupAddOperation] *)
Definition GetGroupAddOperation (operationID : string) : ASQL GroupAddOperationRecord :=
  let id := TrimSpace operationID in
  if str_eqb id "" then sql_throw sql_ErrNoRows
  else sql_row (fun d => adb_add_ops d !! id).

(** [CreateGroupAddOperation] *)
Definition CreateGroupAddOperation (rec : GroupAddOperationRecord) : ASQL GroupAddOperationRecord :=
  let id := TrimSpace (ao_OperationID rec) in
  let g := TrimSpace (ao_GroupID rec) in
  let p := TrimSpace (ao_TargetPeerID rec) in
  let kp := TrimSpace (ao_KeyPackageHash rec) in
  if str_eqb id "" || str_eqb g "" || str_eqb p "" || str_eqb kp "" then
    sql_throw (ErrText "CreateGroupAddOperation: required fields missing")
  else
    let status := Store.or_else (TrimSpace (ao_Status rec)) AddOpStatusApproved in
    match status_rank status with
    | None => sql_throw (ErrText "CreateGroupAddOperation: invalid status")
    | Some _ =>
        now <-! unix_now ;
        let row := mkAddOperation id (ao_RequestID rec) g p (ao_RequesterPeerID rec) (ao_ApproverPeerID rec) kp
          None None [] "" status "" "" (if ao_CreatedAt rec <=? 0 then now else ao_CreatedAt rec) now
          (ao_LastAttemptAt rec) in
        sql_wrap "CreateGroupAddOperation" (sql_exec (fun d =>
          if add_ignored row d then d else set_adb_add_ops (<[id := row]> (adb_add_ops d)) d)) ;;!
        GetGroupAddOperation id
    end.

(** [addOpUpdate]: the optional columns of a transition *)
Record addOpUpdate := mkUpdate {
  up_proposalEpoch : option (option Z);
  up_commitEpoch : option (option Z);
  up_commitHash : option bytes;
  up_welcomeHash : option string;
  up_failureCode : option string;
  up_failureMessage : option string;
  up_bumpLastAttempt : bool;
}.
Definition no_update : addOpUpdate := mkUpdate None None None None None None false.

(** The [SET] clause *)
Definition apply_update (status : string) (now attempt : Z) (u : addOpUpdate) (r : GroupAddOperationRecord)
  : GroupAddOperationRecord :=
  mkAddOperation (ao_OperationID r) (ao_RequestID r) (ao_GroupID r) (ao_TargetPeerID r) (ao_RequesterPeerID r)
    (ao_ApproverPeerID r) (ao_KeyPackageHash r)
    (default (ao_ProposalEpoch r) (up_proposalEpoch u)) (default (ao_CommitEpoch r) (up_commitEpoch u))
    (default (ao_CommitHash r) (up_commitHash u)) (default (ao_WelcomeHash r) (up_welcomeHash u)) status
    (default (ao_FailureCode r) (up_failureCode u)) (default (ao_FailureMessage r) (up_failureMessage u))
    (ao_CreatedAt r) now (if up_bumpLastAttempt u then attempt else ao_LastAttemptAt r).

(** The statuses a transition may start from. *)
Definition allowedPrior (newStatus : string) (newRank : Z) : list string :=
  let below n := fst <$> List.filter (fun kr : string * Z => kr.2 <? n) addOpStatusOrder in
  if str_eqb newStatus AddOpStatusFailed then below (rank_of AddOpStatusWelcomeDelivered) else below newRank.

(** [transitionAddOperation] *)
Definition transitionAddOperation (operationID newStatus : string) (u : addOpUpdate) : ASQL unit :=
  let id := TrimSpace operationID in
  let status := TrimSpace newStatus in
  match status_rank status with
  | None => sql_throw (ErrText "transitionAddOperation: invalid args")
  | Some newRank =>
      if str_eqb id "" then sql_throw (ErrText "transitionAddOperation: invalid args")
      else
        now <-! unix_now ;
        attempt <-! (if up_bumpLastAttempt u then unix_now else sql_ret 0) ;
        n <-! sql_wrap "transitionAddOperation" (sql_update (fun d =>
          match adb_add_ops d !! id with
          | Some r =>
              if bool_decide (ao_Status r ∈ allowedPrior status newRank)
              then (set_adb_add_ops (<[id := apply_update status now attempt u r]> (adb_add_ops d)) d, 1)
              else (d, 0)
          | None => (d, 0)
          end)) ;
        if n =? 0 then
          existing <-! sql_try (GetGroupAddOperation id) ;
          match existing with
          | inr _ => sql_throw ErrAddOperationTerminal
          | inl r =>
              if rank_of (ao_Status r) >=? newRank then sql_throw ErrAddOperationTerminal
              else sql_throw (ErrText "transitionAddOperation: no row updated")
          end
        else sql_ret tt
  end.

(** [MarkAddProposalBroadcast] *)
Definition MarkAddProposalBroadcast (operationID : string) (proposalEpoch : Z) : ASQL unit :=
  transitionAddOperation operationID AddOpStatusProposalBroadcast
    (mkUpdate (Some (Some (i64 proposalEpoch))) None None None None None true).

(** [MarkAddCommitObserved] *)
Definition MarkAddCommitObserved (operationID : string) (commitEpoch : Z) (commitHash : bytes) : ASQL unit :=
  transitionAddOperation operationID AddOpStatusCommitObserved
    (mkUpdate None (Some (Some (i64 commitEpoch))) (if is_empty commitHash then None else Some commitHash)
       None None None false).

(** [MarkAddWelcomeQueued] *)
Definition MarkAddWelcomeQueued (operationID welcomeHash : string) : ASQL unit :=
  transitionAddOperation operationID AddOpStatusWelcomeQueued
    (mkUpdate None None None (Some welcomeHash) None None true).

(** [MarkAddWelcomeDelivered] *)
Definition MarkAddWelcomeDelivered (operationID : string) : ASQL unit :=
  transitionAddOperation operationID AddOpStatusWelcomeDelivered no_update.

(** [MarkAddOperationFailed] *)
Definition MarkAddOperationFailed (operationID failureCode failureMessage : string) : ASQL unit :=
  transitionAddOperation operationID AddOpStatusFailed
    (mkUpdate None None None None (Some failureCode) (Some failureMessage) true).

(** ** Queries *)

Definition select_ops (f : GroupAddOperationRecord -> bool) (d : AppDB) : list GroupAddOperationRecord :=
  List.filter f (snd <$> map_to_list (adb_add_ops d)).

(** [FindActiveGroupAddOperation] *)
Definition FindActiveGroupAddOperation (groupID targetPeerID keyPackageHash : string) : ASQL GroupAddOperationRecord :=
  sql_row (fun d => head (stable_sort
    (fun a b => (ao_CreatedAt b <? ao_CreatedAt a) ||
                (ao_CreatedAt a =? ao_CreatedAt b) && str_ltb (ao_OperationID b) (ao_OperationID a))
    (select_ops (fun r => add_live (ao_Status r) &&
       same_add (TrimSpace groupID) (TrimSpace targetPeerID) (TrimSpace keyPackageHash) r) d))).

(** [ListGroupAddOperationsForTarget]: ties in the order of the table *)
Definition ListGroupAddOperationsForTarget (groupID targetPeerID : string) : ASQL (list GroupAddOperationRecord) :=
  sql_wrap "ListGroupAddOperationsForTarget" (sql_query (fun d =>
    stable_sort (fun a b => ao_CreatedAt b <? ao_CreatedAt a)
      (select_ops (fun r => add_live (ao_Status r) && str_eqb (ao_GroupID r) (TrimSpace groupID) &&
         str_eqb (ao_TargetPeerID r) (TrimSpace targetPeerID)) d))).

(** [ListRecoverableAddOperations] *)
Definition ListRecoverableAddOperations (stallSeconds : Z) : ASQL (list GroupAddOperationRecord) :=
  now <-! unix_now ;
  let cutoff := i64 (now - Z.max 0 stallSeconds) in
  sql_wrap "ListRecoverableAddOperations" (sql_query (fun d =>
    stable_sort (fun a b => ao_UpdatedAt a <? ao_UpdatedAt b)
      (select_ops (fun r => bool_decide (ao_Status r ∈
           [AddOpStatusProposalBroadcast; AddOpStatusCommitObserved; AddOpStatusWelcomeQueued]) &&
         (ao_UpdatedAt r <=? cutoff)) d))).

(** [ComputeAddOperationID] of [service/invite.go] *)
Definition ComputeAddOperationID (groupID targetPeerID kpHash : string) : string :=
  "ga_" +:+ String.substring 0 32 (hex_EncodeToString (sha256_sum
    (str_bytes (TrimSpace groupID) ++ [Byte.x00] ++ str_bytes (TrimSpace targetPeerID) ++ [Byte.x00] ++
     str_bytes (TrimSpace kpHash)))).

(** ** Operations over time *)

(** The writes of the table. *)
Inductive AddOp :=
| OpCreate (rec : GroupAddOperationRecord)
| OpProposalBroadcast (id : string) (epoch : Z)
| OpCommitObserved (id : string) (epoch : Z) (commitHash : bytes)
| OpWelcomeQueued (id welcomeHash : string)
| OpWelcomeDelivered (id : string)
| OpFailed (id code message : string).

Definition add_op (op : AddOp) : ASQL unit :=
  match op with
  | OpCreate rec => sql_ignore (CreateGroupAddOperation rec)
  | OpProposalBroadcast id e => MarkAddProposalBroadcast id e
  | OpCommitObserved id e h => MarkAddCommitObserved id e h
  | OpWelcomeQueued id h => MarkAddWelcomeQueued id h
  | OpWelcomeDelivered id => MarkAddWelcomeDelivered id
  | OpFailed id c m => MarkAddOperationFailed id c m
  end.

Fixpoint add_run (ops : list AddOp) : ASQL unit :=
  match ops with
  | [] => sql_ret tt
  | op :: ops => sql_ignore (add_op op) ;;! add_run ops
  end.

(** A row stays as it is, or leaves a live status for one of higher rank. *)
Definition advances (r r' : GroupAddOperationRecord) : Prop :=
  r' = r \/
  add_live (ao_Status r) = true /\ rank_of (ao_Status r) < rank_of (ao_Status r') /\
  ao_OperationID r' = ao_OperationID r /\ ao_GroupID r' = ao_GroupID r /\
  ao_TargetPeerID r' = ao_TargetPeerID r /\ ao_KeyPackageHash r' = ao_KeyPackageHash r.
Definition ops_advance (d d' : AppDB) : Prop :=
  forall id r, adb_add_ops d !! id = Some r -> exists r', adb_add_ops d' !! id = Some r' /\ advances r r'.

#[export] Instance ops_advance_preorder : PreOrder ops_advance.
Proof.
  split; [intros d id r E; exists r; split; [done|by left]|].
  intros d1 d2 d3 H12 H23 id r E. destruct (H12 id r E) as (r2 & E2 & A2).
  destruct (H23 id r2 E2) as (r3 & E3 & A3). exists r3. split; [done|].
  destruct A2 as [->|A2], A3 as [->|A3]; try (by left); [by right|by right|right].
  destruct A2 as (? & ? & ? & ? & ? & ?), A3 as (? & ? & ? & ? & ? & ?). split_and!; [done|lia|congruence..].
Qed.

Lemma rank_some s n : status_rank s = Some n -> rank_of s = n.
Proof. unfold rank_of. by intros ->. Qed.

(** A status that a transition may start from is live and of lower rank. *)
Lemma allowedPrior_live s' n s :
  status_rank s' = Some n -> s ∈ allowedPrior s' n -> add_live s = true /\ rank_of s < n.
Proof.
  intros Hn Hs. apply rank_some in Hn as <-. unfold allowedPrior in Hs.
  assert (H : forall m, m <= 5 \/ s' = AddOpStatusFailed /\ m = 5 ->
    s ∈ (fst <$> List.filter (fun kr : string * Z => kr.2 <? m) addOpStatusOrder) ->
    add_live s = true /\ rank_of s < m).
  { intros m Hm Hin. apply list_elem_of_fmap in Hin as ([s0 k] & -> & Hin). simpl.
    apply list_elem_of_In, filter_In in Hin as [Hin Hk]. simpl in Hk. apply Z.ltb_lt in Hk.
    unfold addOpStatusOrder in Hin. simpl in Hin.
    repeat destruct Hin as [Hin|Hin]; try done; injection Hin as <- <-; first [lia|split; [done|exact Hk]]. }
  destruct (str_eqb_spec s' AddOpStatusFailed) as [->|Hne].
  - apply H in Hs as [Hl Hr]; [|by right]. split; [done|]. change (rank_of AddOpStatusFailed) with 99.
    change (rank_of AddOpStatusWelcomeDelivered) with 5 in Hr. lia.
  - apply H; [|done]. left. unfold rank_of, status_rank, addOpStatusOrder. simpl.
    repeat (case_match; simpl; try lia). breflect. congruence.
Qed.

(** ** Canonical tables *)

(** The rows the services write: under the computed id of trimmed ids, with a
    status of the list. *)
Record op_ok (id : string) (r : GroupAddOperationRecord) : Prop := {
  oo_id : ao_OperationID r = id;
  oo_computed : id = ComputeAddOperationID (ao_GroupID r) (ao_TargetPeerID r) (ao_KeyPackageHash r);
  oo_status : is_Some (status_rank (ao_Status r));
}.
Definition ops_ok (d : AppDB) : Prop := map_Forall op_ok (adb_add_ops d).

(** An operation named by its computed id. *)
Definition computed_id (rec : GroupAddOperationRecord) : Prop :=
  TrimSpace (ao_OperationID rec) =
  ComputeAddOperationID (ao_GroupID rec) (ao_TargetPeerID rec) (ao_KeyPackageHash rec).
Definition computed (op : AddOp) : Prop := match op with OpCreate rec => computed_id rec | _ => True end.

Lemma compute_trim g p kp :
  ComputeAddOperationID (TrimSpace g) (TrimSpace p) (TrimSpace kp) = ComputeAddOperationID g p kp.
Proof. unfold ComputeAddOperationID. by rewrite !TrimSpace_idemp. Qed.

Definition ops_step (d d' : AppDB) : Prop := ops_advance d d' /\ (ops_ok d -> ops_ok d').
#[export] Instance ops_step_preorder : PreOrder ops_step.
Proof.
  split; [intros d; split; [reflexivity|done]|].
  intros d1 d2 d3 [A1 K1] [A2 K2]. split; [by etrans|tauto].
Qed.

Lemma GetGroupAddOperation_readonly id : readonly (GetGroupAddOperation id).
Proof. unfold GetGroupAddOperation. case_match; eauto with coord. Qed.

Lemma transition_step id s u : respects ops_step (transitionAddOperation id s u).
Proof.
  unfold transitionAddOperation. destruct (status_rank _) as [n|] eqn:Hn; repeat asql_step;
    try (apply respects_readonly; [apply _|apply GetGroupAddOperation_readonly]); try reflexivity.
  all: destruct (adb_add_ops d !! TrimSpace id) as [r|] eqn:E; simpl; [|reflexivity].
  all: destruct (bool_decide_reflect (ao_Status r ∈ allowedPrior (TrimSpace s) n)) as [Hp|]; simpl; [|reflexivity].
  all: apply (allowedPrior_live _ _ _ Hn) in Hp as [Hl Hr]; split.
  all: try (intros Hd; apply map_Forall_insert_2; [|done]; destruct (Hd _ _ E); by split).
  all: intros id' r' E'; simpl; destruct (decide (TrimSpace id = id')) as [<-|Hne];
    [rewrite lookup_insert_eq|rewrite lookup_insert_ne by done; exists r'; split; [done|by left]].
  all: rewrite E in E'; injection E' as <-; eexists; split; [done|right]; simpl.
  all: rewrite (rank_some _ _ Hn); split_and!; done.
Qed.

Lemma create_exec_step row :
  forall d, ops_advance d
    (if add_ignored row d then d else set_adb_add_ops (<[ao_OperationID row := row]> (adb_add_ops d)) d).
Proof.
  intros d. destruct (add_ignored row d) eqn:E; [reflexivity|]. unfold add_ignored in E. breflect.
  destruct E as [Hn _]. intros id r Er. simpl. exists r. split; [|by left].
  rewrite lookup_insert_ne; [done|]. intros <-. apply Hn. by eexists.
Qed.

Lemma create_advance rec : respects ops_advance (CreateGroupAddOperation rec).
Proof.
  unfold CreateGroupAddOperation. repeat asql_step.
  2: apply respects_readonly; [apply _|apply GetGroupAddOperation_readonly].
  apply (create_exec_step (mkAddOperation (TrimSpace (ao_OperationID rec)) _ _ _ _ _ _ _ _ _ _ _ _ _ _ _ _) d).
Qed.

Lemma create_ok rec : computed_id rec ->
  respects (keeps ops_ok) (CreateGroupAddOperation rec).
Proof.
  intros Hid. unfold CreateGroupAddOperation. destruct (status_rank _) as [n|] eqn:Hs; repeat asql_step.
  2: apply respects_readonly; [apply _|apply GetGroupAddOperation_readonly].
  intros Hd. case_match; [done|]. apply map_Forall_insert_2; [|done].
  split; simpl; [done| |by eexists]. rewrite compute_trim. exact Hid.
Qed.

Lemma add_run_advance ops : respects ops_advance (add_run ops).
Proof.
  assert (Ht : forall id s u, respects ops_advance (transitionAddOperation id s u)).
  { intros. eapply respects_weaken; [|apply transition_step]. by intros ? ? []. }
  induction ops as [|op ops IH]; simpl; repeat asql_step; [|apply IH].
  destruct op; simpl; try apply Ht. apply respects_ignore, create_advance.
Qed.

Lemma add_run_ok ops : Forall computed ops -> respects (keeps ops_ok) (add_run ops).
Proof.
  assert (Ht : forall id s u, respects (keeps ops_ok) (transitionAddOperation id s u)).
  { intros. eapply respects_weaken; [|apply transition_step]. by intros ? ? []. }
  induction 1 as [|op ops Hop _ IH]; simpl; repeat asql_step; [|apply IH].
  destruct op; simpl; try apply Ht. by apply respects_ignore, create_ok.
Qed.

(** The life cycle of an add operation.  Over any sequence of creations
    and marks, with any failures: no row disappears or changes the peer, group
    or key package it is for; a row changes only from a live status to one of
    strictly higher rank, so a delivered or failed operation is never touched
    again; and if operations are named by their computed id, two rows are
    never for the same group, peer and key package. *)
Theorem add_operations_advance ops env t d d' :
  d' = (add_run ops env t d).2 ->
  (forall id r, adb_add_ops d !! id = Some r ->
     exists r', adb_add_ops d' !! id = Some r' /\ advances r r' /\ (add_live (ao_Status r) = false -> r' = r)) /\
  (ops_ok d -> Forall computed ops -> ops_ok d' /\
     forall id1 id2 r1 r2, adb_add_ops d' !! id1 = Some r1 -> adb_add_ops d' !! id2 = Some r2 ->
       same_add (ao_GroupID r1) (ao_TargetPeerID r1) (ao_KeyPackageHash r1) r2 = true -> id1 = id2).
Proof.
  intros ->. split.
  - intros id r E. destruct (add_run_advance ops env t d id r E) as (r' & E' & A). exists r'.
    split_and!; [done|done|]. intros Hl. destruct A as [->|[A _]]; [done|congruence].
  - intros Hd Hops. pose proof (add_run_ok ops Hops env t d Hd) as Hd'. split; [done|].
    intros id1 id2 r1 r2 E1 E2 Hs. unfold same_add in Hs. breflect. destruct Hs as [[Hg Hp] Hk].
    destruct (Hd' _ _ E1) as [_ -> _], (Hd' _ _ E2) as [_ -> _]. by rewrite Hg, Hp, Hk.
Qed.

(** ** Creation is idempotent *)

Definition creatable (rec : GroupAddOperationRecord) : Prop :=
  computed_id rec /\ TrimSpace (ao_GroupID rec) <> "" /\ TrimSpace (ao_TargetPeerID rec) <> "" /\
  TrimSpace (ao_KeyPackageHash rec) <> "" /\
  is_Some (status_rank (Store.or_else (TrimSpace (ao_Status rec)) AddOpStatusApproved)).

Lemma computed_nonempty g p kp : ComputeAddOperationID g p kp <> "".
Proof. done. Qed.

(** In a canonical table the live index never refuses a new id. *)
Lemma canonical_not_ignored row d :
  ops_ok d -> op_ok (ao_OperationID row) row -> adb_add_ops d !! ao_OperationID row = None ->
  add_ignored row d = false.
Proof.
  intros Hd [_ Hid _] Hn. unfold add_ignored. rewrite Hn, bool_decide_false by (by intros [? ?]).
  simpl. destruct (existsb _ _) eqn:E; [|by rewrite andb_false_r]. exfalso.
  apply existsb_exists in E as ([id r] & Hin & Hc). apply list_elem_of_In, elem_of_map_to_list in Hin.
  simpl in Hc. unfold same_add in Hc. breflect. destruct Hc as [_ [[Hg Hp] Hk]].
  destruct (Hd _ _ Hin) as [_ Hid' _]. rewrite Hg, Hp, Hk, <-Hid in Hid'. congruence.
Qed.

Lemma create_reliable rec env t d :
  (forall n, sql_fails env n = None) -> ops_ok d -> creatable rec ->
  exists row t' d', CreateGroupAddOperation rec env t d = (inl row, t', d') /\
    adb_add_ops d' !! TrimSpace (ao_OperationID rec) = Some row /\
    (forall r, adb_add_ops d !! TrimSpace (ao_OperationID rec) = Some r -> row = r /\ d' = d).
Proof.
  intros Hrel Hd (Hid & Hg & Hp & Hk & [n Hs]). unfold CreateGroupAddOperation.
  assert (Hne : TrimSpace (ao_OperationID rec) <> "") by (rewrite Hid; apply computed_nonempty).
  apply str_eqb_false in Hg as ->, Hp as ->, Hk as ->. apply str_eqb_false in Hne as Hne'.
  rewrite Hne', Hs. cbn [orb]. unfold unix_now, GetGroupAddOperation, sql_row, sql_wrap, sql_bind, sql_time, sql_ret,
    sql_exec, sql_query. rewrite TrimSpace_idemp, Hne'. rewrite !Hrel.
  set (row := mkAddOperation _ _ _ _ _ _ _ _ _ _ _ _ _ _ _ _ _).
  assert (Hrow : op_ok (ao_OperationID row) row).
  { split; simpl; [done| |by eexists]. rewrite compute_trim. exact Hid. }
  destruct (adb_add_ops d !! TrimSpace (ao_OperationID rec)) as [r|] eqn:E.
  - assert (Hig : add_ignored row d = true).
    { unfold add_ignored. change (ao_OperationID row) with (TrimSpace (ao_OperationID rec)).
      rewrite E, bool_decide_true by (by eexists). done. }
    rewrite Hig, E. do 3 eexists. split; [done|]. split; [done|]. by intros ? [= ->].
  - rewrite (canonical_not_ignored row d Hd Hrow E). simpl. rewrite lookup_insert_eq.
    do 3 eexists. split; [done|]. split; [apply lookup_insert_eq|done].
Qed.

(** Approving the same addition twice shares one operation.  When nothing
    fails and operations are named by their computed id, creating an operation
    returns a row of that id; creating it again, from whatever caller and
    after the row has moved on or not, returns that row unchanged and writes
    nothing.  In particular a failed operation is not restarted. *)
Theorem approvals_share_an_operation rec rec' env env' t t' d :
  (forall n, sql_fails env n = None) -> (forall n, sql_fails env' n = None) ->
  ops_ok d -> creatable rec -> creatable rec' ->
  TrimSpace (ao_OperationID rec) = TrimSpace (ao_OperationID rec') ->
  exists row t1 t2 d1, CreateGroupAddOperation rec env t d = (inl row, t1, d1) /\
    CreateGroupAddOperation rec' env' t' d1 = (inl row, t2, d1) /\
    forall r, adb_add_ops d !! TrimSpace (ao_OperationID rec) = Some r -> row = r.
Proof.
  intros Hrel Hrel' Hd Hc Hc' Hid.
  destruct (create_reliable rec env t d Hrel Hd Hc) as (row & t1 & d1 & E1 & Hrow & Hold).
  assert (Hd1 : ops_ok d1).
  { pose proof (create_ok rec (proj1 Hc) env t d) as H. rewrite E1 in H. by apply H. }
  destruct (create_reliable rec' env' t' d1 Hrel' Hd1 Hc') as (row' & t2 & d2 & E2 & _ & Hold').
  rewrite <-Hid in Hold'. destruct (Hold' row Hrow) as [-> ->].
  exists row, t1, t2, d1. split_and!; [done|done|]. intros r Hr. by destruct (Hold r Hr).
Qed.

(** ** Instances *)

Definition sample_add (id approver : string) : GroupAddOperationRecord :=
  mkAddOperation id "r" "g" "bob" "req" approver "kp" None None [] "" "" "" "" 0 0 0.

(** The id is given to rows literally: no theorem needs its digits. *)
Lemma add_operations_advance_witness :
  let ops := [OpCreate (sample_add "op" "alice"); OpWelcomeQueued "op" "w"; OpProposalBroadcast "op" 7;
              OpFailed "op" "c" "m"; OpWelcomeDelivered "op"] in
  let d := (add_run ops HealStore.demo_env O adb_empty).2 in
  exists r r', adb_add_ops d !! "op" = Some r /\ ao_Status r = AddOpStatusFailed /\
    adb_add_ops (add_run [OpWelcomeDelivered "op"] HealStore.demo_env O d).2 !! "op" = Some r' /\ r' = r.
Proof.
  intros ops d.
  assert (Hf : (fun r => add_live (ao_Status r)) <$> adb_add_ops d !! "op" = Some false) by (by vm_compute).
  assert (Hs : ao_Status <$> adb_add_ops d !! "op" = Some AddOpStatusFailed) by (by vm_compute).
  destruct (add_operations_advance [OpWelcomeDelivered "op"] HealStore.demo_env O d _ eq_refl) as [H _].
  destruct (adb_add_ops d !! "op") as [r|] eqn:E; [|done]. injection Hf as Hf. injection Hs as Hs.
  destruct (H "op" r E) as (r' & E' & _ & Hsame). exists r, r'. split_and!; [done|done|exact E'|by apply Hsame].
Defined.

Lemma computed_id_plain g p kp : TrimSpace (ComputeAddOperationID g p kp) = ComputeAddOperationID g p kp.
Proof.
  apply TrimSpace_plain. unfold ComputeAddOperationID.
  pose proof (hex_plain (sha256_sum (str_bytes (TrimSpace g) ++ [Byte.x00] ++ str_bytes (TrimSpace p) ++ [Byte.x00] ++
    str_bytes (TrimSpace kp)))) as H. revert H. generalize (hex_EncodeToString (sha256_sum (str_bytes (TrimSpace g) ++
    [Byte.x00] ++ str_bytes (TrimSpace p) ++ [Byte.x00] ++ str_bytes (TrimSpace kp)))). intros s Hs.
  change (forallb plain_byte (str_bytes (String.substring 0 32 s)) = true).
  revert s Hs. generalize 32%nat. induction n as [|n IH]; intros [|c s] Hs; simpl in *; try done.
  apply andb_true_iff in Hs as [Hc Hs]. apply andb_true_iff. split; [done|by apply IH].
Qed.

Lemma sample_creatable a : creatable (sample_add (ComputeAddOperationID "g" "bob" "kp") a).
Proof.
  split; [exact (computed_id_plain "g" "bob" "kp")|]. unfold sample_add. cbn [ao_GroupID ao_TargetPeerID
    ao_KeyPackageHash ao_Status]. split_and!; [by vm_compute..|by exists 1].
Qed.

Lemma approvals_share_an_operation_witness :
  let id := ComputeAddOperationID "g" "bob" "kp" in
  exists row t1 t2 d1,
    CreateGroupAddOperation (sample_add id "alice") HealStore.demo_env O adb_empty = (inl row, t1, d1) /\
    CreateGroupAddOperation (sample_add id "carol") HealStore.demo_env 5%nat d1 = (inl row, t2, d1).
Proof.
  intros id.
  assert (Hrel : forall n, sql_fails HealStore.demo_env n = None) by (intros n; reflexivity).
  destruct (approvals_share_an_operation (sample_add id "alice") (sample_add id "carol") HealStore.demo_env
    HealStore.demo_env O 5%nat adb_empty Hrel Hrel (map_Forall_empty _) (sample_creatable _) (sample_creatable _) eq_refl)
    as (row & t1 & t2 & d1 & H1 & H2 & _).
  exists row, t1, t2, d1. exact (conj H1 H2).
Defined.

End AddOperations.
