(* ===== verification/InviteRequests.v ===== *)
(** * Invite requests

    [adapter/store/group_invite_requests.go]: a member asks an admin to add a
    peer.  The admin's row is authoritative and moves through a small state
    machine; the requester keeps a mirror of it.  A partial unique index allows
    one pending or processing row per group and target. *)
From Stdlib Require Import DecimalString DecimalZ.
From S2P Require Import Prelude GoStrings Sha256 Types SingleWriter Database Store HealStore AppDatabase.

Module InviteRequests.

Definition StatusPending := "pending".
Definition StatusProcessing := "processing".
Definition StatusApproved := "approved".
Definition StatusRejected := "rejected".
Definition StatusFailed := "failed".
Definition StatusCancelled := "cancelled".
Definition StatusExpired := "expired".
Definition StatusPermanentlyFailed := "permanently_failed".

Definition statuses : list string :=
  [StatusPending; StatusProcessing; StatusApproved; StatusRejected; StatusFailed; StatusCancelled;
   StatusExpired; StatusPermanentlyFailed].

(** [normalizeInviteRequestStatus] *)
Definition normalizeInviteRequestStatus (status : string) : string :=
  let s := TrimSpace (ToLower status) in if bool_decide (s ∈ statuses) then s else "".

(** ** The partial unique index *)

Definition iv_active (s : string) : bool := str_eqb s StatusPending || str_eqb s StatusProcessing.

(** Another active row has the group and target of [r]. *)
Definition active_conflict (r : GroupInviteRequestRecord) (kr : string * InviteRow) : bool :=
  let o := iv_rec kr.2 in
  negb (str_eqb kr.1 (ir_RequestID r)) && iv_active (ir_Status r) && iv_active (ir_Status o) &&
  str_eqb (ir_GroupID o) (ir_GroupID r) && str_eqb (ir_TargetPeerID o) (ir_TargetPeerID r).
Definition index_violated (r : GroupInviteRequestRecord) (d : AppDB) : bool :=
  existsb (active_conflict r) (map_to_list (adb_invites d)).

(** ** Writes *)

(** The row that the two inserts store. *)
Definition stored_request (now : Z) (mirror : bool) (rec : GroupInviteRequestRecord) : GroupInviteRequestRecord :=
  mkInviteRequest (ir_RequestID rec) (ir_GroupID rec) (ir_RequesterPeerID rec) (ir_TargetPeerID rec)
    (Store.or_else (normalizeInviteRequestStatus (ir_Status rec)) StatusPending)
    (TrimSpace (ir_FailureCode rec)) (TrimSpace (ir_FailureMessage rec)) (TrimSpace (ir_RejectionReason rec))
    (ir_AttemptCount rec) (if ir_MaxAttempts rec <=? 0 then 5 else ir_MaxAttempts rec)
    (ir_ProcessingStartedAt rec) (ir_ExpiresAt rec)
    (if ir_CreatedAt rec <=? 0 then now else ir_CreatedAt rec)
    (if ir_UpdatedAt rec <=? 0 then now else ir_UpdatedAt rec) mirror.

Definition missing_fields (rec : GroupInviteRequestRecord) : bool :=
  str_eqb (TrimSpace (ir_RequestID rec)) "" || str_eqb (TrimSpace (ir_GroupID rec)) "" ||
  str_eqb (TrimSpace (ir_RequesterPeerID rec)) "" || str_eqb (TrimSpace (ir_TargetPeerID rec)) "".

(** [CreateGroupInviteRequest] *)
Definition CreateGroupInviteRequest (rec : GroupInviteRequestRecord) : ASQL unit :=
  if missing_fields rec then sql_throw (ErrText "CreateGroupInviteRequest: required fields missing")
  else
    now <-! unix_now ;
    if ir_ExpiresAt rec <=? 0 then sql_throw (ErrText "CreateGroupInviteRequest: expires_at is required")
    else
      let row := stored_request now (ir_IsMirror rec) rec in
      sql_wrap "CreateGroupInviteRequest" (HealStore.sql_exec_unique "group_invite_requests"
        (fun d => bool_decide (is_Some (adb_invites d !! ir_RequestID row)) || index_violated row d)
        (fun d => set_adb_invites (<[ir_RequestID row := mkInviteRow row ""]> (adb_invites d)) d)).

(** [UpsertGroupInviteRequestMirror]: [INSERT OR REPLACE] deletes every row
    that stands in the way, by its id or in the active index. *)
Definition UpsertGroupInviteRequestMirror (rec : GroupInviteRequestRecord) : ASQL unit :=
  if missing_fields rec then sql_throw (ErrText "UpsertGroupInviteRequestMirror: required fields missing")
  else
    now <-! unix_now ;
    if ir_ExpiresAt rec <=? 0 then sql_throw (ErrText "UpsertGroupInviteRequestMirror: expires_at is required")
    else
      let row := stored_request now true rec in
      sql_wrap "UpsertGroupInviteRequestMirror" (sql_exec (fun d =>
        set_adb_invites (<[ir_RequestID row := mkInviteRow row ""]>
          (filter (fun kr : string * InviteRow => active_conflict row kr = false) (adb_invites d))) d)).

(** [GetGroupInviteRequest] *)
Definition GetGroupInviteRequest (requestID : string) : ASQL GroupInviteRequestRecord :=
  let id := TrimSpace requestID in
  if str_eqb id "" then sql_throw sql_ErrNoRows
  else sql_row (fun d => iv_rec <$> adb_invites d !! id).

(** [InviteRequestTransitionPatch] *)
Record InviteRequestTransitionPatch := mkPatch {
  pa_FailureCode : option string;
  pa_FailureMessage : option string;
  pa_RejectionReason : option string;
  pa_ProcessingStartedAt : option (option Z);
  pa_IncrementAttempt : bool;
  pa_ClearFailure : bool;
}.

(** The [SET] clause: a column assigned twice keeps the later value. *)
Definition apply_patch (toStatus : string) (now : Z) (p : InviteRequestTransitionPatch) (row : InviteRow) : InviteRow :=
  let r := iv_rec row in
  let text (v : option string) (old : string) :=
    match v with Some s => TrimSpace s | None => if pa_ClearFailure p then "" else old end in
  mkInviteRow (mkInviteRequest (ir_RequestID r) (ir_GroupID r) (ir_RequesterPeerID r) (ir_TargetPeerID r) toStatus
    (text (pa_FailureCode p) (ir_FailureCode r)) (text (pa_FailureMessage p) (ir_FailureMessage r))
    (text (pa_RejectionReason p) (ir_RejectionReason r))
    (if pa_IncrementAttempt p then ir_AttemptCount r + 1 else ir_AttemptCount r) (ir_MaxAttempts r)
    (default (ir_ProcessingStartedAt r) (pa_ProcessingStartedAt p)) (ir_ExpiresAt r) (ir_CreatedAt r) now
    (ir_IsMirror r)) (iv_add_operation_id row).

(** The rows that [WHERE request_id = ? AND is_mirror = 0 AND (status ...)] selects. *)
Definition movable (from : list string) (row : InviteRow) : bool :=
  negb (ir_IsMirror (iv_rec row)) && bool_decide (ir_Status (iv_rec row) ∈ from).

(** [TryTransitionInviteRequest]: an unknown first status leaves the text of
    the statement without its first operand. *)
Definition TryTransitionInviteRequest (requestID : string) (fromStatuses : list string) (toStatus : string)
  (patch : InviteRequestTransitionPatch) : ASQL bool :=
  let id := TrimSpace requestID in
  let to := normalizeInviteRequestStatus toStatus in
  if str_eqb id "" || str_eqb to "" || is_empty fromStatuses then
    sql_throw (ErrText "TryTransitionInviteRequest: invalid arguments")
  else
    let norms := normalizeInviteRequestStatus <$> fromStatuses in
    let holders := List.filter (fun s => negb (str_eqb s "")) norms in
    now <-! unix_now ;
    if is_empty holders then sql_throw (ErrText "TryTransitionInviteRequest: no valid from statuses")
    else if str_eqb (default "" (head norms)) "" then
      sql_throw (ErrWrap "TryTransitionInviteRequest" (ErrText "near OR: syntax error"))
    else
      n <-! sql_wrap "TryTransitionInviteRequest" (sql_update_unique "group_invite_requests"
        (fun d => match adb_invites d !! id with
                  | Some row => movable holders row && index_violated (iv_rec (apply_patch to now patch row)) d
                  | None => false
                  end)
        (fun d => match adb_invites d !! id with
                  | Some row =>
                      if movable holders row
                      then (set_adb_invites (<[id := apply_patch to now patch row]> (adb_invites d)) d, 1)
                      else (d, 0)
                  | None => (d, 0)
                  end)) ;
      sql_ret (n >? 0).

(** ** Sweeps *)

(** [UPDATE ... SET status = ?, ... WHERE is_mirror = 0 AND ...], over all rows *)
Definition sweep (cond : GroupInviteRequestRecord -> bool) (f : GroupInviteRequestRecord -> GroupInviteRequestRecord)
  (d : AppDB) : AppDB * Z :=
  let hit row := negb (ir_IsMirror (iv_rec row)) && cond (iv_rec row) in
  (set_adb_invites ((fun row => if hit row then mkInviteRow (f (iv_rec row)) (iv_add_operation_id row) else row)
     <$> adb_invites d) d,
   Z.of_nat (length (List.filter hit (snd <$> map_to_list (adb_invites d))))).

Definition set_status (status : string) (failure : option (string * string)) (now : Z) (r : GroupInviteRequestRecord)
  : GroupInviteRequestRecord :=
  mkInviteRequest (ir_RequestID r) (ir_GroupID r) (ir_RequesterPeerID r) (ir_TargetPeerID r) status
    (match failure with Some (c, _) => c | None => ir_FailureCode r end)
    (match failure with Some (_, m) => m | None => ir_FailureMessage r end)
    (ir_RejectionReason r) (ir_AttemptCount r) (ir_MaxAttempts r) (ir_ProcessingStartedAt r)
    (ir_ExpiresAt r) (ir_CreatedAt r) now (ir_IsMirror r).

(** [FailStaleProcessingInviteRequests]: SQLite subtracts integers and turns
    to floating point on overflow. *)
Definition FailStaleProcessingInviteRequests (now processingTimeoutSec : Z) (failureCode : string) : ASQL Z :=
  if (now <=? 0) || (processingTimeoutSec <=? 0) then sql_ret 0
  else
    let code := if str_eqb (TrimSpace failureCode) "" then "ERR_INVITE_PROCESSING_TIMEOUT" else failureCode in
    sql_wrap "FailStaleProcessingInviteRequests" (sql_update (sweep
      (fun r => str_eqb (ir_Status r) StatusProcessing &&
         match ir_ProcessingStartedAt r with Some s => now - s >? processingTimeoutSec | None => false end)
      (set_status StatusFailed (Some (code, "invite processing timed out")) now))).

(** [FailCorruptProcessingInviteRequests] *)
Definition FailCorruptProcessingInviteRequests (now : Z) : ASQL Z :=
  now <-! (if now <=? 0 then unix_now else sql_ret now) ;
  sql_wrap "FailCorruptProcessingInviteRequests" (sql_update (sweep
    (fun r => str_eqb (ir_Status r) StatusProcessing && bool_decide (ir_ProcessingStartedAt r = None))
    (set_status StatusFailed (Some ("ERR_INVITE_CORRUPT_PROCESSING_STATE",
       "processing request missing processing_started_at")) now))).

(** [ExpirePendingInviteRequests] *)
Definition ExpirePendingInviteRequests (now : Z) : ASQL Z :=
  now <-! (if now <=? 0 then unix_now else sql_ret now) ;
  sql_wrap "ExpirePendingInviteRequests" (sql_update (sweep
    (fun r => str_eqb (ir_Status r) StatusPending && (ir_ExpiresAt r <=? now))
    (set_status StatusExpired None now))).

(** [LinkInviteRequestToAddOperation] of [group_add_operations.go] *)
Definition LinkInviteRequestToAddOperation (requestID operationID : string) : ASQL unit :=
  let id := TrimSpace requestID in
  let op := TrimSpace operationID in
  if str_eqb id "" || str_eqb op "" then
    sql_throw (ErrText "LinkInviteRequestToAddOperation: required fields missing")
  else
    now <-! unix_now ;
    n <-! sql_wrap "LinkInviteRequestToAddOperation" (sql_update (fun d =>
      match adb_invites d !! id with
      | Some row =>
          if str_eqb (iv_add_operation_id row) "" || str_eqb (iv_add_operation_id row) op
          then (set_adb_invites (<[id := mkInviteRow (set_status (ir_Status (iv_rec row)) None now (iv_rec row)) op]>
                  (adb_invites d)) d, 1)
          else (d, 0)
      | None => (d, 0)
      end)) ;
    if n =? 0 then sql_throw (ErrText "LinkInviteRequestToAddOperation: missing or linked to another operation")
    else sql_ret tt.

(** [MarkWelcomeApplied] *)
Definition MarkWelcomeApplied (fingerprint groupID : string) (appliedAt : Z) : ASQL bool :=
  let f := TrimSpace fingerprint in
  let g := TrimSpace groupID in
  if str_eqb f "" || str_eqb g "" then
    sql_throw (ErrText "MarkWelcomeApplied: fingerprint and group ID are required")
  else
    at_ <-! (if appliedAt <=? 0 then unix_now else sql_ret appliedAt) ;
    n <-! sql_wrap "MarkWelcomeApplied" (sql_update (fun d =>
      match adb_applied_welcomes d !! f with
      | Some _ => (d, 0)
      | None => (set_adb_applied_welcomes (<[f := (g, at_)]> (adb_applied_welcomes d)) d, 1)
      end)) ;
    sql_ret (n >? 0).

(** [CleanupAppliedWelcomes] *)
Definition CleanupAppliedWelcomes (before : Z) : ASQL Z :=
  if before <=? 0 then sql_ret 0
  else sql_wrap "CleanupAppliedWelcomes" (sql_update (fun d =>
    let kept := filter (fun kv : string * (string * Z) => before <= kv.2.2) (adb_applied_welcomes d) in
    (set_adb_applied_welcomes kept d, Z.of_nat (size (adb_applied_welcomes d)) - Z.of_nat (size kept)))).

(** ** Lists *)

(** [ORDER BY updated_at DESC, request_id DESC] *)
Definition newer (a b : GroupInviteRequestRecord) : bool :=
  (ir_UpdatedAt b <? ir_UpdatedAt a) ||
  (ir_UpdatedAt a =? ir_UpdatedAt b) && str_ltb (ir_RequestID b) (ir_RequestID a).

(** [strconv.ParseInt(s, 10, 64)] *)
Definition ParseInt (s : string) : option Z :=
  let int := match s with
    | String "+" r => Decimal.Pos <$> NilZero.uint_of_string r
    | String "-" r => Decimal.Neg <$> NilZero.uint_of_string r
    | _ => Decimal.Pos <$> NilZero.uint_of_string s
    end in
  z ← Z.of_int <$> int; if (- 2 ^ 63 <=? z) && (z <? 2 ^ 63) then Some z else None.

(** [fmt.Sprintf("%d:%s", updatedAt, requestID)] *)
Definition print_cursor (r : GroupInviteRequestRecord) : string :=
  NilZero.string_of_int (Z.to_int (ir_UpdatedAt r)) +:+ ":" +:+ ir_RequestID r.

(** The condition a cursor adds; a text that does not parse adds none. *)
Definition after_cursor (cursor : string) (r : GroupInviteRequestRecord) : bool :=
  if str_eqb cursor "" then true
  else match Split cursor ":" with
       | [ts; id] =>
           match ParseInt ts with
           | Some ts => (ir_UpdatedAt r <? ts) || (ir_UpdatedAt r =? ts) && str_ltb (ir_RequestID r) id
           | None => true
           end
       | _ => true
       end.

Definition select_requests (f : GroupInviteRequestRecord -> bool) (d : AppDB) : list GroupInviteRequestRecord :=
  List.filter f ((fun kr : string * InviteRow => iv_rec kr.2) <$> map_to_list (adb_invites d)).

Definition status_filter (sts : list string) : list string :=
  List.filter (fun s => negb (str_eqb s "")) (normalizeInviteRequestStatus <$> sts).

(** The filter of the list without the cursor. *)
Definition listed (g : string) (filtered : list string) (r : GroupInviteRequestRecord) : bool :=
  str_eqb (ir_GroupID r) g && (is_empty filtered || bool_decide (ir_Status r ∈ filtered)).

(** [ListGroupInviteRequests]: a page and the cursor of the next one *)
Definition ListGroupInviteRequests (groupID : string) (sts : list string) (cursor : string) (limit : Z)
  : ASQL (list GroupInviteRequestRecord * string) :=
  let g := TrimSpace groupID in
  if str_eqb g "" then sql_ret ([], "")
  else
    let limit := if (limit <=? 0) || (limit >? 100) then 50 else limit in
    let n := Z.to_nat limit in
    out <-! sql_wrap "ListGroupInviteRequests" (sql_query (fun d =>
      take (S n) (stable_sort newer
        (select_requests (fun r => listed g (status_filter sts) r && after_cursor cursor r) d)))) ;
    if (n <? length out)%nat
    then sql_ret (take n out, match out !! (n - 1)%nat with Some last => print_cursor last | None => "" end)
    else sql_ret (out, "").

(** [ListInviteRequestsByStatusesForGroup] *)
Definition ListInviteRequestsByStatusesForGroup (groupID : string) (sts : list string) (asc : bool) (limit : Z)
  : ASQL (list GroupInviteRequestRecord) :=
  let g := TrimSpace groupID in
  let filtered := status_filter sts in
  if str_eqb g "" || is_empty filtered then sql_ret []
  else
    let limit := if limit <=? 0 then 500 else limit in
    let older a b := (ir_CreatedAt a <? ir_CreatedAt b) ||
      (ir_CreatedAt a =? ir_CreatedAt b) && str_ltb (ir_RequestID a) (ir_RequestID b) in
    sql_wrap "ListInviteRequestsByStatusesForGroup" (sql_query (fun d =>
      take (Z.to_nat limit) (stable_sort (fun a b => if asc then older a b else older b a)
        (select_requests (fun r => str_eqb (ir_GroupID r) g && negb (ir_IsMirror r) &&
           bool_decide (ir_Status r ∈ filtered)) d)))).

(** ** The table over time *)

(** Rows are under their id, with a known status, and no two active rows are
    for the same group and target. *)
Definition row_ok (id : string) (row : InviteRow) : Prop :=
  ir_RequestID (iv_rec row) = id /\ ir_Status (iv_rec row) ∈ statuses.
Definition active_unique (m : gmap string InviteRow) : Prop :=
  forall id1 id2 r1 r2, m !! id1 = Some r1 -> m !! id2 = Some r2 ->
    iv_active (ir_Status (iv_rec r1)) = true -> iv_active (ir_Status (iv_rec r2)) = true ->
    ir_GroupID (iv_rec r1) = ir_GroupID (iv_rec r2) ->
    ir_TargetPeerID (iv_rec r1) = ir_TargetPeerID (iv_rec r2) -> id1 = id2.
Definition invites_ok (d : AppDB) : Prop :=
  map_Forall row_ok (adb_invites d) /\ active_unique (adb_invites d).

Lemma normalize_known s : normalizeInviteRequestStatus s <> "" -> normalizeInviteRequestStatus s ∈ statuses.
Proof. unfold normalizeInviteRequestStatus. case_match; [|done]. by breflect. Qed.

Lemma normalize_default s : Store.or_else (normalizeInviteRequestStatus s) StatusPending ∈ statuses.
Proof.
  unfold Store.or_else. destruct (str_eqb_spec (normalizeInviteRequestStatus s) ""); [by left|].
  by apply normalize_known.
Qed.

Lemma index_free r d : index_violated r d = false <->
  forall id row, adb_invites d !! id = Some row -> active_conflict r (id, row) = false.
Proof.
  unfold index_violated. rewrite <-not_true_iff_false, existsb_exists. split.
  - intros H id row E. apply not_true_iff_false. intros Hc. apply H. exists (id, row). split; [|done].
    by apply list_elem_of_In, elem_of_map_to_list.
  - intros H ([id row] & Hin & Hc). apply list_elem_of_In, elem_of_map_to_list in Hin.
    by rewrite (H id row Hin) in Hc.
Qed.

Lemma active_unique_insert m row :
  active_unique m ->
  (forall id r, m !! id = Some r -> active_conflict (iv_rec row) (id, r) = false) ->
  active_unique (<[ir_RequestID (iv_rec row) := row]> m).
Proof.
  intros Hm Hc. set (k := ir_RequestID (iv_rec row)).
  assert (Hk : forall id r, id <> k -> m !! id = Some r ->
    iv_active (ir_Status (iv_rec row)) = true -> iv_active (ir_Status (iv_rec r)) = true ->
    ir_GroupID (iv_rec r) = ir_GroupID (iv_rec row) ->
    ir_TargetPeerID (iv_rec r) = ir_TargetPeerID (iv_rec row) -> False).
  { intros id r Hne E Ha Ha' Hg Ht. specialize (Hc id r E). unfold active_conflict in Hc. simpl in Hc.
    apply str_eqb_false in Hne. fold k in Hc. by rewrite Hne, Ha, Ha', Hg, Ht, !str_eqb_refl in Hc. }
  intros id1 id2 r1 r2. rewrite !lookup_insert_Some.
  intros [[<- <-]|[Hn1 E1]] [[<- <-]|[Hn2 E2]] Ha1 Ha2 Hg Ht; [done| | |by eapply Hm].
  - exfalso. by eapply (Hk id2 r2).
  - exfalso. by eapply (Hk id1 r1).
Qed.

(** A row whose update is not more active than it was. *)
Lemma active_unique_fmap (f : InviteRow -> InviteRow) m :
  (forall r, iv_active (ir_Status (iv_rec (f r))) = true ->
     iv_active (ir_Status (iv_rec r)) = true /\ ir_GroupID (iv_rec (f r)) = ir_GroupID (iv_rec r) /\
     ir_TargetPeerID (iv_rec (f r)) = ir_TargetPeerID (iv_rec r)) ->
  active_unique m -> active_unique (f <$> m).
Proof.
  intros Hf Hm id1 id2 r1 r2. rewrite !lookup_fmap_Some. intros (r1' & <- & E1) (r2' & <- & E2) Ha1 Ha2.
  destruct (Hf _ Ha1) as (? & -> & ->), (Hf _ Ha2) as (? & -> & ->). by eapply Hm.
Qed.

Lemma active_unique_sub (m m' : gmap string InviteRow) : m' ⊆ m -> active_unique m -> active_unique m'.
Proof. intros Hs Hm id1 id2 r1 r2 E1 E2. eapply Hm; by eapply lookup_weaken. Qed.

Lemma CreateGroupInviteRequest_ok rec : respects (keeps invites_ok) (CreateGroupInviteRequest rec).
Proof.
  unfold CreateGroupInviteRequest. repeat asql_step. intros [Hr Hu]. breflect. destruct H as [_ Hi].
  split; simpl.
  - apply map_Forall_insert_2; [|done]. split; [done|]. apply normalize_default.
  - apply (active_unique_insert _ (mkInviteRow (stored_request a (ir_IsMirror rec) rec) "")); [done|].
    by apply index_free.
Qed.

Lemma UpsertMirror_ok rec : respects (keeps invites_ok) (UpsertGroupInviteRequestMirror rec).
Proof.
  unfold UpsertGroupInviteRequestMirror. repeat asql_step. intros [Hr Hu]. split; simpl.
  - apply map_Forall_insert_2; [split; [done|apply normalize_default]|].
    intros id r [E _]%map_lookup_filter_Some. by apply Hr.
  - apply (active_unique_insert _ (mkInviteRow (stored_request a true rec) "")).
    + eapply active_unique_sub; [apply map_filter_subseteq|done].
    + by intros id r [_ E]%map_lookup_filter_Some.
Qed.

Lemma TryTransition_ok id from to p : respects (keeps invites_ok) (TryTransitionInviteRequest id from to p).
Proof.
  unfold TryTransitionInviteRequest.
  destruct (str_eqb (TrimSpace id) "" || str_eqb (normalizeInviteRequestStatus to) "" || is_empty from) eqn:E;
    repeat asql_step. breflect. destruct E as [[_ Hto] _]. intros [Hr Hu].
  destruct (adb_invites d !! TrimSpace id) as [row|] eqn:Er; [|done].
  destruct (movable _ row); [|done]. simpl in *. destruct (Hr _ _ Er) as [Hid _].
  split; simpl.
  - apply map_Forall_insert_2; [|done]. split; [done|]. by apply normalize_known.
  - rewrite <-Hid. change (ir_RequestID (iv_rec row)) with
      (ir_RequestID (iv_rec (apply_patch (normalizeInviteRequestStatus to) a p row))).
    apply active_unique_insert; [done|]. by apply index_free.
Qed.

Lemma sweep_ok cond s failure now d :
  s ∈ statuses -> iv_active s = false -> invites_ok d -> invites_ok (sweep cond (set_status s failure now) d).1.
Proof.
  intros Hs Ha [Hr Hu]. split; simpl.
  - intros id row. rewrite lookup_fmap_Some. intros (r & <- & E). destruct (Hr _ _ E). by case_match.
  - apply active_unique_fmap; [|done]. intros r. case_match; [|done]. simpl. by rewrite Ha.
Qed.

Lemma FailStale_ok now s c : respects (keeps invites_ok) (FailStaleProcessingInviteRequests now s c).
Proof.
  unfold FailStaleProcessingInviteRequests. repeat asql_step; intros Hd; apply sweep_ok; try done; set_solver.
Qed.
Lemma FailCorrupt_ok now : respects (keeps invites_ok) (FailCorruptProcessingInviteRequests now).
Proof.
  unfold FailCorruptProcessingInviteRequests. repeat asql_step; intros Hd; apply sweep_ok; try done; set_solver.
Qed.
Lemma Expire_ok now : respects (keeps invites_ok) (ExpirePendingInviteRequests now).
Proof.
  unfold ExpirePendingInviteRequests. repeat asql_step; intros Hd; apply sweep_ok; try done; set_solver.
Qed.

Lemma Link_ok id op : respects (keeps invites_ok) (LinkInviteRequestToAddOperation id op).
Proof.
  unfold LinkInviteRequestToAddOperation. repeat asql_step. intros [Hr Hu].
  destruct (adb_invites d !! TrimSpace id) as [row|] eqn:Er; [|done]. case_match; [|done].
  destruct (Hr _ _ Er) as [Hid Hs]. split; simpl.
  - apply map_Forall_insert_2; [|done]. by split.
  - rewrite <-Hid in Er |- *. apply (active_unique_insert _ (mkInviteRow (set_status _ None a (iv_rec row)) _)); [done|].
    intros id' r' E'. unfold active_conflict. simpl. apply not_true_iff_false. intros Hc. breflect.
    destruct Hc as [[[[Hne Ha] Ha'] Hg] Ht]. apply Hne. by eapply Hu.
Qed.

(** ** The table over time *)

(** The writes of the table. *)
Inductive InviteOp :=
| OpRequest (rec : GroupInviteRequestRecord)
| OpMirror (rec : GroupInviteRequestRecord)
| OpTransition (id : string) (from : list string) (to : string) (patch : InviteRequestTransitionPatch)
| OpFailStale (now timeout : Z) (code : string)
| OpFailCorrupt (now : Z)
| OpExpire (now : Z)
| OpLink (id operationID : string).

Definition invite_op (op : InviteOp) : ASQL unit :=
  match op with
  | OpRequest rec => CreateGroupInviteRequest rec
  | OpMirror rec => UpsertGroupInviteRequestMirror rec
  | OpTransition id from to p => sql_ignore (TryTransitionInviteRequest id from to p)
  | OpFailStale now s c => sql_ignore (FailStaleProcessingInviteRequests now s c)
  | OpFailCorrupt now => sql_ignore (FailCorruptProcessingInviteRequests now)
  | OpExpire now => sql_ignore (ExpirePendingInviteRequests now)
  | OpLink id op => LinkInviteRequestToAddOperation id op
  end.

Fixpoint invite_run (ops : list InviteOp) : ASQL unit :=
  match ops with
  | [] => sql_ret tt
  | op :: ops => sql_ignore (invite_op op) ;;! invite_run ops
  end.

#[local] Hint Resolve CreateGroupInviteRequest_ok UpsertMirror_ok TryTransition_ok FailStale_ok FailCorrupt_ok
  Expire_ok Link_ok : core.

Lemma invite_run_ok ops : respects (keeps invites_ok) (invite_run ops).
Proof.
  induction ops as [|op ops IH]; simpl; repeat asql_step; [|apply IH].
  destruct op; simpl; try apply respects_ignore; auto.
Qed.

(** One open request per member to be.  From a well formed table, any
    sequence of requests, pushed mirrors, transitions, timeouts, expiries and
    links, whatever fails on the way, leaves a table in which every row is
    under its id with a status of the list and two different rows for the same
    group and target are never both pending or processing. *)
Theorem one_open_request_per_target ops env t d d' :
  invites_ok d -> d' = (invite_run ops env t d).2 ->
  (forall id row, adb_invites d' !! id = Some row ->
     ir_RequestID (iv_rec row) = id /\ ir_Status (iv_rec row) ∈ statuses) /\
  forall id1 id2 r1 r2, adb_invites d' !! id1 = Some r1 -> adb_invites d' !! id2 = Some r2 ->
    ir_GroupID (iv_rec r1) = ir_GroupID (iv_rec r2) -> ir_TargetPeerID (iv_rec r1) = ir_TargetPeerID (iv_rec r2) ->
    iv_active (ir_Status (iv_rec r1)) = true -> iv_active (ir_Status (iv_rec r2)) = true -> id1 = id2.
Proof.
  intros Hd ->. destruct (invite_run_ok ops env t d Hd) as [Hr Hu]. split.
  - intros id row E. by destruct (Hr _ _ E).
  - eauto.
Qed.

(** A request with a row of its own. *)
Definition sample_request (id target : string) (mirror : bool) : GroupInviteRequestRecord :=
  mkInviteRequest id "g" "req" target StatusPending "" "" "" 0 5 None 100 1 1 mirror.
Definition sample_ops : list InviteOp :=
  [OpRequest (sample_request "r1" "bob" false); OpRequest (sample_request "r2" "bob" false);
   OpMirror (sample_request "r3" "eve" true)].

Lemma invites_ok_empty d : adb_invites d = ∅ -> invites_ok d.
Proof.
  intros E. unfold invites_ok. rewrite E. split; [apply map_Forall_empty|].
  intros ? ? ? ? E1. by rewrite lookup_empty in E1.
Qed.

Lemma one_open_request_per_target_witness :
  let d := (invite_run sample_ops HealStore.demo_env O adb_empty).2 in
  (fun row => ir_Status (iv_rec row)) <$> adb_invites d !! "r1" = Some StatusPending /\
  adb_invites d !! "r2" = None /\
  forall id row, adb_invites d !! id = Some row -> ir_Status (iv_rec row) ∈ statuses.
Proof.
  intros d. split_and!; [by vm_compute..|]. intros id row E.
  eapply (one_open_request_per_target sample_ops HealStore.demo_env O adb_empty d); [|done|done].
  by apply invites_ok_empty.
Defined.

(** A pushed mirror is stored whatever row it meets: here it deletes the open
    request that the admin holds for the same target. *)
Lemma mirror_evicts_request :
  let d := (invite_run (sample_ops ++ [OpMirror (sample_request "r4" "bob" true)]) HealStore.demo_env O adb_empty).2 in
  adb_invites d !! "r1" = None /\ (fun row => ir_IsMirror (iv_rec row)) <$> adb_invites d !! "r4" = Some true.
Proof. by vm_compute. Qed.

(** ** Pages *)

(** Reading all pages: follow the cursor until there is none. *)
Fixpoint fetch_pages (fuel : nat) (groupID : string) (sts : list string) (cursor : string) (limit : Z)
  : ASQL (list GroupInviteRequestRecord) :=
  match fuel with
  | O => sql_ret []
  | S fuel =>
      pn <-! ListGroupInviteRequests groupID sts cursor limit ;
      if str_eqb pn.2 "" then sql_ret pn.1
      else rest <-! fetch_pages fuel groupID sts pn.2 limit ; sql_ret (pn.1 ++ rest)
  end.

#[export] Instance newer_weak : StrictWeak newer.
Proof.
  split; unfold newer.
  - intros x y H. apply not_true_iff_false. intros H'. breflect.
    destruct H as [H|[H1 H2]], H' as [H'|[H1' H2']]; try lia.
    by rewrite (sw_asym _ _ H2) in H2'.
  - intros x y z H. breflect.
    destruct (Z.lt_trichotomy (ir_UpdatedAt y) (ir_UpdatedAt x)) as [?|[E|?]]; [by left; left| |right].
    + destruct H as [H|[H1 H2]]; [right; left; lia|].
      destruct (sw_negtrans _ (ir_RequestID y) _ H2); [right|left]; right; split; try lia; done.
    + destruct H as [H|[H1 H2]]; left; lia.
Qed.

Lemma newer_total x y : newer x y = false -> newer y x = false -> ir_RequestID x = ir_RequestID y.
Proof.
  unfold newer. intros H1 H2. breflect. destruct H1 as [H1 H1'], H2 as [H2 H2'].
  assert (ir_UpdatedAt x = ir_UpdatedAt y) by lia.
  destruct H1' as [?|H1']; [congruence|]. destruct H2' as [?|H2']; [congruence|].
  by apply str_ltb_total.
Qed.

(** Without two rows of one id, the sorted list is strictly sorted. *)
Lemma newer_strict l :
  NoDup (ir_RequestID <$> l) -> StronglySorted (sort_le newer) l -> StronglySorted (fun x y => newer x y = true) l.
Proof.
  intros Hn. induction 1 as [|x l Hl IH Hx]; [constructor|]. simpl in Hn. apply NoDup_cons in Hn as [Hni Hn].
  constructor; [by apply IH|]. rewrite Forall_forall in Hx |- *. intros y Hy.
  destruct (newer x y) eqn:E; [done|]. exfalso. apply Hni. rewrite (newer_total x y E (Hx y Hy)).
  by apply list_elem_of_fmap_2.
Qed.

Lemma filter_after x a b :
  StronglySorted (fun x y => newer x y = true) (a ++ x :: b) -> List.filter (newer x) (a ++ x :: b) = b.
Proof.
  intros H. rewrite List.filter_app. apply StronglySorted_app in H as (Ha & _ & Hb).
  assert (E1 : List.filter (newer x) a = []).
  { clear Hb. induction a as [|y a IH]; [done|]. simpl. rewrite (sw_asym y x) by (apply Ha; by left).
    apply IH. intros u v Hu Hv. apply Ha; [by right|done]. }
  rewrite E1. simpl. assert (Hxx : newer x x = false).
  { destruct (newer x x) eqn:E; [|done]. by rewrite (sw_asym x x E) in E. }
  rewrite Hxx. apply StronglySorted_inv in Hb as [_ Hb]. clear -Hb.
  induction Hb as [|y b Hy _ IH]; [done|]. simpl. by rewrite Hy, IH.
Qed.

(** The cursor of a row selects what comes after it. *)

Definition no_colon (s : string) : bool := forallb (fun b => negb (bool_decide (b = ":"%byte))) (str_bytes s).

Lemma split_no_colon l : forallb (fun b => negb (bool_decide (b = ":"%byte))) l = true -> split_bytes ":" l = [l].
Proof.
  induction l as [|x l IH]; simpl; [done|]. intros H. breflect. destruct H as [Hx H].
  rewrite bool_decide_false by done. by rewrite (IH H).
Qed.

Lemma split_at_colon a l :
  forallb (fun b => negb (bool_decide (b = ":"%byte))) a = true ->
  split_bytes ":" (a ++ ":"%byte :: l) = a :: split_bytes ":" l.
Proof.
  induction a as [|x a IH]; intros H; [reflexivity|].
  simpl in H |- *. breflect. destruct H as [Hx H]. rewrite bool_decide_false by done. by rewrite (IH H).
Qed.

Lemma str_bytes_app a b : str_bytes (a +:+ b) = str_bytes a ++ str_bytes b.
Proof.
  unfold str_bytes. induction a as [|c a IH]; [done|].
  change (byte_of_ascii c :: String.list_byte_of_string (a +:+ b) =
          byte_of_ascii c :: (String.list_byte_of_string a ++ String.list_byte_of_string b)). by rewrite IH.
Qed.

Lemma uint_no_colon u : no_colon (NilEmpty.string_of_uint u) = true.
Proof. unfold no_colon, str_bytes. induction u; simpl; done. Qed.

Lemma int_no_colon z : no_colon (NilZero.string_of_int (Z.to_int z)) = true.
Proof.
  assert (H : forall u, no_colon (NilZero.string_of_uint u) = true).
  { intros u. destruct u; try done; apply (uint_no_colon _). }
  destruct (Z.to_int z) as [u|u]; simpl; [apply H|]. apply (H u).
Qed.

Lemma uint_string_digit u : exists c s, NilZero.string_of_uint u = String c s /\ c <> "+"%char /\ c <> "-"%char.
Proof. destruct u; simpl; eexists _, _; (split; [reflexivity|done]). Qed.

Lemma ParseInt_print z : in_i64 z -> ParseInt (NilZero.string_of_int (Z.to_int z)) = Some z.
Proof.
  intros Hz. unfold ParseInt.
  assert (E : forall u, match NilZero.string_of_uint u with
    | String "+" r => Decimal.Pos <$> NilZero.uint_of_string r
    | String "-" r => Decimal.Neg <$> NilZero.uint_of_string r
    | _ => Decimal.Pos <$> NilZero.uint_of_string (NilZero.string_of_uint u)
    end = Decimal.Pos <$> NilZero.uint_of_string (NilZero.string_of_uint u)).
  { intros u. destruct (uint_string_digit u) as (c & s & -> & Hp & Hm).
    destruct c as [[] [] [] [] [] [] [] []]; done. }
  pose proof (DecimalZ.of_to z) as Hof. unfold in_i64 in Hz.
  assert (Hfin : forall o : option Decimal.int, o = Some (Z.to_int z) ->
    (z ← Z.of_int <$> o; if (- 2 ^ 63 <=? z) && (z <? 2 ^ 63) then Some z else None) = Some z).
  { intros o ->. simpl. rewrite Hof. destruct (Z.leb_spec (- 2 ^ 63) z); [|lia].
    by destruct (Z.ltb_spec z (2 ^ 63)); [|lia]. }
  apply Hfin. destruct z as [|p|p]; simpl.
  - reflexivity.
  - rewrite E, NilZero.usu; [done|]. apply DecimalPos.Unsigned.to_uint_nonnil.
  - rewrite NilZero.usu; [done|]. apply DecimalPos.Unsigned.to_uint_nonnil.
Qed.

Lemma print_nonempty x : str_eqb (print_cursor x) "" = false.
Proof.
  apply str_eqb_false. unfold print_cursor. intros E. apply (f_equal str_bytes) in E.
  rewrite !str_bytes_app in E. by destruct (str_bytes (NilZero.string_of_int _)).
Qed.

Lemma after_print x r :
  in_i64 (ir_UpdatedAt x) -> no_colon (ir_RequestID x) = true -> after_cursor (print_cursor x) r = newer x r.
Proof.
  intros Hz Hid. unfold after_cursor.
  rewrite print_nonempty. unfold Split, print_cursor. rewrite !str_bytes_app.
  change (str_bytes ":" ++ str_bytes (ir_RequestID x)) with (":"%byte :: str_bytes (ir_RequestID x)).
  rewrite split_at_colon by apply int_no_colon. rewrite split_no_colon by done. cbn [fmap list_fmap].
  rewrite !bytes_str_bytes, ParseInt_print by done. unfold newer. by rewrite (Z.eqb_sym (ir_UpdatedAt r)).
Qed.


(** The whole list, in order. *)
Definition all_requests (groupID : string) (sts : list string) (d : AppDB) : list GroupInviteRequestRecord :=
  stable_sort newer (select_requests (listed (TrimSpace groupID) (status_filter sts)) d).

Lemma requests_nodup d f : invites_ok d -> NoDup (ir_RequestID <$> select_requests f d).
Proof.
  intros [Hr _]. unfold select_requests.
  assert (Hids : ir_RequestID <$> ((fun kr : string * InviteRow => iv_rec kr.2) <$> map_to_list (adb_invites d))
                 = (map_to_list (adb_invites d)).*1).
  { rewrite <-list_fmap_compose. apply list_fmap_ext. intros i [id row] E. simpl.
    apply list_elem_of_lookup_2, elem_of_map_to_list in E. by destruct (Hr _ _ E). }
  pose proof (NoDup_fst_map_to_list (adb_invites d)) as Hn. rewrite <-Hids in Hn. clear Hids.
  induction ((fun kr : string * InviteRow => iv_rec kr.2) <$> map_to_list (adb_invites d)) as [|x l IH]; [done|].
  simpl in Hn |- *. apply NoDup_cons in Hn as [Hx Hn]. case_match; [|by apply IH].
  simpl. constructor; [|by apply IH]. intros Hin. apply Hx.
  apply list_elem_of_fmap in Hin as (y & -> & Hy). apply list_elem_of_In, filter_In in Hy as [Hy _].
  by apply list_elem_of_fmap_2, list_elem_of_In.
Qed.

Lemma all_requests_strict g sts d :
  invites_ok d -> StronglySorted (fun x y => newer x y = true) (all_requests g sts d).
Proof.
  intros Hd. apply newer_strict; [|apply stable_sort_sorted; apply _].
  unfold all_requests. eapply NoDup_Permutation_proper; [apply fmap_Permutation, stable_sort_perm|].
  by apply requests_nodup.
Qed.

Lemma requests_injective d f x y :
  invites_ok d -> x ∈ select_requests f d -> y ∈ select_requests f d ->
  newer x y = false -> newer y x = false -> x = y.
Proof.
  intros Hd Hx Hy H1 H2. pose proof (newer_total x y H1 H2) as E.
  apply (requests_nodup d f) in Hd as Hn. apply list_elem_of_lookup in Hx as [i Hi], Hy as [j Hj].
  assert (i = j) as ->; [|congruence].
  eapply (NoDup_lookup _ i j (ir_RequestID x) Hn); rewrite list_lookup_fmap_Some; eauto.
Qed.

(** A page is the head of what the cursor leaves. *)
Lemma page_run g sts c limit env t d :
  sql_fails env t = None -> TrimSpace g <> "" -> invites_ok d ->
  let n := Z.to_nat (if (limit <=? 0) || (limit >? 100) then 50 else limit) in
  let rest := List.filter (after_cursor c) (all_requests g sts d) in
  ListGroupInviteRequests g sts c limit env t d =
  (inl (if (n <? length rest)%nat
        then (take n rest, match rest !! (n - 1)%nat with Some last => print_cursor last | None => "" end)
        else (rest, "")), S t, d).
Proof.
  intros Hf Hg Hd n rest. unfold ListGroupInviteRequests. apply str_eqb_false in Hg as ->.
  unfold sql_wrap, sql_bind, sql_query. rewrite Hf. fold n.
  assert (E : stable_sort newer (select_requests (fun r =>
      listed (TrimSpace g) (status_filter sts) r && after_cursor c r) d) = rest).
  { subst rest. unfold all_requests. rewrite <-stable_sort_filter; [|apply _|].
    - f_equal. unfold select_requests. generalize ((fun kr : string * InviteRow => iv_rec kr.2) <$> map_to_list (adb_invites d)).
      intros l. induction l as [|x l IH]; [done|]. simpl. destruct (listed _ _ x); simpl; [|done].
      by destruct (after_cursor c x); [f_equal|].
    - intros x y Hx Hy. by apply (requests_injective d (listed (TrimSpace g) (status_filter sts))). }
  rewrite E. rewrite length_take. destruct (Nat.ltb_spec n (length rest)).
  - destruct (Nat.ltb_spec n (S n `min` length rest)); [|lia].
    unfold sql_ret. rewrite take_take, Nat.min_l by lia.
    assert (Hn : (1 <= n)%nat) by (subst n; case_match; breflect; lia).
    by rewrite lookup_take_lt by lia.
  - destruct (Nat.ltb_spec n (S n `min` length rest)); [lia|]. by rewrite take_ge by lia.
Qed.

(** Paging through the invite requests of a group, each page asked for
    with the cursor of the one before, gives every matching request exactly
    once and in the order of the whole list, whatever the page size, when the
    table does not change, request ids contain no colon and update times are
    64-bit. *)
Theorem pages_enumerate_requests fuel g sts limit env t d :
  (forall n, sql_fails env n = None) -> TrimSpace g <> "" -> invites_ok d ->
  Forall (fun r => in_i64 (ir_UpdatedAt r) /\ no_colon (ir_RequestID r) = true) (all_requests g sts d) ->
  (length (all_requests g sts d) < fuel)%nat ->
  exists t', fetch_pages fuel g sts "" limit env t d = (inl (all_requests g sts d), t', d).
Proof.
  intros Hf Hg Hd Hall Hfuel. set (rows := all_requests g sts d) in *.
  pose proof (all_requests_strict g sts d Hd) as Hs. fold rows in Hs.
  assert (H : forall fuel c t before rest, List.filter (after_cursor c) rows = rest -> rows = before ++ rest ->
    (length rest < fuel)%nat -> exists t', fetch_pages fuel g sts c limit env t d = (inl rest, t', d)).
  2: { apply (H fuel "" t [] rows); [|done|done]. clear. induction rows as [|x l IH]; [done|]. simpl. by rewrite IH. }
  clear fuel t Hfuel. induction fuel as [|fuel IH]; intros c t before rest Hc Hb Hl; [lia|].
  cbn [fetch_pages]. unfold sql_bind at 1.
  rewrite (page_run g sts c limit env t d (Hf t) Hg Hd). fold rows. rewrite Hc.
  set (n := Z.to_nat _). assert (Hn : (1 <= n)%nat) by (subst n; case_match; breflect; lia).
  destruct (Nat.ltb_spec n (length rest)); cbn [fst snd]; [|by eexists].
  destruct (lookup_lt_is_Some_2 rest (n - 1)) as [x Hx]; [lia|]. rewrite Hx, print_nonempty.
  assert (Hsplit : rows = (before ++ take (n - 1) rest) ++ x :: drop n rest).
  { rewrite Hb, <-app_assoc. f_equal. rewrite <-(take_drop_middle _ _ _ Hx) at 1. do 3 f_equal. lia. }
  assert (Hx' : in_i64 (ir_UpdatedAt x) /\ no_colon (ir_RequestID x) = true).
  { rewrite Forall_forall in Hall. apply Hall. rewrite Hsplit. set_solver. }
  destruct (IH (print_cursor x) (S t) ((before ++ take (n - 1) rest) ++ [x]) (drop n rest)) as [t' E].
  - transitivity (List.filter (newer x) rows).
    + clear -Hx'. induction rows as [|y l IHl]; [done|]. simpl. by rewrite after_print, IHl by apply Hx'.
    + rewrite Hsplit at 1. apply filter_after. by rewrite <-Hsplit.
  - by rewrite <-(app_assoc _ [x]).
  - rewrite length_drop. lia.
  - exists t'. unfold sql_bind, sql_ret. rewrite E. by rewrite take_drop.
Qed.

Lemma pages_enumerate_requests_witness :
  exists t', fetch_pages 3 "g" [] "" 1 HealStore.demo_env O (invite_run sample_ops HealStore.demo_env O adb_empty).2
    = (inl [sample_request "r3" "eve" true; sample_request "r1" "bob" false], t',
       (invite_run sample_ops HealStore.demo_env O adb_empty).2).
Proof.
  assert (E : all_requests "g" [] (invite_run sample_ops HealStore.demo_env O adb_empty).2 =
    [sample_request "r3" "eve" true; sample_request "r1" "bob" false]) by (by vm_compute).
  pose proof (pages_enumerate_requests 3 "g" [] 1 HealStore.demo_env O
    (invite_run sample_ops HealStore.demo_env O adb_empty).2) as H. rewrite E in H. apply H.
  - done.
  - by vm_compute.
  - apply invite_run_ok. by apply invites_ok_empty.
  - repeat constructor; by vm_compute.
  - simpl. lia.
Defined.

End InviteRequests.
