(* ===== verification/Wire.v ===== *)
(** * Messages between the services of two nodes

    The JSON payloads of [adapter/p2p/invite_store_wire.go],
    [adapter/p2p/channel_category_wire.go], [adapter/p2p/replicated_store_wire.go]
    and of the two protocols of [service/invite.go], the signed records that
    nodes replicate, the objects of the blind store, and what a service hands
    to goroutines and streams. *)
From S2P Require Import Prelude Types.

(** [encoding/json] at a type; [json_valid] are the values whose text is
    UTF-8, which come back as they were. *)
Class JSON (A : Type) := {
  json_Marshal : A -> bytes;
  json_Unmarshal : bytes -> option A;
  json_valid : A -> Prop;
}.
Class JSONLaws A `{JSON A} := {
  json_round_trip : forall a, json_valid a -> json_Unmarshal (json_Marshal a) = Some a;
  json_nonempty : forall a, json_Marshal a <> [];
}.

(** ** Key packages and welcomes *)

Record KPStoreRequestV1 := mkKPStore { kps_V : Z; kps_PeerID : string; kps_PublicKP : bytes }.
Record KPFetchRequestV1 := mkKPFetch { kpf_V : Z; kpf_PeerID : string }.
Record KPFetchResponseV1 := mkKPFound { kpr_V : Z; kpr_Found : bool; kpr_PublicKP : bytes; kpr_Error : string }.

Record WelcomeStoreRequestV1 := mkWelcomeStore {
  wsr_V : Z;
  wsr_InviteePeerID : string;
  wsr_GroupID : string;
  wsr_GroupType : string;
  wsr_CategoryID : string;
  wsr_SourcePeerID : string;
  wsr_AnchorEpoch : Z;
  wsr_AnchorHistoryHash : bytes;
  wsr_Welcome : bytes;
}.
Record WelcomeFetchRequestV1 := mkWelcomeFetch { wfr_V : Z; wfr_InviteePeerID : string; wfr_GroupID : string }.
Record WelcomeFetchResponseV1 := mkWelcomeFound {
  wfp_V : Z;
  wfp_Found : bool;
  wfp_GroupType : string;
  wfp_CategoryID : string;
  wfp_SourcePeerID : string;
  wfp_AnchorEpoch : Z;
  wfp_AnchorHistoryHash : bytes;
  wfp_Welcome : bytes;
  wfp_Error : string;
}.
Record WelcomeListRequestV1 := mkWelcomeListRequest { wlr_V : Z; wlr_InviteePeerID : string }.
Record WelcomeListItemV1 := mkWelcomeListItem {
  wli_GroupID : string;
  wli_GroupType : string;
  wli_CategoryID : string;
  wli_Welcome : bytes;
  wli_SourcePeerID : string;
  wli_AnchorEpoch : Z;
  wli_AnchorHistoryHash : bytes;
  wli_CreatedAt : Z;
}.
Record WelcomeListResponseV1 := mkWelcomeList {
  wlp_V : Z; wlp_Invites : list WelcomeListItemV1; wlp_Error : string }.

(** of [service/invite.go] *)
Record welcomeDeliveryWire := mkWelcomeDelivery {
  wd_V : Z;
  wd_GroupID : string;
  wd_GroupType : string;
  wd_CategoryID : string;
  wd_SourcePeerID : string;
  wd_WelcomeHex : string;
  wd_AnchorEpoch : Z;
  wd_AnchorHistoryHash : string;
}.
Record groupJoinAckWire := mkJoinAck { ja_V : Z; ja_GroupID : string; ja_PeerID : string }.

(** ** Channel categories *)

Record ChannelCategoryWire := mkCategoryWire {
  cw_CategoryID : string; cw_Name : string; cw_SortOrder : Z; cw_UpdatedAt : Z; cw_CreatedBy : string }.
Record ChannelAssignmentWire := mkAssignmentWire { aw_ChannelID : string; aw_CategoryID : string }.
Record ChannelCategorySyncFrameV1 := mkCategoryFrame {
  cf_V : Z;
  cf_Type : string;
  cf_EventID : string;
  cf_Category : option ChannelCategoryWire;
  cf_CategoryID : string;
  cf_ChannelID : string;
  cf_Categories : list ChannelCategoryWire;
  cf_Assignments : list ChannelAssignmentWire;
}.

(** ** Invite requests *)

Record InviteRequestRecordWire := mkInviteRequestWire {
  iw_RequestID : string;
  iw_GroupID : string;
  iw_RequesterPeerID : string;
  iw_TargetPeerID : string;
  iw_Status : string;
  iw_FailureCode : string;
  iw_FailureMessage : string;
  iw_RejectionReason : string;
  iw_AttemptCount : Z;
  iw_MaxAttempts : Z;
  iw_ProcessingStartedAt : option Z;
  iw_ExpiresAt : Z;
  iw_CreatedAt : Z;
  iw_UpdatedAt : Z;
  iw_IsMirror : bool;
}.
Record GroupInviteWireClientReqV1 := mkInviteReq {
  iq_V : Z; iq_Op : string; iq_GroupID : string; iq_TargetPeerID : string; iq_RequestID : string; iq_TargetKeyPackage : bytes }.
Record GroupInviteWireRespV1 := mkInviteResp {
  ip_V : Z; ip_OK : bool; ip_Error : string; ip_Record : option InviteRequestRecordWire }.
Record GroupInviteWirePushV1 := mkInvitePush { ih_V : Z; ih_Op : string; ih_Record : InviteRequestRecordWire }.

(** ** Signed records *)

(** of [service/profile.go] *)
Record profileWireV1 := mkProfileWire {
  pf_V : Z;
  pf_PeerID : string;
  pf_DisplayName : string;
  pf_Email : string;
  pf_Phone : string;
  pf_AvatarHash : string;
  pf_AvatarMime : string;
  pf_AvatarUpdatedAt : Z;
  pf_ProfileRevision : Z;
  pf_ClearedFields : list string;
}.
(** of [service/group_avatar_replicate.go] *)
Record groupAvatarWireV1 := mkAvatarWire {
  gw_V : Z;
  gw_GroupID : string;
  gw_ActorPeerID : string;
  gw_CreatorPeerID : string;
  gw_AvatarHash : string;
  gw_AvatarMime : string;
  gw_AvatarUpdatedAt : Z;
  gw_Revision : Z;
  gw_ClearedFields : list string;
}.
(** of [service/group_invite_policy_replicate.go] *)
Record groupInvitePolicyWireV1 := mkPolicyWire {
  ow_V : Z; ow_GroupID : string; ow_Policy : string; ow_ActorPeerID : string; ow_CreatedAt : Z; ow_Revision : Z }.

(** of [adapter/p2p/replicated_store_wire.go] *)
Record ReplicaPushMetaV1 := mkPushMeta { pm_V : Z; pm_Namespace : string; pm_RecordKey : string }.
Record ReplicaPullRequestV1 := mkPullRequest {
  pq_V : Z; pq_Namespace : string; pq_Keys : list string; pq_Cursors : gmap string Z }.
Record ReplicaPullRecordHeaderV1 := mkPullHeader { ph_V : Z; ph_Key : string; ph_Revision : Z }.

(** ** The blind store *)

(** of [service/blind_store.go] *)
Record blindStoreEnvelopeV1 := mkBlindObject {
  bo_V : Z;
  bo_PublishedAt : Z;
  bo_ObjectType : string;
  bo_GroupID : string;
  bo_MsgType : string;
  bo_Envelope : bytes;
  bo_EnvelopeHash : bytes;
  bo_PeerID : string;
  bo_PublicKP : bytes;
  bo_InviteePeerID : string;
  bo_GroupType : string;
  bo_CategoryID : string;
  bo_SourcePeerID : string;
  bo_Welcome : bytes;
  bo_AnchorEpoch : Z;
  bo_AnchorHistoryHash : bytes;
  bo_ReplicaTargets : list string;
  bo_RecordNamespace : string;
  bo_RecordKey : string;
  bo_RecordWireJSON : bytes;
  bo_RecordSignature : bytes;
  bo_RecordBlob : bytes;
}.

(** ** Outputs *)

(** A frame written to a stream. *)
Inductive Frame :=
| FCategory (f : ChannelCategorySyncFrameV1)
| FKPStore (r : KPStoreRequestV1)
| FWelcomeStore (r : WelcomeStoreRequestV1)
| FWelcome (m : welcomeDeliveryWire)
| FJoinAck (m : groupJoinAckWire)
| FInvitePush (m : GroupInviteWirePushV1)
| FReplicaPush (m : ReplicaPushMetaV1) (wire signature blob : bytes).

(** A goroutine, with what it captures. *)
Inductive RtTask :=
| GRefreshKeyPackage
| GBroadcastJoinAck (groupID : string)
| GPullFromVerified
| GReplayPending (groupID reason : string)
| GCategorySync (p : peerID)
| GInviteRefresh
| GDeliverWelcome (target : peerID) (groupID groupType categoryID : string) (welcome : bytes)
    (anchorEpoch : Z) (anchorHistoryHash : bytes)
| GPublishKeyPackage (peer : string) (publicKP : bytes)
| GPublishWelcome (invitee groupID groupType categoryID : string) (welcome : bytes)
    (anchorEpoch : Z) (anchorHistoryHash : bytes)
| GRosterBackfill (groupIDs : list string)
| GReplicateInvitePolicy (groupID policy actor : string)
| GReplicateGroupAvatar (groupID : string)
| GPullReplicas (from : peerID)
| GAllMembersChanged (reason : string)
| GPublishRecord (namespace : string) (wire signature blob : bytes)
| GSetProfileAnnex (wire signature : bytes)
| GEmit (event : string) (fields : list (string * string)).
