(* ===== verification/Runtime.v ===== *)
(** * The runtime of the services

    What the services of [src/app/service] share: the state behind a
    [Runtime], the local peer id, the session ([session.go]) and the permission
    checks ([group_permissions.go]).

    The methods run in the SQL monad over [RtState]: the tables, the groups
    that have a coordinator, and the events emitted to the user interface. *)
From Stdlib Require Import DecimalString.
From S2P Require Import Prelude GoStrings Sha256 Types SingleWriter Database.
From S2P Require Import Store HealStore AppDatabase Identity Roster.
From S2P Require Import InviteStore Replicated Wire.

(** A number in the payload of an event. *)
Definition print_Z (z : Z) : string := NilZero.string_of_int (Z.to_int z).

(** What a goroutine or the user interface gets from a method. *)
Inductive RtEffect :=
| Emit (event : string) (fields : list (string * string))
| AppendGroupEvent (groupID eventType actor target : string) (epoch : Z)
| ReplicateGroupRole (groupID targetPeerID newRole actorPeerID : string)
| PublishGroupRole (wire : string) (signature : bytes)
| StopCoordinator (groupID : string)
| StopNetwork
| P2PStatus (running : bool) (message : string)
| Send (to : peerID) (f : Frame)
| PublishTopic (topic : string) (payload : bytes)
| Go (t : RtTask).

Record RtState := mkRtState {
  rt_app : AppDB;
  rt_coords : gset string;
  rt_trace : list RtEffect;
}.

Abbreviation RT := (SQLs RtState).

(** [groupRoleWireV1], the wire form of a role change *)
Record groupRoleWireV1 := mkRoleWire {
  rw_V : Z;
  rw_EventID : string;
  rw_GroupID : string;
  rw_TargetPeerID : string;
  rw_NewRole : string;
  rw_ActorPeerID : string;
  rw_CreatedAt : Z;
  rw_Revision : Z;
  rw_Epoch : Z;
}.

(** What a method does not control: whether the database is open, the node
    and the tokens its peers have proved, the libp2p key, JSON and the MLS
    engine. *)
Record RtEnv := mkRtEnv {
  re_db : bool;
  re_node : option peerID;
  re_privKey : option peerID;
  re_token : peerID -> option (string * bytes);
  re_role_Marshal : groupRoleWireV1 -> string;
  re_role_Unmarshal : string -> option groupRoleWireV1;
  re_engine : bool;
  re_ListMemberIdentities : bytes -> result (list bytes);
}.

Module Runtime.
Section Methods.
Context {PC : PeerCodec} (re : RtEnv).

(** ** Effects *)

Definition app {A} (m : ASQL A) : RT A := fun env t s =>
  match m env t (rt_app s) with (r, t', d) => (r, t', mkRtState d (rt_coords s) (rt_trace s)) end.
Definition effect (e : RtEffect) : RT unit := fun _ t s =>
  (inl tt, t, mkRtState (rt_app s) (rt_coords s) (rt_trace s ++ [e])).

Definition not_initialized {A} : RT A := sql_throw (ErrText "database not initialized").
(** [r.db], which is nil before the database is open *)
Definition with_db {A} (m : RT A) : RT A := if re_db re then m else not_initialized.

(** [appendGroupEvent]: the row is written by a goroutine. *)
Definition appendGroupEvent (groupID eventType actor target : string) (epoch : Z) : RT unit :=
  let g := TrimSpace groupID in
  let ty := TrimSpace eventType in
  if str_eqb g "" || str_eqb ty "" then sql_ret tt
  else effect (AppendGroupEvent g ty (TrimSpace actor) (TrimSpace target) epoch).

(** [GetMLSIdentity] *)
Definition GetMLSIdentity : RT MLSIdentity := app Identity.GetMLSIdentity.

(** ** Local peer *)

(** [GetOnboardingInfo], the peer id of it *)
Definition GetOnboardingInfo : RT string :=
  match re_db re, re_privKey re with
  | true, Some pid =>
      sql_wrap "failed to load MLS identity" GetMLSIdentity ;;! sql_ret (peer_String pid)
  | _, _ => sql_throw (ErrText "app not initialized")
  end.

(** [localPeerID] *)
Definition localPeerID : RT string :=
  match re_node re with
  | Some pid => sql_ret (peer_String pid)
  | None =>
      info <-! sql_try GetOnboardingInfo ;
      match info with
      | inl p => if str_eqb (TrimSpace p) "" then sql_throw (ErrText "local peer ID unavailable")
                 else sql_ret (TrimSpace p)
      | inr _ => sql_throw (ErrText "local peer ID unavailable")
      end
  end.

(** ** Session *)

Definition sessionStartedAtConfigKey := "session_started_at".
Definition killSessionPendingConfigKey := "kill_session_pending".
Definition sessionReplacedAtConfigKey := "session_replaced_at".
Definition ErrSessionReplaced : GoError := ErrSentinel "session has been replaced by a newer device".


(** [binary.BigEndian.Uint64] and [PutUint64] *)
Definition be64 (b : bytes) : Z := foldl (fun acc x => acc * 256 + Z.of_N (Byte.to_N x)) 0 b.
Definition put_be64 (v : Z) : bytes := rev (SingleWriter.le64 v).

(** [encodeInt64Config] *)
Definition encodeInt64Config (v : Z) : bytes := put_be64 (u64 v).

(** [readInt64Config]: the value and whether it is there *)
Definition readInt64Config (key : string) : ASQL (Z * bool) :=
  raw <-! sql_try (Identity.GetConfig key) ;
  match raw with
  | inr e => if errors_Is e sql_ErrNoRows then sql_ret (0, false) else sql_throw e
  | inl b => if (length b =? 8)%nat then sql_ret (i64 (be64 b), true) else sql_ret (0, false)
  end.

(** [resetSessionStartedAt] *)
Definition resetSessionStartedAt : ASQL Z :=
  now <-! unix_milli_now ;
  sql_wrap "persist session start" (Identity.SetConfig sessionStartedAtConfigKey (put_be64 (u64 now))) ;;! sql_ret now.

(** [getOrCreateSessionStartedAt] *)
Definition getOrCreateSessionStartedAt : ASQL Z :=
  raw <-! sql_try (Identity.GetConfig sessionStartedAtConfigKey) ;
  match raw with
  | inl b => if (length b =? 8)%nat then sql_ret (i64 (be64 b)) else resetSessionStartedAt
  | inr e => if errors_Is e sql_ErrNoRows then resetSessionStartedAt else sql_throw (ErrWrap "read session start" e)
  end.

(** [ApplyIdentityImportSideEffects]: [DeleteConfig] does not report a missing
    key *)
Definition ApplyIdentityImportSideEffects : ASQL unit :=
  resetSessionStartedAt ;;!
  deleted <-! sql_try (Identity.DeleteConfig sessionReplacedAtConfigKey) ;
  match deleted with
  | inr e => if errors_Is e sql_ErrNoRows then sql_ret tt else sql_throw e
  | inl _ => sql_ret tt
  end ;;!
  Identity.SetConfig killSessionPendingConfigKey (str_bytes "1").

(** [consumeKillSessionPendingFlag] *)
Definition consumeKillSessionPendingFlag : ASQL unit :=
  has <-! Identity.HasConfig killSessionPendingConfigKey ;
  if has : bool then Identity.DeleteConfig killSessionPendingConfigKey else sql_ret tt.

(** [isSessionReplaced], the check before the network starts *)
Definition isSessionReplaced : ASQL bool :=
  r <-! readInt64Config sessionReplacedAtConfigKey ; sql_ret (r.2 && (r.1 >? 0)).

Inductive SessionState := SessionUnknown | SessionActive | SessionReplaced.
#[export] Instance SessionState_eq_dec : EqDecision SessionState.
Proof. solve_decision. Defined.

(** [GetSessionStatus]: the state and the two times *)
Definition GetSessionStatus : RT (SessionState * Z * Z) :=
  if negb (re_db re) then sql_ret (SessionUnknown, 0, 0)
  else
    started <-! sql_wrap "read session start" (app (readInt64Config sessionStartedAtConfigKey)) ;
    replaced <-! sql_wrap "read session replaced" (app (readInt64Config sessionReplacedAtConfigKey)) ;
    let state := if (started.1 =? 0) && negb replaced.2 then SessionUnknown
                 else if replaced.2 then SessionReplaced else SessionActive in
    sql_ret (state, started.1, if replaced.2 then replaced.1 else 0).

(** [AcknowledgeSessionReplaced] *)
Definition AcknowledgeSessionReplaced : RT unit :=
  status <-! GetSessionStatus ;
  if bool_decide (status.1.1 = SessionReplaced)
  then effect (Emit "session:replaced_acknowledged"
         [("replaced_detected_at", NilZero.string_of_int (Z.to_int status.2))])
  else sql_ret tt.

(** [ensureSessionActive] *)
Definition ensureSessionActive : RT unit :=
  status <-! GetSessionStatus ;
  if bool_decide (status.1.1 = SessionReplaced) then sql_throw ErrSessionReplaced else sql_ret tt.

(** [stopCoordinatorsLocked] *)
Definition stopCoordinators : RT unit := fun _ t s =>
  (inl tt, t, mkRtState (rt_app s) ∅ (rt_trace s ++ (StopCoordinator <$> elements (rt_coords s)))).

(** The end of [markSessionReplaced]: everything stops and the user is told. *)
Definition stop_session (reason : string) (startedAt at_ : Z) : RT unit :=
  stopCoordinators ;;! effect StopNetwork ;;! effect (P2PStatus false "session replaced by newer device") ;;!
  effect (Emit "session:replaced" [("state", "replaced"); ("reason", reason);
    ("session_started_at", NilZero.string_of_int (Z.to_int startedAt));
    ("replaced_detected_at", NilZero.string_of_int (Z.to_int at_))]).

(** [markSessionReplaced]: the superseding session started at [startedAt] *)
Definition markSessionReplaced (reason : string) (startedAt : Z) : RT unit :=
  if negb (re_db re) then sql_ret tt
  else
    now <-! unix_milli_now ;
    existing <-! sql_try (app (readInt64Config sessionReplacedAtConfigKey)) ;
    let save :=
      saved <-! sql_try (app (Identity.SetConfig sessionReplacedAtConfigKey (encodeInt64Config now))) ;
      match saved with inl _ => stop_session reason startedAt now | inr _ => sql_ret tt end in
    match existing with
    | inl (v, true) => if v >? 0 then stop_session reason startedAt v else save
    | _ => save
    end.

(** ** Permissions *)

(** [isCreatorRole] *)
Definition isCreatorRole (role : string) : bool := EqualFold (TrimSpace role) Roster.GroupMemberRoleCreator.

(** [isAdminRole] *)
Definition isAdminRole (role : string) : bool :=
  let r := TrimSpace (ToLower role) in
  str_eqb r Roster.GroupMemberRoleCreator || str_eqb r Roster.GroupMemberRoleAdmin.

Definition ErrGroupNotFound : GoError := ErrSentinel "ERR_GROUP_NOT_FOUND: group not found".
Definition errInviteForbidden := "ERR_INVITE_REQUEST_FORBIDDEN".

(** [localGroupMember] *)
Definition localGroupMember (groupID : string) : RT (GroupMemberRecord * string) :=
  local <-! localPeerID ;
  with_db (rec <-! app (Roster.GetGroupMember groupID local) ; sql_ret (rec, local)).

Inductive groupPermission :=
| permissionManageAdmins | permissionManageInvites | permissionRemoveMembers | permissionChangeGroupSetting.

(** [requireGroupPermission] *)
Definition requireGroupPermission (groupID : string) (perm : groupPermission) : RT (GroupMemberRecord * string) :=
  rl <-! localGroupMember groupID ;
  if negb (str_eqb (gm_Status rl.1) Roster.GroupMemberStatusActive) then sql_throw ErrGroupNotFound
  else
    match perm with
    | permissionManageAdmins =>
        if isCreatorRole (gm_Role rl.1) then sql_ret rl
        else sql_throw (ErrText (errInviteForbidden +:+ ": only creator can manage admins"))
    | _ =>
        if isAdminRole (gm_Role rl.1) then sql_ret rl
        else sql_throw (ErrText (errInviteForbidden +:+ ": admin role required"))
    end.

(** [isLocalCreator] *)
Definition isLocalCreator (groupID : string) : RT bool :=
  rl <-! sql_try (localGroupMember groupID) ;
  match rl with
  | inr e => if errors_Is e ErrGroupNotFound || errors_Is e sql_ErrNoRows then sql_ret false else sql_throw e
  | inl (rec, _) =>
      sql_ret (str_eqb (gm_Status rec) Roster.GroupMemberStatusActive && isCreatorRole (gm_Role rec))
  end.

(** [authorizedPeerIDsFromRows] *)
Definition authorizedPeerIDsFromRows (rows : list GroupMemberRecord) : list peerID :=
  omap (fun row => match peer_Decode (TrimSpace (gm_PeerID row)) with
                   | Some pid => if str_eqb pid "" then None else Some pid
                   | None => None
                   end) rows.

(** The comparison of [listAuthorizedGroupMembersFromDB]: creators first, then
    by peer id *)
Definition authority_less (a b : GroupMemberRecord) : bool :=
  if negb (eqb (isCreatorRole (gm_Role a)) (isCreatorRole (gm_Role b))) then isCreatorRole (gm_Role a)
  else str_ltb (gm_PeerID a) (gm_PeerID b).

(** [listAuthorizedGroupMembersFromDB] on an open database *)
Definition listAuthorizedGroupMembersFromDB (groupID : string) : ASQL (list GroupMemberRecord) :=
  rows <-! Roster.ListAuthorizedCommitters groupID ;
  sql_ret (stable_sort authority_less rows).

(** [listAuthorizedGroupMembers] *)
Definition listAuthorizedGroupMembers (groupID : string) : RT (list GroupMemberRecord) :=
  with_db (app (listAuthorizedGroupMembersFromDB groupID)).

(** [authorizedCommittersForGroup], [authorizedGroupPeerIDs] *)
Definition authorizedGroupPeerIDs (groupID : string) : RT (list peerID) :=
  rows <-! listAuthorizedGroupMembers groupID ; sql_ret (authorizedPeerIDsFromRows rows).

(** [authorizedCommittersProvider]: the policy a coordinator is given.  It
    reads the tables as they are at the time of the call. *)
Definition authorizedCommittersProvider (env : SqlEnv) (history : nat -> AppDB) : SingleWriter.Provider :=
  fun now groupID _ _ =>
    match listAuthorizedGroupMembersFromDB groupID env now (history now) with
    | (inl rows, _, _) => inl (authorizedPeerIDsFromRows rows)
    | (inr e, _, _) => inr e
    end.

(** The rest of [isActiveGroupCreatorPeer] once the column is read: the
    column, else the roster, else the hint. *)
Definition creator_from (g p creator : string) : RT bool :=
  if negb (str_eqb (TrimSpace creator) "") then sql_ret (str_eqb (TrimSpace creator) p)
  else
    members <-! app (Roster.ListGroupMembers g [Roster.GroupMemberStatusActive]) ;
    if existsb (fun m => str_eqb (TrimSpace (gm_PeerID m)) p && str_eqb (TrimSpace (gm_Role m)) "creator") members
    then sql_ret true
    else
      hint <-! sql_try (app (InviteStore.GetGroupInviteCreatorHint g)) ;
      match hint with
      | inl hinted => sql_ret (str_eqb (TrimSpace hinted) p)
      | inr _ => sql_ret false
      end.

(** [isActiveGroupCreatorPeer] of [group_avatar_replicate.go] *)
Definition isActiveGroupCreatorPeer (groupID peerID : string) : RT bool :=
  let g := TrimSpace groupID in
  let p := TrimSpace peerID in
  if str_eqb g "" || str_eqb p "" then sql_ret false
  else if negb (re_db re) then sql_throw (ErrText "app not initialized")
  else
    creator <-! sql_try (app (Roster.GetGroupCreatorPeerID g)) ;
    match creator with
    | inl c => creator_from g p c
    | inr e => if errors_Is e sql_ErrNoRows then creator_from g p "" else sql_throw e
    end.

(** [isActiveGroupAuthorizedPeer] *)
Definition isActiveGroupAuthorizedPeer (groupID peerID : string) : RT bool :=
  let p := TrimSpace peerID in
  if str_eqb groupID "" || str_eqb p "" then sql_ret false
  else
    rec <-! with_db (app (Roster.GetGroupMember groupID p)) ;
    if str_eqb (gm_Status rec) Roster.GroupMemberStatusActive && isAdminRole (gm_Role rec) then sql_ret true
    else isActiveGroupCreatorPeer groupID p.

(** [canRemoveMemberByRole] *)
Definition canRemoveMemberByRole (actorRole targetRole : string) (samePeer : bool) : bool :=
  if samePeer || negb (isAdminRole actorRole) then false
  else if isCreatorRole targetRole then false
  else if EqualFold (TrimSpace targetRole) Roster.GroupMemberRoleAdmin then false
  else true.

End Methods.
End Runtime.
