(* ===== verification/Categories.v ===== *)
(** * Tables of channel categories and notifications

    [adapter/store/channel_categories.go]: the categories channels are filed
    under and the events applied.  [adapter/store/notifications.go]: what the
    user is told about. *)
From S2P Require Import Prelude GoStrings Sha256 Types SingleWriter Database.
From S2P Require Import Store HealStore AppDatabase Identity Roster.
From S2P Require Import InviteStore Replicated.

(** ** The table of categories *)

Module Categories.
Import Roster GroupMeta.

Definition ErrAssignCategoryNoMLSGroupRow : GoError := ErrSentinel "no mls_groups row (create/join group first)".

(** [ON CONFLICT(category_id) DO UPDATE]: who created it first and when stays. *)
Definition merge_category (new old : ChannelCategoryRecord) : ChannelCategoryRecord :=
  mkChannelCategory (cc_CategoryID old) (cc_Name new) (cc_SortOrder new)
    (if str_eqb (cc_CreatedBy old) "" then cc_CreatedBy new else cc_CreatedBy old)
    (cc_CreatedAt old) (cc_UpdatedAt new).

Definition put_category (rec : ChannelCategoryRecord) (d : AppDB) : AppDB :=
  set_adb_categories (<[cc_CategoryID rec := from_option (merge_category rec) rec (adb_categories d !! cc_CategoryID rec)]>
    (adb_categories d)) d.

(** [UpsertChannelCategory] *)
Definition UpsertChannelCategory (rec : ChannelCategoryRecord) : ASQL unit :=
  let id := TrimSpace (cc_CategoryID rec) in
  let name := TrimSpace (cc_Name rec) in
  if str_eqb id "" then sql_throw (ErrText "category ID is required")
  else if str_eqb name "" then sql_throw (ErrText "category name is required")
  else
    now <-! unix_now ;
    sql_wrap "UpsertChannelCategory" (sql_exec (put_category (mkChannelCategory id name (cc_SortOrder rec) (cc_CreatedBy rec)
      (if cc_CreatedAt rec <=? 0 then now else cc_CreatedAt rec) (if cc_UpdatedAt rec <=? 0 then now else cc_UpdatedAt rec)))).

(** [GetChannelCategory] *)
Definition GetChannelCategory (categoryID : string) : ASQL ChannelCategoryRecord :=
  let id := TrimSpace categoryID in
  if str_eqb id "" then sql_throw sql_ErrNoRows else sql_row (fun d => adb_categories d !! id).

(** [ORDER BY sort_order ASC, created_at ASC, category_id ASC] *)
Definition category_less (a b : ChannelCategoryRecord) : bool :=
  if negb (cc_SortOrder a =? cc_SortOrder b) then cc_SortOrder a <? cc_SortOrder b
  else if negb (cc_CreatedAt a =? cc_CreatedAt b) then cc_CreatedAt a <? cc_CreatedAt b
  else str_ltb (cc_CategoryID a) (cc_CategoryID b).

(** [ListChannelCategories] *)
Definition ListChannelCategories : ASQL (list ChannelCategoryRecord) :=
  sql_wrap "ListChannelCategories" (sql_query (fun d => stable_sort category_less (snd <$> map_to_list (adb_categories d)))).

(** [DeleteChannelCategory] *)
Definition DeleteChannelCategory (categoryID : string) : ASQL unit :=
  let id := TrimSpace categoryID in
  if str_eqb id "" then sql_throw (ErrText "category ID is required")
  else sql_wrap "DeleteChannelCategory" (sql_exec (fun d => set_adb_categories (delete id (adb_categories d)) d)).

(** [lifecycle_status = 'active' AND lower(group_type) = 'channel'] *)
Definition active_channel (row : GroupRow) : bool :=
  str_eqb (grow_lifecycle_status row) "active" && str_eqb (sql_lower (gr_GroupType (grow_rec row))) "channel".
Definition category_of (row : GroupRow) : string := gr_CategoryID (grow_rec row).

(** The rows of [mls_groups] a condition selects. *)
Definition channels (p : GroupRow -> bool) (d : AppDB) : list (string * GroupRow) :=
  List.filter (fun kr => active_channel kr.2 && p kr.2) (map_to_list (db_groups (adb_core d))).

(** [CountActiveChannelsInCategory] *)
Definition CountActiveChannelsInCategory (categoryID : string) : ASQL Z :=
  let id := TrimSpace categoryID in
  if str_eqb id "" then sql_ret 0
  else sql_wrap "CountActiveChannelsInCategory" (sql_query (fun d =>
    Z.of_nat (length (channels (fun row => str_eqb (category_of row) id) d)))).

Definition set_category (c : string) (row : GroupRow) : GroupRow :=
  let r := grow_rec row in
  mkGroupRow (mkGroupRecord (gr_GroupID r) (gr_GroupState r) (gr_Epoch r) (gr_TreeHash r) (gr_MyRole r)
    (gr_GroupType r) c (gr_DMCounterpartyPeerID r) (gr_CreatedAt r) (gr_UpdatedAt r))
    (grow_lifecycle_status row) (grow_left_at row).

(** [AssignCategoryToGroup] *)
Definition AssignCategoryToGroup (groupID categoryID : string) : ASQL unit :=
  let g := TrimSpace groupID in
  let c := TrimSpace categoryID in
  if str_eqb g "" then sql_throw (ErrText "group ID is required")
  else
    now <-! current_timestamp ;
    n <-! sql_wrap "AssignCategoryToGroup" (sql_update (update_group g now (set_category c) id)) ;
    if n =? 0 then sql_throw (ErrWrap "AssignCategoryToGroup" ErrAssignCategoryNoMLSGroupRow) else sql_ret tt.

(** The attempts of [AssignCategoryToGroupWhenReady], which sleeps between
    them. *)
Fixpoint assign_attempts (n : nat) (g c : string) (last : GoError) : ASQL unit :=
  match n with
  | O => sql_throw (ErrWrap "AssignCategoryToGroupWhenReady" last)
  | S n =>
      r <-! sql_try (AssignCategoryToGroup g c) ;
      match r with
      | inl _ => sql_ret tt
      | inr e => if errors_Is e ErrAssignCategoryNoMLSGroupRow then assign_attempts n g c e else sql_throw e
      end
  end.

(** [AssignCategoryToGroupWhenReady] *)
Definition AssignCategoryToGroupWhenReady (groupID categoryID : string) : ASQL unit :=
  let g := TrimSpace groupID in
  let c := TrimSpace categoryID in
  if str_eqb g "" then sql_throw (ErrText "group ID is required")
  else if str_eqb c "" then sql_throw (ErrText "category ID is required")
  else assign_attempts 15 g c (ErrText "").

(** [ListActiveChannelsWithoutCategory] *)
Definition ListActiveChannelsWithoutCategory : ASQL (list string) :=
  sql_wrap "ListActiveChannelsWithoutCategory" (sql_query (fun d => fst <$> channels (fun row => sql_trim_empty (category_of row)) d)).

(** [ListChannelAssignments] *)
Definition ListChannelAssignments : ASQL (list (string * string)) :=
  sql_wrap "ListChannelAssignments" (sql_query (fun d =>
    (fun kr : string * GroupRow => (kr.1, category_of kr.2)) <$> channels (fun row => sql_nonblank (category_of row)) d)).

(** [MarkCategorySyncEventApplied]: whether the event had been applied *)
Definition MarkCategorySyncEventApplied (eventID : string) : ASQL bool :=
  let id := TrimSpace eventID in
  if str_eqb id "" then sql_throw (ErrText "event ID is required")
  else
    now <-! unix_now ;
    n <-! sql_wrap "MarkCategorySyncEventApplied" (sql_update (fun d =>
      match adb_category_events d !! id with
      | Some _ => (d, 0)
      | None => (set_adb_category_events (<[id := now]> (adb_category_events d)) d, 1)
      end)) ;
    sql_ret (n =? 0).
End Categories.

(** ** Notifications *)

Module NotificationStore.
(** [InsertNotification]: the id is the primary key. *)
Definition InsertNotification (n : Notification) : ASQL unit :=
  if str_eqb (nt_ID n) "" then sql_throw (ErrText "notification ID is required")
  else
    now <-! sql_time ;
    HealStore.sql_exec_unique "notifications.id" (fun d => existsb (fun m => str_eqb (nt_ID m) (nt_ID n)) (adb_notifications d))
      (fun d => set_adb_notifications (adb_notifications d ++ [mkNotification (nt_ID n) (nt_Type n) (nt_GroupID n) (nt_ActorPeerID n)
        (nt_TargetID n) (nt_Content n) (nt_IsRead n) (if nt_CreatedAt n =? time_zero then now else nt_CreatedAt n)]) d).

(** [ListNotifications]; a negative limit is none *)
Definition ListNotifications (limit offset : Z) : ASQL (list Notification) :=
  sql_query (fun d =>
    let rows := drop (Z.to_nat offset) (stable_sort (fun a b => nt_CreatedAt a >? nt_CreatedAt b) (adb_notifications d)) in
    if limit <? 0 then rows else take (Z.to_nat limit) rows).

Definition read_one (n : Notification) : Notification :=
  mkNotification (nt_ID n) (nt_Type n) (nt_GroupID n) (nt_ActorPeerID n) (nt_TargetID n) (nt_Content n) true (nt_CreatedAt n).

(** [MarkNotificationRead], [MarkAllNotificationsRead], [GetUnreadNotificationCount] *)
Definition MarkNotificationRead (id : string) : ASQL unit :=
  sql_exec (fun d => set_adb_notifications ((fun n => if str_eqb (nt_ID n) id then read_one n else n) <$> adb_notifications d) d).
Definition MarkAllNotificationsRead : ASQL unit :=
  sql_exec (fun d => set_adb_notifications (read_one <$> adb_notifications d) d).
Definition GetUnreadNotificationCount : ASQL Z :=
  sql_query (fun d => Z.of_nat (length (List.filter (fun n => negb (nt_IsRead n)) (adb_notifications d)))).

(** [GetMessageSender]: [stored_messages] has no column [message_id], neither
    in its creation nor in the migrations of [db.go], so the statement does
    not compile. *)
Definition GetMessageSender (messageID : string) : ASQL string :=
  sql_query (fun _ => tt) ;;! sql_throw (ErrText "no such column: message_id").

(** [DeleteOldNotifications]: the column holds the text the driver makes of a
    time and is compared, as text, with that of [datetime('now', ...)];
    [old] is what that comparison answers. *)
Definition DeleteOldNotifications (old : Notification -> bool) : ASQL unit :=
  sql_exec (fun d => set_adb_notifications (List.filter (fun n => negb (old n)) (adb_notifications d)) d).
End NotificationStore.
