(* ===== verification/CategoryService.v ===== *)
(** * Channel categories and notifications

    [service/channel_categories.go]: managing categories and exchanging them
    with peers.  [service/notifications.go]: telling the user about messages.

    A frame that arrives is handed to the handler as what reading it gave;
    what is sent is an output. *)
From Stdlib Require Import DecimalString.
From S2P Require Import Prelude GoStrings Sha256 Types SingleWriter Database.
From S2P Require Import Store HealStore AppDatabase Identity Roster.
From S2P Require Import InviteStore Replicated Wire Runtime Categories.

(** ** The service *)

Module CategoryService.
Section Methods.
Context {PC : PeerCodec} (re : RtEnv).
(** the connected peers, [Host.Network().Peers()] *)
Variable peers : list peerID.
Abbreviation app := Runtime.app.

Definition defaultChannelCategoryID := "cat-general".
Definition local_peer : string := from_option peer_String "" (re_node re).

Definition categories_changed (fields : list (string * string)) : RT unit :=
  Runtime.effect (Emit "channel_categories:changed" fields).

(** [newCategoryEventID] *)
Definition newCategoryEventID (prefix entityID : string) : RT string :=
  now <-! sql_time ;
  sql_ret (prefix +:+ ":" +:+ TrimSpace entityID +:+ ":" +:+ NilZero.string_of_int (Z.to_int now)).

Fixpoint send_all (to : list peerID) (f : Frame) : RT unit :=
  match to with [] => sql_ret tt | p :: to => Runtime.effect (Send p f) ;;! send_all to f end.

(** [broadcastChannelCategoryFrame]: a goroutine per connected peer *)
Definition broadcastChannelCategoryFrame (frame : ChannelCategorySyncFrameV1) : RT unit :=
  match re_node re with None => sql_ret tt | Some _ => send_all peers (FCategory frame) end.

Fixpoint assign_default (gs : list string) : RT unit :=
  match gs with
  | [] => sql_ret tt
  | g :: gs => sql_ignore (app (Categories.AssignCategoryToGroupWhenReady g defaultChannelCategoryID)) ;;! assign_default gs
  end.

(** [ensureChannelCategoryBaselineLocked] on an open database *)
Definition ensureChannelCategoryBaselineLocked : RT unit :=
  rows <-! app Categories.ListChannelCategories ;
  (if is_empty rows then
     now <-! unix_now ;
     app (Categories.UpsertChannelCategory (mkChannelCategory defaultChannelCategoryID "General" 0 local_peer now now))
   else sql_ret tt) ;;!
  legacy <-! app Categories.ListActiveChannelsWithoutCategory ;
  assign_default legacy.

(** [ListChannelCategories] *)
Definition ListChannelCategories : RT (list ChannelCategoryRecord) :=
  Runtime.with_db re (ensureChannelCategoryBaselineLocked ;;! app Categories.ListChannelCategories).

(** [newCategoryID]: the six bytes the random source gives *)
Definition newCategoryID (rnd : option bytes) : result string :=
  match rnd with
  | None => inr (ErrText "generate category id")
  | Some b => inl ("cat-" +:+ hex_EncodeToString b)
  end.

Definition wire_of (rec : ChannelCategoryRecord) : ChannelCategoryWire :=
  mkCategoryWire (cc_CategoryID rec) (cc_Name rec) (cc_SortOrder rec) (cc_UpdatedAt rec) (cc_CreatedBy rec).

(** [CreateChannelCategory] *)
Definition CreateChannelCategory (rnd : option bytes) (name : string) : RT ChannelCategoryRecord :=
  let name := TrimSpace name in
  if str_eqb name "" then sql_throw (ErrText "category name is required")
  else
    Runtime.ensureSessionActive re ;;!
    Runtime.with_db re (
      ensureChannelCategoryBaselineLocked ;;!
      match newCategoryID rnd with
      | inr e => sql_throw e
      | inl id =>
          now <-! unix_now ;
          let rec := mkChannelCategory id name now local_peer now now in
          app (Categories.UpsertChannelCategory rec) ;;!
          categories_changed [("reason", "created"); ("category_id", id)] ;;!
          ev <-! newCategoryEventID "upsert" id ;
          broadcastChannelCategoryFrame (mkCategoryFrame 1 "upsert_category" ev (Some (wire_of rec)) "" "" [] []) ;;!
          sql_ret rec
      end).

(** [DeleteChannelCategory] *)
Definition DeleteChannelCategory (categoryID : string) : RT unit :=
  let id := TrimSpace categoryID in
  if str_eqb id "" then sql_throw (ErrText "category ID is required")
  else
    Runtime.ensureSessionActive re ;;!
    Runtime.with_db re (
      count <-! app (Categories.CountActiveChannelsInCategory id) ;
      if count >? 0 then sql_throw (ErrText "ERR_CATEGORY_NOT_EMPTY: category still has active channels")
      else
        app (Categories.DeleteChannelCategory id) ;;!
        categories_changed [("reason", "deleted"); ("category_id", id)] ;;!
        ev <-! newCategoryEventID "delete" id ;
        broadcastChannelCategoryFrame (mkCategoryFrame 1 "delete_category" ev None id "" [] [])).

(** [AssignChannelCategory] *)
Definition AssignChannelCategory (channelID categoryID : string) : RT unit :=
  let ch := TrimSpace channelID in
  let id := TrimSpace categoryID in
  if str_eqb ch "" then sql_throw (ErrText "channel ID is required")
  else if str_eqb id "" then sql_throw (ErrText "category ID is required")
  else
    Runtime.ensureSessionActive re ;;!
    Runtime.with_db re (
      sql_wrap "ERR_CATEGORY_NOT_FOUND" (app (Categories.GetChannelCategory id)) ;;!
      app (Categories.AssignCategoryToGroupWhenReady ch id) ;;!
      categories_changed [("reason", "assigned"); ("category_id", id); ("channel_id", ch)] ;;!
      ev <-! newCategoryEventID "assign" ch ;
      broadcastChannelCategoryFrame (mkCategoryFrame 1 "assign_channel" ev None id ch [] [])).

(** The categories and assignments of a snapshot, as both readers of one
    store them: whether anything was stored. *)
Definition record_of (w : ChannelCategoryWire) : ChannelCategoryRecord :=
  mkChannelCategory (cw_CategoryID w) (cw_Name w) (cw_SortOrder w) (cw_CreatedBy w) (cw_UpdatedAt w) (cw_UpdatedAt w).

Fixpoint store_categories (items : list ChannelCategoryWire) (changed : bool) : RT bool :=
  match items with
  | [] => sql_ret changed
  | w :: items =>
      if str_eqb (TrimSpace (cw_CategoryID w)) "" || str_eqb (TrimSpace (cw_Name w)) "" then store_categories items changed
      else
        r <-! sql_try (app (Categories.UpsertChannelCategory (record_of w))) ;
        store_categories items (match r with inl _ => true | inr _ => changed end)
  end.
Fixpoint store_assignments (items : list ChannelAssignmentWire) (changed : bool) : RT bool :=
  match items with
  | [] => sql_ret changed
  | a :: items =>
      if str_eqb (TrimSpace (aw_ChannelID a)) "" || str_eqb (TrimSpace (aw_CategoryID a)) "" then store_assignments items changed
      else
        r <-! sql_try (app (Categories.AssignCategoryToGroupWhenReady (aw_ChannelID a) (aw_CategoryID a))) ;
        store_assignments items (match r with inl _ => true | inr _ => changed end)
  end.
Definition store_snapshot (frame : ChannelCategorySyncFrameV1) (reason : string) : RT unit :=
  changed <-! store_categories (cf_Categories frame) false ;
  changed <-! store_assignments (cf_Assignments frame) changed ;
  if changed : bool then categories_changed [("reason", reason)] else sql_ret tt.

(** What [request_snapshot] is answered with *)
Definition snapshot : RT (option ChannelCategorySyncFrameV1) :=
  cats <-! sql_try (app Categories.ListChannelCategories) ;
  match cats with
  | inr _ => sql_ret None
  | inl cats =>
      as_ <-! sql_try (app Categories.ListChannelAssignments) ;
      sql_ret (match as_ with
               | inr _ => None
               | inl as_ => Some (mkCategoryFrame 1 "snapshot" "" None "" "" (wire_of <$> cats)
                   ((fun a : string * string => mkAssignmentWire a.1 a.2) <$> as_))
               end)
  end.

(** The effect of a change a peer announces, applied once per event id; an
    assignment is stored before its id is. *)
Definition apply_change (frame : ChannelCategorySyncFrameV1) : RT unit :=
  let once (m : RT unit) : RT unit :=
    already <-! sql_try (app (Categories.MarkCategorySyncEventApplied (cf_EventID frame))) ;
    match already with inl false => m | _ => sql_ret tt end in
  let done_ := categories_changed [("reason", "peer_sync")] in
  if str_eqb (TrimSpace (cf_EventID frame)) "" then sql_ret tt
  else if str_eqb (cf_Type frame) "assign_channel" then
    r <-! sql_try (app (Categories.AssignCategoryToGroupWhenReady (cf_ChannelID frame) (cf_CategoryID frame))) ;
    match r with inr _ => sql_ret tt | inl _ => once done_ end
  else if str_eqb (cf_Type frame) "upsert_category" then
    once (match cf_Category frame with
          | None => sql_ret tt
          | Some w => sql_ignore (app (Categories.UpsertChannelCategory (record_of w))) ;;! done_
          end)
  else once (sql_ignore (app (Categories.DeleteChannelCategory (cf_CategoryID frame))) ;;! done_).

(** [handleChannelCategorySyncStream]: [verified] is what the authentication
    protocol says about the remote peer; the answer is what is written *)
Definition handleChannelCategorySyncStream (verified : bool) (input : result ChannelCategorySyncFrameV1)
  : RT (option ChannelCategorySyncFrameV1) :=
  let silent (m : RT unit) := m ;;! sql_ret None in
  match re_node re, input with
  | Some _, inl frame =>
      if negb (re_db re) || negb verified || negb (cf_V frame =? 1) then sql_ret None
      else if str_eqb (cf_Type frame) "request_snapshot" then snapshot
      else if str_eqb (cf_Type frame) "snapshot" then silent (store_snapshot frame "snapshot_sync")
      else if existsb (str_eqb (cf_Type frame)) ["assign_channel"; "upsert_category"; "delete_category"]
      then silent (apply_change frame)
      else sql_ret None
  | _, _ => sql_ret None
  end.

(** [requestChannelCategorySnapshot]: [answer] is what the stream gave *)
Definition requestChannelCategorySnapshot (answer : result ChannelCategorySyncFrameV1) : RT unit :=
  match re_node re with
  | None => sql_throw (ErrText "p2p node not ready")
  | Some _ =>
      match answer with
      | inr e => sql_throw e
      | inl resp =>
          if negb (cf_V resp =? 1) || negb (str_eqb (cf_Type resp) "snapshot")
          then sql_throw (ErrText "invalid category snapshot response")
          else Runtime.with_db re (store_snapshot resp "snapshot_pull")
      end
  end.
End Methods.
End CategoryService.

(** ** Notifications *)

(** What [encoding/json] makes of the content of a message: as the struct of
    [processNotificationsForMessage], and as a map, of which the strings under
    [body] and [content] are read. *)
Record MessagePayload := mkPayload {
  mp_Type : string;
  mp_Mentions : list string;
  mp_PostID : string;
  mp_ParentID : string;
  mp_ReplyToComment : string;
}.
Class PayloadJSON := {
  parse_payload : bytes -> option MessagePayload;
  parse_texts : bytes -> option (option string * option string);
}.

Module Notifications.
Section Methods.
Context {PC : PeerCodec} {PJ : PayloadJSON} (re : RtEnv).
Abbreviation app := Runtime.app.

Definition NotificationTypeMention := "mention".
Definition NotificationTypeReply := "reply".
Definition NotificationTypeGroupAdd := "group_add".
Definition NotificationTypeInviteRequest := "invite_request".
Definition NotificationTypeInviteApproved := "invite_approved".
Definition NotificationTypeInviteRejected := "invite_rejected".

(** [contentPreview] *)
Definition contentPreview (raw : string) : string :=
  let s := TrimSpace raw in
  if str_eqb s "" then ""
  else
    let s := if str_eqb (bytes_str (take 1 (str_bytes s))) "{" then
               match parse_texts (str_bytes s) with
               | Some (Some b, _) => b
               | Some (None, c) => default s c
               | None => s
               end
             else s in
    if (100 <? length (str_bytes s))%nat then bytes_str (take 97 (str_bytes s)) +:+ "..." else s.

(** [insertNotification]: the id is a hash of what the notification is about,
    so the same notification is not inserted twice. *)
Definition notification_id (ntype groupID actorID targetID : string) : string :=
  hex_EncodeToString (take 16 (sha256_sum (str_bytes (ntype +:+ "-" +:+ groupID +:+ "-" +:+ actorID +:+ "-" +:+ targetID)))).
Definition insertNotification (ntype groupID actorID targetID content : string) : RT unit :=
  if negb (re_db re) then sql_ret tt
  else
    let id := notification_id ntype groupID actorID targetID in
    now <-! sql_time ;
    r <-! sql_try (app (NotificationStore.InsertNotification
           (mkNotification id ntype groupID actorID targetID content false now))) ;
    match r with
    | inr _ => sql_ret tt
    | inl _ =>
        name <-! sql_try (app (Roster.GetPeerDisplayName actorID)) ;
        let actorName := match name with inl n => if str_eqb n "" then actorID else n | inr _ => actorID end in
        Runtime.effect (Emit "notification:new" [("id", id); ("type", ntype); ("group_id", groupID); ("actor_id", actorID);
          ("actor_name", actorName); ("content", contentPreview content)])
    end.

(** The text shown for a post, comment or reply: the first of the two that is
    not empty *)
Definition preview_source (content : bytes) (p : MessagePayload) : string :=
  let texts := default (None, None) (parse_texts content) in
  if existsb (str_eqb (mp_Type p)) ["post"; "comment"; "reply"] then
    if negb (str_eqb (default "" texts.1) "") then default "" texts.1
    else if negb (str_eqb (default "" texts.2) "") then default "" texts.2
    else bytes_str content
  else bytes_str content.

Definition parent_of (p : MessagePayload) : string :=
  if negb (str_eqb (mp_ReplyToComment p) "") then mp_ReplyToComment p
  else if negb (str_eqb (mp_ParentID p) "") then mp_ParentID p else mp_PostID p.

(** [processNotificationsForMessage] *)
Definition processNotificationsForMessage (msg : StoredMessage) : RT unit :=
  match re_node re with
  | None => sql_ret tt
  | Some local =>
      if str_eqb (sm_SenderID msg) local then sql_ret tt
      else
        let notify ty content := insertNotification ty (sm_GroupID msg) (peer_String (sm_SenderID msg)) (sm_MessageID msg) content in
        match parse_payload (sm_Content msg) with
        | Some p =>
            let content := preview_source (sm_Content msg) p in
            reply <-! (if str_eqb (parent_of p) "" || negb (re_db re) then sql_ret false
                       else
                         sender <-! sql_try (app (NotificationStore.GetMessageSender (parent_of p))) ;
                         sql_ret (match sender with inl s => str_eqb s (peer_String local) | inr _ => false end)) ;
            if existsb (str_eqb (peer_String local)) (mp_Mentions p) then notify NotificationTypeMention content
            else if reply : bool then notify NotificationTypeReply content
            else sql_ret tt
        | None =>
            let content := bytes_str (sm_Content msg) in
            if negb (re_db re) then sql_ret tt
            else
              identity <-! sql_try Runtime.GetMLSIdentity ;
              match identity with
              | inl i => if negb (str_eqb (mi_DisplayName i) "") && Contains content ("@" +:+ mi_DisplayName i)
                         then notify NotificationTypeMention content else sql_ret tt
              | inr _ => sql_ret tt
              end
        end
  end.
End Methods.
End Notifications.
