(* ===== verification/Auth.v ===== *)
(** * The authentication handshake

    [adapter/p2p/session_claim.go], [auth_protocol.go] and [gater.go]: two
    nodes exchange tokens that the root key has signed, with a signed claim of
    the session; who passes is in [verifiedPeers], who fails a cryptographic
    check is blocked for half an hour.  Also [buildLocalAuthHandshake] of
    [service/session.go].

    A handshake is a goroutine over a stream.  Its code between two operations
    on the stream or on the shared map is one step; steps of different
    handshakes interleave. *)
From S2P Require Import Prelude GoStrings Sha256 Types SingleWriter.
From S2P Require Import Database Store HealStore AppDatabase Identity.
From S2P Require Import Roster Replicated Runtime.

(** ** Session claims *)

(** [SessionClaim], [sessionClaimPayload], [AuthHandshakeMsg], [verifiedPeerState] *)
Record SessionClaim := mkClaim { sc_StartedAt : Z; sc_Nonce : bytes; sc_Signature : bytes }.
Record sessionClaimPayload := mkClaimPayload { cp_PeerID : string; cp_StartedAt : Z; cp_Nonce : bytes }.
Record AuthHandshakeMsg := mkHandshake {
  hs_Token : option InvitationToken;
  hs_Session : SessionClaim;
  hs_Error : string;
  hs_SupersedingSession : SessionClaim;
  hs_ProfileWireJSON : bytes;
  hs_ProfileSignature : bytes;
}.
Record verifiedPeerState := mkVerified {
  vp_Token : InvitationToken;
  vp_SessionStarted : Z;
  vp_Session : SessionClaim;
}.
Definition no_claim : SessionClaim := mkClaim 0 [] [].

#[export] Instance SessionClaim_eq_dec : EqDecision SessionClaim.
Proof. solve_decision. Defined.
#[export] Instance AuthHandshakeMsg_eq_dec : EqDecision AuthHandshakeMsg.
Proof. solve_decision. Defined.

(** [encoding/json] on them *)
Class HandshakeJSON := {
  claim_Marshal : sessionClaimPayload -> bytes;
  handshake_Marshal : AuthHandshakeMsg -> bytes;
  handshake_Unmarshal : bytes -> option AuthHandshakeMsg;
  token_Unmarshal : bytes -> option InvitationToken;
}.
Definition valid_handshake (hs : AuthHandshakeMsg) : Prop :=
  (exists t, hs_Token hs = Some t /\ valid_token t) /\ valid_text (hs_Error hs).
Class HandshakeJSONLaws `{HandshakeJSON} := {
  handshake_round_trip : forall hs, valid_handshake hs -> handshake_Unmarshal (handshake_Marshal hs) = Some hs;
  handshake_nonempty : forall hs, handshake_Marshal hs <> [];
}.

Module Auth.
Section Protocol.
Context {PC : PeerCodec} {ED : Ed25519} {TJ : TokenJSON} {HJ : HandshakeJSON}.

(** [normalizeEd25519PrivateKey] *)
Definition normalizeEd25519PrivateKey (signingKey : bytes) : result bytes :=
  if (length signingKey =? 32)%nat then inl (ed_NewKeyFromSeed signingKey)
  else if (length signingKey =? 64)%nat then inl signingKey
  else inr (ErrText "invalid ed25519 private key size").

(** [BuildSessionClaim] with the random nonce *)
Definition BuildSessionClaim (nonce signingKey : bytes) (peerID : string) (startedAt : Z) : result SessionClaim :=
  match normalizeEd25519PrivateKey signingKey with
  | inr e => inr e
  | inl priv =>
      match ed25519_Sign priv (claim_Marshal (mkClaimPayload peerID startedAt nonce)) with
      | inl sig => inl (mkClaim startedAt nonce sig)
      | inr e => inr e
      end
  end.

(** [VerifySessionClaim] *)
Definition VerifySessionClaim (claim : SessionClaim) (tokenPeerID : string) (tokenPubKey : bytes) : result unit :=
  if sc_StartedAt claim <=? 0 then inr (ErrText "invalid session started_at")
  else if (length (sc_Nonce claim) <? 8)%nat then inr (ErrText "invalid session nonce")
  else if is_empty (sc_Signature claim) then inr (ErrText "missing session signature")
  else if negb (length tokenPubKey =? 32)%nat then inr (ErrText "invalid token public key length")
  else if ed_Verify tokenPubKey (claim_Marshal (mkClaimPayload tokenPeerID (sc_StartedAt claim) (sc_Nonce claim)))
            (sc_Signature claim)
  then inl tt else inr (ErrText "invalid session signature").

(** [buildLocalAuthHandshake] of [session.go]; the token is filled in later. *)
Definition buildLocalAuthHandshake (nonce : bytes) (tokenPeerID : string) : ASQL AuthHandshakeMsg :=
  identity <-! sql_wrap "load MLS identity for session claim" Identity.GetMLSIdentity ;
  startedAt <-! Runtime.getOrCreateSessionStartedAt ;
  match BuildSessionClaim nonce (mi_SigningKeyPrivate identity) tokenPeerID startedAt with
  | inr e => sql_throw (ErrWrap "build session claim" e)
  | inl claim => sql_ret (mkHandshake None claim "" no_claim [] [])
  end.

(** ** The wire *)

Definition maxTokenBytes : Z := 64 * 1024.

Definition put_be32 (v : Z) : bytes := drop 4 (Runtime.put_be64 (u32 v)).
Definition be32 (b : bytes) : Z := Runtime.be64 b.

(** [writeHandshake]: the bytes written *)
Definition writeHandshake (hs : option AuthHandshakeMsg) : result bytes :=
  match hs with
  | Some h =>
      match hs_Token h with
      | Some _ => inl (put_be32 (Z.of_nat (length (handshake_Marshal h))) ++ handshake_Marshal h)
      | None => inr (ErrText "empty auth handshake")
      end
  | None => inr (ErrText "empty auth handshake")
  end.

(** [readHandshake], on what the stream holds *)
Definition readHandshake (stream : bytes) : result AuthHandshakeMsg :=
  if (length stream <? 4)%nat then inr (ErrText "read length prefix")
  else
    let len := be32 (take 4 stream) in
    if (len =? 0) || (len >? maxTokenBytes) then inr (ErrText "invalid token length")
    else
      let rest := drop 4 stream in
      if Z.of_nat (length rest) <? len then inr (ErrText "read token data")
      else
        let data := take (Z.to_nat len) rest in
        let legacy :=
          match token_Unmarshal data with
          | Some token => inl (mkHandshake (Some token) no_claim "" no_claim [] [])
          | None => inr (ErrText "unmarshal handshake/token")
          end in
        match handshake_Unmarshal data with
        | Some hs => match hs_Token hs with Some _ => inl hs | None => legacy end
        | None => legacy
        end.

(** ** State *)

(** What a handshake writes, closes and reports.  The callbacks are set before
    the protocol starts, as the runtime does, so the nil checks before their
    calls pass. *)
Inductive AuthEffect :=
| Written (peer : peerID) (hs : AuthHandshakeMsg)
| ClosedOthers (peer : peerID)
| ClosedPeer (peer : peerID)
| SessionReplacedBy (claim : SessionClaim)
| ProfileAnnex (peer : peerID) (token : InvitationToken) (wire sig : bytes)
| PeerVerified (peer : peerID).

(** [AuthProtocol] and its gater; [au_crashed] after a panic. *)
Record AuthProtocol := mkAuth {
  au_localToken : option InvitationToken;
  au_localHandshake : option AuthHandshakeMsg;
  au_root : bytes;
  au_verified : gmap peerID verifiedPeerState;
  au_handshaking : gset peerID;
  au_blacklist : gmap peerID time;
  au_trace : list AuthEffect;
  au_crashed : bool;
}.

(** [NewAuthProtocol] *)
Definition NewAuthProtocol (localToken : option InvitationToken) (root : bytes) (hs : option AuthHandshakeMsg) : AuthProtocol :=
  mkAuth localToken hs root ∅ ∅ ∅ [] false.

Definition set_verified (v : gmap peerID verifiedPeerState) (a : AuthProtocol) : AuthProtocol :=
  mkAuth (au_localToken a) (au_localHandshake a) (au_root a) v (au_handshaking a) (au_blacklist a) (au_trace a) (au_crashed a).
Definition set_handshaking (v : gset peerID) (a : AuthProtocol) : AuthProtocol :=
  mkAuth (au_localToken a) (au_localHandshake a) (au_root a) (au_verified a) v (au_blacklist a) (au_trace a) (au_crashed a).
Definition effects (l : list AuthEffect) (a : AuthProtocol) : AuthProtocol :=
  mkAuth (au_localToken a) (au_localHandshake a) (au_root a) (au_verified a) (au_handshaking a) (au_blacklist a)
    (au_trace a ++ l) (au_crashed a).
Definition crash (a : AuthProtocol) : AuthProtocol :=
  mkAuth (au_localToken a) (au_localHandshake a) (au_root a) (au_verified a) (au_handshaking a) (au_blacklist a)
    (au_trace a) true.

(** [IsVerified], [GetVerifiedToken] *)
Definition IsVerified (id : peerID) (a : AuthProtocol) : bool := bool_decide (is_Some (au_verified a !! id)).
Definition GetVerifiedToken (id : peerID) (a : AuthProtocol) : option InvitationToken := vp_Token <$> au_verified a !! id.

(** [SetLocalProfileAnnex] *)
Definition SetLocalProfileAnnex (wire sig : bytes) (a : AuthProtocol) : AuthProtocol :=
  match au_localHandshake a with
  | None => a
  | Some hs =>
      let none := is_empty wire || is_empty sig in
      mkAuth (au_localToken a)
        (Some (mkHandshake (hs_Token hs) (hs_Session hs) (hs_Error hs) (hs_SupersedingSession hs)
                 (if none then [] else wire) (if none then [] else sig)))
        (au_root a) (au_verified a) (au_handshaking a) (au_blacklist a) (au_trace a) (au_crashed a)
  end.

(** ** The gater *)

Definition blacklistTTL : Z := 30 * Minute.

(** [Blacklist] *)
Definition Blacklist (now : time) (id : peerID) (a : AuthProtocol) : AuthProtocol :=
  mkAuth (au_localToken a) (au_localHandshake a) (au_root a) (au_verified a) (au_handshaking a)
    (<[id := now + blacklistTTL]> (au_blacklist a)) (au_trace a) (au_crashed a).

(** [isBlacklisted], which drops an expired entry *)
Definition isBlacklisted (now : time) (id : peerID) (a : AuthProtocol) : bool * AuthProtocol :=
  match au_blacklist a !! id with
  | None => (false, a)
  | Some until =>
      if now >? until
      then (false, mkAuth (au_localToken a) (au_localHandshake a) (au_root a) (au_verified a) (au_handshaking a)
                     (delete id (au_blacklist a)) (au_trace a) (au_crashed a))
      else (true, a)
  end.

(** [InterceptPeerDial], [InterceptSecured], [InterceptUpgraded] *)
Definition InterceptSecured (now : time) (id : peerID) (a : AuthProtocol) : bool * AuthProtocol :=
  let r := isBlacklisted now id a in (negb r.1, r.2).

(** ** Checks *)

Inductive Check (A : Type) := Passed (x : A) | Refused (reason : GoError) | Panic.
#[global] Arguments Passed {A} _.
#[global] Arguments Refused {A} _.
#[global] Arguments Panic {A}.

(** [verifyPeerToken] *)
Definition verifyPeerToken (now : time) (token : option InvitationToken) (pid : peerID) (a : AuthProtocol)
  : Check InvitationToken :=
  match Admin.VerifyToken token (au_root a), token with
  | inr _, _ => Panic
  | inl true, Some t =>
      if now / Second >? tk_ExpiresAt t then Refused (ErrText "token expired")
      else if negb (str_eqb (tk_PeerID t) (peer_String pid)) then Refused (ErrText "PeerID mismatch")
      else Passed t
  | _, _ => Refused (ErrText "invalid Admin signature")
  end.

(** The claim, which a legacy node does not send. *)
Definition check_claim (claim : SessionClaim) (t : InvitationToken) : Check unit :=
  if sc_StartedAt claim >? 0 then
    match VerifySessionClaim claim (tk_PeerID t) (tk_PublicKey t) with
    | inl _ => Passed tt
    | inr e => Refused e
    end
  else Passed tt.

(** [verifySupersedingLocalSession] *)
Definition verifySupersedingLocalSession (claim : SessionClaim) (a : AuthProtocol) : bool :=
  match au_localToken a, au_localHandshake a with
  | Some tok, Some hs =>
      if sc_StartedAt claim <=? sc_StartedAt (hs_Session hs) then false
      else match VerifySessionClaim claim (tk_PeerID tok) (tk_PublicKey tok) with inl _ => true | inr _ => false end
  | _, _ => false
  end.

(** [acceptSession]: the superseding claim when the session is stale *)
Definition acceptSession (pid : peerID) (startedAt : Z) (a : AuthProtocol) : option SessionClaim * AuthProtocol :=
  match au_verified a !! pid with
  | Some existing =>
      if startedAt <? vp_SessionStarted existing then (Some (vp_Session existing), a)
      else (None, effects [ClosedOthers pid] a)
  | None => (None, effects [ClosedOthers pid] a)
  end.

(** [staleSessionResponse], which reads through the pointer to the local
    handshake *)
Definition staleSessionResponse (superseding : SessionClaim) (a : AuthProtocol) : option AuthHandshakeMsg :=
  (fun hs => mkHandshake (hs_Token hs) (hs_Session hs) "session_replaced" superseding
               (hs_ProfileWireJSON hs) (hs_ProfileSignature hs)) <$> au_localHandshake a.

(** [rejectSecurity] *)
Definition rejectSecurity (now : time) (pid : peerID) (a : AuthProtocol) : AuthProtocol :=
  effects [ClosedPeer pid] (Blacklist now pid a).

(** [verifiedPeers.Store] and the two callbacks *)
Definition store_verified (pid : peerID) (hs : AuthHandshakeMsg) (t : InvitationToken) (a : AuthProtocol) : AuthProtocol :=
  effects ((if is_empty (hs_ProfileWireJSON hs) || is_empty (hs_ProfileSignature hs) then []
            else [ProfileAnnex pid t (hs_ProfileWireJSON hs) (hs_ProfileSignature hs)]) ++ [PeerVerified pid])
    (set_verified (<[pid := mkVerified t (sc_StartedAt (hs_Session hs)) (hs_Session hs)]> (au_verified a)) a).

(** ** Handshakes, step by step *)

(** Where a handshake is: before [acceptSession], before the answer is
    written, before the result is stored; an outbound one opens the stream and
    writes, then waits for the answer first. *)
Inductive Thread :=
| InAccept (pid : peerID) (hs : AuthHandshakeMsg) (t : InvitationToken)
| InWrite (pid : peerID) (hs : AuthHandshakeMsg) (t : InvitationToken)
| InStore (pid : peerID) (hs : AuthHandshakeMsg) (t : InvitationToken)
| OutOpen (pid : peerID)
| OutWait (pid : peerID)
| OutAccept (pid : peerID) (hs : AuthHandshakeMsg) (t : InvitationToken)
| OutStore (pid : peerID) (hs : AuthHandshakeMsg) (t : InvitationToken).

(** The token and the claim, then on to [next]. *)
Definition claim_then (now : time) (pid : peerID) (hs : AuthHandshakeMsg) (t : InvitationToken)
  (next : peerID -> AuthHandshakeMsg -> InvitationToken -> Thread) (a : AuthProtocol) : option Thread * AuthProtocol :=
  match check_claim (hs_Session hs) t with
  | Passed _ => (Some (next pid hs t), a)
  | Refused _ => (None, rejectSecurity now pid a)
  | Panic => (None, crash a)
  end.

(** [handleIncoming] up to the check of the claim: [stream] is what the peer
    sent, or nothing after an I/O error. *)
Definition in_read (now : time) (pid : peerID) (stream : option bytes) (a : AuthProtocol) : option Thread * AuthProtocol :=
  match stream with
  | None => (None, a)
  | Some data =>
      match readHandshake data with
      | inr _ => (None, a)
      | inl hs =>
          match verifyPeerToken now (hs_Token hs) pid a with
          | Panic => (None, crash a)
          | Refused _ => (None, rejectSecurity now pid a)
          | Passed t => claim_then now pid hs t InAccept a
          end
      end
  end.

(** A message is written, when it can be marshalled and the stream works. *)
Definition written (pid : peerID) (hs : option AuthHandshakeMsg) (ok : bool) (a : AuthProtocol) : bool * AuthProtocol :=
  match hs, writeHandshake hs with
  | Some h, inl _ => if ok then (true, effects [Written pid h] a) else (false, a)
  | _, _ => (false, a)
  end.

(** The guards of [InitiateHandshake] *)
Definition out_begin (pid : peerID) (a : AuthProtocol) : option Thread * AuthProtocol :=
  if IsVerified pid a then (None, a)
  else if bool_decide (pid ∈ au_handshaking a) then (None, a)
  else (Some (OutOpen pid), set_handshaking ({[pid]} ∪ au_handshaking a) a).

(** [defer ap.handshakingPeers.Delete(peerID)] *)
Definition out_end (pid : peerID) (a : AuthProtocol) : AuthProtocol := set_handshaking (au_handshaking a ∖ {[pid]}) a.

(** [InitiateHandshake] from the answer to the check of the claim *)
Definition out_read (now : time) (pid : peerID) (stream : option bytes) (a : AuthProtocol) : option Thread * AuthProtocol :=
  let stop a := (None, out_end pid a) in
  match stream with
  | None => stop a
  | Some data =>
      match readHandshake data with
      | inr _ => stop a
      | inl hs =>
          match verifyPeerToken now (hs_Token hs) pid a with
          | Panic => (None, crash a)
          | Refused _ => stop (rejectSecurity now pid a)
          | Passed t =>
              if str_eqb (hs_Error hs) "session_replaced" then
                stop (if verifySupersedingLocalSession (hs_SupersedingSession hs) a
                      then effects [SessionReplacedBy (hs_SupersedingSession hs)] a else a)
              else match claim_then now pid hs t OutAccept a with
                   | (None, a) => stop a
                   | r => r
                   end
          end
      end
  end.

(** One step of a waiting handshake: [io] is what the stream gives. *)
Definition advance (now : time) (th : Thread) (io : option bytes) (a : AuthProtocol) : option Thread * AuthProtocol :=
  match th with
  | InAccept pid hs t =>
      match acceptSession pid (sc_StartedAt (hs_Session hs)) a with
      | (Some superseding, a) =>
          match staleSessionResponse superseding a with
          | None => (None, crash a)
          | resp => (None, (written pid resp (bool_decide (is_Some io)) a).2)
          end
      | (None, a) => (Some (InWrite pid hs t), a)
      end
  | InWrite pid hs t =>
      let w := written pid (au_localHandshake a) (bool_decide (is_Some io)) a in
      if w.1 then (Some (InStore pid hs t), w.2) else (None, w.2)
  | InStore pid hs t => (None, store_verified pid hs t a)
  | OutOpen pid =>
      let w := written pid (au_localHandshake a) (bool_decide (is_Some io)) a in
      if w.1 then (Some (OutWait pid), w.2) else (None, out_end pid w.2)
  | OutWait pid => out_read now pid io a
  | OutAccept pid hs t =>
      match acceptSession pid (sc_StartedAt (hs_Session hs)) a with
      | (Some _, a) => (None, out_end pid a)
      | (None, a) => (Some (OutStore pid hs t), a)
      end
  | OutStore pid hs t => (None, out_end pid (store_verified pid hs t a))
  end.

(** [handleIncoming] without interruption *)
Definition handleIncoming (now : time) (pid : peerID) (stream : option bytes) (writeOk : bool) (a : AuthProtocol) : AuthProtocol :=
  let io := if writeOk then Some [] else None in
  match in_read now pid stream a with
  | (None, a) => a
  | (Some th, a) =>
      match advance now th io a with
      | (None, a) => a
      | (Some th, a) =>
          match advance now th io a with
          | (None, a) => a
          | (Some th, a) => (advance now th io a).2
          end
      end
  end.

(** [InitiateHandshake] without interruption *)
Definition InitiateHandshake (now : time) (pid : peerID) (openOk : bool) (answer : option bytes) (a : AuthProtocol)
  : AuthProtocol :=
  match out_begin pid a with
  | (None, a) => a
  | (Some th, a) =>
      match advance now th (if openOk then Some [] else None) a with
      | (None, a) => a
      | (Some th, a) =>
          match advance now th answer a with
          | (None, a) => a
          | (Some th, a) =>
              match advance now th None a with
              | (None, a) => a
              | (Some th, a) => (advance now th None a).2
              end
          end
      end
  end.

(** [Disconnected], with the number of connections that are left *)
Definition Disconnected (pid : peerID) (conns : nat) (a : AuthProtocol) : AuthProtocol :=
  if (conns =? 0)%nat then set_verified (delete pid (au_verified a)) a else a.

(** ** Interleaved handshakes *)

Record World := mkWorld { w_auth : AuthProtocol; w_threads : list Thread; w_now : time }.

Inductive AuthEvent :=
| EvIncoming (pid : peerID) (stream : option bytes)
| EvInitiate (pid : peerID)
| EvAdvance (i : nat) (io : option bytes)
| EvDisconnected (pid : peerID) (conns : nat)
| EvDial (pid : peerID)
| EvAnnex (wire sig : bytes)
| EvTime (elapsed : nat).

Definition with_thread (r : option Thread * AuthProtocol) (ths : list Thread) (now : time) : World :=
  mkWorld r.2 (match r.1 with Some th => ths ++ [th] | None => ths end) now.

(** A process that panicked does nothing any more. *)
Definition auth_step (ev : AuthEvent) (w : World) : World :=
  let a := w_auth w in
  let ths := w_threads w in
  let now := w_now w in
  if au_crashed a then w
  else match ev with
  | EvIncoming pid stream => with_thread (in_read now pid stream a) ths now
  | EvInitiate pid => with_thread (out_begin pid a) ths now
  | EvAdvance i io =>
      match ths !! i with
      | Some th => with_thread (advance now th io a) (delete i ths) now
      | None => w
      end
  | EvDisconnected pid n => mkWorld (Disconnected pid n a) ths now
  | EvDial pid => mkWorld (InterceptSecured now pid a).2 ths now
  | EvAnnex wire sig => mkWorld (SetLocalProfileAnnex wire sig a) ths now
  | EvTime d => mkWorld a ths (now + Z.of_nat d)
  end.

Definition auth_run (evs : list AuthEvent) (w : World) : World := foldl (fun w ev => auth_step ev w) w evs.

End Protocol.
End Auth.
