(* ===== verification/Frames.v ===== *)
(** * Frames on streams

    The length-prefixed JSON frames of [adapter/p2p]: the invite store, the
    channel categories, the group information, the invite requests and the
    delivery of welcomes have the same shape and differ in their limits.  The
    direct exchange of a key package ([kp_direct.go]) has the prefix only.

    A stream is what can be read from it; a reader returns its value and what
    is left. *)
From S2P Require Import Prelude GoStrings Sha256 Types Wire Runtime Auth.

Module Frames.

(** ** The common shape *)

(** Four bytes of length, big endian, and the text, which is neither empty
    nor longer than the limit of the protocol. *)
Definition write_frame `{JSON A} (max : Z) (v : A) : result bytes :=
  let data := json_Marshal v in
  if is_empty data || (Z.of_nat (length data) >? max) then inr (ErrText "frame size invalid")
  else inl (Auth.put_be32 (Z.of_nat (length data)) ++ data).

Definition read_raw (max : Z) (s : bytes) : result (bytes * bytes) :=
  if (length s <? 4)%nat then inr (ErrText "unexpected EOF")
  else
    let n := Auth.be32 (take 4 s) in
    if (n =? 0) || (n >? max) then inr (ErrText "frame size invalid")
    else
      let rest := drop 4 s in
      if Z.of_nat (length rest) <? n then inr (ErrText "unexpected EOF")
      else inl (take (Z.to_nat n) rest, drop (Z.to_nat n) rest).

Definition read_frame `{JSON A} (max : Z) (s : bytes) : result (A * bytes) :=
  match read_raw max s with
  | inr e => inr e
  | inl (data, rest) =>
      match json_Unmarshal data with
      | Some v => inl (v, rest)
      | None => inr (ErrText "invalid character in JSON")
      end
  end.

(** ** The protocols *)

Definition inviteStoreMaxFrame : Z := Z.shiftl 4 20.
Definition WriteInviteStoreJSONFrame `{JSON A} : A -> result bytes := write_frame inviteStoreMaxFrame.
Definition ReadInviteStoreJSONFrame `{JSON A} : bytes -> result (A * bytes) := read_frame inviteStoreMaxFrame.

Definition channelCategoryMaxFrame : Z := Z.shiftl 4 20.
Definition WriteChannelCategoryJSONFrame `{JSON A} : A -> result bytes := write_frame channelCategoryMaxFrame.
Definition ReadChannelCategoryJSONFrame `{JSON A} : bytes -> result (A * bytes) := read_frame channelCategoryMaxFrame.

Definition groupInfoMaxFrame : Z := Z.shiftl 4 20.
Definition WriteGroupInfoJSONFrame `{JSON A} : A -> result bytes := write_frame groupInfoMaxFrame.
Definition ReadGroupInfoJSONFrame `{JSON A} : bytes -> result (A * bytes) := read_frame groupInfoMaxFrame.

Definition groupInviteRequestMaxFrame : Z := Z.shiftl 512 10.
Definition WriteGroupInviteWireFrame `{JSON A} : A -> result bytes := write_frame groupInviteRequestMaxFrame.
Definition ReadGroupInviteWireFrame `{JSON A} : bytes -> result (A * bytes) := read_frame groupInviteRequestMaxFrame.
Definition ReadGroupInviteWireRaw : bytes -> result (bytes * bytes) := read_raw groupInviteRequestMaxFrame.

(** [writeWelcomeFrame] of [service/invite.go] does not refuse an empty text,
    [readWelcomeFrame] does. *)
Definition maxWelcomeFrame : Z := Z.shiftl 4 20.
Definition writeWelcomeFrame `{JSON welcomeDeliveryWire} (msg : welcomeDeliveryWire) : result bytes :=
  let data := json_Marshal msg in
  if Z.of_nat (length data) >? maxWelcomeFrame then inr (ErrText "frame too large")
  else inl (Auth.put_be32 (Z.of_nat (length data)) ++ data).
Definition readWelcomeFrame `{JSON welcomeDeliveryWire} : bytes -> result (welcomeDeliveryWire * bytes) := read_frame maxWelcomeFrame.

(** ** The direct exchange of a key package *)

(** [FetchKeyPackageDirect]: [connected] is what the network says of the
    target, [answer] what its stream gives after the request byte was
    written, or an error if it could not be opened. *)
Definition maxKPPayload : Z := 256 * 1024.
Definition FetchKeyPackageDirect (connected : bool) (answer : result bytes) : result bytes :=
  if negb connected then inr (ErrText "peer is not connected")
  else
    match answer with
    | inr e => inr (ErrWrap "kp-offer stream" e)
    | inl s =>
        if (length s <? 4)%nat then inr (ErrText "read kp length: unexpected EOF")
        else
          let n := Auth.be32 (take 4 s) in
          if (n =? 0) || (n >? maxKPPayload) then inr (ErrText "invalid kp payload length")
          else if Z.of_nat (length (drop 4 s)) <? n then inr (ErrText "read kp bytes: unexpected EOF")
          else inl (take (Z.to_nat n) (drop 4 s))
    end.

(** What [handleKPOfferStream] writes for a key package *)
Definition offer_frame (pub : bytes) : bytes := Auth.put_be32 (u32 (Z.of_nat (length pub))) ++ pub.
End Frames.
