(* ===== verification/Membership.v ===== *)
(** * Membership services

    [service/group_member_directory.go]: display names, roles and the upkeep of
    the roster from what the node observes and from the MLS tree;
    [group_admins.go]: granting and revoking the admin role, locally and by a
    signed record of the creator; [membership.go]: leaving a group and removing
    a member. *)
From Stdlib Require Import DecimalString.
From S2P Require Import Prelude GoStrings Sha256 Types SingleWriter Database.
From S2P Require Import Store HealStore AppDatabase Identity Roster.
From S2P Require Import Replicated Runtime.

Module Membership.
Section Methods.
Context {PC : PeerCodec} {ED : Ed25519} (re : RtEnv).
#[local] Abbreviation app := Runtime.app.

(** ** The member directory *)

(** [isValidPeerID] *)
Definition isValidPeerID (peerID : string) : bool :=
  let p := TrimSpace peerID in
  negb (str_eqb p "") && bool_decide (is_Some (peer_Decode p)).

(** [shortPeerID] *)
Definition shortPeerID (peerID : string) : string :=
  let n := String.length peerID in
  if (n <=? 14)%nat then peerID
  else String.substring 0 6 peerID +:+ "..." +:+ String.substring (n - 6) 6 peerID.

(** The name in a token that the peer has proved, if it has one. *)
Definition token_name (peerID : string) : option string :=
  match re_node re, peer_Decode peerID with
  | Some _, Some pid =>
      match re_token re pid with
      | Some (name, _) => if str_eqb (TrimSpace name) "" then None else Some (TrimSpace name)
      | None => None
      end
  | _, _ => None
  end.

(** [resolveDisplayNameForPeer] *)
Definition resolveDisplayNameForPeer (peerID : string) : RT string :=
  let p := TrimSpace peerID in
  if str_eqb p "" then sql_ret ""
  else
    local <-! (if re_db re then
                 id <-! sql_try (Runtime.GetOnboardingInfo re) ;
                 identity <-! sql_try Runtime.GetMLSIdentity ;
                 sql_ret (match id with inl s => s | inr _ => "" end,
                          match identity with inl i => TrimSpace (mi_DisplayName i) | inr _ => "" end)
               else sql_ret ("", "")) ;
    if str_eqb p local.1 && negb (str_eqb local.2 "") then sql_ret local.2
    else match token_name p with
         | Some name =>
             (if re_db re then sql_ignore (app (Roster.SavePeerProfile p name)) else sql_ret tt) ;;! sql_ret name
         | None =>
             name <-! (if re_db re then
                         n <-! sql_try (app (Roster.GetPeerDisplayName p)) ;
                         sql_ret (match n with inl s => TrimSpace s | inr _ => "" end)
                       else sql_ret "") ;
             if str_eqb name "" then sql_ret (shortPeerID p) else sql_ret name
         end.

Definition observed (groupID peerID displayName role source : string) (now : Z) : GroupMemberRecord :=
  mkGroupMemberRecord groupID peerID displayName role Roster.GroupMemberStatusActive source 0 0 now.

(** The guards that the two upserts share. *)
Definition checked_ids {A} (groupID peerID : string) (m : RT A) : RT A :=
  if str_eqb (TrimSpace groupID) "" || str_eqb (TrimSpace peerID) "" then
    sql_throw (ErrText "group_id and peer_id are required")
  else if negb (isValidPeerID (TrimSpace peerID)) then sql_throw (ErrText "invalid peer_id format")
  else Runtime.with_db re m.

(** [upsertGroupMember] *)
Definition upsertGroupMember (groupID peerID role source : string) : RT unit :=
  let g := TrimSpace groupID in
  let p := TrimSpace peerID in
  checked_ids groupID peerID (
    name <-! resolveDisplayNameForPeer p ;
    now <-! unix_now ;
    app (Roster.UpsertGroupMember (observed g p name role source now))).

(** [groupRoleRecordKey] *)
Definition groupRoleRecordKey (groupID targetPeerID : string) : string :=
  TrimSpace groupID +:+ "|" +:+ TrimSpace targetPeerID.

(** [resolveGroupMemberRole]: the creator column, then the replicated role *)
Definition resolveGroupMemberRole (groupID peerID : string) : RT string :=
  let g := TrimSpace groupID in
  let p := TrimSpace peerID in
  if str_eqb g "" || str_eqb p "" || negb (re_db re) then sql_ret Roster.GroupMemberRoleMember
  else
    creator <-! sql_try (app (Roster.GetGroupCreatorPeerID g)) ;
    if match creator with inl c => negb (str_eqb c "") && str_eqb p c | inr _ => false end
    then sql_ret Roster.GroupMemberRoleCreator
    else
      row <-! sql_try (app (Replicated.GetReplicatedRecord Replicated.NamespaceGroupRoleV1 (groupRoleRecordKey g p))) ;
      sql_ret (match row with
        | inl r =>
            match (if str_eqb (rr_BodyJSON r) "" then None else re_role_Unmarshal re (rr_BodyJSON r)) with
            | Some w =>
                let role := TrimSpace (ToLower (rw_NewRole w)) in
                if bool_decide (role ∈ [Roster.GroupMemberRoleCreator; Roster.GroupMemberRoleAdmin; Roster.GroupMemberRoleMember])
                then role else Roster.GroupMemberRoleMember
            | None => Roster.GroupMemberRoleMember
            end
        | inr _ => Roster.GroupMemberRoleMember
        end).

(** [upsertGroupMemberFromRosterEvidence] *)
Definition upsertGroupMemberFromRosterEvidence (groupID peerID source : string) (reactivateLeft : bool) : RT unit :=
  let g := TrimSpace groupID in
  let p := TrimSpace peerID in
  checked_ids groupID peerID (
    skip <-! (if reactivateLeft then sql_ret false
              else rec <-! app (Roster.GetGroupMember g p) ;
                   sql_ret (str_eqb (gm_Status rec) Roster.GroupMemberStatusLeft)) ;
    if skip : bool then sql_ret tt
    else
      role <-! resolveGroupMemberRole g p ;
      name <-! resolveDisplayNameForPeer p ;
      now <-! unix_now ;
      app (Roster.UpsertGroupMemberPreservingRole (observed g p name role source now))).

(** [upsertGroupMemberFromRosterSync], [upsertGroupMemberFromMLSReconcile] *)
Definition upsertGroupMemberFromRosterSync (groupID peerID source : string) : RT unit :=
  upsertGroupMemberFromRosterEvidence groupID peerID source false.
Definition upsertGroupMemberFromMLSReconcile (groupID peerID source : string) : RT unit :=
  upsertGroupMemberFromRosterEvidence groupID peerID source true.

(** ** Reconciliation with the MLS tree *)

(** The counters of the loop: leaves without a peer, whether the roster
    changed, and the peers found. *)
Record Reconcile := mkReconcile { rc_missed : Z; rc_changed : bool; rc_peers : gset string }.

(** [existing == nil || existing.Status != active], without an error *)
Definition roster_differs (g p : string) : RT bool :=
  existing <-! sql_try (app (Roster.GetGroupMember g p)) ;
  sql_ret (match existing with
           | inl r => negb (str_eqb (gm_Status r) Roster.GroupMemberStatusActive)
           | inr _ => false
           end).

(** The other party of a direct message whose key is unknown. *)
Definition dm_counterparty (g localPeer : string) : RT string :=
  creator <-! sql_try (app (Roster.GetGroupCreatorPeerID g)) ;
  let other p := negb (str_eqb p "") && negb (str_eqb p localPeer) in
  let first_other :=
    members <-! sql_try (app (Roster.ListGroupMembers g [])) ;
    sql_ret (match members with
      | inl ms => match List.find (fun m => other (gm_PeerID m)) ms with Some m => gm_PeerID m | None => "" end
      | inr _ => "" end) in
  match creator with
  | inl c => if other c then sql_ret c else first_other
  | inr _ => first_other
  end.

(** The peer of a leaf key: the directory, or the other party of a direct
    message; empty when it is not known. *)
Definition leaf_peer (g : string) (isDM : bool) (localPeer pubHex : string) : RT (option string) :=
  found <-! sql_try (app (Roster.GetPeerIDByPublicKeyHex pubHex)) ;
  match found with
  | inr _ => sql_ret None
  | inl p =>
      if negb (str_eqb p "") then sql_ret (Some p)
      else if negb isDM then sql_ret None
      else
        c <-! dm_counterparty g localPeer ;
        if str_eqb c "" then sql_ret None
        else saved <-! sql_try (app (Roster.UpsertPeerProfileWithKey c "" pubHex)) ;
             sql_ret (match saved with inl _ => Some c | inr _ => None end)
  end.

(** One leaf of the loop. *)
Definition reconcile_leaf (g : string) (isDM : bool) (localPubHex localPeer : string) (id : bytes) (acc : Reconcile)
  : RT Reconcile :=
  if is_empty id then sql_ret acc
  else
    let pubHex := ToLower (hex_EncodeToString id) in
    let seen p ch := mkReconcile (rc_missed acc) (rc_changed acc || ch) ({[p]} ∪ rc_peers acc) in
    if str_eqb pubHex localPubHex then
      if str_eqb localPeer "" then sql_ret acc
      else
        ch <-! roster_differs g localPeer ;
        sql_ignore (upsertGroupMemberFromMLSReconcile g localPeer "self") ;;! sql_ret (seen localPeer ch)
    else
      peer <-! leaf_peer g isDM localPeer pubHex ;
      match peer with
      | None => sql_ret (mkReconcile (rc_missed acc + 1) (rc_changed acc) (rc_peers acc))
      | Some p =>
          ch <-! roster_differs g p ;
          sql_ignore (upsertGroupMemberFromMLSReconcile g p "mls_leaf") ;;! sql_ret (seen p ch)
      end.

Fixpoint reconcile_leaves (g : string) (isDM : bool) (localPubHex localPeer : string) (ids : list bytes)
  (acc : Reconcile) : RT Reconcile :=
  match ids with
  | [] => sql_ret acc
  | id :: ids =>
      acc <-! reconcile_leaf g isDM localPubHex localPeer id acc ;
      reconcile_leaves g isDM localPubHex localPeer ids acc
  end.

(** The members that are no longer in the tree leave. *)
Fixpoint mark_absent (g : string) (peers : gset string) (rows : list GroupMemberRecord) (changed : bool) : RT bool :=
  match rows with
  | [] => sql_ret changed
  | row :: rows =>
      if bool_decide (gm_PeerID row ∈ peers) then mark_absent g peers rows changed
      else
        left <-! sql_try (app (Roster.MarkGroupMemberLeft g (gm_PeerID row) 0)) ;
        mark_absent g peers rows (changed || match left with inl _ => true | inr _ => false end)
  end.

(** [reconcileGroupRosterWithMLS] *)
Definition reconcileGroupRosterWithMLS (groupID : string) : RT bool :=
  let g := TrimSpace groupID in
  if str_eqb g "" || negb (re_engine re) || negb (re_db re) then sql_ret false
  else
    rec <-! app (core (Store.GetGroupRecord g)) ;
    if is_empty (gr_GroupState rec) then sql_ret false
    else
      match re_ListMemberIdentities re (gr_GroupState rec) with
      | inr e => sql_throw e
      | inl ids =>
          if is_empty ids then sql_ret false
          else
            identity <-! sql_try Runtime.GetMLSIdentity ;
            let localPubHex := match identity with
              | inl i => if is_empty (mi_PublicKey i) then "" else ToLower (hex_EncodeToString (mi_PublicKey i))
              | inr _ => "" end in
            let localPeer := match re_node re with Some p => peer_String p | None => "" end in
            let isDM := str_eqb (ToLower (TrimSpace (gr_GroupType rec))) "dm" in
            acc <-! reconcile_leaves g isDM localPubHex localPeer ids (mkReconcile 0 false ∅) ;
            if rc_missed acc =? 0 then
              rows <-! sql_try (app (Roster.ListGroupMembers g [Roster.GroupMemberStatusActive])) ;
              match rows with
              | inl rows => mark_absent g (rc_peers acc) rows (rc_changed acc)
              | inr _ => sql_ret (rc_changed acc)
              end
            else sql_ret (rc_changed acc)
      end.

(** ** The admin role *)

Definition ErrRemoveMemberPeerNotKnown : GoError :=
  ErrSentinel "ERR_REMOVE_MEMBER_PEER_NOT_VERIFIED: target peer is not verified or missing MLS public key".

(** [SetGroupMemberAdmin] *)
Definition SetGroupMemberAdmin (groupID targetPeerID : string) (isAdmin : bool) : RT unit :=
  let g := TrimSpace groupID in
  let p := TrimSpace targetPeerID in
  if str_eqb g "" || str_eqb p "" then sql_throw (ErrText "group_id and target_peer_id are required")
  else
    Runtime.ensureSessionActive re ;;!
    match peer_Decode p with
    | None => sql_throw (ErrText "invalid target peer ID")
    | Some _ =>
        rl <-! Runtime.requireGroupPermission re g Runtime.permissionManageAdmins ;
        Runtime.with_db re (
          target <-! app (Roster.GetGroupMember g p) ;
          if negb (str_eqb (gm_Status target) Roster.GroupMemberStatusActive) then sql_throw ErrRemoveMemberPeerNotKnown
          else if Runtime.isCreatorRole (gm_Role target) then
            if isAdmin then sql_ret tt
            else sql_throw (ErrText "ERR_INVITE_REQUEST_FORBIDDEN: creator admin role cannot be revoked")
          else
            let newRole := if isAdmin then Roster.GroupMemberRoleAdmin else Roster.GroupMemberRoleMember in
            if str_eqb (gm_Role target) newRole then sql_ret tt
            else
              app (Roster.SetGroupMemberRole g p newRole) ;;!
              Runtime.appendGroupEvent g "admin_role_changed" rl.2 p 0 ;;!
              Runtime.effect (Emit "group:members_changed" [("group_id", g); ("reason", "admin_role_changed")]) ;;!
              Runtime.effect (Emit "group:admins_changed" [("group_id", g); ("target_peer_id", p); ("role", newRole)]) ;;!
              Runtime.effect (ReplicateGroupRole g p newRole rl.2))
    end.

(** [nextGroupRoleRevision] *)
Definition nextGroupRoleRevision (groupID targetPeerID : string) : RT Z :=
  Runtime.with_db re (
    row <-! sql_try (app (Replicated.GetReplicatedRecord Replicated.NamespaceGroupRoleV1
                            (groupRoleRecordKey groupID targetPeerID))) ;
    match row with
    | inl r => sql_ret (i64 (rr_Revision r + 1))
    | inr e => if errors_Is e sql_ErrNoRows then sql_ret 1 else sql_throw e
    end).

(** [normalizeMLSEd25519PrivateKey] of [profile.go] *)
Definition normalizeMLSEd25519PrivateKey (signingKey : bytes) : result bytes :=
  if (length signingKey =? 32)%nat then inl (ed_NewKeyFromSeed signingKey)
  else if (length signingKey =? 64)%nat then inl signingKey
  else inr (ErrText "invalid MLS ed25519 private key size").

(** [packSignedGroupRolePayload] *)
Definition packSignedGroupRolePayload (groupID targetPeerID newRole actorPeerID : string) : RT (string * bytes) :=
  Runtime.with_db re (
    identity <-! Runtime.GetMLSIdentity ;
    rev <-! nextGroupRoleRevision groupID targetPeerID ;
    rec <-! sql_try (app (core (Store.GetGroupRecord groupID))) ;
    now <-! unix_now ;
    let epoch := match rec with inl r => gr_Epoch r | inr _ => 0 end in
    let wire := mkRoleWire 1 ("role:" +:+ groupID +:+ ":" +:+ targetPeerID +:+ ":" +:+ NilZero.string_of_int (Z.to_int rev))
      groupID targetPeerID newRole actorPeerID now rev epoch in
    let raw := re_role_Marshal re wire in
    priv <-! Roster.of_result (normalizeMLSEd25519PrivateKey (mi_SigningKeyPrivate identity)) ;
    sql_ret (raw, ed_Sign priv (str_bytes raw))).

(** [persistOwnReplicatedGroupRole] *)
Definition persistOwnReplicatedGroupRole (wireJSON : string) (signature : bytes) : RT unit :=
  match re_role_Unmarshal re wireJSON with
  | None => sql_throw (ErrText "invalid character in JSON")
  | Some w =>
      Runtime.with_db re (
        identity <-! Runtime.GetMLSIdentity ;
        app (Replicated.PutReplicatedRecordForce (Replicated.mkPut Replicated.NamespaceGroupRoleV1
          (groupRoleRecordKey (rw_GroupID w) (rw_TargetPeerID w)) (rw_ActorPeerID w) (rw_Revision w) 1 wireJSON
          (Replicated.ReplicatedBodyHash wireJSON) signature
          (ToLower (hex_EncodeToString (mi_PublicKey identity))) 0 [])))
  end.

(** [replicateGroupRoleAfterLocalSave], the goroutine of [SetGroupMemberAdmin] *)
Definition replicateGroupRoleAfterLocalSave (groupID targetPeerID newRole actorPeerID : string) : RT unit :=
  packed <-! sql_try (packSignedGroupRolePayload groupID targetPeerID newRole actorPeerID) ;
  match packed with
  | inl (wire, sig) =>
      if str_eqb wire "" || is_empty sig then sql_ret tt
      else
        saved <-! sql_try (persistOwnReplicatedGroupRole wire sig) ;
        match saved with
        | inl _ => Runtime.effect (PublishGroupRole wire sig)
        | inr _ => sql_ret tt
        end
  | inr _ => sql_ret tt
  end.

(** [verifyProfileWire] of [profile.go] *)
Definition verifyProfileWire (pub wire sig : bytes) : bool :=
  (length sig =? 64)%nat && ed_Verify pub wire sig.

Definition errReplicationStaleGroupRole : GoError := ErrSentinel "replication: stale group role revision".

(** The end of [applySignedRemoteGroupRolePush]: the record is merged, and the
    role of a member that is there is set. *)
Definition mergeGroupRole (actor wireJSON : string) (signature pub : bytes) (w : groupRoleWireV1) (memberExists : bool)
  : RT unit :=
  let newRole := if EqualFold (TrimSpace (rw_NewRole w)) Roster.GroupMemberRoleAdmin
                 then Roster.GroupMemberRoleAdmin else Roster.GroupMemberRoleMember in
  merged <-! sql_try (app (Replicated.TryMergeReplicatedRecord (Replicated.mkPut
    Replicated.NamespaceGroupRoleV1 (groupRoleRecordKey (rw_GroupID w) (rw_TargetPeerID w)) actor
    (rw_Revision w) 1 wireJSON (Replicated.ReplicatedBodyHash wireJSON) signature
    (ToLower (hex_EncodeToString pub)) 0 []))) ;
  match merged with
  | inr e =>
      if errors_Is e Replicated.ErrReplicatedStaleRevision
      then sql_throw errReplicationStaleGroupRole else sql_throw e
  | inl _ =>
      (if memberExists then app (Roster.SetGroupMemberRole (rw_GroupID w) (rw_TargetPeerID w) newRole)
       else sql_ret tt) ;;!
      Runtime.effect (Emit "group:members_changed" [("group_id", rw_GroupID w); ("reason", "admin_role_changed")]) ;;!
      Runtime.effect (Emit "group:admins_changed"
        [("group_id", rw_GroupID w); ("target_peer_id", rw_TargetPeerID w); ("role", newRole)])
  end.

(** [applySignedRemoteGroupRolePush] *)
Definition applySignedRemoteGroupRolePush (actorPeerID wireJSON : string) (signature : bytes) : RT unit :=
  let actor := TrimSpace actorPeerID in
  if str_eqb actor "" then sql_throw (ErrText "actor peer id required")
  else
    Runtime.with_db re (
      profile <-! app (Roster.GetPeerDirectoryProfile actor) ;
      match hex_DecodeString (TrimSpace (pd_PublicKeyHex profile)) with
      | None => sql_throw (ErrText "invalid stored public key for actor")
      | Some pub =>
          if negb (length pub =? 32)%nat then sql_throw (ErrText "invalid stored public key for actor")
          else if negb (verifyProfileWire pub (str_bytes wireJSON) signature) then
            sql_throw (ErrText "invalid profile signature")
          else
            match re_role_Unmarshal re wireJSON with
            | None => sql_throw (ErrText "invalid character in JSON")
            | Some w =>
                if negb (rw_V w =? 1) then sql_throw (ErrText "unsupported group role wire version")
                else if negb (str_eqb (TrimSpace (rw_ActorPeerID w)) actor) then sql_throw (ErrText "actor peer mismatch")
                else
                  ok <-! Runtime.isActiveGroupCreatorPeer re (rw_GroupID w) actor ;
                  if negb ok then sql_throw (ErrText "group role push: actor is not creator")
                  else
                    target <-! sql_try (app (Roster.GetGroupMember (rw_GroupID w) (rw_TargetPeerID w))) ;
                    let memberExists := match target with
                      | inl r => str_eqb (gm_Status r) Roster.GroupMemberStatusActive | inr _ => false end in
                    if memberExists && match target with inl r => Runtime.isCreatorRole (gm_Role r) | inr _ => false end
                    then sql_throw (ErrText "group role push: creator role immutable")
                    else
                      mergeGroupRole actor wireJSON signature pub w memberExists
            end
      end).

(** ** Leaving and removing *)

Definition ErrRemoveMemberForbidden : GoError := ErrSentinel "ERR_REMOVE_MEMBER_FORBIDDEN: admin role required to remove members".
Definition ErrRemoveSelfNotAllowed : GoError := ErrSentinel "ERR_REMOVE_MEMBER_SELF: cannot remove yourself; use LeaveGroup".
Definition ErrRemoveMemberAccessRevoked : GoError := ErrSentinel "ERR_REMOVE_MEMBER_ACCESS_REVOKED: local membership has been revoked".
Definition ErrCreatorCannotLeave : GoError := ErrSentinel "ERR_CREATOR_CANNOT_LEAVE: group creator cannot leave the group".
Definition ErrRemoveCreatorForbidden : GoError := ErrSentinel "ERR_REMOVE_CREATOR_FORBIDDEN: group creator cannot be removed".
Definition ErrRemoveAdminForbidden : GoError := ErrSentinel "ERR_REMOVE_ADMIN_FORBIDDEN: admins cannot remove other admins".
Definition ErrRemoveAdminRequiresDemote : GoError :=
  ErrSentinel "ERR_REMOVE_ADMIN_REQUIRES_DEMOTE: revoke admin role before removing this member".

(** [delete(r.coordinators, groupID)] and [Stop]; whether there was one *)
Definition stopCoordinator (g : string) : RT bool := fun _ t s =>
  if bool_decide (g ∈ rt_coords s)
  then (inl true, t, mkRtState (rt_app s) (rt_coords s ∖ {[g]}) (rt_trace s ++ [StopCoordinator g]))
  else (inl false, t, s).

(** [LeaveGroup] *)
Definition LeaveGroup (groupID : string) : RT unit :=
  let g := TrimSpace groupID in
  if str_eqb g "" then sql_throw Runtime.ErrGroupNotFound
  else
    Runtime.ensureSessionActive re ;;!
    Runtime.with_db re (
      exists_ <-! app (Roster.HasGroup g) ;
      if negb exists_ then sql_throw Runtime.ErrGroupNotFound
      else
        me <-! sql_try (Runtime.localGroupMember re g) ;
        if match me with inl (rec, _) => Runtime.isCreatorRole (gm_Role rec) | inr _ => false end
        then sql_throw ErrCreatorCannotLeave
        else
          active <-! sql_try (app (Roster.IsGroupActive g)) ;
          match active with
          | inr e => if errors_Is e sql_ErrNoRows then sql_ret tt else sql_throw e
          | inl _ => sql_ret tt
          end ;;!
          stopped <-! stopCoordinator g ;
          if negb (match active with inl b => b | inr _ => false end) && negb stopped then sql_ret tt
          else
            marked <-! sql_try (app (Roster.MarkGroupLeft g)) ;
            match marked with
            | inr e => if errors_Is e sql_ErrNoRows then sql_throw Runtime.ErrGroupNotFound else sql_throw e
            | inl _ =>
                localID <-! (match re_node re with
                             | Some p => sql_ret (peer_String p)
                             | None => info <-! sql_try (Runtime.GetOnboardingInfo re) ;
                                       sql_ret (match info with inl s => s | inr _ => "" end)
                             end) ;
                (if str_eqb localID "" then sql_ret tt
                 else sql_ignore (app (Roster.MarkGroupMemberLeft g localID 0)) ;;!
                      Runtime.appendGroupEvent g "member_left" localID localID 0) ;;!
                Runtime.effect (Emit "group:left" [("group_id", g); ("reason", "left")]) ;;!
                Runtime.effect (Emit "group:members_changed" [("group_id", g); ("reason", "left")])
            end).

(** [resolveTargetMLSIdentity] *)
Definition resolveTargetMLSIdentity (target : peerID) : result bytes :=
  if str_eqb target "" then inr ErrRemoveMemberPeerNotKnown
  else match re_node re, re_token re target with
       | Some _, Some (_, pub) => if is_empty pub then inr ErrRemoveMemberPeerNotKnown else inl pub
       | _, _ => inr ErrRemoveMemberPeerNotKnown
       end.

End Methods.
End Membership.
