(* ===== verification/Profiles.v ===== *)
(** * Profiles of users

    [adapter/store/profile.go] and [service/profile.go]: the profile of the
    local user with its revision, the blobs of avatars, the profile columns of
    the peer directory, and the signed records in which profiles travel. *)
From Stdlib Require Import DecimalString.
From S2P Require Import Prelude GoStrings Sha256 Types SingleWriter Database.
From S2P Require Import Store HealStore AppDatabase Identity Roster.
From S2P Require Import InviteStore Replicated Wire Runtime Membership.

(** ** Tables *)
Module ProfileStore.

Definition MaxAvatarBytes : Z := Replicated.MaxAvatarBytes.

(** [AvatarContentHash] *)
Definition AvatarContentHash (data : bytes) : string := hex_EncodeToString (sha256_sum data).

Definition touch_blob (h : string) (now : Z) (d : AppDB) : AppDB :=
  set_adb_avatar_blobs (alter (fun b => mkBlobRow (bl_mime b) (bl_bytes b) (bl_created_at b) now) h (adb_avatar_blobs d)) d.

(** [UpsertAvatarBlob] *)
Definition UpsertAvatarBlob (hash mime : string) (data : bytes) : ASQL unit :=
  let h := TrimSpace (ToLower hash) in
  let m := TrimSpace mime in
  if str_eqb h "" || str_eqb m "" || is_empty data then
    sql_throw (ErrText "avatar blob: hash, mime and bytes are required")
  else if Z.of_nat (length data) >? MaxAvatarBytes then
    sql_throw (ErrText "avatar blob: size exceeds max; compress client-side before upload")
  else
    now <-! unix_now ;
    sql_wrap "UpsertAvatarBlob insert" (sql_exec (fun d =>
      match adb_avatar_blobs d !! h with
      | Some _ => d
      | None => set_adb_avatar_blobs (<[h := mkBlobRow m data now now]> (adb_avatar_blobs d)) d
      end)) ;;!
    sql_wrap "UpsertAvatarBlob touch" (sql_exec (touch_blob h now)).

(** [GetAvatarBlob]: mime and bytes *)
Definition GetAvatarBlob (hash : string) : ASQL (string * bytes) :=
  let h := TrimSpace (ToLower hash) in
  if str_eqb h "" then sql_throw (ErrText "avatar hash is required")
  else sql_row (fun d => (fun b => (bl_mime b, bl_bytes b)) <$> adb_avatar_blobs d !! h).

(** [TouchAvatarBlobUsed] *)
Definition TouchAvatarBlobUsed (hash : string) : ASQL unit :=
  let h := TrimSpace (ToLower hash) in
  if str_eqb h "" then sql_ret tt
  else now <-! unix_now ; sql_wrap "TouchAvatarBlobUsed" (sql_exec (touch_blob h now)).

(** SQL [trim(s)] *)
Fixpoint drop_spaces (l : bytes) : bytes :=
  match l with b :: l' => if (Byte.to_N b =? 32)%N then drop_spaces l' else l | [] => [] end.
Definition sql_trim (s : string) : string := bytes_str (rev (drop_spaces (rev (drop_spaces (str_bytes s))))).

(** The hashes that a projection or a record refers to. *)
Definition avatar_referenced (h : string) (d : AppDB) : bool :=
  let hits (s : string) := str_eqb (GroupMeta.sql_lower s) h in
  from_option (fun lp => hits (default "" (lp_AvatarHash lp))) false (adb_local_profile d) ||
  existsb (fun r => hits (default "" (pd_AvatarHash r))) (adb_directory d) ||
  Replicated.referenced h d ||
  existsb (fun kv : string * GroupCols =>
    bool_decide (is_Some (db_groups (adb_core d) !! kv.1)) && hits (sql_trim (gc_avatar_hash kv.2)))
    (map_to_list (adb_group_cols d)).

Fixpoint gc_avatars (hashes : list string) (deleted : Z) : ASQL Z :=
  match hashes with
  | [] => sql_ret deleted
  | h :: hashes =>
      n <-! sql_wrap "gc delete" (sql_update (fun d =>
        (set_adb_avatar_blobs (delete h (adb_avatar_blobs d)) d,
         if bool_decide (is_Some (adb_avatar_blobs d !! h)) then 1 else 0))) ;
      gc_avatars hashes (deleted + n)
  end.

(** [GCUnreferencedAvatarBlobs] of [replicated_store.go] through [gcBlobTable] *)
Definition GCUnreferencedAvatarBlobs (cutoffUnix limit : Z) : ASQL Z :=
  let limit := if limit <=? 0 then 100 else limit in
  hashes <-! sql_wrap "gc select" (sql_query (fun d =>
    take (Z.to_nat limit) (fst <$>
      stable_sort (fun a b : string * BlobRow => bl_last_used_at a.2 <? bl_last_used_at b.2)
        (List.filter (fun hb : string * BlobRow => (bl_last_used_at hb.2 <? cutoffUnix) && negb (avatar_referenced hb.1 d))
          (map_to_list (adb_avatar_blobs d)))))) ;
  gc_avatars hashes 0.

(** [ListKnownProfilePeerIDs] of [replicated_store.go] *)
Definition ListKnownProfilePeerIDs (excludePeerID : string) (limit : Z) : ASQL (list string) :=
  let ex := TrimSpace excludePeerID in
  let limit := if limit <=? 0 then 256 else limit in
  rows <-! sql_wrap "ListKnownProfilePeerIDs" (sql_query (fun d =>
    take (Z.to_nat limit) (stable_sort
      (fun a b => (pd_UpdatedAt b <? pd_UpdatedAt a) || ((pd_UpdatedAt a =? pd_UpdatedAt b) && str_ltb (pd_PeerID a) (pd_PeerID b)))
      (List.filter (fun r => negb (sql_trim_empty (pd_PeerID r)) && negb (str_eqb (pd_PeerID r) ex)) (adb_directory d))))) ;
  sql_ret (List.filter (fun p => negb (str_eqb p "")) ((fun r => TrimSpace (pd_PeerID r)) <$> rows)).

(** *** The local profile *)

(** [GetLocalProfile] *)
Definition GetLocalProfile : ASQL LocalProfileRow := sql_row adb_local_profile.

Definition update_local (f : LocalProfileRow -> LocalProfileRow) (d : AppDB) : AppDB :=
  set_adb_local_profile (f <$> adb_local_profile d) d.

(** [EnsureLocalProfileRow] *)
Definition EnsureLocalProfileRow (peerID displayName : string) : ASQL unit :=
  now <-! unix_now ;
  sql_wrap "EnsureLocalProfileRow" (sql_exec (fun d =>
    match adb_local_profile d with
    | Some _ => d
    | None => set_adb_local_profile (Some (mkLocalProfile (TrimSpace peerID) (TrimSpace displayName) None None None None 0 1 now)) d
    end)).

(** [EnsureLocalProfileRevisionFloor] *)
Definition EnsureLocalProfileRevisionFloor (minRevision : Z) : ASQL unit :=
  let m := if minRevision <=? 0 then 1 else minRevision in
  sql_wrap "EnsureLocalProfileRevisionFloor" (sql_exec (update_local (fun r =>
    mkLocalProfile (lp_PeerID r) (lp_DisplayName r) (lp_Email r) (lp_Phone r) (lp_AvatarHash r) (lp_AvatarMime r)
      (lp_AvatarUpdatedAt r) (if lp_ProfileRevision r <? m then m else lp_ProfileRevision r) (lp_UpdatedAt r)))).

(** [SaveLocalProfileContacts] *)
Definition SaveLocalProfileContacts (email phone : option string) (nextRevision : Z) : ASQL unit :=
  now <-! unix_now ;
  n <-! sql_wrap "SaveLocalProfileContacts" (sql_update (fun d =>
    (update_local (fun r => mkLocalProfile (lp_PeerID r) (lp_DisplayName r) email phone (lp_AvatarHash r) (lp_AvatarMime r)
       (lp_AvatarUpdatedAt r) nextRevision now) d,
     if bool_decide (is_Some (adb_local_profile d)) then 1 else 0))) ;
  if n =? 0 then sql_throw (ErrText "SaveLocalProfileContacts: no local_profile row") else sql_ret tt.

(** [SaveLocalProfileAvatar] *)
Definition SaveLocalProfileAvatar (hash mime : string) (updatedAt nextRevision : Z) : ASQL unit :=
  let h := TrimSpace (ToLower hash) in
  let m := TrimSpace mime in
  if str_eqb h "" || str_eqb m "" then sql_throw (ErrText "avatar hash and mime are required")
  else
    now <-! unix_now ;
    sql_wrap "SaveLocalProfileAvatar" (sql_exec (update_local (fun r =>
      mkLocalProfile (lp_PeerID r) (lp_DisplayName r) (lp_Email r) (lp_Phone r) (Some h) (Some m) updatedAt nextRevision now))).

(** [ClearLocalProfileAvatar] *)
Definition ClearLocalProfileAvatar (nextRevision : Z) : ASQL unit :=
  now <-! unix_now ;
  sql_wrap "ClearLocalProfileAvatar" (sql_exec (update_local (fun r =>
    mkLocalProfile (lp_PeerID r) (lp_DisplayName r) (lp_Email r) (lp_Phone r) None None 0 nextRevision now))).

(** [SyncLocalProfileIdentity] *)
Definition SyncLocalProfileIdentity (peerID displayName : string) : ASQL unit :=
  now <-! unix_now ;
  sql_wrap "SyncLocalProfileIdentity" (sql_exec (update_local (fun r =>
    mkLocalProfile (TrimSpace peerID) (TrimSpace displayName) (lp_Email r) (lp_Phone r) (lp_AvatarHash r) (lp_AvatarMime r)
      (lp_AvatarUpdatedAt r) (lp_ProfileRevision r) now))).

(** *** The directory *)

(** [UpsertPeerDirectorySigned] *)
Definition UpsertPeerDirectorySigned (peerID displayName publicKeyHex : string) (email phone avatarHash avatarMime : option string)
  (avatarUpdatedAt profileRevision : Z) (signatureHex : string) : ASQL unit :=
  let p := TrimSpace peerID in
  if str_eqb p "" then sql_throw (ErrText "peer_id is required")
  else
    let name := TrimSpace displayName in
    let key := ToLower (TrimSpace publicKeyHex) in
    let sig := TrimSpace signatureHex in
    ts <-! unix_now ;
    let row key := mkPeerDirectoryRow p name key email phone avatarHash avatarMime avatarUpdatedAt profileRevision (Some sig) ts in
    sql_wrap "UpsertPeerDirectorySigned" (sql_exec (fun d =>
      set_adb_directory
        (if existsb (Roster.pd_key p) (adb_directory d) then
           (fun r => if Roster.pd_key p r then row (if sql_nonblank key then key else pd_PublicKeyHex r) else r) <$> adb_directory d
         else adb_directory d ++ [row key]) d)).

(** [cleared] of [MergePeerDirectoryProfile] *)
Definition is_cleared (fields : list string) (f : string) : bool := existsb (fun x => str_eqb (ToLower (TrimSpace x)) f) fields.
Definition merge_str (cleared : bool) (cur : option string) (incoming : string) : option string :=
  if cleared then None
  else let i := TrimSpace incoming in if str_eqb i "" then cur else Some i.

(** [MergePeerDirectoryProfile] *)
Definition MergePeerDirectoryProfile (peerID : string) (newRevision : Z) (email phone avatarHash avatarMime : string)
  (avatarUpdatedAt : Z) (signature : bytes) (clearedFields : list string) : ASQL unit :=
  let p := TrimSpace peerID in
  if str_eqb p "" then sql_throw (ErrText "peer_id is required")
  else if newRevision <=? 0 then sql_throw (ErrText "invalid profile revision")
  else
    cur <-! Roster.GetPeerDirectoryProfile p ;
    if pd_ProfileRevision cur >? newRevision then sql_throw (ErrText "stale profile revision")
    else if pd_ProfileRevision cur =? newRevision then sql_ret tt
    else
      let noAvatar := is_cleared clearedFields "avatar" in
      UpsertPeerDirectorySigned p (pd_DisplayName cur) (pd_PublicKeyHex cur)
        (merge_str (is_cleared clearedFields "email") (pd_Email cur) email)
        (merge_str (is_cleared clearedFields "phone") (pd_Phone cur) phone)
        (merge_str noAvatar (pd_AvatarHash cur) (ToLower avatarHash))
        (merge_str noAvatar (pd_AvatarMime cur) avatarMime)
        (if noAvatar then 0 else if str_eqb (TrimSpace avatarHash) "" then pd_AvatarUpdatedAt cur else avatarUpdatedAt)
        newRevision (hex_EncodeToString signature).

End ProfileStore.

(** ** The service *)
Module Profiles.

(** [base64.StdEncoding.EncodeToString] *)
Definition b64_digit (n : Z) : byte :=
  nth (Z.to_nat n) (str_bytes "ABCDEFGHIJKLMNOPQRSTUVWXYZabcdefghijklmnopqrstuvwxyz0123456789+/") Byte.x00.
Definition b64_block (a b c : byte) : bytes :=
  let z x := Z.of_N (Byte.to_N x) in
  let v := Z.lor (Z.shiftl (z a) 16) (Z.lor (Z.shiftl (z b) 8) (z c)) in
  (fun s => b64_digit (Z.land (Z.shiftr v s) 63)) <$> [18; 12; 6; 0].
Fixpoint b64 (l : bytes) : bytes :=
  match l with
  | a :: b :: c :: l => b64_block a b c ++ b64 l
  | [a; b] => take 3 (b64_block a b Byte.x00) ++ str_bytes "="
  | [a] => take 2 (b64_block a Byte.x00 Byte.x00) ++ str_bytes "=="
  | [] => []
  end.

(** [avatarDataURL] *)
Definition avatarDataURL (mime : string) (data : bytes) : string :=
  if str_eqb mime "" || is_empty data then "" else "data:" +:+ mime +:+ ";base64," +:+ bytes_str (b64 data).

(** [validateAvatarImageBytes]: the magic numbers *)
Definition png_magic : bytes := [Byte.x89; Byte.x50; Byte.x4e; Byte.x47].
Definition part (from to : nat) (l : bytes) : bytes := take (to - from) (drop from l).
Definition validateAvatarImageBytes (data : bytes) : result string :=
  let n := length data in
  let has (at_ : nat) (b : bytes) := bool_decide (part at_ (at_ + length b) data = b) in
  if is_empty data then inr (ErrText "empty image")
  else if Z.of_nat n >? ProfileStore.MaxAvatarBytes then
    inr (ErrText "avatar image exceeds storage/sync limit; the UI must compress before upload, or choose a smaller image")
  else if (8 <=? n)%nat && has 0%nat png_magic && has 4%nat [Byte.x0d; Byte.x0a; Byte.x1a; Byte.x0a] then inl "image/png"
  else if (7 <=? n)%nat && has 0%nat png_magic && has 4%nat [Byte.x0a; Byte.x1a; Byte.x0a] then inl "image/png"
  else if (3 <=? n)%nat && has 0%nat [Byte.xff; Byte.xd8; Byte.xff] then inl "image/jpeg"
  else if (12 <=? n)%nat && has 0%nat (str_bytes "RIFF") && has 8%nat (str_bytes "WEBP") then inl "image/webp"
  else inr (ErrText "unsupported image format (allowed: png, jpeg, webp)").

Definition errReplicationStaleProfile : GoError := ErrSentinel "replication: stale profile revision".
Definition errProfileUnknownPublicKey : GoError := ErrSentinel "profile: unknown MLS public key".
Definition profileWireVersion : Z := 1.

(** [UserProfileInfo] *)
Record UserProfileInfo := mkProfileInfo {
  up_PeerID : string;
  up_DisplayName : string;
  up_Email : string;
  up_Phone : string;
  up_AvatarHash : string;
  up_AvatarDataURL : string;
  up_ProfileUpdated : Z;
}.

(** [peerRowFromLocal] *)
Definition peerRowFromLocal (l : LocalProfileRow) : PeerDirectoryRow :=
  mkPeerDirectoryRow "" "" "" (lp_Email l) (lp_Phone l) (lp_AvatarHash l) (lp_AvatarMime l) (lp_AvatarUpdatedAt l)
    (lp_ProfileRevision l) None (lp_UpdatedAt l).

(** [computeProfileClears] *)
Definition computeProfileClears (before after : LocalProfileRow) : list string :=
  (if bool_decide (is_Some (lp_Email before)) && negb (bool_decide (is_Some (lp_Email after))) then ["email"] else []) ++
  (if bool_decide (is_Some (lp_Phone before)) && negb (bool_decide (is_Some (lp_Phone after))) then ["phone"] else []) ++
  (if bool_decide (is_Some (lp_AvatarHash before)) && negb (bool_decide (is_Some (lp_AvatarHash after))) then ["avatar"] else []).

(** The wire of [refreshSignedSelfPeerDirectory], [packSignedProfilePushPayload] and
    [fillAuthHandshakeProfileAnnexLocked] *)
Definition local_wire (peerID : string) (identity : MLSIdentity) (l : LocalProfileRow) (cleared : list string) : profileWireV1 :=
  mkProfileWire profileWireVersion peerID (mi_DisplayName identity) (default "" (lp_Email l)) (default "" (lp_Phone l))
    (TrimSpace (ToLower (default "" (lp_AvatarHash l)))) (TrimSpace (default "" (lp_AvatarMime l))) (lp_AvatarUpdatedAt l)
    (lp_ProfileRevision l) cleared.
(** [sql.NullString] of a value that may be empty *)
Definition null_string (s : string) : option string := if str_eqb s "" then None else Some s.

Section Methods.
Context {PC : PeerCodec} {ED : Ed25519} {JP : JSON profileWireV1} (re : RtEnv).
#[local] Abbreviation app := Runtime.app.

Definition not_ready {A} : RT A := sql_throw (ErrText "app not initialized").
Definition with_app {A} (m : RT A) : RT A := if re_db re then m else not_ready.
Definition with_key {A} (m : RT A) : RT A := if re_db re && bool_decide (is_Some (re_privKey re)) then m else not_ready.

(** [profileBlobRefsFromWire] *)
Definition blob_refs (hash : string) : list (string * bool) :=
  let h := TrimSpace (ToLower hash) in if str_eqb h "" then [] else [(h, true)].
Definition profileBlobRefsFromWire (wireJSON : bytes) : list (string * bool) :=
  from_option (fun w => blob_refs (pf_AvatarHash w)) [] (json_Unmarshal wireJSON).

(** [buildUserProfileInfo] *)
Definition buildUserProfileInfo (peerID displayName : string) (row : PeerDirectoryRow) (updatedAt : Z) : RT UserProfileInfo :=
  let hash := TrimSpace (default "" (pd_AvatarHash row)) in
  url <-! (if str_eqb hash "" || negb (re_db re) then sql_ret ""
           else
             b <-! sql_try (app (ProfileStore.GetAvatarBlob hash)) ;
             sql_ret (match b with
               | inl (mime, blob) =>
                   let m := TrimSpace mime in
                   if is_empty blob then ""
                   else avatarDataURL (if str_eqb m "" then TrimSpace (default "" (pd_AvatarMime row)) else m) blob
               | inr _ => ""
               end)) ;
  sql_ret (mkProfileInfo (TrimSpace peerID) (TrimSpace displayName) (default "" (pd_Email row)) (default "" (pd_Phone row))
    hash url updatedAt).

(** [ensureLocalProfileSeeded] *)
Definition ensureLocalProfileSeeded : RT unit :=
  with_key (
    p <-! Runtime.GetOnboardingInfo re ;
    identity <-! Runtime.GetMLSIdentity ;
    app (ProfileStore.EnsureLocalProfileRow p (mi_DisplayName identity)) ;;!
    app (ProfileStore.EnsureLocalProfileRevisionFloor 1) ;;!
    app (ProfileStore.SyncLocalProfileIdentity p (mi_DisplayName identity))).

(** [nextLocalProfileRevision] *)
Definition nextLocalProfileRevision : RT Z :=
  row <-! app ProfileStore.GetLocalProfile ; sql_ret (i64 (lp_ProfileRevision row + 1)).

(** A signed wire. *)
Definition sign_wire (identity : MLSIdentity) (raw : bytes) : RT bytes :=
  priv <-! Roster.of_result (Membership.normalizeMLSEd25519PrivateKey (mi_SigningKeyPrivate identity)) ;
  sql_ret (ed_Sign priv raw).

(** [refreshSignedSelfPeerDirectory] *)
Definition refreshSignedSelfPeerDirectory (cleared : list string) : RT unit :=
  with_key (
    p <-! Runtime.GetOnboardingInfo re ;
    identity <-! Runtime.GetMLSIdentity ;
    local <-! app ProfileStore.GetLocalProfile ;
    let pubHex := ToLower (hex_EncodeToString (mi_PublicKey identity)) in
    sql_ignore (app (Roster.UpsertPeerProfileWithKey p (mi_DisplayName identity) pubHex)) ;;!
    let w := local_wire p identity local cleared in
    let raw := json_Marshal w in
    sig <-! sign_wire identity raw ;
    app (ProfileStore.UpsertPeerDirectorySigned p (mi_DisplayName identity) pubHex (null_string (pf_Email w)) (null_string (pf_Phone w))
      (null_string (pf_AvatarHash w)) (null_string (pf_AvatarMime w)) (pf_AvatarUpdatedAt w) (lp_ProfileRevision local)
      (hex_EncodeToString sig)) ;;!
    (if bool_decide (is_Some (re_node re)) then Runtime.effect (Go (GSetProfileAnnex raw sig)) else sql_ret tt)).

(** [packSignedProfilePushPayload]: the wire, its signature and the avatar *)
Definition packSignedProfilePushPayload (cleared : list string) : RT (bytes * bytes * bytes) :=
  with_key (
    ensureLocalProfileSeeded ;;!
    p <-! Runtime.GetOnboardingInfo re ;
    identity <-! Runtime.GetMLSIdentity ;
    local <-! app ProfileStore.GetLocalProfile ;
    let w := local_wire p identity local cleared in
    let raw := json_Marshal w in
    sig <-! sign_wire identity raw ;
    blob <-! (if str_eqb (pf_AvatarHash w) "" then sql_ret []
              else b <-! sql_try (app (ProfileStore.GetAvatarBlob (pf_AvatarHash w))) ;
                   sql_ret (match b with inl b => b.2 | inr _ => [] end)) ;
    sql_ret (raw, sig, blob)).

(** [fillAuthHandshakeProfileAnnexLocked]: what is attached to the handshake *)
Definition annex_payload : RT (bytes * bytes) :=
  with_key (
    p <-! Runtime.GetOnboardingInfo re ;
    identity <-! Runtime.GetMLSIdentity ;
    app (ProfileStore.EnsureLocalProfileRow p (mi_DisplayName identity)) ;;!
    app (ProfileStore.SyncLocalProfileIdentity p (mi_DisplayName identity)) ;;!
    local <-! app ProfileStore.GetLocalProfile ;
    let raw := json_Marshal (local_wire p identity local []) in
    sig <-! sign_wire identity raw ; sql_ret (raw, sig)).
Definition fillAuthHandshakeProfileAnnexLocked : RT (option (bytes * bytes)) :=
  r <-! sql_try annex_payload ; sql_ret (match r with inl p => Some p | inr _ => None end).

(** [persistOwnReplicatedProfile] of [replicated_sync.go] *)
Definition persistOwnReplicatedProfile (wireJSON signature : bytes) : RT unit :=
  match json_Unmarshal wireJSON with
  | None => sql_throw (ErrText "profile wire: invalid character in JSON")
  | Some w =>
      with_app (
        identity <-! Runtime.GetMLSIdentity ;
        let body := bytes_str wireJSON in
        app (Replicated.PutReplicatedRecordForce (Replicated.mkPut Replicated.NamespaceUserProfileV1 (pf_PeerID w) (pf_PeerID w)
          (pf_ProfileRevision w) 1 body (Replicated.ReplicatedBodyHash body) signature
          (ToLower (hex_EncodeToString (mi_PublicKey identity))) 0 (profileBlobRefsFromWire wireJSON))))
  end.

(** [GetMyProfile] *)
Definition GetMyProfile : RT UserProfileInfo :=
  Runtime.ensureSessionActive re ;;!
  with_key (
    ensureLocalProfileSeeded ;;!
    p <-! Runtime.GetOnboardingInfo re ;
    identity <-! Runtime.GetMLSIdentity ;
    row <-! sql_try (app (Roster.GetPeerDirectoryProfile p)) ;
    match row with
    | inr e => if errors_Is e sql_ErrNoRows
               then local <-! app ProfileStore.GetLocalProfile ;
                    buildUserProfileInfo p (mi_DisplayName identity) (peerRowFromLocal local) (lp_UpdatedAt local)
               else sql_throw e
    | inl row => app ProfileStore.GetLocalProfile ;;! buildUserProfileInfo p (mi_DisplayName identity) row (pd_UpdatedAt row)
    end).

(** [GetPeerProfile] *)
Definition GetPeerProfile (peerID : string) : RT UserProfileInfo :=
  Runtime.ensureSessionActive re ;;!
  let p := TrimSpace peerID in
  if str_eqb p "" then sql_throw (ErrText "peer_id is required")
  else if bool_decide (peer_Decode p = None) then sql_throw (ErrText "invalid peer_id")
  else with_app (row <-! app (Roster.GetPeerDirectoryProfile p) ; buildUserProfileInfo p (pd_DisplayName row) row (pd_UpdatedAt row)).

(** [memberAvatarDataURL] *)
Definition memberAvatarDataURL (peerID : string) : RT string :=
  if negb (re_db re) then sql_ret ""
  else
    row <-! sql_try (app (Roster.GetPeerDirectoryProfile peerID)) ;
    match row with
    | inr _ => sql_ret ""
    | inl row => info <-! sql_try (buildUserProfileInfo peerID (pd_DisplayName row) row (pd_UpdatedAt row)) ;
                 sql_ret (match info with inl i => up_AvatarDataURL i | inr _ => "" end)
    end.

(** The avatar of [SaveMyProfile]: 0 leaves it, 1 replaces it, 2 removes it. *)
Definition save_avatar (image : bytes) (avatarChange nextRev : Z) : RT unit :=
  if avatarChange =? 0 then sql_ret tt
  else if avatarChange =? 1 then
    if is_empty image then sql_throw (ErrText "avatar image bytes required when replacing avatar")
    else
      mime <-! Roster.of_result (validateAvatarImageBytes image) ;
      let hash := ProfileStore.AvatarContentHash image in
      app (ProfileStore.UpsertAvatarBlob hash mime image) ;;!
      now <-! unix_now ;
      app (ProfileStore.SaveLocalProfileAvatar hash mime now nextRev)
  else if avatarChange =? 2 then app (ProfileStore.ClearLocalProfileAvatar nextRev)
  else sql_throw (ErrText "invalid avatarChange").

(** [SaveMyProfile] up to its replication: the fields that were cleared *)
Definition save_profile (email phone : string) (image : bytes) (avatarChange : Z) : RT (list string) :=
  Runtime.ensureSessionActive re ;;!
  with_key (
    ensureLocalProfileSeeded ;;!
    before <-! app ProfileStore.GetLocalProfile ;
    nextRev <-! nextLocalProfileRevision ;
    app (ProfileStore.SaveLocalProfileContacts (null_string (TrimSpace email)) (null_string (TrimSpace phone)) nextRev) ;;!
    save_avatar image avatarChange nextRev ;;!
    after <-! app ProfileStore.GetLocalProfile ;
    let clears := computeProfileClears before after in
    refreshSignedSelfPeerDirectory clears ;;! sql_ret clears).

(** [ClearMyAvatar] up to its replication *)
Definition clear_avatar : RT (list string) :=
  Runtime.ensureSessionActive re ;;!
  with_key (
    ensureLocalProfileSeeded ;;!
    before <-! app ProfileStore.GetLocalProfile ;
    nextRev <-! nextLocalProfileRevision ;
    app (ProfileStore.ClearLocalProfileAvatar nextRev) ;;!
    after <-! app ProfileStore.GetLocalProfile ;
    let clears := computeProfileClears before after in
    refreshSignedSelfPeerDirectory clears ;;! sql_ret clears).

(** ** Records of other peers *)

(** The stored key of a peer, which must be known. *)
Definition signing_key (peerID : string) : RT (PeerDirectoryRow * bytes) :=
  existing <-! app (Roster.GetPeerDirectoryProfile peerID) ;
  let pubHex := TrimSpace (pd_PublicKeyHex existing) in
  if str_eqb pubHex "" then sql_throw (ErrWrap "peer" errProfileUnknownPublicKey)
  else match hex_DecodeString pubHex with
       | Some pub => if (length pub =? 32)%nat then sql_ret (existing, pub) else sql_throw (ErrText "invalid stored public key for peer")
       | None => sql_throw (ErrText "invalid stored public key for peer")
       end.

(** [verifyProfileWire], as the check it is used for *)
Definition check_signature (pub wireJSON signature : bytes) : RT unit :=
  if negb (length signature =? 64)%nat then sql_throw (ErrText "invalid signature length")
  else if Membership.verifyProfileWire pub wireJSON signature then sql_ret tt
  else sql_throw (ErrText "invalid profile signature").

(** The blob that comes with a record: it must be the one the record names. *)
Definition store_avatar_blob (hash mime : string) (blob : bytes) : RT unit :=
  if is_empty blob then sql_ret tt
  else if str_eqb (TrimSpace hash) "" then sql_throw (ErrText "unexpected avatar blob without hash in wire")
  else
    let want := ToLower (TrimSpace hash) in
    if negb (str_eqb (ProfileStore.AvatarContentHash blob) want) then sql_throw (ErrText "avatar content hash mismatch")
    else
      m <-! Roster.of_result (validateAvatarImageBytes blob) ;
      if negb (str_eqb (TrimSpace mime) "") && negb (str_eqb (TrimSpace mime) m) then sql_throw (ErrText "avatar mime mismatch")
      else app (ProfileStore.UpsertAvatarBlob want m blob).

(** [TryMergeReplicatedRecord], with the error of the caller for a stale record *)
Definition merge_record (stale : GoError) (x : Replicated.ReplicatedPut) : RT unit :=
  merged <-! sql_try (app (Replicated.TryMergeReplicatedRecord x)) ;
  match merged with
  | inl _ => sql_ret tt
  | inr e => sql_throw (if errors_Is e Replicated.ErrReplicatedStaleRevision then stale else e)
  end.

(** [applySignedRemoteProfilePush], [ApplySignedPeerProfile] *)
Definition applySignedRemoteProfilePush (peerID : string) (wireJSON signature blob : bytes) : RT unit :=
  Runtime.ensureSessionActive re ;;!
  let p := TrimSpace peerID in
  if str_eqb p "" then sql_throw (ErrText "peer_id is required")
  else with_app (
    ek <-! signing_key p ;
    check_signature ek.2 wireJSON signature ;;!
    match json_Unmarshal wireJSON with
    | None => sql_throw (ErrText "profile wire: invalid character in JSON")
    | Some w =>
        if negb (pf_V w =? profileWireVersion) then sql_throw (ErrText "unsupported profile wire version")
        else if negb (str_eqb (TrimSpace (pf_PeerID w)) p) then sql_throw (ErrText "peer_id mismatch in wire payload")
        else if negb (str_eqb (TrimSpace (pf_DisplayName w)) (TrimSpace (pd_DisplayName ek.1))) then
          sql_throw (ErrText "display_name mismatch in signed profile")
        else
          store_avatar_blob (pf_AvatarHash w) (pf_AvatarMime w) blob ;;!
          let body := bytes_str wireJSON in
          merge_record errReplicationStaleProfile (Replicated.mkPut Replicated.NamespaceUserProfileV1 p p (pf_ProfileRevision w) 1 body
            (Replicated.ReplicatedBodyHash body) signature (TrimSpace (pd_PublicKeyHex ek.1)) 0 (profileBlobRefsFromWire wireJSON)) ;;!
          app (ProfileStore.MergePeerDirectoryProfile p (pf_ProfileRevision w) (pf_Email w) (pf_Phone w) (pf_AvatarHash w)
            (pf_AvatarMime w) (pf_AvatarUpdatedAt w) signature (pf_ClearedFields w)) ;;!
          Runtime.effect (Go (GAllMembersChanged "profile_push"))
    end).

(** [handleAuthProfileAnnex] *)
Definition handleAuthProfileAnnex (remote : peerID) (tok : option InvitationToken) (wireJSON signature : bytes) : RT unit :=
  match tok with
  | None => sql_ret tt
  | Some tok =>
      if is_empty (tk_PublicKey tok) || negb (re_db re) then sql_ret tt
      else
        sql_ignore (app (Roster.UpsertPeerProfileWithKey (peer_String remote) (tk_DisplayName tok)
          (ToLower (hex_EncodeToString (tk_PublicKey tok))))) ;;!
        sql_ignore (applySignedRemoteProfilePush (peer_String remote) wireJSON signature [])
  end.

End Methods.
End Profiles.
