(* ===== verification/ReplicaFrames.v ===== *)
(** * Frames of the replica store

    [adapter/p2p/replicated_store_wire.go]: a push is four frames, the answer to
    a pull is four frames per record and an empty one at the end; and
    [user_profile_push.go], the older protocol for profiles.  A stream is what
    can be read from it; a writer gives what it has written, and whether it
    went through. *)
From S2P Require Import Prelude GoStrings Sha256 Types Wire Runtime Auth.

Module ReplicaFrames.

Definition maxReplicaMetaBytes : Z := 4096.
Definition maxReplicaWireBytes : Z := 64 * 1024.
Definition maxReplicaSigBytes : Z := 128.
Definition maxReplicaBlobBytes : Z := 256 * 1024.
Definition maxReplicaReqBytes : Z := 64 * 1024.

(** [replicaReadFrame]: the frame, which may be empty, and the rest *)
Definition replicaReadFrame (s : bytes) (max : Z) : result (bytes * bytes) :=
  if (length s <? 4)%nat then inr (ErrText "unexpected EOF")
  else
    let n := Auth.be32 (take 4 s) in
    let rest := drop 4 s in
    if n >? max then inr (ErrText "replica frame length out of range")
    else if n =? 0 then inl ([], rest)
    else if Z.of_nat (length rest) <? n then inr (ErrText "unexpected EOF")
    else inl (take (Z.to_nat n) rest, drop (Z.to_nat n) rest).

(** [replicaWriteFrame] *)
Definition replicaWriteFrame (payload : bytes) (max : Z) : result bytes :=
  if Z.of_nat (length payload) >? max then inr (ErrText "replica frame length exceeds max")
  else inl (Auth.put_be32 (Z.of_nat (length payload)) ++ payload).

(** Frames one after the other: what is on the stream when one is refused stays. *)
Fixpoint write_all (frames : list (bytes * Z)) : bytes * option GoError :=
  match frames with
  | [] => ([], None)
  | (payload, max) :: frames =>
      match replicaWriteFrame payload max with
      | inr e => ([], Some e)
      | inl b => let (rest, e) := write_all frames in (b ++ rest, e)
      end
  end.

(** A record after its first frame: wire, signature and blob. *)
Definition record_frames (head wire signature blob : bytes) : list (bytes * Z) :=
  [(head, maxReplicaMetaBytes); (wire, maxReplicaWireBytes); (signature, maxReplicaSigBytes); (blob, maxReplicaBlobBytes)].

(** [emit] of [InstallReplicaStoreSyncHandler] *)
Definition emit_record `{JSON ReplicaPullRecordHeaderV1} (key : string) (revision : Z) (wire signature blob : bytes)
  : bytes * option GoError :=
  write_all (record_frames (json_Marshal (mkPullHeader 1 key revision)) wire signature blob).

(** The three frames after the first one. *)
Definition read_record (s : bytes) : result ((bytes * bytes * bytes) * bytes) :=
  match replicaReadFrame s maxReplicaWireBytes with
  | inr e => inr e
  | inl (wire, s) =>
      match replicaReadFrame s maxReplicaSigBytes with
      | inr e => inr e
      | inl (sig, s) =>
          match replicaReadFrame s maxReplicaBlobBytes with
          | inr e => inr e
          | inl (blob, s) => inl ((wire, sig, blob), s)
          end
      end
  end.

(** [PushReplicaStoreRecord]: what it writes to a stream that opens *)
Definition PushReplicaStoreRecord `{JSON ReplicaPushMetaV1} (meta : ReplicaPushMetaV1) (wire signature blob : bytes) : result bytes :=
  if is_empty wire || is_empty signature then inr (ErrText "wire and signature are required")
  else
    let metaBytes := json_Marshal (mkPushMeta 1 (pm_Namespace meta) (pm_RecordKey meta)) in
    if Z.of_nat (length metaBytes) >? maxReplicaMetaBytes then inr (ErrText "meta too large")
    else if (Z.of_nat (length wire) >? maxReplicaWireBytes) || (Z.of_nat (length signature) >? maxReplicaSigBytes) then
      inr (ErrText "wire or signature too large")
    else if Z.of_nat (length blob) >? maxReplicaBlobBytes then inr (ErrText "blob too large")
    else match write_all (record_frames metaBytes wire signature blob) with
         | (b, None) => inl b
         | (_, Some e) => inr (ErrWrap "write" e)
         end.

(** What the handler of [InstallReplicaStorePushHandler] passes on *)
Definition read_push `{JSON ReplicaPushMetaV1} (s : bytes) : option (ReplicaPushMetaV1 * bytes * bytes * bytes) :=
  match replicaReadFrame s maxReplicaMetaBytes with
  | inr _ => None
  | inl (metaBytes, s) =>
      if is_empty metaBytes then None
      else match json_Unmarshal metaBytes, read_record s with
           | Some meta, inl ((wire, sig, blob), _) => Some (meta, wire, sig, blob)
           | _, _ => None
           end
  end.

(** The request of [PullReplicaStoreRecords], and what the handler of
    [InstallReplicaStoreSyncHandler] reads of it *)
Definition write_request `{JSON ReplicaPullRequestV1} (req : ReplicaPullRequestV1) : result bytes :=
  let payload := json_Marshal (mkPullRequest 1 (pq_Namespace req) (pq_Keys req) (pq_Cursors req)) in
  if Z.of_nat (length payload) >? maxReplicaReqBytes then inr (ErrText "replica pull request too large")
  else replicaWriteFrame payload maxReplicaReqBytes.
Definition read_request `{JSON ReplicaPullRequestV1} (s : bytes) : option ReplicaPullRequestV1 :=
  match replicaReadFrame s maxReplicaReqBytes with
  | inl (reqBytes, _) => if is_empty reqBytes then None else json_Unmarshal reqBytes
  | inr _ => None
  end.

(** A record of an answer *)
Record Pulled := mkPulled { pu_key : string; pu_revision : Z; pu_wire : bytes; pu_signature : bytes; pu_blob : bytes }.

(** One round of the loop of [PullReplicaStoreRecords]: the end, or a record
    and the rest of the stream *)
Definition next_record `{JSON ReplicaPullRecordHeaderV1} (s : bytes) : result (option (Pulled * bytes)) :=
  match replicaReadFrame s maxReplicaMetaBytes with
  | inr e => inr e
  | inl (hdrBytes, s) =>
      if is_empty hdrBytes then inl None
      else match json_Unmarshal hdrBytes with
           | None => inr (ErrText "header: invalid character in JSON")
           | Some hdr =>
               match read_record s with
               | inr e => inr e
               | inl ((wire, sig, blob), s) => inl (Some (mkPulled (ph_Key hdr) (ph_Revision hdr) wire sig blob, s))
               end
           end
  end.

(** ** The protocol for profiles *)

Definition maxUserProfileWireBytes : Z := 64 * 1024.
Definition maxUserProfileSigBytes : Z := 128.
Definition maxUserProfileBlobBytes : Z := 256 * 1024.

(** [readFramed] *)
Definition readFramed (s : bytes) (max : Z) : result (bytes * bytes) :=
  if (length s <? 4)%nat then inr (ErrText "unexpected EOF")
  else
    let n := Auth.be32 (take 4 s) in
    let rest := drop 4 s in
    if n >? max then inr (ErrText "frame length out of range")
    else if n =? 0 then inl ([], rest)
    else if Z.of_nat (length rest) <? n then inr (ErrText "unexpected EOF")
    else inl (take (Z.to_nat n) rest, drop (Z.to_nat n) rest).

(** [writeFrame] *)
Definition writeFrame (payload : bytes) (max : Z) : result bytes :=
  if Z.of_nat (length payload) >? max then inr (ErrText "frame length exceeds max")
  else inl (Auth.put_be32 (Z.of_nat (length payload)) ++ payload).

(** What the handler of [InstallUserProfilePushHandler] passes on *)
Definition read_profile_push (s : bytes) : option (bytes * bytes * bytes) :=
  match readFramed s maxUserProfileWireBytes with
  | inr _ => None
  | inl (wire, s) =>
      match readFramed s maxUserProfileSigBytes with
      | inr _ => None
      | inl (sig, s) =>
          match readFramed s maxUserProfileBlobBytes with
          | inr _ => None
          | inl (blob, _) => Some (wire, sig, blob)
          end
      end
  end.

(** [PushUserProfileToPeer]: what it writes to a stream that opens *)
Definition PushUserProfileToPeer (wire signature blob : bytes) : result bytes :=
  if is_empty wire || is_empty signature then inr (ErrText "wire and signature are required")
  else if (Z.of_nat (length wire) >? maxUserProfileWireBytes) || (Z.of_nat (length signature) >? maxUserProfileSigBytes) then
    inr (ErrText "wire or signature too large")
  else if Z.of_nat (length blob) >? maxUserProfileBlobBytes then inr (ErrText "avatar blob too large")
  else match writeFrame wire maxUserProfileWireBytes, writeFrame signature maxUserProfileSigBytes, writeFrame blob maxUserProfileBlobBytes with
       | inl w, inl s, inl b => inl (w ++ s ++ b)
       | inr e, _, _ => inr (ErrWrap "write wire" e)
       | _, inr e, _ => inr (ErrWrap "write sig" e)
       | _, _, inr e => inr (ErrWrap "write blob" e)
       end.

End ReplicaFrames.
