(* ===== verification/SqlLogic.v ===== *)
(** * A logic for the services

    [swp m Q d]: whatever statement fails and whatever the clock shows, [m]
    run on [d] ends in a result and a state that satisfy [Q].  The rules follow
    the structure of the code; [swp_step] applies them. *)
From S2P Require Import Prelude GoStrings Sha256 Types SingleWriter Database.
From S2P Require Import Store HealStore AppDatabase Identity Runtime.

Definition swp {D A} (m : SQLs D A) (Q : result A -> D -> Prop) (d : D) : Prop :=
  forall env t, Q (m env t d).1.1 (m env t d).2.

Section Rules.
Context {D : Type}.

Lemma swp_mono {A} (m : SQLs D A) (Q Q' : result A -> D -> Prop) d :
  (forall r d', Q r d' -> Q' r d') -> swp m Q d -> swp m Q' d.
Proof. intros HQ H env t. apply HQ, H. Qed.

Lemma swp_ret {A} (a : A) Q (d : D) : Q (inl a) d -> swp (sql_ret a) Q d.
Proof. by intros H env t. Qed.
Lemma swp_throw {A} e (Q : result A -> D -> Prop) d : Q (inr e) d -> swp (sql_throw e) Q d.
Proof. by intros H env t. Qed.

Lemma swp_bind {A B} (m : SQLs D A) (k : A -> SQLs D B) Q d :
  swp m (fun r d' => match r with inl a => swp (k a) Q d' | inr e => Q (inr e) d' end) d ->
  swp (sql_bind m k) Q d.
Proof.
  intros H env t. specialize (H env t). unfold sql_bind. destruct (m env t d) as [[[a|e] t'] d']; [apply H|done].
Qed.

Lemma swp_wrap {A} c (m : SQLs D A) Q d :
  swp m (fun r d' => Q (match r with inl a => inl a | inr e => inr (ErrWrap c e) end) d') d -> swp (sql_wrap c m) Q d.
Proof.
  intros H env t. specialize (H env t). unfold sql_wrap. by destruct (m env t d) as [[[a|e] t'] d'].
Qed.

Lemma swp_try {A} (m : SQLs D A) Q d : swp m (fun r d' => Q (inl r) d') d -> swp (sql_try m) Q d.
Proof. intros H env t. specialize (H env t). unfold sql_try. by destruct (m env t d) as [[r t'] d']. Qed.

Lemma swp_ignore {A} (m : SQLs D A) Q d : swp m (fun _ d' => Q (inl tt) d') d -> swp (sql_ignore m) Q d.
Proof. intros H env t. specialize (H env t). unfold sql_ignore. by destruct (m env t d) as [[r t'] d']. Qed.

Lemma swp_query {A} (f : D -> A) Q d : Q (inl (f d)) d -> (forall e, Q (inr (ErrText e)) d) -> swp (sql_query f) Q d.
Proof. intros H He env t. unfold sql_query. destruct (sql_fails env t); [apply He|apply H]. Qed.

Lemma swp_row {A} (f : D -> option A) Q d :
  (forall a, f d = Some a -> Q (inl a) d) -> (f d = None -> Q (inr sql_ErrNoRows) d) ->
  (forall e, Q (inr (ErrText e)) d) -> swp (sql_row f) Q d.
Proof.
  intros H Hn He. apply swp_bind, swp_query; [|done].
  destruct (f d); [by apply swp_ret, H|by apply swp_throw, Hn].
Qed.

Lemma swp_exec (f : D -> D) Q d : Q (inl tt) (f d) -> (forall e, Q (inr (ErrText e)) d) -> swp (sql_exec f) Q d.
Proof. intros H He env t. unfold sql_exec. destruct (sql_fails env t); [apply He|apply H]. Qed.

Lemma swp_update (f : D -> D * Z) Q d :
  Q (inl (f d).2) (f d).1 -> (forall e, Q (inr (ErrText e)) d) -> swp (sql_update f) Q d.
Proof. intros H He env t. unfold sql_update. destruct (sql_fails env t); [apply He|apply H]. Qed.

Lemma swp_time Q (d : D) : (forall t, Q (inl t) d) -> swp sql_time Q d.
Proof. intros H env t. apply H. Qed.

Lemma swp_unix_now Q (d : D) : (forall t, Q (inl t) d) -> swp unix_now Q d.
Proof. intros H. apply swp_bind, swp_time. intros t. apply swp_ret, H. Qed.

(** A read only computation, of which nothing but that is used. *)
Lemma swp_readonly {A} (m : SQLs D A) Q d : readonly m -> (forall r, Q r d) -> swp m Q d.
Proof. intros Hm H env t. rewrite Hm. apply H. Qed.

(** The same when the statements that fail are given. *)
Definition ewp {A} (env : SqlEnv) (m : SQLs D A) (Q : result A -> D -> Prop) (d : D) : Prop :=
  forall t, Q (m env t d).1.1 (m env t d).2.
Lemma swp_ewp {A} (m : SQLs D A) Q d : (forall env, ewp env m Q d) <-> swp m Q d.
Proof. done. Qed.
Lemma ewp_mono {A} env (m : SQLs D A) (Q Q' : result A -> D -> Prop) d :
  (forall r d', Q r d' -> Q' r d') -> ewp env m Q d -> ewp env m Q' d.
Proof. intros HQ H t. apply HQ, H. Qed.
Lemma ewp_ret {A} env (a : A) Q (d : D) : Q (inl a) d -> ewp env (sql_ret a) Q d.
Proof. by intros H t. Qed.
Lemma ewp_throw {A} env e (Q : result A -> D -> Prop) d : Q (inr e) d -> ewp env (sql_throw e) Q d.
Proof. by intros H t. Qed.
Lemma ewp_bind {A B} env (m : SQLs D A) (k : A -> SQLs D B) Q d :
  ewp env m (fun r d' => match r with inl a => ewp env (k a) Q d' | inr e => Q (inr e) d' end) d ->
  ewp env (sql_bind m k) Q d.
Proof.
  intros H t. specialize (H t). unfold sql_bind. destruct (m env t d) as [[[a|e] t'] d']; [apply H|done].
Qed.
Lemma ewp_try {A} env (m : SQLs D A) Q d : ewp env m (fun r d' => Q (inl r) d') d -> ewp env (sql_try m) Q d.
Proof. intros H t. specialize (H t). unfold sql_try. by destruct (m env t d) as [[r t'] d']. Qed.
Lemma ewp_wrap {A} env c (m : SQLs D A) Q d :
  ewp env m (fun r d' => Q (match r with inl a => inl a | inr e => inr (ErrWrap c e) end) d') d -> ewp env (sql_wrap c m) Q d.
Proof. intros H t. specialize (H t). unfold sql_wrap. by destruct (m env t d) as [[[a|e] t'] d']. Qed.
Lemma ewp_ignore {A} env (m : SQLs D A) Q d : ewp env m (fun _ d' => Q (inl tt) d') d -> ewp env (sql_ignore m) Q d.
Proof. intros H t. specialize (H t). unfold sql_ignore. by destruct (m env t d) as [[r t'] d']. Qed.
Lemma ewp_time env Q (d : D) : (forall t, Q (inl t) d) -> ewp env sql_time Q d.
Proof. intros H t. apply H. Qed.
Lemma ewp_unix_now env Q (d : D) : (forall t, Q (inl t) d) -> ewp env unix_now Q d.
Proof. intros H t. apply H. Qed.
Lemma ewp_respects {A} env (R : D -> D -> Prop) (m : SQLs D A) Q d :
  respects R m -> (forall r d', R d d' -> Q r d') -> ewp env m Q d.
Proof. intros H HQ t. apply HQ, H. Qed.
Lemma ewp_run {A} (m : SQLs D A) Q env t d r t' d' : ewp env m Q d -> m env t d = (r, t', d') -> Q r d'.
Proof. intros H E. specialize (H t). by rewrite E in H. Qed.

(** What a run of [m] satisfies. *)
Lemma swp_run {A} (m : SQLs D A) Q env t d r t' d' : swp m Q d -> m env t d = (r, t', d') -> Q r d'.
Proof. intros H E. specialize (H env t). by rewrite E in H. Qed.
End Rules.

(** Steps of the services. *)
Lemma swp_app {A} (m : ASQL A) Q s :
  swp m (fun r d => Q r (mkRtState d (rt_coords s) (rt_trace s))) (rt_app s) -> swp (Runtime.app m) Q s.
Proof.
  intros H env t. specialize (H env t). unfold Runtime.app. by destruct (m env t (rt_app s)) as [[r t'] d].
Qed.

Lemma swp_effect e Q s : Q (inl tt) (mkRtState (rt_app s) (rt_coords s) (rt_trace s ++ [e])) -> swp (Runtime.effect e) Q s.
Proof. by intros H env t. Qed.

Lemma swp_core {A} (m : SQL A) Q d : (forall r c, Q r (set_adb_core c d)) -> swp (core m) Q d.
Proof. intros H env t. unfold core. destruct (m env t (adb_core d)) as [[r t'] c]. apply H. Qed.

Ltac swp_step :=
  match goal with
  | |- swp (sql_bind _ _) _ _ => apply swp_bind
  | |- swp (sql_ret _) _ _ => apply swp_ret
  | |- swp (sql_throw _) _ _ => apply swp_throw
  | |- swp (sql_wrap _ _) _ _ => apply swp_wrap
  | |- swp (sql_try _) _ _ => apply swp_try
  | |- swp (sql_ignore _) _ _ => apply swp_ignore
  | |- swp (sql_query _) _ _ => apply swp_query; [|intros ?]
  | |- swp (sql_row _) _ _ => apply swp_row; [intros ? ?|intros ?|intros ?]
  | |- swp (sql_exec _) _ _ => apply swp_exec; [|intros ?]
  | |- swp (sql_update _) _ _ => apply swp_update; [|intros ?]
  | |- swp unix_now _ _ => apply swp_unix_now; intros ?
  | |- swp (Runtime.app _) _ _ => apply swp_app
  | |- swp (Runtime.effect _) _ _ => apply swp_effect
  | |- swp (core _) _ _ => apply swp_core; intros ? ?
  | |- swp (if ?b then _ else _) _ _ => let E := fresh "E" in destruct b eqn:E
  | |- swp (match ?o with _ => _ end) _ _ => let E := fresh "E" in destruct o eqn:E
  end.
