(* ===== verification/InviteStoreSpec.v ===== *)
(** * Correctness of the invite tables

    The keys of the invites, the decision of the user, what purging a group
    removes and keeps, and which replica of a key package wins. *)
From S2P Require Import Prelude GoStrings Sha256 Types SingleWriter Database.
From S2P Require Import Store StoreSpec HealStore AppDatabase Roster.
From S2P Require Import InviteStore Replicated Identity Runtime SqlLogic.

(** ** Rows updated in place *)

Section InPlace.
Context {A K : Type} (hit : A -> bool) (merge : A -> A) (key : A -> K).

Lemma upsert_by_keys x rows :
  (forall r, hit r = true -> key (merge r) = key r) ->
  key <$> upsert_by hit merge x rows = (key <$> rows) ++ (if existsb hit rows then [] else [key x]).
Proof.
  intros Hm. unfold upsert_by. destruct (existsb hit rows).
  - rewrite app_nil_r, <- list_fmap_compose. apply list_fmap_ext. intros _ r _. simpl. destruct (hit r) eqn:E; auto.
  - by rewrite fmap_app.
Qed.

Lemma update_where_keys (rows : list A) :
  (forall r, hit r = true -> key (merge r) = key r) ->
  key <$> ((fun r => if hit r then merge r else r) <$> rows) = key <$> rows.
Proof.
  intros Hm. rewrite <- list_fmap_compose. apply list_fmap_ext. intros _ r _. simpl. destruct (hit r) eqn:E; auto.
Qed.

Lemma existsb_false (l : list A) : existsb hit l = false <-> forall r, r ∈ l -> hit r = false.
Proof.
  rewrite <- not_true_iff_false, existsb_exists. split.
  - intros H r Hr. destruct (hit r) eqn:E; [|done]. exfalso. apply H. exists r. by rewrite <- list_elem_of_In.
  - intros H (r & Hr & E). rewrite (H r) in E; [done|by apply list_elem_of_In].
Qed.

(** At most one row is changed, and its new key is no other row's. *)
Lemma update_one_nodup (rows : list A) :
  NoDup (key <$> rows) -> (length (List.filter hit rows) <= 1)%nat ->
  (forall r s, r ∈ rows -> s ∈ rows -> hit r = true -> hit s = false -> key (merge r) <> key s) ->
  NoDup (key <$> ((fun r => if hit r then merge r else r) <$> rows)).
Proof.
  intros Hn Hl Hk. induction rows as [|r rows IH]; [constructor|]. cbn in Hn, Hl |- *. apply NoDup_cons in Hn as [Hni Hn].
  assert (Hk' : forall r s, r ∈ rows -> s ∈ rows -> hit r = true -> hit s = false -> key (merge r) <> key s).
  { intros a b Ha Hb. apply Hk; by right. }
  destruct (hit r) eqn:E; simpl in Hl; apply NoDup_cons; (split; [|by apply IH; [|lia|]]).
  - assert (Hno : List.filter hit rows = []) by (destruct (List.filter hit rows); simpl in *; [done|lia]).
    assert (Hall : forall s, s ∈ rows -> hit s = false).
    { intros s Hs. destruct (hit s) eqn:Es; [|done]. exfalso. eapply (in_nil (a := s)). rewrite <- Hno. apply filter_In.
      split; [by apply list_elem_of_In|done]. }
    intros (s & Es & Hs)%list_elem_of_fmap. apply list_elem_of_fmap in Hs as (s' & -> & Hs'). rewrite (Hall s' Hs') in Es.
    eapply (Hk r s'); [left|by right|done|by apply Hall|done].
  - intros (s & Es & Hs)%list_elem_of_fmap. apply list_elem_of_fmap in Hs as (s' & -> & Hs').
    destruct (hit s') eqn:Es'.
    + eapply (Hk s' r); [by right|left|done|done|done].
    + apply Hni. rewrite Es. by apply list_elem_of_fmap_2.
Qed.
End InPlace.

Lemma filter_keys_nodup {A K} (f : A -> bool) (key : A -> K) rows : NoDup (key <$> rows) -> NoDup (key <$> List.filter f rows).
Proof.
  intros Hn. eapply sublist_NoDup; [exact Hn|]. apply fmap_sublist. induction rows; simpl; [constructor|].
  apply NoDup_cons in Hn as [_ Hn]. case_match; by constructor; apply IHrows.
Qed.

(** ** The invites *)

Import InviteStore.

Inductive PendingInviteOp :=
| OpSave (inv : PendingInvite)
| OpMark (id status : string)
| OpForget (id : string)
| OpReopen (inv : PendingInvite).

Definition pending_op (op : PendingInviteOp) : ASQL unit :=
  match op with
  | OpSave inv => SavePendingInvite inv
  | OpMark id status => markPendingInviteStatus id status
  | OpForget id => DeletePendingInvite id
  | OpReopen inv => sql_ignore (ReopenRejectedInvite inv)
  end.

Fixpoint pending_run (ops : list PendingInviteOp) : ASQL unit :=
  match ops with
  | [] => sql_ret tt
  | op :: ops => sql_ignore (pending_op op) ;;! pending_run ops
  end.

Definition welcome_key (i : PendingInvite) : string * bytes := (pi_GroupID i, pi_WelcomeHash i).

Record pending_ok (d : AppDB) : Prop := {
  po_ids : NoDup (pi_ID <$> adb_pending_invites d);
  po_keys : NoDup (welcome_key <$> adb_pending_invites d);
}.

Lemma invite_hit_true g h i : invite_hit g h i = true <-> welcome_key i = (g, h).
Proof.
  unfold invite_hit, welcome_key. rewrite andb_true_iff, bool_decide_eq_true, str_eqb_true.
  split; [intros [-> ->]; done|by intros [= -> ->]].
Qed.

Lemma save_ok inv : respects (keeps pending_ok) (SavePendingInvite inv).
Proof.
  unfold SavePendingInvite. repeat asql_step; try reflexivity. intros [Hi Hk]. apply andb_false_iff in H.
  set (row := invite_row _ inv) in *. set (hit := invite_hit (pi_GroupID row) (pi_WelcomeHash row)) in *.
  split; simpl; rewrite upsert_by_keys by done.
  - destruct (existsb hit _) eqn:E; [by rewrite app_nil_r|]. destruct H as [H|H]; [done|].
    apply NoDup_app. split; [done|]. split; [|apply NoDup_singleton]. intros k Hk1 ->%list_elem_of_singleton.
    apply list_elem_of_fmap in Hk1 as (i & Ei & Hin). rewrite existsb_false in H. specialize (H i Hin).
    unfold invite_id in H. destruct (str_eqb_spec (pi_ID i) (pi_ID row)); [done|]. congruence.
  - destruct (existsb hit _) eqn:E; [by rewrite app_nil_r|]. apply NoDup_app. split; [done|]. split; [|apply NoDup_singleton].
    intros k Hk1 ->%list_elem_of_singleton. apply list_elem_of_fmap in Hk1 as (i & Ei & Hin). rewrite existsb_false in E.
    specialize (E i Hin). apply not_true_iff_false in E. apply E, invite_hit_true. by rewrite <- Ei.
Qed.

Lemma mark_ok id status : respects (keeps pending_ok) (markPendingInviteStatus id status).
Proof.
  unfold markPendingInviteStatus. repeat asql_step; try reflexivity. intros [Hi Hk]. split; simpl; by rewrite update_where_keys.
Qed.

Lemma forget_ok id : respects (keeps pending_ok) (DeletePendingInvite id).
Proof.
  unfold DeletePendingInvite. repeat asql_step; try reflexivity. intros [Hi Hk]. split; simpl; by apply filter_keys_nodup.
Qed.

Lemma reopen_ok inv : respects (keeps pending_ok) (ReopenRejectedInvite inv).
Proof.
  unfold ReopenRejectedInvite. repeat asql_step; try reflexivity. intros [Hi Hk]. rename H into Hr.
  set (g := TrimSpace _) in *. set (id := or_old _ _) in *. set (hash := if is_empty _ then _ else _) in *.
  unfold reopen_refused in Hr. apply orb_false_iff in Hr as [Hone Hother]. apply Z.ltb_ge in Hone.
  assert (Hfree : forall r s, r ∈ adb_pending_invites d -> s ∈ adb_pending_invites d -> last_rejected g d r = true ->
    last_rejected g d s = false -> invite_id id s = false /\ invite_hit g hash s = false /\ pi_GroupID r = g).
  { intros r s Hr Hs Er Es. assert (Hrej : existsb (last_rejected g d) (adb_pending_invites d) = true).
    { apply existsb_exists. exists r. by rewrite <- list_elem_of_In. }
    rewrite Hrej in Hother. simpl in Hother. rewrite existsb_false in Hother. specialize (Hother s Hs). rewrite Es in Hother.
    apply orb_false_iff in Hother as [? ?]. split_and!; [done|done|]. unfold last_rejected, rejected in Er. rewrite !andb_true_iff in Er.
    destruct Er as [[Eg _] _]. by apply str_eqb_true in Eg. }
  split; simpl; apply update_one_nodup; try done; try lia; intros r s Hr Hs Er Es; destruct (Hfree r s Hr Hs Er Es) as (H1 & H2 & H3).
  - simpl. intros E. unfold invite_id in H1. destruct (str_eqb_spec (pi_ID s) id); [done|]. congruence.
  - intros E. apply not_true_iff_false in H2. apply H2, invite_hit_true. rewrite <- E. unfold welcome_key. simpl. congruence.
Qed.

Lemma pending_op_ok op : respects (keeps pending_ok) (pending_op op).
Proof. destruct op; simpl; [apply save_ok|apply mark_ok|apply forget_ok|apply respects_ignore, reopen_ok]. Qed.

Lemma pending_run_ok ops : respects (keeps pending_ok) (pending_run ops).
Proof.
  induction ops as [|op ops IH]; simpl; repeat asql_step; [apply pending_op_ok|apply IH].
Qed.

(** *** The decision of the user *)

(** The invite is there, with its id, its Welcome and its status. *)
Definition kept_invite (i : PendingInvite) (d : AppDB) : Prop :=
  exists j, j ∈ adb_pending_invites d /\ pi_ID j = pi_ID i /\ welcome_key j = welcome_key i /\ pi_Status j = pi_Status i.

(** The invite is the one that was rejected last in the group of [inv]. *)
Definition reopens (i inv : PendingInvite) (d : AppDB) : Prop :=
  pi_Status i = "rejected" /\ pi_GroupID i = TrimSpace (pi_GroupID inv) /\
  exists j, j ∈ adb_pending_invites d /\ pi_ID j = pi_ID i /\
    forall k, k ∈ adb_pending_invites d -> pi_GroupID k = pi_GroupID i -> pi_Status k = "rejected" -> pi_UpdatedAt k <= pi_UpdatedAt j.

(** An operation that takes the decision back: it marks or deletes the invite,
    or reopens its group when it is the one that was rejected last. *)
Definition decides (i : PendingInvite) (op : PendingInviteOp) (d : AppDB) : Prop :=
  match op with
  | OpSave _ => False
  | OpMark id _ | OpForget id => id = pi_ID i
  | OpReopen inv => reopens i inv d
  end.
Fixpoint undecided (i : PendingInvite) (ops : list PendingInviteOp) (env : SqlEnv) (t : nat) (d : AppDB) : Prop :=
  match ops with
  | [] => True
  | op :: ops => ~ decides i op d /\ undecided i ops env (pending_op op env t d).1.2 (pending_op op env t d).2
  end.

Lemma kept_in_place (hit : PendingInvite -> bool) (merge : PendingInvite -> PendingInvite) i (rows : list PendingInvite) :
  (forall j, j ∈ rows -> hit j = true -> pi_ID j = pi_ID i -> welcome_key j = welcome_key i -> pi_Status j = pi_Status i ->
     pi_ID (merge j) = pi_ID i /\ welcome_key (merge j) = welcome_key i /\ pi_Status (merge j) = pi_Status i) ->
  (exists j, j ∈ rows /\ pi_ID j = pi_ID i /\ welcome_key j = welcome_key i /\ pi_Status j = pi_Status i) ->
  exists j, j ∈ ((fun r => if hit r then merge r else r) <$> rows) /\ pi_ID j = pi_ID i /\ welcome_key j = welcome_key i /\ pi_Status j = pi_Status i.
Proof.
  intros Hm (j & Hj & H1 & H2 & H3). exists (if hit j then merge j else j).
  split; [by apply (list_elem_of_fmap_2 (fun r => if hit r then merge r else r))|]. destruct (hit j) eqn:E; auto.
Qed.

Lemma save_decision i inv : terminal (pi_Status i) = true -> respects (keeps (kept_invite i)) (SavePendingInvite inv).
Proof.
  intros Ht. unfold SavePendingInvite. repeat asql_step; try reflexivity. unfold kept_invite, keeps. simpl. unfold upsert_by. case_match.
  - apply kept_in_place. intros j _ _ E1 E2 E3. split; [done|]. split; [done|]. simpl. by rewrite E3, Ht.
  - intros (j & Hj & Hr). exists j. split; [by apply elem_of_app; left|done].
Qed.

Lemma mark_decision i id status : id <> pi_ID i -> respects (keeps (kept_invite i)) (markPendingInviteStatus id status).
Proof.
  intros Hid. unfold markPendingInviteStatus. repeat asql_step; try reflexivity. unfold kept_invite, keeps. simpl. apply kept_in_place.
  intros j _ Hj E1. unfold invite_id in Hj. apply str_eqb_true in Hj. congruence.
Qed.

Lemma forget_decision i id : id <> pi_ID i -> respects (keeps (kept_invite i)) (DeletePendingInvite id).
Proof.
  intros Hid. unfold DeletePendingInvite. repeat asql_step; try reflexivity. intros (j & Hj & E1 & E2). exists j. simpl.
  split; [|done]. apply list_elem_of_In, filter_In. split; [by apply list_elem_of_In|].
  unfold invite_id. rewrite E1. apply negb_true_iff, str_eqb_false. congruence.
Qed.

Lemma reopen_decision i inv env t d : ~ reopens i inv d -> kept_invite i d -> kept_invite i (ReopenRejectedInvite inv env t d).2.
Proof.
  intros Hno Hk.
  assert (H : forall now id hash, kept_invite i (set_adb_pending_invites
    (update_where (last_rejected (TrimSpace (pi_GroupID inv)) d) (reopened now id hash inv) (adb_pending_invites d)).1 d)).
  { intros now id hash. revert Hk. unfold kept_invite. simpl. apply kept_in_place. intros j Hin Hj E1 E2 E3. exfalso. apply Hno.
    unfold last_rejected, rejected in Hj. rewrite !andb_true_iff, !str_eqb_true, forallb_forall in Hj. destruct Hj as [[Hg Hs] Hlast].
    assert (Eg : pi_GroupID i = TrimSpace (pi_GroupID inv)) by (injection E2; congruence).
    split; [by rewrite <- E3|]. split; [done|]. exists j. split_and!; try done. intros k Hkin Hkg Hks. apply list_elem_of_In in Hkin.
    specialize (Hlast k Hkin). rewrite Hkg, Eg, Hks in Hlast. unfold PendingInviteStatusRejected in Hlast.
    rewrite !(proj2 (str_eqb_true _ _)) in Hlast by done. simpl in Hlast. lia. }
  unfold ReopenRejectedInvite, unix_now, sql_bind, sql_time, sql_wrap, sql_update_unique, sql_bind, sql_query, sql_update, sql_throw.
  cbv zeta.
  repeat (case_match; simplify_eq/=; try done); apply H.
Qed.

(** C31: A decision sticks.  From a table with proper keys, any sequence of saves,
    marks, deletions and reopenings, whatever statement fails, leaves ids and
    Welcomes of invites unique, and an invite that the user has accepted or
    rejected is still there, with its Welcome and that status, unless the
    sequence marks it, deletes it, or reopens its group while it is the invite
    of the group that was rejected last.  So an accepted invite stays accepted
    whatever is saved and reopened, and saving the Welcome of a rejected one
    again does not make it pending. *)
Theorem invite_decision_sticks ops env t d i :
  pending_ok d -> i ∈ adb_pending_invites d -> terminal (pi_Status i) = true ->
  undecided i ops env t d ->
  pending_ok (pending_run ops env t d).2 /\ kept_invite i (pending_run ops env t d).2.
Proof.
  intros Hok Hi Ht Hops. split; [by apply pending_run_ok|].
  assert (H0 : kept_invite i d) by (by exists i). clear Hok Hi. revert t d H0 Hops.
  induction ops as [|op ops IH]; intros t d H0 Hops; simpl; [done|]. destruct Hops as [Hop Hops].
  assert (H1 : kept_invite i (pending_op op env t d).2).
  { destruct op; simpl in *; [by apply save_decision|by apply mark_decision|by apply forget_decision|].
    unfold sql_ignore. pose proof (reopen_decision i inv env t d Hop H0) as Hr. by destruct (ReopenRejectedInvite inv env t d) as [[? ?] ?]. }
  unfold sql_bind, sql_ignore. destruct (pending_op op env t d) as [[r t1] d1]. by apply IH.
Qed.

Definition sample_invite (status : string) (b : byte) : PendingInvite :=
  mkPendingInvite (PendingInviteID "g" [b]) "g" "group" "" "" "" (pendingInviteHash [b]) [b] "alice" status 5 5.
Definition sample_pending : AppDB := set_adb_pending_invites [sample_invite "rejected" x01; sample_invite "pending" x02] adb_empty.

Lemma sample_pending_ok : pending_ok sample_pending.
Proof. split; apply (bool_decide_eq_true _); vm_compute; reflexivity. Qed.

(** A rejected invite whose Welcome is saved again, while another one of the
    group is accepted and another group is reopened. *)
Lemma invite_decision_sticks_witness :
  kept_invite (sample_invite "rejected" x01)
    (pending_run [OpSave (sample_invite "pending" x01); OpMark (PendingInviteID "g" [x02]) "accepted";
       OpReopen (mkPendingInvite "" "h" "group" "" "" "" [] [x01] "alice" "pending" 5 5)]
       (quiet_env (fun n => Z.of_nat n * Second)) O sample_pending).2.
Proof.
  apply invite_decision_sticks; [apply sample_pending_ok|apply list_elem_of_In; left; reflexivity|reflexivity|].
  split; [intros []|]. split; [intros E; vm_compute in E; discriminate E|]. split; [|exact I].
  intros (_ & E & _). vm_compute in E. discriminate E.
Defined.

(** ** Purging a group *)

Import GroupMeta.

(** The rows of a group in a table. *)
Definition rows_of {A} (group : A -> string) (g : string) (rows : list A) : list A := filter (fun r => group r = g) rows.

(** Nothing is left of a group in the fifteen tables that are purged. *)
Record forgotten (g : string) (d : AppDB) : Prop := {
  fg_group : db_groups (adb_core d) !! g = None /\ adb_group_cols d !! g = None;
  fg_members : forall p, adb_members d !! (g, p) = None;
  fg_coord : db_coord (adb_core d) !! g = None;
  fg_add_ops : forall id r, adb_add_ops d !! id = Some r -> ao_GroupID r <> g;
  fg_welcomes_out : rows_of pw_GroupID g (adb_welcomes_out d) = [];
  fg_stored_welcomes : rows_of stw_GroupID g (adb_stored_welcomes d) = [];
  fg_invites : rows_of pi_GroupID g (adb_pending_invites d) = [];
  fg_applied_welcomes : forall f r, adb_applied_welcomes d !! f = Some r -> r.1 <> g;
  fg_applied : forall h, db_applied (adb_core d) !! (g, h) = None;
  fg_log : rows_of (fun r => er_GroupID (lr_rec r)) g (db_log (adb_core d)) = [];
  fg_dedup : forall h, db_dedup (adb_core d) !! (g, h) = None;
  fg_events : rows_of ge_GroupID g (adb_events d) = [];
  fg_heal_events : rows_of (fun r => fhe_GroupID (her_rec r)) g (db_heal_events (adb_core d)) = [];
  fg_heal_audit : rows_of (fun r => fhr_GroupID (har_rec r)) g (db_heal_audit (adb_core d)) = [];
  fg_requests : forall id r, adb_invites d !! id = Some r -> ir_GroupID (iv_rec r) <> g;
}.

(** The tables that are not purged. *)
Definition unpurged (d : AppDB) :=
  let c := adb_core d in
  ((db_messages c, db_sync_acks c, db_delivery_acks c, db_delivery_ack_id c, db_pull_cursors c, db_pending_ops c, db_heal_jobs c,
    db_app_events c, db_outbound c),
   (adb_directory d, adb_records d, adb_record_blobs d, adb_pull_state d, adb_replicated_blobs d, adb_event_id d, adb_config d,
    adb_identity d, adb_auth d, adb_kp_bundles d, adb_welcome_out_id d, adb_stored_kps d, adb_notifications d, adb_categories d,
    adb_category_events d, adb_local_profile d, adb_avatar_blobs d)).

(** The rows of another group in the purged tables are as they were, and so are
    all other tables. *)
Record group_kept (g' : string) (d d' : AppDB) : Prop := {
  ok_group : db_groups (adb_core d') !! g' = db_groups (adb_core d) !! g' /\ adb_group_cols d' !! g' = adb_group_cols d !! g';
  ok_members : forall p, adb_members d' !! (g', p) = adb_members d !! (g', p);
  ok_coord : db_coord (adb_core d') !! g' = db_coord (adb_core d) !! g';
  ok_add_ops : forall id r, ao_GroupID r = g' -> adb_add_ops d' !! id = Some r <-> adb_add_ops d !! id = Some r;
  ok_welcomes_out : rows_of pw_GroupID g' (adb_welcomes_out d') = rows_of pw_GroupID g' (adb_welcomes_out d);
  ok_stored_welcomes : rows_of stw_GroupID g' (adb_stored_welcomes d') = rows_of stw_GroupID g' (adb_stored_welcomes d);
  ok_invites : rows_of pi_GroupID g' (adb_pending_invites d') = rows_of pi_GroupID g' (adb_pending_invites d);
  ok_applied_welcomes : forall f r, r.1 = g' -> adb_applied_welcomes d' !! f = Some r <-> adb_applied_welcomes d !! f = Some r;
  ok_applied : forall h, db_applied (adb_core d') !! (g', h) = db_applied (adb_core d) !! (g', h);
  ok_log : rows_of (fun r => er_GroupID (lr_rec r)) g' (db_log (adb_core d')) = rows_of (fun r => er_GroupID (lr_rec r)) g' (db_log (adb_core d));
  ok_dedup : forall h, db_dedup (adb_core d') !! (g', h) = db_dedup (adb_core d) !! (g', h);
  ok_events : rows_of ge_GroupID g' (adb_events d') = rows_of ge_GroupID g' (adb_events d);
  ok_heal_events : rows_of (fun r => fhe_GroupID (her_rec r)) g' (db_heal_events (adb_core d')) =
    rows_of (fun r => fhe_GroupID (her_rec r)) g' (db_heal_events (adb_core d));
  ok_heal_audit : rows_of (fun r => fhr_GroupID (har_rec r)) g' (db_heal_audit (adb_core d')) =
    rows_of (fun r => fhr_GroupID (har_rec r)) g' (db_heal_audit (adb_core d));
  ok_requests : forall id r, ir_GroupID (iv_rec r) = g' -> adb_invites d' !! id = Some r <-> adb_invites d !! id = Some r;
}.

Lemma other_group_rows {A} (f : A -> string) g g' l : rows_of f g' (other_group f g l) = if decide (g' = g) then [] else rows_of f g' l.
Proof.
  unfold rows_of, other_group. induction l as [|x l IH]; simpl; [by case_decide|].
  destruct (str_eqb_spec (f x) g) as [E|E]; simpl; rewrite ?filter_cons, IH; repeat case_decide; congruence.
Qed.
Lemma other_rows_none {A} (f : A -> string) g l : rows_of f g (other_group f g l) = [].
Proof. by rewrite other_group_rows, decide_True. Qed.
Lemma other_rows_same {A} (f : A -> string) g g' l : g' <> g -> rows_of f g' (other_group f g l) = rows_of f g' l.
Proof. intros H. by rewrite other_group_rows, decide_False. Qed.
Lemma other_key_none {A B} `{Countable B} (g : string) (b : B) (m : gmap (string * B) A) : other_key fst g m !! (g, b) = None.
Proof. unfold other_key. apply map_lookup_filter_None. right. intros x _ Hx. by apply Hx. Qed.
Lemma other_key_same {A B} `{Countable B} (g g' : string) (b : B) (m : gmap (string * B) A) : g' <> g -> other_key fst g m !! (g', b) = m !! (g', b).
Proof.
  intros Hg. unfold other_key. destruct (m !! (g', b)) as [x|] eqn:E; [by apply map_lookup_filter_Some|].
  apply map_lookup_filter_None. by left.
Qed.
Lemma other_val_ne {A} (f : A -> string) g m k x : other_val f g m !! k = Some x -> f x <> g.
Proof. unfold other_val. by intros [_ H]%map_lookup_filter_Some. Qed.

Lemma other_val_same {A} (f : A -> string) g g' m k x : g' <> g -> f x = g' -> other_val f g m !! k = Some x <-> m !! k = Some x.
Proof. intros Hg Hx. unfold other_val. rewrite map_lookup_filter_Some. simpl. split; [tauto|]. intros H. split; [done|congruence]. Qed.

Lemma purged_forgotten g d : forgotten g (purged g d).
Proof.
  unfold purged. split; cbn.
  1: split; apply lookup_delete_eq.
  2: apply lookup_delete_eq.
  all: intros; first [apply other_key_none|apply other_rows_none|idtac].
  - by apply (other_val_ne ao_GroupID g (adb_add_ops d) id).
  - by apply (other_val_ne fst g (adb_applied_welcomes d) f).
  - by apply (other_val_ne (fun r => ir_GroupID (iv_rec r)) g (adb_invites d) id).
Qed.

Lemma purged_others g g' d : g' <> g -> group_kept g' d (purged g d).
Proof.
  intros Hg. unfold purged. split; cbn.
  1: split; by apply lookup_delete_ne.
  2: by apply lookup_delete_ne.
  all: intros; first [by apply other_key_same|by apply other_rows_same|idtac].
  - by apply (other_val_same ao_GroupID g g').
  - by apply (other_val_same fst g g').
  - by apply (other_val_same (fun r => ir_GroupID (iv_rec r)) g g').
Qed.

Lemma delete_all_inl tables env t d u t' d' :
  delete_all tables env t d = (inl u, t', d') -> d' = foldl (fun d tf => tf.2 d) d tables.
Proof.
  revert t d. induction tables as [|[table f] tables IH]; intros t d E; simpl in *; [by sql_inv|].
  apply bind_inl in E as (? & ? & ? & E1 & E). apply wrap_inl in E1. apply exec_inl in E1 as [-> _]. by apply IH in E.
Qed.

Lemma purge_inl groupID env t d u t' d' :
  PurgeGroupMetadata groupID env t d = (inl u, t', d') -> d' = purged (TrimSpace groupID) d.
Proof.
  unfold PurgeGroupMetadata. destruct (str_eqb _ _); [done|]. intros [(d1 & E & _)|E]%tx_inl.
  - apply bind_inl in E as (? & ? & ? & _ & E). apply bind_inl in E as (? & ? & ? & _ & E). by injection E.
  - apply bind_inl in E as (? & ? & d1 & E1 & E). apply delete_all_inl in E1.
    apply bind_inl in E as (? & ? & d2 & E2 & E). apply wrap_inl, exec_inl in E2 as [-> _]. injection E as _ _ <-. exact E1.
Qed.

(** C32: Purging is complete and local.  Whatever statement fails, [PurgeGroupMetadata]
    either leaves every table as it was, or leaves no row of the group in any
    of the fifteen tables it names, the rows of every other group in these
    tables as they were, in their order, and all other tables, the chat history
    and the cursors of pulls among them, as they were. *)
Theorem purge_is_complete_and_local groupID env t d r t' d' :
  PurgeGroupMetadata groupID env t d = (r, t', d') ->
  match r with
  | inr _ => d' = d
  | inl _ => forgotten (TrimSpace groupID) d' /\ (forall g', g' <> TrimSpace groupID -> group_kept g' d d') /\ unpurged d' = unpurged d
  end.
Proof.
  intros E. destruct r as [u|e].
  - rewrite (purge_inl _ _ _ _ _ _ _ E). split_and!; [apply purged_forgotten|intros g'; apply purged_others|done].
  - revert E. unfold PurgeGroupMetadata. destruct (str_eqb _ _); [by intros [= _ _ <-]|]. apply atomic_tx.
Qed.

Definition sample_env : SqlEnv := quiet_env (fun n => Z.of_nat n * Second).

Lemma purge_is_complete_and_local_witness : forgotten "g" (PurgeGroupMetadata "g" sample_env O sample_pending).2.
Proof.
  assert (Hr : (PurgeGroupMetadata "g" sample_env O sample_pending).1.1 = inl tt) by (vm_compute; reflexivity).
  destruct (PurgeGroupMetadata "g" sample_env O sample_pending) as [[r t'] d'] eqn:E.
  pose proof (purge_is_complete_and_local "g" _ _ _ _ _ _ E) as H. simpl in Hr. rewrite Hr in H. exact (proj1 H).
Defined.

(** *** The log of a group that is joined again *)

(** A core statement on the tables of the application. *)
Lemma core_inl {A} (m : SQL A) env t d a t' d' :
  core m env t d = (inl a, t', d') -> exists c, m env t (adb_core d) = (inl a, t', c) /\ adb_core d' = c.
Proof. unfold core. destruct (m env t (adb_core d)) as [[r t1] c]. intros [= -> <- <-]. by exists c. Qed.

Lemma append_to_empty g ty e ts wire src env t c seq t' c' :
  Store.group_log g c = [] -> db_dedup c !! (g, sha256_sum wire) = None ->
  Store.AppendEnvelopeWithSource g ty e ts wire src env t c = (inl seq, t', c') ->
  seq = 1 /\ exists r, Store.group_log g c' = [r] /\ er_Seq (lr_rec r) = 1.
Proof.
  intros Hl Hd. unfold Store.AppendEnvelopeWithSource. intros [(d1 & E & ->)|E]%tx_inl;
    apply bind_inl in E as (fr & t1 & c1 & Ed & E); apply wrap_inl, dedup_insert_inl in Ed as [(-> & _ & now & ->)|(-> & [x Hx] & ->)];
    try congruence; simpl in E.
  - apply bind_inl in E as (? & ? & ? & _ & E). apply bind_inl in E as (? & ? & ? & _ & E). apply bind_inl in E as (? & ? & ? & _ & E).
    apply bind_inl in E as (? & ? & ? & _ & E). by injection E.
  - apply bind_inl in E as (n & ? & ? & E1 & E). apply wrap_inl, query_inl in E1 as [-> ->].
    apply bind_inl in E as (now' & ? & ? & E2 & E). apply time_inl in E2 as [-> ->].
    apply bind_inl in E as (? & ? & c2 & E3 & E). apply wrap_inl, log_insert_inl in E3.
    apply bind_inl in E as (? & ? & ? & E4 & E). apply wrap_inl, exec_inl in E4 as [-> _]. injection E as <- _ <-.
    rewrite E3. unfold Store.max_seq, Store.group_log in *. simpl in *. rewrite Hl in *. simpl. split; [done|].
    eexists. rewrite filter_app, Hl, filter_cons_True by done. simpl. split; [reflexivity|done].
Qed.

(** The numbers of the log start again when a group that was left is purged
    and joined again: the first envelope logged afterwards has the number 1, so
    a responder does not serve it to a peer whose cursor is at any number of the
    log before. *)
Theorem rejoined_log_is_not_served groupID ty e ts wire src env t d t1 d1 seq t2 d2 cursor n env' t' recs t3 d3 :
  PurgeGroupMetadata groupID env t d = (inl tt, t1, d1) ->
  core (Store.AppendEnvelopeWithSource (TrimSpace groupID) ty e ts wire src) env t1 d1 = (inl seq, t2, d2) ->
  1 <= cursor -> core (Store.GetEnvelopesSince (TrimSpace groupID) cursor n) env' t' d2 = (inl recs, t3, d3) ->
  seq = 1 /\ recs = [].
Proof.
  intros ->%purge_inl Ha Hc Hs. set (g := TrimSpace groupID) in *. pose proof (purged_forgotten g d) as Hf.
  apply core_inl in Ha as (c2 & Ea & E2). apply append_to_empty in Ea as [-> (r & Hl & Hr)]; [|apply (fg_log _ _ Hf)|apply (fg_dedup _ _ Hf)].
  split; [done|]. apply core_inl in Hs as (c3 & Es & _). unfold Store.GetEnvelopesSince in Es.
  apply wrap_inl, query_inl in Es as [-> _]. rewrite E2, Hl. simpl. rewrite filter_cons_False by lia. simpl. by rewrite take_nil.
Qed.

Definition sample_log : AppDB := (core (Store.AppendEnvelopeWithSource "g" MsgApplication 0 (mkHLC 1 0 "A") [x01] "local") sample_env O adb_empty).2.

Definition rejoined_log : AppDB := (PurgeGroupMetadata "g" sample_env O sample_log).2.
#[local] Notation append_again :=
  (core (Store.AppendEnvelopeWithSource (TrimSpace "g") MsgApplication 0 (mkHLC 1 0 "A") [x02] "local")).

Lemma run_of {D A} (m : SQLs D A) env t d a t' : (m env t d).1 = (inl a, t') -> m env t d = (inl a, t', (m env t d).2).
Proof. destruct (m env t d) as [[r t1] d1]. simpl. by intros [= -> ->]. Qed.

Lemma since_returns g cursor n env t d : sql_fails env t = None ->
  exists recs t' d', core (Store.GetEnvelopesSince g cursor n) env t d = (inl recs, t', d').
Proof. intros Hf. unfold core, Store.GetEnvelopesSince, sql_wrap, sql_query. rewrite Hf. by eexists _, _, _. Qed.

Lemma append_again_runs : append_again sample_env 17%nat rejoined_log = (inl 1, 25%nat, (append_again sample_env 17%nat rejoined_log).2).
Proof. apply run_of. vm_compute. reflexivity. Qed.
Lemma rejoined_log_runs : PurgeGroupMetadata "g" sample_env O sample_log = (inl tt, 17%nat, rejoined_log).
Proof. unfold rejoined_log. apply run_of. vm_compute. reflexivity. Qed.

Lemma rejoined_log_is_not_served_witness :
  exists recs t3 d3, core (Store.GetEnvelopesSince (TrimSpace "g") 1 50) sample_env O (append_again sample_env 17%nat rejoined_log).2 = (inl recs, t3, d3) /\
    recs = [].
Proof.
  destruct (since_returns (TrimSpace "g") 1 50 sample_env O (append_again sample_env 17%nat rejoined_log).2 eq_refl) as (recs & t3 & d3 & E3).
  exists recs, t3, d3. split; [exact E3|].
  exact (proj2 (rejoined_log_is_not_served "g" MsgApplication 0 (mkHLC 1 0 "A") [x02] "local" sample_env O sample_log 17%nat rejoined_log 1 25%nat
    (append_again sample_env 17%nat rejoined_log).2 1 50 sample_env O recs t3 d3 rejoined_log_runs append_again_runs (Z.le_refl 1) E3)).
Defined.

(** ** Replicas of key packages *)

(** Seconds are compared with milliseconds: a key package that was fetched from
    its owner is stored under the second of its arrival, [now], and a replica
    published at [published], however long before (up to a thousandth of the
    Unix time), replaces it. *)
Theorem older_key_package_replaces_newer peer kp source old_kp old_source published env t d t1 d1 t2 d2 :
  let now := sql_clock env t in
  0 <= published < now -> now <= 1000 * published ->
  SaveStoredKeyPackage peer kp source env t d = (inl tt, t1, d1) ->
  SaveStoredKeyPackageIfNewer peer old_kp old_source (UnixMilli published) env t1 d1 = (inl tt, t2, d2) ->
  sk_public_kp <$> adb_stored_kps d2 !! peer = Some old_kp.
Proof.
  cbv zeta. intros Hp Hn E1 E2. unfold SaveStoredKeyPackage in E1. apply bind_inl in E1 as (n & ta & da & En & E1).
  unfold unix_now in En. apply bind_inl in En as (n' & tb & db & Et & En). unfold sql_time in Et. injection Et as <- <- <-.
  injection En as <- _ <-. apply wrap_inl, bind_inl in E1 as (? & ? & ? & E3 & E1).
  unfold HealStore.sql_not_null in E3. destruct (_ && _); [done|]. injection E3 as _ _ <-. apply exec_inl in E1 as [-> _].
  unfold SaveStoredKeyPackageIfNewer in E2. apply wrap_inl, bind_inl in E2 as (? & ? & ? & E4 & E2).
  unfold HealStore.sql_not_null in E4. destruct (_ && _); [done|]. injection E4 as _ _ <-. apply exec_inl in E2 as [-> _].
  simpl. unfold put_newer_kp. rewrite lookup_insert_eq. simpl. rewrite lookup_insert_eq. unfold newer_kp. simpl.
  rewrite (proj2 (Z.geb_le _ _)); [done|]. unfold UnixMilli. etrans; [apply (Z.div_le_mono _ (1000 * published)); [done|lia]|].
  replace Second with (1000 * 10 ^ 6) by reflexivity. by rewrite Z.div_mul_cancel_l.
Qed.

Lemma older_key_package_replaces_newer_witness :
  let env := quiet_env (fun _ => 1700000000 * Second) in
  let d1 := (SaveStoredKeyPackage "bob" [x02] "bob" env O adb_empty).2 in
  sk_public_kp <$> adb_stored_kps
    (SaveStoredKeyPackageIfNewer "bob" [x01] "carol" (UnixMilli (1600000000 * Second)) env 2%nat d1).2 !! "bob" = Some [x01].
Proof.
  cbv zeta. eapply (older_key_package_replaces_newer "bob" [x02] "bob" [x01] "carol" (1600000000 * Second)
    (quiet_env (fun _ => 1700000000 * Second)) O adb_empty); [vm_compute; intuition discriminate|vm_compute; discriminate|reflexivity|reflexivity].
Defined.

(** ** The creator hint *)

(** A Welcome or an invite of the group names the peer. *)
Definition hinted (g a : string) (d : AppDB) : Prop :=
  (exists w, w ∈ adb_stored_welcomes d /\ stw_GroupID w = g /\ TrimSpace (stw_SourcePeerID w) = a) \/
  (exists i, i ∈ adb_pending_invites d /\ pi_GroupID i = g /\ (TrimSpace (pi_SourcePeerID i) = a \/ TrimSpace (pi_InviterPeerID i) = a)).

Lemma latest_source_elem less f g d s :
  latest_source less f g d = Some s -> exists i, i ∈ adb_pending_invites d /\ pi_GroupID i = g /\ f i = s.
Proof.
  unfold latest_source. destruct (head _) as [i|] eqn:E; [|done]. simpl. intros [= <-]. exists i. apply head_Some_elem_of in E.
  rewrite stable_sort_elem in E. apply list_elem_of_In, filter_In in E as [Hin Hf]. apply andb_true_iff in Hf as [Hg _].
  split; [by apply list_elem_of_In|]. split; [by apply str_eqb_true|done].
Qed.

Lemma swp_creatorHint g Q d :
  (forall r, (forall h, r = inl h -> hinted (TrimSpace g) (TrimSpace h) d) -> Q r d) -> swp (GetGroupInviteCreatorHint g) Q d.
Proof.
  intros HQ. unfold GetGroupInviteCreatorHint. set (g' := TrimSpace g) in *.
  assert (Hinv : forall less f s, latest_source less f g' d = Some s -> f = pi_SourcePeerID \/ f = pi_InviterPeerID -> hinted g' (TrimSpace s) d).
  { intros less f s (i & Hi & Hg & <-)%latest_source_elem Hf. right. exists i. destruct Hf as [-> | ->]; auto. }
  assert (Hlast : swp (inviter <-! sql_row (latest_source updated_later pi_InviterPeerID g') ;
    if str_eqb (TrimSpace inviter) "" then sql_throw sql_ErrNoRows else sql_ret (TrimSpace inviter)) Q d).
  { repeat swp_step; apply HQ; try done. intros h [= <-]. rewrite TrimSpace_idemp. by eapply Hinv; [eassumption|right]. }
  assert (Hsecond : swp (source <-! sql_try (sql_query (latest_source (fun a b => pi_ReceivedAt a >? pi_ReceivedAt b) pi_SourcePeerID g')) ;
    match source with
    | inl (Some src) => if str_eqb (TrimSpace src) "" then
        (inviter <-! sql_row (latest_source updated_later pi_InviterPeerID g') ;
         if str_eqb (TrimSpace inviter) "" then sql_throw sql_ErrNoRows else sql_ret (TrimSpace inviter)) else sql_ret (TrimSpace src)
    | _ => inviter <-! sql_row (latest_source updated_later pi_InviterPeerID g') ;
           if str_eqb (TrimSpace inviter) "" then sql_throw sql_ErrNoRows else sql_ret (TrimSpace inviter)
    end) Q d).
  { apply swp_bind, swp_try, swp_query; [|intros e; exact Hlast]. destruct (latest_source _ _ _ _) as [src|] eqn:E; [|exact Hlast].
    destruct (str_eqb _ _); [exact Hlast|]. apply swp_ret, HQ. intros h [= <-]. rewrite TrimSpace_idemp. by eapply Hinv; [exact E|left]. }
  destruct (str_eqb g' ""); [apply swp_throw, HQ; done|]. apply swp_bind, swp_try, swp_query; [|intros e; exact Hsecond].
  destruct (head _) as [w|] eqn:E; [|exact Hsecond]. simpl. destruct (str_eqb _ _); [exact Hsecond|]. apply swp_ret, HQ. intros h [= <-].
  rewrite TrimSpace_idemp. left. exists w. apply head_Some_elem_of in E. rewrite stable_sort_elem in E.
  apply list_elem_of_In, filter_In in E as [Hin Hf]. apply andb_true_iff in Hf as [Hg _].
  split; [by apply list_elem_of_In|]. split; [by apply str_eqb_true|done].
Qed.
