(* ===== verification/AuthSpec.v ===== *)
(** * Properties of identity and authentication

    Tokens and bundles, the root key, the handshake messages on the wire, who
    can be a verified peer under any interleaving of handshakes, and the
    takeover of a session by a newer device. *)
From S2P Require Import Prelude GoStrings Sha256 Types SingleWriter.
From S2P Require Import Database Store HealStore AppDatabase Identity.
From S2P Require Import Roster Replicated Runtime Auth SqlLogic.

(** ** Who is verified *)

Section Verified.
Context {PC : PeerCodec} {ED : Ed25519} {TJ : TokenJSON} {HJ : HandshakeJSON}.
Import Auth.

(** What a peer has proved: a token of the root key for its own id that was
    not expired when it was checked, and its session, if it claims one, under
    the key in the token. *)
Record proven (root : bytes) (now : time) (pid : peerID) (t : InvitationToken) (claim : SessionClaim) : Prop := {
  pr_signed : Admin.VerifyToken (Some t) root = inl true;
  pr_peer : tk_PeerID t = peer_String pid;
  pr_fresh : exists checked, checked <= now /\ checked / Second <= tk_ExpiresAt t;
  pr_claim : 0 < sc_StartedAt claim -> VerifySessionClaim claim (tk_PeerID t) (tk_PublicKey t) = inl tt;
}.

Lemma proven_later root now now' pid t claim : now <= now' -> proven root now pid t claim -> proven root now' pid t claim.
Proof. intros Hn [? ? (c & ? & ?) ?]. split; try done. exists c. split; [lia|done]. Qed.

Definition entry_ok (root : bytes) (now : time) (pid : peerID) (st : verifiedPeerState) : Prop :=
  proven root now pid (vp_Token st) (vp_Session st) /\ vp_SessionStarted st = sc_StartedAt (vp_Session st).

(** A claim that locks this node out: later than its own session and signed
    with the key in its own token. *)
Definition supersedes (tok : option InvitationToken) (sess : option SessionClaim) (claim : SessionClaim) : Prop :=
  exists t s, tok = Some t /\ sess = Some s /\ sc_StartedAt s < sc_StartedAt claim /\
    VerifySessionClaim claim (tk_PeerID t) (tk_PublicKey t) = inl tt.

Definition effect_ok (tok : option InvitationToken) (sess : option SessionClaim) (e : AuthEffect) : Prop :=
  match e with SessionReplacedBy claim => supersedes tok sess claim | _ => True end.

(** The parts of the state that no step changes. *)
Definition fixed (a : AuthProtocol) : bytes * option InvitationToken * option SessionClaim :=
  (au_root a, au_localToken a, hs_Session <$> au_localHandshake a).

Record auth_ok (now : time) (a : AuthProtocol) : Prop := {
  ok_verified : map_Forall (entry_ok (au_root a) now) (au_verified a);
  ok_trace : Forall (effect_ok (au_localToken a) (hs_Session <$> au_localHandshake a)) (au_trace a);
}.

Definition thread_ok (root : bytes) (now : time) (th : Thread) : Prop :=
  match th with
  | InAccept pid hs t | InWrite pid hs t | InStore pid hs t | OutAccept pid hs t | OutStore pid hs t =>
      proven root now pid t (hs_Session hs)
  | OutOpen _ | OutWait _ => True
  end.

(** A step from [a] keeps what is fixed and what is proved. *)
Definition good (now : time) (a : AuthProtocol) (r : option Thread * AuthProtocol) : Prop :=
  fixed r.2 = fixed a /\ (auth_ok now a -> auth_ok now r.2 /\ forall th, r.1 = Some th -> thread_ok (au_root a) now th).

Lemma ok_effects now l a :
  Forall (effect_ok (au_localToken a) (hs_Session <$> au_localHandshake a)) l -> auth_ok now a -> auth_ok now (effects l a).
Proof. intros Hl [Hv Ht]. split; [done|]. simpl. by apply Forall_app. Qed.

Lemma ok_same now a a' :
  fixed a' = fixed a -> au_verified a' = au_verified a -> au_trace a' = au_trace a -> auth_ok now a -> auth_ok now a'.
Proof. intros [= Hr Ht Hs] Hv Htr [H1 H2]. split; by rewrite ?Hr, ?Ht, ?Hs, ?Hv, ?Htr. Qed.

Lemma good_none now a a' : fixed a' = fixed a -> (auth_ok now a -> auth_ok now a') -> good now a (None, a').
Proof. intros Hf Hok. split; [done|]. by split; [apply Hok|]. Qed.

Lemma good_reject now now' pid a : fixed (rejectSecurity now' pid a) = fixed a /\ (auth_ok now a -> auth_ok now (rejectSecurity now' pid a)).
Proof.
  split; [done|]. intros Ha. apply ok_effects; [by repeat constructor|]. by eapply ok_same; [| | |exact Ha].
Qed.

Lemma good_written now pid hs ok a : fixed (written pid hs ok a).2 = fixed a /\ (auth_ok now a -> auth_ok now (written pid hs ok a).2).
Proof.
  unfold written. destruct hs as [h|]; [|done]. destruct (writeHandshake (Some h)); [|done]. destruct ok; [|done].
  split; [done|]. apply ok_effects. by repeat constructor.
Qed.

Lemma verify_proven now pid tok a t :
  verifyPeerToken now tok pid a = Passed t ->
  tok = Some t /\ Admin.VerifyToken (Some t) (au_root a) = inl true /\ tk_PeerID t = peer_String pid /\
  now / Second <= tk_ExpiresAt t.
Proof.
  unfold verifyPeerToken. destruct (Admin.VerifyToken tok (au_root a)) as [[]|] eqn:Ev; [|done|done].
  destruct tok as [t'|]; [|done]. destruct (Z.gtb_spec (now / Second) (tk_ExpiresAt t')); [done|].
  destruct (str_eqb_spec (tk_PeerID t') (peer_String pid)); [|done]. by intros [= <-].
Qed.

Lemma claim_proven root now pid hs t :
  Admin.VerifyToken (Some t) root = inl true -> tk_PeerID t = peer_String pid -> now / Second <= tk_ExpiresAt t ->
  check_claim (hs_Session hs) t = Passed tt -> proven root now pid t (hs_Session hs).
Proof.
  intros Hv Hp He Hc. split; try done; [exists now; split; [lia|done]|]. intros Hs. unfold check_claim in Hc.
  destruct (Z.gtb_spec (sc_StartedAt (hs_Session hs)) 0); [|lia]. by destruct (VerifySessionClaim _ _ _) as [[]|].
Qed.

Lemma good_claim now pid hs t next a :
  (forall root pid hs t, thread_ok root now (next pid hs t) <-> proven root now pid t (hs_Session hs)) ->
  Admin.VerifyToken (Some t) (au_root a) = inl true -> tk_PeerID t = peer_String pid -> now / Second <= tk_ExpiresAt t ->
  good now a (claim_then now pid hs t next a).
Proof.
  intros Hn Hv Hp He. unfold claim_then. destruct (check_claim (hs_Session hs) t) as [[]|e|] eqn:Ec.
  - split; [done|]. intros Ha. split; [done|]. intros th [= <-]. by apply Hn, claim_proven.
  - apply good_none; apply (good_reject now).
  - by apply good_none; [|apply ok_same].
Qed.

Lemma good_in_read now pid stream a : good now a (in_read now pid stream a).
Proof.
  unfold in_read. destruct stream as [data|]; [|by apply good_none]. destruct (readHandshake data) as [hs|]; [|by apply good_none].
  destruct (verifyPeerToken now (hs_Token hs) pid a) as [t|e|] eqn:Ev.
  - apply verify_proven in Ev as (_ & ? & ? & ?). by apply good_claim.
  - apply good_none; apply (good_reject now).
  - by apply good_none; [|apply ok_same].
Qed.

(** Ending an outbound handshake. *)
Lemma good_end now pid a a' : fixed a' = fixed a /\ (auth_ok now a -> auth_ok now a') -> good now a (None, out_end pid a').
Proof.
  intros [Hf Hok]. apply good_none; [exact Hf|]. intros Ha. by eapply ok_same; [| | |apply Hok, Ha].
Qed.

Lemma superseded claim a :
  verifySupersedingLocalSession claim a = true -> supersedes (au_localToken a) (hs_Session <$> au_localHandshake a) claim.
Proof.
  unfold verifySupersedingLocalSession. destruct (au_localToken a) as [t|], (au_localHandshake a) as [hs|]; try done.
  destruct (Z.leb_spec (sc_StartedAt claim) (sc_StartedAt (hs_Session hs))); [done|].
  destruct (VerifySessionClaim _ _ _) as [[]|] eqn:Ev; [|done]. intros _. by exists t, (hs_Session hs).
Qed.

Lemma good_out_read now pid stream a : good now a (out_read now pid stream a).
Proof.
  unfold out_read. destruct stream as [data|]; [|by apply good_end]. destruct (readHandshake data) as [hs|]; [|by apply good_end].
  destruct (verifyPeerToken now (hs_Token hs) pid a) as [t|e|] eqn:Ev.
  - apply verify_proven in Ev as (_ & Hv & Hp & He). destruct (str_eqb (hs_Error hs) _).
    + apply good_end. destruct (verifySupersedingLocalSession _ a) eqn:Es; [|done]. split; [done|].
      apply ok_effects. repeat constructor. by apply superseded.
    + pose proof (good_claim now pid hs t OutAccept a ltac:(done) Hv Hp He) as Hg.
      destruct (claim_then _ _ _ _ _ _) as [[th|] a'] eqn:Ec; [done|]. apply good_end. split; apply Hg.
  - apply good_end, good_reject.
  - by apply good_none; [|apply ok_same].
Qed.

Lemma good_store now pid hs t a :
  proven (au_root a) now pid t (hs_Session hs) -> fixed (store_verified pid hs t a) = fixed a /\
  (auth_ok now a -> auth_ok now (store_verified pid hs t a)).
Proof.
  intros Hp. split; [done|]. intros [Hv Ht]. apply ok_effects.
  - apply Forall_app. split; [by case_match; repeat constructor|by repeat constructor].
  - split; [|done]. simpl. by apply map_Forall_insert_2.
Qed.

Lemma good_accept now pid started a x a' :
  acceptSession pid started a = (x, a') -> fixed a' = fixed a /\ au_verified a' = au_verified a /\ (auth_ok now a -> auth_ok now a').
Proof.
  unfold acceptSession. intros E.
  assert (Hc : (x, a') = (None, effects [ClosedOthers pid] a) \/ a' = a).
  { destruct (au_verified a !! pid); [case_match|]; injection E as <- <-; auto. }
  destruct Hc as [E'| ->]; [|by split_and!]. injection E' as -> ->. split_and!; [done|done|]. apply ok_effects. by repeat constructor.
Qed.

Lemma good_advance now th io a : thread_ok (au_root a) now th -> good now a (advance now th io a).
Proof.
  destruct th as [pid hs t|pid hs t|pid hs t|pid|pid|pid hs t|pid hs t]; cbn [advance thread_ok]; intros Hth.
  - destruct (acceptSession pid _ a) as [x a'] eqn:E. apply (good_accept now) in E as (Hf & _ & Hok).
    destruct x as [c|]; [|by split; [|intros Ha; split; [auto|intros ? [= <-]]]].
    destruct (staleSessionResponse c a'); [|by apply good_none; [|intros; apply ok_same with a'; auto]].
    destruct (good_written now pid (Some a0) (bool_decide (is_Some io)) a') as [Hf' Hok'].
    apply good_none; [by rewrite Hf'|auto].
  - destruct (good_written now pid (au_localHandshake a) (bool_decide (is_Some io)) a) as [Hf' Hok'].
    destruct (written _ _ _ _) as [[] a']; simpl in *; [|by apply good_none].
    split; [done|]. intros Ha. split; [auto|]. by intros ? [= <-].
  - by apply good_none; apply (good_store now).
  - destruct (good_written now pid (au_localHandshake a) (bool_decide (is_Some io)) a) as [Hf' Hok'].
    destruct (written _ _ _ _) as [[] a']; simpl in *; [|by apply good_end].
    split; [done|]. intros Ha. split; [auto|]. by intros ? [= <-].
  - apply good_out_read.
  - destruct (acceptSession pid _ a) as [x a'] eqn:E. apply (good_accept now) in E as (Hf & _ & Hok).
    destruct x as [c|]; [by apply good_end|]. split; [done|]. intros Ha. split; [auto|]. by intros ? [= <-].
  - by apply good_end, good_store.
Qed.

(** ** Over any sequence of steps *)

Record world_ok (w : World) : Prop := {
  wo_auth : auth_ok (w_now w) (w_auth w);
  wo_threads : Forall (thread_ok (au_root (w_auth w)) (w_now w)) (w_threads w);
}.

Lemma thread_later root now now' th : now <= now' -> thread_ok root now th -> thread_ok root now' th.
Proof. intros Hn. destruct th; simpl; eauto using proven_later. Qed.

Lemma with_thread_ok r ths now a :
  good now a r -> auth_ok now a -> Forall (thread_ok (au_root a) now) ths ->
  world_ok (with_thread r ths now) /\ fixed r.2 = fixed a.
Proof.
  intros [Hf Hg] Ha Hths. destruct (Hg Ha) as [Ha' Hth]. split; [|done]. injection Hf as Hr _ _. split; [done|]. simpl.
  rewrite Hr. destruct r as [[th|] a']; simpl in *; [|done]. apply Forall_app. split; [done|].
  constructor; [by apply Hth|done].
Qed.

Lemma auth_step_ok ev w : world_ok w -> world_ok (auth_step ev w) /\ fixed (w_auth (auth_step ev w)) = fixed (w_auth w).
Proof.
  intros [Ha Hths]. unfold auth_step. destruct (au_crashed (w_auth w)); [done|].
  assert (Hsame : forall a', fixed a' = fixed (w_auth w) -> (auth_ok (w_now w) (w_auth w) -> auth_ok (w_now w) a') ->
    world_ok (mkWorld a' (w_threads w) (w_now w)) /\ fixed a' = fixed (w_auth w)).
  { intros a' Hf Hok. split; [|done]. injection Hf as Hr _ _. split; simpl; [auto|by rewrite Hr]. }
  destruct ev as [pid stream|pid|i io|pid n|pid|wire sig|d]; simpl.
  - apply (with_thread_ok _ _ _ (w_auth w)); [apply good_in_read|done|done].
  - apply (with_thread_ok _ _ _ (w_auth w)); [|done|done]. unfold out_begin. do 2 (case_match; [by apply good_none|]).
    split; [done|]. intros Hok. split; [by eapply ok_same; [| | |exact Hok]|]. by intros ? [= <-].
  - destruct (w_threads w !! i) as [th|] eqn:Ei; [|by split].
    apply (with_thread_ok _ _ _ (w_auth w)); [|done|by apply Forall_delete].
    apply good_advance. by eapply Forall_lookup_1.
  - apply Hsame; unfold Disconnected; case_match; try done. intros [Hv Ht]. split; [|done]. simpl. by apply map_Forall_delete.
  - unfold InterceptSecured, isBlacklisted. simpl. apply Hsame; repeat (case_match; try done). by apply ok_same.
  - apply Hsame; unfold SetLocalProfileAnnex; destruct (au_localHandshake (w_auth w)) eqn:E; try done; unfold fixed; simpl.
    + by rewrite E.
    + intros [Hv Ht]. rewrite E in Ht. by split.
  - split; [|done]. destruct Ha as [Hv Ht]. split; simpl.
    + split; [|done]. intros pid st Est. destruct (Hv pid st Est) as [Hp ?]. split; [|done].
      eapply proven_later; [|exact Hp]. lia.
    + eapply Forall_impl; [exact Hths|]. intros th. apply thread_later. lia.
Qed.

Lemma auth_run_ok evs w : world_ok w -> world_ok (auth_run evs w) /\ fixed (w_auth (auth_run evs w)) = fixed (w_auth w).
Proof.
  revert w. induction evs as [|ev evs IH]; intros w Hw; [done|]. simpl. destruct (auth_step_ok ev w Hw) as [Hw' Hf].
  destruct (IH _ Hw') as [? Hf']. split; [done|]. etrans; [exact Hf'|exact Hf].
Qed.

End Verified.

(** C4: Only proven peers are verified.  Whatever handshakes arrive and are
    started, however their steps interleave, whatever the streams carry and
    whenever connections close: every peer in the table of verified peers has
    presented a token that verifies under the root key, names that very peer
    and had not expired when it was checked, and the session recorded for it is
    its claim, verified under the key in the token when it is a positive one.
    And this node takes its own session for replaced only by a claim that is
    later than its own and verifies under the key of its own token. *)
Theorem verified_peers_are_proven {PC : PeerCodec} {ED : Ed25519} {TJ : TokenJSON} {HJ : HandshakeJSON}
  evs tok root hs now :
  let w := Auth.auth_run evs (Auth.mkWorld (Auth.NewAuthProtocol tok root hs) [] now) in
  (forall pid st, Auth.au_verified (Auth.w_auth w) !! pid = Some st ->
     proven root (Auth.w_now w) pid (vp_Token st) (vp_Session st) /\ vp_SessionStarted st = sc_StartedAt (vp_Session st)) /\
  (forall claim, Auth.SessionReplacedBy claim ∈ Auth.au_trace (Auth.w_auth w) -> supersedes tok (hs_Session <$> hs) claim).
Proof.
  intros w. destruct (auth_run_ok evs (Auth.mkWorld (Auth.NewAuthProtocol tok root hs) [] now)) as [[[Hv Ht] _] Hf].
  { split; [|constructor]. split; [apply map_Forall_empty|constructor]. }
  fold w in Hv, Ht, Hf. injection Hf as Hr Hl Hs. simpl in Hr, Hl, Hs. rewrite Hr in Hv. rewrite Hl, Hs in Ht.
  split; [exact Hv|]. intros claim Hc. rewrite Forall_forall in Ht. by apply (Ht _ Hc).
Qed.

(** ** Sessions of a peer *)

Section Sessions.
Context {PC : PeerCodec} {ED : Ed25519} {TJ : TokenJSON} {HJ : HandshakeJSON}.
Import Auth.

(** Every verified peer stays, with the same or a later session. *)
Definition sessions_forward (a a' : AuthProtocol) : Prop :=
  forall pid st, au_verified a !! pid = Some st ->
    exists st', au_verified a' !! pid = Some st' /\ vp_SessionStarted st <= vp_SessionStarted st'.

#[local] Instance sessions_forward_preorder : PreOrder sessions_forward.
Proof.
  split; [intros a pid st E; eauto with lia|]. intros a1 a2 a3 H12 H23 pid st E.
  destruct (H12 pid st E) as (s2 & E2 & ?). destruct (H23 pid s2 E2) as (s3 & E3 & ?). eauto with lia.
Qed.

Lemma sessions_forward_same a a' : au_verified a' = au_verified a -> sessions_forward a a'.
Proof. intros E pid st Est. rewrite E. eauto with lia. Qed.

(** Steps before the store leave the table alone. *)
Lemma in_read_same now pid stream a : au_verified (in_read now pid stream a).2 = au_verified a.
Proof. unfold in_read, claim_then. repeat (case_match; try done). Qed.
Lemma written_same pid hs ok a : au_verified (written pid hs ok a).2 = au_verified a.
Proof. unfold written. repeat (case_match; try done). Qed.
Lemma out_read_same now pid stream a : au_verified (out_read now pid stream a).2 = au_verified a.
Proof. unfold out_read, claim_then. repeat (case_match; simplify_eq; try done). Qed.

(** A session that was accepted is not older than the one on record. *)
Definition current (pid : peerID) (started : Z) (a : AuthProtocol) : Prop :=
  forall st, au_verified a !! pid = Some st -> vp_SessionStarted st <= started.

Lemma accept_current pid started a a' :
  acceptSession pid started a = (None, a') -> au_verified a' = au_verified a /\ current pid started a'.
Proof.
  unfold acceptSession, current. destruct (au_verified a !! pid) as [st|] eqn:E.
  - destruct (Z.ltb_spec started (vp_SessionStarted st)); [done|]. intros [= <-]. split; [done|]. simpl. rewrite E.
    intros st' [= <-]. lia.
  - intros [= <-]. split; [done|]. simpl. by rewrite E.
Qed.

Lemma store_forward pid hs t a :
  current pid (sc_StartedAt (hs_Session hs)) a -> sessions_forward a (store_verified pid hs t a).
Proof.
  intros Hc pid' st E. simpl. destruct (decide (pid = pid')) as [<-|Hne].
  - rewrite lookup_insert_eq. eexists. split; [done|]. simpl. by apply Hc.
  - rewrite lookup_insert_ne by done. eauto with lia.
Qed.

Lemma incoming_forward now pid stream ok a : sessions_forward a (handleIncoming now pid stream ok a).
Proof.
  unfold handleIncoming. pose proof (in_read_same now pid stream a) as H1.
  destruct (in_read now pid stream a) as [[th|] a1] eqn:E1; [|by apply sessions_forward_same]. simpl in H1.
  assert (Hth : exists hs t, th = InAccept pid hs t).
  { unfold in_read, claim_then in E1. repeat (case_match; simplify_eq; try done); eauto. }
  destruct Hth as (hs & t & ->). etrans; [by apply sessions_forward_same|]. clear E1 H1 a. cbn [advance].
  destruct (acceptSession pid _ a1) as [[c|] a2] eqn:E2.
  { assert (a2 = a1) as ->.
    { unfold acceptSession in E2. by repeat (case_match; simplify_eq). }
    destruct (staleSessionResponse c a1); [apply sessions_forward_same, written_same|by apply sessions_forward_same]. }
  apply accept_current in E2 as [Hv Hc]. etrans; [by apply sessions_forward_same|]. cbn [advance].
  pose proof (written_same pid (au_localHandshake a2) (bool_decide (is_Some (if ok then Some ([] : bytes) else None))) a2) as Hw.
  destruct (written _ _ _ _) as [[] a3]; simpl in Hw |- *; [|by apply sessions_forward_same].
  etrans; [by apply sessions_forward_same|]. apply store_forward. unfold current in *. by rewrite Hw.
Qed.

Lemma outgoing_forward now pid openOk answer a : sessions_forward a (InitiateHandshake now pid openOk answer a).
Proof.
  unfold InitiateHandshake, out_begin. destruct (IsVerified pid a); [reflexivity|].
  destruct (bool_decide (pid ∈ au_handshaking a)); [reflexivity|]. cbn [advance].
  set (a0 := set_handshaking _ a). transitivity a0; [by apply sessions_forward_same|]. generalize a0. clear a a0. intros a.
  pose proof (written_same pid (au_localHandshake a) (bool_decide (is_Some (if openOk then Some ([] : bytes) else None))) a) as Hw.
  destruct (written _ _ _ _) as [[] a1]; cbn [fst snd] in Hw |- *; [|by apply sessions_forward_same].
  transitivity a1; [by apply sessions_forward_same|]. cbn [advance]. clear Hw a.
  pose proof (out_read_same now pid answer a1) as H1.
  destruct (out_read now pid answer a1) as [[th|] a2] eqn:E1; cbn [fst snd] in H1; [|by apply sessions_forward_same].
  assert (Hth : exists hs t, th = OutAccept pid hs t).
  { unfold out_read, claim_then in E1. repeat (case_match; simplify_eq; try done); eauto. }
  destruct Hth as (hs & t & ->). etrans; [by apply sessions_forward_same|]. cbn [advance].
  destruct (acceptSession pid _ a2) as [[c|] a3] eqn:E2.
  { apply sessions_forward_same. unfold acceptSession in E2. by repeat (case_match; simplify_eq). }
  apply accept_current in E2 as [Hv Hc]. etrans; [by apply sessions_forward_same|]. cbn [advance snd].
  by apply (store_forward pid hs t).
Qed.

(** One handshake after the other. *)
Inductive Handshake :=
| Inbound (now : time) (pid : peerID) (stream : option bytes) (writeOk : bool)
| Outbound (now : time) (pid : peerID) (openOk : bool) (answer : option bytes).

Definition handshake (h : Handshake) (a : AuthProtocol) : AuthProtocol :=
  match h with
  | Inbound now pid stream ok => handleIncoming now pid stream ok a
  | Outbound now pid ok answer => InitiateHandshake now pid ok answer a
  end.
Definition handshakes (l : list Handshake) (a : AuthProtocol) : AuthProtocol := foldl (fun a h => handshake h a) a l.

Lemma handshakes_forward l a : sessions_forward a (handshakes l a).
Proof.
  revert a. induction l as [|h l IH]; intros a; [reflexivity|]. simpl. etrans; [|apply IH].
  destruct h; [apply incoming_forward|apply outgoing_forward].
Qed.
End Sessions.

(** Sessions move forward.  While a peer stays connected, handshakes that
    run one after the other, in either direction and with whatever content,
    never drop it from the verified peers and never replace its session by an
    older one. *)
Theorem sessions_move_forward {PC : PeerCodec} {ED : Ed25519} {TJ : TokenJSON} {HJ : HandshakeJSON} l a pid st :
  Auth.au_verified a !! pid = Some st ->
  exists st', Auth.au_verified (handshakes l a) !! pid = Some st' /\ vp_SessionStarted st <= vp_SessionStarted st'.
Proof. apply handshakes_forward. Qed.

(** ** The wire *)

Lemma byte_of_N_val n : Z.of_N (Byte.to_N (Sha256.byte_of_N n)) = Z.of_N n mod 256.
Proof.
  unfold Sha256.byte_of_N. assert (Hn : (n mod 256 < 256)%N) by (apply N.mod_lt; lia).
  destruct (Byte.of_N (n mod 256)) as [b|] eqn:E.
  - apply Byte.to_of_N in E. simpl. rewrite E. by rewrite N2Z.inj_mod.
  - apply Byte.of_N_None_iff in E. lia.
Qed.

Lemma be32_put v : 0 <= v < 2 ^ 32 -> Auth.be32 (Auth.put_be32 v) = v.
Proof.
  intros Hv. unfold Auth.be32, Auth.put_be32, Runtime.be64, Runtime.put_be64, SingleWriter.le64, u32.
  rewrite Z.mod_small by lia. cbn [seq fmap list_fmap rev app drop foldl]. rewrite !byte_of_N_val.
  rewrite !Z2N.id by (apply Z.shiftr_nonneg; lia). rewrite !Z.shiftr_div_pow2 by lia.
  change (2 ^ (8 * Z.of_nat 0)) with 1. change (2 ^ (8 * Z.of_nat 1)) with 256.
  change (2 ^ (8 * Z.of_nat 2)) with 65536. change (2 ^ (8 * Z.of_nat 3)) with 16777216. change (2 ^ 32) with 4294967296 in Hv.
  Z.div_mod_to_equations. lia.
Qed.

Lemma put_be32_length v : length (Auth.put_be32 v) = 4%nat.
Proof. reflexivity. Qed.

#[local] Opaque Auth.put_be32 Auth.be32.

Section Wire.
Context {HJ : HandshakeJSON} {HL : HandshakeJSONLaws}.

Lemma read_written hs data rest :
  Auth.writeHandshake (Some hs) = inl data -> valid_handshake hs ->
  Z.of_nat (length (handshake_Marshal hs)) <= Auth.maxTokenBytes -> Auth.readHandshake (data ++ rest) = inl hs.
Proof.
  intros Hw Hv Hl. unfold Auth.maxTokenBytes in Hl. unfold Auth.writeHandshake in Hw.
  destruct (hs_Token hs) as [t|] eqn:Et; [|done]. injection Hw as <-.
  set (m := handshake_Marshal hs) in *. unfold Auth.readHandshake. rewrite <-app_assoc.
  rewrite length_app, put_be32_length. destruct (Nat.ltb_spec (4 + length (m ++ rest)) 4); [lia|].
  rewrite take_app_length' by done. rewrite be32_put by lia. rewrite drop_app_length' by done.
  assert (Hne : m <> []) by apply handshake_nonempty.
  assert (0 < length m)%nat by (destruct m; [done|simpl; lia]).
  destruct (Z.eqb_spec (Z.of_nat (length m)) 0); [lia|]. unfold Auth.maxTokenBytes.
  destruct (Z.gtb_spec (Z.of_nat (length m)) (64 * 1024)); [lia|]. cbn [orb].
  rewrite length_app. destruct (Z.ltb_spec (Z.of_nat (length m + length rest)) (Z.of_nat (length m))); [lia|].
  rewrite Nat2Z.id, take_app_length. unfold m. by rewrite handshake_round_trip, Et.
Qed.
End Wire.

(** Handshakes on the wire.  What is written for a handshake is read back
    as it is, whatever follows on the stream, as long as its JSON is at most
    64 KiB; the writer does not check that bound, and a longer one (below
    4 GiB) is refused by the reader. *)
Theorem handshake_wire_round_trip {HJ : HandshakeJSON} {HL : HandshakeJSONLaws} hs rest :
  valid_handshake hs ->
  exists data, Auth.writeHandshake (Some hs) = inl data /\
    Auth.readHandshake (data ++ rest) =
      (if Z.of_nat (length (handshake_Marshal hs)) <=? Auth.maxTokenBytes then inl hs
       else if Z.of_nat (length (handshake_Marshal hs)) <? 2 ^ 32 then inr (ErrText "invalid token length")
       else Auth.readHandshake (data ++ rest)).
Proof.
  intros Hv. destruct (Auth.writeHandshake (Some hs)) as [data|e] eqn:Ew.
  2: { destruct Hv as [(t & Et & _) _]. unfold Auth.writeHandshake in Ew. by rewrite Et in Ew. }
  exists data. split; [done|]. destruct (Z.leb_spec (Z.of_nat (length (handshake_Marshal hs))) Auth.maxTokenBytes).
  { by apply read_written. }
  destruct (Z.ltb_spec (Z.of_nat (length (handshake_Marshal hs))) (2 ^ 32)); [|done].
  unfold Auth.writeHandshake in Ew. destruct (hs_Token hs); [|done]. injection Ew as <-.
  unfold Auth.readHandshake. rewrite <-app_assoc, length_app, put_be32_length.
  destruct (Nat.ltb_spec (4 + length (handshake_Marshal hs ++ rest)) 4); [lia|].
  rewrite take_app_length' by done. rewrite be32_put by lia.
  destruct (Z.gtb_spec (Z.of_nat (length (handshake_Marshal hs))) Auth.maxTokenBytes); [|lia]. by rewrite orb_true_r.
Qed.

(** ** Tokens *)

Section Tokens.
Context {ED : Ed25519} {EL : Ed25519Laws} {TJ : TokenJSON} {TL : TokenJSONLaws} {KC : KeyCrypto} {KL : KeyCryptoLaws}.

Lemma sign_verifies now priv name peer pubHex t :
  length priv = 64%nat -> Admin.SignToken now priv name peer pubHex = inl t ->
  Admin.VerifyToken (Some t) (ed_Public priv) = inl true /\ tk_Version t = Admin.TokenVersion /\
  tk_DisplayName t = name /\ tk_PeerID t = peer /\ hex_DecodeString pubHex = Some (tk_PublicKey t) /\
  tk_PublicKey t <> [] /\ tk_ExpiresAt t = i64 (now + Admin.TokenValidityDays * 24 * 60 * 60) /\ tk_Signature t <> [] /\ peer <> "".
Proof.
  intros Hp. unfold Admin.SignToken. destruct (str_eqb name ""); [done|]. destruct (str_eqb_spec peer "") as [|Hpeer]; [done|].
  destruct (hex_DecodeString pubHex) as [pub|]; [|done]. destruct (is_empty pub) eqn:Epub; [done|].
  unfold ed25519_Sign. rewrite Hp. cbn [Nat.eqb]. intros [= <-]. apply is_empty_false in Epub.
  set (m := Admin.signingPayload _). assert (Hs : ed_Sign priv m <> []).
  { intros E. pose proof (ed_sign_length priv m Hp) as Hl. by rewrite E in Hl. }
  split; [|by split_and!]. unfold Admin.VerifyToken. cbn [tk_Signature].
  assert (Hpub : ed_Public priv <> []).
  { intros E. pose proof (ed_public_length priv Hp) as Hl. by rewrite E in Hl. }
  apply is_empty_false in Hs as ->, Hpub as ->. unfold ed25519_Verify. rewrite ed_public_length by done. cbn [orb Nat.eqb].
  f_equal. by apply ed_verify_sign.
Qed.

Lemma deserialize_created now priv name peer pubHex addr raw :
  length priv = 64%nat -> valid_text name -> valid_text peer -> valid_text addr ->
  Admin.CreateInvitationBundle now priv name peer pubHex addr = inl raw ->
  exists t, Admin.SignToken now priv name peer pubHex = inl t /\
    Admin.DeserializeBundle raw = inl (mkBundle (Some t) addr (ed_Public priv)).
Proof.
  intros Hp Hn Hpe Ha. unfold Admin.CreateInvitationBundle. destruct (str_eqb addr "") eqn:Ea; [done|].
  destruct (Admin.SignToken now priv name peer pubHex) as [t|] eqn:Es; [|done]. intros [= <-]. exists t. split; [done|].
  destruct (sign_verifies _ _ _ _ _ _ Hp Es) as (_ & _ & Hname & Hpeer & _ & _ & _ & _ & Hne).
  unfold Admin.DeserializeBundle, Admin.SerializeBundle. rewrite bundle_round_trip; [|split; by rewrite ?Hname, ?Hpeer|done].
  cbn [ib_Token ib_BootstrapAddr ib_RootPublicKey]. rewrite Hpeer. apply str_eqb_false in Hne as ->. rewrite Ea.
  assert (Hpub : ed_Public priv <> []).
  { intros E. pose proof (ed_public_length priv Hp) as Hl. by rewrite E in Hl. }
  by apply is_empty_false in Hpub as ->.
Qed.
End Tokens.

Lemma not_null_run {D} c b env t (d : D) : b <> [] -> HealStore.sql_not_null c b env t d = (inl tt, t, d).
Proof. intros Hb. unfold HealStore.sql_not_null. apply is_empty_false in Hb as ->. by rewrite andb_false_r. Qed.

(** The row an import stores for a token. *)
Definition auth_row (b : InvitationBundle) (t : InvitationToken) : StoredAuthBundle :=
  mkAuthBundle (tk_DisplayName t) (tk_PeerID t) (tk_PublicKey t) (tk_IssuedAt t) (tk_ExpiresAt t) (tk_Signature t)
    (ib_BootstrapAddr b) (ib_RootPublicKey b).

Lemma import_run {ED : Ed25519} {TJ : TokenJSON} local raw b t identity env n d :
  (forall k, sql_fails env k = None) -> (forall k, sql_clock env k / Second <= tk_ExpiresAt t) ->
  Admin.DeserializeBundle raw = inl b -> ib_Token b = Some t -> Admin.VerifyToken (Some t) (ib_RootPublicKey b) = inl true ->
  tk_PeerID t = local -> adb_identity d = Some identity -> tk_PublicKey t = mi_PublicKey identity ->
  tk_PublicKey t <> [] -> tk_Signature t <> [] -> ib_RootPublicKey b <> [] ->
  exists n' d', Admin.ImportInvitationBundle local raw env n d = (inl tt, n', d') /\
    adb_auth d' = Some (auth_row b t) /\ mi_DisplayName <$> adb_identity d' = Some (tk_DisplayName t).
Proof.
  intros Hf Hclock Hd Ht Hv Hl Hi Hk Hk' Hs Hr. unfold Admin.ImportInvitationBundle. rewrite Hd, Ht, Hv.
  unfold unix_now, sql_bind at 1 2, sql_time, sql_ret.
  destruct (Z.gtb_spec (sql_clock env n / Second) (tk_ExpiresAt t)) as [Hx|_]; [specialize (Hclock n); lia|].
  rewrite Hl, str_eqb_refl. cbn [negb].
  unfold Identity.GetMLSIdentity, Identity.SaveAuthBundle, Identity.UpdateMLSDisplayName, sql_row, sql_wrap, sql_bind,
    sql_query, sql_exec, sql_ret. rewrite !Hf, Hi, Hk, bool_decide_true by done. cbn [negb].
  rewrite !not_null_run by (rewrite <-?Hk; done). rewrite !Hf. do 2 eexists. split; [reflexivity|].
  split; [|by simpl; rewrite Hi]. simpl. unfold auth_row. by rewrite Hk, Hl.
Qed.

(** An issued bundle admits its user.  When the administrator creates a
    bundle for the peer id and the public key of a node, that node can import
    it as long as the token is not expired; it then carries the assigned name,
    and every node that trusts the same root key accepts the token it presents
    under that peer id for the 365 days. *)
Theorem issued_bundle_admits {PC : PeerCodec} {ED : Ed25519} {EL : Ed25519Laws} {TJ : TokenJSON} {TL : TokenJSONLaws}
  now priv name pid identity addr raw env n d :
  length priv = 64%nat -> valid_text name -> valid_text (peer_String pid) -> valid_text addr ->
  in_i64 (now + 31536000) -> adb_identity d = Some identity ->
  Admin.CreateInvitationBundle now priv name (peer_String pid) (hex_EncodeToString (mi_PublicKey identity)) addr = inl raw ->
  (forall k, sql_fails env k = None) -> (forall k, sql_clock env k / Second <= now + 31536000) ->
  exists n' d' row, Admin.ImportInvitationBundle (peer_String pid) raw env n d = (inl tt, n', d') /\
    adb_auth d' = Some row /\ mi_DisplayName <$> adb_identity d' = Some name /\
    forall a later, Auth.au_root a = ed_Public priv -> later / Second <= now + 31536000 ->
      Auth.verifyPeerToken later (Some (Admin.BuildLocalToken row)) pid a = Auth.Passed (Admin.BuildLocalToken row).
Proof.
  intros Hp Hn Hpe Ha Hi64 Hid Hc Hf Hclock.
  destruct (deserialize_created _ _ _ _ _ _ _ Hp Hn Hpe Ha Hc) as (t & Es & Ed).
  destruct (sign_verifies _ _ _ _ _ _ Hp Es) as (Hv & Hver & Hname & Hpeer & Hkey & Hk & Hexp & Hs & _).
  rewrite hex_Decode_Encode in Hkey. injection Hkey as Hkey.
  assert (Hexp' : tk_ExpiresAt t = now + 31536000).
  { rewrite Hexp. by rewrite i64_small. }
  assert (Hroot : ed_Public priv <> []).
  { intros E. pose proof (ed_public_length priv Hp) as Hl. by rewrite E in Hl. }
  destruct (import_run (peer_String pid) raw (mkBundle (Some t) addr (ed_Public priv)) t identity env n d)
    as (n' & d' & Ei & Eb & En); try done.
  { intros k. rewrite Hexp'. apply Hclock. }
  exists n', d', (auth_row (mkBundle (Some t) addr (ed_Public priv)) t). split_and!; try done; [by rewrite En, Hname|].
  intros a later Ha' Hl.
  assert (Et : Admin.BuildLocalToken (auth_row (mkBundle (Some t) addr (ed_Public priv)) t) = t).
  { unfold Admin.BuildLocalToken, auth_row. simpl. rewrite <-Hver. by destruct t. }
  rewrite Et. unfold Auth.verifyPeerToken. rewrite Ha', Hv, Hexp'.
  destruct (Z.gtb_spec (later / Second) (now + 31536000)); [lia|]. by rewrite Hpeer, str_eqb_refl.
Qed.

(** The root key is set up once and unlocked with its passphrase.  After a
    setup that succeeds, unlocking with the same passphrase gives the private
    key back, and a second setup is refused and changes nothing. *)
Theorem admin_key_round_trip {ED : Ed25519} {KC : KeyCrypto} {KL : KeyCryptoLaws} priv salt nonce pass env n d pub n' d' :
  length salt = 16%nat -> length nonce = 12%nat -> (forall k, sql_fails env k = None) ->
  Admin.SetupAdminKey priv salt nonce pass env n d = (inl pub, n', d') ->
  pub = ed_Public priv /\
  (exists m, Admin.UnlockAdminKey pass env n' d' = (inl priv, m, d')) /\
  forall priv' salt' nonce' pass', exists e m, Admin.SetupAdminKey priv' salt' nonce' pass' env n' d' = (inr e, m, d').
Proof.
  intros Hs Hn Hf. unfold Admin.SetupAdminKey, Identity.HasConfig, Identity.SetConfig.
  unfold sql_bind, sql_wrap, sql_query, sql_exec, sql_throw, sql_ret. rewrite !Hf.
  destruct (bool_decide (is_Some (adb_config d !! _))); [done|].
  unfold Admin.encryptKey. assert (Hk : Admin.aes_size_ok (argon2_IDKey pass salt) = true).
  { unfold Admin.aes_size_ok. rewrite argon2_length. by vm_compute. }
  rewrite Hk, !Hf. intros [= <- <- <-]. split; [done|]. cbn [adb_config set_adb_config]. split.
  - eexists. unfold Admin.UnlockAdminKey, Identity.GetConfig, sql_row, sql_try, sql_bind, sql_query, sql_ret, sql_throw.
    rewrite Hf. cbn [adb_config set_adb_config]. rewrite lookup_insert_eq. unfold Admin.decryptKey.
    rewrite !length_app, gcm_seal_length, Hs, Hn. destruct (Nat.ltb_spec (16 + (12 + (length priv + 16))) (16 + 12 + 1)); [lia|].
    rewrite take_app_length' by done. rewrite Hk. rewrite drop_app_length' by done. rewrite take_app_length' by done.
    rewrite app_assoc, drop_app_length' by (rewrite length_app; lia).
    by rewrite gcm_open_seal by (rewrite ?argon2_length; done).
  - intros priv' salt' nonce' pass'. rewrite lookup_insert_eq, bool_decide_true by eauto. by do 2 eexists.
Qed.
