(* ===== verification/FramesSpec.v ===== *)
(** * Frames: what is written is read

    Every writer of [Frames.v] is inverted by its reader, on a stream that
    holds more; a frame that is cut short or too long is refused. *)
From S2P Require Import Prelude GoStrings Sha256 Types Wire Runtime Auth AuthSpec Frames.

#[local] Opaque Auth.put_be32 Auth.be32.

Lemma read_raw_put max data rest :
  data <> [] -> Z.of_nat (length data) <= max -> max < 2 ^ 32 ->
  Frames.read_raw max (Auth.put_be32 (Z.of_nat (length data)) ++ data ++ rest) = inl (data, rest).
Proof.
  intros Hne Hle Hmax. unfold Frames.read_raw. rewrite length_app, put_be32_length.
  destruct (Nat.ltb_spec (4 + length (data ++ rest)) 4); [lia|].
  rewrite take_app_length' by (by rewrite put_be32_length). rewrite be32_put by lia.
  rewrite drop_app_length' by (by rewrite put_be32_length).
  assert (0 < Z.of_nat (length data)) by (destruct data; simpl in *; [done|lia]).
  destruct (Z.eqb_spec (Z.of_nat (length data)) 0); [lia|]. destruct (Z.gtb_spec (Z.of_nat (length data)) max); [lia|]. simpl.
  rewrite length_app. destruct (Z.ltb_spec (Z.of_nat (length data + length rest)) (Z.of_nat (length data))); [lia|].
  by rewrite Nat2Z.id, take_app_length, drop_app_length.
Qed.

Section RoundTrip.
Context {A : Type} `{JL : JSONLaws A}.

Lemma write_read max (v : A) frame rest :
  json_valid v -> max < 2 ^ 32 -> Frames.write_frame max v = inl frame -> Frames.read_frame max (frame ++ rest) = inl (v, rest).
Proof.
  intros Hv Hmax. unfold Frames.write_frame, Frames.read_frame. destruct (is_empty _ || _) eqn:E; [done|].
  apply orb_false_iff in E as [E1 E2]. apply is_empty_false in E1. rewrite Z.gtb_ltb, Z.ltb_ge in E2. intros [= <-].
  rewrite <- app_assoc, read_raw_put by done. by rewrite json_round_trip.
Qed.

(** A writer and its reader carry the value on a stream that holds more if its
    text is within the limit; a longer one is refused. *)
Definition carries (write : A -> result bytes) (read : bytes -> result (A * bytes)) (max : Z) (v : A) (rest : bytes) : Prop :=
  if Z.of_nat (length (json_Marshal v)) <=? max then exists frame, write v = inl frame /\ read (frame ++ rest) = inl (v, rest)
  else exists e, write v = inr e.

Lemma frame_carries max (v : A) rest : json_valid v -> max < 2 ^ 32 -> carries (Frames.write_frame max) (Frames.read_frame max) max v rest.
Proof.
  intros Hv Hmax. unfold carries. pose proof (write_read max v) as Hr. unfold Frames.write_frame in *.
  pose proof (json_nonempty v) as Hne. destruct (is_empty (json_Marshal v)) eqn:E; [by apply is_empty_true in E|]. simpl in *.
  rewrite Z.gtb_ltb in *. destruct (Z.leb_spec (Z.of_nat (length (json_Marshal v))) max) as [Hle|Hlt].
  - apply Z.ltb_ge in Hle as Hn. rewrite Hn in *. eexists. split; [done|]. by apply Hr.
  - apply Z.ltb_lt in Hlt. rewrite Hlt. by eexists.
Qed.
End RoundTrip.

(** A frame of which bytes are missing is never read. *)
Lemma cut_frame_refused max data n :
  data <> [] -> Z.of_nat (length data) <= max -> max < 2 ^ 32 -> (n < 4 + length data)%nat ->
  exists e, Frames.read_raw max (take n (Auth.put_be32 (Z.of_nat (length data)) ++ data)) = inr e.
Proof.
  intros Hne Hle Hmax Hn. unfold Frames.read_raw. destruct (_ <? 4)%nat eqn:E4; [by eexists|].
  apply Nat.ltb_ge in E4. rewrite length_take, length_app, put_be32_length in E4.
  rewrite take_take, Nat.min_l by lia. rewrite take_app_length' by (by rewrite put_be32_length). rewrite be32_put by lia.
  destruct (_ || _); [by eexists|]. rewrite length_drop, length_take, length_app, put_be32_length.
  destruct (Z.ltb_spec (Z.of_nat (Nat.min n (4 + length data) - 4)) (Z.of_nat (length data))); [by eexists|lia].
Qed.

(** A key package that is offered is fetched, also from a stream that holds
    more. *)
Lemma offer_fetched pub rest : pub <> [] -> Z.of_nat (length pub) <= Frames.maxKPPayload ->
  Frames.FetchKeyPackageDirect true (inl (Frames.offer_frame pub ++ rest)) = inl pub.
Proof.
  intros Hp Hl. unfold Frames.FetchKeyPackageDirect, Frames.offer_frame. unfold Frames.maxKPPayload in *. simpl negb. cbv iota.
  assert (Hu : u32 (Z.of_nat (length pub)) = Z.of_nat (length pub)) by (apply Z.mod_small; lia). rewrite Hu.
  rewrite <- app_assoc. pose proof (read_raw_put (256 * 1024) pub rest Hp Hl eq_refl) as R. unfold Frames.read_raw in R.
  revert R. destruct (_ <? 4)%nat; [done|]. destruct (_ || _); [done|]. destruct (_ <? _); [done|]. by intros [= -> _].
Qed.

(** C38: Every frame protocol of the application gives back what was written, from
    a stream that may hold more: for the invite store, the channel categories,
    the group information, the invite requests and the delivery of welcomes,
    a value whose text is within the limit of the protocol is written, its
    reader gives it back and leaves the rest of the stream, and a longer one
    is refused by the writer; a key package of at most 256 KiB that is offered
    directly is the one that is fetched. *)
Theorem frames_round_trip {A} `{JL : JSONLaws A} `{JW : JSONLaws welcomeDeliveryWire} (v : A) (w : welcomeDeliveryWire) pub rest :
  json_valid v -> json_valid w -> pub <> [] -> Z.of_nat (length pub) <= 256 * 1024 ->
  carries Frames.WriteInviteStoreJSONFrame Frames.ReadInviteStoreJSONFrame (4 * 2 ^ 20) v rest /\
  carries Frames.WriteChannelCategoryJSONFrame Frames.ReadChannelCategoryJSONFrame (4 * 2 ^ 20) v rest /\
  carries Frames.WriteGroupInfoJSONFrame Frames.ReadGroupInfoJSONFrame (4 * 2 ^ 20) v rest /\
  carries Frames.WriteGroupInviteWireFrame Frames.ReadGroupInviteWireFrame (512 * 2 ^ 10) v rest /\
  carries Frames.writeWelcomeFrame Frames.readWelcomeFrame (4 * 2 ^ 20) w rest /\
  Frames.FetchKeyPackageDirect true (inl (Frames.offer_frame pub ++ rest)) = inl pub.
Proof.
  intros Hv Hw Hp Hl. do 4 (split; [by apply frame_carries|]). split; [|by apply offer_fetched].
  pose proof (frame_carries Frames.maxWelcomeFrame w rest Hw eq_refl) as Hc. revert Hc.
  unfold carries, Frames.writeWelcomeFrame, Frames.readWelcomeFrame, Frames.write_frame. change (4 * 2 ^ 20) with Frames.maxWelcomeFrame.
  pose proof (json_nonempty w) as Hne. destruct (is_empty (json_Marshal w)) eqn:E; [by apply is_empty_true in E|]. simpl.
  destruct (_ >? _), (_ <=? _); [by intros (? & [=] & _)|by eexists|done|by intros (? & [=])].
Qed.
