(* ===== verification/MembershipSpec.v ===== *)
(** * Properties of the membership services

    Who may change a role or remove a member, what a signed role change from
    another node can do, what the upkeep of the roster does to roles and to the
    peer directory, and that nodes with the same roster elect the same writer. *)
From S2P Require Import Prelude GoStrings Sha256 Types Config SingleWriter.
From S2P Require Import Database Store HealStore AppDatabase Identity.
From S2P Require Import Roster InviteStore Replicated Runtime Membership SqlLogic InviteStoreSpec.

Section Facts.
Context {PC : PeerCodec} {ED : Ed25519} (re : RtEnv).

Lemma rt_eta s : mkRtState (rt_app s) (rt_coords s) (rt_trace s) = s.
Proof. by destruct s. Qed.

(** ** Reads *)

Lemma swp_member g p Q s :
  (forall e, Q (inr e) s) ->
  (forall row, adb_members (rt_app s) !! (TrimSpace g, TrimSpace p) = Some row -> Q (inl (Roster.scan_member row)) s) ->
  swp (Runtime.app (Roster.GetGroupMember g p)) Q s.
Proof.
  intros He H. apply swp_app. unfold Roster.GetGroupMember. repeat swp_step; rewrite ?rt_eta; auto.
Qed.

(** The printed id of the local node, from the running node or its key. *)
Definition is_local (l : string) : Prop :=
  match re_node re with
  | Some pid => l = peer_String pid
  | None => exists pid, re_privKey re = Some pid /\ l = TrimSpace (peer_String pid)
  end.

Lemma swp_local Q s :
  (forall e, Q (inr e) s) -> (forall l, is_local l -> Q (inl l) s) -> swp (Runtime.localPeerID re) Q s.
Proof.
  intros He H. unfold Runtime.localPeerID, is_local in *. destruct (re_node re) as [pid|].
  - apply swp_ret. by apply H.
  - repeat swp_step. unfold Runtime.GetOnboardingInfo.
    destruct (re_db re); [|by repeat swp_step; apply He]. destruct (re_privKey re) as [pid|]; [|by repeat swp_step; apply He].
    unfold Runtime.GetMLSIdentity, Identity.GetMLSIdentity. repeat swp_step; rewrite ?rt_eta; eauto.
Qed.

Lemma swp_localMember g Q s :
  (forall e, Q (inr e) s) ->
  (forall row l, is_local l -> adb_members (rt_app s) !! (TrimSpace g, TrimSpace l) = Some row ->
     Q (inl (Roster.scan_member row, l)) s) ->
  swp (Runtime.localGroupMember re g) Q s.
Proof.
  intros He H. unfold Runtime.localGroupMember, Runtime.with_db, Runtime.not_initialized.
  apply swp_bind, swp_local; [done|]. intros l Hl. destruct (re_db re); [|by apply swp_throw].
  apply swp_bind, swp_member; [done|]. intros row Hr. apply swp_ret. by apply H.
Qed.

(** The role a permission needs. *)
Definition permitted (perm : Runtime.groupPermission) (role : string) : Prop :=
  match perm with
  | Runtime.permissionManageAdmins => role = Roster.GroupMemberRoleCreator
  | _ => role = Roster.GroupMemberRoleCreator \/ role = Roster.GroupMemberRoleAdmin
  end.

Lemma creator_role_known r : Roster.known_role r -> Runtime.isCreatorRole r = bool_decide (r = Roster.GroupMemberRoleCreator).
Proof. unfold Roster.known_role. set_unfold. by intros [-> | [-> | [-> | []]]]. Qed.
Lemma admin_role_known r : Roster.known_role r ->
  Runtime.isAdminRole r = bool_decide (r = Roster.GroupMemberRoleCreator \/ r = Roster.GroupMemberRoleAdmin).
Proof. unfold Roster.known_role. set_unfold. by intros [-> | [-> | [-> | []]]]. Qed.

(** The local node's own row: active, with a role that permits [perm]. *)
Definition allowed (perm : Runtime.groupPermission) (g l : string) (d : AppDB) (me : GroupMemberRecord) : Prop :=
  is_local l /\ adb_members d !! (TrimSpace g, TrimSpace l) = Some me /\
  gm_Status me = Roster.GroupMemberStatusActive /\ permitted perm (gm_Role me).

Lemma scan_ok d k r : Roster.members_ok d -> adb_members d !! k = Some r -> Roster.scan_member r = r.
Proof.
  intros Hd E. destruct (Hd _ _ E) as [_ _ _ _ Hr Hs]. unfold Roster.scan_member.
  rewrite Roster.normalize_role_id, Roster.normalize_status_id by done. by destruct r.
Qed.

Lemma swp_permission g perm Q s :
  Roster.members_ok (rt_app s) -> (forall e, Q (inr e) s) ->
  (forall me l, allowed perm g l (rt_app s) me -> Q (inl (me, l)) s) ->
  swp (Runtime.requireGroupPermission re g perm) Q s.
Proof.
  intros Hd He H. unfold Runtime.requireGroupPermission. apply swp_bind, swp_localMember; [done|].
  intros row l Hl E. cbn [fst]. rewrite (scan_ok _ _ _ Hd E).
  destruct (Hd _ _ E) as [_ _ _ _ Hr _].
  destruct (str_eqb_spec (gm_Status row) Roster.GroupMemberStatusActive) as [Hs|]; [|by apply swp_throw].
  cbn [negb]. rewrite creator_role_known, admin_role_known by done.
  destruct perm; (destruct (bool_decide _) eqn:Ep; [apply swp_ret|apply swp_throw, He]);
    apply H; repeat split; try done; by apply bool_decide_eq_true in Ep.
Qed.

(** ** Session *)

(** No newer device has taken the session over. *)
Definition session_open (d : AppDB) : Prop :=
  re_db re = true -> forall b, adb_config d !! Runtime.sessionReplacedAtConfigKey = Some b -> length b <> 8%nat.

Lemma swp_config key Q s :
  (forall e, Q (inr e) s) ->
  (forall v, (forall b, adb_config (rt_app s) !! key = Some b -> length b <> 8%nat) -> Q (inl (v, false)) s) ->
  (forall v, Q (inl (v, true)) s) ->
  swp (Runtime.app (Runtime.readInt64Config key)) Q s.
Proof.
  intros He Hn Hy. unfold Runtime.readInt64Config, Identity.GetConfig. repeat swp_step; rewrite ?rt_eta; auto.
  - apply Hn. intros b Hb. rewrite Hb in H. injection H as ->. by apply Nat.eqb_neq in E.
  - apply Hn. intros b Hb. by rewrite Hb in H.
Qed.

Lemma swp_session Q s :
  (forall e, Q (inr e) s) -> (session_open (rt_app s) -> Q (inl tt) s) -> swp (Runtime.ensureSessionActive re) Q s.
Proof.
  intros He H. unfold Runtime.ensureSessionActive, Runtime.GetSessionStatus. apply swp_bind.
  destruct (re_db re) eqn:Edb; cbn [negb].
  2: { apply swp_ret. apply swp_ret. apply H. intros E. by rewrite Edb in E. }
  apply swp_bind, swp_wrap, swp_config; [done|..].
  all: intros v; intros; apply swp_bind, swp_wrap, swp_config; [done|..]; intros v' **; apply swp_ret; cbn [fst snd negb].
  all: rewrite ?andb_true_r, ?andb_false_r; repeat case_match; apply swp_ret || apply swp_throw; auto.
  all: try (apply H; intros _; done).
Qed.

(** ** Changes of one row *)

Definition put_member (k : string * string) (r : GroupMemberRecord) (s : RtState) : RtState :=
  mkRtState (set_adb_members (<[k := r]> (adb_members (rt_app s))) (rt_app s)) (rt_coords s) (rt_trace s).

Definition with_role (role : string) (now : Z) (r : GroupMemberRecord) : GroupMemberRecord :=
  mkGroupMemberRecord (gm_GroupID r) (gm_PeerID r) (gm_DisplayName r) role (gm_Status r) (gm_Source r)
    (gm_JoinedAt r) (gm_LeftAt r) now.
Definition departed (at_ now : Z) (r : GroupMemberRecord) : GroupMemberRecord :=
  mkGroupMemberRecord (gm_GroupID r) (gm_PeerID r) (gm_DisplayName r) (gm_Role r) Roster.GroupMemberStatusLeft
    (gm_Source r) (gm_JoinedAt r) at_ now.

(** An active member that is not the creator. *)
Definition demotable (k : string * string) (d : AppDB) (r : GroupMemberRecord) : Prop :=
  adb_members d !! k = Some r /\ gm_Status r = Roster.GroupMemberStatusActive /\
  gm_Role r <> Roster.GroupMemberRoleCreator.

Lemma swp_setRole g p role Q s :
  Roster.members_ok (rt_app s) -> (forall e, Q (inr e) s) ->
  (forall row now, demotable (TrimSpace g, TrimSpace p) (rt_app s) row ->
     Q (inl tt) (put_member (TrimSpace g, TrimSpace p) (with_role (Roster.normalizeGroupMemberRole role) now row) s)) ->
  swp (Runtime.app (Roster.SetGroupMemberRole g p role)) Q s.
Proof.
  intros Hd He H. apply swp_app. unfold Roster.SetGroupMemberRole, Roster.GetGroupMember.
  rewrite !TrimSpace_idemp. destruct (str_eqb (TrimSpace g) "" || str_eqb (TrimSpace p) ""); [by apply swp_throw; rewrite rt_eta|].
  repeat swp_step; rewrite ?rt_eta; auto; rewrite (scan_ok _ _ _ Hd H0) in *; breflect.
  all: unfold Roster.update_member in *; rewrite H0 in *; rewrite E0 in *; simpl in *.
  all: apply str_eqb_false in E1 as E1'; rewrite E1' in *; simpl in *; try done.
  assert (Ha : demotable (TrimSpace g, TrimSpace p) (rt_app s) a) by done.
  specialize (H a t Ha). unfold put_member, with_role in H. by rewrite E0 in H.
Qed.

Lemma swp_markLeft g p at_ Q s :
  (forall e, Q (inr e) s) ->
  (forall row at_ now, adb_members (rt_app s) !! (TrimSpace g, TrimSpace p) = Some row ->
     Q (inl tt) (put_member (TrimSpace g, TrimSpace p) (departed at_ now row) s)) ->
  swp (Runtime.app (Roster.MarkGroupMemberLeft g p at_)) Q s.
Proof.
  intros He H. apply swp_app. unfold Roster.MarkGroupMemberLeft, Roster.update_member.
  repeat swp_step; rewrite ?rt_eta; auto; destruct (adb_members _ !! _) as [row|] eqn:Er; simpl in *;
    rewrite ?rt_eta; auto; try done; by apply (H row).
Qed.

Lemma members_eq s s' : rt_app s' = rt_app s -> adb_members (rt_app s') = adb_members (rt_app s).
Proof. by intros ->. Qed.

Lemma swp_event g ty a p e Q s :
  (forall tr, Q (inl tt) (mkRtState (rt_app s) (rt_coords s) tr)) -> swp (Runtime.appendGroupEvent g ty a p e) Q s.
Proof.
  intros H. unfold Runtime.appendGroupEvent. repeat swp_step; [|apply H].
  pose proof (H (rt_trace s)) as Hs. by rewrite rt_eta in Hs.
Qed.

(** What [SetGroupMemberAdmin] may do to the roster. *)
Definition admin_change (g p : string) (isAdmin : bool) (s s' : RtState) : Prop :=
  adb_members (rt_app s') = adb_members (rt_app s) \/
  exists me l row now,
    session_open (rt_app s) /\ allowed Runtime.permissionManageAdmins g l (rt_app s) me /\
    demotable (TrimSpace g, TrimSpace p) (rt_app s) row /\
    adb_members (rt_app s') = <[(TrimSpace g, TrimSpace p) :=
      with_role (if isAdmin then Roster.GroupMemberRoleAdmin else Roster.GroupMemberRoleMember) now row]>
      (adb_members (rt_app s)).

Lemma SetGroupMemberAdmin_change g p isAdmin s :
  Roster.members_ok (rt_app s) ->
  swp (Membership.SetGroupMemberAdmin re g p isAdmin) (fun _ s' => admin_change g p isAdmin s s') s.
Proof.
  intros Hd. assert (Hsame : admin_change g p isAdmin s s) by (by left).
  unfold Membership.SetGroupMemberAdmin. destruct (str_eqb _ "" || _); [by apply swp_throw|].
  apply swp_bind, swp_session; [done|]. intros Hopen. destruct (peer_Decode _); [|by apply swp_throw].
  apply swp_bind, swp_permission; [done|done|]. intros me l Hme.
  unfold Runtime.with_db. destruct (re_db re); [|by apply swp_throw].
  apply swp_bind, swp_member; [done|]. intros target Ht. rewrite (scan_ok _ _ _ Hd Ht).
  do 3 (swp_step; [by repeat swp_step|]).
  rewrite !TrimSpace_idemp in Ht.
  apply swp_bind, swp_setRole; [done|done|]. intros row now Hrow. rewrite !TrimSpace_idemp in *.
  apply swp_bind, swp_event. intros tr. repeat swp_step. right. exists me, l, row, now.
  split_and!; [done|..|].
  - destruct Hme as (? & ? & ? & ?). rewrite TrimSpace_idemp in *. by split_and!.
  - done.
  - simpl. by destruct isAdmin.
Qed.
Lemma plain_member r : Roster.known_role r -> Runtime.isCreatorRole r = false ->
  EqualFold (TrimSpace r) Roster.GroupMemberRoleAdmin = false -> r = Roster.GroupMemberRoleMember.
Proof. unfold Roster.known_role. set_unfold. by intros [-> | [-> | [-> | []]]]. Qed.

(** ** Signed role changes from other nodes *)

(** The sources that name the creator of a group, in their order. *)
Definition recognized (g a : string) (d : AppDB) : Prop :=
  let col := match Roster.group_row g d with
    | Some _ => TrimSpace (gc_creator_peer_id (Roster.group_cols g d)) | None => "" end in
  if str_eqb col "" then
    (exists p row, adb_members d !! (g, p) = Some row /\ gm_Status row = Roster.GroupMemberStatusActive /\
       gm_Role row = Roster.GroupMemberRoleCreator /\ TrimSpace (gm_PeerID row) = a) \/
    hinted g a d
  else col = a.

Lemma select_members_elem g f d r :
  r ∈ Roster.select_members g f d <-> exists p, adb_members d !! (g, p) = Some r /\ f r = true.
Proof.
  unfold Roster.select_members. rewrite list_elem_of_omap. split.
  - intros ([[g' p] row] & Hin & H). simpl in H. destruct (str_eqb g' g && f row) eqn:E; [|done].
    injection H as <-. breflect. destruct E as [-> Hf]. apply elem_of_map_to_list in Hin. eauto.
  - intros (p & E & Hf). exists ((g, p), r). rewrite elem_of_map_to_list. split; [done|]. simpl.
    by rewrite str_eqb_refl, Hf.
Qed.

(** The creator column, empty when the group has no row. *)
Definition creator_column (g : string) (d : AppDB) : string :=
  match Roster.group_row g d with
  | Some _ => TrimSpace (gc_creator_peer_id (Roster.group_cols g d))
  | None => ""
  end.

Lemma swp_creator_from g a c Q s :
  Roster.members_ok (rt_app s) -> TrimSpace g = g -> TrimSpace c = creator_column g (rt_app s) ->
  (forall e, Q (inr e) s) ->
  (forall b : bool, (b = true -> recognized g a (rt_app s)) -> Q (inl b) s) ->
  swp (Runtime.creator_from g a c) Q s.
Proof.
  intros Hd Hg Hc He H. unfold Runtime.creator_from. unfold recognized in H. fold (creator_column g (rt_app s)) in H.
  rewrite Hc. destruct (str_eqb (creator_column g (rt_app s)) "") eqn:Ec; cbn [negb].
  2: { apply swp_ret, H. by intros ?%str_eqb_true. }
  apply swp_bind, swp_app. unfold Roster.ListGroupMembers. rewrite Hg.
  destruct (str_eqb g ""); [apply swp_throw; rewrite rt_eta; apply He|].
  apply swp_bind, swp_wrap, swp_query; [|intros; rewrite rt_eta; apply He]. apply swp_ret. rewrite rt_eta.
  destruct (existsb _ _) eqn:E1.
  - apply swp_ret, H. intros _. left. apply existsb_exists in E1 as (m & Hin & Hm). apply list_elem_of_In in Hin.
    apply list_elem_of_fmap in Hin as (row & -> & Hin). rewrite stable_sort_elem in Hin.
    apply select_members_elem in Hin as (p & Ep & Hst). cbn [is_empty fmap list_fmap orb] in Hst.
    rewrite (scan_ok _ _ _ Hd Ep) in Hm. breflect. destruct Hm as [Hp Hr]. exists p, row.
    destruct (Hd _ _ Ep) as [_ _ _ _ Hkr Hks]. split_and!; [exact Ep| | |exact Hp].
    + revert Hst. set_unfold. by intros [?|[]].
    + revert Hr Hkr. unfold Roster.known_role. set_unfold.
      intros Hr [E'|[E'|[E'|[]]]]; rewrite E' in Hr |- *; [done|by vm_compute in Hr..].
  - apply swp_bind, swp_try, swp_app, swp_creatorHint. rewrite rt_eta. intros [h|e] Hh; apply swp_ret, H; [|done].
    intros <-%str_eqb_true. right. rewrite <- Hg at 1. by apply Hh.
Qed.

Lemma swp_creatorPeer g a Q s :
  Roster.members_ok (rt_app s) -> (forall e, Q (inr e) s) ->
  (forall b : bool, (b = true -> recognized (TrimSpace g) (TrimSpace a) (rt_app s)) -> Q (inl b) s) ->
  swp (Runtime.isActiveGroupCreatorPeer re g a) Q s.
Proof.
  intros Hd He H. unfold Runtime.isActiveGroupCreatorPeer.
  destruct (str_eqb (TrimSpace g) "" || str_eqb (TrimSpace a) "") eqn:E0; [apply swp_ret; by apply H|].
  destruct (re_db re); [|by apply swp_throw]. cbn [negb]. apply orb_false_iff in E0 as [E0 _].
  assert (Hgo : forall c, TrimSpace c = creator_column (TrimSpace g) (rt_app s) ->
    swp (Runtime.creator_from (TrimSpace g) (TrimSpace a) c) Q s).
  { intros c Hc. apply swp_creator_from; [done|apply TrimSpace_idemp|done|done|done]. }
  apply swp_bind, swp_try, swp_app. unfold Roster.GetGroupCreatorPeerID. rewrite TrimSpace_idemp, E0.
  apply swp_bind, swp_wrap, swp_query.
  - unfold creator_column in Hgo. destruct (Roster.group_row (TrimSpace g) (rt_app s)).
    + apply swp_ret. rewrite rt_eta. apply Hgo. apply TrimSpace_idemp.
    + apply swp_throw. rewrite rt_eta. by apply (Hgo "").
  - intros e. rewrite rt_eta. by apply swp_throw.
Qed.

(** A merge that succeeds did not meet a later record. *)
Lemma swp_merge x Q s :
  (forall e d, adb_members d = adb_members (rt_app s) -> Q (inr e) (mkRtState d (rt_coords s) (rt_trace s))) ->
  (forall d, adb_members d = adb_members (rt_app s) ->
     (forall r0, adb_records (rt_app s) !! Replicated.put_key x = Some r0 -> rr_Revision r0 <= Replicated.rp_revision x) ->
     Q (inl tt) (mkRtState d (rt_coords s) (rt_trace s))) ->
  swp (Runtime.app (Replicated.TryMergeReplicatedRecord x)) Q s.
Proof.
  intros He H. apply swp_app. intros env t.
  assert (Hm : same adb_members (rt_app s) (Replicated.TryMergeReplicatedRecord x env t (rt_app s)).2)
    by (by apply Replicated.merge_only).
  assert (Hr : forall u t' d', Replicated.TryMergeReplicatedRecord x env t (rt_app s) = (inl u, t', d') ->
    forall r0, adb_records (rt_app s) !! Replicated.put_key x = Some r0 -> rr_Revision r0 <= Replicated.rp_revision x).
  { intros u t' d' E r0 Er. unfold Replicated.TryMergeReplicatedRecord in E. destruct (Replicated.put_invalid _ x); [done|].
    apply bind_inl in E as (cur & t1 & d1 & Eq & E). apply query_inl in Eq as [-> ->]. rewrite Er in E.
    destruct (Z.gtb_spec (rr_Revision r0) (Replicated.rp_revision x)); [done|lia]. }
  destruct (Replicated.TryMergeReplicatedRecord x env t (rt_app s)) as [[[[]|e] t'] d'].
  - apply H; [done|]. by eapply Hr.
  - by apply He.
Qed.

(** The role a signed change stands for. *)
Definition pushed_role (w : groupRoleWireV1) : string :=
  if EqualFold (TrimSpace (rw_NewRole w)) Roster.GroupMemberRoleAdmin
  then Roster.GroupMemberRoleAdmin else Roster.GroupMemberRoleMember.

(** A role change that the creator signed and that is not older than the one
    known here. *)
Definition authentic (actor wireJSON : string) (sig : bytes) (d : AppDB) (w : groupRoleWireV1) : Prop :=
  (exists profile pub, List.find (Roster.pd_key actor) (adb_directory d) = Some profile /\
     hex_DecodeString (TrimSpace (pd_PublicKeyHex profile)) = Some pub /\ length pub = 32%nat /\
     length sig = 64%nat /\ ed_Verify pub (str_bytes wireJSON) sig = true) /\
  re_role_Unmarshal re wireJSON = Some w /\ rw_V w = 1 /\ TrimSpace (rw_ActorPeerID w) = actor /\
  recognized (TrimSpace (rw_GroupID w)) actor d /\
  forall r0, adb_records d !! (Replicated.NamespaceGroupRoleV1,
      TrimSpace (Membership.groupRoleRecordKey (rw_GroupID w) (rw_TargetPeerID w))) = Some r0 ->
    rr_Revision r0 <= rw_Revision w.

Definition role_push (actor wireJSON : string) (sig : bytes) (s s' : RtState) : Prop :=
  adb_members (rt_app s') = adb_members (rt_app s) \/
  exists w row now, authentic actor wireJSON sig (rt_app s) w /\
    demotable (TrimSpace (rw_GroupID w), TrimSpace (rw_TargetPeerID w)) (rt_app s) row /\
    adb_members (rt_app s') = <[(TrimSpace (rw_GroupID w), TrimSpace (rw_TargetPeerID w)) :=
      with_role (pushed_role w) now row]> (adb_members (rt_app s)).

Lemma role_push_change actorPeerID wireJSON sig s :
  Roster.members_ok (rt_app s) ->
  swp (Membership.applySignedRemoteGroupRolePush re actorPeerID wireJSON sig)
    (fun _ s' => role_push (TrimSpace actorPeerID) wireJSON sig s s') s.
Proof.
  intros Hd. assert (Hsame : role_push (TrimSpace actorPeerID) wireJSON sig s s) by (by left).
  unfold Membership.applySignedRemoteGroupRolePush. set (actor := TrimSpace actorPeerID) in *.
  destruct (str_eqb actor ""); [by apply swp_throw|].
  unfold Runtime.with_db. destruct (re_db re); [|by apply swp_throw].
  apply swp_bind, swp_app. unfold Roster.GetPeerDirectoryProfile.
  assert (Hactor : TrimSpace actor = actor) by apply TrimSpace_idemp. rewrite Hactor.
  destruct (str_eqb actor ""); [apply swp_throw; by rewrite rt_eta|].
  apply swp_row; [|intros _; by rewrite rt_eta|intros; by rewrite rt_eta]. intros profile Hp. rewrite rt_eta.
  destruct (hex_DecodeString _) as [pub|] eqn:Hhex; [|by apply swp_throw].
  destruct (Nat.eqb_spec (length pub) 32) as [Hlen|]; [|by apply swp_throw]. cbn [negb].
  unfold Membership.verifyProfileWire.
  destruct (Nat.eqb_spec (length sig) 64) as [Hsig|]; [|by apply swp_throw]. cbn [andb].
  destruct (ed_Verify _ _ _) eqn:Hver; [|by apply swp_throw]. cbn [negb].
  destruct (re_role_Unmarshal re wireJSON) as [w|] eqn:Hw; [|by apply swp_throw].
  destruct (Z.eqb_spec (rw_V w) 1) as [Hv|]; [|by apply swp_throw]. cbn [negb].
  destruct (str_eqb_spec (TrimSpace (rw_ActorPeerID w)) actor) as [Hact|]; [|by apply swp_throw]. cbn [negb].
  apply swp_bind, swp_creatorPeer; [done|done|]. rewrite Hactor. intros [] Hrec; [|by apply swp_throw]. cbn [negb].
  specialize (Hrec eq_refl).
  assert (Hrest : forall memberExists : bool,
    swp (Membership.mergeGroupRole actor wireJSON sig pub w memberExists) (fun _ s' => role_push actor wireJSON sig s s') s).
  { intros memberExists. unfold Membership.mergeGroupRole. apply swp_bind, swp_try, swp_merge.
    - intros e d Hm. destruct (errors_Is e _); apply swp_throw; by left.
    - intros d Hm Hrev. destruct memberExists; [|by repeat swp_step; left].
      assert (Hd' : Roster.members_ok d) by (unfold Roster.members_ok; by rewrite Hm).
      apply swp_bind, swp_setRole; [done|intros; by left|]. intros row now Hrow. repeat swp_step. right.
      exists w, row, now. split_and!.
      + split_and!; try done. by exists profile, pub.
      + unfold demotable in *. by rewrite <-Hm.
      + simpl. rewrite Hm. do 2 f_equal. unfold pushed_role. by case_match. }
  apply swp_bind, swp_try, swp_member.
  - intros e. apply Hrest.
  - intros row Hrow. destruct (str_eqb (gm_Status _) _); cbn [andb]; [|apply Hrest].
    destruct (Runtime.isCreatorRole _); [by apply swp_throw|apply Hrest].
Qed.
End Facts.

(** ** The roster and the election *)

Section Election.
Context {PC : PeerCodec}.

(** An active creator or admin row of the group stands for peer [p]. *)
Definition committer (g : string) (d : AppDB) (p : peerID) : Prop :=
  exists q row, adb_members d !! (TrimSpace g, q) = Some row /\ gm_Status row = Roster.GroupMemberStatusActive /\
    gm_Role row ∈ [Roster.GroupMemberRoleCreator; Roster.GroupMemberRoleAdmin] /\
    peer_Decode (TrimSpace (gm_PeerID row)) = Some p /\ p <> "".

Lemma committers_run g env now d :
  Roster.members_ok d -> TrimSpace g <> "" -> sql_fails env now = None ->
  exists rows t' d', Runtime.listAuthorizedGroupMembersFromDB g env now d = (inl rows, t', d') /\
    forall p, p ∈ Runtime.authorizedPeerIDsFromRows rows <-> committer g d p.
Proof.
  intros Hd Hg Hf. unfold Runtime.listAuthorizedGroupMembersFromDB, Roster.ListAuthorizedCommitters, Roster.ListGroupAdmins,
    Roster.listGroupMembersByRoles. apply str_eqb_false in Hg as ->. cbn [fmap list_fmap is_empty].
  unfold sql_bind, sql_wrap, sql_query, sql_ret. rewrite Hf. do 3 eexists. split; [reflexivity|].
  intros p. unfold Runtime.authorizedPeerIDsFromRows, committer. rewrite list_elem_of_omap. split.
  - intros (m & Hm & Hp). rewrite stable_sort_elem in Hm. apply list_elem_of_fmap in Hm as (row & -> & Hm).
    rewrite stable_sort_elem in Hm. apply select_members_elem in Hm as (q & Eq & Hs).
    rewrite (scan_ok _ _ _ Hd Eq) in Hp. breflect. destruct Hs as [Hs Hr]. exists q, row.
    destruct (peer_Decode _) as [pid|]; [|done]. destruct (str_eqb_spec pid ""); [done|]. injection Hp as <-.
    by split_and!.
  - intros (q & row & Eq & Hs & Hr & Hp & Hne). exists row. rewrite Hp. apply str_eqb_false in Hne as ->.
    split; [|done]. rewrite stable_sort_elem. apply list_elem_of_fmap. exists row.
    split; [by rewrite (scan_ok _ _ _ Hd Eq)|]. rewrite stable_sort_elem. apply select_members_elem.
    exists q. split; [done|]. rewrite Hs, str_eqb_refl. by apply bool_decide_eq_true.
Qed.

Lemma provider_policy cfg now sw env hist :
  SingleWriter.sw_authorized sw = Some (Runtime.authorizedCommittersProvider env hist) ->
  Roster.members_ok (hist now) -> TrimSpace (SingleWriter.sw_groupID sw) <> "" -> sql_fails env now = None ->
  exists l, SingleWriter.sw_policy cfg now sw = inl (Some l) /\
    forall p, p ∈ l <-> committer (SingleWriter.sw_groupID sw) (hist now) p.
Proof.
  intros Ha Hd Hg Hf. destruct (committers_run _ env now (hist now) Hd Hg Hf) as (rows & t' & d' & E & Hl).
  exists (Runtime.authorizedPeerIDsFromRows rows). split; [|exact Hl].
  unfold SingleWriter.sw_policy, SingleWriter.policy. rewrite Ha. cbn beta iota. unfold Runtime.authorizedCommittersProvider. by rewrite E.
Qed.
End Election.

(** C19: Nodes whose rosters name the same active creators and admins elect
    the same writer.  With the policy that the runtime gives its coordinators,
    a node at an epoch of a group elects only a peer that its own roster holds
    as an active creator or admin; and two nodes that agree on those peers, on
    the active members, the pending proposals in any order and the
    suspensions elect the same peer, so at most one of them commits, whatever
    else their databases hold: if both can read their roster, the pending
    proposals have distinct non-empty references, and the scores of the members
    do not collide. *)
Theorem rosters_elect_same_writer {PC : PeerCodec} cfg env env' hist hist' now now' members members' sw sw' :
  SingleWriter.sw_authorized sw = Some (Runtime.authorizedCommittersProvider env hist) ->
  SingleWriter.sw_authorized sw' = Some (Runtime.authorizedCommittersProvider env' hist') ->
  Roster.members_ok (hist now) -> Roster.members_ok (hist' now') ->
  sql_fails env now = None -> sql_fails env' now' = None ->
  (forall p, committer (SingleWriter.sw_groupID sw) (hist now) p <-> committer (SingleWriter.sw_groupID sw) (hist' now') p) ->
  TrimSpace (SingleWriter.sw_groupID sw) <> "" ->
  SingleWriter.sw_epoch sw = SingleWriter.sw_epoch sw' -> SingleWriter.sw_groupID sw = SingleWriter.sw_groupID sw' ->
  (forall p, p ∈ members <-> p ∈ members') -> SingleWriter.sw_proposals sw ≡ₚ SingleWriter.sw_proposals sw' ->
  SingleWriter.refs_distinct (SingleWriter.sw_proposals sw) -> SingleWriter.refs_nonempty (SingleWriter.sw_proposals sw) ->
  SingleWriter.sw_suspended sw = SingleWriter.sw_suspended sw' ->
  SingleWriter.collision_free (SingleWriter.sw_groupID sw) (SingleWriter.sw_epoch sw) members ->
  (forall p, SingleWriter.CurrentTokenHolder cfg now members sw = inl p -> committer (SingleWriter.sw_groupID sw) (hist now) p) /\
  SingleWriter.CurrentTokenHolder cfg now members sw = SingleWriter.CurrentTokenHolder cfg now' members' sw' /\
  (SingleWriter.sw_localID sw <> SingleWriter.sw_localID sw' ->
   ~ (SingleWriter.IsTokenHolder cfg now members sw = true /\ SingleWriter.IsTokenHolder cfg now' members' sw' = true)).
Proof.
  intros Ha Ha' Hd Hd' Hf Hf' Hsame Hg He Hgg Hm Hp Hrd Hrn Hs Hc.
  destruct (provider_policy cfg now sw env hist Ha Hd Hg Hf) as (l & El & Hl). pose proof Hg as Hg'. rewrite Hgg in Hg'.
  destruct (provider_policy cfg now' sw' env' hist' Ha' Hd' Hg' Hf') as (l' & El' & Hl').
  split.
  - intros p Hh. rewrite (SingleWriter.Current_policy _ _ _ _ _ El) in Hh.
    apply SingleWriter.ComputeTokenHolder_inl in Hh as [Hin _].
    apply SingleWriter.elem_of_candidates in Hin as (_ & Hau & _). apply Hl. apply Hau.
  - apply (SingleWriter.agreement cfg now now' members members' sw sw' (Some l) (Some l')); try done.
    intros p. rewrite Hl, Hl', <-Hgg. apply Hsame.
Qed.

(** ** Upkeep of the directory *)

(** The roster is not extended by observation.  Recording that a peer was
    seen in a group, for a peer without a row in it, always fails and changes
    no table, since the lookup of the row answers that there is none. *)
Theorem roster_sync_never_inserts {PC : PeerCodec} {ED : Ed25519} re g p source env t s :
  adb_members (rt_app s) !! (TrimSpace g, TrimSpace p) = None ->
  exists e, (Membership.upsertGroupMemberFromRosterSync re g p source env t s).1.1 = inr e /\
    (Membership.upsertGroupMemberFromRosterSync re g p source env t s).2 = s.
Proof.
  intros Hn.
  assert (H : swp (Membership.upsertGroupMemberFromRosterSync re g p source)
    (fun r s' => exists e, r = inr e /\ s' = s) s); [|by apply H].
  unfold Membership.upsertGroupMemberFromRosterSync, Membership.upsertGroupMemberFromRosterEvidence, Membership.checked_ids,
    Runtime.with_db, Runtime.not_initialized. repeat (case_match; [by apply swp_throw; eauto|]).
  destruct (re_db re); [|by apply swp_throw; eauto].
  apply swp_bind. apply swp_bind, swp_member; [by eauto|]. intros row. rewrite !TrimSpace_idemp. congruence.
Qed.

Lemma find_filtered p (l : list PeerDirectoryRow) r :
  pd_PeerID r = p -> List.find (Roster.pd_key p) (filter (fun r => pd_PeerID r <> p) l ++ [r]) = Some r.
Proof.
  intros Hr. induction l as [|x l IH]; simpl.
  - unfold Roster.pd_key. by rewrite Hr, str_eqb_refl.
  - destruct (decide (pd_PeerID x = p)) as [E|E]; [by rewrite filter_cons_False by tauto|].
    rewrite filter_cons_True by done. simpl. unfold Roster.pd_key at 1. apply str_eqb_false in E as ->. exact IH.
Qed.

(** Refreshing a name forgets the key.  After the name of a peer, as its
    token gives it, has been stored, every signed role change of that peer is
    refused, whatever it says and however it is signed, and changes nothing:
    the statement that stores the name replaces the whole row, and the public
    key in it becomes empty. *)
Theorem name_refresh_disables_role_push {PC : PeerCodec} {ED : Ed25519} re p name wireJSON sig env t env' t' d t1 s :
  TrimSpace p = p -> p <> "" -> name <> "" ->
  Roster.SavePeerProfile p name env t d = (inl tt, t1, rt_app s) ->
  exists e, (Membership.applySignedRemoteGroupRolePush re p wireJSON sig env' t' s).1.1 = inr e /\
    (Membership.applySignedRemoteGroupRolePush re p wireJSON sig env' t' s).2 = s.
Proof.
  intros Hp Hne Hname E.
  assert (H : swp (Membership.applySignedRemoteGroupRolePush re p wireJSON sig)
    (fun r s' => exists e, r = inr e /\ s' = s) s); [|by apply H].
  unfold Roster.SavePeerProfile in E. apply str_eqb_false in Hname as Hname'. apply str_eqb_false in Hne as Hne'.
  rewrite Hname', Hne' in E. cbn [orb] in E. remember (rt_app s) as d' eqn:Es. asql_inv.
  unfold Membership.applySignedRemoteGroupRolePush, Runtime.with_db, Runtime.not_initialized. rewrite Hp, Hne'.
  destruct (re_db re); [|by apply swp_throw; eauto].
  apply swp_bind, swp_app. unfold Roster.GetPeerDirectoryProfile. rewrite Hp, Hne'.
  apply swp_row; [|intros _; rewrite rt_eta; by eauto|intros; rewrite rt_eta; by eauto].
  intros profile Hf. rewrite rt_eta. rewrite <-Es in Hf. simpl in Hf. rewrite find_filtered in Hf by done.
  injection Hf as <-. by apply swp_throw; eauto.
Qed.

(** C29: Only the creator changes roles.  If granting or revoking the admin
    role changes the roster at all, the session is not taken over, the local
    node is an active creator of the group, the target is an active member
    other than the creator, and exactly the target's role changed to what was
    asked, whatever fails on the way. *)
Theorem only_creator_changes_roles {PC : PeerCodec} {ED : Ed25519} re g p isAdmin env t s r t' s' :
  Roster.members_ok (rt_app s) ->
  Membership.SetGroupMemberAdmin re g p isAdmin env t s = (r, t', s') ->
  adb_members (rt_app s') <> adb_members (rt_app s) ->
  exists me l row now,
    session_open re (rt_app s) /\ allowed re Runtime.permissionManageAdmins g l (rt_app s) me /\
    demotable (TrimSpace g, TrimSpace p) (rt_app s) row /\
    adb_members (rt_app s') = <[(TrimSpace g, TrimSpace p) :=
      with_role (if isAdmin then Roster.GroupMemberRoleAdmin else Roster.GroupMemberRoleMember) now row]>
      (adb_members (rt_app s)).
Proof.
  intros Hd E Hne. apply (swp_run _ _ _ _ _ _ _ _ (SetGroupMemberAdmin_change re g p isAdmin s Hd)) in E.
  by destruct E.
Qed.

(** C20: A signed role change from another node changes the roster only if it
    is authentic: the signature verifies under the key stored for its actor,
    the actor is the one named inside, this node knows the actor as the
    creator of the group, and the change is not older than the one it holds
    for that member.  Then exactly the role of an active member other than the
    creator changes, to admin or member. *)
Theorem role_push_is_authentic {PC : PeerCodec} {ED : Ed25519} re actorPeerID wireJSON sig env t s r t' s' :
  Roster.members_ok (rt_app s) ->
  Membership.applySignedRemoteGroupRolePush re actorPeerID wireJSON sig env t s = (r, t', s') ->
  adb_members (rt_app s') <> adb_members (rt_app s) ->
  exists w row now, authentic re (TrimSpace actorPeerID) wireJSON sig (rt_app s) w /\
    demotable (TrimSpace (rw_GroupID w), TrimSpace (rw_TargetPeerID w)) (rt_app s) row /\
    adb_members (rt_app s') = <[(TrimSpace (rw_GroupID w), TrimSpace (rw_TargetPeerID w)) :=
      with_role (pushed_role w) now row]> (adb_members (rt_app s)).
Proof.
  intros Hd E Hne. apply (swp_run _ _ _ _ _ _ _ _ (role_push_change re actorPeerID wireJSON sig s Hd)) in E.
  by destruct E.
Qed.

(** ** Instances *)

#[local] Existing Instance plain_codec.
#[local] Existing Instance toy_ed25519.

(** A role change in which alice makes bob an admin, with its coding. *)
Definition demo_wire : groupRoleWireV1 := mkRoleWire 1 "role:g:bob:1" "g" "bob" "admin" "alice" 5 1 0.
Definition demo_key : bytes := repeat Byte.x02 64.
Definition demo_sig : bytes := ed_Sign demo_key (str_bytes "wire").

(** The runtime of the peer [self]. *)
Definition demo_re (self : peerID) : RtEnv := {|
  re_db := true;
  re_node := Some self;
  re_privKey := Some self;
  re_token := fun p => Some (p, [Byte.x01]);
  re_role_Marshal := fun _ => "wire";
  re_role_Unmarshal := fun s => if str_eqb s "wire" then Some demo_wire else None;
  re_engine := true;
  re_ListMemberIdentities := fun _ => inl [];
|}.

(** Alice created the group, carol is an admin and bob a member. *)
Definition demo_roster_ops : list Roster.RosterOp :=
  [Roster.OpUpsert (Roster.sample_member "alice" Roster.GroupMemberRoleCreator);
   Roster.OpObserve (Roster.sample_member "bob" Roster.GroupMemberRoleMember);
   Roster.OpObserve (Roster.sample_member "carol" Roster.GroupMemberRoleAdmin)].
Definition demo_directory : list PeerDirectoryRow :=
  [mkPeerDirectoryRow "alice" "Alice" (hex_EncodeToString (ed_Public demo_key)) None None None None 0 0 None 0].
Definition demo_app : AppDB :=
  set_adb_directory demo_directory (Roster.roster_run demo_roster_ops HealStore.demo_env O adb_empty).2.
Definition demo_state : RtState := mkRtState demo_app {["g"]} [].

Lemma demo_members_ok : Roster.members_ok (rt_app demo_state).
Proof.
  apply (Roster.evolves_members_ok _ adb_empty _ (Roster.roster_run_evolves demo_roster_ops HealStore.demo_env O adb_empty)).
  apply map_Forall_empty.
Qed.

Definition role_of (p : string) (m : gmap (string * string) GroupMemberRecord) : option (string * string) :=
  (fun r => (gm_Role r, gm_Status r)) <$> m !! ("g", p).

Lemma role_of_ne p m m' : bool_decide (role_of p m' = role_of p m) = false -> m' <> m.
Proof. intros H ->. by rewrite bool_decide_true in H. Qed.

Lemma run_eta {A B C} (x : A * B * C) : x = (x.1.1, x.1.2, x.2).
Proof. by destruct x as [[? ?] ?]. Qed.

Lemma only_creator_changes_roles_witness :
  let run self := Membership.SetGroupMemberAdmin (demo_re self) "g" "bob" true HealStore.demo_env O demo_state in
  role_of "bob" (adb_members (rt_app (run "alice").2)) = Some (Roster.GroupMemberRoleAdmin, Roster.GroupMemberStatusActive) /\
  role_of "bob" (adb_members (rt_app (run "carol").2)) = Some (Roster.GroupMemberRoleMember, Roster.GroupMemberStatusActive) /\
  exists me l, allowed (demo_re "alice") Runtime.permissionManageAdmins "g" l demo_app me.
Proof.
  intros run. split_and!; [by vm_compute..|].
  destruct (only_creator_changes_roles (demo_re "alice") "g" "bob" true HealStore.demo_env O demo_state
    (run "alice").1.1 (run "alice").1.2 (run "alice").2) as (me & l & _ & _ & _ & Ha & _).
  - apply demo_members_ok.
  - apply run_eta.
  - apply (role_of_ne "bob"). by vm_compute.
  - by exists me, l.
Defined.

Lemma role_push_is_authentic_witness :
  let run sig := Membership.applySignedRemoteGroupRolePush (demo_re "carol") "alice" "wire" sig HealStore.demo_env O demo_state in
  role_of "bob" (adb_members (rt_app (run demo_sig).2)) = Some (Roster.GroupMemberRoleAdmin, Roster.GroupMemberStatusActive) /\
  role_of "bob" (adb_members (rt_app (run []).2)) = Some (Roster.GroupMemberRoleMember, Roster.GroupMemberStatusActive) /\
  exists w, authentic (demo_re "carol") "alice" "wire" demo_sig demo_app w.
Proof.
  intros run. split_and!; [by vm_compute..|].
  destruct (role_push_is_authentic (demo_re "carol") "alice" "wire" demo_sig HealStore.demo_env O demo_state
    (run demo_sig).1.1 (run demo_sig).1.2 (run demo_sig).2) as (w & _ & _ & Ha & _).
  - apply demo_members_ok.
  - apply run_eta.
  - apply (role_of_ne "bob"). by vm_compute.
  - by exists w.
Defined.

(** Two nodes: the second has lost the row of the plain member. *)
Definition demo_app' : AppDB := set_adb_members (delete ("g", "bob") (adb_members demo_app)) demo_app.
Definition demo_writer (self : peerID) (d : AppDB) : SingleWriter.SingleWriter :=
  SingleWriter.SetAuthorizedCommitters "g" (Some (Runtime.authorizedCommittersProvider HealStore.demo_env (fun _ => d)))
    (SingleWriter.NewSingleWriter self 7).

Lemma demo_same_committers p : committer "g" demo_app p <-> committer "g" demo_app' p.
Proof.
  unfold committer. change (TrimSpace "g") with "g". split; intros (q & row & E & Hs & Hr & H); exists q, row; split; try done.
  - simpl. rewrite lookup_delete_ne; [done|]. intros [= <-]. vm_compute in E. injection E as <-. simpl in Hr.
    apply elem_of_cons in Hr as [Hr|Hr]; [discriminate Hr|]. apply list_elem_of_singleton in Hr. discriminate Hr.
  - simpl in E. by apply lookup_delete_Some in E as [_ E].
Qed.

Lemma demo_no_collision : SingleWriter.collision_free "g" 7 ["alice"; "bob"; "carol"].
Proof.
  intros p q Hp Hq. rewrite !elem_of_cons in Hp, Hq.
  destruct Hp as [->|[->|[->|[]%not_elem_of_nil]]]; destruct Hq as [->|[->|[->|[]%not_elem_of_nil]]];
    intros E; first [reflexivity | exfalso; vm_compute in E; discriminate E].
Qed.

Lemma rosters_elect_same_writer_witness :
  ~ (SingleWriter.IsTokenHolder Config.DefaultConfig 0 ["alice"; "bob"; "carol"] (demo_writer "alice" demo_app) = true /\
     SingleWriter.IsTokenHolder Config.DefaultConfig 3 ["carol"; "alice"; "bob"] (demo_writer "carol" demo_app') = true).
Proof.
  refine (proj2 (proj2 (rosters_elect_same_writer Config.DefaultConfig HealStore.demo_env HealStore.demo_env
    (fun _ => demo_app) (fun _ => demo_app') 0 3 ["alice"; "bob"; "carol"] ["carol"; "alice"; "bob"]
    (demo_writer "alice" demo_app) (demo_writer "carol" demo_app') eq_refl eq_refl demo_members_ok _ eq_refl eq_refl
    demo_same_committers _ eq_refl eq_refl _ _ _ _ eq_refl demo_no_collision)) _).
  - intros k r E. change (delete ("g", "bob") (adb_members demo_app) !! k = Some r) in E.
    apply lookup_delete_Some in E as [_ E]. exact (demo_members_ok k r E).
  - by vm_compute.
  - intros p. set_solver.
  - reflexivity.
  - by intros x y Hx%not_elem_of_nil.
  - by intros x Hx%not_elem_of_nil.
  - discriminate.
Defined.

Lemma roster_sync_never_inserts_witness :
  exists e, (Membership.upsertGroupMemberFromRosterSync (demo_re "alice") "g" "dave" "heartbeat" HealStore.demo_env O
    demo_state).1.1 = inr e.
Proof.
  destruct (roster_sync_never_inserts (demo_re "alice") "g" "dave" "heartbeat" HealStore.demo_env O demo_state)
    as (e & He & _); [by vm_compute|]. by exists e.
Defined.

(** The role change that [demo_re] accepts above is refused after the name of
    its author has been resolved. *)
Lemma name_refresh_disables_role_push_witness :
  let s := (Membership.resolveDisplayNameForPeer (demo_re "carol") "alice" HealStore.demo_env O demo_state).2 in
  exists e, (Membership.applySignedRemoteGroupRolePush (demo_re "carol") "alice" "wire" demo_sig HealStore.demo_env O s).1.1
    = inr e.
Proof.
  intros s. destruct (name_refresh_disables_role_push (demo_re "carol") "alice" "alice" "wire" demo_sig HealStore.demo_env 2
    HealStore.demo_env O demo_app 4 s) as (e & He & _); [by vm_compute..|]. by exists e.
Defined.
