(* ===== verification/CategorySpec.v ===== *)
(** * What the categories of channels promise

    The methods of the user interface never file a channel under a category
    that does not exist, and a snapshot brings a peer the categories of
    another. *)
From S2P Require Import Prelude GoStrings Sha256 Types SingleWriter Database.
From S2P Require Import Store HealStore AppDatabase Identity Roster.
From S2P Require Import InviteStore Replicated AddOperations InviteRequests Wire.
From S2P Require Import Runtime Categories CategoryService Membership.
From S2P Require Import SqlLogic MembershipSpec.

(** ** Channels are filed under categories that exist *)

Section Filed.
Context {PC : PeerCodec} (re : RtEnv) (peers : list peerID).
Notation general := CategoryService.defaultChannelCategoryID.

(** Every active channel that has a category has one that exists, and the
    default category exists if any does. *)
Record filed (d : AppDB) : Prop := {
  fi_known : forall g row, db_groups (adb_core d) !! g = Some row -> Categories.active_channel row = true ->
    sql_nonblank (Categories.category_of row) = true -> is_Some (adb_categories d !! Categories.category_of row);
  fi_general : adb_categories d <> ∅ -> is_Some (adb_categories d !! general);
}.

(** The methods of the user interface. *)
Inductive CategoryOp :=
  | CatList
  | CatCreate (rnd : option bytes) (name : string)
  | CatDelete (categoryID : string)
  | CatAssign (channelID categoryID : string).
Definition category_op (op : CategoryOp) : RT unit :=
  match op with
  | CatList => CategoryService.ListChannelCategories re ;;! sql_ret tt
  | CatCreate rnd name => CategoryService.CreateChannelCategory re peers rnd name ;;! sql_ret tt
  | CatDelete id => CategoryService.DeleteChannelCategory re peers id
  | CatAssign ch id => CategoryService.AssignChannelCategory re peers ch id
  end.
(** One after the other, whatever each reports. *)
Fixpoint category_ops (ops : list CategoryOp) : RT unit :=
  match ops with [] => sql_ret tt | op :: ops => sql_ignore (category_op op) ;;! category_ops ops end.

Definition keeps_general (op : CategoryOp) : Prop :=
  match op with CatDelete id => TrimSpace id <> general | _ => True end.

Lemma filed_put rec d :
  (adb_categories d = ∅ -> cc_CategoryID rec = general) -> filed d -> filed (Categories.put_category rec d).
Proof.
  intros Hf [K G]. split; simpl.
  - intros g row H1 H2 H3. rewrite lookup_insert_is_Some. destruct (decide (cc_CategoryID rec = Categories.category_of row)); eauto.
  - intros _. rewrite lookup_insert_is_Some. destruct (decide (cc_CategoryID rec = general)) as [|Hne]; [by left|right].
    split; [done|]. apply G. intros E. by apply Hne, Hf.
Qed.

Lemma filed_assign g c now d :
  is_Some (adb_categories d !! c) -> filed d -> filed (Roster.update_group g now (Categories.set_category c) id d).1.
Proof.
  intros Hc [K G]. unfold Roster.update_group. destruct (Roster.group_row g d) as [r|]; [|by split]. split; simpl; [|done].
  intros g' row [[<- <-]|[_ H]]%lookup_insert_Some H2 H3; [done|eauto].
Qed.

(** Assignments keep [filed] and the categories. *)
Lemma assign_ok g c d :
  is_Some (adb_categories d !! TrimSpace c) -> filed d ->
  swp (Categories.AssignCategoryToGroup g c) (fun _ d' => filed d' /\ adb_categories d' = adb_categories d) d.
Proof.
  intros Hc Hf. unfold Categories.AssignCategoryToGroup, Roster.current_timestamp. cbv zeta. swp_step; [by apply swp_throw|].
  assert (H : forall now, filed (Roster.update_group (TrimSpace g) now (Categories.set_category (TrimSpace c)) id d).1 /\
    adb_categories (Roster.update_group (TrimSpace g) now (Categories.set_category (TrimSpace c)) id d).1 = adb_categories d).
  { intros now. split; [by apply filed_assign|]. unfold Roster.update_group. by destruct (Roster.group_row _ d). }
  apply swp_bind, swp_readonly; [by intros env t d'|]. intros [now|e]; [|done]. repeat swp_step; apply H || done.
Qed.

Lemma attempts_ok n g c last d :
  is_Some (adb_categories d !! TrimSpace c) -> filed d ->
  swp (Categories.assign_attempts n g c last) (fun _ d' => filed d' /\ adb_categories d' = adb_categories d) d.
Proof.
  revert last d. induction n as [|n IH]; intros last d Hc Hf; simpl; [by apply swp_throw|].
  apply swp_bind, swp_try. eapply swp_mono; [|by apply assign_ok]. intros [[]|e] d' [H1 H2]; [by apply swp_ret|].
  swp_step; [|by apply swp_throw]. rewrite <- H2 in *. by apply IH.
Qed.

Lemma when_ready_ok g c d :
  is_Some (adb_categories d !! TrimSpace c) -> filed d ->
  swp (Categories.AssignCategoryToGroupWhenReady g c) (fun _ d' => filed d' /\ adb_categories d' = adb_categories d) d.
Proof.
  intros Hc Hf. unfold Categories.AssignCategoryToGroupWhenReady. cbv zeta. do 2 (swp_step; [by apply swp_throw|]).
  apply attempts_ok; [by rewrite TrimSpace_idemp|done].
Qed.

Lemma upsert_swp rec (Q : result unit -> AppDB -> Prop) d :
  (forall rec', cc_CategoryID rec' = TrimSpace (cc_CategoryID rec) -> cc_Name rec' = TrimSpace (cc_Name rec) ->
     cc_SortOrder rec' = cc_SortOrder rec -> Q (inl tt) (Categories.put_category rec' d)) ->
  (forall e, Q (inr e) d) -> swp (Categories.UpsertChannelCategory rec) Q d.
Proof.
  intros Hi He. unfold Categories.UpsertChannelCategory. cbv zeta. do 2 (swp_step; [apply swp_throw, He|]).
  apply swp_bind, swp_unix_now. intros now. apply swp_wrap, swp_exec; [|intros e; apply He]. by apply Hi.
Qed.

(** Effects and the session check leave the tables alone. *)
Notation keeping m s := (swp m (fun _ s' => filed (rt_app s')) s).
Definition quiet {A} (m : RT A) : Prop := forall s, swp m (fun _ s' => rt_app s' = rt_app s) s.
Lemma quiet_bind {A B} (m : RT A) (k : A -> RT B) Q s :
  quiet m -> (forall e s', rt_app s' = rt_app s -> Q (inr e) s') ->
  (forall a s', rt_app s' = rt_app s -> swp (k a) Q s') -> swp (sql_bind m k) Q s.
Proof. intros Hm He Hk. apply swp_bind. eapply swp_mono; [|apply Hm]. intros [a|e] s' E; auto. Qed.

Lemma session_quiet : quiet (Runtime.ensureSessionActive re).
Proof.
  intros s. unfold Runtime.ensureSessionActive, Runtime.GetSessionStatus, Runtime.readInt64Config, Identity.GetConfig.
  repeat swp_step; done.
Qed.
Lemma changed_quiet fields : quiet (CategoryService.categories_changed fields).
Proof. intros s. by apply swp_effect. Qed.
Lemma event_quiet a b : quiet (CategoryService.newCategoryEventID a b).
Proof. intros s. apply swp_bind, swp_time. intros t. by apply swp_ret. Qed.
Lemma broadcast_quiet f : quiet (CategoryService.broadcastChannelCategoryFrame re peers f).
Proof.
  intros s. unfold CategoryService.broadcastChannelCategoryFrame. destruct (re_node re); [|by apply swp_ret].
  revert s. induction peers as [|p ps IH]; intros s; simpl; [by apply swp_ret|]. apply swp_bind, swp_effect.
  eapply swp_mono; [|apply IH]. by intros.
Qed.

(** A change and the announcement of it. *)
Lemma announce_ok {A} fields a b mk (k : RT A) s :
  (forall s', rt_app s' = rt_app s -> keeping k s') -> filed (rt_app s) ->
  keeping (CategoryService.categories_changed fields ;;! ev <-! CategoryService.newCategoryEventID a b ;
           CategoryService.broadcastChannelCategoryFrame re peers (mk ev) ;;! k) s.
Proof.
  intros Hk Hf. apply quiet_bind; [apply changed_quiet|by intros e s' ->|]. intros [] s1 E1.
  apply quiet_bind; [apply event_quiet|intros e s' ->; by rewrite E1|]. intros ev s2 E2.
  apply quiet_bind; [apply broadcast_quiet|intros e s' ->; by rewrite E2, E1|]. intros [] s3 E3. apply Hk. congruence.
Qed.

Lemma announced_ok fields a b mk s : filed (rt_app s) ->
  keeping (CategoryService.categories_changed fields ;;! ev <-! CategoryService.newCategoryEventID a b ;
           CategoryService.broadcastChannelCategoryFrame re peers (mk ev)) s.
Proof.
  intros Hf. apply quiet_bind; [apply changed_quiet|by intros e s' ->|]. intros [] s1 E1.
  apply quiet_bind; [apply event_quiet|intros e s' ->; by rewrite E1|]. intros ev s2 E2.
  eapply swp_mono; [|apply broadcast_quiet]. intros r s3 E3. simpl in E3. by rewrite E3, E2, E1.
Qed.

Lemma default_ok gs s :
  is_Some (adb_categories (rt_app s) !! general) -> filed (rt_app s) ->
  swp (CategoryService.assign_default gs) (fun _ s' => filed (rt_app s') /\ adb_categories (rt_app s') = adb_categories (rt_app s)) s.
Proof.
  revert s. induction gs as [|g gs IH]; intros s Hc Hf; simpl; [by apply swp_ret|].
  apply swp_bind, swp_ignore, swp_app. eapply swp_mono; [|by apply (when_ready_ok g general)]. intros _ d [H1 H2].
  eapply swp_mono; [|apply IH; simpl; rewrite ?H2; done]. simpl. intros r s' [H3 H4]. by rewrite H4, H2.
Qed.

(** The baseline creates the default category when there is none. *)
Lemma baseline_ok s :
  filed (rt_app s) ->
  swp (CategoryService.ensureChannelCategoryBaselineLocked re) (fun r s' => filed (rt_app s') /\
    (r = inl tt -> adb_categories (rt_app s') <> ∅)) s.
Proof.
  intros Hf. unfold CategoryService.ensureChannelCategoryBaselineLocked, Categories.ListChannelCategories, Categories.ListActiveChannelsWithoutCategory.
  assert (Hlast : forall s1, filed (rt_app s1) -> is_Some (adb_categories (rt_app s1) !! general) ->
    swp (legacy <-! Runtime.app (sql_wrap "ListActiveChannelsWithoutCategory" (sql_query (fun d => fst <$> Categories.channels (fun row => sql_trim_empty (Categories.category_of row)) d))) ;
         CategoryService.assign_default legacy)
      (fun r s' => filed (rt_app s') /\ (r = inl tt -> adb_categories (rt_app s') <> ∅)) s1).
  { intros s1 H1 H2. apply swp_bind, swp_app, swp_wrap, swp_query; [|done].
    eapply swp_mono; [|by apply default_ok]. intros r s2 [H3 H4]. simpl in H4. split; [done|]. intros _ E. rewrite <- H4, E in H2. by destruct H2. }
  apply swp_bind, swp_app, swp_wrap, swp_query; [|done]. simpl. apply swp_bind.
  destruct (is_empty _) eqn:Ee.
  - assert (Hnone : adb_categories (rt_app s) = ∅).
    { apply is_empty_true in Ee. assert (Hp := stable_sort_perm Categories.category_less (snd <$> map_to_list (adb_categories (rt_app s)))).
      rewrite Ee in Hp. apply Permutation_nil_l, eq_sym, fmap_nil_inv in Hp. by apply map_to_list_empty_iff. }
    apply swp_bind, swp_unix_now. intros now. apply swp_app, upsert_swp; [|done]. intros rec Hid _ _.
    apply Hlast; simpl; [by apply filed_put|]. apply lookup_insert_is_Some. by left.
  - apply swp_ret. destruct s as [d c tr]. apply Hlast; [done|]. apply (fi_general d Hf). simpl in *. intros E. rewrite E in Ee.
    unfold is_empty in Ee. by rewrite map_to_list_empty in Ee.
Qed.

Lemma list_ok s : filed (rt_app s) -> keeping (CategoryService.ListChannelCategories re) s.
Proof.
  intros Hf. unfold CategoryService.ListChannelCategories, Runtime.with_db. destruct (re_db re); [|by apply swp_throw].
  apply swp_bind. eapply swp_mono; [|by apply baseline_ok]. intros [[]|e] s1 [H1 _]; [|done].
  unfold Categories.ListChannelCategories. repeat swp_step; done.
Qed.

Lemma create_category_ok rnd name s : filed (rt_app s) -> keeping (CategoryService.CreateChannelCategory re peers rnd name) s.
Proof.
  intros Hf. unfold CategoryService.CreateChannelCategory. cbv zeta. swp_step; [by apply swp_throw|].
  apply quiet_bind; [apply session_quiet|by intros e s' ->|]. intros [] s1 E1. rewrite <- E1 in Hf.
  unfold Runtime.with_db. destruct (re_db re); [|by apply swp_throw].
  apply swp_bind. eapply swp_mono; [|by apply baseline_ok]. intros [[]|e] s2 [H2 Hne]; [|done].
  destruct (CategoryService.newCategoryID rnd) as [id|e]; [|by apply swp_throw]. apply swp_bind, swp_unix_now. intros now.
  apply swp_bind, swp_app, upsert_swp; [|done]. intros rec _ _ _.
  apply announce_ok; simpl; [intros s3 E3; apply swp_ret; rewrite E3|].
  all: apply filed_put; [intros Hn; by destruct (Hne eq_refl)|done].
Qed.

Lemma delete_ok id s : TrimSpace id <> general -> filed (rt_app s) -> keeping (CategoryService.DeleteChannelCategory re peers id) s.
Proof.
  intros Hne Hf. unfold CategoryService.DeleteChannelCategory. cbv zeta. swp_step; [by apply swp_throw|].
  apply quiet_bind; [apply session_quiet|by intros e s' ->|]. intros [] s1 E1. rewrite <- E1 in Hf. clear s E1.
  unfold Runtime.with_db. destruct (re_db re); [|by apply swp_throw].
  unfold Categories.CountActiveChannelsInCategory, Categories.DeleteChannelCategory. rewrite !TrimSpace_idemp, E.
  apply swp_bind, swp_app, swp_wrap, swp_query; [|done]. simpl. swp_step; [by apply swp_throw|].
  apply swp_bind, swp_app, swp_wrap, swp_exec; [|done]. simpl.
  set (c := TrimSpace id) in *. assert (Hd : filed (set_adb_categories (delete c (adb_categories (rt_app s1))) (rt_app s1))).
  { destruct Hf as [K G]. split; simpl.
    - intros g row H1 H2 H3. rewrite lookup_delete_is_Some. split; [|by eapply K]. intros Hc.
      assert (Hin : (g, row) ∈ Categories.channels (fun row => str_eqb (Categories.category_of row) c) (rt_app s1)).
      { apply list_elem_of_In, filter_In. split; [apply list_elem_of_In, elem_of_map_to_list; done|]. simpl.
        rewrite H2, <- Hc, str_eqb_refl. done. }
      destruct (Categories.channels _ _); [by apply not_elem_of_nil in Hin|]. clear -E0. rewrite Z.gtb_ltb, Z.ltb_ge in E0. simpl in E0. lia.
    - intros Hn. rewrite lookup_delete_is_Some. split; [done|]. apply G. intros E'. by rewrite E', delete_empty in Hn. }
  by apply announced_ok.
Qed.

Lemma assign_channel_ok ch id s : filed (rt_app s) -> keeping (CategoryService.AssignChannelCategory re peers ch id) s.
Proof.
  intros Hf. unfold CategoryService.AssignChannelCategory. cbv zeta. do 2 (swp_step; [by apply swp_throw|]).
  apply quiet_bind; [apply session_quiet|by intros e s' ->|]. intros [] s1 E1. rewrite <- E1 in Hf. clear s E1.
  unfold Runtime.with_db. destruct (re_db re); [|by apply swp_throw].
  unfold Categories.GetChannelCategory. rewrite TrimSpace_idemp, E0. apply swp_bind, swp_wrap, swp_app, swp_row; [|done..].
  intros rec Hrec. apply swp_bind, swp_app. eapply swp_mono; [|apply (when_ready_ok (TrimSpace ch) (TrimSpace id))].
  - intros [[]|e] d [H1 _]; [|done]. by apply announced_ok.
  - rewrite TrimSpace_idemp. eauto.
  - done.
Qed.

(** The methods of the user interface, in any order and whatever statements
    fail, never leave an active channel in a category that does not exist, as
    long as the default category is not deleted: a category is only deleted
    when no active channel is filed under it, a channel is only assigned to a
    category that is there, and channels without one go to the default
    category, which is created first. *)
Theorem channels_stay_filed ops env t s r t' s' :
  Forall keeps_general ops -> filed (rt_app s) -> category_ops ops env t s = (r, t', s') -> filed (rt_app s').
Proof.
  intros Hops Hf E. refine (swp_run _ (fun _ s' => filed (rt_app s')) _ _ _ _ _ _ _ E). clear r t' s' E. revert s Hf.
  induction Hops as [|op ops Hop _ IH]; intros s Hf; simpl; [by apply swp_ret|].
  apply swp_bind, swp_ignore. eapply swp_mono; [|instantiate (1 := fun _ s' => filed (rt_app s'))].
  - intros r1 s1 H1. by apply IH.
  - destruct op as [|rnd name|id|ch id]; simpl in *.
    + apply swp_bind. eapply swp_mono; [|by apply list_ok]. intros [rows|e] s1 H1; [by apply swp_ret|done].
    + apply swp_bind. eapply swp_mono; [|by apply create_category_ok]. intros [rec|e] s1 H1; [by apply swp_ret|done].
    + by apply delete_ok.
    + by apply assign_channel_ok.
Qed.
End Filed.

(** ** At concrete inputs *)

#[local] Existing Instance plain_codec.

Definition channel_row (category : string) : GroupRow :=
  mkGroupRow (mkGroupRecord "c" [] 1 [] RoleMember "channel" category "" 0 0) "active" 0.
(** One channel, filed under [category], and the given categories. *)
Definition one_channel (category : string) (cats : gmap string ChannelCategoryRecord) : RtState :=
  mkRtState (set_adb_categories cats (set_adb_core (set_db_groups {["c" := channel_row category]} db_empty) adb_empty)) ∅ [].
Definition category_of_channel (s : RtState) : option string :=
  Categories.category_of <$> db_groups (adb_core (rt_app s)) !! "c".
Definition known_categories (s : RtState) : list string := (map_to_list (adb_categories (rt_app s))).*1.

Local Notation user_ops := [CatList; CatCreate (Some [x01; x02; x03; x04; x05; x06]) "News";
  CatAssign "c" "cat-010203040506"; CatDelete "cat-010203040506"].

(** A channel without a category is filed, moved to a new category, and that
    category is not deleted. *)
Lemma channels_stay_filed_witness :
  let s' := (category_ops (demo_re "B") ["A"] user_ops HealStore.demo_env O (one_channel "" ∅)).2 in
  category_of_channel s' = Some "cat-010203040506" /\ is_Some (adb_categories (rt_app s') !! "cat-010203040506") /\ filed (rt_app s').
Proof.
  cbv zeta. split; [vm_compute; reflexivity|]. split; [vm_compute; eexists; reflexivity|].
  refine (channels_stay_filed (demo_re "B") ["A"] user_ops HealStore.demo_env O (one_channel "" ∅)
    (category_ops (demo_re "B") ["A"] user_ops HealStore.demo_env O (one_channel "" ∅)).1.1
    (category_ops (demo_re "B") ["A"] user_ops HealStore.demo_env O (one_channel "" ∅)).1.2 _ _ _ _).
  - repeat constructor. discriminate.
  - split; simpl; [|intros H; by destruct H]. intros g row [<- <-]%lookup_singleton_Some _. discriminate.
  - by destruct (category_ops _ _ _ _ _ _) as [[? ?] ?].
Defined.

(** Once the default category is deleted, the baseline files a channel that
    has no category under it all the same. *)
Example baseline_files_under_deleted_category :
  let s := one_channel "" {["cat-news" := mkChannelCategory "cat-news" "News" 1 "" 5 5]} in
  let s' := (category_ops (demo_re "B") ["A"] [CatList] HealStore.demo_env O s).2 in
  category_of_channel s' = Some "cat-general" /\ adb_categories (rt_app s') !! "cat-general" = None.
Proof. split; vm_compute; reflexivity. Qed.

(** Frames of peers are not held to the rules of the methods above: a peer
    deletes the category a channel is filed under; and a snapshot with older
    entries overwrites newer ones and brings back what was deleted. *)
Example peers_bypass_category_rules :
  let used := one_channel "cat-news" {["cat-news" := mkChannelCategory "cat-news" "News" 1 "" 50 50]} in
  let receive f s := (CategoryService.handleChannelCategorySyncStream (demo_re "B") true (inl f) HealStore.demo_env O s).2 in
  let deleted := receive (mkCategoryFrame 1 "delete_category" "e1" None "cat-news" "" [] []) used in
  let old := mkCategoryFrame 1 "snapshot" "" None "" "" [mkCategoryWire "cat-news" "Old name" 1 2 ""; mkCategoryWire "cat-gone" "Gone" 1 2 ""] [] in
  (category_of_channel deleted = Some "cat-news" /\ known_categories deleted = []) /\
  (cc_Name <$> adb_categories (rt_app (receive old used)) !! "cat-news") = Some "Old name" /\
  is_Some (adb_categories (rt_app (receive old used)) !! "cat-gone").
Proof. split; [split|split]; vm_compute; first [reflexivity | eexists; reflexivity]. Qed.

(** ** Notifications *)

Section Notify.
Context {PC : PeerCodec} {PJ : PayloadJSON} (re : RtEnv).

(** What is added to the notifications. *)
Definition only_adds (ty : string) (s s' : RtState) : Prop :=
  forall n, n ∈ adb_notifications (rt_app s') -> n ∈ adb_notifications (rt_app s) \/ nt_Type n = ty.

Lemma insert_adds ty g a t c s : swp (Notifications.insertNotification re ty g a t c) (fun _ s' => only_adds ty s s') s.
Proof.
  assert (H0 : forall d, adb_notifications d = adb_notifications (rt_app s) -> forall c tr, only_adds ty s (mkRtState d c tr))
    by (intros d E c' tr n; simpl; rewrite E; by left).
  unfold Notifications.insertNotification. swp_step; [by apply swp_ret; intros n; left|]. cbv zeta.
  apply swp_bind, swp_time. intros now. apply swp_bind, swp_try, swp_app. unfold NotificationStore.InsertNotification.
  swp_step; [by apply swp_throw, swp_ret, H0|]. apply swp_bind, swp_time. intros now'. unfold HealStore.sql_exec_unique.
  apply swp_bind, swp_query; [|by intros e; apply swp_ret, H0]. swp_step; [by apply swp_throw, swp_ret, H0|].
  apply swp_exec; [|by intros e; apply swp_ret, H0]. unfold Roster.GetPeerDisplayName. simpl.
  assert (Hn : forall d c tr x, adb_notifications d = adb_notifications (rt_app s) ++ [x] -> nt_Type x = ty -> only_adds ty s (mkRtState d c tr)).
  { intros d c' tr x Ed Hx n. simpl. rewrite Ed. intros [?|Hs%list_elem_of_singleton]%elem_of_app; [by left|right; by subst]. }
  repeat swp_step; by eapply Hn.
Qed.

(** A message never notifies of a reply: the sender of the message replied to
    is looked up with a column that the table does not have, so the answer is
    always an error; only mentions are notified. *)
Theorem replies_never_notify msg env t s r t' s' :
  Notifications.processNotificationsForMessage re msg env t s = (r, t', s') ->
  only_adds Notifications.NotificationTypeMention s s'.
Proof.
  intros E. refine (swp_run _ (fun _ s' => only_adds _ s s') _ _ _ _ _ _ _ E). clear r t' s' E.
  assert (H0 : forall c tr, only_adds Notifications.NotificationTypeMention s (mkRtState (rt_app s) c tr)) by (intros c tr n; by left).
  assert (H1 : only_adds Notifications.NotificationTypeMention s s) by (intros n; by left).
  unfold Notifications.processNotificationsForMessage. destruct (re_node re) as [local|]; [|by apply swp_ret].
  swp_step; [by apply swp_ret|]. cbv zeta. destruct (parse_payload _) as [p|].
  - apply swp_bind. swp_step; [apply swp_ret|].
    + swp_step; [apply insert_adds|by apply swp_ret].
    + unfold NotificationStore.GetMessageSender. apply swp_bind, swp_try, swp_app.
      destruct s as [d c tr]. apply swp_bind, swp_query; [apply swp_throw|intros e]; apply swp_ret; (swp_step; [apply insert_adds|by apply swp_ret]).
  - swp_step; [by apply swp_ret|]. unfold Runtime.GetMLSIdentity, Identity.GetMLSIdentity. destruct s as [d c tr].
    apply swp_bind, swp_try, swp_app, swp_row; [intros i Hi|intros Hn|intros e]; try (by apply swp_ret).
    swp_step; [apply insert_adds|by apply swp_ret].
Qed.
End Notify.
