(* ===== verification/SessionSpec.v ===== *)
(** * Takeover of a session

    A device that has moved on: what happens when the old device of an identity
    meets a node that knows the session of the new one. *)
From S2P Require Import Prelude GoStrings Sha256 Types Config SingleWriter.
From S2P Require Import Database Store HealStore AppDatabase Identity.
From S2P Require Import Roster Replicated Runtime Auth Membership SqlLogic AuthSpec MembershipSpec.

(** ** The lock *)

Section Lock.
Context {PC : PeerCodec} (re : RtEnv).

(** The configuration says that the session has been replaced. *)
Definition locked (d : AppDB) : Prop :=
  exists b, adb_config d !! Runtime.sessionReplacedAtConfigKey = Some b /\ length b = 8%nat.

Lemma locked_stays env n s r n' s' : re_db re = true -> locked (rt_app s) ->
  Runtime.ensureSessionActive re env n s = (r, n', s') -> r <> inl tt.
Proof.
  intros Hdb (b & Eb & Hb) E.
  apply (swp_run _ (fun r _ => r <> inl tt) _ _ _ _ _ _) in E; [done|]. apply swp_session; [done|].
  intros Hopen. by destruct (Hopen Hdb b Eb).
Qed.

Lemma read_run key env n s : (forall k, sql_fails env k = None) ->
  exists v, sql_try (Runtime.app (Runtime.readInt64Config key)) env n s = (inl (inl v), S n, s) /\
    (v.2 = true -> exists b, adb_config (rt_app s) !! key = Some b /\ length b = 8%nat).
Proof.
  intros Hf. destruct s as [d coords tr].
  unfold Runtime.readInt64Config, Identity.GetConfig, Runtime.app, sql_row, sql_try, sql_bind, sql_query, sql_throw, sql_ret.
  cbn [rt_app rt_coords rt_trace]. rewrite Hf. destruct (adb_config d !! key) as [b|]; [|by exists (0, false)].
  destruct (Nat.eqb_spec (length b) 8); eexists; (split; [reflexivity|]); [eauto|done].
Qed.

Lemma stop_app reason started at_ env n s : rt_app (Runtime.stop_session reason started at_ env n s).2 = rt_app s.
Proof. reflexivity. Qed.

Lemma mark_locks reason started env n s :
  re_db re = true -> (forall k, sql_fails env k = None) ->
  locked (rt_app (Runtime.markSessionReplaced re reason started env n s).2).
Proof.
  intros Hdb Hf. unfold Runtime.markSessionReplaced. rewrite Hdb. cbn [negb].
  unfold unix_milli_now, sql_bind at 1 2, sql_time, sql_ret at 1. set (now := _ / Millisecond).
  unfold sql_bind at 1. destruct (read_run Runtime.sessionReplacedAtConfigKey env (S n) s Hf) as ([v p] & -> & Hv).
  assert (Hsave : locked (rt_app ((saved <-! sql_try (Runtime.app (Identity.SetConfig Runtime.sessionReplacedAtConfigKey
      (Runtime.encodeInt64Config now))) ;
    match saved with inl _ => Runtime.stop_session reason started now | inr _ => sql_ret tt end) env (S (S n)) s).2)).
  { unfold sql_bind at 1, sql_try, Runtime.app, Identity.SetConfig, sql_wrap, sql_exec. rewrite Hf. rewrite stop_app.
    eexists. split; [apply lookup_insert_eq|reflexivity]. }
  destruct p; [|exact Hsave]. destruct (v >? 0); [|exact Hsave]. rewrite stop_app. by apply Hv.
Qed.
End Lock.

(** ** The exchange *)

Section Exchange.
Context {PC : PeerCodec} {ED : Ed25519} {TJ : TokenJSON} {HJ : HandshakeJSON} {HL : HandshakeJSONLaws}.
Import Auth.

(** A handshake that fits on the wire. *)
Definition sendable (hs : AuthHandshakeMsg) : Prop :=
  valid_handshake hs /\ Z.of_nat (length (handshake_Marshal hs)) <= maxTokenBytes.

Lemma written_run pid hs a : sendable hs ->
  exists data, writeHandshake (Some hs) = inl data /\ readHandshake data = inl hs /\
    written pid (Some hs) true a = (true, effects [Written pid hs] a).
Proof.
  intros [Hv Hl]. destruct (writeHandshake (Some hs)) as [data|e] eqn:Ew.
  - exists data. split; [done|]. split; [|unfold written; by rewrite Ew].
    pose proof (read_written hs data [] Ew Hv Hl) as Hr. by rewrite app_nil_r in Hr.
  - destruct Hv as [(t & Et & _) _]. unfold writeHandshake in Ew. by rewrite Et in Ew.
Qed.

(** The node that knows the newer session answers with its claim. *)
Lemma stale_answered now pid ha tA st resp c data :
  readHandshake data = inl ha -> verifyPeerToken now (hs_Token ha) pid c = Passed tA ->
  check_claim (hs_Session ha) tA = Passed tt -> au_verified c !! pid = Some st ->
  sc_StartedAt (hs_Session ha) < vp_SessionStarted st ->
  staleSessionResponse (vp_Session st) c = Some resp -> sendable resp ->
  handleIncoming now pid (Some data) true c = effects [Written pid resp] c.
Proof.
  intros Hr Hv Hc Est Hlt Hresp Hs. unfold handleIncoming, in_read. rewrite Hr, Hv. unfold claim_then. rewrite Hc.
  cbn [advance]. unfold acceptSession. rewrite Est.
  destruct (Z.ltb_spec (sc_StartedAt (hs_Session ha)) (vp_SessionStarted st)); [|lia]. rewrite Hresp.
  destruct (written_run pid resp c Hs) as (data' & _ & _ & Hw). rewrite bool_decide_true by eauto. by rewrite Hw.
Qed.

(** The old device recognises the claim as one of its own identity. *)
Lemma answer_recognised now pidC answer tC ha tA claim resp a :
  au_localToken a = Some tA -> au_localHandshake a = Some ha -> sendable ha ->
  IsVerified pidC a = false -> pidC ∉ au_handshaking a ->
  readHandshake answer = inl resp -> verifyPeerToken now (hs_Token resp) pidC a = Passed tC ->
  hs_Error resp = "session_replaced" -> hs_SupersedingSession resp = claim ->
  sc_StartedAt (hs_Session ha) < sc_StartedAt claim -> VerifySessionClaim claim (tk_PeerID tA) (tk_PublicKey tA) = inl tt ->
  au_trace (InitiateHandshake now pidC true (Some answer) a) = au_trace a ++ [Written pidC ha; SessionReplacedBy claim].
Proof.
  intros Ht Hh Hsend Hnv Hnh Hr Hv He Hcl Hlt Hver. unfold InitiateHandshake, out_begin. rewrite Hnv.
  rewrite bool_decide_false by done. cbn [advance]. cbn [au_localHandshake set_handshaking]. rewrite Hh, bool_decide_true by eauto.
  destruct (written_run pidC ha (set_handshaking ({[pidC]} ∪ au_handshaking a) a) Hsend) as (data & _ & _ & Hw). rewrite Hw.
  cbn [fst snd advance]. unfold out_read. rewrite Hr.
  assert (Hv' : forall a', au_root a' = au_root a -> verifyPeerToken now (hs_Token resp) pidC a' = Passed tC).
  { intros a' Hroot. unfold verifyPeerToken in *. by rewrite Hroot. }
  rewrite Hv' by done. rewrite He. cbn [str_eqb]. rewrite str_eqb_refl, Hcl.
  assert (Hsup : forall a', au_localToken a' = Some tA -> au_localHandshake a' = Some ha -> verifySupersedingLocalSession claim a' = true).
  { intros a' E1 E2. unfold verifySupersedingLocalSession. rewrite E1, E2.
    destruct (Z.leb_spec (sc_StartedAt claim) (sc_StartedAt (hs_Session ha))); [lia|]. by rewrite Hver. }
  rewrite Hsup by done. simpl. by rewrite <-app_assoc.
Qed.
End Exchange.

(** C9: The old device of an identity is locked out.  If a node has verified a
    session of a peer that is later than the one an old device claims for the
    same peer id and key, then when the old device introduces itself the node
    keeps the later session and answers with its claim; the old device takes
    that answer for a proof that its session was replaced, and once it has
    recorded that, no operation that needs an active session passes any more,
    for as long as the record stays, whatever else changes or fails. *)
Theorem old_device_is_locked_out {PC : PeerCodec} {ED : Ed25519} {TJ : TokenJSON} {HJ : HandshakeJSON}
  {HL : HandshakeJSONLaws} now nowC now' pid pidC st ha hc tA tC a c resp :
  (* what the node [c] knows of the peer, and that it accepts the old device's token *)
  Auth.au_verified c !! pid = Some st -> entry_ok (Auth.au_root c) nowC pid st ->
  Auth.verifyPeerToken now (hs_Token ha) pid c = Auth.Passed tA -> Auth.check_claim (hs_Session ha) tA = Auth.Passed tt ->
  tk_PublicKey (vp_Token st) = tk_PublicKey tA ->
  0 < vp_SessionStarted st -> sc_StartedAt (hs_Session ha) < vp_SessionStarted st ->
  (* the two handshakes, and that the old device accepts the node's token *)
  Auth.au_localToken a = Some tA -> Auth.au_localHandshake a = Some ha -> sendable ha ->
  Auth.au_localHandshake c = Some hc -> Auth.staleSessionResponse (vp_Session st) c = Some resp -> sendable resp ->
  Auth.IsVerified pidC a = false -> pidC ∉ Auth.au_handshaking a ->
  Auth.verifyPeerToken now' (hs_Token hc) pidC a = Auth.Passed tC ->
  exists hello answer,
    Auth.writeHandshake (Some ha) = inl hello /\
    Auth.handleIncoming now pid (Some hello) true c = Auth.effects [Auth.Written pid resp] c /\
    Auth.writeHandshake (Some resp) = inl answer /\
    Auth.au_trace (Auth.InitiateHandshake now' pidC true (Some answer) a) =
      Auth.au_trace a ++ [Auth.Written pidC ha; Auth.SessionReplacedBy (vp_Session st)] /\
    forall re env n s, re_db re = true -> (forall k, sql_fails env k = None) ->
      let s1 := (Runtime.markSessionReplaced re "newer_session_claim" (sc_StartedAt (vp_Session st)) env n s).2 in
      forall s2 env' n' r n2 s3,
        adb_config (rt_app s2) !! Runtime.sessionReplacedAtConfigKey =
          adb_config (rt_app s1) !! Runtime.sessionReplacedAtConfigKey ->
        Runtime.ensureSessionActive re env' n' s2 = (r, n2, s3) -> r <> inl tt.
Proof.
  intros Est [[Hsig Hpeer Hfresh Hclaim] Hst] Hv Hc Hkey Hpos Hlt Hta Hha Hsa Hhc Hresp Hsr Hnv Hnh Hv'.
  destruct (written_run pidC ha a Hsa) as (hello & Hw & Hr & _).
  destruct (written_run pid resp c Hsr) as (answer & Hwr & Hrr & _).
  assert (Hrt : hs_Token resp = hs_Token hc /\ hs_Error resp = "session_replaced" /\ hs_SupersedingSession resp = vp_Session st).
  { unfold Auth.staleSessionResponse in Hresp. rewrite Hhc in Hresp. simpl in Hresp. by injection Hresp as <-. }
  destruct Hrt as (Ht & He & Hsup).
  assert (HpA : tk_PeerID tA = tk_PeerID (vp_Token st)).
  { apply verify_proven in Hv as (_ & _ & Hp & _). by rewrite Hp, Hpeer. }
  exists hello, answer. split_and!; try done.
  - by eapply stale_answered.
  - eapply answer_recognised; try done; [by rewrite Ht|lia|]. rewrite HpA, <-Hkey. apply Hclaim. lia.
  - intros re env n s Hdb Hf s1 s2 env' n' r n2 s3 Hsame. apply locked_stays; [done|].
    destruct (mark_locks re "newer_session_claim" (sc_StartedAt (vp_Session st)) env n s Hdb Hf) as (b & Eb & Hb).
    exists b. rewrite Hsame. by split.
Qed.
