(* ===== verification/AuthDemo.v ===== *)
(** * Instances of identity and authentication

    A codec that satisfies the laws asked of JSON, toy ciphers, and the
    properties of identity, handshakes and sessions at concrete inputs. *)
From S2P Require Import Prelude GoStrings Sha256 Types Config SingleWriter.
From S2P Require Import Database Store HealStore AppDatabase Identity.
From S2P Require Import Roster Replicated Runtime Auth Membership SqlLogic AuthSpec MembershipSpec SessionSpec.

(** ** A codec *)

Module Codec.

Definition Dec (A : Type) := bytes -> option (A * bytes).

Fixpoint enc_pos (p : positive) : bytes :=
  match p with xH => [x02] | xO p => x00 :: enc_pos p | xI p => x01 :: enc_pos p end.
Fixpoint dec_pos (b : bytes) : option (positive * bytes) :=
  match b with
  | x02 :: b => Some (xH, b)
  | x00 :: b => match dec_pos b with Some (p, b) => Some (xO p, b) | None => None end
  | x01 :: b => match dec_pos b with Some (p, b) => Some (xI p, b) | None => None end
  | _ => None
  end.
Definition enc_Z (z : Z) : bytes := match z with Z0 => [x00] | Zpos p => x01 :: enc_pos p | Zneg p => x02 :: enc_pos p end.
Definition dec_Z : Dec Z := fun b =>
  match b with
  | x00 :: b => Some (0, b)
  | x01 :: b => match dec_pos b with Some (p, b) => Some (Zpos p, b) | None => None end
  | x02 :: b => match dec_pos b with Some (p, b) => Some (Zneg p, b) | None => None end
  | _ => None
  end.
Definition enc_bytes (s : bytes) : bytes := enc_Z (Z.of_nat (length s)) ++ s.
Definition dec_bytes : Dec bytes := fun b =>
  '(n, b) ← dec_Z b; Some (take (Z.to_nat n) b, drop (Z.to_nat n) b).
Definition enc_string (s : string) : bytes := enc_bytes (str_bytes s).
Definition dec_string : Dec string := fun b => '(s, b) ← dec_bytes b; Some (bytes_str s, b).

Lemma pos_rt p b : dec_pos (enc_pos p ++ b) = Some (p, b).
Proof. induction p as [p IH|p IH|]; simpl; by rewrite ?IH. Qed.
Lemma Z_rt z b : dec_Z (enc_Z z ++ b) = Some (z, b).
Proof. destruct z; simpl; by rewrite ?pos_rt. Qed.
Lemma bytes_rt s b : dec_bytes (enc_bytes s ++ b) = Some (s, b).
Proof.
  unfold dec_bytes, enc_bytes. rewrite <-app_assoc, Z_rt. simpl. rewrite Nat2Z.id.
  by rewrite take_app_length, drop_app_length.
Qed.
Lemma text_rt s b : dec_string (enc_string s ++ b) = Some (s, b).
Proof. unfold dec_string, enc_string. rewrite bytes_rt. simpl. by rewrite bytes_str_bytes. Qed.

Definition enc_token (t : InvitationToken) : bytes :=
  enc_Z (tk_Version t) ++ enc_string (tk_DisplayName t) ++ enc_string (tk_PeerID t) ++ enc_bytes (tk_PublicKey t) ++
  enc_Z (tk_IssuedAt t) ++ enc_Z (tk_ExpiresAt t) ++ enc_bytes (tk_Signature t).
Definition dec_token : Dec InvitationToken := fun b =>
  '(v, b) ← dec_Z b; '(n, b) ← dec_string b; '(p, b) ← dec_string b; '(k, b) ← dec_bytes b;
  '(i, b) ← dec_Z b; '(e, b) ← dec_Z b; '(s, b) ← dec_bytes b; Some (mkToken v n p k i e s, b).
Definition enc_option {A} (enc : A -> bytes) (o : option A) : bytes := match o with None => [x00] | Some a => x01 :: enc a end.
Definition dec_option {A} (dec : Dec A) : Dec (option A) := fun b =>
  match b with
  | x00 :: b => Some (None, b)
  | x01 :: b => match dec b with Some (a, b) => Some (Some a, b) | None => None end
  | _ => None
  end.
Definition enc_claim (c : SessionClaim) : bytes :=
  enc_Z (sc_StartedAt c) ++ enc_bytes (sc_Nonce c) ++ enc_bytes (sc_Signature c).
Definition dec_claim : Dec SessionClaim := fun b =>
  '(s, b) ← dec_Z b; '(n, b) ← dec_bytes b; '(g, b) ← dec_bytes b; Some (mkClaim s n g, b).
Definition enc_handshake (h : AuthHandshakeMsg) : bytes :=
  enc_option enc_token (hs_Token h) ++ enc_claim (hs_Session h) ++ enc_string (hs_Error h) ++
  enc_claim (hs_SupersedingSession h) ++ enc_bytes (hs_ProfileWireJSON h) ++ enc_bytes (hs_ProfileSignature h).
Definition dec_handshake : Dec AuthHandshakeMsg := fun b =>
  '(t, b) ← dec_option dec_token b; '(s, b) ← dec_claim b; '(e, b) ← dec_string b; '(u, b) ← dec_claim b;
  '(w, b) ← dec_bytes b; '(g, b) ← dec_bytes b; Some (mkHandshake t s e u w g, b).
Definition enc_bundle (x : InvitationBundle) : bytes :=
  enc_option enc_token (ib_Token x) ++ enc_string (ib_BootstrapAddr x) ++ enc_bytes (ib_RootPublicKey x).
Definition dec_bundle : Dec InvitationBundle := fun b =>
  '(t, b) ← dec_option dec_token b; '(a, b) ← dec_string b; '(r, b) ← dec_bytes b; Some (mkBundle t a r, b).

Lemma token_rt t b : dec_token (enc_token t ++ b) = Some (t, b).
Proof.
  unfold dec_token, enc_token. rewrite <- !app_assoc.
  rewrite Z_rt; simpl. rewrite text_rt; simpl. rewrite text_rt; simpl. rewrite bytes_rt; simpl.
  rewrite Z_rt; simpl. rewrite Z_rt; simpl. rewrite bytes_rt; simpl. by destruct t.
Qed.
Lemma option_token_rt o b : dec_option dec_token (enc_option enc_token o ++ b) = Some (o, b).
Proof. destruct o as [t|]; [|done]. cbn [enc_option dec_option app]. by rewrite token_rt. Qed.
Lemma claim_rt c b : dec_claim (enc_claim c ++ b) = Some (c, b).
Proof.
  unfold dec_claim, enc_claim. rewrite <- !app_assoc. rewrite Z_rt; simpl. rewrite bytes_rt; simpl. rewrite bytes_rt; simpl.
  by destruct c.
Qed.
Lemma handshake_rt h b : dec_handshake (enc_handshake h ++ b) = Some (h, b).
Proof.
  unfold dec_handshake, enc_handshake. rewrite <- !app_assoc. rewrite option_token_rt; simpl. rewrite claim_rt; simpl.
  rewrite text_rt; simpl. rewrite claim_rt; simpl. rewrite bytes_rt; simpl. rewrite bytes_rt; simpl. by destruct h.
Qed.
Lemma bundle_rt x b : dec_bundle (enc_bundle x ++ b) = Some (x, b).
Proof.
  unfold dec_bundle, enc_bundle. rewrite <- !app_assoc. rewrite option_token_rt; simpl. rewrite text_rt; simpl.
  rewrite bytes_rt; simpl. by destruct x.
Qed.

Definition whole {A} (dec : Dec A) (b : bytes) : option A := fst <$> dec b.
Lemma whole_rt {A} (dec : Dec A) enc x : (forall b, dec (enc x ++ b) = Some (x, b)) -> whole dec (enc x) = Some x.
Proof. intros H. unfold whole. specialize (H []). rewrite app_nil_r in H. by rewrite H. Qed.

#[export] Instance token_json : TokenJSON := {|
  payload_Marshal := fun p => enc_Z (tp_Version p) ++ enc_string (tp_DisplayName p) ++ enc_string (tp_PeerID p) ++
    enc_bytes (tp_PublicKey p) ++ enc_Z (tp_IssuedAt p) ++ enc_Z (tp_ExpiresAt p);
  bundle_Marshal := enc_bundle;
  bundle_Unmarshal := whole dec_bundle;
|}.
#[export] Instance token_json_laws : TokenJSONLaws.
Proof. split. intros. apply whole_rt. intros. apply bundle_rt. Qed.

#[export] Instance handshake_json : HandshakeJSON := {|
  claim_Marshal := fun p => enc_string (cp_PeerID p) ++ enc_Z (cp_StartedAt p) ++ enc_bytes (cp_Nonce p);
  handshake_Marshal := enc_handshake;
  handshake_Unmarshal := whole dec_handshake;
  token_Unmarshal := whole dec_token;
|}.
#[export] Instance handshake_json_laws : HandshakeJSONLaws.
Proof.
  split.
  - intros. apply whole_rt. intros. apply handshake_rt.
  - intros hs. simpl. unfold enc_handshake. by destruct (hs_Token hs).
Qed.

(** Ciphers that hide nothing. *)
#[export] Instance key_crypto : KeyCrypto := {|
  argon2_IDKey := fun pass salt => sha256_sum (str_bytes pass ++ salt);
  gcm_Seal := fun _ _ p => p ++ repeat x00 16;
  gcm_Open := fun _ _ c => Some (take (length c - 16) c);
|}.
#[export] Instance key_crypto_laws : KeyCryptoLaws.
Proof.
  split.
  - intros. apply Sha256.length_sha256.
  - intros key nonce p _ _. change (Some (take (length (p ++ repeat x00 16) - 16) (p ++ repeat x00 16)) = Some p).
    rewrite length_app, repeat_length, Nat.add_sub. by rewrite take_app_length.
  - intros key nonce p. change (length (p ++ repeat x00 16) = (length p + 16)%nat). by rewrite length_app, repeat_length.
Qed.

End Codec.

(** ** Concrete nodes *)

Import Codec.
#[local] Existing Instance plain_codec.
#[local] Existing Instance toy_ed25519.
#[local] Existing Instance toy_ed25519_laws.

Definition root_key : bytes := repeat x05 64.
Definition user_key : bytes := repeat x09 64.

(** A token of the root for a peer with the key of the user. *)
Definition demo_token (peer : string) : InvitationToken :=
  let unsigned := mkToken 1 "name" peer (ed_Public user_key) 100 31536100 [] in
  mkToken 1 "name" peer (ed_Public user_key) 100 31536100 (ed_Sign root_key (Admin.signingPayload unsigned)).

(** A claim of the user for a session that started at [at_]. *)
Definition demo_claim (peer : string) (at_ : Z) : SessionClaim :=
  let nonce := repeat x01 16 in
  mkClaim at_ nonce (ed_Sign user_key (claim_Marshal (mkClaimPayload peer at_ nonce))).
Definition demo_hello (peer : string) (at_ : Z) : AuthHandshakeMsg :=
  mkHandshake (Some (demo_token peer)) (demo_claim peer at_) "" no_claim [] [].
Definition wire (hs : AuthHandshakeMsg) : bytes := match Auth.writeHandshake (Some hs) with inl b => b | inr _ => [] end.

(** The node carol, and the device of alice whose session started at [at_]. *)
Definition node (peer : string) (at_ : Z) : Auth.AuthProtocol :=
  Auth.NewAuthProtocol (Some (demo_token peer)) (ed_Public root_key) (Some (demo_hello peer at_)).
Definition demo_now : time := 200 * Second.

(** Carol has verified a session of alice that started at [at_]. *)
Definition carol (at_ : Z) : Auth.AuthProtocol :=
  Auth.handleIncoming demo_now "alice" (Some (wire (demo_hello "alice" at_))) true (node "carol" 1).

Definition session_of (pid : peerID) (a : Auth.AuthProtocol) : option Z := vp_SessionStarted <$> Auth.au_verified a !! pid.

Example carol_verifies : session_of "alice" (carol 50) = Some 50.
Proof. by vm_compute. Qed.

(** A forged token blocks its sender for half an hour. *)
Example forged_token_is_blocked :
  let hs := mkHandshake (Some (mkToken 1 "eve" "eve" (ed_Public user_key) 0 99999999 [x01])) no_claim "" no_claim [] [] in
  let a := Auth.handleIncoming demo_now "eve" (Some (wire hs)) true (node "carol" 1) in
  session_of "eve" a = None /\ (Auth.InterceptSecured (demo_now + 30 * Minute) "eve" a).1 = false /\
  (Auth.InterceptSecured (demo_now + 30 * Minute + 1) "eve" a).1 = true.
Proof. by vm_compute. Qed.

Lemma sessions_move_forward_witness :
  let l := [Inbound demo_now "alice" (Some (wire (demo_hello "alice" 40))) true;
            Outbound demo_now "alice" true (Some (wire (demo_hello "alice" 60)));
            Inbound demo_now "alice" (Some (wire (demo_hello "alice" 60))) true] in
  session_of "alice" (handshakes l (carol 50)) = Some 60 /\
  exists st', Auth.au_verified (handshakes l (carol 50)) !! "alice" = Some st' /\ 50 <= vp_SessionStarted st'.
Proof.
  intros l. split; [by vm_compute|].
  assert (H : session_of "alice" (carol 50) = Some 50) by (by vm_compute). unfold session_of in H.
  destruct (Auth.au_verified (carol 50) !! "alice") as [st|] eqn:E; [|done]. injection H as H.
  destruct (sessions_move_forward l (carol 50) "alice" st E) as (st' & E' & Hst). exists st'. rewrite H in Hst. by split.
Defined.

(** Handshakes that overlap can undo this: the older one is accepted before the
    newer one is stored, and stored after it. *)
Example overlapping_handshakes_go_back :
  let arrive at_ := Auth.EvIncoming "alice" (Some (wire (demo_hello "alice" at_))) in
  let step i := Auth.EvAdvance i (Some []) in
  let w evs := Auth.w_auth (Auth.auth_run evs (Auth.mkWorld (node "carol" 1) [] demo_now)) in
  let older := [arrive 40; step 0%nat; step 0%nat] in
  let newer := [arrive 60; step 1%nat; step 1%nat; step 1%nat] in
  session_of "alice" (w (older ++ newer)) = Some 60 /\ session_of "alice" (w (older ++ newer ++ [step 0%nat])) = Some 40.
Proof. by vm_compute. Qed.

Lemma demo_valid peer at_ err sup :
  valid_text peer -> valid_text err -> valid_handshake (mkHandshake (Some (demo_token peer)) (demo_claim peer at_) err sup [] []).
Proof. intros Hp He. split; [|done]. eexists. split; [reflexivity|]. split; [by vm_compute|done]. Qed.

Lemma handshake_wire_round_trip_witness :
  Auth.readHandshake (wire (demo_hello "alice" 50) ++ [x07]) = inl (demo_hello "alice" 50).
Proof.
  destruct (handshake_wire_round_trip (demo_hello "alice" 50) [x07]) as (data & Hw & Hr).
  { apply demo_valid; by vm_compute. }
  unfold wire. rewrite Hw, Hr. by vm_compute.
Defined.

(** A node with an identity and no bundle. *)
Definition fresh_db : AppDB := set_adb_identity (Some (mkMLSIdentity "" (ed_Public user_key) user_key [x01])) adb_empty.
Definition created : result bytes :=
  Admin.CreateInvitationBundle 100 root_key "Alice" "alice" (hex_EncodeToString (ed_Public user_key)) "/ip4/10.0.0.1".
Definition late_env : SqlEnv := mkSqlEnv (fun _ => None) (fun _ => 1000 * Second) (fun _ => 0) true.

Lemma issued_bundle_admits_witness :
  exists raw n' d' row, created = inl raw /\
    Admin.ImportInvitationBundle "alice" raw late_env O fresh_db = (inl tt, n', d') /\ adb_auth d' = Some row /\
    Auth.verifyPeerToken demo_now (Some (Admin.BuildLocalToken row)) "alice" (node "carol" 1)
      = Auth.Passed (Admin.BuildLocalToken row).
Proof.
  destruct created as [raw|e] eqn:E; [|exfalso; by vm_compute in E].
  destruct (issued_bundle_admits 100 root_key "Alice" "alice" (mkMLSIdentity "" (ed_Public user_key) user_key [x01])
    "/ip4/10.0.0.1" raw late_env O fresh_db) as (n' & d' & row & Hi & Hb & _ & Hv).
  - reflexivity.
  - by vm_compute.
  - by vm_compute.
  - by vm_compute.
  - unfold in_i64. lia.
  - reflexivity.
  - exact E.
  - done.
  - intros k. change (sql_clock late_env k) with (1000 * Second). by vm_compute.
  - exists raw, n', d', row. split_and!; [done|done|done|]. apply Hv; [reflexivity|by vm_compute].
Defined.

(** A token of another version imports, and no node accepts what is presented
    afterwards. *)
Definition version_2 : InvitationBundle :=
  let unsigned := mkToken 2 "Alice" "alice" (ed_Public user_key) 100 31536100 [] in
  mkBundle (Some (mkToken 2 "Alice" "alice" (ed_Public user_key) 100 31536100
    (ed_Sign root_key (Admin.signingPayload unsigned)))) "/ip4/10.0.0.1" (ed_Public root_key).

Example other_version_is_imported_and_refused :
  let r := Admin.ImportInvitationBundle "alice" (Admin.SerializeBundle version_2) late_env O fresh_db in
  r.1.1 = inl tt /\
  (fun row => match Auth.verifyPeerToken demo_now (Some (Admin.BuildLocalToken row)) "alice" (node "carol" 1) with
              | Auth.Refused _ => true | _ => false end) <$> adb_auth r.2 = Some true.
Proof. by vm_compute. Qed.

(** A bundle whose root key has a wrong length makes the import panic. *)
Example short_root_key_panics :
  (Admin.ImportInvitationBundle "alice" (Admin.SerializeBundle (mkBundle (Some (demo_token "alice")) "/ip4/10.0.0.1" [x01]))
     late_env O fresh_db).1.1 = inr (panicked "ed25519: bad public key length").
Proof. by vm_compute. Qed.

Lemma admin_key_round_trip_witness :
  let r := Admin.SetupAdminKey root_key (repeat x01 16) (repeat x02 12) "secret" HealStore.demo_env O adb_empty in
  exists m, Admin.UnlockAdminKey "secret" HealStore.demo_env r.1.2 r.2 = (inl root_key, m, r.2).
Proof.
  intros r.
  destruct (admin_key_round_trip root_key (repeat x01 16) (repeat x02 12) "secret" HealStore.demo_env O adb_empty
    (ed_Public root_key) r.1.2 r.2) as (_ & H & _); [reflexivity|reflexivity|done|by vm_compute|exact H].
Defined.

(** The old device of alice, whose session started at 40, meets carol. *)
Definition newer : verifiedPeerState := mkVerified (demo_token "alice") 50 (demo_claim "alice" 50).
Definition refusal : AuthHandshakeMsg :=
  mkHandshake (Some (demo_token "carol")) (demo_claim "carol" 1) "session_replaced" (demo_claim "alice" 50) [] [].

Lemma newer_ok : entry_ok (Auth.au_root (carol 50)) demo_now "alice" newer.
Proof.
  split; [|reflexivity]. split; [by vm_compute|reflexivity|exists demo_now; split; [lia|by vm_compute]|intros _; by vm_compute].
Qed.

Lemma old_device_is_locked_out_witness :
  exists hello answer,
    Auth.handleIncoming demo_now "alice" (Some hello) true (carol 50) =
      Auth.effects [Auth.Written "alice" refusal] (carol 50) /\
    Auth.au_trace (Auth.InitiateHandshake demo_now "carol" true (Some answer) (node "alice" 40)) =
      [Auth.Written "carol" (demo_hello "alice" 40); Auth.SessionReplacedBy (demo_claim "alice" 50)].
Proof.
  destruct (old_device_is_locked_out demo_now demo_now demo_now "alice" "carol" newer (demo_hello "alice" 40)
    (demo_hello "carol" 1) (demo_token "alice") (demo_token "carol") (node "alice" 40) (carol 50) refusal)
    as (hello & answer & _ & H1 & _ & H2 & _).
  - by vm_compute.
  - apply newer_ok.
  - by vm_compute.
  - by vm_compute.
  - reflexivity.
  - done.
  - done.
  - reflexivity.
  - reflexivity.
  - split; [apply demo_valid; by vm_compute|by vm_compute].
  - by vm_compute.
  - by vm_compute.
  - split; [apply demo_valid; by vm_compute|by vm_compute].
  - by vm_compute.
  - done.
  - by vm_compute.
  - exists hello, answer. by split.
Defined.
