(* ===== verification/Coordinator.v ===== *)
(** * The coordinator: state, environment and effects

    [coordination/coordinator.go]: the fields of [Coordinator], what it reads
    from outside (clock, MLS engine, transport, random numbers, JSON), and the
    monad its methods are written in.

    A method body runs under the coordinator's mutex, so it is a sequential
    computation on the state.  A goroutine it starts is recorded in the trace
    as a task, with the values it captures; the task's own body is a separate
    computation that runs later.  Dereferencing a nil component panics. *)
From S2P Require Import Prelude Sha256 Types Config Hlc Epoch ActiveView SingleWriter.
From S2P Require Import ForkDetector Helpers Database.

(** ** Results of the MLS engine ([interfaces.go]) *)

Record CreateProposalResult := mkCreateProposalResult {
  cpr_ProposalBytes : bytes; cpr_ProposalRef : bytes; cpr_NewGroupState : bytes }.
Record ProcessProposalResult := mkProcessProposalResult {
  ppr_ProposalRef : bytes; ppr_ProposalType : string; ppr_NewGroupState : bytes }.
Record CreateCommitResult := mkCreateCommitResult {
  ccr_CommitBytes : bytes; ccr_WelcomeBytes : bytes; ccr_GroupInfo : bytes;
  ccr_CommittedProposalRefs : list bytes; ccr_NewGroupState : bytes; ccr_NewTreeHash : bytes }.
Record StageCommitResult := mkStageCommitResult {
  scr_Epoch : Z; scr_ProposalRefs : list bytes; scr_ProposalTypes : list string }.

(** ** Wire format *)

(** The payload of an envelope. *)
Inductive Payload :=
| PHeartbeat
| PAnnounce (a : GroupStateAnnouncement)
| PProposal (p : ProposalMsg)
| PCommit (c : CommitMsg)
| PApplication (a : ApplicationMsg)
| PBatched (b : BatchedApplicationMsg)
| PDeliveryAck (a : DeliveryAckMsg)
| PHistoryQuery (q : HistoryQueryMsg)
| PHistoryReply (r : HistoryReplyMsg).

(** The JSON encoding of envelopes, payloads and the plaintext of a batch.
    Decoding may accept more than encoding produces. *)
Class WireCodec := {
  enc_envelope : Envelope -> bytes;
  dec_envelope : bytes -> result Envelope;
  enc_payload : Payload -> bytes;
  dec_announce : bytes -> result GroupStateAnnouncement;
  dec_proposal : bytes -> result ProposalMsg;
  dec_commit : bytes -> result CommitMsg;
  dec_application : bytes -> result ApplicationMsg;
  dec_batched : bytes -> result BatchedApplicationMsg;
  dec_ack : bytes -> result DeliveryAckMsg;
  dec_query : bytes -> result HistoryQueryMsg;
  dec_reply : bytes -> result HistoryReplyMsg;
  enc_plaintext : BatchedPlaintext -> bytes;
  dec_plaintext : bytes -> result BatchedPlaintext;
  enc_hlc : HLCTimestamp -> bytes;
  dec_hlc : bytes -> result HLCTimestamp;
}.

(** The message types the code sends. *)
Definition message_types : list MessageType :=
  [MsgHeartbeat; MsgAnnounce; MsgProposal; MsgCommit; MsgApplication; MsgApplicationBatched;
   MsgDeliveryAck; MsgHistoryQuery; MsgHistoryReply].

(** What the code relies on: an envelope it encoded reads back, if at all,
    with the same epoch and message type. *)
Class WireCodecLaws `{WireCodec} : Prop := {
  dec_enc_envelope : forall e e', dec_envelope (enc_envelope e) = inl e' ->
    env_Epoch e' = env_Epoch e /\ (env_Type e ∈ message_types -> env_Type e' = env_Type e);
}.

(** ** Environment *)

(** The options a coordinator is built with ([CoordinatorOpts]); a callback is
    represented by whether it is set. *)
Record Opts := mkOpts {
  o_Config : Config.CoordinatorConfig;
  o_LocalID : peerID;
  o_GroupID : string;
  o_SigningKey : bytes;
  o_HasMLS : bool;
  o_AuthorizedCommitters : option SingleWriter.Provider;
  o_OnMessage : bool;
  o_OnEpochChange : bool;
  o_OnAccessLost : bool;
  o_OnEnvelopeBroadcast : bool;
  o_OnAddCommitted : bool;
  o_OnPeerObserved : bool;
  o_OnProposalObserved : bool;
  o_OnCommitIssued : bool;
  o_OnPendingOperationAudit : bool;
  o_OnForkHealEvent : bool;
  o_OnSyncRequired : bool;
}.

(** Everything outside the coordinator.  Calls may fail and may answer
    differently each time, so each is indexed by the instant of the call. *)
Record Env := mkEnv {
  e_opts : Opts;
  e_sql : SqlEnv;
  e_clock : nat -> time;
  e_random : nat -> option bytes;
  e_connected : nat -> list peerID;
  e_subscribe : nat -> result unit;
  e_known_order : nat -> list (string * ForkDetector.branchInfo) -> list (string * ForkDetector.branchInfo);
  ed25519_public : bytes -> bytes;
  e_nonce : nat -> option bytes;
  gcm_Seal : bytes -> bytes -> bytes -> bytes;
  gcm_Open : bytes -> bytes -> bytes -> result bytes;
  mls_CreateGroup : nat -> string -> bytes -> Z -> result (bytes * bytes);
  mls_CreateProposal : nat -> bytes -> ProposalType -> bytes -> result CreateProposalResult;
  mls_ProcessProposal : nat -> bytes -> bytes -> result ProcessProposalResult;
  mls_CreateCommit : nat -> bytes -> list bytes -> result CreateCommitResult;
  mls_StageCommit : nat -> bytes -> bytes -> list bytes -> result StageCommitResult;
  mls_ProcessCommit : nat -> bytes -> bytes -> list bytes -> result (bytes * bytes);
  mls_HasMember : nat -> bytes -> bytes -> result bool;
  mls_EncryptMessage : nat -> bytes -> bytes -> result (bytes * bytes);
  mls_DecryptMessage : nat -> bytes -> bytes -> result (bytes * bytes);
  mls_GenerateKeyPackage : nat -> bytes -> result (bytes * bytes);
  mls_ProcessWelcome : nat -> bytes -> bytes -> bytes -> Z -> result (bytes * bytes * Z);
}.

(** ** Effects *)

(** Goroutines, with what they capture. *)
Inductive Task :=
| TViewChange (members : list peerID)
| TPeerObserved (groupID : string) (p : peerID) (at_ : time)
| TBatchTimer (timer : nat) (delay : duration)
| TDeferTimer (timer : nat) (delay : duration)
| TFailoverTimer (timer : nat) (delay : duration)
| TSendDirect (to : peerID) (wire : bytes)
| TAckWatch (to : peerID) (envelopeHash : bytes)
| TBatchReplay (groupID : string)
| TAddCommitted (ds : list AddCommitDelivery) (epoch : Z) (welcome : bytes)
| TAccessLost (groupID : string) (epoch : Z) (reason : string)
| TSyncRequired (p : peerID) (groupID : string)
| TPendingAudit (s : PendingOperationAuditSummary)
| TRunHeal (traceID : string) (ev : ForkDetector.ForkEvent) (scheduledAt : time)
| TResumeHeal (job : ForkHealingJob).

Inductive Effect :=
| EPublish (topic : string) (wire : bytes)
| ESubscribe (topic : string)
| EUnsubscribe (topic : string)
| EEnvelope (ty : MessageType) (groupID : string) (wire : bytes)
| EMessage (m : StoredMessage)
| EEpochChange (e : Z)
| EProposalObserved (s : ProposalAuditSummary)
| ECommitIssued (s : CommitAuditSummary)
| EForkHeal (s : ForkHealAuditSummary)
| EDirect (to : peerID) (wire : bytes)
| ESpawn (t : Task).

(** ** State *)

(** [pendingAppDelivery] *)
Record pendingAppDelivery := mkPendingAppDelivery {
  pad_peerID : peerID; pad_envelopeHash : string; pad_envelope : bytes; pad_attempts : Z }.

(** The mutable fields of [Coordinator].  A nil group state or history hash
    is [None]; a timer channel is the number of the timer that will fire on
    it. *)
Record Coord := mkCoord {
  c_groupState : option bytes;
  c_treeHash : bytes;
  c_lastCommitHash : bytes;
  c_historyHash : option bytes;
  c_historyChain : gmap Z bytes;
  c_epoch : Z;
  c_activeView : ActiveView.ActiveView;
  c_singleWriter : option SingleWriter.SingleWriter;
  c_epochTracker : option Epoch.EpochTracker;
  c_forkDetector : ForkDetector.ForkDetector;
  c_proposalTimer : option nat;
  c_failoverTimer : option nat;
  c_lastTokenHolder : peerID;
  c_startedAt : time;
  c_started : bool;
  c_healing : bool;
  c_accessRevoked : bool;
  c_pendingAppDeliveries : gmap string pendingAppDelivery;
  c_syncRetryAttempts : Z;
  c_deferredForkEvent : option ForkDetector.ForkEvent;
  c_operationalMode : GroupOperationalMode;
  c_welcomeReceived : bool;
  c_hlc : Hlc.HLC;
  c_metrics : Metrics.Metrics;
}.

Definition set_c_groupState (v : option bytes) (c : Coord) : Coord :=
  mkCoord v (c_treeHash c) (c_lastCommitHash c) (c_historyHash c) (c_historyChain c) (c_epoch c)
    (c_activeView c) (c_singleWriter c) (c_epochTracker c) (c_forkDetector c) (c_proposalTimer
    c) (c_failoverTimer c) (c_lastTokenHolder c) (c_startedAt c) (c_started c) (c_healing c)
    (c_accessRevoked c) (c_pendingAppDeliveries c) (c_syncRetryAttempts c) (c_deferredForkEvent
    c) (c_operationalMode c) (c_welcomeReceived c) (c_hlc c) (c_metrics c).
Definition set_c_treeHash (v : bytes) (c : Coord) : Coord :=
  mkCoord (c_groupState c) v (c_lastCommitHash c) (c_historyHash c) (c_historyChain c) (c_epoch
    c) (c_activeView c) (c_singleWriter c) (c_epochTracker c) (c_forkDetector c)
    (c_proposalTimer c) (c_failoverTimer c) (c_lastTokenHolder c) (c_startedAt c) (c_started c)
    (c_healing c) (c_accessRevoked c) (c_pendingAppDeliveries c) (c_syncRetryAttempts c)
    (c_deferredForkEvent c) (c_operationalMode c) (c_welcomeReceived c) (c_hlc c) (c_metrics c).
Definition set_c_lastCommitHash (v : bytes) (c : Coord) : Coord :=
  mkCoord (c_groupState c) (c_treeHash c) v (c_historyHash c) (c_historyChain c) (c_epoch c)
    (c_activeView c) (c_singleWriter c) (c_epochTracker c) (c_forkDetector c) (c_proposalTimer
    c) (c_failoverTimer c) (c_lastTokenHolder c) (c_startedAt c) (c_started c) (c_healing c)
    (c_accessRevoked c) (c_pendingAppDeliveries c) (c_syncRetryAttempts c) (c_deferredForkEvent
    c) (c_operationalMode c) (c_welcomeReceived c) (c_hlc c) (c_metrics c).
Definition set_c_historyHash (v : option bytes) (c : Coord) : Coord :=
  mkCoord (c_groupState c) (c_treeHash c) (c_lastCommitHash c) v (c_historyChain c) (c_epoch c)
    (c_activeView c) (c_singleWriter c) (c_epochTracker c) (c_forkDetector c) (c_proposalTimer
    c) (c_failoverTimer c) (c_lastTokenHolder c) (c_startedAt c) (c_started c) (c_healing c)
    (c_accessRevoked c) (c_pendingAppDeliveries c) (c_syncRetryAttempts c) (c_deferredForkEvent
    c) (c_operationalMode c) (c_welcomeReceived c) (c_hlc c) (c_metrics c).
Definition set_c_historyChain (v : gmap Z bytes) (c : Coord) : Coord :=
  mkCoord (c_groupState c) (c_treeHash c) (c_lastCommitHash c) (c_historyHash c) v (c_epoch c)
    (c_activeView c) (c_singleWriter c) (c_epochTracker c) (c_forkDetector c) (c_proposalTimer
    c) (c_failoverTimer c) (c_lastTokenHolder c) (c_startedAt c) (c_started c) (c_healing c)
    (c_accessRevoked c) (c_pendingAppDeliveries c) (c_syncRetryAttempts c) (c_deferredForkEvent
    c) (c_operationalMode c) (c_welcomeReceived c) (c_hlc c) (c_metrics c).
Definition set_c_epoch (v : Z) (c : Coord) : Coord :=
  mkCoord (c_groupState c) (c_treeHash c) (c_lastCommitHash c) (c_historyHash c) (c_historyChain
    c) v (c_activeView c) (c_singleWriter c) (c_epochTracker c) (c_forkDetector c)
    (c_proposalTimer c) (c_failoverTimer c) (c_lastTokenHolder c) (c_startedAt c) (c_started c)
    (c_healing c) (c_accessRevoked c) (c_pendingAppDeliveries c) (c_syncRetryAttempts c)
    (c_deferredForkEvent c) (c_operationalMode c) (c_welcomeReceived c) (c_hlc c) (c_metrics c).
Definition set_c_activeView (v : ActiveView.ActiveView) (c : Coord) : Coord :=
  mkCoord (c_groupState c) (c_treeHash c) (c_lastCommitHash c) (c_historyHash c) (c_historyChain
    c) (c_epoch c) v (c_singleWriter c) (c_epochTracker c) (c_forkDetector c) (c_proposalTimer
    c) (c_failoverTimer c) (c_lastTokenHolder c) (c_startedAt c) (c_started c) (c_healing c)
    (c_accessRevoked c) (c_pendingAppDeliveries c) (c_syncRetryAttempts c) (c_deferredForkEvent
    c) (c_operationalMode c) (c_welcomeReceived c) (c_hlc c) (c_metrics c).
Definition set_c_singleWriter (v : option SingleWriter.SingleWriter) (c : Coord) : Coord :=
  mkCoord (c_groupState c) (c_treeHash c) (c_lastCommitHash c) (c_historyHash c) (c_historyChain
    c) (c_epoch c) (c_activeView c) v (c_epochTracker c) (c_forkDetector c) (c_proposalTimer c)
    (c_failoverTimer c) (c_lastTokenHolder c) (c_startedAt c) (c_started c) (c_healing c)
    (c_accessRevoked c) (c_pendingAppDeliveries c) (c_syncRetryAttempts c) (c_deferredForkEvent
    c) (c_operationalMode c) (c_welcomeReceived c) (c_hlc c) (c_metrics c).
Definition set_c_epochTracker (v : option Epoch.EpochTracker) (c : Coord) : Coord :=
  mkCoord (c_groupState c) (c_treeHash c) (c_lastCommitHash c) (c_historyHash c) (c_historyChain
    c) (c_epoch c) (c_activeView c) (c_singleWriter c) v (c_forkDetector c) (c_proposalTimer c)
    (c_failoverTimer c) (c_lastTokenHolder c) (c_startedAt c) (c_started c) (c_healing c)
    (c_accessRevoked c) (c_pendingAppDeliveries c) (c_syncRetryAttempts c) (c_deferredForkEvent
    c) (c_operationalMode c) (c_welcomeReceived c) (c_hlc c) (c_metrics c).
Definition set_c_forkDetector (v : ForkDetector.ForkDetector) (c : Coord) : Coord :=
  mkCoord (c_groupState c) (c_treeHash c) (c_lastCommitHash c) (c_historyHash c) (c_historyChain
    c) (c_epoch c) (c_activeView c) (c_singleWriter c) (c_epochTracker c) v (c_proposalTimer c)
    (c_failoverTimer c) (c_lastTokenHolder c) (c_startedAt c) (c_started c) (c_healing c)
    (c_accessRevoked c) (c_pendingAppDeliveries c) (c_syncRetryAttempts c) (c_deferredForkEvent
    c) (c_operationalMode c) (c_welcomeReceived c) (c_hlc c) (c_metrics c).
Definition set_c_proposalTimer (v : option nat) (c : Coord) : Coord :=
  mkCoord (c_groupState c) (c_treeHash c) (c_lastCommitHash c) (c_historyHash c) (c_historyChain
    c) (c_epoch c) (c_activeView c) (c_singleWriter c) (c_epochTracker c) (c_forkDetector c) v
    (c_failoverTimer c) (c_lastTokenHolder c) (c_startedAt c) (c_started c) (c_healing c)
    (c_accessRevoked c) (c_pendingAppDeliveries c) (c_syncRetryAttempts c) (c_deferredForkEvent
    c) (c_operationalMode c) (c_welcomeReceived c) (c_hlc c) (c_metrics c).
Definition set_c_failoverTimer (v : option nat) (c : Coord) : Coord :=
  mkCoord (c_groupState c) (c_treeHash c) (c_lastCommitHash c) (c_historyHash c) (c_historyChain
    c) (c_epoch c) (c_activeView c) (c_singleWriter c) (c_epochTracker c) (c_forkDetector c)
    (c_proposalTimer c) v (c_lastTokenHolder c) (c_startedAt c) (c_started c) (c_healing c)
    (c_accessRevoked c) (c_pendingAppDeliveries c) (c_syncRetryAttempts c) (c_deferredForkEvent
    c) (c_operationalMode c) (c_welcomeReceived c) (c_hlc c) (c_metrics c).
Definition set_c_lastTokenHolder (v : peerID) (c : Coord) : Coord :=
  mkCoord (c_groupState c) (c_treeHash c) (c_lastCommitHash c) (c_historyHash c) (c_historyChain
    c) (c_epoch c) (c_activeView c) (c_singleWriter c) (c_epochTracker c) (c_forkDetector c)
    (c_proposalTimer c) (c_failoverTimer c) v (c_startedAt c) (c_started c) (c_healing c)
    (c_accessRevoked c) (c_pendingAppDeliveries c) (c_syncRetryAttempts c) (c_deferredForkEvent
    c) (c_operationalMode c) (c_welcomeReceived c) (c_hlc c) (c_metrics c).
Definition set_c_startedAt (v : time) (c : Coord) : Coord :=
  mkCoord (c_groupState c) (c_treeHash c) (c_lastCommitHash c) (c_historyHash c) (c_historyChain
    c) (c_epoch c) (c_activeView c) (c_singleWriter c) (c_epochTracker c) (c_forkDetector c)
    (c_proposalTimer c) (c_failoverTimer c) (c_lastTokenHolder c) v (c_started c) (c_healing c)
    (c_accessRevoked c) (c_pendingAppDeliveries c) (c_syncRetryAttempts c) (c_deferredForkEvent
    c) (c_operationalMode c) (c_welcomeReceived c) (c_hlc c) (c_metrics c).
Definition set_c_started (v : bool) (c : Coord) : Coord :=
  mkCoord (c_groupState c) (c_treeHash c) (c_lastCommitHash c) (c_historyHash c) (c_historyChain
    c) (c_epoch c) (c_activeView c) (c_singleWriter c) (c_epochTracker c) (c_forkDetector c)
    (c_proposalTimer c) (c_failoverTimer c) (c_lastTokenHolder c) (c_startedAt c) v (c_healing
    c) (c_accessRevoked c) (c_pendingAppDeliveries c) (c_syncRetryAttempts c)
    (c_deferredForkEvent c) (c_operationalMode c) (c_welcomeReceived c) (c_hlc c) (c_metrics c).
Definition set_c_healing (v : bool) (c : Coord) : Coord :=
  mkCoord (c_groupState c) (c_treeHash c) (c_lastCommitHash c) (c_historyHash c) (c_historyChain
    c) (c_epoch c) (c_activeView c) (c_singleWriter c) (c_epochTracker c) (c_forkDetector c)
    (c_proposalTimer c) (c_failoverTimer c) (c_lastTokenHolder c) (c_startedAt c) (c_started c)
    v (c_accessRevoked c) (c_pendingAppDeliveries c) (c_syncRetryAttempts c)
    (c_deferredForkEvent c) (c_operationalMode c) (c_welcomeReceived c) (c_hlc c) (c_metrics c).
Definition set_c_accessRevoked (v : bool) (c : Coord) : Coord :=
  mkCoord (c_groupState c) (c_treeHash c) (c_lastCommitHash c) (c_historyHash c) (c_historyChain
    c) (c_epoch c) (c_activeView c) (c_singleWriter c) (c_epochTracker c) (c_forkDetector c)
    (c_proposalTimer c) (c_failoverTimer c) (c_lastTokenHolder c) (c_startedAt c) (c_started c)
    (c_healing c) v (c_pendingAppDeliveries c) (c_syncRetryAttempts c) (c_deferredForkEvent c)
    (c_operationalMode c) (c_welcomeReceived c) (c_hlc c) (c_metrics c).
Definition set_c_pendingAppDeliveries (v : gmap string pendingAppDelivery) (c : Coord) : Coord :=
  mkCoord (c_groupState c) (c_treeHash c) (c_lastCommitHash c) (c_historyHash c) (c_historyChain
    c) (c_epoch c) (c_activeView c) (c_singleWriter c) (c_epochTracker c) (c_forkDetector c)
    (c_proposalTimer c) (c_failoverTimer c) (c_lastTokenHolder c) (c_startedAt c) (c_started c)
    (c_healing c) (c_accessRevoked c) v (c_syncRetryAttempts c) (c_deferredForkEvent c)
    (c_operationalMode c) (c_welcomeReceived c) (c_hlc c) (c_metrics c).
Definition set_c_syncRetryAttempts (v : Z) (c : Coord) : Coord :=
  mkCoord (c_groupState c) (c_treeHash c) (c_lastCommitHash c) (c_historyHash c) (c_historyChain
    c) (c_epoch c) (c_activeView c) (c_singleWriter c) (c_epochTracker c) (c_forkDetector c)
    (c_proposalTimer c) (c_failoverTimer c) (c_lastTokenHolder c) (c_startedAt c) (c_started c)
    (c_healing c) (c_accessRevoked c) (c_pendingAppDeliveries c) v (c_deferredForkEvent c)
    (c_operationalMode c) (c_welcomeReceived c) (c_hlc c) (c_metrics c).
Definition set_c_deferredForkEvent (v : option ForkDetector.ForkEvent) (c : Coord) : Coord :=
  mkCoord (c_groupState c) (c_treeHash c) (c_lastCommitHash c) (c_historyHash c) (c_historyChain
    c) (c_epoch c) (c_activeView c) (c_singleWriter c) (c_epochTracker c) (c_forkDetector c)
    (c_proposalTimer c) (c_failoverTimer c) (c_lastTokenHolder c) (c_startedAt c) (c_started c)
    (c_healing c) (c_accessRevoked c) (c_pendingAppDeliveries c) (c_syncRetryAttempts c) v
    (c_operationalMode c) (c_welcomeReceived c) (c_hlc c) (c_metrics c).
Definition set_c_operationalMode (v : GroupOperationalMode) (c : Coord) : Coord :=
  mkCoord (c_groupState c) (c_treeHash c) (c_lastCommitHash c) (c_historyHash c) (c_historyChain
    c) (c_epoch c) (c_activeView c) (c_singleWriter c) (c_epochTracker c) (c_forkDetector c)
    (c_proposalTimer c) (c_failoverTimer c) (c_lastTokenHolder c) (c_startedAt c) (c_started c)
    (c_healing c) (c_accessRevoked c) (c_pendingAppDeliveries c) (c_syncRetryAttempts c)
    (c_deferredForkEvent c) v (c_welcomeReceived c) (c_hlc c) (c_metrics c).
Definition set_c_welcomeReceived (v : bool) (c : Coord) : Coord :=
  mkCoord (c_groupState c) (c_treeHash c) (c_lastCommitHash c) (c_historyHash c) (c_historyChain
    c) (c_epoch c) (c_activeView c) (c_singleWriter c) (c_epochTracker c) (c_forkDetector c)
    (c_proposalTimer c) (c_failoverTimer c) (c_lastTokenHolder c) (c_startedAt c) (c_started c)
    (c_healing c) (c_accessRevoked c) (c_pendingAppDeliveries c) (c_syncRetryAttempts c)
    (c_deferredForkEvent c) (c_operationalMode c) v (c_hlc c) (c_metrics c).
Definition set_c_hlc (v : Hlc.HLC) (c : Coord) : Coord :=
  mkCoord (c_groupState c) (c_treeHash c) (c_lastCommitHash c) (c_historyHash c) (c_historyChain
    c) (c_epoch c) (c_activeView c) (c_singleWriter c) (c_epochTracker c) (c_forkDetector c)
    (c_proposalTimer c) (c_failoverTimer c) (c_lastTokenHolder c) (c_startedAt c) (c_started c)
    (c_healing c) (c_accessRevoked c) (c_pendingAppDeliveries c) (c_syncRetryAttempts c)
    (c_deferredForkEvent c) (c_operationalMode c) (c_welcomeReceived c) v (c_metrics c).
Definition set_c_metrics (v : Metrics.Metrics) (c : Coord) : Coord :=
  mkCoord (c_groupState c) (c_treeHash c) (c_lastCommitHash c) (c_historyHash c) (c_historyChain
    c) (c_epoch c) (c_activeView c) (c_singleWriter c) (c_epochTracker c) (c_forkDetector c)
    (c_proposalTimer c) (c_failoverTimer c) (c_lastTokenHolder c) (c_startedAt c) (c_started c)
    (c_healing c) (c_accessRevoked c) (c_pendingAppDeliveries c) (c_syncRetryAttempts c)
    (c_deferredForkEvent c) (c_operationalMode c) (c_welcomeReceived c) (c_hlc c) v.

(** The coordinator, the database, the number of external calls made so far,
    and the effects in order. *)
Record World := mkWorld { w_c : Coord; w_db : DB; w_tick : nat; w_trace : list Effect }.

(** ** The monad *)

Inductive outcome (A : Type) :=
| Ok (a : A) (w : World)
| Panic
| OutOfFuel.
Arguments Ok {A}.
Arguments Panic {A}.
Arguments OutOfFuel {A}.

Definition C (A : Type) : Type := Env -> World -> outcome A.

Definition ret {A} (a : A) : C A := fun _ w => Ok a w.
Definition bind {A B} (m : C A) (k : A -> C B) : C B := fun env w =>
  match m env w with
  | Ok a w' => k a env w'
  | Panic => Panic
  | OutOfFuel => OutOfFuel
  end.
Definition panic {A} : C A := fun _ _ => Panic.
Definition no_fuel {A} : C A := fun _ _ => OutOfFuel.

Notation "x <-- m ; k" := (bind m (fun x => k))
  (at level 100, m at next level, k at level 200, right associativity) : coord_scope.
Notation "m ;;; k" := (bind m (fun _ => k))
  (at level 100, k at level 200, right associativity) : coord_scope.
Notation "'let*' ( x , y ) := m 'in' k" := (bind m (fun xy => let '(x, y) := xy in k))
  (at level 200, x name, y name, m at level 100, k at level 200) : coord_scope.

(** Read and write the coordinator's fields. *)
Definition gets {A} (f : Coord -> A) : C A := fun _ w => Ok (f (w_c w)) w.
Definition modify (f : Coord -> Coord) : C unit := fun _ w =>
  Ok tt (mkWorld (f (w_c w)) (w_db w) (w_tick w) (w_trace w)).
Definition opts {A} (f : Opts -> A) : C A := fun env w => Ok (f (e_opts env)) w.

Definition envs {A} (f : Env -> A) : C A := fun env w => Ok (f env) w.

(** A call of something outside: the instant moves on. *)
Definition ask {A} (f : Env -> nat -> A) : C A := fun env w =>
  Ok (f env (w_tick w)) (mkWorld (w_c w) (w_db w) (S (w_tick w)) (w_trace w)).
Definition emit (e : Effect) : C unit := fun _ w =>
  Ok tt (mkWorld (w_c w) (w_db w) (w_tick w) (w_trace w ++ [e])).
Definition go (t : Task) : C unit := emit (ESpawn t).

(** A storage call: its error is a value. *)
Definition db {A} (m : SQL A) : C (result A) := fun env w =>
  match m (e_sql env) (w_tick w) (w_db w) with
  | (r, t, d) => Ok r (mkWorld (w_c w) d t (w_trace w))
  end.

Definition when (b : bool) (m : C unit) : C unit := if b then m else ret tt.

(** [for _, x := range l { f(x) }] *)
Fixpoint for_each {A} (l : list A) (f : A -> C unit) : C unit :=
  match l with
  | [] => ret tt
  | x :: l' => f x ;;; for_each l' f
  end.

(** [c.clock.Now()], the hybrid clock, the MLS engine *)
Definition now : C time := ask e_clock.

Definition hlc_Now : C HLCTimestamp :=
  pt <-- now ;
  pt' <-- now ;
  h <-- gets c_hlc ;
  let '(ts, h') := Hlc.Now (UnixMilli pt) (UnixMilli pt') h in
  modify (set_c_hlc h') ;;; ret ts.

Definition hlc_Update (received : HLCTimestamp) : C (result HLCTimestamp) :=
  pt <-- now ;
  pt' <-- now ;
  h <-- gets c_hlc ;
  let '(r, h') := Hlc.Update (UnixMilli pt) (UnixMilli pt') received h in
  modify (set_c_hlc h') ;;; ret r.

(** A method of a nil engine panics. *)
Definition mls {A} (f : Env -> nat -> A) : C A :=
  ok <-- opts o_HasMLS ;
  if ok : bool then ask f else panic.

(** Components that exist once the coordinator has started. *)
Definition the_singleWriter : C SingleWriter.SingleWriter :=
  s <-- gets c_singleWriter ;
  match s with None => panic | Some s => ret s end.
Definition the_epochTracker : C Epoch.EpochTracker :=
  s <-- gets c_epochTracker ;
  match s with None => panic | Some s => ret s end.

Definition set_singleWriter (s : SingleWriter.SingleWriter) : C unit := modify (set_c_singleWriter (Some s)).
Definition set_epochTracker (s : Epoch.EpochTracker) : C unit := modify (set_c_epochTracker (Some s)).
Definition metric (f : Metrics.Metrics -> Metrics.Metrics) : C unit :=
  modify (fun c => set_c_metrics (f (c_metrics c)) c).

Section Holder.
Context {PC : PeerCodec}.

(** [c.singleWriter.CurrentTokenHolder()], [IsTokenHolder()],
    [HolderForBatch(batch)]: they read the active view and ask the
    authorization policy. *)
Definition sw_CurrentTokenHolder : C (result peerID) :=
  sw <-- the_singleWriter ;
  av <-- gets c_activeView ;
  cfg <-- opts o_Config ;
  ask (fun _ t => SingleWriter.CurrentTokenHolder cfg t (ActiveView.Members av) sw).
Definition sw_IsTokenHolder : C bool :=
  sw <-- the_singleWriter ;
  av <-- gets c_activeView ;
  cfg <-- opts o_Config ;
  ask (fun _ t => SingleWriter.IsTokenHolder cfg t (ActiveView.Members av) sw).
Definition sw_HolderForBatch (batch : list BufferedProposal) : C (result peerID) :=
  sw <-- the_singleWriter ;
  av <-- gets c_activeView ;
  ask (fun _ t => SingleWriter.HolderForBatch t (ActiveView.Members av) batch sw).
Definition sw_BufferProposal (p : BufferedProposal) : C unit :=
  sw <-- the_singleWriter ;
  cfg <-- opts o_Config ;
  set_singleWriter (SingleWriter.BufferProposal cfg p sw).
Definition sw_ProposalCount : C Z := sw <-- the_singleWriter ; ret (SingleWriter.ProposalCount sw).

(** [decodeEnvelopePeerID] *)
Definition decodeEnvelopePeerID (raw : string) (fallback : peerID) : peerID :=
  if str_eqb raw "" then fallback else default fallback (peer_Decode raw).
End Holder.

(** [deriveIdentityFromSigningKey]: the public half of the Ed25519 key. *)
Definition deriveIdentityFromSigningKey (env : Env) (signingKey : bytes) : bytes :=
  if (length signingKey =? 32)%nat || (length signingKey =? 64)%nat
  then ed25519_public env signingKey else [].
