(* ===== verification/CoordBroadcast.v ===== *)
(** * Coordinator: building, publishing and persisting

    [coordination/coordinator_broadcast.go], the small helpers of
    [coordinator_replay.go] and the announcing half of
    [coordinator_observability.go]. *)
From S2P Require Import Prelude Sha256 Types Config Hlc Epoch ActiveView SingleWriter.
From S2P Require Import ForkDetector Helpers Database Store Coordinator.

Section Broadcast.
Context {PC : PeerCodec} {WC : WireCodec}.

(** [buildEnvelopeWithEpochAndTimestampLocked] *)
Definition buildEnvelopeWithEpochAndTimestampLocked (msgType : MessageType) (payload : Payload)
  (epoch : Z) (ts : HLCTimestamp) : C bytes :=
  gid <-- opts o_GroupID ;
  local <-- opts o_LocalID ;
  ret (enc_envelope (mkEnvelope msgType gid epoch (peer_String local) ts (enc_payload payload))).

(** [buildEnvelopeWithTimestampLocked] *)
Definition buildEnvelopeWithTimestampLocked (msgType : MessageType) (payload : Payload)
  (ts : HLCTimestamp) : C bytes :=
  epoch <-- gets c_epoch ;
  buildEnvelopeWithEpochAndTimestampLocked msgType payload epoch ts.

(** [publishPreparedEnvelopeLocked]: a publish error is only logged. *)
Definition publishPreparedEnvelopeLocked (msgType : MessageType) (envBytes : bytes) : C unit :=
  gid <-- opts o_GroupID ;
  emit (EPublish (GroupTopic gid) envBytes) ;;;
  cb <-- opts o_OnEnvelopeBroadcast ;
  when (cb && (str_eqb msgType MsgCommit || str_eqb msgType MsgApplication))
    (emit (EEnvelope msgType gid envBytes)).

(** [broadcastWithTimestampLocked] *)
Definition broadcastWithTimestampLocked (msgType : MessageType) (payload : Payload) (ts : HLCTimestamp)
  : C bytes :=
  envBytes <-- buildEnvelopeWithTimestampLocked msgType payload ts ;
  if is_empty envBytes then ret []
  else publishPreparedEnvelopeLocked msgType envBytes ;;; ret envBytes.

(** [broadcastLocked] *)
Definition broadcastLocked (msgType : MessageType) (payload : Payload) : C unit :=
  ts <-- hlc_Now ;
  broadcastWithTimestampLocked msgType payload ts ;;; ret tt.

(** [appendOfflineEnvelopeLocked] *)
Definition appendOfflineEnvelopeLocked (wire : bytes) : C unit :=
  cfg <-- opts o_Config ;
  if negb (Config.OfflineSyncEnabled cfg) || is_empty wire then ret tt
  else match dec_envelope wire with
       | inr _ => ret tt
       | inl env =>
           if negb (str_eqb (env_Type env) MsgCommit) && negb (str_eqb (env_Type env) MsgApplication)
           then ret tt
           else
             gid <-- opts o_GroupID ;
             db (Store.AppendEnvelope gid (env_Type env) (env_Epoch env) (env_Timestamp env) wire) ;;;
             ret tt
       end.

(** [persistCoordStateLocked] *)
Definition persistCoordStateLocked : C (result unit) :=
  sw <-- gets c_singleWriter ;
  holder <-- (match sw with
              | None => ret ""
              | Some _ =>
                  h <-- sw_CurrentTokenHolder ;
                  ret (match h with inl h => h | inr _ => "" end)
              end) ;
  gid <-- opts o_GroupID ;
  c <-- gets (fun c => c) ;
  db (Store.SaveCoordState (mkCoordState gid (ActiveView.Members (c_activeView c)) holder
        (c_lastCommitHash c) time_zero [] (c_historyChain c))).

(** [persistCurrentEpochStateLocked] *)
Definition persistCurrentEpochStateLocked (newState : bytes) : C (result unit) :=
  now <-- now ;
  gid <-- opts o_GroupID ;
  c <-- gets (fun c => c) ;
  prev <-- db (Store.GetGroupRecord gid) ;
  let rec0 := match prev with
              | inl p => mkGroupRecord gid newState (c_epoch c) (c_treeHash c) (gr_MyRole p)
                           (gr_GroupType p) (gr_CategoryID p) (gr_DMCounterpartyPeerID p)
                           (gr_CreatedAt p) now
              | inr _ => mkGroupRecord gid newState (c_epoch c) (c_treeHash c) "" "" "" "" time_zero now
              end in
  let rec := if time_IsZero (gr_CreatedAt rec0)
             then mkGroupRecord gid newState (c_epoch c) (c_treeHash c) (gr_MyRole rec0)
                    (gr_GroupType rec0) (gr_CategoryID rec0) (gr_DMCounterpartyPeerID rec0) now now
             else rec0 in
  db (Store.SaveGroupRecord rec).

(** [saveCurrentGroupStateLocked] *)
Definition saveCurrentGroupStateLocked (now : time) : C (result unit) :=
  gid <-- opts o_GroupID ;
  prev <-- db (Store.GetGroupRecord gid) ;
  match prev with
  | inr e =>
      if negb (errors_Is e ErrGroupNotFound) then ret (inr e)
      else
        c <-- gets (fun c => c) ;
        db (Store.SaveGroupRecord (mkGroupRecord gid (default [] (c_groupState c)) (c_epoch c)
              (c_treeHash c) RoleMember "" "" "" now now))
  | inl p =>
      c <-- gets (fun c => c) ;
      db (Store.SaveGroupRecord (mkGroupRecord gid (default [] (c_groupState c)) (c_epoch c)
            (c_treeHash c) (if str_eqb (gr_MyRole p) "" then RoleMember else gr_MyRole p)
            (gr_GroupType p) (gr_CategoryID p) ""
            (if time_IsZero (gr_CreatedAt p) then now else gr_CreatedAt p) now))
  end.

(** [updateLocalAccessRevocationLocked] *)
Definition updateLocalAccessRevocationLocked (groupState : bytes) (epoch : Z) : C unit :=
  revoked <-- gets c_accessRevoked ;
  if revoked : bool then ret tt
  else
    key <-- opts o_SigningKey ;
    identity <-- envs (fun env => deriveIdentityFromSigningKey env key) ;
    if is_empty identity then ret tt
    else
      r <-- mls (fun env t => mls_HasMember env t groupState identity) ;
      match r with
      | inr _ => ret tt
      | inl true => ret tt
      | inl false =>
          modify (set_c_accessRevoked true) ;;;
          cb <-- opts o_OnAccessLost ;
          gid <-- opts o_GroupID ;
          when cb (go (TAccessLost gid epoch "removed"))
      end.

(** ** Replay bookkeeping *)

(** [newReplayResultLocked] *)
Definition newReplayResultLocked (env : Envelope) (wire : bytes) : C ReplayEnvelopeResult :=
  epoch <-- gets c_epoch ;
  ret (mkReplayEnvelopeResult (env_GroupID env) (env_Type env) (ForkDetector.hashEnvelope wire) ""
         0 (env_Epoch env) epoch "" false false false false).

(** [markReplayResultLocked] *)
Definition markReplayResultLocked (result : ReplayEnvelopeResult) : C unit :=
  if is_empty (rr_EnvelopeHash result) || str_eqb (rr_State result) "" then ret tt
  else
    t <-- now ;
    gid <-- opts o_GroupID ;
    db (Store.MarkEnvelopeReplayState gid (rr_EnvelopeHash result) (rr_State result) (rr_Error result) t) ;;;
    ret tt.

(** [checkAppliedEnvelopeLocked]: the hash and whether it is known applied. *)
Definition checkAppliedEnvelopeLocked (env : Envelope) (wire : bytes) : C (bytes * bool) :=
  if is_empty wire || (negb (str_eqb (env_Type env) MsgCommit) && negb (str_eqb (env_Type env) MsgApplication))
  then ret ([], false)
  else
    let envelopeHash := ForkDetector.hashEnvelope wire in
    gid <-- opts o_GroupID ;
    applied <-- db (Store.HasAppliedEnvelope gid envelopeHash) ;
    ret (envelopeHash, match applied with inl b => b | inr _ => false end).

(** [markInvalidCommitLocked] *)
Definition markInvalidCommitLocked (commitHash : bytes) : C unit :=
  if is_empty commitHash then ret tt
  else modify (fun c => set_c_forkDetector (ForkDetector.MarkInvalidCommit commitHash (c_forkDetector c)) c).

(** [validateSenderTimestamp] *)
Definition maxFutureSkewMs : Z := 5 * 60 * 1000.
Definition validateSenderTimestamp (nowMs senderMs : Z) : option GoError :=
  if senderMs >? i64 (nowMs + maxFutureSkewMs) then Some (ErrText "sender timestamp too far in future")
  else None.

(** ** Announcing *)

(** The announcement of the local state. *)
Definition localAnnouncement : C GroupStateAnnouncement :=
  c <-- gets (fun c => c) ;
  ret (mkGroupStateAnnouncement (c_treeHash c) (ActiveView.Size (c_activeView c)) (c_epoch c)
         (c_lastCommitHash c) (default [] (c_historyHash c))).

(** [broadcastAnnounceLocked] *)
Definition broadcastAnnounceLocked : C unit :=
  c <-- gets (fun c => c) ;
  if bool_decide (c_groupState c = None) || c_healing c then ret tt
  else
    ann <-- localAnnouncement ;
    modify (fun c => set_c_forkDetector (ForkDetector.UpdateLocal ann (c_forkDetector c)) c) ;;;
    broadcastLocked MsgAnnounce (PAnnounce ann).

(** [BroadcastHeartbeat] *)
Definition BroadcastHeartbeat : C unit := broadcastLocked MsgHeartbeat PHeartbeat.

(** [BroadcastAnnounce] *)
Definition BroadcastAnnounce : C unit := broadcastAnnounceLocked.

(** [TriggerLivenessCheck]; a change of the view starts [handleActiveViewChange]. *)
Definition TriggerLivenessCheck : C (list peerID) :=
  cfg <-- opts o_Config ;
  av <-- gets c_activeView ;
  let '(evicted, change, av') := ActiveView.CheckLiveness cfg av in
  modify (set_c_activeView av') ;;;
  match change with
  | Some members => go (TViewChange members) ;;; ret evicted
  | None => ret evicted
  end.

(** One round of [heartbeatLoop]. *)
Definition heartbeatLoop_round : C unit :=
  TriggerLivenessCheck ;;; broadcastLocked MsgHeartbeat PHeartbeat.

(** One round of [announceLoop]. *)
Definition announceLoop_round : C unit := broadcastAnnounceLocked.

(** [SeedHistoryAnchor]: copying a nil anchor gives nil. *)
Definition SeedHistoryAnchor (epoch : Z) (anchorHistoryHash : option bytes) : C unit :=
  modify (fun c => set_c_historyChain (<[epoch := default [] anchorHistoryHash]> (c_historyChain c)) c) ;;;
  modify (set_c_historyHash anchorHistoryHash) ;;;
  modify (set_c_epoch epoch) ;;;
  persistCoordStateLocked ;;; ret tt.

(** [GetOperationalMode], [SetOperationalMode], [CurrentEpoch], [IsTokenHolder] *)
Definition GetOperationalMode : C GroupOperationalMode := gets c_operationalMode.
Definition SetOperationalMode (mode : GroupOperationalMode) : C unit := modify (set_c_operationalMode mode).
Definition CurrentEpoch : C Z := gets c_epoch.
Definition IsTokenHolder : C bool :=
  sw <-- gets c_singleWriter ;
  match sw with None => ret false | Some _ => sw_IsTokenHolder end.
Definition CurrentTokenHolder : C (result peerID) :=
  sw <-- gets c_singleWriter ;
  match sw with
  | None => ret (inr (ErrText "singleWriter not initialized"))
  | Some _ => sw_CurrentTokenHolder
  end.
End Broadcast.
