(* ===== verification/CoordApplication.v ===== *)
(** * Coordinator: application messages

    [coordination/coordinator_application.go]: receiving, sending and
    retransmitting application messages, and the receiving side of batched
    messages of [coordinator_batch.go]. *)
From S2P Require Import Prelude Sha256 Types Config Hlc Epoch ActiveView SingleWriter.
From S2P Require Import ForkDetector Helpers Database Store HealStore Coordinator.
From S2P Require Import CoordBroadcast.

Section Application.
Context {PC : PeerCodec} {WC : WireCodec}.

Definition rr_finish (state : ReplayEnvelopeState) (error : string) (terminal cursorSafe applied already : bool)
  (r : ReplayEnvelopeResult) : ReplayEnvelopeResult :=
  set_rr_State state (set_rr_Error error (set_rr_Terminal terminal (set_rr_CursorSafe cursorSafe
    (set_rr_Applied applied (set_rr_AlreadyApplied already r))))).

(** Record the result in the log and return it. *)
Definition finish (result : ReplayEnvelopeResult) : C ReplayEnvelopeResult :=
  markReplayResultLocked result ;;; ret result.

(** [if c.epochTracker == nil { c.epochTracker = NewEpochTracker(c.epoch, c.treeHash) }] *)
Definition ensure_epochTracker : C unit :=
  et <-- gets c_epochTracker ;
  match et with
  | Some _ => ret tt
  | None => modify (fun c => set_c_epochTracker (Some (Epoch.NewEpochTracker (c_epoch c) (c_treeHash c))) c)
  end.

(** The retention window for a slightly stale message: measured from the
    first local sighting of the envelope. *)
Definition retention_action (envelopeHash : bytes) (action : EpochAction) (inWindow : bool) : C EpochAction :=
  if negb (bool_decide (action = ActionRejectStale) && inWindow) then ret action
  else
    t0 <-- now ;
    r <-- db (Store.GetEnvelope envelopeHash) ;
    let firstSeenMs := match r with
                       | inl (Some rec) => if er_FirstSeenAtMs rec >? 0 then er_FirstSeenAtMs rec else UnixMilli t0
                       | _ => UnixMilli t0
                       end in
    cfg <-- opts o_Config ;
    t1 <-- now ;
    let maxPastAgeSeconds := Config.GetMaxPastAgeSeconds cfg in
    let ageSeconds := Z.quot (UnixMilli t1 - firstSeenMs) 1000 in
    let ageSeconds := if ageSeconds <? 0 then 0 else ageSeconds in
    ret (if (maxPastAgeSeconds >? 0) && (ageSeconds >? maxPastAgeSeconds) then action else ActionProcess).

(** [sendDirectEnvelope]: an error is only logged by the callers. *)
Definition sendDirectEnvelope (to : peerID) (wire : bytes) : C unit := emit (EDirect to wire).

(** [sendDeliveryAckLocked] *)
Definition sendDeliveryAckLocked (to : peerID) (envelopeHash : bytes) : C unit :=
  local <-- opts o_LocalID ;
  if str_eqb to "" || str_eqb to local || is_empty envelopeHash then ret tt
  else
    epoch <-- gets c_epoch ;
    ts <-- hlc_Now ;
    envBytes <-- buildEnvelopeWithEpochAndTimestampLocked MsgDeliveryAck
      (PDeliveryAck (mkDeliveryAckMsg envelopeHash)) epoch ts ;
    if is_empty envBytes then ret tt else go (TSendDirect to envBytes).

(** The part of [handleApplicationDetailedLocked] after the epoch check. *)
Definition applyApplicationLocked (from : peerID) (env : Envelope) (wire envelopeHash : bytes)
  (result : ReplayEnvelopeResult) : C ReplayEnvelopeResult :=
  match dec_application (env_Payload env) with
  | inr e => finish (rr_finish ReplayStateInvalid (err_Error e) true false false false result)
  | inl appMsg =>
      upd <-- hlc_Update (env_Timestamp env) ;
      match upd with
      | inr e => finish (rr_finish ReplayStateInvalid ("hlc: " +:+ err_Error e) true false false false result)
      | inl ts =>
          local <-- opts o_LocalID ;
          let localTs := if str_eqb (NodeID ts) "" then mkHLC (WallTimeMs ts) (Counter ts) (peer_String local) else ts in
          hasMLS <-- opts o_HasMLS ;
          if negb hasMLS then
            finish (rr_finish ReplayStateDecryptFailed "crypto engine not available" true false false false result)
          else
            gs <-- gets c_groupState ;
            dec <-- mls (fun e t => mls_DecryptMessage e t (default [] gs) (am_Ciphertext appMsg)) ;
            match dec with
            | inr e => finish (rr_finish ReplayStateDecryptFailed (err_Error e) true false false false result)
            | inl (plaintext, newState) =>
                let sender := decodeEnvelopePeerID (env_From env) from in
                gid <-- opts o_GroupID ;
                let msg := mkStoredMessage "" gid (env_Epoch env) sender plaintext localTs "" envelopeHash 0 None "" in
                t <-- now ;
                c <-- gets (fun c => c) ;
                r <-- db (Store.ApplyApplication
                       (mkGroupRecord gid newState (c_epoch c) (c_treeHash c) "" "" "" "" time_zero t)
                       msg (env_Type env) wire (env_Timestamp env) (env_Epoch env)) ;
                match r with
                | inr e => finish (rr_finish ReplayStatePersistFailed (err_Error e) false false false false result)
                | inl (false, _) => finish (rr_finish ReplayStateDuplicateApplied "" true true false true result)
                | inl (true, _) =>
                    modify (set_c_groupState (Some newState)) ;;;
                    cb <-- opts o_OnMessage ;
                    when cb (emit (EMessage (Store.stamp_message (sha256_sum wire) msg))) ;;;
                    sendDeliveryAckLocked sender envelopeHash ;;;
                    finish (rr_finish ReplayStateApplied "" true true true false result)
                end
            end
      end
  end.

(** [handleApplicationDetailedLocked] *)
Definition handleApplicationDetailedLocked (from : peerID) (env : Envelope) (wire : bytes)
  : C ReplayEnvelopeResult :=
  result <-- newReplayResultLocked env wire ;
  chk <-- checkAppliedEnvelopeLocked env wire ;
  let '(envelopeHash, alreadyApplied) := chk in
  let result := set_rr_EnvelopeHash envelopeHash result in
  if alreadyApplied : bool then
    finish (rr_finish ReplayStateDuplicateApplied "" true true false true result)
  else
    ensure_epochTracker ;;;
    et <-- the_epochTracker ;
    cfg <-- opts o_Config ;
    epoch <-- gets c_epoch ;
    action <-- retention_action envelopeHash (Epoch.Validate (env_Epoch env) et)
      (str_eqb (env_Type env) MsgApplication &&
       (epoch <=? u64 (env_Epoch env + Config.GetMaxPastEpochs cfg))) ;
    match action with
    | ActionRejectStale => finish (rr_finish ReplayStateStaleEpoch "" true true false false result)
    | ActionBufferFuture =>
        set_epochTracker (Epoch.BufferFuture (env_Epoch env) wire et) ;;;
        finish (rr_finish ReplayStateFutureEpoch "" false false false false result)
    | ActionProcess => applyApplicationLocked from env wire envelopeHash result
    end.

(** [handleApplicationLocked] *)
Definition handleApplicationLocked (from : peerID) (env : Envelope) (wire : bytes) : C bool :=
  r <-- handleApplicationDetailedLocked from env wire ; ret (rr_Applied r).

(** [pendingAppDeliveryKey] *)
Definition pendingAppDeliveryKey (pid : peerID) (envelopeHash : bytes) : string :=
  peer_String pid +:+ "|" +:+ hex_EncodeToString envelopeHash.

(** [handleDeliveryAckLocked] *)
Definition handleDeliveryAckLocked (from : peerID) (env : Envelope) : C unit :=
  match dec_ack (env_Payload env) with
  | inr _ => ret tt
  | inl ack =>
      if is_empty (ack_EnvelopeHash ack) then ret tt
      else modify (fun c => set_c_pendingAppDeliveries
             (delete (pendingAppDeliveryKey from (ack_EnvelopeHash ack)) (c_pendingAppDeliveries c)) c)
  end.

(** [applicationRecipientsLocked]: the other members of the view, or else the
    connected peers, each printed id once. *)
Definition add_peer (local : peerID) (out : list peerID) (pid : peerID) : list peerID :=
  if str_eqb pid "" || str_eqb pid local then out
  else if existsb (fun q => str_eqb (peer_String q) (peer_String pid)) out then out
  else out ++ [pid].

Definition applicationRecipientsLocked : C (list peerID) :=
  local <-- opts o_LocalID ;
  av <-- gets c_activeView ;
  let out := foldl (add_peer local) [] (ActiveView.Members av) in
  if is_empty out then
    connected <-- ask e_connected ;
    ret (foldl (add_peer local) [] connected)
  else ret out.

(** [trackPendingApplicationDeliveriesLocked] *)
Definition track_one (envBytes envelopeHash : bytes) (pid : peerID) : C unit :=
  let key := pendingAppDeliveryKey pid envelopeHash in
  m <-- gets c_pendingAppDeliveries ;
  match m !! key with
  | Some _ => ret tt
  | None =>
      modify (set_c_pendingAppDeliveries
        (<[key := mkPendingAppDelivery pid (hex_EncodeToString envelopeHash) envBytes 0]> m)) ;;;
      go (TAckWatch pid envelopeHash)
  end.

Definition trackPendingApplicationDeliveriesLocked (envBytes envelopeHash : bytes) : C unit :=
  cfg <-- opts o_Config ;
  if is_empty envBytes || is_empty envelopeHash || (Config.ApplicationDirectRetryLimit cfg =? 0) then ret tt
  else
    recipients <-- applicationRecipientsLocked ;
    for_each recipients (track_one envBytes envelopeHash).

(** [sendMessage] *)
Definition sendMessage (plaintext : bytes) (localEchoToken : string) : C (result HLCTimestamp) :=
  healing <-- gets c_healing ;
  if healing : bool then
    ret (inr (ErrText "fork healing in progress: message rejected to avoid cross-epoch state corruption"))
  else
  started <-- gets c_started ;
  if negb started then ret (inr (ErrText "coordinator not started"))
  else
  c0 <-- gets (fun c => c) ;
  updateLocalAccessRevocationLocked (default [] (c_groupState c0)) (c_epoch c0) ;;;
  revoked <-- gets c_accessRevoked ;
  if revoked : bool then ret (inr ErrAccessRevoked)
  else
  ts0 <-- hlc_Now ;
  local <-- opts o_LocalID ;
  let ts := if str_eqb (NodeID ts0) "" then mkHLC (WallTimeMs ts0) (Counter ts0) (peer_String local) else ts0 in
  hasMLS <-- opts o_HasMLS ;
  if negb hasMLS then ret (inr (ErrText "crypto engine not available — build the Rust project first"))
  else
  enc <-- mls (fun e t => mls_EncryptMessage e t (default [] (c_groupState c0)) plaintext) ;
  match enc with
  | inr e => ret (inr (ErrWrap "encrypt" e))
  | inl (ciphertext, newState) =>
      envBytes <-- buildEnvelopeWithTimestampLocked MsgApplication (PApplication (mkApplicationMsg ciphertext)) ts ;
      if is_empty envBytes then ret (inr (ErrText "encode envelope"))
      else
      let envelopeHash := ForkDetector.hashEnvelope envBytes in
      gid <-- opts o_GroupID ;
      c <-- gets (fun c => c) ;
      let msg := mkStoredMessage "" gid (c_epoch c) local plaintext ts localEchoToken envelopeHash 0 None "" in
      t <-- now ;
      r <-- db (Store.ApplyApplication
             (mkGroupRecord gid newState (c_epoch c) (c_treeHash c) "" "" "" "" time_zero t)
             msg MsgApplication envBytes ts (c_epoch c)) ;
      match r with
      | inr e => ret (inr (ErrWrap "persist application" e))
      | inl (false, _) => ret (inr (ErrText "application envelope already applied"))
      | inl (true, _) =>
          modify (set_c_groupState (Some newState)) ;;;
          publishPreparedEnvelopeLocked MsgApplication envBytes ;;;
          trackPendingApplicationDeliveriesLocked envBytes envelopeHash ;;;
          cb <-- opts o_OnMessage ;
          when cb (emit (EMessage (Store.stamp_message (sha256_sum envBytes) msg))) ;;;
          ret (inl ts)
      end
  end.

(** [SendMessage] and [SendMessageWithLocalEchoToken] *)
Definition SendMessage (plaintext : bytes) : C (result HLCTimestamp) := sendMessage plaintext "".
Definition SendMessageWithLocalEchoToken (plaintext : bytes) (token : string) : C (result HLCTimestamp) :=
  sendMessage plaintext token.

(** One round of [applicationAckWatchLoop], after the timeout: whether the
    loop goes on. *)
Definition applicationAckWatch_round (pid : peerID) (envelopeHash : bytes) : C bool :=
  let key := pendingAppDeliveryKey pid envelopeHash in
  m <-- gets c_pendingAppDeliveries ;
  cfg <-- opts o_Config ;
  match m !! key with
  | None => ret false
  | Some pending =>
      if Config.ApplicationDirectRetryLimit cfg <=? pad_attempts pending then ret false
      else
        modify (set_c_pendingAppDeliveries (<[key := mkPendingAppDelivery (pad_peerID pending)
          (pad_envelopeHash pending) (pad_envelope pending) (pad_attempts pending + 1)]> m)) ;;;
        sendDirectEnvelope pid (pad_envelope pending) ;;; ret true
  end.

(** [RetryOutstandingDeliveriesTo] *)
Definition RetryOutstandingDeliveriesTo (pid : peerID) : C unit :=
  local <-- opts o_LocalID ;
  if str_eqb pid "" || str_eqb pid local then ret tt
  else
    m <-- gets c_pendingAppDeliveries ;
    for_each (filter (fun p => pad_peerID p = pid) (map_to_list m).*2)
      (fun p => sendDirectEnvelope pid (pad_envelope p)).

(** ** Batched messages *)

(** [deriveStorageKey] *)
Definition deriveStorageKey (signingKey : bytes) : bytes := sha256_sum signingKey.

(** [aes.NewCipher] accepts keys of 16, 24 and 32 bytes. *)
Definition aes_key_ok (key : bytes) : bool :=
  bool_decide (length key ∈ [16; 24; 32]%nat).
Definition ErrKeySize : GoError := ErrText "crypto/aes: invalid key size".

(** [sealPayload]: the ciphertext and the fresh nonce. *)
Definition sealPayload (plaintext key : bytes) : C (result (bytes * bytes)) :=
  if negb (aes_key_ok key) then ret (inr ErrKeySize)
  else
    nonce <-- ask e_nonce ;
    match nonce with
    | None => ret (inr (ErrText "rand: read failed"))
    | Some n => ct <-- envs (fun e => gcm_Seal e key n plaintext) ; ret (inl (ct, n))
    end.

(** [openPayload] *)
Definition openPayload (ciphertext nonce key : bytes) : C (result bytes) :=
  if is_empty ciphertext || is_empty nonce then ret (inr (ErrText "openPayload: empty ciphertext or nonce"))
  else if negb (aes_key_ok key) then ret (inr ErrKeySize)
  else envs (fun e => gcm_Open e key nonce ciphertext).

(** One event of a batch: the stored message, and the event saved for later
    replays; the message is delivered only if the event could be saved. *)
Definition deliver_batched_event (env : Envelope) (sender : peerID) (envelopeHash : bytes) (t : time)
  (ev : ApplicationEventPayload) : C StoredMessage :=
  let localTs := match dec_hlc (aep_HLC ev) with inl ts => ts | inr _ => mkHLC 0 0 "" end in
  gid <-- opts o_GroupID ;
  key <-- opts o_SigningKey ;
  let msg := mkStoredMessage "" gid (env_Epoch env) sender (aep_Plaintext ev) localTs "" envelopeHash 0 None "" in
  sealed <-- sealPayload (aep_Plaintext ev) (deriveStorageKey key) ;
  let '(payload, nonce, h) := match sealed with
    | inl (ct, n) => (ct, n, sha256_sum (aep_Plaintext ev))
    | inr _ => ([], [], [])
    end in
  saved <-- db (HealStore.SaveApplicationEvent (mkApplicationEvent (aep_EventID ev) "" gid ""
    (env_Epoch env) (peer_String sender) [] payload h "local_node_key" nonce (WallTimeMs localTs)
    (Counter localTs) (NodeID localTs) "DELIVERED" "" [] 0 0 "" (UnixMilli t) 0)) ;
  cb <-- opts o_OnMessage ;
  match saved with
  | inl _ => when cb (emit (EMessage msg)) ;;; ret msg
  | inr _ => ret msg
  end.

Fixpoint deliver_batched (env : Envelope) (sender : peerID) (envelopeHash : bytes) (t : time)
  (evs : list ApplicationEventPayload) : C (list StoredMessage) :=
  match evs with
  | [] => ret []
  | ev :: rest =>
      m <-- deliver_batched_event env sender envelopeHash t ev ;
      ms <-- deliver_batched env sender envelopeHash t rest ;
      ret (m :: ms)
  end.

(** [handleApplicationBatchedLocked] *)
Definition handleApplicationBatchedLocked (from : peerID) (env : Envelope) (wire : bytes) : C bool :=
  result <-- newReplayResultLocked env wire ;
  chk <-- checkAppliedEnvelopeLocked env wire ;
  let '(envelopeHash, alreadyApplied) := chk in
  let result := set_rr_EnvelopeHash envelopeHash result in
  if alreadyApplied : bool then
    finish (rr_finish ReplayStateDuplicateApplied "" true true false true result) ;;; ret true
  else
    ensure_epochTracker ;;;
    et <-- the_epochTracker ;
    cfg <-- opts o_Config ;
    epoch <-- gets c_epoch ;
    action <-- retention_action envelopeHash (Epoch.Validate (env_Epoch env) et)
      (epoch <=? u64 (env_Epoch env + Config.GetMaxPastEpochs cfg)) ;
    if negb (bool_decide (action = ActionProcess)) then ret false
    else match dec_batched (env_Payload env) with
    | inr _ => ret false
    | inl batchMsg =>
        gs <-- gets c_groupState ;
        dec <-- mls (fun e t => mls_DecryptMessage e t (default [] gs) (bam_Ciphertext batchMsg)) ;
        match dec with
        | inr _ => ret false
        | inl (plaintext, newState) =>
            match dec_plaintext plaintext with
            | inr _ => ret false
            | inl batch =>
                let sender := decodeEnvelopePeerID (env_From env) from in
                t <-- now ;
                msgs <-- deliver_batched env sender envelopeHash t (bpt_Events batch) ;
                modify (set_c_groupState (Some newState)) ;;;
                saveCurrentGroupStateLocked t ;;;
                gid <-- opts o_GroupID ;
                c <-- gets (fun c => c) ;
                db (Store.ApplyBatchedApplication
                  (mkGroupRecord gid newState (c_epoch c) (c_treeHash c) "" "" "" "" time_zero t)
                  msgs (env_Type env) wire (env_Timestamp env) (env_Epoch env)) ;;;
                ret true
            end
        end
    end.

End Application.
