(* ===== verification/CoordCommit.v ===== *)
(** * Coordinator: proposals, commits and pending operations

    [coordination/coordinator_proposal.go], [coordinator_commit.go] and
    [coordinator_reconcile.go].

    Applying a commit advances the epoch, which handles the envelopes buffered
    for the new epoch, which may apply further commits; rebasing a pending
    operation may commit at once when batching is disabled.  These calls back
    into the handlers go through [self]; [CoordMessage] ties the knot with a
    bound on the depth. *)
From S2P Require Import Prelude Sha256 Types Config Hlc Epoch ActiveView SingleWriter.
From S2P Require Import ForkDetector Helpers Database Store HealStore Coordinator.
From S2P Require Import CoordBroadcast CoordApplication.

(** The handlers that are called back. *)
Inductive Call :=
| CallProposal (from : peerID) (env : Envelope)
| CallCommit (env : Envelope) (wire : bytes)
| CallApplication (from : peerID) (env : Envelope) (wire : bytes)
| CallBatched (from : peerID) (env : Envelope) (wire : bytes)
| CallTryCommit.

Section Commit.
Context {PC : PeerCodec} {WC : WireCodec}.
Variable self : Call -> C bool.

(** ** Timers *)

(** [bootstrapGraceRemainingLocked] *)
Definition bootstrapGraceRemainingLocked : C duration :=
  cfg <-- opts o_Config ;
  startedAt <-- gets c_startedAt ;
  let grace := Config.ViewBootstrapGrace cfg in
  if (grace <=? 0) || time_IsZero startedAt then ret 0
  else
    t <-- now ;
    let elapsed := time_Sub t startedAt in
    ret (if grace <=? elapsed then 0 else grace - elapsed).

(** [commitViewReadyLocked] *)
Definition commitViewReadyLocked (batch : list BufferedProposal) : C bool :=
  remaining <-- bootstrapGraceRemainingLocked ;
  if remaining <=? 0 then ret true
  else
    c <-- gets (fun c => c) ;
    if ActiveView.Size (c_activeView c) >? 1 then ret true
    else
      provider <-- opts o_AuthorizedCommitters ;
      match provider with
      | None => ret true
      | Some f =>
          gid <-- opts o_GroupID ;
          local <-- opts o_LocalID ;
          authorized <-- ask (fun _ t => f t gid (c_epoch c) batch) ;
          match authorized with
          | inr _ => ret true
          | inl ids =>
              let removed : gset peerID := list_to_set (omap (fun p =>
                if negb (bp_Type p =? ProposalRemove) || str_eqb (bp_TargetPeerID p) "" then None
                else peer_Decode (bp_TargetPeerID p)) batch) in
              ret (negb (existsb (fun id => negb (str_eqb id "") && negb (str_eqb id local) &&
                                            negb (bool_decide (id ∈ removed))) ids))
          end
      end.

(** A new timer; its number is the instant it was started. *)
Definition start_timer : C nat := ask (fun _ t => t).

(** [deferCommitUntilViewReadyLocked] *)
Definition deferCommitUntilViewReadyLocked : C unit :=
  timer <-- gets c_proposalTimer ;
  match timer with
  | Some _ => ret tt
  | None =>
      cfg <-- opts o_Config ;
      d0 <-- bootstrapGraceRemainingLocked ;
      let d1 := if d0 <=? 0 then Config.BatchingDelay cfg else d0 in
      let delay := if d1 <=? 0 then 10 * Millisecond else d1 in
      ch <-- start_timer ;
      modify (set_c_proposalTimer (Some ch)) ;;;
      go (TDeferTimer ch delay)
  end.

(** [scheduleBatchCommitLocked] *)
Definition scheduleBatchCommitLocked : C unit :=
  timer <-- gets c_proposalTimer ;
  match timer with
  | Some _ => ret tt
  | None =>
      cfg <-- opts o_Config ;
      let delay := Config.BatchingDelay cfg in
      if delay <=? 0 then self CallTryCommit ;;; ret tt
      else
        ch <-- start_timer ;
        modify (set_c_proposalTimer (Some ch)) ;;;
        go (TBatchTimer ch delay)
  end.

(** [scheduleFailoverTimerLocked] *)
Definition scheduleFailoverTimerLocked : C unit :=
  timer <-- gets c_failoverTimer ;
  sw <-- gets c_singleWriter ;
  match timer, sw with
  | Some _, _ => ret tt
  | None, None => ret tt
  | None, Some s =>
      if SingleWriter.ProposalCount s =? 0 then ret tt
      else
        holder <-- sw_IsTokenHolder ;
        if holder : bool then ret tt
        else
          cfg <-- opts o_Config ;
          let delay := if Config.TokenHolderTimeout cfg <=? 0 then 5 * Second else Config.TokenHolderTimeout cfg in
          ch <-- start_timer ;
          modify (set_c_failoverTimer (Some ch)) ;;;
          go (TFailoverTimer ch delay)
  end.

(** ** Local proposals *)

(** [createAndStoreLocalProposalLocked] *)
Definition createAndStoreLocalProposalLocked (pType : ProposalType) (data : bytes) (meta : BufferedProposal)
  : C (result (ProposalMsg * BufferedProposal)) :=
  gs <-- gets c_groupState ;
  r <-- mls (fun e t => mls_CreateProposal e t (default [] gs) pType data) ;
  match r with
  | inr e => ret (inr e)
  | inl res =>
      saved <-- persistCurrentEpochStateLocked (cpr_NewGroupState res) ;
      match saved with
      | inr e => ret (inr e)
      | inl _ =>
          modify (set_c_groupState (Some (cpr_NewGroupState res))) ;;;
          ret (inl (mkProposalMsg pType (cpr_ProposalBytes res) (cpr_ProposalRef res) (bp_OperationID meta)
                      (bp_TargetPeerID meta) [] (bp_RequestID meta) (bp_GroupType meta)
                      (bp_CategoryID meta) (bp_KeyPackageHash meta),
                    mkBufferedProposal pType (cpr_ProposalBytes res) (cpr_ProposalRef res)
                      (bp_OperationID meta) (bp_TargetPeerID meta) (bp_RequestID meta)
                      (bp_GroupType meta) (bp_CategoryID meta) (bp_KeyPackageHash meta)))
      end
  end.

Definition no_meta : BufferedProposal := mkBufferedProposal 0 [] [] "" "" "" "" "" [].

(** [if c.singleWriter.IsTokenHolder() { c.scheduleBatchCommitLocked() }] *)
Definition schedule_if_holder : C unit :=
  holder <-- sw_IsTokenHolder ;
  when holder scheduleBatchCommitLocked.

(** ... [else { c.scheduleFailoverTimerLocked() }] *)
Definition schedule_commit_or_failover : C unit :=
  holder <-- sw_IsTokenHolder ;
  if holder : bool then scheduleBatchCommitLocked else scheduleFailoverTimerLocked.

(** [proposeLockedWithMetadata] *)
Definition proposeLockedWithMetadata (pType : ProposalType) (data : bytes) (meta : BufferedProposal)
  : C (result unit) :=
  started <-- gets c_started ;
  revoked <-- gets c_accessRevoked ;
  if negb started then ret (inr (ErrText "coordinator not started"))
  else if revoked : bool then ret (inr ErrAccessRevoked)
  else
    r <-- createAndStoreLocalProposalLocked pType data meta ;
    match r with
    | inr e => ret (inr (ErrWrap "CreateProposal" e))
    | inl (msg, buffered) =>
        broadcastLocked MsgProposal (PProposal msg) ;;;
        sw_BufferProposal buffered ;;;
        scheduleFailoverTimerLocked ;;;
        metric Metrics.IncrProposalsReceived ;;;
        cb <-- opts o_OnProposalObserved ;
        gid <-- opts o_GroupID ;
        local <-- opts o_LocalID ;
        epoch <-- gets c_epoch ;
        when cb (emit (EProposalObserved (mkProposalAuditSummary gid epoch (peer_String local) pType ""
          (bp_TargetPeerID meta) "" "" "" []))) ;;;
        schedule_if_holder ;;;
        ret (inl tt)
    end.

(** [ProposeAdd], [ProposeRemove], [ProposeUpdate] *)
Definition propose (pType : ProposalType) (data : bytes) : C (result unit) :=
  proposeLockedWithMetadata pType data no_meta.
Definition ProposeAdd (memberData : bytes) : C (result unit) := propose ProposalAdd memberData.
Definition ProposeRemove (memberData : bytes) : C (result unit) := propose ProposalRemove memberData.
Definition ProposeUpdate (data : bytes) : C (result unit) := propose ProposalUpdate data.

(** ** Receiving proposals *)

(** The interception of [ProposalJoin]: Remove of the stale leaf if it is
    still in the tree, then Add of the fresh key package. *)
Definition handleProposalJoin (env : Envelope) (proposal : ProposalMsg) : C unit :=
  cfg <-- opts o_Config ;
  c <-- gets (fun c => c) ;
  if u64 (env_Epoch env + Config.GetMaxPastEpochs cfg) <? c_epoch c then ret tt
  else if is_empty (default [] (c_groupState c)) then ret tt
  else
    let targetIdentity := if is_empty (pm_TargetIdentity proposal) then str_bytes (pm_TargetPeerID proposal)
                          else pm_TargetIdentity proposal in
    member <-- mls (fun e t => mls_HasMember e t (default [] (c_groupState c)) targetIdentity) ;
    (match member with
     | inl true =>
         r <-- createAndStoreLocalProposalLocked ProposalRemove targetIdentity
           (mkBufferedProposal 0 [] [] "" (pm_TargetPeerID proposal) "" "" "" []) ;
         match r with inl (_, bufferedRemove) => sw_BufferProposal bufferedRemove | inr _ => ret tt end
     | _ => ret tt
     end) ;;;
    r <-- createAndStoreLocalProposalLocked ProposalAdd (pm_Data proposal)
      (mkBufferedProposal 0 [] [] (pm_OperationID proposal) (pm_TargetPeerID proposal) (pm_RequestID proposal)
         (pm_GroupType proposal) (pm_CategoryID proposal) (pm_KeyPackageHash proposal)) ;
    (match r with inl (_, bufferedAdd) => sw_BufferProposal bufferedAdd | inr _ => ret tt end) ;;;
    gs <-- gets c_groupState ;
    if is_empty (default [] gs) then ret tt else schedule_commit_or_failover.

(** [handleProposalLocked] *)
Definition handleProposalLocked (from : peerID) (env : Envelope) : C unit :=
  match dec_proposal (env_Payload env) with
  | inr _ => ret tt
  | inl proposal =>
      gs <-- gets c_groupState ;
      if bool_decide (gs = None) && negb (pm_ProposalType proposal =? ProposalJoin) then ret tt
      else if pm_ProposalType proposal =? ProposalJoin then handleProposalJoin env proposal
      else
        et <-- the_epochTracker ;
        match Epoch.Validate (env_Epoch env) et with
        | ActionRejectStale => ret tt
        | ActionBufferFuture => set_epochTracker (Epoch.BufferFuture (env_Epoch env) (enc_envelope env) et)
        | ActionProcess =>
            r <-- mls (fun e t => mls_ProcessProposal e t (default [] gs) (pm_Data proposal)) ;
            match r with
            | inr _ => ret tt
            | inl processed =>
                let ref := if is_empty (pm_ProposalRef proposal) then ppr_ProposalRef processed else pm_ProposalRef proposal in
                if negb (bytes_eqb ref (ppr_ProposalRef processed)) then ret tt
                else
                  saved <-- persistCurrentEpochStateLocked (ppr_NewGroupState processed) ;
                  match saved with
                  | inr _ => ret tt
                  | inl _ =>
                      modify (set_c_groupState (Some (ppr_NewGroupState processed))) ;;;
                      sw_BufferProposal (mkBufferedProposal (pm_ProposalType proposal) (pm_Data proposal) ref
                        (pm_OperationID proposal) (pm_TargetPeerID proposal) (pm_RequestID proposal)
                        (pm_GroupType proposal) (pm_CategoryID proposal) (pm_KeyPackageHash proposal)) ;;;
                      scheduleFailoverTimerLocked ;;;
                      metric Metrics.IncrProposalsReceived ;;;
                      cb <-- opts o_OnProposalObserved ;
                      gid <-- opts o_GroupID ;
                      when cb (emit (EProposalObserved (mkProposalAuditSummary gid (env_Epoch env)
                        (peer_String from) (pm_ProposalType proposal) (pm_OperationID proposal)
                        (pm_TargetPeerID proposal) (pm_RequestID proposal) (pm_GroupType proposal)
                        (pm_CategoryID proposal) (pm_KeyPackageHash proposal)))) ;;;
                      schedule_if_holder
                  end
            end
        end
  end.

(** ** Pending operations after a commit *)

(** [emitPendingOperationAuditLocked] *)
Definition emitPendingOperationAuditLocked (s : PendingOperationAuditSummary) : C unit :=
  cb <-- opts o_OnPendingOperationAudit ;
  when cb (go (TPendingAudit s)).

(** [derefString] *)
Definition derefString (v : option string) : string := default "" v.

(** [*op.TargetMemberID]: a nil pointer panics. *)
Definition deref_target (op : PendingOperation) : C string :=
  match po_TargetMemberID op with None => panic | Some s => ret s end.

(** [SavePendingOperation] whose error is only logged. *)
Definition save_op (op : PendingOperation) : C unit := db (HealStore.SavePendingOperation op) ;;; ret tt.

Definition op_open (op : PendingOperation) : bool :=
  str_eqb (po_Status op) "PENDING" || str_eqb (po_Status op) "PROPOSED".

Definition settle_op (own : bool) (op : PendingOperation) : C unit :=
  t <-- now ;
  save_op (set_po_UpdatedAt t (set_po_Status (if own then "COMMITTED" else "SATISFIED_BY_OTHER") op)).

(** The deliveries, up to the first that settles the operation. *)
Fixpoint settle_add (op : PendingOperation) (ds : list AddCommitDelivery) : C unit :=
  match ds with
  | [] => ret tt
  | d :: rest =>
      if str_eqb (ad_OperationID d) (po_OperationID op) then settle_op true op
      else
        target <-- deref_target op ;
        if str_eqb (ad_TargetPeerID d) target then settle_op false op else settle_add op rest
  end.

Fixpoint settle_remove (op : PendingOperation) (ps : list ProposalMsg) : C unit :=
  match ps with
  | [] => ret tt
  | p :: rest =>
      if negb (pm_ProposalType p =? ProposalRemove) then settle_remove op rest
      else
        target <-- deref_target op ;
        if str_eqb (pm_TargetPeerID p) target
        then settle_op (str_eqb (pm_OperationID p) (po_OperationID op)) op
        else settle_remove op rest
  end.

Definition reconcile_op (commit : CommitMsg) (op : PendingOperation) : C unit :=
  if negb (op_open op) then ret tt
  else if str_eqb (po_OpType op) "ADD_MEMBER" then settle_add op (cm_AddDeliveries commit)
  else if str_eqb (po_OpType op) "REMOVE_MEMBER" then settle_remove op (cm_IncludedProposals commit)
  else ret tt.

(** Targets added and removed by the commit, and the operations it carries. *)
Definition added_targets (commit : CommitMsg) : gset string :=
  list_to_set (ad_TargetPeerID <$> filter (fun d => ad_TargetPeerID d <> "") (cm_AddDeliveries commit)).
Definition removed_targets (commit : CommitMsg) : gset string :=
  list_to_set (pm_TargetPeerID <$> filter (fun p => pm_ProposalType p = ProposalRemove /\ pm_TargetPeerID p <> "")
    (cm_IncludedProposals commit)).
Definition committed_ops (commit : CommitMsg) : gset string :=
  list_to_set ((ad_OperationID <$> filter (fun d => ad_TargetPeerID d <> "") (cm_AddDeliveries commit)) ++
    (pm_OperationID <$> filter (fun p => pm_ProposalType p = ProposalRemove /\ pm_TargetPeerID p <> "")
       (cm_IncludedProposals commit))).

Definition supersede_op (commit : CommitMsg) (op : PendingOperation) : C unit :=
  if negb (str_eqb (po_Status op) "COMMITTED") && negb (str_eqb (po_Status op) "SATISFIED_BY_OTHER") then ret tt
  else if str_eqb (derefString (po_TargetMemberID op)) "" then ret tt
  else if bool_decide (po_OperationID op ∈ committed_ops commit) then ret tt
  else
    let target := derefString (po_TargetMemberID op) in
    let stale := (bool_decide (target ∈ removed_targets commit) && str_eqb (po_OpType op) "ADD_MEMBER") ||
                 (bool_decide (target ∈ added_targets commit) && str_eqb (po_OpType op) "REMOVE_MEMBER") in
    if negb stale then ret tt
    else
      t <-- now ;
      save_op (set_po_UpdatedAt t (set_po_IdempotencyKey None (set_po_Status "SUPERSEDED" op))) ;;;
      gid <-- opts o_GroupID ;
      epoch <-- gets c_epoch ;
      emitPendingOperationAuditLocked (mkPendingOperationAuditSummary gid (po_OperationID op) (po_OpType op)
        target "superseded" 0 epoch 0 "").

(** [supersedeStaleMembershipOpsLocked] *)
Definition supersedeStaleMembershipOpsLocked (commit : CommitMsg) : C unit :=
  if bool_decide (added_targets commit ∪ removed_targets commit = ∅) then ret tt
  else
    gid <-- opts o_GroupID ;
    ops <-- db (HealStore.ListPendingOperations gid) ;
    match ops with
    | inr _ => ret tt
    | inl ops => for_each ops (supersede_op commit)
    end.

(** An own message of the previous epoch, sealed and kept for replay. *)
Definition keep_own_message (key : bytes) (m : StoredMessage) : C unit :=
  epoch <-- gets c_epoch ;
  if negb (sm_Epoch m =? u64 (epoch - 1)) then ret tt
  else
    sealed <-- sealPayload (sm_Content m) key ;
    match sealed with
    | inr _ => ret tt
    | inl (payload, nonce) =>
        gid <-- opts o_GroupID ;
        local <-- opts o_LocalID ;
        t1 <-- now ;
        t2 <-- now ;
        db (HealStore.SaveApplicationEvent (mkApplicationEvent (hex_EncodeToString (sm_EnvelopeHash m))
          ("COMMIT-RECONCILE-" +:+ gid) gid "" (sm_Epoch m) (peer_String local) (sm_EnvelopeHash m)
          payload (sha256_sum (sm_Content m)) "local_node_key" nonce (WallTimeMs (sm_Timestamp m))
          (Counter (sm_Timestamp m)) (NodeID (sm_Timestamp m)) "ORPHANED_OWN" "" [] 0 0 ""
          (UnixMilli t1) (UnixMilli t2))) ;;; ret tt
    end.

(** [reconcileOperationsAfterCommitLocked]; the pass over the pending
    envelopes only reads. *)
Definition reconcileOperationsAfterCommitLocked (commit : CommitMsg) : C unit :=
  gid <-- opts o_GroupID ;
  ops <-- db (HealStore.ListPendingOperations gid) ;
  match ops with
  | inr _ => ret tt
  | inl ops =>
      for_each ops (reconcile_op commit) ;;;
      supersedeStaleMembershipOpsLocked commit ;;;
      key <-- opts o_SigningKey ;
      db (Store.GetPendingEnvelopes gid 1000) ;;;
      local <-- opts o_LocalID ;
      t <-- now ;
      own <-- db (Store.GetMessagesByOwnerInRange gid (peer_String local) 0 (UnixMilli t)) ;
      for_each (match own with inl ms => ms | inr _ => [] end) (keep_own_message (deriveStorageKey key))
  end.

(** The operation as it is re-proposed in the current epoch: the error, or the
    digest of the new proposal. *)
Definition repropose_op (op : PendingOperation) : C (option (result bytes)) :=
  let with_meta pType meta :=
    r <-- createAndStoreLocalProposalLocked pType (po_SemanticPayload op) meta ;
    match r with
    | inr e => ret (Some (inr e))
    | inl (msg, buffered) =>
        broadcastLocked MsgProposal (PProposal msg) ;;;
        sw_BufferProposal buffered ;;;
        schedule_commit_or_failover ;;;
        ret (Some (inl (sha256_sum (pm_Data msg))))
    end in
  if str_eqb (po_OpType op) "ADD_MEMBER" then
    target <-- deref_target op ;
    with_meta ProposalAdd (mkBufferedProposal 0 [] [] (po_OperationID op) target "" "" "" (po_OperationHash op))
  else if str_eqb (po_OpType op) "REMOVE_MEMBER" then
    target <-- deref_target op ;
    with_meta ProposalRemove (mkBufferedProposal 0 [] [] (po_OperationID op) target "" "" "" [])
  else ret None.

Definition audit_op (op : PendingOperation) (stage : string) (retry precondition : Z) (err : string) : C unit :=
  gid <-- opts o_GroupID ;
  epoch <-- gets c_epoch ;
  emitPendingOperationAuditLocked (mkPendingOperationAuditSummary gid (po_OperationID op) (po_OpType op)
    (derefString (po_TargetMemberID op)) stage retry epoch precondition err).

(** An operation proposed in an earlier epoch. *)
Definition rebase_op (op : PendingOperation) (precondition : Z) : C unit :=
  cfg <-- opts o_Config ;
  let limit := Config.ApplicationDirectRetryLimit cfg in
  let maxRetries := if limit <=? 0 then 5 else limit in
  if maxRetries <=? po_RetryCount op then
    t <-- now ;
    save_op (set_po_UpdatedAt t (set_po_LastError (Some "max retries exceeded")
      (set_po_Status "FAILED_RETRY_EXHAUSTED" op))) ;;;
    audit_op op "retry_exhausted" (po_RetryCount op) 0 "max retries exceeded"
  else
    epoch <-- gets c_epoch ;
    t <-- now ;
    let op := set_po_UpdatedAt t (set_po_PreconditionEpoch (Some epoch) (set_po_RetryCount (po_RetryCount op + 1) op)) in
    r <-- repropose_op op ;
    match r with
    | None => ret tt
    | Some (inl h) =>
        let op := set_po_Status "PROPOSED" (set_po_LatestProposalHash h op) in
        dbOp <-- db (HealStore.GetPendingOperation (po_OperationID op)) ;
        match dbOp with
        | inl o =>
            if str_eqb (po_Status o) "COMMITTED" || str_eqb (po_Status o) "SATISFIED_BY_OTHER" then
              save_op (set_po_LastError (po_LastError o) (set_po_UpdatedAt (po_UpdatedAt o)
                (set_po_Status (po_Status o) op)))
            else
              save_op (set_po_LastError None op) ;;;
              audit_op op "rebased" (po_RetryCount op) precondition ""
        | inr _ =>
            save_op (set_po_LastError None op) ;;;
            audit_op op "rebased" (po_RetryCount op) precondition ""
        end
    | Some (inr e) =>
        save_op (set_po_LastError (Some (err_Error e)) op) ;;;
        audit_op op "rebase_failed" (po_RetryCount op) precondition (err_Error e)
    end.

(** Whether a removal is already in effect, by MLS membership. *)
Definition op_satisfied (op : PendingOperation) : C bool :=
  if negb (str_eqb (derefString (po_TargetMemberID op)) "") && str_eqb (po_OpType op) "REMOVE_MEMBER" &&
     negb (is_empty (po_SemanticPayload op)) then
    gs <-- gets c_groupState ;
    r <-- mls (fun e t => mls_HasMember e t (default [] gs) (po_SemanticPayload op)) ;
    ret (match r with inl isMember => negb isMember | inr _ => false end)
  else ret false.

Definition rebase_one (op : PendingOperation) : C unit :=
  if negb (op_open op) then ret tt
  else
    expired <-- (match po_ExpiresAt op with
                 | Some e => if e >? 0 then t <-- now ; ret (Unix t >? e) else ret false
                 | None => ret false
                 end) ;
    if expired : bool then
      t <-- now ;
      save_op (set_po_UpdatedAt t (set_po_LastError (Some "operation TTL expired")
        (set_po_Status "FAILED_EXPIRED" op)))
    else
      satisfied <-- op_satisfied op ;
      if satisfied : bool then
        t <-- now ;
        save_op (set_po_UpdatedAt t (set_po_Status "SATISFIED_BY_OTHER" op))
      else
        epoch <-- gets c_epoch ;
        match po_PreconditionEpoch op with
        | Some p => if p <? epoch then rebase_op op p else ret tt
        | None => ret tt
        end.

(** [reconcileAndRebaseOperationsLocked] *)
Definition reconcileAndRebaseOperationsLocked : C unit :=
  gid <-- opts o_GroupID ;
  ops <-- db (HealStore.ListPendingOperations gid) ;
  match ops with
  | inr _ => ret tt
  | inl ops => for_each ops rebase_one ;;; schedule_if_holder
  end.

(** ** Advancing the epoch *)

(** An envelope that was buffered for the new epoch. *)
Definition handle_buffered (raw : bytes) : C unit :=
  match dec_envelope raw with
  | inr _ => ret tt
  | inl env =>
      let from := decodeEnvelopePeerID (env_From env) "" in
      if str_eqb (env_Type env) MsgProposal then self (CallProposal from env) ;;; ret tt
      else if str_eqb (env_Type env) MsgCommit then self (CallCommit env raw) ;;; ret tt
      else if str_eqb (env_Type env) MsgApplication then self (CallApplication from env raw) ;;; ret tt
      else if str_eqb (env_Type env) MsgApplicationBatched then self (CallBatched from env raw) ;;; ret tt
      else ret tt
  end.

(** The history chain after a commit: [R(E) = H(R(E-1) || CommitHash(E))]. *)
Definition advance_history (groupID : string) (newEpoch : Z) (commitHash : bytes) (c : Coord) : Coord :=
  let '(prev, chain) :=
    match c_historyHash c with
    | Some h => (h, c_historyChain c)
    | None => let h := ForkDetector.initialHistoryHash groupID in
              (h, <[u64 (newEpoch - 1) := h]> (c_historyChain c))
    end in
  let h := ForkDetector.computeHistoryHash prev commitHash in
  set_c_historyChain (<[newEpoch := h]> chain) (set_c_historyHash (Some h) c).

(** The state changes of [advanceEpochLocked], up to the buffered envelopes,
    which it returns. *)
Definition advance_state (newState : bytes) (newEpoch : Z) (newTreeHash commitData : bytes) : C (list bytes) :=
  modify (fun c => set_c_treeHash newTreeHash (set_c_epoch newEpoch (set_c_groupState (Some newState) c))) ;;;
  et <-- the_epochTracker ;
  let '(buffered, et') := Epoch.Advance newEpoch newTreeHash et in
  set_epochTracker et' ;;;
  sw <-- the_singleWriter ;
  set_singleWriter (SingleWriter.AdvanceEpoch newEpoch sw) ;;;
  holder <-- sw_CurrentTokenHolder ;
  (match holder with inl h => modify (set_c_lastTokenHolder h) | inr _ => ret tt end) ;;;
  modify (set_c_proposalTimer None) ;;;
  modify (set_c_failoverTimer None) ;;;
  gid <-- opts o_GroupID ;
  let commitHash := ForkDetector.hashCommitData commitData in
  modify (set_c_lastCommitHash commitHash) ;;;
  modify (advance_history gid newEpoch commitHash) ;;;
  c <-- gets (fun c => c) ;
  modify (fun c => set_c_forkDetector (ForkDetector.UpdateLocal
    (mkGroupStateAnnouncement newTreeHash (ActiveView.Size (c_activeView c)) newEpoch commitHash
       (default [] (c_historyHash c))) (c_forkDetector c)) c) ;;;
  persistCoordStateLocked ;;;
  cb <-- opts o_OnEpochChange ;
  when cb (emit (EEpochChange newEpoch)) ;;;
  ret buffered.

(** [advanceEpochLocked] *)
Definition advanceEpochLocked (newState : bytes) (newEpoch : Z) (newTreeHash commitData : bytes) : C unit :=
  buffered <-- advance_state newState newEpoch newTreeHash commitData ;
  for_each buffered handle_buffered.

(** ** Committing *)

(** [emitCommitIssuedLocked] *)
Definition emitCommitIssuedLocked (prevEpoch newEpoch : Z) (batch : list BufferedProposal) : C unit :=
  cb <-- opts o_OnCommitIssued ;
  gid <-- opts o_GroupID ;
  local <-- opts o_LocalID ;
  when cb (emit (ECommitIssued (mkCommitAuditSummary gid (peer_String local) prevEpoch newEpoch
    (Helpers.summarizeBufferedProposal <$> batch)))).

(** The commit message for a batch. *)
Definition commit_message (batch : list BufferedProposal) (res : CreateCommitResult) : CommitMsg :=
  let committedRefs := if is_empty (ccr_CommittedProposalRefs res) then bp_ProposalRef <$> batch
                       else ccr_CommittedProposalRefs res in
  mkCommitMsg (ccr_CommitBytes res) [] (ccr_NewTreeHash res)
    (if Helpers.batchContainsType batch ProposalAdd
     then Helpers.buildAddDeliveriesFromBatch batch (ccr_WelcomeBytes res) else [])
    (Helpers.proposalMsgsFromBatch batch) (Helpers.cloneBytesList committedRefs).

(** Encode the commit as an envelope and store it with the state it leads to;
    the result is the envelope that has been stored. *)
Definition store_commit (res : CreateCommitResult) (commitMsg : CommitMsg) : C (result bytes) :=
  ts <-- hlc_Now ;
  envBytes <-- buildEnvelopeWithTimestampLocked MsgCommit (PCommit commitMsg) ts ;
  if is_empty envBytes then ret (inr (ErrText "failed to encode commit envelope"))
  else
    epoch <-- gets c_epoch ;
    t <-- now ;
    gid <-- opts o_GroupID ;
    applied <-- db (Store.ApplyCommit
      (mkGroupRecord gid (ccr_NewGroupState res) (u64 (epoch + 1)) (ccr_NewTreeHash res) "" "" "" "" time_zero t)
      MsgCommit envBytes ts epoch) ;
    ret (match applied with
         | inr e => inr (ErrWrap "persist commit" e)
         | inl (false, _) => inr (ErrText "commit envelope already applied")
         | inl (true, _) => inl envBytes
         end).

(** Drain the committed proposals, publish the stored envelope and move to
    the new epoch; the result is what was drained. *)
Definition publish_commit (res : CreateCommitResult) (commitMsg : CommitMsg) (envBytes : bytes) (nextEpoch : Z)
  : C (list BufferedProposal) :=
  sw <-- the_singleWriter ;
  let '(drained, sw') := SingleWriter.DrainBatchByRefs (cm_CommittedProposalRefs commitMsg) sw in
  set_singleWriter sw' ;;;
  publishPreparedEnvelopeLocked MsgCommit envBytes ;;;
  advanceEpochLocked (ccr_NewGroupState res) nextEpoch (ccr_NewTreeHash res) (ccr_CommitBytes res) ;;;
  ret drained.

(** Revocation check, counters and audit after a commit of this node. *)
Definition account_commit (res : CreateCommitResult) (prevEpoch nextEpoch : Z) (batch : list BufferedProposal) : C unit :=
  updateLocalAccessRevocationLocked (ccr_NewGroupState res) nextEpoch ;;;
  metric Metrics.IncrCommitsIssued ;;;
  metric (Metrics.AddCommitBytes (Z.of_nat (length (ccr_CommitBytes res)))) ;;;
  emitCommitIssuedLocked prevEpoch nextEpoch batch.

(** What [doCommitBatchLocked] does once the commit is durable. *)
Definition finish_commit (batch : list BufferedProposal) (res : CreateCommitResult) (commitMsg : CommitMsg)
  (envBytes : bytes) (prevEpoch nextEpoch : Z) : C unit :=
  drained <-- publish_commit res commitMsg envBytes nextEpoch ;
  let batch := if is_empty drained then batch else drained in
  reconcileOperationsAfterCommitLocked commitMsg ;;;
  gid <-- opts o_GroupID ;
  go (TBatchReplay gid) ;;;
  reconcileAndRebaseOperationsLocked ;;;
  account_commit res prevEpoch nextEpoch batch ;;;
  cb <-- opts o_OnAddCommitted ;
  when (Helpers.batchContainsType batch ProposalAdd && cb && negb (is_empty (cm_AddDeliveries commitMsg)))
    (go (TAddCommitted (cm_AddDeliveries commitMsg) nextEpoch (ccr_WelcomeBytes res))).

(** [doCommitBatchLocked]; the errors of the steps end the call silently. *)
Definition doCommitBatchLocked (batch : list BufferedProposal) : C unit :=
  c <-- gets (fun c => c) ;
  if is_empty (default [] (c_groupState c)) then ret tt
  else
    r <-- mls (fun e t => mls_CreateCommit e t (default [] (c_groupState c)) (bp_ProposalRef <$> batch)) ;
    match r with
    | inr _ => ret tt
    | inl res =>
        let commitMsg := commit_message batch res in
        stored <-- store_commit res commitMsg ;
        match stored with
        | inr _ => ret tt
        | inl envBytes => finish_commit batch res commitMsg envBytes (c_epoch c) (u64 (c_epoch c + 1))
        end
    end.

(** [tryCommitLocked] *)
Definition tryCommitLocked : C unit :=
  holder <-- sw_IsTokenHolder ;
  if negb holder then ret tt
  else
    gs <-- gets c_groupState ;
    if is_empty (default [] gs) then ret tt
    else
      sw <-- the_singleWriter ;
      cfg <-- opts o_Config ;
      let batch := SingleWriter.SnapshotNextBatch cfg sw in
      if is_empty batch then ret tt
      else
        ready <-- commitViewReadyLocked batch ;
        if negb ready then deferCommitUntilViewReadyLocked
        else doCommitBatchLocked batch.

(** ** Receiving commits *)

(** The check that the sender of a commit that carries proposals is the token
    holder for them. *)
Definition commit_sender_ok (env : Envelope) (batch : list BufferedProposal) : C bool :=
  if is_empty batch then ret true
  else
    let sender := decodeEnvelopePeerID (env_From env) "" in
    if str_eqb sender "" then ret true
    else
      holder <-- sw_HolderForBatch batch ;
      match holder with
      | inr _ => ret false
      | inl h => ret (str_eqb sender h && negb (Helpers.removesPeer batch sender))
      end.

(** What [handleCommitLocked] does once the commit is durable. *)
Definition finish_received_commit (commit : CommitMsg) (newState newTreeHash : bytes) (nextEpoch : Z)
  (start : time) : C unit :=
  advanceEpochLocked newState nextEpoch newTreeHash (cm_CommitData commit) ;;;
  sw <-- the_singleWriter ;
  set_singleWriter (SingleWriter.DrainBatchByRefs (cm_CommittedProposalRefs commit) sw).2 ;;;
  (if is_empty (cm_IncludedProposals commit) then ret tt
   else
     sw <-- the_singleWriter ;
     set_singleWriter (SingleWriter.DrainBatchByData
       (filter (fun d => d <> []) (pm_Data <$> cm_IncludedProposals commit)) sw).2) ;;;
  reconcileOperationsAfterCommitLocked commit ;;;
  gid <-- opts o_GroupID ;
  go (TBatchReplay gid) ;;;
  reconcileAndRebaseOperationsLocked ;;;
  updateLocalAccessRevocationLocked newState nextEpoch ;;;
  t <-- now ;
  metric (Metrics.RecordEpochFinalization (time_Sub t start)) ;;;
  cb <-- opts o_OnAddCommitted ;
  when (negb (is_empty (cm_AddDeliveries commit)) && cb)
    (go (TAddCommitted (cm_AddDeliveries commit) nextEpoch [])).

(** The part of [handleCommitLocked] after the epoch and duplicate checks. *)
Definition applyCommitLocked (env : Envelope) (wire : bytes) (commit : CommitMsg) : C bool :=
  let commitHash := ForkDetector.hashCommitData (cm_CommitData commit) in
  let invalid := markInvalidCommitLocked commitHash ;;; ret false in
  start <-- now ;
  let batch := Helpers.bufferedBatchFromProposalMsgs (cm_IncludedProposals commit) in
  let included := Helpers.proposalBytesFromMsgs (cm_IncludedProposals commit) in
  gs <-- gets c_groupState ;
  staged <-- mls (fun e t => mls_StageCommit e t (default [] gs) (cm_CommitData commit) included) ;
  match staged with
  | inr _ => invalid
  | inl staged =>
      if negb (is_empty (cm_CommittedProposalRefs commit)) &&
         negb (Helpers.proposalRefSetsEqual (scr_ProposalRefs staged) (cm_CommittedProposalRefs commit))
      then invalid
      else
        senderOk <-- commit_sender_ok env batch ;
        if negb senderOk then invalid
        else
          processed <-- mls (fun e t => mls_ProcessCommit e t (default [] gs) (cm_CommitData commit) included) ;
          match processed with
          | inr _ => invalid
          | inl (newState, newTreeHash) =>
              epoch <-- gets c_epoch ;
              let nextEpoch := u64 (epoch + 1) in
              t <-- now ;
              gid <-- opts o_GroupID ;
              applied <-- db (Store.ApplyCommit
                (mkGroupRecord gid newState nextEpoch newTreeHash "" "" "" "" time_zero t)
                (env_Type env) wire (env_Timestamp env) (env_Epoch env)) ;
              match applied with
              | inl (true, _) =>
                  finish_received_commit commit newState newTreeHash nextEpoch start ;;; ret true
              | _ => ret false
              end
          end
  end.

(** [handleCommitLocked] *)
Definition handleCommitLocked (env : Envelope) (wire : bytes) : C bool :=
  et <-- the_epochTracker ;
  match Epoch.Validate (env_Epoch env) et with
  | ActionRejectStale => metric Metrics.IncrDuplicateEpochDetected ;;; ret false
  | ActionBufferFuture => set_epochTracker (Epoch.BufferFuture (env_Epoch env) wire et) ;;; ret false
  | ActionProcess =>
      match dec_commit (env_Payload env) with
      | inr _ => ret false
      | inl commit =>
          chk <-- checkAppliedEnvelopeLocked env wire ;
          if chk.2 : bool then ret false else applyCommitLocked env wire commit
      end
  end.

End Commit.
