(* ===== verification/CoordMessage.v ===== *)
(** * Coordinator: dispatch, fork events, replay and life cycle

    [coordination/coordinator_message.go], the scheduling half of
    [coordinator_heal.go], [coordinator_replay.go], the timers of
    [coordinator_commit.go] and the life cycle of [coordinator.go].

    [run] ties the knot of the handlers that call each other: its first
    argument bounds the depth of nested calls. *)
From S2P Require Import Prelude Sha256 Types Config Hlc Epoch ActiveView SingleWriter.
From S2P Require Import ForkDetector Helpers Database Store HealStore Coordinator.
From S2P Require Import CoordBroadcast CoordApplication CoordCommit.

Section Message.
Context {PC : PeerCodec} {WC : WireCodec}.

(** ** The knot *)

Definition dispatch (self : Call -> C bool) (call : Call) : C bool :=
  match call with
  | CallProposal from env => handleProposalLocked self from env ;;; ret false
  | CallCommit env wire => handleCommitLocked self env wire
  | CallApplication from env wire => handleApplicationLocked from env wire
  | CallBatched from env wire => handleApplicationBatchedLocked from env wire
  | CallTryCommit => tryCommitLocked self ;;; ret false
  end.

Fixpoint run (fuel : nat) (call : Call) : C bool :=
  match fuel with
  | O => no_fuel
  | S fuel => dispatch (run fuel) call
  end.

(** ** Liveness observations *)

(** [observePeerAliveLocked] *)
Definition observePeerAliveLocked (from : peerID) : C unit :=
  local <-- opts o_LocalID ;
  if str_eqb from "" || str_eqb from local then ret tt
  else
    av <-- gets c_activeView ;
    let '(fresh, change, av') := ActiveView.RecordHeartbeat from av in
    modify (set_c_activeView av') ;;;
    (match change with Some members => go (TViewChange members) | None => ret tt end) ;;;
    cb <-- opts o_OnPeerObserved ;
    if negb fresh || negb cb then ret tt
    else
      gid <-- opts o_GroupID ;
      observedAt <-- now ;
      go (TPeerObserved gid from observedAt).

(** [handleHeartbeatLocked], [ObservePeerAlive] *)
Definition handleHeartbeatLocked (from : peerID) : C unit := observePeerAliveLocked from.
Definition ObservePeerAlive (from : peerID) : C unit := observePeerAliveLocked from.

(** ** Scheduling a fork heal *)

(** [newTraceID] *)
Definition newTraceID : C string :=
  b <-- ask e_random ;
  ret (match b with None => "00000000" | Some b => hex_EncodeToString (take 4 b) end).

(** The part of [scheduleHeal] and [TriggerDeferredHeal] that claims the
    [healing] flag and starts the heal. *)
Definition start_heal (traceID : string) (event : ForkDetector.ForkEvent) (scheduledAt : time) : C unit :=
  healing <-- gets c_healing ;
  if healing : bool then ret tt
  else
    modify (set_c_healing true) ;;;
    metric Metrics.IncrForkHealingsAttempted ;;;
    cb <-- opts o_OnForkHealEvent ;
    epoch <-- gets c_epoch ;
    when cb (emit (EForkHeal (mkForkHealAuditSummary (ForkDetector.fe_GroupID event) traceID
      "fork_heal_started" (peer_String (ForkDetector.fe_RemotePeer event))
      (ForkDetector.fe_RemoteEpoch event) epoch "" 0 0))) ;;;
    go (TRunHeal traceID event scheduledAt).

(** [scheduleHeal] *)
Definition scheduleHeal (event : ForkDetector.ForkEvent) : C unit :=
  traceID <-- newTraceID ;
  localEpoch <-- gets c_epoch ;
  scheduledAt <-- now ;
  cb <-- opts o_OnSyncRequired ;
  attempts <-- gets c_syncRetryAttempts ;
  if (ForkDetector.fe_RemoteEpoch event >? localEpoch) && cb && (attempts <? 3) then
    modify (set_c_deferredForkEvent (Some event)) ;;;
    go (TSyncRequired (ForkDetector.fe_RemotePeer event) (ForkDetector.fe_GroupID event))
  else
    modify (set_c_deferredForkEvent None) ;;;
    start_heal traceID event scheduledAt.

(** [ResetSyncRetryAttempts], [IncrementSyncRetryAttempts], [GetSyncRetryAttempts] *)
Definition ResetSyncRetryAttempts : C unit :=
  modify (set_c_syncRetryAttempts 0) ;;; modify (set_c_deferredForkEvent None).
Definition IncrementSyncRetryAttempts : C Z :=
  modify (fun c => set_c_syncRetryAttempts (c_syncRetryAttempts c + 1) c) ;;; gets c_syncRetryAttempts.
Definition GetSyncRetryAttempts : C Z := gets c_syncRetryAttempts.

(** [TriggerDeferredHeal] *)
Definition TriggerDeferredHeal : C unit :=
  deferred <-- gets c_deferredForkEvent ;
  match deferred with
  | None => ret tt
  | Some event =>
      modify (set_c_deferredForkEvent None) ;;;
      traceID <-- newTraceID ;
      scheduledAt <-- now ;
      start_heal traceID event scheduledAt
  end.

(** ** Announcements and history queries *)

(** [c.forkDetector.ProcessRemote(c.clock.Now(), ...)] *)
Definition processRemote (from : peerID) (epoch : Z) (ann : GroupStateAnnouncement)
  : C (option ForkDetector.ForkEvent) :=
  t <-- now ;
  fd <-- gets c_forkDetector ;
  let '(event, fd') := ForkDetector.ProcessRemote t from epoch ann fd in
  modify (set_c_forkDetector fd') ;;; ret event.

(** [sendHistoryQuery] *)
Definition sendHistoryQuery (to : peerID) (epoch : Z) : C unit :=
  ts <-- hlc_Now ;
  wire <-- buildEnvelopeWithTimestampLocked MsgHistoryQuery (PHistoryQuery (mkHistoryQueryMsg epoch)) ts ;
  if is_empty wire then ret tt else go (TSendDirect to wire).

(** [handleAnnounceLocked] *)
Definition handleAnnounceLocked (from : peerID) (env : Envelope) : C unit :=
  match dec_announce (env_Payload env) with
  | inr _ => ret tt
  | inl ann =>
      c <-- gets (fun c => c) ;
      if ann_Epoch ann =? c_epoch c then
        let local := mkGroupStateAnnouncement [] 0 (c_epoch c) [] (default [] (c_historyHash c)) in
        if ForkDetector.sameBranch ann local then
          processRemote from (env_Epoch env) ann ;;; ret tt
        else
          event <-- processRemote from (env_Epoch env) ann ;
          match event with
          | None => ret tt
          | Some ev =>
              if negb (ForkDetector.fe_NeedExternalJoin ev) then ret tt
              else
                metric Metrics.IncrPartitionsDetected ;;;
                gid <-- opts o_GroupID ;
                scheduleHeal (ForkDetector.mkForkEvent gid (ForkDetector.fe_RemotePeer ev)
                  (ForkDetector.fe_LocalAnnounce ev) (ForkDetector.fe_RemoteAnnounce ev)
                  (ForkDetector.fe_RemoteEpoch ev) (ForkDetector.fe_Result ev) true
                  (ForkDetector.fe_WinnerPeers ev) (ForkDetector.fe_PartitionStartedAt ev))
          end
      else if ann_Epoch ann >? c_epoch c then
        sendHistoryQuery from (c_epoch c) ;;;
        processRemote from (env_Epoch env) ann ;;; ret tt
      else processRemote from (env_Epoch env) ann ;;; ret tt
  end.

(** [handleHistoryQueryLocked] *)
Definition handleHistoryQueryLocked (from : peerID) (env : Envelope) : C unit :=
  match dec_query (env_Payload env) with
  | inr _ => ret tt
  | inl q =>
      chain <-- gets c_historyChain ;
      let reply := match chain !! hq_Epoch q with
                   | Some h => mkHistoryReplyMsg (hq_Epoch q) h true
                   | None => mkHistoryReplyMsg (hq_Epoch q) [] false
                   end in
      ts <-- hlc_Now ;
      wire <-- buildEnvelopeWithTimestampLocked MsgHistoryReply (PHistoryReply reply) ts ;
      if is_empty wire then ret tt else go (TSendDirect from wire)
  end.

(** The fork a history reply confirms. *)
Definition confirmFork (from : peerID) (r : HistoryReplyMsg) : C unit :=
  localAnn <-- localAnnouncement ;
  fd <-- gets c_forkDetector ;
  cmp <-- ask (fun e t => ForkDetector.CompareWithPeer
                 (e_known_order e t (map_to_list (ForkDetector.fd_known fd))) from fd) ;
  let '(result, remoteAnn, _) := cmp in
  let remoteEpoch := if ann_Epoch remoteAnn =? 0 then hr_Epoch r else ann_Epoch remoteAnn in
  if negb (bool_decide (result = BranchRemote)) then ret tt
  else
    metric Metrics.IncrPartitionsDetected ;;;
    gid <-- opts o_GroupID ;
    scheduleHeal (ForkDetector.mkForkEvent gid from localAnn remoteAnn remoteEpoch result true [] time_zero).

(** [handleHistoryReplyLocked] *)
Definition handleHistoryReplyLocked (from : peerID) (env : Envelope) : C unit :=
  match dec_reply (env_Payload env) with
  | inr _ => ret tt
  | inl r =>
      if negb (hr_Known r) then ret tt
      else
        chain <-- gets c_historyChain ;
        match chain !! hr_Epoch r with
        | None => ret tt
        | Some localHash =>
            cb <-- opts o_OnSyncRequired ;
            if bytes_eqb localHash (hr_HistoryHash r) && cb then
              gid <-- opts o_GroupID ;
              go (TSyncRequired from gid)
            else confirmFork from r
        end
  end.

(** ** Incoming messages *)

(** [handleControlMessageLocked] *)
Definition handleControlMessageLocked (from : peerID) (env : Envelope) : C unit :=
  let ty_is t := str_eqb (env_Type env) t in
  if ty_is MsgHeartbeat then handleHeartbeatLocked from
  else if ty_is MsgAnnounce then handleAnnounceLocked from env
  else if ty_is MsgDeliveryAck then handleDeliveryAckLocked from env
  else if ty_is MsgHistoryQuery then handleHistoryQueryLocked from env
  else if ty_is MsgHistoryReply then handleHistoryReplyLocked from env
  else ret tt.

(** The dispatch of a live coordinator. *)
Definition handleLiveMessageLocked (fuel : nat) (from : peerID) (env : Envelope) (data : bytes) : C unit :=
  let ty_is t := str_eqb (env_Type env) t in
  if ty_is MsgProposal then handleProposalLocked (run fuel) from env
  else if ty_is MsgCommit then handleCommitLocked (run fuel) env data ;;; ret tt
  else if ty_is MsgApplication then handleApplicationLocked from env data ;;; ret tt
  else if ty_is MsgApplicationBatched then handleApplicationBatchedLocked from env data ;;; ret tt
  else handleControlMessageLocked from env.

(** While catching up or frozen, commits and application messages only go to
    the log. *)
Definition isolates (ty : MessageType) : bool := str_eqb ty MsgCommit || str_eqb ty MsgApplication.

(** The part of [handleRawMessage] under the mutex. *)
Definition handleInModeLocked (fuel : nat) (from : peerID) (env : Envelope) (data : bytes) : C unit :=
  gid <-- opts o_GroupID ;
  mode <-- gets c_operationalMode ;
  if bool_decide (mode = ModeCatchingUp) then
    if isolates (env_Type env) then
      cfg <-- opts o_Config ;
      when (Config.OfflineSyncEnabled cfg)
        (db (Store.AppendEnvelopeWithSource gid (env_Type env) (env_Epoch env)
               (env_Timestamp env) data "gossip_catchup") ;;; ret tt)
    else handleControlMessageLocked from env
  else if bool_decide (mode = ModeFrozenForApply) then
    if isolates (env_Type env) then
      db (Store.AppendEnvelope gid (env_Type env) (env_Epoch env) (env_Timestamp env) data) ;;; ret tt
    else handleControlMessageLocked from env
  else handleLiveMessageLocked fuel from env data.

(** [handleRawMessage] *)
Definition handleRawMessage (fuel : nat) (from : peerID) (data : bytes) : C unit :=
  local <-- opts o_LocalID ;
  gid <-- opts o_GroupID ;
  if str_eqb from local then ret tt
  else match dec_envelope data with
  | inr _ => ret tt
  | inl env =>
      if negb (str_eqb (env_GroupID env) gid) then ret tt
      else
        skew <-- (if isolates (env_Type env) || str_eqb (env_Type env) MsgProposal
                  then t <-- now ; ret (validateSenderTimestamp (UnixMilli t) (WallTimeMs (env_Timestamp env)))
                  else ret None) ;
        match skew with
        | Some _ => ret tt
        | None => handleInModeLocked fuel from env data
        end
  end.

(** [ReceiveDirectMessage] *)
Definition ReceiveDirectMessage (fuel : nat) (from : peerID) (data : bytes) : C unit :=
  handleRawMessage fuel from data.

(** ** Replay of the log *)

(** [handleCommitDetailedLocked] *)
Definition handleCommitDetailedLocked (fuel : nat) (env : Envelope) (wire : bytes) : C ReplayEnvelopeResult :=
  result <-- newReplayResultLocked env wire ;
  chk <-- checkAppliedEnvelopeLocked env wire ;
  let '(envelopeHash, alreadyApplied) := chk in
  let result := set_rr_EnvelopeHash envelopeHash result in
  if alreadyApplied : bool then
    finish (rr_finish ReplayStateDuplicateApplied "" true true false true result)
  else
    et <-- the_epochTracker ;
    match Epoch.Validate (env_Epoch env) et with
    | ActionRejectStale => finish (rr_finish ReplayStateStaleEpoch "" true true false false result)
    | ActionBufferFuture =>
        set_epochTracker (Epoch.BufferFuture (env_Epoch env) wire et) ;;;
        finish (rr_finish ReplayStateFutureEpoch "" false false false false result)
    | ActionProcess =>
        done <-- handleCommitLocked (run fuel) env wire ;
        if done : bool then finish (rr_finish ReplayStateApplied "" true true true false result)
        else
          gid <-- opts o_GroupID ;
          applied <-- db (Store.HasAppliedEnvelope gid envelopeHash) ;
          match applied with
          | inr e => finish (rr_finish ReplayStatePersistFailed (err_Error e) false false false false result)
          | inl true => finish (rr_finish ReplayStateDuplicateApplied "" true true false true result)
          | inl false => finish (rr_finish ReplayStateInvalid "commit replay did not apply" true false false false result)
          end
    end.

(** A result that is not recorded in the log. *)
Definition invalid_result (env : Envelope) (raw : bytes) (error : string) : C ReplayEnvelopeResult :=
  r <-- newReplayResultLocked env raw ;
  ret (rr_finish ReplayStateInvalid error true false false false r).

Definition replay_one (fuel : nat) (raw : bytes) : C ReplayEnvelopeResult :=
  match dec_envelope raw with
  | inr e =>
      ret (mkReplayEnvelopeResult "" "" (ForkDetector.hashEnvelope raw) ReplayStateInvalid 0 0 0
             (err_Error e) true false false false)
  | inl env =>
      gid <-- opts o_GroupID ;
      if negb (str_eqb (env_GroupID env) gid) then
        invalid_result env raw "envelope group does not match coordinator group"
      else
        t <-- now ;
        match validateSenderTimestamp (UnixMilli t) (WallTimeMs (env_Timestamp env)) with
        | Some e => invalid_result env raw (err_Error e)
        | None =>
            if str_eqb (env_Type env) MsgCommit then handleCommitDetailedLocked fuel env raw
            else if str_eqb (env_Type env) MsgApplication then
              handleApplicationDetailedLocked (decodeEnvelopePeerID (env_From env) "") env raw
            else invalid_result env raw "unsupported envelope type"
        end
  end.

Fixpoint replay_all (fuel : nat) (blobs : list bytes) : C (list ReplayEnvelopeResult) :=
  match blobs with
  | [] => ret []
  | raw :: rest =>
      if is_empty raw then replay_all fuel rest
      else
        r <-- replay_one fuel raw ;
        rs <-- replay_all fuel rest ;
        ret (r :: rs)
  end.

(** [ReplayEnvelopesDetailed], [ReplayEnvelopes] *)
Definition ReplayEnvelopesDetailed (fuel : nat) (blobs : list bytes) : C (result (list ReplayEnvelopeResult)) :=
  started <-- gets c_started ;
  if negb started then ret (inr (ErrText "coordinator not started"))
  else rs <-- replay_all fuel blobs ; ret (inl rs).

Definition ReplayEnvelopes (fuel : nat) (blobs : list bytes) : C (result Z) :=
  r <-- ReplayEnvelopesDetailed fuel blobs ;
  ret (match r with
       | inr e => inr e
       | inl rs => inl (Z.of_nat (length (filter (fun r => rr_State r = ReplayStateApplied) rs)))
       end).

(** [collectReplayWindowMessages] *)
Definition collectReplayWindowMessages (partitionStart healStartedAt : time) : C (result (list StoredMessage)) :=
  if time_IsZero partitionStart then ret (inl [])
  else
    gid <-- opts o_GroupID ;
    local <-- opts o_LocalID ;
    r <-- db (Store.GetMessagesByOwnerInRange gid (peer_String local) (UnixMilli partitionStart)
                (UnixMilli healStartedAt)) ;
    ret (match r with inl ms => inl ms | inr e => inr (ErrWrap "GetMessagesByOwnerInRange" e) end).

(** ** Timers and view changes *)

(** What the goroutines of [scheduleBatchCommitLocked] and
    [deferCommitUntilViewReadyLocked] do when their timer fires. *)
Definition proposal_timer_fired (fuel : nat) (timer : nat) : C unit :=
  current <-- gets c_proposalTimer ;
  if negb (bool_decide (current = Some timer)) then ret tt
  else
    modify (set_c_proposalTimer None) ;;;
    sw <-- gets c_singleWriter ;
    match sw with
    | None => ret tt
    | Some _ =>
        holder <-- sw_IsTokenHolder ;
        count <-- sw_ProposalCount ;
        when (holder && (count >? 0)) (tryCommitLocked (run fuel))
    end.

(** What the goroutine of [scheduleFailoverTimerLocked] does when its timer
    fires. *)
Definition failover_timer_fired (fuel : nat) (timer : nat) : C unit :=
  current <-- gets c_failoverTimer ;
  if negb (bool_decide (current = Some timer)) then ret tt
  else
    modify (set_c_failoverTimer None) ;;;
    sw <-- gets c_singleWriter ;
    match sw with
    | None => ret tt
    | Some s =>
        if SingleWriter.ProposalCount s =? 0 then ret tt
        else
          isHolder <-- sw_IsTokenHolder ;
          if isHolder : bool then ret tt
          else
            holder <-- sw_CurrentTokenHolder ;
            match holder with
            | inr _ => ret tt
            | inl h =>
                if str_eqb h "" then ret tt
                else
                  set_singleWriter (SingleWriter.Suspend h s) ;;;
                  schedule_commit_or_failover (run fuel)
            end
    end.

(** The timers are cancelled with the coordinator's context. *)
Definition proposal_timer_cancelled (timer : nat) : C unit :=
  modify (fun c => if bool_decide (c_proposalTimer c = Some timer) then set_c_proposalTimer None c else c).
Definition failover_timer_cancelled (timer : nat) : C unit :=
  modify (fun c => if bool_decide (c_failoverTimer c = Some timer) then set_c_failoverTimer None c else c).

(** [handleActiveViewChange] *)
Definition handleActiveViewChange (fuel : nat) : C unit :=
  started <-- gets c_started ;
  sw <-- gets c_singleWriter ;
  match sw with
  | Some s =>
      if negb started then ret tt
      else
        r <-- sw_CurrentTokenHolder ;
        match r with
        | inr _ => ret tt
        | inl newHolder =>
            local <-- opts o_LocalID ;
            last <-- gets c_lastTokenHolder ;
            modify (set_c_lastTokenHolder newHolder) ;;;
            persistCoordStateLocked ;;;
            when (str_eqb newHolder local && negb (str_eqb last local) && (SingleWriter.ProposalCount s >? 0))
              (tryCommitLocked (run fuel))
        end
  | None => ret tt
  end.

(** ** Life cycle *)

(** [NewCoordinator] *)
Definition NewCoordinator (o : Opts) (hlc : option Hlc.HLC) (initialActiveView : list peerID) : result Coord :=
  match Config.Validate (o_Config o) with
  | Some e => inr e
  | None =>
      inl (mkCoord None [] [] None ∅ 0
             (ActiveView.Seed initialActiveView (ActiveView.NewActiveView (o_LocalID o)))
             None None ForkDetector.NewForkDetector None None "" time_zero false false false ∅ 0 None ModeLive false
             (match hlc with Some h => h | None => Hlc.NewHLC (peer_String (o_LocalID o)) end)
             Metrics.NewMetrics)
  end.

(** [CreateGroup] *)
Definition CreateGroup : C (result unit) :=
  started <-- gets c_started ;
  if started : bool then ret (inr (ErrText "coordinator already started"))
  else
    gid <-- opts o_GroupID ;
    key <-- opts o_SigningKey ;
    cfg <-- opts o_Config ;
    r <-- mls (fun e t => mls_CreateGroup e t gid key (Config.GetMaxPastEpochs cfg)) ;
    match r with
    | inr e => ret (inr (ErrWrap "CreateGroup" e))
    | inl (state, treeHash) =>
        modify (fun c => set_c_treeHash treeHash (set_c_epoch 0 (set_c_groupState (Some state) c))) ;;;
        createdAt <-- now ;
        updatedAt <-- now ;
        saved <-- db (Store.SaveGroupRecord (mkGroupRecord gid state 0 treeHash RoleCreator "" "" ""
                        createdAt updatedAt)) ;
        match saved with
        | inr e => ret (inr e)
        | inl _ => persistCoordStateLocked
        end
    end.

(** [InitializeGroup] *)
Definition InitializeGroup (groupState : bytes) (epoch : Z) (treeHash : bytes) : C unit :=
  modify (fun c => set_c_treeHash treeHash (set_c_epoch epoch (set_c_groupState (Some groupState) c))).

(** The group state [Start] runs with: the one in memory, or the stored one. *)
Definition start_state : C (result unit) :=
  gs <-- gets c_groupState ;
  match gs with
  | Some _ => ret (inl tt)
  | None =>
      gid <-- opts o_GroupID ;
      r <-- db (Store.GetGroupRecord gid) ;
      match r with
      | inr e => ret (inr (ErrWrap "no group state" e))
      | inl rec =>
          modify (fun c => set_c_treeHash (gr_TreeHash rec) (set_c_epoch (gr_Epoch rec)
            (set_c_groupState (Some (gr_GroupState rec)) c))) ;;;
          ret (inl tt)
      end
  end.

(** The stored history; an entry without bytes is a nil one. *)
Definition load_history (cs : CoordState) (c : Coord) : Coord :=
  let c := set_c_lastCommitHash (cs_LastCommitHash cs) c in
  if bool_decide (cs_HistoryChain cs = ∅) then c
  else
    let c := set_c_historyChain (cs_HistoryChain cs) c in
    match cs_HistoryChain cs !! c_epoch c with
    | Some h => set_c_historyHash (if is_empty h then None else Some h) c
    | None => c
    end.

Definition start_history : C (result unit) :=
  gid <-- opts o_GroupID ;
  r <-- db (Store.GetCoordState gid) ;
  match r with
  | inl cs => modify (load_history cs) ;;; ret (inl tt)
  | inr e =>
      if errors_Is e ErrGroupNotFound then ret (inl tt)
      else ret (inr (ErrWrap "load coordination state" e))
  end.

(** The history chain starts at the genesis hash when there is none. *)
Definition seed_history (groupID : string) (c : Coord) : Coord :=
  match c_historyHash c with
  | Some _ => c
  | None =>
      let r0 := ForkDetector.initialHistoryHash groupID in
      set_c_historyChain (<[c_epoch c := r0]> (c_historyChain c)) (set_c_historyHash (Some r0) c)
  end.

(** The components [Start] builds. *)
Definition start_components : C unit :=
  gid <-- opts o_GroupID ;
  local <-- opts o_LocalID ;
  provider <-- opts o_AuthorizedCommitters ;
  modify (seed_history gid) ;;;
  modify (fun c => set_c_epochTracker (Some (Epoch.NewEpochTracker (c_epoch c) (c_treeHash c))) c) ;;;
  modify (fun c => set_c_singleWriter (Some (SingleWriter.SetAuthorizedCommitters gid provider
    (SingleWriter.NewSingleWriter local (c_epoch c)))) c) ;;;
  holder <-- sw_CurrentTokenHolder ;
  (match holder with inl h => modify (set_c_lastTokenHolder h) | inr _ => ret tt end) ;;;
  ann <-- localAnnouncement ;
  modify (fun c => set_c_forkDetector (ForkDetector.UpdateLocal ann (c_forkDetector c)) c).

(** [Start] *)
Definition Start : C (result unit) :=
  started <-- gets c_started ;
  if started : bool then ret (inr (ErrText "coordinator already started"))
  else
  loaded <-- start_state ;
  match loaded with
  | inr e => ret (inr e)
  | inl _ =>
      history <-- start_history ;
      match history with
      | inr e => ret (inr e)
      | inl _ =>
          start_components ;;;
          gid <-- opts o_GroupID ;
          emit (ESubscribe (GroupTopic gid)) ;;;
          sub <-- ask e_subscribe ;
          match sub with
          | inr e => ret (inr (ErrWrap "subscribe" e))
          | inl _ =>
              modify (set_c_started true) ;;;
              t <-- now ;
              modify (set_c_startedAt t) ;;;
              job <-- db (HealStore.GetActiveForkHealingJob gid) ;
              (match job with
               | inl (Some j) =>
                   when (negb (str_eqb (job_Status j) "CLEANED") && negb (str_eqb (job_Status j) "FAILED_TERMINAL"))
                     (go (TResumeHeal j))
               | _ => ret tt
               end) ;;;
              ret (inl tt)
          end
      end
  end.

(** [Stop] *)
Definition Stop : C unit :=
  started <-- gets c_started ;
  if negb started then ret tt
  else
    gid <-- opts o_GroupID ;
    modify (set_c_failoverTimer None) ;;;
    emit (EUnsubscribe (GroupTopic gid)) ;;;
    modify (set_c_started false).

End Message.
