(* ===== verification/CoordMembers.v ===== *)
(** * Coordinator: adding and removing members

    [coordination/coordinator_members.go].  Both operations journal a pending
    operation, create the proposal, and commit it at once when the local node
    holds the token and its view is ready. *)
From S2P Require Import Prelude Sha256 Types Config Hlc Epoch ActiveView SingleWriter.
From S2P Require Import ForkDetector Helpers Database Store HealStore Coordinator.
From S2P Require Import CoordBroadcast CoordApplication CoordCommit CoordMessage.

Section Members.
Context {PC : PeerCodec} {WC : WireCodec}.
Variable self : Call -> C bool.

Definition op_done (op : PendingOperation) : bool :=
  str_eqb (po_Status op) "COMMITTED" || str_eqb (po_Status op) "SATISFIED_BY_OTHER".

(** The idempotency check: a journalled operation, found by its id or by its
    idempotency key, that is done or under way. *)
Definition known_operation (opID idKey : string) : C (option PendingOperation) :=
  let usable (r : result PendingOperation) :=
    match r with
    | inl o => if op_done o || str_eqb (po_Status o) "PROPOSED" then Some o else None
    | inr _ => None
    end in
  byID <-- (if str_eqb opID "" then ret None
            else r <-- db (HealStore.GetPendingOperation opID) ; ret (usable r)) ;
  match byID with
  | Some o => ret (Some o)
  | None =>
      gid <-- opts o_GroupID ;
      r <-- db (HealStore.GetPendingOperationByIdempotencyKey gid idKey) ;
      ret (usable r)
  end.

(** The id of the request, or a fresh one. *)
Definition operation_id (opID : string) : C string :=
  if str_eqb opID "" then traceID <-- newTraceID ; ret ("op_" +:+ traceID) else ret opID.

(** Journal a new operation as pending. *)
Definition open_operation (opID opType idKey : string) (hash : bytes) (target : string) (payload : bytes)
  : C PendingOperation :=
  gid <-- opts o_GroupID ;
  epoch <-- gets c_epoch ;
  createdAt <-- now ;
  updatedAt <-- now ;
  let op := mkPendingOperation opID gid opType (Some idKey) hash (Some epoch) [] (Some target) payload [] "PENDING"
              0 None None createdAt updatedAt in
  save_op op ;;; ret op.

(** The operation whose proposal could not be created. *)
Definition fail_operation (op : PendingOperation) (e : GoError) : C unit :=
  t <-- now ;
  save_op (set_po_UpdatedAt t (set_po_LastError (Some (err_Error e)) (set_po_Status "FAILED_PRECONDITION" op))).

(** The operation whose proposal is on its way; without a proposal in hand
    the digest is left alone. *)
Definition propose_operation (op : PendingOperation) (data : option bytes) : C unit :=
  t <-- now ;
  let op := match data with Some d => set_po_LatestProposalHash (sha256_sum d) op | None => op end in
  save_op (set_po_UpdatedAt t (set_po_Status "PROPOSED" op)).

(** Commit a single proposal: create the commit, store it, publish it and
    advance; the result is what the engine created and the new epoch. *)
Definition commit_single (msg : ProposalMsg) (buffered : BufferedProposal)
  (deliveries : CreateCommitResult -> list AddCommitDelivery) : C (result (CreateCommitResult * Z)) :=
  c <-- gets (fun c => c) ;
  r <-- mls (fun e t => mls_CreateCommit e t (default [] (c_groupState c)) [bp_ProposalRef buffered]) ;
  match r with
  | inr e => ret (inr (ErrWrap "CreateCommit" e))
  | inl res =>
      let refs := if is_empty (ccr_CommittedProposalRefs res) then [bp_ProposalRef buffered]
                  else ccr_CommittedProposalRefs res in
      let commitMsg := mkCommitMsg (ccr_CommitBytes res) [] (ccr_NewTreeHash res) (deliveries res) [msg]
                         (Helpers.cloneBytesList refs) in
      let nextEpoch := u64 (c_epoch c + 1) in
      stored <-- store_commit res commitMsg ;
      match stored with
      | inr e => ret (inr e)
      | inl envBytes =>
          publish_commit self res commitMsg envBytes nextEpoch ;;;
          reconcileOperationsAfterCommitLocked commitMsg ;;;
          reconcileAndRebaseOperationsLocked self ;;;
          account_commit res (c_epoch c) nextEpoch
            [mkBufferedProposal (pm_ProposalType msg) [] [] (pm_OperationID msg) (pm_TargetPeerID msg)
               (pm_RequestID msg) (pm_GroupType msg) (pm_CategoryID msg) (pm_KeyPackageHash msg)] ;;;
          ret (inl (res, nextEpoch))
      end
  end.

Definition no_delivery : AddCommitDelivery := mkAddCommitDelivery "" "" "" "" "" [] [].

(** Announce the proposal and leave the commit to the holder, or to this node
    when its view is ready. *)
Definition announce_proposal (msg : ProposalMsg) : C unit := broadcastLocked MsgProposal (PProposal msg).

(** [AddMember] *)
Definition AddMember (req : AddMemberRequest) : C (result AddMemberResult) :=
  started <-- gets c_started ;
  revoked <-- gets c_accessRevoked ;
  if negb started then ret (inr (ErrText "coordinator not started"))
  else if revoked : bool then ret (inr ErrAccessRevoked)
  else if is_empty (ar_KeyPackageBytes req) then ret (inr (ErrText "AddMember: key package is required"))
  else
  let target := peer_String (ar_TargetPeerID req) in
  let idKey := "add_member_" +:+ target in
  existing <-- known_operation (ar_OperationID req) idKey ;
  match existing with
  | Some o =>
      ret (inl (if op_done o
                then mkAddMemberResult (po_OperationID o) false [] (default 0 (po_PreconditionEpoch o)) no_delivery
                else mkAddMemberResult (po_OperationID o) true [] 0 no_delivery))
  | None =>
      opID <-- operation_id (ar_OperationID req) ;
      op <-- open_operation opID "ADD_MEMBER" idKey (ar_KeyPackageHash req) target (ar_KeyPackageBytes req) ;
      let delivery := mkAddCommitDelivery opID target (ar_RequestID req) (ar_GroupType req) (ar_CategoryID req)
                        (ar_KeyPackageHash req) [] in
      created <-- createAndStoreLocalProposalLocked ProposalAdd (ar_KeyPackageBytes req)
        (mkBufferedProposal 0 [] [] opID target (ar_RequestID req) (ar_GroupType req) (ar_CategoryID req)
           (ar_KeyPackageHash req)) ;
      match created with
      | inr e => fail_operation op e ;;; ret (inr (ErrWrap "CreateProposal" e))
      | inl (msg, buffered) =>
          sw_BufferProposal buffered ;;;
          scheduleFailoverTimerLocked ;;;
          metric Metrics.IncrProposalsReceived ;;;
          propose_operation op (Some (pm_Data msg)) ;;;
          cb <-- opts o_OnProposalObserved ;
          gid <-- opts o_GroupID ;
          local <-- opts o_LocalID ;
          epoch <-- gets c_epoch ;
          when cb (emit (EProposalObserved (mkProposalAuditSummary gid epoch (peer_String local) ProposalAdd opID
            target (ar_RequestID req) (ar_GroupType req) (ar_CategoryID req) (ar_KeyPackageHash req)))) ;;;
          let deferred := mkAddMemberResult opID true [] 0 delivery in
          holder <-- sw_IsTokenHolder ;
          if negb holder then announce_proposal msg ;;; ret (inl deferred)
          else
            ready <-- commitViewReadyLocked [buffered] ;
            if negb ready then announce_proposal msg ;;; deferCommitUntilViewReadyLocked ;;; ret (inl deferred)
            else
              let delivery_of (res : CreateCommitResult) :=
                mkAddCommitDelivery opID target (ar_RequestID req) (ar_GroupType req) (ar_CategoryID req)
                  (ar_KeyPackageHash req)
                  (if is_empty (ccr_WelcomeBytes res) then [] else sha256_sum (ccr_WelcomeBytes res)) in
              r <-- commit_single msg buffered (fun res => [delivery_of res]) ;
              match r with
              | inr e => ret (inr e)
              | inl (res, nextEpoch) =>
                  added <-- opts o_OnAddCommitted ;
                  when (added && negb (is_empty (ccr_WelcomeBytes res)))
                    (go (TAddCommitted [delivery_of res] nextEpoch (ccr_WelcomeBytes res))) ;;;
                  ret (inl (mkAddMemberResult opID false (ccr_WelcomeBytes res) nextEpoch (delivery_of res)))
              end
      end
  end.

(** [RemoveMemberWithPeer] *)
Definition RemoveMemberWithPeer (req : RemoveMemberRequest) : C (result unit) :=
  started <-- gets c_started ;
  revoked <-- gets c_accessRevoked ;
  if negb started then ret (inr (ErrText "coordinator not started"))
  else if revoked : bool then ret (inr ErrAccessRevoked)
  else if is_empty (rm_TargetIdentity req) then ret (inr (ErrText "target identity is required"))
  else
  let target := peer_String (rm_TargetPeerID req) in
  let idKey := "remove_member_" +:+ target in
  existing <-- known_operation (rm_OperationID req) idKey ;
  match existing with
  | Some _ => ret (inl tt)
  | None =>
      opID <-- operation_id (rm_OperationID req) ;
      op <-- open_operation opID "REMOVE_MEMBER" idKey [] target (rm_TargetIdentity req) ;
      let meta := mkBufferedProposal 0 [] [] opID target "" "" "" [] in
      holder <-- sw_IsTokenHolder ;
      if negb holder then
        propose_operation op None ;;;
        proposeLockedWithMetadata self ProposalRemove (rm_TargetIdentity req) meta
      else
        created <-- createAndStoreLocalProposalLocked ProposalRemove (rm_TargetIdentity req) meta ;
        match created with
        | inr e => fail_operation op e ;;; ret (inr (ErrWrap "CreateProposal" e))
        | inl (msg, buffered) =>
            sw_BufferProposal buffered ;;;
            scheduleFailoverTimerLocked ;;;
            propose_operation op (Some (pm_Data msg)) ;;;
            ready <-- commitViewReadyLocked [buffered] ;
            if negb ready then announce_proposal msg ;;; deferCommitUntilViewReadyLocked ;;; ret (inl tt)
            else
              r <-- commit_single msg buffered (fun _ => []) ;
              ret (match r with inr e => inr e | inl _ => inl tt end)
        end
  end.

(** [RemoveMember] *)
Definition RemoveMember (targetIdentity : bytes) : C (result unit) :=
  RemoveMemberWithPeer (mkRemoveMemberRequest "" targetIdentity "").

End Members.
