(* ===== verification/CoordReplay.v ===== *)
(** * Coordinator: replaying own messages

    [coordination/coordinator_batch.go] (the outgoing half) and the replay
    loops of [coordinator_replay.go] and [coordinator_heal.go]: sealed own
    messages are opened, encrypted again under the current group state and
    broadcast in batches. *)
From stdpp Require Import pretty.
From S2P Require Import Prelude Sha256 Types Config Hlc Epoch ActiveView SingleWriter.
From S2P Require Import ForkDetector Helpers Database Store HealStore Coordinator.
From S2P Require Import CoordBroadcast CoordApplication CoordCommit CoordMessage.

(** [const MaxBatchSize = 50] *)
Definition MaxBatchSize : nat := 50.

(** The loop [for i := 0; i < len(l); i += n { ... l[i:min(i+n, len(l))] }]:
    consecutive slices of [n] elements, the last one possibly shorter.
    [fuel] bounds the number of rounds; the length of the list is enough. *)
Fixpoint chunks {A} (fuel n : nat) (l : list A) : list (list A) :=
  match fuel, l with
  | O, _ | _, [] => []
  | S fuel', _ => take n l :: chunks fuel' n (drop n l)
  end.

Section Replay.
Context {PC : PeerCodec} {WC : WireCodec}.

Definition save_event (ev : ApplicationEvent) : C unit := db (HealStore.SaveApplicationEvent ev) ;;; ret tt.

(** The original of a replayed message is marked; errors are only logged. *)
Definition mark_replayed (ev : ApplicationEvent) : C unit :=
  if is_empty (ae_EnvelopeHash ev) then ret tt
  else
    t <-- now ;
    gid <-- opts o_GroupID ;
    db (Store.MarkMessageReplayed gid (ae_EnvelopeHash ev) t) ;;; ret tt.

(** Send the envelope of an outbound replay and record it as broadcast. *)
Definition broadcast_outbound (msgType : MessageType) (outbound : OutboundReplay) : C (result unit) :=
  appendOfflineEnvelopeLocked (or_ReplayEnvelope outbound) ;;;
  publishPreparedEnvelopeLocked msgType (or_ReplayEnvelope outbound) ;;;
  t <-- now ;
  db (HealStore.SaveOutboundReplay (set_or_UpdatedAtMs (UnixMilli t) (set_or_Status "BROADCASTED" outbound))).

Definition mark_event_replayed (ev : ApplicationEvent) : C (result unit) :=
  t <-- now ;
  db (HealStore.SaveApplicationEvent (set_ae_ReplayedAtMs (UnixMilli t) (set_ae_Status "REPLAYED" ev))).

(** [broadcastBatchedOutboundReplay] *)
Definition broadcastBatchedOutboundReplay (outbound : OutboundReplay) (evs : list ApplicationEvent)
  : C (result unit) :=
  r <-- broadcast_outbound MsgApplicationBatched outbound ;
  match r with
  | inr e => ret (inr e)
  | inl _ =>
      for_each evs (fun ev => mark_event_replayed ev ;;; mark_replayed ev) ;;;
      ret (inl tt)
  end.

(** [broadcastOutboundReplay] *)
Definition broadcastOutboundReplay (outbound : OutboundReplay) (ev : ApplicationEvent) : C (result unit) :=
  r <-- broadcast_outbound MsgApplication outbound ;
  match r with
  | inr e => ret (inr (ErrWrap "save outbound replay broadcasted" e))
  | inl _ =>
      r <-- mark_event_replayed ev ;
      match r with
      | inr e => ret (inr (ErrWrap "save application event replayed" e))
      | inl _ => mark_replayed ev ;;; ret (inl tt)
      end
  end.

(** One event of [batchAndReplayOutbox]'s first loop: what of it goes into the
    batch, with the event as it then stands. *)
Definition open_event (key : bytes) (ev : ApplicationEvent)
  : C (option (ApplicationEventPayload * ApplicationEvent)) :=
  local <-- opts o_LocalID ;
  if negb (str_eqb (ae_AuthorID ev) (peer_String local)) then
    save_event (set_ae_SealKeyID "" (set_ae_SealNonce [] (set_ae_PayloadSealed []
      (set_ae_Status "WAITING_AUTHOR_REPLAY" ev)))) ;;; ret None
  else if str_eqb (ae_Status ev) "ORPHANED_OWN" || str_eqb (ae_Status ev) "REPLAY_PENDING" then
    if is_empty (ae_PayloadSealed ev) || is_empty (ae_SealNonce ev) then
      save_event (set_ae_Status "WAITING_AUTHOR_REPLAY" ev) ;;; ret None
    else
      let ev := set_ae_ReplayAttemptCount (ae_ReplayAttemptCount ev + 1) (set_ae_Status "REPLAY_PENDING" ev) in
      save_event ev ;;;
      plaintext <-- openPayload (ae_PayloadSealed ev) (ae_SealNonce ev) key ;
      match plaintext with
      | inl p =>
          ret (Some (mkApplicationEventPayload (ae_EventID ev) p
                       (enc_hlc (mkHLC (ae_HlcWallTimeMs ev) (ae_HlcCounter ev) (ae_HlcNodeID ev))), ev))
      | inr e =>
          save_event (set_ae_LastError (err_Error e) (set_ae_Status "REPLAY_FAILED" ev)) ;;; ret None
      end
  else ret None.

Fixpoint open_events (key : bytes) (evs : list ApplicationEvent)
  : C (list (ApplicationEventPayload * ApplicationEvent)) :=
  match evs with
  | [] => ret []
  | ev :: rest =>
      o <-- open_event key ev ;
      os <-- open_events key rest ;
      ret (match o with Some x => x :: os | None => os end)
  end.

(** Encrypt and broadcast chunk number [i]; the number of messages sent. *)
Definition replay_chunk (jobID groupID : string) (i : nat)
  (chunk : list (ApplicationEventPayload * ApplicationEvent)) : C Z :=
  gs <-- gets c_groupState ;
  enc <-- mls (fun e t => mls_EncryptMessage e t (default [] gs) (enc_plaintext (mkBatchedPlaintext chunk.*1))) ;
  match enc with
  | inr e =>
      for_each chunk.*2 (fun ev => save_event (set_ae_LastError (err_Error e) (set_ae_Status "REPLAY_FAILED" ev))) ;;;
      ret 0
  | inl (ciphertext, nextGroupState) =>
      ts <-- hlc_Now ;
      envBytes <-- buildEnvelopeWithTimestampLocked MsgApplicationBatched
        (PBatched (mkBatchedApplicationMsg ciphertext)) ts ;
      modify (set_c_groupState (Some nextGroupState)) ;;;
      t <-- now ;
      saveCurrentGroupStateLocked t ;;;
      let replayedHash := sha256_sum envBytes in
      let replayOpID := hex_EncodeToString replayedHash in
      t1 <-- now ;
      t2 <-- now ;
      let outbound := mkOutboundReplay replayOpID ("BATCH-" +:+ pretty i) jobID groupID envBytes replayedHash
                        "ENQUEUED" 1 (UnixMilli t1) (UnixMilli t2) in
      db (HealStore.SaveOutboundReplay outbound) ;;;
      let evs := (fun ev => set_ae_Status "REPLAY_ENQUEUED" (set_ae_ReplayedEnvelopeHash replayedHash
                              (set_ae_ReplayOperationID replayOpID ev))) <$> chunk.*2 in
      for_each evs save_event ;;;
      r <-- broadcastBatchedOutboundReplay outbound evs ;
      ret (match r with inl _ => Z.of_nat (length chunk) | inr _ => 0 end)
  end.

Fixpoint replay_chunks (jobID groupID : string) (i : nat)
  (cs : list (list (ApplicationEventPayload * ApplicationEvent))) : C Z :=
  match cs with
  | [] => ret 0
  | c :: rest =>
      n <-- replay_chunk jobID groupID i c ;
      m <-- replay_chunks jobID groupID (S i) rest ;
      ret (n + m)
  end.

(** [batchAndReplayOutbox] *)
Definition batchAndReplayOutbox (jobID groupID : string) : C Z :=
  events <-- db (HealStore.ListApplicationEvents jobID) ;
  match events with
  | inr _ => ret 0
  | inl events =>
      key <-- opts o_SigningKey ;
      pending <-- open_events (deriveStorageKey key) events ;
      if is_empty pending then ret 0
      else replay_chunks jobID groupID 0 (chunks (length pending) MaxBatchSize pending)
  end.

(** [t.UnixNano()] *)
Definition UnixNano (t : time) : Z := i64 t.

(** The goroutine of [triggerBatchReplayAsync]. *)
Definition batch_replay_task (groupID : string) : C unit :=
  t <-- now ;
  batchAndReplayOutbox ("WINNER-REPLAY-" +:+ groupID +:+ "-" +:+ pretty (UnixNano t)) groupID ;;; ret tt.

(** One message of [replayWindowMessages]. *)
Definition replay_window_message (i : nat) (msg : StoredMessage) : C (result unit) :=
  gs <-- gets c_groupState ;
  enc <-- mls (fun e t => mls_EncryptMessage e t (default [] gs) (sm_Content msg)) ;
  match enc with
  | inr e => ret (inr (ErrWrap ("EncryptMessage replay idx=" +:+ pretty i) e))
  | inl (ciphertext, newState) =>
      ts <-- hlc_Now ;
      wire <-- buildEnvelopeWithTimestampLocked MsgApplication (PApplication (mkApplicationMsg ciphertext)) ts ;
      if is_empty wire then ret (inr (ErrText ("encode replay application envelope idx=" +:+ pretty i)))
      else
        modify (set_c_groupState (Some newState)) ;;;
        publishPreparedEnvelopeLocked MsgApplication wire ;;;
        appendOfflineEnvelopeLocked wire ;;;
        t <-- now ;
        (if is_empty (sm_EnvelopeHash msg) then ret tt
         else
           gid <-- opts o_GroupID ;
           db (Store.MarkMessageReplayed gid (sm_EnvelopeHash msg) t) ;;; ret tt) ;;;
        ret (inl tt)
  end.

(** [replayWindowMessages]; [cancelled] tells at each instant whether the
    context is done, and [throttled] whether the pause between two messages
    ends because of it. *)
Section Window.
Variables (cancelled throttled : nat -> option GoError).

Fixpoint replay_window (throttle : bool) (i : nat) (window : list StoredMessage) (replayed : Z)
  : C (Z * option GoError) :=
  match window with
  | [] =>
      t <-- now ;
      saved <-- saveCurrentGroupStateLocked t ;
      ret (replayed, match saved with inl _ => None | inr e => Some e end)
  | msg :: rest =>
      done <-- ask (fun _ t => cancelled t) ;
      match done with
      | Some e => ret (replayed, Some e)
      | None =>
          r <-- replay_window_message i msg ;
          match r with
          | inr e => ret (replayed, Some e)
          | inl _ =>
              if throttle && negb (is_empty rest) then
                done <-- ask (fun _ t => throttled t) ;
                match done with
                | Some e => ret (replayed + 1, Some e)
                | None => replay_window throttle (S i) rest (replayed + 1)
                end
              else replay_window throttle (S i) rest (replayed + 1)
          end
      end
  end.

Definition replayWindowMessages (window : list StoredMessage) : C (Z * option GoError) :=
  if is_empty window then ret (0, None)
  else
    cfg <-- opts o_Config ;
    replay_window (0 <? i64 (Config.ReplayThrottleMs cfg * Millisecond)) 0 window 0.
End Window.

End Replay.
