(* ===== verification/CoordHeal.v ===== *)
(** * Coordinator: the fork-heal pipeline

    [coordination/coordinator_heal.go], from [runHeal] on.  [runHeal] is a
    goroutine of its own that takes the coordinator's mutex only for parts of
    its work, so it is a state machine: [HealPC] is where it stands with the
    variables it holds, [heal_step] one phase.  Handlers run between phases,
    and an awaiting heal moves on what the select delivers. *)
From stdpp Require Import pretty.
From S2P Require Import Prelude Sha256 Types Config Hlc Epoch ActiveView SingleWriter.
From S2P Require Import ForkDetector Helpers Database Store HealStore Coordinator.
From S2P Require Import CoordBroadcast CoordApplication CoordCommit CoordMessage CoordReplay.

(** The variables of a running heal. *)
Record HealRun := mkHealRun {
  hr_traceID : string;
  hr_event : ForkDetector.ForkEvent;
  hr_scheduledAt : time;
  hr_startedAt : time;
  hr_job : ForkHealingJob;
}.
Definition set_hr_job (j : ForkHealingJob) (r : HealRun) : HealRun :=
  mkHealRun (hr_traceID r) (hr_event r) (hr_scheduledAt r) (hr_startedAt r) j.

(** Where a heal stands.  [HExit frozen] is about to run the deferred calls,
    [frozen] when the one that unfreezes the group is among them. *)
Inductive HealPC :=
| HBegin (traceID : string) (event : ForkDetector.ForkEvent) (scheduledAt : time)
| HSnapshot (r : HealRun)
| HPropose (r : HealRun)
| HAwait (r : HealRun) (msg : ProposalMsg) (attempt : Z)
| HSwap (r : HealRun)
| HReplay (r : HealRun)
| HClean (r : HealRun) (replayedCount : Z)
| HExit (frozen : bool)
| HDone.

(** What the select of an awaiting heal delivers; a cancelled context also
    stops a heal that begins. *)
Inductive Signal := SigWelcome | SigCancelled | SigTimeout.

Definition maxProposalJoinRetries : Z := 3.

(** [d.Milliseconds()] *)
Definition Milliseconds (d : duration) : Z := Z.quot d Millisecond.

Section Heal.
Context {PC : PeerCodec} {WC : WireCodec}.

(** [recordForkHealAudit]; a storage error is only logged. *)
Definition recordForkHealAudit (traceID groupID step status : string) (ts : time) (durationMs : Z)
  (errMsg : string) : C unit :=
  if str_eqb traceID "" || str_eqb groupID "" || str_eqb step "" || str_eqb status "" then ret tt
  else
    db (HealStore.RecordForkHealAudit
      (mkForkHealAuditRecord traceID groupID step status (UnixMilli ts) durationMs errMsg)) ;;; ret tt.

(** The audit of a step that ends now. *)
Definition audit_end (r : HealRun) (step status : string) (stepStart : time) (errMsg : string) : C unit :=
  t1 <-- now ;
  t2 <-- now ;
  recordForkHealAudit (hr_traceID r) (ForkDetector.fe_GroupID (hr_event r)) step status t1
    (Milliseconds (time_Sub t2 stepStart)) errMsg.

(** [recordForkHealEvent] *)
Definition recordForkHealEvent (event : ForkHealEventRecord) : C unit :=
  db (HealStore.RecordForkHealEvent event) ;;; ret tt.

(** [logHealFailed] *)
Definition logHealFailed (r : HealRun) (step : string) : C unit :=
  let event := hr_event r in
  completedAt <-- now ;
  epoch <-- CurrentEpoch ;
  treeHash <-- gets c_treeHash ;
  recordForkHealEvent (mkForkHealEventRecord (hr_traceID r) (ForkDetector.fe_GroupID event)
    (peer_String (ForkDetector.fe_RemotePeer event)) (ForkDetector.fe_RemoteEpoch event) epoch "failed" step
    (ann_TreeHash (ForkDetector.fe_RemoteAnnounce event)) treeHash
    (UnixMilli (ForkDetector.fe_PartitionStartedAt event)) (UnixMilli (hr_scheduledAt r))
    (UnixMilli (hr_startedAt r)) (UnixMilli completedAt)
    (Milliseconds (time_Sub completedAt (hr_startedAt r)))
    (Milliseconds (time_Sub completedAt (hr_scheduledAt r))) 0) ;;;
  cb <-- opts o_OnForkHealEvent ;
  epoch <-- CurrentEpoch ;
  when cb (emit (EForkHeal (mkForkHealAuditSummary (ForkDetector.fe_GroupID event) (hr_traceID r)
    "fork_heal_failed" (peer_String (ForkDetector.fe_RemotePeer event)) (ForkDetector.fe_RemoteEpoch event)
    epoch step 0 0))).

(** Save the job with a new status. *)
Definition save_job_status (status : string) (job : ForkHealingJob) : C ForkHealingJob :=
  t <-- now ;
  let job := set_job_UpdatedAtMs (UnixMilli t) (set_job_Status status job) in
  db (HealStore.SaveForkHealingJob job) ;;; ret job.

(** ** Starting: the durable job *)

Definition new_heal_job (traceID : string) (event : ForkDetector.ForkEvent) (startedAt : time) (c : Coord)
  : ForkHealingJob :=
  let ann := ForkDetector.fe_RemoteAnnounce event in
  let gid := ForkDetector.fe_GroupID event in
  mkForkHealingJob ("job-" +:+ gid +:+ "-" +:+ pretty (UnixMilli startedAt)) gid traceID "INITIATED"
    (hex_EncodeToString (c_lastCommitHash c)) (hex_EncodeToString (ann_CommitHash ann))
    (c_epoch c) (c_epoch c) (ForkDetector.fe_RemoteEpoch event) (c_treeHash c) (ann_TreeHash ann)
    (ann_CommitHash ann) [] (peer_String (ForkDetector.fe_RemotePeer event)) [] "" [] 0 [] [] "" 0
    (UnixMilli startedAt) (UnixMilli startedAt) 0.

Definition heal_begin (cancelled : bool) (traceID : string) (event : ForkDetector.ForkEvent)
  (scheduledAt : time) : C HealPC :=
  startedAt <-- now ;
  recordForkHealAudit traceID (ForkDetector.fe_GroupID event) "started" "completed" startedAt
    (Milliseconds (time_Sub startedAt scheduledAt)) "" ;;;
  if cancelled then now ;;; ret (HExit false)
  else
    stored <-- db (HealStore.GetActiveForkHealingJob (ForkDetector.fe_GroupID event)) ;
    job <-- (match stored with
             | inl (Some j) => ret j
             | _ =>
                 job <-- gets (new_heal_job traceID event startedAt) ;
                 db (HealStore.SaveForkHealingJob job) ;;; ret job
             end) ;
    SetOperationalMode ModeFrozenForApply ;;;
    ret (HSnapshot (mkHealRun traceID event scheduledAt startedAt job)).

(** ** Snapshot of the losing branch *)

(** An own message that was applied on the losing branch. *)
Definition snapshot_own (key : bytes) (job : ForkHealingJob) (groupID : string) (msg : StoredMessage) : C unit :=
  sealed <-- sealPayload (sm_Content msg) key ;
  match sealed with
  | inr _ => ret tt
  | inl (payload, nonce) =>
      local <-- opts o_LocalID ;
      t1 <-- now ;
      t2 <-- now ;
      save_event (mkApplicationEvent (hex_EncodeToString (sm_EnvelopeHash msg)) (job_JobID job) groupID
        (job_LosingBranchID job) (sm_Epoch msg) (peer_String local) (sm_EnvelopeHash msg) payload
        (sha256_sum (sm_Content msg)) "local_node_key" nonce (WallTimeMs (sm_Timestamp msg))
        (Counter (sm_Timestamp msg)) (NodeID (sm_Timestamp msg)) "ORPHANED_OWN" "" [] 0 0 ""
        (UnixMilli t1) (UnixMilli t2))
  end.

(** An application envelope that is still to be applied. *)
Definition snapshot_pending (key : bytes) (job : ForkHealingJob) (groupID : string) (rec : EnvelopeRecord) : C unit :=
  if negb (str_eqb (er_MsgType rec) MsgApplication) then ret tt
  else match dec_envelope (er_Envelope rec) with
  | inr _ => ret tt
  | inl en =>
      match dec_application (env_Payload en) with
      | inr _ => ret tt
      | inl appMsg =>
          gs <-- gets c_groupState ;
          local <-- opts o_LocalID ;
          dec <-- mls (fun e t => mls_DecryptMessage e t (default [] gs) (am_Ciphertext appMsg)) ;
          kept <-- (match dec with
                    | inr _ => ret ("UNRECOVERABLE", er_EnvelopeHash rec, [], [])
                    | inl (plaintext, _) =>
                        if str_eqb (env_From en) (peer_String local) then
                          sealed <-- sealPayload plaintext key ;
                          ret (match sealed with
                               | inl (payload, nonce) => ("ORPHANED_OWN", sha256_sum plaintext, payload, nonce)
                               | inr _ => ("ORPHANED_OWN", sha256_sum plaintext, [], [])
                               end)
                        else ret ("WAITING_AUTHOR_REPLAY", sha256_sum plaintext, [], [])
                    end) ;
          let '(status, pHash, payload, nonce) := kept in
          t1 <-- now ;
          t2 <-- now ;
          save_event (mkApplicationEvent (hex_EncodeToString (er_EnvelopeHash rec)) (job_JobID job) groupID
            (job_LosingBranchID job) (er_Epoch rec) (env_From en) (er_EnvelopeHash rec) payload pHash
            "local_node_key" nonce (WallTimeMs (er_Timestamp rec)) (Counter (er_Timestamp rec))
            (NodeID (er_Timestamp rec)) status "" [] 0 0 "" (UnixMilli t1) (UnixMilli t2))
      end
  end.

Definition heal_snapshot (r : HealRun) : C HealPC :=
  if negb (str_eqb (job_Status (hr_job r)) "INITIATED") then ret (HPropose r)
  else
    let groupID := ForkDetector.fe_GroupID (hr_event r) in
    stepStart <-- now ;
    recordForkHealAudit (hr_traceID r) groupID "snapshot_orphan" "started" stepStart 0 "" ;;;
    gid <-- opts o_GroupID ;
    local <-- opts o_LocalID ;
    sk <-- opts o_SigningKey ;
    own <-- db (Store.GetMessagesByOwnerInRange gid (peer_String local) 0 (UnixMilli (hr_startedAt r))) ;
    for_each (match own with inl ms => ms | inr _ => [] end)
      (snapshot_own (deriveStorageKey sk) (hr_job r) groupID) ;;;
    pending <-- db (Store.GetPendingEnvelopes groupID 1000) ;
    for_each (match pending with inl es => es | inr _ => [] end)
      (snapshot_pending (deriveStorageKey sk) (hr_job r) groupID) ;;;
    job <-- save_job_status "SNAPSHOT_CREATED" (hr_job r) ;
    audit_end r "snapshot_orphan" "completed" stepStart "" ;;;
    ret (HPropose (set_hr_job job r)).

(** ** Asking to join the winning branch *)

(** Build the join proposal under the current epoch and publish it. *)
Definition publish_join (msg : ProposalMsg) : C unit :=
  ts <-- hlc_Now ;
  envBytes <-- buildEnvelopeWithTimestampLocked MsgProposal (PProposal msg) ts ;
  when (negb (is_empty envBytes)) (publishPreparedEnvelopeLocked MsgProposal envBytes).

Definition heal_propose (r : HealRun) : C HealPC :=
  if negb (str_eqb (job_Status (hr_job r)) "SNAPSHOT_CREATED") then ret (HSwap r)
  else
    stepStart <-- now ;
    recordForkHealAudit (hr_traceID r) (ForkDetector.fe_GroupID (hr_event r)) "proposal_join_generation" "started"
      stepStart 0 "" ;;;
    sk <-- opts o_SigningKey ;
    kp <-- mls (fun e t => mls_GenerateKeyPackage e t sk) ;
    match kp with
    | inr e =>
        audit_end r "proposal_join_generation" "failed" stepStart (err_Error e) ;;;
        logHealFailed r "proposal_join_generation" ;;;
        ret (HExit true)
    | inl (kp, kpPriv) =>
        local <-- opts o_LocalID ;
        identity <-- envs (fun env => deriveIdentityFromSigningKey env sk) ;
        let msg := mkProposalMsg ProposalJoin kp [] (job_JobID (hr_job r)) (peer_String local) identity
                     "" "" "" (sha256_sum kp) in
        modify (fun c => set_c_treeHash [] (set_c_groupState None c)) ;;;
        publish_join msg ;;;
        t <-- now ;
        let job := set_job_UpdatedAtMs (UnixMilli t) (set_job_PendingBundlePrivate kpPriv
                     (set_job_Status "PROPOSAL_SENT" (hr_job r))) in
        db (HealStore.SaveForkHealingJob job) ;;;
        audit_end r "proposal_join_broadcast" "completed" stepStart "" ;;;
        ret (HAwait (set_hr_job job r) msg 1)
    end.

(** After the welcome signal the job is read back. *)
Definition reload_job (r : HealRun) : C HealPC :=
  stored <-- db (HealStore.GetActiveForkHealingJob (ForkDetector.fe_GroupID (hr_event r))) ;
  match stored with
  | inl (Some j) => ret (HSwap (set_hr_job j r))
  | _ => logHealFailed r "reload_job" ;;; ret (HExit true)
  end.

(** Receive from [welcomeReceivedChan], if there is something to receive. *)
Definition take_welcome : C bool :=
  b <-- gets c_welcomeReceived ;
  modify (set_c_welcomeReceived false) ;;; ret b.

Definition heal_await (sig : Signal) (r : HealRun) (msg : ProposalMsg) (attempt : Z) : C HealPC :=
  match sig with
  | SigWelcome =>
      b <-- take_welcome ;
      if b : bool then reload_job r else ret (HAwait r msg attempt)
  | SigCancelled => ret (HExit true)
  | SigTimeout =>
      b <-- take_welcome ;
      if b : bool then reload_job r
      else if attempt <? maxProposalJoinRetries then
        publish_join msg ;;; ret (HAwait r msg (attempt + 1))
      else logHealFailed r "awaiting_welcome" ;;; ret (HExit true)
  end.

(** ** Swapping the group state *)

(** The coordinator on the winning branch: fresh components at the new epoch,
    a history chain that starts there. *)
Definition healed (o : Opts) (newState newTreeHash : bytes) (newEpoch : Z) (c : Coord) : Coord :=
  let commitHash := ForkDetector.hashCommitData [] in
  let r0 := ForkDetector.initialHistoryHash (o_GroupID o) in
  let sw := SingleWriter.SetAuthorizedCommitters (o_GroupID o) (o_AuthorizedCommitters o)
              (SingleWriter.NewSingleWriter (o_LocalID o) newEpoch) in
  let ann := mkGroupStateAnnouncement newTreeHash (ActiveView.Size (c_activeView c)) newEpoch commitHash r0 in
  set_c_forkDetector (ForkDetector.UpdateLocal ann (ForkDetector.Reset (c_forkDetector c)))
  (set_c_historyChain {[newEpoch := r0]} (set_c_historyHash (Some r0)
  (set_c_lastCommitHash commitHash
  (set_c_singleWriter (Some sw)
  (set_c_epochTracker (Some (Epoch.NewEpochTracker newEpoch newTreeHash))
  (set_c_epoch newEpoch (set_c_treeHash newTreeHash (set_c_groupState (Some newState) c)))))))).

(** The record [applyHealedState] stores, from the previous one. *)
Definition healed_record (gid : string) (newState newTreeHash : bytes) (newEpoch : Z) (t : time)
  (prev : option GroupRecord) : GroupRecord :=
  let role := match prev with
              | Some p => if str_eqb (gr_MyRole p) "" then RoleMember else gr_MyRole p
              | None => RoleMember
              end in
  let createdAt := match prev with
                   | Some p => if time_IsZero (gr_CreatedAt p) then t else gr_CreatedAt p
                   | None => t
                   end in
  mkGroupRecord gid newState newEpoch newTreeHash role (from_option gr_GroupType "" prev)
    (from_option gr_CategoryID "" prev) "" createdAt t.

(** Store the record, move to it, announce it. *)
Definition swap_to (newState newTreeHash : bytes) (newEpoch : Z) (rec : GroupRecord) : C (result unit) :=
  saved <-- db (Store.SaveGroupRecord rec) ;
  match saved with
  | inr e => ret (inr (ErrWrap "persist healed group state" e))
  | inl _ =>
      o <-- opts (fun o => o) ;
      modify (healed o newState newTreeHash newEpoch) ;;;
      persisted <-- persistCoordStateLocked ;
      match persisted with
      | inr e => ret (inr (ErrWrap "persist healed coordination state" e))
      | inl _ =>
          cb <-- opts o_OnEpochChange ;
          when cb (emit (EEpochChange newEpoch)) ;;; ret (inl tt)
      end
  end.

(** [applyHealedState] *)
Definition applyHealedState (newState newTreeHash : bytes) (newEpoch : Z) : C (result unit) :=
  t <-- now ;
  o <-- opts (fun o => o) ;
  prev <-- db (Store.GetGroupRecord (o_GroupID o)) ;
  match prev with
  | inr e =>
      if negb (errors_Is e ErrGroupNotFound) then ret (inr (ErrWrap "load group record" e))
      else swap_to newState newTreeHash newEpoch (healed_record (o_GroupID o) newState newTreeHash newEpoch t None)
  | inl p => swap_to newState newTreeHash newEpoch (healed_record (o_GroupID o) newState newTreeHash newEpoch t (Some p))
  end.

(** ** The deferred calls *)

(** The group state is read back from the tables when the heal dropped it. *)
Definition restore_group_state : C unit :=
  gs <-- gets c_groupState ;
  match gs with
  | Some _ => ret tt
  | None =>
      gid <-- opts o_GroupID ;
      rec <-- db (Store.GetGroupRecord gid) ;
      match rec with
      | inl rec =>
          if is_empty (gr_GroupState rec) then ret tt
          else modify (fun c => set_c_treeHash (gr_TreeHash rec) (set_c_epoch (gr_Epoch rec)
                 (set_c_groupState (Some (gr_GroupState rec)) c)))
      | inr _ => ret tt
      end
  end.

Definition heal_exit (frozen : bool) : C HealPC :=
  when frozen (SetOperationalMode ModeLive) ;;;
  restore_group_state ;;;
  modify (set_c_healing false) ;;;
  ret HDone.

(** ** Swap, replay and clean up *)

Definition heal_swap (r : HealRun) : C HealPC :=
  let job := hr_job r in
  if negb (str_eqb (job_Status job) "EXTERNAL_JOINED") then ret (HReplay r)
  else
    stepStart <-- now ;
    recordForkHealAudit (hr_traceID r) (ForkDetector.fe_GroupID (hr_event r)) "state_swap" "started" stepStart 0 "" ;;;
    applied <-- (if is_empty (job_PendingGroupState job)
                 then ret (inr (ErrText "pending_group_state is missing at EXTERNAL_JOINED phase"))
                 else applyHealedState (job_PendingGroupState job) (job_PendingTreeHash job) (job_PendingEpoch job)) ;
    match applied with
    | inr e =>
        audit_end r "state_swap" "failed" stepStart (err_Error e) ;;;
        logHealFailed r "state_swap" ;;;
        ret (HExit true)
    | inl _ =>
        job <-- save_job_status "STATE_SWAPPED" job ;
        audit_end r "state_swap" "completed" stepStart "" ;;;
        ret (HReplay (set_hr_job job r))
    end.

(** An envelope left in the outbound queue is sent again, with the events it
    carries. *)
Definition resend_outbound (jobID : string) (outbound : OutboundReplay) : C Z :=
  if negb (str_eqb (or_Status outbound) "ENQUEUED") && negb (str_eqb (or_Status outbound) "FAILED") then ret 0
  else
    evs <-- db (HealStore.ListApplicationEvents jobID) ;
    let matchEvs := filter (fun ev => ae_ReplayOperationID ev = or_ReplayOperationID outbound)
                      (match evs with inl evs => evs | inr _ => [] end) in
    if is_empty matchEvs then ret 0
    else
      r <-- broadcastBatchedOutboundReplay outbound matchEvs ;
      ret (match r with inl _ => Z.of_nat (length matchEvs) | inr _ => 0 end).

Fixpoint resend_all (jobID : string) (os : list OutboundReplay) : C Z :=
  match os with
  | [] => ret 0
  | o :: rest => n <-- resend_outbound jobID o ; m <-- resend_all jobID rest ; ret (n + m)
  end.

Definition heal_replay (r : HealRun) : C HealPC :=
  let job := hr_job r in
  if negb (str_eqb (job_Status job) "STATE_SWAPPED") then ret (HClean r 0)
  else
    stepStart <-- now ;
    recordForkHealAudit (hr_traceID r) (ForkDetector.fe_GroupID (hr_event r)) "replay_started" "started" stepStart 0 "" ;;;
    queue <-- db (HealStore.ListOutboundReplays (job_JobID job)) ;
    resent <-- resend_all (job_JobID job) (match queue with inl q => q | inr _ => [] end) ;
    sent <-- batchAndReplayOutbox (job_JobID job) (job_GroupID job) ;
    job <-- save_job_status "LOCAL_COMPLETE" job ;
    audit_end r "replay_completed" "completed" stepStart "" ;;;
    ret (HClean (set_hr_job job r) (resent + sent)).

Definition heal_clean (r : HealRun) (replayedCount : Z) : C HealPC :=
  let job := hr_job r in
  let event := hr_event r in
  if negb (str_eqb (job_Status job) "LOCAL_COMPLETE") then ret (HExit true)
  else
    db (HealStore.ClearSealedPayloads (job_JobID job)) ;;;
    t1 <-- now ;
    t2 <-- now ;
    let job := set_job_UpdatedAtMs (UnixMilli t2) (set_job_CompletedAtMs (UnixMilli t1) (set_job_Status "CLEANED" job)) in
    db (HealStore.SaveForkHealingJob job) ;;;
    completedAt <-- now ;
    let durationMs := Milliseconds (time_Sub completedAt (hr_startedAt r)) in
    metric Metrics.IncrForkHealingsSucceeded ;;;
    metric (Metrics.RecordExternalJoin (time_Sub completedAt (hr_startedAt r))) ;;;
    recordForkHealEvent (mkForkHealEventRecord (hr_traceID r) (ForkDetector.fe_GroupID event)
      (peer_String (ForkDetector.fe_RemotePeer event)) (ForkDetector.fe_RemoteEpoch event) (job_PendingEpoch job)
      "success" "" [] [] (UnixMilli (ForkDetector.fe_PartitionStartedAt event)) (UnixMilli (hr_scheduledAt r))
      (UnixMilli (hr_startedAt r)) (UnixMilli completedAt) durationMs
      (Milliseconds (time_Sub completedAt (hr_scheduledAt r))) replayedCount) ;;;
    cb <-- opts o_OnForkHealEvent ;
    when cb (emit (EForkHeal (mkForkHealAuditSummary (ForkDetector.fe_GroupID event) (hr_traceID r)
      "fork_heal_completed" (peer_String (ForkDetector.fe_RemotePeer event))
      (ann_Epoch (ForkDetector.fe_RemoteAnnounce event)) (job_PendingEpoch job) "" replayedCount durationMs))) ;;;
    ret (HExit true).

(** One phase of [runHeal]. *)
Definition heal_step (sig : Signal) (pc : HealPC) : C HealPC :=
  match pc with
  | HBegin traceID event scheduledAt =>
      heal_begin (match sig with SigCancelled => true | _ => false end) traceID event scheduledAt
  | HSnapshot r => heal_snapshot r
  | HPropose r => heal_propose r
  | HAwait r msg attempt => heal_await sig r msg attempt
  | HSwap r => heal_swap r
  | HReplay r => heal_replay r
  | HClean r n => heal_clean r n
  | HExit frozen => heal_exit frozen
  | HDone => ret HDone
  end.

(** ** Resuming after a restart *)

(** [phaseBeforeStateSwapped] *)
Definition phaseBeforeStateSwapped (status : string) : bool :=
  bool_decide (status ∈ ["INITIATED"; "FROZEN_FOR_APPLY"; "SNAPSHOT_CREATED"; "EXTERNAL_JOINED"]).

(** [isAlreadyOnWinningBranch] *)
Definition isAlreadyOnWinningBranch (job : ForkHealingJob) (c : Coord) : bool :=
  if str_eqb (job_Status job) "INITIATED" || str_eqb (job_Status job) "SNAPSHOT_CREATED" then false
  else if (0 <? job_PendingEpoch job) && (c_epoch c =? job_PendingEpoch job)
  then bytes_eqb (c_treeHash c) (job_PendingTreeHash job)
  else if c_epoch c =? job_WinningEpoch job then bytes_eqb (c_treeHash c) (job_WinningTreeHash job)
  else false.

(** [resumeForkHealingJob] *)
Definition resumeForkHealingJob (job : ForkHealingJob) : C unit :=
  let winnerPeer := default (job_WinnerPeerID job) (peer_Decode (job_WinnerPeerID job)) in
  swapped <-- gets (isAlreadyOnWinningBranch job) ;
  job <-- (if swapped && phaseBeforeStateSwapped (job_Status job)
           then save_job_status "STATE_SWAPPED" job else ret job) ;
  healing <-- gets c_healing ;
  if healing : bool then ret tt
  else
    modify (set_c_healing true) ;;;
    let no_ann := mkGroupStateAnnouncement [] 0 0 [] [] in
    let event := ForkDetector.mkForkEvent (job_GroupID job) winnerPeer no_ann
                   (mkGroupStateAnnouncement (job_WinningTreeHash job) 0 (job_WinningEpoch job) [] [])
                   (job_WinningEpoch job) BranchLocal true [winnerPeer] (time_UnixMilli (job_CreatedAtMs job)) in
    go (TRunHeal (job_TraceID job) event (time_UnixMilli (job_CreatedAtMs job))).

(** ** The welcome of the winning branch *)

(** The job that waits for a welcome, if any. *)
Definition waiting_job : C (option ForkHealingJob) :=
  gid <-- opts o_GroupID ;
  r <-- db (HealStore.GetActiveForkHealingJob gid) ;
  ret (match r with
       | inl (Some j) => if str_eqb (job_Status j) "PROPOSAL_SENT" then Some j else None
       | _ => None
       end).

(** [ProcessWelcomeIfWaiting] *)
Definition ProcessWelcomeIfWaiting (welcomeBytes : bytes) : C bool :=
  waiting <-- waiting_job ;
  match waiting with
  | None => ret false
  | Some job =>
      if is_empty (job_PendingBundlePrivate job) then ret false
      else
        sk <-- opts o_SigningKey ;
        cfg <-- opts o_Config ;
        r <-- mls (fun e t => mls_ProcessWelcome e t welcomeBytes sk (job_PendingBundlePrivate job)
                                (Config.GetMaxPastEpochs cfg)) ;
        match r with
        | inr _ => ret false
        | inl (groupState, treeHash, epoch) =>
            waiting <-- waiting_job ;
            match waiting with
            | None => ret false
            | Some job =>
                save_job_status "EXTERNAL_JOINED" (set_job_PendingTreeHash treeHash (set_job_PendingEpoch epoch
                  (set_job_PendingGroupState groupState (set_job_WinningTreeHash treeHash
                  (set_job_WinningEpoch epoch job))))) ;;;
                modify (set_c_welcomeReceived true) ;;;
                ret true
            end
        end
  end.
End Heal.
