(* ===== verification/CoordLogic.v ===== *)
(** * Reasoning about coordinator methods

    [wp env m Q w]: from [w] the method returns (it neither panics nor runs
    out of depth) and [Q] holds of its result and final world.  [spec P R m]:
    from every world in [P] the method returns and moves along [R]; when [R]
    is a preorder that keeps [P], specifications compose along the code. *)
From S2P Require Import Prelude Types Database Coordinator.

Definition wp {A} (env : Env) (m : C A) (Q : A -> World -> Prop) (w : World) : Prop :=
  match m env w with
  | Ok a w' => Q a w'
  | _ => False
  end.

Definition with_c (f : Coord -> Coord) (w : World) : World :=
  mkWorld (f (w_c w)) (w_db w) (w_tick w) (w_trace w).
Definition tick (w : World) : World := mkWorld (w_c w) (w_db w) (S (w_tick w)) (w_trace w).
Definition with_effect (e : Effect) (w : World) : World :=
  mkWorld (w_c w) (w_db w) (w_tick w) (w_trace w ++ [e]).
Definition with_db (d : DB) (t : nat) (w : World) : World := mkWorld (w_c w) d t (w_trace w).

Section Wp.
Context (env : Env).

Lemma wp_ret {A} (a : A) Q w : wp env (ret a) Q w = Q a w.
Proof. done. Qed.
Lemma wp_gets {A} (f : Coord -> A) Q w : wp env (gets f) Q w = Q (f (w_c w)) w.
Proof. done. Qed.
Lemma wp_opts {A} (f : Opts -> A) Q w : wp env (opts f) Q w = Q (f (e_opts env)) w.
Proof. done. Qed.
Lemma wp_envs {A} (f : Env -> A) Q w : wp env (envs f) Q w = Q (f env) w.
Proof. done. Qed.
Lemma wp_modify f Q w : wp env (modify f) Q w = Q tt (with_c f w).
Proof. done. Qed.
Lemma wp_ask {A} (f : Env -> nat -> A) Q w : wp env (ask f) Q w = Q (f env (w_tick w)) (tick w).
Proof. done. Qed.
Lemma wp_emit e Q w : wp env (emit e) Q w = Q tt (with_effect e w).
Proof. done. Qed.
Lemma wp_db {A} (m : SQL A) Q w :
  wp env (db m) Q w =
  let '(r, t, d) := m (e_sql env) (w_tick w) (w_db w) in Q r (with_db d t w).
Proof. unfold wp, db. by destruct (m _ _ _) as [[? ?] ?]. Qed.

Lemma wp_bind {A B} (m : C A) (k : A -> C B) Q w :
  wp env (bind m k) Q w = wp env m (fun a w' => wp env (k a) Q w') w.
Proof. unfold wp, bind. by destruct (m env w). Qed.

Lemma wp_mono {A} (m : C A) (Q Q' : A -> World -> Prop) w :
  wp env m Q w -> (forall a w', Q a w' -> Q' a w') -> wp env m Q' w.
Proof. unfold wp. destruct (m env w); auto. Qed.

Lemma wp_and {A} (m : C A) (Q Q' : A -> World -> Prop) w :
  wp env m Q w -> wp env m Q' w -> wp env m (fun a w' => Q a w' /\ Q' a w') w.
Proof. unfold wp. by destruct (m env w). Qed.

Lemma wp_Ok {A} (m : C A) Q w :
  wp env m Q w -> exists a w', m env w = Ok a w' /\ Q a w'.
Proof. unfold wp. destruct (m env w); [by eauto|done..]. Qed.

Lemma wp_now Q w : wp env now Q w = Q (e_clock env (w_tick w)) (tick w).
Proof. done. Qed.
Lemma wp_go t Q w : wp env (go t) Q w = Q tt (with_effect (ESpawn t) w).
Proof. done. Qed.
Lemma wp_when b m Q w : wp env (when b m) Q w = (if b then wp env m Q w else Q tt w).
Proof. by destruct b. Qed.

Lemma wp_mls {A} (f : Env -> nat -> A) Q w :
  o_HasMLS (e_opts env) = true -> wp env (mls f) Q w = Q (f env (w_tick w)) (tick w).
Proof. intros H. unfold mls. rewrite wp_bind, wp_opts, H. apply wp_ask. Qed.
End Wp.

(** Execute the primitive at the head of the goal. *)
Ltac wp_step :=
  first [ rewrite wp_bind | rewrite wp_ret | rewrite wp_gets | rewrite wp_opts | rewrite wp_envs
        | rewrite wp_modify | rewrite wp_ask | rewrite wp_emit | rewrite wp_now | rewrite wp_go
        | rewrite wp_when | rewrite wp_mls by assumption ].
Ltac wp_run := repeat wp_step.

(** [pc env m Q w]: if the method returns, [Q] holds. *)
Definition pc {A} (env : Env) (m : C A) (Q : A -> World -> Prop) (w : World) : Prop :=
  forall a w', m env w = Ok a w' -> Q a w'.

Lemma wp_and_pc {A} env (m : C A) (Q Q' : A -> World -> Prop) w :
  wp env m Q w -> pc env m Q' w -> wp env m (fun a w' => Q a w' /\ Q' a w') w.
Proof. unfold wp, pc. destruct (m env w) as [a w'| |]; auto. Qed.

Section Pc.
Context (env : Env).

Lemma pc_bind {A B} (m : C A) (k : A -> C B) Q w :
  pc env m (fun a w' => pc env (k a) Q w') w -> pc env (bind m k) Q w.
Proof. intros H b w'. unfold bind. destruct (m env w) as [a w1| |] eqn:E; [|done..]. by apply H. Qed.

(** A computation that returns whatever happens. *)
Lemma pc_wp {A} (m : C A) Q w : wp env m Q w -> pc env m Q w.
Proof. unfold wp. intros H a w' E. by rewrite E in H. Qed.

Lemma pc_mls {A} (f : Env -> nat -> A) Q w : Q (f env (w_tick w)) (tick w) -> pc env (mls f) Q w.
Proof.
  intros H a w'. unfold mls, bind, opts. destruct (o_HasMLS _); [|done]. unfold ask. by intros [= <- <-].
Qed.

Lemma pc_mono {A} (m : C A) (Q Q' : A -> World -> Prop) w :
  pc env m Q w -> (forall a w', Q a w' -> Q' a w') -> pc env m Q' w.
Proof. intros H HQ a w' E. by apply HQ, H. Qed.

Lemma pc_singleWriter Q w :
  (forall s, c_singleWriter (w_c w) = Some s -> Q s w) -> pc env the_singleWriter Q w.
Proof.
  intros H a w'. unfold the_singleWriter, bind, gets. destruct (c_singleWriter (w_c w)); [|done].
  intros [= <- <-]. by apply H.
Qed.
Lemma pc_epochTracker Q w :
  (forall s, c_epochTracker (w_c w) = Some s -> Q s w) -> pc env the_epochTracker Q w.
Proof.
  intros H a w'. unfold the_epochTracker, bind, gets. destruct (c_epochTracker (w_c w)); [|done].
  intros [= <- <-]. by apply H.
Qed.
End Pc.

(** Execute a returning prefix under [pc]. *)
Ltac pc_step :=
  match goal with
  | |- pc _ (bind _ _) _ _ => apply pc_bind
  | |- pc _ (mls _) _ _ => apply pc_mls
  | |- pc _ the_singleWriter _ _ => apply pc_singleWriter; intros ? ?
  | |- pc _ the_epochTracker _ _ => apply pc_epochTracker; intros ? ?
  | |- pc _ _ _ _ => apply pc_wp; wp_step
  end.

(** ** Specifications *)

Definition spec {A} (env : Env) (P : World -> Prop) (R : World -> World -> Prop) (m : C A) : Prop :=
  forall w, P w -> wp env m (fun _ w' => R w w') w.

Class Stable (P : World -> Prop) (R : World -> World -> Prop) : Prop :=
  stable : forall w w', P w -> R w w' -> P w'.

Section Spec.
Context (env : Env) (P : World -> Prop) (R : World -> World -> Prop).
Context `{!PreOrder R} `{!Stable P R}.

Lemma spec_ret {A} (a : A) : spec env P R (ret a).
Proof. intros w _. rewrite wp_ret. reflexivity. Qed.

Lemma wp_spec {A} (m : C A) (Q : A -> World -> Prop) w :
  spec env P R m -> P w -> (forall a w', R w w' -> P w' -> Q a w') -> wp env m Q w.
Proof. intros Hm Hw HQ. eapply wp_mono; [by apply Hm|]. intros a w' HR.
  apply HQ; [done|]. by eapply stable.
Qed.

(** Go on after a first part, from a world that [w0] has led to. *)
Lemma wp_spec_bind {A B} (m : C A) (k : A -> C B) (Q : B -> World -> Prop) w0 w :
  spec env P R m -> P w -> R w0 w -> (forall a w', R w0 w' -> P w' -> wp env (k a) Q w') -> wp env (bind m k) Q w.
Proof.
  intros Hm Hw H0 HQ. rewrite wp_bind. apply wp_spec; [done..|]. intros a w' HR HP. apply HQ; [by etrans|done].
Qed.

Lemma spec_bind {A B} (m : C A) (k : A -> C B) :
  spec env P R m -> (forall a, spec env P R (k a)) -> spec env P R (bind m k).
Proof.
  intros Hm Hk w Hw. rewrite wp_bind. eapply wp_spec; [done..|]. intros a w' HR HP.
  eapply wp_mono; [by apply Hk|]. intros ? w'' HR'. cbn beta in *. by etrans.
Qed.

(** A read binds a value of the current world. *)
Lemma spec_read {A B} (f : Coord -> A) (k : A -> C B) :
  (forall w, P w -> wp env (k (f (w_c w))) (fun _ w' => R w w') w) -> spec env P R (bind (gets f) k).
Proof. intros Hk w Hw. rewrite wp_bind, wp_gets. by apply Hk. Qed.

Lemma spec_gets {A} (f : Coord -> A) : spec env P R (gets f).
Proof. intros w _. rewrite wp_gets. reflexivity. Qed.
Lemma spec_opts {A} (f : Opts -> A) : spec env P R (opts f).
Proof. intros w _. rewrite wp_opts. reflexivity. Qed.

(** The value of an option is known. *)
Lemma spec_opts_bind {A B} (f : Opts -> A) (k : A -> C B) :
  spec env P R (k (f (e_opts env))) -> spec env P R (bind (opts f) k).
Proof. intros Hk w Hw. rewrite wp_bind, wp_opts. by apply Hk. Qed.

Lemma spec_ret_bind {A B} (a : A) (k : A -> C B) : spec env P R (k a) -> spec env P R (bind (ret a) k).
Proof. intros Hk w Hw. rewrite wp_bind, wp_ret. by apply Hk. Qed.

Lemma spec_envs {A} (f : Env -> A) : spec env P R (envs f).
Proof. intros w _. rewrite wp_envs. reflexivity. Qed.
Lemma spec_when b m : spec env P R m -> spec env P R (when b m).
Proof. intros. destruct b; [done|apply spec_ret]. Qed.
Lemma spec_for_each {A} (l : list A) f : (forall x, x ∈ l -> spec env P R (f x)) -> spec env P R (for_each l f).
Proof.
  induction l as [|x l IH]; intros Hf; simpl; [apply spec_ret|].
  apply spec_bind; [apply Hf, list_elem_of_here|]. intros _. apply IH. intros y Hy. by apply Hf, list_elem_of_further.
Qed.

(** A result that satisfies a predicate is passed on. *)
Lemma spec_bind_value {A B} (V : A -> Prop) (m : C A) (k : A -> C B) :
  (forall w, P w -> wp env m (fun a w' => R w w' /\ V a) w) ->
  (forall a, V a -> spec env P R (k a)) -> spec env P R (bind m k).
Proof.
  intros Hm Hk w Hw. rewrite wp_bind. eapply wp_mono; [by apply Hm|]. intros a w' [HR HV].
  eapply wp_mono; [apply Hk; [done|by eapply stable]|]. intros ? w'' HR'. cbn beta in *. by etrans.
Qed.
End Spec.

(** Strengthen the precondition or weaken the relation. *)
Lemma spec_weaken {A} env (P P' : World -> Prop) (R R' : World -> World -> Prop) (m : C A) :
  spec env P R m -> (forall w, P' w -> P w) -> (forall w w', P' w -> R w w' -> R' w w') -> spec env P' R' m.
Proof. intros Hm HP HR w Hw. eapply wp_mono; [apply Hm; auto|]. intros ? w' H. by apply HR. Qed.

(** ** Methods without outputs *)

Section Mute.
Context (env : Env).

(** A method without outputs. *)
Definition mute {A} (m : C A) : Prop := forall w, pc env m (fun _ w' => w_trace w' = w_trace w) w.

Lemma mute_bind {A B} (m : C A) (k : A -> C B) : mute m -> (forall a, mute (k a)) -> mute (bind m k).
Proof.
  intros Hm Hk w. apply pc_bind. eapply pc_mono; [apply Hm|]. intros a w1 H1. cbn beta.
  eapply pc_mono; [apply Hk|]. intros b w2 H2. cbn beta in *. congruence.
Qed.
Lemma mute_ret {A} (a : A) : mute (ret a).
Proof. intros w. apply pc_wp. by wp_run. Qed.
Lemma mute_gets {A} (f : Coord -> A) : mute (gets f).
Proof. intros w. apply pc_wp. by wp_run. Qed.
Lemma mute_opts {A} (f : Opts -> A) : mute (opts f).
Proof. intros w. apply pc_wp. by wp_run. Qed.
Lemma mute_ask {A} (f : Env -> nat -> A) : mute (ask f).
Proof. intros w. apply pc_wp. by wp_run. Qed.
Lemma mute_envs {A} (f : Env -> A) : mute (envs f).
Proof. intros w. apply pc_wp. by wp_run. Qed.
Lemma mute_modify f : mute (modify f).
Proof. intros w. apply pc_wp. by wp_run. Qed.
Lemma mute_mls {A} (f : Env -> nat -> A) : mute (mls f).
Proof. intros w. by apply pc_mls. Qed.
Lemma mute_db {A} (m : SQL A) : mute (db m).
Proof. intros w. apply pc_wp. rewrite wp_db. by destruct (m _ _ _) as [[? ?] ?]. Qed.
Lemma mute_epochTracker : mute the_epochTracker.
Proof. intros w. by apply pc_epochTracker. Qed.
End Mute.

Ltac mute_auto :=
  repeat match goal with
  | |- mute _ (bind _ _) => apply mute_bind; [|intro]
  | |- mute _ (ret _) => apply mute_ret
  | |- mute _ (gets _) => apply mute_gets
  | |- mute _ (opts _) => apply mute_opts
  | |- mute _ (ask _) => apply mute_ask
  | |- mute _ now => apply mute_ask
  | |- mute _ (envs _) => apply mute_envs
  | |- mute _ (modify _) => apply mute_modify
  | |- mute _ (mls _) => apply mute_mls
  | |- mute _ (db _) => apply mute_db
  | |- mute _ the_epochTracker => apply mute_epochTracker
  | |- mute _ (if ?b then _ else _) => destruct b
  | |- mute _ (match ?o with _ => _ end) => destruct o
  | |- mute _ (let _ := _ in _) => cbv zeta
  end.
