(* ===== verification/CoordInv.v ===== *)
(** * The coordinator's invariant

    What holds of a started coordinator between two method calls, and what no
    method undoes: the epoch, the history chain, the set of applied envelopes
    and the trace only grow. *)
From S2P Require Import Prelude Sha256 Types Config Hlc Epoch ActiveView SingleWriter.
From S2P Require Import ForkDetector Helpers Database Store StoreSpec HealStore Coordinator.
From S2P Require Import CoordBroadcast CoordApplication CoordCommit CoordMessage CoordLogic.

(** ** Observations *)

(** The envelope hashes of the messages handed to the application; a message
    of a batch carries none. *)
Definition delivered (tr : list Effect) : list bytes :=
  omap (fun e => match e with
                 | EMessage m => if is_empty (sm_EnvelopeHash m) then None else Some (sm_EnvelopeHash m)
                 | _ => None
                 end) tr.

(** The wires published on the group topic. *)
Definition published (tr : list Effect) : list bytes :=
  omap (fun e => match e with EPublish _ wire => Some wire | _ => None end) tr.

(** The future epochs with buffered envelopes, and their number. *)
Definition future_epochs (c : Coord) : gset Z :=
  match c_epochTracker c with
  | Some et => dom (Epoch.et_futureBuffer et)
  | None => ∅
  end.
Definition backlog (c : Coord) : nat := size (future_epochs c).

(** An operation on a member names the member. *)
Definition op_targeted (op : PendingOperation) : Prop :=
  po_OpType op = "ADD_MEMBER" \/ po_OpType op = "REMOVE_MEMBER" -> is_Some (po_TargetMemberID op).

Section Invariant.
Context {PC : PeerCodec} {WC : WireCodec}.
Variable env : Env.

Notation gid := (o_GroupID (e_opts env)).

(** A buffered envelope is of the epoch it is buffered under. *)
Definition buffered_right (et : Epoch.EpochTracker) : Prop :=
  forall e raws raw en, Epoch.et_futureBuffer et !! e = Some raws -> raw ∈ raws ->
    dec_envelope raw = inl en -> env_Epoch en = e.

Definition is_applied (d : DB) (h : bytes) : Prop := is_Some (db_applied d !! (gid, h)).

(** A commit or application message on the wire has been applied locally. *)
Definition publishable (d : DB) (wire : bytes) : Prop :=
  forall en, dec_envelope wire = inl en -> isolates (env_Type en) = true -> is_applied d (sha256_sum wire).

(** The components agree on the epoch. *)
Record components_ok (c : Coord) : Prop := {
  ok_writer : exists sw, c_singleWriter c = Some sw /\ SingleWriter.sw_epoch sw = c_epoch c;
  ok_tracker : exists et, c_epochTracker c = Some et /\ Epoch.et_epoch et = c_epoch c /\
    Epoch.tracker_ok et /\ buffered_right et;
  ok_epoch : 0 <= c_epoch c < 2 ^ 63;
  ok_history : exists h, c_historyHash c = Some h /\ c_historyChain c !! c_epoch c = Some h;
  ok_local : exists ann, ForkDetector.fd_local (c_forkDetector c) = Some ann /\
    ann_Epoch ann = c_epoch c /\ Some (ann_HistoryHash ann) = c_historyHash c;
}.

(** What is stored agrees with what is in memory. *)
Record store_ok (c : Coord) (d : DB) : Prop := {
  ok_group : forall row, db_groups d !! gid = Some row ->
    gr_Epoch (grow_rec row) = c_epoch c;
  ok_ops : Forall op_targeted (db_pending_ops d);
}.

(** What has left the node. *)
Record trace_ok (tr : list Effect) (d : DB) : Prop := {
  ok_once : NoDup (delivered tr);
  ok_delivered : Forall (is_applied d) (delivered tr);
  ok_published : Forall (publishable d) (published tr);
}.

Record coord_ok (w : World) : Prop := {
  ok_components : components_ok (w_c w);
  ok_store : store_ok (w_c w) (w_db w);
  ok_trace : trace_ok (w_trace w) (w_db w);
}.

(** A stored healing job has not got past its join proposal, and its private
    key package is not stored. *)
Definition job_waiting (j : ForkHealingJob) : Prop :=
  job_PendingBundlePrivate j = [] /\ job_Status j ∈ ["INITIATED"; "SNAPSHOT_CREATED"; "PROPOSAL_SENT"].

(** No heal has been answered. *)
Record heal_ok (w : World) : Prop := {
  ok_jobs : Forall job_waiting (db_heal_jobs (w_db w));
  ok_signal : c_welcomeReceived (w_c w) = false;
}.

Lemma heal_ok_eq w w' :
  db_heal_jobs (w_db w') = db_heal_jobs (w_db w) -> c_welcomeReceived (w_c w') = c_welcomeReceived (w_c w) ->
  heal_ok w -> heal_ok w'.
Proof. intros J S [HJ HS]. split; congruence. Qed.

(** What only grows; that the records of other groups and the cursors of pulls
    stay; and that no heal is answered. *)
Record extends (w w' : World) : Prop := {
  ex_epoch : c_epoch (w_c w) <= c_epoch (w_c w');
  ex_chain : forall e, e <= c_epoch (w_c w) -> c_historyChain (w_c w') !! e = c_historyChain (w_c w) !! e;
  ex_applied : applied_mono (w_db w) (w_db w');
  ex_others : forall g, g <> gid -> db_groups (w_db w') !! g = db_groups (w_db w) !! g;
  ex_cursors : db_pull_cursors (w_db w') = db_pull_cursors (w_db w);
  ex_trace : w_trace w `prefix_of` w_trace w';
  ex_heal : heal_ok w -> heal_ok w';
}.

(** A method may leave envelopes buffered for new epochs only in [grow]. *)
Definition evolves (grow : gset Z) (w w' : World) : Prop :=
  coord_ok w -> coord_ok w' /\ extends w w' /\
  future_epochs (w_c w') ⊆ future_epochs (w_c w) ∪ grow.

#[export] Instance extends_preorder : PreOrder extends.
Proof.
  split; [by intros w; split|]. intros w1 w2 w3 [E1 C1 A1 G1 P1 T1 H1] [E2 C2 A2 G2 P2 T2 H2].
  split; [lia| |by etrans| |congruence|by etrans|auto].
  - intros e He. rewrite C2 by lia. auto.
  - intros g Hg. rewrite G2; auto.
Qed.

#[export] Instance evolves_preorder grow : PreOrder (evolves grow).
Proof.
  split.
  - intros w Hw. split; [done|]. split; [reflexivity|set_solver].
  - intros w1 w2 w3 H1 H2 Hw. destruct (H1 Hw) as (Hw2 & E1 & B1).
    destruct (H2 Hw2) as (Hw3 & E2 & B2). split; [done|]. split; [by etrans|set_solver].
Qed.

Lemma evolves_grow grow w w' : evolves ∅ w w' -> evolves grow w w'.
Proof. intros H Hw. destruct (H Hw) as (? & ? & ?). split; [done|]. split; [done|set_solver]. Qed.

Lemma evolves_backlog w w' : evolves ∅ w w' -> coord_ok w -> (backlog (w_c w') <= backlog (w_c w))%nat.
Proof. intros H Hw. destruct (H Hw) as (_ & _ & B). unfold backlog. apply subseteq_size. set_solver. Qed.

(** The precondition of the handlers: the invariant, a bound on the future
    epochs they may have to go through, and an epoch that has been reached. *)
Definition within (n : nat) (e : Z) (w : World) : Prop :=
  coord_ok w /\ (backlog (w_c w) <= n)%nat /\ e <= c_epoch (w_c w).

#[export] Instance within_stable n e : Stable (within n e) (evolves ∅).
Proof.
  intros w w' (Hw & Hn & He) H. pose proof (evolves_backlog _ _ H Hw).
  destruct (H Hw) as (Hw' & [Ep _ _ _ _ _ _] & _). split; [done|]. split; lia.
Qed.
#[export] Instance coord_ok_stable grow : Stable coord_ok (evolves grow).
Proof. intros w w' Hw H. by destruct (H Hw). Qed.

(** ** Moves that keep the invariant *)

Lemma is_applied_mono d d' h : applied_mono d d' -> is_applied d h -> is_applied d' h.
Proof. intros H. apply H. Qed.
Lemma publishable_mono d d' wire : applied_mono d d' -> publishable d wire -> publishable d' wire.
Proof. intros H Hp en E I. eauto using is_applied_mono. Qed.

Lemma trace_ok_mono tr d d' : applied_mono d d' -> trace_ok tr d -> trace_ok tr d'.
Proof.
  intros H [O D P]. split; [done|..]; eapply Forall_impl; eauto using is_applied_mono, publishable_mono.
Qed.

(** An effect that neither delivers a message nor publishes. *)
Definition quiet (e : Effect) : Prop := delivered [e] = [] /\ published [e] = [].

Lemma delivered_app t1 t2 : delivered (t1 ++ t2) = delivered t1 ++ delivered t2.
Proof. apply omap_app. Qed.
Lemma published_app t1 t2 : published (t1 ++ t2) = published t1 ++ published t2.
Proof. apply omap_app. Qed.

Lemma evolves_effect grow e w :
  (trace_ok (w_trace w) (w_db w) -> trace_ok (w_trace w ++ [e]) (w_db w)) ->
  evolves grow w (with_effect e w).
Proof.
  intros H [HC HS HT]. split; [|split; [|set_solver]].
  - split; simpl; auto.
  - split; simpl; [lia|done|done|done|done|by apply prefix_app_r|by apply heal_ok_eq].
Qed.

Lemma evolves_quiet grow e w : quiet e -> evolves grow w (with_effect e w).
Proof.
  intros [Q1 Q2]. apply evolves_effect. intros [O D P].
  split; rewrite ?delivered_app, ?published_app, ?Q1, ?Q2, ?app_nil_r; done.
Qed.

Lemma evolves_publish grow t wire w :
  publishable (w_db w) wire -> evolves grow w (with_effect (EPublish t wire) w).
Proof.
  intros H. apply evolves_effect. intros [O D P].
  split; rewrite ?delivered_app, ?published_app; simpl; rewrite ?app_nil_r; try done.
  apply Forall_app. split; [done|]. by constructor.
Qed.

Lemma evolves_deliver grow m w :
  (sm_EnvelopeHash m <> [] -> is_applied (w_db w) (sm_EnvelopeHash m) /\
     ~ sm_EnvelopeHash m ∈ delivered (w_trace w)) ->
  evolves grow w (with_effect (EMessage m) w).
Proof.
  intros H. apply evolves_effect. intros [O D P].
  assert (E : delivered [EMessage m] = if is_empty (sm_EnvelopeHash m) then [] else [sm_EnvelopeHash m])
    by (cbn; by destruct (is_empty (sm_EnvelopeHash m))).
  split; rewrite ?delivered_app, ?published_app, ?E; simpl; rewrite ?app_nil_r; try done.
  - destruct (is_empty (sm_EnvelopeHash m)) eqn:Ee; [by rewrite app_nil_r|].
    apply is_empty_false in Ee. destruct (H Ee) as [_ Hn].
    apply NoDup_app. split; [done|]. split; [|apply NoDup_singleton].
    intros x Hx ->%list_elem_of_singleton. done.
  - apply Forall_app. split; [done|]. destruct (is_empty (sm_EnvelopeHash m)) eqn:Ee; [done|].
    apply is_empty_false in Ee. destruct (H Ee). by constructor.
Qed.

(** The part of the coordinator the invariant is about. *)
Definition same_core (c c' : Coord) : Prop :=
  c_epoch c' = c_epoch c /\ c_historyHash c' = c_historyHash c /\
  c_historyChain c' = c_historyChain c /\ c_epochTracker c' = c_epochTracker c /\
  (SingleWriter.sw_epoch <$> c_singleWriter c') = (SingleWriter.sw_epoch <$> c_singleWriter c) /\
  ForkDetector.fd_local (c_forkDetector c') = ForkDetector.fd_local (c_forkDetector c) /\
  c_welcomeReceived c' = c_welcomeReceived c.

Lemma same_core_components c c' : same_core c c' -> components_ok c -> components_ok c'.
Proof.
  intros (E & H & Ch & T & S & F & _) [W Tr R Hi L]. split; rewrite ?E, ?H, ?Ch, ?T, ?F; try done.
  destruct W as (sw & Es & Ee). rewrite Es in S. simpl in S.
  destruct (c_singleWriter c') as [sw'|]; [|done]. simpl in S. simplify_eq. eexists; split; [done|congruence].
Qed.

Lemma evolves_core grow f w : same_core (w_c w) (f (w_c w)) -> evolves grow w (with_c f w).
Proof.
  intros Hs [HC HS HT]. pose proof Hs as (E & _ & Ch & T & _ & _ & Sg). split; [|split].
  - split; simpl; [by eapply same_core_components| |done].
    destruct HS as [G O]. split; rewrite ?E; done.
  - split; simpl; rewrite ?Ch, ?E; [lia|done..|by apply heal_ok_eq].
  - unfold future_epochs. simpl. rewrite T. set_solver.
Qed.

Lemma evolves_tick grow w : evolves grow w (tick w).
Proof. intros [HC HS HT]. split; [by split|]. split; [split; try done; by apply heal_ok_eq|]. set_solver. Qed.

(** A change of the tables. *)
Record db_kept (c : Coord) (d d' : DB) : Prop := {
  dk_applied : applied_mono d d';
  dk_others : forall g, g <> gid -> db_groups d' !! g = db_groups d !! g;
  dk_cursors : db_pull_cursors d' = db_pull_cursors d;
  dk_store : store_ok c d -> store_ok c d';
  dk_jobs : Forall job_waiting (db_heal_jobs d) -> Forall job_waiting (db_heal_jobs d');
}.

#[export] Instance db_kept_preorder c : PreOrder (db_kept c).
Proof.
  split; [intros d; by split|]. intros d1 d2 d3 [A1 G1 P1 S1 J1] [A2 G2 P2 S2 J2]. split; [by etrans| |congruence|auto..].
  intros g Hg. rewrite G2; auto.
Qed.

Lemma evolves_db grow d' t w : db_kept (w_c w) (w_db w) d' -> evolves grow w (with_db d' t w).
Proof.
  intros [A G P S J] [HC HS HT]. split; [|split].
  - split; simpl; eauto using trace_ok_mono.
  - split; simpl; try done. intros [HJ HG]. split; simpl; auto.
  - set_solver.
Qed.
(** Buffering an envelope under its epoch. *)
Lemma evolves_buffer grow e raw et w :
  e ∈ grow -> c_epochTracker (w_c w) = Some et ->
  (forall en, dec_envelope raw = inl en -> env_Epoch en = e) ->
  evolves grow w (with_c (set_c_epochTracker (Some (Epoch.BufferFuture e raw et))) w).
Proof.
  intros Hin Et Hraw [[W (et' & Et' & Ee & Ok & Br) Rg Hi L] HSt HT]. simplify_eq.
  split; [|split]; [split; simpl; [split; simpl|..]|..]; try done.
  - eexists. split; [done|]. rewrite Epoch.BufferFuture_epoch. split; [done|].
    split; [by apply Epoch.tracker_ok_buffer|].
    intros e' raws r en. rewrite Epoch.BufferFuture_lookup. case_decide as Hc; [|by apply Br].
    intros [= <-]. destruct Hc as [_ <-]. intros [Hr|Hr%list_elem_of_singleton]%elem_of_app; [|subst; auto].
    destruct (Epoch.et_futureBuffer et !! e) eqn:E; simpl in Hr; [by eapply Br|by apply not_elem_of_nil in Hr].
  - by destruct HSt; split.
  - split; try done. by apply heal_ok_eq.
  - unfold future_epochs. simpl. rewrite Et. unfold Epoch.BufferFuture. case_match; [set_solver|].
    simpl. rewrite dom_insert. set_solver.
Qed.

End Invariant.
