(* ===== verification/CoordSafe.v ===== *)
(** * Every method keeps the invariant: publishing, storing, applications

    The proofs follow the code: a method that only calls methods already
    covered is closed by [spec_auto]; the ones that change what the invariant
    is about have a proof of their own. *)
From S2P Require Import Prelude Sha256 Types Config Hlc Epoch ActiveView SingleWriter.
From S2P Require Import ForkDetector Helpers Database Store StoreSpec HealStore Coordinator.
From S2P Require Import CoordBroadcast CoordApplication CoordCommit CoordMessage CoordLogic.
From S2P Require Import CoordInv.

(** ** Storage calls *)

(** Calls that leave the groups, the pending operations and the healing jobs
    alone. *)
Definition frame (d d' : DB) : Prop :=
  db_groups d' = db_groups d /\ db_pending_ops d' = db_pending_ops d /\
  db_heal_jobs d' = db_heal_jobs d /\ db_pull_cursors d' = db_pull_cursors d /\ applied_mono d d'.

#[export] Instance frame_preorder : PreOrder frame.
Proof.
  split; [by intros d|]. intros d1 d2 d3 (G1 & O1 & J1 & P1 & A1) (G2 & O2 & J2 & P2 & A2).
  do 4 (split; [congruence|]). by etrans.
Qed.

Lemma frame_eq d d' :
  db_groups d' = db_groups d -> db_pending_ops d' = db_pending_ops d ->
  db_heal_jobs d' = db_heal_jobs d -> db_pull_cursors d' = db_pull_cursors d ->
  db_applied d' = db_applied d -> frame d d'.
Proof. intros G O J P A. do 4 (split; [done|]). by apply applied_mono_eq. Qed.

Ltac frame_auto := repeat (sql_step || (apply frame_eq; reflexivity)).

Lemma respects_frame_tx {A} c (body : SQL (A * bool)) : respects frame body -> respects frame (sql_tx c body).
Proof. intros H. apply respects_tx; [apply _|]. by apply respects_ensures. Qed.

Lemma frame_run {A} (m : SQL A) env t d a t' d' :
  m env t d = (inl a, t', d') -> respects frame m -> frame d d'.
Proof. intros E H. by eapply (respects_ensures frame). Qed.

Section StorageFrames.
Context {PC : PeerCodec}.

Lemma SaveCoordState_frame s : respects frame (Store.SaveCoordState s).
Proof. unfold Store.SaveCoordState. frame_auto. Qed.
Lemma replayStateTx_frame g h s e t : respects frame (Store.markEnvelopeReplayStateTx g h s e t).
Proof. unfold Store.markEnvelopeReplayStateTx. frame_auto. Qed.
Lemma MarkEnvelopeReplayState_frame g h s e t : respects frame (Store.MarkEnvelopeReplayState g h s e t).
Proof. unfold Store.MarkEnvelopeReplayState. frame_auto; apply replayStateTx_frame. Qed.
Lemma AppendEnvelopeWithSource_frame g ty e ts w src :
  respects frame (Store.AppendEnvelopeWithSource g ty e ts w src).
Proof.
  unfold Store.AppendEnvelopeWithSource. apply respects_frame_tx.
  unfold Store.dedup_insert, Store.touch_received, Store.log_insert. frame_auto.
Qed.
Lemma HasAppliedEnvelope_frame g h : respects frame (Store.HasAppliedEnvelope g h).
Proof. unfold Store.HasAppliedEnvelope, Store.hasAppliedEnvelopeTx. frame_auto. Qed.
Lemma GetGroupRecord_frame g : respects frame (Store.GetGroupRecord g).
Proof. unfold Store.GetGroupRecord. frame_auto. Qed.
Lemma GetEnvelope_frame h : respects frame (Store.GetEnvelope h).
Proof. unfold Store.GetEnvelope. frame_auto. Qed.
Lemma GetPendingEnvelopes_frame g n : respects frame (Store.GetPendingEnvelopes g n).
Proof. unfold Store.GetPendingEnvelopes. frame_auto. Qed.
Lemma GetMessagesByOwnerInRange_frame g s a b : respects frame (Store.GetMessagesByOwnerInRange g s a b).
Proof. unfold Store.GetMessagesByOwnerInRange, Store.scanMessages. frame_auto. Qed.
Lemma SaveApplicationEvent_frame e : respects frame (HealStore.SaveApplicationEvent e).
Proof.
  unfold HealStore.SaveApplicationEvent.
  frame_auto; (apply respects_readonly; [apply _|apply HealStore.readonly_not_null]).
Qed.

(** Saving the group record stores its epoch. *)
Definition stores (rec : GroupRecord) (d d' : DB) : Prop :=
  gr_Epoch rec < 2 ^ 63 /\ db_pending_ops d' = db_pending_ops d /\
  db_heal_jobs d' = db_heal_jobs d /\ db_pull_cursors d' = db_pull_cursors d /\ applied_mono d d' /\
  (forall g, g <> gr_GroupID rec -> db_groups d' !! g = db_groups d !! g) /\
  exists row, db_groups d' !! gr_GroupID rec = Some row /\
    gr_Epoch (grow_rec row) = gr_Epoch rec.

Lemma upsert_group_epoch env rec o :
  gr_Epoch (grow_rec (Store.upsert_group env rec o)) = gr_Epoch rec.
Proof. by destruct o. Qed.

Lemma saveGroupRecordTx_stores rec env t d u t' d' :
  Store.saveGroupRecordTx rec env t d = (inl u, t', d') -> stores rec d d'.
Proof.
  unfold Store.saveGroupRecordTx. destruct (Store.validateGroupRecordForSave rec); [done|]. intros H.
  apply bind_inl in H as (? & ? & ? & H1 & H). apply uint64_inl in H1 as [? ->].
  apply exec_inl in H as [-> _]. do 4 (split; [done|]). split; [by apply applied_mono_eq|].
  split; [intros g Hg; by apply lookup_insert_ne|].
  eexists. split; [apply lookup_insert_eq|]. apply upsert_group_epoch.
Qed.

Lemma SaveGroupRecord_result rec env t d r t' d' :
  Store.SaveGroupRecord rec env t d = (r, t', d') -> match r with inl _ => stores rec d d' | inr _ => d' = d end.
Proof.
  unfold Store.SaveGroupRecord. destruct (Store.validateGroupRecordForSave rec) eqn:E; [by intros [= <- _ <-]|].
  destruct r as [u|e].
  - intros H%wrap_inl. apply (saveGroupRecordTx_stores rec env t d u t').
    unfold Store.saveGroupRecordTx. by rewrite E.
  - apply atomic_wrap. intros env' t0 d0 e0 t1 d1.
    apply atomic_bind_read; [apply readonly_uint64|]. intros a env1 t2 d2. apply atomic_exec.
Qed.

Lemma SaveGroupRecord_stores rec env t d r t' d' :
  Store.SaveGroupRecord rec env t d = (r, t', d') -> d' = d \/ stores rec d d'.
Proof. intros E%SaveGroupRecord_result. destruct r; auto. Qed.

Lemma stores_frame rec d d1 d2 : stores rec d d1 -> frame d1 d2 -> stores rec d d2.
Proof.
  intros (E & O & J & P & A & N & row & G) (G' & O' & J' & P' & A'). split; [done|]. do 3 (split; [congruence|]). split; [by etrans|].
  rewrite G'. split; [done|]. by exists row.
Qed.

Lemma markAppliedSQL_frame g ty e h : respects frame (Store.markEnvelopeAppliedSQL g ty e h).
Proof.
  unfold Store.markEnvelopeAppliedSQL. frame_auto.
  match goal with |- context [db_applied ?d !! ?k] => destruct (db_applied d !! k) eqn:E; [reflexivity|] end.
  do 4 (split; [done|]). intros k Hk. simpl.
  destruct (decide (k = (g, h))) as [->|]; simplify_map_eq; eauto.
Qed.
Lemma markAppliedTx_frame g ty e h : respects frame (Store.markEnvelopeAppliedTx g ty e h).
Proof.
  unfold Store.markEnvelopeAppliedTx. frame_auto; auto using markAppliedSQL_frame, replayStateTx_frame.
Qed.
Lemma appendTx_frame g ty e ts w : respects frame (Store.appendEnvelopeTx g ty e ts w).
Proof. unfold Store.appendEnvelopeTx, Store.dedup_insert, Store.touch_received, Store.log_insert. frame_auto. Qed.
Lemma saveMessageTx_frame m : respects frame (Store.saveMessageTx m).
Proof.
  unfold Store.saveMessageTx. frame_auto.
  unfold Store.insert_message. case_match; [reflexivity|by apply frame_eq].
Qed.
Lemma save_messages_frame h ms : respects frame (Store.save_messages h ms).
Proof. induction ms; simpl; frame_auto; [apply saveMessageTx_frame|done]. Qed.

(** The three apply operations: nothing, or the whole transaction. *)
Lemma apply_cases c c1 c2 g h (work : SQL (bool * Z * bool)) env t d r t' d' :
  (forall env t d x t' d', work env t d = (inl x, t', d') -> x.1.1 = true /\ x.2 = true) ->
  sql_tx c (applied <-! sql_wrap c1 (Store.hasAppliedEnvelopeTx g h) ;
    if applied : bool then sql_wrap c2 sql_commit ;;! sql_ret ((false, 0), true) else work) env t d = (r, t', d') ->
  (d' = d /\ forall s, r <> inl (true, s)) \/ 
  exists s t1, r = inl (true, s) /\ work env t1 d = (inl ((true, s), true), t', d').
Proof.
  intros Hw. destruct r as [[b s]|e]; [|intros H%atomic_tx; by left].
  intros [(d1 & H & ->)|H]%tx_inl; unfold Store.hasAppliedEnvelopeTx in H; sql_inv;
    case_match; sql_inv; try (left; split; [done|by intros ? [= ?]]).
  - destruct (Hw _ _ _ _ _ _ H). done.
  - destruct (Hw _ _ _ _ _ _ H) as [Hb _]. simpl in Hb. subst b. right. eauto.
Qed.

(** What an apply operation does to the tables. *)
Definition applies (rec : GroupRecord) (wire : bytes) (d : DB) (r : result (bool * Z)) (d' : DB) : Prop :=
  (d' = d /\ forall s, r <> inl (true, s)) \/
  (stores rec d d' /\ db_applied d !! (gr_GroupID rec, sha256_sum wire) = None /\
   is_Some (db_applied d' !! (gr_GroupID rec, sha256_sum wire)) /\ exists s, r = inl (true, s)).

Lemma applies_intro rec wire m env t d r t' d' `{!AppliesOnce (gr_GroupID rec) (sha256_sum wire) m} :
  m env t d = (r, t', d') ->
  (d' = d /\ forall s, r <> inl (true, s)) \/ (stores rec d d' /\ exists s, r = inl (true, s)) ->
  applies rec wire d r d'.
Proof.
  intros E [H|[H [s ->]]]; [by left|]. right. destruct (ao_fresh _ _ _ _ _ _ E). eauto.
Qed.

Lemma ApplyCommit_applies rec ty wire ts e env t d r t' d' :
  Store.ApplyCommit rec ty wire ts e env t d = (r, t', d') -> applies rec wire d r d'.
Proof.
  intros E. refine (applies_intro _ _ _ _ _ _ _ _ _ E _). revert E. unfold Store.ApplyCommit.
  case_match; [intros [= <- _ <-]; by left|].
  intros [|(s & t1 & -> & Hw)]%apply_cases; [by left| |by intros; sql_inv].
  right. split; [|by eauto]. sql_inv.
  eapply stores_frame; [by eapply saveGroupRecordTx_stores|].
  etrans; [by eapply frame_run, markAppliedTx_frame|by eapply frame_run, appendTx_frame].
Qed.

Lemma ApplyApplication_applies rec msg ty wire ts e env t d r t' d' :
  Store.ApplyApplication rec msg ty wire ts e env t d = (r, t', d') -> applies rec wire d r d'.
Proof.
  intros E. refine (applies_intro _ _ _ _ _ _ _ _ _ E _). revert E. unfold Store.ApplyApplication.
  case_match; [intros [= <- _ <-]; by left|].
  intros [|(s & t1 & -> & Hw)]%apply_cases; [by left| |by intros; sql_inv].
  right. split; [|by eauto]. sql_inv.
  eapply stores_frame; [by eapply saveGroupRecordTx_stores|].
  etrans; [by eapply frame_run, saveMessageTx_frame|].
  etrans; [by eapply frame_run, markAppliedTx_frame|by eapply frame_run, appendTx_frame].
Qed.

Lemma ApplyBatched_applies rec msgs ty wire ts e env t d r t' d' :
  Store.ApplyBatchedApplication rec msgs ty wire ts e env t d = (r, t', d') -> applies rec wire d r d'.
Proof.
  intros E. refine (applies_intro _ _ _ _ _ _ _ _ _ E _). revert E. unfold Store.ApplyBatchedApplication.
  case_match; [intros [= <- _ <-]; by left|].
  intros [|(s & t1 & -> & Hw)]%apply_cases; [by left| |by intros; sql_inv].
  right. split; [|by eauto]. sql_inv.
  eapply stores_frame; [by eapply saveGroupRecordTx_stores|].
  etrans; [by eapply frame_run, save_messages_frame|].
  etrans; [by eapply frame_run, markAppliedTx_frame|by eapply frame_run, appendTx_frame].
Qed.
End StorageFrames.

(** ** Methods *)

(** Close or decompose a [spec] goal along the structure of the code. *)
Ltac spec_step :=
  match goal with
  | |- spec _ _ _ (ret _) => apply spec_ret; apply _
  | |- spec _ _ _ (gets _) => apply spec_gets; apply _
  | |- spec _ _ _ (opts _) => apply spec_opts; apply _
  | |- spec _ _ _ (envs _) => apply spec_envs; apply _
  | |- spec _ _ _ (bind (opts _) _) => apply spec_opts_bind
  | |- spec _ _ _ (bind _ _) => apply spec_bind; [apply _|apply _| |intro]
  | |- spec _ _ _ (when _ _) => apply spec_when; [apply _|]
  | |- spec _ _ _ (for_each _ _) => apply spec_for_each; [apply _|apply _|intros ? _]
  | |- spec _ _ _ (if ?b then _ else _) => destruct b
  | |- spec _ _ _ (match ?o with _ => _ end) => destruct o
  | |- spec _ _ _ (let _ := _ in _) => cbv zeta
  end.
Ltac spec_auto := repeat (solve [eauto 3 with coord_spec] || spec_step).

Create HintDb coord_spec.
#[export] Hint Resolve SaveCoordState_frame MarkEnvelopeReplayState_frame AppendEnvelopeWithSource_frame
  HasAppliedEnvelope_frame GetGroupRecord_frame GetEnvelope_frame GetPendingEnvelopes_frame
  GetMessagesByOwnerInRange_frame SaveApplicationEvent_frame : coord_spec.

#[export] Hint Extern 1 (quiet _) => split; reflexivity : coord_spec.

Section Methods.
Context {PC : PeerCodec} {WC : WireCodec}.
Context (env : Env) (grow : gset Z) (P : World -> Prop).
Context (HP : forall w, P w -> coord_ok env w) `{HS : !Stable P (evolves env grow)}.
Notation gid := (o_GroupID (e_opts env)).
Notation safe := (spec env P (evolves env grow)).

(** Go on after a first part that moved along the relation. *)
Lemma wp_then {A} (m : C A) w w1 :
  safe m -> P w -> evolves env grow w w1 -> wp env m (fun _ w' => evolves env grow w w') w1.
Proof.
  intros Hm Hw H1. eapply wp_mono; [apply Hm; by eapply stable|]. intros ? w' H2. cbn beta in *. by etrans.
Qed.

Lemma safe_emit e : quiet e -> safe (emit e).
Proof. intros He w _. rewrite wp_emit. by apply evolves_quiet. Qed.
Lemma safe_go t : safe (go t).
Proof. by apply safe_emit. Qed.
Lemma safe_modify f : (forall c, same_core c (f c)) -> safe (modify f).
Proof. intros Hf w _. rewrite wp_modify. by apply evolves_core. Qed.
Lemma safe_metric f : safe (metric f).
Proof. by apply safe_modify. Qed.
Lemma safe_ask {A} (f : Env -> nat -> A) : safe (ask f).
Proof. intros w _. rewrite wp_ask. apply evolves_tick. Qed.
Lemma safe_now : safe now.
Proof. apply safe_ask. Qed.
Lemma safe_mls {A} (f : Env -> nat -> A) : o_HasMLS (e_opts env) = true -> safe (mls f).
Proof. intros H w _. rewrite wp_mls by done. apply evolves_tick. Qed.

Lemma safe_db {A} (m : SQL A) :
  (forall c d t, store_ok env c d -> db_kept env c d (m (e_sql env) t d).2) -> safe (db m).
Proof.
  intros Hm w Hw. rewrite wp_db. specialize (Hm (w_c w) (w_db w) (w_tick w) (ok_store _ _ (HP w Hw))).
  destruct (m _ _ _) as [[r t] d]. by apply evolves_db.
Qed.

Lemma frame_kept c d d' : frame d d' -> db_kept env c d d'.
Proof. intros (G & O & J & Cu & A). split; [done|by rewrite G|done| |by rewrite J]. intros [HG HO]. split; rewrite ?G, ?O; done. Qed.

Lemma safe_frame {A} (m : SQL A) : respects frame m -> safe (db m).
Proof. intros H. apply safe_db. intros c d t _. by apply frame_kept. Qed.

Lemma safe_hlc_Now : safe hlc_Now.
Proof.
  intros w Hw. unfold hlc_Now. wp_run. destruct (Hlc.Now _ _ _) as [ts h]. wp_run.
  etrans; [apply evolves_tick|]. etrans; [apply evolves_tick|]. by apply evolves_core.
Qed.
Lemma safe_hlc_Update ts : safe (hlc_Update ts).
Proof.
  intros w Hw. unfold hlc_Update. wp_run. destruct (Hlc.Update _ _ _ _) as [r h]. wp_run.
  etrans; [apply evolves_tick|]. etrans; [apply evolves_tick|]. by apply evolves_core.
Qed.

Lemma wp_singleWriter w Q :
  coord_ok env w ->
  (forall sw, c_singleWriter (w_c w) = Some sw -> SingleWriter.sw_epoch sw = c_epoch (w_c w) -> Q sw w) ->
  wp env the_singleWriter Q w.
Proof.
  intros [[(sw & E & Ee) _ _ _ _] _ _] HQ. unfold the_singleWriter. wp_run. rewrite E. wp_run. auto.
Qed.
Lemma safe_singleWriter : safe the_singleWriter.
Proof. intros w Hw. apply wp_singleWriter; [auto|]. reflexivity. Qed.

Lemma wp_epochTracker w Q :
  coord_ok env w ->
  (forall et, c_epochTracker (w_c w) = Some et -> Epoch.et_epoch et = c_epoch (w_c w) -> Q et w) ->
  wp env the_epochTracker Q w.
Proof.
  intros [[_ (et & E & Ee & _) _ _ _] _ _] HQ. unfold the_epochTracker. wp_run. rewrite E. wp_run. auto.
Qed.

#[local] Hint Resolve safe_emit safe_go safe_metric safe_ask safe_now safe_frame safe_hlc_Now
  safe_hlc_Update safe_singleWriter : coord_spec.
#[local] Hint Extern 2 (spec _ _ _ (modify _)) => apply safe_modify; done : coord_spec.

Lemma safe_CurrentTokenHolder : safe sw_CurrentTokenHolder.
Proof. unfold sw_CurrentTokenHolder. spec_auto. Qed.
Lemma safe_IsTokenHolder : safe sw_IsTokenHolder.
Proof. unfold sw_IsTokenHolder. spec_auto. Qed.
Lemma safe_HolderForBatch b : safe (sw_HolderForBatch b).
Proof. unfold sw_HolderForBatch. spec_auto. Qed.
Lemma safe_ProposalCount : safe sw_ProposalCount.
Proof. unfold sw_ProposalCount. spec_auto. Qed.

(** A change of the writer that keeps its epoch. *)
Lemma evolves_writer sw f w :
  c_singleWriter (w_c w) = Some sw -> SingleWriter.sw_epoch (f sw) = SingleWriter.sw_epoch sw ->
  evolves env grow w (with_c (set_c_singleWriter (Some (f sw))) w).
Proof. intros E Ee. apply evolves_core. repeat split. simpl. by rewrite E; simpl; rewrite Ee. Qed.

Lemma safe_writer {A} f (k : SingleWriter.SingleWriter -> C A) :
  (forall sw, SingleWriter.sw_epoch (f sw) = SingleWriter.sw_epoch sw) -> (forall sw, safe (k sw)) ->
  safe (sw <-- the_singleWriter ; set_singleWriter (f sw) ;;; k sw).
Proof.
  intros Hf Hk w Hw. rewrite wp_bind. apply wp_singleWriter; [auto|]. intros sw E _.
  unfold set_singleWriter. rewrite wp_bind, wp_modify. eapply wp_then; [apply Hk|exact Hw|by apply evolves_writer].
Qed.

Lemma safe_BufferProposal p : safe (sw_BufferProposal p).
Proof.
  intros w Hw. unfold sw_BufferProposal. rewrite wp_bind. apply wp_singleWriter; [auto|]. intros sw E _.
  unfold set_singleWriter. wp_run. apply (evolves_writer _ (SingleWriter.BufferProposal _ p)); [done|].
  unfold SingleWriter.BufferProposal. by repeat case_match.
Qed.

#[local] Hint Resolve safe_CurrentTokenHolder safe_IsTokenHolder safe_HolderForBatch safe_ProposalCount
  safe_BufferProposal : coord_spec.

(** *** Publishing *)

Lemma publishable_quiet {WL : WireCodecLaws} d e :
  env_Type e ∈ message_types -> isolates (env_Type e) = false -> publishable env d (enc_envelope e).
Proof.
  intros Hin Hty en Hd Hi. apply dec_enc_envelope in Hd as [_ Ht]. rewrite Ht in Hi by done. congruence.
Qed.

Lemma safe_broadcast {WL : WireCodecLaws} ty payload :
  ty ∈ message_types -> isolates ty = false -> safe (broadcastLocked ty payload).
Proof.
  intros Hin Hty. unfold broadcastLocked. apply spec_bind; [apply _..|apply safe_hlc_Now|intros ts].
  intros w Hw. unfold broadcastWithTimestampLocked, buildEnvelopeWithTimestampLocked,
    buildEnvelopeWithEpochAndTimestampLocked, publishPreparedEnvelopeLocked. wp_run.
  destruct (is_empty _); [wp_run; reflexivity|]. wp_run.
  assert (H : evolves env grow w (with_effect (EPublish (GroupTopic gid) (enc_envelope
    (mkEnvelope ty gid (c_epoch (w_c w)) (peer_String (o_LocalID (e_opts env))) ts (enc_payload payload)))) w)).
  { apply evolves_publish. by apply publishable_quiet. }
  destruct (o_OnEnvelopeBroadcast _); simpl; [|exact H].
  case_match; [|exact H]. wp_run. etrans; [exact H|]. by apply evolves_quiet.
Qed.

(** *** Storing *)

Lemma safe_persistCoordState : safe persistCoordStateLocked.
Proof. unfold persistCoordStateLocked. spec_auto. Qed.

Lemma stores_kept rec c d d' :
  stores rec d d' -> gr_GroupID rec = gid -> gr_Epoch rec = c_epoch c ->
  db_kept env c d d'.
Proof.
  intros (_ & O & J & Cu & A & N & row & G & E) Hg He. split; [done|by rewrite <- Hg|done| |by rewrite J]. intros [HG HO]. split; [|by rewrite O].
  intros row' G'. rewrite <- Hg in G'. simplify_map_eq. congruence.
Qed.

(** Saving a record of the current epoch. *)
Lemma wp_save_current rec w Q :
  gr_GroupID rec = gid -> gr_Epoch rec = c_epoch (w_c w) ->
  (forall r w', evolves env grow w w' -> w_c w' = w_c w -> Q r w') ->
  wp env (db (Store.SaveGroupRecord rec)) Q w.
Proof.
  intros Hg He HQ. rewrite wp_db. destruct (Store.SaveGroupRecord _ _ _ _) as [[r t] d] eqn:E.
  apply HQ; [|done]. apply evolves_db.
  apply SaveGroupRecord_stores in E as [->|Hs]; [|by eapply stores_kept].
  apply frame_kept. reflexivity.
Qed.

Lemma wp_get_group g w (Q : result GroupRecord -> World -> Prop) :
  (forall r w', evolves env grow w w' -> w_c w' = w_c w -> Q r w') ->
  wp env (db (Store.GetGroupRecord g)) Q w.
Proof.
  intros HQ. rewrite wp_db. pose proof (GetGroupRecord_frame g (e_sql env) (w_tick w) (w_db w)) as Hf.
  destruct (Store.GetGroupRecord _ _ _ _) as [[r t] d]. apply HQ; [|done].
  by apply evolves_db, frame_kept.
Qed.

Lemma safe_persistCurrentEpochState st : safe (persistCurrentEpochStateLocked st).
Proof.
  intros w Hw. unfold persistCurrentEpochStateLocked. wp_run. apply wp_get_group. intros r w' He Hc.
  simpl in Hc. apply wp_save_current.
  - destruct r; cbn; by destruct (time_IsZero _).
  - rewrite Hc. destruct r; cbn; by destruct (time_IsZero _).
  - intros r' w'' He' _. etrans; [apply evolves_tick|]. by etrans.
Qed.

Lemma safe_saveCurrentGroupState t : safe (saveCurrentGroupStateLocked t).
Proof.
  intros w Hw. unfold saveCurrentGroupStateLocked. wp_run. apply wp_get_group. intros r w' He Hc.
  destruct r as [p|e]; [|case_match; wp_run; [done|]]; wp_run;
    (apply wp_save_current; [done..|intros r' w'' He' _; by etrans]).
Qed.

(** *** Apply operations *)

(** An apply operation with a record of the current epoch. *)
Lemma wp_apply rec wire (m : SQL (bool * Z)) w Q :
  (forall t d r t' d', m (e_sql env) t d = (r, t', d') -> applies rec wire d r d') ->
  gr_GroupID rec = gid -> gr_Epoch rec = c_epoch (w_c w) ->
  (forall r w', evolves env grow w w' -> w_c w' = w_c w -> w_trace w' = w_trace w ->
     (forall s, r = inl (true, s) ->
        ~ is_applied env (w_db w) (sha256_sum wire) /\ is_applied env (w_db w') (sha256_sum wire)) ->
     Q r w') ->
  wp env (db m) Q w.
Proof.
  intros Hm Hg He HQ. rewrite wp_db. destruct (m _ _ _) as [[r t] d] eqn:E. apply Hm in E. apply HQ; try done.
  - apply evolves_db. destruct E as [[-> _]|(Hs & _)]; [apply frame_kept; reflexivity|].
    by eapply stores_kept.
  - intros s ->. destruct E as [[_ E]|(_ & Hn & Hsome & _)]; [by destruct (E s)|].
    unfold is_applied. rewrite <- Hg. split; [by rewrite Hn; intros [? ?]|done].
Qed.

(** Delivering a message whose envelope has just been applied. *)
Lemma evolves_deliver_fresh w w1 w2 m h :
  coord_ok env w -> ~ is_applied env (w_db w) h -> is_applied env (w_db w2) h ->
  w_trace w1 = w_trace w -> w_trace w2 = w_trace w1 -> sm_EnvelopeHash m = h ->
  evolves env grow w2 (with_effect (EMessage m) w2).
Proof.
  intros Hok Hn Ha T1 T2 <-. apply evolves_deliver. intros _. split; [done|]. rewrite T2, T1. intros Hin.
  destruct Hok as [_ _ [_ D _]]. rewrite Forall_forall in D. by apply Hn, D.
Qed.

Context (Hmls : o_HasMLS (e_opts env) = true).

Lemma safe_mls' {A} (f : Env -> nat -> A) : safe (mls f).
Proof. by apply safe_mls. Qed.
#[local] Hint Resolve safe_mls' safe_persistCoordState safe_persistCurrentEpochState
  safe_saveCurrentGroupState : coord_spec.

Lemma safe_updateLocalAccessRevocation st e : safe (updateLocalAccessRevocationLocked st e).
Proof. unfold updateLocalAccessRevocationLocked. spec_auto. Qed.

Lemma safe_markReplayResult r : safe (markReplayResultLocked r).
Proof. unfold markReplayResultLocked. spec_auto. Qed.
Lemma safe_newReplayResult en wire : safe (newReplayResultLocked en wire).
Proof. unfold newReplayResultLocked. spec_auto. Qed.
Lemma safe_checkApplied en wire : safe (checkAppliedEnvelopeLocked en wire).
Proof. unfold checkAppliedEnvelopeLocked. spec_auto. Qed.
Lemma safe_markInvalidCommit h : safe (markInvalidCommitLocked h).
Proof.
  unfold markInvalidCommitLocked. destruct (is_empty h) eqn:E; spec_auto. apply safe_modify. intros c.
  unfold ForkDetector.MarkInvalidCommit. by rewrite E.
Qed.
#[local] Hint Resolve safe_updateLocalAccessRevocation safe_markReplayResult safe_newReplayResult
  safe_checkApplied safe_markInvalidCommit : coord_spec.

(** *** Application messages *)

Lemma safe_finish r : safe (finish r).
Proof. unfold finish. spec_auto. Qed.
Lemma safe_retention h a b : safe (retention_action h a b).
Proof. unfold retention_action. spec_auto. Qed.
Lemma safe_buildEnvelope ty p ts : safe (buildEnvelopeWithTimestampLocked ty p ts).
Proof. unfold buildEnvelopeWithTimestampLocked, buildEnvelopeWithEpochAndTimestampLocked. spec_auto. Qed.
Lemma safe_buildEnvelopeAt ty p e ts : safe (buildEnvelopeWithEpochAndTimestampLocked ty p e ts).
Proof. unfold buildEnvelopeWithEpochAndTimestampLocked. spec_auto. Qed.
#[local] Hint Resolve safe_finish safe_retention safe_buildEnvelope safe_buildEnvelopeAt : coord_spec.

Lemma safe_sendDeliveryAck to h : safe (sendDeliveryAckLocked to h).
Proof. unfold sendDeliveryAckLocked. spec_auto. Qed.

Lemma safe_ensure_epochTracker : safe ensure_epochTracker.
Proof.
  intros w Hw. unfold ensure_epochTracker. wp_run. destruct (HP w Hw) as [[_ (et & -> & _) _ _ _] _ _].
  wp_run. reflexivity.
Qed.
#[local] Hint Resolve safe_sendDeliveryAck safe_ensure_epochTracker : coord_spec.

Lemma safe_applyApplication from en wire h r : safe (applyApplicationLocked from en wire h r).
Proof.
  unfold applyApplicationLocked. destruct (dec_application _) as [am|e]; [|spec_auto].
  apply spec_bind; [apply _..|apply safe_hlc_Update|]. intros [ts|e]; [|spec_auto].
  apply spec_opts_bind. cbv zeta. apply spec_opts_bind. rewrite Hmls. simpl.
  apply spec_bind; [apply _..|apply spec_gets, _|intros gs].
  apply spec_bind; [apply _..|apply safe_mls'|]. intros [[pt st]|e]; [|spec_auto].
  apply spec_opts_bind. apply spec_bind; [apply _..|apply safe_now|intros t].
  intros w Hw. wp_run. eapply wp_apply; [intros; by eapply ApplyApplication_applies|done..|].
  intros res w1 H1 C1 T1 Hfresh. destruct res as [[[] s]|e].
  2,3: by eapply wp_then; [apply safe_finish|..].
  destruct (Hfresh s eq_refl) as [Hn Ha]. wp_run. set (w2 := with_c _ w1).
  assert (H2 : evolves env grow w w2) by (etrans; [exact H1|by apply evolves_core]).
  assert (Hrest : forall w3, evolves env grow w w3 ->
    wp env (sendDeliveryAckLocked (decodeEnvelopePeerID (env_From en) from) h ;;;
      finish (rr_finish ReplayStateApplied "" true true true false r)) (fun _ w' => evolves env grow w w') w3).
  { intros w3 H3. eapply wp_then; [spec_auto|done..]. }
  destruct (o_OnMessage _); wp_run; rewrite <- wp_bind; apply Hrest; [|done].
  etrans; [exact H2|]. by eapply (evolves_deliver_fresh w w1); [apply HP|done..].
Qed.
#[local] Hint Resolve safe_applyApplication : coord_spec.

Lemma wp_retention h a b w (Q : EpochAction -> World -> Prop) :
  P w -> (forall a' w', evolves env grow w w' -> w_c w' = w_c w -> a' = a \/ a' = ActionProcess -> Q a' w') ->
  wp env (retention_action h a b) Q w.
Proof.
  intros Hw HQ. unfold retention_action. case_match; [wp_run; apply HQ; [reflexivity|auto..]|].
  wp_run. rewrite wp_db. pose proof (GetEnvelope_frame h (e_sql env) (w_tick (tick w)) (w_db (tick w))) as Hf.
  destruct (Store.GetEnvelope _ _ _ _) as [[r t] d]. wp_run. apply HQ; [|done|case_match; auto].
  etrans; [apply evolves_tick|]. etrans; [|apply evolves_tick]. by apply evolves_db, frame_kept.
Qed.

(** Handlers of an envelope buffer it only when they may. *)
Definition may_buffer (en : Envelope) : Prop :=
  forall w, P w -> env_Epoch en ∈ grow \/ env_Epoch en <= c_epoch (w_c w).

Lemma may_buffer_grow en w w' :
  may_buffer en -> P w -> w_c w' = w_c w -> c_epoch (w_c w') < env_Epoch en -> env_Epoch en ∈ grow.
Proof. intros H Hw Hc He. destruct (H w Hw) as [|Hle]; [done|]. rewrite Hc in He. lia. Qed.

Lemma safe_handleApplicationDetailed from en wire :
  may_buffer en -> dec_envelope wire = inl en -> safe (handleApplicationDetailedLocked from en wire).
Proof.
  intros Hmay Hdec. unfold handleApplicationDetailedLocked.
  apply spec_bind; [apply _..|apply safe_newReplayResult|intros r].
  apply spec_bind; [apply _..|apply safe_checkApplied|intros [h already]]. cbv zeta.
  destruct already; [apply safe_finish|].
  apply spec_bind; [apply _..|apply safe_ensure_epochTracker|intros _].
  intros w Hw. rewrite wp_bind. apply wp_epochTracker; [auto|]. intros et Et Ee. wp_run.
  apply wp_retention; [done|]. intros a w1 H1 C1 Ha. destruct a.
  - eapply wp_then; [apply safe_applyApplication|done..].
  - eapply wp_then; [apply safe_finish|done..].
  - destruct Ha as [Ha|Ha]; [|done]. symmetry in Ha. apply Epoch.ValidateEpoch_future in Ha.
    unfold set_epochTracker. wp_run. eapply wp_then; [apply safe_finish|done|].
    etrans; [exact H1|]. apply evolves_buffer; [|by rewrite C1|intros en' Hd; congruence].
    eapply (may_buffer_grow en w w1); [done..|]. rewrite C1. lia.
Qed.

Lemma safe_handleApplication from en wire :
  may_buffer en -> dec_envelope wire = inl en -> safe (handleApplicationLocked from en wire).
Proof.
  intros. unfold handleApplicationLocked. apply spec_bind; [apply _..|by apply safe_handleApplicationDetailed|].
  intros r. apply spec_ret, _.
Qed.

Lemma safe_handleDeliveryAck from en : safe (handleDeliveryAckLocked from en).
Proof. unfold handleDeliveryAckLocked. spec_auto. Qed.

Lemma safe_track wire h : safe (trackPendingApplicationDeliveriesLocked wire h).
Proof. unfold trackPendingApplicationDeliveriesLocked, applicationRecipientsLocked, track_one. spec_auto. Qed.
#[local] Hint Resolve safe_track safe_handleDeliveryAck : coord_spec.

(** Publishing an envelope that has been applied. *)
Lemma wp_publish ty wire w w1 :
  evolves env grow w w1 -> is_applied env (w_db w1) (sha256_sum wire) -> forall Q,
  (forall w', evolves env grow w w' -> w_db w' = w_db w1 -> delivered (w_trace w') = delivered (w_trace w1) -> Q tt w') ->
  wp env (publishPreparedEnvelopeLocked ty wire) Q w1.
Proof.
  intros H1 Ha Q HQ. unfold publishPreparedEnvelopeLocked. wp_run. set (w2 := with_effect _ w1).
  assert (H2 : evolves env grow w w2) by (etrans; [exact H1|]; apply evolves_publish; by intros ? _ _).
  assert (D2 : delivered (w_trace w2) = delivered (w_trace w1))
    by (simpl; rewrite delivered_app; by rewrite app_nil_r).
  destruct (_ && _); wp_run; [|by apply HQ]. apply HQ; [|done|].
  - etrans; [exact H2|]. by apply evolves_quiet.
  - simpl. rewrite delivered_app. simpl. by rewrite app_nil_r.
Qed.

(** A move that delivers nothing and leaves the tables alone. *)
Definition silent (w w' : World) : Prop :=
  evolves env grow w w' /\ w_db w' = w_db w /\ delivered (w_trace w') = delivered (w_trace w).
#[local] Instance silent_preorder : PreOrder silent.
Proof.
  split; [by intros w; split; [reflexivity|]|]. intros w1 w2 w3 (E1 & D1 & T1) (E2 & D2 & T2).
  split; [by etrans|]. split; congruence.
Qed.

Lemma silent_core f w : same_core (w_c w) (f (w_c w)) -> silent w (with_c f w).
Proof. intros H. split; [by apply evolves_core|done]. Qed.
Lemma silent_quiet e w : quiet e -> silent w (with_effect e w).
Proof.
  intros H. split; [by apply evolves_quiet|]. split; [done|]. simpl.
  by rewrite delivered_app, (proj1 H), app_nil_r.
Qed.

Lemma track_silent wire h : spec env (fun _ => True) silent (trackPendingApplicationDeliveriesLocked wire h).
Proof.
  assert (St : Stable (fun _ => True) silent) by (by intros w w' _ _).
  unfold trackPendingApplicationDeliveriesLocked. spec_step. case_match; [spec_step|].
  apply spec_bind; [apply _..| |intros l].
  - unfold applicationRecipientsLocked. repeat (spec_step || cbv zeta).
    intros w _. rewrite wp_ask. split; [apply evolves_tick|done].
  - apply spec_for_each; [apply _..|]. intros x _. unfold track_one. cbv zeta. apply spec_read. intros w _.
    case_match; wp_run; [reflexivity|]. etrans; [|by apply silent_quiet]. by apply silent_core.
Qed.

Lemma safe_sendMessage plaintext token : safe (sendMessage plaintext token).
Proof.
  unfold sendMessage.
  apply spec_bind; [apply _..|apply spec_gets, _|intros []]; [apply spec_ret, _|].
  apply spec_bind; [apply _..|apply spec_gets, _|intros []]; simpl; [|apply spec_ret, _].
  apply spec_bind; [apply _..|apply spec_gets, _|intros c0].
  apply spec_bind; [apply _..|apply safe_updateLocalAccessRevocation|intros _].
  apply spec_bind; [apply _..|apply spec_gets, _|intros []]; [apply spec_ret, _|].
  apply spec_bind; [apply _..|apply safe_hlc_Now|intros ts0].
  apply spec_opts_bind. cbv zeta. apply spec_opts_bind. rewrite Hmls. simpl.
  apply spec_bind; [apply _..|apply safe_mls'|]. intros [[ct st]|e]; [|spec_auto].
  set (ts := if str_eqb _ _ then _ else _). intros w Hw.
  unfold buildEnvelopeWithTimestampLocked, buildEnvelopeWithEpochAndTimestampLocked. wp_run.
  destruct (is_empty _) eqn:Ee; wp_run; [reflexivity|].
  set (wire := enc_envelope _) in *.
  eapply wp_apply; [intros; by eapply ApplyApplication_applies|done..|].
  intros res w1 H1 C1 T1 Hfresh. destruct res as [[[] s]|e]; wp_run.
  2,3: etrans; [apply evolves_tick|exact H1].
  destruct (Hfresh s eq_refl) as [Hn Ha]. set (w2 := with_c _ w1).
  assert (H2 : evolves env grow w w2).
  { etrans; [apply evolves_tick|]. etrans; [exact H1|by apply evolves_core]. }
  apply (wp_publish _ wire w w2); [done..|]. intros w3 H3 D3 T3. rewrite wp_bind.
  eapply wp_mono; [by apply track_silent|]. intros [] w4 (E4 & D4 & T4). cbn beta.
  assert (H4 : evolves env grow w w4) by (by etrans).
  wp_run. destruct (o_OnMessage _); wp_run; [|done]. etrans; [exact H4|].
  apply evolves_deliver. intros _. simpl. rewrite D4, D3, T4, T3. split; [done|].
  simpl. rewrite T1. destruct (HP w Hw) as [_ _ [_ D _]]. rewrite Forall_forall in D. intros Hin. by apply Hn, D.
Qed.

Lemma safe_ackWatch pid h : safe (applicationAckWatch_round pid h).
Proof. unfold applicationAckWatch_round, sendDirectEnvelope. spec_auto. Qed.
Lemma safe_retry pid : safe (RetryOutstandingDeliveriesTo pid).
Proof. unfold RetryOutstandingDeliveriesTo, sendDirectEnvelope. spec_auto. Qed.

(** *** Batched messages *)

Lemma safe_sealPayload p k : safe (sealPayload p k).
Proof. unfold sealPayload. spec_auto. Qed.
Lemma safe_openPayload c n k : safe (openPayload c n k).
Proof. unfold openPayload. spec_auto. Qed.

(** A batched message is delivered without an envelope hash. *)
Lemma safe_deliver_batched_event en sender t ev : safe (deliver_batched_event en sender [] t ev).
Proof.
  unfold deliver_batched_event. cbv zeta. do 2 apply spec_opts_bind.
  apply spec_bind; [apply _..|apply safe_sealPayload|intros sealed]. destruct (match sealed with inl _ => _ | inr _ => _ end) as [[pl n] h].
  apply spec_bind; [apply _..|apply safe_frame, SaveApplicationEvent_frame|intros saved].
  apply spec_opts_bind. destruct saved; [|apply spec_ret, _].
  apply spec_bind; [apply _..| |intros; apply spec_ret, _]. apply spec_when; [apply _|].
  intros w Hw. rewrite wp_emit. by apply evolves_deliver.
Qed.

Lemma safe_deliver_batched en sender t evs : safe (deliver_batched en sender [] t evs).
Proof.
  induction evs as [|ev evs IH]; simpl; [apply spec_ret, _|].
  apply spec_bind; [apply _..|apply safe_deliver_batched_event|intros m].
  apply spec_bind; [apply _..|apply IH|intros ms]. apply spec_ret, _.
Qed.

Lemma safe_handleBatched from en wire :
  env_Type en = MsgApplicationBatched -> safe (handleApplicationBatchedLocked from en wire).
Proof.
  intros Hty. unfold handleApplicationBatchedLocked, checkAppliedEnvelopeLocked. rewrite Hty.
  replace (is_empty wire || _) with true by (by destruct (is_empty wire)).
  apply spec_bind; [apply _..|apply safe_newReplayResult|intros r].
  apply spec_ret_bind. cbv beta iota zeta.
  apply spec_bind; [apply _..|apply safe_ensure_epochTracker|intros _].
  intros w Hw. rewrite wp_bind. apply wp_epochTracker; [auto|]. intros et Et Ee. wp_run.
  apply wp_retention; [done|]. intros a w1 H1 C1 _. eapply wp_then; [|done..].
  destruct (bool_decide _); simpl; [|apply spec_ret, _].
  destruct (dec_batched _) as [bm|e]; [|apply spec_ret, _].
  apply spec_bind; [apply _..|apply spec_gets, _|intros gs].
  apply spec_bind; [apply _..|apply safe_mls'|]. intros [[pt st]|e]; [|apply spec_ret, _].
  destruct (dec_plaintext _) as [batch|e]; [|apply spec_ret, _]. cbv zeta.
  apply spec_bind; [apply _..|apply safe_now|intros t].
  apply spec_bind; [apply _..|apply safe_deliver_batched|intros ms].
  apply spec_bind; [apply _..|by apply safe_modify|intros _].
  apply spec_bind; [apply _..|apply safe_saveCurrentGroupState|intros _].
  apply spec_opts_bind. intros w2 Hw2. wp_run.
  eapply wp_apply; [intros; by eapply ApplyBatched_applies|done..|]. intros res w3 H3 _ _ _. by wp_run.
Qed.

(** *** Announcing *)

Lemma evolves_localAnn ann w :
  ann_Epoch ann = c_epoch (w_c w) -> ann_HistoryHash ann = default [] (c_historyHash (w_c w)) ->
  evolves env grow w (with_c (fun c => set_c_forkDetector (ForkDetector.UpdateLocal ann (c_forkDetector c)) c) w).
Proof.
  intros He Hh [[W Tr Rg Hi L] HSt HT]. split; [|split; [|set_solver]]; [|split; try done; by apply heal_ok_eq].
  split; simpl; [split; simpl|..]; try done; [|by destruct HSt; split].
  exists ann. split; [done|]. split; [done|]. rewrite Hh. destruct Hi as (h & -> & _). done.
Qed.

Lemma safe_announce {WL : WireCodecLaws} : safe broadcastAnnounceLocked.
Proof.
  intros w Hw. unfold broadcastAnnounceLocked, localAnnouncement. wp_run. case_match; wp_run; [reflexivity|].
  eapply wp_then; [by apply safe_broadcast; [set_solver|]|done|].
  by apply evolves_localAnn.
Qed.

Lemma safe_livenessCheck : safe TriggerLivenessCheck.
Proof.
  unfold TriggerLivenessCheck. apply spec_opts_bind. apply spec_bind; [apply _..|apply spec_gets, _|intros av].
  destruct (ActiveView.CheckLiveness _ av) as [[ev ch] av']. spec_auto.
Qed.

Lemma safe_heartbeatRound {WL : WireCodecLaws} : safe heartbeatLoop_round.
Proof.
  unfold heartbeatLoop_round. apply spec_bind; [apply _..|apply safe_livenessCheck|intros _].
  apply safe_broadcast; [set_solver|done].
Qed.
End Methods.
