(* ===== verification/CoordSafeCommit.v ===== *)
(** * Every method keeps the invariant: proposals, commits, dispatch, members *)
From S2P Require Import Prelude Sha256 Types Config Hlc Epoch ActiveView SingleWriter.
From S2P Require Import ForkDetector Helpers Database Store StoreSpec HealStore Coordinator.
From S2P Require Import CoordBroadcast CoordApplication CoordCommit CoordMessage CoordMembers.
From S2P Require Import CoordLogic CoordInv CoordSafe.

#[export] Hint Resolve safe_emit safe_go safe_metric safe_ask safe_now safe_frame safe_hlc_Now
  safe_hlc_Update safe_singleWriter safe_CurrentTokenHolder safe_IsTokenHolder safe_HolderForBatch
  safe_ProposalCount safe_BufferProposal safe_mls safe_persistCoordState safe_persistCurrentEpochState
  safe_saveCurrentGroupState safe_updateLocalAccessRevocation safe_markReplayResult safe_newReplayResult
  safe_checkApplied safe_markInvalidCommit safe_finish safe_buildEnvelope safe_buildEnvelopeAt
  safe_sendDeliveryAck safe_handleDeliveryAck safe_sealPayload safe_openPayload : coord_spec.
#[export] Hint Extern 2 (spec _ _ _ (modify _)) => apply safe_modify; done : coord_spec.
#[export] Hint Extern 2 (spec _ _ _ (broadcastLocked _ _)) =>
  apply safe_broadcast; [assumption|apply _..|set_solver|reflexivity] : coord_spec.

#[export] Hint Extern 0 (Stable _ _) => apply _ : coord_spec.

(** ** Pending operations *)

Lemma op_row_targeted op : op_targeted op -> op_targeted (HealStore.op_row op).
Proof. done. Qed.

Lemma upsert_targeted op ops :
  op_targeted op -> Forall op_targeted ops ->
  Forall op_targeted (HealStore.upsert po_OperationID HealStore.op_merge (HealStore.op_row op) ops).
Proof.
  intros Hop Hops. unfold HealStore.upsert. case_match.
  - apply Forall_fmap. eapply Forall_impl; [exact Hops|]. intros o Ho. simpl. case_match; [exact Hop|done].
  - apply Forall_app. split; [done|]. by constructor.
Qed.

Lemma sql_uint64s_frame ns : respects frame (HealStore.sql_uint64s ns).
Proof. induction ns; simpl; frame_auto. done. Qed.

Section Generic.
Context {PC : PeerCodec} {WC : WireCodec} {WL : WireCodecLaws}.
Context (env : Env) (grow : gset Z) (P : World -> Prop).
Context (HP : forall w, P w -> coord_ok env w) `{HS : !Stable P (evolves env grow)}.
Context (Hmls : o_HasMLS (e_opts env) = true).
Context (Hdelay : 0 < Config.BatchingDelay (o_Config (e_opts env))).
Variable self : Call -> C bool.
Notation gid := (o_GroupID (e_opts env)).
Notation safe := (spec env P (evolves env grow)).

Lemma safe_save_op op : op_targeted op -> safe (save_op op).
Proof.
  intros Hop. unfold save_op. apply spec_bind; [apply _..| |intros; apply spec_ret, _].
  apply safe_db; [done|]. intros c d t [HG HO]. unfold HealStore.SavePendingOperation, HealStore.sql_exec_unique.
  apply (respects_wrap (db_kept env c)). apply respects_bind; [apply _| |intros _].
  - intros e0 t0 d0. apply frame_kept, sql_uint64s_frame.
  - repeat sql_step. split; [by apply applied_mono_eq|done|done| |done]. intros [G O]. split; [done|]. simpl. by apply upsert_targeted.
Qed.

Lemma wp_list_ops (w : World) (Q : result (list PendingOperation) -> World -> Prop) :
  P w -> (forall r w', evolves env grow w w' ->
    (forall ops, r = inl ops -> Forall op_targeted ops) -> Q r w') ->
  wp env (db (HealStore.ListPendingOperations gid)) Q w.
Proof.
  intros Hw HQ. rewrite wp_db. unfold HealStore.ListPendingOperations, sql_wrap, sql_query.
  destruct (sql_fails _ _); apply HQ; try done.
  1,2: by apply evolves_db, frame_kept.
  intros ops [= <-]. destruct (HP w Hw) as [_ [_ HO] _]. rewrite Forall_forall in HO |- *.
  intros o. rewrite stable_sort_elem. intros [_ Hin]%list_elem_of_filter. auto.
Qed.

(** Run a method on each pending operation of the group. *)
Lemma safe_each_op (f : PendingOperation -> C unit) (k : C unit) :
  (forall op, op_targeted op -> safe (f op)) -> safe k ->
  safe (ops <-- db (HealStore.ListPendingOperations gid) ;
        match ops with inr _ => ret tt | inl ops => for_each ops f ;;; k end).
Proof.
  intros Hf Hk. apply spec_bind_value with
    (V := fun r => forall ops, r = inl ops -> Forall op_targeted ops); [apply _..| |].
  - intros w Hw. by apply wp_list_ops.
  - intros [ops|e] HV; [|apply spec_ret, _]. apply spec_bind; [apply _..| |intros; exact Hk].
    apply spec_for_each; [apply _..|]. intros op Hin. apply Hf.
    specialize (HV ops eq_refl). rewrite Forall_forall in HV. auto.
Qed.

Lemma safe_deref op : op_targeted op -> po_OpType op = "ADD_MEMBER" \/ po_OpType op = "REMOVE_MEMBER" ->
  safe (deref_target op).
Proof. intros H Hty. destruct (H Hty) as [s E]. unfold deref_target. rewrite E. apply spec_ret, _. Qed.

Lemma safe_settle own op : op_targeted op -> safe (settle_op own op).
Proof. intros H. unfold settle_op. spec_step; [by spec_auto|]. by apply safe_save_op. Qed.

Lemma safe_reconcile_op cm op : op_targeted op -> safe (reconcile_op cm op).
Proof.
  intros H. unfold reconcile_op. case_match; [apply spec_ret, _|].
  destruct (str_eqb_spec (po_OpType op) "ADD_MEMBER") as [Ea|]; [|destruct (str_eqb_spec (po_OpType op) "REMOVE_MEMBER") as [Er|]].
  - induction (cm_AddDeliveries cm) as [|d ds IH]; simpl; [apply spec_ret, _|].
    case_match; [by apply safe_settle|]. apply spec_bind; [apply _..|apply safe_deref; auto|intros tg].
    case_match; [by apply safe_settle|done].
  - induction (cm_IncludedProposals cm) as [|p ps IH]; simpl; [apply spec_ret, _|].
    case_match; [done|]. apply spec_bind; [apply _..|apply safe_deref; auto|intros tg].
    case_match; [by apply safe_settle|done].
  - apply spec_ret, _.
Qed.

Lemma safe_audit s : safe (emitPendingOperationAuditLocked s).
Proof. unfold emitPendingOperationAuditLocked. spec_auto. Qed.
Hint Resolve safe_audit : coord_spec.

Lemma safe_supersede_op cm op : op_targeted op -> safe (supersede_op cm op).
Proof.
  intros H. unfold supersede_op. cbv zeta. repeat (case_match; [apply spec_ret, _|]).
  spec_step; [by spec_auto|]. spec_step; [by apply safe_save_op|]. spec_auto.
Qed.

Lemma safe_supersede cm : safe (supersedeStaleMembershipOpsLocked cm).
Proof.
  unfold supersedeStaleMembershipOpsLocked. case_match; [apply spec_ret, _|]. apply spec_opts_bind.
  apply spec_bind_value with (V := fun r => forall ops, r = inl ops -> Forall op_targeted ops); [apply _..| |].
  - intros w Hw. by apply wp_list_ops.
  - intros [ops|e] HV; [|apply spec_ret, _]. apply spec_for_each; [apply _..|]. intros op Hin.
    apply safe_supersede_op. specialize (HV ops eq_refl). rewrite Forall_forall in HV. auto.
Qed.

Lemma safe_keep_own k m : safe (keep_own_message k m).
Proof. unfold keep_own_message. spec_auto. Qed.
Hint Resolve safe_supersede safe_keep_own : coord_spec.

Lemma safe_reconcile cm : safe (reconcileOperationsAfterCommitLocked cm).
Proof.
  unfold reconcileOperationsAfterCommitLocked. apply spec_opts_bind. apply safe_each_op.
  - intros op. apply safe_reconcile_op.
  - spec_auto.
Qed.

(** ** Timers and proposals *)

Lemma safe_grace : safe bootstrapGraceRemainingLocked.
Proof. unfold bootstrapGraceRemainingLocked. cbv zeta. spec_auto. Qed.
Hint Resolve safe_grace : coord_spec.
Lemma safe_viewReady b : safe (commitViewReadyLocked b).
Proof. unfold commitViewReadyLocked. cbv zeta. spec_auto. Qed.
Lemma safe_start_timer : safe start_timer.
Proof. unfold start_timer. spec_auto. Qed.
Hint Resolve safe_viewReady safe_start_timer : coord_spec.
Lemma safe_deferCommit : safe deferCommitUntilViewReadyLocked.
Proof. unfold deferCommitUntilViewReadyLocked. cbv zeta. spec_auto. Qed.

Lemma safe_scheduleBatch : safe (scheduleBatchCommitLocked self).
Proof.
  unfold scheduleBatchCommitLocked. spec_step; [by spec_auto|]. case_match; [apply spec_ret, _|].
  apply spec_opts_bind. cbv zeta. destruct (Z.leb_spec (Config.BatchingDelay (o_Config (e_opts env))) 0); [lia|].
  spec_auto.
Qed.

Lemma safe_scheduleFailover : safe scheduleFailoverTimerLocked.
Proof. unfold scheduleFailoverTimerLocked. cbv zeta. spec_auto. Qed.
Hint Resolve safe_deferCommit safe_scheduleBatch safe_scheduleFailover : coord_spec.

Lemma safe_schedule_if_holder : safe (schedule_if_holder self).
Proof. unfold schedule_if_holder. spec_auto. Qed.
Lemma safe_schedule_or_failover : safe (schedule_commit_or_failover self).
Proof. unfold schedule_commit_or_failover. spec_auto. Qed.
Lemma safe_createProposal ty data meta : safe (createAndStoreLocalProposalLocked ty data meta).
Proof. unfold createAndStoreLocalProposalLocked. spec_auto. Qed.
Hint Resolve safe_schedule_if_holder safe_schedule_or_failover safe_createProposal : coord_spec.

Lemma safe_propose ty data meta : safe (proposeLockedWithMetadata self ty data meta).
Proof. unfold proposeLockedWithMetadata. spec_auto. Qed.

Lemma safe_proposalJoin en p : safe (handleProposalJoin self en p).
Proof. unfold handleProposalJoin. cbv zeta. spec_auto. Qed.
Hint Resolve safe_proposalJoin : coord_spec.

Lemma safe_handleProposal from en : may_buffer grow P en -> safe (handleProposalLocked self from en).
Proof.
  intros Hmay. unfold handleProposalLocked. destruct (dec_proposal _) as [p|e]; [|apply spec_ret, _].
  apply spec_bind; [apply _..|apply spec_gets, _|intros gs]. case_match; [apply spec_ret, _|].
  case_match; [by spec_auto|]. intros w Hw. rewrite wp_bind. apply wp_epochTracker with (env := env); [auto|].
  intros et Et Ee. destruct (Epoch.Validate _ _) eqn:Ev.
  - eapply wp_then; [exact HS| |exact Hw|reflexivity]. cbv zeta. spec_auto.
  - wp_run. reflexivity.
  - apply Epoch.ValidateEpoch_future in Ev. unfold set_epochTracker. wp_run. apply evolves_buffer; [|done|].
    + eapply may_buffer_grow; [done|exact Hw|done|lia].
    + intros en' Hd. by apply dec_enc_envelope in Hd as [? _].
Qed.

(** ** Rebasing *)

Lemma safe_repropose op : op_targeted op -> safe (repropose_op self op).
Proof.
  intros H. unfold repropose_op. cbv zeta.
  destruct (str_eqb_spec (po_OpType op) "ADD_MEMBER") as [Ea|]; [|destruct (str_eqb_spec (po_OpType op) "REMOVE_MEMBER") as [Er|]].
  - apply spec_bind; [apply _..|apply safe_deref; auto|intros tg]. spec_auto.
  - apply spec_bind; [apply _..|apply safe_deref; auto|intros tg]. spec_auto.
  - spec_auto.
Qed.

Lemma safe_audit_op op st r pc e : safe (audit_op op st r pc e).
Proof. unfold audit_op. spec_auto. Qed.

Lemma safe_getOp id : safe (db (HealStore.GetPendingOperation id)).
Proof. apply safe_frame; [done|]. unfold HealStore.GetPendingOperation. frame_auto. Qed.
Hint Resolve safe_audit_op safe_getOp : coord_spec.
Hint Extern 2 (spec _ _ _ (save_op _)) => apply safe_save_op; assumption : coord_spec.

Lemma safe_rebase_op op pc : op_targeted op -> safe (rebase_op self op pc).
Proof.
  intros H. unfold rebase_op. cbv zeta. apply spec_opts_bind. case_match; [spec_auto|].
  - spec_step; [by spec_auto|]. spec_step; [by spec_auto|].
    spec_step; [by apply safe_repropose|]. spec_auto.
Qed.

Lemma safe_op_satisfied op : safe (op_satisfied op).
Proof. unfold op_satisfied. spec_auto. Qed.
Hint Resolve safe_op_satisfied : coord_spec.

Lemma safe_rebase_one op : op_targeted op -> safe (rebase_one self op).
Proof.
  intros H. unfold rebase_one. case_match; [apply spec_ret, _|]. spec_step; [by spec_auto|].
  case_match; [by spec_auto|]. spec_step; [by spec_auto|]. case_match; [by spec_auto|].
  spec_step; [by spec_auto|]. case_match; [|by spec_auto]. case_match; [by apply safe_rebase_op|by spec_auto].
Qed.

Lemma safe_reconcileAndRebase : safe (reconcileAndRebaseOperationsLocked self).
Proof.
  unfold reconcileAndRebaseOperationsLocked. apply spec_opts_bind. apply safe_each_op; [|by spec_auto].
  intros op. apply safe_rebase_one.
Qed.

End Generic.

#[export] Hint Resolve safe_reconcile safe_viewReady safe_deferCommit safe_scheduleBatch
  safe_scheduleFailover safe_schedule_if_holder safe_schedule_or_failover safe_reconcileAndRebase : coord_spec.

(** ** Committing *)

Section Commit.
Context {PC : PeerCodec} {WC : WireCodec} {WL : WireCodecLaws}.
Context (env : Env).
Context (Hmls : o_HasMLS (e_opts env) = true).
Context (Hdelay : 0 < Config.BatchingDelay (o_Config (e_opts env))).
Notation gid := (o_GroupID (e_opts env)).
Notation ok := (coord_ok env).
Notation ev := (evolves env ∅).

(** Between storing a commit and advancing: the table is one epoch ahead of
    the coordinator. *)
Record mid (e : Z) (w : World) : Prop := {
  mid_components : components_ok (w_c w);
  mid_next : e = c_epoch (w_c w) + 1 /\ e < 2 ^ 63;
  mid_group : forall row, db_groups (w_db w) !! gid = Some row ->
    gr_Epoch (grow_rec row) = e;
  mid_ops : Forall op_targeted (db_pending_ops (w_db w));
  mid_trace : trace_ok env (w_trace w) (w_db w);
}.

Lemma advance_history_spec g e h h0 c :
  c_historyHash c = Some h0 ->
  exists hh, advance_history g e h c = set_c_historyChain (<[e := hh]> (c_historyChain c)) (set_c_historyHash (Some hh) c).
Proof. intros E. unfold advance_history. rewrite E. by eexists. Qed.

Lemma Advance_future n th et :
  dom (Epoch.et_futureBuffer (Epoch.Advance n th et).2) ⊆ dom (Epoch.et_futureBuffer et).
Proof.
  intros e. rewrite !elem_of_dom, Epoch.Advance_lookup. case_decide; [done|]. by intros [? ?].
Qed.

Lemma Advance_backlog n th et :
  (Epoch.Advance n th et).1 <> [] ->
  (size (Epoch.et_futureBuffer (Epoch.Advance n th et).2) < size (Epoch.et_futureBuffer et))%nat.
Proof.
  intros Hne. rewrite <- !size_dom. apply subset_size. split; [apply Advance_future|]. intros Hs.
  unfold Epoch.Advance in Hne. simpl in Hne. destruct (Epoch.et_futureBuffer et !! n) as [raws|] eqn:E; [|done].
  assert (Hn : n ∈ dom (Epoch.et_futureBuffer et)) by (apply elem_of_dom; eauto).
  apply Hs, elem_of_dom in Hn. rewrite Epoch.Advance_lookup, decide_False in Hn by lia. by destruct Hn.
Qed.

(** What advancing hands back. *)
Definition drained_of (e : Z) (raws : list bytes) : Prop :=
  forall raw en, raw ∈ raws -> dec_envelope raw = inl en -> env_Epoch en = e.

Record advanced (e : Z) (raws : list bytes) (w w' : World) : Prop := {
  adv_ok : ok w';
  adv_extends : extends env w w';
  adv_epoch : c_epoch (w_c w') = e;
  adv_drained : drained_of e raws;
  adv_future : future_epochs (w_c w') ⊆ future_epochs (w_c w);
  adv_shrinks : raws <> [] -> (backlog (w_c w') < backlog (w_c w))%nat;
}.

Lemma advanced_intro e th w w2 et sw hh ann :
  mid e w -> c_epochTracker (w_c w) = Some et ->
  w_db w2 = w_db w -> w_trace w2 = w_trace w ->
  c_epoch (w_c w2) = e ->
  c_epochTracker (w_c w2) = Some (Epoch.Advance e th et).2 ->
  c_singleWriter (w_c w2) = Some sw -> SingleWriter.sw_epoch sw = e ->
  c_historyHash (w_c w2) = Some hh -> c_historyChain (w_c w2) = <[e := hh]> (c_historyChain (w_c w)) ->
  ForkDetector.fd_local (c_forkDetector (w_c w2)) = Some ann -> ann_Epoch ann = e -> ann_HistoryHash ann = hh ->
  c_welcomeReceived (w_c w2) = c_welcomeReceived (w_c w) ->
  advanced e (Epoch.Advance e th et).1 w w2.
Proof.
  intros [Hc [He Hlt] Hg Ho Ht] Eet Hd Htr E2 Et2 Es2 Esw Hh2 Hch2 L2 La Lh Sg.
  destruct Hc as [_ (et0 & Eet0 & Ee & Hok & Hbr) Hr _ _].
  rewrite Eet in Eet0. injection Eet0 as <-. split.
  - split; [split| |by rewrite Hd, Htr].
    + exists sw. split; congruence.
    + eexists. split; [done|]. split; [by rewrite Epoch.Advance_epoch, E2|]. split; [by apply Epoch.tracker_ok_advance|].
      intros e' raws raw en. rewrite Epoch.Advance_lookup. case_decide; [|done]. apply Hbr.
    + lia.
    + exists hh. rewrite Hch2, E2. split; [done|]. apply lookup_insert_eq.
    + exists ann. split; [done|]. split; congruence.
    + split; rewrite Hd; [|done]. by rewrite E2.
  - split; [lia| |by rewrite Hd|by rewrite Hd|by rewrite Hd|by rewrite Htr|apply heal_ok_eq; congruence]. intros e' He'. rewrite Hch2. by rewrite lookup_insert_ne by lia.
  - done.
  - intros raw en Hin. unfold Epoch.Advance in Hin. simpl in Hin.
    destruct (Epoch.et_futureBuffer et !! e) eqn:E; simpl in Hin; [by apply (Hbr e l)|by apply not_elem_of_nil in Hin].
  - unfold future_epochs. rewrite Et2, Eet. apply Advance_future.
  - intros Hne. unfold backlog, future_epochs. rewrite Et2, Eet, !size_dom. by apply Advance_backlog.
Qed.

Lemma advanced_ev e raws w w1 w2 : advanced e raws w w1 -> ev w1 w2 -> c_epoch (w_c w2) = c_epoch (w_c w1) ->
  advanced e raws w w2.
Proof.
  intros [O E Ep D B S] H Hc. pose proof (evolves_backlog _ _ _ H O). destruct (H O) as (O2 & E2 & B2).
  split; [done|by etrans|congruence|done|set_solver|intros Hne; specialize (S Hne); lia].
Qed.

Lemma wp_persistCoordState w (Q : result unit -> World -> Prop) :
  ok w -> (forall r w', ev w w' -> w_c w' = w_c w -> Q r w') -> wp env persistCoordStateLocked Q w.
Proof.
  intros Hw HQ. unfold persistCoordStateLocked. destruct Hw as [[(sw & E & _) _ _ _ _] _ _].
  wp_run. rewrite E. unfold sw_CurrentTokenHolder, the_singleWriter. wp_run. rewrite E. wp_run.
  rewrite wp_db. set (st := mkCoordState _ _ _ _ _ _ _). set (w1 := tick w).
  pose proof (SaveCoordState_frame st (e_sql env) (w_tick w1) (w_db w1)) as Hf.
  destruct (Store.SaveCoordState _ _ _ _) as [[r t] d]. apply HQ; [|done].
  etrans; [apply evolves_tick|]. by apply evolves_db, frame_kept.
Qed.

Lemma advance_state_spec st e th cd w :
  mid e w -> wp env (advance_state st e th cd) (fun raws w' => advanced e raws w w') w.
Proof.
  intros Hm. pose proof Hm as [Hc [He Hlt] _ _ _]. destruct Hc as [(sw & Esw & Ew) (et & Eet & _) Hr (h & Eh & _) Hl].
  unfold advance_state, the_epochTracker, the_singleWriter, set_epochTracker, set_singleWriter.
  rewrite wp_bind, wp_modify, wp_bind, wp_bind, wp_gets. cbn [w_c with_c c_epochTracker set_c_treeHash set_c_epoch set_c_groupState].
  rewrite Eet, wp_ret, (surjective_pairing (Epoch.Advance e th et)), wp_bind, wp_modify, wp_bind, wp_bind, wp_gets.
  cbn [w_c with_c c_singleWriter set_c_epochTracker set_c_treeHash set_c_epoch set_c_groupState].
  rewrite Esw, wp_ret, wp_bind, wp_modify. unfold sw_CurrentTokenHolder, the_singleWriter. wp_run.
  cbn [w_c with_c c_singleWriter set_c_singleWriter]. wp_run.
  match goal with |- wp _ _ _ ?x => set (w1 := x) end.
  assert (H1 : forall w2, w_db w2 = w_db w1 -> w_trace w2 = w_trace w1 ->
    (exists holder, w_c w2 = set_c_lastTokenHolder holder (w_c w1)) ->
    wp env (modify (set_c_proposalTimer None) ;;; modify (set_c_failoverTimer None) ;;;
      gid <-- opts o_GroupID ;
      modify (set_c_lastCommitHash (ForkDetector.hashCommitData cd)) ;;;
      modify (advance_history gid e (ForkDetector.hashCommitData cd)) ;;;
      c <-- gets (fun c => c) ;
      modify (fun c => set_c_forkDetector (ForkDetector.UpdateLocal
        (mkGroupStateAnnouncement th (ActiveView.Size (c_activeView c)) e (ForkDetector.hashCommitData cd)
           (default [] (c_historyHash c))) (c_forkDetector c)) c) ;;;
      persistCoordStateLocked ;;;
      cb <-- opts o_OnEpochChange ;
      when cb (emit (EEpochChange e)) ;;; ret (Epoch.Advance e th et).1)
      (fun raws w' => advanced e raws w w') w2).
  { intros w2 D2 T2 [holder C2]. generalize (ForkDetector.hashCommitData cd) as ch. intros ch.
    do 4 (rewrite wp_bind; wp_step). rewrite wp_bind, wp_modify. unfold with_c at 1.
    destruct (advance_history_spec gid e ch h (w_c (with_c (set_c_lastCommitHash ch)
      (with_c (set_c_failoverTimer None) (with_c (set_c_proposalTimer None) w2))))) as [hh ->].
    { simpl. by rewrite C2. }
    wp_run. match goal with |- wp _ _ _ ?x => set (w3 := x) end.
    assert (A3 : advanced e (Epoch.Advance e th et).1 w w3).
    { eapply (advanced_intro e th w w3 et _ hh); try exact Hm; try exact Eet; subst w3; simpl; rewrite ?C2; try done. }
    apply wp_persistCoordState; [apply A3|]. intros r w4 E4 C4. wp_run.
    destruct (o_OnEpochChange _); wp_run; (eapply advanced_ev; [exact A3| |by rewrite <- C4]); [|exact E4].
    etrans; [exact E4|by apply evolves_quiet]. }
  destruct (SingleWriter.CurrentTokenHolder _ _ _ _) as [hd|]; rewrite <- wp_bind; wp_step; apply H1; try done.
  - by exists hd.
  - exists (c_lastTokenHolder (w_c w1)). by destruct (w_c w1).
Qed.

(** ** Handlers that call back *)

(** A call a handler may make: its envelope is not ahead of the epoch. *)
Definition call_ready (call : Call) (c : Coord) : Prop :=
  match call with
  | CallProposal _ en => env_Epoch en <= c_epoch c
  | CallCommit en wire | CallApplication _ en wire => dec_envelope wire = inl en /\ env_Epoch en <= c_epoch c
  | CallBatched _ en _ => env_Type en = MsgApplicationBatched
  | CallTryCommit => True
  end.

Section Self.
Variables (n : nat) (e0 : Z) (self : Call -> C bool).
Hypothesis Hself : forall call w, ok w -> (backlog (w_c w) < n)%nat -> call_ready call (w_c w) ->
  wp env (self call) (fun _ w' => ev w w') w.

Lemma wp_self call w w0 :
  ok w0 -> ev w0 w -> (backlog (w_c w) < n)%nat -> call_ready call (w_c w) ->
  wp env (self call ;;; ret tt) (fun _ w' => ev w0 w') w.
Proof.
  intros H0 He Hb Hc. rewrite wp_bind. eapply wp_mono; [apply Hself; [by destruct (He H0)|done..]|].
  intros b w' H'. wp_run. by etrans.
Qed.

Lemma handle_buffered_spec e raw w w0 :
  ok w0 -> ev w0 w -> (backlog (w_c w) < n)%nat -> e <= c_epoch (w_c w) ->
  (forall en, dec_envelope raw = inl en -> env_Epoch en = e) ->
  wp env (handle_buffered self raw) (fun _ w' => ev w0 w') w.
Proof.
  intros H0 He Hb Hle Hraw. unfold handle_buffered. destruct (dec_envelope raw) as [en|] eqn:E; [|wp_run; exact He].
  specialize (Hraw en eq_refl). cbv zeta.
  destruct (str_eqb (env_Type en) MsgProposal); [apply wp_self; simpl; lia || done|].
  destruct (str_eqb (env_Type en) MsgCommit); [apply wp_self; simpl; try done; split; [done|lia]|].
  destruct (str_eqb (env_Type en) MsgApplication); [apply wp_self; simpl; try done; split; [done|lia]|].
  destruct (str_eqb_spec (env_Type en) MsgApplicationBatched); [by apply wp_self|]. wp_run. exact He.
Qed.

Lemma handle_all_buffered e raws w w0 :
  ok w0 -> ev w0 w -> (raws <> [] -> backlog (w_c w0) < n)%nat -> e <= c_epoch (w_c w0) -> drained_of e raws ->
  wp env (for_each raws (handle_buffered self)) (fun _ w' => ev w0 w') w.
Proof.
  intros H0. revert w. induction raws as [|raw raws IH]; intros w He Hb Hle Hd; simpl; [wp_run; exact He|].
  destruct (He H0) as (_ & [Hep _ _ _] & _). pose proof (evolves_backlog _ _ _ He H0).
  rewrite wp_bind. eapply wp_mono.
  - apply (handle_buffered_spec e raw w w0); [done..|specialize (Hb ltac:(done)); lia|lia|].
    intros en. apply Hd, list_elem_of_here.
  - intros [] w' He'. apply IH; [done|intros _; by apply Hb|done|].
    intros r en Hin. by apply Hd, list_elem_of_further.
Qed.

(** What a whole commit does. *)
Record committed (w w' : World) : Prop := {
  com_ok : ok w';
  com_extends : extends env w w';
  com_future : future_epochs (w_c w') ⊆ future_epochs (w_c w);
  com_epoch : c_epoch (w_c w) < c_epoch (w_c w');
}.

Lemma committed_ev w w1 w2 : committed w w1 -> ev w1 w2 -> committed w w2.
Proof.
  intros [O E B L] H. destruct (H O) as (O2 & E2 & B2).
  split; [done|by etrans|set_solver|]. destruct E2. lia.
Qed.

Lemma advanceEpoch_spec st e th cd w :
  mid e w -> (backlog (w_c w) <= n)%nat ->
  wp env (advanceEpochLocked self st e th cd) (fun _ w' => committed w w') w.
Proof.
  intros Hm Hb. unfold advanceEpochLocked. rewrite wp_bind.
  eapply wp_mono; [by apply advance_state_spec|]. intros raws w1 [O E Ep D B S].
  eapply wp_mono; [apply (handle_all_buffered e raws w1 w1); [done|reflexivity| |lia|done]|].
  - intros Hne. specialize (S Hne). lia.
  - intros [] w2 H2. assert (C1 : committed w w1).
    { split; [done..|]. destruct Hm as [_ [He _] _ _ _]. lia. }
    by eapply committed_ev.
Qed.

(** Go on after the commit. *)
Lemma committed_then {A} (m : C A) w w1 :
  spec env ok ev m -> committed w w1 -> wp env m (fun _ w' => committed w w') w1.
Proof.
  intros Hm H1. eapply wp_mono; [apply Hm, H1|]. intros ? w2 H2. cbn beta in *. by eapply committed_ev.
Qed.

Let ok_ok : forall w, ok w -> ok w := fun w H => H.

Lemma finish_received_spec cm st th e start w :
  mid e w -> (backlog (w_c w) <= n)%nat ->
  wp env (finish_received_commit self cm st th e start) (fun _ w' => committed w w') w.
Proof.
  intros Hm Hb. unfold finish_received_commit. rewrite wp_bind.
  eapply wp_mono; [by apply advanceEpoch_spec|]. intros [] w1 C1. apply committed_then; [|done].
  pose proof ok_ok. apply (safe_writer env ∅ ok ok_ok (fun sw => (SingleWriter.DrainBatchByRefs _ sw).2)).
  { intros sw. unfold SingleWriter.DrainBatchByRefs. by case_match. }
  intros _. apply spec_bind; [apply _..| |intros _; by spec_auto]. case_match; [apply spec_ret, _|].
  intros w2 H2. rewrite wp_bind. apply wp_singleWriter; [done|]. intros sw Es _.
  unfold set_singleWriter. rewrite wp_modify.
  apply (evolves_writer env ∅ sw (fun sw => (SingleWriter.DrainBatchByData _ sw).2)); [done|].
  unfold SingleWriter.DrainBatchByData. by case_match.
Qed.

(** A stored commit leaves the table one epoch ahead. *)
Lemma stored_mid rec w w1 :
  ok w -> stores rec (w_db w) (w_db w1) -> gr_GroupID rec = gid -> gr_Epoch rec = u64 (c_epoch (w_c w) + 1) ->
  w_trace w1 = w_trace w -> same_core (w_c w) (w_c w1) ->
  mid (u64 (c_epoch (w_c w) + 1)) w1 /\ extends env w w1.
Proof.
  intros [HC [HG HO] HT] (Hlt & O & J & P & A & N & row & G & E) Hg He Htr Hs.
  pose proof (ok_epoch _ HC) as Hr. pose proof Hs as (Ec & _ & Ch & _ & _ & _ & Sg).
  assert (Hu : u64 (c_epoch (w_c w) + 1) = c_epoch (w_c w) + 1) by (apply u64_small; unfold in_u64; lia).
  split; [split|split].
  - by eapply same_core_components.
  - rewrite Ec, Hu. rewrite He, Hu in Hlt. done.
  - intros row' G'. rewrite <- Hg in G'. simplify_map_eq. congruence.
  - by rewrite O.
  - rewrite Htr. by eapply trace_ok_mono.
  - rewrite Ec. lia.
  - intros. by rewrite Ch.
  - done.
  - by rewrite <- Hg.
  - done.
  - by rewrite Htr.
  - by apply heal_ok_eq.
Qed.

Lemma committed_from w w1 w2 : committed w1 w2 -> extends env w w1 ->
  c_epoch (w_c w1) = c_epoch (w_c w) -> future_epochs (w_c w1) = future_epochs (w_c w) -> committed w w2.
Proof. intros [O E B L] He Hc Hb. split; [done|by etrans|set_solver|lia]. Qed.

Lemma committed_evolves w w' : committed w w' -> ev w w'.
Proof. intros [O E B L] _. split; [done|]. split; [done|set_solver]. Qed.

(** [within n]: the precondition of the handlers. *)
Notation safe := (spec env (within env n e0) ev).

Let within_ok : forall w, within env n e0 w -> ok w := fun w H => proj1 H.

(** Storing a commit for the next epoch. *)
Lemma wp_ApplyCommit rec ty wire ts e w (Q : result (bool * Z) -> World -> Prop) :
  ok w -> gr_GroupID rec = gid -> gr_Epoch rec = u64 (c_epoch (w_c w) + 1) ->
  (forall r w1, ev w w1 -> (forall s, r <> inl (true, s)) -> Q r w1) ->
  (forall s w1, mid (u64 (c_epoch (w_c w) + 1)) w1 -> extends env w w1 -> w_c w1 = w_c w ->
     is_applied env (w_db w1) (sha256_sum wire) -> Q (inl (true, s)) w1) ->
  wp env (db (Store.ApplyCommit rec ty wire ts e)) Q w.
Proof.
  intros Hw Hg He Hno Hyes. rewrite wp_db. destruct (Store.ApplyCommit _ _ _ _ _ _ _ _) as [[r t] d] eqn:E.
  apply ApplyCommit_applies in E as [[-> Hr]|(Hs & _ & Ha & s & ->)].
  - apply Hno; [|done]. apply evolves_db, frame_kept. reflexivity.
  - destruct (stored_mid rec w (with_db d t w)) as [Hm Hx]; [done..|]. apply Hyes; [done..|].
    unfold is_applied. by rewrite <- Hg.
Qed.

Lemma safe_commit_sender_ok en b : safe (commit_sender_ok en b).
Proof. unfold commit_sender_ok. cbv zeta. pose proof within_ok. spec_auto. Qed.

(** The commit is not applied, or it is recorded as applied. *)
Definition applied_if (wire : bytes) (w : World) (b : bool) (w' : World) : Prop :=
  ev w w' /\ (b = true -> is_applied env (w_db w') (sha256_sum wire)).

Lemma wp_applyCommit en wire cm w :
  within env n e0 w -> wp env (applyCommitLocked self en wire cm) (applied_if wire w) w.
Proof.
  pose proof within_ok as Hok. unfold applyCommitLocked. cbv zeta. intros Hw.
  set (inv := markInvalidCommitLocked _ ;;; ret false).
  assert (Hinv : forall w1, ev w w1 -> within env n e0 w1 -> wp env inv (applied_if wire w) w1).
  { intros w1 H1 W1. apply (wp_spec_bind env (within env n e0) ev _ _ _ w w1); [by spec_auto|done..|]. intros [] w2 H2 _. by wp_run. }
  apply (wp_spec_bind env (within env n e0) ev _ _ _ w w); [by spec_auto|done|reflexivity|intros start w1 H1 W1].
  rewrite wp_bind, wp_gets.
  apply (wp_spec_bind env (within env n e0) ev _ _ _ w w1); [by spec_auto|done..|intros [staged|e] w2 H2 W2]; [|by apply Hinv].
  case_match; [by apply Hinv|].
  apply (wp_spec_bind env (within env n e0) ev _ _ _ w w2); [apply safe_commit_sender_ok|done..|intros [] w3 H3 W3]; [|by apply Hinv]. simpl.
  apply (wp_spec_bind env (within env n e0) ev _ _ _ w w3); [by spec_auto|done..|intros [[st th]|e] w4 H4 W4]; [|by apply Hinv].
  wp_run. set (w5 := tick w4).
  assert (H5 : ev w4 w5) by apply evolves_tick. destruct (H5 (proj1 W4)) as (O5 & X5 & _).
  apply wp_ApplyCommit; [done..| |].
  - intros r w6 H6 Hr. assert (ev w w6) by (do 2 (etrans; [done|]); done).
    destruct r as [[[] s]|e]; [by destruct (Hr s)|wp_run; done..].
  - intros s w6 Hm X6 C6 Ha. rewrite wp_bind.
    eapply wp_mono; [apply finish_received_spec; [exact Hm|rewrite C6; apply W4]|].
    intros [] w7 C7. wp_run. split.
    + etrans; [exact H4|]. apply committed_evolves. eapply committed_from; [exact C7| |by rewrite C6..]. by etrans.
    + intros _. eapply is_applied_mono; [|exact Ha]. apply C7.
Qed.

Lemma wp_handleCommit en wire w :
  env_Epoch en <= e0 -> dec_envelope wire = inl en -> within env n e0 w ->
  wp env (handleCommitLocked self en wire) (applied_if wire w) w.
Proof.
  intros Hmay Hdec Hw. unfold handleCommitLocked. rewrite wp_bind. apply wp_epochTracker with (env := env); [apply Hw|].
  intros et Et Ee. pose proof within_ok. destruct (Epoch.Validate _ _) eqn:Ev.
  - destruct (dec_commit _) as [cm|e]; [|wp_run; by split].
    apply (wp_spec_bind env (within env n e0) ev _ _ _ w w); [by spec_auto|done|reflexivity|intros r w1 H1 W1].
    case_match; [wp_run; by split|]. eapply wp_mono; [by apply wp_applyCommit|]. intros b w2 [H2 Ha].
    split; [by etrans|done].
  - apply (wp_spec_bind env (within env n e0) ev _ _ _ w w); [by spec_auto|done|reflexivity|intros [] w1 H1 W1]. wp_run. by split.
  - apply Epoch.ValidateEpoch_future in Ev. destruct Hw as (_ & _ & Hle). lia.
Qed.

Lemma safe_handleCommit en wire :
  env_Epoch en <= e0 -> dec_envelope wire = inl en -> safe (handleCommitLocked self en wire).
Proof. intros He Hd w Hw. eapply wp_mono; [by apply wp_handleCommit|]. by intros b w' [H _]. Qed.

Lemma mid_effect e ef w :
  mid e w -> (trace_ok env (w_trace w) (w_db w) -> trace_ok env (w_trace w ++ [ef]) (w_db w)) ->
  mid e (with_effect ef w) /\ extends env w (with_effect ef w).
Proof.
  intros [C N G O T] Ht. split; [split; simpl; auto|]. split; simpl; [lia|done|done|done|done|by apply prefix_app_r|by apply heal_ok_eq].
Qed.

Lemma mid_publish e ty wire w :
  mid e w -> is_applied env (w_db w) (sha256_sum wire) ->
  wp env (publishPreparedEnvelopeLocked ty wire)
    (fun _ w' => mid e w' /\ extends env w w' /\ w_c w' = w_c w) w.
Proof.
  intros Hm Ha. unfold publishPreparedEnvelopeLocked. wp_run. set (w1 := with_effect _ w).
  destruct (mid_effect e (EPublish (GroupTopic gid) wire) w Hm) as [M1 X1].
  { intros [T1 T2 T3]. split; rewrite ?delivered_app, ?published_app; simpl; rewrite ?app_nil_r; try done.
    apply Forall_app. split; [done|]. constructor; [|done]. by intros ? _ _. }
  destruct (_ && _); wp_run; [|done].
  destruct (mid_effect e (EEnvelope ty gid wire) w1 M1) as [M2 X2]; [|by split; [|split; [etrans|]]].
  intros [T1 T2 T3]. split; rewrite ?delivered_app, ?published_app; simpl; by rewrite ?app_nil_r.
Qed.

(** The commit becomes visible. *)
Lemma publish_commit_spec res cm wire e w :
  mid e w -> is_applied env (w_db w) (sha256_sum wire) -> (backlog (w_c w) <= n)%nat ->
  wp env (publish_commit self res cm wire e) (fun _ w' => committed w w') w.
Proof.
  intros Hm Ha Hb. unfold publish_commit. rewrite wp_bind.
  destruct (mid_components _ _ Hm) as [(sw & Es & Ew) _ _ _ _].
  unfold the_singleWriter at 1. wp_run. rewrite Es. wp_run.
  destruct (SingleWriter.DrainBatchByRefs _ sw) as [dr sw'] eqn:Ed.
  assert (Ew' : SingleWriter.sw_epoch sw' = SingleWriter.sw_epoch sw).
  { revert Ed. unfold SingleWriter.DrainBatchByRefs. by case_match; intros [= <- <-]. }
  unfold set_singleWriter. rewrite wp_bind, wp_modify. set (w1 := with_c _ w).
  assert (S1 : same_core (w_c w) (w_c w1)) by (repeat split; simpl; by rewrite Es; simpl; rewrite Ew').
  assert (M1 : mid e w1).
  { destruct Hm as [C N G O T]. split; try done. by eapply same_core_components. }
  assert (X1 : extends env w w1) by (split; try done; by apply heal_ok_eq). rewrite wp_bind.
  eapply wp_mono; [by apply mid_publish|]. intros [] w2 (M2 & X2 & C2). rewrite wp_bind.
  eapply wp_mono; [apply advanceEpoch_spec; [exact M2|by rewrite C2]|]. intros [] w3 C3. wp_run.
  eapply committed_from; [exact C3|by etrans|by rewrite C2..].
Qed.

(** Encoding and storing a commit of this node: nothing happens, or the table
    is one epoch ahead and the envelope may be published. *)
Lemma wp_store_commit res cm w (Q : result bytes -> World -> Prop) :
  ok w -> (forall e w1, ev w w1 -> Q (inr e) w1) ->
  (forall wire w1, mid (u64 (c_epoch (w_c w) + 1)) w1 -> extends env w w1 ->
     c_epoch (w_c w1) = c_epoch (w_c w) -> future_epochs (w_c w1) = future_epochs (w_c w) ->
     is_applied env (w_db w1) (sha256_sum wire) -> Q (inl wire) w1) ->
  wp env (store_commit res cm) Q w.
Proof.
  intros Hw Hno Hyes.
  unfold store_commit, hlc_Now, buildEnvelopeWithTimestampLocked, buildEnvelopeWithEpochAndTimestampLocked.
  wp_run. destruct (Hlc.Now _ _ _) as [ts h]. wp_run. set (w1 := with_c _ _). assert (H1 : ev w w1).
  { unfold w1. do 2 (etrans; [apply evolves_tick|]). by apply evolves_core. }
  case_match; wp_run; [by apply Hno|]. set (w2 := tick w1).
  assert (H2 : ev w w2) by (etrans; [exact H1|apply evolves_tick]).
  destruct (H2 Hw) as (O2 & X2 & _). apply wp_ApplyCommit; [done..| |].
  - intros r w3 H3 Hr. assert (ev w w3) by (by etrans).
    destruct r as [[[] s]|e]; wp_run; [by destruct (Hr s)|by apply Hno..].
  - intros s w3 Hm X3 C3 Ha. wp_run. apply Hyes; [done|by etrans|by rewrite C3..|done].
Qed.

Lemma account_commit_spec res pe e b : spec env ok ev (account_commit res pe e b).
Proof. pose proof ok_ok. unfold account_commit, emitCommitIssuedLocked. spec_auto. Qed.
Hint Resolve account_commit_spec : coord_spec.

(** From a stored commit to the end of the call. *)
Lemma finish_spec {A} res cm wire e (k : list BufferedProposal -> C A) w :
  mid e w -> is_applied env (w_db w) (sha256_sum wire) -> (backlog (w_c w) <= n)%nat ->
  (forall dr, spec env ok ev (k dr)) ->
  wp env (dr <-- publish_commit self res cm wire e ; k dr) (fun _ w' => committed w w') w.
Proof.
  intros Hm Ha Hb Hk. rewrite wp_bind. eapply wp_mono; [by eapply publish_commit_spec|].
  intros dr w1 C1. by apply committed_then.
Qed.

(** A method that stores a commit and finishes it. *)
Lemma commit_stored {A} res cm (fail : GoError -> C A) (k : bytes -> C A) w :
  ok w -> (backlog (w_c w) <= n)%nat -> (forall e, spec env ok ev (fail e)) ->
  (forall wire w1, mid (u64 (c_epoch (w_c w) + 1)) w1 ->
     is_applied env (w_db w1) (sha256_sum wire) -> (backlog (w_c w1) <= n)%nat ->
     wp env (k wire) (fun _ w' => committed w1 w') w1) ->
  wp env (r <-- store_commit res cm ; match r with inr e => fail e | inl wire => k wire end)
    (fun _ w' => ev w w') w.
Proof.
  intros Hw Hb Hfail Hk. rewrite wp_bind. apply wp_store_commit; [done| |].
  - intros e w1 H1. apply (wp_then env ∅ ok); [apply Hfail|done..].
  - intros wire w1 Hm X1 E1 F1 Ha. eapply wp_mono; [apply Hk; [done..|unfold backlog; by rewrite F1]|].
    intros a w2 C2. apply committed_evolves. eapply committed_from; [exact C2|done..].
Qed.

Lemma safe_doCommit b : safe (doCommitBatchLocked self b).
Proof.
  unfold doCommitBatchLocked. apply spec_read. intros w Hw. case_match; [wp_run; reflexivity|].
  rewrite wp_bind, wp_mls by done. destruct (mls_CreateCommit _ _ _ _) as [res|e]; [|wp_run; apply evolves_tick].
  cbv zeta. assert (H1 : ev w (tick w)) by apply evolves_tick.
  eapply wp_mono; [apply (commit_stored res (commit_message b res) (fun _ => ret tt)); [by destruct (H1 (proj1 Hw))|apply Hw|..]|].
  - intros _. apply spec_ret, _.
  - intros wire w1 Hm Ha Hb. eapply finish_spec; [done..|]. intros dr. pose proof ok_ok. cbv zeta. spec_auto.
  - intros [] w2 H2. by etrans.
Qed.

Lemma safe_tryCommit : safe (tryCommitLocked self).
Proof.
  pose proof within_ok. unfold tryCommitLocked. spec_step; [by spec_auto|]. case_match; [apply spec_ret, _|].
  spec_step; [by spec_auto|]. case_match; [apply spec_ret, _|]. spec_step; [by spec_auto|]. spec_step. cbv zeta.
  case_match; [apply spec_ret, _|]. spec_step; [by spec_auto|]. case_match; [by spec_auto|apply safe_doCommit].
Qed.

End Self.

Lemma within_may_buffer n e en : env_Epoch en <= e -> may_buffer ∅ (within env n e) en.
Proof. intros He w (_ & _ & Hle). right. lia. Qed.

(** The knot: a bound above the number of future epochs with buffered
    envelopes is deep enough. *)
Lemma run_spec n call w :
  ok w -> (backlog (w_c w) < n)%nat -> call_ready call (w_c w) ->
  wp env (run n call) (fun _ w' => ev w w') w.
Proof.
  revert call w. induction n as [|n IH]; intros call w Hw Hb Hc; [lia|]. simpl.
  assert (Hin : forall e, e <= c_epoch (w_c w) -> within env n e w) by (intros; split; [done|]; split; lia).
  assert (Hok : forall e w, within env n e w -> ok w) by (intros ?? H; apply H).
  destruct call; simpl in *.
  - apply (spec_bind env (within env n (env_Epoch env0)) ev); [apply _..| |intros; apply spec_ret, _|by apply Hin].
    apply (safe_handleProposal env ∅ _ (Hok _) Hmls Hdelay). by apply within_may_buffer.
  - destruct Hc as [Hd Hle]. apply (safe_handleCommit n (env_Epoch env0)); auto. done.
  - destruct Hc as [Hd Hle]. apply (safe_handleApplication env ∅ (within env n (env_Epoch env0)) (Hok _) Hmls);
      [by apply within_may_buffer|done|by apply Hin].
  - apply (safe_handleBatched env ∅ (within env n (c_epoch (w_c w))) (Hok _) Hmls); [done|by apply Hin].
  - apply (spec_bind env (within env n (c_epoch (w_c w))) ev); [apply _..| |intros; apply spec_ret, _|by apply Hin].
    by apply safe_tryCommit.
Qed.
End Commit.

(** ** The journal *)

Section Journal.
Context {PC : PeerCodec} {WC : WireCodec} {WL : WireCodecLaws}.
Context (env : Env) (grow : gset Z) (P : World -> Prop).
Context (HP : forall w, P w -> coord_ok env w) `{HS : !Stable P (evolves env grow)}.
Notation safe := (spec env P (evolves env grow)).

Lemma GetPendingOperation_frame id : respects frame (HealStore.GetPendingOperation id).
Proof. unfold HealStore.GetPendingOperation. frame_auto. Qed.
Lemma GetPendingOperationByKey_frame g k : respects frame (HealStore.GetPendingOperationByIdempotencyKey g k).
Proof. unfold HealStore.GetPendingOperationByIdempotencyKey. frame_auto. Qed.
Hint Resolve GetPendingOperation_frame GetPendingOperationByKey_frame : coord_spec.

Lemma safe_known_operation id key : safe (known_operation id key).
Proof. unfold known_operation. cbv zeta. spec_auto. Qed.

Lemma safe_operation_id id : safe (operation_id id).
Proof. unfold operation_id, newTraceID. spec_auto. Qed.

(** The operation that is journalled names its member. *)
Lemma open_operation_spec id ty key h target payload w :
  P w -> wp env (open_operation id ty key h target payload)
           (fun op w' => evolves env grow w w' /\ op_targeted op) w.
Proof.
  intros Hw. unfold open_operation. wp_run. set (op := mkPendingOperation _ _ _ _ _ _ _ _ _ _ _ _ _ _ _ _).
  assert (Hop : op_targeted op) by (intros _; by eexists).
  eapply wp_mono; [apply (wp_then env grow P (save_op op) w)|]; [by apply safe_save_op|done|by do 2 (etrans; [apply evolves_tick|])|].
  intros [] w1 H1. wp_run. done.
Qed.

Lemma safe_fail_operation op e : op_targeted op -> safe (fail_operation op e).
Proof. intros Hop. unfold fail_operation. spec_step; [by spec_auto|]. by apply safe_save_op. Qed.

Lemma safe_propose_operation op d : op_targeted op -> safe (propose_operation op d).
Proof.
  intros Hop. unfold propose_operation. spec_step; [by spec_auto|]. cbv zeta. apply safe_save_op; [done..|].
  by destruct d.
Qed.

Lemma safe_announce_proposal msg : safe (announce_proposal msg).
Proof. unfold announce_proposal. spec_auto. Qed.
End Journal.
#[export] Hint Resolve safe_known_operation safe_operation_id safe_announce_proposal safe_createProposal
  safe_propose : coord_spec.
#[export] Hint Extern 2 (spec _ _ _ (fail_operation _ _)) =>
  apply safe_fail_operation; solve [assumption | apply _] : coord_spec.
#[export] Hint Extern 2 (spec _ _ _ (propose_operation _ _)) =>
  apply safe_propose_operation; solve [assumption | apply _] : coord_spec.

(** ** The operations *)

Section Members.
Context {PC : PeerCodec} {WC : WireCodec} {WL : WireCodecLaws}.
Context (env : Env).
Context (Hmls : o_HasMLS (e_opts env) = true).
Context (Hdelay : 0 < Config.BatchingDelay (o_Config (e_opts env))).
Variables (n : nat) (e0 : Z) (self : Call -> C bool).
Hypothesis Hself : forall call w, coord_ok env w -> (backlog (w_c w) < n)%nat -> call_ready call (w_c w) ->
  wp env (self call) (fun _ w' => evolves env ∅ w w') w.
Notation ev := (evolves env ∅).
Notation safe := (spec env (within env n e0) ev).

Let ok_ok : forall w, coord_ok env w -> coord_ok env w := fun w H => H.
Let within_ok : forall w, within env n e0 w -> coord_ok env w := fun w H => proj1 H.

Lemma safe_commit_single msg b ds : safe (commit_single self msg b ds).
Proof.
  unfold commit_single. apply spec_read. intros w Hw. rewrite wp_bind, wp_mls by done.
  destruct (mls_CreateCommit _ _ _ _) as [res|e]; [|wp_run; apply evolves_tick]. cbv zeta.
  assert (H1 : ev w (tick w)) by apply evolves_tick.
  eapply wp_mono; [eapply (commit_stored env Hmls Hdelay n self Hself res _ (fun e => ret (inr e)));
                   [by destruct (H1 (proj1 Hw))|apply Hw|..]|].
  - intros e. apply spec_ret, _.
  - intros wire w1 Hm Ha Hb. eapply (finish_spec env Hmls Hdelay n self Hself); [done..|]. intros dr.
    pose proof ok_ok. pose proof (account_commit_spec env Hmls). spec_auto.
  - intros r w2 H2. by etrans.
Qed.

(** After the request has been checked, the journal entry is what the rest
    works on. *)
Lemma safe_opened {A} id ty key h target payload (k : PendingOperation -> C A) :
  (forall op, op_targeted op -> safe (k op)) ->
  safe (op <-- open_operation id ty key h target payload ; k op).
Proof.
  apply spec_bind_value; [apply _..|]. intros w Hw. by apply (open_operation_spec env ∅ (within env n e0) within_ok).
Qed.

Lemma safe_AddMember req : safe (AddMember self req).
Proof.
  pose proof within_ok as HP. pose proof safe_commit_single as Hc. unfold AddMember. cbv zeta.
  do 2 (spec_step; [by spec_auto|]). do 3 (case_match; [apply spec_ret, _|]).
  spec_step; [by spec_auto|]. case_match; [apply spec_ret, _|]. spec_step; [by spec_auto|].
  apply safe_opened. intros op Hop. spec_auto.
Qed.

Lemma safe_RemoveMember req : safe (RemoveMemberWithPeer self req).
Proof.
  pose proof within_ok as HP. pose proof safe_commit_single as Hc. unfold RemoveMemberWithPeer. cbv zeta.
  do 2 (spec_step; [by spec_auto|]). do 3 (case_match; [apply spec_ret, _|]).
  spec_step; [by spec_auto|]. case_match; [apply spec_ret, _|]. spec_step; [by spec_auto|].
  apply safe_opened. intros op Hop. spec_auto.
Qed.
End Members.
