(* ===== verification/CoordSafeHeal.v ===== *)
(** * Replays and heals keep the invariant

    The replay of own messages, the welcome of a winning branch and every
    phase of a fork heal.  While no heal has been answered, which the tables
    ensure, a heal is one more method that only lets the state grow; a heal
    that swaps the group state keeps the invariant too, at another epoch. *)
From S2P Require Import Prelude Sha256 Types Config Hlc Epoch ActiveView SingleWriter.
From S2P Require Import ForkDetector Helpers Database Store StoreSpec HealStore Coordinator.
From S2P Require Import CoordBroadcast CoordApplication CoordCommit CoordMessage CoordLogic.
From S2P Require Import CoordReplay CoordHeal CoordInv CoordSafe CoordSafeCommit.

(** ** Storage calls *)

Section Frames.
Context {PC : PeerCodec}.

Lemma SaveOutboundReplay_frame o : respects frame (HealStore.SaveOutboundReplay o).
Proof.
  unfold HealStore.SaveOutboundReplay. frame_auto.
  apply respects_readonly; [apply _|apply HealStore.readonly_not_null].
Qed.
Lemma ListApplicationEvents_frame j : respects frame (HealStore.ListApplicationEvents j).
Proof. unfold HealStore.ListApplicationEvents. frame_auto. Qed.
Lemma ListOutboundReplays_frame j : respects frame (HealStore.ListOutboundReplays j).
Proof. unfold HealStore.ListOutboundReplays. frame_auto. Qed.
Lemma ClearSealedPayloads_frame j : respects frame (HealStore.ClearSealedPayloads j).
Proof. unfold HealStore.ClearSealedPayloads. frame_auto. Qed.
Lemma GetActiveForkHealingJob_frame g : respects frame (HealStore.GetActiveForkHealingJob g).
Proof. unfold HealStore.GetActiveForkHealingJob. frame_auto. Qed.
Lemma RecordForkHealAudit_frame a : respects frame (HealStore.RecordForkHealAudit a).
Proof. unfold HealStore.RecordForkHealAudit. frame_auto. Qed.
Lemma RecordForkHealEvent_frame e : respects frame (HealStore.RecordForkHealEvent e).
Proof.
  unfold HealStore.RecordForkHealEvent. frame_auto. apply respects_readonly; [apply _|apply HealStore.readonly_uint64s].
Qed.
Lemma MarkMessageReplayed_frame g h t : respects frame (Store.MarkMessageReplayed g h t).
Proof. unfold Store.MarkMessageReplayed. frame_auto. Qed.
End Frames.

#[export] Hint Resolve SaveOutboundReplay_frame ListApplicationEvents_frame ListOutboundReplays_frame
  ClearSealedPayloads_frame GetActiveForkHealingJob_frame RecordForkHealAudit_frame RecordForkHealEvent_frame
  MarkMessageReplayed_frame : coord_spec.

(** ** Replays *)

Section Replays.
Context {PC : PeerCodec} {WC : WireCodec} {WL : WireCodecLaws}.
Context (env : Env) (grow : gset Z) (P : World -> Prop).
Context (HP : forall w, P w -> coord_ok env w) `{HS : !Stable P (evolves env grow)}.
Context (Hmls : o_HasMLS (e_opts env) = true).
Notation gid := (o_GroupID (e_opts env)).
Notation safe := (spec env P (evolves env grow)).

Lemma safe_appendOffline wire : safe (appendOfflineEnvelopeLocked wire).
Proof. unfold appendOfflineEnvelopeLocked, Store.AppendEnvelope. spec_auto. Qed.

Lemma safe_publishPrepared ty wire :
  (forall d, publishable env d wire) -> safe (publishPreparedEnvelopeLocked ty wire).
Proof.
  intros Hpub. unfold publishPreparedEnvelopeLocked. apply spec_opts_bind.
  apply spec_bind; [apply _..| |intros _; by spec_auto].
  intros w _. rewrite wp_emit. by apply evolves_publish.
Qed.
Hint Resolve safe_appendOffline : coord_spec.
Hint Extern 2 (spec _ _ _ (publishPreparedEnvelopeLocked _ _)) => apply safe_publishPrepared; assumption : coord_spec.

Lemma safe_save_event ev : safe (save_event ev).
Proof. unfold save_event. spec_auto. Qed.
Lemma safe_mark_replayed ev : safe (mark_replayed ev).
Proof. unfold mark_replayed. spec_auto. Qed.
Lemma safe_mark_event ev : safe (mark_event_replayed ev).
Proof. unfold mark_event_replayed. spec_auto. Qed.
Hint Resolve safe_save_event safe_mark_replayed safe_mark_event : coord_spec.

Lemma safe_broadcastBatched o evs :
  (forall d, publishable env d (or_ReplayEnvelope o)) -> safe (broadcastBatchedOutboundReplay o evs).
Proof. intros Hpub. unfold broadcastBatchedOutboundReplay, broadcast_outbound. spec_auto. Qed.

Lemma safe_open_event key ev : safe (open_event key ev).
Proof. unfold open_event. cbv zeta. spec_auto. Qed.
Lemma safe_open_events key evs : safe (open_events key evs).
Proof.
  induction evs as [|ev evs IH]; simpl; [apply spec_ret, _|]. pose proof (safe_open_event key ev). spec_auto.
Qed.

(** An envelope of a type that needs no storing may be published. *)
Lemma safe_with_envelope {A} ty payload ts (k : bytes -> C A) :
  ty ∈ message_types -> isolates ty = false ->
  (forall wire, (forall d, publishable env d wire) -> safe (k wire)) ->
  safe (wire <-- buildEnvelopeWithTimestampLocked ty payload ts ; k wire).
Proof.
  intros Hin Hty Hk. apply spec_bind_value with (V := fun wire => forall d, publishable env d wire); [apply _..| |done].
  intros w Hw. unfold buildEnvelopeWithTimestampLocked, buildEnvelopeWithEpochAndTimestampLocked. wp_run.
  split; [reflexivity|]. intros d. by apply publishable_quiet.
Qed.

Lemma safe_replay_chunk j g i chunk : safe (replay_chunk j g i chunk).
Proof.
  unfold replay_chunk. spec_step; [apply spec_gets, _|]. spec_step; [by apply safe_mls|].
  match goal with |- spec _ _ _ (match ?o with _ => _ end) => destruct o as [[ct st]|e] end; [|by spec_auto].
  spec_step; [by spec_auto|]. apply safe_with_envelope; [set_solver|done|]. intros wire Hpub. cbv zeta.
  do 6 (spec_step; [by spec_auto|]). spec_step; [by spec_auto|]. spec_step; [by apply safe_broadcastBatched|]. spec_auto.
Qed.
Lemma safe_replay_chunks j g i cs : safe (replay_chunks j g i cs).
Proof.
  revert i. induction cs as [|c cs IH]; intros i; simpl; [apply spec_ret, _|].
  pose proof (safe_replay_chunk j g i c). spec_auto.
Qed.

Lemma safe_batchAndReplay j g : safe (batchAndReplayOutbox j g).
Proof.
  unfold batchAndReplayOutbox. spec_step; [by spec_auto|]. spec_step; [|apply spec_ret, _]. apply spec_opts_bind.
  spec_step; [apply safe_open_events|]. case_match; [apply spec_ret, _|apply safe_replay_chunks].
Qed.
Lemma safe_batch_replay_task g : safe (batch_replay_task g).
Proof. unfold batch_replay_task. pose proof safe_batchAndReplay. spec_auto. Qed.

(** ** Heals *)

Lemma safe_recordAudit a b c d t n e : safe (recordForkHealAudit a b c d t n e).
Proof. unfold recordForkHealAudit. spec_auto. Qed.
Hint Resolve safe_recordAudit : coord_spec.
Lemma safe_audit_end r a b t e : safe (audit_end r a b t e).
Proof. unfold audit_end. spec_auto. Qed.
Lemma safe_recordEvent e : safe (recordForkHealEvent e).
Proof. unfold recordForkHealEvent. spec_auto. Qed.
Hint Resolve safe_audit_end safe_recordEvent : coord_spec.
Lemma safe_logHealFailed r s : safe (logHealFailed r s).
Proof. unfold logHealFailed, CurrentEpoch. cbv zeta. spec_auto. Qed.
Hint Resolve safe_logHealFailed : coord_spec.

Lemma safe_publish_join msg : safe (publish_join msg).
Proof.
  unfold publish_join. spec_step; [by spec_auto|]. apply safe_with_envelope; [set_solver|done|].
  intros wire Hpub. spec_auto.
Qed.
Hint Resolve safe_publish_join : coord_spec.

(** A healing job that has not got past its join proposal is saved. *)
Lemma job_row_waiting j : job_Status j ∈ ["INITIATED"; "SNAPSHOT_CREATED"; "PROPOSAL_SENT"] ->
  job_waiting (HealStore.job_row j).
Proof. intros H. by split. Qed.

Lemma upsert_waiting j rows :
  job_waiting (HealStore.job_row j) -> Forall job_waiting rows ->
  Forall job_waiting (HealStore.upsert job_JobID HealStore.job_merge (HealStore.job_row j) rows).
Proof.
  intros Hj Hrows. apply Forall_forall. intros x [[Hx _]|[->|(o & Ho & _ & ->)]]%HealStore.elem_of_upsert; [|done|].
  - by eapply Forall_forall in Hrows.
  - destruct Hj as [_ Hs]. by split.
Qed.

Lemma safe_save_job j :
  job_Status j ∈ ["INITIATED"; "SNAPSHOT_CREATED"; "PROPOSAL_SENT"] -> safe (db (HealStore.SaveForkHealingJob j)).
Proof.
  intros Hj. apply safe_db; [done|]. intros c d t _. unfold HealStore.SaveForkHealingJob.
  apply (respects_wrap (db_kept env c)). apply respects_bind; [apply _| |intros _].
  { apply respects_readonly; [apply _|apply HealStore.readonly_uint64s]. }
  apply respects_bind; [apply _| |intros _].
  { apply respects_readonly; [apply _|apply HealStore.readonly_not_null]. }
  apply HealStore.respects_exec_unique; [apply _|]. intros d0 _. split; [by apply applied_mono_eq|done|done| |].
  - by intros [G O].
  - by apply upsert_waiting, job_row_waiting.
Qed.
End Replays.

#[export] Hint Resolve safe_appendOffline safe_save_event safe_mark_replayed safe_mark_event safe_batchAndReplay
  safe_recordAudit safe_audit_end safe_recordEvent safe_logHealFailed safe_publish_join : coord_spec.

(** ** A heal that has not been answered *)

Definition waiting_statuses : list string := ["INITIATED"; "SNAPSHOT_CREATED"; "PROPOSAL_SENT"].

(** The job a heal holds has not got past its join proposal. *)
Definition pc_waiting (p : HealPC) : Prop :=
  match p with
  | HSnapshot r | HPropose r | HAwait r _ _ | HSwap r | HReplay r | HClean r _ =>
      job_Status (hr_job r) ∈ waiting_statuses
  | _ => True
  end.

(** The active job of a group is one of the stored jobs. *)
Lemma active_job_waiting g jobs j : Forall job_waiting jobs -> HealStore.active_job g jobs = Some j -> job_waiting j.
Proof.
  intros HJ Hj. unfold HealStore.active_job in Hj. rewrite Forall_forall in HJ. apply HJ.
  assert (Hin : j ∈ stable_sort (fun a b => job_CreatedAtMs b <? job_CreatedAtMs a)
    (filter (fun j => job_GroupID j = g /\ HealStore.job_active j = true) jobs)).
  { destruct (stable_sort _ _); [done|]. injection Hj as ->. apply list_elem_of_here. }
  rewrite stable_sort_elem in Hin. by apply list_elem_of_filter in Hin as [_ ?].
Qed.

Section Unanswered.
Context {PC : PeerCodec} {WC : WireCodec} {WL : WireCodecLaws}.
Context (env : Env) (Hmls : o_HasMLS (e_opts env) = true).
Notation ev := (evolves env ∅).

Definition unanswered (w : World) : Prop := coord_ok env w /\ heal_ok w.
#[export] Instance unanswered_stable : Stable unanswered ev.
Proof. intros w w' [Hw Hh] H. destruct (H Hw) as (Hw' & [_ _ _ _ Hx] & _). split; auto. Qed.
Let HP : forall w, unanswered w -> coord_ok env w := fun w H => proj1 H.
Notation safe := (spec env unanswered ev).

(** A phase: it moves along the relation to a place that is waiting. *)
Definition phase (m : C HealPC) : Prop :=
  forall w, unanswered w -> wp env m (fun p w' => ev w w' /\ pc_waiting p) w.

Lemma phase_ret p : pc_waiting p -> phase (ret p).
Proof. intros H w _. rewrite wp_ret. by split. Qed.
Lemma phase_bind {A} (m : C A) k : safe m -> (forall a, phase (k a)) -> phase (bind m k).
Proof.
  intros Hm Hk w Hw. rewrite wp_bind. eapply wp_spec; [apply _|exact Hm|done|]. intros a w1 H1 Hw1.
  eapply wp_mono; [by apply Hk|]. intros p w2 [H2 Hp]. split; [by etrans|done].
Qed.
Lemma phase_bind_value {A} (V : A -> Prop) (m : C A) k :
  (forall w, unanswered w -> wp env m (fun a w' => ev w w' /\ V a) w) -> (forall a, V a -> phase (k a)) ->
  phase (bind m k).
Proof.
  intros Hm Hk w Hw. rewrite wp_bind. eapply wp_mono; [by apply Hm|]. intros a w1 [H1 HV].
  eapply wp_mono; [apply Hk; [done|by eapply stable]|]. intros p w2 [H2 Hp]. split; [by etrans|done].
Qed.

(** The active job is waiting. *)
Lemma wp_active_job g w : unanswered w ->
  wp env (db (HealStore.GetActiveForkHealingJob g))
    (fun r w' => ev w w' /\ forall j, r = inl (Some j) -> job_waiting j) w.
Proof.
  intros [Hw [HJ _]]. rewrite wp_db. unfold HealStore.GetActiveForkHealingJob, sql_wrap, sql_query.
  destruct (sql_fails _ _); (split; [by apply evolves_db, frame_kept|]); [done|].
  intros j [= Hj]. by eapply active_job_waiting.
Qed.

Lemma safe_snapshot_own k j g m : safe (snapshot_own k j g m).
Proof. unfold snapshot_own. spec_auto. Qed.
Lemma safe_snapshot_pending k j g rec : safe (snapshot_pending k j g rec).
Proof.
  unfold snapshot_pending. case_match; [apply spec_ret, _|]. do 2 (case_match; [|apply spec_ret, _]).
  spec_step; [apply spec_gets, _|]. apply spec_opts_bind. spec_step; [by apply safe_mls|].
  apply spec_bind; [apply _..| |intros [[[st h] pl] n]; by spec_auto]. repeat case_match; spec_auto.
Qed.

Lemma phase_begin b id e at_ : phase (heal_begin b id e at_).
Proof.
  unfold heal_begin. apply phase_bind; [by spec_auto|intros t]. apply phase_bind; [by spec_auto|intros _].
  case_match; [apply phase_bind; [by spec_auto|]; intros _; by apply phase_ret|].
  apply phase_bind_value with (V := fun r => forall j, r = inl (Some j) -> job_waiting j); [intros; by apply wp_active_job|].
  intros r Hr. apply phase_bind_value with (V := fun j => job_Status j ∈ waiting_statuses).
  - intros w Hw. assert (Hnew : wp env (job <-- gets (new_heal_job id e t) ;
      db (HealStore.SaveForkHealingJob job) ;;; ret job) (fun j w' => ev w w' /\ job_Status j ∈ waiting_statuses) w).
    { wp_run. eapply wp_mono; [apply (safe_save_job env ∅ unanswered HP); [apply list_elem_of_here|done]|].
      intros x w1 H1. wp_run. split; [done|apply list_elem_of_here]. }
    destruct r as [[j|]|?]; [|exact Hnew..]. wp_run. split; [reflexivity|]. by destruct (Hr j eq_refl).
  - intros j Hj. apply phase_bind; [unfold SetOperationalMode; by spec_auto|]. intros _. by apply phase_ret.
Qed.

Lemma phase_save_job st r k :
  st ∈ waiting_statuses -> (forall j, job_Status j = st -> phase (k j)) ->
  phase (job <-- save_job_status st r ; k job).
Proof.
  intros Hst Hk. apply phase_bind_value with (V := fun j => job_Status j = st); [|done].
  intros w Hw. unfold save_job_status. wp_run.
  eapply wp_mono; [apply (safe_save_job env ∅ unanswered HP); [done|by eapply stable; [exact Hw|apply evolves_tick]]|].
  intros x w1 H1. wp_run. split; [|done]. etrans; [apply evolves_tick|exact H1].
Qed.

Lemma phase_snapshot r : job_Status (hr_job r) ∈ waiting_statuses -> phase (heal_snapshot r).
Proof.
  intros Hr. unfold heal_snapshot. case_match; [by apply phase_ret|]. cbv zeta.
  pose proof safe_snapshot_own. pose proof safe_snapshot_pending.
  do 9 (apply phase_bind; [by spec_auto|intro]).
  apply phase_save_job; [by do 2 constructor|]. intros j Hj. apply phase_bind; [by spec_auto|intros _].
  apply phase_ret. simpl. rewrite Hj. by do 2 constructor.
Qed.

Lemma phase_propose r : job_Status (hr_job r) ∈ waiting_statuses -> phase (heal_propose r).
Proof.
  intros Hr. unfold heal_propose. case_match; [by apply phase_ret|].
  do 3 (apply phase_bind; [by spec_auto|intro]). apply phase_bind; [by apply safe_mls|intros [[kp priv]|e]].
  - do 2 (apply phase_bind; [by spec_auto|intro]). cbv zeta. apply phase_bind; [by apply safe_modify|intros _].
    do 2 (apply phase_bind; [by spec_auto|intro]).
    apply phase_bind; [apply (safe_save_job env ∅ unanswered HP); simpl; set_solver|intros _].
    apply phase_bind; [by spec_auto|intros _]. apply phase_ret. simpl. set_solver.
  - do 2 (apply phase_bind; [by spec_auto|intro]). by apply phase_ret.
Qed.

(** Nothing is received on the welcome channel. *)
Lemma phase_await sig r msg n : job_Status (hr_job r) ∈ waiting_statuses -> phase (heal_await sig r msg n).
Proof.
  intros Hr. assert (Ht : forall k, phase k -> phase (b <-- take_welcome ; if b : bool then reload_job r else k)).
  { intros k Hk. apply phase_bind_value with (V := fun b => b = false); [|intros b ->; exact Hk].
    intros w Hw. unfold take_welcome. wp_run. destruct Hw as [_ [_ Hs]]. split; [|done].
    apply evolves_core. repeat split. simpl. congruence. }
  unfold heal_await. destruct sig; [apply Ht; by apply phase_ret|by apply phase_ret|apply Ht].
  case_match; (apply phase_bind; [by spec_auto|intros _]); by apply phase_ret.
Qed.

Lemma waiting_not s : s ∈ waiting_statuses ->
  str_eqb s "EXTERNAL_JOINED" = false /\ str_eqb s "STATE_SWAPPED" = false /\ str_eqb s "LOCAL_COMPLETE" = false.
Proof. unfold waiting_statuses. rewrite !elem_of_cons. by intros [->|[->|[->|H%not_elem_of_nil]]]. Qed.

Lemma safe_restore : safe restore_group_state.
Proof.
  unfold restore_group_state. apply spec_read. intros w Hw. case_match; wp_run; [reflexivity|].
  rewrite wp_db. unfold Store.GetGroupRecord, sql_bind, sql_wrap, sql_query.
  assert (Hf : forall t, ev w (with_db (w_db w) t w)) by (intros; by apply evolves_db).
  destruct (sql_fails _ _); [wp_run; apply Hf|].
  destruct (db_groups (w_db w) !! o_GroupID (e_opts env)) as [row|] eqn:G; unfold sql_ret, sql_throw; [|wp_run; apply Hf].
  case_match; wp_run; [apply Hf|]. etrans; [apply Hf|]. apply evolves_core. repeat split; simpl.
  destruct Hw as [[_ [HG _] _] _]. by apply HG.
Qed.

Lemma phase_exit b : phase (heal_exit b).
Proof.
  unfold heal_exit, SetOperationalMode. pose proof safe_restore.
  do 3 (apply phase_bind; [by spec_auto|intros _]). by apply phase_ret.
Qed.

Lemma phase_step sig p : pc_waiting p -> phase (heal_step sig p).
Proof.
  intros Hp. destruct p; cbn [pc_waiting heal_step] in *.
  - apply phase_begin.
  - by apply phase_snapshot.
  - by apply phase_propose.
  - by apply phase_await.
  - destruct (waiting_not _ Hp) as (E & _). unfold heal_swap. rewrite E. by apply phase_ret.
  - destruct (waiting_not _ Hp) as (_ & E & _). unfold heal_replay. rewrite E. by apply phase_ret.
  - destruct (waiting_not _ Hp) as (_ & _ & E). unfold heal_clean. rewrite E. by apply phase_ret.
  - apply phase_exit.
  - by apply phase_ret.
Qed.

(** No welcome is accepted. *)
Lemma welcome_refused bytes w : unanswered w ->
  wp env (ProcessWelcomeIfWaiting bytes) (fun b w' => b = false /\ ev w w' /\ w_trace w' = w_trace w) w.
Proof.
  intros Hw. unfold ProcessWelcomeIfWaiting, waiting_job. rewrite wp_bind, wp_bind, wp_opts, wp_bind.
  assert (Ht : wp env (db (HealStore.GetActiveForkHealingJob (o_GroupID (e_opts env))))
    (fun _ w' => w_trace w' = w_trace w) w).
  { rewrite wp_db. by destruct (HealStore.GetActiveForkHealingJob _ _ _ _) as [[? ?] ?]. }
  eapply wp_mono; [apply wp_and; [by apply wp_active_job|exact Ht]|]. intros r w1 [[H1 Hr] T1]. wp_run.
  destruct r as [[j|]|e]; wp_run; [|done..]. destruct (str_eqb (job_Status j) "PROPOSAL_SENT"); wp_run; [|done].
  destruct (Hr j eq_refl) as [-> _]. simpl. by wp_run.
Qed.

Lemma not_yet_swapped j c : job_waiting j ->
  isAlreadyOnWinningBranch j c && phaseBeforeStateSwapped (job_Status j) = false.
Proof.
  intros [_ H]. unfold isAlreadyOnWinningBranch. revert H. rewrite !elem_of_cons.
  intros [->|[->|[->|H%not_elem_of_nil]]]; [done..| |done]. apply andb_false_r.
Qed.

Lemma safe_resume j : job_waiting j -> safe (resumeForkHealingJob j).
Proof.
  intros Hj. unfold resumeForkHealingJob. cbv zeta. apply spec_read. intros w Hw.
  rewrite (not_yet_swapped j (w_c w) Hj), wp_bind, wp_ret.
  apply (wp_then env ∅ unanswered); [|done|reflexivity]. spec_auto.
Qed.
End Unanswered.

(** ** A heal that swaps the group state *)

Section Swap.
Context {PC : PeerCodec} {WC : WireCodec}.
Context (env : Env).
Notation gid := (o_GroupID (e_opts env)).

(** Every component is at the epoch of the winning branch. *)
Lemma healed_components st th e c :
  0 <= e < 2 ^ 63 -> components_ok (healed (e_opts env) st th e c).
Proof.
  intros He. split; simpl.
  - by eexists.
  - eexists. split; [done|]. split; [done|]. split; [apply Epoch.tracker_ok_new|].
    intros e' raws raw en. cbn. by rewrite lookup_empty.
  - done.
  - eexists. split; [done|]. by rewrite lookup_singleton_eq.
  - eexists. split; [done|]. done.
Qed.

Lemma swap_to_ok st th e rec w :
  coord_ok env w -> 0 <= e -> gr_GroupID rec = gid -> gr_Epoch rec = e ->
  wp env (swap_to st th e rec) (fun r w' => coord_ok env w' /\
    (r = inl tt -> c_epoch (w_c w') = e /\ c_groupState (w_c w') = Some st /\ c_treeHash (w_c w') = th /\
       c_historyChain (w_c w') = {[e := ForkDetector.initialHistoryHash gid]})) w.
Proof.
  intros Hw He Hg Hr. unfold swap_to. rewrite wp_bind, wp_db.
  destruct (Store.SaveGroupRecord _ _ _ _) as [[r t] d] eqn:E. apply SaveGroupRecord_result in E.
  destruct r as [[]|err]; [|subst d; wp_run; split; [|done]; by apply (evolves_db env ∅ (w_db w) t w)].
  destruct E as (Hlt & O & J & _ & A & _ & row & G & Ee). wp_run. set (w1 := with_c _ _).
  assert (H1 : coord_ok env w1).
  { destruct Hw as [_ [_ HO] HT]. split; simpl; [apply healed_components; lia| |by eapply trace_ok_mono].
    split; simpl; [|by rewrite O]. intros row' G'. rewrite <- Hg in G'. simplify_map_eq. congruence. }
  apply wp_persistCoordState; [done|]. intros r w2 E2 C2. destruct (E2 H1) as (O2 & _).
  destruct r as [[]|err]; wp_run; [|by split].
  destruct (o_OnEpochChange _); wp_run; (split; [|intros _; simpl; by rewrite C2]); [|done].
  by apply (evolves_quiet env ∅ (EEpochChange e) w2).
Qed.

Lemma applyHealedState_ok st th e w :
  coord_ok env w -> 0 <= e ->
  wp env (applyHealedState st th e) (fun r w' => coord_ok env w' /\
    (r = inl tt -> c_epoch (w_c w') = e /\ c_groupState (w_c w') = Some st /\ c_treeHash (w_c w') = th /\
       c_historyChain (w_c w') = {[e := ForkDetector.initialHistoryHash gid]})) w.
Proof.
  intros Hw He. unfold applyHealedState. wp_run. apply (wp_get_group env ∅). intros r w1 H1 _.
  assert (H0 : coord_ok env (tick w)) by (by apply (evolves_tick env ∅)). destruct (H1 H0) as (Hw1 & _).
  destruct r as [p|err]; [by apply swap_to_ok|]. case_match; [by wp_run|by apply swap_to_ok].
Qed.
End Swap.
