(* ===== verification/CoordEvents.v ===== *)
(** * Events: what a running coordinator is exposed to

    One constructor per entry point of a started coordinator, the method it
    runs, and the proof that every event keeps the invariant and terminates. *)
From S2P Require Import Prelude Sha256 Types Config Hlc Epoch ActiveView SingleWriter.
From S2P Require Import ForkDetector Helpers Database Store StoreSpec HealStore Coordinator.
From S2P Require Import CoordBroadcast CoordApplication CoordCommit CoordMessage CoordMembers CoordLogic.
From S2P Require Import CoordReplay CoordInv CoordSafe CoordSafeCommit CoordSafeHeal.

Inductive Event :=
| EvMessage (from : peerID) (data : bytes)
| EvReplay (blobs : list bytes)
| EvPeerObserved (p : peerID)
| EvProposalTimer (timer : nat)
| EvFailoverTimer (timer : nat)
| EvProposalTimerCancelled (timer : nat)
| EvFailoverTimerCancelled (timer : nat)
| EvViewChange
| EvHeartbeatTick
| EvAnnounceTick
| EvSend (plaintext : bytes) (localEchoToken : string)
| EvPropose (pType : ProposalType) (data : bytes)
| EvAddMember (req : AddMemberRequest)
| EvRemoveMember (req : RemoveMemberRequest)
| EvAckTimeout (p : peerID) (envelopeHash : bytes)
| EvRetryDeliveries (p : peerID)
| EvSetMode (mode : GroupOperationalMode)
| EvResetSync
| EvIncrementSync
| EvTriggerHeal
| EvBatchReplay.

Section Events.
Context {PC : PeerCodec} {WC : WireCodec}.

Definition handle_event (fuel : nat) (ev : Event) : C unit :=
  match ev with
  | EvMessage from data => handleRawMessage fuel from data
  | EvReplay blobs => ReplayEnvelopes fuel blobs ;;; ret tt
  | EvPeerObserved p => ObservePeerAlive p
  | EvProposalTimer t => proposal_timer_fired fuel t
  | EvFailoverTimer t => failover_timer_fired fuel t
  | EvProposalTimerCancelled t => proposal_timer_cancelled t
  | EvFailoverTimerCancelled t => failover_timer_cancelled t
  | EvViewChange => handleActiveViewChange fuel
  | EvHeartbeatTick => heartbeatLoop_round
  | EvAnnounceTick => announceLoop_round
  | EvSend plaintext token => SendMessageWithLocalEchoToken plaintext token ;;; ret tt
  | EvPropose ty data => propose (run fuel) ty data ;;; ret tt
  | EvAddMember req => AddMember (run fuel) req ;;; ret tt
  | EvRemoveMember req => RemoveMemberWithPeer (run fuel) req ;;; ret tt
  | EvAckTimeout p h => applicationAckWatch_round p h ;;; ret tt
  | EvRetryDeliveries p => RetryOutstandingDeliveriesTo p
  | EvSetMode m => SetOperationalMode m
  | EvResetSync => ResetSyncRetryAttempts
  | EvIncrementSync => IncrementSyncRetryAttempts ;;; ret tt
  | EvTriggerHeal => TriggerDeferredHeal
  | EvBatchReplay => gid <-- opts o_GroupID ; batch_replay_task gid
  end.

(** The envelopes an event carries and their epochs. *)
Definition event_wires (ev : Event) : list bytes :=
  match ev with
  | EvMessage _ data => [data]
  | EvReplay blobs => blobs
  | _ => []
  end.
Definition wire_epochs (wires : list bytes) : gset Z :=
  list_to_set (omap (fun raw => match dec_envelope raw with inl en => Some (env_Epoch en) | inr _ => None end) wires).

Lemma wire_epochs_elem wires raw en : raw ∈ wires -> dec_envelope raw = inl en -> env_Epoch en ∈ wire_epochs wires.
Proof.
  intros Hin E. apply elem_of_list_to_set, list_elem_of_omap. exists raw. split; [done|]. by rewrite E.
Qed.
End Events.

(** ** Methods without a depth *)

Section Control.
Context {PC : PeerCodec} {WC : WireCodec} {WL : WireCodecLaws}.
Context (env : Env) (grow : gset Z) (P : World -> Prop).
Context (HP : forall w, P w -> coord_ok env w) `{HS : !Stable P (evolves env grow)}.
Context (Hmls : o_HasMLS (e_opts env) = true).
Notation safe := (spec env P (evolves env grow)).

Lemma safe_observe p : safe (observePeerAliveLocked p).
Proof.
  unfold observePeerAliveLocked. apply spec_opts_bind. case_match; [apply spec_ret, _|].
  apply spec_bind; [apply _..|apply spec_gets, _|intros av].
  destruct (ActiveView.RecordHeartbeat p av) as [[fresh change] av']. spec_auto.
Qed.

Lemma safe_traceID : safe newTraceID.
Proof. unfold newTraceID. spec_auto. Qed.
Hint Resolve safe_traceID : coord_spec.

Lemma safe_start_heal id ev t : safe (start_heal id ev t).
Proof. unfold start_heal. spec_auto. Qed.
Hint Resolve safe_start_heal : coord_spec.

Lemma safe_scheduleHeal ev : safe (scheduleHeal ev).
Proof. unfold scheduleHeal. spec_auto. Qed.
Lemma safe_triggerHeal : safe TriggerDeferredHeal.
Proof. unfold TriggerDeferredHeal. spec_auto. Qed.

Lemma ProcessRemote_local t from e ann fd :
  ForkDetector.fd_local (ForkDetector.ProcessRemote t from e ann fd).2 = ForkDetector.fd_local fd.
Proof. unfold ForkDetector.ProcessRemote. by repeat case_match. Qed.

Lemma safe_processRemote from e ann : safe (processRemote from e ann).
Proof.
  intros w Hw. unfold processRemote. wp_run.
  destruct (ForkDetector.ProcessRemote _ _ _ _ _) as [event fd'] eqn:E. wp_run.
  etrans; [apply evolves_tick|]. apply evolves_core. repeat split. simpl.
  pose proof (ProcessRemote_local (e_clock env (w_tick w)) from e ann (c_forkDetector (w_c w))) as H.
  simpl in E. by rewrite E in H.
Qed.
Hint Resolve safe_scheduleHeal safe_processRemote : coord_spec.

Lemma safe_sendHistoryQuery p e : safe (sendHistoryQuery p e).
Proof. unfold sendHistoryQuery. spec_auto. Qed.
Hint Resolve safe_sendHistoryQuery : coord_spec.

Lemma safe_handleAnnounce from en : safe (handleAnnounceLocked from en).
Proof. unfold handleAnnounceLocked. cbv zeta. spec_auto. Qed.
Lemma safe_handleHistoryQuery from en : safe (handleHistoryQueryLocked from en).
Proof. unfold handleHistoryQueryLocked. cbv zeta. spec_auto. Qed.
Lemma safe_confirmFork from r : safe (confirmFork from r).
Proof. unfold confirmFork, localAnnouncement. cbv zeta. spec_auto. Qed.
Hint Resolve safe_confirmFork : coord_spec.
Lemma safe_handleHistoryReply from en : safe (handleHistoryReplyLocked from en).
Proof. unfold handleHistoryReplyLocked. spec_auto. Qed.
Hint Resolve safe_observe safe_handleAnnounce safe_handleHistoryQuery safe_handleHistoryReply : coord_spec.

Lemma safe_control from en : safe (handleControlMessageLocked from en).
Proof. unfold handleControlMessageLocked, handleHeartbeatLocked. cbv zeta. spec_auto. Qed.
End Control.
#[export] Hint Resolve safe_observe safe_triggerHeal safe_control : coord_spec.

(** ** Methods with a depth *)

Section Bounded.
Context {PC : PeerCodec} {WC : WireCodec} {WL : WireCodecLaws}.
Context (env : Env).
Context (Hmls : o_HasMLS (e_opts env) = true).
Context (Hdelay : 0 < Config.BatchingDelay (o_Config (e_opts env))).
(** the epochs that may be buffered: those that already are and those of the
    event *)
Context (grow K : gset Z) (HK : grow ⊆ K) (n : nat) (Hn : (size K <= n)%nat).
Notation gid := (o_GroupID (e_opts env)).

Definition bounded (w : World) : Prop := coord_ok env w /\ future_epochs (w_c w) ⊆ K.

#[local] Instance bounded_stable : Stable bounded (evolves env grow).
Proof. intros w w' [Hw Hf] H. destruct (H Hw) as (Hw' & _ & Hg). split; [done|set_solver]. Qed.

Notation safe := (spec env bounded (evolves env grow)).

Let bounded_ok : forall w, bounded w -> coord_ok env w := fun w H => proj1 H.

Lemma bounded_within e w : bounded w -> e <= c_epoch (w_c w) -> within env n e w.
Proof.
  intros [Hw Hf] He. split; [done|]. split; [|done]. unfold backlog.
  pose proof (subseteq_size _ _ Hf). lia.
Qed.

(** A method proved for the handlers' precondition. *)
Lemma safe_from_within {A} (m : C A) e w :
  spec env (within env n e) (evolves env ∅) m -> bounded w -> e <= c_epoch (w_c w) ->
  wp env m (fun _ w' => evolves env grow w w') w.
Proof.
  intros Hm Hw He. eapply wp_mono; [by apply Hm, bounded_within|]. intros ? w' H. by apply evolves_grow.
Qed.

Lemma run_ready call w :
  coord_ok env w -> (backlog (w_c w) < n)%nat -> call_ready call (w_c w) ->
  wp env (run n call) (fun _ w' => evolves env ∅ w w') w.
Proof. apply run_spec; done. Qed.

Lemma safe_tryCommit_run : safe (tryCommitLocked (run n)).
Proof.
  intros w Hw. apply (safe_from_within _ (c_epoch (w_c w))); [|done|lia].
  apply safe_tryCommit; [done..|]. intros. by apply run_ready.
Qed.

Lemma safe_handleCommit_run en wire :
  env_Epoch en ∈ grow -> dec_envelope wire = inl en -> safe (handleCommitLocked (run n) en wire).
Proof.
  intros Hin Hdec w Hw. destruct (decide (env_Epoch en <= c_epoch (w_c w))) as [He|He].
  - apply (safe_from_within _ (env_Epoch en)); [|done..].
    apply safe_handleCommit; [done..|by intros; apply run_ready|done|done].
  - unfold handleCommitLocked. rewrite wp_bind. apply (wp_epochTracker env); [apply Hw|]. intros et Et Ee.
    destruct (Epoch.Validate _ _) eqn:Ev.
    + apply Epoch.ValidateEpoch_process in Ev. lia.
    + apply Epoch.ValidateEpoch_stale in Ev. lia.
    + unfold set_epochTracker. wp_run. apply evolves_buffer; [done..|]. intros en' Hd. congruence.
Qed.

Lemma may_buffer_grow_any en : env_Epoch en ∈ grow -> may_buffer grow bounded en.
Proof. intros H w _. by left. Qed.

Hint Resolve safe_tryCommit_run : coord_spec.

Lemma safe_live from en data :
  env_Epoch en ∈ grow -> dec_envelope data = inl en -> safe (handleLiveMessageLocked n from en data).
Proof.
  intros Hin Hdec. pose proof bounded_ok as Hok. unfold handleLiveMessageLocked. cbv zeta.
  case_match; [by apply (safe_handleProposal env grow bounded bounded_ok Hmls Hdelay), may_buffer_grow_any|].
  case_match; [apply spec_bind; [apply _..|by apply safe_handleCommit_run|intros; apply spec_ret, _]|].
  case_match.
  { apply spec_bind; [apply _..| |intros; apply spec_ret, _].
    apply (safe_handleApplication env grow bounded bounded_ok Hmls); [by apply may_buffer_grow_any|done]. }
  destruct (str_eqb_spec (env_Type en) MsgApplicationBatched); [|by spec_auto].
  apply spec_bind; [apply _..|by apply (safe_handleBatched env grow bounded bounded_ok Hmls)|intros; apply spec_ret, _].
Qed.

Lemma safe_raw from data : wire_epochs [data] ⊆ grow -> safe (handleRawMessage n from data).
Proof.
  intros Hg. pose proof bounded_ok as Hok. unfold handleRawMessage. do 2 apply spec_opts_bind.
  case_match; [apply spec_ret, _|]. destruct (dec_envelope data) as [en|e] eqn:Hdec; [|apply spec_ret, _].
  assert (Hin : env_Epoch en ∈ grow) by (eapply Hg, wire_epochs_elem; [apply list_elem_of_here|done]).
  case_match; [apply spec_ret, _|]. spec_step; [by spec_auto|]. case_match; [apply spec_ret, _|].
  unfold handleInModeLocked, Store.AppendEnvelope. apply spec_opts_bind. spec_step; [by spec_auto|].
  case_match; [by spec_auto|]. case_match; [by spec_auto|]. by apply safe_live.
Qed.

Lemma safe_commitDetailed en wire :
  env_Epoch en ∈ grow -> dec_envelope wire = inl en -> safe (handleCommitDetailedLocked n en wire).
Proof.
  intros Hin Hdec. pose proof bounded_ok as Hok. unfold handleCommitDetailedLocked.
  spec_step; [by spec_auto|]. apply spec_bind; [apply _..|by spec_auto|intros [h []]]; cbv zeta; [by spec_auto|].
  intros w Hw. rewrite wp_bind. apply (wp_epochTracker env); [auto|]. intros et Et Ee.
  destruct (Epoch.Validate _ _) eqn:Ev.
  - apply (wp_then env grow bounded); [|done|reflexivity]. spec_step; [by apply safe_handleCommit_run|]. spec_auto.
  - apply (wp_then env grow bounded); [|done|reflexivity]. spec_auto.
  - unfold set_epochTracker. rewrite wp_bind, wp_modify. apply (wp_then env grow bounded); [by spec_auto|done|].
    apply evolves_buffer; [done..|]. intros en' Hd. congruence.
Qed.

Lemma safe_replay_one raw : wire_epochs [raw] ⊆ grow -> safe (replay_one n raw).
Proof.
  intros Hg. pose proof bounded_ok as Hok. unfold replay_one.
  destruct (dec_envelope raw) as [en|e] eqn:Hdec; [|apply spec_ret, _].
  assert (Hin : env_Epoch en ∈ grow) by (eapply Hg, wire_epochs_elem; [apply list_elem_of_here|done]).
  unfold invalid_result. apply spec_opts_bind. case_match; [by spec_auto|]. spec_step; [by spec_auto|].
  case_match; [by spec_auto|]. case_match; [by apply safe_commitDetailed|]. case_match; [|by spec_auto].
  apply (safe_handleApplicationDetailed env grow bounded bounded_ok Hmls); [by apply may_buffer_grow_any|done].
Qed.

Lemma safe_replay_all raws : wire_epochs raws ⊆ grow -> safe (replay_all n raws).
Proof.
  induction raws as [|raw raws IH]; intros Hg; simpl; [apply spec_ret, _|].
  assert (H1 : wire_epochs [raw] ⊆ grow /\ wire_epochs raws ⊆ grow).
  { revert Hg. unfold wire_epochs. simpl. destruct (dec_envelope raw); simpl; set_solver. }
  destruct H1. case_match; [by apply IH|]. spec_step; [by apply safe_replay_one|]. spec_step; [by apply IH|]. apply spec_ret, _.
Qed.

Lemma safe_proposal_timer t : safe (proposal_timer_fired n t).
Proof.
  pose proof bounded_ok as Hok. unfold proposal_timer_fired. spec_auto.
Qed.

Lemma safe_failover_timer t : safe (failover_timer_fired n t).
Proof.
  pose proof bounded_ok as Hok. unfold failover_timer_fired. apply spec_read. intros w Hw.
  case_match; [wp_run; reflexivity|]. rewrite wp_bind, wp_modify, wp_bind, wp_gets. set (w1 := with_c _ w).
  assert (Hw1 : evolves env grow w w1) by (by apply evolves_core).
  assert (E1 : c_singleWriter (w_c w1) = c_singleWriter (w_c w)) by done. rewrite E1.
  destruct (c_singleWriter (w_c w)) as [s|] eqn:Es; [|wp_run; done]. case_match; [wp_run; done|].
  unfold sw_IsTokenHolder at 1, sw_CurrentTokenHolder at 1, the_singleWriter. wp_run. rewrite E1. wp_run.
  case_match; wp_run; [etrans; [exact Hw1|apply evolves_tick]|]. simpl. rewrite Es. wp_run.
  set (w2 := tick (tick w1)). assert (Hw2 : evolves env grow w w2) by (do 2 (etrans; [|apply evolves_tick]); exact Hw1).
  case_match; [|wp_run; exact Hw2]. case_match; [wp_run; exact Hw2|].
  unfold set_singleWriter. rewrite wp_bind, wp_modify. apply (wp_then env grow bounded); [by spec_auto|done|].
  etrans; [exact Hw2|]. by apply (evolves_writer env grow s (SingleWriter.Suspend _)).
Qed.

Lemma safe_viewChange : safe (handleActiveViewChange n).
Proof. pose proof bounded_ok as Hok. unfold handleActiveViewChange. spec_auto. Qed.

Lemma safe_event ev : wire_epochs (event_wires ev) ⊆ grow -> safe (handle_event n ev).
Proof.
  intros Hg. pose proof bounded_ok as Hok. destruct ev; simpl.
  - by apply safe_raw.
  - unfold ReplayEnvelopes, ReplayEnvelopesDetailed.
    pose proof (safe_replay_all blobs Hg). spec_auto.
  - apply safe_observe; solve [auto with typeclass_instances].
  - apply safe_proposal_timer.
  - apply safe_failover_timer.
  - unfold proposal_timer_cancelled. apply safe_modify. intros c. case_match; done.
  - unfold failover_timer_cancelled. apply safe_modify. intros c. case_match; done.
  - apply safe_viewChange.
  - apply safe_heartbeatRound; solve [auto with typeclass_instances].
  - apply safe_announce; solve [auto with typeclass_instances].
  - spec_step; [apply safe_sendMessage; solve [auto with typeclass_instances]|]. apply spec_ret, _.
  - unfold propose. spec_step; [apply safe_propose; solve [auto with typeclass_instances]|]. apply spec_ret, _.
  - spec_step; [|apply spec_ret, _]. intros w Hw. apply (safe_from_within _ (c_epoch (w_c w))); [|done|lia].
    apply safe_AddMember; [done..|]. intros. by apply run_ready.
  - spec_step; [|apply spec_ret, _]. intros w Hw. apply (safe_from_within _ (c_epoch (w_c w))); [|done|lia].
    apply safe_RemoveMember; [done..|]. intros. by apply run_ready.
  - spec_step; [apply safe_ackWatch; solve [auto with typeclass_instances]|]. apply spec_ret, _.
  - apply safe_retry; solve [auto with typeclass_instances].
  - unfold SetOperationalMode. spec_auto.
  - unfold ResetSyncRetryAttempts. spec_auto.
  - unfold IncrementSyncRetryAttempts. spec_auto.
  - apply safe_triggerHeal; solve [auto with typeclass_instances].
  - apply spec_opts_bind, safe_batch_replay_task; solve [auto with typeclass_instances].
Qed.
End Bounded.
