(* ===== verification/CoordStart.v ===== *)
(** * Starting a coordinator establishes the invariant

    [Start] on a coordinator that holds no history yet or the anchor it was
    given: after [NewCoordinator], with the state created by [CreateGroup] or
    loaded from the tables. *)
From S2P Require Import Prelude Sha256 Types Config Hlc Epoch ActiveView SingleWriter.
From S2P Require Import ForkDetector Helpers Database Store StoreSpec HealStore Coordinator.
From S2P Require Import CoordBroadcast CoordApplication CoordCommit CoordMessage CoordLogic.
From S2P Require Import CoordInv CoordSafe.

(** A computation that only reads. *)
Ltac read_auto :=
  repeat first [ apply readonly_query | apply readonly_ret | apply readonly_throw | apply readonly_wrap
               | apply readonly_bind; [|intro] | case_match ].

Section Start.
Context {PC : PeerCodec} {WC : WireCodec}.
Variable env : Env.
Notation gid := (o_GroupID (e_opts env)).

(** A history hash in memory, seeded from an anchor, is that of epoch [e] and
    a stored chain agrees. *)
Definition anchored (e : Z) (w : World) : Prop :=
  forall h, c_historyHash (w_c w) = Some h ->
    c_historyChain (w_c w) !! e = Some h /\
    forall row, db_coord (w_db w) !! gid = Some row -> crow_history_chain row = ∅ \/ crow_history_chain row !! e = Some h.

(** What [Start] relies on: no history in memory, or the anchor of the stored
    epoch; nothing inconsistent sent before, a stored epoch in range that
    agrees with the one in memory. *)
Record startable (w : World) : Prop := {
  st_history : c_historyHash (w_c w) <> None -> c_groupState (w_c w) = None /\
    forall row, db_groups (w_db w) !! gid = Some row -> anchored (gr_Epoch (grow_rec row)) w;
  st_trace : trace_ok env (w_trace w) (w_db w);
  st_ops : Forall op_targeted (db_pending_ops (w_db w));
  st_range : c_groupState (w_c w) <> None -> 0 <= c_epoch (w_c w) < 2 ^ 63;
  st_row : forall row, db_groups (w_db w) !! gid = Some row ->
    0 <= gr_Epoch (grow_rec row) < 2 ^ 63 /\
    (c_groupState (w_c w) <> None -> gr_Epoch (grow_rec row) = c_epoch (w_c w));
}.

(** After the group state is there. *)
Record loaded (w : World) : Prop := {
  ld_history : anchored (c_epoch (w_c w)) w;
  ld_trace : trace_ok env (w_trace w) (w_db w);
  ld_range : 0 <= c_epoch (w_c w) < 2 ^ 63;
  ld_store : store_ok env (w_c w) (w_db w);
}.

Lemma start_state_spec w :
  startable w -> wp env start_state (fun r w' => r = inl tt -> loaded w') w.
Proof.
  intros [Hh Ht Ho Hr Hrow]. unfold start_state. wp_run. destruct (c_groupState (w_c w)) as [gs|] eqn:E.
  - wp_run. intros _. split; [|done|by apply Hr|].
    { intros h E'. destruct Hh as [Hh _]; [by rewrite E'|congruence]. }
    split; [|done]. intros row G. by apply Hrow in G as [_ G]; auto.
  - wp_run. rewrite wp_db. unfold Store.GetGroupRecord, sql_bind, sql_wrap, sql_query.
    destruct (sql_fails _ _); [wp_run; done|]. destruct (db_groups (w_db w) !! gid) as [row|] eqn:G; [|wp_run; done].
    unfold sql_ret. wp_run. intros _. destruct (Hrow row eq_refl) as [Hr' _]. split; simpl; try done.
    { intros h E'. simpl in *. destruct Hh as [_ Hh]; [by rewrite E'|]. by apply Hh. }
    split; [|done]. simpl. intros row' G'. by simplify_map_eq.
Qed.

Lemma start_history_spec w :
  loaded w -> wp env start_history (fun r w' => r = inl tt ->
    trace_ok env (w_trace w') (w_db w') /\ 0 <= c_epoch (w_c w') < 2 ^ 63 /\ store_ok env (w_c w') (w_db w') /\
    forall h, c_historyHash (w_c w') = Some h -> c_historyChain (w_c w') !! c_epoch (w_c w') = Some h) w.
Proof.
  intros [Hh Ht Hr Hs]. unfold start_history. wp_run. rewrite wp_db.
  assert (Hc : forall cs, (Store.GetCoordState gid (e_sql env) (w_tick w) (w_db w)).1.1 = inl cs ->
    forall h, c_historyHash (w_c w) = Some h -> cs_HistoryChain cs = ∅ \/ cs_HistoryChain cs !! c_epoch (w_c w) = Some h).
  { intros cs E h Eh. destruct (Hh h Eh) as [_ H]. revert E. unfold Store.GetCoordState, sql_bind, sql_wrap, sql_query.
    destruct (sql_fails _ _); [done|]. destruct (db_coord (w_db w) !! gid) as [row|] eqn:G; [|done].
    intros [= <-]. by apply H. }
  assert (Hf : respects frame (Store.GetCoordState gid)) by (unfold Store.GetCoordState; frame_auto).
  specialize (Hf (e_sql env) (w_tick w) (w_db w)). destruct (Store.GetCoordState _ _ _ _) as [[r t] d]. simpl in Hf.
  assert (Hs' : store_ok env (w_c w) d) by (by apply (dk_store _ _ _ _ (frame_kept env (w_c w) _ _ Hf))).
  assert (Ht' : trace_ok env (w_trace w) d) by (by eapply trace_ok_mono; [apply Hf|]).
  assert (Hall : forall c h1, c_epoch c = c_epoch (w_c w) ->
    c_historyHash c = h1 -> (forall h, h1 = Some h -> c_historyChain c !! c_epoch c = Some h) ->
    trace_ok env (w_trace w) d /\ 0 <= c_epoch c < 2 ^ 63 /\ store_ok env c d /\
    forall h, c_historyHash c = Some h -> c_historyChain c !! c_epoch c = Some h).
  { intros c h1 Ec <- Hch. rewrite Ec. split; [done|]. split; [done|].
    split; [destruct Hs'; split; rewrite ?Ec; done|]. by rewrite <- Ec. }
  destruct r as [cs|e].
  - wp_run. intros _. cbn [w_c w_db w_trace with_c with_db]. specialize (Hc cs eq_refl). unfold load_history.
    case_bool_decide; [eapply Hall; [done..|]; intros h Eh; by apply Hh|].
    destruct (cs_HistoryChain cs !! c_epoch _) as [h|] eqn:E; simpl in E.
    + eapply Hall; [done..|]. simpl in *. rewrite E. by case_match.
    + eapply Hall; [done..|]. intros h Eh. simpl in *. destruct (Hc h Eh) as [?|?]; congruence.
  - case_match; wp_run; [|done]. intros _. eapply Hall; [done..|]. intros h Eh. by apply Hh.
Qed.

Lemma start_components_spec w :
  trace_ok env (w_trace w) (w_db w) -> 0 <= c_epoch (w_c w) < 2 ^ 63 -> store_ok env (w_c w) (w_db w) ->
  (forall h, c_historyHash (w_c w) = Some h -> c_historyChain (w_c w) !! c_epoch (w_c w) = Some h) ->
  wp env start_components (fun _ w' => coord_ok env w') w.
Proof.
  intros Ht Hr Hs Hh. unfold start_components. do 3 (rewrite wp_bind, wp_opts). rewrite wp_bind, wp_modify.
  assert (Hseed : exists h0, c_historyHash (seed_history gid (w_c w)) = Some h0 /\
    c_historyChain (seed_history gid (w_c w)) !! c_epoch (w_c w) = Some h0 /\
    c_epoch (seed_history gid (w_c w)) = c_epoch (w_c w)).
  { unfold seed_history. destruct (c_historyHash (w_c w)) as [h|] eqn:E; [exists h; split; [done|]; split; [by apply Hh|done]|]. simpl.
    eexists. rewrite lookup_insert_eq. eauto. }
  set (w1 := with_c (seed_history gid) w). assert (W1 : w_c w1 = seed_history gid (w_c w)) by done.
  assert (D1 : w_db w1 = w_db w /\ w_trace w1 = w_trace w) by done. clearbody w1.
  destruct Hseed as (h0 & Eh & Ec & Ee). rewrite <- W1 in *. destruct D1 as [D1 T1].
  unfold sw_CurrentTokenHolder, the_singleWriter, localAnnouncement. wp_run.
  cbn [w_c with_c c_singleWriter set_c_singleWriter]. wp_run.
  match goal with |- context [SingleWriter.CurrentTokenHolder ?a ?b ?c ?d] =>
    destruct (SingleWriter.CurrentTokenHolder a b c d) end; wp_run.
  all: split; [split|split|]; simpl; rewrite ?D1, ?T1; try done.
  all: rewrite ?Ee; try done; try (by destruct Hs).
  all: try (eexists; split; [done|]; simpl; rewrite ?Ee, ?Eh; done).
  all: eexists; split; [done|]; simpl; rewrite ?Ee; split; [done|]; split; [apply Epoch.tracker_ok_new|];
    intros e raws raw en; by rewrite lookup_empty.
Qed.

(** A coordinator that [Start] reports as started satisfies the invariant. *)
Lemma start_ok w : startable w -> wp env Start (fun r w' => r = inl tt -> coord_ok env w' /\ c_started (w_c w') = true) w.
Proof.
  intros Hw. unfold Start. wp_run. case_match; wp_run; [done|].
  eapply wp_mono; [by apply start_state_spec|]. intros [[]|e] w1 H1; [|by wp_run]. specialize (H1 eq_refl).
  rewrite wp_bind. eapply wp_mono; [by apply start_history_spec|]. intros [[]|e] w2 H2; [|by wp_run].
  destruct (H2 eq_refl) as (T2 & R2 & S2 & C2). rewrite wp_bind.
  eapply wp_mono; [by apply start_components_spec|]. intros [] w3 O3. wp_run.
  destruct (e_subscribe _ _) as [[]|e]; wp_run; [|done]. rewrite wp_db.
  set (w4 := with_c (set_c_startedAt _) _). assert (O4 : coord_ok env w4).
  { cut (evolves env ∅ w3 w4); [intros Hx; by apply Hx|]. unfold w4.
    etrans; [by apply (evolves_quiet env ∅ (ESubscribe (GroupTopic gid)))|]. etrans; [apply evolves_tick|].
    etrans; [by apply (evolves_core env ∅ (set_c_started true))|]. etrans; [apply evolves_tick|]. by apply evolves_core. }
  assert (Hf : respects frame (HealStore.GetActiveForkHealingJob gid)) by (unfold HealStore.GetActiveForkHealingJob; frame_auto).
  specialize (Hf (e_sql env) (w_tick w4) (w_db w4)).
  destruct (HealStore.GetActiveForkHealingJob _ _ _ _) as [[r t] d]. simpl in Hf.
  assert (O5 : coord_ok env (with_db d t w4)).
  { cut (evolves env ∅ w4 (with_db d t w4)); [intros Hx; by apply Hx|]. by apply evolves_db, frame_kept. }
  assert (Hg : forall j, coord_ok env (with_effect (ESpawn (TResumeHeal j)) (with_db d t w4))).
  { intros j. by apply (evolves_quiet env ∅ (ESpawn (TResumeHeal j)) (with_db d t w4)). }
  destruct r as [[j|]|e]; wp_run; try done. destruct (_ && _); wp_run; done.
Qed.

(** *** What a start leaves alone *)

(** The tables, but for the coordination state, and the signal of a heal. *)
Definition left_alone (w w' : World) : Prop :=
  frame (w_db w) (w_db w') /\ db_coord (w_db w') = db_coord (w_db w) /\
  c_welcomeReceived (w_c w') = c_welcomeReceived (w_c w).
#[local] Instance left_alone_preorder : PreOrder left_alone.
Proof.
  split; [by split|]. intros w1 w2 w3 (F1 & C1 & S1) (F2 & C2 & S2). split; [by etrans|]. split; congruence.
Qed.

(** A method, when it returns. *)
Definition calm {A} (m : C A) : Prop := forall w, pc env m (fun _ w' => left_alone w w') w.

Lemma calm_bind {A B} (m : C A) (k : A -> C B) : calm m -> (forall a, calm (k a)) -> calm (bind m k).
Proof.
  intros Hm Hk w. apply pc_bind. eapply pc_mono; [apply Hm|]. intros a w1 H1. cbn beta.
  eapply pc_mono; [apply Hk|]. intros b w2 H2. cbn beta in *. by etrans.
Qed.
Lemma calm_step {A} (m : C A) : (forall w, wp env m (fun _ w' => left_alone w w') w) -> calm m.
Proof. intros H w. apply pc_wp, H. Qed.
Lemma calm_modify f : (forall c, c_welcomeReceived (f c) = c_welcomeReceived c) -> calm (modify f).
Proof. intros Hf. apply calm_step. intros w. wp_run. split; [done|]. split; [done|apply Hf]. Qed.
Lemma calm_db {A} (m : SQL A) : readonly m -> calm (db m).
Proof.
  intros Hm. apply calm_step. intros w. rewrite wp_db. specialize (Hm (e_sql env) (w_tick w) (w_db w)).
  destruct (m _ _ _) as [[? ?] d]. simpl in Hm. subst d. split; [done|by split].
Qed.
Lemma calm_singleWriter : calm the_singleWriter.
Proof. intros w. apply pc_singleWriter. intros sw E. reflexivity. Qed.

Ltac calm_auto :=
  repeat match goal with
  | |- calm (bind _ _) => apply calm_bind; [|intro]
  | |- calm (modify _) => apply calm_modify; intros ?
  | |- calm (db _) => apply calm_db
  | |- calm the_singleWriter => apply calm_singleWriter
  | |- calm (if ?b then _ else _) => destruct b
  | |- calm (match ?o with _ => _ end) => destruct o
  | |- calm (when ?b _) => destruct b; unfold when
  | |- calm _ => apply calm_step; intros ?; wp_run; split; [done|by split]
  end.

Lemma start_left_alone : calm Start.
Proof.
  unfold Start, start_state, start_history, start_components, sw_CurrentTokenHolder, localAnnouncement.
  calm_auto. all: try done.
  all: unfold Store.GetGroupRecord, Store.GetCoordState, HealStore.GetActiveForkHealingJob; read_auto.
  all: unfold load_history, seed_history; repeat case_match; done.
Qed.

(** A coordinator starts when its group is stored, no statement fails and the
    topic can be joined. *)
Lemma start_succeeds w :
  (forall t, sql_fails (e_sql env) t = None) -> (forall t, e_subscribe env t = inl tt) ->
  c_started (w_c w) = false -> is_Some (db_groups (w_db w) !! gid) -> pc env Start (fun r _ => r = inl tt) w.
Proof.
  intros Hs Hsub Hst [row Hrow]. unfold Start. apply pc_bind, pc_wp. wp_run. rewrite Hst. apply pc_bind.
  assert (H1 : pc env start_state (fun r w' => r = inl tt /\ w_db w' = w_db w) w).
  { unfold start_state. apply pc_wp. wp_run. case_match; wp_run; [done|]. rewrite wp_db.
    unfold Store.GetGroupRecord, sql_bind, sql_wrap, sql_query. rewrite Hs, Hrow. simpl. by wp_run. }
  eapply pc_mono; [exact H1|]. intros r w1 [-> D1]. apply pc_bind.
  assert (H2 : pc env start_history (fun r w' => r = inl tt) w1).
  { unfold start_history. apply pc_wp. wp_run. rewrite wp_db.
    unfold Store.GetCoordState, sql_bind, sql_wrap, sql_query. rewrite Hs. destruct (db_coord _ !! _); simpl; by wp_run. }
  eapply pc_mono; [exact H2|]. intros r w2 ->. apply pc_bind. eapply pc_mono with (Q := fun _ _ => True); [done|]. intros [] w3 _.
  apply pc_bind, pc_wp. rewrite wp_opts. apply pc_wp. wp_run. rewrite Hsub. wp_run. rewrite wp_db.
  destruct (HealStore.GetActiveForkHealingJob _ _ _ _) as [[[[j|]|e] t] d]; wp_run; [|done..]. case_match; by wp_run.
Qed.
End Start.
