(* ===== verification/CoordDemo.v ===== *)
(** * A concrete environment

    A wire format that satisfies [WireCodecLaws], and an environment with a
    toy MLS engine, on which the coordinator can be evaluated.  The theorems
    do not depend on it; the witnesses do. *)
From S2P Require Import Prelude Sha256 Types Config Hlc Epoch ActiveView SingleWriter.
From S2P Require Import ForkDetector Helpers Database Store HealStore Coordinator.
From S2P Require Import CoordBroadcast CoordApplication CoordCommit CoordMessage CoordLogic.
From S2P Require Import CoordInv.

(** ** Serialization *)

Class Ser (A : Type) := { put : A -> bytes; get : bytes -> option (A * bytes) }.
Class SerOk (A : Type) `{Ser A} : Prop := get_put : forall a r, get (put a ++ r) = Some (a, r).

Fixpoint put_bytes (b : bytes) : bytes :=
  match b with [] => [x00] | x :: b => x01 :: x :: put_bytes b end.
Fixpoint get_bytes (l : bytes) : option (bytes * bytes) :=
  match l with
  | x00 :: r => Some ([], r)
  | x01 :: b :: r => match get_bytes r with Some (bs, r') => Some (b :: bs, r') | None => None end
  | _ => None
  end.
#[export] Instance bytes_ser : Ser bytes := {| put := put_bytes; get := get_bytes |}.
#[export] Instance bytes_ser_ok : SerOk bytes.
Proof. intros b r. simpl. induction b as [|x b IH]; simpl; [done|]. by rewrite IH. Qed.

#[export] Instance string_ser : Ser string := {|
  put s := put (str_bytes s);
  get l := '(b, r) ← get l; Some (String.string_of_list_byte b, r) |}.
#[export] Instance string_ser_ok : SerOk string.
Proof.
  intros s r. cbn [get put string_ser]. rewrite get_put. simpl. unfold str_bytes.
  by rewrite String.string_of_list_byte_of_string.
Qed.

Fixpoint put_pos (p : positive) : bytes :=
  match p with xH => [x00] | xO p => x01 :: put_pos p | xI p => x02 :: put_pos p end.
Fixpoint get_pos (l : bytes) : option (positive * bytes) :=
  match l with
  | x00 :: r => Some (xH, r)
  | x01 :: r => '(p, r') ← get_pos r; Some (xO p, r')
  | x02 :: r => '(p, r') ← get_pos r; Some (xI p, r')
  | _ => None
  end.
#[export] Instance Z_ser : Ser Z := {|
  put z := match z with Z0 => [x00] | Zpos p => x01 :: put_pos p | Zneg p => x02 :: put_pos p end;
  get l := match l with
           | x00 :: r => Some (0, r)
           | x01 :: r => '(p, r') ← get_pos r; Some (Zpos p, r')
           | x02 :: r => '(p, r') ← get_pos r; Some (Zneg p, r')
           | _ => None
           end |}.
Lemma get_put_pos p r : get_pos (put_pos p ++ r) = Some (p, r).
Proof. induction p; simpl; by rewrite ?IHp. Qed.
#[export] Instance Z_ser_ok : SerOk Z.
Proof. intros [|p|p] r; simpl; by rewrite ?get_put_pos. Qed.

Section Products.
Context {A B : Type} `{SerOk A} `{SerOk B}.
#[export] Instance prod_ser : Ser (A * B) := {|
  put p := put p.1 ++ put p.2;
  get l := '(a, r) ← get l; '(b, r') ← get r; Some ((a, b), r') |}.
#[export] Instance prod_ser_ok : SerOk (A * B).
Proof. intros [a b] r. simpl. rewrite <- app_assoc, get_put. simpl. by rewrite get_put. Qed.
End Products.

(** A list, each element marked; the input bounds its length. *)
Section Lists.
Context {A : Type} `{Ser A}.
Fixpoint get_list (fuel : nat) (l : bytes) : option (list A * bytes) :=
  match fuel, l with
  | _, x00 :: r => Some ([], r)
  | S fuel, x01 :: r => '(a, r1) ← get r; '(xs, r2) ← get_list fuel r1; Some (a :: xs, r2)
  | _, _ => None
  end.
#[export] Instance list_ser : Ser (list A) := {|
  put xs := concat ((fun x => x01 :: put x) <$> xs) ++ [x00];
  get l := get_list (length l) l |}.
End Lists.

(** ** Wire format *)

Definition put_env (e : Envelope) : bytes :=
  put (env_Type e, (env_GroupID e, (env_Epoch e, (env_From e,
    ((WallTimeMs (env_Timestamp e), (Counter (env_Timestamp e), NodeID (env_Timestamp e))), env_Payload e))))).
Definition get_env (l : bytes) : option (Envelope * bytes) :=
  '((ty, (g, (ep, (from, ((wt, (ct, nid)), pl))))), r) ← get l; Some (mkEnvelope ty g ep from (mkHLC wt ct nid) pl, r).

#[export] Instance proposal_ser : Ser ProposalMsg := {|
  put p := put ((pm_ProposalType p, (pm_Data p, (pm_ProposalRef p, pm_OperationID p))),
                (pm_TargetPeerID p, (pm_TargetIdentity p, (pm_RequestID p,
                  (pm_GroupType p, (pm_CategoryID p, pm_KeyPackageHash p))))));
  get l := '((ty, (d, (rf, op)), (tp, (ti, (rq, (gt, (ci, kh)))))), r) ← get l;
           Some (mkProposalMsg ty d rf op tp ti rq gt ci kh, r) |}.
Definition put_commit (c : CommitMsg) : bytes :=
  put (cm_CommitData c, (cm_WelcomeData c, (cm_NewTreeHash c, (cm_IncludedProposals c, cm_CommittedProposalRefs c)))).
Definition get_commit (l : bytes) : option (CommitMsg * bytes) :=
  '((d, (w, (t, (ps, rs)))), r) ← get l; Some (mkCommitMsg d w t [] ps rs, r).

Definition decoded {A} (o : option (A * bytes)) : result A :=
  match o with Some (a, _) => inl a | None => inr (ErrText "unexpected end of JSON input") end.
Definition no_decoder {A} (_ : bytes) : result A := inr (ErrText "unsupported").

#[export] Instance demo_codec : WireCodec := {|
  enc_envelope := put_env;
  dec_envelope l := decoded (get_env l);
  enc_payload p := match p with
                   | PProposal p => put p
                   | PCommit c => put_commit c
                   | PApplication a => put (am_Ciphertext a)
                   | PBatched b => put (bam_Ciphertext b)
                   | _ => []
                   end;
  dec_announce := no_decoder;
  dec_proposal l := decoded (get l);
  dec_commit l := decoded (get_commit l);
  dec_application l := decoded ('(b, r) ← get l; Some (mkApplicationMsg b, r));
  dec_batched l := decoded ('(b, r) ← get l; Some (mkBatchedApplicationMsg b, r));
  dec_ack := no_decoder;
  dec_query := no_decoder;
  dec_reply := no_decoder;
  enc_plaintext _ := [];
  dec_plaintext b := inl (mkBatchedPlaintext [mkApplicationEventPayload "ev" b []]);
  enc_hlc _ := [];
  dec_hlc := no_decoder;
|}.

#[export] Instance demo_codec_laws : WireCodecLaws.
Proof.
  split. intros e e'. cbn [dec_envelope enc_envelope demo_codec]. unfold get_env, put_env.
  rewrite <- (app_nil_r (put _)), get_put. simpl. by intros [= <-].
Qed.

(** ** Environment *)

#[export] Existing Instance plain_codec.

Definition demo_opts (cfg : Config.CoordinatorConfig) (self : peerID) : Opts :=
  mkOpts cfg self "g" [] true None true true true true true true true true true true true.

(** The engine's state is a byte string that grows with every operation; it
    accepts everything. *)
Definition demo_env (cfg : Config.CoordinatorConfig) (self : peerID) : Env := {|
  e_opts := demo_opts cfg self;
  e_sql := mkSqlEnv (fun _ => None) (fun t => Z.of_nat t * Second) (fun _ => 0) true;
  e_clock := fun t => 1000 * Second + Z.of_nat t * Millisecond;
  e_random := fun _ => Some [x01; x02; x03; x04];
  e_connected := fun _ => ["A"];
  e_subscribe := fun _ => inl tt;
  e_known_order := fun _ l => l;
  ed25519_public := fun k => k;
  e_nonce := fun _ => Some [x07];
  gcm_Seal := fun _ _ p => x08 :: p;
  gcm_Open := fun _ _ c => inl (tail c);
  mls_CreateGroup := fun _ _ _ _ => inl ([x10], [x20]);
  mls_CreateProposal := fun _ st ty d => inl (mkCreateProposalResult d (x0a :: d) (x11 :: st));
  mls_ProcessProposal := fun _ st d => inl (mkProcessProposalResult (x0a :: d) "add" (x12 :: st));
  mls_CreateCommit := fun _ st refs => inl (mkCreateCommitResult (x0c :: concat refs) [] [] refs (x13 :: st) [x21]);
  mls_StageCommit := fun _ st c ps => inl (mkStageCommitResult 0 ((fun p => x0a :: p) <$> ps) []);
  mls_ProcessCommit := fun _ st c ps => inl (x14 :: st, [x22]);
  mls_HasMember := fun _ _ _ => inl true;
  mls_EncryptMessage := fun _ st p => inl (p, x15 :: st);
  mls_DecryptMessage := fun _ st p => inl (p, x16 :: st);
  mls_GenerateKeyPackage := fun _ _ => inl ([x0b], [x0d]);
  mls_ProcessWelcome := fun _ w _ _ _ => inl (x17 :: w, [x23], 1);
|}.

(** A coordinator of "B", with "A" in view, that created its group and started. *)
Definition demo_init : World :=
  match NewCoordinator (demo_opts Config.DefaultConfig "B") None ["A"] with
  | inl c => mkWorld c db_empty 0 []
  | inr _ => mkWorld (mkCoord None [] [] None ∅ 0 (ActiveView.NewActiveView "B") None None
      ForkDetector.NewForkDetector None None "" 0 false false false ∅ 0 None ModeLive false (Hlc.NewHLC "B") Metrics.NewMetrics)
      db_empty 0 []
  end.
Definition demo : Env := demo_env Config.DefaultConfig "B".
Definition run_world {A} (m : C A) (w : World) : World :=
  match m demo w with Ok _ w' => w' | _ => w end.
Definition run_value {A} (m : C A) (w : World) : option A :=
  match m demo w with Ok a _ => Some a | _ => None end.

Lemma run_Ok {A} (m : C A) w a : run_value m w = Some a -> m demo w = Ok a (run_world m w).
Proof. unfold run_value, run_world. destruct (m demo w); [|done..]. by intros [= <-]. Qed.

Definition demo_created : World := run_world CreateGroup demo_init.
Definition demo_started : World := run_world Start demo_created.
