(* ===== verification/CoordSpec.v ===== *)
(** * Correctness of the coordinator

    Termination and invariants over arbitrary runs, at-most-once delivery,
    durability before publication, admission of commits, isolation while
    catching up, and the refusals of the local API.  A run interleaves events
    with the phases of a fork heal: a heal gives up the mutex only between
    phases. *)
From S2P Require Import Prelude Sha256 Types Config Hlc Epoch ActiveView SingleWriter.
From S2P Require Import ForkDetector Helpers Database Store StoreSpec HealStore Coordinator.
From S2P Require Import CoordBroadcast CoordApplication CoordCommit CoordMessage CoordLogic.
From S2P Require Import CoordReplay CoordHeal CoordInv CoordSafe CoordSafeCommit CoordSafeHeal CoordEvents.
From S2P Require Import CoordStart CoordDemo.

(** ** Runs *)

Section Runs.
Context {PC : PeerCodec} {WC : WireCodec}.

(** A depth that is enough for an event: the epochs with buffered envelopes,
    and one for each envelope it brings. *)
Definition depth_for (ev : Event) (w : World) : nat := (backlog (w_c w) + length (event_wires ev))%nat.

(** The worlds a coordinator goes through, with where its fork heal stands
    ([HDone] when there is none): events, the launch of a heal that has been
    spawned, its phases, a welcome that arrives, and the resumption of a heal
    after a restart, for a job that was read from the tables. *)
Inductive reachable (env : Env) (w0 : World) : World -> HealPC -> Prop :=
| reach_start : reachable env w0 w0 HDone
| reach_event ev fuel w p w' :
    reachable env w0 w p -> (depth_for ev w <= fuel)%nat -> handle_event fuel ev env w = Ok tt w' ->
    reachable env w0 w' p
| reach_launch traceID event scheduledAt w :
    reachable env w0 w HDone -> c_healing (w_c w) = true ->
    ESpawn (TRunHeal traceID event scheduledAt) ∈ w_trace w ->
    reachable env w0 w (HBegin traceID event scheduledAt)
| reach_heal sig w p p' w' :
    reachable env w0 w p -> heal_step sig p env w = Ok p' w' -> reachable env w0 w' p'
| reach_welcome welcome b w p w' :
    reachable env w0 w p -> ProcessWelcomeIfWaiting welcome env w = Ok b w' -> reachable env w0 w' p
| reach_resume job w p w' :
    reachable env w0 w p -> job_waiting job -> resumeForkHealingJob job env w = Ok tt w' ->
    reachable env w0 w' p.

Context {WL : WireCodecLaws}.

Lemma size_union_le (X Y : gset Z) : (size (X ∪ Y) <= size X + size Y)%nat.
Proof.
  rewrite size_union_alt. assert (size (Y ∖ X) <= size Y)%nat by (apply subseteq_size; set_solver). lia.
Qed.

Lemma wire_epochs_size wires : (size (wire_epochs wires) <= length wires)%nat.
Proof.
  unfold wire_epochs. induction wires as [|raw wires IH]; simpl; [done|].
  destruct (dec_envelope raw) as [en|]; simpl; [|etrans; [exact IH|lia]].
  etrans; [apply size_union_le|]. rewrite size_singleton. apply le_n_S, IH.
Qed.

Lemma event_step env fuel ev w :
  o_HasMLS (e_opts env) = true -> 0 < Config.BatchingDelay (o_Config (e_opts env)) ->
  coord_ok env w -> (depth_for ev w <= fuel)%nat ->
  exists w', handle_event fuel ev env w = Ok tt w' /\ coord_ok env w' /\ extends env w w'.
Proof.
  intros Hm Hd Hw Hf. set (K := future_epochs (w_c w) ∪ wire_epochs (event_wires ev)).
  assert (HK : (size K <= fuel)%nat).
  { pose proof (wire_epochs_size (event_wires ev)). unfold depth_for, backlog in Hf.
    pose proof (size_union_le (future_epochs (w_c w)) (wire_epochs (event_wires ev))).
    unfold K. lia. }
  destruct (wp_Ok env (handle_event fuel ev) (fun _ w' => evolves env (wire_epochs (event_wires ev)) w w') w)
    as ([] & w' & E & H).
  - apply (safe_event env Hm Hd _ K); [set_solver|done|done|]. split; [done|set_solver].
  - destruct (H Hw) as (Hw' & Hx & _). eauto.
Qed.

(** A world of a run, with what is known of its heal. *)
Record run_ok (env : Env) (w0 w : World) (p : HealPC) : Prop := {
  run_coord : coord_ok env w;
  run_heal : heal_ok w;
  run_extends : extends env w0 w;
  run_pc : pc_waiting p;
}.

Lemma run_ok_evolves env w0 w w' p p' :
  run_ok env w0 w p -> evolves env ∅ w w' -> pc_waiting p' -> run_ok env w0 w' p'.
Proof. intros [O H X _] E Hp. destruct (E O) as (O' & X' & _). split; [done|by apply X'|by etrans|done]. Qed.

Lemma reachable_ok env w0 w p :
  o_HasMLS (e_opts env) = true -> 0 < Config.BatchingDelay (o_Config (e_opts env)) ->
  coord_ok env w0 -> heal_ok w0 -> reachable env w0 w p -> run_ok env w0 w p.
Proof.
  intros Hm Hd H0 Hh. induction 1 as [|ev fuel w p w' _ IH Hf E|id e at_ w _ IH _ _|sig w p p' w' _ IH E
    |bs b w p w' _ IH E|j w p w' _ IH Hj E]; [by split| |by destruct IH; split|..];
    pose proof IH as [O H X P].
  - destruct (event_step env fuel ev w Hm Hd O Hf) as (w1 & E1 & O1 & X1).
    rewrite E in E1. injection E1 as <-. split; [done|by apply X1|by etrans|done].
  - pose proof (phase_step env Hm sig p P w (conj O H)) as Hs. unfold wp in Hs. rewrite E in Hs.
    destruct Hs. by eapply run_ok_evolves.
  - pose proof (welcome_refused env bs w (conj O H)) as Hs. unfold wp in Hs. rewrite E in Hs.
    destruct Hs as (_ & ? & _). by eapply run_ok_evolves.
  - pose proof (safe_resume env j Hj w (conj O H)) as Hs. unfold wp in Hs. rewrite E in Hs.
    by eapply run_ok_evolves.
Qed.

(** C1: a started coordinator handles every event: the handler returns, it
    neither panics nor recurses without bound (the depth needed is the number
    of future epochs with buffered envelopes plus the envelopes the event
    brings), and it keeps the invariant; the epoch, the history up to it, the
    applied envelopes and the trace only grow. *)
Theorem every_event_handled env fuel ev w :
  o_HasMLS (e_opts env) = true -> 0 < Config.BatchingDelay (o_Config (e_opts env)) ->
  coord_ok env w -> (depth_for ev w <= fuel)%nat ->
  exists w', handle_event fuel ev env w = Ok tt w' /\ coord_ok env w' /\ extends env w w'.
Proof. apply event_step. Qed.

(** C8: in every reachable world the epoch tracker, the election, the fork
    detector, the history chain and the stored group record are at the
    coordinator's epoch, which never decreases; what a node answers to a
    history query about an epoch it had reached never changes. *)
Theorem components_agree_on_epoch env w0 w p :
  o_HasMLS (e_opts env) = true -> 0 < Config.BatchingDelay (o_Config (e_opts env)) ->
  coord_ok env w0 -> heal_ok w0 -> reachable env w0 w p ->
  c_epoch (w_c w0) <= c_epoch (w_c w) /\
  (forall e, e <= c_epoch (w_c w0) -> c_historyChain (w_c w) !! e = c_historyChain (w_c w0) !! e) /\
  (Epoch.Current <$> c_epochTracker (w_c w)) = Some (c_epoch (w_c w)) /\
  (SingleWriter.sw_epoch <$> c_singleWriter (w_c w)) = Some (c_epoch (w_c w)) /\
  (ann_Epoch <$> ForkDetector.fd_local (c_forkDetector (w_c w))) = Some (c_epoch (w_c w)) /\
  (exists h, c_historyHash (w_c w) = Some h /\ c_historyChain (w_c w) !! c_epoch (w_c w) = Some h) /\
  forall row, db_groups (w_db w) !! o_GroupID (e_opts env) = Some row -> gr_Epoch (grow_rec row) = c_epoch (w_c w).
Proof.
  intros Hm Hd H0 HJ Hr. destruct (reachable_ok env w0 w p Hm Hd H0 HJ Hr) as [[HC HS _] _ [Ep Ch _ _ _ _ _] _].
  destruct HC as [(sw & -> & Ew) (et & -> & Ee & _) _ Hh (ann & -> & Ea & _)].
  split; [done|]. split; [done|]. simpl. unfold Epoch.Current. rewrite Ew, Ee, Ea.
  repeat (split; [done|]). intros row G. by apply HS.
Qed.

(** C2: over any run, whatever statements fail and however often envelopes
    arrive, by gossip, direct message or replay, the application sees each
    envelope with a single message at most once, and every one it sees is
    recorded as applied.  (Messages of batched envelopes carry no hash and are
    not counted.) *)
Theorem at_most_once_delivery env w0 w p :
  o_HasMLS (e_opts env) = true -> 0 < Config.BatchingDelay (o_Config (e_opts env)) ->
  coord_ok env w0 -> heal_ok w0 -> reachable env w0 w p ->
  NoDup (delivered (w_trace w)) /\
  forall h, h ∈ delivered (w_trace w) -> is_Some (db_applied (w_db w) !! (o_GroupID (e_opts env), h)).
Proof.
  intros Hm Hd H0 Hh Hr. destruct (reachable_ok env w0 w p Hm Hd H0 Hh Hr) as [[_ _ [HO HD _]] _ _ _].
  split; [done|]. by apply Forall_forall.
Qed.

(** C24: over any run, a commit or application envelope that the node has
    published on the group topic has been applied and stored locally. *)
Theorem stored_before_published env w0 w p wire en :
  o_HasMLS (e_opts env) = true -> 0 < Config.BatchingDelay (o_Config (e_opts env)) ->
  coord_ok env w0 -> heal_ok w0 -> reachable env w0 w p ->
  wire ∈ published (w_trace w) -> dec_envelope wire = inl en ->
  env_Type en = MsgCommit \/ env_Type en = MsgApplication ->
  is_Some (db_applied (w_db w) !! (o_GroupID (e_opts env), sha256_sum wire)).
Proof.
  intros Hm Hd H0 Hh Hr Hin Hdec Hty. destruct (reachable_ok env w0 w p Hm Hd H0 Hh Hr) as [[_ _ [_ _ HP]] _ _ _].
  rewrite Forall_forall in HP. apply (HP wire Hin en Hdec). by destruct Hty as [-> | ->].
Qed.

(** [Start], when it reports success, leaves a coordinator that satisfies
    the invariant, from a state created in memory or loaded from the tables. *)
Theorem start_establishes_invariant env w w' :
  startable env w -> Start env w = Ok (inl tt) w' -> coord_ok env w' /\ c_started (w_c w') = true.
Proof.
  intros Hs E. pose proof (start_ok env w Hs) as H. unfold wp in H. rewrite E in H. auto.
Qed.
End Runs.

(** ** A concrete run *)

Lemma startable_fresh {WC : WireCodec} env w :
  c_historyHash (w_c w) = None -> w_trace w = [] -> db_pending_ops (w_db w) = [] -> c_epoch (w_c w) = 0 ->
  (gr_Epoch ∘ grow_rec) <$> (db_groups (w_db w) !! o_GroupID (e_opts env)) = Some 0 ->
  startable env w.
Proof.
  intros Hh Ht Ho He Hg. split; rewrite ?Ht, ?Ho, ?He; [done|split; constructor|constructor|lia|].
  intros row E. rewrite E in Hg. injection Hg as Hg. simpl in Hg. rewrite Hg. split; [lia|done].
Qed.

Lemma demo_startable : startable demo demo_created.
Proof. apply startable_fresh; vm_compute; reflexivity. Qed.

Lemma started_ok {PC : PeerCodec} {WC : WireCodec} env w w' :
  startable env w -> Start env w = Ok (inl tt) w' -> coord_ok env w'.
Proof.
  intros Hs E. pose proof (start_ok env w Hs) as H. unfold wp in H. rewrite E in H. by apply H.
Qed.

Lemma demo_started_ok : coord_ok demo demo_started.
Proof. apply (started_ok demo demo_created); [apply demo_startable|].
  match goal with |- _ = Ok _ ?w => unfold w end. apply run_Ok. vm_compute. reflexivity.
Qed.

(** "B" sends a message, then receives one from "A" twice. *)
Definition demo_wire : bytes :=
  enc_envelope (mkEnvelope MsgApplication "g" 0 "A" (mkHLC 1000000 0 "A") (enc_payload (PApplication (mkApplicationMsg [x62])))).
Definition demo_sent : World := run_world (handle_event 0 (EvSend [x61] "t1")) demo_started.
Definition demo_received : World := run_world (handle_event 1 (EvMessage "A" demo_wire)) demo_sent.
Definition demo_again : World := run_world (handle_event 1 (EvMessage "A" demo_wire)) demo_received.

Example demo_again_delivered : length (delivered (w_trace demo_again)) = 2%nat.
Proof. vm_compute. reflexivity. Qed.

Lemma demo_step w0 w ev fuel :
  coord_ok demo w0 -> heal_ok w0 -> reachable demo w0 w HDone -> (depth_for ev w <= fuel)%nat ->
  reachable demo w0 (run_world (handle_event fuel ev) w) HDone.
Proof.
  intros H0 Hh Hr Hf. destruct (reachable_ok demo w0 w HDone) as [Hw _ _ _]; [done..|].
  destruct (event_step demo fuel ev w) as (w' & E & _); [done..|].
  unfold run_world. rewrite E. by eapply reach_event.
Qed.

Lemma demo_heal_ok : heal_ok demo_started.
Proof. split; [|vm_compute; reflexivity]. assert (E : db_heal_jobs (w_db demo_started) = []) by (vm_compute; reflexivity). by rewrite E. Qed.

Lemma demo_reachable : reachable demo demo_started demo_again HDone.
Proof.
  unfold demo_again, demo_received, demo_sent.
  refine (demo_step _ _ _ _ demo_started_ok demo_heal_ok (demo_step _ _ _ _ demo_started_ok demo_heal_ok
    (demo_step _ _ _ _ demo_started_ok demo_heal_ok (reach_start _ _) _) _) _); apply Nat.leb_le; vm_compute; reflexivity.
Qed.

(** ** Admission of commits *)

Section Admission.
Context {PC : PeerCodec} {WC : WireCodec}.
Variables (env : Env) (self : Call -> C bool).

Lemma commit_sender_inv en batch w :
  pc env (commit_sender_ok en batch) (fun b w' =>
    w_c w' = w_c w /\ w_db w' = w_db w /\ w_trace w' = w_trace w /\
    (b = true -> forall sw, c_singleWriter (w_c w) = Some sw -> batch <> [] ->
       decodeEnvelopePeerID (env_From en) "" <> "" ->
       exists t, SingleWriter.HolderForBatch t (ActiveView.Members (c_activeView (w_c w))) batch sw
                   = inl (decodeEnvelopePeerID (env_From en) "") /\
         Helpers.removesPeer batch (decodeEnvelopePeerID (env_From en) "") = false)) w.
Proof.
  unfold commit_sender_ok. cbv zeta. destruct (is_empty batch) eqn:Eb.
  { pc_step. apply is_empty_true in Eb. subst. repeat split. done. }
  destruct (str_eqb_spec (decodeEnvelopePeerID (env_From en) "") "") as [Es|Es].
  { pc_step. repeat split. intros _ sw _ _ Hne. by rewrite Es in Hne. }
  unfold sw_HolderForBatch. repeat pc_step. wp_run.
  destruct (SingleWriter.HolderForBatch _ _ _ _) as [h|e] eqn:Eh; apply pc_wp; wp_run; repeat split; try done.
  intros [Hs Hr]%andb_true_iff sw E' _ _. apply str_eqb_true in Hs. apply negb_true_iff in Hr.
  simplify_eq. eexists. split; [exact Eh|done].
Qed.

(** What a commit that is not applied may touch. *)
Definition unchanged (w w' : World) : Prop :=
  w_db w' = w_db w /\ w_trace w' = w_trace w /\
  exists et fd m, w_c w' = set_c_epochTracker et (set_c_forkDetector fd (set_c_metrics m (w_c w))).

Lemma unchanged_c w w' : w_db w' = w_db w -> w_trace w' = w_trace w -> w_c w' = w_c w -> unchanged w w'.
Proof.
  intros D T E. split; [done|]. split; [done|].
  exists (c_epochTracker (w_c w)), (c_forkDetector (w_c w)), (c_metrics (w_c w)). rewrite E. by destruct (w_c w).
Qed.

Lemma ApplyCommit_false rec ty wire ts e t d r t' d' :
  Store.ApplyCommit rec ty wire ts e (e_sql env) t d = (r, t', d') -> (forall s, r <> inl (true, s)) -> d' = d.
Proof.
  intros [[-> _]|(_ & _ & _ & s & ->)]%ApplyCommit_applies Hr; [done|]. by destruct (Hr s).
Qed.

(** The outcome of the checks of a received commit. *)
Lemma applyCommit_inv en wire cm w :
  let batch := Helpers.bufferedBatchFromProposalMsgs (cm_IncludedProposals cm) in
  let sender := decodeEnvelopePeerID (env_From en) "" in
  pc env (applyCommitLocked self en wire cm) (fun b w' =>
    if b : bool then
      forall sw, c_singleWriter (w_c w) = Some sw -> batch <> [] -> sender <> "" ->
      exists t, SingleWriter.HolderForBatch t (ActiveView.Members (c_activeView (w_c w))) batch sw = inl sender /\
        Helpers.removesPeer batch sender = false
    else unchanged w w') w.
Proof.
  intros batch sender. unfold applyCommitLocked. cbv zeta. fold batch.
  set (inv := markInvalidCommitLocked _ ;;; ret false).
  assert (Hinv : forall w1 Q, w_c w1 = w_c w -> w_db w1 = w_db w -> w_trace w1 = w_trace w ->
    (forall w2, unchanged w w2 -> Q false w2) -> pc env inv Q w1).
  { intros w1 Q C1 D1 T1 HQ. unfold inv, markInvalidCommitLocked. apply pc_wp. wp_run.
    case_match; wp_run; apply HQ; [by apply unchanged_c|]. split; [done|]. split; [done|].
    exists (c_epochTracker (w_c w)), (ForkDetector.MarkInvalidCommit (ForkDetector.hashCommitData (cm_CommitData cm)) (c_forkDetector (w_c w))), (c_metrics (w_c w)).
    simpl. rewrite C1. by destruct (w_c w). }
  pc_step. apply pc_wp. wp_run. pc_step. apply pc_wp. wp_run. pc_step. pc_step.
  destruct (mls_StageCommit _ _ _ _ _) as [staged|e]; [|by apply Hinv]. case_match; [by apply Hinv|].
  pc_step. eapply pc_mono; [apply commit_sender_inv|]. cbn beta. intros ok w1 (C1 & D1 & T1 & Hok).
  destruct ok; simpl; [|by apply Hinv]. specialize (Hok eq_refl).
  pc_step. pc_step. destruct (mls_ProcessCommit _ _ _ _ _) as [[st th]|e]; [|by apply Hinv].
  apply pc_bind, pc_wp. wp_run. apply pc_bind, pc_wp. wp_run. apply pc_bind, pc_wp. wp_run.
  apply pc_bind, pc_wp. rewrite wp_db. destruct (Store.ApplyCommit _ _ _ _ _ _ _ _) as [[r t] d] eqn:E.
  assert (Hf : (forall s, r <> inl (true, s)) -> unchanged w (with_db d t (tick (tick w1)))).
  { intros Hr. apply ApplyCommit_false in E; [|done]. simpl in E; subst d; by apply unchanged_c. }
  destruct r as [[[] s]|e]; [|apply pc_wp; wp_run; by apply Hf..].
  intros b w2. unfold bind, ret. destruct (finish_received_commit _ _ _ _ _ _ _ _); [|done..].
  intros [= <- <-]. exact Hok.
Qed.

Lemma checkApplied_pc en wire w Q :
  (forall r w', w_c w' = w_c w -> w_db w' = w_db w -> w_trace w' = w_trace w -> Q r w') ->
  pc env (checkAppliedEnvelopeLocked en wire) Q w.
Proof.
  intros HQ. apply pc_wp. unfold checkAppliedEnvelopeLocked. case_match; wp_run; [by apply HQ|].
  rewrite wp_db. assert (Hr : readonly (Store.HasAppliedEnvelope (o_GroupID (e_opts env)) (ForkDetector.hashEnvelope wire))).
  { unfold Store.HasAppliedEnvelope, Store.hasAppliedEnvelopeTx. repeat case_match; auto with coord. }
  specialize (Hr (e_sql env) (w_tick w) (w_db w)). destruct (Store.HasAppliedEnvelope _ _ _ _ _) as [[r t] d].
  simpl in Hr. subst. wp_run. by apply HQ.
Qed.

Lemma handleCommit_inv en wire w :
  pc env (handleCommitLocked self en wire) (fun b w' =>
    if b : bool then
      forall cm sw, dec_commit (env_Payload en) = inl cm -> c_singleWriter (w_c w) = Some sw ->
      let batch := Helpers.bufferedBatchFromProposalMsgs (cm_IncludedProposals cm) in
      let sender := decodeEnvelopePeerID (env_From en) "" in
      batch <> [] -> sender <> "" ->
      exists t, SingleWriter.HolderForBatch t (ActiveView.Members (c_activeView (w_c w))) batch sw = inl sender /\
        Helpers.removesPeer batch sender = false
    else unchanged w w') w.
Proof.
  unfold handleCommitLocked. pc_step. pc_step. destruct (Epoch.Validate _ _).
  - destruct (dec_commit _) as [cm|e] eqn:Ed; [|apply pc_wp; wp_run; by apply unchanged_c].
    pc_step. apply checkApplied_pc. intros r w1 C1 D1 T1.
    destruct r.2; [apply pc_wp; wp_run; by apply unchanged_c|].
    eapply pc_mono; [apply applyCommit_inv|]. cbn beta. rewrite C1. intros [] w2 H2.
    + intros cm' sw [= <-]. apply H2.
    + unfold unchanged in *. by rewrite <- D1, <- T1, <- C1.
  - unfold metric. apply pc_wp. wp_run. split; [done|]. split; [done|].
    exists (c_epochTracker (w_c w)), (c_forkDetector (w_c w)), (Metrics.IncrDuplicateEpochDetected (c_metrics (w_c w))).
    simpl. by destruct (w_c w).
  - unfold set_epochTracker. apply pc_wp. wp_run. split; [done|]. split; [done|].
    eexists _, (c_forkDetector (w_c w)), (c_metrics (w_c w)). simpl. reflexivity.
Qed.

(** C5: a commit that is applied, carries proposals and names a decodable
    sender comes from the token holder this node elects for those proposals,
    and does not remove its own committer. *)
Theorem accepted_commit_from_holder en wire cm sw w w' :
  handleCommitLocked self en wire env w = Ok true w' ->
  dec_commit (env_Payload en) = inl cm -> c_singleWriter (w_c w) = Some sw ->
  let batch := Helpers.bufferedBatchFromProposalMsgs (cm_IncludedProposals cm) in
  let sender := decodeEnvelopePeerID (env_From en) "" in
  batch <> [] -> sender <> "" ->
  exists t, SingleWriter.HolderForBatch t (ActiveView.Members (c_activeView (w_c w))) batch sw = inl sender /\
    Helpers.removesPeer batch sender = false.
Proof. intros E. apply (handleCommit_inv en wire w true w' E). Qed.

End Admission.

(** ** Isolation and refusals *)

Section Isolation.
Context {PC : PeerCodec} {WC : WireCodec}.
Variable env : Env.

(** Appending to the log leaves the rest of the tables alone. *)
Definition log_only (d d' : DB) : Prop :=
  db_groups d' = db_groups d /\ db_messages d' = db_messages d /\ db_applied d' = db_applied d /\
  db_coord d' = db_coord d.
#[local] Instance log_only_preorder : PreOrder log_only.
Proof.
  split; [by repeat split|]. intros d1 d2 d3 (A1 & B1 & C1 & D1) (A2 & B2 & C2 & D2).
  repeat split; congruence.
Qed.

Lemma append_log_only g ty e ts w src : respects log_only (Store.AppendEnvelopeWithSource g ty e ts w src).
Proof.
  unfold Store.AppendEnvelopeWithSource. apply respects_tx; [apply _|]. apply respects_ensures.
  unfold Store.dedup_insert, Store.touch_received, Store.log_insert.
  repeat (sql_step || (repeat split; reflexivity)).
Qed.

Lemma wp_append g ty e ts wire src w :
  wp env (db (Store.AppendEnvelopeWithSource g ty e ts wire src) ;;; ret tt)
    (fun _ w' => w_c w' = w_c w /\ w_trace w' = w_trace w /\ log_only (w_db w) (w_db w')) w.
Proof.
  rewrite wp_bind, wp_db. pose proof (append_log_only g ty e ts wire src (e_sql env) (w_tick w) (w_db w)) as H.
  destruct (Store.AppendEnvelopeWithSource _ _ _ _ _ _ _ _ _) as [[r t] d]. by wp_run.
Qed.

(** What an isolated envelope may touch. *)
Definition isolated (en : Envelope) (w w' : World) : Prop :=
  w_c w' = w_c w /\ w_trace w' = w_trace w /\ log_only (w_db w) (w_db w') /\
  (env_Type en = MsgProposal \/ env_Type en = MsgApplicationBatched -> w_db w' = w_db w).

Lemma isolated_refl en w w' : w_c w' = w_c w -> w_trace w' = w_trace w -> w_db w' = w_db w -> isolated en w w'.
Proof. intros C T D. split; [done|]. split; [done|]. split; [|done]. rewrite D. reflexivity. Qed.

Lemma isolated_log en w w' :
  isolates (env_Type en) = true ->
  w_c w' = w_c w /\ w_trace w' = w_trace w /\ log_only (w_db w) (w_db w') -> isolated en w w'.
Proof.
  intros Hi (C & T & L). split; [done|]. split; [done|]. split; [done|]. intros [E|E]; by rewrite E in Hi.
Qed.

Lemma isolated_in_mode fuel from data en w :
  c_operationalMode (w_c w) = ModeCatchingUp \/ c_operationalMode (w_c w) = ModeFrozenForApply ->
  env_Type en ∈ [MsgCommit; MsgApplication; MsgProposal; MsgApplicationBatched] ->
  wp env (handleInModeLocked fuel from en data) (fun _ w' => isolated en w w') w.
Proof.
  intros Hmode Hty. assert (Hdrop : isolates (env_Type en) = false ->
    wp env (handleControlMessageLocked from en) (fun _ w' => isolated en w w') w).
  { intros Hi. revert Hi. rewrite !elem_of_cons, elem_of_nil in Hty.
    destruct Hty as [-> | [-> | [E | [E |[]]]]]; try done; intros _;
      unfold handleControlMessageLocked; rewrite E; wp_run; by apply isolated_refl. }
  assert (Hlog : forall src, isolates (env_Type en) = true ->
    wp env (db (Store.AppendEnvelopeWithSource (o_GroupID (e_opts env)) (env_Type en) (env_Epoch en)
                  (env_Timestamp en) data src) ;;; ret tt) (fun _ w' => isolated en w w') w).
  { intros src Hi. eapply wp_mono; [apply wp_append|]. intros ? w' H. by apply isolated_log. }
  unfold handleInModeLocked, Store.AppendEnvelope. rewrite wp_bind, wp_opts, wp_bind, wp_gets.
  destruct Hmode as [-> | ->]; simpl; destruct (isolates (env_Type en)) eqn:Hi; auto.
  rewrite wp_bind, wp_opts, wp_when. case_match; [by apply Hlog|]. by apply isolated_refl.
Qed.

(** While a node catches up or is frozen for a state swap, a commit or an
    application message only goes to the envelope log, and a proposal or a
    batched message is dropped: the coordinator, its outputs and the other
    tables stay as they are. *)
Theorem isolated_inbox fuel from data en w :
  c_operationalMode (w_c w) = ModeCatchingUp \/ c_operationalMode (w_c w) = ModeFrozenForApply ->
  dec_envelope data = inl en ->
  env_Type en ∈ [MsgCommit; MsgApplication; MsgProposal; MsgApplicationBatched] ->
  exists w', handleRawMessage fuel from data env w = Ok tt w' /\
    w_c w' = w_c w /\ w_trace w' = w_trace w /\ log_only (w_db w) (w_db w') /\
    (env_Type en = MsgProposal \/ env_Type en = MsgApplicationBatched -> w_db w' = w_db w).
Proof.
  intros Hmode Hdec Hty. destruct (wp_Ok env (handleRawMessage fuel from data) (fun _ w' => isolated en w w') w)
    as ([] & w' & E & H); [|by eauto].
  unfold handleRawMessage. wp_run. case_match; [wp_run; by apply isolated_refl|]. rewrite Hdec.
  case_match; [wp_run; by apply isolated_refl|].
  case_match; wp_run; [case_match; [wp_run; by apply isolated_refl|]|].
  - eapply wp_mono; [by apply isolated_in_mode|]. by intros ? w' H'.
  - by apply isolated_in_mode.
Qed.

(** A commit, application message or proposal stamped more than five
    minutes ahead of the local clock is dropped without any effect. *)
Theorem skewed_envelope_dropped fuel from data en w :
  dec_envelope data = inl en -> env_Type en ∈ [MsgCommit; MsgApplication; MsgProposal] ->
  WallTimeMs (env_Timestamp en) > i64 (UnixMilli (e_clock env (w_tick w)) + maxFutureSkewMs) ->
  exists w', handleRawMessage fuel from data env w = Ok tt w' /\
    w_c w' = w_c w /\ w_db w' = w_db w /\ w_trace w' = w_trace w.
Proof.
  intros Hdec Hty Hts. destruct (wp_Ok env (handleRawMessage fuel from data)
    (fun _ w' => w_c w' = w_c w /\ w_db w' = w_db w /\ w_trace w' = w_trace w) w) as ([] & w' & E & H); [|by eauto].
  assert (Hchk : isolates (env_Type en) || str_eqb (env_Type en) MsgProposal = true).
  { rewrite !elem_of_cons, elem_of_nil in Hty. by destruct Hty as [-> | [-> | [-> |[]]]]. }
  unfold handleRawMessage. wp_run. case_match; [by wp_run|]. rewrite Hdec. case_match; [by wp_run|].
  rewrite Hchk. wp_run. unfold validateSenderTimestamp.
  destruct (WallTimeMs (env_Timestamp en) >? _) eqn:Et; [by wp_run|].
  rewrite Z.gtb_ltb in Et. apply Z.ltb_ge in Et. lia.
Qed.

(** While a fork is being healed, before the coordinator has started and
    after the local member has been removed, sending is refused without any
    effect; so is proposing in the last two cases. *)
Theorem sends_refused plaintext token pType data self w :
  (c_healing (w_c w) = true \/ c_started (w_c w) = false \/ c_accessRevoked (w_c w) = true ->
     exists e, SendMessageWithLocalEchoToken plaintext token env w = Ok (inr e) w) /\
  (c_started (w_c w) = false \/ c_accessRevoked (w_c w) = true ->
     exists e, propose self pType data env w = Ok (inr e) w).
Proof.
  unfold SendMessageWithLocalEchoToken, sendMessage, updateLocalAccessRevocationLocked, propose,
    proposeLockedWithMetadata, bind, gets, ret. split.
  - intros H. destruct (c_healing (w_c w)); [by eauto|]. destruct (c_started (w_c w)); simpl; [|by eauto].
    destruct (c_accessRevoked (w_c w)) eqn:E; [rewrite E; by eauto|]. destruct H as [?|[?|?]]; congruence.
  - intros H. destruct (c_started (w_c w)); simpl; [|by eauto].
    destruct (c_accessRevoked (w_c w)); [by eauto|]. destruct H; congruence.
Qed.

End Isolation.

(** ** Batched messages *)

Section Batched.
Context {PC : PeerCodec} {WC : WireCodec}.
Variable env : Env.

Context (Hnull : nil_blob_null (e_sql env) = true).

(** The event of a batched message has no envelope hash, so the table refuses
    it and the message is not delivered. *)
Lemma event_refused ev t d : ae_EnvelopeHash ev = [] ->
  exists e t' d', HealStore.SaveApplicationEvent ev (e_sql env) t d = (inr e, t', d').
Proof.
  intros Hh. unfold HealStore.SaveApplicationEvent, sql_wrap, sql_bind, sql_uint64, HealStore.sql_not_null.
  rewrite Hnull, Hh. unfold sql_ret, sql_throw. destruct (ae_OriginalEpoch ev <? 2 ^ 63); simpl; by eauto.
Qed.

Lemma mute_deliver en sender h t ev : mute env (deliver_batched_event en sender h t ev).
Proof.
  unfold deliver_batched_event, sealPayload. cbv zeta. do 3 (apply mute_bind; [by mute_auto|intro]).
  destruct (match a1 with inl _ => _ | inr _ => _ end) as [[pl n] ph].
  intros w. apply pc_bind, pc_wp. rewrite wp_db.
  match goal with |- context [HealStore.SaveApplicationEvent ?e ?s ?t ?d] =>
    destruct (event_refused e t d eq_refl) as (er & t' & d' & ->) end.
  apply pc_wp. by wp_run.
Qed.

Lemma mute_deliver_all en sender h t evs : mute env (deliver_batched en sender h t evs).
Proof.
  induction evs as [|ev evs IH]; simpl; [apply mute_ret|]. apply mute_bind; [apply mute_deliver|intros m].
  apply mute_bind; [exact IH|intros ms]. apply mute_ret.
Qed.

(** With a driver that binds a nil slice as NULL, no message of a batched
    envelope ever reaches the application: receiving one has no output. *)
Theorem batched_messages_not_delivered from en wire b w w' :
  handleApplicationBatchedLocked from en wire env w = Ok b w' -> w_trace w' = w_trace w.
Proof.
  refine ((fun H : mute env (handleApplicationBatchedLocked from en wire) => H w b w') _). unfold handleApplicationBatchedLocked, newReplayResultLocked,
    checkAppliedEnvelopeLocked, finish, markReplayResultLocked, ensure_epochTracker, retention_action, saveCurrentGroupStateLocked.
  mute_auto. apply mute_deliver_all.
Qed.
End Batched.

(** ** Witnesses *)

(** A commit by "A", the token holder, that adds "C", and the envelope with a
    time stamp of one's choice. *)
Definition demo_commit : CommitMsg :=
  mkCommitMsg [x0c; x0a] [] [x22] [] [mkProposalMsg ProposalAdd [x30] [x0a; x30] "" "C" [] "" "" "" []] [[x0a; x30]].
Definition demo_commit_env (from : string) (ms : Z) : Envelope :=
  mkEnvelope MsgCommit "g" 0 from (mkHLC ms 0 from) (enc_payload (PCommit demo_commit)).
Definition demo_commit_wire (from : string) (ms : Z) : bytes := enc_envelope (demo_commit_env from ms).

Lemma every_event_handled_witness :
  exists w', handle_event 1 (EvMessage "A" (demo_commit_wire "A" 1000000)) demo demo_started = Ok tt w' /\
    coord_ok demo w' /\ extends demo demo_started w'.
Proof.
  apply every_event_handled; [reflexivity|reflexivity|apply demo_started_ok|].
  apply Nat.leb_le. vm_compute. reflexivity.
Defined.

Example demo_commit_advances :
  match handle_event 1 (EvMessage "A" (demo_commit_wire "A" 1000000)) demo demo_started with
  | Ok _ w' => c_epoch (w_c w') = 1
  | _ => False
  end.
Proof. vm_compute. reflexivity. Qed.

Lemma components_agree_on_epoch_witness :
  c_epoch (w_c demo_started) <= c_epoch (w_c demo_again) /\
  (Epoch.Current <$> c_epochTracker (w_c demo_again)) = Some (c_epoch (w_c demo_again)).
Proof.
  destruct (components_agree_on_epoch demo demo_started demo_again HDone) as (H1 & _ & H2 & _);
    [reflexivity|reflexivity|apply demo_started_ok|apply demo_heal_ok|apply demo_reachable|].
  exact (conj H1 H2).
Defined.

Lemma at_most_once_delivery_witness : NoDup (delivered (w_trace demo_again)).
Proof.
  refine (proj1 (at_most_once_delivery demo demo_started demo_again HDone _ _ _ _ _));
    [reflexivity|reflexivity|apply demo_started_ok|apply demo_heal_ok|apply demo_reachable].
Defined.

Definition demo_published : bytes := default [] (head (published (w_trace demo_again))).
Definition demo_published_env : Envelope :=
  match dec_envelope demo_published with inl e => e | inr _ => demo_commit_env "" 0 end.

Lemma stored_before_published_witness : is_Some (db_applied (w_db demo_again) !! ("g", sha256_sum demo_published)).
Proof.
  refine (stored_before_published demo demo_started demo_again HDone demo_published demo_published_env _ _ _ _ _ _ _ _);
    [reflexivity|reflexivity|apply demo_started_ok|apply demo_heal_ok|apply demo_reachable| |vm_compute; reflexivity|].
  - apply list_elem_of_In. vm_compute. by left.
  - right. vm_compute. reflexivity.
Defined.

Lemma start_establishes_invariant_witness : coord_ok demo demo_started /\ c_started (w_c demo_started) = true.
Proof.
  apply (start_establishes_invariant demo demo_created); [apply demo_startable|].
  match goal with |- _ = Ok _ ?w => unfold w end. apply run_Ok. vm_compute. reflexivity.
Defined.

Definition demo_committed : World :=
  run_world (handleCommitLocked (run 1) (demo_commit_env "A" 1000000) (demo_commit_wire "A" 1000000)) demo_started.

Lemma accepted_commit_from_holder_witness :
  let batch := Helpers.bufferedBatchFromProposalMsgs (cm_IncludedProposals demo_commit) in
  let sender := decodeEnvelopePeerID (env_From (demo_commit_env "A" 1000000)) "" in
  exists t, SingleWriter.HolderForBatch t (ActiveView.Members (c_activeView (w_c demo_started))) batch
      (SingleWriter.SetAuthorizedCommitters "g" None (SingleWriter.NewSingleWriter "B" 0)) = inl sender /\
    Helpers.removesPeer batch sender = false.
Proof.
  apply (accepted_commit_from_holder demo (run 1) (demo_commit_env "A" 1000000) (demo_commit_wire "A" 1000000)
    demo_commit (SingleWriter.SetAuthorizedCommitters "g" None (SingleWriter.NewSingleWriter "B" 0))
    demo_started demo_committed).
  - match goal with |- _ = Ok _ ?w => unfold w end. apply run_Ok. vm_compute. reflexivity.
  - vm_compute. reflexivity.
  - vm_compute. reflexivity.
  - vm_compute. congruence.
  - vm_compute. congruence.
Defined.

(** The same commit in the name of "B" is not applied. *)
Definition demo_rejected : World :=
  run_world (handleCommitLocked (run 1) (demo_commit_env "B" 1000000) (demo_commit_wire "B" 1000000)) demo_started.


Definition demo_catching_up : World := run_world (SetOperationalMode ModeCatchingUp) demo_started.

Lemma isolated_inbox_witness :
  exists w', handleRawMessage 1 "A" (demo_commit_wire "A" 1000000) demo demo_catching_up = Ok tt w' /\
    w_c w' = w_c demo_catching_up /\ w_trace w' = w_trace demo_catching_up /\
    log_only (w_db demo_catching_up) (w_db w').
Proof.
  destruct (isolated_inbox demo 1 "A" (demo_commit_wire "A" 1000000) (demo_commit_env "A" 1000000) demo_catching_up)
    as (w' & H1 & H2 & H3 & H4 & _).
  - left. vm_compute. reflexivity.
  - vm_compute. reflexivity.
  - apply list_elem_of_here.
  - exact (ex_intro _ w' (conj H1 (conj H2 (conj H3 H4)))).
Defined.

Lemma skewed_envelope_dropped_witness :
  exists w', handleRawMessage 1 "A" (demo_commit_wire "A" 9999999) demo demo_started = Ok tt w' /\
    w_c w' = w_c demo_started /\ w_db w' = w_db demo_started /\ w_trace w' = w_trace demo_started.
Proof.
  apply (skewed_envelope_dropped demo 1 "A" _ (demo_commit_env "A" 9999999));
    [vm_compute; reflexivity|apply list_elem_of_here|vm_compute; reflexivity].
Defined.

Lemma sends_refused_witness :
  exists e, SendMessageWithLocalEchoToken [x61] "t" demo demo_created = Ok (inr e) demo_created.
Proof.
  apply (sends_refused demo [x61] "t" ProposalAdd [] (run 1) demo_created). right. left. vm_compute. reflexivity.
Defined.

Definition demo_batched_env : Envelope :=
  mkEnvelope MsgApplicationBatched "g" 0 "A" (mkHLC 1000000 0 "A") (enc_payload (PBatched (mkBatchedApplicationMsg [x62]))).
Definition demo_batched : World :=
  run_world (handleApplicationBatchedLocked "A" demo_batched_env (enc_envelope demo_batched_env)) demo_started.

Lemma batched_messages_not_delivered_witness : w_trace demo_batched = w_trace demo_started.
Proof.
  apply (batched_messages_not_delivered demo (eq_refl true) "A" demo_batched_env (enc_envelope demo_batched_env)
    true demo_started demo_batched). match goal with |- _ = Ok _ ?w => unfold w end. apply run_Ok. vm_compute. reflexivity.
Defined.
