(* ===== verification/CoordHealSpec.v ===== *)
(** * Correctness of fork heals

    A heal always returns and releases what it holds; what a swap of the group
    state leaves behind; and what becomes of a heal that was asked for: with
    the tables as they are, no welcome is ever accepted, and a heal that timed
    out is never attempted again. *)
From S2P Require Import Prelude Sha256 Types Config Hlc Epoch ActiveView SingleWriter.
From S2P Require Import ForkDetector Helpers Database Store StoreSpec HealStore Coordinator.
From S2P Require Import CoordBroadcast CoordApplication CoordCommit CoordMessage CoordLogic.
From S2P Require Import CoordReplay CoordHeal CoordInv CoordSafe CoordSafeCommit CoordSafeHeal CoordEvents.
From S2P Require Import CoordStart CoordDemo CoordSpec.

(** ** Termination *)

(** The phases that are left, at most. *)
Definition heal_rank (p : HealPC) : Z :=
  match p with
  | HBegin _ _ _ => 10
  | HSnapshot _ => 9
  | HPropose _ => 8
  | HAwait _ _ n => 5 + Z.max 0 (maxProposalJoinRetries - n)
  | HSwap _ => 4
  | HReplay _ => 3
  | HClean _ _ => 2
  | HExit _ => 1
  | HDone => 0
  end.

(** A method whose results all satisfy [Q]. *)
Definition gives {A} (m : C A) (Q : A -> Prop) : Prop :=
  forall env w a w', m env w = Ok a w' -> Q a.

Lemma gives_ret {A} (a : A) (Q : A -> Prop) : Q a -> gives (ret a) Q.
Proof. intros H env w a' w' [= <- _]. exact H. Qed.
Lemma gives_bind {A B} (m : C A) (k : A -> C B) Q : (forall a, gives (k a) Q) -> gives (bind m k) Q.
Proof. intros Hk env w b w'. unfold bind. destruct (m env w) as [a w1| |]; [|done..]. apply Hk. Qed.

Ltac gives_auto :=
  repeat match goal with
  | |- gives (ret _) _ => apply gives_ret
  | |- gives (bind _ _) _ => apply gives_bind; intro
  | |- gives (if ?b then _ else _) _ => destruct b
  | |- gives (match ?o with _ => _ end) _ => destruct o
  | |- gives (let _ := _ in _) _ => cbv zeta
  end.

(** A phase that awaits the welcome is where it was. *)
Definition still_awaiting (sig : Signal) (p p' : HealPC) : Prop :=
  match p with HAwait _ _ _ => sig = SigWelcome /\ p' = p | _ => False end.

Section Termination.
Context {PC : PeerCodec} {WC : WireCodec}.

Lemma heal_step_rank sig p :
  p <> HDone -> gives (heal_step sig p) (fun p' => heal_rank p' < heal_rank p \/ still_awaiting sig p p').
Proof.
  intros Hp. destruct p as [id e t|r|r|r m n|r|r|r n|f|]; [..|done]; cbn [heal_step];
    unfold heal_begin, heal_snapshot, heal_propose, heal_await, heal_swap, heal_replay, heal_clean, heal_exit, reload_job.
  4: { destruct sig; [|gives_auto; left; simpl; lia|].
       - apply gives_bind. intros [|]; [|apply gives_ret; by right]. gives_auto; left; simpl; lia.
       - apply gives_bind. intros b. destruct b; [gives_auto; left; simpl; lia|].
         destruct (Z.ltb_spec n maxProposalJoinRetries); gives_auto; left; simpl; lia. }
  all: gives_auto; left; simpl; unfold maxProposalJoinRetries; lia.
Qed.

(** The heal has frozen the group and will unfreeze it. *)
Definition holds_freeze (p : HealPC) : Prop :=
  match p with HBegin _ _ _ | HExit false | HDone => False | _ => True end.

Lemma heal_step_freeze sig p :
  holds_freeze p -> p <> HExit true -> gives (heal_step sig p) holds_freeze.
Proof.
  intros Hp He. destruct p as [id e t|r|r|r m n|r|r|r n|[]|]; try done; cbn [heal_step];
    unfold heal_snapshot, heal_propose, heal_await, heal_swap, heal_replay, heal_clean, reload_job; by gives_auto.
Qed.

(** Several phases in a row, with what each select delivers. *)
Fixpoint run_heal (sigs : list Signal) (p : HealPC) : C HealPC :=
  match sigs with
  | [] => ret p
  | s :: rest => p' <-- heal_step s p ; run_heal rest p'
  end.

Lemma run_heal_done env sigs w : run_heal sigs HDone env w = Ok HDone w.
Proof. revert w. induction sigs as [|s sigs IH]; intros w; [done|]. apply IH. Qed.

Context {WL : WireCodecLaws} (env : Env) (Hmls : o_HasMLS (e_opts env) = true).

Notation mode w := (c_operationalMode (w_c w)).

Lemma restore_keeps w Q :
  (forall w', c_operationalMode (w_c w') = mode w -> Q tt w') -> wp env restore_group_state Q w.
Proof.
  intros HQ. unfold restore_group_state. wp_run. destruct (c_groupState (w_c w)); wp_run; [by apply HQ|].
  rewrite wp_db. destruct (Store.GetGroupRecord _ _ _ _) as [[[rec|e] t] d]; [|wp_run; by apply HQ].
  destruct (is_empty (gr_GroupState rec)); wp_run; by apply HQ.
Qed.

Lemma exit_releases f w :
  wp env (heal_exit f) (fun p w' => p = HDone /\ c_healing (w_c w') = false /\
    mode w' = if f then ModeLive else mode w) w.
Proof.
  unfold heal_exit, SetOperationalMode. destruct f; wp_run; apply restore_keeps; intros w' Hm; wp_run; done.
Qed.

Lemma begin_mode b id e at_ w :
  pc env (heal_begin b id e at_) (fun p w' => holds_freeze p \/ p = HExit false /\ mode w' = mode w) w.
Proof.
  intros p w' E. unfold heal_begin in E. destruct b.
  - right. revert p w' E. apply pc_wp. wp_run. unfold recordForkHealAudit. case_match; wp_run; [done|].
    rewrite wp_db. destruct (HealStore.RecordForkHealAudit _ _ _ _) as [[? ?] ?]. by wp_run.
  - left. refine ((_ : gives _ holds_freeze) env w p w' E). clear. by gives_auto.
Qed.

(** What a heal is bound to give back. *)
Definition owes (p : HealPC) (w : World) : Prop := holds_freeze p \/ mode w <> ModeFrozenForApply.

Lemma step_owes sig p w p' w' :
  p <> HDone -> owes p w -> heal_step sig p env w = Ok p' w' ->
  owes p' w' /\ (p' = HDone -> c_healing (w_c w') = false).
Proof.
  intros Hp Ho E. destruct p as [id e t|r|r|r m n|r|r|r n|f|]; [| | | | | | | |done].
  1: { destruct (begin_mode _ _ _ _ _ _ _ E) as [H|[-> Hm]].
       - split; [by left|]. intros ->. done.
       - split; [|done]. right. rewrite Hm. by destruct Ho. }
  7: { pose proof (exit_releases f w) as H. unfold wp in H. cbn [heal_step] in E. rewrite E in H.
       destruct H as (-> & Hh & Hm). split; [|done]. right. rewrite Hm. destruct f; [done|]. by destruct Ho. }
  all: assert (Hf : holds_freeze p') by (by eapply heal_step_freeze; [..|exact E]).
  all: split; [by left|]; intros ->; done.
Qed.

Lemma run_heal_returns sigs p w :
  unanswered env w -> pc_waiting p -> p <> HDone -> owes p w -> SigWelcome ∉ sigs ->
  heal_rank p <= Z.of_nat (length sigs) ->
  exists w', run_heal sigs p env w = Ok HDone w' /\ coord_ok env w' /\ c_healing (w_c w') = false /\
    mode w' <> ModeFrozenForApply.
Proof.
  revert p w. induction sigs as [|s sigs IH]; intros p w Hw Hp Hd Ho Hs Hr.
  { exfalso. simpl in Hr. destruct p; simpl in Hr; try lia. done. }
  apply not_elem_of_cons in Hs as [Hs1 Hs]. simpl in Hr.
  destruct (wp_Ok _ _ _ _ (phase_step env Hmls s p Hp w Hw)) as (p1 & w1 & E & Hev & Hp1).
  simpl. unfold bind. rewrite E. assert (Hw1 : unanswered env w1) by (by eapply stable).
  destruct (step_owes s p w p1 w1 Hd Ho E) as [Ho1 Hrel].
  destruct (heal_step_rank s p Hd env w p1 w1 E) as [Hlt|Ha].
  - destruct (decide (heal_rank p1 = 0)) as [Hz|Hz].
    + assert (p1 = HDone) as -> by (destruct p1; simpl in Hz; try done; lia).
      exists w1. rewrite run_heal_done. split; [done|]. split; [apply Hw1|]. split; [by apply Hrel|]. by destruct Ho1.
    + apply IH; try done; [|lia]. by intros ->.
  - destruct p; try done. destruct Ha as [-> _]. done.
Qed.
End Termination.

(** ** What a stored heal leads to *)

Section Stuck.
Context {PC : PeerCodec} {WC : WireCodec} (env : Env).

(** The outputs and the stored jobs are as before. *)
Definition no_news (w w' : World) : Prop :=
  w_trace w' = w_trace w /\ db_heal_jobs (w_db w') = db_heal_jobs (w_db w).
#[export] Instance no_news_preorder : PreOrder no_news.
Proof. split; [by intros w|]. intros w1 w2 w3 [T1 J1] [T2 J2]. split; congruence. Qed.

Lemma quiet_db {A} (m : SQL A) w Q :
  respects frame m -> (forall r w', no_news w w' -> Q r w') -> wp env (db m) Q w.
Proof.
  intros Hm HQ. rewrite wp_db. pose proof (Hm (e_sql env) (w_tick w) (w_db w)) as Hf.
  destruct (m _ _ _) as [[r t] d]. apply HQ. split; [done|]. apply Hf.
Qed.

Lemma quiet_audit id g s st t n e w Q :
  (forall w', no_news w w' -> Q tt w') -> wp env (recordForkHealAudit id g s st t n e) Q w.
Proof.
  intros HQ. unfold recordForkHealAudit. case_match; wp_run; [by apply HQ|].
  apply quiet_db; [apply RecordForkHealAudit_frame|]. intros r w' Hn. wp_run. by apply HQ.
Qed.

Lemma quiet_restore w Q : (forall w', no_news w w' -> Q tt w') -> wp env restore_group_state Q w.
Proof.
  intros HQ. unfold restore_group_state. wp_run. destruct (c_groupState (w_c w)); wp_run; [by apply HQ|].
  apply quiet_db; [apply GetGroupRecord_frame|]. intros [rec|e] w' Hn; [|wp_run; by apply HQ].
  destruct (is_empty (gr_GroupState rec)); wp_run; by apply HQ.
Qed.

Lemma quiet_exit f w Q : (forall w', no_news w w' -> Q HDone w') -> wp env (heal_exit f) Q w.
Proof.
  intros HQ. unfold heal_exit, SetOperationalMode. destruct f; wp_run; apply quiet_restore; intros w' H; wp_run; by apply HQ.
Qed.

(** From a job that has sent its proposal, every phase passes. *)
Lemma run_stuck sigs r w :
  job_Status (hr_job r) = "PROPOSAL_SENT" -> (6 <= length sigs)%nat ->
  wp env (run_heal sigs (HSnapshot r)) (fun p w' => p = HDone /\ no_news w w') w.
Proof.
  intros Hr Hl. do 6 (destruct sigs as [|? sigs]; [simpl in Hl; lia|]).
  cbn [run_heal]. assert (Hx : forall x, x <> "PROPOSAL_SENT" -> negb (str_eqb (job_Status (hr_job r)) x) = true).
  { intros x Hx. rewrite Hr. by destruct (str_eqb_spec "PROPOSAL_SENT" x). }
  do 5 (rewrite wp_bind; cbn [heal_step];
        unfold heal_snapshot, heal_propose, heal_swap, heal_replay, heal_clean; rewrite Hx, wp_ret by done).
  rewrite wp_bind. apply quiet_exit. intros w' H. unfold wp. by rewrite run_heal_done.
Qed.
End Stuck.

Section Theorems.
Context {PC : PeerCodec} {WC : WireCodec} {WL : WireCodecLaws}.

(** C21: wherever a fork heal of a run stands, when no welcome arrives and its
    phases are run to the end, it returns after those that are left, ten at
    most, whatever the timeouts and cancellations: then [healing] is released,
    the invariant holds, and the group is not left frozen, if it was not frozen
    by anything but this heal. *)
Theorem heal_returns_and_releases env w0 w p sigs :
  o_HasMLS (e_opts env) = true -> 0 < Config.BatchingDelay (o_Config (e_opts env)) ->
  coord_ok env w0 -> heal_ok w0 -> reachable env w0 w p -> p <> HDone ->
  (holds_freeze p \/ c_operationalMode (w_c w) <> ModeFrozenForApply) ->
  SigWelcome ∉ sigs -> heal_rank p <= Z.of_nat (length sigs) ->
  exists w', run_heal sigs p env w = Ok HDone w' /\ coord_ok env w' /\ c_healing (w_c w') = false /\
    c_operationalMode (w_c w') <> ModeFrozenForApply.
Proof.
  intros Hm Hd H0 Hh Hr Hp Ho Hs Hl. destruct (reachable_ok env w0 w p Hm Hd H0 Hh Hr) as [O H _ P].
  by apply run_heal_returns.
Qed.

(** Over any run in which the store holds no private key package to
    begin with, no fork heal is ever answered: whatever bytes a welcome
    carries it is turned down, no stored job gets past its join proposal, and
    a heal never reaches the swap of the group state. *)
Theorem heal_never_answered env w0 w p welcome :
  o_HasMLS (e_opts env) = true -> 0 < Config.BatchingDelay (o_Config (e_opts env)) ->
  coord_ok env w0 -> heal_ok w0 -> reachable env w0 w p ->
  (exists w', ProcessWelcomeIfWaiting welcome env w = Ok false w' /\ w_trace w' = w_trace w) /\
  Forall (fun j => job_Status j ∈ ["INITIATED"; "SNAPSHOT_CREATED"; "PROPOSAL_SENT"]) (db_heal_jobs (w_db w)) /\
  match p with HSwap r => job_Status (hr_job r) <> "EXTERNAL_JOINED" | _ => True end.
Proof.
  intros Hm Hd H0 Hh Hr. destruct (reachable_ok env w0 w p Hm Hd H0 Hh Hr) as [O H _ P]. split; [|split].
  - destruct (wp_Ok _ _ _ _ (welcome_refused env welcome w (conj O H))) as (b & w' & E & -> & _ & T). eauto.
  - destruct H as [HJ _]. eapply Forall_impl; [exact HJ|]. by intros j [_ ?].
  - destruct p; try done. simpl in P. intros E. rewrite E in P. revert P. unfold waiting_statuses. set_solver.
Qed.

(** A healing job that has sent its join proposal blocks the group: a
    later heal of the group, whatever fork it is for, finds the job, goes
    through its phases without an output and leaves the job as it is. *)
Theorem sent_heal_is_never_repeated env sigs traceID event scheduledAt j w :
  (forall t, sql_fails (e_sql env) t = None) ->
  HealStore.active_job (ForkDetector.fe_GroupID event) (db_heal_jobs (w_db w)) = Some j ->
  job_Status j = "PROPOSAL_SENT" -> (7 <= length sigs)%nat ->
  exists w', run_heal sigs (HBegin traceID event scheduledAt) env w = Ok HDone w' /\
    w_trace w' = w_trace w /\ db_heal_jobs (w_db w') = db_heal_jobs (w_db w).
Proof.
  intros Hok Hj Hst Hl. destruct sigs as [|s sigs]; [simpl in Hl; lia|].
  assert (H : wp env (run_heal (s :: sigs) (HBegin traceID event scheduledAt)) (fun p w' => p = HDone /\ no_news w w') w).
  { simpl. unfold heal_begin. wp_run. apply quiet_audit. intros w1 H1.
    assert (N1 : no_news w w1) by (by etrans; [|exact H1]). destruct N1 as [T1 J1].
    destruct s; wp_run.
    2: { destruct sigs as [|s sigs]; [simpl in Hl; lia|]. simpl. wp_run. apply quiet_exit. intros w2 [T2 J2].
         unfold wp. rewrite run_heal_done. split; [done|]. simpl in T2, J2. split; congruence. }
    all: rewrite wp_db; unfold HealStore.GetActiveForkHealingJob, sql_wrap, sql_query; rewrite Hok, J1, Hj; wp_run;
      unfold SetOperationalMode; wp_run.
    all: eapply wp_mono; [apply run_stuck; [done|simpl in Hl; lia]|]; intros p w2 [-> [T2 J2]]; split; [done|].
    all: simpl in T2, J2; split; congruence. }
  destruct (wp_Ok _ _ _ _ H) as (p & w' & E & -> & T & J). eauto.
Qed.

(** When the swap of the group state succeeds, the coordinator is on the
    winning branch, whatever epoch that is at, and satisfies the invariant:
    every component and the stored record are at the new epoch, and the
    history chain starts there; also when it fails the invariant is kept. *)
Theorem healed_state_is_consistent env newState newTreeHash newEpoch w :
  coord_ok env w -> 0 <= newEpoch ->
  exists r w', applyHealedState newState newTreeHash newEpoch env w = Ok r w' /\ coord_ok env w' /\
    (r = inl tt -> c_epoch (w_c w') = newEpoch /\ c_groupState (w_c w') = Some newState /\
       c_treeHash (w_c w') = newTreeHash /\
       c_historyChain (w_c w') = {[newEpoch := ForkDetector.initialHistoryHash (o_GroupID (e_opts env))]}).
Proof.
  intros Hw He. destruct (wp_Ok _ _ _ _ (applyHealedState_ok env newState newTreeHash newEpoch w Hw He))
    as (r & w' & E & O & H). eauto.
Qed.
End Theorems.

(** ** Witnesses *)

(** A job read from the tables at the start: "B" has to join the branch of
    "A" at epoch 3. *)
Definition demo_heal_job (status : string) : ForkHealingJob :=
  mkForkHealingJob "job-g-1" "g" "t" status "" "" 0 0 3 [] [x01] [] [] "A" [] "" [] 0 [] [] "" 0 5 5 0.
Definition demo_resumed : World := run_world (resumeForkHealingJob (demo_heal_job "INITIATED")) demo_started.

(** The fork of the heal that the resumption spawned. *)
Definition demo_event : ForkDetector.ForkEvent :=
  ForkDetector.mkForkEvent "g" "A" (mkGroupStateAnnouncement [] 0 0 [] [])
    (mkGroupStateAnnouncement [x01] 0 3 [] []) 3 BranchLocal true ["A"] (time_UnixMilli 5).

Lemma demo_resumed_reachable : reachable demo demo_started demo_resumed HDone.
Proof.
  eapply (reach_resume demo demo_started (demo_heal_job "INITIATED")); [apply reach_start|split; [done|apply list_elem_of_here]|].
  apply run_Ok. vm_compute. reflexivity.
Qed.

Lemma demo_launched : reachable demo demo_started demo_resumed (HBegin "t" demo_event (time_UnixMilli 5)).
Proof.
  apply reach_launch; [apply demo_resumed_reachable|vm_compute; reflexivity|].
  apply list_elem_of_In. vm_compute. tauto.
Qed.

Lemma heal_returns_and_releases_witness :
  exists w', run_heal (replicate 10 SigTimeout) (HBegin "t" demo_event (time_UnixMilli 5)) demo demo_resumed = Ok HDone w' /\
    coord_ok demo w' /\ c_healing (w_c w') = false /\ c_operationalMode (w_c w') <> ModeFrozenForApply.
Proof.
  apply (heal_returns_and_releases demo demo_started); [reflexivity|reflexivity|apply demo_started_ok|apply demo_heal_ok
    |apply demo_launched|discriminate| | |cbn; lia].
  - right. vm_compute. discriminate.
  - intros H. apply elem_of_replicate in H as [H _]. discriminate H.
Defined.

(** The heal asks to join, is not answered, and leaves a job behind. *)
Example demo_heal_times_out :
  match run_heal (replicate 10 SigTimeout) (HBegin "t" demo_event (time_UnixMilli 5)) demo demo_resumed with
  | Ok HDone w' => (length (published (w_trace w')) = 3%nat /\ (job_Status <$> db_heal_jobs (w_db w')) = ["PROPOSAL_SENT"])
  | _ => False
  end.
Proof. vm_compute. split; reflexivity. Qed.

Lemma heal_never_answered_witness :
  exists w', ProcessWelcomeIfWaiting [x01] demo demo_resumed = Ok false w' /\ w_trace w' = w_trace demo_resumed.
Proof.
  refine (proj1 (heal_never_answered demo demo_started demo_resumed HDone [x01] _ _ _ _ _));
    [reflexivity|reflexivity|apply demo_started_ok|apply demo_heal_ok|apply demo_resumed_reachable].
Defined.

Definition demo_waiting : World :=
  mkWorld (w_c demo_started) (set_db_heal_jobs [demo_heal_job "PROPOSAL_SENT"] db_empty) 0 [].

Lemma sent_heal_is_never_repeated_witness :
  exists w', run_heal (replicate 7 SigTimeout) (HBegin "t2" demo_event 0) demo demo_waiting = Ok HDone w' /\
    w_trace w' = [] /\ db_heal_jobs (w_db w') = [demo_heal_job "PROPOSAL_SENT"].
Proof.
  apply (sent_heal_is_never_repeated demo (replicate 7 SigTimeout) "t2" demo_event 0 (demo_heal_job "PROPOSAL_SENT") demo_waiting);
    [reflexivity|vm_compute; reflexivity|reflexivity|cbn; lia].
Defined.

Lemma healed_state_is_consistent_witness :
  exists r w', applyHealedState [x31] [x32] 3 demo demo_started = Ok r w' /\ coord_ok demo w' /\
    (r = inl tt -> c_epoch (w_c w') = 3).
Proof.
  destruct (healed_state_is_consistent demo [x31] [x32] 3 demo_started demo_started_ok ltac:(lia)) as (r & w' & E & O & H).
  exists r, w'. split; [exact E|]. split; [exact O|]. intros Hr. exact (proj1 (H Hr)).
Defined.

Example demo_swapped : run_value (applyHealedState [x31] [x32] 3) demo_started = Some (inl tt).
Proof. vm_compute. reflexivity. Qed.
