(* ===== verification/CoordReplaySpec.v ===== *)
(** * Correctness of replays and member requests

    What is sealed opens again, how an outbox is cut into batches, which
    events a replay finds, and that a repeated request changes nothing. *)
From S2P Require Import Prelude Sha256 Types Config Hlc Epoch ActiveView SingleWriter.
From S2P Require Import ForkDetector Helpers Database Store StoreSpec HealStore Coordinator.
From S2P Require Import CoordBroadcast CoordApplication CoordCommit CoordMessage CoordLogic.
From S2P Require Import CoordMembers CoordReplay CoordDemo.

(** ** Batches *)

Lemma chunks_nil {A} fuel n : chunks fuel n ([] : list A) = [].
Proof. by destruct fuel. Qed.

Lemma chunks_lookup {A} fuel n (l : list A) i :
  (0 < n)%nat -> (length l <= fuel)%nat ->
  chunks fuel n l !! i = if decide (i * n < length l)%nat then Some (take n (drop (i * n) l)) else None.
Proof.
  intros Hn. revert l i. induction fuel as [|fuel IH]; intros l i Hl.
  { destruct l; [|simpl in Hl; lia]. by rewrite decide_False by (simpl; lia). }
  destruct l as [|x l]; [rewrite chunks_nil, lookup_nil; by rewrite decide_False by (simpl; lia)|].
  cbn [chunks]. destruct i as [|i].
  - simpl lookup. by rewrite decide_True by (simpl; lia).
  - cbn [lookup list_lookup]. rewrite IH by (rewrite length_drop; simpl in *; lia).
    rewrite length_drop, drop_drop. simpl (S i * n)%nat.
    destruct (decide (i * n < length (x :: l) - n)%nat); [rewrite decide_True by lia|by rewrite decide_False by lia].
    done.
Qed.

Lemma chunks_join {A} fuel n (l : list A) :
  (0 < n)%nat -> (length l <= fuel)%nat -> mjoin (chunks fuel n l) = l.
Proof.
  intros Hn. revert l. induction fuel as [|fuel IH]; intros l Hl; [destruct l; [done|simpl in Hl; lia]|].
  destruct l as [|x l]; [done|]. cbn [chunks]. cbn [mjoin list_join].
  rewrite IH by (rewrite length_drop; simpl in *; lia). apply take_drop.
Qed.

(** The batches of an outbox are the slices of the code's loop: batch
    [i] is [events[50*i : min(50*i+50, len(events))]], there is one for each
    [i] with [50*i < len(events)], and together they are the events in order,
    none lost and none repeated. *)
Theorem outbox_batches_partition {A} (l : list A) :
  mjoin (chunks (length l) MaxBatchSize l) = l /\
  forall i, chunks (length l) MaxBatchSize l !! i =
    if decide (i * MaxBatchSize < length l)%nat then Some (take MaxBatchSize (drop (i * MaxBatchSize) l)) else None.
Proof.
  assert (0 < MaxBatchSize)%nat by (unfold MaxBatchSize; lia).
  split; [by apply chunks_join|]. intros i. by apply chunks_lookup.
Qed.

(** ** Sealing *)

(** What AES-GCM promises: with the same key and nonce a sealed text opens,
    and sealing adds a tag. *)
Record gcm_laws (env : Env) : Prop := {
  gcm_open_seal : forall k n p, gcm_Open env k n (gcm_Seal env k n p) = inl p;
  gcm_tagged : forall k n p, gcm_Seal env k n p <> [];
  gcm_nonces : forall t n, e_nonce env t = Some n -> n <> [];
}.

(** A payload sealed under the key derived from a signing key opens
    under it to the same plaintext; sealing fails only when no nonce can be
    drawn. *)
Theorem sealed_payload_opens env signingKey plaintext w r w' :
  gcm_laws env -> sealPayload plaintext (deriveStorageKey signingKey) env w = Ok r w' ->
  match r with
  | inl (ct, nonce) =>
      forall w1, openPayload ct nonce (deriveStorageKey signingKey) env w1 = Ok (inl plaintext) w1
  | inr _ => e_nonce env (w_tick w) = None
  end.
Proof.
  intros [Hopen Htag Hn] E. assert (Hk : aes_key_ok (deriveStorageKey signingKey) = true).
  { unfold aes_key_ok, deriveStorageKey. apply bool_decide_eq_true. rewrite Sha256.length_sha256. set_solver. }
  unfold sealPayload in E. rewrite Hk in E. unfold bind, ask in E. simpl in E.
  destruct (e_nonce env (w_tick w)) as [n|] eqn:En; injection E as <- _; [|done].
  intros w1. unfold openPayload. rewrite Hk.
  destruct (is_empty (gcm_Seal _ _ _ _)) eqn:E1; [apply is_empty_true in E1; by apply Htag in E1|].
  destruct (is_empty n) eqn:E2; [apply is_empty_true in E2; by apply Hn in En|].
  simpl. unfold envs. by rewrite Hopen.
Qed.

(** ** Which events a replay finds *)

(** The jobs under which events are saved: those of received batches, those
    kept after a commit, and those of a heal. *)
Definition event_owned (ev : ApplicationEvent) : Prop :=
  ae_JobID ev = "" \/ (exists g, ae_JobID ev = "COMMIT-RECONCILE-" +:+ g) \/ exists x, ae_JobID ev = "job-" +:+ x.

(** The replay that every commit starts is for a job of its own, under
    which no event is saved: it finds nothing, sends nothing and leaves the
    coordinator and the tables as they are. *)
Theorem winner_replay_sends_nothing env groupID w :
  Forall event_owned (db_app_events (w_db w)) ->
  exists w', batch_replay_task groupID env w = Ok tt w' /\
    w_c w' = w_c w /\ w_db w' = w_db w /\ w_trace w' = w_trace w.
Proof.
  intros Hown.
  assert (H : wp env (batch_replay_task groupID)
    (fun _ w' => w_c w' = w_c w /\ w_db w' = w_db w /\ w_trace w' = w_trace w) w).
  { unfold batch_replay_task, batchAndReplayOutbox. wp_run. rewrite wp_db.
    unfold HealStore.ListApplicationEvents, sql_wrap, sql_query. cbn [w_db tick].
    destruct (sql_fails _ _); [by wp_run|].
    match goal with |- context [filter ?P (db_app_events (w_db w))] =>
      assert (E : filter P (db_app_events (w_db w)) = []) end.
    { destruct (filter _ _) as [|ev l] eqn:E; [done|]. exfalso.
      assert (Hin : ev ∈ filter (fun e => ae_JobID e = "WINNER-REPLAY-" +:+ groupID +:+ "-" +:+
        pretty.pretty (UnixNano (e_clock env (w_tick w)))) (db_app_events (w_db w))) by (rewrite E; constructor).
      apply list_elem_of_filter in Hin as [Hj Hin]. rewrite Forall_forall in Hown.
      destruct (Hown ev Hin) as [Ho|[[g Ho]|[x Ho]]]; rewrite Ho in Hj; discriminate Hj. }
    rewrite E. simpl. by wp_run. }
  destruct (wp_Ok _ _ _ _ H) as ([] & w' & E & R). eauto.
Qed.

(** An event that is saved again under the same id, as a heal does with
    a message that was kept after a commit, stays with the first job and the
    first nonce but gets the second ciphertext: the replay of the second job
    does not list it, and its payload no longer goes with its nonce. *)
Theorem resealed_event_is_lost old new env t d u1 t1 d1 u2 t2 d2 evs t3 d3 :
  ae_EventID new = ae_EventID old -> ae_JobID new <> ae_JobID old ->
  (forall e, e ∈ db_app_events d -> ae_EventID e <> ae_EventID old) ->
  HealStore.SaveApplicationEvent old env t d = (inl u1, t1, d1) ->
  HealStore.SaveApplicationEvent new env t1 d1 = (inl u2, t2, d2) ->
  HealStore.ListApplicationEvents (ae_JobID new) env t2 d2 = (inl evs, t3, d3) ->
  (forall e, e ∈ evs -> ae_EventID e <> ae_EventID old) /\
  exists row, row ∈ db_app_events d2 /\ ae_EventID row = ae_EventID old /\ ae_JobID row = ae_JobID old /\
    ae_SealNonce row = ae_SealNonce old /\ ae_PayloadSealed row = ae_PayloadSealed new.
Proof.
  intros Hid Hjob Hfresh E1 E2 E3. apply HealStore.SaveApplicationEvent_inl in E1 as ->.
  apply HealStore.SaveApplicationEvent_inl in E2 as ->. apply wrap_inl, query_inl in E3 as [-> _]. cbn [db_app_events set_db_app_events] in *.
  rewrite (HealStore.upsert_new ae_EventID _ old), (HealStore.upsert_again ae_EventID _ old new) by done. split.
  - intros e. rewrite stable_sort_elem, list_elem_of_filter, elem_of_app, list_elem_of_singleton.
    intros [Hj [He| ->]]; [by apply Hfresh|]. by destruct Hjob.
  - exists (HealStore.event_merge old new). split; [|done]. set_solver.
Qed.

(** ** Repeated requests *)

Section Requests.
Context {PC : PeerCodec} {WC : WireCodec}.
Context (env : Env) (Hok : forall t, sql_fails (e_sql env) t = None) (self : Call -> C bool).

(** The operation a request is taken for: by its id, else by the target. *)
Definition journalled (opID idKey : string) (d : DB) : option PendingOperation :=
  let usable o := if op_done o || str_eqb (po_Status o) "PROPOSED" then Some o else None in
  match (if str_eqb opID "" then None
         else head (filter (fun o => po_OperationID o = opID) (db_pending_ops d)) ≫= usable) with
  | Some o => Some o
  | None => head (filter (fun o => po_GroupID o = o_GroupID (e_opts env) /\ po_IdempotencyKey o = Some idKey)
                   (db_pending_ops d)) ≫= usable
  end.

(** A storage read moves only the instant. *)
Definition only_ticks (w w' : World) : Prop :=
  w_c w' = w_c w /\ w_db w' = w_db w /\ w_trace w' = w_trace w.

Lemma wp_known opID idKey w :
  wp env (known_operation opID idKey) (fun o w' => o = journalled opID idKey (w_db w) /\ only_ticks w w') w.
Proof.
  unfold known_operation, journalled. cbv zeta.
  assert (Hkey : forall w0, w_db w0 = w_db w -> only_ticks w w0 -> wp env
    (gid <-- opts o_GroupID ; r <-- db (HealStore.GetPendingOperationByIdempotencyKey gid idKey) ;
     ret (match r with inl o => if op_done o || str_eqb (po_Status o) "PROPOSED" then Some o else None | inr _ => None end))
    (fun o w' => o = head (filter (fun o => po_GroupID o = o_GroupID (e_opts env) /\ po_IdempotencyKey o = Some idKey)
       (db_pending_ops (w_db w))) ≫= (fun o => if op_done o || str_eqb (po_Status o) "PROPOSED" then Some o else None)
       /\ only_ticks w w') w0).
  { intros w0 Hd [Hc [_ Ht]]. wp_run. rewrite wp_db. unfold HealStore.GetPendingOperationByIdempotencyKey, sql_bind, sql_wrap, sql_query.
    rewrite Hok, Hd. destruct (head _) as [o|]; unfold sql_ret, sql_throw; wp_run; by split. }
  rewrite wp_bind. destruct (str_eqb opID ""); [rewrite wp_ret; by apply Hkey|]. rewrite wp_bind, wp_db. unfold HealStore.GetPendingOperation, sql_bind, sql_wrap, sql_query. rewrite Hok.
  destruct (head (filter (fun o => po_OperationID o = opID) _)) as [o|]; unfold sql_ret, sql_throw; cbn beta iota; rewrite wp_ret; simpl; [|by apply Hkey].
  destruct (op_done o || str_eqb (po_Status o) "PROPOSED"); [wp_run; by split|by apply Hkey].
Qed.

(** A request to add a member that is already journalled as proposed or
    done, under its own id or for the same peer, changes nothing and reports
    the journalled operation; so a peer that was added, and removed since, is
    never added again. *)
Theorem add_member_idempotent req o w :
  c_started (w_c w) = true -> c_accessRevoked (w_c w) = false -> ar_KeyPackageBytes req <> [] ->
  journalled (ar_OperationID req) ("add_member_" +:+ peer_String (ar_TargetPeerID req)) (w_db w) = Some o ->
  exists r w', AddMember self req env w = Ok (inl r) w' /\
    res_OperationID r = po_OperationID o /\ res_Deferred r = negb (op_done o) /\
    w_c w' = w_c w /\ w_db w' = w_db w /\ w_trace w' = w_trace w.
Proof.
  intros Hs Hr Hk Hj. assert (H : wp env (AddMember self req) (fun r w' => exists r', r = inl r' /\
    res_OperationID r' = po_OperationID o /\ res_Deferred r' = negb (op_done o) /\ only_ticks w w') w).
  { unfold AddMember. wp_run. rewrite Hs, Hr. simpl. apply is_empty_false in Hk. rewrite Hk. cbv zeta. rewrite wp_bind.
    eapply wp_mono; [apply wp_known|]. intros x w' [-> Ht]. rewrite Hj. wp_run. eexists. split; [done|].
    by destruct (op_done o). }
  destruct (wp_Ok _ _ _ _ H) as (? & w' & E & r & -> & ? & ? & ?). eauto 8.
Qed.
End Requests.

(** ** Witnesses *)

Lemma demo_gcm_laws : gcm_laws demo.
Proof. split; try done. by intros t n [= <-]. Qed.

Definition demo_sealed : World := run_world (sealPayload [x61; x62] (deriveStorageKey [])) demo_started.

Lemma sealed_payload_opens_witness :
  openPayload [x08; x61; x62] [x07] (deriveStorageKey []) demo demo_started = Ok (inl [x61; x62]) demo_started.
Proof.
  apply (sealed_payload_opens demo [] [x61; x62] demo_started (inl ([x08; x61; x62], [x07])) demo_sealed demo_gcm_laws).
  apply run_Ok. vm_compute. reflexivity.
Defined.

Definition demo_app_event (job : string) (payload nonce : bytes) : ApplicationEvent :=
  mkApplicationEvent "e1" job "g" "" 1 "B" [x41] payload [x42] "local_node_key" nonce 7 0 "B" "ORPHANED_OWN" "" [] 0 0 "" 9 9.
Definition demo_kept : World :=
  mkWorld (w_c demo_started) (set_db_app_events [demo_app_event "COMMIT-RECONCILE-g" [x51] [x61]] db_empty) 0 [].

Lemma winner_replay_sends_nothing_witness :
  exists w', batch_replay_task "g" demo demo_kept = Ok tt w' /\
    w_c w' = w_c demo_kept /\ w_db w' = w_db demo_kept /\ w_trace w' = [].
Proof.
  apply (winner_replay_sends_nothing demo "g" demo_kept). constructor; [|constructor].
  right. left. exists "g". reflexivity.
Defined.

(** The message is kept after a commit, then taken by the snapshot of a heal. *)
Definition demo_save1 : result unit * nat * DB :=
  HealStore.SaveApplicationEvent (demo_app_event "COMMIT-RECONCILE-g" [x51] [x61]) HealStore.demo_env O db_empty.
Definition demo_save2 : result unit * nat * DB :=
  HealStore.SaveApplicationEvent (demo_app_event "job-g-1" [x52] [x62]) HealStore.demo_env demo_save1.1.2 demo_save1.2.
Definition demo_listed : result (list ApplicationEvent) * nat * DB :=
  HealStore.ListApplicationEvents "job-g-1" HealStore.demo_env demo_save2.1.2 demo_save2.2.

Lemma resealed_event_is_lost_witness :
  exists row, row ∈ db_app_events demo_save2.2 /\ ae_JobID row = "COMMIT-RECONCILE-g" /\
    ae_SealNonce row = [x61] /\ ae_PayloadSealed row = [x52].
Proof.
  destruct (resealed_event_is_lost (demo_app_event "COMMIT-RECONCILE-g" [x51] [x61]) (demo_app_event "job-g-1" [x52] [x62])
    HealStore.demo_env O db_empty tt demo_save1.1.2 demo_save1.2 tt demo_save2.1.2 demo_save2.2
    [] demo_listed.1.2 demo_listed.2) as (_ & row & H1 & _ & H2 & H3 & H4).
  - reflexivity.
  - discriminate.
  - intros e He. by apply not_elem_of_nil in He.
  - vm_compute. reflexivity.
  - vm_compute. reflexivity.
  - vm_compute. reflexivity.
  - exact (ex_intro _ row (conj H1 (conj H2 (conj H3 H4)))).
Defined.

(** "C" was added and has been removed since. *)
Definition demo_op (id ty key : string) : PendingOperation :=
  mkPendingOperation id "g" ty (Some key) [] (Some 0) [] (Some "C") [x01] [] "COMMITTED" 0 None None 0 0.
Definition demo_removed : World :=
  mkWorld (w_c demo_started) (set_db_pending_ops [demo_op "op1" "ADD_MEMBER" "add_member_C";
    demo_op "op2" "REMOVE_MEMBER" "remove_member_C"] db_empty) 0 [].

Lemma add_member_idempotent_witness :
  exists r w', AddMember (run 1) (mkAddMemberRequest "C" [x01] "op3" "" "" "" []) demo demo_removed = Ok (inl r) w' /\
    res_OperationID r = "op1" /\ res_Deferred r = false /\ w_trace w' = [].
Proof.
  destruct (add_member_idempotent demo (fun _ => eq_refl) (run 1) (mkAddMemberRequest "C" [x01] "op3" "" "" "" [])
    (demo_op "op1" "ADD_MEMBER" "add_member_C") demo_removed) as (r & w' & E & H1 & H2 & _ & _ & H3).
  - vm_compute. reflexivity.
  - vm_compute. reflexivity.
  - discriminate.
  - vm_compute. reflexivity.
  - exact (ex_intro _ r (ex_intro _ w' (conj E (conj H1 (conj H2 H3))))).
Defined.
