(* ===== verification/Node.v ===== *)
(** * A node: the coordinators of its groups over one database

    [service.Runtime] keeps a coordinator per group ([Runtime.coordinators] of
    [service/runtime.go]); all of them write to the same SQLite file.  The
    theorems about one coordinator are about a world in which the tables
    belong to it alone; here they are lifted to a node whose coordinators take
    turns. *)
From S2P Require Import Prelude Sha256 Types Config Hlc Epoch ActiveView SingleWriter.
From S2P Require Import ForkDetector Helpers Database Store StoreSpec HealStore Coordinator.
From S2P Require Import CoordBroadcast CoordApplication CoordCommit CoordMessage CoordLogic.
From S2P Require Import CoordReplay CoordHeal CoordInv CoordSafe CoordSafeCommit CoordSafeHeal CoordEvents.
From S2P Require Import CoordStart CoordDemo CoordSpec.

(** ** State *)

(** The coordinator of each group with what it has put out, the tables, the
    number of external calls made so far, and the clock: [Runtime.hlc] is one
    object that every coordinator is given, so a coordinator's own clock field
    is only read while it runs. *)
Record Node := mkNode {
  n_coords : gmap string (Coord * list Effect);
  n_db : DB;
  n_tick : nat;
  n_hlc : Hlc.HLC;
}.

(** What the coordinators share, and the options of each. *)
Record NodeEnv := mkNodeEnv {
  ne_shared : Env;
  ne_opts : string -> Opts;
}.

Definition with_opts (o : Opts) (e : Env) : Env :=
  mkEnv o (e_sql e) (e_clock e) (e_random e) (e_connected e) (e_subscribe e) (e_known_order e)
    (ed25519_public e) (e_nonce e) (gcm_Seal e) (gcm_Open e) (mls_CreateGroup e) (mls_CreateProposal e)
    (mls_ProcessProposal e) (mls_CreateCommit e) (mls_StageCommit e) (mls_ProcessCommit e) (mls_HasMember e)
    (mls_EncryptMessage e) (mls_DecryptMessage e) (mls_GenerateKeyPackage e) (mls_ProcessWelcome e).

Definition env_of (ne : NodeEnv) (g : string) : Env := with_opts (ne_opts ne g) (ne_shared ne).

(** The world that the coordinator of a group sees. *)
Definition world_of (ct : Coord * list Effect) (n : Node) : World :=
  mkWorld (set_c_hlc (n_hlc n) ct.1) (n_db n) (n_tick n) ct.2.
Definition put_world (g : string) (w : World) (n : Node) : Node :=
  mkNode (<[g := (w_c w, w_trace w)]> (n_coords n)) (w_db w) (w_tick w) (c_hlc (w_c w)).

(** Calling a method of the coordinator of a group: [None] when there is no
    such coordinator, when it panics or runs out of fuel. *)
Definition on_group {A} (ne : NodeEnv) (g : string) (m : C A) (n : Node) : option (A * Node) :=
  ct ← n_coords n !! g;
  match m (env_of ne g) (world_of ct n) with
  | Ok a w => Some (a, put_world g w n)
  | _ => None
  end.

(** Calling the storage, as the services do. *)
Definition on_storage {A} (ne : NodeEnv) (m : SQL A) (n : Node) : result A * Node :=
  match m (e_sql (ne_shared ne)) (n_tick n) (n_db n) with
  | (r, t, d) => (r, mkNode (n_coords n) d t (n_hlc n))
  end.

(** ** Invariant *)

Section Invariant.
Context {PC : PeerCodec} {WC : WireCodec}.
Variable ne : NodeEnv.

(** Every coordinator satisfies its invariant in the world it sees, and no
    heal of it has been answered. *)
Record node_ok (n : Node) : Prop := {
  nok_coords : forall g ct, n_coords n !! g = Some ct -> coord_ok (env_of ne g) (world_of ct n);
  nok_heals : forall g ct, n_coords n !! g = Some ct -> heal_ok (world_of ct n);
}.

(** The options are those of the group, with an MLS engine and a batching
    delay, as in the default configuration. *)
Record env_ok : Prop := {
  eok_group : forall g, o_GroupID (ne_opts ne g) = g;
  eok_mls : forall g, o_HasMLS (ne_opts ne g) = true;
  eok_delay : forall g, 0 < Config.BatchingDelay (o_Config (ne_opts ne g));
}.

(** A change of the tables by the coordinator of [g] that another coordinator
    does not notice. *)
Record unnoticed (g : string) (d d' : DB) : Prop := {
  un_applied : applied_mono d d';
  un_others : forall g', g' <> g -> db_groups d' !! g' = db_groups d !! g';
  un_ops : Forall op_targeted (db_pending_ops d');
  un_jobs : Forall job_waiting (db_heal_jobs d) -> Forall job_waiting (db_heal_jobs d');
}.

Lemma unnoticed_coord g g' ct n n' :
  o_GroupID (ne_opts ne g') = g' -> g' <> g -> unnoticed g (n_db n) (n_db n') ->
  coord_ok (env_of ne g') (world_of ct n) -> coord_ok (env_of ne g') (world_of ct n').
Proof.
  intros Hg Hne [A G O J] [HC [HG _] HT]. split; simpl in *; [by eapply same_core_components; [|exact HC]| |by eapply trace_ok_mono].
  rewrite Hg in HG. split; [|done]. simpl. rewrite Hg, G by done. exact HG.
Qed.

Lemma unnoticed_heal g ct n n' :
  unnoticed g (n_db n) (n_db n') -> heal_ok (world_of ct n) -> heal_ok (world_of ct n').
Proof. intros [_ _ _ J] [HJ HS]. split; simpl in *; auto. Qed.

Lemma extends_unnoticed g w w' :
  o_GroupID (ne_opts ne g) = g -> coord_ok (env_of ne g) w' -> extends (env_of ne g) w w' ->
  (Forall job_waiting (db_heal_jobs (w_db w)) -> Forall job_waiting (db_heal_jobs (w_db w'))) ->
  unnoticed g (w_db w) (w_db w').
Proof.
  intros Hg [_ [_ HO] _] [_ _ A G _ _ _] HJ. split; [done| |done|done]. intros g' Hne. apply G. simpl. by rewrite Hg.
Qed.

(** A method that keeps the invariant of its coordinator keeps the node's. *)
Lemma put_world_ok g ct w' n :
  env_ok -> node_ok n -> n_coords n !! g = Some ct ->
  coord_ok (env_of ne g) w' -> extends (env_of ne g) (world_of ct n) w' -> node_ok (put_world g w' n).
Proof.
  intros [Hg _ _] [HC HH] Hct O X.
  assert (Hh : heal_ok w') by (by apply X, HH with g).
  assert (U : unnoticed g (n_db n) (w_db w')).
  { apply (extends_unnoticed g (world_of ct n) w'); auto. intros _. apply Hh. }
  split; intros g' ct'; simpl; (destruct (decide (g' = g)) as [->|Hne];
    [rewrite lookup_insert_eq; intros [= <-]|rewrite lookup_insert_ne by done; intros E]).
  - by destruct w' as [[] ? ? ?].
  - by apply (unnoticed_coord g g' ct' n (put_world g w' n)); auto.
  - by destruct w' as [[] ? ? ?].
  - by apply (unnoticed_heal g ct' n (put_world g w' n)); eauto.
Qed.

(** So does a storage call that keeps what coordinators rely on. *)
Definition settled_db (d d' : DB) : Prop :=
  db_groups d' = db_groups d /\ db_pending_ops d' = db_pending_ops d /\
  db_heal_jobs d' = db_heal_jobs d /\ applied_mono d d'.

Lemma frame_settled d d' : frame d d' -> settled_db d d'.
Proof. by intros (G & O & J & _ & A). Qed.

Lemma on_storage_ok {A} (m : SQL A) n :
  settled_db (n_db n) (on_storage ne m n).2.(n_db) -> node_ok n -> node_ok (on_storage ne m n).2.
Proof.
  intros Hm [HC HH]. unfold on_storage in *. destruct (m _ _ _) as [[r t] d].
  destruct Hm as (G & O & J & Ap). simpl in *. split; intros g ct Hct; simpl in *.
  - destruct (HC g ct Hct) as [C [S1 S2] T]. split; simpl in *; [done| |by eapply trace_ok_mono].
    split; simpl; rewrite ?G, ?O; done.
  - destruct (HH g ct Hct) as [HJ HS]. split; simpl in *; [by rewrite J|done].
Qed.
End Invariant.

(** ** Runs of a node *)

Section Runs.
Context {PC : PeerCodec} {WC : WireCodec} {WL : WireCodecLaws}.
Variable ne : NodeEnv.

(** The nodes that running coordinators, in any order, leads to: events with
    as much depth as they need, phases of fork heals, welcomes and resumed
    heals. *)
Inductive node_run (n0 : Node) : Node -> Prop :=
| run_start : node_run n0 n0
| run_event g ev fuel ct n n' :
    node_run n0 n -> n_coords n !! g = Some ct -> (depth_for ev (world_of ct n) <= fuel)%nat ->
    on_group ne g (handle_event fuel ev) n = Some (tt, n') -> node_run n0 n'
| run_phase g sig p p' n n' :
    node_run n0 n -> pc_waiting p -> on_group ne g (heal_step sig p) n = Some (p', n') -> node_run n0 n'
| run_welcome g bs b n n' :
    node_run n0 n -> on_group ne g (ProcessWelcomeIfWaiting bs) n = Some (b, n') -> node_run n0 n'
| run_resume g job n n' :
    node_run n0 n -> job_waiting job -> on_group ne g (resumeForkHealingJob job) n = Some (tt, n') -> node_run n0 n'.

(** What a run leaves of the coordinators: none disappears, each has only
    grown, and cursors of pulls stay. *)
Record node_grown (n n' : Node) : Prop := {
  ng_coords : forall g ct, n_coords n !! g = Some ct ->
    exists ct', n_coords n' !! g = Some ct' /\ c_epoch ct.1 <= c_epoch ct'.1;
  ng_applied : applied_mono (n_db n) (n_db n');
  ng_cursors : db_pull_cursors (n_db n') = db_pull_cursors (n_db n);
}.
#[export] Instance node_grown_preorder : PreOrder node_grown.
Proof.
  split; [intros n; split; [|reflexivity|done]; intros g ct H; exists ct; split; [done|lia]|].
  intros n1 n2 n3 [C1 A1 P1] [C2 A2 P2]. split; [|by etrans|congruence]. intros g ct H.
  destruct (C1 g ct H) as (ct2 & H2 & L2). destruct (C2 g ct2 H2) as (ct3 & H3 & L3).
  exists ct3. split; [done|lia].
Qed.

(** A method that keeps the invariant, called on a node. *)
Lemma on_group_ok {A} g (m : C A) n a n' :
  env_ok ne -> node_ok ne n ->
  (forall ct w', n_coords n !! g = Some ct -> m (env_of ne g) (world_of ct n) = Ok a w' ->
     coord_ok (env_of ne g) w' /\ extends (env_of ne g) (world_of ct n) w') ->
  on_group ne g m n = Some (a, n') -> node_ok ne n' /\ node_grown n n'.
Proof.
  intros He Hn Hm E. unfold on_group in E. destruct (n_coords n !! g) as [ct|] eqn:Hct; [|done]. simpl in E.
  destruct (m _ _) as [b w'| |] eqn:Em; [|done..]. injection E as -> <-.
  destruct (Hm ct w' eq_refl Em) as [O X].
  split; [by eapply put_world_ok|]. split; [|apply X|apply X]. intros g' ct' Hct'. simpl.
  destruct (decide (g' = g)) as [->|Hne].
  - rewrite lookup_insert_eq. eexists. split; [done|]. simpl. simplify_eq. apply X.
  - rewrite lookup_insert_ne by done. exists ct'. split; [done|lia].
Qed.

Lemma evolves_run {A} env (m : C A) w b w' :
  wp env m (fun _ w' => evolves env ∅ w w') w -> coord_ok env w -> m env w = Ok b w' ->
  coord_ok env w' /\ extends env w w'.
Proof. unfold wp. intros H Hw E. rewrite E in H. by destruct (H Hw) as (? & ? & _). Qed.

Lemma node_run_ok n0 n : env_ok ne -> node_ok ne n0 -> node_run n0 n -> node_ok ne n /\ node_grown n0 n.
Proof.
  intros He H0. pose proof (eok_mls _ He) as Hm. pose proof (eok_delay _ He) as Hd.
  induction 1 as [|g ev fuel ct n n' _ [IH G] Hct Hf E|g sig p p' n n' _ [IH G] Hp E|g bs b n n' _ [IH G] E
    |g job n n' _ [IH G] Hj E]; [by split|..].
  all: match type of E with on_group _ ?g ?m _ = Some (?a, _) =>
         destruct (on_group_ok g m n a n' He IH) as [? ?]; [|exact E|split; [done|by etrans]] end.
  all: intros ct' w' Hct' Ew; pose proof (nok_coords _ _ IH _ _ Hct') as Hw; pose proof (nok_heals _ _ IH _ _ Hct') as Hh.
  - simplify_eq. destruct (event_step (env_of ne g) fuel ev (world_of ct n)) as (w1 & Ee & O & X); [apply Hm|apply Hd|done|done|].
    rewrite Ew in Ee. by injection Ee as <-.
  - pose proof (phase_step (env_of ne g) (Hm g) sig p Hp _ (conj Hw Hh)) as Hs. unfold wp in Hs. rewrite Ew in Hs.
    destruct Hs as [Hs _]. by destruct (Hs Hw) as (? & ? & _).
  - pose proof (welcome_refused (env_of ne g) bs _ (conj Hw Hh)) as Hs. unfold wp in Hs. rewrite Ew in Hs.
    destruct Hs as (_ & Hs & _). by destruct (Hs Hw) as (? & ? & _).
  - eapply evolves_run; [|done..]. by apply safe_resume.
Qed.

(** C6: Groups do not interfere.  In every run of a node, events of any group are
    handled to the end, leave the coordinators of all other groups and the
    records of their groups as they are, and after any sequence of events each
    group's envelopes have been delivered at most once and its record is at
    the epoch of its coordinator, although all share one database. *)
Theorem groups_do_not_interfere n0 n g ev fuel ct :
  env_ok ne -> node_ok ne n0 -> node_run n0 n ->
  n_coords n !! g = Some ct -> (depth_for ev (world_of ct n) <= fuel)%nat ->
  exists n', on_group ne g (handle_event fuel ev) n = Some (tt, n') /\
    (forall g', g' <> g -> n_coords n' !! g' = n_coords n !! g' /\ db_groups (n_db n') !! g' = db_groups (n_db n) !! g') /\
    forall g' c tr, n_coords n' !! g' = Some (c, tr) ->
      NoDup (delivered tr) /\
      (forall h, h ∈ delivered tr -> is_Some (db_applied (n_db n') !! (g', h))) /\
      (forall row, db_groups (n_db n') !! g' = Some row -> gr_Epoch (grow_rec row) = c_epoch c).
Proof.
  intros He H0 Hr Hct Hf. destruct (node_run_ok n0 n He H0 Hr) as [Hn _].
  destruct (event_step (env_of ne g) fuel ev (world_of ct n)) as (w' & E & O & X);
    [apply He..|by apply Hn|done|]. exists (put_world g w' n).
  assert (Hn' : node_ok ne (put_world g w' n)) by (by eapply put_world_ok).
  split; [unfold on_group; rewrite Hct; simpl; by rewrite E|]. split.
  - intros g' Hne. simpl. rewrite lookup_insert_ne by done. split; [done|]. apply X. simpl. by rewrite (eok_group _ He).
  - intros g' c tr Hc. destruct (nok_coords _ _ Hn' _ _ Hc) as [_ [HG _] [HO HD _]].
    unfold is_applied in HD. simpl in *. rewrite (eok_group _ He) in HG, HD. split; [done|]. split; [|done]. by apply Forall_forall.
Qed.
End Runs.
