(* ===== verification/OfflineSync.v ===== *)
(** * Offline synchronisation

    [adapter/p2p/offline_wire.go], [service/offline_sync.go] and
    [service/recovery_replay.go]: a node that was away asks a peer for the
    envelopes it has logged since a cursor, replays them into its
    coordinators, moves the cursor and acknowledges.

    The responder reads its tables between writes to the stream; the puller is
    a goroutine that takes a coordinator's mutex for one envelope at a time, so
    it is a state machine, [Pull], between whose steps coordinators run. *)
From S2P Require Import Prelude GoStrings Sha256 Types Config Hlc Epoch ActiveView SingleWriter.
From S2P Require Import ForkDetector Helpers Database Store StoreSpec HealStore AppDatabase Wire Runtime Auth.
From S2P Require Import Coordinator CoordBroadcast CoordApplication CoordCommit CoordMessage Node.

(** ** Messages *)

Record OfflineSyncRequestGroup := mkReqGroup { rg_GroupID : string; rg_AfterSeq : Z }.
Record OfflineSyncRequestV1 := mkSyncRequest { sq_V : Z; sq_Groups : list OfflineSyncRequestGroup }.
Record OfflineSyncEntryV1 := mkEntry { se_Seq : Z; se_Envelope : bytes }.
Record OfflineSyncBatchV1 := mkBatch { sb_GroupID : string; sb_Entries : list OfflineSyncEntryV1; sb_HasMore : bool }.
Record OfflineSyncAckGroupV1 := mkAckGroup { ag_GroupID : string; ag_AckedSeq : Z }.
Record OfflineSyncAckV1 := mkSyncAck { sa_V : Z; sa_Groups : list OfflineSyncAckGroupV1 }.
(** its groups have the fields of [OfflineSyncAckGroupV1] *)
Record OfflineDeliveryAckV1 := mkDeliveryAckV1 {
  oda_V : Z; oda_Recipient : string; oda_Groups : list OfflineSyncAckGroupV1 }.

(** ** Frames *)

Module OfflineWire.
Definition offlineMaxFrame : Z := Z.shiftl 4 20.
Definition ErrOfflineStreamEnd : GoError := ErrSentinel "offline: stream end marker".

(** [WriteOfflineEndMarker] *)
Definition WriteOfflineEndMarker : bytes := [x00; x00; x00; x00].

(** [WriteOfflineJSONFrame]: the bytes written *)
Definition WriteOfflineJSONFrame `{JSON A} (v : A) : result bytes :=
  let data := json_Marshal v in
  if is_empty data || (Z.of_nat (length data) >? offlineMaxFrame) then inr (ErrText "offline frame size invalid")
  else inl (Auth.put_be32 (Z.of_nat (length data)) ++ data).

(** The reading half of both readers: the payload and what is left, or the
    length prefix that was refused. *)
Definition read_frame (s : bytes) : result (bytes * bytes) :=
  if (length s <? 4)%nat then inr (ErrText "unexpected EOF")
  else
    let n := Auth.be32 (take 4 s) in
    if n =? 0 then inr ErrOfflineStreamEnd
    else if n >? offlineMaxFrame then inr (ErrText "offline frame too large")
    else
      let rest := drop 4 s in
      if Z.of_nat (length rest) <? n then inr (ErrText "unexpected EOF")
      else inl (take (Z.to_nat n) rest, drop (Z.to_nat n) rest).

(** [ReadOfflineJSONFrame] *)
Definition ReadOfflineJSONFrame `{JSON A} (s : bytes) : result (A * bytes) :=
  match read_frame s with
  | inr e => inr e
  | inl (data, rest) =>
      match json_Unmarshal data with
      | Some v => inl (v, rest)
      | None => inr (ErrText "invalid character in JSON")
      end
  end.

(** [ReadOfflineRawFrame]: the end marker reads as the end of the stream. *)
Definition ReadOfflineRawFrame (s : bytes) : result (bytes * bytes) :=
  match read_frame s with
  | inr e => if errors_Is e ErrOfflineStreamEnd then inr (ErrSentinel "EOF") else inr e
  | inl r => inl r
  end.
End OfflineWire.

(** ** The responder *)

Module Responder.
Import OfflineWire.
Section Handlers.
Context {JQ : JSON OfflineSyncRequestV1} {JB : JSON OfflineSyncBatchV1} {JA : JSON OfflineSyncAckV1}.
Context {JD : JSON OfflineDeliveryAckV1} {PC : PeerCodec}.

Definition entry_of (r : EnvelopeRecord) : OfflineSyncEntryV1 := mkEntry (er_Seq r) (er_Envelope r).

(** The loop over the log of a group: the frames written and how many more the
    stream takes, [None] once a write has failed.  [quota] is the number of
    frames that can be written before the connection breaks; [None] overall is
    running out of fuel. *)
Fixpoint serve_group (fuel quota : nat) (g : string) (after : Z) : SQL (option (list bytes * option nat)) :=
  match fuel with
  | O => sql_ret None
  | S fuel' =>
      got <-! sql_try (Store.GetEnvelopesSince g after 50) ;
      match got with
      | inr _ => sql_ret (Some ([], Some quota))
      | inl recs =>
          let batch := mkBatch g (entry_of <$> recs) (length recs =? 50)%nat in
          match WriteOfflineJSONFrame batch, quota with
          | inl frame, S quota' =>
              match last recs with
              | None => sql_ret (Some ([frame], Some quota'))
              | Some lastRec =>
                  if (length recs <? 50)%nat then sql_ret (Some ([frame], Some quota'))
                  else
                    rest <-! serve_group fuel' quota' g (er_Seq lastRec) ;
                    sql_ret (match rest with Some (fs, q) => Some (frame :: fs, q) | None => None end)
              end
          | _, _ => sql_ret (Some ([], None))
          end
      end
  end.

(** The loop over the groups of the request. *)
Fixpoint serve_groups (fuel quota : nat) (gs : list OfflineSyncRequestGroup) : SQL (option (list bytes * option nat)) :=
  match gs with
  | [] => sql_ret (Some ([], Some quota))
  | g :: rest =>
      if str_eqb (rg_GroupID g) "" then serve_groups fuel quota rest
      else
        r <-! serve_group fuel quota (rg_GroupID g) (rg_AfterSeq g) ;
        match r with
        | None => sql_ret None
        | Some (fs, None) => sql_ret (Some (fs, None))
        | Some (fs, Some quota') =>
            r' <-! serve_groups fuel quota' rest ;
            sql_ret (match r' with Some (fs', q) => Some (fs ++ fs', q) | None => None end)
        end
  end.

Fixpoint record_acks (peer : string) (gs : list OfflineSyncAckGroupV1) : SQL unit :=
  match gs with
  | [] => sql_ret tt
  | g :: rest =>
      (if str_eqb (ag_GroupID g) "" then sql_ret tt
       else sql_ignore (Store.RecordSyncAck peer (ag_GroupID g) (ag_AckedSeq g))) ;;!
      record_acks peer rest
  end.

(** [handleOfflineSyncStream]: what is written for the request that is read,
    and the acknowledgement, [ack], that is read after it.  [None] is running
    out of fuel. *)
Definition handleOfflineSyncStream (fuel quota : nat) (verified storage : bool) (remote : peerID)
  (request ack : bytes) : SQL (option (list bytes)) :=
  if negb verified || negb storage then sql_ret (Some [])
  else
    match ReadOfflineJSONFrame (A := OfflineSyncRequestV1) request with
    | inr _ => sql_ret (Some [])
    | inl (req, _) =>
        if negb (sq_V req =? 1) then sql_ret (Some [])
        else
          r <-! serve_groups fuel quota (sq_Groups req) ;
          match r with
          | None => sql_ret None
          | Some (fs, None) | Some (fs, Some O) => sql_ret (Some fs)
          | Some (fs, Some (S _)) =>
              (match ReadOfflineJSONFrame (A := OfflineSyncAckV1) ack with
               | inl (a, _) => if sa_V a =? 1 then record_acks (peer_String remote) (sa_Groups a) else sql_ret tt
               | inr _ => sql_ret tt
               end) ;;!
              sql_ret (Some (fs ++ [WriteOfflineEndMarker]))
          end
    end.

(** [handleOfflineDeliveryAckStream] *)
Definition handleOfflineDeliveryAckStream (verified storage : bool) (remote : peerID) (input : bytes) : SQL unit :=
  if negb verified then sql_ret tt
  else
    match ReadOfflineJSONFrame (A := OfflineDeliveryAckV1) input with
    | inr _ => sql_ret tt
    | inl (ack, _) =>
        if negb (oda_V ack =? 1) || negb (str_eqb (oda_Recipient ack) (peer_String remote)) || negb storage
        then sql_ret tt
        else record_acks (oda_Recipient ack) (oda_Groups ack)
    end.

(** [runOfflineEnvelopeGC], on the configuration of the loop *)
Definition runOfflineEnvelopeGC (storage : bool) (cfg : Config.CoordinatorConfig) : SQL unit :=
  if negb storage then sql_ret tt
  else
    now <-! sql_time ;
    sql_ignore (Store.PruneEnvelopes (Unix (now - Config.EnvelopeLogTTL cfg)) (Config.EnvelopeLogMaxPerGroup cfg)).
End Handlers.
End Responder.

(** ** The puller *)

(** [sort.Slice] by sequence number: some order of the entries in which the
    numbers ascend. *)
Class SeqSort := { sort_Seq : list OfflineSyncEntryV1 -> list OfflineSyncEntryV1 }.
Class SeqSortLaws `{SeqSort} := {
  sort_Seq_perm : forall es, sort_Seq es ≡ₚ es;
  sort_Seq_sorted : forall es, StronglySorted (fun a b => se_Seq a <= se_Seq b) (sort_Seq es);
}.

(** Where a pull stands: the entries received by group, the groups that are
    still to be gone through in the order in which the map is ranged over, the
    group at hand with [lastSuccessSeq] and the entries that are left, and the
    maximum by group so far, for which a recovery replay has been started. *)
Record Pull := mkPull {
  pl_remote : peerID;
  pl_entries : gmap string (list OfflineSyncEntryV1);
  pl_todo : list string;
  pl_current : option (string * Z * list OfflineSyncEntryV1);
  pl_max : gmap string Z;
}.

Module Puller.
Import OfflineWire.

(** [offlineSyncShouldAdvanceCursor] *)
Definition offlineSyncShouldAdvanceCursor (state : ReplayEnvelopeState) : bool :=
  str_eqb state ReplayStateApplied || str_eqb state ReplayStateDuplicateApplied ||
  str_eqb state ReplayStateStaleEpoch || str_eqb state ReplayStateDecryptFailed ||
  str_eqb state ReplayStateBlockedStaleRequiresSnapshot || str_eqb state ReplayStateBlockedDecryptFailed.

Section Pulls.
Context {JQ : JSON OfflineSyncRequestV1} {JB : JSON OfflineSyncBatchV1} {JA : JSON OfflineSyncAckV1}.
Context {JD : JSON OfflineDeliveryAckV1} {PC : PeerCodec} {WC : WireCodec} {SS : SeqSort}.
Variable ne : NodeEnv.

(** *** One entry *)

(** The body of the loop over the entries of a group: whether the cursor may
    pass the entry and the loop goes on. *)
Definition replay_entry (fuel : nat) (gid : string) (e : OfflineSyncEntryV1) : C bool :=
  match dec_envelope (se_Envelope e) with
  | inr _ => ret false
  | inl env =>
      if negb (str_eqb (env_GroupID env) gid) ||
         (negb (str_eqb (env_Type env) MsgCommit) && negb (str_eqb (env_Type env) MsgApplication))
      then ret false
      else
        ap <-- db (Store.AppendEnvelopeWithSource (env_GroupID env) (env_Type env) (env_Epoch env)
                     (env_Timestamp env) (se_Envelope e) "offline_sync") ;
        match ap with
        | inr _ => ret false
        | inl _ =>
            results <-- ReplayEnvelopesDetailed fuel [se_Envelope e] ;
            match results with
            | inl (result :: _) =>
                if str_eqb (rr_State result) ReplayStateFutureEpoch ||
                   str_eqb (rr_State result) ReplayStateBlockedMissingPriorEpoch
                then ret false
                else ret (offlineSyncShouldAdvanceCursor (rr_State result))
            | _ => ret false
            end
        end
  end.

(** *** Requests and batches *)

(** The request: the cursor of every group for this peer; a cursor that cannot
    be read counts as 0. *)
Fixpoint build_request (remote : peerID) (gids : list string) : SQL (list OfflineSyncRequestGroup) :=
  match gids with
  | [] => sql_ret []
  | gid :: rest =>
      after <-! sql_try (Store.GetOfflinePullCursor gid (peer_String remote)) ;
      gs <-! build_request remote rest ;
      sql_ret (mkReqGroup gid (match after with inl v => v | inr _ => 0 end) :: gs)
  end.

Definition group_ids (n : Node) : list string := stable_sort str_ltb (elements (dom (n_coords n))).

(** Reading batches up to the end marker. *)
Fixpoint read_batches (fuel : nat) (s : bytes) (acc : gmap string (list OfflineSyncEntryV1))
  : result (gmap string (list OfflineSyncEntryV1)) :=
  match fuel with
  | O => inr (ErrText "unexpected EOF")
  | S fuel' =>
      match ReadOfflineJSONFrame (A := OfflineSyncBatchV1) s with
      | inr e => if errors_Is e ErrOfflineStreamEnd then inl acc else inr e
      | inl (batch, rest) =>
          read_batches fuel' rest
            (<[sb_GroupID batch := default [] (acc !! sb_GroupID batch) ++ sb_Entries batch]> acc)
      end
  end.

(** *** Replaying *)

(** The state of the pull once the batches are read; [order] is the order in
    which the map is ranged over. *)
Definition start_pull (remote : peerID) (entries : gmap string (list OfflineSyncEntryV1)) (order : list string) : Pull :=
  mkPull remote entries order None ∅.

Definition pull_done (p : Pull) : bool :=
  match pl_current p, pl_todo p with None, [] => true | _, _ => false end.

(** One step: turning to a group, one entry, or the end of a group. *)
Definition pull_step (fuel : nat) (p : Pull) (n : Node) : option (Pull * Node) :=
  match pl_current p with
  | None =>
      match pl_todo p with
      | [] => Some (p, n)
      | gid :: rest =>
          let current := match n_coords n !! gid with
                         | Some _ => Some (gid, 0, sort_Seq (default [] (pl_entries p !! gid)))
                         | None => None
                         end in
          Some (mkPull (pl_remote p) (pl_entries p) rest current (pl_max p), n)
      end
  | Some (gid, last, e :: rest) =>
      r ← on_group ne gid (replay_entry fuel gid e) n;
      let '(advance, n') := r : bool * Node in
      Some (mkPull (pl_remote p) (pl_entries p) (pl_todo p)
              (Some (if advance then (gid, se_Seq e, rest) else (gid, last, []))) (pl_max p), n')
  | Some (gid, last, []) =>
      if last >? 0 then
        let n' := (on_storage ne (Store.SetOfflinePullCursor gid (peer_String (pl_remote p)) last) n).2 in
        Some (mkPull (pl_remote p) (pl_entries p) (pl_todo p) None (<[gid := last]> (pl_max p)), n')
      else Some (mkPull (pl_remote p) (pl_entries p) (pl_todo p) None (pl_max p), n)
  end.

(** The steps one after the other, with nothing in between. *)
Fixpoint pull_steps (fuel steps : nat) (p : Pull) (n : Node) : option (Pull * Node) :=
  if pull_done p then Some (p, n)
  else match steps with
       | O => None
       | S steps' => r ← pull_step fuel p n; pull_steps fuel steps' r.1 r.2
       end.

(** The acknowledgement: the groups in order. *)
Definition pull_ack (p : Pull) : OfflineSyncAckV1 :=
  mkSyncAck 1 ((fun gv => mkAckGroup gv.1 gv.2) <$>
    filter (fun gv => 0 < gv.2) (stable_sort (fun a b => str_ltb a.1 b.1) (map_to_list (pl_max p)))).

(** [pullOfflineSyncFromPeerOnce] as one run: the request that is sent, and
    the answer to it, by which the stream is read; the error or the
    acknowledgement that is written. *)
Definition pullOfflineSyncFromPeerOnce (fuel steps : nat) (remote : peerID) (opened : bool) (answer : bytes -> bytes)
  (order : gmap string (list OfflineSyncEntryV1) -> list string) (n : Node) : option (result bytes * Node) :=
  if is_empty (group_ids n) then Some (inl [], n)
  else
    let '(gs, n1) := on_storage ne (build_request remote (group_ids n)) n in
    match gs with
    | inr e => Some (inr e, n1)
    | inl groups =>
        if negb opened then Some (inr (ErrText "failed to open stream"), n1)
        else match WriteOfflineJSONFrame (mkSyncRequest 1 groups) with
        | inr e => Some (inr e, n1)
        | inl request =>
            let stream := answer request in
            match read_batches (S (length stream)) stream ∅ with
            | inr e => Some (inr e, n1)
            | inl entries =>
                r ← pull_steps fuel steps (start_pull remote entries (order entries)) n1;
                Some (inl (match WriteOfflineJSONFrame (pull_ack r.1) with inl b => b | inr _ => [] end), r.2)
            end
        end
    end.

(** *** Delivery acknowledgements *)

Fixpoint delete_acks (rows : list PendingDeliveryAckRow) : SQL unit :=
  match rows with
  | [] => sql_ret tt
  | r :: rest => sql_ignore (Store.DeletePendingDeliveryAck (pda_ID r)) ;;! delete_acks rest
  end.

(** [flushPendingDeliveryAcksTo]: the frame that is written, if the stream can
    be opened and takes it ([sent]). *)
Definition flushPendingDeliveryAcksTo (local remote : peerID) (sent : bool) : SQL (option bytes) :=
  rows <-! sql_try (Store.ListPendingDeliveryAcksForTarget (peer_String remote)) ;
  match rows with
  | inr _ | inl [] => sql_ret None
  | inl rows =>
      let ack := mkDeliveryAckV1 1 (peer_String local) ((fun r => mkAckGroup (pda_GroupID r) (pda_AckedSeq r)) <$> rows) in
      match WriteOfflineJSONFrame ack with
      | inl frame => if sent : bool then delete_acks rows ;;! sql_ret (Some frame) else sql_ret None
      | inr _ => sql_ret None
      end
  end.
End Pulls.
End Puller.
