(* ===== verification/OfflineSyncSpec.v ===== *)
(** * Correctness of offline synchronisation

    What a responder serves, what the cursor of a pull may pass, and how both
    compose; where synchronisation gets stuck or loses messages. *)
From S2P Require Import Prelude GoStrings Sha256 Types Config Hlc Epoch ActiveView SingleWriter.
From S2P Require Import ForkDetector Helpers Database Store StoreSpec.
From S2P Require Import HealStore AppDatabase Runtime Auth AuthSpec.
From S2P Require Import Coordinator CoordBroadcast CoordApplication CoordCommit CoordMessage CoordLogic.
From S2P Require Import CoordReplay CoordHeal CoordInv CoordSafe CoordSafeCommit CoordSafeHeal CoordEvents.
From S2P Require Import CoordStart CoordDemo CoordSpec Node Wire OfflineSync.

(** ** Settled envelopes *)

Section Settled.
Context {PC : PeerCodec} {WC : WireCodec} {WL : WireCodecLaws}.
Variable env : Env.
Hypothesis Hmls : o_HasMLS (e_opts env) = true.
Notation gid := (o_GroupID (e_opts env)).

(** The engine has refused the ciphertext of a message. *)
Definition undecryptable (en : Envelope) : Prop :=
  env_Type en = MsgApplication /\ exists am t st e,
    dec_application (env_Payload en) = inl am /\ mls_DecryptMessage env t st (am_Ciphertext am) = inr e.

(** The envelope is applied, or older than the group's epoch, or it is a
    message that the engine has refused to decrypt. *)
Definition settled (wire : bytes) (en : Envelope) (w : World) : Prop :=
  is_applied env (w_db w) (sha256_sum wire) \/ env_Epoch en < c_epoch (w_c w) \/ undecryptable en.

Definition settles (wire : bytes) (en : Envelope) (r : ReplayEnvelopeResult) (w : World) : Prop :=
  Puller.offlineSyncShouldAdvanceCursor (rr_State r) = true -> settled wire en w.

Lemma settled_extends wire en w w' : extends env w w' -> settled wire en w -> settled wire en w'.
Proof.
  intros [E _ A _ _ _ _] [H|[H|H]]; [left; by eapply is_applied_mono|right; left; lia|by right; right].
Qed.

Lemma pc_finish r (Q : ReplayEnvelopeResult -> World -> Prop) w :
  (forall w', w_c w' = w_c w -> applied_mono (w_db w) (w_db w') -> Q r w') -> pc env (finish r) Q w.
Proof.
  intros HQ. apply pc_wp. unfold finish, markReplayResultLocked. wp_run. case_match; wp_run; [by apply HQ|].
  rewrite wp_db.
  pose proof (MarkEnvelopeReplayState_frame gid (rr_EnvelopeHash r) (rr_State r) (rr_Error r)
    (e_clock env (w_tick w)) (e_sql env) (w_tick (tick w)) (w_db (tick w))) as Hf.
  destruct (Store.MarkEnvelopeReplayState _ _ _ _ _ _ _ _) as [[r' t] d]. wp_run. apply HQ; [done|apply Hf].
Qed.

Lemma pc_hasApplied h (Q : result bool -> World -> Prop) w :
  (forall r w', w_c w' = w_c w -> w_db w' = w_db w -> w_trace w' = w_trace w ->
     (r = inl true -> h <> [] /\ is_applied env (w_db w) h) -> Q r w') ->
  pc env (db (Store.HasAppliedEnvelope gid h)) Q w.
Proof.
  intros HQ. apply pc_wp. rewrite wp_db. unfold Store.HasAppliedEnvelope.
  destruct (is_empty h) eqn:Eh; [wp_run; by apply HQ|]. unfold sql_wrap, sql_query.
  destruct (sql_fails _ _); wp_run; apply HQ; try done. intros [= H0]. apply bool_decide_eq_true in H0.
  split; [by apply is_empty_false|done].
Qed.

Lemma pc_checkApplied en wire (Q : bytes * bool -> World -> Prop) w :
  (forall h b w', w_c w' = w_c w -> w_db w' = w_db w -> w_trace w' = w_trace w -> h = [] \/ h = sha256_sum wire ->
     (b = true -> is_applied env (w_db w) (sha256_sum wire)) -> Q (h, b) w') ->
  pc env (checkAppliedEnvelopeLocked en wire) Q w.
Proof.
  intros HQ. unfold checkAppliedEnvelopeLocked. destruct (is_empty wire) eqn:Ew; simpl.
  { pc_step. apply HQ; auto; done. }
  case_match; [pc_step; apply HQ; auto; done|]. unfold ForkDetector.hashEnvelope. rewrite Ew. repeat pc_step.
  apply pc_hasApplied. intros r w1 C1 D1 T1 Hr. pc_step. apply HQ; auto. destruct r as [[]|]; naive_solver.
Qed.

Lemma ApplyApplication_known rec msg ty wire ts e t d s t' d' :
  Store.ApplyApplication rec msg ty wire ts e (e_sql env) t d = (inl (false, s), t', d') ->
  is_Some (db_applied d' !! (gr_GroupID rec, sha256_sum wire)).
Proof.
  unfold Store.ApplyApplication. case_match; [done|]. intros [(d1 & E & ->)|E]%tx_inl; unfold Store.hasAppliedEnvelopeTx in E;
    apply bind_inl in E as (b & t1 & d2 & Eb & E); apply wrap_inl in Eb; apply query_inl in Eb as [-> ->];
    case_bool_decide; sql_inv; done.
Qed.

Lemma pc_sendAck to h (Q : unit -> World -> Prop) w :
  (forall w', w_db w' = w_db w -> Q tt w') -> pc env (sendDeliveryAckLocked to h) Q w.
Proof.
  intros HQ. apply pc_wp. unfold sendDeliveryAckLocked, hlc_Now, buildEnvelopeWithEpochAndTimestampLocked.
  wp_run. case_match; wp_run; [by apply HQ|]. destruct (Hlc.Now _ _ _) as [ts hl]. wp_run.
  case_match; wp_run; by apply HQ.
Qed.

Lemma applyApplication_settles from en wire h r w :
  env_Type en = MsgApplication -> pc env (applyApplicationLocked from en wire h r) (settles wire en) w.
Proof using Hmls.
  intros Hty. unfold applyApplicationLocked.
  assert (Hfin : forall s e a b c d w1, Puller.offlineSyncShouldAdvanceCursor s = false ->
    pc env (finish (rr_finish s e a b c d r)) (settles wire en) w1).
  { intros s e a b c d w1 Hs. apply pc_finish. intros w2 _ _ Ha. simpl in Ha. by rewrite Hs in Ha. }
  destruct (dec_application _) as [am|e] eqn:Eam; [|by apply Hfin].
  unfold hlc_Update. repeat pc_step. destruct (Hlc.Update _ _ _ _) as [[ts|e] hl]; repeat pc_step; [|by apply Hfin].
  rewrite Hmls. simpl. repeat pc_step. destruct (mls_DecryptMessage _ _ _ _) as [[pt st]|e] eqn:Ed.
  2: { apply pc_finish. intros w2 _ _ _. right. right. split; [done|]. by repeat eexists. }
  repeat pc_step. apply pc_wp. rewrite wp_db. destruct (Store.ApplyApplication _ _ _ _ _ _ _ _ _) as [[res t1] d1] eqn:Ea.
  destruct res as [[[] s]|e]; [|apply pc_finish|by apply Hfin].
  - apply ApplyApplication_applies in Ea as [[_ E]|(_ & _ & Happ & _)]; [by destruct (E s)|]. simpl in Happ.
    repeat pc_step. assert (Hrest : forall w1, w_db w1 = d1 ->
      pc env (sendDeliveryAckLocked (decodeEnvelopePeerID (env_From en) from) h ;;;
        finish (rr_finish ReplayStateApplied "" true true true false r)) (settles wire en) w1).
    { intros w1 D1. pc_step. apply pc_sendAck. intros w2 D2. apply pc_finish. intros w3 _ A3 _. left.
      eapply is_applied_mono; [exact A3|]. by rewrite D2, D1. }
    case_match; [rewrite wp_emit|]; by apply Hrest.
  - intros w2 _ A2 _. apply ApplyApplication_known in Ea. left. by eapply is_applied_mono.
Qed.

Lemma pc_retention h a b (Q : EpochAction -> World -> Prop) w :
  (forall a' w', w_c w' = w_c w -> a' = a \/ a' = ActionProcess -> Q a' w') -> pc env (retention_action h a b) Q w.
Proof.
  intros HQ. apply pc_wp. unfold retention_action. case_match; [wp_run; apply HQ; auto|]. wp_run. rewrite wp_db.
  destruct (Store.GetEnvelope _ _ _ _) as [[r t] d]. wp_run. apply HQ; [done|case_match; auto].
Qed.

Lemma appDetailed_settles from en wire w :
  coord_ok env w -> env_Type en = MsgApplication ->
  pc env (handleApplicationDetailedLocked from en wire) (settles wire en) w.
Proof using Hmls.
  intros [[_ (et & Et & Ee & _) _ _ _] _ _] Hty. unfold handleApplicationDetailedLocked, newReplayResultLocked.
  repeat pc_step. apply pc_checkApplied. intros h b w1 C1 D1 T1 Hh Hb. cbv zeta. destruct b.
  { apply pc_finish. intros w2 C2 A2 _. left. eapply is_applied_mono; [exact A2|]. rewrite D1. auto. }
  unfold ensure_epochTracker, the_epochTracker. repeat pc_step. rewrite C1, Et. repeat pc_step. rewrite C1, Et. repeat pc_step.
  apply pc_retention. intros a w2 C2 [-> | ->]; [|by apply applyApplication_settles].
  destruct (Epoch.Validate _ _) eqn:Ev; [by apply applyApplication_settles| |].
  - apply pc_finish. intros w3 C3 _ _. right. left. apply Epoch.ValidateEpoch_stale in Ev. rewrite C3, C2, C1. lia.
  - unfold set_epochTracker. repeat pc_step. apply pc_finish. by intros.
Qed.

Context (Hdelay : 0 < Config.BatchingDelay (o_Config (e_opts env))).

(** A commit, replayed with enough depth. *)
Lemma commitDetailed_settles fuel en wire w :
  coord_ok env w -> (backlog (w_c w) <= fuel)%nat -> dec_envelope wire = inl en ->
  pc env (handleCommitDetailedLocked fuel en wire) (settles wire en) w.
Proof using Hmls Hdelay WL.
  intros Hw Hf Hdec. pose proof Hw as [[_ (et & Et & Ee & _) _ _ _] _ _]. unfold handleCommitDetailedLocked, newReplayResultLocked.
  repeat pc_step. apply pc_checkApplied. intros h b w1 C1 D1 T1 Hh Hb. cbv zeta. destruct b.
  { apply pc_finish. intros w2 C2 A2 _. left. eapply is_applied_mono; [exact A2|]. rewrite D1. auto. }
  unfold the_epochTracker. repeat pc_step. rewrite C1, Et. repeat pc_step. destruct (Epoch.Validate _ _) eqn:Ev.
  - assert (W1 : coord_ok env w1) by (destruct Hw; split; congruence).
    pc_step. apply pc_wp. apply Epoch.ValidateEpoch_process in Ev.
    eapply wp_mono; [apply (wp_handleCommit env) with (n := fuel) (e0 := c_epoch (w_c w1)); try done|].
    + intros. by apply run_ready.
    + rewrite C1. lia.
    + split; [done|]. rewrite C1. split; [done|lia].
    + intros b w2 [H2 Ha]. destruct b; [apply pc_finish; intros w3 _ A3 _; left; eapply is_applied_mono; eauto|].
      repeat pc_step. apply pc_hasApplied. intros r w3 C3 D3 T3 Hr. destruct r as [[]|e]; apply pc_finish; try done.
      intros w4 _ A4 _. left. eapply is_applied_mono; [exact A4|]. rewrite D3. destruct (Hr eq_refl). by destruct Hh as [-> | ->].
  - apply pc_finish. intros w3 C3 _ _. right. left. apply Epoch.ValidateEpoch_stale in Ev. rewrite C3, C1. lia.
  - unfold set_epochTracker. repeat pc_step. apply pc_finish. by intros.
Qed.

Lemma replay_one_settles fuel raw en w :
  coord_ok env w -> (backlog (w_c w) <= fuel)%nat -> dec_envelope raw = inl en ->
  pc env (replay_one fuel raw) (settles raw en) w.
Proof using Hmls Hdelay WL.
  intros Hw Hf Hdec. unfold replay_one, invalid_result, newReplayResultLocked. rewrite Hdec. repeat pc_step.
  case_match; repeat pc_step; [done|]. case_match; repeat pc_step; [done|].
  assert (W1 : coord_ok env (tick w)) by (by apply (evolves_tick env ∅)).
  destruct (str_eqb_spec (env_Type en) MsgCommit); [by apply commitDetailed_settles|].
  destruct (str_eqb_spec (env_Type en) MsgApplication); [by apply appDetailed_settles|]. repeat pc_step. done.
Qed.

Lemma wp_replay_one fuel raw en w :
  coord_ok env w -> (S (backlog (w_c w)) <= fuel)%nat -> dec_envelope raw = inl en ->
  wp env (replay_one fuel raw) (fun r w' =>
    coord_ok env w' /\ extends env w w' /\ (backlog (w_c w') <= S (backlog (w_c w)))%nat /\ settles raw en r w') w.
Proof using Hmls Hdelay WL.
  intros Hw Hf Hdec. set (K := future_epochs (w_c w) ∪ wire_epochs [raw]).
  assert (HK : (size K <= fuel)%nat).
  { pose proof (wire_epochs_size [raw]). unfold backlog in Hf. simpl in *.
    pose proof (size_union_le (future_epochs (w_c w)) (wire_epochs [raw])). unfold K. lia. }
  eapply wp_mono; [apply wp_and_pc; [|by apply replay_one_settles; [done|lia|]]|].
  - apply (safe_replay_one env Hmls Hdelay (wire_epochs [raw]) K); [set_solver|done|done|]. split; [done|set_solver].
  - intros r w' [He Hs]. destruct (He Hw) as (Hw' & Hx & Hg). split_and!; [done|done| |done].
    unfold backlog. etrans; [apply subseteq_size, Hg|]. etrans; [apply size_union_le|].
    pose proof (wire_epochs_size [raw]). simpl in *. lia.
Qed.

(** What passing an entry means: its envelope is one of the group and is
    settled. *)
Definition passed (g : string) (e : OfflineSyncEntryV1) (w : World) : Prop :=
  exists en, dec_envelope (se_Envelope e) = inl en /\ env_GroupID en = g /\
    (env_Type en = MsgCommit \/ env_Type en = MsgApplication) /\ settled (se_Envelope e) en w.

Lemma wp_replay_entry fuel g e w :
  coord_ok env w -> (S (backlog (w_c w)) <= fuel)%nat ->
  wp env (Puller.replay_entry fuel g e) (fun b w' =>
    coord_ok env w' /\ extends env w w' /\ (backlog (w_c w') <= S (backlog (w_c w)))%nat /\ (b = true -> passed g e w')) w.
Proof using Hmls Hdelay WL.
  intros Hw Hf.
  assert (Hno : forall w1, coord_ok env w1 -> extends env w w1 -> backlog (w_c w1) = backlog (w_c w) ->
    coord_ok env w1 /\ extends env w w1 /\ (backlog (w_c w1) <= S (backlog (w_c w)))%nat /\ (false = true -> passed g e w1)).
  { intros w1 W1 X1 B1. split_and!; [done|done|lia|done]. }
  unfold Puller.replay_entry. destruct (dec_envelope _) as [en|err] eqn:Hdec; [|wp_run; by apply Hno].
  destruct (str_eqb_spec (env_GroupID en) g) as [Hg|]; simpl; [|wp_run; by apply Hno].
  destruct (negb (str_eqb (env_Type en) MsgCommit) && negb (str_eqb (env_Type en) MsgApplication)) eqn:Hty; [wp_run; by apply Hno|].
  assert (Ht : env_Type en = MsgCommit \/ env_Type en = MsgApplication).
  { destruct (str_eqb_spec (env_Type en) MsgCommit), (str_eqb_spec (env_Type en) MsgApplication); auto. done. }
  rewrite wp_bind, wp_db.
  match goal with |- context [Store.AppendEnvelopeWithSource ?a ?b ?c ?d ?x ?y ?s ?t ?z] =>
    pose proof (AppendEnvelopeWithSource_frame a b c d x y s t z) as Hfr;
    destruct (Store.AppendEnvelopeWithSource a b c d x y s t z) as [[ap t1] d1] end.
  set (w1 := with_db d1 t1 w). assert (H1 : evolves env ∅ w w1) by (by apply evolves_db, frame_kept).
  destruct (H1 Hw) as (W1 & X1 & _). destruct ap; [|wp_run; by apply Hno]. unfold ReplayEnvelopesDetailed. wp_run.
  case_match; wp_run; [by apply Hno|]. unfold replay_all. case_match; wp_run; [by apply Hno|].
  eapply wp_mono; [by apply wp_replay_one|]. intros r w2 (W2 & X2 & B2 & S2). wp_run.
  assert (X : extends env w w2) by (by etrans). case_match; wp_run; split_and!; try done.
  intros Ha. exists en. auto.
Qed.
End Settled.

(** ** Pulls *)

Section Pulls.
Context {JQ : JSON OfflineSyncRequestV1} {JB : JSON OfflineSyncBatchV1} {JA : JSON OfflineSyncAckV1}.
Context {PC : PeerCodec} {WC : WireCodec} {WL : WireCodecLaws} {SS : SeqSort} {SL : SeqSortLaws}.
Variable ne : NodeEnv.
Hypothesis He : env_ok ne.

(** The node has passed an entry of a group. *)
Definition passed_at (n : Node) (g : string) (e : OfflineSyncEntryV1) : Prop :=
  exists ct, n_coords n !! g = Some ct /\ passed (env_of ne g) g e (world_of ct n).

Lemma passed_grown n n' g e : node_grown n n' -> passed_at n g e -> passed_at n' g e.
Proof.
  intros [C A _] (ct & Hct & en & Hdec & Hg & Hty & Hs). destruct (C g ct Hct) as (ct' & Hct' & Hle).
  exists ct'. split; [done|]. exists en. split_and!; try done. destruct Hs as [H|[H|H]].
  - left. by eapply is_applied_mono.
  - right. left. simpl in *. lia.
  - by right; right.
Qed.

(** Enough depth for one envelope in any coordinator. *)
Definition deep (fuel : nat) (n : Node) : Prop :=
  forall g ct, n_coords n !! g = Some ct -> (S (backlog ct.1) <= fuel)%nat.

(** A pull between whose steps coordinators run. *)
Inductive pull_run (p0 : Pull) (n0 : Node) : Pull -> Node -> Prop :=
| pull_start : pull_run p0 n0 p0 n0
| pull_next fuel p n p' n' :
    pull_run p0 n0 p n -> deep fuel n -> Puller.pull_step ne fuel p n = Some (p', n') -> pull_run p0 n0 p' n'
| pull_meanwhile p n n' : pull_run p0 n0 p n -> node_run ne n n' -> pull_run p0 n0 p n'.

Lemma replay_entry_step fuel g e n ct :
  node_ok ne n -> deep fuel n -> n_coords n !! g = Some ct ->
  exists b n', on_group ne g (Puller.replay_entry fuel g e) n = Some (b, n') /\ node_ok ne n' /\ node_grown n n' /\
    (b = true -> passed_at n' g e) /\
    (forall g' ct', n_coords n' !! g' = Some ct' ->
       exists ct0, n_coords n !! g' = Some ct0 /\ (backlog ct'.1 <= S (backlog ct0.1))%nat).
Proof using He WL.
  intros Hn Hd Hct.
  destruct (wp_Ok _ _ _ _ (wp_replay_entry (env_of ne g) (eok_mls _ He g) (eok_delay _ He g) fuel g e (world_of ct n)
    (nok_coords _ _ Hn _ _ Hct) (Hd _ _ Hct))) as (b & w' & E & O & X & B & Hp).
  assert (Eg : on_group ne g (Puller.replay_entry fuel g e) n = Some (b, put_world g w' n))
    by (unfold on_group; rewrite Hct; simpl; by rewrite E).
  destruct (on_group_ok ne g (Puller.replay_entry fuel g e) n b (put_world g w' n) He Hn) as [On Gn]; [|done|].
  { intros ct' w1 Hct' E'. simplify_eq. rewrite E in E'. by injection E' as <-. }
  exists b, (put_world g w' n). split_and!; try done.
  - intros ->. exists (w_c w', w_trace w').
    split; [apply lookup_insert_eq|]. specialize (Hp eq_refl). by destruct w'.
  - intros g' ct'. simpl. destruct (decide (g' = g)) as [->|Hne].
    + rewrite lookup_insert_eq. intros [= <-]. by exists ct.
    + rewrite lookup_insert_ne by done. intros Hc. exists ct'. split; [done|lia].
Qed.

(** The number is that of an entry that has been passed, and so has everything
    received below it. *)
Definition covered (p : Pull) (n : Node) (g : string) (m : Z) : Prop :=
  0 < m /\ (exists e, e ∈ default [] (pl_entries p !! g) /\ se_Seq e = m /\ passed_at n g e) /\
  forall e, e ∈ default [] (pl_entries p !! g) -> se_Seq e < m -> passed_at n g e.

Lemma covered_mono p n n' g m : (forall e, passed_at n g e -> passed_at n' g e) -> covered p n g m -> covered p n' g m.
Proof. intros Hp (Hm & (e & Hin & Es & Hpe) & Hc). split; [done|]. split; [exists e; auto|auto]. Qed.
Lemma covered_grown p n n' g m : node_grown n n' -> covered p n g m -> covered p n' g m.
Proof. intros Hg. apply covered_mono. intros e. by apply passed_grown. Qed.
(** When numbers are not repeated, everything up to the number is passed. *)
Lemma covered_upto p n g m e : NoDup (se_Seq <$> default [] (pl_entries p !! g)) -> covered p n g m ->
  e ∈ default [] (pl_entries p !! g) -> se_Seq e <= m -> passed_at n g e.
Proof.
  intros Hn (_ & (x & Hx & Es & Hp) & Hc) Hin Hle. destruct (decide (se_Seq e < m)) as [|Hm]; [auto|].
  assert (e = x) as ->; [|done]. apply list_elem_of_lookup in Hin as [i Hi], Hx as [j Hj].
  assert (i = j) as ->; [|congruence]. eapply NoDup_lookup; [exact Hn| |]; rewrite list_lookup_fmap.
  - by rewrite Hi.
  - rewrite Hj. simpl. f_equal. lia.
Qed.

(** Progress in the group at hand: the entries before the last success, in
    order, have been passed. *)
Definition progress (p : Pull) (n : Node) (g : string) (last_ : Z) (rest : list OfflineSyncEntryV1) : Prop :=
  exists dn tl, sort_Seq (default [] (pl_entries p !! g)) = dn ++ tl /\ (rest = tl \/ rest = []) /\
    Forall (passed_at n g) dn /\ (last_ = 0 \/ exists e, list.last dn = Some e /\ se_Seq e = last_).

Lemma progress_grown p n n' g l rest : node_grown n n' -> progress p n g l rest -> progress p n' g l rest.
Proof.
  intros Hg (dn & tl & E & Hr & Hf & Hl). exists dn, tl. split_and!; try done.
  eapply Forall_impl; [exact Hf|]. intros e. by apply passed_grown.
Qed.

(** In an ascending list, what is below the last element of a prefix is in the
    prefix. *)
Lemma sorted_prefix (dn tl : list OfflineSyncEntryV1) e x :
  StronglySorted (fun a b => se_Seq a <= se_Seq b) (dn ++ tl) -> list.last dn = Some e -> x ∈ dn ++ tl -> se_Seq x < se_Seq e -> x ∈ dn.
Proof.
  intros Hs Hl [Hx|Hx]%elem_of_app Hlt; [done|]. apply last_Some in Hl as (dn' & ->).
  assert (He' : e ∈ dn' ++ [e]) by (apply elem_of_app; right; by apply list_elem_of_singleton).
  pose proof (StronglySorted_app_1_elem_of _ _ _ _ _ Hs He' Hx) as Hge. simpl in Hge. lia.
Qed.

Lemma progress_covered p n g l rest : 0 < l -> progress p n g l rest -> covered p n g l.
Proof using SL.
  intros Hl (dn & tl & E & _ & Hf & [->|(e0 & Hlast & <-)]); [lia|]. rewrite Forall_forall in Hf.
  assert (He0 : e0 ∈ dn) by (apply last_Some in Hlast as (l' & ->); apply elem_of_app; right; by apply list_elem_of_singleton).
  split; [done|]. split.
  - exists e0. split; [|auto]. rewrite <- (sort_Seq_perm (default [] _)), E. apply elem_of_app. by left.
  - intros e Hin Hlt. apply Hf. eapply sorted_prefix; [|done| |done]; rewrite <- E; [apply sort_Seq_sorted|]. by rewrite sort_Seq_perm.
Qed.

Record pull_ok (p0 : Pull) (n0 : Node) (p : Pull) (n : Node) : Prop := {
  po_node : node_ok ne n;
  po_entries : pl_entries p = pl_entries p0;
  po_remote : pl_remote p = pl_remote p0;
  po_current : forall g l rest, pl_current p = Some (g, l, rest) -> is_Some (n_coords n !! g) /\ progress p n g l rest;
  po_max : forall g m, pl_max p !! g = Some m -> covered p n g m;
  po_cursor : forall g r, db_pull_cursors (n_db n) !! (g, r) = db_pull_cursors (n_db n0) !! (g, r) \/
    (r = peer_String (pl_remote p0) /\ exists m, db_pull_cursors (n_db n) !! (g, r) = Some m /\ covered p n g m);
}.

(** Coordinators that run do not disturb a pull. *)
Lemma pull_ok_grown p0 n0 p n n' : pull_ok p0 n0 p n -> node_ok ne n' -> node_grown n n' -> pull_ok p0 n0 p n'.
Proof.
  intros [Hn En Rn Cu Mx Cs] Hn' Hg. pose proof Hg as [C A P]. split; try done.
  - intros g l rest E. destruct (Cu g l rest E) as [[ct Hct] Hp]. destruct (C g ct Hct) as (ct' & Hct' & _).
    split; [by eexists|by eapply progress_grown].
  - intros g m E. eapply covered_grown; eauto.
  - intros g r. rewrite P. destruct (Cs g r) as [->|(-> & m & E & Hm)]; [by left|right]. split; [done|].
    exists m. split; [done|]. by eapply covered_grown.
Qed.

(** A state of the pull that differs in where it stands. *)
Lemma pull_ok_move p0 n0 p n p' :
  pull_ok p0 n0 p n -> pl_entries p' = pl_entries p -> pl_remote p' = pl_remote p ->
  (forall g l rest, pl_current p' = Some (g, l, rest) -> is_Some (n_coords n !! g) /\ progress p' n g l rest) ->
  (forall g m, pl_max p' !! g = Some m -> covered p' n g m) -> pull_ok p0 n0 p' n.
Proof.
  intros [Hn En Rn Cu Mx Cs] E R C' M'. split; try done; [congruence..|].
  intros g r. destruct (Cs g r) as [H|(-> & m & H & Hm)]; [by left|right]. split; [done|]. exists m. split; [done|].
  unfold covered in *. by rewrite E.
Qed.

Lemma cursor_set g r m n : db_pull_cursors (on_storage ne (Store.SetOfflinePullCursor g r m) n).2.(n_db) =
    db_pull_cursors (n_db n) \/
  db_pull_cursors (on_storage ne (Store.SetOfflinePullCursor g r m) n).2.(n_db) = <[(g, r) := m]> (db_pull_cursors (n_db n)).
Proof.
  unfold on_storage, Store.SetOfflinePullCursor, sql_wrap, sql_exec. destruct (sql_fails _ _); simpl; auto.
Qed.

Lemma cursor_node g r m n : node_ok ne n ->
  let n' := (on_storage ne (Store.SetOfflinePullCursor g r m) n).2 in
  node_ok ne n' /\ n_coords n' = n_coords n /\ db_applied (n_db n') = db_applied (n_db n).
Proof.
  intros Hn n'. assert (H : settled_db (n_db n) (n_db n') /\ n_coords n' = n_coords n /\ db_applied (n_db n') = db_applied (n_db n)).
  { unfold n', on_storage, Store.SetOfflinePullCursor, sql_wrap, sql_exec. destruct (sql_fails _ _); simpl;
      (split; [split_and!; [done..|by apply applied_mono_eq]|done]). }
  destruct H as (H1 & H2 & H3). split; [by apply on_storage_ok|done].
Qed.

Lemma pull_step_ok fuel p0 n0 p n p' n' :
  pull_ok p0 n0 p n -> deep fuel n -> Puller.pull_step ne fuel p n = Some (p', n') -> pull_ok p0 n0 p' n'.
Proof using He WL SL.
  intros Hp Hd E. pose proof Hp as [Hn En Rn Cu Mx Cs]. unfold Puller.pull_step in E.
  destruct (pl_current p) as [[[g l] rest]|] eqn:Ec.
  - destruct (Cu g l rest eq_refl) as [[ct Hct] Hpr]. destruct rest as [|e rest].
    + destruct (l >? 0) eqn:El; injection E as <- <-; [|apply pull_ok_move with p; try done].
      assert (Hl : 0 < l) by lia. assert (Hcov : covered p n g l) by (by eapply progress_covered).
      pose proof (cursor_node g (peer_String (pl_remote p)) l n Hn) as Hc. cbv zeta in Hc. destruct Hc as (Hn' & Cn & An).
      pose proof (cursor_set g (peer_String (pl_remote p)) l n) as Hs.
      set (n' := (on_storage _ _ _).2) in *.
      assert (Hsame : forall g' e', passed_at n g' e' -> passed_at n' g' e').
      { intros g' e' (ct' & Hct' & Hps). exists ct'. split; [by rewrite Cn|].
        destruct Hps as (en & ? & ? & ? & Hset). exists en. split_and!; try done. unfold settled, is_applied in *. simpl in *. by rewrite An. }
      assert (Hcov' : forall g' m', covered p n g' m' -> covered p n' g' m') by (intros g' m'; apply covered_mono; auto).
      split; try done; simpl.
      * intros g' m'. destruct (decide (g' = g)) as [->|Hne];
          [rewrite lookup_insert_eq; intros [= <-]; by apply Hcov'|rewrite lookup_insert_ne by done; intros Hm; by apply Hcov', Mx].
      * intros g' r. destruct Hs as [-> | ->].
        { destruct (Cs g' r) as [->|(-> & m & H & Hm)]; [by left|right]. split; [done|]. exists m. split; [done|by apply Hcov']. }
        destruct (decide ((g', r) = (g, peer_String (pl_remote p)))) as [[= -> ->]|Hne].
        { right. split; [by rewrite Rn|]. exists l. rewrite lookup_insert_eq. split; [done|by apply Hcov']. }
        rewrite lookup_insert_ne by done.
        destruct (Cs g' r) as [->|(-> & m & H & Hm)]; [by left|right]. split; [done|]. exists m. split; [done|by apply Hcov'].
    + destruct (replay_entry_step fuel g e n ct Hn Hd Hct) as (b & n1 & E1 & On & Gn & Hb & _). rewrite E1 in E. simpl in E.
      injection E as <- <-. pose proof (pull_ok_grown _ _ _ _ _ Hp On Gn) as Hp1.
      apply pull_ok_move with p; try done; simpl; [|apply Hp1].
      intros g' l' rest' [= E']. destruct Gn as [Cg _ _]. destruct (Cg g ct Hct) as (ct1 & Hct1 & _).
      destruct (po_current _ _ _ _ Hp1 g l (e :: rest) Ec) as [_ (dn & tl & Es & Hr & Hf & Hl)].
      destruct b; injection E' as <- <- <-; (split; [by eexists|]).
      * destruct Hr as [<-|?]; [|done]. exists (dn ++ [e]), rest. split_and!; [by rewrite <- app_assoc|by left| |].
        { apply Forall_app. split; [done|]. constructor; auto. }
        right. exists e. by rewrite last_snoc.
      * exists dn, tl. split_and!; auto.
  - destruct (pl_todo p) as [|g todo] eqn:Et; [by injection E as <- <-|]. injection E as <- <-.
    apply pull_ok_move with p; try done. simpl. intros g' l rest. destruct (n_coords n !! g) as [ct|] eqn:Hct; [|done].
    intros [= <- <- <-]. split; [by eexists|]. exists [], (sort_Seq (default [] (pl_entries p !! g))). split_and!; auto.
Qed.

Lemma pull_run_ok remote entries order n0 p n :
  node_ok ne n0 ->
  pull_run (Puller.start_pull remote entries order) n0 p n -> pull_ok (Puller.start_pull remote entries order) n0 p n.
Proof using He WL SL.
  intros Hn0. induction 1 as [|fuel p n p' n' _ IH Hd E|p n n' _ IH Hr].
  - split; try done. intros g r. by left.
  - by eapply pull_step_ok.
  - destruct (node_run_ok ne n n' He (po_node _ _ _ _ IH) Hr) as [Hn' Hg]. by eapply pull_ok_grown.
Qed.

(** *** Termination *)

(** The steps that are left. *)
Definition work (p : Pull) : nat :=
  match pl_current p with Some (_, _, rest) => S (length rest) | None => 0 end +
  sum_list_with (fun g => S (S (length (default [] (pl_entries p !! g))))) (pl_todo p).

Lemma pull_step_returns fuel p n :
  node_ok ne n -> (forall g l rest, pl_current p = Some (g, l, rest) -> is_Some (n_coords n !! g)) ->
  (forall g ct, n_coords n !! g = Some ct -> (S (backlog ct.1) + work p <= S fuel)%nat) -> Puller.pull_done p = false ->
  exists p' n', Puller.pull_step ne fuel p n = Some (p', n') /\ node_ok ne n' /\ (work p' < work p)%nat /\
    (forall g l rest, pl_current p' = Some (g, l, rest) -> is_Some (n_coords n' !! g)) /\
    (forall g ct, n_coords n' !! g = Some ct -> (S (backlog ct.1) + work p' <= S fuel)%nat).
Proof using He WL SL.
  intros Hn Hc Hd Hnot. unfold Puller.pull_step, Puller.pull_done, work in *.
  destruct (pl_current p) as [[[g l] [|e rest]]|] eqn:Ec; simpl in *.
  - pose proof (cursor_node g (peer_String (pl_remote p)) l n Hn) as Hs. cbv zeta in Hs. destruct Hs as (Hn' & Cn & _).
    destruct (l >? 0); eexists _, _; (split; [reflexivity|]); simpl; split_and!; try done; try lia.
    + intros g' ct'. rewrite Cn. intros H'. specialize (Hd g' ct' H'). lia.
    + intros g' ct' H'. specialize (Hd g' ct' H'). lia.
  - destruct (Hc g l (e :: rest) eq_refl) as [ct Hct]. assert (Hdeep : deep fuel n).
    { intros g' ct' H'. specialize (Hd g' ct' H'). lia. }
    destruct (replay_entry_step fuel g e n ct Hn Hdeep Hct) as (b & n1 & E1 & On & Gn & _ & Hb). rewrite E1. simpl.
    eexists _, _. split; [reflexivity|]. simpl. split_and!; [done|destruct b; simpl; lia| |].
    + intros g' l' rest' [= E']. destruct Gn as [Cg _ _]. destruct (Cg g ct Hct) as (ct1 & Hct1 & _).
      destruct b; injection E' as <- <- <-; by eexists.
    + intros g' ct' H'. destruct (Hb g' ct' H') as (ct0 & H0 & Hle). specialize (Hd g' ct0 H0). destruct b; simpl; lia.
  - destruct (pl_todo p) as [|g todo]; [done|]. eexists _, _. split; [reflexivity|]. simpl in *. split_and!; try done.
    + destruct (n_coords n !! g); [rewrite (Permutation_length (sort_Seq_perm _))|]; lia.
    + intros g' l' rest'. destruct (n_coords n !! g) as [ct|] eqn:Hct; [|done]. intros [= <- <- <-]. by eexists.
    + intros g' ct' H'. specialize (Hd g' ct' H'). destruct (n_coords n !! g);
        [rewrite (Permutation_length (sort_Seq_perm _))|]; lia.
Qed.

Lemma pull_steps_return fuel steps p n :
  node_ok ne n -> (forall g l rest, pl_current p = Some (g, l, rest) -> is_Some (n_coords n !! g)) ->
  (forall g ct, n_coords n !! g = Some ct -> (S (backlog ct.1) + work p <= S fuel)%nat) -> (work p <= steps)%nat ->
  exists p' n', Puller.pull_steps ne fuel steps p n = Some (p', n') /\ Puller.pull_done p' = true /\ pull_run p n p' n'.
Proof using He WL SL.
  revert p n. induction steps as [|steps IH]; intros p n Hn Hc Hd Hw; simpl.
  - assert (Hdone : Puller.pull_done p = true).
    { revert Hw. unfold work, Puller.pull_done. destruct (pl_current p) as [[[? ?] ?]|], (pl_todo p); simpl; done || lia. }
    rewrite Hdone. exists p, n. split_and!; try done. constructor.
  - destruct (Puller.pull_done p) eqn:Hdone; [exists p, n; split_and!; try done; constructor|].
    destruct (pull_step_returns fuel p n Hn Hc Hd Hdone) as (p1 & n1 & E & Hn1 & Hlt & Hc1 & Hd1). rewrite E. simpl.
    destruct (IH p1 n1 Hn1 Hc1 Hd1 ltac:(lia)) as (p2 & n2 & E2 & Hf2 & Hr2). exists p2, n2. split_and!; try done.
    clear - E Hr2 Hd Hlt. induction Hr2 as [|f p' n' p'' n'' _ IH Hdp Es|p' n' n'' _ IH Hr].
    + eapply pull_next; [constructor| |exact E]. intros g ct H. specialize (Hd g ct H). lia.
    + by eapply pull_next.
    + by eapply pull_meanwhile.
Qed.
End Pulls.

(** ** What a responder serves *)

(** The log of a group above a cursor, in order. *)
Definition log_since (g : string) (after : Z) (d : DB) : list EnvelopeRecord :=
  stable_sort Store.seq_asc (filter (fun e => after < er_Seq e) (lr_rec <$> Store.group_log g d)).

Lemma group_seqs g d : log_ok d -> NoDup (er_Seq <$> (lr_rec <$> Store.group_log g d)).
Proof.
  intros [H _ _ _ _ _]. unfold Store.group_log. rewrite <- list_fmap_compose. revert H. generalize (db_log d).
  intros log. induction log as [|r log IH]; simpl; intros H; [constructor|].
  apply NoDup_cons in H as [Hn H]. specialize (IH H). rewrite filter_cons. case_decide as Hg; [|done].
  simpl. constructor; [|done]. intros Hin. apply Hn. apply list_elem_of_fmap in Hin as (r' & Hs & Hin).
  apply list_elem_of_filter in Hin as [Hg' Hin]. apply list_elem_of_fmap. exists r'. split; [|done].
  unfold log_seq_key. simpl in Hs. by rewrite Hs, Hg, Hg'.
Qed.

Lemma log_since_elem g after d r : r ∈ log_since g after d <-> after < er_Seq r /\ r ∈ (lr_rec <$> Store.group_log g d).
Proof. unfold log_since. by rewrite stable_sort_elem, list_elem_of_filter. Qed.

Lemma log_since_nodup g after d : log_ok d -> NoDup (er_Seq <$> log_since g after d).
Proof.
  intros H. unfold log_since. rewrite stable_sort_perm. eapply sublist_NoDup; [by apply (group_seqs g d)|].
  apply fmap_sublist, sublist_filter.
Qed.

Lemma log_since_sorted g after d : StronglySorted (fun a b => er_Seq a <= er_Seq b) (log_since g after d).
Proof.
  eapply StronglySorted_impl; [|apply (stable_sort_sorted Store.seq_asc)].
  unfold sort_le, Store.seq_asc. intros a b. rewrite Z.ltb_ge. done.
Qed.

(** Reading on after the last of a batch. *)
Lemma log_since_next g after d k r :
  log_ok d -> list.last (take k (log_since g after d)) = Some r ->
  log_since g (er_Seq r) d = drop k (log_since g after d).
Proof.
  intros Hd Hl. set (L := log_since g after d) in *. pose proof (log_since_sorted g after d) as Hs. fold L in Hs.
  pose proof (log_since_nodup g after d Hd) as Hn. fold L in Hn.
  assert (Hr : r ∈ take k L) by (apply last_Some in Hl as (l' & ->); apply elem_of_app; right; by apply list_elem_of_singleton).
  assert (HrL : r ∈ L) by (rewrite <- (take_drop k L); apply elem_of_app; by left).
  assert (Har : after < er_Seq r) by (by apply log_since_elem in HrL as [? _]).
  assert (Hlow : filter (fun e => er_Seq r < er_Seq e) (take k L) = []).
  { apply filter_none. intros x Hx Hlt. apply last_Some in Hl as (l' & Ht). rewrite Ht in Hx.
    rewrite <- (take_drop k L), Ht in Hs. apply StronglySorted_app_1_l in Hs.
    apply elem_of_app in Hx as [Hx|Hx%list_elem_of_singleton]; [|subst; lia].
    assert (Hrr : r ∈ [r]) by (by apply list_elem_of_singleton).
    pose proof (StronglySorted_app_1_elem_of _ _ _ _ _ Hs Hx Hrr) as Hle. simpl in Hle. lia. }
  assert (Hhigh : filter (fun e => er_Seq r < er_Seq e) (drop k L) = drop k L).
  { apply filter_all. intros x Hx. rewrite <- (take_drop k L) in Hs, Hn.
    pose proof (StronglySorted_app_1_elem_of _ _ _ _ _ Hs Hr Hx) as Hle. simpl in Hle.
    rewrite fmap_app in Hn. apply NoDup_app in Hn as (_ & Hdis & _).
    destruct (decide (er_Seq r = er_Seq x)) as [Heq|]; [|lia]. exfalso.
    apply (Hdis (er_Seq r)); [by apply list_elem_of_fmap_2|]. rewrite Heq. by apply list_elem_of_fmap_2. }
  unfold log_since at 1. rewrite <- (stable_sort_id Store.seq_asc (drop k L)).
  2: { rewrite <- (take_drop k L) in Hs. apply StronglySorted_app_1_r in Hs. eapply StronglySorted_impl; [|exact Hs].
       unfold sort_le, Store.seq_asc. intros a b Hab. apply Z.ltb_ge. done. }
  apply (stable_sort_unique Store.seq_asc).
  - intros x y Hx Hy. unfold Store.seq_asc. rewrite !Z.ltb_ge. intros H1 H2.
    apply list_elem_of_filter in Hx as [_ Hx], Hy as [_ Hy].
    apply (NoDup_fmap_inj _ _ _ _ (group_seqs g d Hd)); try done. lia.
  - rewrite <- Hhigh. rewrite <- (app_nil_l (filter _ (drop k L))), <- Hlow, <- filter_app, take_drop.
    unfold L, log_since. rewrite stable_sort_perm, list_filter_filter. apply reflexive_eq, list_filter_iff. intros x. lia.
Qed.

Section Serving.
Context {JQ : JSON OfflineSyncRequestV1} {JB : JSON OfflineSyncBatchV1} {JA : JSON OfflineSyncAckV1}.
Context {JL : JSONLaws OfflineSyncBatchV1} {PC : PeerCodec}.
Import OfflineWire Responder.
#[local] Opaque Auth.put_be32 Auth.be32.

Lemma since_run g after env t d :
  Store.GetEnvelopesSince g after 50 env t d = (inl (take 50 (log_since g after d)), S t, d) \/
  exists e, Store.GetEnvelopesSince g after 50 env t d = (inr e, S t, d).
Proof.
  unfold Store.GetEnvelopesSince, sql_wrap, sql_query. simpl. destruct (sql_fails env t); [right; by eexists|by left].
Qed.

(** Frames of batches of a group whose entries are the log above a cursor, up
    to some point. *)
Record serves (g : string) (after : Z) (d : DB) (fs : list bytes) (bs : list OfflineSyncBatchV1) : Prop := {
  sv_frames : Forall2 (fun b f => WriteOfflineJSONFrame b = inl f) bs fs;
  sv_group : Forall (fun b => sb_GroupID b = g) bs;
  sv_entries : exists k, concat (sb_Entries <$> bs) = entry_of <$> take k (log_since g after d);
}.

Lemma serve_group_serves fuel q g after env t d fs oq t' d' :
  log_ok d -> serve_group fuel q g after env t d = (inl (Some (fs, oq)), t', d') ->
  d' = d /\ exists bs, serves g after d fs bs.
Proof.
  intros Hd. revert q after t fs oq t' d'. induction fuel as [|fuel IH]; intros q after t fs oq t' d' E; [done|]. simpl in E.
  assert (H0 : exists bs, serves g after d [] bs) by (exists []; split; [constructor..|by exists 0%nat]).
  unfold sql_bind at 1 in E. unfold sql_try in E.
  destruct (since_run g after env t d) as [Es|[e Es]]; rewrite Es in E; [|by injection E as <- _ _ <-].
  set (L := log_since g after d) in *. set (batch := mkBatch _ _ _) in E.
  destruct (WriteOfflineJSONFrame batch) as [f|e] eqn:Ew; [|by injection E as <- _ _ <-].
  destruct q as [|q]; [by injection E as <- _ _ <-|].
  assert (H1 : serves g after d [f] [batch]).
  { split; [by repeat constructor|by repeat constructor|]. exists 50%nat. simpl. by rewrite app_nil_r. }
  destruct (list.last (take 50 L)) as [r|] eqn:El; [|injection E as <- _ _ <-; by eauto].
  destruct (length (take 50 L) <? 50)%nat eqn:Elen; [injection E as <- _ _ <-; by eauto|].
  unfold sql_bind in E. destruct (serve_group fuel q g (er_Seq r) env (S t) d) as [[[[[fs' oq']|]|e] t1] d1] eqn:Er; [|done..].
  injection E as <- _ _ <-. destruct (IH _ _ _ _ _ _ _ Er) as (-> & bs & [F G [k K]]). split; [done|].
  exists (batch :: bs). split; [by constructor|by constructor|]. exists (50 + k)%nat. rewrite fmap_cons. cbn [concat]. rewrite K.
  rewrite (log_since_next g after d 50 r Hd El). fold L.
  change (sb_Entries batch) with (entry_of <$> take 50 L). by rewrite <- fmap_app, take_take_drop.
Qed.

(** *** Over the wire *)

Lemma written_frame `{JSONLaws A} (v : A) f rest :
  WriteOfflineJSONFrame v = inl f -> json_valid v -> ReadOfflineJSONFrame (f ++ rest) = inl (v, rest).
Proof.
  unfold WriteOfflineJSONFrame. intros E Hv. set (data := json_Marshal v) in *.
  destruct (is_empty data || _) eqn:Es; [discriminate E|]. injection E as <-. apply orb_false_iff in Es as [Hne Hle].
  apply is_empty_false in Hne. rewrite Z.gtb_ltb in Hle. apply Z.ltb_ge in Hle.
  assert (Hpos : (0 < length data)%nat) by (destruct data; [done|simpl; lia]).
  assert (Hmax : offlineMaxFrame = 4194304) by reflexivity.
  unfold ReadOfflineJSONFrame, read_frame. rewrite <- app_assoc, length_app, put_be32_length.
  destruct (Nat.ltb_spec (4 + length (data ++ rest)) 4); [lia|].
  rewrite take_app_length' by done. rewrite be32_put by lia. rewrite drop_app_length' by done.
  destruct (Z.eqb_spec (Z.of_nat (length data)) 0); [lia|]. rewrite Z.gtb_ltb. rewrite (proj2 (Z.ltb_ge _ _)) by lia.
  rewrite length_app. rewrite (proj2 (Z.ltb_ge _ _)) by lia. rewrite Nat2Z.id, take_app_length, drop_app_length.
  unfold data. by rewrite json_round_trip.
Qed.

Lemma written_end rest : read_frame (WriteOfflineEndMarker ++ rest) = inr ErrOfflineStreamEnd.
Proof. reflexivity. Qed.

(** The entries of batches, by group. *)
Definition gather (acc : gmap string (list OfflineSyncEntryV1)) (bs : list OfflineSyncBatchV1)
  : gmap string (list OfflineSyncEntryV1) :=
  foldl (fun acc b => <[sb_GroupID b := default [] (acc !! sb_GroupID b) ++ sb_Entries b]> acc) acc bs.

Definition entries_of (g : string) (bs : list OfflineSyncBatchV1) : list OfflineSyncEntryV1 :=
  concat (sb_Entries <$> filter (fun b => sb_GroupID b = g) bs).

Lemma gather_lookup g bs acc : default [] (gather acc bs !! g) = default [] (acc !! g) ++ entries_of g bs.
Proof.
  unfold entries_of. revert acc. induction bs as [|b bs IH]; intros acc; simpl; [by rewrite app_nil_r|].
  rewrite IH. rewrite filter_cons. case_decide as Hg.
  - subst. rewrite lookup_insert_eq. simpl. by rewrite <- app_assoc.
  - by rewrite lookup_insert_ne.
Qed.

Lemma read_batches_written (bs : list OfflineSyncBatchV1) fs rest acc fuel :
  Forall2 (fun b f => WriteOfflineJSONFrame b = inl f) bs fs -> Forall json_valid bs -> (length bs < fuel)%nat ->
  Puller.read_batches fuel (concat fs ++ WriteOfflineEndMarker ++ rest) acc = inl (gather acc bs).
Proof using JL.
  intros H. revert acc fuel. induction H as [|b f bs fs Hb Hbs IH]; intros acc fuel Hv Hf; (destruct fuel as [|fuel]; [lia|]).
  - reflexivity.
  - apply Forall_cons in Hv as [Hv1 Hv]. cbn [concat Puller.read_batches]. rewrite <- app_assoc.
    rewrite (written_frame b f _ Hb Hv1). rewrite IH; [done|done|simpl in Hf; lia].
Qed.

Lemma read_broken (bs : list OfflineSyncBatchV1) fs acc fuel :
  Forall2 (fun b f => WriteOfflineJSONFrame b = inl f) bs fs -> Forall json_valid bs ->
  forall r, Puller.read_batches fuel (concat fs) acc <> inl r.
Proof using JL.
  intros H. revert acc fuel. induction H as [|b f bs fs Hb Hbs IH]; intros acc fuel Hv r; (destruct fuel as [|fuel]; [done|]).
  - done.
  - apply Forall_cons in Hv as [Hv1 Hv]. cbn [concat Puller.read_batches].
        rewrite (written_frame b f _ Hb Hv1). by apply IH.
Qed.

(** *** Several groups *)

Lemma serve_groups_serve fuel q gs env t d fs oq t' d' :
  log_ok d -> NoDup (rg_GroupID <$> gs) -> serve_groups fuel q gs env t d = (inl (Some (fs, oq)), t', d') ->
  d' = d /\ exists bs : list OfflineSyncBatchV1, Forall2 (fun b f => WriteOfflineJSONFrame b = inl f) bs fs /\
    Forall (fun b => sb_GroupID b ∈ (rg_GroupID <$> gs)) bs /\
    forall rg, rg ∈ gs -> exists k, entries_of (rg_GroupID rg) bs = entry_of <$> take k (log_since (rg_GroupID rg) (rg_AfterSeq rg) d).
Proof.
  intros Hd. revert q t fs oq t' d'. induction gs as [|rg gs IH]; intros q t fs oq t' d' Hn E; simpl in E.
  { injection E as <- _ _ <-. split; [done|]. exists []. split_and!; [constructor..|]. by intros ? ?%not_elem_of_nil. }
  apply NoDup_cons in Hn as [Hnot Hn].
  assert (Hskip : forall bs, Forall (fun b => sb_GroupID b ∈ (rg_GroupID <$> gs)) bs -> entries_of (rg_GroupID rg) bs = []).
  { intros bs Hb. unfold entries_of. rewrite filter_none; [done|]. intros b Hin Hg. rewrite Forall_forall in Hb.
    apply Hnot. rewrite <- Hg. by apply Hb. }
  assert (Hmono : forall bs, Forall (fun b => sb_GroupID b ∈ (rg_GroupID <$> gs)) bs ->
    Forall (fun b => sb_GroupID b ∈ (rg_GroupID <$> rg :: gs)) bs).
  { intros bs Hb. eapply Forall_impl; [exact Hb|]. intros b Hg. by apply list_elem_of_further. }
  destruct (str_eqb_spec (rg_GroupID rg) "") as [H0|H0].
  { destruct (IH _ _ _ _ _ _ Hn E) as (-> & bs & F & G & K). split; [done|]. exists bs. split_and!; [done|by apply Hmono|].
    intros rg' [->|Hin]%elem_of_cons; [|by apply K]. exists 0%nat. by rewrite Hskip. }
  unfold sql_bind at 1 in E.
  destruct (serve_group fuel q (rg_GroupID rg) (rg_AfterSeq rg) env t d) as [[[[[fs1 oq1]|]|e] t1] d1] eqn:E1; [|done..].
  destruct (serve_group_serves _ _ _ _ _ _ _ _ _ _ _ Hd E1) as (-> & bs1 & [F1 G1 [k1 K1]]).
  assert (Hall : entries_of (rg_GroupID rg) bs1 = concat (sb_Entries <$> bs1)).
  { unfold entries_of. rewrite filter_all; [done|]. rewrite Forall_forall in G1. done. }
  assert (Hin1 : Forall (fun b => sb_GroupID b ∈ (rg_GroupID <$> rg :: gs)) bs1).
  { eapply Forall_impl; [exact G1|]. intros b ->. apply list_elem_of_here. }
  assert (Hno1 : forall rg', rg' ∈ gs -> entries_of (rg_GroupID rg') bs1 = []).
  { intros rg' Hin. unfold entries_of. rewrite filter_none; [done|]. intros b Hb Hg. rewrite Forall_forall in G1.
    apply Hnot. rewrite <- (G1 b Hb), Hg. by apply list_elem_of_fmap_2. }
  destruct oq1 as [q1|].
  - unfold sql_bind in E. destruct (serve_groups fuel q1 gs env t1 d) as [[[[[fs2 oq2]|]|e] t2] d2] eqn:E2; [|done..].
    injection E as <- _ _ <-. destruct (IH _ _ _ _ _ _ Hn E2) as (-> & bs2 & F2 & G2 & K2). split; [done|].
    exists (bs1 ++ bs2). split_and!; [by apply Forall2_app|apply Forall_app; split; [done|by apply Hmono]|].
    assert (Happ : forall g, entries_of g (bs1 ++ bs2) = entries_of g bs1 ++ entries_of g bs2).
    { intros g. unfold entries_of. by rewrite filter_app, fmap_app, concat_app. }
    intros rg' [->|Hin]%elem_of_cons; rewrite Happ.
    + exists k1. rewrite (Hskip bs2 G2), app_nil_r, Hall. done.
    + rewrite Hno1 by done. by apply K2.
  - injection E as <- _ _ <-. split; [done|]. exists bs1. split_and!; [done..|].
    intros rg' [->|Hin]%elem_of_cons; [exists k1; by rewrite Hall|exists 0%nat; by rewrite Hno1].
Qed.

(** *** Nothing is left out *)

(** A batch of the log of a group fits into a frame. *)
Definition fits (g : string) (after : Z) (d : DB) : Prop :=
  forall j k hm, exists f, WriteOfflineJSONFrame (mkBatch g (take k (drop j (entry_of <$> log_since g after d))) hm) = inl f.

(** C35: The pages that are served are the whole log: while no statement and no
    write fails and batches fit into frames, the loop of the responder ends,
    and what it writes for a group are frames whose entries, put together, are
    the log of the group above the cursor, each envelope once and in order. *)
Theorem responder_serves_whole_log fuel quota g after env t d :
  log_ok d -> (forall k, sql_fails env k = None) -> fits g after d ->
  (length (log_since g after d) < fuel)%nat -> (length (log_since g after d) < quota)%nat ->
  exists fs bs left_ t', serve_group fuel quota g after env t d = (inl (Some (fs, Some left_)), t', d) /\
    Forall2 (fun b f => WriteOfflineJSONFrame b = inl f) bs fs /\ Forall (fun b => sb_GroupID b = g) bs /\
    concat (sb_Entries <$> bs) = entry_of <$> log_since g after d.
Proof.
  intros Hd Hok. revert quota after t. induction fuel as [|fuel IH]; intros quota after t Hfit Hf Hq; [lia|]. simpl.
  assert (Eg : Store.GetEnvelopesSince g after 50 env t d = (inl (take 50 (log_since g after d)), S t, d)).
  { unfold Store.GetEnvelopesSince, sql_wrap, sql_query. simpl. by rewrite Hok. }
  unfold sql_bind at 1, sql_try. rewrite Eg. set (L := log_since g after d) in *. set (batch := mkBatch _ _ _).
  destruct (Hfit 0%nat 50%nat (length (take 50 L) =? 50)%nat) as [f Ef]. rewrite drop_0, <- fmap_take in Ef.
  change (WriteOfflineJSONFrame batch = inl f) in Ef. rewrite Ef.
  destruct quota as [|quota]; [lia|].
  assert (Hone : (length L < 50)%nat \/ L = [] -> exists fs bs left_ t',
    (inl (Some ([f], Some quota)) : result (option (list bytes * option nat)), S t, d) = (inl (Some (fs, Some left_)), t', d) /\
    Forall2 (fun b f => WriteOfflineJSONFrame b = inl f) bs fs /\ Forall (fun b => sb_GroupID b = g) bs /\
    concat (sb_Entries <$> bs) = entry_of <$> L).
  { intros Hl. exists [f], [batch], quota, (S t). split_and!; [done|by repeat constructor..|]. simpl. rewrite app_nil_r.
    f_equal. apply take_ge. destruct Hl as [?|Hl]; [|rewrite Hl; simpl]; lia. }
  destruct (list.last (take 50 L)) as [r|] eqn:El.
  2: { apply last_None in El. apply Hone. right. destruct L; [done|]. simpl in El. done. }
  destruct (Nat.ltb_spec (length (take 50 L)) 50) as [Hlt|Hge].
  { apply Hone. left. rewrite length_take in Hlt. lia. }
  rewrite length_take in Hge. pose proof (log_since_next g after d 50 r Hd El) as Hnext. fold L in Hnext.
  destruct (IH quota (er_Seq r) (S t)) as (fs & bs & left_ & t' & Es & F & G & K).
  - intros j k hm. rewrite Hnext, fmap_drop, drop_drop. apply Hfit.
  - rewrite Hnext, length_drop. lia.
  - rewrite Hnext, length_drop. lia.
  - unfold sql_bind. rewrite Es. exists (f :: fs), (batch :: bs), left_, t'. split_and!; [done|by constructor|by constructor|].
    rewrite fmap_cons. cbn [concat]. rewrite K, Hnext. change (sb_Entries batch) with (entry_of <$> take 50 L).
    by rewrite <- fmap_app, take_drop.
Qed.
End Serving.

(** ** Synchronisation of two nodes *)

Section Sync.
Context {JQ : JSON OfflineSyncRequestV1} {JB : JSON OfflineSyncBatchV1} {JA : JSON OfflineSyncAckV1}.
Context {JL : JSONLaws OfflineSyncBatchV1} {PC : PeerCodec} {WC : WireCodec} {WL : WireCodecLaws}.
Context {SS : SeqSort} {SL : SeqSortLaws}.
Variable ne : NodeEnv.
Import OfflineWire.

(** What the puller reads of an answer to its request. *)
Lemma answer_read fuel quota puller request rest gs ack env t d frames t' d' f entries :
  log_ok d -> ReadOfflineJSONFrame request = inl (mkSyncRequest 1 gs, rest) -> NoDup (rg_GroupID <$> gs) ->
  (forall g es hm, g ∈ (rg_GroupID <$> gs) -> json_valid (mkBatch g es hm)) ->
  Responder.handleOfflineSyncStream fuel quota true true puller request ack env t d = (inl (Some frames), t', d') ->
  Puller.read_batches f (concat frames) ∅ = inl entries -> (length frames <= f)%nat ->
  (forall rg, rg ∈ gs -> exists k, default [] (entries !! rg_GroupID rg) =
     Responder.entry_of <$> take k (log_since (rg_GroupID rg) (rg_AfterSeq rg) d)) /\
  (forall g, g ∉ (rg_GroupID <$> gs) -> default [] (entries !! g) = []).
Proof using JL.
  intros Hd Hreq Hnd Hval E Hread Hlen. unfold Responder.handleOfflineSyncStream in E. simpl in E. rewrite Hreq in E. simpl in E.
  unfold sql_bind at 1 in E.
  destruct (Responder.serve_groups fuel quota gs env t d) as [[[[[fs oq]|]|e] t1] d1] eqn:Es; [|done..].
  destruct (serve_groups_serve _ _ _ _ _ _ _ _ _ _ Hd Hnd Es) as (-> & bs & F & G & K).
  assert (Hv : Forall json_valid bs).
  { eapply Forall_impl; [exact G|]. intros [g es hm]. simpl. apply Hval. }
  assert (Hbroken : frames = fs -> False).
  { intros ->. by eapply read_broken. }
  destruct oq as [[|q]|]; [injection E as <- _ _; by destruct Hbroken| |injection E as <- _ _; by destruct Hbroken].
  apply bind_inl in E as (u & t2 & d2 & _ & E). unfold sql_ret in E.
  injection E as <- _ _. rewrite concat_app in Hread. cbn [concat] in Hread. rewrite length_app in Hlen. simpl in Hlen.
  rewrite (read_batches_written bs fs [] ∅ f F Hv) in Hread; [|apply Forall2_length in F; lia].
  injection Hread as <-. split.
  - intros rg Hin. destruct (K rg Hin) as [k Hk]. exists k. by rewrite gather_lookup, lookup_empty.
  - intros g Hg. rewrite gather_lookup, lookup_empty. simpl. unfold entries_of. rewrite filter_none; [done|].
    intros b Hb Eb. rewrite Forall_forall in G. apply Hg. rewrite <- Eb. by apply G.
Qed.

(** C7: Synchronisation never skips an envelope.  A responder with a well formed
    log answers the request of a node, whichever of its statements fail; the
    node replays what it has read, one envelope at a time, while its
    coordinators go on working, whichever of its own statements fail.  Then
    every cursor of the node for that responder is as it was, or every envelope
    that the responder has logged between the cursor of the request and the
    new one has been applied, is older than the group's epoch, or is a message
    that the engine has refused to decrypt. *)
Theorem sync_never_skips fuel quota puller remote request rest gs ack env t d frames t' d' f entries order n0 p n g after cursor r :
  env_ok ne -> node_ok ne n0 -> log_ok d ->
  ReadOfflineJSONFrame request = inl (mkSyncRequest 1 gs, rest) -> NoDup (rg_GroupID <$> gs) ->
  (forall g es hm, g ∈ (rg_GroupID <$> gs) -> json_valid (mkBatch g es hm)) ->
  Responder.handleOfflineSyncStream fuel quota true true puller request ack env t d = (inl (Some frames), t', d') ->
  Puller.read_batches f (concat frames) ∅ = inl entries -> (length frames <= f)%nat ->
  pull_run ne (Puller.start_pull remote entries order) n0 p n ->
  mkReqGroup g after ∈ gs -> db_pull_cursors (n_db n) !! (g, peer_String remote) = Some cursor ->
  db_pull_cursors (n_db n0) !! (g, peer_String remote) = Some cursor \/
  (r ∈ (lr_rec <$> Store.group_log g d) -> after < er_Seq r <= cursor -> passed_at ne n g (Responder.entry_of r)).
Proof using JL WL SL.
  intros He Hn0 Hd Hreq Hnd Hval E Hread Hlen Hrun Hin Hcur.
  destruct (answer_read _ _ _ _ _ _ _ _ _ _ _ _ _ _ _ Hd Hreq Hnd Hval E Hread Hlen) as [Hent Hnone].
  assert (Hseq : forall g, NoDup (se_Seq <$> default [] (entries !! g))).
  { intros g'. destruct (decide (g' ∈ (rg_GroupID <$> gs))) as [(rg & -> & Hrg)%list_elem_of_fmap|Hno]; [|rewrite Hnone by done; constructor].
    destruct (Hent rg Hrg) as [k ->]. rewrite <- list_fmap_compose. eapply sublist_NoDup; [apply (log_since_nodup (rg_GroupID rg) (rg_AfterSeq rg) d Hd)|].
    apply (fmap_sublist er_Seq). apply sublist_take. }
  destruct (pull_run_ok ne He remote entries order n0 p n Hn0 Hrun) as [_ En _ _ _ Cs].
  destruct (Cs g (peer_String remote)) as [Hsame|(_ & m & Hm & Hcov)]; [left; congruence|].
  right. intros Hr [Hlo Hhi]. simplify_eq. eapply covered_upto; [rewrite En; apply Hseq|done| |done].
  destruct Hcov as (_ & (e & He1 & <- & _) & _). rewrite En in *. simpl in *.
  destruct (Hent (mkReqGroup g after) Hin) as [k Hk]. simpl in Hk. rewrite Hk in *. apply list_elem_of_fmap_2.
  apply list_elem_of_fmap in He1 as (r0 & -> & Hr0). simpl in Hhi.
  pose proof (log_since_sorted g after d) as Hs. pose proof (log_since_nodup g after d Hd) as Hn.
  assert (HrL : r ∈ log_since g after d) by (by apply log_since_elem).
  rewrite <- (take_drop k (log_since g after d)) in Hs, Hn, HrL. apply elem_of_app in HrL as [|Hr2]; [done|exfalso].
  pose proof (StronglySorted_app_1_elem_of _ _ _ _ _ Hs Hr0 Hr2) as Hle. simpl in Hle.
  rewrite fmap_app in Hn. apply NoDup_app in Hn as (_ & Hdis & _). apply (Hdis (er_Seq r0)); [by apply list_elem_of_fmap_2|].
  assert (er_Seq r0 = er_Seq r) as -> by lia. by apply list_elem_of_fmap_2.
Qed.

(** C23: A pull ends.  Whatever a responder has sent, the puller goes through it
    and finishes, with a depth that is enough for the envelopes buffered in its
    coordinators and the ones received, and as many steps as there are groups
    and entries; its coordinators keep their invariant, and what it
    acknowledges for a group is the number of an entry that it has passed, as
    it has everything received with a lower number, and everything up to the
    number if the responder has not given the same number twice. *)
Theorem pull_ends remote entries order n fuel steps :
  env_ok ne -> node_ok ne n ->
  (forall g ct, n_coords n !! g = Some ct -> (backlog ct.1 + work (Puller.start_pull remote entries order) <= fuel)%nat) ->
  (work (Puller.start_pull remote entries order) <= steps)%nat ->
  exists p' n', Puller.pull_steps ne fuel steps (Puller.start_pull remote entries order) n = Some (p', n') /\
    Puller.pull_done p' = true /\ node_ok ne n' /\
    forall g m, mkAckGroup g m ∈ sa_Groups (Puller.pull_ack p') -> 0 < m /\
      (exists e, e ∈ default [] (entries !! g) /\ se_Seq e = m /\ passed_at ne n' g e) /\
      (forall e, e ∈ default [] (entries !! g) -> se_Seq e < m -> passed_at ne n' g e) /\
      (NoDup (se_Seq <$> default [] (entries !! g)) ->
       forall e, e ∈ default [] (entries !! g) -> se_Seq e <= m -> passed_at ne n' g e).
Proof using WL SL.
  intros He Hn Hf Hs. set (p0 := Puller.start_pull remote entries order) in *.
  destruct (pull_steps_return ne He fuel steps p0 n Hn) as (p' & n' & E & Hd & Hr); [done| |done|].
  { intros g ct Hct. specialize (Hf g ct Hct). lia. }
  destruct (pull_run_ok ne He remote entries order n p' n' Hn Hr) as [Hn' En _ _ Mx _].
  exists p', n'. split_and!; try done. intros g m Hin. unfold Puller.pull_ack in Hin. simpl in Hin.
  apply list_elem_of_fmap in Hin as ([g' m'] & [= -> ->] & Hin). apply list_elem_of_filter in Hin as [_ Hin].
  rewrite stable_sort_elem in Hin. apply elem_of_map_to_list in Hin. pose proof (Mx g' m' Hin) as Hc.
  assert (Hup := fun e Hn => covered_upto ne p' n' g' m' e Hn Hc). destruct Hc as (Hp & Hx & Hc). rewrite En in *. simpl in *. split_and!; eauto.
Qed.
End Sync.
