(* ===== verification/OfflineSyncDemo.v ===== *)
(** * Synchronisation at concrete inputs

    Codecs for the frames, a node with two groups and a responder whose log it
    pulls; the properties of nodes and of synchronisation applied to them, and
    what happens when the engine fails or a batch is too large. *)
From S2P Require Import Prelude GoStrings Sha256 Types Config Hlc Epoch ActiveView SingleWriter.
From S2P Require Import ForkDetector Helpers Database Store StoreSpec.
From S2P Require Import HealStore AppDatabase Runtime Auth AuthSpec.
From S2P Require Import Coordinator CoordBroadcast CoordApplication CoordCommit CoordMessage CoordLogic.
From S2P Require Import CoordReplay CoordHeal CoordInv CoordSafe CoordSafeCommit CoordSafeHeal CoordEvents.
From S2P Require Import CoordStart CoordDemo CoordSpec Node Wire OfflineSync OfflineSyncSpec.

(** ** Codecs *)

Section Lists.
Context {A : Type} `{SerOk A}.
Lemma get_put_list (xs : list A) r fuel :
  (length xs <= fuel)%nat -> get_list fuel (concat ((fun x => x01 :: put x) <$> xs) ++ x00 :: r) = Some (xs, r).
Proof.
  revert fuel. induction xs as [|x xs IH]; intros fuel Hf; [by destruct fuel|]. destruct fuel as [|fuel]; [simpl in Hf; lia|].
  cbn [fmap list_fmap concat app get_list]. rewrite <- app_assoc, get_put. simpl. rewrite IH by (simpl in Hf; lia). done.
Qed.
#[export] Instance list_ser_ok : SerOk (list A).
Proof.
  intros xs r. cbn [get put list_ser]. rewrite <- app_assoc. apply get_put_list. rewrite length_app.
  etrans; [|apply Nat.le_add_r].
  induction xs as [|x xs IH]; simpl; [done|]. rewrite length_app. apply le_n_S. etrans; [exact IH|apply Nat.le_add_l].
Qed.
End Lists.

#[export] Instance entry_ser : Ser OfflineSyncEntryV1 := {|
  put e := put (se_Seq e, se_Envelope e); get l := '((s, w), r) ← get l; Some (mkEntry s w, r) |}.
#[export] Instance entry_ser_ok : SerOk OfflineSyncEntryV1.
Proof. intros [s w] r. cbn [get put entry_ser]. rewrite get_put. done. Qed.
#[export] Instance req_group_ser : Ser OfflineSyncRequestGroup := {|
  put e := put (rg_GroupID e, rg_AfterSeq e); get l := '((g, a), r) ← get l; Some (mkReqGroup g a, r) |}.
#[export] Instance req_group_ser_ok : SerOk OfflineSyncRequestGroup.
Proof. intros [g a] r. cbn [get put req_group_ser]. rewrite get_put. done. Qed.
#[export] Instance ack_group_ser : Ser OfflineSyncAckGroupV1 := {|
  put e := put (ag_GroupID e, ag_AckedSeq e); get l := '((g, a), r) ← get l; Some (mkAckGroup g a, r) |}.
#[export] Instance ack_group_ser_ok : SerOk OfflineSyncAckGroupV1.
Proof. intros [g a] r. cbn [get put ack_group_ser]. rewrite get_put. done. Qed.

(** A codec from a serializer of a type that has the same fields. *)
Definition ser_json {A B} `{Ser B} (to : A -> B) (from : B -> A) : JSON A := {|
  json_Marshal a := put (to a); json_Unmarshal b := from ∘ fst <$> get b; json_valid _ := True |}.

#[export] Instance request_json : JSON OfflineSyncRequestV1 :=
  ser_json (fun q => (sq_V q, sq_Groups q)) (fun x => mkSyncRequest x.1 x.2).
#[export] Instance batch_json : JSON OfflineSyncBatchV1 :=
  ser_json (fun b => (sb_GroupID b, (sb_Entries b, if sb_HasMore b then 1 else 0)))
    (fun x => mkBatch x.1 x.2.1 (x.2.2 =? 1)).
#[export] Instance ack_json : JSON OfflineSyncAckV1 :=
  ser_json (fun a => (sa_V a, sa_Groups a)) (fun x => mkSyncAck x.1 x.2).

#[export] Instance batch_json_laws : JSONLaws OfflineSyncBatchV1.
Proof.
  split.
  - intros [g es hm] _. cbn [json_Marshal json_Unmarshal batch_json ser_json].
    rewrite <- (app_nil_r (put _)), get_put. by destruct hm.
  - intros [[|] es hm]; done.
Qed.

#[export] Instance insertion_sort : SeqSort := {| sort_Seq := stable_sort (fun a b => se_Seq a <? se_Seq b) |}.
#[export] Instance insertion_sort_laws : SeqSortLaws.
Proof.
  split; [apply stable_sort_perm|]. intros es. cbn [sort_Seq insertion_sort].
  assert (W : StrictWeak (fun a b => se_Seq a <? se_Seq b)).
  { split; intros; rewrite ?Z.ltb_lt, ?Z.ltb_ge in *; lia. }
  eapply StronglySorted_impl; [|apply (stable_sort_sorted _ (StrictWeak0 := W))].
  unfold sort_le. intros a b. by rewrite Z.ltb_ge.
Qed.

(** ** A node with two groups *)

Definition demo_group_opts (g : string) : Opts :=
  mkOpts Config.DefaultConfig "B" g [] true None true true true true true true true true true true true.
Definition demo_ne : NodeEnv := mkNodeEnv demo demo_group_opts.

Lemma demo_env_ok : env_ok demo_ne.
Proof. by split. Qed.

(** The coordinator of a second group, started over the tables of the first. *)
Definition second_init : World :=
  match NewCoordinator (demo_group_opts "h") None ["A"] with
  | inl c => mkWorld c (w_db demo_started) (w_tick demo_started) []
  | inr _ => demo_init
  end.
Definition run_second {A} (m : C A) (w : World) : World :=
  match m (env_of demo_ne "h") w with Ok _ w' => w' | _ => w end.
Lemma run_second_Ok {A} (m : C A) w a :
  match m (env_of demo_ne "h") w with Ok b _ => Some b | _ => None end = Some a ->
  m (env_of demo_ne "h") w = Ok a (run_second m w).
Proof. unfold run_second. destruct (m _ w); [|done..]. by intros [= <-]. Qed.
Definition second_created : World := run_second CreateGroup second_init.
Definition second_started : World := run_second Start second_created.

Lemma second_starts : Start (env_of demo_ne "h") second_created = Ok (inl tt) second_started.
Proof. unfold second_started. apply run_second_Ok. vm_compute. reflexivity. Qed.

Lemma second_started_ok : coord_ok (env_of demo_ne "h") second_started.
Proof.
  refine (started_ok _ second_created _ _ second_starts).
  apply startable_fresh; vm_compute; reflexivity.
Qed.

(** The node of two coordinators, the second of which has started over the
    tables of the first. *)
Definition two_groups (w1 w2 : World) : Node :=
  mkNode {["g" := (w_c w1, w_trace w1); "h" := (w_c w2, w_trace w2)]} (w_db w2) (w_tick w2) (c_hlc (w_c w2)).

Lemma two_groups_lookup w1 w2 g ct : n_coords (two_groups w1 w2) !! g = Some ct ->
  (g = "g" /\ ct = (w_c w1, w_trace w1)) \/ (g = "h" /\ ct = (w_c w2, w_trace w2)).
Proof. simpl. intros [[<- <-]|[_ [<- <-]%lookup_singleton_Some]]%lookup_insert_Some; auto. Qed.

Lemma started_coord_ok env w tick h : coord_ok env w -> coord_ok env (mkWorld (set_c_hlc h (w_c w)) (w_db w) tick (w_trace w)).
Proof. intros [C [S1 S2] T]. split; [by eapply same_core_components; [|exact C]|by split|done]. Qed.

Lemma two_groups_ok ne w1 w2 :
  env_ok ne -> coord_ok (env_of ne "g") w1 -> coord_ok (env_of ne "h") w2 -> unnoticed "h" (w_db w1) (w_db w2) ->
  heal_ok w1 -> heal_ok w2 -> node_ok ne (two_groups w1 w2).
Proof.
  intros He O1 O2 U H1 H2.
  split; intros g ct [[-> ->]|[-> ->]]%two_groups_lookup.
  - apply (unnoticed_coord ne "h" "g" _ (mkNode ∅ (w_db w1) 0 (c_hlc (w_c w1)))); [apply He|discriminate|exact U|].
    by apply started_coord_ok.
  - by apply started_coord_ok.
  - apply (unnoticed_heal "h" _ (mkNode ∅ (w_db w1) 0 (c_hlc (w_c w1)))); [exact U|]. by destruct H1.
  - by destruct H2.
Qed.

Definition demo_node : Node := two_groups demo_started second_started.

Lemma second_unnoticed : unnoticed "h" (w_db demo_started) (w_db second_started).
Proof.
  assert (Hj : db_heal_jobs (w_db second_started) = []) by (vm_compute; reflexivity).
  assert (Ho : db_pending_ops (w_db second_started) = []) by (vm_compute; reflexivity).
  split.
  - apply applied_mono_eq. vm_compute. reflexivity.
  - intros g Hg.
    assert (E : delete "h" (db_groups (w_db second_started)) = delete "h" (db_groups (w_db demo_started))) by (vm_compute; reflexivity).
    by rewrite <- (lookup_delete_ne _ "h" g), E, lookup_delete_ne.
  - rewrite Ho. constructor.
  - rewrite Hj. constructor.
Qed.

Lemma second_heal_ok : heal_ok second_started.
Proof.
  assert (Hj : db_heal_jobs (w_db second_started) = []) by (vm_compute; reflexivity).
  split; [rewrite Hj; constructor|vm_compute; reflexivity].
Qed.

Lemma demo_node_ok : node_ok demo_ne demo_node.
Proof.
  exact (two_groups_ok demo_ne demo_started second_started demo_env_ok demo_started_ok second_started_ok
    second_unnoticed demo_heal_ok second_heal_ok).
Qed.

Lemma groups_do_not_interfere_witness :
  exists n', on_group demo_ne "g" (handle_event 1 (EvMessage "A" demo_wire)) demo_node = Some (tt, n') /\
    n_coords n' !! "h" = n_coords demo_node !! "h".
Proof.
  destruct (groups_do_not_interfere demo_ne demo_node demo_node "g" (EvMessage "A" demo_wire) 1
    (w_c demo_started, w_trace demo_started)) as (n' & E & Ho & _);
    [apply demo_env_ok|apply demo_node_ok|constructor|vm_compute; reflexivity|apply Nat.leb_le; vm_compute; reflexivity|].
  exists n'. split; [exact E|]. apply Ho. discriminate.
Defined.

(** ** A responder *)

(** A peer has logged a message and a commit of the group. *)
Definition server_put (ty : string) (wire : bytes) (d : DB) : DB :=
  (Store.AppendEnvelopeWithSource "g" ty 0 (mkHLC 1000000 0 "A") wire "local" (e_sql demo) O d).2.
Definition server_db : DB := server_put MsgCommit (demo_commit_wire "A" 1000000) (server_put MsgApplication demo_wire db_empty).

Lemma server_put_ok ty wire d : log_ok d -> log_ok (server_put ty wire d).
Proof.
  intros Hd. pose proof (append_log "g" ty 0 (mkHLC 1000000 0 "A") wire "local" (e_sql demo) 0%nat d) as H.
  unfold server_put. destruct (Store.AppendEnvelopeWithSource _ _ _ _ _ _ _ _ _) as [[r t] d']. by apply H.
Qed.

Lemma server_ok : log_ok server_db.
Proof. apply server_put_ok, server_put_ok. split; constructor. Qed.

Lemma log_since_head g after d r rs : log_since g after d = r :: rs -> r ∈ (lr_rec <$> Store.group_log g d).
Proof. intros E. apply (log_since_elem g after d r). rewrite E. left. Qed.

Lemma server_entries : (Responder.entry_of <$> log_since "g" 0 server_db) =
  [mkEntry 1 demo_wire; mkEntry 2 (demo_commit_wire "A" 1000000)].
Proof. vm_compute. reflexivity. Qed.

Lemma server_fits : fits "g" 0 server_db.
Proof.
  intros j k hm. rewrite server_entries.
  destruct j as [|[|j]]; destruct k as [|[|k]]; simpl; rewrite ?take_nil, ?drop_nil;
    destruct hm; eexists; vm_compute; reflexivity.
Qed.

Lemma responder_serves_whole_log_witness :
  exists fs bs left_ t', Responder.serve_group 3 3 "g" 0 (e_sql demo) O server_db = (inl (Some (fs, Some left_)), t', server_db) /\
    concat (sb_Entries <$> bs) = [mkEntry 1 demo_wire; mkEntry 2 (demo_commit_wire "A" 1000000)].
Proof.
  destruct (responder_serves_whole_log 3 3 "g" 0 (e_sql demo) O server_db) as (fs & bs & l & t' & E & _ & _ & K);
    [apply server_ok|intros k; reflexivity|apply server_fits|apply Nat.ltb_lt; vm_compute; reflexivity..|].
  exists fs, bs, l, t'. split; [exact E|]. rewrite K. apply server_entries.
Defined.

(** ** A pull *)

Definition demo_request : bytes :=
  match OfflineWire.WriteOfflineJSONFrame (mkSyncRequest 1 [mkReqGroup "g" 0; mkReqGroup "h" 0]) with inl b => b | inr _ => [] end.
Definition demo_answer : list bytes :=
  match Responder.handleOfflineSyncStream 3 9 true true "B" demo_request [] (e_sql demo) O server_db with
  | (inl (Some fs), _, _) => fs
  | _ => []
  end.
Definition demo_entries : gmap string (list OfflineSyncEntryV1) :=
  match Puller.read_batches 9 (concat demo_answer) ∅ with inl m => m | inr _ => ∅ end.

Definition demo_pull : option (Pull * Node) :=
  Puller.pull_steps demo_ne 6 9 (Puller.start_pull "A" demo_entries ["g"; "h"]) demo_node.

(** Both envelopes are applied: the epoch is the commit's, and the cursor and
    the acknowledgement are at the end of the log. *)
Example demo_pull_applies :
  (fun r => (c_epoch ∘ fst <$> n_coords r.2 !! "g", db_pull_cursors (n_db r.2) !! ("g", "A"), Puller.pull_ack r.1)) <$> demo_pull =
  Some (Some 1, Some 2, mkSyncAck 1 [mkAckGroup "g" 2]).
Proof. vm_compute. reflexivity. Qed.

Lemma demo_depth g ct : n_coords demo_node !! g = Some ct ->
  (backlog ct.1 + work (Puller.start_pull "A" demo_entries ["g"; "h"]) <= 6)%nat.
Proof.
  intros [[_ ->]|[_ ->]]%two_groups_lookup; apply Nat.leb_le; vm_compute; reflexivity.
Qed.

Lemma pull_ends_witness :
  exists p' n', demo_pull = Some (p', n') /\ Puller.pull_done p' = true /\ node_ok demo_ne n'.
Proof.
  destruct (pull_ends demo_ne "A" demo_entries ["g"; "h"] demo_node 6 9) as (p' & n' & E & D & O & _);
    [apply demo_env_ok|apply demo_node_ok|apply demo_depth|apply Nat.leb_le; vm_compute; reflexivity|].
  exists p', n'. split; [exact E|]. split; [exact D|exact O].
Defined.

Lemma demo_pull_run : exists p n, demo_pull = Some (p, n) /\ pull_run demo_ne (Puller.start_pull "A" demo_entries ["g"; "h"]) demo_node p n.
Proof.
  destruct (pull_steps_return demo_ne demo_env_ok 6 9 (Puller.start_pull "A" demo_entries ["g"; "h"]) demo_node demo_node_ok)
    as (p & n & E & _ & R); [intros g l rest H; discriminate H| |apply Nat.leb_le; vm_compute; reflexivity|].
  - intros g ct H. apply le_n_S, (demo_depth g ct H).
  - exists p, n. split; [exact E|exact R].
Qed.

Lemma sync_never_skips_witness :
  exists p n, demo_pull = Some (p, n) /\ passed_at demo_ne n "g" (mkEntry 1 demo_wire).
Proof.
  destruct demo_pull_run as (p & n & E & R). exists p, n. split; [exact E|].
  assert (Ec : (fun r => db_pull_cursors (n_db r.2) !! ("g", "A")) <$> demo_pull = Some (Some 2)) by (vm_compute; reflexivity).
  rewrite E in Ec. apply Some_inj in Ec.
  destruct (log_since "g" 0 server_db) as [|r rs] eqn:El; [vm_compute in El; discriminate|].
  assert (Hr : Responder.entry_of r = mkEntry 1 demo_wire).
  { pose proof server_entries as Hs. rewrite El in Hs. exact (f_equal (List.hd (mkEntry 0 [])) Hs). }
  rewrite <- Hr.
  destruct (sync_never_skips demo_ne 3 9 "B" "A" demo_request [] [mkReqGroup "g" 0; mkReqGroup "h" 0] [] (e_sql demo) O server_db
    demo_answer 2 server_db 9 demo_entries ["g"; "h"] demo_node p n "g" 0 2 r) as [Hold|Hnew].
  - apply demo_env_ok.
  - apply demo_node_ok.
  - apply server_ok.
  - vm_compute. reflexivity.
  - apply (bool_decide_eq_true _). vm_compute. reflexivity.
  - intros. exact I.
  - vm_compute. reflexivity.
  - vm_compute. reflexivity.
  - apply Nat.leb_le. vm_compute. reflexivity.
  - exact R.
  - left.
  - exact Ec.
  - exfalso. assert (Hn : db_pull_cursors (n_db demo_node) !! ("g", "A") = None) by (vm_compute; reflexivity).
    exact (eq_ind None (fun o => match o with None => True | Some _ => False end) I _ (eq_trans (eq_sym Hn) Hold)).
  - apply Hnew.
    + exact (log_since_head "g" 0 server_db r rs El).
    + pose proof (f_equal se_Seq Hr : er_Seq r = 1) as Hs. rewrite Hs. lia.
Defined.
