(* ===== verification/Recovery.v ===== *)
(** * Recovery replay

    [service/recovery_replay.go]: after a pull has moved the cursor of a group,
    and when the node starts, the envelopes of the group that are logged but
    not applied are replayed into its coordinator, epoch by epoch; a group that
    stays stuck is pulled again and, the third time, healed. *)
From S2P Require Import Prelude GoStrings Sha256 Types Config Hlc Epoch ActiveView SingleWriter.
From S2P Require Import ForkDetector Helpers Database Store StoreSpec.
From S2P Require Import HealStore AppDatabase Runtime Auth AuthSpec.
From S2P Require Import Coordinator CoordBroadcast CoordApplication CoordCommit.
From S2P Require Import CoordMessage CoordMembers CoordLogic.
From S2P Require Import CoordReplay CoordHeal CoordInv CoordSafe CoordSafeCommit CoordSafeHeal CoordEvents.
From S2P Require Import CoordStart CoordDemo CoordSpec Node Wire OfflineSync OfflineSyncSpec OfflineSyncDemo.

(** ** Model *)

Module Recovery.
Section Replay.
Context {PC : PeerCodec} {WC : WireCodec}.

(** [emitReplayBlocked]: the event log of the group and the user interface get
    the same payload; nothing without a group or a reason. *)
Definition emitReplayBlocked (groupID reason : string) (rec : EnvelopeRecord) (result : ReplayEnvelopeResult) : list RtEffect :=
  let groupID := TrimSpace groupID in
  let reason := TrimSpace reason in
  if str_eqb groupID "" || str_eqb reason "" then []
  else
    [AppendGroupEvent groupID "replay_blocked" "" "" (rr_LocalEpoch result);
     Emit "group:replay_blocked"
       [("group_id", groupID); ("reason", reason); ("state", rr_State result); ("seq", print_Z (er_Seq rec));
        ("msg_epoch", print_Z (rr_MsgEpoch result)); ("local_epoch", print_Z (rr_LocalEpoch result));
        ("error", rr_Error result); ("envelope_hash", hex_EncodeToString (rr_EnvelopeHash result));
        ("user_visible", if str_eqb reason "stale_epoch_requires_recovery_snapshot" then "false" else "true")]].

(** The variables of the loop: [newEnvelopesApplied], [hasPendingEnvelopes],
    [progressed], and what has been reported. *)
Record Progress := mkProgress { pg_applied : Z; pg_pending : bool; pg_progressed : bool; pg_blocked : list RtEffect }.

(** Marking an envelope as blocked; a mark that fails is logged only. *)
Definition block (gid : string) (state : ReplayEnvelopeState) (mark reason : string) (progressed : bool)
  (rec : EnvelopeRecord) (result : ReplayEnvelopeResult) (pg : Progress) : C Progress :=
  t <-- now ;
  db (Store.MarkEnvelopeReplayState gid (er_EnvelopeHash rec) state mark t) ;;;
  ret (mkProgress (pg_applied pg) (pg_pending pg) progressed (pg_blocked pg ++ emitReplayBlocked gid reason rec result)).

(** The [switch] on the state of the result. *)
Definition after_replay (gid : string) (rec : EnvelopeRecord) (result : ReplayEnvelopeResult) (pg : Progress) : C Progress :=
  let state := rr_State result in
  if str_eqb state ReplayStateApplied then
    ret (mkProgress (pg_applied pg + 1) (pg_pending pg) true (pg_blocked pg))
  else if str_eqb state ReplayStateDuplicateApplied then
    ret (mkProgress (pg_applied pg) (pg_pending pg) true (pg_blocked pg))
  else if str_eqb state ReplayStateStaleEpoch then
    let reason := "stale_epoch_requires_recovery_snapshot" in
    block gid ReplayStateBlockedStaleRequiresSnapshot reason reason true rec result pg
  else if str_eqb state ReplayStateDecryptFailed then
    let reason := "decrypt_failed_or_missing_past_key" in
    block gid ReplayStateBlockedDecryptFailed reason reason true rec result pg
  else if str_eqb state ReplayStateFutureEpoch then
    let reason := "future_epoch_missing_prior_commit" in
    block gid ReplayStateBlockedMissingPriorEpoch reason reason false rec result pg
  else block gid ReplayStateBlockedDecryptFailed state state false rec result pg.

(** The loop over the records of a round. *)
Fixpoint replay_records (fuel : nat) (gid : string) (records : list EnvelopeRecord) (pg : Progress) : C Progress :=
  match records with
  | [] => ret pg
  | rec :: rest =>
      results <-- ReplayEnvelopesDetailed fuel [er_Envelope rec] ;
      match results with
      | inl (result :: _) =>
          pg' <-- after_replay gid rec result pg ;
          if pg_progressed pg' then replay_records fuel gid rest pg' else ret pg'
      | _ => ret pg
      end
  end.

(** The rounds; [None] once [rounds] of them have passed and another one is
    due. *)
Fixpoint replay_rounds (fuel rounds : nat) (gid : string) (pg : Progress) : C (option Progress) :=
  match rounds with
  | O => ret None
  | S rounds' =>
      got <-- db (Store.GetPendingEnvelopes gid 100) ;
      match got with
      | inr _ | inl [] => ret (Some pg)
      | inl records =>
          pg' <-- replay_records fuel gid records (mkProgress (pg_applied pg) true false (pg_blocked pg)) ;
          if pg_progressed pg' then replay_rounds fuel rounds' gid pg' else ret (Some pg')
      end
  end.

(** What is started at the end. *)
Inductive FollowUp := FNothing | FPull (from : peerID) | FNobody | FHeal.

(** [replayPendingEnvelopesForGroup] on the coordinator of the group;
    [connected] tells which peers the host is connected to, [host] is its id
    if there is a node. *)
Definition replayPendingEnvelopesForGroup (fuel rounds : nat) (gid : string) (host : option peerID)
  (connected : peerID -> bool) : C (option (FollowUp * list RtEffect)) :=
  if str_eqb gid "" then ret (Some (FNothing, []))
  else
    startEpoch <-- CurrentEpoch ;
    SetOperationalMode ModeCatchingUp ;;;
    done <-- replay_rounds fuel rounds gid (mkProgress 0 false false []) ;
    match done with
    | None => ret None
    | Some pg =>
        endEpoch <-- CurrentEpoch ;
        next <-- (if (0 <? pg_applied pg) || (startEpoch <? endEpoch) then
                    ResetSyncRetryAttempts ;;; ret FNothing
                  else if pg_pending pg then
                    attempts <-- IncrementSyncRetryAttempts ;
                    if attempts <? 3 then
                      av <-- gets c_activeView ;
                      ret (match host with
                           | None => FNothing
                           | Some h =>
                               match head (filter (fun m => m <> h /\ connected m = true) (ActiveView.Members av)) with
                               | Some m => if str_eqb m "" then FNobody else FPull m
                               | None => FNobody
                               end
                           end)
                    else ret FHeal
                  else ret FNothing) ;
        SetOperationalMode ModeLive ;;;
        ret (Some (next, pg_blocked pg))
    end.
End Replay.
End Recovery.

(** ** Soundness *)

Section Soundness.
Context {PC : PeerCodec} {WC : WireCodec} {WL : WireCodecLaws}.
Variable env : Env.
Hypothesis Hmls : o_HasMLS (e_opts env) = true.
Hypothesis Hdelay : 0 < Config.BatchingDelay (o_Config (e_opts env)).
Import Recovery.

(** What replaying [k] envelopes from [w] on leaves. *)
Record kept (k : nat) (w w' : World) : Prop := {
  kp_ok : coord_ok env w';
  kp_extends : extends env w w';
  kp_backlog : (backlog (w_c w') <= k + backlog (w_c w))%nat;
}.

Lemma kept_refl w : coord_ok env w -> kept 0 w w.
Proof. intros H. by split. Qed.
Lemma kept_trans j k w1 w2 w3 : kept j w1 w2 -> kept k w2 w3 -> kept (j + k) w1 w3.
Proof. intros [O1 X1 B1] [O2 X2 B2]. split; [done|by etrans|lia]. Qed.
Lemma kept_more j k w w' : (j <= k)%nat -> kept j w w' -> kept k w w'.
Proof. intros Hle [O X B]. split; [done..|lia]. Qed.
Lemma kept_evolves w w' : coord_ok env w -> evolves env ∅ w w' -> kept 0 w w'.
Proof.
  intros Hw H. destruct (H Hw) as (O & X & F). split; [done..|]. unfold backlog. apply subseteq_size. set_solver.
Qed.

Lemma kept_modify k f w w' : kept k w w' -> same_core (w_c w') (f (w_c w')) -> kept k w (with_c f w').
Proof.
  intros K Hf. rewrite <- (Nat.add_0_r k). eapply kept_trans; [exact K|]. apply kept_evolves; [apply K|]. by apply evolves_core.
Qed.

(** One envelope through the coordinator. *)
Lemma wp_replay_single fuel raw w :
  coord_ok env w -> (S (backlog (w_c w)) <= fuel)%nat ->
  wp env (ReplayEnvelopesDetailed fuel [raw]) (fun rs w' => kept 1 w w' /\
    forall r rest, rs = inl (r :: rest) -> Puller.offlineSyncShouldAdvanceCursor (rr_State r) = true ->
      exists en, dec_envelope raw = inl en /\ settled env raw en w') w.
Proof using Hmls Hdelay WL.
  intros Hw Hf. assert (H0 : kept 1 w w) by (apply (kept_more 0); [lia|by apply kept_refl]).
  unfold ReplayEnvelopesDetailed. wp_run. case_match; wp_run; [by split|].
  unfold replay_all. case_match; wp_run; [by split|]. destruct (dec_envelope raw) as [en|e] eqn:Hdec.
  - eapply wp_mono; [by apply wp_replay_one|]. intros r w1 (O & X & B & S1). wp_run. split; [by split|].
    intros r' rest [= <- <-] Ha. exists en. auto.
  - unfold replay_one. rewrite Hdec. wp_run. split; [done|]. by intros r' rest [= <- <-].
Qed.

Lemma wp_block gid st mark reason b rec r pg w :
  coord_ok env w -> wp env (block gid st mark reason b rec r pg) (fun pg' w' => kept 0 w w' /\
    pg_progressed pg' = b /\ pg_applied pg' = pg_applied pg /\ pg_pending pg' = pg_pending pg) w.
Proof.
  intros Hw. unfold block. wp_run. rewrite wp_db.
  match goal with |- context [Store.MarkEnvelopeReplayState ?a ?b ?c ?d ?x ?s ?t ?z] =>
    pose proof (MarkEnvelopeReplayState_frame a b c d x s t z) as Hfr;
    destruct (Store.MarkEnvelopeReplayState a b c d x s t z) as [[ap t1] d1] end.
  wp_run. split; [|done]. apply kept_evolves; [done|]. etrans; [apply evolves_tick|]. by apply evolves_db, frame_kept.
Qed.

(** What the [switch] leaves: it goes on only past results that the cursor of
    a pull passes too. *)
Lemma wp_after_replay gid rec r pg w :
  coord_ok env w -> wp env (after_replay gid rec r pg) (fun pg' w' => kept 0 w w' /\
    (pg_progressed pg' = true -> Puller.offlineSyncShouldAdvanceCursor (rr_State r) = true) /\
    pg_applied pg <= pg_applied pg' <= pg_applied pg + 1 /\ pg_pending pg' = pg_pending pg /\
    (pg_progressed pg' = false -> pg_applied pg' = pg_applied pg)) w.
Proof.
  intros Hw. unfold after_replay, Puller.offlineSyncShouldAdvanceCursor. pose proof (kept_refl w Hw) as H0.
  repeat match goal with
    | |- context [if str_eqb ?a ?b then _ else _] => destruct (str_eqb a b) eqn:?
    end; wp_run; try (simpl; split_and!; done || lia).
  all: eapply wp_mono; [by apply wp_block|]; intros pg' w' (K & -> & -> & ->); split_and!; try done; try lia.
Qed.

(** The records that have been gone past. *)
Definition settled_rec (w : World) (rec : EnvelopeRecord) : Prop :=
  exists en, dec_envelope (er_Envelope rec) = inl en /\ settled env (er_Envelope rec) en w.

Lemma settled_rec_kept k w w' rec : kept k w w' -> settled_rec w rec -> settled_rec w' rec.
Proof. intros [_ X _] (en & Hd & Hs). exists en. split; [done|]. by eapply settled_extends. Qed.

(** A round: it goes on only when it has settled something, and counts as
    applied no more than it has settled. *)
Lemma wp_replay_records fuel gid records pg w :
  coord_ok env w -> (length records + backlog (w_c w) <= fuel)%nat ->
  wp env (replay_records fuel gid records pg) (fun pg' w' => kept (length records) w w' /\
    exists dn, dn `prefix_of` records /\ Forall (settled_rec w') dn /\
      pg_applied pg <= pg_applied pg' <= pg_applied pg + Z.of_nat (length dn) /\ pg_pending pg' = pg_pending pg /\
      (pg_progressed pg' = true -> dn = [] -> pg_progressed pg = true)) w.
Proof using Hmls Hdelay WL.
  revert pg w. induction records as [|rec rest IH]; intros pg w Hw Hf.
  { simpl. wp_run. split; [by apply kept_refl|]. exists []. split_and!; try done; simpl; lia. }
  simpl in *. wp_run. eapply wp_mono; [apply wp_replay_single; [done|lia]|]. intros rs w1 [K1 S1].
  assert (Hstop : kept (S (length rest)) w w1 /\ exists dn, dn `prefix_of` rec :: rest /\ Forall (settled_rec w1) dn /\
      pg_applied pg <= pg_applied pg <= pg_applied pg + Z.of_nat (length dn) /\ pg_pending pg = pg_pending pg /\
      (pg_progressed pg = true -> dn = [] -> pg_progressed pg = true)).
  { split; [by apply (kept_more 1); [lia|]|]. exists []. split_and!; try done; simpl; [apply prefix_nil|lia..]. }
  destruct rs as [[|r rs]|e]; wp_run; try done. clear Hstop.
  eapply wp_mono; [apply wp_after_replay, K1|]. intros pg1 w2 (K2 & Ha & Hc & Hp & Hn).
  pose proof (kept_trans _ _ _ _ _ K1 K2) as K12. destruct (pg_progressed pg1) eqn:Eg.
  - assert (Hrec : settled_rec w2 rec) by (eapply settled_rec_kept; [exact K2|]; destruct (S1 r rs eq_refl (Ha eq_refl)) as (en & ? & ?); by exists en).
    eapply wp_mono; [apply IH; [apply K2|]|].
    + destruct K12 as [_ _ B]. simpl in B. lia.
    + intros pg2 w3 [K3 (dn & Hpre & Hs & Hcnt & Hp2 & _)]. split; [by apply (kept_trans _ _ _ _ _ K12 K3)|].
      exists (rec :: dn). split_and!; [by apply prefix_cons| |simpl; lia..|congruence|done].
      constructor; [by eapply settled_rec_kept|done].
  - wp_run. split; [by apply (kept_more (1 + 0)); [lia|]|]. exists []. split_and!; [apply prefix_nil|constructor|simpl; rewrite Hn by done; lia..|done|].
    by rewrite Eg.
Qed.

Lemma pending_run gid t d r t' d' :
  Store.GetPendingEnvelopes gid 100 (e_sql env) t d = (r, t', d') ->
  d' = d /\ forall recs, r = inl recs -> (length recs <= 100)%nat.
Proof.
  unfold Store.GetPendingEnvelopes, sql_wrap, sql_query. destruct (sql_fails _ _); intros [= <- <- <-]; (split; [done|]).
  - done.
  - intros recs [= <-]. rewrite length_take. apply Nat.le_min_l.
Qed.

Lemma wp_replay_rounds fuel rounds gid pg w :
  coord_ok env w -> (100 * rounds + backlog (w_c w) <= fuel)%nat ->
  wp env (replay_rounds fuel rounds gid pg) (fun r w' => kept (100 * rounds) w w' /\
    forall pg', r = Some pg' -> pg_applied pg <= pg_applied pg') w.
Proof using Hmls Hdelay WL.
  revert pg w. induction rounds as [|rounds IH]; intros pg w Hw Hf.
  { simpl. wp_run. split; [by apply kept_refl|done]. }
  cbn [replay_rounds]. wp_run. rewrite wp_db.
  destruct (Store.GetPendingEnvelopes _ _ _ _ _) as [[got t1] d1] eqn:Eg. apply pending_run in Eg as [-> Hlen].
  set (w1 := with_db _ t1 w). assert (K1 : kept 0 w w1) by (apply kept_evolves; [done|]; apply evolves_db, frame_kept; reflexivity).
  assert (Hend : kept (100 * S rounds) w w1 /\ forall pg', Some pg = Some pg' -> pg_applied pg <= pg_applied pg').
  { split; [by apply (kept_more 0); [lia|]|]. by intros pg' [= <-]. }
  destruct got as [[|rec recs]|e]; wp_run; try exact Hend. clear Hend. specialize (Hlen _ eq_refl).
  assert (B1 := kp_backlog _ _ _ K1). eapply wp_mono; [apply wp_replay_records; [apply K1|lia]|].
  intros pg1 w2 [K2 (dn & _ & _ & Hc & _ & _)]. pose proof (kept_trans _ _ _ _ _ K1 K2) as K12. simpl in Hc.
  assert (B12 := kp_backlog _ _ _ K12). case_match; wp_run.
  - eapply wp_mono; [apply IH; [apply K2|lia]|]. intros r w3 [K3 Hr]. split.
    + eapply kept_more; [|by apply (kept_trans _ _ _ _ _ K12 K3)]. lia.
    + intros pg' E. specialize (Hr pg' E). lia.
  - split; [by eapply kept_more; [|exact K12]; lia|]. intros pg' [= <-]. lia.
Qed.

(** C22: Recovery keeps a coordinator safe.  Whatever is logged for the group and
    whichever statements fail, for as long as the replay goes on the invariant
    of the coordinator holds, its epoch and what it has applied and delivered
    only grow, and other groups are not touched; when it ends the group is live
    again, and it asks for the destructive heal only if the epoch has stayed and
    this was at least the third attempt in a row without progress.  The replay
    is one action here, to which no message of the group comes in between. *)
Theorem recovery_keeps_group_safe fuel rounds gid host connected w :
  coord_ok env w -> (100 * rounds + backlog (w_c w) <= fuel)%nat -> gid <> "" ->
  exists r w', replayPendingEnvelopesForGroup fuel rounds gid host connected env w = Ok r w' /\
    coord_ok env w' /\ extends env w w' /\
    forall next bs, r = Some (next, bs) -> c_operationalMode (w_c w') = ModeLive /\
      (next = FHeal -> c_epoch (w_c w') = c_epoch (w_c w) /\ 3 <= c_syncRetryAttempts (w_c w')).
Proof using Hmls Hdelay WL.
  intros Hw Hf Hgid. cut (wp env (replayPendingEnvelopesForGroup fuel rounds gid host connected) (fun r w' =>
    (coord_ok env w' /\ extends env w w') /\ forall next bs, r = Some (next, bs) -> c_operationalMode (w_c w') = ModeLive /\
      (next = FHeal -> c_epoch (w_c w') = c_epoch (w_c w) /\ 3 <= c_syncRetryAttempts (w_c w'))) w).
  { unfold wp. destruct (replayPendingEnvelopesForGroup _ _ _ _ _ _ _) as [r w'| |]; [|done..]. intros [[? ?] ?]. by exists r, w'. }
  unfold replayPendingEnvelopesForGroup. destruct (str_eqb_spec gid ""); [done|]. unfold CurrentEpoch, SetOperationalMode. wp_run.
  assert (K1 : kept 0 w (with_c (set_c_operationalMode ModeCatchingUp) w)) by (by apply kept_modify; [apply kept_refl|]).
  assert (B1 := kp_backlog _ _ _ K1). eapply wp_mono; [apply wp_replay_rounds; [apply K1|lia]|]. intros r w2 [K2 Hr].
  pose proof (kept_trans _ _ _ _ _ K1 K2) as K. destruct r as [pg|]; wp_run; [|by split; [split; apply K|]].
  assert (Hfin : forall k w3, kept k w w3 -> coord_ok env (with_c (set_c_operationalMode ModeLive) w3) /\
    extends env w (with_c (set_c_operationalMode ModeLive) w3)).
  { intros k w3 K3. assert (K4 : kept k w (with_c (set_c_operationalMode ModeLive) w3)) by (by apply kept_modify). by destruct K4. }
  pose proof (ex_epoch _ _ _ (kp_extends _ _ _ K)) as He.
  case_match eqn:Hprog; [|case_match]; unfold ResetSyncRetryAttempts, IncrementSyncRetryAttempts; wp_run.
  - split; [by eapply Hfin, kept_modify; [apply kept_modify; [exact K|]|]|]. by intros next bs [= <- <-].
  - apply orb_false_iff in Hprog as [_ Hep%Z.ltb_ge].
    case_match eqn:Hatt; wp_run; (split; [by eapply Hfin, kept_modify; [exact K|]|]).
    + intros next bs [= <- <-]. split; [done|]. repeat case_match; done.
    + intros next bs [= <- <-]. split; [done|]. intros _. apply Z.ltb_ge in Hatt. simpl in *. lia.
  - split; [by eapply Hfin|]. by intros next bs [= <- <-].
Qed.
End Soundness.

(** ** At a concrete group *)

(** The message of "A" has been logged by a pull, but not yet applied. *)
Definition demo_behind : World :=
  run_world (db (Store.AppendEnvelopeWithSource "g" MsgApplication 0 (mkHLC 1000000 0 "A") demo_wire "offline_sync")) demo_started.

Lemma append_keeps_ok w :
  coord_ok demo w -> coord_ok demo (run_world (db (Store.AppendEnvelopeWithSource "g" MsgApplication 0 (mkHLC 1000000 0 "A") demo_wire "offline_sync")) w).
Proof.
  intros Hw. unfold run_world, db.
  pose proof (AppendEnvelopeWithSource_frame "g" MsgApplication 0 (mkHLC 1000000 0 "A") demo_wire "offline_sync"
    (e_sql demo) (w_tick w) (w_db w)) as Hf.
  destruct (Store.AppendEnvelopeWithSource _ _ _ _ _ _ _ _ _) as [[r t] d].
  assert (H : evolves demo ∅ w (with_db d t w)) by (apply evolves_db, frame_kept; exact Hf). exact (proj1 (H Hw)).
Qed.

Lemma demo_behind_ok : coord_ok demo demo_behind.
Proof. apply append_keeps_ok, demo_started_ok. Qed.

Definition only_a (p : peerID) : bool := str_eqb p "A".

Lemma recovery_keeps_group_safe_witness :
  exists r w', Recovery.replayPendingEnvelopesForGroup 200 2 "g" (Some "B") only_a demo demo_behind = Ok r w' /\ coord_ok demo w'.
Proof.
  destruct (recovery_keeps_group_safe demo eq_refl eq_refl 200 2 "g" (Some "B") only_a demo_behind) as (r & w' & E & O & _);
    [apply demo_behind_ok|apply Nat.leb_le; vm_compute; reflexivity|discriminate|].
  exists r, w'. split; [exact E|exact O].
Defined.

(** The environment with other failures of statements, and an engine that may
    refuse to decrypt. *)
Definition with_failures (fails : nat -> bool) (decrypts : bool) : Env :=
  let e := demo in
  mkEnv (e_opts e) (mkSqlEnv (fun t => if fails t then Some "disk I/O error" else None) (fun t => Z.of_nat t * Second) (fun _ => 0) true)
    (e_clock e) (e_random e) (e_connected e) (e_subscribe e) (e_known_order e)
    (ed25519_public e) (e_nonce e) (gcm_Seal e) (gcm_Open e) (mls_CreateGroup e) (mls_CreateProposal e)
    (mls_ProcessProposal e) (mls_CreateCommit e) (mls_StageCommit e) (mls_ProcessCommit e) (mls_HasMember e)
    (mls_EncryptMessage e) (fun t st p => if decrypts then mls_DecryptMessage e t st p else inr (ErrText "sidecar unavailable"))
    (mls_GenerateKeyPackage e) (mls_ProcessWelcome e).
Definition recovered (env : Env) (rounds : nat) (w : World) : World :=
  match Recovery.replayPendingEnvelopesForGroup 20 rounds "g" (Some "B") only_a env w with Ok _ w' => w' | _ => w end.
Definition states (w : World) : list string := er_ApplyState ∘ lr_rec <$> db_log (w_db w).

(** One statement fails while a logged message is applied: the message is
    blocked as if it could not be decrypted, and a later recovery, with a disk
    that works, does not take it up again. *)
Example disk_error_blocks_for_good :
  let w := recovered (with_failures (Nat.eqb 28) true) 9 demo_behind in
  states (recovered demo 9 demo_behind) = [ReplayStateApplied] /\
  states w = [ReplayStateBlockedDecryptFailed] /\ states (recovered demo 9 w) = [ReplayStateBlockedDecryptFailed] /\
  delivered (w_trace (recovered demo 9 w)) = delivered (w_trace demo_behind).
Proof. vm_compute. repeat split. Qed.

(** While marks cannot be written, a message that cannot be decrypted keeps the
    loop going: after six rounds another is due, with the log as it was. *)
Example recovery_spins_without_marks :
  match Recovery.replayPendingEnvelopesForGroup 20 6 "g" (Some "B") only_a
    (with_failures (fun t => negb (t mod 10 =? 8)%nat) false) demo_behind with
  | Ok None w' => states w' = ["pending"]
  | _ => False
  end.
Proof. vm_compute. reflexivity. Qed.

(** The engine is away while a pull replays a message: the cursor passes it,
    it is not pending either, and with an engine that works nothing takes it up
    again. *)
Example pull_passes_while_engine_is_away :
  let down := mkNodeEnv (with_failures (fun _ => false) false) demo_group_opts in
  match Puller.pull_steps down 6 9 (Puller.start_pull "A" {["g" := [mkEntry 1 demo_wire]]} ["g"]) demo_node with
  | Some (_, n) =>
      db_pull_cursors (n_db n) !! ("g", "A") = Some 1 /\
      match n_coords n !! "g" with
      | Some ct => let w := recovered demo 9 (world_of ct n) in
          states w = [ReplayStateDecryptFailed] /\ delivered (w_trace w) = []
      | None => False
      end
  | None => False
  end.
Proof. vm_compute. repeat split. Qed.
