(* ===== verification/Service.v ===== *)
(** * Groups of a node: creating, joining, restoring and losing them

    [service/group.go]: the [Runtime] creates the coordinator of a group,
    either for a group it founds or with a Welcome, and restores coordinators
    at start-up; the callbacks it gives to a coordinator write the roster and
    the outbox of welcomes.

    The methods run over all tables, the running coordinators with their
    options, the clock they share and the outputs. *)
From Stdlib Require Import DecimalString.
From S2P Require Import Prelude GoStrings Sha256 Types Config Hlc Epoch ActiveView SingleWriter.
From S2P Require Import ForkDetector Helpers Database Store StoreSpec HealStore AppDatabase Identity Roster.
From S2P Require Import InviteStore Replicated AddOperations InviteRequests Wire.
From S2P Require Import Runtime Categories CategoryService Membership.
From S2P Require Import Coordinator CoordBroadcast CoordApplication CoordCommit CoordMessage CoordMembers Node.

(** ** State *)

Record Svc := mkSvc {
  sv_app : AppDB;
  sv_coords : gmap string (Opts * (Coord * list Effect));
  sv_hlc : Hlc.HLC;
  sv_trace : list RtEffect;
}.
Abbreviation SV := (SQLs Svc).

(** What the methods do not control.  The options and the database of
    [se_shared] are not used: a coordinator is run with its own options and
    the database of the run.  [se_stack]: the coordination stack is there;
    [se_auth]: the verified peers, without an authentication protocol [None];
    [se_peers]: the connected ones; [se_history]: the tables a committer
    policy will read at a later instant; the rest are the answers of
    peers. *)
Record SvEnv := mkSvEnv {
  se_rt : RtEnv;
  se_shared : Env;
  se_stack : bool;
  se_auth : option (list peerID);
  se_peers : list peerID;
  se_history : nat -> AppDB;
  se_reach : peerID -> bool;
  se_kp_direct : peerID -> result bytes;
  se_kp_fetch : peerID -> option KPFetchResponseV1;
  se_welcome_fetch : peerID -> string -> option WelcomeFetchResponseV1;
  se_welcome_list : peerID -> option WelcomeListResponseV1;
  se_blind : string -> list peerID;
}.

Definition with_sql (sql : SqlEnv) (e : Env) : Env :=
  mkEnv (e_opts e) sql (e_clock e) (e_random e) (e_connected e) (e_subscribe e) (e_known_order e)
    (ed25519_public e) (e_nonce e) (gcm_Seal e) (gcm_Open e) (mls_CreateGroup e) (mls_CreateProposal e)
    (mls_ProcessProposal e) (mls_CreateCommit e) (mls_StageCommit e) (mls_ProcessCommit e) (mls_HasMember e)
    (mls_EncryptMessage e) (mls_DecryptMessage e) (mls_GenerateKeyPackage e) (mls_ProcessWelcome e).

Module Service.
Section Methods.
Context {PC : PeerCodec} {ED : Ed25519} {WC : WireCodec} {PJ : PayloadJSON} (se : SvEnv).
Abbreviation re := (se_rt se).

(** ** Calls *)

(** a statement *)
Definition db {A} (m : ASQL A) : SV A := fun env t s =>
  match m env t (sv_app s) with (r, t', d) => (r, t', mkSvc d (sv_coords s) (sv_hlc s) (sv_trace s)) end.
(** a method of the runtime, which may stop coordinators *)
Definition rt {A} (m : RT A) : SV A := fun env t s =>
  match m env t (mkRtState (sv_app s) (dom (sv_coords s)) (sv_trace s)) with
  | (r, t', s') => (r, t', mkSvc (rt_app s') (filter (fun kv => kv.1 ∈ rt_coords s') (sv_coords s)) (sv_hlc s) (rt_trace s'))
  end.
Definition out (e : RtEffect) : SV unit := fun _ t s =>
  (inl tt, t, mkSvc (sv_app s) (sv_coords s) (sv_hlc s) (sv_trace s ++ [e])).
Definition emit (event : string) (fields : list (string * string)) : SV unit := out (Emit event fields).
Definition go (t : RtTask) : SV unit := out (Go t).
(** the MLS engine *)
Definition mls {A} (f : Env -> nat -> result A) : SV A := fun _ t s => (f (se_shared se) t, S t, s).
Definition coordinator (g : string) : SV (option (Opts * (Coord * list Effect))) := fun _ t s => (inl (sv_coords s !! g), t, s).
Definition put_coordinator (g : string) (oc : Opts * (Coord * list Effect)) : SV unit := fun _ t s =>
  (inl tt, t, mkSvc (sv_app s) (<[g := oc]> (sv_coords s)) (sv_hlc s) (sv_trace s)).
Definition drop_coordinator (g : string) : SV unit := fun _ t s =>
  (inl tt, t, mkSvc (sv_app s) (delete g (sv_coords s)) (sv_hlc s) (sv_trace s)).

(** A method of a coordinator: it sees the coordination tables and the shared
    clock.  A panic ends the process; [ErrPanic] stands for it.  Founding,
    anchoring and starting a coordinator call no handler of the runtime; the
    calls of a running one are [on_coord], below. *)
Definition ErrPanic : GoError := ErrSentinel "panic".
Definition run_coord {A} (o : Opts) (ct : Coord * list Effect) (m : C A) : SV (A * (Coord * list Effect)) := fun env t s =>
  match m (with_sql env (with_opts o (se_shared se)))
          (mkWorld (set_c_hlc (sv_hlc s) ct.1) (adb_core (sv_app s)) t ct.2) with
  | Ok a w => (inl (a, (w_c w, w_trace w)), w_tick w,
               mkSvc (set_adb_core (w_db w) (sv_app s)) (sv_coords s) (c_hlc (w_c w)) (sv_trace s))
  | Panic | OutOfFuel => (inr ErrPanic, t, s)
  end.

Definition local_string : string := from_option peer_String "" (re_node re).
Definition is_verified (p : peerID) : bool := from_option (fun l => bool_decide (p ∈ l)) true (se_auth se).

(** ** Names and types *)

(** [normalizeGroupTypeRuntime] *)
Definition normalizeGroupTypeRuntime (groupType : string) : result string :=
  let n := TrimSpace (ToLower groupType) in
  if str_eqb n "" then inl "channel"
  else if negb (str_eqb n "channel") && negb (str_eqb n "dm") && negb (str_eqb n "group")
  then inr (ErrText "invalid group type: must be one of [channel, group, dm]")
  else inl n.

(** [canonicalDMGroupID] *)
Definition canonicalDMGroupID (peerA peerB : string) : string :=
  let a := TrimSpace peerA in
  let b := TrimSpace peerB in
  let (lo, hi) := if str_ltb b a then (b, a) else (a, b) in
  "dm-" +:+ hex_EncodeToString (take 8 (sha256_sum (str_bytes (lo +:+ ":" +:+ hi)))).

(** [fallbackWelcomeFingerprint] of [invite.go] *)
Definition fallbackWelcomeFingerprint (groupID : string) (welcome : bytes) : string :=
  let g := str_bytes (TrimSpace groupID) in
  hex_EncodeToString (sha256_sum (drop 4 (Runtime.put_be64 (u32 (Z.of_nat (length g)))) ++ g ++ welcome)).

(** [GenerateKeyPackage]: the public and the private part *)
Definition GenerateKeyPackage : SV (bytes * bytes) :=
  if negb (re_engine re) then sql_throw (ErrText "crypto engine not available")
  else
    identity <-! sql_wrap "get MLS identity" (rt Runtime.GetMLSIdentity) ;
    mls (fun e t => mls_GenerateKeyPackage e t (mi_SigningKeyPrivate identity)).

(** ** A coordinator for a group *)

(** The options of [CreateGroupChat], [joinGroupWithWelcome] and
    [loadExistingGroupsLocked]; a joined group has no handler for the audit
    of pending operations. *)
Definition coordinator_options (env : SqlEnv) (local : peerID) (g : string) (key : bytes) (audit : bool) : Opts :=
  mkOpts Config.DefaultConfig local g key (re_engine re)
    (Some (Runtime.authorizedCommittersProvider env (se_history se)))
    true true true true true true true true audit true true.
Definition options_for (local : peerID) (g : string) (key : bytes) (audit : bool) : SV Opts := fun env t s =>
  (inl (coordinator_options env local g key audit), t, s).

(** [NewCoordinator] with the shared clock *)
Definition new_coordinator (o : Opts) (view : list peerID) : SV (Coord * list Effect) := fun _ t s =>
  match NewCoordinator o (Some (sv_hlc s)) view with
  | inl c => (inl (c, []), t, s)
  | inr e => (inr (ErrWrap "create coordinator" e), t, s)
  end.

(** The peers of [initialActiveViewForGroupLocked] that count as verified *)
Definition verified_strings : list string :=
  let verified := peer_String <$> default [] (se_auth se) in
  if is_empty verified then peer_String <$> filter is_verified (se_peers se) else verified.

(** [initialActiveViewForGroupLocked] *)
Definition initialActiveViewForGroupLocked (g : string) : SV (list peerID) :=
  match re_node re with
  | None => sql_ret []
  | Some local =>
      if negb (re_db re) then sql_ret []
      else
        members <-! sql_try (db (Roster.ListGroupMembers g [Roster.GroupMemberStatusActive])) ;
        sql_ret (match members with
                 | inr _ => [local]
                 | inl rows =>
                     let add (acc : list peerID) (rec : GroupMemberRecord) :=
                       if negb (bool_decide (gm_PeerID rec ∈ verified_strings)) then acc
                       else match peer_Decode (gm_PeerID rec) with
                            | Some pid => if str_eqb pid "" || bool_decide (pid ∈ acc) then acc else acc ++ [pid]
                            | None => acc
                            end in
                     stable_sort str_ltb (foldl add [local] rows)
                 end)
  end.

(** Building, anchoring and starting the coordinator of a group *)
Definition start_coordinator (o : Opts) (view : list peerID) (anchor : option (Z * bytes)) : SV (Coord * list Effect) :=
  ct <-! new_coordinator o view ;
  ct <-! (match anchor with
          | Some (e, h) => r <-! run_coord o ct (SeedHistoryAnchor e (Some h)) ; sql_ret r.2
          | None => sql_ret ct
          end) ;
  r <-! run_coord o ct Start ;
  match r.1 with
  | inl _ => sql_ret r.2
  | inr e => sql_throw (ErrWrap "start coordinator" e)
  end.

(** ** Joining *)

(** [resolveChannelCategoryForWelcomeJoin] *)
Definition resolveChannelCategoryForWelcomeJoin (groupID : string) (welcomeRaw : bytes) (ty : string) : SV string :=
  let g := TrimSpace groupID in
  match re_node re with
  | None => sql_ret ""
  | Some local =>
      if negb (EqualFold (TrimSpace ty) "channel") || negb (re_db re) || str_eqb g "" || is_empty welcomeRaw then sql_ret ""
      else
        inv <-! sql_try (db (InviteStore.GetPendingInvite (InviteStore.PendingInviteID g welcomeRaw))) ;
        let c := match inv with inl i => TrimSpace (pi_CategoryID i) | inr _ => "" end in
        if negb (str_eqb c "") then sql_ret c
        else
          w <-! sql_try (db (InviteStore.GetStoredWelcome (peer_String local) g)) ;
          sql_ret (match w with
                   | inl w => if is_empty (stw_WelcomeBytes w) || negb (bytes_eqb (stw_WelcomeBytes w) welcomeRaw) then ""
                              else TrimSpace (stw_CategoryID w)
                   | inr _ => ""
                   end)
  end.

(** The local member's row *)
Definition save_self (local : peerID) (g : string) (identity : MLSIdentity) (role source : string) : SV unit :=
  now <-! unix_now ;
  db (Roster.UpsertGroupMember (mkGroupMemberRecord g (peer_String local) (TrimSpace (mi_DisplayName identity))
        role Roster.GroupMemberStatusActive source 0 0 now)).

(** The peer taken for the creator: the inviter, or the source of the stored
    welcome *)
Definition inviter_of (local : peerID) (g inviterPeerID : string) : SV string :=
  let inviter := TrimSpace inviterPeerID in
  if negb (str_eqb inviter "") || str_eqb (peer_String local) "" then sql_ret inviter
  else
    w <-! sql_try (db (InviteStore.GetStoredWelcome (peer_String local) g)) ;
    sql_ret (match w with inl w => stw_SourcePeerID w | inr _ => "" end).

Definition members_changed (g reason : string) : SV unit :=
  emit "group:members_changed" [("group_id", g); ("reason", reason)].

(** What a join writes before the coordinator starts: the group record, who
    created the group, and the local member. *)
Definition save_joined (local : peerID) (g ty category inviterPeerID : string) (identity : MLSIdentity)
  (state treeHash : bytes) (epoch : Z) : SV unit :=
  now <-! sql_time ;
  sql_wrap "save group record" (db (core (Store.SaveGroupRecord
    (mkGroupRecord g state epoch treeHash RoleMember ty category "" now now)))) ;;!
  inviter <-! inviter_of local g inviterPeerID ;
  (if str_eqb inviter "" then sql_ret tt else sql_ignore (db (Roster.SetGroupCreatorPeerID g inviter))) ;;!
  sql_ignore (save_self local g identity "member" "welcome").

(** The part of [joinGroupWithWelcome] under the mutex, and what its deferred
    function does once it is released *)
Definition join_locked (g ty hint inviterPeerID : string) (welcomeRaw bundleRaw : bytes)
  (anchorEpoch : Z) (anchorHistoryHash : bytes) : SV unit :=
  match re_node re with
  | None => sql_throw (ErrText "P2P node not running")
  | Some local =>
      if negb (re_engine re) then sql_throw (ErrText "crypto engine not available")
      else if negb (se_stack se) then sql_throw (ErrText "storage not initialized")
      else
        running <-! coordinator g ;
        match running with
        | Some _ => sql_throw (ErrText "already in group")
        | None =>
            identity <-! sql_wrap "get MLS identity" (rt Runtime.GetMLSIdentity) ;
            joined <-! mls (fun e t => mls_ProcessWelcome e t welcomeRaw (mi_SigningKeyPrivate identity) bundleRaw
                              (Config.GetMaxPastEpochs Config.DefaultConfig)) ;
            let '(state, treeHash, epoch) := joined in
            category <-! (if str_eqb hint "" && EqualFold ty "channel"
                          then resolveChannelCategoryForWelcomeJoin g welcomeRaw ty else sql_ret hint) ;
            save_joined local g ty category inviterPeerID identity state treeHash epoch ;;!
            o <-! options_for local g (mi_SigningKeyPrivate identity) false ;
            view <-! initialActiveViewForGroupLocked g ;
            ct <-! start_coordinator o view
                     (if (anchorEpoch >? 0) && negb (is_empty anchorHistoryHash) then Some (anchorEpoch, anchorHistoryHash) else None) ;
            put_coordinator g (o, ct) ;;!
            sql_ignore (save_self local g identity "member" "welcome") ;;!
            rt (Runtime.appendGroupEvent g "member_joined" (peer_String local) (peer_String local) epoch) ;;!
            members_changed g "joined" ;;!
            (if negb (str_eqb category "") && EqualFold ty "channel" && str_eqb hint ""
             then emit "channel_categories:changed" [("reason", "welcome_join"); ("channel_id", g); ("category_id", category)]
             else sql_ret tt) ;;!
            sql_ignore (rt (Membership.reconcileGroupRosterWithMLS re g))
        end
  end.

(** [joinGroupWithWelcome] *)
Definition joinGroupWithWelcome (groupID welcomeHex bundleHex groupType categoryIDHint inviterPeerID : string)
  (anchorEpoch : Z) (anchorHistoryHash : bytes) : SV unit :=
  let g := TrimSpace groupID in
  if str_eqb g "" then sql_throw (ErrText "group ID is required")
  else
    match normalizeGroupTypeRuntime groupType with
    | inr e => sql_throw e
    | inl ty =>
        rt (Runtime.ensureSessionActive re) ;;!
        (if re_db re then
           active <-! sql_try (db (Roster.IsGroupActive g)) ;
           match active with
           | inl false => sql_ignore (db (GroupMeta.PurgeGroupMetadata g))
           | _ => sql_ret tt
           end
         else sql_ret tt) ;;!
        match hex_DecodeString (TrimSpace welcomeHex), hex_DecodeString (TrimSpace bundleHex) with
        | Some welcomeRaw, Some bundleRaw =>
            join_locked g ty (TrimSpace categoryIDHint) inviterPeerID welcomeRaw bundleRaw anchorEpoch anchorHistoryHash
        | None, _ => sql_throw (ErrText "decode welcome hex")
        | _, None => sql_throw (ErrText "decode key package bundle hex")
        end
    end.

(** ** Founding a group *)

Definition set_kind (ty category : string) (rec : GroupRecord) : GroupRecord :=
  mkGroupRecord (gr_GroupID rec) (gr_GroupState rec) (gr_Epoch rec) (gr_TreeHash rec) (gr_MyRole rec)
    ty category (gr_DMCounterpartyPeerID rec) (gr_CreatedAt rec) (gr_UpdatedAt rec).

Definition run_result {A} (ctx : string) (o : Opts) (ct : Coord * list Effect) (m : C (result A)) : SV (Coord * list Effect) :=
  r <-! run_coord o ct m ;
  match r.1 with inl _ => sql_ret r.2 | inr e => sql_throw (ErrWrap ctx e) end.

(** [CreateGroupChat] up to the start of the coordinator: its options, the
    coordinator and the epoch of the record *)
Definition create_locked (local : peerID) (groupID ty category : string) (identity : MLSIdentity)
  : SV (Opts * (Coord * list Effect) * Z) :=
  o <-! options_for local groupID (mi_SigningKeyPrivate identity) true ;
  ct <-! new_coordinator o [local] ;
  ct <-! run_result "create group" o ct CreateGroup ;
  rec <-! sql_wrap "group record after create" (db (core (Store.GetGroupRecord groupID))) ;
  sql_wrap "save group metadata" (db (core (Store.SaveGroupRecord
    (set_kind ty (if str_eqb ty "channel" then category else "") rec)))) ;;!
  sql_ignore (db (Roster.SetGroupCreatorPeerID groupID (peer_String local))) ;;!
  (if str_eqb ty "channel" && negb (str_eqb category "")
   then db (Categories.AssignCategoryToGroup groupID category) else sql_ret tt) ;;!
  sql_ret (o, ct, gr_Epoch rec).

(** The first checks of [CreateGroupChat] *)
Definition category_ok (ty category : string) : SV unit :=
  if str_eqb ty "channel" then
    if str_eqb category "" then sql_throw (ErrText "ERR_CATEGORY_REQUIRED: channel category is required")
    else sql_wrap "ERR_CATEGORY_NOT_FOUND" (db (Categories.GetChannelCategory category)) ;;! sql_ret tt
  else sql_ret tt.

(** [CreateGroupChat]: the assignment is announced even when the coordinator
    does not start. *)
Definition CreateGroupChat (groupID groupType categoryID : string) : SV unit :=
  let category := TrimSpace categoryID in
  if str_eqb groupID "" then sql_throw (ErrText "group ID is required")
  else
    match normalizeGroupTypeRuntime groupType with
    | inr e => sql_throw e
    | inl ty =>
        if negb (re_db re) then sql_throw (ErrText "database not initialized")
        else
          category_ok ty category ;;!
          rt (Runtime.ensureSessionActive re) ;;!
          match re_node re with
          | None => sql_throw (ErrText "P2P node not running")
          | Some local =>
              if negb (re_engine re) then sql_throw (ErrText "crypto engine not available")
              else if negb (se_stack se) then sql_throw (ErrText "coordination stack not initialized")
              else
                running <-! coordinator groupID ;
                match running with
                | Some _ => sql_throw (ErrText "already in group")
                | None =>
                    identity <-! sql_wrap "get MLS identity" (rt Runtime.GetMLSIdentity) ;
                    created <-! create_locked local groupID ty category identity ;
                    let '(o, ct, epoch) := created in
                    started <-! sql_try (
                      ct <-! run_result "start coordinator" o ct Start ;
                      put_coordinator groupID (o, ct) ;;!
                      go (GReplayPending groupID "coordinator_start") ;;!
                      sql_ignore (save_self local groupID identity Roster.GroupMemberRoleCreator "create") ;;!
                      rt (Runtime.appendGroupEvent groupID "created" (peer_String local) "" epoch)) ;
                    (if str_eqb ty "channel" && negb (str_eqb category "") then
                       rt (CategoryService.categories_changed
                             [("reason", "assigned"); ("channel_id", groupID); ("category_id", category)]) ;;!
                       ev <-! rt (CategoryService.newCategoryEventID "assign" groupID) ;
                       rt (CategoryService.broadcastChannelCategoryFrame re (se_peers se)
                             (mkCategoryFrame 1 "assign_channel" ev None category groupID [] []))
                     else sql_ret tt) ;;!
                    match started with
                    | inr e => sql_throw e
                    | inl _ => members_changed groupID "created"
                    end
                end
          end
    end.

(** ** Start-up *)

(** [seedSelfPeerDirectoryRowLocked] *)
Definition seedSelfPeerDirectoryRowLocked : SV unit :=
  match re_node re with
  | None => sql_ret tt
  | Some local =>
      if negb (re_db re) then sql_ret tt
      else
      identity <-! sql_try (rt Runtime.GetMLSIdentity) ;
      match identity with
      | inr _ => sql_ret tt
      | inl i => sql_ignore (db (Roster.UpsertPeerProfileWithKey (peer_String local) (TrimSpace (mi_DisplayName i))
                   (hex_EncodeToString (mi_PublicKey i))))
      end
  end.

(** The anchor of a group whose history is not stored: that of the stored
    welcome *)
Definition restored_anchor (local : peerID) (g : string) : SV (option (Z * bytes)) :=
  cs <-! sql_try (db (core (Store.GetCoordState g))) ;
  if (match cs with inl cs => bool_decide (cs_HistoryChain cs = ∅) | inr _ => true end) && re_db re
  then
    w <-! sql_try (db (InviteStore.GetStoredWelcome (peer_String local) g)) ;
    sql_ret (match w with
             | inl w => if (stw_AnchorEpoch w >? 0) && negb (is_empty (stw_AnchorHistoryHash w))
                        then Some (stw_AnchorEpoch w, stw_AnchorHistoryHash w) else None
             | inr _ => None
             end)
  else sql_ret None.

(** One group of [loadExistingGroupsLocked]; an error leaves it out. *)
Definition restore_group (local : peerID) (key : bytes) (g : string) : SV unit :=
  o <-! options_for local g key true ;
  view <-! initialActiveViewForGroupLocked g ;
  anchor <-! restored_anchor local g ;
  ct <-! start_coordinator o view anchor ;
  put_coordinator g (o, ct) ;;!
  go (GReplayPending g "coordinator_start").

Fixpoint restore_groups (local : peerID) (key : bytes) (gs : list GroupRecord) : SV (list string) :=
  match gs with
  | [] => sql_ret []
  | rec :: gs =>
      r <-! sql_try (restore_group local key (gr_GroupID rec)) ;
      rest <-! restore_groups local key gs ;
      sql_ret (match r with inl _ => gr_GroupID rec :: rest | inr _ => rest end)
  end.

Fixpoint report_stale (ops : list GroupAddOperationRecord) : SV unit :=
  match ops with
  | [] => sql_ret tt
  | op :: ops =>
      go (GEmit "group:add_operation_stale" [("operation_id", ao_OperationID op); ("group_id", ao_GroupID op);
            ("target", ao_TargetPeerID op); ("status", ao_Status op)]) ;;!
      report_stale ops
  end.

(** [recoverStaleAddOperationsLocked] *)
Definition recoverStaleAddOperationsLocked : SV unit :=
  if negb (re_db re) then sql_ret tt
  else
    ops <-! sql_try (db (AddOperations.ListRecoverableAddOperations 60)) ;
    match ops with inl ops => report_stale ops | inr _ => sql_ret tt end.

(** [loadExistingGroupsLocked] *)
Definition loadExistingGroupsLocked : SV unit :=
  match re_node re with
  | None => sql_ret tt
  | Some local =>
      if negb (se_stack se) then sql_ret tt
      else
        groups <-! sql_try (db (core Store.ListGroups)) ;
        match groups with
        | inr _ | inl [] => sql_ret tt
        | inl gs =>
            identity <-! sql_try (rt Runtime.GetMLSIdentity) ;
            match identity with
            | inr _ => sql_ret tt
            | inl i =>
                restored <-! restore_groups local (mi_SigningKeyPrivate i) gs ;
                recoverStaleAddOperationsLocked ;;!
                (if is_empty restored then sql_ret tt else go (GRosterBackfill restored))
            end
        end
  end.

(** ** The outbox of welcomes, of [service/invite.go] *)

(** [selectStorePeersLocked]: at most three verified peers *)
Definition defaultReplicationFanout : nat := 3.
Definition selectStorePeersLocked (local : peerID) : list peerID :=
  match re_node re, se_auth se with
  | Some _, Some _ =>
      take defaultReplicationFanout (stable_sort (fun a b => str_ltb (peer_String a) (peer_String b))
        (filter (fun p => p <> local /\ is_verified p) (se_peers se)))
  | _, _ => []
  end.

(** Who a welcome is said to come from: the creator of the group when known *)
Definition welcome_source (local : peerID) (g : string) : SV string :=
  if negb (re_db re) then sql_ret (peer_String local)
  else
    c <-! sql_try (db (Roster.GetGroupCreatorPeerID g)) ;
    sql_ret (match c with inl c => if str_eqb c "" then peer_String local else c | inr _ => peer_String local end).

(** [pushWelcomeStoreRecord] *)
Definition pushWelcomeStoreRecord (local to : peerID) (invitee g ty cat : string) (welcome : bytes)
  (anchorEpoch : Z) (anchorHash : bytes) : SV unit :=
  if str_eqb to "" || str_eqb invitee "" || str_eqb g "" || is_empty welcome then sql_ret tt
  else
    src <-! welcome_source local g ;
    if se_reach se to then out (Send to (FWelcomeStore (mkWelcomeStore 1 invitee g ty cat src anchorEpoch anchorHash welcome)))
    else sql_throw (ErrText "failed to open stream").

Fixpoint push_welcome (local : peerID) (to : list peerID) (invitee : peerID) (g ty cat : string) (welcome : bytes)
  (anchorEpoch : Z) (anchorHash : bytes) : SV unit :=
  match to with
  | [] => sql_ret tt
  | p :: to =>
      (if str_eqb p invitee then sql_ret tt
       else sql_ignore (pushWelcomeStoreRecord local p (peer_String invitee) g ty cat welcome anchorEpoch anchorHash)) ;;!
      push_welcome local to invitee g ty cat welcome anchorEpoch anchorHash
  end.

(** [replicateWelcomeToStorePeers] *)
Definition replicateWelcomeToStorePeers (invitee : peerID) (g ty cat : string) (welcome : bytes)
  (anchorEpoch : Z) (anchorHash : bytes) : SV unit :=
  match re_node re with
  | None => sql_ret tt
  | Some local =>
      if negb (re_db re) || str_eqb local "" || is_empty welcome then sql_ret tt
      else
        src <-! welcome_source local g ;
        sql_ignore (db (InviteStore.SaveStoredWelcome (peer_String invitee) g ty cat welcome src anchorEpoch anchorHash)) ;;!
        go (GPublishWelcome (peer_String invitee) g ty cat welcome anchorEpoch anchorHash) ;;!
        push_welcome local (selectStorePeersLocked local) invitee g ty cat welcome anchorEpoch anchorHash
  end.

(** [deliverWelcome] *)
Definition deliverWelcome (target : peerID) (g ty cat : string) (welcome : bytes) (anchorEpoch : Z) (anchorHash : bytes) : SV unit :=
  match re_node re with
  | None => sql_ret tt
  | Some local =>
      if negb (se_reach se target) then sql_ret tt
      else
        src <-! welcome_source local g ;
        out (Send target (FWelcome (mkWelcomeDelivery 1 g ty cat src (hex_EncodeToString welcome) anchorEpoch
               (hex_EncodeToString anchorHash))))
  end.

(** [dispatchTokenHolderWelcome] *)
Definition dispatchTokenHolderWelcome (g : string) (delivery : AddCommitDelivery) (welcome : bytes)
  (anchorEpoch : Z) (anchorHash : bytes) : SV unit :=
  if is_empty welcome || negb (re_db re) || str_eqb (TrimSpace (ad_TargetPeerID delivery)) "" then sql_ret tt
  else
    match peer_Decode (TrimSpace (ad_TargetPeerID delivery)) with
    | None => sql_ret tt
    | Some target =>
        let ty := ad_GroupType delivery in
        let cat := ad_CategoryID delivery in
        sql_ignore (db (InviteStore.SavePendingWelcome (peer_String target) g welcome anchorEpoch anchorHash)) ;;!
        replicateWelcomeToStorePeers target g ty cat welcome anchorEpoch anchorHash ;;!
        go (GDeliverWelcome target g ty cat welcome anchorEpoch anchorHash) ;;!
        sql_ignore (db (AddOperations.MarkAddWelcomeQueued (ad_OperationID delivery)
          (hex_EncodeToString (ad_WelcomeHash delivery))))
    end.

(** ** Callbacks of a coordinator *)

(** [makeMessageHandler]; the payload for the user interface is reduced to
    the identifiers *)
Definition makeMessageHandler (g : string) (msg : StoredMessage) : SV unit :=
  (if bool_decide (re_node re = Some (sm_SenderID msg)) then sql_ret tt
   else
     r <-! sql_try (rt (Membership.upsertGroupMemberFromRosterSync re g (peer_String (sm_SenderID msg)) "message")) ;
     match r with inl _ => members_changed g "message_sender" | inr _ => sql_ret tt end) ;;!
  rt (Notifications.processNotificationsForMessage re msg) ;;!
  emit "group:message" [("group_id", sm_GroupID msg); ("message_id", sm_MessageID msg);
    ("sender", peer_String (sm_SenderID msg))].

(** [makeEpochHandler] *)
Definition makeEpochHandler (g : string) (epoch : Z) : SV unit :=
  changed <-! sql_try (rt (Membership.reconcileGroupRosterWithMLS re g)) ;
  (match changed with inl true => members_changed g "epoch_reconcile" | _ => sql_ret tt end) ;;!
  emit "group:epoch" [("group_id", g); ("epoch", print_Z epoch)] ;;!
  go (GReplayPending g "epoch_advance").

(** [makeAddCommittedHandler] *)
Definition makeAddCommittedHandler (g : string) (delivery : AddCommitDelivery) (commitEpoch : Z) (welcome : bytes) : SV unit :=
  if negb (re_db re) || str_eqb (TrimSpace (ad_OperationID delivery)) "" then sql_ret tt
  else
    let committed role := emit "group:add_committed" [("group_id", g); ("operation_id", ad_OperationID delivery);
      ("target", ad_TargetPeerID delivery); ("epoch", print_Z commitEpoch);
      ("welcome_hash", hex_EncodeToString (ad_WelcomeHash delivery)); ("role", role)] in
    sql_ignore (db (AddOperations.MarkAddCommitObserved (ad_OperationID delivery) commitEpoch [])) ;;!
    rt (Runtime.appendGroupEvent g "add_commit_observed" "" (ad_TargetPeerID delivery) commitEpoch) ;;!
    if is_empty welcome then committed "observer"
    else
      oc <-! coordinator g ;
      let '(anchorEpoch, anchorHash) := match oc with
        | Some (_, (c, _)) => (c_epoch c, default [] (c_historyHash c))
        | None => (0, [])
        end in
      dispatchTokenHolderWelcome g delivery welcome anchorEpoch anchorHash ;;!
      committed "token_holder".

(** [makePeerObservedHandler] *)
Definition makePeerObservedHandler (g : string) (p : peerID) : SV unit :=
  if str_eqb (peer_String p) "" || bool_decide (re_node re = Some p) then sql_ret tt
  else
    r <-! sql_try (rt (Membership.upsertGroupMemberFromRosterSync re g (peer_String p) "heartbeat")) ;
    match r with inl _ => members_changed g "peer_observed" | inr _ => sql_ret tt end.

(** [makeAccessLostHandler]: the coordinator is stopped before the group is
    marked as left. *)
Definition makeAccessLostHandler (g : string) (epoch : Z) (reason : string) : SV unit :=
  let reason := if str_eqb reason "" then "removed" else reason in
  oc <-! coordinator g ;
  (match oc with Some _ => drop_coordinator g ;;! out (StopCoordinator g) | None => sql_ret tt end) ;;!
  local <-! (if negb (re_db re) then sql_ret ""
             else
               sql_ignore (db (Roster.MarkGroupLeft g)) ;;!
               local <-! (match re_node re with
                          | Some p => sql_ret (peer_String p)
                          | None => info <-! sql_try (rt (Runtime.GetOnboardingInfo re)) ;
                                    sql_ret (match info with inl p => TrimSpace p | inr _ => "" end)
                          end) ;
               (if str_eqb local "" then sql_ret tt else sql_ignore (db (Roster.MarkGroupMemberLeft g local 0))) ;;!
               sql_ret local) ;
  emit "group:left" [("group_id", g); ("reason", reason); ("epoch", print_Z epoch)] ;;!
  (if str_eqb local "" then sql_ret tt else rt (Runtime.appendGroupEvent g "member_left" local local epoch)) ;;!
  members_changed g "removed_self".

(** ** Calls of a running coordinator *)

(** [OnEpochChange] and [OnMessage], which the coordinator calls from its
    method under its lock.  (The other callbacks it starts as goroutines, or
    they write the log of group events and the blind store.)  The tables they
    write are not among those the coordinator reads: the answers of its
    policy, which reads the roster, are an argument.  So they run here when the
    method is done, on the group record it has left; after several epochs the
    handlers of the first ones see the record of the last. *)
Fixpoint run_callbacks (g : string) (effects : list Effect) : SV unit :=
  match effects with
  | [] => sql_ret tt
  | EEpochChange epoch :: effects => makeEpochHandler g epoch ;;! run_callbacks g effects
  | EMessage msg :: effects => makeMessageHandler g msg ;;! run_callbacks g effects
  | _ :: effects => run_callbacks g effects
  end.
Definition on_coord {A} (g : string) (oc : Opts * (Coord * list Effect)) (m : C A) : SV A :=
  r <-! run_coord oc.1 oc.2 m ;
  put_coordinator g (oc.1, r.2) ;;!
  run_callbacks g (drop (length oc.2.2) r.2.2) ;;!
  sql_ret r.1.

(** [RemoveMemberFromGroup] of [membership.go] *)
Definition RemoveMemberFromGroup (fuel : nat) (groupID peerID : string) : SV unit :=
  let g := TrimSpace groupID in
  let p := TrimSpace peerID in
  if str_eqb g "" then sql_throw Runtime.ErrGroupNotFound
  else
    rt (Runtime.ensureSessionActive re) ;;!
    if str_eqb p "" then sql_throw (ErrText "ERR_REMOVE_MEMBER_INVALID_PEER_ID: peer ID is required")
    else match peer_Decode p with
    | None => sql_throw (ErrText "ERR_REMOVE_MEMBER_INVALID_PEER_ID: invalid peer ID")
    | Some target =>
        if negb (re_db re) then sql_throw (ErrText "ERR_RUNTIME_NOT_INITIALIZED: runtime not initialized")
        else
          coord <-! coordinator g ;
          actor <-! sql_try (rt (Runtime.requireGroupPermission re g Runtime.permissionRemoveMembers)) ;
          match actor with
          | inr _ => sql_throw Membership.ErrRemoveMemberForbidden
          | inl (actor, localID) =>
              match coord with
              | None => sql_throw Runtime.ErrGroupNotFound
              | Some oc =>
                  if negb (str_eqb localID "") && str_eqb localID p then sql_throw Membership.ErrRemoveSelfNotAllowed
                  else
                    targetRec <-! db (Roster.GetGroupMember g p) ;
                    if negb (str_eqb (gm_Status targetRec) Roster.GroupMemberStatusActive) then
                      sql_throw Membership.ErrRemoveMemberPeerNotKnown
                    else if Runtime.isCreatorRole (gm_Role targetRec) then sql_throw Membership.ErrRemoveCreatorForbidden
                    else if EqualFold (TrimSpace (gm_Role targetRec)) Roster.GroupMemberRoleAdmin then
                      if Runtime.isCreatorRole (gm_Role actor) then sql_throw Membership.ErrRemoveAdminRequiresDemote
                      else sql_throw Membership.ErrRemoveAdminForbidden
                    else
                      match Membership.resolveTargetMLSIdentity re target with
                      | inr _ => sql_throw Membership.ErrRemoveMemberPeerNotKnown
                      | inl targetIdentity =>
                          removed <-! on_coord g oc (RemoveMemberWithPeer (run fuel) (mkRemoveMemberRequest target targetIdentity "")) ;
                          match removed with
                          | inr e =>
                              if errors_Is e ErrAccessRevoked then sql_throw Membership.ErrRemoveMemberAccessRevoked
                              else sql_throw (ErrWrap "ERR_REMOVE_MEMBER_CRYPTO_FAILURE" e)
                          | inl _ =>
                              sql_ignore (db (Roster.MarkGroupMemberLeft g p 0)) ;;!
                              rt (Runtime.appendGroupEvent g "member_left" localID p 0) ;;!
                              emit "group:members_changed" [("group_id", g); ("reason", "removed"); ("target_peer_id", p)]
                          end
                      end
              end
          end
    end.

Fixpoint upsert_known (g : string) (peers : list string) : SV unit :=
  match peers with
  | [] => sql_ret tt
  | p :: ps =>
      (if Membership.isValidPeerID p then sql_ignore (rt (Membership.upsertGroupMemberFromRosterSync re g p "history"))
       else sql_ret tt) ;;! upsert_known g ps
  end.

(** [ensureGroupRosterBackfilled] of [group_member_directory.go] *)
Definition ensureGroupRosterBackfilled (groupID : string) : SV unit :=
  let g := TrimSpace groupID in
  if str_eqb g "" || negb (se_stack se) then sql_ret tt
  else
    (match re_node re with
     | Some p => sql_ignore (rt (Membership.upsertGroupMemberFromRosterSync re g (peer_String p) "self"))
     | None => sql_ret tt
     end) ;;!
    known <-! sql_try (db (core (Store.GetKnownGroupMembers g))) ;
    (match known with inl ps => upsert_known g ps | inr _ => sql_ret tt end) ;;!
    sql_ignore (rt (Membership.reconcileGroupRosterWithMLS re g)).

(** [observeVerifiedPeerForGroups], in the order the map gives the groups *)
Fixpoint observe_in (gs : list string) (pid : peerID) : SV unit :=
  match gs with
  | [] => sql_ret tt
  | g :: gs =>
      ensureGroupRosterBackfilled g ;;!
      members <-! sql_try (db (Roster.ListGroupMembers g [Roster.GroupMemberStatusActive])) ;
      (match members with
       | inl rows =>
           if existsb (fun rec => str_eqb (gm_PeerID rec) (peer_String pid)) rows then
             oc <-! coordinator g ;
             match oc with Some oc => on_coord g oc (ObservePeerAlive pid) ;;! sql_ret tt | None => sql_ret tt end
           else sql_ret tt
       | inr _ => sql_ret tt
       end) ;;!
      observe_in gs pid
  end.
Definition observeVerifiedPeerForGroups (order : list string) (pid : peerID) : SV unit :=
  if negb (re_db re) || str_eqb pid "" then sql_ret tt else observe_in order pid.
End Methods.
End Service.
