(* ===== verification/ServiceLogic.v ===== *)
(** * Reasoning about the services and the coordinators they run

    Which changes of the tables leave running coordinators alone, and the
    rules that follow the structure of the methods. *)
From S2P Require Import Prelude GoStrings Sha256 Types Config Hlc Epoch ActiveView SingleWriter.
From S2P Require Import ForkDetector Helpers Database Store StoreSpec HealStore AppDatabase Identity Roster.
From S2P Require Import InviteStore Replicated AddOperations InviteRequests Wire.
From S2P Require Import Runtime Categories CategoryService Membership SqlLogic.
From S2P Require Import Coordinator CoordBroadcast CoordApplication CoordCommit.
From S2P Require Import CoordMessage CoordMembers CoordLogic.
From S2P Require Import CoordReplay CoordHeal CoordInv CoordSafe CoordStart Node Service.

(** ** Changes of the tables *)

(** Only the group [g] may have changed; its coordination state does not
    appear. *)
Record apart (g : string) (d d' : AppDB) : Prop := {
  ap_groups : forall g', g' <> g -> db_groups (adb_core d') !! g' = db_groups (adb_core d) !! g';
  ap_applied : forall g' h, g' <> g -> is_Some (db_applied (adb_core d) !! (g', h)) -> is_Some (db_applied (adb_core d') !! (g', h));
  ap_ops : db_pending_ops (adb_core d') = db_pending_ops (adb_core d);
  ap_jobs : db_heal_jobs (adb_core d') = db_heal_jobs (adb_core d);
  ap_coord : db_coord (adb_core d) !! g = None -> db_coord (adb_core d') !! g = None;
}.
#[export] Instance apart_preorder g : PreOrder (apart g).
Proof.
  split; [by intros d; split|]. intros d1 d2 d3 [G1 A1 O1 J1 C1] [G2 A2 O2 J2 C2]. split; try congruence; auto.
  intros g' H. by rewrite G2, G1.
Qed.

(** A row keeps its epoch and its place in the life cycle. *)
Definition row_kept (g : string) (d d' : AppDB) : Prop :=
  forall row, Roster.group_row g d = Some row -> exists row', Roster.group_row g d' = Some row' /\
    gr_Epoch (grow_rec row') = gr_Epoch (grow_rec row) /\ grow_lifecycle_status row' = grow_lifecycle_status row.
Definition steady (g : string) (d d' : AppDB) : Prop := apart g d d' /\ row_kept g d d'.
#[export] Instance steady_preorder g : PreOrder (steady g).
Proof.
  split; [intros d; split; [reflexivity|]; by intros row H; exists row|].
  intros d1 d2 d3 [A1 R1] [A2 R2]. split; [by etrans|]. intros row H.
  destruct (R1 row H) as (r1 & H1 & E1 & L1). destruct (R2 r1 H1) as (r2 & H2 & E2 & L2).
  exists r2. split; [done|]. split; congruence.
Qed.

Notation untouched := (same adb_core).

Lemma untouched_steady g d d' : untouched d d' -> steady g d d'.
Proof. intros H. split; [split; by rewrite H|]. intros row E. exists row. unfold Roster.group_row in *. by rewrite H. Qed.
Lemma steady_apart g d d' : steady g d d' -> apart g d d'.
Proof. by intros []. Qed.

(** ** Methods *)

(** Lifting a relation on the tables: the coordinators stay. *)
Definition rt_lift (R : AppDB -> AppDB -> Prop) (s s' : RtState) : Prop :=
  R (rt_app s) (rt_app s') /\ rt_coords s' = rt_coords s.
Definition sv_lift (R : AppDB -> AppDB -> Prop) (s s' : Svc) : Prop :=
  R (sv_app s) (sv_app s') /\ sv_coords s' = sv_coords s.
#[export] Instance rt_lift_preorder R `{!PreOrder R} : PreOrder (rt_lift R).
Proof. split; [by split|]. intros s1 s2 s3 [R1 C1] [R2 C2]. split; [by etrans|congruence]. Qed.
#[export] Instance sv_lift_preorder R `{!PreOrder R} : PreOrder (sv_lift R).
Proof. split; [by split|]. intros s1 s2 s3 [R1 C1] [R2 C2]. split; [by etrans|congruence]. Qed.

Section Rules.
Context {R : AppDB -> AppDB -> Prop} `{!PreOrder R}.

Lemma respects_app {A} (m : ASQL A) : respects R m -> respects (rt_lift R) (Runtime.app m).
Proof.
  intros H env t s. specialize (H env t (rt_app s)). unfold Runtime.app.
  by destruct (m env t (rt_app s)) as [[r t'] d].
Qed.
Lemma respects_effect e : respects (rt_lift R) (Runtime.effect e).
Proof. intros env t s. by split. Qed.

Lemma respects_db {A} (m : ASQL A) : respects R m -> respects (sv_lift R) (Service.db m).
Proof.
  intros H env t s. specialize (H env t (sv_app s)). unfold Service.db.
  by destruct (m env t (sv_app s)) as [[r t'] d].
Qed.
Lemma filter_running {V} (m : gmap string V) : filter (fun kv => kv.1 ∈ dom m) m = m.
Proof.
  apply map_filter_id. intros k v H. by apply elem_of_dom_2 in H.
Qed.
Lemma respects_rt {A} (m : RT A) : respects (rt_lift R) m -> respects (sv_lift R) (Service.rt m).
Proof.
  intros H env t s. specialize (H env t (mkRtState (sv_app s) (dom (sv_coords s)) (sv_trace s))). unfold Service.rt.
  destruct (m env t _) as [[r t'] s']. destruct H as [HR HC]. simpl in *. split; [done|]. simpl.
  rewrite HC. apply filter_running.
Qed.
Lemma respects_out e : respects (sv_lift R) (Service.out e).
Proof. intros env t s. by split. Qed.
Lemma respects_mls se {A} (f : Env -> nat -> result A) : respects (sv_lift R) (Service.mls se f).
Proof. intros env t s. by split. Qed.
Lemma respects_coordinator g : respects (sv_lift R) (Service.coordinator g).
Proof. intros env t s. by split. Qed.
Lemma respects_options {PC : PeerCodec} se local g key audit : respects (sv_lift R) (Service.options_for se local g key audit).
Proof. intros env t s. by split. Qed.
End Rules.

(** [asql_step] for methods of the runtime and of the services. *)
Ltac svc_step :=
  match goal with
  | |- respects _ (Runtime.app _) => apply respects_app
  | |- respects _ (Runtime.effect _) => apply respects_effect
  | |- respects _ (Service.db _) => apply respects_db
  | |- respects _ (Service.rt _) => apply respects_rt
  | |- respects _ (Service.out _) => apply respects_out
  | |- respects _ (Service.mls _ _) => apply respects_mls
  | |- respects _ (Service.coordinator _) => apply respects_coordinator
  | |- respects _ (Service.options_for _ _ _ _ _) => apply respects_options
  | _ => asql_step
  end.

(** A computation that keeps a relation. *)
Lemma swp_respects {D A} (R : D -> D -> Prop) (m : SQLs D A) Q d :
  respects R m -> (forall r d', R d d' -> Q r d') -> swp m Q d.
Proof. intros H HQ env t. apply HQ, H. Qed.

(** A computation that reports no error. *)
Definition succeeds {D A} (m : SQLs D A) : Prop := forall env t d, exists a, (m env t d).1.1 = inl a.
Lemma succeeds_ret {D A} (a : A) : succeeds (@sql_ret D A a).
Proof. intros env t d. by exists a. Qed.
Lemma succeeds_ignore {D A} (m : SQLs D A) : succeeds (sql_ignore m).
Proof. intros env t d. exists tt. unfold sql_ignore. by destruct (m env t d) as [[? ?] ?]. Qed.
Lemma succeeds_try {D A} (m : SQLs D A) : succeeds (sql_try m).
Proof. intros env t d. unfold sql_try. destruct (m env t d) as [[r ?] ?]. by exists r. Qed.
Lemma succeeds_bind {D A B} (m : SQLs D A) (k : A -> SQLs D B) : succeeds m -> (forall a, succeeds (k a)) -> succeeds (sql_bind m k).
Proof.
  intros Hm Hk env t d. unfold sql_bind. destruct (Hm env t d) as [a E]. destruct (m env t d) as [[r t'] d']. simpl in E.
  rewrite E. apply Hk.
Qed.
Lemma succeeds_out e : succeeds (Service.out e).
Proof. intros env t d. by exists tt. Qed.
Lemma succeeds_effect e : succeeds (Runtime.effect e).
Proof. intros env t d. by exists tt. Qed.
Lemma succeeds_rt {A} (m : RT A) : succeeds m -> succeeds (Service.rt m).
Proof.
  intros Hm env t s. unfold Service.rt. destruct (Hm env t (mkRtState (sv_app s) (dom (sv_coords s)) (sv_trace s))) as [a E].
  destruct (m env t _) as [[r t'] s']. simpl in *. by exists a.
Qed.
Lemma succeeds_appendGroupEvent g ty a t e : succeeds (Runtime.appendGroupEvent g ty a t e).
Proof. unfold Runtime.appendGroupEvent. case_match; [apply succeeds_ret|apply succeeds_effect]. Qed.
Lemma swp_succeeds {D A} (R : D -> D -> Prop) (m : SQLs D A) (Q : result A -> D -> Prop) d :
  respects R m -> succeeds m -> (forall a d', R d d' -> Q (inl a) d') -> swp m Q d.
Proof. intros H Hs HQ env t. destruct (Hs env t d) as [a E]. rewrite E. apply HQ, H. Qed.
Ltac succeeds_auto :=
  repeat first [ apply succeeds_ret | apply succeeds_ignore | apply succeeds_try | apply succeeds_out | apply succeeds_effect
               | apply succeeds_appendGroupEvent | apply succeeds_rt | apply succeeds_bind; [|intro] | case_match ].

Lemma swp_db {A} (m : ASQL A) Q s :
  swp m (fun r d => Q r (mkSvc d (sv_coords s) (sv_hlc s) (sv_trace s))) (sv_app s) -> swp (Service.db m) Q s.
Proof. intros H env t. specialize (H env t). unfold Service.db. by destruct (m env t (sv_app s)) as [[r t'] d]. Qed.
Lemma swp_coordinator g Q s : Q (inl (sv_coords s !! g)) s -> swp (Service.coordinator g) Q s.
Proof. by intros H env t. Qed.
Lemma swp_put g oc Q s : Q (inl tt) (mkSvc (sv_app s) (<[g := oc]> (sv_coords s)) (sv_hlc s) (sv_trace s)) ->
  swp (Service.put_coordinator g oc) Q s.
Proof. by intros H env t. Qed.
Lemma swp_mls se {A} (f : Env -> nat -> result A) Q s : (forall t, Q (f (se_shared se) t) s) -> swp (Service.mls se f) Q s.
Proof. intros H env t. apply H. Qed.

Section Ewp.
Context (sql : SqlEnv).
Lemma ewp_db {A} (m : ASQL A) Q s :
  ewp sql m (fun r d => Q r (mkSvc d (sv_coords s) (sv_hlc s) (sv_trace s))) (sv_app s) -> ewp sql (Service.db m) Q s.
Proof. intros H t. specialize (H t). unfold Service.db. by destruct (m sql t (sv_app s)) as [[r t'] d]. Qed.
Lemma ewp_coordinator g Q s : Q (inl (sv_coords s !! g)) s -> ewp sql (Service.coordinator g) Q s.
Proof. by intros H t. Qed.
Lemma ewp_put g oc Q s : Q (inl tt) (mkSvc (sv_app s) (<[g := oc]> (sv_coords s)) (sv_hlc s) (sv_trace s)) ->
  ewp sql (Service.put_coordinator g oc) Q s.
Proof. by intros H t. Qed.
Lemma ewp_mls se {A} (f : Env -> nat -> result A) Q s : (forall t, Q (f (se_shared se) t) s) -> ewp sql (Service.mls se f) Q s.
Proof. intros H t. apply H. Qed.
Lemma ewp_succeeds {D A} (R : D -> D -> Prop) (m : SQLs D A) (Q : result A -> D -> Prop) d :
  respects R m -> succeeds m -> (forall a d', R d d' -> Q (inl a) d') -> ewp sql m Q d.
Proof. intros H Hs HQ. by apply swp_ewp, (swp_succeeds R). Qed.
End Ewp.

Create HintDb untouched.

(** The statements the code is made of, and what is left of those that write. *)
Ltac untouched_auto :=
  repeat first [ progress cbv zeta | solve [eauto 2 with untouched nocore] | svc_step ];
  try done; try (unfold same, Roster.update_member; simpl; repeat case_match; done).

(** What methods of the services below only read, or write elsewhere *)
Lemma readonly_GetGroupRecord g : readonly (core (Store.GetGroupRecord g)).
Proof.
  intros env t d. unfold core. assert (H : readonly (Store.GetGroupRecord g)) by (unfold Store.GetGroupRecord; read_auto).
  specialize (H env t (adb_core d)). destruct (Store.GetGroupRecord _ _ _ _) as [[r t'] c]. simpl in *. subst. by destruct d.
Qed.
Lemma GetGroupRecord_untouched g : respects untouched (core (Store.GetGroupRecord g)).
Proof. apply respects_readonly; [apply _|apply readonly_GetGroupRecord]. Qed.
Lemma UpsertGroupMember_untouched rec : respects untouched (Roster.UpsertGroupMember rec).
Proof. unfold Roster.UpsertGroupMember, Roster.upsert_member. untouched_auto. Qed.
Lemma UpsertGroupMemberPreservingRole_untouched rec : respects untouched (Roster.UpsertGroupMemberPreservingRole rec).
Proof. unfold Roster.UpsertGroupMemberPreservingRole, Roster.upsert_member. untouched_auto. Qed.
Lemma MarkGroupMemberLeft_untouched g p at_ : respects untouched (Roster.MarkGroupMemberLeft g p at_).
Proof. unfold Roster.MarkGroupMemberLeft. untouched_auto. Qed.
#[export] Hint Resolve GetGroupRecord_untouched UpsertGroupMember_untouched UpsertGroupMemberPreservingRole_untouched
  MarkGroupMemberLeft_untouched : untouched.

Section Frames.
Context {PC : PeerCodec} {ED : Ed25519} (re : RtEnv).

Lemma ensureSessionActive_untouched : respects (rt_lift untouched) (Runtime.ensureSessionActive re).
Proof.
  unfold Runtime.ensureSessionActive, Runtime.GetSessionStatus, Runtime.readInt64Config, Identity.GetConfig. untouched_auto.
Qed.
Lemma appendGroupEvent_untouched g ty actor target epoch :
  respects (rt_lift untouched) (Runtime.appendGroupEvent g ty actor target epoch).
Proof. unfold Runtime.appendGroupEvent. untouched_auto. Qed.
Lemma GetMLSIdentity_untouched : respects (rt_lift untouched) Runtime.GetMLSIdentity.
Proof. unfold Runtime.GetMLSIdentity, Identity.GetMLSIdentity. untouched_auto. Qed.
Lemma GetOnboardingInfo_untouched : respects (rt_lift untouched) (Runtime.GetOnboardingInfo re).
Proof. unfold Runtime.GetOnboardingInfo, Runtime.GetMLSIdentity, Identity.GetMLSIdentity. untouched_auto. Qed.
Hint Resolve ensureSessionActive_untouched appendGroupEvent_untouched GetMLSIdentity_untouched
  GetOnboardingInfo_untouched : untouched.

Lemma resolveDisplayNameForPeer_untouched p : respects (rt_lift untouched) (Membership.resolveDisplayNameForPeer re p).
Proof.
  unfold Membership.resolveDisplayNameForPeer, Roster.SavePeerProfile, Roster.GetPeerDisplayName. untouched_auto.
Qed.
Lemma resolveGroupMemberRole_untouched g p : respects (rt_lift untouched) (Membership.resolveGroupMemberRole re g p).
Proof.
  unfold Membership.resolveGroupMemberRole, Roster.GetGroupCreatorPeerID, Replicated.GetReplicatedRecord. untouched_auto.
Qed.
Hint Resolve resolveDisplayNameForPeer_untouched resolveGroupMemberRole_untouched : untouched.

Lemma roster_evidence_untouched g p source b :
  respects (rt_lift untouched) (Membership.upsertGroupMemberFromRosterEvidence re g p source b).
Proof.
  unfold Membership.upsertGroupMemberFromRosterEvidence, Membership.checked_ids, Roster.GetGroupMember, Runtime.with_db,
    Runtime.not_initialized. untouched_auto.
Qed.
Hint Resolve roster_evidence_untouched : untouched.

Lemma mark_absent_untouched g peers rows : forall changed, respects (rt_lift untouched) (Membership.mark_absent g peers rows changed).
Proof. induction rows as [|row rows IH]; intros changed; simpl; untouched_auto. Qed.

Lemma reconcile_leaf_untouched g dm lp l id acc : respects (rt_lift untouched) (Membership.reconcile_leaf re g dm lp l id acc).
Proof.
  unfold Membership.reconcile_leaf, Membership.upsertGroupMemberFromMLSReconcile, Membership.roster_differs,
    Membership.leaf_peer, Membership.dm_counterparty, Roster.GetGroupMember, Roster.GetPeerIDByPublicKeyHex,
    Roster.GetGroupCreatorPeerID, Roster.ListGroupMembers, Roster.UpsertPeerProfileWithKey. untouched_auto.
Qed.
Lemma reconcile_leaves_untouched g dm lp l ids : forall acc, respects (rt_lift untouched) (Membership.reconcile_leaves re g dm lp l ids acc).
Proof.
  induction ids as [|id ids IH]; intros acc; simpl; [untouched_auto|].
  svc_step; [apply reconcile_leaf_untouched|apply IH].
Qed.
Hint Resolve mark_absent_untouched reconcile_leaves_untouched : untouched.

Lemma reconcile_untouched g : respects (rt_lift untouched) (Membership.reconcileGroupRosterWithMLS re g).
Proof. unfold Membership.reconcileGroupRosterWithMLS, Roster.ListGroupMembers. untouched_auto. Qed.
End Frames.
#[export] Hint Resolve ensureSessionActive_untouched appendGroupEvent_untouched GetMLSIdentity_untouched
  GetOnboardingInfo_untouched roster_evidence_untouched reconcile_untouched : untouched.

(** ** Writes to one group *)

Lemma update_group_steady g now f cols d :
  (forall r, gr_Epoch (grow_rec (f r)) = gr_Epoch (grow_rec r) /\ grow_lifecycle_status (f r) = grow_lifecycle_status r) ->
  steady g d (Roster.update_group g now f cols d).1.
Proof.
  intros Hf. unfold Roster.update_group, Roster.group_row. destruct (db_groups (adb_core d) !! g) as [r|] eqn:E; [|reflexivity].
  split; [split; simpl; try done|].
  - intros g' Hne. by rewrite lookup_insert_ne.
  - intros row Hrow. unfold Roster.group_row in *. simpl in *. rewrite lookup_insert_eq. eexists. split; [done|].
    simplify_eq. unfold Roster.touch_group. simpl. apply Hf.
Qed.

Lemma SetGroupCreatorPeerID_steady g c : respects (steady (TrimSpace g)) (Roster.SetGroupCreatorPeerID g c).
Proof.
  unfold Roster.SetGroupCreatorPeerID, Roster.current_timestamp. repeat first [progress cbv zeta|svc_step].
  by apply update_group_steady.
Qed.

(** A purge takes nothing from other groups. *)
Lemma purge_tables_apart g : Forall (fun tf => forall d, apart g d (tf.2 d)) (GroupMeta.purge_tables g).
Proof.
  unfold GroupMeta.purge_tables. repeat constructor; simpl; try done; intros;
    unfold GroupMeta.other_key, GroupMeta.other_val; rewrite ?lookup_delete_ne, ?lookup_delete_eq by done; try done.
  match goal with H : is_Some _ |- _ => destruct H as [v Hv] end. exists v. by apply map_lookup_filter_Some_2.
Qed.

Lemma delete_all_apart g tables :
  Forall (fun tf : string * (AppDB -> AppDB) => forall d, apart g d (tf.2 d)) tables -> ensures (apart g) (GroupMeta.delete_all tables).
Proof.
  induction 1 as [|[table f] tables Hf _ IH]; simpl; [repeat svc_step|].
  apply ensures_bind; [apply _| |intros _; apply IH]. apply ensures_wrap, respects_ensures, respects_exec; [apply _|apply Hf].
Qed.

Lemma PurgeGroupMetadata_apart g : respects (apart (TrimSpace g)) (GroupMeta.PurgeGroupMetadata g).
Proof.
  unfold GroupMeta.PurgeGroupMetadata. cbv zeta. case_match; [by repeat svc_step|].
  apply respects_tx; [apply _|]. apply ensures_bind; [apply _|apply delete_all_apart, purge_tables_apart|].
  intros _. by repeat svc_step.
Qed.

Lemma set_core_id d : set_adb_core (adb_core d) d = d.
Proof. by destruct d. Qed.

(** Saving a record: whether or not it succeeds, other groups are untouched;
    when it does, the row is active and has the epoch. *)
Lemma SaveGroupRecord_row rec Q d :
  (forall e, Q (inr e) d) ->
  (forall d' row, apart (gr_GroupID rec) d d' -> Roster.group_row (gr_GroupID rec) d' = Some row ->
     gr_Epoch (grow_rec row) = gr_Epoch rec -> grow_lifecycle_status row = "active" -> 0 <= gr_Epoch rec < 2 ^ 63 -> Q (inl tt) d') ->
  0 <= gr_Epoch rec -> swp (core (Store.SaveGroupRecord rec)) Q d.
Proof.
  intros He Hs H0 env t. unfold core, Store.SaveGroupRecord. destruct (Store.validateGroupRecordForSave rec) as [e|]; simpl.
  { rewrite set_core_id. apply He. }
  unfold sql_wrap, sql_bind, sql_uint64, sql_exec. destruct (Z.ltb_spec (gr_Epoch rec) (2 ^ 63)) as [Hlt|Hge]; simpl.
  2:{ rewrite set_core_id. apply He. }
  destruct (sql_fails env t); simpl.
  { rewrite set_core_id. apply He. }
  eapply Hs; [| |..|done].
  - split; simpl; try done. intros g' Hne. by rewrite lookup_insert_ne.
  - unfold Roster.group_row. simpl. apply lookup_insert_eq.
  - unfold Store.upsert_group. by case_match.
  - unfold Store.upsert_group. by case_match.
Qed.

