(* ===== verification/ServiceSpec.v ===== *)
(** * What joining, founding and restoring groups establishes

    The services over the tables start coordinators that satisfy the
    invariant of [CoordInv.v] next to those that run, so the theorems about a
    node of coordinators ([Node.v]) apply from the start-up of the
    application on. *)
From S2P Require Import Prelude GoStrings Sha256 Types Config Hlc Epoch ActiveView SingleWriter.
From S2P Require Import ForkDetector Helpers Database Store StoreSpec HealStore AppDatabase Identity Roster.
From S2P Require Import InviteStore Replicated AddOperations InviteRequests Wire.
From S2P Require Import Runtime Categories CategoryService Membership SqlLogic.
From S2P Require Import Coordinator CoordBroadcast CoordApplication CoordCommit.
From S2P Require Import CoordMessage CoordMembers CoordLogic.
From S2P Require Import CoordReplay CoordHeal CoordInv CoordSafe CoordStart Node Service ServiceLogic.

Section Invariant.
Context {PC : PeerCodec} {ED : Ed25519} {WC : WireCodec} {PJ : PayloadJSON} (se : SvEnv).

(** ** Invariant *)

(** The coordinator's invariant depends on its environment only by the
    group. *)
Lemma coord_ok_group env env' w :
  o_GroupID (e_opts env) = o_GroupID (e_opts env') -> coord_ok env w -> coord_ok env' w.
Proof.
  intros E [C [G O] [N D P]]. rewrite E in G. split; [done|by split|].
  split; [done|eapply Forall_impl; [exact D|]|eapply Forall_impl; [exact P|]].
  - intros h. unfold is_applied. by rewrite E.
  - intros wire. unfold publishable, is_applied. by rewrite E.
Qed.

Definition world_at (s : Svc) (ct : Coord * list Effect) : World :=
  mkWorld (set_c_hlc (sv_hlc s) ct.1) (adb_core (sv_app s)) 0 ct.2.

(** The coordinator of [g] satisfies its invariant in the world it sees. *)
Definition fine (s : Svc) (g : string) (ct : Coord * list Effect) : Prop :=
  (forall env, o_GroupID (e_opts env) = g -> coord_ok env (world_at s ct)) /\ heal_ok (world_at s ct).

Record svc_ok (s : Svc) : Prop := {
  sok_fine : forall g o ct, sv_coords s !! g = Some (o, ct) -> fine s g ct;
  sok_opts : forall g o ct, sv_coords s !! g = Some (o, ct) ->
    o_GroupID o = g /\ o_HasMLS o = true /\ 0 < Config.BatchingDelay (o_Config o);
  sok_active : forall g oc, sv_coords s !! g = Some oc ->
    exists row, Roster.group_row g (sv_app s) = Some row /\ grow_lifecycle_status row = "active";
  sok_ops : Forall op_targeted (db_pending_ops (adb_core (sv_app s)));
  sok_jobs : Forall job_waiting (db_heal_jobs (adb_core (sv_app s)));
}.

(** The node of the running coordinators, to which the theorems of [Node.v]
    apply. *)
Definition node_of (t : nat) (s : Svc) : Node := mkNode (snd <$> sv_coords s) (adb_core (sv_app s)) t (sv_hlc s).
Definition ne_of (env : SqlEnv) (s : Svc) : NodeEnv :=
  mkNodeEnv (with_sql env (se_shared se))
    (fun g => from_option fst (Service.coordinator_options se env "" g [] true) (sv_coords s !! g)).

Lemma svc_node_ok env t s : svc_ok s -> node_ok (ne_of env s) (node_of t s).
Proof.
  intros [HF HO _ _ _]. split; intros g ct; simpl; rewrite lookup_fmap; destruct (sv_coords s !! g) as [[o ct']|] eqn:E; try done;
    intros [= <-]; destruct (HF _ _ _ E) as [HC HH].
  - destruct (HC (env_of (ne_of env s) g)) as [C [G O] T]; [simpl; rewrite E; by apply (HO _ _ _ E)|]. by split.
  - by destruct HH.
Qed.

Lemma svc_env_ok env s : re_engine (se_rt se) = true -> svc_ok s -> env_ok (ne_of env s).
Proof.
  intros Hre [_ HO _ _ _]. split; intros g; simpl; destruct (sv_coords s !! g) as [[o ct]|] eqn:E; simpl; try done;
    by apply (HO _ _ _ E).
Qed.

(** ** Changes that coordinators do not notice *)

Lemma fine_apart g g' s s' ct :
  g' <> g -> apart g (sv_app s) (sv_app s') -> fine s g' ct -> fine s' g' ct.
Proof.
  intros Hne [G A O J _] [HC HH]. split.
  - intros env He. destruct (HC env He) as [C [HG HO] [N D P]]. simpl in *. rewrite He in HG. split; simpl.
    + by eapply same_core_components; [|exact C].
    + split; simpl; [rewrite He, G by done; exact HG|by rewrite O].
    + split; simpl; [done|eapply Forall_impl; [exact D|]|eapply Forall_impl; [exact P|]].
      * intros h. unfold is_applied. rewrite He. by apply A.
      * intros wire H en E1 E2. specialize (H en E1 E2). unfold is_applied in *. rewrite He in *. by apply A.
  - destruct HH as [HJ HS]. split; simpl in *; [by rewrite J|done].
Qed.

(** A change of one group that has no coordinator. *)
Lemma svc_ok_apart g s s' :
  sv_coords s !! g = None -> sv_lift (apart g) s s' -> svc_ok s -> svc_ok s'.
Proof.
  intros Hg [HA HC] [HF HO HL Hp Hj]. pose proof HA as [G A O J _].
  assert (Hne : forall g' oc, sv_coords s !! g' = Some oc -> g' <> g) by (intros g' oc H ->; congruence).
  split; rewrite ?HC, ?O, ?J; try done.
  - intros g' o ct H. eapply fine_apart; [by eapply Hne|done|by eapply HF].
  - intros g' oc H. destruct (HL g' oc H) as (row & Hr & Hl). exists row. split; [|done].
    unfold Roster.group_row in *. rewrite G; [done|by eapply Hne].
Qed.

(** A change of what coordinators do not rely on. *)
Definition framed (d d' : AppDB) : Prop := frame (adb_core d) (adb_core d').
#[export] Instance framed_preorder : PreOrder framed.
Proof. split; [by intros d; split|]. intros d1 d2 d3 H1 H2. unfold framed in *. by etrans. Qed.
Lemma untouched_framed d d' : untouched d d' -> framed d d'.
Proof. unfold same, framed. intros ->. reflexivity. Qed.

Lemma fine_framed g s s' ct : framed (sv_app s) (sv_app s') -> fine s g ct -> fine s' g ct.
Proof.
  intros (G & O & J & _ & A) [HC HH]. split.
  - intros env He. destruct (HC env He) as [C [HG HO] T]. simpl in *. split; simpl.
    + by eapply same_core_components; [|exact C].
    + split; simpl; by rewrite ?G, ?O.
    + by eapply trace_ok_mono.
  - destruct HH as [HJ HS]. split; simpl in *; [by rewrite J|done].
Qed.

Lemma svc_ok_framed s s' : sv_lift framed s s' -> svc_ok s -> svc_ok s'.
Proof.
  intros [HA HC] [HF HO HL Hp Hj]. pose proof HA as (G & O & J & _ & _). split; rewrite ?HC, ?O, ?J; try done.
  - intros g o ct H. eapply fine_framed; [exact HA|by eapply HF].
  - intros g oc H. destruct (HL g oc H) as (row & Hr & Hl). exists row. unfold Roster.group_row in *. by rewrite G.
Qed.

Lemma svc_ok_untouched s s' : sv_lift untouched s s' -> svc_ok s -> svc_ok s'.
Proof. intros [HA HC]. apply svc_ok_framed. split; [by apply untouched_framed|done]. Qed.

(** A new coordinator. *)
Lemma svc_ok_put g o ct s :
  svc_ok s -> fine s g ct -> o_GroupID o = g -> o_HasMLS o = true -> 0 < Config.BatchingDelay (o_Config o) ->
  (exists row, Roster.group_row g (sv_app s) = Some row /\ grow_lifecycle_status row = "active") ->
  svc_ok (mkSvc (sv_app s) (<[g := (o, ct)]> (sv_coords s)) (sv_hlc s) (sv_trace s)).
Proof.
  intros [HF HO HL Hp Hj] Hf H1 H2 H3 Hr. split; simpl; try done.
  all: intros g' *; intros [[<- [= <- <-]]|[_ H]]%lookup_insert_Some || intros [[<- <-]|[_ H]]%lookup_insert_Some; eauto.
Qed.

(** ** Running a coordinator *)

Lemma ewp_run_coord {A} sql o ct (m : C A) Q s :
  (forall t, wp (with_sql sql (with_opts o (se_shared se))) m
     (fun a w => Q (inl (a, (w_c w, w_trace w))) (mkSvc (set_adb_core (w_db w) (sv_app s)) (sv_coords s) (c_hlc (w_c w)) (sv_trace s)))
     (mkWorld (set_c_hlc (sv_hlc s) ct.1) (adb_core (sv_app s)) t ct.2)) ->
  ewp sql (Service.run_coord se o ct m) Q s.
Proof.
  intros H t. specialize (H t). unfold Service.run_coord, wp in *. by destruct (m _ _) as [a w| |].
Qed.

Lemma coord_ok_world_at s env c db tr t :
  coord_ok env (mkWorld c db t tr) -> adb_core (sv_app s) = db -> coord_ok env (world_at s (c, tr)).
Proof.
  intros [C [G O] T] E. split; simpl in *; rewrite ?E; [by eapply same_core_components; [|exact C]|by split|done].
Qed.

(** What is known when a coordinator for [g] is about to start. *)
Record ready (sql : SqlEnv) (g : string) (anchor : option (Z * bytes)) (d : AppDB) : Prop := {
  rd_row : exists row, Roster.group_row g d = Some row /\ 0 <= gr_Epoch (grow_rec row) < 2 ^ 63 /\
    forall e h, anchor = Some (e, h) -> e = gr_Epoch (grow_rec row) /\
      (db_coord (adb_core d) !! g = None \/ forall t, sql_fails sql t = None);
  rd_ops : Forall op_targeted (db_pending_ops (adb_core d));
  rd_jobs : Forall job_waiting (db_heal_jobs (adb_core d));
}.

Lemma seed_anchor env e h w :
  c_singleWriter (w_c w) = None ->
  wp env (SeedHistoryAnchor e (Some h)) (fun _ w' =>
    c_historyHash (w_c w') = Some h /\ c_historyChain (w_c w') !! e = Some h /\
    c_groupState (w_c w') = c_groupState (w_c w) /\ c_welcomeReceived (w_c w') = c_welcomeReceived (w_c w) /\
    c_started (w_c w') = c_started (w_c w) /\
    w_trace w' = w_trace w /\ frame (w_db w) (w_db w') /\
    (db_coord (w_db w) !! o_GroupID (e_opts env) = None \/ (forall t, sql_fails (e_sql env) t = None) ->
     forall row, db_coord (w_db w') !! o_GroupID (e_opts env) = Some row -> crow_history_chain row !! e = Some h) /\
    forall g', g' <> o_GroupID (e_opts env) -> db_coord (w_db w') !! g' = db_coord (w_db w) !! g') w.
Proof.
  intros Hs. unfold SeedHistoryAnchor, persistCoordStateLocked. wp_run.
  cbn [w_c with_c c_singleWriter set_c_epoch set_c_historyHash set_c_historyChain]. rewrite Hs. wp_run. rewrite wp_db.
  unfold Store.SaveCoordState, sql_wrap, sql_exec. simpl. destruct (sql_fails _ _) eqn:Hf; wp_run; simpl; rewrite lookup_insert_eq.
  all: do 6 (split; [done|]). all: split; [by apply frame_eq|].
  { split; [|done]. intros [Hn|Hn] row; [by rewrite Hn|congruence]. }
  split; [|intros g' Hg'; by rewrite lookup_insert_ne].
  intros Hn row. rewrite lookup_insert_eq. intros [= <-]. simpl. apply lookup_insert_eq.
Qed.

(** Changes a starting coordinator makes: its own coordination state. *)
Record still (g : string) (d d' : AppDB) : Prop := {
  sl_framed : framed d d';
  sl_coord : forall g', g' <> g -> db_coord (adb_core d') !! g' = db_coord (adb_core d) !! g';
  sl_welcomes : adb_stored_welcomes d' = adb_stored_welcomes d;
}.
#[export] Instance still_preorder g : PreOrder (still g).
Proof.
  split; [by intros d; split|]. intros d1 d2 d3 [F1 C1 W1] [F2 C2 W2]. split; [by etrans| |congruence].
  intros g' H. by rewrite C2, C1.
Qed.
Lemma lift_weaken (R R' : AppDB -> AppDB -> Prop) s s' : (forall d d', R d d' -> R' d d') -> sv_lift R s s' -> sv_lift R' s s'.
Proof. intros H [HR HC]. split; [by apply H|done]. Qed.
Lemma still_framed g s s' : sv_lift (still g) s s' -> sv_lift framed s s'.
Proof. apply lift_weaken. by intros d d' []. Qed.

(** No statement fails, and topics can be joined. *)
Definition flawless (sql : SqlEnv) : Prop :=
  (forall t, sql_fails sql t = None) /\ forall t, e_subscribe (se_shared se) t = inl tt.

Lemma start_fine sql g o s ct anchor :
  o_GroupID o = g ->
  c_groupState ct.1 = None -> c_welcomeReceived ct.1 = false -> c_started ct.1 = false -> ct.2 = [] ->
  (exists row, Roster.group_row g (sv_app s) = Some row /\ 0 <= gr_Epoch (grow_rec row) < 2 ^ 63 /\
     forall h, c_historyHash ct.1 = Some h -> c_historyChain ct.1 !! gr_Epoch (grow_rec row) = Some h /\
       forall cr, db_coord (adb_core (sv_app s)) !! g = Some cr -> crow_history_chain cr !! gr_Epoch (grow_rec row) = Some h) ->
  ready sql g anchor (sv_app s) ->
  ewp sql (Service.run_coord se o ct Start) (fun r s' => sv_lift (still g) s s' /\
    match r with inl (inl _, ct') => fine s' g ct' | _ => ~ flawless sql end) s.
Proof.
  intros Hg Hgs Hw Hnew Ht (row & Hrow & Hrange & Hh) [_ Ho Hj]. apply ewp_run_coord. intros t. set (env := with_sql _ _).
  assert (Henv : o_GroupID (e_opts env) = g) by done.
  assert (Hfl : flawless sql -> (forall t, sql_fails (e_sql env) t = None) /\ forall t, e_subscribe env t = inl tt) by done.
  clearbody env. set (w := mkWorld _ _ _ _). assert (Hst : startable env w).
  { split; simpl; rewrite ?Henv, ?Ht, ?Hgs; try done.
    - intros _. split; [done|]. intros row' E. unfold Roster.group_row in Hrow. simplify_eq. intros h Eh. simpl in *.
      destruct (Hh h Eh) as [H1 H2]. split; [done|]. intros cr Hcr. right. rewrite Henv in Hcr. by apply H2.
    - split; constructor.
    - intros row' E. unfold Roster.group_row in Hrow. rewrite Hrow in E. by injection E as <-. }
  assert (Hok : pc env Start (fun r _ => flawless sql -> r = inl tt) w).
  { intros r w1 E [F1 F2]%Hfl. refine (start_succeeds env w F1 F2 Hnew _ r w1 E).
    rewrite Henv. unfold Roster.group_row in Hrow. simpl. by rewrite Hrow. }
  eapply wp_mono; [apply wp_and_pc; [apply wp_and_pc; [apply (start_ok env w Hst)|apply start_left_alone]|exact Hok]|].
  intros r w' [[H1 (HF & HC & HR)] H3]; simpl. split.
  { split; [|done]. split; [done| |done]. simpl. intros g' _. by rewrite HC. }
  destruct r as [[]|e]; [|by intros Hq%H3]. destruct (H1 eq_refl) as [HK _].
  split.
  - intros env' He'. eapply (coord_ok_world_at _ _ _ (w_db w') _ (w_tick w')); [|done].
    eapply coord_ok_group; [|destruct w'; exact HK]. congruence.
  - destruct HF as (_ & _ & J & _). split; simpl; [by rewrite J|]. rewrite HR. exact Hw.
Qed.

Lemma start_coordinator_ok sql g o view anchor s :
  o_GroupID o = g -> Config.Validate (o_Config o) = None -> ready sql g anchor (sv_app s) ->
  ewp sql (Service.start_coordinator se o view anchor) (fun r s' => sv_lift (still g) s s' /\
    match r with inl ct => fine s' g ct | inr _ => ~ flawless sql end) s.
Proof.
  intros Hg Hv Hr. pose proof Hr as [(row & Hrow & Hrange & Ha) Ho Hj]. unfold Service.start_coordinator. apply ewp_bind.
  intros t. unfold Service.new_coordinator, NewCoordinator. rewrite Hv. simpl.
  match goal with |- context [(?c, [])] => set (ct := (c, @nil Effect)) end.
  assert (Hct : c_groupState ct.1 = None /\ c_welcomeReceived ct.1 = false /\ c_started ct.1 = false /\ ct.2 = [] /\
    c_historyHash ct.1 = None /\ c_singleWriter ct.1 = None) by done. clearbody ct. destruct Hct as (C1 & C2 & C0 & C3 & C4 & C5).
  assert (Hlast : forall (s1 : Svc) ct1, sv_lift (still g) s s1 ->
    ewp sql (Service.run_coord se o ct1 Start) (fun r s' => sv_lift (still g) s1 s' /\
      match r with inl (inl _, ct') => fine s' g ct' | _ => ~ flawless sql end) s1 ->
    ewp sql (r <-! Service.run_coord se o ct1 Start ;
         match r.1 with inl _ => sql_ret r.2 | inr e => sql_throw (ErrWrap "start coordinator" e) end)
      (fun r s' => sv_lift (still g) s s' /\ match r with inl ct => fine s' g ct | inr _ => ~ flawless sql end) s1).
  { intros s1 ct1 H1 H2. apply ewp_bind. eapply ewp_mono; [|exact H2]. intros [[[[]|e] ct']|e] s2 [H3 H4]; simpl.
    - apply ewp_ret. split; [by etrans|done].
    - apply ewp_throw. split; [by etrans|done].
    - split; [by etrans|done]. }
  apply ewp_bind. destruct anchor as [[e h]|].
  - apply ewp_bind. apply ewp_run_coord. intros t'. set (env := with_sql _ _).
    assert (Henv : o_GroupID (e_opts env) = g /\ e_sql env = sql) by done. clearbody env. destruct Henv as [Henv Hsql].
    destruct (Ha e h eq_refl) as [-> Hn].
    eapply wp_mono; [by apply seed_anchor|]. intros [] w' (H1 & H2 & H3 & H4 & H0 & H5 & H6 & H7 & H8). simpl in *. apply ewp_ret.
    rewrite Henv in H7, H8. rewrite Hsql in H7. specialize (H7 Hn).
    apply Hlast; [by split|]. destruct H6 as (G & O & J & P & A). apply (start_fine sql g o _ _ None); simpl; try congruence.
    + exists row. unfold Roster.group_row in *. simpl. rewrite G. split; [done|]. split; [done|].
      intros h' Eh. split; congruence || (intros cr Hcr; rewrite H1 in Eh; injection Eh as <-; by apply H7).
    + split; simpl; [|by rewrite O|by rewrite J]. exists row. unfold Roster.group_row in *. simpl. rewrite G. done.
  - apply ewp_ret. apply Hlast; [reflexivity|]. apply (start_fine sql g o _ _ None); try done.
    exists row. split; [done|]. split; [done|]. intros h' Eh. congruence.
Qed.

(** ** Joining *)

Lemma untouched_apart g s s' : sv_lift untouched s s' -> sv_lift (apart g) s s'.
Proof. apply lift_weaken. intros d d' H. by apply steady_apart, untouched_steady. Qed.

Lemma GetStoredWelcome_untouched p g : respects untouched (InviteStore.GetStoredWelcome p g).
Proof. unfold InviteStore.GetStoredWelcome. untouched_auto. Qed.
Hint Resolve GetStoredWelcome_untouched : untouched.

Lemma inviter_of_untouched local g p : respects (sv_lift untouched) (Service.inviter_of local g p).
Proof. unfold Service.inviter_of. untouched_auto. Qed.
Lemma save_self_untouched local g i role source : respects (sv_lift untouched) (Service.save_self local g i role source).
Proof. unfold Service.save_self. untouched_auto. Qed.
Lemma category_untouched g raw ty : respects (sv_lift untouched) (Service.resolveChannelCategoryForWelcomeJoin se g raw ty).
Proof. unfold Service.resolveChannelCategoryForWelcomeJoin, InviteStore.GetPendingInvite. untouched_auto. Qed.
Lemma view_untouched g : respects (sv_lift untouched) (Service.initialActiveViewForGroupLocked se g).
Proof. unfold Service.initialActiveViewForGroupLocked, Roster.ListGroupMembers. untouched_auto. Qed.

(** The record that a join saves is there, active, when it goes on. *)
Definition saved (g : string) (epoch : Z) (d : AppDB) : Prop :=
  0 <= epoch < 2 ^ 63 /\ exists row, Roster.group_row g d = Some row /\ gr_Epoch (grow_rec row) = epoch /\
    grow_lifecycle_status row = "active".
Lemma saved_steady g epoch d d' : steady g d d' -> saved g epoch d -> saved g epoch d'.
Proof.
  intros [_ HR] (H0 & row & Hr & He & Hl). split; [done|]. destruct (HR row Hr) as (row' & Hr' & He' & Hl').
  exists row'. repeat split; congruence.
Qed.

Lemma ewp_steady {A} sql g epoch (m : SV A) (Q : result A -> Svc -> Prop) s0 s :
  respects (sv_lift (steady g)) m -> sv_lift (apart g) s0 s -> saved g epoch (sv_app s) ->
  (forall r s', sv_lift (apart g) s0 s' -> saved g epoch (sv_app s') -> Q r s') -> ewp sql m Q s.
Proof.
  intros Hm H0 Hs HQ. eapply ewp_respects; [exact Hm|]. intros r s' H. apply HQ.
  - etrans; [exact H0|]. eapply lift_weaken; [apply steady_apart|done].
  - eapply saved_steady; [apply H|done].
Qed.

Lemma untouched_lift_steady {A} g (m : SV A) : respects (sv_lift untouched) m -> respects (sv_lift (steady g)) m.
Proof. apply respects_weaken. intros s s'. apply lift_weaken, untouched_steady. Qed.

Lemma save_joined_ok sql local g ty cat inviter identity st tree epoch s0 s :
  TrimSpace g = g -> 0 <= epoch -> sv_lift (apart g) s0 s ->
  ewp sql (Service.save_joined local g ty cat inviter identity st tree epoch) (fun r s' =>
    sv_lift (apart g) s0 s' /\ match r with inl _ => saved g epoch (sv_app s') | inr _ => True end) s.
Proof.
  intros Hg He H0. unfold Service.save_joined. apply ewp_bind, ewp_time. intros now. apply ewp_bind, ewp_wrap, ewp_db.
  apply swp_ewp, SaveGroupRecord_row; simpl; [by split| |done]. intros d' row Ha Hr Hre Hrl Hrange.
  set (s1 := mkSvc d' _ _ _). assert (H1 : sv_lift (apart g) s0 s1) by (etrans; [exact H0|by split]).
  assert (S1 : saved g epoch (sv_app s1)) by (split; [done|by exists row]). clearbody s1.
  apply ewp_bind. eapply (ewp_steady sql g epoch); [apply untouched_lift_steady, inviter_of_untouched|done..|].
  intros [inv|e] s2 H2 S2; [|by split]. apply ewp_bind.
  eapply (ewp_steady sql g epoch); [|exact H2|exact S2|].
  { svc_step; [by svc_step|]. svc_step. svc_step. rewrite <- Hg at 1. apply SetGroupCreatorPeerID_steady. }
  intros [[]|e] s3 H3 S3; [|by split].
  eapply (ewp_steady sql g epoch); [apply untouched_lift_steady, respects_ignore, save_self_untouched|done..|].
  intros r s4 H4 S4. by destruct r.
Qed.

(** What a join leaves: the invariant, the other coordinators; and when it
    succeeds a coordinator at the epoch of an active record, when it fails no
    new one. *)
Definition joined (g : string) (s : Svc) (r : result unit) (s' : Svc) : Prop :=
  svc_ok s' /\ (forall g', g' <> g -> sv_coords s' !! g' = sv_coords s !! g') /\
  match r with
  | inl _ => sv_coords s !! g = None /\ exists o c tr row, sv_coords s' !! g = Some (o, (c, tr)) /\
      Roster.group_row g (sv_app s') = Some row /\ grow_lifecycle_status row = "active" /\ gr_Epoch (grow_rec row) = c_epoch c
  | inr _ => sv_coords s' = sv_coords s
  end.

(** The MLS engine puts the epoch of the state it returns into the range of
    the anchor that came with the welcome. *)
Definition welcome_ok (welcome : bytes) (anchor : option (Z * bytes)) : Prop :=
  forall t key bundle n st tree e, mls_ProcessWelcome (se_shared se) t welcome key bundle n = inl (st, tree, e) ->
    0 <= e /\ forall a h, anchor = Some (a, h) -> a = e.

Definition anchor_of (anchorEpoch : Z) (anchorHash : bytes) : option (Z * bytes) :=
  if (anchorEpoch >? 0) && negb (is_empty anchorHash) then Some (anchorEpoch, anchorHash) else None.

Lemma joined_failed g s s' e : svc_ok s' -> sv_coords s' = sv_coords s -> joined g s (inr e) s'.
Proof. intros H1 H2. split; [done|]. split; [|done]. intros g' _. by rewrite H2. Qed.

(** From the saved record on. *)
Lemma join_started sql local g ty hint category identity epoch (ae : Z) (ah : bytes) s0 s :
  re_engine (se_rt se) = true -> svc_ok s0 -> sv_coords s0 !! g = None -> sv_lift (apart g) s0 s -> saved g epoch (sv_app s) ->
  (forall a h, anchor_of ae ah = Some (a, h) -> a = epoch /\
    (db_coord (adb_core (sv_app s)) !! g = None \/ forall t, sql_fails sql t = None)) ->
  ewp sql (o <-! Service.options_for se local g (mi_SigningKeyPrivate identity) false ;
       view <-! Service.initialActiveViewForGroupLocked se g ;
       ct <-! Service.start_coordinator se o view (anchor_of ae ah) ;
       Service.put_coordinator g (o, ct) ;;!
       sql_ignore (Service.save_self local g identity "member" "welcome") ;;!
       Service.rt (Runtime.appendGroupEvent g "member_joined" (peer_String local) (peer_String local) epoch) ;;!
       Service.members_changed g "joined" ;;!
       (if negb (str_eqb category "") && EqualFold ty "channel" && str_eqb hint ""
        then Service.emit "channel_categories:changed" [("reason", "welcome_join"); ("channel_id", g); ("category_id", category)]
        else sql_ret tt) ;;!
       sql_ignore (Service.rt (Membership.reconcileGroupRosterWithMLS (se_rt se) g)))
    (joined g s0) s.
Proof.
  intros Hre H0 Hc HA HS Hanc. pose proof (svc_ok_apart g s0 s Hc HA H0) as Hok. destruct HA as [HA HC].
  apply ewp_bind. intros t. simpl. set (o := Service.coordinator_options _ _ _ _ _ _).
  assert (Ho : o_GroupID o = g /\ o_HasMLS o = true /\ 0 < Config.BatchingDelay (o_Config o) /\ Config.Validate (o_Config o) = None)
    by (split; [done|split; [exact Hre|done]]).
  clearbody o. destruct Ho as (Ho1 & Ho2 & Ho3 & Ho4). clear t.
  apply ewp_bind. eapply ewp_respects; [apply view_untouched|]. intros [view|e] s1 [U1 C1]; simpl in U1.
  2:{ apply joined_failed; [by eapply svc_ok_untouched; [split|]|congruence]. }
  assert (O1 : svc_ok s1) by (by eapply svc_ok_untouched; [split|]).
  assert (S1 : saved g epoch (sv_app s1)) by (eapply saved_steady; [by apply untouched_steady|done]).
  assert (R1 : ready sql g (anchor_of ae ah) (sv_app s1)).
  { destruct S1 as (Hr & row & Hrow & Hep & _). split; [|apply O1..]. exists row. rewrite Hep. split; [done|]. split; [done|].
    intros a h E. destruct (Hanc a h E) as [-> Hn]. split; [done|]. unfold same in U1. by rewrite U1. }
  apply ewp_bind. eapply ewp_mono; [|by apply (start_coordinator_ok sql g)].
  intros [[c tr]|e] s2 [[F2 C2]%still_framed H2]; simpl.
  2:{ apply joined_failed; [by eapply svc_ok_framed; [split|]|congruence]. }
  assert (O2 : svc_ok s2) by (by eapply svc_ok_framed; [split|]).
  assert (S2 : exists row, Roster.group_row g (sv_app s2) = Some row /\ grow_lifecycle_status row = "active").
  { destruct S1 as (_ & row & Hrow & _ & Hl). exists row. destruct F2 as (G & _). unfold Roster.group_row in *. by rewrite G. }
  apply ewp_bind, ewp_put. unfold Service.members_changed, Service.emit. eapply (ewp_succeeds sql (sv_lift untouched)).
  { svc_step; [svc_step; apply save_self_untouched|]. untouched_auto. }
  { succeeds_auto. }
  set (s3 := mkSvc _ _ _ _). assert (O3 : svc_ok s3) by (by apply svc_ok_put).
  intros u s4 H4. pose proof (svc_ok_untouched _ _ H4 O3) as O4. destruct H4 as [U4 C4]. simpl in C4.
  split; [done|]. split.
  - intros g' Hne. rewrite C4. simpl. rewrite lookup_insert_ne by done. congruence.
  - split; [done|]. destruct S2 as (row & Hrow & Hl). exists o, c, tr, row.
    rewrite C4. simpl. rewrite lookup_insert_eq. split; [done|].
    assert (Hrow4 : Roster.group_row g (sv_app s4) = Some row) by (unfold Roster.group_row in *; unfold same in U4; by rewrite U4).
    split; [done|]. split; [done|]. destruct (sok_fine _ O4 g o (c, tr)) as [HK _]; [rewrite C4; apply lookup_insert_eq|].
    destruct (HK (with_opts o (se_shared se)) Ho1) as [_ [HG _] _]. simpl in HG. rewrite Ho1 in HG. by apply HG.
Qed.

Lemma join_locked_ok sql g ty hint inviter welcome bundle ae ah s :
  TrimSpace g = g -> svc_ok s -> welcome_ok welcome (anchor_of ae ah) ->
  (anchor_of ae ah <> None -> db_coord (adb_core (sv_app s)) !! g = None \/ forall t, sql_fails sql t = None) ->
  ewp sql (Service.join_locked se g ty hint inviter welcome bundle ae ah) (joined g s) s.
Proof.
  intros Hg Hok Hw Hn. unfold Service.join_locked. destruct (re_node (se_rt se)) as [local|]; [|by apply ewp_throw, joined_failed].
  destruct (re_engine (se_rt se)) eqn:Hre; [|by apply ewp_throw, joined_failed].
  destruct (se_stack se); [|by apply ewp_throw, joined_failed]. simpl. apply ewp_bind, ewp_coordinator.
  destruct (sv_coords s !! g) as [oc|] eqn:Hc; [by apply ewp_throw, joined_failed|].
  apply ewp_bind, ewp_wrap. eapply (ewp_respects sql (sv_lift untouched)); [apply respects_rt, GetMLSIdentity_untouched|].
  intros [identity|e] s1 H1; [|by apply joined_failed; [eapply svc_ok_untouched|apply H1]].
  apply ewp_bind, ewp_mls. intros t1. destruct (mls_ProcessWelcome _ _ _ _ _ _) as [[[st tree] epoch]|e] eqn:Ew.
  2:{ apply joined_failed; [by eapply svc_ok_untouched|apply H1]. }
  destruct (Hw _ _ _ _ _ _ _ Ew) as [He Ha]. apply ewp_bind.
  eapply (ewp_respects sql (sv_lift untouched)). { case_match; [apply category_untouched|by svc_step]. }
  intros [category|e] s2 H2. 2:{ apply joined_failed; [|etrans; [apply H2|apply H1]]. eapply svc_ok_untouched; [exact H2|by eapply svc_ok_untouched]. }
  assert (A2 : sv_lift (apart g) s s2) by (etrans; by eapply untouched_apart).
  apply ewp_bind. eapply ewp_mono; [|by apply save_joined_ok]. intros [[]|e] s3 [A3 S3].
  - apply (join_started sql local g ty hint category identity epoch ae ah s s3); try done. intros a h E. split; [by apply (Ha a h)|].
    destruct Hn as [Hn|Hn]; [by rewrite E|left; by apply A3|by right].
  - apply joined_failed; [by eapply svc_ok_apart|apply A3].
Qed.

Lemma swp_IsGroupActive g (Q : result bool -> AppDB -> Prop) d :
  (forall r, (forall row, r = inl false -> Roster.group_row g d = Some row -> grow_lifecycle_status row <> "active") -> Q r d) ->
  swp (Roster.IsGroupActive g) Q d.
Proof.
  intros H. unfold Roster.IsGroupActive. repeat swp_step; apply H; try done. simpl. intros row [= Ea] Hrow Hl. simplify_eq.
  by rewrite Hl, orb_true_r in Ea.
Qed.

Lemma join_ok sql groupID welcomeHex bundleHex groupType hint inviter ae ah s :
  svc_ok s ->
  (forall welcome, hex_DecodeString (TrimSpace welcomeHex) = Some welcome -> welcome_ok welcome (anchor_of ae ah)) ->
  (anchor_of ae ah <> None -> db_coord (adb_core (sv_app s)) !! TrimSpace groupID = None \/ forall t, sql_fails sql t = None) ->
  ewp sql (Service.joinGroupWithWelcome se groupID welcomeHex bundleHex groupType hint inviter ae ah) (joined (TrimSpace groupID) s) s.
Proof.
  intros Hok Hw Hn. unfold Service.joinGroupWithWelcome. cbv zeta. assert (Hg : TrimSpace (TrimSpace groupID) = TrimSpace groupID) by apply TrimSpace_idemp.
  set (g := TrimSpace groupID) in *. clearbody g. case_match; [by apply ewp_throw, joined_failed|].
  destruct (Service.normalizeGroupTypeRuntime groupType) as [ty|e]; [|by apply ewp_throw, joined_failed].
  apply ewp_bind. eapply (ewp_respects sql (sv_lift untouched)); [apply respects_rt, ensureSessionActive_untouched|].
  intros [[]|e] s1 H1; [|by apply joined_failed; [eapply svc_ok_untouched|apply H1]].
  assert (O1 : svc_ok s1) by (by eapply svc_ok_untouched).
  assert (Hlast : forall s2, svc_ok s2 -> sv_coords s2 = sv_coords s ->
    (db_coord (adb_core (sv_app s1)) !! g = None -> db_coord (adb_core (sv_app s2)) !! g = None) ->
    ewp sql match hex_DecodeString (TrimSpace welcomeHex), hex_DecodeString (TrimSpace bundleHex) with
        | Some welcomeRaw, Some bundleRaw => Service.join_locked se g ty (TrimSpace hint) inviter welcomeRaw bundleRaw ae ah
        | None, _ => sql_throw (ErrText "decode welcome hex")
        | _, None => sql_throw (ErrText "decode key package bundle hex")
        end (joined g s) s2).
  { intros s2 O2 C2 K2. destruct (hex_DecodeString (TrimSpace welcomeHex)) as [w|]; [|by apply ewp_throw, joined_failed].
    destruct (hex_DecodeString (TrimSpace bundleHex)) as [b|]; [|by apply ewp_throw, joined_failed].
    eapply ewp_mono; [|apply (join_locked_ok sql g ty (TrimSpace hint) inviter w b ae ah s2); auto].
    - intros r s3 (J1 & J2 & J3). rewrite C2 in J2, J3. by split.
    - intros Ha. destruct (Hn Ha) as [Hd|Hq]; [left|by right]. apply K2. destruct H1 as [U1 _]. unfold same in U1. by rewrite U1. }
  assert (C1 : sv_coords s1 = sv_coords s) by apply H1.
  apply ewp_bind. destruct (re_db (se_rt se)); [|by apply ewp_ret, Hlast].
  apply ewp_bind, ewp_try, ewp_db, swp_ewp, swp_IsGroupActive. intros [[]|e] Hrow; simpl; [by apply ewp_ret, Hlast; destruct s1| |by apply ewp_ret, Hlast; destruct s1].
  apply ewp_ignore, ewp_db. eapply ewp_respects; [apply PurgeGroupMetadata_apart|]. intros r d Hd. rewrite Hg in Hd.
  assert (Hgone : sv_coords s1 !! g = None).
  { destruct (sv_coords s1 !! g) as [oc|] eqn:Eg; [|done]. destruct (sok_active _ O1 g oc Eg) as (row & Hr & Hl).
    by destruct (Hrow row eq_refl Hr). }
  apply Hlast; [|done|apply Hd]. eapply (svc_ok_apart g s1); [done| |done]. by split.
Qed.

(** C10: Joining a group with a Welcome.  Whatever the engine answers, every
    running coordinator keeps its invariant and the coordinators of other groups
    are the same; an error leaves no coordinator behind, and success starts one,
    at the epoch of an active record, that satisfies the invariant of a running
    coordinator.  All theorems about the coordinators of a node then apply.
    Statements may fail, and two things are asked of an anchor that comes with
    the Welcome: it is of the epoch of the state in the Welcome, and either the
    group has no stored coordination state or no statement fails; for a read of
    that state that fails counts as a missing one, and the anchor then replaces
    the stored history. *)
Theorem join_starts_consistent_coordinator groupID welcomeHex bundleHex groupType hint inviter ae ah env t s r t' s' :
  svc_ok s ->
  (forall welcome, hex_DecodeString (TrimSpace welcomeHex) = Some welcome -> welcome_ok welcome (anchor_of ae ah)) ->
  (anchor_of ae ah <> None -> db_coord (adb_core (sv_app s)) !! TrimSpace groupID = None \/ forall t, sql_fails env t = None) ->
  Service.joinGroupWithWelcome se groupID welcomeHex bundleHex groupType hint inviter ae ah env t s = (r, t', s') ->
  let g := TrimSpace groupID in
  svc_ok s' /\ node_ok (ne_of env s') (node_of t' s') /\
  (forall g', g' <> g -> sv_coords s' !! g' = sv_coords s !! g') /\
  match r with
  | inl _ => sv_coords s !! g = None /\ exists o c tr row, sv_coords s' !! g = Some (o, (c, tr)) /\
      Roster.group_row g (sv_app s') = Some row /\ grow_lifecycle_status row = "active" /\ gr_Epoch (grow_rec row) = c_epoch c
  | inr _ => sv_coords s' = sv_coords s
  end.
Proof.
  intros Hok Hw Hn E g. destruct (ewp_run _ _ _ _ _ _ _ _ (join_ok env _ _ _ _ _ _ _ _ s Hok Hw Hn) E) as (H1 & H2 & H3).
  auto using svc_node_ok.
Qed.

(** ** Restart *)

(** The anchor that a stored welcome offers, and a history that is stored. *)
Definition welcome_anchor (local : peerID) (g : string) (d : AppDB) : option (Z * bytes) :=
  w ← head (List.filter (InviteStore.stw_hit (peer_String local) g) (adb_stored_welcomes d));
  anchor_of (stw_AnchorEpoch w) (stw_AnchorHistoryHash w).
Definition chain_stored (g : string) (d : AppDB) : Prop :=
  exists cr, db_coord (adb_core d) !! g = Some cr /\ crow_history_chain cr <> ∅.

(** What a row of a group must be for a restart: its key, an epoch in range,
    and if there is an anchor for it, one that is not used because a history
    is stored and can be read, or one of the epoch of the record. *)
Record restorable (sql : SqlEnv) (local : peerID) (g : string) (row : GroupRow) (d : AppDB) : Prop := {
  rs_key : gr_GroupID (grow_rec row) = g;
  rs_range : 0 <= gr_Epoch (grow_rec row) < 2 ^ 63;
  rs_anchor : forall e h, welcome_anchor local g d = Some (e, h) ->
    (e = gr_Epoch (grow_rec row) /\ db_coord (adb_core d) !! g = None) \/
    (chain_stored g d /\ forall t, sql_fails sql t = None);
}.

Lemma restorable_still sql local g g' row d d' :
  still g' d d' -> g <> g' -> restorable sql local g row d -> restorable sql local g row d'.
Proof.
  intros [_ C W] Hne [K G A]. split; [done..|]. intros e h. unfold welcome_anchor. rewrite W. intros E.
  destruct (A e h E) as [[? ?]|[(cr & ? & ?) ?]]; [left|right]; unfold chain_stored; rewrite C; eauto.
Qed.

Lemma view_reads g : respects (sv_lift eq) (Service.initialActiveViewForGroupLocked se g).
Proof. unfold Service.initialActiveViewForGroupLocked, Roster.ListGroupMembers. untouched_auto. Qed.
Lemma view_succeeds g : succeeds (Service.initialActiveViewForGroupLocked se g).
Proof. unfold Service.initialActiveViewForGroupLocked. succeeds_auto. Qed.

Lemma GetCoordState_reads sql g (Q : result CoordState -> AppDB -> Prop) d :
  (forall r, (forall cs, r = inl cs -> exists cr, db_coord (adb_core d) !! g = Some cr /\ cs_HistoryChain cs = crow_history_chain cr) ->
     (forall e, r = inr e -> (forall t, sql_fails sql t = None) -> db_coord (adb_core d) !! g = None) -> Q r d) ->
  ewp sql (core (Store.GetCoordState g)) Q d.
Proof.
  intros H t. unfold core, Store.GetCoordState, sql_bind, sql_wrap, sql_query. assert (Hset : set_adb_core (adb_core d) d = d) by (by destruct d).
  destruct (sql_fails sql t) eqn:Hf; simpl; [rewrite Hset; apply H; [done|intros e _ Hn; congruence]|].
  destruct (db_coord (adb_core d) !! g) as [cr|]; simpl; rewrite Hset; apply H; try done. intros cs [= <-]. eauto.
Qed.

Lemma GetStoredWelcome_reads sql local g (Q : result StoredWelcome -> AppDB -> Prop) d :
  (forall r, (forall w, r = inl w -> anchor_of (stw_AnchorEpoch w) (stw_AnchorHistoryHash w) = welcome_anchor local g d) -> Q r d) ->
  ewp sql (InviteStore.GetStoredWelcome (peer_String local) g) Q d.
Proof.
  intros H. apply swp_ewp. unfold InviteStore.GetStoredWelcome. repeat swp_step; apply H; try done.
  intros w [= <-]. unfold welcome_anchor. by match goal with E : head _ = _ |- _ => rewrite E end.
Qed.

Lemma restored_anchor_ok sql local g s :
  ewp sql (Service.restored_anchor se local g) (fun r s' => s' = s /\ exists a, r = inl a /\
    (a = None \/ a = welcome_anchor local g (sv_app s) /\ ((forall t, sql_fails sql t = None) -> ~ chain_stored g (sv_app s)))) s.
Proof.
  unfold Service.restored_anchor. apply ewp_bind, ewp_try, ewp_db, GetCoordState_reads. intros r Hi He.
  match goal with |- ewp _ (if ?b then _ else _) _ _ => destruct b eqn:Eb end.
  2:{ apply ewp_ret. split; [by destruct s|]. exists None. auto. }
  apply andb_true_iff in Eb as [Eb _].
  assert (Hn : (forall t, sql_fails sql t = None) -> ~ chain_stored g (sv_app s)).
  { intros Hq (cr & Ec & Hc). destruct r as [cs|e]; [|specialize (He e eq_refl Hq); congruence].
    destruct (Hi cs eq_refl) as (cr' & Ec' & Hch). apply bool_decide_eq_true in Eb. congruence. }
  apply ewp_bind, ewp_try, ewp_db, GetStoredWelcome_reads. intros rw Hw. apply ewp_ret. split; [by destruct s|].
  destruct rw as [w|e]; eexists; (split; [reflexivity|]); [|by left]. right. split; [|done]. apply (Hw w eq_refl).
Qed.

(** One group: it starts when nothing fails; otherwise it is left out. *)
Lemma restore_group_ok sql local key g row s :
  re_engine (se_rt se) = true -> svc_ok s -> sv_coords s !! g = None ->
  Roster.group_row g (sv_app s) = Some row -> grow_lifecycle_status row = "active" -> restorable sql local g row (sv_app s) ->
  ewp sql (Service.restore_group se local key g) (fun r s' => svc_ok s' /\ still g (sv_app s) (sv_app s') /\
    match r with
    | inl _ => exists oc, sv_coords s' = <[g := oc]> (sv_coords s)
    | inr _ => sv_coords s' = sv_coords s /\ ~ flawless sql
    end) s.
Proof.
  intros Hre Hok Hg Hrow Hl [K G A]. unfold Service.restore_group. apply ewp_bind. intros t. simpl.
  set (o := Service.coordinator_options _ _ _ _ _ _).
  assert (Ho : o_GroupID o = g /\ o_HasMLS o = true /\ 0 < Config.BatchingDelay (o_Config o) /\ Config.Validate (o_Config o) = None)
    by (split; [done|split; [exact Hre|done]]).
  clearbody o. destruct Ho as (Ho1 & Ho2 & Ho3 & Ho4). clear t. apply ewp_bind.
  eapply ewp_succeeds; [apply view_reads|apply view_succeeds|]. intros view s1 [U1 C1].
  assert (O1 : svc_ok s1) by (by eapply svc_ok_untouched; [split; [unfold same; rewrite U1|]|]).
  apply ewp_bind. eapply ewp_mono; [|apply restored_anchor_ok]. intros r s1' [-> (a & -> & Ha)]. rewrite <- U1 in Ha.
  assert (R1 : ready sql g a (sv_app s1)).
  { rewrite <- U1. split; [|apply Hok..]. exists row. split; [done|]. split; [done|]. intros e h ->.
    destruct Ha as [?|[Ha Hc]]; [done|]. destruct (A e h (eq_sym Ha)) as [[He Hn]|[Hs Hq]]; [auto|]. by destruct (Hc Hq). }
  apply ewp_bind. eapply ewp_mono; [|by apply (start_coordinator_ok sql g)]. intros [[c tr]|e] s2 [L2 H2].
  2:{ split; [by eapply svc_ok_framed; [by eapply still_framed|]|]. rewrite U1. destruct L2 as [L2 C2]. split; [done|]. split; [congruence|done]. }
  assert (O2 : svc_ok s2) by (by eapply svc_ok_framed; [by eapply still_framed|]). destruct L2 as [L2 C2].
  assert (S2 : exists row, Roster.group_row g (sv_app s2) = Some row /\ grow_lifecycle_status row = "active").
  { exists row. rewrite U1 in Hrow. destruct L2 as [(Gr & _) _ _]. unfold Roster.group_row in *. by rewrite Gr. }
  apply ewp_bind. intros t. simpl. split; [|split; [by rewrite U1|exists (o, (c, tr)); simpl; congruence]].
  eapply svc_ok_untouched; [|by apply (svc_ok_put g o (c, tr) s2)]. by split.
Qed.

Lemma restore_groups_ok sql local key gs s :
  re_engine (se_rt se) = true -> svc_ok s -> NoDup (gr_GroupID <$> gs) ->
  Forall (fun rec => let g := gr_GroupID rec in sv_coords s !! g = None /\ exists row, Roster.group_row g (sv_app s) = Some row /\
    grow_lifecycle_status row = "active" /\ restorable sql local g row (sv_app s)) gs ->
  ewp sql (Service.restore_groups se local key gs) (fun r s' => (exists l, r = inl l) /\ svc_ok s' /\ framed (sv_app s) (sv_app s') /\
    (forall g, is_Some (sv_coords s !! g) -> is_Some (sv_coords s' !! g)) /\
    (flawless sql -> Forall (fun rec => is_Some (sv_coords s' !! gr_GroupID rec)) gs)) s.
Proof.
  intros Hre. revert s. induction gs as [|rec gs IH]; intros s Hok Hnd Hall; simpl.
  { apply ewp_ret. split; [eauto|]. split; [done|]. split; [reflexivity|]. split; [done|constructor]. }
  apply Forall_cons in Hall as [(Hn & row & Hrow & Hl & Hr) Hall]. apply NoDup_cons in Hnd as [Hnin Hnd].
  apply ewp_bind, ewp_try. eapply ewp_mono; [|by eapply restore_group_ok]. intros r s1 (O1 & L1 & C1).
  assert (Hc : forall g, g <> gr_GroupID rec -> sv_coords s1 !! g = sv_coords s !! g).
  { intros g Hg. destruct r as [[]|e]; [destruct C1 as [oc ->]; by rewrite lookup_insert_ne|by destruct C1 as [-> _]]. }
  apply ewp_bind. eapply ewp_mono; [|apply (IH s1 O1 Hnd)].
  - intros rr s2 ([l ->] & O2 & F2 & M2 & R2). apply ewp_ret. split; [eauto|]. split; [done|]. split; [etrans; [apply L1|done]|]. split.
    + intros g Hg. apply M2. destruct (decide (g = gr_GroupID rec)) as [->|]; [congruence || by rewrite Hn in Hg; destruct Hg|by rewrite Hc].
    + intros Hq. constructor; [|by apply R2]. apply M2. destruct r as [[]|e]; [|by destruct C1]. destruct C1 as [oc ->]. by rewrite lookup_insert_eq.
  - apply Forall_forall. intros rec' Hin. rewrite Forall_forall in Hall.
    destruct (Hall rec' Hin) as (Hn' & row' & Hrow' & Hl' & Hr').
    assert (Hne : gr_GroupID rec' <> gr_GroupID rec) by (intros E; apply Hnin; rewrite <- E; apply list_elem_of_fmap; eauto).
    split; [by rewrite Hc|]. exists row'. split; [|split; [done|by eapply restorable_still]].
    destruct L1 as [(Gr & _) _ _]. unfold Roster.group_row in *. by rewrite Gr.
Qed.

(** The records that are restored. *)
Definition active_record (kr : string * GroupRow) : option GroupRecord :=
  if str_eqb (grow_lifecycle_status kr.2) "active" then Some (grow_rec kr.2) else None.
Lemma active_record_Some kr rec : active_record kr = Some rec <-> grow_lifecycle_status kr.2 = "active" /\ rec = grow_rec kr.2.
Proof.
  unfold active_record. destruct (str_eqb_spec (grow_lifecycle_status kr.2) "active") as [E|E].
  - split; [by intros [= <-]|by intros [_ ->]].
  - split; [done|]. by intros [H _].
Qed.
Definition active_records (d : AppDB) : list GroupRecord := omap active_record (map_to_list (db_groups (adb_core d))).

Lemma ListGroups_reads sql (Q : result (list GroupRecord) -> AppDB -> Prop) d :
  Q (inl (active_records d)) d -> (forall e, (exists t, sql_fails sql t <> None) -> Q (inr e) d) -> ewp sql (core Store.ListGroups) Q d.
Proof.
  intros Hi He t. unfold core, Store.ListGroups, sql_wrap, sql_query. assert (Hset : set_adb_core (adb_core d) d = d) by (by destruct d).
  destruct (sql_fails sql t) eqn:Hf; simpl; rewrite Hset; [|exact Hi]. apply He. exists t. by rewrite Hf.
Qed.

(** Every active row, and the keys are those of the records. *)
Definition restorables (sql : SqlEnv) (local : peerID) (d : AppDB) : Prop :=
  forall g row, Roster.group_row g d = Some row -> grow_lifecycle_status row = "active" -> restorable sql local g row d.

Lemma active_records_In sql local d rec : restorables sql local d -> rec ∈ active_records d ->
  exists row, Roster.group_row (gr_GroupID rec) d = Some row /\ grow_lifecycle_status row = "active" /\
    restorable sql local (gr_GroupID rec) row d.
Proof.
  intros Hr ([g row] & Hin%elem_of_map_to_list & [Hl ->]%active_record_Some)%list_elem_of_omap. simpl in *.
  assert (R : restorable sql local g row d) by (by apply Hr). exists row. pose proof (rs_key _ _ _ _ _ R) as K. rewrite K. done.
Qed.
Lemma active_records_NoDup sql local d : restorables sql local d -> NoDup (gr_GroupID <$> active_records d).
Proof.
  intros Hr. unfold active_records.
  assert (Hk : forall l : list (string * GroupRow), (forall g row, (g, row) ∈ l -> grow_lifecycle_status row = "active" -> gr_GroupID (grow_rec row) = g) ->
    NoDup l.*1 -> NoDup (gr_GroupID <$> omap active_record l) /\ forall x, x ∈ (gr_GroupID <$> omap active_record l) -> x ∈ l.*1).
  { induction l as [|[g row] l IH]; intros Hl Hnd; [split; [constructor|done]|]. apply NoDup_cons in Hnd as [Hn Hnd].
    destruct IH as [I1 I2]; [by intros; apply Hl; [right|]|done|]. simpl. destruct (active_record (g, row)) as [rec|] eqn:E.
    - apply active_record_Some in E as [Ha ->]. simpl in *. rewrite (Hl g row) by (done || left).
      split; [constructor; [by intros H%I2|done]|]. intros x [->|Hx]%elem_of_cons; [left|right; auto].
    - split; [done|]. intros x Hx. right. auto. }
  apply Hk; [|apply NoDup_fst_map_to_list]. intros g row Hin%elem_of_map_to_list Hl. by apply (rs_key sql local _ _ d), Hr.
Qed.

Lemma stale_untouched : respects (sv_lift untouched) (Service.recoverStaleAddOperationsLocked se).
Proof.
  unfold Service.recoverStaleAddOperationsLocked, AddOperations.ListRecoverableAddOperations.
  assert (Hs : forall ops, respects (sv_lift untouched) (Service.report_stale ops)) by (induction ops; simpl; unfold Service.go; untouched_auto).
  untouched_auto.
Qed.
Lemma stale_succeeds : succeeds (Service.recoverStaleAddOperationsLocked se).
Proof.
  unfold Service.recoverStaleAddOperationsLocked.
  assert (Hs : forall ops, succeeds (Service.report_stale ops)) by (induction ops; simpl; unfold Service.go; succeeds_auto; done).
  succeeds_auto. apply Hs.
Qed.

(** What the restored groups are, after the restart. *)
Definition restarted (sql : SqlEnv) (s : Svc) (r : result unit) (s' : Svc) : Prop :=
  r = inl tt /\ svc_ok s' /\ framed (sv_app s) (sv_app s') /\
  (flawless sql -> adb_identity (sv_app s) <> None -> se_stack se = true -> re_node (se_rt se) <> None ->
   Forall (fun rec => is_Some (sv_coords s' !! gr_GroupID rec)) (active_records (sv_app s))).

Lemma restart_stops sql s :
  svc_ok s -> (flawless sql -> adb_identity (sv_app s) <> None -> se_stack se = true -> re_node (se_rt se) <> None ->
    active_records (sv_app s) = []) -> ewp sql (sql_ret tt) (restarted sql s) s.
Proof.
  intros Hok H. apply ewp_ret. split; [done|]. split; [done|]. split; [reflexivity|]. intros H1 H2 H3 H4.
  rewrite H by done. constructor.
Qed.

Lemma identity_reads sql (Q : result MLSIdentity -> Svc -> Prop) s :
  (forall r, (forall e, r = inr e -> (forall t, sql_fails sql t = None) -> adb_identity (sv_app s) = None) -> Q r s) ->
  ewp sql (Service.rt Runtime.GetMLSIdentity) Q s.
Proof.
  destruct s as [d c h tr]. intros H t. unfold Service.rt, Runtime.GetMLSIdentity, Identity.GetMLSIdentity, Runtime.app, sql_row.
  cbv [sql_bind sql_query]. cbn [sv_app sv_coords rt_app rt_coords rt_trace sv_hlc sv_trace].
  destruct (sql_fails sql t) eqn:Hf; simpl; rewrite ?filter_running; [apply H; intros e _ Hn; congruence|].
  destruct (adb_identity d) as [i|] eqn:Ei; simpl; rewrite filter_running; apply H; [done|]. by intros.
Qed.

Lemma restart_ok sql s :
  re_engine (se_rt se) = true -> svc_ok s -> sv_coords s = ∅ ->
  (forall local, re_node (se_rt se) = Some local -> restorables sql local (sv_app s)) ->
  ewp sql (Service.loadExistingGroupsLocked se) (restarted sql s) s.
Proof.
  intros Hre Hok Hc Hr. unfold Service.loadExistingGroupsLocked.
  destruct (re_node (se_rt se)) as [local|] eqn:Hnode; [|by apply restart_stops]. specialize (Hr local eq_refl).
  destruct (se_stack se) eqn:Hst; [|apply restart_stops; congruence]. simpl.
  assert (Hs : mkSvc (sv_app s) (sv_coords s) (sv_hlc s) (sv_trace s) = s) by (by destruct s).
  apply ewp_bind, ewp_try, ewp_db, ListGroups_reads; simpl; rewrite Hs; clear Hs.
  2:{ intros e [t Ht]. apply restart_stops; [done|]. intros [Hq _]. by destruct (Ht (Hq t)). }
  pose proof (active_records_NoDup sql local _ Hr) as Hnd.
  assert (Hin : forall rec, rec ∈ active_records (sv_app s) -> _) by (intros rec; exact (active_records_In sql local _ rec Hr)).
  destruct (active_records (sv_app s)) as [|rec gs] eqn:Egs; [by apply restart_stops|]. rewrite <- Egs in *.
  apply ewp_bind, ewp_try, identity_reads. intros [i|e] Hi.
  2:{ apply restart_stops; [done|]. intros [Hq _] Hne. by rewrite (Hi e eq_refl Hq) in Hne. }
  apply ewp_bind. eapply ewp_mono; [|apply restore_groups_ok; try done].
  2:{ apply Forall_forall. intros rec' Hrec. rewrite Hc. by split; [|apply Hin]. }
  intros r s1 ([l ->] & O1 & F1 & _ & A1).
  apply ewp_bind. eapply ewp_succeeds; [apply stale_untouched|apply stale_succeeds|]. intros [] s2 L2.
  eapply (ewp_succeeds sql (sv_lift untouched)); [unfold Service.go; untouched_auto|unfold Service.go; succeeds_auto|].
  intros [] s3 L3. pose proof (transitivity L2 L3) as L4. split; [done|]. split; [by eapply svc_ok_untouched|].
  destruct L4 as [U4 C4]. split; [etrans; [exact F1|by apply untouched_framed]|]. intros Hq _ _ _. rewrite C4. by apply A1.
Qed.

(** C11: Restarting the application.  Whatever statement fails, the coordinators
    that [loadExistingGroupsLocked] restores satisfy their invariant, so that
    the theorems about a node of coordinators apply; the records of the groups
    stay as they are; only active groups run; and when no statement fails and
    the topics can be joined, every active group runs again.  The hypothesis
    on a row is that it is stored under its key, its epoch is in range, and an
    anchor that came with its Welcome is superseded by a stored history that
    can be read or is of the record's epoch. *)
Theorem restart_restores_node sql t s r t' s' :
  re_engine (se_rt se) = true -> sv_coords s = ∅ ->
  Forall op_targeted (db_pending_ops (adb_core (sv_app s))) -> Forall job_waiting (db_heal_jobs (adb_core (sv_app s))) ->
  (forall local, re_node (se_rt se) = Some local -> restorables sql local (sv_app s)) ->
  Service.loadExistingGroupsLocked se sql t s = (r, t', s') ->
  r = inl tt /\ svc_ok s' /\ node_ok (ne_of sql s') (node_of t' s') /\ env_ok (ne_of sql s') /\
  (forall g, Roster.group_row g (sv_app s') = Roster.group_row g (sv_app s)) /\
  (forall g, is_Some (sv_coords s' !! g) -> exists row, Roster.group_row g (sv_app s) = Some row /\ grow_lifecycle_status row = "active") /\
  (flawless sql -> adb_identity (sv_app s) <> None -> se_stack se = true -> re_node (se_rt se) <> None ->
   forall g row, Roster.group_row g (sv_app s) = Some row -> grow_lifecycle_status row = "active" -> is_Some (sv_coords s' !! g)).
Proof.
  intros Hre Hc Ho Hj Hr E. assert (Hok : svc_ok s) by (split; try done; intros g *; rewrite Hc; by rewrite lookup_empty).
  destruct (ewp_run _ _ _ _ _ _ _ _ (restart_ok sql s Hre Hok Hc Hr) E) as (R1 & R2 & (G & _) & R4).
  assert (Hrows : forall g, Roster.group_row g (sv_app s') = Roster.group_row g (sv_app s)) by (intros g; unfold Roster.group_row; by rewrite G).
  split; [done|]. split; [done|]. split; [by apply svc_node_ok|]. split; [by apply svc_env_ok|]. split; [done|]. split.
  - intros g [oc Hg]. rewrite <- Hrows. by apply (sok_active _ R2 g oc).
  - intros Hq Hid Hst Hn g row Hrow Hl. destruct (re_node (se_rt se)) as [local|] eqn:En; [|done].
    rewrite <- (rs_key sql local g row _ (Hr local eq_refl g row Hrow Hl)).
    specialize (R4 Hq Hid Hst Hn). rewrite Forall_forall in R4. apply (R4 (grow_rec row)), list_elem_of_omap. exists (g, row).
    split; [by apply elem_of_map_to_list|by apply active_record_Some].
Qed.
End Invariant.
