(* ===== verification/ServiceDemo.v ===== *)
(** * Joining and restarting at concrete inputs

    A node that joins a group with a Welcome and is restarted; the properties
    of [ServiceSpec.v] applied to it, and what a stale anchor does. *)
From S2P Require Import Prelude GoStrings Sha256 Types Config Hlc Epoch ActiveView SingleWriter.
From S2P Require Import ForkDetector Helpers Database Store StoreSpec HealStore AppDatabase Identity Roster.
From S2P Require Import InviteStore Replicated AddOperations InviteRequests Wire.
From S2P Require Import Runtime Categories CategoryService Membership SqlLogic.
From S2P Require Import MembershipSpec Coordinator CoordBroadcast CoordApplication.
From S2P Require Import CoordCommit CoordMessage CoordMembers.
From S2P Require Import CoordLogic CoordReplay CoordHeal CoordInv CoordSafe CoordStart CoordDemo Node.
From S2P Require Import Service ServiceLogic ServiceSpec.

#[local] Existing Instance toy_ed25519.

(** Messages are plain text. *)
#[export] Instance plain_payload : PayloadJSON := {| parse_payload _ := None; parse_texts _ := None |}.

Definition join_se : SvEnv := {|
  se_rt := demo_re "B";
  se_shared := CoordDemo.demo;
  se_stack := true;
  se_auth := Some ["A"];
  se_peers := ["A"];
  se_history := fun _ => adb_empty;
  se_reach := fun _ => true;
  se_kp_direct := fun _ => inr (ErrText "no key package");
  se_kp_fetch := fun _ => None;
  se_welcome_fetch := fun _ _ => None;
  se_welcome_list := fun _ => None;
  se_blind := fun _ => [];
|}.

(** The tables of a node with an identity and no group. *)
Definition join_init : Svc :=
  mkSvc (set_adb_identity (Some (mkMLSIdentity "Bob" [x01] [x02] [x03])) adb_empty) ∅ (Hlc.NewHLC "B") [].
Definition join_env : SqlEnv := HealStore.demo_env.

Local Notation join := (Service.joinGroupWithWelcome join_se " g " "ab" "cd" "channel" "" "A" 1 [x55] join_env O join_init).

(** The coordinator that runs afterwards: its epoch, the hash of its history
    and the hash its chain has for the epoch. *)
Definition history_of (g : string) (s : Svc) : option (Z * option bytes * option bytes) :=
  (fun oc : Opts * (Coord * list Effect) =>
    (c_epoch oc.2.1, c_historyHash oc.2.1, c_historyChain oc.2.1 !! c_epoch oc.2.1)) <$> sv_coords s !! g.

Lemma empty_svc_ok app h tr :
  Forall op_targeted (db_pending_ops (adb_core app)) -> Forall job_waiting (db_heal_jobs (adb_core app)) ->
  svc_ok (mkSvc app ∅ h tr).
Proof. by split. Qed.

Lemma run_parts {A B C} (x : A * B * C) : x = (x.1.1, x.1.2, x.2).
Proof. by destruct x as [[a b] c]. Qed.

(** The Welcome is of epoch 1, as the anchor; the group runs at it. *)
Lemma join_starts_consistent_coordinator_witness :
  join.1.1 = inl tt /\ history_of "g" join.2 = Some (1, Some [x55], Some [x55]) /\ svc_ok join.2.
Proof.
  split; [vm_compute; reflexivity|]. split; [vm_compute; reflexivity|].
  refine (proj1 (join_starts_consistent_coordinator join_se " g " "ab" "cd" "channel" "" "A" 1 [x55] join_env O join_init
    join.1.1 join.1.2 join.2 _ _ _ (run_parts _))).
  - apply empty_svc_ok; constructor.
  - intros welcome _ t key bundle n st tree e [= <- <- <-]. split; [lia|]. by intros a h [= <- <-].
  - intros _. left. vm_compute. reflexivity.
Defined.

(** ** Restart *)

Lemma one_group_restorable sql local d g row cr :
  db_groups (adb_core d) = {[ g := row ]} -> gr_GroupID (grow_rec row) = g -> 0 <= gr_Epoch (grow_rec row) < 2 ^ 63 ->
  db_coord (adb_core d) !! g = Some cr -> crow_history_chain cr <> ∅ -> (forall t, sql_fails sql t = None) ->
  restorables sql local d.
Proof.
  intros Hg Hk Hr Hc Hne Hq g' row'. unfold Roster.group_row. rewrite Hg. intros [<- <-]%lookup_singleton_Some _.
  split; [done..|]. intros e h _. right. split; [by exists cr|done].
Qed.

(** The node above, started again over the tables it left. *)
Local Notation rebooted := (mkSvc (sv_app join.2) ∅ (Hlc.NewHLC "B") []).
Local Notation restart env s := (Service.loadExistingGroupsLocked join_se env O s).

Definition no_row : GroupRow := mkGroupRow (mkGroupRecord "" [] 0 [] RoleMember "" "" "" 0 0) "" 0.
Definition row_of (g : string) (s : Svc) : GroupRow := default no_row (Roster.group_row g (sv_app s)).

Lemma restart_restores_node_witness :
  history_of "g" (restart join_env rebooted).2 = Some (1, Some [x55], Some [x55]) /\
  is_Some (sv_coords (restart join_env rebooted).2 !! "g") /\
  node_ok (ne_of join_se join_env (restart join_env rebooted).2) (node_of (restart join_env rebooted).1.2 (restart join_env rebooted).2).
Proof.
  split; [vm_compute; reflexivity|].
  destruct (restart_restores_node join_se join_env O rebooted (restart join_env rebooted).1.1 (restart join_env rebooted).1.2
    (restart join_env rebooted).2) as (_ & _ & H1 & _ & _ & _ & H2).
  - reflexivity.
  - reflexivity.
  - vm_compute. constructor.
  - vm_compute. constructor.
  - intros local _. assert (E : is_Some (db_coord (adb_core (sv_app rebooted)) !! "g")) by (vm_compute; eexists; reflexivity).
    destruct E as [cr E]. apply (one_group_restorable _ _ _ "g" (row_of "g" rebooted) cr).
    + vm_compute. reflexivity.
    + vm_compute. reflexivity.
    + vm_compute. split; [discriminate|reflexivity].
    + exact E.
    + intros Hn. assert (Hc : option_map (fun cr => crow_history_chain cr !! 1) (db_coord (adb_core (sv_app rebooted)) !! "g") = Some (Some [x55]))
        by (vm_compute; reflexivity).
      rewrite E in Hc. simpl in Hc. rewrite Hn in Hc. discriminate.
    + reflexivity.
  - apply run_parts.
  - split; [|exact H1]. apply (H2 (conj (fun _ => eq_refl) (fun _ => eq_refl)) ltac:(vm_compute; discriminate) eq_refl ltac:(discriminate)
      "g" (row_of "g" rebooted)); vm_compute; reflexivity.
Defined.

(** ** A stale anchor *)

(** The group has moved on to epoch 2 and its history is stored. *)
Local Notation moved_on := (
  (core (Store.SaveGroupRecord (mkGroupRecord "g" [x17] 2 [x24] RoleMember "channel" "" "" 0 0)) ;;!
   core (Store.SaveCoordState (mkCoordState "g" [] "" [] time_zero [] {[1 := [x55]; 2 := [x66]]})))
  join_env O (set_adb_stored_welcomes [mkStoredWelcome "B" "g" "channel" "" [xab] "A" 1 [x55] 0] (sv_app join.2))).2.

(** The read of the coordination state fails once, the others do not. *)
Definition failing_read : SqlEnv :=
  mkSqlEnv (fun t => if Nat.eqb t 3 then Some "disk I/O error" else None) (sql_clock join_env) (fun _ => 0) true.

(** When the stored history is read at a restart, the coordinator of epoch 2
    has the hash of epoch 2.  One failing read makes [loadExistingGroupsLocked]
    take the anchor of the Welcome instead: the coordinator runs at epoch 2
    with the hash of epoch 1, and the stored history is overwritten. *)
Example stale_anchor_replaces_history :
  let s := mkSvc moved_on ∅ (Hlc.NewHLC "B") [] in
  history_of "g" (restart join_env s).2 = Some (2, Some [x66], Some [x66]) /\
  history_of "g" (restart failing_read s).2 = Some (2, Some [x55], None) /\
  (crow_history_chain <$> db_coord (adb_core (sv_app (restart failing_read s).2)) !! "g") = Some {[1 := [x55]]}.
Proof. split; [|split]; vm_compute; reflexivity. Qed.
