(* ===== verification/Invites.v ===== *)
(** * Invitations

    [service/invite.go] and [service/invite_lifecycle.go]: advertising key
    packages, inviting a peer, keeping and delivering welcomes, and what a
    node does with a Welcome that reaches it; the group methods of
    [service/group.go] that use them.

    Answers of peers are those of the environment; a context that ends early
    is a peer that does not answer.  Handlers take the bytes of the stream and
    give those they write.  [InitiateHandshake], with which an invitation
    starts, acts on the authentication state of [Auth.v]; [se_auth] is what it
    leaves. *)
From S2P Require Import Prelude GoStrings Sha256 Types Config Hlc Epoch ActiveView SingleWriter.
From S2P Require Import ForkDetector Helpers Database Store StoreSpec HealStore AppDatabase Identity Roster.
From S2P Require Import InviteStore Replicated AddOperations InviteRequests Wire Runtime Categories.
From S2P Require Import CategoryService Auth Frames Membership.
From S2P Require Import Coordinator CoordBroadcast CoordApplication CoordCommit CoordMessage CoordMembers.
From S2P Require Import CoordReplay CoordHeal Node Service.

Module Invites.
Import Service.
Section Methods.
Context {PC : PeerCodec} {ED : Ed25519} {WC : WireCodec} {PJ : PayloadJSON} (se : SvEnv).
Abbreviation re := (se_rt se).

(** ** Key packages *)

(** [computeKeyPackageHash], [hexDecodedOrNil] *)
Definition computeKeyPackageHash (kp : bytes) : string :=
  if is_empty kp then "" else hex_EncodeToString (sha256_sum kp).
Definition hexDecodedOrNil (s : string) : bytes :=
  if str_eqb s "" then [] else default [] (hex_DecodeString s).

Fixpoint send_each (to : list peerID) (f : Frame) : SV unit :=
  match to with
  | [] => sql_ret tt
  | p :: to => (if se_reach se p then out (Send p f) else sql_ret tt) ;;! send_each to f
  end.

(** [replicateKeyPackageToStorePeers] *)
Definition replicateKeyPackageToStorePeers (publicKP : bytes) : SV unit :=
  match re_node re with
  | None => sql_ret tt
  | Some local =>
      if negb (re_db re) || str_eqb local "" || is_empty publicKP then sql_ret tt
      else
        let me := peer_String local in
        sql_ignore (db (InviteStore.SaveStoredKeyPackage me publicKP me)) ;;!
        go (GPublishKeyPackage me publicKP) ;;!
        send_each (selectStorePeersLocked se local) (FKPStore (mkKPStore 1 me publicKP))
  end.

(** [ensureLocalPublicKPBytes] *)
Definition ensureLocalPublicKPBytes : SV bytes :=
  match re_node re with
  | None => sql_throw (ErrText "node or database not ready")
  | Some local =>
      if negb (re_db re) then sql_throw (ErrText "node or database not ready")
      else
        let me := peer_String local in
        kp <-! sql_try (db (Identity.GetKPBundle me)) ;
        let fresh :=
          kp <-! GenerateKeyPackage se ;
          db (Identity.SaveKPBundle me kp.1 kp.2) ;;! sql_ret kp.1 in
        match kp with
        | inl (pub, _) => if is_empty pub then fresh else sql_ret pub
        | inr _ => fresh
        end
  end.

(** [advertiseKeyPackage]: a key package that is there is used again; it is
    looked up or made and saved as in [ensureLocalPublicKPBytes]. *)
Definition advertiseKeyPackage : SV unit :=
  match re_node re with
  | None => sql_ret tt
  | Some _ =>
      if negb (re_db re) then sql_ret tt
      else
        kp <-! sql_try ensureLocalPublicKPBytes ;
        match kp with inl pub => replicateKeyPackageToStorePeers pub | inr _ => sql_ret tt end
  end.

(** [refreshKeyPackage] *)
Definition refreshKeyPackage : SV unit :=
  match re_node re with
  | None => sql_ret tt
  | Some local =>
      if negb (re_db re) then sql_ret tt
      else
        sql_ignore (db (sql_exec (fun d => set_adb_kp_bundles (delete (peer_String local) (adb_kp_bundles d)) d))) ;;!
        advertiseKeyPackage
  end.

(** The peers to ask, each once: those of the blind store, then the store
    peers, without [skip]. *)
Definition ordered_peers (skip : option peerID) (l : list peerID) : list peerID :=
  foldl (fun acc p => if bool_decide (skip = Some p) || bool_decide (p ∈ acc) then acc else acc ++ [p]) [] l.

Fixpoint fetch_kp (ps : list peerID) (target : peerID) : SV bytes :=
  match ps with
  | [] => sql_throw (ErrText "key package not found from direct stream or store peers")
  | p :: ps =>
      match se_kp_fetch se p with
      | Some resp =>
          if (kpr_V resp =? 1) && kpr_Found resp && negb (is_empty (kpr_PublicKP resp)) then
            sql_ignore (db (InviteStore.SaveStoredKeyPackage (peer_String target) (kpr_PublicKP resp) (peer_String p))) ;;!
            sql_ret (kpr_PublicKP resp)
          else fetch_kp ps target
      | None => fetch_kp ps target
      end
  end.

(** [fetchPeerKeyPackage]: the local copy, the target itself, other peers *)
Definition fetchPeerKeyPackage (target : peerID) : SV bytes :=
  match re_node re with
  | None => sql_throw (ErrText "runtime not ready")
  | Some local =>
      if negb (re_db re) then sql_throw (ErrText "runtime not ready")
      else
        let others := fetch_kp (ordered_peers (Some target)
                        (se_blind se ("kp:" +:+ peer_String target) ++ selectStorePeersLocked se local)) target in
        let direct :=
          match se_kp_direct se target with
          | inl kp =>
              if is_empty kp then others
              else sql_ignore (db (InviteStore.SaveStoredKeyPackage (peer_String target) kp (peer_String target))) ;;! sql_ret kp
          | inr _ => others
          end in
        cached <-! sql_try (db (InviteStore.GetStoredKeyPackage (peer_String target))) ;
        match cached with
        | inl kp => if is_empty kp then direct else sql_ret kp
        | inr _ => direct
        end
  end.

(** ** Welcomes that go out *)

(** The type and the category of a group, as invitations name them *)
Definition group_kind (g : string) : SV (string * string) :=
  rec <-! sql_try (db (core (Store.GetGroupRecord g))) ;
  sql_ret (match rec with
           | inl rec => (match normalizeGroupTypeRuntime (gr_GroupType rec) with inl ty => ty | inr _ => "channel" end,
                         TrimSpace (gr_CategoryID rec))
           | inr _ => ("channel", "")
           end).

(** [resendPendingWelcome]: whether something was sent *)
Definition resendPendingWelcome (target : peerID) (g ty cat : string) : SV bool :=
  if negb (re_db re) then sql_ret false
  else
    pending <-! sql_try (db (InviteStore.GetPendingWelcomesFor (peer_String target))) ;
    match pending with
    | inr _ | inl [] => sql_ret false
    | inl rows =>
        let send welcome epoch hash :=
          replicateWelcomeToStorePeers se target g ty cat welcome epoch hash ;;!
          go (GDeliverWelcome target g ty cat welcome epoch hash) ;;! sql_ret true in
        match List.find (fun w => str_eqb (TrimSpace (pw_GroupID w)) g && negb (is_empty (pw_WelcomeBytes w))) rows with
        | Some w => send (pw_WelcomeBytes w) (pw_AnchorEpoch w) (pw_AnchorHistoryHash w)
        | None =>
            any <-! sql_try (db (InviteStore.GetAnyPendingWelcomeForGroup (peer_String target) g)) ;
            match any with
            | inl w => if is_empty w then sql_ret false else send w 0 []
            | inr _ => sql_ret false
            end
        end
    end.

Fixpoint push_pending (local to : peerID) (rows : list PendingWelcome) : SV unit :=
  match rows with
  | [] => sql_ret tt
  | w :: rows =>
      (if str_eqb (pw_TargetPeerID w) "" || str_eqb (pw_TargetPeerID w) (peer_String to) || is_empty (pw_WelcomeBytes w)
       then sql_ret tt
       else
         kind <-! (if se_stack se then group_kind (pw_GroupID w) else sql_ret ("channel", "")) ;
         sql_ignore (pushWelcomeStoreRecord se local to (pw_TargetPeerID w) (pw_GroupID w) kind.1 kind.2
           (pw_WelcomeBytes w) (pw_AnchorEpoch w) (pw_AnchorHistoryHash w))) ;;!
      push_pending local to rows
  end.

(** [replicatePendingWelcomesToStorePeer] *)
Definition replicatePendingWelcomesToStorePeer (storePeer : peerID) : SV unit :=
  match re_node re with
  | None => sql_ret tt
  | Some local =>
      if negb (re_db re) || str_eqb storePeer "" || negb (is_verified se storePeer) then sql_ret tt
      else
        sql_try (db InviteStore.ReopenUnacknowledgedPendingWelcomes) ;;!
        rows <-! sql_try (db InviteStore.ListPendingWelcomes) ;
        match rows with inl rows => push_pending local storePeer rows | inr _ => sql_ret tt end
  end.

Fixpoint deliver_all (target : peerID) (rows : list PendingWelcome) : SV unit :=
  match rows with
  | [] => sql_ret tt
  | w :: rows =>
      kind <-! (if se_stack se then group_kind (pw_GroupID w) else sql_ret ("channel", "")) ;
      deliverWelcome se target (pw_GroupID w) kind.1 kind.2 (pw_WelcomeBytes w) (pw_AnchorEpoch w) (pw_AnchorHistoryHash w) ;;!
      deliver_all target rows
  end.

(** [retryPendingWelcomes] *)
Definition retryPendingWelcomes (target : peerID) : SV unit :=
  if negb (re_db re) then sql_ret tt
  else
    sql_try (db InviteStore.ReopenUnacknowledgedPendingWelcomes) ;;!
    rows <-! sql_try (db (InviteStore.GetPendingWelcomesFor (peer_String target))) ;
    match rows with inl rows => deliver_all target rows | inr _ => sql_ret tt end.

(** ** Welcomes that come in *)

(** [finalizeJoinedWelcome] *)
Definition finalizeJoinedWelcome (groupID groupType categoryID : string) (welcomeRaw : bytes) (sourcePeerID : string)
  (persistInviteAudit : bool) : SV unit :=
  let g := TrimSpace groupID in
  if str_eqb g "" || is_empty welcomeRaw then sql_ret tt
  else
    let ty := match normalizeGroupTypeRuntime groupType with inl ty => ty | inr _ => "group" end in
    let cat := TrimSpace categoryID in
    let src := TrimSpace sourcePeerID in
    (if negb (re_db re) then sql_ret tt
     else
       now <-! unix_now ;
       sql_try (db (InviteRequests.MarkWelcomeApplied (fallbackWelcomeFingerprint g welcomeRaw) g now)) ;;!
       if negb persistInviteAudit then sql_ret tt
       else
         let local := local_string se in
         (if str_eqb local "" then sql_ret tt
          else sql_ignore (db (InviteStore.SaveStoredWelcome local g ty cat welcomeRaw src 0 []))) ;;!
         let id := InviteStore.PendingInviteID g welcomeRaw in
         sql_ignore (db (InviteStore.SavePendingInvite
           (mkPendingInvite id g ty cat "" src [] welcomeRaw src InviteStore.PendingInviteStatusAccepted 0 0))) ;;!
         sql_ignore (db (InviteStore.MarkPendingInviteAccepted id))) ;;!
    go GRefreshKeyPackage ;;!
    emit "group:joined" [("group_id", g)] ;;!
    go (GBroadcastJoinAck g) ;;!
    go GPullFromVerified.

(** [applyWelcome] *)
Definition applyWelcome (groupID groupType welcomeHex categoryID inviterPeerID : string)
  (anchorEpoch : Z) (anchorHistoryHash : bytes) : SV unit :=
  oc <-! coordinator groupID ;
  match oc, re_node re with
  | Some _, _ => sql_ret tt
  | None, None => sql_throw (ErrText "node or database not ready")
  | None, Some local =>
      if negb (re_db re) then sql_throw (ErrText "node or database not ready")
      else
        kp <-! sql_wrap "no local KeyPackage bundle found" (db (Identity.GetKPBundle (peer_String local))) ;
        match hex_DecodeString (TrimSpace welcomeHex) with
        | None => sql_throw (ErrText "decode welcome hex")
        | Some welcomeRaw =>
            joinGroupWithWelcome se groupID welcomeHex (hex_EncodeToString kp.2) groupType (TrimSpace categoryID)
              inviterPeerID anchorEpoch anchorHistoryHash ;;!
            finalizeJoinedWelcome groupID groupType (TrimSpace categoryID) welcomeRaw inviterPeerID false
        end
  end.

(** [applyChannelCategoryAfterAutoJoin] *)
Definition applyChannelCategoryAfterAutoJoin (groupID groupType categoryID sourcePeerID : string) : SV unit :=
  let g := TrimSpace groupID in
  let c := TrimSpace categoryID in
  if negb (EqualFold (TrimSpace groupType) "channel") || str_eqb g "" then sql_ret tt
  else
    assigned <-! (if re_db re && negb (str_eqb c "")
                  then r <-! sql_try (db (Categories.AssignCategoryToGroupWhenReady g c)) ;
                       sql_ret (match r with inl _ => true | inr _ => false end)
                  else sql_ret false) ;
    if assigned : bool
    then emit "channel_categories:changed" [("reason", "welcome_inline"); ("channel_id", g); ("category_id", c)]
    else match peer_Decode (TrimSpace sourcePeerID) with
         | Some p => go (GCategorySync p)
         | None => sql_ret tt
         end.

(** What a node records of the peer that sent a Welcome it has applied *)
Definition note_source (g ty source : string) : SV unit :=
  let src := TrimSpace source in
  if str_eqb src "" then sql_ret tt
  else
    sql_ignore (db (Roster.SetGroupCreatorPeerID g src)) ;;!
    (if EqualFold (TrimSpace ty) "dm" then sql_ignore (db (GroupMeta.SetDMCounterpartyPeerID g src)) else sql_ret tt) ;;!
    sql_ignore (rt (Membership.upsertGroupMemberFromRosterSync re g source "welcome-source")) ;;!
    members_changed g "welcome_source".

Definition invite_event (event id g status reason : string) : SV unit :=
  emit event [("id", id); ("group_id", g); ("status", status); ("reason", reason)].

(** The Welcome has been applied. *)
Definition invite_joined (g ty cat : string) (welcome : bytes) (src : string) (anchorEpoch : Z) (anchorHistoryHash : bytes) : SV unit :=
  let local := local_string se in
  let id := InviteStore.PendingInviteID g welcome in
  note_source g ty src ;;!
  (if str_eqb local "" then sql_ret tt
   else sql_ignore (db (InviteStore.SaveStoredWelcome local g ty cat welcome src anchorEpoch anchorHistoryHash))) ;;!
  applyChannelCategoryAfterAutoJoin g ty cat src ;;!
  sql_ignore (db (InviteStore.SavePendingInvite
    (mkPendingInvite id g ty cat "" src [] welcome src InviteStore.PendingInviteStatusAccepted 0 0))) ;;!
  sql_ignore (db (InviteStore.MarkPendingInviteAccepted id)) ;;!
  emit "invite:auto_joined" [("id", id); ("group_id", g); ("group_type", ty); ("inviter_peer", src)] ;;!
  rt (Notifications.insertNotification re Notifications.NotificationTypeGroupAdd g src g "").

(** It has not: it is kept for later, unless it was decided before. *)
Definition invite_kept (g ty cat : string) (welcome : bytes) (src : string) (reopenRejected : bool)
  (anchorEpoch : Z) (anchorHistoryHash : bytes) : SV unit :=
  let local := local_string se in
  let id := InviteStore.PendingInviteID g welcome in
  (if str_eqb local "" then sql_ret tt
   else sql_ignore (db (InviteStore.SaveStoredWelcome local g ty cat welcome src anchorEpoch anchorHistoryHash))) ;;!
  latest <-! sql_try (db (InviteStore.GetLatestPendingInviteByGroup g)) ;
  let keep :=
    db (InviteStore.SavePendingInvite (mkPendingInvite "" g ty cat "" "" [] welcome src InviteStore.PendingInviteStatusPending 0 0)) ;;!
    invite_event "invite:received" id g InviteStore.PendingInviteStatusPending "new" ;;!
    go GInviteRefresh in
  match latest with
  | inr _ => keep
  | inl latest =>
      if str_eqb (pi_Status latest) InviteStore.PendingInviteStatusAccepted then sql_ret tt
      else if str_eqb (pi_Status latest) InviteStore.PendingInviteStatusRejected then
        if negb reopenRejected then sql_ret tt
        else
          reopened <-! sql_try (db (InviteStore.ReopenRejectedInvite
                         (mkPendingInvite id g ty cat "" src [] welcome src "" 0 0))) ;
          match reopened with
          | inl rid => invite_event "invite:received" rid g InviteStore.PendingInviteStatusPending "reinvited"
          | inr _ => keep
          end
      else keep
  end.

(** [savePendingInviteFromWelcome] *)
Definition savePendingInviteFromWelcome (groupID groupType categoryID : string) (welcome : bytes) (sourcePeerID : string)
  (reopenRejected : bool) (anchorEpoch : Z) (anchorHistoryHash : bytes) : SV unit :=
  let g := TrimSpace groupID in
  if str_eqb g "" || is_empty welcome then sql_throw (ErrText "group ID and welcome are required")
  else
    match normalizeGroupTypeRuntime groupType with
    | inr e => sql_throw e
    | inl ty =>
        let cat := TrimSpace categoryID in
        let local := local_string se in
        if negb (re_db re) then sql_throw (ErrText "database not initialized")
        else
          let src := TrimSpace sourcePeerID in
          let src := if negb (str_eqb local "") && str_eqb src local then "" else src in
          let proceed :=
            existing <-! sql_try (db (InviteStore.GetPendingInvite (InviteStore.PendingInviteID g welcome))) ;
            let waiting := match existing with
                           | inl i => str_eqb (pi_Status i) InviteStore.PendingInviteStatusPending
                           | inr _ => false
                           end in
            if waiting : bool then sql_ret tt
            else
              applied <-! sql_try (applyWelcome g ty (hex_EncodeToString welcome) cat src anchorEpoch anchorHistoryHash) ;
              match applied with
              | inl _ => invite_joined g ty cat welcome src anchorEpoch anchorHistoryHash
              | inr _ => invite_kept g ty cat welcome src reopenRejected anchorEpoch anchorHistoryHash
              end in
          active <-! sql_try (db (Roster.IsGroupActive g)) ;
          match active with
          | inl true => sql_ret tt
          | inl false => proceed
          | inr e => if errors_Is e sql_ErrNoRows then proceed else sql_throw e
          end
    end.

Fixpoint save_stored (rows : list StoredWelcome) : SV unit :=
  match rows with
  | [] => sql_ret tt
  | w :: rows =>
      sql_ignore (savePendingInviteFromWelcome (stw_GroupID w) (stw_GroupType w) (stw_CategoryID w) (stw_WelcomeBytes w)
        (stw_SourcePeerID w) false (stw_AnchorEpoch w) (stw_AnchorHistoryHash w)) ;;!
      save_stored rows
  end.

Fixpoint save_listed (me : string) (from : peerID) (items : list WelcomeListItemV1) : SV unit :=
  match items with
  | [] => sql_ret tt
  | i :: items =>
      (if str_eqb (wli_GroupID i) "" || is_empty (wli_Welcome i) then sql_ret tt
       else
         let source := if str_eqb (wli_SourcePeerID i) "" then peer_String from else wli_SourcePeerID i in
         sql_ignore (db (InviteStore.SaveStoredWelcome me (wli_GroupID i) (wli_GroupType i) (wli_CategoryID i) (wli_Welcome i)
           source (wli_AnchorEpoch i) (wli_AnchorHistoryHash i))) ;;!
         sql_ignore (savePendingInviteFromWelcome (wli_GroupID i) (wli_GroupType i) (wli_CategoryID i) (wli_Welcome i) source false
           (wli_AnchorEpoch i) (wli_AnchorHistoryHash i))) ;;!
      save_listed me from items
  end.

Fixpoint ask_store_peers (me : string) (ps : list peerID) : SV unit :=
  match ps with
  | [] => sql_ret tt
  | p :: ps =>
      (match se_welcome_list se p with
       | Some resp => if wlp_V resp =? 1 then save_listed me p (wlp_Invites resp) else sql_ret tt
       | None => sql_ret tt
       end) ;;!
      ask_store_peers me ps
  end.

(** [refreshPendingInvites] *)
Definition refreshPendingInvites : SV unit :=
  if negb (re_db re) then sql_throw (ErrText "database not initialized")
  else
    match re_node re with
    | None => sql_ret tt
    | Some local =>
        if str_eqb local "" then sql_ret tt
        else
          rows <-! db (InviteStore.ListStoredWelcomesFor (peer_String local)) ;
          save_stored rows ;;!
          ask_store_peers (peer_String local) (selectStorePeersLocked se local)
    end.

(** [schedulePendingInviteRefresh], after each of its three delays *)
Fixpoint refresh_rounds (n : nat) : SV unit :=
  match n with
  | O => sql_ret tt
  | S n =>
      r <-! sql_try refreshPendingInvites ;
      match r with
      | inr _ => refresh_rounds n
      | inl _ =>
          if negb (re_db re) then sql_ret tt
          else
            pending <-! sql_try (db (InviteStore.ListPendingInvites false)) ;
            match pending with inl [] => sql_ret tt | _ => refresh_rounds n end
      end
  end.
Definition schedulePendingInviteRefresh : SV unit := refresh_rounds 3.

Fixpoint apply_pending (rows : list PendingInvite) : SV unit :=
  match rows with
  | [] => sql_ret tt
  | i :: rows =>
      (if negb (str_eqb (pi_Status i) InviteStore.PendingInviteStatusPending) then sql_ret tt
       else
         r <-! sql_try (applyWelcome (pi_GroupID i) (pi_GroupType i) (hex_EncodeToString (pi_WelcomeBytes i)) (pi_CategoryID i)
                (pi_SourcePeerID i) 0 []) ;
         match r with
         | inr _ => sql_ret tt
         | inl _ =>
             note_source (pi_GroupID i) (pi_GroupType i) (pi_SourcePeerID i) ;;!
             sql_ignore (db (InviteStore.MarkPendingInviteAccepted (pi_ID i))) ;;!
             applyChannelCategoryAfterAutoJoin (pi_GroupID i) (pi_GroupType i) (pi_CategoryID i) (pi_SourcePeerID i) ;;!
             emit "invite:auto_joined" [("id", pi_ID i); ("group_id", pi_GroupID i); ("group_type", pi_GroupType i);
               ("inviter_peer", TrimSpace (pi_SourcePeerID i))]
         end) ;;!
      apply_pending rows
  end.

(** [processPendingWelcomesOnStartup] *)
Definition processPendingWelcomesOnStartup : SV unit :=
  if negb (re_db re) then sql_ret tt
  else
    sql_ignore refreshPendingInvites ;;!
    rows <-! sql_try (db (InviteStore.ListPendingInvites false)) ;
    match rows with inl rows => apply_pending rows | inr _ => sql_ret tt end.

Fixpoint fetch_welcome (ps : list peerID) (me g : string) : SV (bytes * string * string * string) :=
  match ps with
  | [] => sql_throw (ErrText "welcome not found from store peers")
  | p :: ps =>
      match se_welcome_fetch se p g with
      | Some resp =>
          if (wfp_V resp =? 1) && wfp_Found resp && negb (is_empty (wfp_Welcome resp)) then
            let source := if str_eqb (TrimSpace (wfp_SourcePeerID resp)) "" then peer_String p else TrimSpace (wfp_SourcePeerID resp) in
            sql_ignore (db (InviteStore.SaveStoredWelcome me g (wfp_GroupType resp) (wfp_CategoryID resp) (wfp_Welcome resp) source
              (wfp_AnchorEpoch resp) (wfp_AnchorHistoryHash resp))) ;;!
            sql_ignore (savePendingInviteFromWelcome g (wfp_GroupType resp) (wfp_CategoryID resp) (wfp_Welcome resp) source false
              (wfp_AnchorEpoch resp) (wfp_AnchorHistoryHash resp)) ;;!
            sql_ret (wfp_Welcome resp, wfp_GroupType resp, wfp_CategoryID resp, source)
          else fetch_welcome ps me g
      | None => fetch_welcome ps me g
      end
  end.

(** [fetchWelcomeFromStorePeers]: the Welcome, type, category and source *)
Definition fetchWelcomeFromStorePeers (g : string) : SV (bytes * string * string * string) :=
  match re_node re with
  | None => sql_throw (ErrText "runtime not ready")
  | Some local =>
      if negb (re_db re) || str_eqb local "" then sql_throw (ErrText "runtime not ready")
      else
        let me := peer_String local in
        let others := fetch_welcome (ordered_peers None
                        (se_blind se ("welcome:" +:+ me +:+ ":" +:+ g) ++ selectStorePeersLocked se local)) me g in
        stored <-! sql_try (db (InviteStore.GetStoredWelcome me g)) ;
        match stored with
        | inr _ => others
        | inl w =>
            if is_empty (stw_WelcomeBytes w) then others
            else
              sql_ignore (savePendingInviteFromWelcome g (stw_GroupType w) (stw_CategoryID w) (stw_WelcomeBytes w) (stw_SourcePeerID w)
                false (stw_AnchorEpoch w) (stw_AnchorHistoryHash w)) ;;!
              sql_ret (stw_WelcomeBytes w, stw_GroupType w, stw_CategoryID w, stw_SourcePeerID w)
        end
  end.

(** [checkStoredWelcomes] *)
Fixpoint checkStoredWelcomes (gs : list string) : SV unit :=
  match re_node re, gs with
  | None, _ | _, [] => sql_ret tt
  | Some _, g :: gs =>
      oc <-! coordinator g ;
      (match oc with
       | Some _ => sql_ret tt
       | None =>
           found <-! sql_try (fetchWelcomeFromStorePeers g) ;
           match found with
           | inr _ => sql_ret tt
           | inl (wb, ty, cat, source) => sql_ignore (savePendingInviteFromWelcome g ty cat wb source false 0 [])
           end
       end) ;;!
      checkStoredWelcomes gs
  end.

(** [CheckDHTWelcome] *)
Definition CheckDHTWelcome (groupID : string) : SV unit :=
  let g := TrimSpace groupID in
  if str_eqb g "" then sql_throw (ErrText "group ID is required")
  else
    rt (Runtime.ensureSessionActive re) ;;!
    match re_node re with
    | None => sql_throw (ErrText "P2P node not running")
    | Some _ =>
        found <-! sql_try (fetchWelcomeFromStorePeers g) ;
        match found with
        | inr _ => sql_throw (ErrText "no pending invite found")
        | inl (wb, ty, cat, source) =>
            applyWelcome g ty (hex_EncodeToString wb) cat source 0 [] ;;!
            (if re_db re then sql_ignore (db (InviteStore.MarkPendingInviteAccepted (InviteStore.PendingInviteID g wb))) else sql_ret tt) ;;!
            applyChannelCategoryAfterAutoJoin g ty cat ""
        end
    end.

(** ** The acknowledgement of a join *)

(** [broadcastGroupJoinAck] *)
Definition broadcastGroupJoinAck (groupID : string) : SV unit :=
  let g := TrimSpace groupID in
  match re_node re, se_auth se with
  | Some local, Some _ =>
      if str_eqb g "" || negb (re_db re) then sql_ret tt
      else
        let me := peer_String local in
        send_each (filter (fun p => peer_String p <> me /\ is_verified se p) (se_peers se)) (FJoinAck (mkJoinAck 1 g me))
  | _, _ => sql_ret tt
  end.

Fixpoint mark_delivered (ops : list GroupAddOperationRecord) : SV unit :=
  match ops with
  | [] => sql_ret tt
  | op :: ops =>
      (if str_eqb (ao_Status op) AddOperations.AddOpStatusWelcomeDelivered || str_eqb (ao_Status op) AddOperations.AddOpStatusFailed
       then sql_ret tt
       else sql_ignore (db (AddOperations.MarkAddWelcomeDelivered (ao_OperationID op)))) ;;!
      mark_delivered ops
  end.

(** [handleGroupJoinAckStream] *)
Definition handleGroupJoinAckStream {JA : JSON groupJoinAckWire} (remote : peerID) (input : bytes) : SV unit :=
  match re_node re, Frames.ReadInviteStoreJSONFrame input with
  | Some _, inl (msg, _) =>
      if negb (re_db re) || negb (is_verified se remote) then sql_ret tt
      else if negb (ja_V msg =? 1) || str_eqb (TrimSpace (ja_GroupID msg)) "" || str_eqb (TrimSpace (ja_PeerID msg)) ""
      then sql_ret tt
      else if negb (str_eqb (peer_String remote) (ja_PeerID msg)) then sql_ret tt
      else
        has <-! sql_try (db (Roster.HasGroup (ja_GroupID msg))) ;
        match has with
        | inl true =>
            r <-! sql_try (rt (Membership.upsertGroupMemberFromRosterSync re (ja_GroupID msg) (ja_PeerID msg) "join-ack")) ;
            match r with
            | inr _ => sql_ret tt
            | inl _ =>
                members_changed (ja_GroupID msg) "joined_ack" ;;!
                ops <-! sql_try (db (AddOperations.ListGroupAddOperationsForTarget (ja_GroupID msg) (ja_PeerID msg))) ;
                (match ops with inl ops => mark_delivered ops | inr _ => sql_ret tt end) ;;!
                sql_ignore (db (InviteStore.MarkWelcomeDeliveredFor (ja_PeerID msg) (ja_GroupID msg)))
            end
        | _ => sql_ret tt
        end
  | _, _ => sql_ret tt
  end.

(** ** Streams of the invite store *)

(** What a handler answers: nothing when the frame cannot be written *)
Definition answer {A} `{JSON A} (v : A) : option bytes :=
  match Frames.WriteInviteStoreJSONFrame v with inl f => Some f | inr _ => None end.

(** The checks all of them start with *)
Definition admitted (remote : peerID) : bool := re_db re && is_verified se remote.

(** The text of an error other than a missing row *)
Definition other_error (e : GoError) : string := if errors_Is e sql_ErrNoRows then "" else err_Error e.

(** [handleKPOfferStream] *)
Definition handleKPOfferStream (remote : peerID) (input : bytes) : SV (option bytes) :=
  match input with
  | x01 :: _ =>
      if negb (is_verified se remote) || negb (re_db re) then sql_ret None
      else
        kp <-! sql_try ensureLocalPublicKPBytes ;
        sql_ret (match kp with inl pub => Some (Frames.offer_frame pub) | inr _ => None end)
  | _ => sql_ret None
  end.

Section Store.
Context {J1 : JSON KPStoreRequestV1} {J2 : JSON KPFetchRequestV1} {J3 : JSON KPFetchResponseV1}.
Context {J4 : JSON WelcomeStoreRequestV1} {J5 : JSON WelcomeFetchRequestV1} {J6 : JSON WelcomeFetchResponseV1}.
Context {J7 : JSON WelcomeListRequestV1} {J8 : JSON WelcomeListResponseV1} {J9 : JSON welcomeDeliveryWire}.

(** [handleKPStoreStream] *)
Definition handleKPStoreStream (remote : peerID) (input : bytes) : SV unit :=
  match Frames.ReadInviteStoreJSONFrame input with
  | inl (req, _) =>
      if negb (admitted remote) || negb (kps_V req =? 1) || str_eqb (kps_PeerID req) "" || is_empty (kps_PublicKP req)
      then sql_ret tt
      else sql_ignore (db (InviteStore.SaveStoredKeyPackage (kps_PeerID req) (kps_PublicKP req) (peer_String remote)))
  | inr _ => sql_ret tt
  end.

(** [handleKPFetchStream] *)
Definition handleKPFetchStream (remote : peerID) (input : bytes) : SV (option bytes) :=
  match Frames.ReadInviteStoreJSONFrame input with
  | inl (req, _) =>
      if negb (admitted remote) || negb (kpf_V req =? 1) || str_eqb (kpf_PeerID req) "" then sql_ret None
      else
        kp <-! sql_try (db (InviteStore.GetStoredKeyPackage (kpf_PeerID req))) ;
        sql_ret (answer (match kp with
                         | inl kp => if is_empty kp then mkKPFound 1 false [] "" else mkKPFound 1 true kp ""
                         | inr e => mkKPFound 1 false [] (other_error e)
                         end))
  | inr _ => sql_ret None
  end.

(** [handleWelcomeStoreStream] *)
Definition handleWelcomeStoreStream (remote : peerID) (input : bytes) : SV unit :=
  match Frames.ReadInviteStoreJSONFrame input with
  | inl (req, _) =>
      if negb (admitted remote) || negb (wsr_V req =? 1) || str_eqb (wsr_InviteePeerID req) "" || str_eqb (wsr_GroupID req) ""
         || is_empty (wsr_Welcome req) then sql_ret tt
      else
        let src := if str_eqb (TrimSpace (wsr_SourcePeerID req)) "" then peer_String remote else TrimSpace (wsr_SourcePeerID req) in
        sql_ignore (db (InviteStore.SaveStoredWelcome (wsr_InviteePeerID req) (wsr_GroupID req) (wsr_GroupType req) (wsr_CategoryID req)
          (wsr_Welcome req) src (wsr_AnchorEpoch req) (wsr_AnchorHistoryHash req))) ;;!
        match re_node re with
        | Some local =>
            if negb (str_eqb local "") && str_eqb (wsr_InviteePeerID req) (peer_String local)
            then sql_ignore (savePendingInviteFromWelcome (wsr_GroupID req) (wsr_GroupType req) (wsr_CategoryID req) (wsr_Welcome req)
                   src false (wsr_AnchorEpoch req) (wsr_AnchorHistoryHash req))
            else sql_ret tt
        | None => sql_ret tt
        end
  | inr _ => sql_ret tt
  end.

(** [handleWelcomeFetchStream] *)
Definition handleWelcomeFetchStream (remote : peerID) (input : bytes) : SV (option bytes) :=
  match Frames.ReadInviteStoreJSONFrame input with
  | inl (req, _) =>
      if negb (admitted remote) || negb (wfr_V req =? 1) || str_eqb (wfr_InviteePeerID req) "" || str_eqb (wfr_GroupID req) ""
      then sql_ret None
      else
        w <-! sql_try (db (InviteStore.GetStoredWelcome (wfr_InviteePeerID req) (wfr_GroupID req))) ;
        let none err := mkWelcomeFound 1 false "" "" "" 0 [] [] err in
        sql_ret (answer (match w with
                         | inl w =>
                             if is_empty (stw_WelcomeBytes w) then none ""
                             else mkWelcomeFound 1 true (stw_GroupType w) (stw_CategoryID w) (stw_SourcePeerID w) (stw_AnchorEpoch w)
                                    (stw_AnchorHistoryHash w) (stw_WelcomeBytes w) ""
                         | inr e => none (other_error e)
                         end))
  | inr _ => sql_ret None
  end.

Definition list_item (w : StoredWelcome) : WelcomeListItemV1 :=
  mkWelcomeListItem (stw_GroupID w) (stw_GroupType w) (stw_CategoryID w) (stw_WelcomeBytes w) (stw_SourcePeerID w)
    (stw_AnchorEpoch w) (stw_AnchorHistoryHash w) (stw_CreatedAt w).

(** [handleWelcomeListStream] *)
Definition handleWelcomeListStream (remote : peerID) (input : bytes) : SV (option bytes) :=
  match Frames.ReadInviteStoreJSONFrame input with
  | inl (req, _) =>
      if negb (admitted remote) || negb (wlr_V req =? 1) || str_eqb (wlr_InviteePeerID req) "" then sql_ret None
      else
        rows <-! sql_try (db (InviteStore.ListStoredWelcomesFor (wlr_InviteePeerID req))) ;
        sql_ret (answer (match rows with
                         | inl rows => mkWelcomeList 1 (list_item <$> rows) ""
                         | inr e => mkWelcomeList 1 [] (err_Error e)
                         end))
  | inr _ => sql_ret None
  end.

(** [handleWelcomeDelivery]: a fork-healing job that waits for a Welcome takes
    it first. *)
Definition handleWelcomeDelivery (remote : peerID) (input : bytes) : SV unit :=
  match Frames.readWelcomeFrame input with
  | inr _ => sql_ret tt
  | inl (msg, _) =>
      if negb (wd_V msg =? 1) || str_eqb (wd_GroupID msg) "" || str_eqb (wd_WelcomeHex msg) "" then sql_ret tt
      else
        match hex_DecodeString (TrimSpace (wd_WelcomeHex msg)) with
        | None => sql_ret tt
        | Some welcome =>
            oc <-! coordinator (wd_GroupID msg) ;
            taken <-! (match oc with
                       | Some oc => on_coord se (wd_GroupID msg) oc (ProcessWelcomeIfWaiting welcome)
                       | None => sql_ret false
                       end) ;
            if taken : bool then sql_ret tt
            else
              let src := if str_eqb (TrimSpace (wd_SourcePeerID msg)) "" then peer_String remote else TrimSpace (wd_SourcePeerID msg) in
              sql_ignore (savePendingInviteFromWelcome (wd_GroupID msg) (wd_GroupType msg) (wd_CategoryID msg) welcome src true
                (wd_AnchorEpoch msg) (hexDecodedOrNil (wd_AnchorHistoryHash msg)))
        end
  end.
End Store.

(** ** Deciding on an invitation *)

Definition ErrInviteNotFound : GoError := ErrSentinel "invite not found".
Definition ErrInviteAlreadyRejected : GoError := ErrSentinel "invite already rejected".

(** [GenerateJoinCode]: the code, the checksum and the time *)
Definition GenerateJoinCode : SV (string * string * Z) :=
  rt (Runtime.ensureSessionActive re) ;;!
  pub <-! ensureLocalPublicKPBytes ;
  now <-! unix_now ;
  sql_ret (hex_EncodeToString pub, hex_EncodeToString (take 4 (sha256_sum pub)), now).

(** [ListPendingInvites]: the rows shown *)
Definition ListPendingInvites : SV (list PendingInvite) :=
  sql_ignore refreshPendingInvites ;;!
  if negb (re_db re) then sql_throw (ErrText "database not initialized")
  else
    rows <-! db (InviteStore.ListPendingInvites false) ;
    sql_ret (filter (fun i => negb (EqualFold (TrimSpace (pi_GroupType i)) "dm") = true) rows).

(** [AcceptInvite] *)
Definition AcceptInvite (inviteID : string) : SV unit :=
  let id := TrimSpace inviteID in
  if str_eqb id "" then sql_throw ErrInviteNotFound
  else
    rt (Runtime.ensureSessionActive re) ;;!
    if negb (re_db re) then sql_throw (ErrText "database not initialized")
    else
      inv <-! sql_try (db (InviteStore.GetPendingInvite id)) ;
      match inv with
      | inr e => sql_throw (if errors_Is e sql_ErrNoRows then ErrInviteNotFound else ErrWrap "load pending invite" e)
      | inl inv =>
          if str_eqb (pi_Status inv) InviteStore.PendingInviteStatusRejected then sql_throw ErrInviteAlreadyRejected
          else
            let g := pi_GroupID inv in
            let accepted reason :=
              db (InviteStore.MarkPendingInviteAccepted (pi_ID inv)) ;;!
              invite_event "invite:accepted" (pi_ID inv) g InviteStore.PendingInviteStatusAccepted reason in
            has <-! db (Roster.HasGroup g) ;
            joined <-! (if has : bool then
                          active <-! sql_try (db (Roster.IsGroupActive g)) ;
                          match active with
                          | inl false => sql_ignore (db (GroupMeta.PurgeGroupMetadata g)) ;;! sql_ret false
                          | _ => sql_ret true
                          end
                        else sql_ret false) ;
            if joined : bool then accepted "already_joined"
            else
              sql_wrap "accept invite" (applyWelcome g (pi_GroupType inv) (hex_EncodeToString (pi_WelcomeBytes inv)) (pi_CategoryID inv)
                (pi_SourcePeerID inv) 0 []) ;;!
              (if str_eqb (TrimSpace (pi_SourcePeerID inv)) "" then sql_ret tt
               else
                 sql_ignore (rt (Membership.upsertGroupMemberFromRosterSync re g (pi_SourcePeerID inv) "welcome-source")) ;;!
                 members_changed g "welcome_source") ;;!
              accepted "accepted"
      end.

(** [RejectInvite] *)
Definition RejectInvite (inviteID : string) : SV unit :=
  let id := TrimSpace inviteID in
  let missing e := if errors_Is e sql_ErrNoRows then ErrInviteNotFound else e in
  if str_eqb id "" then sql_throw ErrInviteNotFound
  else if negb (re_db re) then sql_throw (ErrText "database not initialized")
  else
    inv <-! sql_try (db (InviteStore.GetPendingInvite id)) ;
    match inv with
    | inr e => sql_throw (missing e)
    | inl inv =>
        r <-! sql_try (db (InviteStore.MarkPendingInviteRejected id)) ;
        match r with
        | inr e => sql_throw (missing e)
        | inl _ =>
            (match re_node re with
             | Some local => sql_ignore (db (InviteStore.DeleteStoredWelcome (peer_String local) (pi_GroupID inv)))
             | None => sql_ret tt
             end) ;;!
            invite_event "invite:rejected" id (pi_GroupID inv) InviteStore.PendingInviteStatusRejected "rejected"
        end
    end.

(** [JoinGroupWithWelcome] of [group.go] *)
Definition JoinGroupWithWelcome (groupID welcomeHex bundleHex : string) : SV unit :=
  match hex_DecodeString (TrimSpace welcomeHex) with
  | None => sql_throw (ErrText "decode welcome hex")
  | Some welcomeRaw =>
      joinGroupWithWelcome se groupID welcomeHex bundleHex "" "" "" 0 [] ;;!
      kind <-! (if negb (se_stack se) then sql_ret ("group", "")
                else
                  rec <-! sql_try (db (core (Store.GetGroupRecord (TrimSpace groupID)))) ;
                  sql_ret (match rec with
                           | inl rec => (match normalizeGroupTypeRuntime (gr_GroupType rec) with inl ty => ty | inr _ => "group" end,
                                         TrimSpace (gr_CategoryID rec))
                           | inr _ => ("group", "")
                           end)) ;
      finalizeJoinedWelcome groupID kind.1 kind.2 welcomeRaw "" true
  end.

(** ** Inviting *)

Section Inviting.
(** the bound of the recursion through buffered envelopes that a commit may
    start *)
Variable fuel : nat.

Definition named_members (rows : list GroupMemberRecord) : list GroupMemberRecord :=
  filter (fun r => str_eqb (TrimSpace (gm_PeerID r)) "" = false) rows.

(** A direct message has two members: [Some] is what the invitation ends
    with. *)
Definition dm_check (c : Coord) (g : string) (target : peerID) : SV (option (result unit)) :=
  if existsb (fun m => str_eqb (peer_String m) (peer_String target)) (ActiveView.Members (c_activeView c)) then sql_ret (Some (inl tt))
  else
    rows <-! sql_try (db (Roster.ListGroupMembers g [Roster.GroupMemberStatusActive])) ;
    sql_ret (match rows with
             | inl rows =>
                 let named := named_members rows in
                 if negb (existsb (fun r => str_eqb (gm_PeerID r) (peer_String target)) named) && (2 <=? length named)%nat
                 then Some (inr (ErrText "direct message already has two members")) else None
             | inr _ => None
             end).

(** What [InvitePeerToGroup] does with the answer of [AddMember] *)
Definition invited (g ty cat : string) (target : peerID) (opID : string) (r : result AddMemberResult) : SV unit :=
  match r with
  | inr e =>
      let msg := err_Error e in
      if Contains msg "DuplicateSignatureKey" || Contains msg "already" || Contains msg "duplicate"
      then resendPendingWelcome target g ty cat ;;! sql_ret tt
      else
        sql_ignore (db (AddOperations.MarkAddOperationFailed opID "ERR_INVITE_ADD_MEMBER_FAILED" msg)) ;;!
        sql_throw (ErrWrap "AddMembers" e)
  | inl res =>
      oc <-! coordinator g ;
      let epoch := match oc with Some (_, (c, _)) => c_epoch c | None => 0 end in
      let hash := match oc with Some (_, (c, _)) => default [] (c_historyHash c) | None => [] end in
      if res_Deferred res then sql_ignore (db (AddOperations.MarkAddProposalBroadcast opID epoch))
      else
        dispatchTokenHolderWelcome se g (res_Delivery res) (res_Welcome res) epoch hash ;;!
        sql_ignore (rt (Membership.upsertGroupMember re g (peer_String target) "member" "invite")) ;;!
        members_changed g "invited"
  end.

(** [InvitePeerToGroup] *)
Definition InvitePeerToGroup (peerIDStr groupID : string) : SV unit :=
  let p := TrimSpace peerIDStr in
  let g := TrimSpace groupID in
  if str_eqb p "" || str_eqb g "" then sql_throw (ErrText "peer ID and group ID are required")
  else
    rt (Runtime.ensureSessionActive re) ;;!
    match peer_Decode p with
    | None => sql_throw (ErrText "invalid peer ID")
    | Some target =>
        running <-! coordinator g ;
        match re_node re, running with
        | None, _ => sql_throw (ErrText "P2P node not running")
        | _, None => sql_throw (ErrText "not in group")
        | Some local, Some oc =>
            if str_eqb target local then sql_throw (ErrText "cannot invite yourself")
            else
              rt (Runtime.requireGroupPermission re g Runtime.permissionManageInvites) ;;!
              kind <-! group_kind g ;
              let (ty, cat) := kind : string * string in
              stop <-! (if str_eqb ty "dm" && re_db re then dm_check oc.2.1 g target else sql_ret None) ;
              match stop with
              | Some (inl _) => sql_ret tt
              | Some (inr e) => sql_throw e
              | None =>
                  kp <-! sql_wrap "could not get KeyPackage" (fetchPeerKeyPackage target) ;
                  let kpHash := computeKeyPackageHash kp in
                  let opID := AddOperations.ComputeAddOperationID g (peer_String target) kpHash in
                  sql_ignore (db (AddOperations.CreateGroupAddOperation (mkAddOperation opID "" g (peer_String target) "" (peer_String local)
                    kpHash None None [] "" AddOperations.AddOpStatusApproved "" "" 0 0 0))) ;;!
                  r <-! on_coord se g oc (AddMember (run fuel)
                         (mkAddMemberRequest target kp opID "" ty cat (hexDecodedOrNil kpHash))) ;
                  invited g ty cat target opID r
              end
        end
    end.

(** [AddMemberToGroup]: the Welcome, as hex *)
Definition AddMemberToGroup (groupID newMemberPeerID keyPackageHex : string) : SV string :=
  rt (Runtime.ensureSessionActive re) ;;!
  match hex_DecodeString (TrimSpace keyPackageHex) with
  | None => sql_throw (ErrText "decode key package hex")
  | Some kp =>
      if negb (se_stack se) then sql_throw (ErrText "coordination stack not initialized")
      else
        running <-! coordinator groupID ;
        match running with
        | None => sql_throw (ErrText "not in group")
        | Some oc =>
            rec <-! sql_try (db (core (Store.GetGroupRecord groupID))) ;
            full <-! (match rec with
                      | inl rec =>
                          match normalizeGroupTypeRuntime (gr_GroupType rec) with
                          | inl "dm" =>
                              rows <-! sql_try (db (Roster.ListGroupMembers groupID [Roster.GroupMemberStatusActive])) ;
                              sql_ret (match rows with inl rows => (2 <=? length (named_members rows))%nat | inr _ => false end)
                          | _ => sql_ret false
                          end
                      | inr _ => sql_ret false
                      end) ;
            if full : bool then sql_throw (ErrText "direct message already has two members")
            else
              let p := TrimSpace newMemberPeerID in
              match peer_Decode p with
              | None => sql_throw (ErrText "invalid peer ID")
              | Some target =>
                  let kpHash := computeKeyPackageHash kp in
                  r <-! on_coord se groupID oc (AddMember (run fuel)
                         (mkAddMemberRequest target kp (AddOperations.ComputeAddOperationID groupID p kpHash) "" "" ""
                            (hexDecodedOrNil kpHash))) ;
                  match r with
                  | inr e => sql_throw e
                  | inl res =>
                      (if str_eqb p "" then sql_ret tt
                       else sql_ignore (rt (Membership.upsertGroupMember re groupID p "member" "add"))) ;;!
                      sql_ret (hex_EncodeToString (res_Welcome res))
                  end
              end
        end
  end.

(** [StartDirectMessage]: the group *)
Definition StartDirectMessage (peerIDStr : string) : SV string :=
  let p := TrimSpace peerIDStr in
  if str_eqb p "" then sql_throw (ErrText "peer ID is required")
  else
    rt (Runtime.ensureSessionActive re) ;;!
    match peer_Decode p, re_node re with
    | None, _ => sql_throw (ErrText "invalid peer ID")
    | _, None => sql_throw (ErrText "runtime not initialized")
    | Some target, Some local =>
        if negb (re_db re) then sql_throw (ErrText "runtime not initialized")
        else if str_eqb target local then sql_throw (ErrText "cannot create direct message with yourself")
        else
          let t := peer_String target in
          let g := canonicalDMGroupID (peer_String local) t in
          has <-! db (Roster.HasGroup g) ;
          joined <-! (if has : bool then
                        active <-! db (Roster.IsGroupActive g) ;
                        if active : bool then sql_ret true
                        else sql_wrap "purge stale DM metadata" (db (GroupMeta.PurgeGroupMetadata g)) ;;! sql_ret false
                      else sql_ret false) ;
          (if joined : bool then sql_ret tt
           else
             r <-! sql_try (CreateGroupChat se g "dm" "") ;
             match r with
             | inr e => if Contains (err_Error e) "already in group" then sql_ret tt else sql_throw e
             | inl _ => sql_ret tt
             end) ;;!
          sql_ignore (db (GroupMeta.SetDMCounterpartyPeerID g t)) ;;!
          oc <-! coordinator g ;
          if (match oc with
              | Some (_, (c, _)) => existsb (fun m => str_eqb (peer_String m) t) (ActiveView.Members (c_activeView c))
              | None => false
              end)
          then resendPendingWelcome target g "dm" "" ;;! sql_ret g
          else
            rows <-! sql_try (db (Roster.ListGroupMembers g [Roster.GroupMemberStatusActive])) ;
            resent <-! (match rows with
                        | inl rows => if existsb (fun r => str_eqb (gm_PeerID r) t) rows
                                      then resendPendingWelcome target g "dm" "" else sql_ret false
                        | inr _ => sql_ret false
                        end) ;
            if resent : bool then sql_ret g else InvitePeerToGroup t g ;;! sql_ret g
    end.
End Inviting.

(** [GetKPStatus]: whether a key package is advertised *)
Definition GetKPStatus : SV bool :=
  match re_node re with
  | None => sql_ret false
  | Some local =>
      if negb (re_db re) then sql_ret false
      else
        kp <-! sql_try (db (Identity.GetKPBundle (peer_String local))) ;
        sql_ret (match kp with inl (pub, _) => negb (is_empty pub) | inr _ => false end)
  end.
End Methods.
End Invites.
