(* ===== verification/InvitesSpec.v ===== *)
(** * What invitations do to a running node

    Welcomes come from peers.  Whatever bytes a peer sends, the coordinators
    that run keep their invariant, and only the group that the Welcome names
    can get a coordinator; deciding on an invitation is as safe.  The anchor a
    Welcome carries is the one thing that is taken on trust. *)
From S2P Require Import Prelude GoStrings Sha256 Types Config Hlc Epoch ActiveView SingleWriter.
From S2P Require Import ForkDetector Helpers Database Store StoreSpec HealStore AppDatabase Identity Roster.
From S2P Require Import InviteStore Replicated AddOperations InviteRequests Wire.
From S2P Require Import Runtime Categories CategoryService Auth Frames Membership SqlLogic.
From S2P Require Import Coordinator CoordBroadcast CoordApplication CoordCommit.
From S2P Require Import CoordMessage CoordMembers CoordLogic.
From S2P Require Import CoordReplay CoordHeal CoordInv CoordSafe CoordSafeHeal CoordStart Node.
From S2P Require Import Service ServiceLogic ServiceSpec Invites.

(** ** Changes that leave groups where they are *)

(** Rows of groups keep their epoch and their place in the life cycle; what
    coordinators rely on besides stays. *)
Definition same_place (r r' : option GroupRow) : Prop :=
  match r, r' with
  | Some r, Some r' => gr_Epoch (grow_rec r') = gr_Epoch (grow_rec r) /\ grow_lifecycle_status r' = grow_lifecycle_status r
  | None, None => True
  | _, _ => False
  end.
Record settled (d d' : AppDB) : Prop := {
  st_rows : forall g, same_place (Roster.group_row g d) (Roster.group_row g d');
  st_applied : applied_mono (adb_core d) (adb_core d');
  st_ops : db_pending_ops (adb_core d') = db_pending_ops (adb_core d);
  st_jobs : db_heal_jobs (adb_core d') = db_heal_jobs (adb_core d);
}.
#[export] Instance same_place_preorder : PreOrder same_place.
Proof.
  split; [by intros [r|]|]. intros [r1|] [r2|] [r3|]; simpl; try done. intros [E1 L1] [E2 L2]. split; congruence.
Qed.
#[export] Instance settled_preorder : PreOrder settled.
Proof.
  split; [by intros d; split|]. intros d1 d2 d3 [R1 A1 O1 J1] [R2 A2 O2 J2].
  split; [|by etrans|congruence..]. intros g. exact (transitivity (R1 g) (R2 g)).
Qed.
Lemma untouched_settled d d' : untouched d d' -> settled d d'.
Proof. intros H. split; unfold Roster.group_row; rewrite H; done || reflexivity. Qed.

Lemma update_group_settled g now f cols d :
  (forall r, gr_Epoch (grow_rec (f r)) = gr_Epoch (grow_rec r) /\ grow_lifecycle_status (f r) = grow_lifecycle_status r) ->
  settled d (Roster.update_group g now f cols d).1.
Proof.
  intros Hf. unfold Roster.update_group, Roster.group_row. destruct (db_groups (adb_core d) !! g) as [r|] eqn:E; [|reflexivity].
  split; [|by intros k v|reflexivity..]. intros g'. unfold Roster.group_row. simpl.
  destruct (decide (g' = g)) as [->|Hne]; [rewrite lookup_insert_eq, E; apply Hf|by rewrite lookup_insert_ne].
Qed.

Lemma respects_settled {A} (m : ASQL A) : respects untouched m -> respects settled m.
Proof. apply respects_weaken, untouched_settled. Qed.
Lemma SetGroupCreatorPeerID_settled g c : respects settled (Roster.SetGroupCreatorPeerID g c).
Proof.
  unfold Roster.SetGroupCreatorPeerID, Roster.current_timestamp. repeat first [progress cbv zeta|svc_step]. by apply update_group_settled.
Qed.
Lemma SetDMCounterpartyPeerID_settled g p : respects settled (GroupMeta.SetDMCounterpartyPeerID g p).
Proof.
  unfold GroupMeta.SetDMCounterpartyPeerID, Roster.current_timestamp. repeat first [progress cbv zeta|svc_step]; try done.
  repeat case_match; try reflexivity. by apply update_group_settled.
Qed.
Lemma AssignCategoryToGroup_settled g c : respects settled (Categories.AssignCategoryToGroup g c).
Proof.
  unfold Categories.AssignCategoryToGroup, Roster.current_timestamp. repeat first [progress cbv zeta|svc_step]; try done.
  by apply update_group_settled.
Qed.
Lemma assign_attempts_settled n g c : forall e, respects settled (Categories.assign_attempts n g c e).
Proof. induction n as [|n IH]; intros e; simpl; repeat svc_step; try done. apply AssignCategoryToGroup_settled. Qed.

(** The statements of the invite tables do not touch what coordinators use. *)
Lemma GetPendingInvite_untouched id : respects untouched (InviteStore.GetPendingInvite id).
Proof. unfold InviteStore.GetPendingInvite. untouched_auto. Qed.
Lemma SaveStoredWelcome_untouched i g ty c w src e h : respects untouched (InviteStore.SaveStoredWelcome i g ty c w src e h).
Proof. unfold InviteStore.SaveStoredWelcome. untouched_auto. Qed.
Lemma SavePendingInvite_untouched i : respects untouched (InviteStore.SavePendingInvite i).
Proof. unfold InviteStore.SavePendingInvite. untouched_auto. Qed.
Lemma MarkPendingInviteAccepted_untouched id : respects untouched (InviteStore.MarkPendingInviteAccepted id).
Proof. unfold InviteStore.MarkPendingInviteAccepted, InviteStore.markPendingInviteStatus. untouched_auto. Qed.
Lemma GetLatestPendingInviteByGroup_untouched g : respects untouched (InviteStore.GetLatestPendingInviteByGroup g).
Proof. unfold InviteStore.GetLatestPendingInviteByGroup. untouched_auto. Qed.
Lemma ReopenRejectedInvite_untouched i : respects untouched (InviteStore.ReopenRejectedInvite i).
Proof. unfold InviteStore.ReopenRejectedInvite. untouched_auto. Qed.
Lemma MarkWelcomeApplied_untouched f g at_ : respects untouched (InviteRequests.MarkWelcomeApplied f g at_).
Proof. unfold InviteRequests.MarkWelcomeApplied. untouched_auto. Qed.
#[export] Hint Resolve GetPendingInvite_untouched SaveStoredWelcome_untouched SavePendingInvite_untouched
  MarkPendingInviteAccepted_untouched GetLatestPendingInviteByGroup_untouched ReopenRejectedInvite_untouched
  MarkWelcomeApplied_untouched : untouched.

Section Invitations.
Context {PC : PeerCodec} {ED : Ed25519} {WC : WireCodec} {PJ : PayloadJSON} (se : SvEnv).

(** ** The invariant across such changes *)

Lemma settled_ok s s' : sv_lift settled s s' -> svc_ok s -> svc_ok s'.
Proof.
  intros [[R A O J] HC] [HF HO HL Hp Hj]. split; rewrite ?HC, ?O, ?J; try done.
  - intros g o ct Hg. destruct (HF g o ct Hg) as [HK HH]. destruct (HL g _ Hg) as (row & Hrow & _). split.
    + intros env He. destruct (HK env He) as [C [G P] T]. simpl in *. split; simpl.
      * by eapply same_core_components; [|exact C].
      * split; simpl; [|by rewrite O]. rewrite He in *. intros row' Hrow'. specialize (R g).
        unfold Roster.group_row in *. rewrite Hrow, Hrow' in R. destruct R as [-> _]. by apply G.
      * by eapply trace_ok_mono.
    + destruct HH as [H1 H2]. split; simpl in *; [by rewrite J|done].
  - intros g oc Hg. destruct (HL g oc Hg) as (row & Hrow & Hl). specialize (R g). rewrite Hrow in R.
    destruct (Roster.group_row g (sv_app s')) as [row'|]; [|done]. exists row'. split; [done|]. destruct R. congruence.
Qed.

(** Only the group [g] may have got or changed a coordinator. *)
Definition around (g : string) (s s' : Svc) : Prop :=
  svc_ok s' /\ forall g', g' <> g -> sv_coords s' !! g' = sv_coords s !! g'.
Lemma around_refl g s : svc_ok s -> around g s s.
Proof. by split. Qed.
Lemma around_settled g s0 s s' : around g s0 s -> sv_lift settled s s' -> around g s0 s'.
Proof. intros [H1 H2] H. split; [by eapply settled_ok|]. destruct H as [_ ->]. done. Qed.
Lemma around_untouched g s0 s s' : around g s0 s -> sv_lift untouched s s' -> around g s0 s'.
Proof. intros H1 H2. eapply around_settled; [done|]. eapply lift_weaken; [|done]. apply untouched_settled. Qed.

Lemma ewp_settled {A} sql g (m : SV A) (Q : result A -> Svc -> Prop) s0 s :
  respects (sv_lift settled) m -> around g s0 s -> (forall r s', around g s0 s' -> Q r s') -> ewp sql m Q s.
Proof. intros Hm H HQ. eapply ewp_respects; [exact Hm|]. intros r s' H'. apply HQ. by eapply around_settled. Qed.
Lemma lift_settled {A} (m : SV A) : respects (sv_lift untouched) m -> respects (sv_lift settled) m.
Proof. apply respects_weaken. intros s s'. apply lift_weaken, untouched_settled. Qed.

(** ** What surrounds a join *)

Lemma finalizeJoinedWelcome_untouched g ty c w src b :
  respects (sv_lift untouched) (Invites.finalizeJoinedWelcome se g ty c w src b).
Proof. unfold Invites.finalizeJoinedWelcome, Service.go, Service.emit. untouched_auto. Qed.
Lemma insertNotification_untouched ty g a t c :
  respects (rt_lift untouched) (Notifications.insertNotification (se_rt se) ty g a t c).
Proof. unfold Notifications.insertNotification, NotificationStore.InsertNotification, Roster.GetPeerDisplayName. untouched_auto. Qed.
Lemma members_changed_untouched g reason : respects (sv_lift untouched) (Service.members_changed g reason).
Proof. unfold Service.members_changed, Service.emit. untouched_auto. Qed.
Lemma roster_sync_untouched g p src :
  respects (rt_lift untouched) (Membership.upsertGroupMemberFromRosterSync (se_rt se) g p src).
Proof. apply roster_evidence_untouched. Qed.

Lemma note_source_settled g ty src : respects (sv_lift settled) (Invites.note_source se g ty src).
Proof.
  unfold Invites.note_source. cbv zeta. repeat svc_step.
  - apply SetGroupCreatorPeerID_settled.
  - apply SetDMCounterpartyPeerID_settled.
  - eapply respects_weaken, roster_sync_untouched. intros s s' [H ?]. split; [by apply untouched_settled|done].
  - apply lift_settled, members_changed_untouched.
Qed.
Lemma category_after_join_settled g ty c src :
  respects (sv_lift settled) (Invites.applyChannelCategoryAfterAutoJoin se g ty c src).
Proof.
  unfold Invites.applyChannelCategoryAfterAutoJoin, Service.emit, Service.go. repeat first [progress cbv zeta|svc_step].
  unfold Categories.AssignCategoryToGroupWhenReady. repeat first [progress cbv zeta|svc_step]. apply assign_attempts_settled.
Qed.
Lemma invite_kept_untouched g ty c w src b e h : respects (sv_lift untouched) (Invites.invite_kept se g ty c w src b e h).
Proof. unfold Invites.invite_kept, Invites.invite_event, Service.emit, Service.go. untouched_auto. Qed.
Lemma invite_joined_settled g ty c w src e h : respects (sv_lift settled) (Invites.invite_joined se g ty c w src e h).
Proof.
  unfold Invites.invite_joined. cbv zeta.
  assert (Hu : forall A (m : SV A), respects (sv_lift untouched) m -> respects (sv_lift settled) m) by (intros; by apply lift_settled).
  repeat (apply respects_bind; [apply _| |intros ?]).
  - apply note_source_settled.
  - apply Hu. untouched_auto.
  - apply category_after_join_settled.
  - apply Hu. untouched_auto.
  - apply Hu. untouched_auto.
  - apply Hu. unfold Service.emit. untouched_auto.
  - apply Hu, respects_rt, insertNotification_untouched.
Qed.

(** ** Applying a Welcome *)

(** An anchor that may be used for a Welcome of [g]: it is of the epoch of the
    state the engine makes of the Welcome; and the node has no coordination
    state for [g] left, or it can be overwritten. *)
Definition trusted (sql : SqlEnv) (g : string) (welcome : bytes) (anchor : option (Z * bytes)) (d : AppDB) : Prop :=
  welcome_ok se welcome anchor /\
  (anchor <> None -> db_coord (adb_core d) !! g = None \/ forall t, sql_fails sql t = None).
Lemma trusted_untouched sql g w a d d' : untouched d d' -> trusted sql g w a d -> trusted sql g w a d'.
Proof. unfold same. intros H [H1 H2]. split; [done|]. by rewrite H. Qed.

Lemma applyWelcome_ok sql groupID ty hex c inviter ae ah s0 s :
  let g := TrimSpace groupID in
  around g s0 s -> (forall w, hex_DecodeString (TrimSpace hex) = Some w -> trusted sql g w (anchor_of ae ah) (sv_app s)) ->
  ewp sql (Invites.applyWelcome se groupID ty hex c inviter ae ah) (fun r s' => around g s0 s' /\
    (is_Some (sv_coords s !! g) -> sv_coords s' = sv_coords s) /\
    (r = inl tt -> groupID = g -> is_Some (sv_coords s' !! g))) s.
Proof.
  intros g Hs Hw. unfold Invites.applyWelcome. apply ewp_bind, ewp_coordinator.
  destruct (sv_coords s !! groupID) eqn:Hrun; [apply ewp_ret; split; [done|]; split; [done|]; intros _ <-; by rewrite Hrun|].
  destruct (re_node (se_rt se)) as [local|]; [|by apply ewp_throw]. destruct (re_db (se_rt se)); [|by apply ewp_throw]. simpl.
  apply ewp_bind, ewp_wrap. eapply (ewp_respects sql (sv_lift untouched)); [unfold Identity.GetKPBundle; untouched_auto|].
  intros [kp|e] s1 H1; [|by split; [eapply around_untouched|split; [destruct H1 as [_ ->]|]]].
  assert (A1 : around g s0 s1) by (by eapply around_untouched). assert (C1 : sv_coords s1 = sv_coords s) by apply H1.
  destruct (hex_DecodeString (TrimSpace hex)) as [w|] eqn:Ehex; [|by apply ewp_throw].
  destruct (trusted_untouched _ _ _ _ _ _ (proj1 H1) (Hw w eq_refl)) as [W1 W2].
  apply ewp_bind. eapply ewp_mono; [|eapply (join_ok se sql groupID); [apply A1| |exact W2]].
  2:{ intros w' Hw'. rewrite Ehex in Hw'. by injection Hw' as <-. }
  intros [[]|e] s2 (O2 & R2 & J2).
  - assert (A2 : around g s0 s2) by (split; [done|]; intros g' Hg'; rewrite R2 by done; by apply A1).
    eapply ewp_respects; [apply finalizeJoinedWelcome_untouched|]. intros r s3 H3. split; [by eapply around_untouched|].
    destruct J2 as (J2 & o & c' & tr & row & J3 & _). fold g in J2, J3. split; [rewrite <- C1, J2; by intros [? ?]|].
    intros _ _. destruct H3 as [_ ->]. by rewrite J3.
  - split; [|by split; [rewrite J2, C1|]]. split; [done|]. rewrite J2. by apply A1.
Qed.

(** What [IsGroupActive] says of the row. *)
Definition row_absent (g : string) (s : Svc) : Prop :=
  forall row, Roster.group_row g (sv_app s) = Some row -> grow_lifecycle_status row <> "active".
Lemma ewp_IsGroupActive sql g (Q : result bool -> Svc -> Prop) s :
  (forall r, match r with
             | inl b => b = false -> row_absent g s
             | inr e => errors_Is e sql_ErrNoRows = true -> row_absent g s
             end -> Q r s) ->
  ewp sql (Service.db (Roster.IsGroupActive g)) Q s.
Proof.
  destruct s as [d cs h tr]. intros H. apply ewp_db, swp_ewp. unfold Roster.IsGroupActive, row_absent in *. simpl in *.
  repeat swp_step; apply H; simpl; try done.
  - intros Ea row Hrow Hl. simplify_eq. by rewrite Hl, orb_true_r in Ea.
Qed.
(** A group that runs has an active row. *)
Lemma absent_stopped g s : svc_ok s -> row_absent g s -> sv_coords s !! g = None.
Proof.
  intros Hok Hrow. destruct (sv_coords s !! g) as [oc|] eqn:E; [|done]. destruct (sok_active _ Hok g oc E) as (row & Hr & Hl).
  by destruct (Hrow row Hr).
Qed.

(** Taking in a Welcome: nothing happens to a group that is active. *)
Lemma save_pending_ok sql groupID ty c w src b ae ah s :
  let g := TrimSpace groupID in
  svc_ok s -> trusted sql g w (anchor_of ae ah) (sv_app s) ->
  ewp sql (Invites.savePendingInviteFromWelcome se groupID ty c w src b ae ah) (fun _ s' => around g s s' /\
    (is_Some (sv_coords s !! g) -> s' = s) /\
    (forall row, Roster.group_row g (sv_app s) = Some row -> grow_lifecycle_status row = "active" -> s' = s)) s.
Proof.
  intros g Hok Hw. unfold Invites.savePendingInviteFromWelcome. cbv zeta. fold g.
  assert (Hg : TrimSpace g = g) by apply TrimSpace_idemp. clearbody g. pose proof (around_refl g s Hok) as A0.
  destruct (str_eqb g "" || is_empty w); [by apply ewp_throw|].
  destruct (Service.normalizeGroupTypeRuntime ty) as [ty'|e]; [|by apply ewp_throw].
  destruct (re_db (se_rt se)); [|by apply ewp_throw]. simpl.
  set (src' := if _ : bool then "" else TrimSpace src). clearbody src'.
  set (P := fun (_ : result unit) (s' : Svc) => _).
  assert (Hp : row_absent g s -> forall (r : result unit) s', around g s s' -> P r s').
  { intros Hrow r s' A. split; [done|]. split; [|by intros row Hr Hl; destruct (Hrow row Hr)].
    rewrite (absent_stopped g s Hok Hrow). by intros [? ?]. }
  assert (Hgo : row_absent g s -> ewp sql (existing <-! sql_try (Service.db (InviteStore.GetPendingInvite (InviteStore.PendingInviteID g w))) ;
    let waiting := match existing with
                   | inl i => str_eqb (pi_Status i) InviteStore.PendingInviteStatusPending
                   | inr _ => false
                   end in
    if waiting : bool then sql_ret tt
    else
      applied <-! sql_try (Invites.applyWelcome se g ty' (hex_EncodeToString w) (TrimSpace c) src' ae ah) ;
      match applied with
      | inl _ => Invites.invite_joined se g ty' (TrimSpace c) w src' ae ah
      | inr _ => Invites.invite_kept se g ty' (TrimSpace c) w src' b ae ah
      end) P s).
  { intros Hrow. specialize (Hp Hrow). apply ewp_bind, ewp_try.
    eapply (ewp_respects sql (sv_lift untouched)); [apply respects_db, GetPendingInvite_untouched|]. intros existing s1 H1. cbv zeta.
    assert (A1 : around g s s1) by (by eapply around_untouched).
    match goal with |- ewp _ (if ?b then _ else _) _ _ => destruct b; [by apply ewp_ret, Hp|] end.
    apply ewp_bind, ewp_try. eapply ewp_mono; [|apply (applyWelcome_ok sql g _ _ _ _ _ _ s s1); rewrite Hg; [done|]].
    - intros [r|e] s2 (A2 & _); rewrite Hg in A2.
      + by eapply ewp_settled; [apply invite_joined_settled|exact A2|].
      + by eapply ewp_settled; [apply lift_settled, invite_kept_untouched|exact A2|].
    - intros w' Hw'. rewrite TrimSpace_hex in Hw'. rewrite hex_Decode_Encode in Hw'. injection Hw' as <-.
      by eapply trusted_untouched; [apply H1|]. }
  apply ewp_bind, ewp_try, ewp_IsGroupActive. intros [[]|e] Hr; [by apply ewp_ret|by apply Hgo, Hr|].
  destruct (errors_Is e sql_ErrNoRows); [by apply Hgo, Hr|by apply ewp_throw].
Qed.

(** ** A Welcome on the wire *)

(** A coordinator is as it was, but for its reading of the clock. *)
Definition unmoved (h : Hlc.HLC) (oc oc' : Opts * (Coord * list Effect)) : Prop :=
  oc'.1 = oc.1 /\ set_c_hlc h oc'.2.1 = set_c_hlc h oc.2.1 /\ oc'.2.2 = oc.2.2.

Lemma ProcessWelcome_refused env w welcome :
  Forall job_waiting (db_heal_jobs (w_db w)) ->
  wp env (ProcessWelcomeIfWaiting welcome) (fun b w' => b = false /\ w_c w' = w_c w /\ w_db w' = w_db w /\ w_trace w' = w_trace w) w.
Proof.
  intros HJ. unfold ProcessWelcomeIfWaiting, waiting_job. wp_run. rewrite wp_db.
  unfold HealStore.GetActiveForkHealingJob, sql_wrap, sql_query. destruct (sql_fails _ _); wp_run; [done|].
  destruct (HealStore.active_job _ _) as [j|] eqn:Ej; wp_run; [|done].
  destruct (str_eqb (job_Status j) "PROPOSAL_SENT"); wp_run; [|done].
  destruct (active_job_waiting _ _ j HJ Ej) as [-> _]. simpl. by wp_run.
Qed.

(** The fork-healing pipeline lets the Welcome pass. *)
Lemma offer_passes sql g oc welcome s :
  svc_ok s -> sv_coords s !! g = Some oc ->
  ewp sql (Service.on_coord se g oc (ProcessWelcomeIfWaiting welcome)) (fun r s' => r = inl false /\ svc_ok s' /\
    sv_app s' = sv_app s /\ exists oc', sv_coords s' = <[g := oc']> (sv_coords s) /\ unmoved (sv_hlc s) oc oc') s.
Proof.
  intros Hok Hg. unfold Service.on_coord. apply ewp_bind, ewp_run_coord. intros t.
  eapply wp_mono; [apply ProcessWelcome_refused; apply Hok|]. intros b w (-> & Hc & Hd & Ht). simpl in *.
  apply ewp_bind, ewp_put. cbn [fst snd]. rewrite Hc, Hd, Ht, drop_all. simpl.
  apply ewp_bind, ewp_ret, ewp_ret. rewrite set_core_id.
  split; [done|]. split; [|split; [done|]; by exists (oc.1, (set_c_hlc (sv_hlc s) oc.2.1, oc.2.2))].
  destruct oc as [o [c tr]]. pose proof Hok as [HF HO HL _ _]. destruct s as [d cs h rt]. simpl in *.
  destruct (HO _ _ _ Hg) as (O1 & O2 & O3).
  apply (svc_ok_put g o _ (mkSvc d cs h rt)); try done; [|by apply (HL g _ Hg)].
  exact (HF g o (c, tr) Hg).
Qed.

(** What a frame may do to the node. *)
Record contained (g : string) (s s' : Svc) : Prop := {
  ct_ok : svc_ok s';
  ct_kept : forall g' oc, sv_coords s !! g' = Some oc -> exists oc', sv_coords s' !! g' = Some oc' /\ unmoved (sv_hlc s) oc oc';
  ct_new : forall g', sv_coords s !! g' = None -> is_Some (sv_coords s' !! g') -> g' = g;
  ct_active : forall row, Roster.group_row g (sv_app s) = Some row -> grow_lifecycle_status row = "active" -> sv_app s' = sv_app s;
}.
Lemma contained_refl g s : svc_ok s -> contained g s s.
Proof. intros H. split; [done| | |done]; [by intros g' oc; exists oc|]. intros g' ->. by intros [? ?]. Qed.

(** Taking in the Welcome after a coordinator has refused it. *)
Lemma save_contained sql groupID ty c w src b ae ah s s1 :
  let g := TrimSpace groupID in
  contained g s s1 -> sv_app s1 = sv_app s -> trusted sql g w (anchor_of ae ah) (sv_app s) ->
  ewp sql (Invites.savePendingInviteFromWelcome se groupID ty c w src b ae ah) (fun _ s' => contained g s s') s1.
Proof.
  intros g [O1 K1 N1 A1] Happ Hw. rewrite <- Happ in Hw. eapply ewp_mono; [|by apply save_pending_ok].
  intros _ s' ([O2 R2] & Hrun & Hact). fold g in Hrun, R2, Hact. split; [done|..].
  - intros g' oc Hg'. destruct (K1 g' oc Hg') as (oc' & Hoc' & U). exists oc'. split; [|done].
    destruct (decide (g' = g)) as [->|Hne]; [|by rewrite R2]. by rewrite Hrun.
  - intros g' Hn Hs. destruct (decide (g' = g)) as [|Hne]; [done|]. rewrite R2 in Hs by done. by apply N1.
  - rewrite Happ in Hact. intros row Hr Hl. by rewrite (Hact row Hr Hl).
Qed.

(** The frame of a Welcome, the anchor of which is trusted. *)
Definition delivered_frame {J : JSON welcomeDeliveryWire} (input : bytes) (s s' : Svc) : Prop :=
  match Frames.readWelcomeFrame input with
  | inl (msg, _) => contained (TrimSpace (wd_GroupID msg)) s s'
  | inr _ => s' = s
  end.
Definition trusted_frame {J : JSON welcomeDeliveryWire} (env : SqlEnv) (input : bytes) (s : Svc) : Prop :=
  forall msg rest w, Frames.readWelcomeFrame input = inl (msg, rest) ->
    hex_DecodeString (TrimSpace (wd_WelcomeHex msg)) = Some w ->
    trusted env (TrimSpace (wd_GroupID msg)) w
      (anchor_of (wd_AnchorEpoch msg) (Invites.hexDecodedOrNil (wd_AnchorHistoryHash msg))) (sv_app s).

Lemma delivery_ok {J : JSON welcomeDeliveryWire} remote input env s :
  svc_ok s -> trusted_frame env input s ->
  ewp env (Invites.handleWelcomeDelivery se remote input) (fun r s' => r = inl tt /\ svc_ok s' /\ delivered_frame input s s') s.
Proof.
  intros Hok Hw. unfold trusted_frame, delivered_frame in *. unfold Invites.handleWelcomeDelivery.
  destruct (Frames.readWelcomeFrame input) as [[msg rest]|e]; [|by apply ewp_ret].
  pose proof (contained_refl (TrimSpace (wd_GroupID msg)) s Hok) as C0.
  match goal with |- ewp _ (if ?b then _ else _) _ _ => destruct b; [by apply ewp_ret|] end.
  destruct (hex_DecodeString (TrimSpace (wd_WelcomeHex msg))) as [w|] eqn:Ehex; [|by apply ewp_ret].
  specialize (Hw msg rest w eq_refl Ehex). apply ewp_bind, ewp_coordinator. apply ewp_bind.
  assert (Hsave : forall s1 src, contained (TrimSpace (wd_GroupID msg)) s s1 -> sv_app s1 = sv_app s ->
    ewp env (sql_ignore (Invites.savePendingInviteFromWelcome se (wd_GroupID msg) (wd_GroupType msg) (wd_CategoryID msg) w src true
      (wd_AnchorEpoch msg) (Invites.hexDecodedOrNil (wd_AnchorHistoryHash msg))))
      (fun r s' => r = inl tt /\ svc_ok s' /\ contained (TrimSpace (wd_GroupID msg)) s s') s1).
  { intros s1 src C1 E1. apply ewp_ignore. eapply ewp_mono; [|by apply save_contained]. intros ? s2 C2. split; [done|]. split; [apply C2|done]. }
  destruct (sv_coords s !! wd_GroupID msg) as [oc|] eqn:Hg; [|by apply ewp_ret, Hsave].
  eapply ewp_mono; [|by apply offer_passes]. intros b s1 (-> & O1 & E1 & oc' & C1 & U). apply Hsave; [|done].
  split; [done|..]; try congruence; intros g'; rewrite C1.
  - intros oc0 H0. destruct (decide (g' = wd_GroupID msg)) as [->|Hne]; [|exists oc0; by rewrite lookup_insert_ne].
    exists oc'. rewrite lookup_insert_eq. split; [done|]. congruence.
  - intros Hn. rewrite lookup_insert_ne, Hn by congruence. by intros [? ?].
Qed.

(** C17: Whatever bytes a peer sends as the delivery of a Welcome, and whatever
    statement fails: the handler ends normally; the coordinators that run keep
    their invariant and are as they were; a coordinator starts at most for the
    group that the frame names; and when that group is active, no table
    changes.  The anchor of the frame is trusted to be of the epoch of the
    Welcome, and to be stored when an older history is still there. *)
Theorem welcome_frames_are_contained {J : JSON welcomeDeliveryWire} remote input env t s r t' s' :
  svc_ok s -> trusted_frame env input s ->
  Invites.handleWelcomeDelivery se remote input env t s = (r, t', s') ->
  r = inl tt /\ node_ok (ne_of se env s') (node_of t' s') /\
  match Frames.readWelcomeFrame input with
  | inl (msg, _) => contained (TrimSpace (wd_GroupID msg)) s s'
  | inr _ => s' = s
  end.
Proof.
  intros Hok Hw E. destruct (ewp_run _ _ _ _ _ _ _ _ (delivery_ok remote input env s Hok Hw) E) as (-> & H & ?).
  auto using svc_node_ok.
Qed.

(** ** Accepting an invitation *)

Definition invitation (id : string) (d : AppDB) : option PendingInvite :=
  head (List.filter (InviteStore.invite_id id) (adb_pending_invites d)).
(** Group IDs are stored without surrounding space. *)
Definition invites_trimmed (d : AppDB) : Prop := Forall (fun i => TrimSpace (pi_GroupID i) = pi_GroupID i) (adb_pending_invites d).
Definition is_accepted (id : string) (d : AppDB) : Prop :=
  exists i, i ∈ adb_pending_invites d /\ pi_ID i = id /\ pi_Status i = InviteStore.PendingInviteStatusAccepted.

Lemma invitation_Some id d i : invitation id d = Some i -> i ∈ adb_pending_invites d /\ pi_ID i = id.
Proof.
  unfold invitation. intros Hi. assert (Hin : i ∈ List.filter (InviteStore.invite_id id) (adb_pending_invites d)).
  { destruct (List.filter _ _); [done|]. injection Hi as ->. left. }
  apply list_elem_of_In, filter_In in Hin as [Hin He]. split; [by apply list_elem_of_In|]. by apply str_eqb_true.
Qed.

Lemma ewp_GetPendingInvite sql id (Q : result PendingInvite -> Svc -> Prop) s :
  (forall i, invitation id (sv_app s) = Some i -> Q (inl (InviteStore.scan_invite i)) s) -> (forall e, Q (inr e) s) ->
  ewp sql (Service.db (InviteStore.GetPendingInvite id)) Q s.
Proof.
  destruct s as [d cs h tr]. intros Hi He. apply ewp_db, swp_ewp. unfold InviteStore.GetPendingInvite. simpl in *.
  repeat swp_step; auto.
Qed.

Lemma mark_accepted sql g id reason s0 s :
  around g s0 s -> ewp sql (Service.db (InviteStore.MarkPendingInviteAccepted id) ;;!
    Invites.invite_event "invite:accepted" id g InviteStore.PendingInviteStatusAccepted reason)
    (fun r s' => around g s0 s' /\ (r = inl tt -> is_accepted id (sv_app s')) /\ sv_coords s' = sv_coords s) s.
Proof.
  intros Hs. apply ewp_bind, ewp_db, swp_ewp. unfold InviteStore.MarkPendingInviteAccepted, InviteStore.markPendingInviteStatus.
  assert (Hu : forall d, untouched (sv_app s) d -> around g s0 (mkSvc d (sv_coords s) (sv_hlc s) (sv_trace s))).
  { intros d Hd. eapply around_untouched; [exact Hs|]. by split. }
  swp_step. swp_step. swp_step. swp_step. swp_step; [|split; [by apply Hu|done]].
  unfold update_where. cbn [fst snd]. destruct (Z.eqb_spec (Z.of_nat (length (List.filter (InviteStore.invite_id id) (adb_pending_invites (sv_app s))))) 0) as [Hz|Hn].
  { apply swp_throw. split; [by apply Hu|done]. }
  apply swp_ret. unfold Invites.invite_event, Service.emit. intros tk. simpl. split; [eapply around_untouched; [by apply Hu|by split]|].
  split; [|done]. intros _. unfold is_accepted. simpl.
  destruct (List.filter (InviteStore.invite_id id) (adb_pending_invites (sv_app s))) as [|i l] eqn:El; [done|].
  assert (Hin : In i (List.filter (InviteStore.invite_id id) (adb_pending_invites (sv_app s)))) by (rewrite El; left; done).
  apply filter_In in Hin as [Hin%list_elem_of_In He]. eexists. split; [apply list_elem_of_fmap; exists i; split; [reflexivity|done]|].
  rewrite He. simpl. split; [by apply str_eqb_true|done].
Qed.

(** What accepting the invitation [i] ends in. *)
Definition accepting (i : PendingInvite) (s : Svc) (r : result unit) (s' : Svc) : Prop :=
  around (pi_GroupID i) s s' /\
  (pi_Status i = InviteStore.PendingInviteStatusRejected -> (exists e, r = inr e) /\ sv_coords s' = sv_coords s) /\
  (r = inl tt -> is_accepted (pi_ID i) (sv_app s') /\
     (is_Some (sv_coords s' !! pi_GroupID i) \/ is_Some (Roster.group_row (pi_GroupID i) (sv_app s)))).

Lemma accept_apply sql (i : PendingInvite) (g : string) s0 s :
  TrimSpace g = g -> (forall w, welcome_ok se w None) -> around g s0 s ->
  ewp sql (sql_wrap "accept invite" (Invites.applyWelcome se g (pi_GroupType i) (hex_EncodeToString (pi_WelcomeBytes i)) (pi_CategoryID i)
      (pi_SourcePeerID i) 0 []) ;;!
    (if str_eqb (TrimSpace (pi_SourcePeerID i)) "" then sql_ret tt
     else
       sql_ignore (Service.rt (Membership.upsertGroupMemberFromRosterSync (se_rt se) g (pi_SourcePeerID i) "welcome-source")) ;;!
       Service.members_changed g "welcome_source") ;;!
    (Service.db (InviteStore.MarkPendingInviteAccepted (pi_ID i)) ;;!
     Invites.invite_event "invite:accepted" (pi_ID i) g InviteStore.PendingInviteStatusAccepted "accepted"))
    (fun r s' => around g s0 s' /\ (r = inl tt -> is_accepted (pi_ID i) (sv_app s') /\ is_Some (sv_coords s' !! g))) s.
Proof.
  intros Hg Hw Hs. apply ewp_bind, ewp_wrap. eapply ewp_mono; [|apply (applyWelcome_ok sql g _ _ _ _ _ _ s0 s); rewrite Hg; [done|]].
  2:{ intros w _. split; [apply Hw|]. by intros []. }
  intros [[]|e] s1 (A1 & _ & R1); rewrite Hg in *; [|by split]. specialize (R1 eq_refl eq_refl).
  apply ewp_bind. eapply (ewp_respects sql (sv_lift untouched)).
  { svc_step; [by svc_step|]. svc_step; [svc_step; apply respects_rt, roster_sync_untouched|apply members_changed_untouched]. }
  intros [[]|e] s2 H2; [|by split; [eapply around_untouched|]].
  eapply ewp_mono; [|eapply mark_accepted, around_untouched; [exact A1|exact H2]]. intros r s3 (A3 & M3 & C3).
  split; [done|]. intros Hr. split; [by apply M3|]. rewrite C3. destruct H2 as [_ ->]. done.
Qed.

Lemma accept_ok sql inviteID i s :
  svc_ok s -> invites_trimmed (sv_app s) -> (forall w, welcome_ok se w None) ->
  invitation (TrimSpace inviteID) (sv_app s) = Some i ->
  ewp sql (Invites.AcceptInvite se inviteID) (accepting i s) s.
Proof.
  intros Hok Ht Hw Hi. unfold Invites.AcceptInvite. cbv zeta. set (P := accepting i s).
  destruct (invitation_Some _ _ _ Hi) as [Hin Hid]. assert (Hg : TrimSpace (pi_GroupID i) = pi_GroupID i).
  { unfold invites_trimmed in Ht. rewrite Forall_forall in Ht. by apply Ht. }
  assert (Herr : forall s1 e, sv_lift untouched s s1 -> P (inr e) s1).
  { intros s1 e H1. split; [eapply around_untouched; [by apply around_refl|done]|]. split; [|done]. intros _. split; [eauto|apply H1]. }
  case_match; [by apply ewp_throw, Herr|]. apply ewp_bind.
  eapply (ewp_respects sql (sv_lift eq)).
  { unfold Runtime.ensureSessionActive, Runtime.GetSessionStatus, Runtime.readInt64Config, Identity.GetConfig. untouched_auto. }
  intros [[]|e] s1 [E1 C1]; [|by apply Herr; split; [unfold same; rewrite E1|]].
  assert (H1 : sv_lift untouched s s1) by (split; [unfold same; by rewrite E1|done]).
  destruct (re_db (se_rt se)); [|by apply ewp_throw, Herr]. simpl.
  apply ewp_bind, ewp_try, ewp_GetPendingInvite; [|intros e; by apply ewp_throw, Herr]. rewrite <- E1, Hi. intros ? [= <-].
  cbn [pi_Status pi_GroupID pi_ID InviteStore.scan_invite].
  destruct (str_eqb_spec (pi_Status i) InviteStore.PendingInviteStatusRejected) as [Hrej|Hrej]; [by apply ewp_throw, Herr|].
  assert (A1 : around (pi_GroupID i) s s1) by (eapply around_untouched; [by apply around_refl|done]).
  apply ewp_bind, ewp_db, swp_ewp. unfold Roster.HasGroup. swp_step.
  assert (Hs1 : mkSvc (sv_app s1) (sv_coords s1) (sv_hlc s1) (sv_trace s1) = s1) by (by destruct s1).
  swp_step; rewrite ?Hs1; [|by apply Herr].
  assert (Happly : forall s2, around (pi_GroupID i) s s2 ->
    ewp sql (sql_wrap "accept invite" (Invites.applyWelcome se (pi_GroupID i) (pi_GroupType (InviteStore.scan_invite i))
        (hex_EncodeToString (pi_WelcomeBytes (InviteStore.scan_invite i))) (pi_CategoryID (InviteStore.scan_invite i))
        (pi_SourcePeerID (InviteStore.scan_invite i)) 0 []) ;;!
      (if str_eqb (TrimSpace (pi_SourcePeerID (InviteStore.scan_invite i))) "" then sql_ret tt
       else
         sql_ignore (Service.rt (Membership.upsertGroupMemberFromRosterSync (se_rt se) (pi_GroupID i)
           (pi_SourcePeerID (InviteStore.scan_invite i)) "welcome-source")) ;;!
         Service.members_changed (pi_GroupID i) "welcome_source") ;;!
      (Service.db (InviteStore.MarkPendingInviteAccepted (pi_ID i)) ;;!
       Invites.invite_event "invite:accepted" (pi_ID i) (pi_GroupID i) InviteStore.PendingInviteStatusAccepted "accepted")) P s2).
  { intros s2 A2. eapply ewp_mono; [|by apply (accept_apply sql (InviteStore.scan_invite i) (pi_GroupID i) s s2)].
    intros r s3 [A3 R3]. split; [done|]. split; [done|]. intros Hr. destruct (R3 Hr) as [? ?]. auto. }
  apply ewp_bind. case_bool_decide as Hrow; [|by apply ewp_ret, Happly]. rewrite <- E1 in Hrow.
  assert (Hmark : ewp sql (Service.db (InviteStore.MarkPendingInviteAccepted (pi_ID i)) ;;!
       Invites.invite_event "invite:accepted" (pi_ID i) (pi_GroupID i) InviteStore.PendingInviteStatusAccepted "already_joined") P s1).
  { eapply ewp_mono; [|by apply mark_accepted]. intros r s2 (A2 & M2 & _). split; [done|]. split; [done|]. intros Hr. auto. }
  apply ewp_bind, ewp_try, ewp_IsGroupActive. intros [[]|e] Hr; [by apply ewp_ret| |by apply ewp_ret].
  apply ewp_bind, ewp_ignore, ewp_db. eapply ewp_respects; [apply PurgeGroupMetadata_apart|]. intros r d Hd. rewrite Hg in Hd.
  apply ewp_ret, Happly. split; [|apply A1]. eapply (svc_ok_apart (pi_GroupID i) s1); [|by split|apply A1].
  apply absent_stopped; [apply A1|by apply Hr].
Qed.

(** C18: Accepting an invitation.  Whatever statement fails: the coordinators of
    other groups run on as they were, in their invariant; an invitation that
    was rejected is refused and changes no coordinator; and when the call
    reports success, the invitation is marked as accepted and the group runs,
    or was there before. *)
Theorem accepting_joins_or_refuses inviteID i env t s r t' s' :
  svc_ok s -> invites_trimmed (sv_app s) -> (forall w, welcome_ok se w None) ->
  invitation (TrimSpace inviteID) (sv_app s) = Some i ->
  Invites.AcceptInvite se inviteID env t s = (r, t', s') ->
  node_ok (ne_of se env s') (node_of t' s') /\
  (forall g, g <> pi_GroupID i -> sv_coords s' !! g = sv_coords s !! g) /\
  (pi_Status i = InviteStore.PendingInviteStatusRejected -> (exists e, r = inr e) /\ sv_coords s' = sv_coords s) /\
  (r = inl tt -> is_accepted (pi_ID i) (sv_app s') /\
     (is_Some (sv_coords s' !! pi_GroupID i) \/ is_Some (Roster.group_row (pi_GroupID i) (sv_app s)))).
Proof.
  intros Hok Ht Hw Hi E. destruct (ewp_run _ _ _ _ _ _ _ _ (accept_ok env inviteID i s Hok Ht Hw Hi) E) as ([H1 H2] & H3 & H4).
  auto using svc_node_ok.
Qed.
End Invitations.
