(* ===== verification/InviteFlow.v ===== *)
(** * Requests to invite

    [service/group_invite_requests.go] and [service/group_invite_request_p2p.go]:
    a member asks an admin of the group to add a peer; the admin's node keeps
    the request, an admin decides on it, or the policy of the group does, and
    the requester is told.

    The answers of the peers that are asked are those of [answers]: [None] for
    a stream that cannot be opened, written or read.  Texts of errors leave out
    the values that the code prints into them. *)
From S2P Require Import Prelude GoStrings Sha256 Types Config Hlc Epoch ActiveView SingleWriter.
From S2P Require Import ForkDetector Helpers Database Store StoreSpec HealStore AppDatabase Identity Roster.
From S2P Require Import InviteStore Replicated AddOperations InviteRequests Wire Runtime Categories.
From S2P Require Import CategoryService Auth Frames Membership.
From S2P Require Import Coordinator CoordBroadcast CoordApplication CoordCommit CoordMessage CoordMembers.
From S2P Require Import CoordReplay CoordHeal Node Service Invites.

Module InviteFlow.
Import Service.

Definition errInviteStateConflict := "ERR_INVITE_REQUEST_STATE_CONFLICT".
Definition errInviteForbidden := Runtime.errInviteForbidden.
Definition errInviteNotFound := "ERR_INVITE_REQUEST_NOT_FOUND".
Definition errInviteDuplicateActive := "ERR_INVITE_REQUEST_DUPLICATE_ACTIVE".
Definition errCreatorUnreachable := "ERR_CREATOR_UNREACHABLE".
Definition errGroupCreatorUnknown := "ERR_GROUP_CREATOR_UNKNOWN".
Definition maxInviteRetryAttempts : Z := 5.
(** in seconds *)
Definition inviteRequestTTL : Z := 7 * 24 * 3600.
Definition processingTimeout : Z := 5 * 60.
Definition appliedWelcomeRetention : Z := 30 * 24 * 3600.

Definition fail_code {A} (code text : string) : SV A := sql_throw (ErrText (code +:+ ": " +:+ text)).

(** ** Records *)

(** [GroupInviteRequestInfo], [toInviteRequestInfo] *)
Record GroupInviteRequestInfo := mkRequestInfo {
  qi_RequestID : string;
  qi_GroupID : string;
  qi_RequesterPeerID : string;
  qi_TargetPeerID : string;
  qi_Status : string;
  qi_FailureCode : string;
  qi_FailureMessage : string;
  qi_RejectionReason : string;
  qi_AttemptCount : Z;
  qi_MaxAttempts : Z;
  qi_ProcessingStartedAt : option Z;
  qi_ExpiresAt : Z;
  qi_CreatedAt : Z;
  qi_UpdatedAt : Z;
}.
Definition toInviteRequestInfo (r : GroupInviteRequestRecord) : GroupInviteRequestInfo :=
  mkRequestInfo (ir_RequestID r) (ir_GroupID r) (ir_RequesterPeerID r) (ir_TargetPeerID r) (ir_Status r) (ir_FailureCode r)
    (ir_FailureMessage r) (ir_RejectionReason r) (ir_AttemptCount r) (ir_MaxAttempts r) (ir_ProcessingStartedAt r)
    (ir_ExpiresAt r) (ir_CreatedAt r) (ir_UpdatedAt r).

(** [inviteRecordToWire], [inviteWireToRecord] *)
Definition inviteRecordToWire (r : GroupInviteRequestRecord) : InviteRequestRecordWire :=
  mkInviteRequestWire (ir_RequestID r) (ir_GroupID r) (ir_RequesterPeerID r) (ir_TargetPeerID r) (ir_Status r) (ir_FailureCode r)
    (ir_FailureMessage r) (ir_RejectionReason r) (ir_AttemptCount r) (ir_MaxAttempts r) (ir_ProcessingStartedAt r)
    (ir_ExpiresAt r) (ir_CreatedAt r) (ir_UpdatedAt r) (ir_IsMirror r).
Definition inviteWireToRecord (w : InviteRequestRecordWire) : GroupInviteRequestRecord :=
  mkInviteRequest (TrimSpace (iw_RequestID w)) (TrimSpace (iw_GroupID w)) (TrimSpace (iw_RequesterPeerID w))
    (TrimSpace (iw_TargetPeerID w)) (TrimSpace (iw_Status w)) (TrimSpace (iw_FailureCode w)) (TrimSpace (iw_FailureMessage w))
    (TrimSpace (iw_RejectionReason w)) (iw_AttemptCount w) (iw_MaxAttempts w) (iw_ProcessingStartedAt w)
    (iw_ExpiresAt w) (iw_CreatedAt w) (iw_UpdatedAt w) (iw_IsMirror w).
Definition as_mirror (r : GroupInviteRequestRecord) : GroupInviteRequestRecord :=
  mkInviteRequest (ir_RequestID r) (ir_GroupID r) (ir_RequesterPeerID r) (ir_TargetPeerID r) (ir_Status r) (ir_FailureCode r)
    (ir_FailureMessage r) (ir_RejectionReason r) (ir_AttemptCount r) (ir_MaxAttempts r) (ir_ProcessingStartedAt r)
    (ir_ExpiresAt r) (ir_CreatedAt r) (ir_UpdatedAt r) true.

(** The patches of [TryTransitionInviteRequest] *)
Definition started_patch (now : Z) : InviteRequests.InviteRequestTransitionPatch :=
  InviteRequests.mkPatch None None None (Some (Some now)) true true.
Definition done_patch : InviteRequests.InviteRequestTransitionPatch := InviteRequests.mkPatch None None None (Some None) false true.
Definition failed_patch (code msg : string) (started : option (option Z)) : InviteRequests.InviteRequestTransitionPatch :=
  InviteRequests.mkPatch (Some code) (Some msg) None started false false.
Definition rejected_patch (reason : string) : InviteRequests.InviteRequestTransitionPatch :=
  InviteRequests.mkPatch None None (Some reason) None false true.

Section Methods.
Context {PC : PeerCodec} {ED : Ed25519} {WC : WireCodec} {PJ : PayloadJSON} (se : SvEnv).
Variable answers : peerID -> GroupInviteWireClientReqV1 -> option GroupInviteWireRespV1.
(** the bound of the recursion through buffered envelopes that an invitation
    may start *)
Variable fuel : nat.
Abbreviation re := (se_rt se).

Definition not_initialized {A} : SV A := sql_throw (ErrText "database not initialized").
Definition with_db {A} (m : SV A) : SV A := if re_db re then m else not_initialized.
Definition local_peer : SV string := rt (Runtime.localPeerID re).
Definition manages (g : string) : SV (GroupMemberRecord * string) :=
  rt (Runtime.requireGroupPermission re g Runtime.permissionManageInvites).
Definition event (g ty actor target : string) : SV unit := rt (Runtime.appendGroupEvent g ty actor target 0).
Definition request_changed (g id status reason : string) : SV unit :=
  emit "group:invite_request_changed" [("group_id", g); ("request_id", id); ("status", status); ("reason", reason)].

(** ** Telling the requester *)

(** [pushInviteRequestToRequester] *)
Definition pushInviteRequestToRequester (rec : GroupInviteRequestRecord) : SV unit :=
  match peer_Decode (ir_RequesterPeerID rec), re_node re with
  | None, _ => sql_throw (ErrText "invalid peer ID")
  | _, None => sql_throw (ErrText "p2p node not ready")
  | Some target, Some _ =>
      if se_reach se target then out (Send target (FInvitePush (mkInvitePush 1 "push" (inviteRecordToWire rec))))
      else sql_throw (ErrText "stream")
  end.

(** [maybePushInviteUpdate] *)
Definition maybePushInviteUpdate (rec : GroupInviteRequestRecord) : SV unit :=
  if ir_IsMirror rec then sql_ret tt
  else
    allowed <-! sql_try (manages (ir_GroupID rec)) ;
    match allowed with
    | inr _ => sql_ret tt
    | inl _ =>
        local <-! sql_try local_peer ;
        match local with
        | inl local => if str_eqb local (ir_RequesterPeerID rec) then sql_ret tt else sql_ignore (pushInviteRequestToRequester rec)
        | inr _ => sql_ret tt
        end
    end.

(** ** Processing a request *)

(** [isTargetAlreadyMember] *)
Definition isTargetAlreadyMember (g target : string) : SV bool :=
  oc <-! coordinator g ;
  if (match oc with
      | Some (_, (c, _)) => existsb (fun m => str_eqb (peer_String m) target) (ActiveView.Members (c_activeView c))
      | None => false
      end)
  then sql_ret true
  else if negb (re_db re) then sql_ret false
  else
    rows <-! sql_try (db (Roster.ListGroupMembers g [Roster.GroupMemberStatusActive])) ;
    sql_ret (match rows with inl rows => existsb (fun r => str_eqb (gm_PeerID r) target) rows | inr _ => false end).

Definition transition (id : string) (from : list string) (to : string) (p : InviteRequests.InviteRequestTransitionPatch) : SV bool :=
  db (InviteRequests.TryTransitionInviteRequest id from to p).
Definition settle (id to : string) (p : InviteRequests.InviteRequestTransitionPatch) : SV unit :=
  sql_ignore (transition id [InviteRequests.StatusProcessing] to p).

(** [GetGroupInviteRequest], with the error the callers make of a missing row *)
Definition load_request (id : string) : SV GroupInviteRequestRecord :=
  rec <-! sql_try (db (InviteRequests.GetGroupInviteRequest id)) ;
  match rec with
  | inl rec => sql_ret rec
  | inr e => if errors_Is e sql_ErrNoRows then fail_code errInviteNotFound "request not found" else sql_throw e
  end.

(** The body of [processInviteRequest] once the request is being processed *)
Definition process_locked (id : string) : SV unit :=
  rec <-! db (InviteRequests.GetGroupInviteRequest id) ;
  if ir_MaxAttempts rec <? ir_AttemptCount rec then
    settle id InviteRequests.StatusPermanentlyFailed
      (failed_patch "ERR_INVITE_MAX_ATTEMPTS_EXCEEDED" "invite request reached maximum retry attempts" None) ;;!
    sql_throw (ErrText "ERR_INVITE_MAX_ATTEMPTS_EXCEEDED: request reached maximum retry attempts")
  else
    already <-! isTargetAlreadyMember (ir_GroupID rec) (ir_TargetPeerID rec) ;
    if already : bool then settle id InviteRequests.StatusApproved done_patch
    else
      r <-! sql_try (Invites.InvitePeerToGroup se fuel (ir_TargetPeerID rec) (ir_GroupID rec)) ;
      match r with
      | inr e =>
          let msg := ToLower (err_Error e) in
          if Contains msg "already" || Contains msg "duplicate" then settle id InviteRequests.StatusApproved done_patch
          else settle id InviteRequests.StatusFailed (failed_patch "ERR_INVITE_ADD_MEMBER_FAILED" (err_Error e) (Some None)) ;;! sql_throw e
      | inl _ =>
          transition id [InviteRequests.StatusProcessing] InviteRequests.StatusApproved done_patch ;;!
          ops <-! sql_try (db (AddOperations.ListGroupAddOperationsForTarget (ir_GroupID rec) (ir_TargetPeerID rec))) ;
          match ops with
          | inl (op :: _) => sql_ignore (db (InviteRequests.LinkInviteRequestToAddOperation id (ao_OperationID op)))
          | _ => sql_ret tt
          end
      end.

(** The rest of [processInviteRequest] but for what it defers *)
Definition process_body (id : string) (allowAnyMember : bool) : SV unit :=
  rec <-! load_request id ;
  if ir_IsMirror rec then fail_code errInviteForbidden "mirror invite rows cannot be processed locally"
  else
    (if allowAnyMember then sql_ret tt else manages (ir_GroupID rec) ;;! sql_ret tt) ;;!
    now <-! unix_now ;
    ok <-! transition id [InviteRequests.StatusPending; InviteRequests.StatusFailed] InviteRequests.StatusProcessing (started_patch now) ;
    if negb ok then fail_code errInviteStateConflict "request already processed" else process_locked id.

(** What it defers: the requester is told of the outcome. *)
Definition process_deferred (id : string) : SV unit :=
  rec <-! sql_try (db (InviteRequests.GetGroupInviteRequest id)) ;
  match rec with
  | inr _ => sql_ret tt
  | inl rec =>
      if negb (ir_IsMirror rec) && bool_decide (ir_Status rec ∈
           [InviteRequests.StatusApproved; InviteRequests.StatusFailed; InviteRequests.StatusPermanentlyFailed])
      then maybePushInviteUpdate rec else sql_ret tt
  end.

(** [processInviteRequest] *)
Definition processInviteRequest (requestID : string) (allowAnyMember : bool) : SV unit :=
  let id := TrimSpace requestID in
  if str_eqb id "" then fail_code errInviteNotFound "request ID is required"
  else with_db (
    r <-! sql_try (process_body id allowAnyMember) ;
    process_deferred id ;;!
    match r with inl _ => sql_ret tt | inr e => sql_throw e end).

(** ** Deciding *)

(** [requireInviteManagerForRequest] *)
Definition requireInviteManagerForRequest (requestID : string) : SV GroupInviteRequestRecord :=
  let id := TrimSpace requestID in
  if str_eqb id "" then fail_code errInviteNotFound "request ID is required"
  else with_db (
    rec <-! load_request id ;
    if ir_IsMirror rec then fail_code errInviteForbidden "invalid invite row for this action"
    else manages (ir_GroupID rec) ;;! sql_ret rec).

(** [ApproveGroupInviteRequest] *)
Definition ApproveGroupInviteRequest (requestID : string) : SV GroupInviteRequestInfo :=
  rt (Runtime.ensureSessionActive re) ;;!
  requireInviteManagerForRequest requestID ;;!
  processInviteRequest requestID false ;;!
  with_db (
    rec <-! db (InviteRequests.GetGroupInviteRequest requestID) ;
    event (ir_GroupID rec) "invite_request_approved" (ir_RequesterPeerID rec) (ir_TargetPeerID rec) ;;!
    sql_ret (toInviteRequestInfo rec)).

(** [RetryGroupInviteRequest] *)
Definition RetryGroupInviteRequest (requestID : string) : SV GroupInviteRequestInfo :=
  requireInviteManagerForRequest requestID ;;!
  processInviteRequest requestID false ;;!
  with_db (rec <-! db (InviteRequests.GetGroupInviteRequest requestID) ; sql_ret (toInviteRequestInfo rec)).

(** [RejectGroupInviteRequest], after its check and as a whole *)
Definition reject_checked (requestID reason : string) (rec : GroupInviteRequestRecord) : SV GroupInviteRequestInfo :=
  with_db (
    ok <-! transition requestID [InviteRequests.StatusPending] InviteRequests.StatusRejected (rejected_patch (TrimSpace reason)) ;
    if negb ok then fail_code errInviteStateConflict "request is no longer pending"
    else
      out <-! db (InviteRequests.GetGroupInviteRequest requestID) ;
      maybePushInviteUpdate out ;;!
      event (ir_GroupID rec) "invite_request_rejected" (ir_RequesterPeerID rec) (ir_TargetPeerID rec) ;;!
      emit "group:invite_request_decided" [("group_id", ir_GroupID rec); ("request_id", requestID);
        ("status", InviteRequests.StatusRejected); ("requester_id", ir_RequesterPeerID rec); ("target_peer_id", ir_TargetPeerID rec)] ;;!
      sql_ret (toInviteRequestInfo out)).
Definition RejectGroupInviteRequest (requestID reason : string) : SV GroupInviteRequestInfo :=
  rec <-! requireInviteManagerForRequest requestID ; reject_checked requestID reason rec.

(** [ListGroupInviteRequests]: the page and the cursor of the next one *)
Definition ListGroupInviteRequests (groupID : string) (statuses : list string) (cursor : string) (limit : Z)
  : SV (list GroupInviteRequestInfo * string) :=
  with_db (
    let limit := if limit <=? 0 then 50 else limit in
    let limit := if limit >? 100 then 100 else limit in
    page <-! db (InviteRequests.ListGroupInviteRequests groupID statuses cursor limit) ;
    sql_ret (toInviteRequestInfo <$> page.1, page.2)).

(** [runInviteMaintenanceSweep] *)
Definition runInviteMaintenanceSweep (old : Notification -> bool) : SV unit :=
  if negb (re_db re) then sql_ret tt
  else
    now <-! unix_now ;
    sql_ignore (db (InviteRequests.FailCorruptProcessingInviteRequests now)) ;;!
    sql_ignore (db (InviteRequests.FailStaleProcessingInviteRequests now processingTimeout "ERR_INVITE_PROCESSING_TIMEOUT")) ;;!
    sql_ignore (db (InviteRequests.ExpirePendingInviteRequests now)) ;;!
    sql_ignore (db (InviteRequests.CleanupAppliedWelcomes (now - appliedWelcomeRetention))) ;;!
    sql_ignore (db (NotificationStore.DeleteOldNotifications old)).

(** ** The policy of a group *)

Definition no_such_group {A} (e : GoError) : SV A :=
  if errors_Is e sql_ErrNoRows then fail_code "ERR_GROUP_NOT_FOUND" "group not found" else sql_throw e.
Definition load_policy (g : string) : SV string :=
  p <-! sql_try (db (Roster.GetGroupInvitePolicy g)) ; match p with inl p => sql_ret p | inr e => no_such_group e end.

(** [GetGroupInvitePolicy] *)
Definition GetGroupInvitePolicy (groupID : string) : SV string :=
  let g := TrimSpace groupID in
  if str_eqb g "" then sql_throw (ErrText "group ID is required")
  else rt (Runtime.ensureSessionActive re) ;;! with_db (load_policy g).

(** The loop of [processPolicySwitchAnyMember]: how many are done and how many
    of them have been approved *)
Fixpoint process_queue (g : string) (total : Z) (queue : list GroupInviteRequestRecord) (processed approved : Z) : SV unit :=
  match queue with
  | [] => sql_ret tt
  | item :: queue =>
      r <-! sql_try (processInviteRequest (ir_RequestID item) true) ;
      let processed := processed + 1 in
      let approved := match r with inl _ => approved + 1 | inr _ => approved end in
      emit "group:invite_policy_processing" [("group_id", g); ("total", print_Z total); ("processed", print_Z processed);
        ("approved", print_Z approved); ("failed", print_Z (processed - approved)); ("remaining", print_Z (total - processed));
        ("is_running", if processed <? total then "true" else "false")] ;;!
      process_queue g total queue processed approved
  end.

(** [processPolicySwitchAnyMember] *)
Definition processPolicySwitchAnyMember (g : string) : SV unit :=
  with_db (
    queue <-! db (InviteRequests.ListInviteRequestsByStatusesForGroup g
               [InviteRequests.StatusPending; InviteRequests.StatusFailed] true 500) ;
    process_queue g (Z.of_nat (length queue)) queue 0 0).

(** [SetGroupInvitePolicy] *)
Definition SetGroupInvitePolicy (groupID policy : string) : SV unit :=
  let g := TrimSpace groupID in
  if str_eqb g "" then sql_throw (ErrText "group ID is required")
  else
    rt (Runtime.ensureSessionActive re) ;;!
    match Roster.NormalizeGroupInvitePolicy policy with
    | inr e => sql_throw e
    | inl normalized =>
        with_db (
          actor <-! rt (Runtime.requireGroupPermission re g Runtime.permissionChangeGroupSetting) ;
          r <-! sql_try (db (Roster.SetGroupInvitePolicy g normalized)) ;
          match r with
          | inr e => no_such_group e
          | inl _ =>
              (if str_eqb normalized "any_member" then sql_ignore (processPolicySwitchAnyMember g) else sql_ret tt) ;;!
              emit "group:invite_policy_changed" [("group_id", g); ("policy", normalized)] ;;!
              go (GReplicateInvitePolicy g normalized actor.2)
          end)
    end.

(** ** An authority's side of the wire *)

(** [newInviteRequestID]: the eight bytes the random source gives *)
Definition newInviteRequestID (rnd : option bytes) : result string :=
  match rnd with
  | None => inr (ErrText "generate invite request ID")
  | Some b => inl ("gir-" +:+ hex_EncodeToString b)
  end.

(** The part of [rpcSubmitInviteRequest] that creates the row *)
Definition submit_request (remote : peerID) (req : GroupInviteWireClientReqV1) (g target policy id : string)
  : SV GroupInviteRequestRecord :=
  let me := peer_String remote in
  now <-! unix_now ;
  created <-! sql_try (db (InviteRequests.CreateGroupInviteRequest (mkInviteRequest id g me target InviteRequests.StatusPending "" "" ""
               0 maxInviteRetryAttempts None (now + inviteRequestTTL) now now false))) ;
  match created with
  | inr e => if Contains (ToLower (err_Error e)) "unique"
             then fail_code errInviteDuplicateActive "active request already exists for this target" else sql_throw e
  | inl _ =>
      (if is_empty (iq_TargetKeyPackage req) then sql_ret tt
       else sql_ignore (db (InviteStore.SaveStoredKeyPackage target (iq_TargetKeyPackage req) me))) ;;!
      request_changed g id InviteRequests.StatusPending "created_remote" ;;!
      event g "invite_request_created" me target ;;!
      rt (Notifications.insertNotification re Notifications.NotificationTypeInviteRequest g me id "") ;;!
      (if str_eqb policy "any_member" then sql_ignore (processInviteRequest id false) else sql_ret tt) ;;!
      db (InviteRequests.GetGroupInviteRequest id)
  end.

(** [rpcSubmitInviteRequest] *)
Definition rpcSubmitInviteRequest (rnd : option bytes) (remote : peerID) (req : GroupInviteWireClientReqV1) : SV GroupInviteRequestRecord :=
  let g := TrimSpace (iq_GroupID req) in
  let target := TrimSpace (iq_TargetPeerID req) in
  if str_eqb g "" || str_eqb target "" then sql_throw (ErrText "group_id and target_peer_id are required")
  else match peer_Decode target with
  | None => sql_throw (ErrText "invalid target_peer_id")
  | Some _ =>
      if str_eqb (peer_String remote) target then sql_throw (ErrText "cannot invite yourself")
      else
        allowed <-! sql_try (manages g) ;
        match allowed with
        | inr _ => fail_code errInviteForbidden "only an active admin can accept invite submissions"
        | inl _ => with_db (
            policy <-! load_policy g ;
            if negb (str_eqb policy "creator_approval") && negb (str_eqb policy "any_member")
            then fail_code errInviteForbidden "unsupported invite policy"
            else
              members <-! db (Roster.ListGroupMembers g [Roster.GroupMemberStatusActive]) ;
              if negb (existsb (fun m => str_eqb (gm_PeerID m) (peer_String remote)) members)
              then fail_code errInviteForbidden "requester is not an active member"
              else
                already <-! isTargetAlreadyMember g target ;
                if already : bool then sql_throw (ErrText "target is already a member")
                else match newInviteRequestID rnd with
                     | inr e => sql_throw e
                     | inl id => submit_request remote req g target policy id
                     end)
        end
  end.

(** [rpcSyncInviteRequest] *)
Definition rpcSyncInviteRequest (remote : peerID) (req : GroupInviteWireClientReqV1) : SV GroupInviteRequestRecord :=
  let id := TrimSpace (iq_RequestID req) in
  if str_eqb id "" then sql_throw (ErrText "request_id is required")
  else with_db (
    rec <-! load_request id ;
    if ir_IsMirror rec then fail_code errInviteForbidden "cannot sync mirror row"
    else
      allowed <-! sql_try (manages (ir_GroupID rec)) ;
      match allowed with
      | inr _ => fail_code errInviteForbidden "only an active admin can serve invite sync"
      | inl _ => if negb (str_eqb (peer_String remote) (ir_RequesterPeerID rec))
                 then fail_code errInviteForbidden "only the requester can sync this row" else sql_ret rec
      end).

(** [handleGroupInviteWireRPC] *)
Definition handleGroupInviteWireRPC (rnd : option bytes) (remote : peerID) (req : GroupInviteWireClientReqV1) : SV GroupInviteWireRespV1 :=
  let refuse text := mkInviteResp 1 false text None in
  let reply (r : result GroupInviteRequestRecord) :=
    match r with inl rec => mkInviteResp 1 true "" (Some (inviteRecordToWire rec)) | inr e => refuse (err_Error e) end in
  if negb (iq_V req =? 1) then sql_ret (refuse "unsupported request version")
  else
    let op := ToLower (TrimSpace (iq_Op req)) in
    if str_eqb op "submit" then r <-! sql_try (rpcSubmitInviteRequest rnd remote req) ; sql_ret (reply r)
    else if str_eqb op "sync" then r <-! sql_try (rpcSyncInviteRequest remote req) ; sql_ret (reply r)
    else sql_ret (refuse "unknown op").

(** [applyInviteRequestPushFromCreator] *)
Definition applyInviteRequestPushFromCreator (remote : peerID) (push : GroupInviteWirePushV1) : SV unit :=
  if negb (str_eqb (ToLower (TrimSpace (ih_Op push))) "push") then sql_ret tt
  else
    let rec := inviteWireToRecord (ih_Record push) in
    let g := TrimSpace (ir_GroupID rec) in
    if str_eqb g "" then sql_ret tt
    else
      ok <-! sql_try (rt (Runtime.isActiveGroupAuthorizedPeer re g (peer_String remote))) ;
      match ok with
      | inl true =>
          if negb (re_db re) then sql_ret tt
          else
            r <-! sql_try (db (InviteRequests.UpsertGroupInviteRequestMirror rec)) ;
            match r with
            | inr _ => sql_ret tt
            | inl _ =>
                request_changed (ir_GroupID rec) (ir_RequestID rec) (ir_Status rec) "push" ;;!
                let notify ty :=
                  local <-! sql_try local_peer ;
                  let local := match local with inl l => l | inr _ => "" end in
                  if negb (str_eqb local "") && str_eqb (ir_RequesterPeerID rec) local
                  then rt (Notifications.insertNotification re ty (ir_GroupID rec) (peer_String remote) (ir_RequestID rec) "")
                  else sql_ret tt in
                if str_eqb (ir_Status rec) InviteRequests.StatusApproved then notify Notifications.NotificationTypeInviteApproved
                else if str_eqb (ir_Status rec) InviteRequests.StatusRejected then notify Notifications.NotificationTypeInviteRejected
                else sql_ret tt
            end
      | _ => sql_ret tt
      end.

(** [handleGroupInviteRequestStream]: the frame is read three times, for its
    [op] first. *)
Record inviteProbe := mkInviteProbe { pr_Op : string }.
Definition handleGroupInviteRequestStream {JP : JSON inviteProbe} {JQ : JSON GroupInviteWireClientReqV1} {JR : JSON GroupInviteWireRespV1}
  {JH : JSON GroupInviteWirePushV1} (rnd : option bytes) (remote : peerID) (input : bytes) : SV (option bytes) :=
  match re_node re with
  | None => sql_throw ErrPanic
  | Some _ =>
      if negb (is_verified se remote) then sql_ret None
      else match Frames.ReadGroupInviteWireRaw input with
      | inr _ => sql_ret None
      | inl (raw, _) =>
          match json_Unmarshal (A := inviteProbe) raw with
          | None => sql_ret None
          | Some probe =>
              if str_eqb (ToLower (TrimSpace (pr_Op probe))) "push" then
                match json_Unmarshal raw with
                | Some push => applyInviteRequestPushFromCreator remote push ;;! sql_ret None
                | None => sql_ret None
                end
              else match json_Unmarshal raw with
                   | None => sql_ret None
                   | Some req =>
                       resp <-! handleGroupInviteWireRPC rnd remote req ;
                       sql_ret (match Frames.WriteGroupInviteWireFrame resp with inl f => Some f | inr _ => None end)
                   end
          end
      end
  end.

(** ** The requester's side *)

(** [resolveGroupCreatorPeerID] *)
Definition resolveGroupCreatorPeerID (groupID : string) : SV peerID :=
  let g := TrimSpace groupID in
  if str_eqb g "" then sql_throw (ErrText "group ID is required")
  else with_db (
    members <-! db (Roster.ListGroupMembers g [Roster.GroupMemberStatusActive]) ;
    let creator (m : GroupMemberRecord) :=
      if EqualFold (TrimSpace (gm_Role m)) "creator" then peer_Decode (TrimSpace (gm_PeerID m)) else None in
    match head (omap creator members) with
    | Some pid => sql_ret pid
    | None =>
        hint <-! sql_try (db (InviteStore.GetGroupInviteCreatorHint g)) ;
        match (match hint with inl h => peer_Decode (TrimSpace h) | inr _ => None end) with
        | Some pid => sql_ret pid
        | None => fail_code errGroupCreatorUnknown "group information is not synchronised"
        end
    end).

(** [resolveGroupInviteAuthorityPeerIDs] *)
Definition resolveGroupInviteAuthorityPeerIDs (groupID : string) : SV (list peerID) :=
  let g := TrimSpace groupID in
  if str_eqb g "" then sql_throw (ErrText "group ID is required")
  else
    peers <-! sql_try (rt (Runtime.authorizedGroupPeerIDs re g)) ;
    match peers with
    | inl (p :: ps) => sql_ret (p :: ps)
    | _ =>
        creator <-! sql_try (resolveGroupCreatorPeerID g) ;
        match creator, peers with
        | inl c, _ => sql_ret [c]
        | inr _, inr e => sql_throw e
        | inr e, inl _ => sql_throw e
        end
    end.

(** [groupInviteWireCall] *)
Definition groupInviteWireCall (remote : peerID) (req : GroupInviteWireClientReqV1) : result GroupInviteWireRespV1 :=
  match re_node re, answers remote req with
  | None, _ => inr (ErrText "p2p node not ready")
  | _, None => inr (ErrText "stream")
  | Some _, Some resp => if ip_V resp =? 1 then inl resp else inr (ErrText "unsupported response version")
  end.

(** [strings.ToUpper], as far as it matters for a text of ASCII letters: the
    dotless i and the long s have such upper cases too. *)
Definition rune_ToUpper (c : N) : N :=
  if ((97 <=? c) && (c <=? 122))%N then (c - 32)%N else if (c =? 305)%N then 73%N else if (c =? 383)%N then 83%N else c.
Definition ToUpper (s : string) : string := of_runes (rune_ToUpper <$> runes s).

(** [groupInviteWireCallAuthorities]: the answer and who gave it *)
Fixpoint call_authorities (authorities seen : list peerID) (req : GroupInviteWireClientReqV1) (continueOnNotFound : bool)
  (last : option GoError) : result (GroupInviteWireRespV1 * peerID) :=
  match authorities with
  | [] => inr (default (ErrText (errCreatorUnreachable +:+ ": no invite authority available")) last)
  | a :: authorities =>
      if str_eqb a "" || existsb (fun b => str_eqb (peer_String b) (peer_String a)) seen
      then call_authorities authorities seen req continueOnNotFound last
      else
        let next := call_authorities authorities (a :: seen) req continueOnNotFound in
        match groupInviteWireCall a req with
        | inr e => next (Some e)
        | inl resp =>
            if negb (ip_OK resp) && continueOnNotFound && Contains (ToUpper (TrimSpace (ip_Error resp))) errInviteNotFound
            then next (Some (ErrText (TrimSpace (ip_Error resp))))
            else inl (resp, a)
        end
  end.
Definition groupInviteWireCallAuthorities (authorities : list peerID) (req : GroupInviteWireClientReqV1) (continueOnNotFound : bool)
  : SV (GroupInviteWireRespV1 * peerID) :=
  match call_authorities authorities [] req continueOnNotFound None with
  | inl r => sql_ret r
  | inr e => sql_throw (ErrWrap (errCreatorUnreachable +:+ ": could not reach group invite authority") e)
  end.

(** What both callers do with an answer: the record is mirrored. *)
Definition mirror_answer (resp : GroupInviteWireRespV1) (failed : string) : SV GroupInviteRequestRecord :=
  match ip_OK resp, ip_Record resp with
  | true, Some w =>
      let rec := as_mirror (inviteWireToRecord w) in
      db (InviteRequests.UpsertGroupInviteRequestMirror rec) ;;! sql_ret rec
  | _, _ => sql_throw (ErrText (if str_eqb (TrimSpace (ip_Error resp)) "" then failed else TrimSpace (ip_Error resp)))
  end.

(** The part of [RequestGroupInvite] for a member who may not invite *)
Definition forward_request (requester g targetPeerID : string) (target : peerID) : SV GroupInviteRequestInfo :=
  authorities <-! resolveGroupInviteAuthorityPeerIDs g ;
  kp <-! sql_try (Invites.fetchPeerKeyPackage se target) ;
  let kp := match kp with inl kp => kp | inr _ => [] end in
  resp <-! groupInviteWireCallAuthorities authorities (mkInviteReq 1 "submit" g targetPeerID "" kp) false ;
  rec <-! mirror_answer resp.1 "remote invite submit failed" ;
  event g "invite_request_created" requester targetPeerID ;;!
  out <-! db (InviteRequests.GetGroupInviteRequest (ir_RequestID rec)) ;
  request_changed g (ir_RequestID rec) (ir_Status out) "created_mirror" ;;!
  sql_ret (toInviteRequestInfo out).

(** [RequestGroupInvite] *)
Definition RequestGroupInvite (groupID targetPeerID : string) : SV GroupInviteRequestInfo :=
  let g := TrimSpace groupID in
  let target := TrimSpace targetPeerID in
  if str_eqb g "" || str_eqb target "" then sql_throw (ErrText "group ID and target peer ID are required")
  else
    rt (Runtime.ensureSessionActive re) ;;!
    match peer_Decode target with
    | None => sql_throw (ErrText "invalid target peer ID")
    | Some targetID =>
        requester <-! local_peer ;
        if str_eqb requester target then sql_throw (ErrText "cannot invite yourself")
        else with_db (
          load_policy g ;;!
          local <-! rt (Runtime.localGroupMember re g) ;
          if str_eqb (gm_Status local.1) Roster.GroupMemberStatusActive && Runtime.isAdminRole (gm_Role local.1) then
            Invites.InvitePeerToGroup se fuel target g ;;!
            now <-! unix_now ;
            sql_ret (mkRequestInfo "" g requester target InviteRequests.StatusApproved "" "" "" 0 maxInviteRetryAttempts None
              (now + inviteRequestTTL) now now)
          else forward_request requester g target targetID)
    end.

(** [SyncInviteRequestFromCreator] *)
Definition SyncInviteRequestFromCreator (requestID : string) : SV GroupInviteRequestInfo :=
  let id := TrimSpace requestID in
  if str_eqb id "" then fail_code errInviteNotFound "request ID is required"
  else
    rt (Runtime.ensureSessionActive re) ;;!
    with_db (
      rec <-! load_request id ;
      if negb (ir_IsMirror rec) then sql_ret (toInviteRequestInfo rec)
      else
        authorities <-! resolveGroupInviteAuthorityPeerIDs (ir_GroupID rec) ;
        local <-! local_peer ;
        if negb (str_eqb local (ir_RequesterPeerID rec))
        then fail_code errInviteForbidden "only the requester can sync this invite request"
        else
          resp <-! groupInviteWireCallAuthorities authorities (mkInviteReq 1 "sync" "" "" id []) true ;
          mirror_answer resp.1 "sync failed" ;;!
          out <-! db (InviteRequests.GetGroupInviteRequest id) ;
          request_changed (ir_GroupID rec) id (ir_Status out) "synced" ;;!
          sql_ret (toInviteRequestInfo out)).
End Methods.
End InviteFlow.
