(* ===== verification/InviteFlowSpec.v ===== *)
(** * What becomes of requests to invite

    Every request of an authority moves along the life cycle of
    [group_invite_requests.go], whatever statement fails; and only the node of
    an active admin of its group moves it. *)
From S2P Require Import Prelude GoStrings Sha256 Types Config Hlc Epoch ActiveView SingleWriter.
From S2P Require Import ForkDetector Helpers Database Store StoreSpec HealStore AppDatabase Identity Roster.
From S2P Require Import InviteStore Replicated AddOperations InviteRequests Wire.
From S2P Require Import Runtime Categories CategoryService Auth Frames Membership SqlLogic MembershipSpec.
From S2P Require Import Coordinator CoordBroadcast CoordApplication CoordCommit.
From S2P Require Import CoordMessage CoordMembers CoordLogic.
From S2P Require Import CoordReplay CoordHeal Node Service ServiceLogic ServiceSpec Invites InviteFlow.

(** ** The life cycle *)

(** One step of a request. *)
Inductive edge : string -> string -> Prop :=
| edge_start s : s = InviteRequests.StatusPending \/ s = InviteRequests.StatusFailed -> edge s InviteRequests.StatusProcessing
| edge_finish s : s ∈ [InviteRequests.StatusApproved; InviteRequests.StatusFailed; InviteRequests.StatusPermanentlyFailed] ->
    edge InviteRequests.StatusProcessing s
| edge_close s : s = InviteRequests.StatusRejected \/ s = InviteRequests.StatusExpired -> edge InviteRequests.StatusPending s.

(** The rest of the row stays, and attempts are counted up. *)
Record follows (r r' : GroupInviteRequestRecord) : Prop := {
  fo_id : ir_RequestID r' = ir_RequestID r;
  fo_group : ir_GroupID r' = ir_GroupID r;
  fo_requester : ir_RequesterPeerID r' = ir_RequesterPeerID r;
  fo_target : ir_TargetPeerID r' = ir_TargetPeerID r;
  fo_mirror : ir_IsMirror r' = ir_IsMirror r;
  fo_limits : ir_MaxAttempts r' = ir_MaxAttempts r /\ ir_ExpiresAt r' = ir_ExpiresAt r;
  fo_attempts : ir_AttemptCount r <= ir_AttemptCount r';
  fo_status : rtc edge (ir_Status r) (ir_Status r');
}.
#[export] Instance follows_preorder : PreOrder follows.
Proof.
  split; [by intros r; split|]. intros r1 r2 r3 [I1 G1 R1 T1 M1 [L1 E1] A1 S1] [I2 G2 R2 T2 M2 [L2 E2] A2 S2].
  split; try congruence; [split; congruence|lia|by etrans].
Qed.

(** Requests of this node stay and follow the life cycle. *)
Definition lifecycle (d d' : AppDB) : Prop :=
  forall id row, adb_invites d !! id = Some row -> ir_IsMirror (iv_rec row) = false ->
    exists row', adb_invites d' !! id = Some row' /\ follows (iv_rec row) (iv_rec row').
#[export] Instance lifecycle_preorder : PreOrder lifecycle.
Proof.
  split; [by intros d id row H _; exists row|]. intros d1 d2 d3 H1 H2 id row Hr Hm.
  destruct (H1 id row Hr Hm) as (r2 & Hr2 & F2). destruct (H2 id r2 Hr2) as (r3 & Hr3 & F3); [by rewrite (fo_mirror _ _ F2)|].
  exists r3. split; [done|]. by etrans.
Qed.

(** Statuses nothing leads out of. *)
Definition final (s : string) : bool :=
  bool_decide (s ∈ [InviteRequests.StatusApproved; InviteRequests.StatusRejected; InviteRequests.StatusExpired;
                    InviteRequests.StatusPermanentlyFailed; InviteRequests.StatusCancelled]).
Lemma final_stays s s' : final s = true -> rtc edge s s' -> s' = s.
Proof.
  intros Hf H. inversion H as [|? s1 ? H1 _]; [done|]. subst. exfalso. unfold final in Hf. apply bool_decide_eq_true in Hf.
  inversion H1; subst; repeat match goal with H : _ \/ _ |- _ => destruct H end; subst;
    rewrite !elem_of_cons, elem_of_nil in Hf; by repeat destruct Hf as [Hf|Hf].
Qed.

(** ** The statements *)

(** Replacing one row by a later one. *)
Lemma lifecycle_insert id row row' d :
  adb_invites d !! id = Some row -> (ir_IsMirror (iv_rec row) = false -> follows (iv_rec row) (iv_rec row')) ->
  lifecycle d (set_adb_invites (<[id := row']> (adb_invites d)) d).
Proof.
  intros Hr Hf id' r' Hr' Hm. simpl. destruct (decide (id' = id)) as [->|Hne].
  - simplify_eq. exists row'. rewrite lookup_insert_eq. auto.
  - exists r'. by rewrite lookup_insert_ne.
Qed.
Lemma lifecycle_new id row d : adb_invites d !! id = None -> lifecycle d (set_adb_invites (<[id := row]> (adb_invites d)) d).
Proof.
  intros Hn id' r' Hr' Hm. exists r'. simpl. split; [|done]. rewrite lookup_insert_ne; [done|]. intros ->. congruence.
Qed.

Lemma transition_follows from to now p row :
  InviteRequests.movable from row = true -> Forall (fun s => edge s to) from ->
  follows (iv_rec row) (iv_rec (InviteRequests.apply_patch to now p row)).
Proof.
  intros Hm He. unfold InviteRequests.movable in Hm. apply andb_true_iff in Hm as [_ Hs]. apply bool_decide_eq_true in Hs.
  rewrite Forall_forall in He. split; try done; simpl; [case_match; lia|]. by apply rtc_once, He.
Qed.

Lemma TryTransition_lifecycle id from to p :
  (forall s, s ∈ from -> InviteRequests.normalizeInviteRequestStatus s = s) -> InviteRequests.normalizeInviteRequestStatus to = to ->
  Forall (fun s => edge s to) from -> respects lifecycle (InviteRequests.TryTransitionInviteRequest id from to p).
Proof.
  intros Hn Ht He. unfold InviteRequests.TryTransitionInviteRequest. cbv zeta. rewrite Ht. repeat asql_step; try reflexivity.
  unfold respects. repeat case_match; try reflexivity. simpl. eapply lifecycle_insert; [done|]. intros _.
  eapply transition_follows; [done|]. apply Forall_forall. intros s Hs. rewrite Forall_forall in He. apply He.
  apply list_elem_of_In, filter_In in Hs as [Hs _]. apply list_elem_of_In, list_elem_of_fmap in Hs as (s0 & -> & Hs0). by rewrite Hn.
Qed.

Lemma Create_lifecycle rec : respects lifecycle (InviteRequests.CreateGroupInviteRequest rec).
Proof.
  unfold InviteRequests.CreateGroupInviteRequest. repeat first [progress cbv zeta|asql_step]; try reflexivity.
  apply lifecycle_new. match goal with H : _ || _ = false |- _ => apply orb_false_iff in H as [H _] end.
  apply bool_decide_eq_false in H. by destruct (adb_invites _ !! _); [destruct H; eauto|].
Qed.
Lemma Link_lifecycle id op : respects lifecycle (InviteRequests.LinkInviteRequestToAddOperation id op).
Proof.
  unfold InviteRequests.LinkInviteRequestToAddOperation. repeat first [progress cbv zeta|asql_step]; try reflexivity.
  repeat case_match; try reflexivity. simpl. eapply lifecycle_insert; [done|]. by intros _.
Qed.
Lemma sweep_lifecycle cond status failure now d :
  (forall r, cond r = true -> edge (ir_Status r) status) ->
  lifecycle d (InviteRequests.sweep cond (InviteRequests.set_status status failure now) d).1.
Proof.
  intros He id row Hr Hm. simpl. rewrite lookup_fmap, Hr. simpl. eexists. split; [reflexivity|]. rewrite Hm. simpl.
  destruct (cond (iv_rec row)) eqn:Ec; [|reflexivity]. split; try done. simpl. by apply rtc_once, He.
Qed.
Lemma FailStale_lifecycle now s c : respects lifecycle (InviteRequests.FailStaleProcessingInviteRequests now s c).
Proof.
  unfold InviteRequests.FailStaleProcessingInviteRequests. repeat first [progress cbv zeta|asql_step]; try reflexivity.
  apply sweep_lifecycle. intros r [Hs%str_eqb_true _]%andb_true_iff. rewrite Hs. apply edge_finish. set_solver.
Qed.
Lemma FailCorrupt_lifecycle now : respects lifecycle (InviteRequests.FailCorruptProcessingInviteRequests now).
Proof.
  unfold InviteRequests.FailCorruptProcessingInviteRequests. repeat first [progress cbv zeta|asql_step]; try reflexivity.
  apply sweep_lifecycle. intros r [Hs%str_eqb_true _]%andb_true_iff. rewrite Hs. apply edge_finish. set_solver.
Qed.
Lemma Expire_lifecycle now : respects lifecycle (InviteRequests.ExpirePendingInviteRequests now).
Proof.
  unfold InviteRequests.ExpirePendingInviteRequests. repeat first [progress cbv zeta|asql_step]; try reflexivity.
  apply sweep_lifecycle. intros r [Hs%str_eqb_true _]%andb_true_iff. rewrite Hs. apply edge_close. auto.
Qed.

(** ** Methods *)

(** A relation on the tables, whatever happens to the coordinators. *)
Definition rt_on (R : AppDB -> AppDB -> Prop) (s s' : RtState) : Prop := R (rt_app s) (rt_app s').
Definition sv_on (R : AppDB -> AppDB -> Prop) (s s' : Svc) : Prop := R (sv_app s) (sv_app s').
#[export] Instance rt_on_preorder R `{!PreOrder R} : PreOrder (rt_on R).
Proof. split; [by intros s; unfold rt_on|]. intros s1 s2 s3. unfold rt_on. by etrans. Qed.
#[export] Instance sv_on_preorder R `{!PreOrder R} : PreOrder (sv_on R).
Proof. split; [by intros s; unfold sv_on|]. intros s1 s2 s3. unfold sv_on. by etrans. Qed.

Section Lift.
Context {R : AppDB -> AppDB -> Prop} `{!PreOrder R}.
Lemma on_app {A} (m : ASQL A) : respects R m -> respects (rt_on R) (Runtime.app m).
Proof.
  intros H env t s. specialize (H env t (rt_app s)). unfold Runtime.app, rt_on. by destruct (m env t (rt_app s)) as [[r t'] d].
Qed.
Lemma on_effect e : respects (rt_on R) (Runtime.effect e).
Proof. intros env t s. unfold rt_on. simpl. reflexivity. Qed.
Lemma on_db {A} (m : ASQL A) : respects R m -> respects (sv_on R) (Service.db m).
Proof. intros H env t s. specialize (H env t (sv_app s)). unfold Service.db, sv_on. by destruct (m env t (sv_app s)) as [[r t'] d]. Qed.
Lemma on_rt {A} (m : RT A) : respects (rt_on R) m -> respects (sv_on R) (Service.rt m).
Proof.
  intros H env t s. specialize (H env t (mkRtState (sv_app s) (dom (sv_coords s)) (sv_trace s))). unfold Service.rt, sv_on.
  by destruct (m env t _) as [[r t'] s'].
Qed.
Lemma on_out e : respects (sv_on R) (Service.out e).
Proof. intros env t s. unfold sv_on. simpl. reflexivity. Qed.
Lemma on_coordinator g : respects (sv_on R) (Service.coordinator g).
Proof. intros env t s. unfold sv_on. simpl. reflexivity. Qed.
Lemma on_mls se {A} (f : Env -> nat -> result A) : respects (sv_on R) (Service.mls se f).
Proof. intros env t s. unfold sv_on. simpl. reflexivity. Qed.
End Lift.
(** A call of a coordinator, with the handlers it calls. *)
Lemma on_on_coord {PC : PeerCodec} {PJ : PayloadJSON} (R : AppDB -> AppDB -> Prop) `{!PreOrder R} se {A} g oc (m : C A) :
  (forall d c, R d (set_adb_core c d)) -> (forall effects, respects (sv_on R) (Service.run_callbacks se g effects)) ->
  respects (sv_on R) (Service.on_coord se g oc m).
Proof.
  intros Hc Hcb. unfold Service.on_coord. apply respects_bind; [apply _| |intros [a ct]].
  - intros env t s. unfold Service.run_coord, sv_on. destruct (m _ _) as [a w| |]; simpl; [apply Hc|reflexivity..].
  - apply respects_bind; [apply _|intros env t s; unfold sv_on; simpl; reflexivity|]. intros _.
    apply respects_bind; [apply _|apply Hcb|]. intros _ env t s. unfold sv_on. simpl. reflexivity.
Qed.
Ltac on_step :=
  match goal with
  | |- respects _ (Runtime.app _) => apply on_app
  | |- respects _ (Runtime.effect _) => apply on_effect
  | |- respects _ (Service.db _) => apply on_db
  | |- respects _ (Service.rt _) => apply on_rt
  | |- respects _ (Service.out _) => apply on_out
  | |- respects _ (Service.coordinator _) => apply on_coordinator
  | |- respects _ (Service.mls _ _) => apply on_mls
  | _ => asql_step
  end.
(** What inviting a peer does not touch: the requests, the replicated records
    and the identity. *)
Definition beside (d : AppDB) := (adb_invites d, adb_records d, adb_pull_state d, adb_identity d).
Create HintDb noinvites.
Ltac noinvites_auto :=
  repeat first [ progress cbv zeta | solve [eauto 2 with noinvites nocore] | on_step ];
  try done; try (unfold same, Roster.update_member; simpl; repeat case_match; done).

Section NoInvites.
Context {PC : PeerCodec} {ED : Ed25519} {WC : WireCodec} {PJ : PayloadJSON} (se : SvEnv).
Notation quiet m := (respects (sv_on (same beside)) m).
Notation rt_quiet m := (respects (rt_on (same beside)) m).

Lemma transitionAddOperation_quiet id st f : respects (same beside) (AddOperations.transitionAddOperation id st f).
Proof. unfold AddOperations.transitionAddOperation, AddOperations.GetGroupAddOperation. noinvites_auto. Qed.
Lemma CreateGroupAddOperation_quiet rec : respects (same beside) (AddOperations.CreateGroupAddOperation rec).
Proof. unfold AddOperations.CreateGroupAddOperation, AddOperations.GetGroupAddOperation. noinvites_auto. Qed.
Lemma SaveStoredKeyPackage_quiet p kp src : respects (same beside) (InviteStore.SaveStoredKeyPackage p kp src).
Proof. unfold InviteStore.SaveStoredKeyPackage. noinvites_auto. Qed.
Lemma SaveStoredWelcome_quiet i g ty c w src e h : respects (same beside) (InviteStore.SaveStoredWelcome i g ty c w src e h).
Proof. unfold InviteStore.SaveStoredWelcome. noinvites_auto. Qed.
Lemma SavePendingWelcome_quiet p g w e h : respects (same beside) (InviteStore.SavePendingWelcome p g w e h).
Proof. unfold InviteStore.SavePendingWelcome. noinvites_auto. Qed.
Lemma GetGroupRecord_quiet g : respects (same beside) (core (Store.GetGroupRecord g)).
Proof. apply respects_readonly; [apply _|apply readonly_GetGroupRecord]. Qed.
Lemma UpsertGroupMember_quiet rec : respects (same beside) (Roster.UpsertGroupMember rec).
Proof. unfold Roster.UpsertGroupMember, Roster.upsert_member. noinvites_auto. Qed.
Hint Resolve transitionAddOperation_quiet CreateGroupAddOperation_quiet SaveStoredKeyPackage_quiet SaveStoredWelcome_quiet
  SavePendingWelcome_quiet GetGroupRecord_quiet UpsertGroupMember_quiet : noinvites.

Lemma identity_quiet : rt_quiet Runtime.GetMLSIdentity.
Proof. unfold Runtime.GetMLSIdentity, Identity.GetMLSIdentity. noinvites_auto. Qed.
Hint Resolve identity_quiet : noinvites.
Lemma onboarding_quiet : rt_quiet (Runtime.GetOnboardingInfo (se_rt se)).
Proof. unfold Runtime.GetOnboardingInfo. noinvites_auto. Qed.
Hint Resolve onboarding_quiet : noinvites.
Lemma localPeerID_quiet : rt_quiet (Runtime.localPeerID (se_rt se)).
Proof.
  unfold Runtime.localPeerID. noinvites_auto.
Qed.
Hint Resolve localPeerID_quiet : noinvites.
Lemma request_session_quiet : rt_quiet (Runtime.ensureSessionActive (se_rt se)).
Proof.
  unfold Runtime.ensureSessionActive, Runtime.GetSessionStatus, Runtime.readInt64Config, Identity.GetConfig. noinvites_auto.
Qed.
Lemma localGroupMember_quiet g : rt_quiet (Runtime.localGroupMember (se_rt se) g).
Proof. unfold Runtime.localGroupMember, Runtime.with_db, Runtime.not_initialized, Roster.GetGroupMember. noinvites_auto. Qed.
Hint Resolve request_session_quiet localGroupMember_quiet : noinvites.
Lemma permission_quiet g perm : rt_quiet (Runtime.requireGroupPermission (se_rt se) g perm).
Proof. unfold Runtime.requireGroupPermission. noinvites_auto. Qed.
Lemma append_quiet g ty a t e : rt_quiet (Runtime.appendGroupEvent g ty a t e).
Proof. unfold Runtime.appendGroupEvent. noinvites_auto. Qed.
Lemma notification_quiet ty g a t c : rt_quiet (Notifications.insertNotification (se_rt se) ty g a t c).
Proof. unfold Notifications.insertNotification, NotificationStore.InsertNotification, Roster.GetPeerDisplayName. noinvites_auto. Qed.
Lemma upsertGroupMember_quiet g p role src : rt_quiet (Membership.upsertGroupMember (se_rt se) g p role src).
Proof.
  unfold Membership.upsertGroupMember, Membership.checked_ids, Membership.resolveDisplayNameForPeer, Runtime.with_db,
    Runtime.not_initialized, Roster.SavePeerProfile, Roster.GetPeerDisplayName. noinvites_auto.
Qed.
Hint Resolve permission_quiet append_quiet notification_quiet upsertGroupMember_quiet : noinvites.

(** The handlers that a coordinator calls. *)
Lemma resolveDisplayName_quiet p : rt_quiet (Membership.resolveDisplayNameForPeer (se_rt se) p).
Proof.
  unfold Membership.resolveDisplayNameForPeer, Roster.SavePeerProfile, Roster.GetPeerDisplayName. noinvites_auto.
Qed.
Lemma resolveRole_quiet g p : rt_quiet (Membership.resolveGroupMemberRole (se_rt se) g p).
Proof.
  unfold Membership.resolveGroupMemberRole, Roster.GetGroupCreatorPeerID, Replicated.GetReplicatedRecord. noinvites_auto.
Qed.
Lemma MarkGroupMemberLeft_quiet g p at_ : respects (same beside) (Roster.MarkGroupMemberLeft g p at_).
Proof. unfold Roster.MarkGroupMemberLeft. noinvites_auto. Qed.
Hint Resolve resolveDisplayName_quiet resolveRole_quiet MarkGroupMemberLeft_quiet : noinvites.
Lemma evidence_quiet g p src b : rt_quiet (Membership.upsertGroupMemberFromRosterEvidence (se_rt se) g p src b).
Proof.
  unfold Membership.upsertGroupMemberFromRosterEvidence, Membership.checked_ids, Runtime.with_db, Runtime.not_initialized,
    Roster.GetGroupMember, Roster.UpsertGroupMemberPreservingRole, Roster.upsert_member. noinvites_auto.
Qed.
Hint Resolve evidence_quiet : noinvites.
Lemma mark_absent_quiet g peers rows : forall changed, rt_quiet (Membership.mark_absent g peers rows changed).
Proof. induction rows as [|row rows IH]; intros changed; simpl; noinvites_auto. Qed.
Lemma reconcile_leaf_quiet g dm lp l id acc : rt_quiet (Membership.reconcile_leaf (se_rt se) g dm lp l id acc).
Proof.
  unfold Membership.reconcile_leaf, Membership.roster_differs, Membership.leaf_peer, Membership.dm_counterparty,
    Membership.upsertGroupMemberFromMLSReconcile, Roster.GetGroupMember, Roster.GetPeerIDByPublicKeyHex,
    Roster.GetGroupCreatorPeerID, Roster.ListGroupMembers, Roster.UpsertPeerProfileWithKey. noinvites_auto.
Qed.
Hint Resolve mark_absent_quiet reconcile_leaf_quiet : noinvites.
Lemma reconcile_leaves_quiet g dm lp l ids : forall acc, rt_quiet (Membership.reconcile_leaves (se_rt se) g dm lp l ids acc).
Proof. induction ids as [|id ids IH]; intros acc; simpl; noinvites_auto. Qed.
Hint Resolve reconcile_leaves_quiet : noinvites.
Lemma reconcile_quiet g : rt_quiet (Membership.reconcileGroupRosterWithMLS (se_rt se) g).
Proof. unfold Membership.reconcileGroupRosterWithMLS, Roster.ListGroupMembers. noinvites_auto. Qed.
Hint Resolve reconcile_quiet : noinvites.
Lemma epoch_handler_quiet g e : quiet (Service.makeEpochHandler se g e).
Proof. unfold Service.makeEpochHandler, Service.members_changed, Service.emit, Service.go. noinvites_auto. Qed.
Lemma message_handler_quiet g msg : quiet (Service.makeMessageHandler se g msg).
Proof.
  unfold Service.makeMessageHandler, Service.members_changed, Service.emit, Membership.upsertGroupMemberFromRosterSync,
    Notifications.processNotificationsForMessage, NotificationStore.GetMessageSender. noinvites_auto.
Qed.
Hint Resolve epoch_handler_quiet message_handler_quiet : noinvites.
Lemma callbacks_quiet g effects : quiet (Service.run_callbacks se g effects).
Proof. induction effects as [|[] effects IH]; simpl; noinvites_auto. Qed.
Lemma on_coord_quiet {A} g oc (m : C A) : quiet (Service.on_coord se g oc m).
Proof. apply (on_on_coord (same beside)); [by intros []|]. apply callbacks_quiet. Qed.
Hint Resolve on_coord_quiet : noinvites.

Lemma fetch_kp_quiet ps target : quiet (Invites.fetch_kp se ps target).
Proof. induction ps as [|p ps IH]; simpl; noinvites_auto. Qed.
Hint Resolve fetch_kp_quiet : noinvites.
Lemma fetchPeerKeyPackage_quiet target : quiet (Invites.fetchPeerKeyPackage se target).
Proof. unfold Invites.fetchPeerKeyPackage, InviteStore.GetStoredKeyPackage. noinvites_auto. Qed.
Lemma welcome_source_quiet local g : quiet (Service.welcome_source se local g).
Proof. unfold Service.welcome_source, Roster.GetGroupCreatorPeerID. noinvites_auto. Qed.
Hint Resolve fetchPeerKeyPackage_quiet welcome_source_quiet : noinvites.

Lemma push_welcome_quiet local to i g ty c w e h : quiet (Service.push_welcome se local to i g ty c w e h).
Proof. induction to as [|p to IH]; simpl; [noinvites_auto|]. unfold Service.pushWelcomeStoreRecord at 1. noinvites_auto. Qed.
Hint Resolve push_welcome_quiet : noinvites.
Lemma replicateWelcome_quiet i g ty c w e h : quiet (Service.replicateWelcomeToStorePeers se i g ty c w e h).
Proof. unfold Service.replicateWelcomeToStorePeers, Service.go. noinvites_auto. Qed.
Hint Resolve replicateWelcome_quiet : noinvites.
Lemma dispatch_quiet g dl w e h : quiet (Service.dispatchTokenHolderWelcome se g dl w e h).
Proof. unfold Service.dispatchTokenHolderWelcome, Service.go, AddOperations.MarkAddWelcomeQueued. noinvites_auto. Qed.
Lemma resend_quiet p g ty c : quiet (Invites.resendPendingWelcome se p g ty c).
Proof.
  unfold Invites.resendPendingWelcome, Service.go, InviteStore.GetPendingWelcomesFor, InviteStore.GetAnyPendingWelcomeForGroup.
  noinvites_auto.
Qed.
Hint Resolve dispatch_quiet resend_quiet : noinvites.
Lemma invited_quiet g ty c p op r : quiet (Invites.invited se g ty c p op r).
Proof.
  unfold Invites.invited, Service.members_changed, Service.emit, AddOperations.MarkAddOperationFailed,
    AddOperations.MarkAddProposalBroadcast. noinvites_auto.
Qed.
Hint Resolve invited_quiet : noinvites.
Lemma InvitePeerToGroup_quiet fuel p g : quiet (Invites.InvitePeerToGroup se fuel p g).
Proof. unfold Invites.InvitePeerToGroup, Invites.group_kind, Invites.dm_check, Roster.ListGroupMembers. noinvites_auto. Qed.
End NoInvites.

(** ** Any sequence of calls *)

(** What every call of an authority does to the table of requests. *)
Definition sound (d d' : AppDB) : Prop := lifecycle d d' /\ keeps InviteRequests.invites_ok d d'.
#[export] Instance sound_preorder : PreOrder sound.
Proof.
  split; [intros d; split; [reflexivity|by intros ?]|]. intros d1 d2 d3 [L1 K1] [L2 K2]. split; [by etrans|]. intros H. auto.
Qed.
Lemma same_sound d d' : same beside d d' -> sound d d'.
Proof.
  unfold same, beside. intros [= H _ _ _]. split; [intros id row Hr Hm; exists row; by rewrite H|]. unfold keeps, InviteRequests.invites_ok.
  by rewrite H.
Qed.
Lemma respects_both {D A} (R1 R2 : D -> D -> Prop) (m : SQLs D A) :
  respects R1 m -> respects R2 m -> respects (fun d d' => R1 d d' /\ R2 d d') m.
Proof. intros H1 H2 env t d. split; [apply H1|apply H2]. Qed.

Section Calls.
Context {PC : PeerCodec} {ED : Ed25519} {WC : WireCodec} {PJ : PayloadJSON} (se : SvEnv) (fuel : nat).

(** The moves that the service makes. *)
Inductive move : list string -> string -> Prop :=
| move_start : move [InviteRequests.StatusPending; InviteRequests.StatusFailed] InviteRequests.StatusProcessing
| move_settle s : s ∈ [InviteRequests.StatusApproved; InviteRequests.StatusFailed; InviteRequests.StatusPermanentlyFailed] ->
    move [InviteRequests.StatusProcessing] s
| move_reject : move [InviteRequests.StatusPending] InviteRequests.StatusRejected.
Lemma move_known from to : move from to ->
  Forall (fun s => InviteRequests.normalizeInviteRequestStatus s = s /\ edge s to) from /\
  InviteRequests.normalizeInviteRequestStatus to = to.
Proof.
  intros [|s Hs|]; (split; [repeat (apply Forall_cons; split; [split; [done|]|]); [..|apply Forall_nil; done]|]).
  all: try (apply edge_start; auto). all: try by apply edge_finish. all: try (apply edge_close; auto). all: try done.
  revert Hs. rewrite !elem_of_cons, elem_of_nil. by intros [->|[->|[->|[]]]].
Qed.
(** A call is made of statements that do not touch the requests and of the
    moves above. *)
Lemma reads_request_quiet id : respects (same beside) (InviteRequests.GetGroupInviteRequest id).
Proof. unfold InviteRequests.GetGroupInviteRequest. noinvites_auto. Qed.
Hint Resolve reads_request_quiet permission_quiet localPeerID_quiet request_session_quiet append_quiet notification_quiet
  SaveStoredKeyPackage_quiet InvitePeerToGroup_quiet : noinvites.
Lemma load_request_quiet id : respects (sv_on (same beside)) (InviteFlow.load_request id).
Proof. unfold InviteFlow.load_request, InviteFlow.fail_code. noinvites_auto. Qed.
Lemma manages_quiet g : respects (sv_on (same beside)) (InviteFlow.manages se g).
Proof. unfold InviteFlow.manages. noinvites_auto. Qed.
Lemma already_quiet g t : respects (sv_on (same beside)) (InviteFlow.isTargetAlreadyMember se g t).
Proof. unfold InviteFlow.isTargetAlreadyMember, Roster.ListGroupMembers. noinvites_auto. Qed.
Hint Resolve load_request_quiet manages_quiet already_quiet : noinvites.
Lemma push_quiet rec : respects (sv_on (same beside)) (InviteFlow.maybePushInviteUpdate se rec).
Proof.
  unfold InviteFlow.maybePushInviteUpdate, InviteFlow.local_peer, InviteFlow.pushInviteRequestToRequester. noinvites_auto.
Qed.
Hint Resolve push_quiet : noinvites.
Lemma deferred_quiet id : respects (sv_on (same beside)) (InviteFlow.process_deferred se id).
Proof. unfold InviteFlow.process_deferred. noinvites_auto. Qed.
Lemma manager_quiet id : respects (sv_on (same beside)) (InviteFlow.requireInviteManagerForRequest se id).
Proof.
  unfold InviteFlow.requireInviteManagerForRequest, InviteFlow.with_db, InviteFlow.not_initialized, InviteFlow.fail_code. noinvites_auto.
Qed.
Hint Resolve deferred_quiet manager_quiet : noinvites.

Lemma ListAddOps_quiet g t : respects (same beside) (AddOperations.ListGroupAddOperationsForTarget g t).
Proof. unfold AddOperations.ListGroupAddOperationsForTarget. noinvites_auto. Qed.
Lemma SetPolicy_quiet g p : respects (same beside) (Roster.SetGroupInvitePolicy g p).
Proof.
  unfold Roster.SetGroupInvitePolicy, Roster.current_timestamp, Roster.of_result. noinvites_auto.
  unfold same, Roster.update_group. by case_match.
Qed.
Lemma GetPolicy_quiet g : respects (same beside) (Roster.GetGroupInvitePolicy g).
Proof. unfold Roster.GetGroupInvitePolicy, Roster.of_result. noinvites_auto. Qed.
Lemma ListByStatus_quiet g sts asc l : respects (same beside) (InviteRequests.ListInviteRequestsByStatusesForGroup g sts asc l).
Proof. unfold InviteRequests.ListInviteRequestsByStatusesForGroup. noinvites_auto. Qed.
Lemma ListMembers_quiet g sts : respects (same beside) (Roster.ListGroupMembers g sts).
Proof. unfold Roster.ListGroupMembers. noinvites_auto. Qed.
Hint Resolve ListAddOps_quiet SetPolicy_quiet GetPolicy_quiet ListByStatus_quiet ListMembers_quiet : noinvites.

(** A relation that the statements on the request [key] keep, and all that do
    not touch requests: the calls about that request keep it too. *)
Section Request.
Context (R : AppDB -> AppDB -> Prop) `{!PreOrder R} (key : string).
Context (Hsame : forall d d', same beside d d' -> R d d').
Context (Hmove : forall id from to p, TrimSpace id = key -> move from to ->
  respects R (InviteRequests.TryTransitionInviteRequest id from to p)).
Context (Hlink : forall id op, TrimSpace id = key -> respects R (InviteRequests.LinkInviteRequestToAddOperation id op)).
Notation sane m := (respects (sv_on R) m).

Lemma quiet_sane {A} (m : SV A) : respects (sv_on (same beside)) m -> sane m.
Proof. apply respects_weaken. intros s s'. apply Hsame. Qed.
Lemma statement_sane {A} (m : ASQL A) : respects (same beside) m -> respects R m.
Proof. apply respects_weaken, Hsame. Qed.
Lemma transition_sane id from to p : TrimSpace id = key -> move from to -> sane (InviteFlow.transition id from to p).
Proof. intros. by apply on_db, Hmove. Qed.
Lemma settle_sane id to p : TrimSpace id = key ->
  to ∈ [InviteRequests.StatusApproved; InviteRequests.StatusFailed; InviteRequests.StatusPermanentlyFailed] ->
  sane (InviteFlow.settle id to p).
Proof. intros Hk H. apply respects_ignore, transition_sane; [done|by constructor]. Qed.

Ltac quiet_call := apply quiet_sane; solve [eauto 2 with noinvites nocore | noinvites_auto].
Ltac sane_step :=
  match goal with
  | |- respects _ (Service.rt _) => quiet_call
  | |- respects _ (Invites.InvitePeerToGroup _ _ _ _) => quiet_call
  | |- respects _ (InviteFlow.load_request _) => quiet_call
  | |- respects _ (InviteFlow.manages _ _) => quiet_call
  | |- respects _ (InviteFlow.isTargetAlreadyMember _ _ _) => quiet_call
  | |- respects _ (InviteFlow.maybePushInviteUpdate _ _) => quiet_call
  | |- respects _ (InviteFlow.process_deferred _ _) => quiet_call
  | |- respects _ (InviteFlow.requireInviteManagerForRequest _ _) => quiet_call
  | |- respects _ (InviteFlow.settle _ _ _) => apply settle_sane; [done|by repeat constructor]
  | |- respects _ (InviteFlow.transition _ _ _ _) => apply transition_sane; [done|constructor; by repeat constructor]
  | |- respects _ (InviteRequests.LinkInviteRequestToAddOperation _ _) => by apply Hlink
  | |- respects R _ => apply statement_sane; solve [eauto 2 with noinvites nocore | noinvites_auto]
  | _ => first [progress cbv zeta | on_step]
  end.
Lemma process_locked_sane id : TrimSpace id = key -> sane (InviteFlow.process_locked se fuel id).
Proof. intros Hk. unfold InviteFlow.process_locked. repeat sane_step. Qed.
Lemma process_sane id b : TrimSpace id = key -> sane (InviteFlow.processInviteRequest se fuel id b).
Proof.
  intros Hk. assert (Hk' : TrimSpace (TrimSpace id) = key) by (by rewrite TrimSpace_idemp).
  unfold InviteFlow.processInviteRequest, InviteFlow.process_body, InviteFlow.with_db, InviteFlow.not_initialized, InviteFlow.fail_code.
  repeat match goal with |- respects _ (InviteFlow.process_locked _ _ _) => by apply process_locked_sane | _ => sane_step end.
Qed.
Ltac process_step :=
  match goal with |- respects _ (InviteFlow.processInviteRequest _ _ _ _) => by apply process_sane | _ => sane_step end.
Lemma approve_sane id : TrimSpace id = key -> sane (InviteFlow.ApproveGroupInviteRequest se fuel id).
Proof.
  intros Hk. unfold InviteFlow.ApproveGroupInviteRequest, InviteFlow.with_db, InviteFlow.not_initialized, InviteFlow.event.
  repeat process_step.
Qed.
Lemma retry_sane id : TrimSpace id = key -> sane (InviteFlow.RetryGroupInviteRequest se fuel id).
Proof.
  intros Hk. unfold InviteFlow.RetryGroupInviteRequest, InviteFlow.with_db, InviteFlow.not_initialized. repeat process_step.
Qed.
Lemma reject_checked_sane id reason rec : TrimSpace id = key -> sane (InviteFlow.reject_checked se id reason rec).
Proof.
  intros Hk. unfold InviteFlow.reject_checked, InviteFlow.with_db, InviteFlow.not_initialized, InviteFlow.fail_code,
    InviteFlow.event, Service.emit. repeat sane_step.
Qed.
Lemma reject_sane id reason : TrimSpace id = key -> sane (InviteFlow.RejectGroupInviteRequest se id reason).
Proof.
  intros Hk. unfold InviteFlow.RejectGroupInviteRequest. apply respects_bind; [apply _|sane_step|]. intros rec.
  by apply reject_checked_sane.
Qed.
End Request.

(** ** The life cycle, for every request *)

Notation sane m := (respects (sv_on sound) m).
Lemma move_sound (id : string) from to p : move from to -> respects sound (InviteRequests.TryTransitionInviteRequest id from to p).
Proof.
  intros [Hf Ht]%move_known. apply respects_both; [|apply InviteRequests.TryTransition_ok].
  rewrite Forall_forall in Hf. apply TryTransition_lifecycle; [by apply Hf|done|]. apply Forall_forall. intros s Hs. by apply Hf.
Qed.
Lemma Link_sound id op : respects sound (InviteRequests.LinkInviteRequestToAddOperation id op).
Proof. apply respects_both; [apply Link_lifecycle|apply InviteRequests.Link_ok]. Qed.
Lemma Create_sound rec : respects sound (InviteRequests.CreateGroupInviteRequest rec).
Proof. apply respects_both; [apply Create_lifecycle|apply InviteRequests.CreateGroupInviteRequest_ok]. Qed.
Lemma process_sound id b : sane (InviteFlow.processInviteRequest se fuel id b).
Proof.
  apply (process_sane sound (TrimSpace id)); [apply same_sound|intros; by apply move_sound|intros; apply Link_sound|done].
Qed.
Lemma statement_sound {A} (m : ASQL A) : respects (same beside) m -> respects sound m.
Proof. apply statement_sane, same_sound. Qed.

Ltac quiet_call := apply (quiet_sane sound same_sound); solve [eauto 2 with noinvites nocore | noinvites_auto].
Ltac process_step :=
  match goal with
  | |- respects _ (InviteFlow.processInviteRequest _ _ _ _) => apply process_sound
  | |- respects _ (Service.rt _) => quiet_call
  | |- respects _ (InviteFlow.manages _ _) => quiet_call
  | |- respects _ (InviteFlow.isTargetAlreadyMember _ _ _) => quiet_call
  | |- respects sound (InviteRequests.CreateGroupInviteRequest _) => apply Create_sound
  | |- respects sound _ => apply statement_sound; solve [eauto 2 with noinvites nocore | noinvites_auto]
  | _ => first [progress cbv zeta | on_step]
  end.
Lemma sweep_sound old : sane (InviteFlow.runInviteMaintenanceSweep se old).
Proof.
  unfold InviteFlow.runInviteMaintenanceSweep. repeat process_step.
  - apply respects_both; [apply FailCorrupt_lifecycle|apply InviteRequests.FailCorrupt_ok].
  - apply respects_both; [apply FailStale_lifecycle|apply InviteRequests.FailStale_ok].
  - apply respects_both; [apply Expire_lifecycle|apply InviteRequests.Expire_ok].
  - apply statement_sound. unfold InviteRequests.CleanupAppliedWelcomes. noinvites_auto.
  - apply statement_sound. unfold NotificationStore.DeleteOldNotifications. noinvites_auto.
Qed.
Lemma queue_sound g total queue : forall p a, sane (InviteFlow.process_queue se fuel g total queue p a).
Proof.
  induction queue as [|item queue IH]; intros p a; simpl; unfold Service.emit; repeat match goal with |- respects _ (InviteFlow.process_queue _ _ _ _ _ _ _) => apply IH | _ => process_step end.
Qed.
Lemma policy_sound g p : sane (InviteFlow.SetGroupInvitePolicy se fuel g p).
Proof.
  unfold InviteFlow.SetGroupInvitePolicy, InviteFlow.processPolicySwitchAnyMember, InviteFlow.with_db, InviteFlow.not_initialized,
    InviteFlow.no_such_group, InviteFlow.fail_code, Service.emit, Service.go.
  repeat match goal with |- respects _ (InviteFlow.process_queue _ _ _ _ _ _ _) => apply queue_sound | _ => process_step end.
Qed.
Lemma submit_sound rnd remote req : sane (InviteFlow.rpcSubmitInviteRequest se fuel rnd remote req).
Proof.
  unfold InviteFlow.rpcSubmitInviteRequest, InviteFlow.submit_request, InviteFlow.load_policy, InviteFlow.with_db, InviteFlow.not_initialized,
    InviteFlow.no_such_group, InviteFlow.fail_code, InviteFlow.request_changed, InviteFlow.event, Service.emit.
  repeat process_step.
Qed.
Lemma sync_sound remote req : sane (InviteFlow.rpcSyncInviteRequest se remote req).
Proof.
  unfold InviteFlow.rpcSyncInviteRequest, InviteFlow.with_db, InviteFlow.not_initialized, InviteFlow.load_request, InviteFlow.fail_code.
  repeat process_step.
Qed.

(** The calls of an authority's node that touch its requests: by its user, by
    the peers that submit and ask, and by the clock. *)
Inductive RequestOp :=
| OApprove (id : string) | ORetry (id : string) | OReject (id reason : string) | OPolicy (groupID policy : string)
| OSweep (old : Notification -> bool)
| OSubmit (rnd : option bytes) (remote : peerID) (req : GroupInviteWireClientReqV1)
| OSync (remote : peerID) (req : GroupInviteWireClientReqV1).
Definition request_op (op : RequestOp) : SV unit :=
  match op with
  | OApprove id => sql_ignore (InviteFlow.ApproveGroupInviteRequest se fuel id)
  | ORetry id => sql_ignore (InviteFlow.RetryGroupInviteRequest se fuel id)
  | OReject id reason => sql_ignore (InviteFlow.RejectGroupInviteRequest se id reason)
  | OPolicy g p => sql_ignore (InviteFlow.SetGroupInvitePolicy se fuel g p)
  | OSweep old => InviteFlow.runInviteMaintenanceSweep se old
  | OSubmit rnd remote req => sql_ignore (InviteFlow.rpcSubmitInviteRequest se fuel rnd remote req)
  | OSync remote req => sql_ignore (InviteFlow.rpcSyncInviteRequest se remote req)
  end.
Fixpoint request_ops (ops : list RequestOp) : SV unit :=
  match ops with
  | [] => sql_ret tt
  | op :: ops => sql_ignore (request_op op) ;;! request_ops ops
  end.

Lemma request_op_sound op : sane (request_op op).
Proof.
  destruct op as [id|id|id reason|g p|old|rnd remote req|remote req]; simpl; try apply respects_ignore.
  - apply (approve_sane sound (TrimSpace id)); [apply same_sound|intros; by apply move_sound|intros; apply Link_sound|done].
  - apply (retry_sane sound (TrimSpace id)); [apply same_sound|intros; by apply move_sound|intros; apply Link_sound|done].
  - apply (reject_sane sound (TrimSpace id)); [apply same_sound|intros; by apply move_sound|done].
  - apply policy_sound.
  - apply sweep_sound.
  - apply submit_sound.
  - apply sync_sound.
Qed.
Lemma request_ops_sound ops : sane (request_ops ops).
Proof. induction ops as [|op ops IH]; simpl; repeat on_step; [apply request_op_sound|apply IH]. Qed.

(** C16: Requests follow their life cycle.  Whatever an authority's user, the peers
    that submit and ask and the maintenance sweep do, in any order, and whatever
    statement fails (mirrors pushed by another admin apart): a request of
    the node is never lost; its group, requester, target and limits stay and
    its attempts only grow; its status moves from pending over processing to
    approved, failed or permanently failed, from failed back to processing, or
    from pending to rejected or expired; what is decided stays decided; and no
    two open requests are for the same group and target. *)
Theorem requests_follow_lifecycle ops env t s r t' s' :
  InviteRequests.invites_ok (sv_app s) -> request_ops ops env t s = (r, t', s') ->
  InviteRequests.invites_ok (sv_app s') /\
  forall id row, adb_invites (sv_app s) !! id = Some row -> ir_IsMirror (iv_rec row) = false ->
    exists row', adb_invites (sv_app s') !! id = Some row' /\ follows (iv_rec row) (iv_rec row') /\
      (final (ir_Status (iv_rec row)) = true -> ir_Status (iv_rec row') = ir_Status (iv_rec row)).
Proof.
  intros Hok E. pose proof (request_ops_sound ops env t s) as H. rewrite E in H. destruct H as [HL HK]. split; [by apply HK|].
  intros id row Hr Hm. destruct (HL id row Hr Hm) as (row' & Hr' & F). exists row'. split; [done|]. split; [done|].
  intros Hf. by apply final_stays; [|apply F].
Qed.

(** ** Who decides *)

Definition only_row (key : string) (d d' : AppDB) : Prop :=
  forall id, id <> key -> adb_invites d' !! id = adb_invites d !! id.
#[export] Instance only_row_preorder key : PreOrder (only_row key).
Proof. split; [done|]. intros d1 d2 d3 H1 H2 id Hid. by rewrite H2, H1. Qed.
Lemma beside_invites d d' : same beside d d' -> same adb_invites d d'.
Proof. by intros [= H _ _ _]. Qed.
Lemma same_only_row key d d' : same beside d d' -> only_row key d d'.
Proof. intros H%beside_invites. unfold same, only_row in *. by rewrite H. Qed.
Lemma insert_only_row key row d : only_row key d (set_adb_invites (<[key := row]> (adb_invites d)) d).
Proof. intros id Hid. simpl. by rewrite lookup_insert_ne. Qed.
Lemma move_only_row id from to p : respects (only_row (TrimSpace id)) (InviteRequests.TryTransitionInviteRequest id from to p).
Proof.
  unfold InviteRequests.TryTransitionInviteRequest. repeat first [progress cbv zeta|asql_step]; try done.
  repeat case_match; try done. apply insert_only_row.
Qed.
Lemma link_only_row id op : respects (only_row (TrimSpace id)) (InviteRequests.LinkInviteRequestToAddOperation id op).
Proof.
  unfold InviteRequests.LinkInviteRequestToAddOperation. repeat first [progress cbv zeta|asql_step]; try done.
  repeat case_match; try done. apply insert_only_row.
Qed.

Lemma swp_rt {A} (m : RT A) Q s :
  swp m (fun r s' => Q r (mkSvc (rt_app s') (filter (fun kv => kv.1 ∈ rt_coords s') (sv_coords s)) (sv_hlc s) (rt_trace s')))
    (mkRtState (sv_app s) (dom (sv_coords s)) (sv_trace s)) -> swp (Service.rt m) Q s.
Proof.
  intros H env t. specialize (H env t). unfold Service.rt. by destruct (m env t _) as [[r t'] s'].
Qed.

(** The check that starts every decision. *)
Lemma swp_manager id Q s :
  Roster.members_ok (sv_app s) -> (forall e, Q (inr e) s) ->
  (forall row l me, adb_invites (sv_app s) !! TrimSpace id = Some row -> ir_IsMirror (iv_rec row) = false ->
     allowed (se_rt se) Runtime.permissionManageInvites (ir_GroupID (iv_rec row)) l (sv_app s) me -> Q (inl (iv_rec row)) s) ->
  swp (InviteFlow.requireInviteManagerForRequest se id) Q s.
Proof.
  destruct s as [d cs h tr]. intros Hd He H. unfold InviteFlow.requireInviteManagerForRequest, InviteFlow.with_db,
    InviteFlow.not_initialized, InviteFlow.fail_code, InviteFlow.load_request. cbv zeta.
  destruct (str_eqb (TrimSpace id) "") eqn:En; [apply swp_throw, He|]. destruct (re_db (se_rt se)); [|apply swp_throw, He].
  apply swp_bind, swp_bind, swp_try, swp_db. unfold InviteRequests.GetGroupInviteRequest. cbv zeta. rewrite TrimSpace_idemp, En.
  swp_step; simpl; [|repeat case_match; apply swp_throw, He..].
  apply swp_ret. match goal with E : _ <$> adb_invites _ !! _ = Some _ |- _ => apply fmap_Some in E as (row & Hrow & ->) end.
  destruct (ir_IsMirror (iv_rec row)) eqn:Hm; [apply swp_throw, He|]. apply swp_bind. unfold InviteFlow.manages.
  apply swp_rt, swp_permission; [done| |].
  - intros e. simpl. rewrite filter_running. apply He.
  - intros me l Ha. simpl. rewrite filter_running. apply swp_ret. by eapply H.
Qed.

(** A decision of the user: nothing happens to any request, or the request is
    of this node, the local peer is an active admin of its group, and no other
    request is touched. *)
Definition by_an_admin (id : string) (s s' : Svc) : Prop :=
  same adb_invites (sv_app s) (sv_app s') \/
  exists row l me, adb_invites (sv_app s) !! TrimSpace id = Some row /\ ir_IsMirror (iv_rec row) = false /\
    allowed (se_rt se) Runtime.permissionManageInvites (ir_GroupID (iv_rec row)) l (sv_app s) me /\
    only_row (TrimSpace id) (sv_app s) (sv_app s').

(** What follows the check, of a call that touches only the request. *)
Lemma swp_decides {A} id (k : GroupInviteRequestRecord -> SV A) s s0 :
  same adb_invites (sv_app s0) (sv_app s) -> same adb_members (sv_app s0) (sv_app s) -> Roster.members_ok (sv_app s0) ->
  (forall rec, respects (sv_on (only_row (TrimSpace id))) (k rec)) ->
  swp (sql_bind (InviteFlow.requireInviteManagerForRequest se id) k) (fun _ s' => by_an_admin id s0 s') s.
Proof.
  intros Hi Hm Hok Hk. apply swp_bind, swp_manager; [|intros e; by left|].
  - unfold Roster.members_ok in *. unfold same in Hm. by rewrite Hm.
  - intros row l me Hrow Hmir Ha. unfold same in Hi, Hm. eapply swp_respects; [apply Hk|]. intros r s' H'. right.
    exists row, l, me. rewrite <- Hi. split; [done|]. split; [done|]. split; [|intros id' Hid'; rewrite <- Hi; by apply H'].
    unfold allowed in *. by rewrite <- Hm.
Qed.

Lemma session_keeps_members : respects (rt_on (same adb_members)) (Runtime.ensureSessionActive (se_rt se)).
Proof.
  unfold Runtime.ensureSessionActive, Runtime.GetSessionStatus, Runtime.readInt64Config, Identity.GetConfig. noinvites_auto.
Qed.

Lemma request_decided op id s :
  Roster.members_ok (sv_app s) -> op ∈ [OApprove id; ORetry id] \/ (exists reason, op = OReject id reason) ->
  swp (request_op op) (fun _ s' => by_an_admin id s s') s.
Proof.
  intros Hok Hop. assert (Hd : forall A (k : SV A), respects (sv_on (same beside)) k ->
    respects (sv_on (only_row (TrimSpace id))) (InviteFlow.processInviteRequest se fuel id false ;;! k)).
  { intros A k Hk. apply respects_bind; [apply _| |intros _].
    - apply (process_sane (only_row (TrimSpace id)) (TrimSpace id)); [apply same_only_row| | |done]; intros * <-; intros;
        [apply move_only_row|apply link_only_row].
    - apply (quiet_sane (only_row (TrimSpace id))); [apply same_only_row|done]. }
  rewrite !elem_of_cons, elem_of_nil in Hop. destruct Hop as [[->|[->|[]]]|[reason ->]]; simpl; apply swp_ignore.
  - unfold InviteFlow.ApproveGroupInviteRequest. apply swp_bind.
    eapply swp_respects; [exact (respects_both _ _ _ (on_rt _ (request_session_quiet se)) (on_rt _ session_keeps_members))|].
    intros [[]|e] s1 [H1%beside_invites H2]; [|by left]. apply (swp_decides id); [done..|]. intros rec. apply Hd.
    unfold InviteFlow.with_db, InviteFlow.not_initialized, InviteFlow.event. noinvites_auto.
  - apply (swp_decides id); [done..|]. intros rec. apply Hd.
    unfold InviteFlow.with_db, InviteFlow.not_initialized. noinvites_auto.
  - apply (swp_decides id); [done..|]. intros rec.
    apply (reject_checked_sane (only_row (TrimSpace id)) (TrimSpace id)); [apply same_only_row| |done].
    intros * <-; intros. apply move_only_row.
Qed.

End Calls.
