(* ===== verification/InvitesDemo.v ===== *)
(** * Invitations at concrete inputs

    A Welcome that is delivered and one that is accepted; frames that are
    written and read; and what an anchor of another Welcome, a rejected
    invitation and a group that was left do.  The node as an admin of the group
    it has joined: a member asks it to add a peer, it approves, and it rejects
    another request. *)
From S2P Require Import Prelude GoStrings Sha256 Types Config Hlc Epoch ActiveView SingleWriter.
From S2P Require Import ForkDetector Helpers Database Store StoreSpec HealStore AppDatabase Identity Roster.
From S2P Require Import InviteStore Replicated AddOperations InviteRequests Wire.
From S2P Require Import Runtime Categories CategoryService Auth Frames FramesSpec Membership SqlLogic.
From S2P Require Import MembershipSpec Coordinator CoordBroadcast CoordApplication.
From S2P Require Import CoordCommit CoordMessage CoordMembers.
From S2P Require Import CoordLogic CoordReplay CoordHeal CoordInv CoordSafe CoordStart CoordDemo Node.
From S2P Require Import OfflineSyncDemo Service ServiceLogic ServiceSpec ServiceDemo Invites InvitesSpec.
From S2P Require Import InviteFlow InviteFlowSpec.

#[local] Existing Instance toy_ed25519.

(** ** Texts of the wires *)

#[export] Instance welcome_json : JSON welcomeDeliveryWire :=
  ser_json (fun w => (wd_V w, (wd_GroupID w, (wd_GroupType w, (wd_CategoryID w, (wd_SourcePeerID w,
                     (wd_WelcomeHex w, (wd_AnchorEpoch w, wd_AnchorHistoryHash w))))))))
    (fun x => mkWelcomeDelivery x.1 x.2.1 x.2.2.1 x.2.2.2.1 x.2.2.2.2.1 x.2.2.2.2.2.1 x.2.2.2.2.2.2.1 x.2.2.2.2.2.2.2).
#[export] Instance welcome_json_laws : JSONLaws welcomeDeliveryWire.
Proof.
  split.
  - intros [v g ty c src hex e h] _. cbn [json_Marshal json_Unmarshal welcome_json ser_json].
    by rewrite <- (app_nil_r (put _)), get_put.
  - by intros [[|p|p] g ty c src hex e h].
Qed.

Definition sample : welcomeDeliveryWire := mkWelcomeDelivery 1 " g " "channel" "" "A" "ab" 1 "55".

(** The frame of a Welcome, with bytes after it, and a direct offer. *)
Lemma frames_round_trip_witness :
  (exists frame, Frames.writeWelcomeFrame sample = inl frame /\ Frames.readWelcomeFrame (frame ++ [x0a]) = inl (sample, [x0a])) /\
  Frames.FetchKeyPackageDirect true (inl (Frames.offer_frame [x01; x02] ++ [x0a])) = inl [x01; x02].
Proof.
  destruct (frames_round_trip sample sample [x01; x02] [x0a] ltac:(exact I) ltac:(exact I) ltac:(discriminate) ltac:(vm_compute; discriminate))
    as (_ & _ & _ & _ & H5 & H6).
  split; [|exact H6]. unfold carries in H5.
  assert (E : (Z.of_nat (length (json_Marshal sample)) <=? 4 * 2 ^ 20) = true) by (vm_compute; reflexivity).
  rewrite E in H5. exact H5.
Defined.

(** ** A Welcome is delivered *)

(** The node of [ServiceDemo.v], with a key package. *)
Definition with_kp (s : Svc) : Svc :=
  mkSvc (set_adb_kp_bundles {["B" := ([x0c], [xcd])]} (sv_app s)) (sv_coords s) (sv_hlc s) (sv_trace s).
Definition frame_of (w : welcomeDeliveryWire) : bytes :=
  match Frames.writeWelcomeFrame w with inl f => f | inr _ => [] end.
Local Notation deliver w s := (Invites.handleWelcomeDelivery join_se "A" (frame_of w) join_env O s).

Lemma welcome_frames_are_contained_witness :
  history_of "g" (deliver sample (with_kp join_init)).2 = Some (1, Some [x55], Some [x55]) /\
  contained "g" (with_kp join_init) (deliver sample (with_kp join_init)).2.
Proof.
  split; [vm_compute; reflexivity|].
  refine (proj2 (proj2 (welcome_frames_are_contained join_se "A" (frame_of sample) join_env O (with_kp join_init)
    (deliver sample (with_kp join_init)).1.1 (deliver sample (with_kp join_init)).1.2 (deliver sample (with_kp join_init)).2
    _ _ (run_parts _)))).
  - apply empty_svc_ok; constructor.
  - intros msg rest w Hm _. assert (Hs : Frames.readWelcomeFrame (frame_of sample) = inl (sample, [])) by (vm_compute; reflexivity).
    rewrite Hs in Hm. injection Hm as <- <-. split.
    + intros t key bundle n st tree e [= <- <- <-]. split; [lia|]. by intros a h [= <- <-].
    + intros _. left. vm_compute. reflexivity.
Defined.

(** ** An invitation is accepted *)

Definition run_db {A} (m : ASQL A) (s : Svc) : Svc := (Service.db m join_env O s).2.
Definition invite_g (welcome : bytes) (status : string) : PendingInvite :=
  mkPendingInvite "" "g" "channel" "" "" "A" [] welcome "A" status 0 0.
Local Notation id_of welcome := (InviteStore.PendingInviteID "g" welcome).
Local Notation asked := (run_db (InviteStore.SavePendingInvite (invite_g [xab] "pending")) (with_kp join_init)).
Local Notation accept s := (Invites.AcceptInvite join_se (id_of [xab]) join_env O s).
Definition status_of (id : string) (s : Svc) : option string := pi_Status <$> invitation id (sv_app s).

Lemma accepting_joins_or_refuses_witness :
  (accept asked).1.1 = inl tt /\ is_accepted (id_of [xab]) (sv_app (accept asked).2) /\
  node_ok (ne_of join_se join_env (accept asked).2) (node_of (accept asked).1.2 (accept asked).2).
Proof.
  assert (Hi : is_Some (invitation (TrimSpace (id_of [xab])) (sv_app asked))) by (vm_compute; eexists; reflexivity).
  destruct Hi as [i Hi].
  assert (Hid : pi_ID i = id_of [xab]) by (transitivity (TrimSpace (id_of [xab])); [by apply (invitation_Some _ _ _ Hi)|vm_compute; reflexivity]).
  assert (Hr : (accept asked).1.1 = inl tt) by (vm_compute; reflexivity).
  destruct (accepting_joins_or_refuses join_se (id_of [xab]) i join_env O asked (accept asked).1.1 (accept asked).1.2 (accept asked).2)
    as (H1 & _ & _ & H2).
  - apply empty_svc_ok; constructor.
  - vm_compute. repeat constructor.
  - intros w t key bundle n st tree e [= <- <- <-]. split; [lia|done].
  - exact Hi.
  - apply run_parts.
  - split; [exact Hr|]. split; [|exact H1]. rewrite Hid in H2. exact (proj1 (H2 Hr)).
Defined.

(** ** An anchor of another Welcome *)

(** The node has no key package when a Welcome with an anchor of epoch 5
    reaches it, so that it is kept; a second one of epoch 1 replaces its bytes
    and not its anchor.  When the node has a key package, the refresh joins at
    epoch 1 with the history of epoch 5. *)
Definition anchored (hex hash : string) (e : Z) : welcomeDeliveryWire := mkWelcomeDelivery 1 "g" "channel" "" "A" hex e hash.
Local Notation kept_two := (deliver (anchored "bb" "55" 1) (deliver (anchored "aa" "77" 5) join_init).2).2.
Local Notation refresh s := (Invites.refreshPendingInvites join_se join_env O s).

Example stored_anchor_outlives_welcome :
  (fun w => (stw_WelcomeBytes w, stw_AnchorEpoch w)) <$> adb_stored_welcomes (sv_app kept_two) = [([xbb], 5)] /\
  history_of "g" (refresh (with_kp (mkSvc (set_adb_pending_invites [] (sv_app kept_two)) ∅ (Hlc.NewHLC "B") []))).2 =
    Some (1, Some [x77], None).
Proof. split; vm_compute; reflexivity. Qed.

(** ** A rejected invitation *)

(** The Welcome of an invitation that was rejected comes again, from a store
    peer: it is joined. *)
Local Notation rejected := (Invites.RejectInvite join_se (id_of [xab]) join_env O asked).2.
Definition running (g : string) (s : Svc) : bool := bool_decide (is_Some (sv_coords s !! g)).
Local Notation passively s := (Invites.savePendingInviteFromWelcome join_se "g" "channel" "" [xab] "A" false 0 [] join_env O s).2.
Example rejected_invitation_is_joined :
  (status_of (id_of [xab]) rejected, running "g" rejected) = (Some "rejected", false) /\
  (status_of (id_of [xab]) (passively rejected), running "g" (passively rejected)) = (Some "accepted", true).
Proof. split; vm_compute; reflexivity. Qed.

(** ** A group that was left *)

(** The purge takes the invitation with it: the group is joined again, and the
    call reports an error. *)
Local Notation left_group := (run_db (Roster.MarkGroupLeft "g") (run_db (InviteStore.SavePendingInvite (invite_g [xcd] "pending"))
  (mkSvc (sv_app (accept asked).2) ∅ (Hlc.NewHLC "B") []))).
Local Notation accept_again := (Invites.AcceptInvite join_se (id_of [xcd]) join_env O left_group).
Example rejoining_reports_an_error :
  accept_again.1.1 = inr sql_ErrNoRows /\ running "g" left_group = false /\ running "g" accept_again.2 = true.
Proof. split; [|split]; vm_compute; reflexivity. Qed.

(** ** Requests to invite *)

(** B is an admin of [g], A a member; the key package of C is stored. *)
Definition member_row (p role : string) : GroupMemberRecord := mkGroupMemberRecord "g" p p role "active" "test" 1 0 1.
Definition admin_svc : Svc :=
  let s := (Invites.handleWelcomeDelivery join_se "A" (frame_of sample) join_env O (with_kp join_init)).2 in
  run_db (InviteStore.SaveStoredKeyPackage "C" [x0c] "C")
    (run_db (Roster.UpsertGroupMember (member_row "A" "member")) (run_db (Roster.UpsertGroupMember (member_row "B" "admin")) s)).
Definition ask (target : string) : RequestOp := OSubmit (Some (str_bytes target)) "A" (mkInviteReq 1 "submit" "g" target "" []).
Definition status_in (id : string) (s : Svc) : option string := ir_Status ∘ iv_rec <$> adb_invites (sv_app s) !! id.
Definition request_id (target : string) : string := "gir-" +:+ hex_EncodeToString (str_bytes target).
Local Notation run ops s := (request_ops join_se 3 ops join_env O s).

(** C is proposed, since the node does not hold the token; D is rejected. *)
Example requests_are_decided :
  let s := (run [ask "C"; OApprove (request_id "C"); ask "D"; OReject (request_id "D") "no"] admin_svc).2 in
  status_in (request_id "C") s = Some "approved" /\ status_in (request_id "D") s = Some "rejected" /\
  ao_Status <$> (map_to_list (adb_add_ops (sv_app s))).*2 = ["proposal_broadcast"].
Proof. vm_compute. auto. Qed.

Local Notation decided := (run [ask "D"; OReject (request_id "D") "no"] admin_svc).2.
Local Notation later := [OApprove (request_id "D"); ORetry (request_id "D"); OSweep (fun _ => true)].
Lemma requests_follow_lifecycle_witness :
  InviteRequests.invites_ok (sv_app (run later decided).2) /\
  exists row, adb_invites (sv_app (run later decided).2) !! request_id "D" = Some row /\
    ir_Status (iv_rec row) = InviteRequests.StatusRejected.
Proof.
  assert (H0 : InviteRequests.invites_ok (sv_app decided)).
  { refine (proj1 (requests_follow_lifecycle join_se 3 [ask "D"; OReject (request_id "D") "no"] join_env O admin_svc _ _ _ _ (run_parts _))).
    apply InviteRequests.invites_ok_empty. vm_compute. reflexivity. }
  destruct (requests_follow_lifecycle join_se 3 later join_env O decided _ _ _ H0 (run_parts _)) as [H1 H2].
  split; [exact H1|].
  assert (E : option_map (fun row => (ir_IsMirror (iv_rec row), ir_Status (iv_rec row))) (adb_invites (sv_app decided) !! request_id "D") =
    Some (false, InviteRequests.StatusRejected)) by (vm_compute; reflexivity).
  destruct (adb_invites (sv_app decided) !! request_id "D") as [row|] eqn:Er; [|discriminate E].
  simpl in E. injection E as Em Es. destruct (H2 _ _ Er Em) as (row' & Hr' & _ & Hf). exists row'. split; [exact Hr'|].
  rewrite Hf; [exact Es|]. rewrite Es. reflexivity.
Defined.

(** A node without a coordinator, whose peer is an admin, and one whose peer is
    a member. *)
Definition desk (role : string) : Svc :=
  mkSvc (set_adb_members {[("g", "B") := member_row "B" role]}
    (set_adb_invites {["r1" := mkInviteRow (InviteRequests.sample_request "r1" "bob" false) ""]} (sv_app join_init)))
    ∅ (Hlc.NewHLC "B") [].
Local Notation rejects role := (request_op join_se 3 (OReject "r1" "no") join_env O (desk role)).

(** A direct message with two members takes no third; the request for one is
    reported as approved, since the text of the error says "already". *)
Definition dm_svc : Svc :=
  let w := mkWelcomeDelivery 1 "g" "dm" "" "A" "ab" 1 "55" in
  let s := (Invites.handleWelcomeDelivery join_se "A" (frame_of w) join_env O (with_kp join_init)).2 in
  run_db (Roster.UpsertGroupMember (member_row "A" "member")) (run_db (Roster.UpsertGroupMember (member_row "B" "admin")) s).
Example full_dm_request_is_approved :
  (Invites.InvitePeerToGroup join_se 3 "C" "g" join_env O dm_svc).1.1 = inr (ErrText "direct message already has two members") /\
  status_in (request_id "C") (run [ask "C"; OApprove (request_id "C")] dm_svc).2 = Some "approved".
Proof. split; vm_compute; reflexivity. Qed.
