(* ===== verification/RemovalSpec.v ===== *)
(** * Removing a member

    [RemoveMemberFromGroup] with the commit its coordinator may make and the
    reconciliation of the roster that every epoch starts. *)
From S2P Require Import Prelude GoStrings Sha256 Types Config Hlc Epoch ActiveView SingleWriter.
From S2P Require Import ForkDetector Helpers Database Store StoreSpec HealStore AppDatabase Identity Roster.
From S2P Require Import InviteStore Replicated AddOperations InviteRequests Wire.
From S2P Require Import Runtime Categories CategoryService Auth Frames Membership SqlLogic MembershipSpec.
From S2P Require Import Coordinator CoordBroadcast CoordApplication CoordCommit.
From S2P Require Import CoordMessage CoordMembers CoordLogic.
From S2P Require Import CoordReplay CoordHeal CoordDemo Node Service ServiceLogic ServiceSpec ServiceDemo Invites InviteFlow.
From S2P Require Import InviteFlowSpec.

(** ** What the handlers do to the roster *)

Notation roster := (gmap (string * string) GroupMemberRecord).

(** Rows of other groups stay as they are; in [g] rows may be added and
    updated, but none is lost and none gets another role. *)
Definition row_kept (g : string) (k : string * string) (old new : option GroupMemberRecord) : Prop :=
  match old, new with
  | None, None => True
  | Some _, None => False
  | None, Some _ => k.1 = g
  | Some r, Some r' => gm_Role r' = gm_Role r /\ (k.1 <> g -> r' = r)
  end.
Definition roster_kept (g : string) (m m' : roster) : Prop := forall k, row_kept g k (m !! k) (m' !! k).
Definition rows_kept (g : string) (d d' : AppDB) : Prop := roster_kept g (adb_members d) (adb_members d').

Lemma row_kept_refl g k o : row_kept g k o o.
Proof. by destruct o. Qed.
#[export] Instance roster_kept_preorder g : PreOrder (roster_kept g).
Proof.
  split; [intros m k; apply row_kept_refl|]. intros m1 m2 m3 H1 H2 k. specialize (H1 k). specialize (H2 k). unfold row_kept in *.
  destruct (m1 !! k), (m2 !! k), (m3 !! k); try tauto. destruct H1 as [R1 H1], H2 as [R2 H2].
  split; [congruence|]. intros Hk. rewrite H2; auto.
Qed.
#[export] Instance rows_kept_preorder g : PreOrder (rows_kept g).
Proof. split; [by intros d; unfold rows_kept|]. intros d1 d2 d3 H1 H2. unfold rows_kept in *. by etrans. Qed.

Lemma same_rows_kept g d d' : same adb_members d d' -> rows_kept g d d'.
Proof. unfold same, rows_kept. by intros ->. Qed.
Lemma roster_kept_insert (g p : string) (r' : GroupMemberRecord) (m : roster) :
  (forall r, m !! (g, p) = Some r -> gm_Role r' = gm_Role r) -> roster_kept g m (<[(g, p) := r']> m).
Proof.
  intros H k. destruct (decide (k = (g, p))) as [->|Hne].
  - rewrite lookup_insert_eq. destruct (m !! (g, p)) as [r|]; simpl; [by split; [apply H|]|done].
  - rewrite lookup_insert_ne by done. apply row_kept_refl.
Qed.

Create HintDb rows.
Ltac rows_auto :=
  repeat first [ progress cbv zeta | solve [eauto 2 with rows nocore] | svc_step ];
  try reflexivity; try (apply same_rows_kept; unfold same; simpl; repeat case_match; done).

Section Handlers.
Context {PC : PeerCodec} {PJ : PayloadJSON} (se : SvEnv) (g : string) (Hg : TrimSpace g = g).
Notation kept m := (respects (rt_lift (rows_kept g)) m).
Notation sv_kept m := (respects (sv_lift (rows_kept g)) m).

Lemma upsert_kept p name role src now :
  respects (rows_kept g) (Roster.UpsertGroupMemberPreservingRole (Membership.observed g p name role src now)).
Proof.
  unfold Roster.UpsertGroupMemberPreservingRole, Roster.upsert_member. rows_auto. unfold rows_kept. simpl. rewrite Hg.
  apply roster_kept_insert. intros r E. by rewrite E.
Qed.
Lemma markLeft_kept p at_ : respects (rows_kept g) (Roster.MarkGroupMemberLeft g p at_).
Proof.
  unfold Roster.MarkGroupMemberLeft, Roster.update_member. rewrite Hg. rows_auto. unfold rows_kept.
  destruct (adb_members _ !! _) eqn:E; simpl; [|reflexivity]. apply roster_kept_insert. intros r Er. by simplify_eq.
Qed.
Lemma identity_kept : kept Runtime.GetMLSIdentity.
Proof. unfold Runtime.GetMLSIdentity, Identity.GetMLSIdentity. rows_auto. Qed.
Lemma record_kept : respects (rows_kept g) (core (Store.GetGroupRecord g)).
Proof. apply respects_readonly; [apply _|apply readonly_GetGroupRecord]. Qed.
Hint Resolve upsert_kept markLeft_kept identity_kept record_kept : rows.

Lemma onboarding_kept : kept (Runtime.GetOnboardingInfo (se_rt se)).
Proof. unfold Runtime.GetOnboardingInfo. rows_auto. Qed.
Hint Resolve onboarding_kept : rows.
Lemma display_kept p : kept (Membership.resolveDisplayNameForPeer (se_rt se) p).
Proof. unfold Membership.resolveDisplayNameForPeer, Roster.SavePeerProfile, Roster.GetPeerDisplayName. rows_auto. Qed.
Lemma role_kept p : kept (Membership.resolveGroupMemberRole (se_rt se) g p).
Proof. unfold Membership.resolveGroupMemberRole, Roster.GetGroupCreatorPeerID, Replicated.GetReplicatedRecord. rows_auto. Qed.
Hint Resolve display_kept role_kept : rows.
Lemma evidence_kept p src b : kept (Membership.upsertGroupMemberFromRosterEvidence (se_rt se) g p src b).
Proof.
  unfold Membership.upsertGroupMemberFromRosterEvidence, Membership.checked_ids, Runtime.with_db, Runtime.not_initialized,
    Roster.GetGroupMember. rewrite Hg. rows_auto.
Qed.
Hint Resolve evidence_kept : rows.
Lemma mark_absent_kept peers rows : forall changed, kept (Membership.mark_absent g peers rows changed).
Proof. induction rows as [|row rows IH]; intros changed; simpl; rows_auto. Qed.
Lemma reconcile_leaf_kept dm lp l id acc : kept (Membership.reconcile_leaf (se_rt se) g dm lp l id acc).
Proof.
  unfold Membership.reconcile_leaf, Membership.roster_differs, Membership.leaf_peer, Membership.dm_counterparty,
    Membership.upsertGroupMemberFromMLSReconcile, Roster.GetGroupMember, Roster.GetPeerIDByPublicKeyHex,
    Roster.GetGroupCreatorPeerID, Roster.ListGroupMembers, Roster.UpsertPeerProfileWithKey. rows_auto.
Qed.
Hint Resolve mark_absent_kept reconcile_leaf_kept : rows.
Lemma reconcile_leaves_kept dm lp l ids : forall acc, kept (Membership.reconcile_leaves (se_rt se) g dm lp l ids acc).
Proof. induction ids as [|id ids IH]; intros acc; simpl; rows_auto. Qed.
Hint Resolve reconcile_leaves_kept : rows.
Lemma reconcile_kept : kept (Membership.reconcileGroupRosterWithMLS (se_rt se) g).
Proof. unfold Membership.reconcileGroupRosterWithMLS, Roster.ListGroupMembers. rewrite Hg. rows_auto. Qed.
Lemma notification_kept ty g' a t c : kept (Notifications.insertNotification (se_rt se) ty g' a t c).
Proof. unfold Notifications.insertNotification, NotificationStore.InsertNotification, Roster.GetPeerDisplayName. rows_auto. Qed.
Hint Resolve reconcile_kept notification_kept : rows.

Lemma epoch_handler_kept e : sv_kept (Service.makeEpochHandler se g e).
Proof. unfold Service.makeEpochHandler, Service.members_changed, Service.emit, Service.go. rows_auto. Qed.
Lemma message_handler_kept msg : sv_kept (Service.makeMessageHandler se g msg).
Proof.
  unfold Service.makeMessageHandler, Service.members_changed, Service.emit, Membership.upsertGroupMemberFromRosterSync,
    Notifications.processNotificationsForMessage, NotificationStore.GetMessageSender. rows_auto.
Qed.
Hint Resolve epoch_handler_kept message_handler_kept : rows.
Lemma callbacks_kept effects : sv_kept (Service.run_callbacks se g effects).
Proof. induction effects as [|[] effects IH]; simpl; rows_auto. Qed.
End Handlers.

(** ** The removal *)

(** The coordinator has called a handler that reconciles the roster. *)
Definition handled (effects : list Effect) : bool :=
  existsb (fun e => match e with EEpochChange _ | EMessage _ => true | _ => false end) effects.

Lemma callbacks_none {PC : PeerCodec} {PJ : PayloadJSON} se g effects :
  handled effects = false -> Service.run_callbacks se g effects = sql_ret tt.
Proof. induction effects as [|[] effects IH]; simpl; try done; auto. Qed.
Lemma succeeds_callbacks {PC : PeerCodec} {PJ : PayloadJSON} se g effects : succeeds (Service.run_callbacks se g effects).
Proof.
  assert (Hnow : forall D, succeeds (@sql_time D)) by (intros D env t d; by eexists).
  induction effects as [|[] effects IH]; simpl; try done; try (by apply succeeds_ret); (apply succeeds_bind; [|done]).
  - unfold Service.makeMessageHandler, Service.members_changed, Service.emit, Notifications.processNotificationsForMessage,
      Notifications.insertNotification. succeeds_auto; apply Hnow.
  - unfold Service.makeEpochHandler, Service.members_changed, Service.emit, Service.go. succeeds_auto.
Qed.

Section Removal.
Context {PC : PeerCodec} {ED : Ed25519} {WC : WireCodec} {PJ : PayloadJSON} (se : SvEnv) (sql : SqlEnv).
Notation failed := (exists n, is_Some (sql_fails sql n)).

(** A method of the runtime that leaves the state alone. *)
Lemma ewp_rt {A} (m : RT A) Q s :
  swp m (fun r s' => Q r (mkSvc (rt_app s') (filter (fun kv => kv.1 ∈ rt_coords s') (sv_coords s)) (sv_hlc s) (rt_trace s')))
    (mkRtState (sv_app s) (dom (sv_coords s)) (sv_trace s)) -> ewp sql (Service.rt m) Q s.
Proof. intros H. by apply swp_ewp, swp_rt. Qed.

Lemma ewp_member g p Q s :
  (forall e, Q (inr e) s) ->
  (forall row, adb_members (sv_app s) !! (TrimSpace g, TrimSpace p) = Some row -> Q (inl (Roster.scan_member row)) s) ->
  ewp sql (Service.db (Roster.GetGroupMember g p)) Q s.
Proof.
  destruct s. intros He H. apply swp_ewp, swp_db. unfold Roster.GetGroupMember. repeat swp_step; simpl; auto.
Qed.

Lemma ewp_markLeft g p row Q s :
  TrimSpace g <> "" -> TrimSpace p <> "" -> adb_members (sv_app s) !! (TrimSpace g, TrimSpace p) = Some row ->
  (forall e, failed -> Q (inr e) s) ->
  (forall at_ now, Q (inl tt) (mkSvc (set_adb_members (<[(TrimSpace g, TrimSpace p) := departed at_ now row]>
     (adb_members (sv_app s))) (sv_app s)) (sv_coords s) (sv_hlc s) (sv_trace s))) ->
  ewp sql (Service.db (Roster.MarkGroupMemberLeft g p 0)) Q s.
Proof.
  destruct s as [d cs h tr]. simpl. intros Eg%str_eqb_false Ep%str_eqb_false Hr He H. apply ewp_db. simpl.
  unfold Roster.MarkGroupMemberLeft. rewrite Eg, Ep. simpl. apply ewp_bind, ewp_unix_now. intros at_.
  apply ewp_bind, ewp_unix_now. intros now. apply ewp_bind, ewp_wrap. intros t. unfold sql_update, Roster.update_member.
  rewrite Hr. destruct (sql_fails sql t) eqn:Ef; simpl; [apply He; eauto|]. by apply ewp_ret, H.
Qed.

(** A call of the coordinator of [g], seen from the roster. *)
Lemma ewp_on_coord {A} g oc (m : C A) Q s :
  TrimSpace g = g -> sv_coords s !! g = Some oc -> Q (inr Service.ErrPanic) s ->
  (forall a s' oc', sv_coords s' !! g = Some oc' -> rows_kept g (sv_app s) (sv_app s') ->
     (handled (drop (length oc.2.2) oc'.2.2) = false -> same adb_members (sv_app s) (sv_app s')) -> Q (inl a) s') ->
  ewp sql (Service.on_coord se g oc m) Q s.
Proof.
  intros Hg Hc Hp H. apply ewp_bind. intros t. unfold Service.run_coord. destruct (m _ _) as [a w| |]; simpl; [|exact Hp..].
  apply ewp_bind, ewp_put. simpl. apply ewp_bind.
  set (s1 := mkSvc _ (<[g := _]> _) _ _). set (eff := drop _ _).
  assert (E : rows_kept g (sv_app s) (sv_app s1) /\ same adb_members (sv_app s) (sv_app s1)).
  { split; [apply same_rows_kept|]; by destruct (sv_app s). }
  destruct E as [K1 S1]. destruct (handled eff) eqn:Eh.
  - apply (ewp_succeeds sql (sv_lift (rows_kept g))); [by apply callbacks_kept|apply succeeds_callbacks|].
    intros [] s2 [K2 C2]. apply ewp_ret. eapply H; [rewrite C2; apply lookup_insert_eq|by etrans|]. simpl. fold eff. by rewrite Eh.
  - rewrite (callbacks_none se g eff Eh). apply ewp_ret, ewp_ret. by eapply H; [apply lookup_insert_eq|..].
Qed.

(** What [RemoveMemberFromGroup] does when it is not refused: who may call it
    and for whom, the reconciliation [mid], and the target's row. *)
Definition removal (g p : string) (s : Svc) (r : result unit) (s' : Svc) : Prop :=
  let k := (TrimSpace g, TrimSpace p) in
  exists me l row oc oc' mid,
    session_open (se_rt se) (sv_app s) /\ allowed (se_rt se) Runtime.permissionRemoveMembers g l (sv_app s) me /\
    l <> TrimSpace p /\ adb_members (sv_app s) !! k = Some row /\
    gm_Status row = Roster.GroupMemberStatusActive /\ gm_Role row = Roster.GroupMemberRoleMember /\
    sv_coords s !! TrimSpace g = Some oc /\ sv_coords s' !! TrimSpace g = Some oc' /\
    roster_kept (TrimSpace g) (adb_members (sv_app s)) mid /\
    (handled (drop (length oc.2.2) oc'.2.2) = false -> mid = adb_members (sv_app s)) /\
    ((exists row' at_ now, mid !! k = Some row' /\ adb_members (sv_app s') = <[k := departed at_ now row']> mid) \/
     adb_members (sv_app s') = mid /\ (r <> inl tt \/ failed)).

(** The end of a removal that the coordinator has accepted. *)
Lemma removal_settled g p l s :
  TrimSpace g <> "" -> TrimSpace p <> "" -> is_Some (adb_members (sv_app s) !! (TrimSpace g, TrimSpace p)) ->
  ewp sql (sql_ignore (Service.db (Roster.MarkGroupMemberLeft (TrimSpace g) (TrimSpace p) 0)) ;;!
           Service.rt (Runtime.appendGroupEvent (TrimSpace g) "member_left" l (TrimSpace p) 0) ;;!
           Service.emit "group:members_changed" [("group_id", TrimSpace g); ("reason", "removed"); ("target_peer_id", TrimSpace p)])
    (fun _ s' => sv_coords s' = sv_coords s /\
       ((exists row' at_ now, adb_members (sv_app s) !! (TrimSpace g, TrimSpace p) = Some row' /\
           adb_members (sv_app s') = <[(TrimSpace g, TrimSpace p) := departed at_ now row']> (adb_members (sv_app s))) \/
        adb_members (sv_app s') = adb_members (sv_app s) /\ failed)) s.
Proof.
  intros Hg Hp [row Hr].
  apply ewp_bind, ewp_ignore, (ewp_markLeft _ _ row); rewrite ?TrimSpace_idemp; try done; [intros e Hf|intros at_ now];
    apply ewp_bind, ewp_rt, swp_event; intros tr; simpl; rewrite filter_running; intros t; simpl; (split; [done|]).
  - right. done.
  - left. by exists row, at_, now.
Qed.

Lemma removal_intro g p me l row oc oc' s s1 r s' :
  session_open (se_rt se) (sv_app s) /\ allowed (se_rt se) Runtime.permissionRemoveMembers g l (sv_app s) me /\ l <> TrimSpace p ->
  adb_members (sv_app s) !! (TrimSpace g, TrimSpace p) = Some row ->
  gm_Status row = Roster.GroupMemberStatusActive -> gm_Role row = Roster.GroupMemberRoleMember ->
  sv_coords s !! TrimSpace g = Some oc -> sv_coords s1 !! TrimSpace g = Some oc' -> rows_kept (TrimSpace g) (sv_app s) (sv_app s1) ->
  (handled (drop (length oc.2.2) oc'.2.2) = false -> same adb_members (sv_app s) (sv_app s1)) ->
  sv_coords s' = sv_coords s1 ->
  ((exists row' at_ now, adb_members (sv_app s1) !! (TrimSpace g, TrimSpace p) = Some row' /\
      adb_members (sv_app s') = <[(TrimSpace g, TrimSpace p) := departed at_ now row']> (adb_members (sv_app s1))) \/
   adb_members (sv_app s') = adb_members (sv_app s1) /\ (r <> inl tt \/ failed)) -> removal g p s r s'.
Proof.
  intros (? & ? & ?) ? ? ? ? ? ? ? HC HM. exists me, l, row, oc, oc', (adb_members (sv_app s1)). rewrite HC. by split_and!.
Qed.

Lemma RemoveMember_removal fuel g p s :
  Roster.members_ok (sv_app s) ->
  ewp sql (Service.RemoveMemberFromGroup se fuel g p)
    (fun r s' => (r <> inl tt /\ adb_members (sv_app s') = adb_members (sv_app s)) \/ removal g p s r s') s.
Proof.
  destruct s as [d cs h tr]. intros Hd. simpl in Hd. set (s := mkSvc d cs h tr).
  assert (Hno : forall e, (inr e <> @inl unit GoError tt /\ adb_members (sv_app s) = adb_members (sv_app s)) \/ removal g p s (inr e) s)
    by (intros e; by left).
  unfold Service.RemoveMemberFromGroup. destruct (str_eqb_spec (TrimSpace g) "") as [|Eg]; [by apply ewp_throw|].
  apply ewp_bind, ewp_rt, swp_session; [intros e; simpl; rewrite filter_running; apply Hno|]. intros Hopen. simpl.
  rewrite filter_running. fold s. destruct (str_eqb_spec (TrimSpace p) "") as [|Ep]; [by apply ewp_throw|].
  destruct (peer_Decode _) as [target|]; [|by apply ewp_throw]. destruct (re_db (se_rt se)); [|by apply ewp_throw]. cbn [negb].
  apply ewp_bind, ewp_coordinator, ewp_bind, ewp_try, ewp_rt, swp_permission; [done|..].
  { intros e. simpl. rewrite filter_running. by apply ewp_throw. }
  intros me l Hme. simpl. rewrite filter_running. fold s. destruct (cs !! TrimSpace g) as [oc|] eqn:Hoc; [|by apply ewp_throw].
  destruct (negb (str_eqb l "") && str_eqb l (TrimSpace p)) eqn:Eself; [by apply ewp_throw|].
  apply ewp_bind, ewp_member; [done|]. intros row Hrow. rewrite (scan_ok _ _ _ Hd Hrow).
  destruct (Hd _ _ Hrow) as [_ _ _ _ Hr _]. rewrite !TrimSpace_idemp in Hrow.
  destruct (str_eqb_spec (gm_Status row) Roster.GroupMemberStatusActive) as [Hs|]; [|by apply ewp_throw]. cbn [negb].
  destruct (Runtime.isCreatorRole (gm_Role row)) eqn:Ec; [by apply ewp_throw|].
  destruct (EqualFold _ _) eqn:Ea; [by case_match; apply ewp_throw|].
  destruct (Membership.resolveTargetMLSIdentity _ _); [|by apply ewp_throw].
  assert (Hwho : session_open (se_rt se) d /\ allowed (se_rt se) Runtime.permissionRemoveMembers g l d me /\ l <> TrimSpace p /\
    adb_members d !! (TrimSpace g, TrimSpace p) = Some row /\ gm_Status row = Roster.GroupMemberStatusActive /\
    gm_Role row = Roster.GroupMemberRoleMember /\ cs !! TrimSpace g = Some oc).
  { split_and!; try done; [|intros ->|by apply plain_member].
    - destruct Hme as (? & ? & ? & ?). rewrite TrimSpace_idemp in *. by split_and!.
    - by rewrite str_eqb_refl, (proj2 (str_eqb_false _ _) Ep) in Eself. }
  destruct Hwho as (W1 & W2 & W3 & W4 & W5 & W6 & W7).
  apply ewp_bind, ewp_on_coord; [apply TrimSpace_idemp|done|apply Hno|]. intros a s1 oc' Hoc' K1 S1.
  pose proof (fun r s' => removal_intro g p me l row oc oc' s s1 r s' (conj W1 (conj W2 W3)) W4 W5 W6 W7 Hoc' K1 S1) as Hmid.
  destruct a as [[]|e].
  - eapply ewp_mono; [|apply removal_settled; [done..|]].
    + intros r s' [HC HM]. right. apply Hmid; [done|]. destruct HM as [HM|[HM HF]]; auto.
    + specialize (K1 (TrimSpace g, TrimSpace p)). subst s. simpl in K1. rewrite W4 in K1.
      by destruct (adb_members (sv_app s1) !! _); [eexists|].
  - case_match; apply ewp_throw; right; apply Hmid; try done; right; split; try done; by left.
Qed.
End Removal.

(** C30: Removing a member respects the hierarchy.  If [RemoveMemberFromGroup]
    ends without an error or changes the roster, the session is not taken
    over, the local node is an active creator or admin of the group and not the
    target itself, the target was an active plain member (neither creator nor
    admin), and the group runs.  While the coordinator removes the target its
    epoch and message handlers may reconcile the roster with the MLS tree:
    that touches rows of this group only, loses none and changes no role; and if
    the coordinator has called neither handler, as when it only proposes the
    removal, nothing is touched.  Upon that the target's row, and no other, is
    marked as left, unless the call ends in an error or a statement fails. *)
Theorem removal_respects_hierarchy {PC : PeerCodec} {ED : Ed25519} {WC : WireCodec} {PJ : PayloadJSON}
  se fuel g p env t s r t' s' :
  Roster.members_ok (sv_app s) ->
  Service.RemoveMemberFromGroup se fuel g p env t s = (r, t', s') ->
  r = inl tt \/ adb_members (sv_app s') <> adb_members (sv_app s) ->
  exists me l row oc oc' (mid : roster),
    session_open (se_rt se) (sv_app s) /\ allowed (se_rt se) Runtime.permissionRemoveMembers g l (sv_app s) me /\
    l <> TrimSpace p /\ adb_members (sv_app s) !! (TrimSpace g, TrimSpace p) = Some row /\
    gm_Status row = Roster.GroupMemberStatusActive /\ gm_Role row = Roster.GroupMemberRoleMember /\
    sv_coords s !! TrimSpace g = Some oc /\ sv_coords s' !! TrimSpace g = Some oc' /\
    roster_kept (TrimSpace g) (adb_members (sv_app s)) mid /\
    (handled (drop (length oc.2.2) oc'.2.2) = false -> mid = adb_members (sv_app s)) /\
    ((exists row' at_ now, mid !! (TrimSpace g, TrimSpace p) = Some row' /\
        adb_members (sv_app s') = <[(TrimSpace g, TrimSpace p) := departed at_ now row']> mid) \/
     adb_members (sv_app s') = mid /\ (r <> inl tt \/ exists n, is_Some (sql_fails env n))).
Proof.
  intros Hd E Hne. apply (ewp_run _ _ _ _ _ _ _ _ (RemoveMember_removal se env fuel g p s Hd)) in E.
  by destruct E as [[H1 H2]|E]; [destruct Hne|].
Qed.

(** ** A removal by proposal and one by commit *)

#[local] Existing Instance toy_ed25519.

(** The runtime of [B], whose MLS tree has no other leaf than its own. *)
Definition removing_re : RtEnv := {|
  re_db := true;
  re_node := Some "B";
  re_privKey := Some "B";
  re_token := fun p => Some (p, [x01]);
  re_role_Marshal := fun _ => "wire";
  re_role_Unmarshal := fun _ => None;
  re_engine := true;
  re_ListMemberIdentities := fun _ => inl [[x01]];
|}.
(** [B] with the roster [d] in the eyes of its election. *)
Definition removing_se (d : AppDB) : SvEnv := {|
  se_rt := removing_re;
  se_shared := CoordDemo.demo;
  se_stack := true;
  se_auth := Some ["A"];
  se_peers := ["A"];
  se_history := fun _ => d;
  se_reach := fun _ => true;
  se_kp_direct := fun _ => inr (ErrText "no key package");
  se_kp_fetch := fun _ => None;
  se_welcome_fetch := fun _ _ => None;
  se_welcome_list := fun _ => None;
  se_blind := fun _ => [];
|}.
(** [B] founds the group; [A] and [C] are seen in it. *)
Definition founded (d : AppDB) : Svc :=
  let see p := Service.db (Roster.roster_op (Roster.OpObserve (Roster.sample_member p Roster.GroupMemberRoleMember))) in
  ((Service.CreateGroupChat (removing_se d) "g" "group" "" ;;! see "A" ;;! see "C") join_env O join_init).2.
Definition founded_roster : AppDB := sv_app (founded adb_empty).
Definition removing (d : AppDB) (p : string) := Service.RemoveMemberFromGroup (removing_se d) 5 "g" p join_env O (founded d).


(** [Roster.members_ok] by computation. *)
Definition row_okb (kr : (string * string) * GroupMemberRecord) : bool :=
  bool_decide ((gm_GroupID kr.2, gm_PeerID kr.2, TrimSpace kr.1.1, TrimSpace kr.1.2) = (kr.1.1, kr.1.2, kr.1.1, kr.1.2)) &&
  bool_decide (kr.1.1 <> "" /\ kr.1.2 <> "") &&
  bool_decide (gm_Role kr.2 ∈ [Roster.GroupMemberRoleCreator; Roster.GroupMemberRoleAdmin; Roster.GroupMemberRoleMember]) &&
  bool_decide (gm_Status kr.2 ∈ [Roster.GroupMemberStatusActive; Roster.GroupMemberStatusLeft]).
Lemma members_okb d : forallb row_okb (map_to_list (adb_members d)) = true -> Roster.members_ok d.
Proof.
  rewrite forallb_forall. intros H [g p] r E%elem_of_map_to_list%list_elem_of_In%H. unfold row_okb in E. simpl in E.
  apply andb_true_iff in E as [[[E1%bool_decide_eq_true [? ?]%bool_decide_eq_true]%andb_true_iff
    E2%bool_decide_eq_true]%andb_true_iff E3%bool_decide_eq_true]. injection E1 as ? ? ? ?. by split.
Qed.

Definition rosters (s : Svc) : list (string * string * string) :=
  omap (fun p => (fun r => (p, gm_Role r, gm_Status r)) <$> adb_members (sv_app s) !! ("g", p)) ["A"; "B"; "C"].

Lemma removal_respects_hierarchy_witness :
  rosters (removing adb_empty "A").2 = [("A", "member", "left"); ("B", "creator", "active"); ("C", "member", "active")] /\
  rosters (removing founded_roster "A").2 = [("A", "member", "left"); ("B", "creator", "active"); ("C", "member", "left")] /\
  (removing founded_roster "B").1.1 = inr Membership.ErrRemoveSelfNotAllowed /\
  exists me l, allowed removing_re Runtime.permissionRemoveMembers "g" l (sv_app (founded founded_roster)) me /\ l <> "A".
Proof.
  split; [by vm_compute|]. split; [by vm_compute|]. split; [by vm_compute|].
  destruct (removal_respects_hierarchy (removing_se founded_roster) 5 "g" "A" join_env O (founded founded_roster)
    (removing founded_roster "A").1.1 (removing founded_roster "A").1.2 (removing founded_roster "A").2)
    as (me & l & _ & _ & _ & _ & _ & Ha & Hl & _).
  - apply members_okb. by vm_compute.
  - apply run_parts.
  - left. by vm_compute.
  - by exists me, l.
Defined.
