(* ===== verification/Replication.v ===== *)
(** * Replication of signed records

    [service/group_avatar_replicate.go], [group_invite_policy_replicate.go] and
    [replicated_sync.go]: profiles, group avatars, roles and invite policies are
    records that their author signs.  They are pushed to the verified peers when
    they change, and pulled from a peer with one cursor per record.

    The answer of a peer to a pull is an argument, a stream of frames. *)
From Stdlib Require Import DecimalString.
From S2P Require Import Prelude GoStrings Sha256 Types Config Hlc Epoch ActiveView SingleWriter.
From S2P Require Import ForkDetector Helpers Database Store StoreSpec HealStore AppDatabase Identity Roster.
From S2P Require Import InviteStore Replicated AddOperations InviteRequests Wire.
From S2P Require Import Runtime Categories CategoryService Auth Frames Membership Profiles ReplicaFrames.
From S2P Require Import Coordinator CoordBroadcast CoordApplication CoordCommit.
From S2P Require Import CoordMessage CoordMembers.
From S2P Require Import CoordReplay CoordHeal Node Service Invites InviteFlow.

(** ** Group avatars *)
Module GroupAvatar.

Definition errReplicationStaleGroupAvatar : GoError := ErrSentinel "replication: stale group avatar revision".
Definition groupAvatarWireVersion : Z := 1.

(** [signerPeerID] *)
Definition signerPeerID (w : groupAvatarWireV1) : string :=
  if str_eqb (TrimSpace (gw_ActorPeerID w)) "" then TrimSpace (gw_CreatorPeerID w) else TrimSpace (gw_ActorPeerID w).

Section Methods.
Context {PC : PeerCodec} {ED : Ed25519} {JA : JSON groupAvatarWireV1} (re : RtEnv).
#[local] Abbreviation app := Runtime.app.

(** [groupAvatarBlobRefsFromWire] *)
Definition groupAvatarBlobRefsFromWire (wireJSON : bytes) : list (string * bool) :=
  from_option (fun w => Profiles.blob_refs (gw_AvatarHash w)) [] (json_Unmarshal wireJSON).

(** [nextGroupAvatarReplicationRevision] *)
Definition nextGroupAvatarReplicationRevision (groupID : string) : RT Z :=
  let g := TrimSpace groupID in
  if str_eqb g "" then sql_throw (ErrText "group id required")
  else Profiles.with_app re (
    row <-! sql_try (app (Replicated.GetReplicatedRecord Replicated.NamespaceGroupAvatarV1 g)) ;
    match row with
    | inl r => sql_ret (i64 (rr_Revision r + 1))
    | inr e => if errors_Is e sql_ErrNoRows then sql_ret 1 else sql_throw e
    end).

(** [packSignedGroupAvatarPushPayload] *)
Definition packSignedGroupAvatarPushPayload (groupID : string) : RT (bytes * bytes * bytes) :=
  let g := TrimSpace groupID in
  if str_eqb g "" then sql_throw (ErrText "group id required")
  else Profiles.with_key re (
    p <-! Runtime.GetOnboardingInfo re ;
    identity <-! Runtime.GetMLSIdentity ;
    rev <-! nextGroupAvatarReplicationRevision g ;
    meta <-! app (GroupMeta.GetGroupChatAvatarMeta g) ;
    let '(hash, mime, at_) := meta in
    let hash := TrimSpace (ToLower hash) in
    let wire := mkAvatarWire groupAvatarWireVersion g p p hash (TrimSpace mime) at_ rev (if str_eqb hash "" then ["avatar"] else []) in
    let raw := json_Marshal wire in
    sig <-! Profiles.sign_wire identity raw ;
    blob <-! (if str_eqb hash "" then sql_ret []
              else b <-! sql_try (app (ProfileStore.GetAvatarBlob hash)) ;
                   sql_ret (match b with inl b => b.2 | inr _ => [] end)) ;
    sql_ret (raw, sig, blob)).

(** [persistOwnReplicatedGroupAvatar] *)
Definition persistOwnReplicatedGroupAvatar (wireJSON signature : bytes) : RT unit :=
  match json_Unmarshal wireJSON with
  | None => sql_throw (ErrText "group avatar wire: invalid character in JSON")
  | Some w =>
      Profiles.with_app re (
        identity <-! Runtime.GetMLSIdentity ;
        let body := bytes_str wireJSON in
        app (Replicated.PutReplicatedRecordForce (Replicated.mkPut Replicated.NamespaceGroupAvatarV1 (gw_GroupID w) (signerPeerID w)
          (gw_Revision w) 1 body (Replicated.ReplicatedBodyHash body) signature
          (ToLower (hex_EncodeToString (mi_PublicKey identity))) 0 (groupAvatarBlobRefsFromWire wireJSON))))
  end.

(** The avatar of the group after the merge *)
Definition set_group_avatar (g : string) (w : groupAvatarWireV1) : RT unit :=
  if existsb (fun f => EqualFold (TrimSpace f) "avatar") (gw_ClearedFields w) then app (GroupMeta.ClearGroupChatAvatar g)
  else
    let h := TrimSpace (ToLower (gw_AvatarHash w)) in
    let m := TrimSpace (gw_AvatarMime w) in
    if str_eqb h "" || str_eqb m "" then sql_throw (ErrText "avatar hash and mime required when not clearing")
    else app (GroupMeta.SetGroupChatAvatar g h m (gw_AvatarUpdatedAt w)).

(** [applySignedRemoteGroupAvatarPush] *)
Definition applySignedRemoteGroupAvatarPush (signer : string) (wireJSON signature blob : bytes) : RT unit :=
  Runtime.ensureSessionActive re ;;!
  let p := TrimSpace signer in
  if str_eqb p "" then sql_throw (ErrText "actor_peer_id is required")
  else Profiles.with_app re (
    ek <-! Profiles.signing_key p ;
    Profiles.check_signature ek.2 wireJSON signature ;;!
    match json_Unmarshal wireJSON with
    | None => sql_throw (ErrText "group avatar wire: invalid character in JSON")
    | Some w =>
        let g := TrimSpace (gw_GroupID w) in
        if negb (gw_V w =? groupAvatarWireVersion) then sql_throw (ErrText "unsupported group avatar wire version")
        else if str_eqb g "" then sql_throw (ErrText "group_id required in wire")
        else if negb (str_eqb (signerPeerID w) p) then sql_throw (ErrText "actor peer mismatch in signed payload")
        else
          has <-! app (Roster.HasGroup g) ;
          if negb has then sql_throw (ErrText "group avatar push: not a member of group")
          else
            ok <-! Runtime.isActiveGroupAuthorizedPeer re g p ;
            if negb ok then sql_throw (ErrText "group avatar push: peer is not an active admin for group")
            else
              Profiles.store_avatar_blob (gw_AvatarHash w) (gw_AvatarMime w) blob ;;!
              let body := bytes_str wireJSON in
              Profiles.merge_record errReplicationStaleGroupAvatar (Replicated.mkPut Replicated.NamespaceGroupAvatarV1 g p (gw_Revision w) 1
                body (Replicated.ReplicatedBodyHash body) signature (ToLower (hex_EncodeToString ek.2)) 0
                (groupAvatarBlobRefsFromWire wireJSON)) ;;!
              set_group_avatar g w ;;!
              Runtime.effect (Go (GAllMembersChanged "group_avatar"))
    end).

End Methods.
End GroupAvatar.

(** ** The invite policy *)
Module InvitePolicy.

Definition errReplicationStaleGroupInvitePolicy : GoError := ErrSentinel "replication: stale group invite policy revision".
Definition groupInvitePolicyWireVersion : Z := 1.

Section Methods.
Context {PC : PeerCodec} {ED : Ed25519} {WC : WireCodec} {PJ : PayloadJSON} {JO : JSON groupInvitePolicyWireV1} (se : SvEnv).
Variable fuel : nat.
Abbreviation re := (se_rt se).
#[local] Abbreviation app := Runtime.app.

(** [nextGroupInvitePolicyRevision] *)
Definition nextGroupInvitePolicyRevision (groupID : string) : RT Z :=
  Runtime.with_db re (
    row <-! sql_try (app (Replicated.GetReplicatedRecord Replicated.NamespaceGroupInvitePolicyV1 (TrimSpace groupID))) ;
    match row with
    | inl r => sql_ret (i64 (rr_Revision r + 1))
    | inr e => if errors_Is e sql_ErrNoRows then sql_ret 1 else sql_throw e
    end).

(** [packSignedGroupInvitePolicyPayload] *)
Definition packSignedGroupInvitePolicyPayload (groupID policy actorPeerID : string) : RT (bytes * bytes) :=
  normalized <-! Roster.of_result (Roster.NormalizeGroupInvitePolicy policy) ;
  Runtime.with_db re (
    identity <-! Runtime.GetMLSIdentity ;
    rev <-! nextGroupInvitePolicyRevision (TrimSpace groupID) ;
    now <-! unix_now ;
    let raw := json_Marshal (mkPolicyWire groupInvitePolicyWireVersion (TrimSpace groupID) normalized (TrimSpace actorPeerID) now rev) in
    sig <-! Profiles.sign_wire identity raw ;
    sql_ret (raw, sig)).

(** [persistOwnReplicatedGroupInvitePolicy] *)
Definition persistOwnReplicatedGroupInvitePolicy (wireJSON signature : bytes) : RT unit :=
  match json_Unmarshal wireJSON with
  | None => sql_throw (ErrText "invalid character in JSON")
  | Some w =>
      Runtime.with_db re (
        identity <-! Runtime.GetMLSIdentity ;
        let body := bytes_str wireJSON in
        app (Replicated.PutReplicatedRecordForce (Replicated.mkPut Replicated.NamespaceGroupInvitePolicyV1 (ow_GroupID w) (ow_ActorPeerID w)
          (ow_Revision w) 1 body (Replicated.ReplicatedBodyHash body) signature
          (ToLower (hex_EncodeToString (mi_PublicKey identity))) 0 [])))
  end.

(** The checks of [applySignedRemoteGroupInvitePolicyPush] and the merge: the
    wire that was accepted *)
Definition merge_policy (actorPeerID : string) (wireJSON signature : bytes) : RT groupInvitePolicyWireV1 :=
  let actor := TrimSpace actorPeerID in
  if str_eqb actor "" then sql_throw (ErrText "actor peer id required")
  else Runtime.with_db re (
    profile <-! app (Roster.GetPeerDirectoryProfile actor) ;
    match hex_DecodeString (TrimSpace (pd_PublicKeyHex profile)) with
    | None => sql_throw (ErrText "invalid stored public key for actor")
    | Some pub =>
        if negb (length pub =? 32)%nat then sql_throw (ErrText "invalid stored public key for actor")
        else
          Profiles.check_signature pub wireJSON signature ;;!
          match json_Unmarshal wireJSON with
          | None => sql_throw (ErrText "invalid character in JSON")
          | Some w =>
              if negb (ow_V w =? groupInvitePolicyWireVersion) then sql_throw (ErrText "unsupported group invite policy wire version")
              else if negb (str_eqb (TrimSpace (ow_ActorPeerID w)) actor) then sql_throw (ErrText "actor peer mismatch")
              else
                Roster.of_result (Roster.NormalizeGroupInvitePolicy (ow_Policy w)) ;;!
                ok <-! Runtime.isActiveGroupAuthorizedPeer re (ow_GroupID w) actor ;
                if negb ok then sql_throw (ErrText "group invite policy push: actor is not an active admin")
                else
                  let body := bytes_str wireJSON in
                  Profiles.merge_record errReplicationStaleGroupInvitePolicy (Replicated.mkPut Replicated.NamespaceGroupInvitePolicyV1
                    (TrimSpace (ow_GroupID w)) actor (ow_Revision w) 1 body (Replicated.ReplicatedBodyHash body) signature
                    (ToLower (hex_EncodeToString pub)) 0 []) ;;!
                  sql_ret w
          end
    end).

(** [applySignedRemoteGroupInvitePolicyPush] *)
Definition applySignedRemoteGroupInvitePolicyPush (actorPeerID : string) (wireJSON signature : bytes) : SV unit :=
  w <-! Service.rt (merge_policy actorPeerID wireJSON signature) ;
  Service.db (Roster.SetGroupInvitePolicy (ow_GroupID w) (ow_Policy w)) ;;!
  (if str_eqb (ow_Policy w) "any_member"
   then sql_ignore (InviteFlow.processPolicySwitchAnyMember se fuel (ow_GroupID w)) else sql_ret tt) ;;!
  Service.emit "group:invite_policy_changed" [("group_id", ow_GroupID w); ("policy", ow_Policy w)].

End Methods.
End InvitePolicy.

(** ** Pushing and pulling *)
Module Replication.
Section Methods.
Context {PC : PeerCodec} {ED : Ed25519} {WC : WireCodec} {PJ : PayloadJSON}.
Context {JP : JSON profileWireV1} {JA : JSON groupAvatarWireV1} {JO : JSON groupInvitePolicyWireV1}.
Context {JM : JSON ReplicaPushMetaV1} {JQ : JSON ReplicaPullRequestV1} {JH : JSON ReplicaPullRecordHeaderV1}.
Variable se : SvEnv.
(** what a peer answers to a pull, or the error of opening the stream *)
Variable answer : peerID -> ReplicaPullRequestV1 -> result bytes.
Variable fuel : nat.
Abbreviation re := (se_rt se).
Abbreviation db := Service.db.
Abbreviation rt := Service.rt.

(** *** Own records *)

(** The pushes to the verified peers *)
Fixpoint push_each (peers : list peerID) (f : Frame) : SV unit :=
  match peers with
  | [] => sql_ret tt
  | p :: peers => Service.out (Send p f) ;;! push_each peers f
  end.
Definition push_verified (ns key : string) (wire signature blob : bytes) : SV unit :=
  match re_node re, se_auth se with
  | Some self, Some verified => push_each (filter (fun p => p <> self) verified) (FReplicaPush (mkPushMeta 1 ns key) wire signature blob)
  | _, _ => sql_ret tt
  end.

(** [replicateLocalProfileNow] *)
Definition replicateLocalProfileNow (cleared : list string) : SV unit :=
  packed <-! sql_try (rt (Profiles.packSignedProfilePushPayload re cleared)) ;
  match packed with
  | inr _ => sql_ret tt
  | inl (wire, sig, blob) =>
      if is_empty wire || is_empty sig then sql_ret tt
      else
        saved <-! sql_try (rt (Profiles.persistOwnReplicatedProfile re wire sig)) ;
        match saved with
        | inr _ => sql_ret tt
        | inl _ =>
            Service.go (GPublishRecord Replicated.NamespaceUserProfileV1 wire sig blob) ;;!
            match re_node re, se_auth se with
            | Some _, Some _ =>
                info <-! sql_try (rt (Runtime.GetOnboardingInfo re)) ;
                match info with
                | inr _ => sql_ret tt
                | inl p => push_verified Replicated.NamespaceUserProfileV1 p wire sig blob
                end
            | _, _ => sql_ret tt
            end
        end
  end.

(** [replicateLocalProfilePushToPeer], [pushLocalUserProfileToPeer] *)
Definition replicateLocalProfilePushToPeer (remote : peerID) : SV unit :=
  packed <-! sql_try (rt (Profiles.packSignedProfilePushPayload re [])) ;
  match packed with
  | inr _ => sql_ret tt
  | inl (wire, sig, blob) =>
      if is_empty wire || is_empty sig then sql_ret tt
      else
        saved <-! sql_try (rt (Profiles.persistOwnReplicatedProfile re wire sig)) ;
        match saved, re_node re with
        | inl _, Some _ =>
            info <-! sql_try (rt (Runtime.GetOnboardingInfo re)) ;
            match info with
            | inr _ => sql_ret tt
            | inl p => Service.out (Send remote (FReplicaPush (mkPushMeta 1 Replicated.NamespaceUserProfileV1 p) wire sig blob))
            end
        | _, _ => sql_ret tt
        end
  end.

(** [SaveMyProfile] *)
Definition SaveMyProfile (email phone : string) (image : bytes) (avatarChange : Z) : SV Profiles.UserProfileInfo :=
  clears <-! rt (Profiles.save_profile re email phone image avatarChange) ;
  replicateLocalProfileNow clears ;;!
  rt (Profiles.GetMyProfile re).

(** [UpdateMyProfile] *)
Definition UpdateMyProfile (email phone : string) : SV unit := SaveMyProfile email phone [] 0 ;;! sql_ret tt.

(** [ClearMyAvatar] *)
Definition ClearMyAvatar : SV unit :=
  clears <-! rt (Profiles.clear_avatar re) ; replicateLocalProfileNow clears.

(** [replicateGroupChatAvatarAfterLocalSave] *)
Definition replicateGroupChatAvatarAfterLocalSave (groupID : string) : SV unit :=
  let g := TrimSpace groupID in
  if str_eqb g "" then sql_ret tt
  else
    packed <-! sql_try (rt (GroupAvatar.packSignedGroupAvatarPushPayload re g)) ;
    match packed with
    | inr _ => sql_ret tt
    | inl (wire, sig, blob) =>
        if is_empty wire || is_empty sig then sql_ret tt
        else
          saved <-! sql_try (rt (GroupAvatar.persistOwnReplicatedGroupAvatar re wire sig)) ;
          match saved with
          | inr _ => sql_ret tt
          | inl _ =>
              Service.go (GPublishRecord Replicated.NamespaceGroupAvatarV1 wire sig blob) ;;!
              push_verified Replicated.NamespaceGroupAvatarV1 g wire sig blob
          end
    end.

(** [SaveGroupChatAvatar] of [group.go] *)
Definition SaveGroupChatAvatar (groupID : string) (image : bytes) (avatarChange : Z) : SV unit :=
  rt (Runtime.ensureSessionActive re) ;;!
  let g := TrimSpace groupID in
  if str_eqb g "" then sql_throw (ErrText "group ID is required")
  else if negb (se_stack se) || negb (re_db re) then sql_throw (ErrText "database not initialized")
  else
    rec <-! sql_wrap "group not found" (db (core (Store.GetGroupRecord g))) ;
    ty <-! Roster.of_result (Service.normalizeGroupTypeRuntime (gr_GroupType rec)) ;
    if negb (str_eqb ty "group") then sql_throw (ErrText "group avatar is only supported for group chats")
    else
      rt (Runtime.requireGroupPermission re g Runtime.permissionChangeGroupSetting) ;;!
      let saved := Service.go (GReplicateGroupAvatar g) ;;! Service.go (GAllMembersChanged "group_avatar") in
      if avatarChange =? 0 then sql_ret tt
      else if avatarChange =? 1 then
        if is_empty image then sql_throw (ErrText "avatar image bytes required when replacing group avatar")
        else
          mime <-! Roster.of_result (Profiles.validateAvatarImageBytes image) ;
          let hash := ProfileStore.AvatarContentHash image in
          db (ProfileStore.UpsertAvatarBlob hash mime image) ;;!
          now <-! unix_now ;
          db (GroupMeta.SetGroupChatAvatar g hash mime now) ;;! saved
      else if avatarChange =? 2 then db (GroupMeta.ClearGroupChatAvatar g) ;;! saved
      else sql_throw (ErrText "invalid avatarChange").

(** [replicateGroupInvitePolicyAfterLocalSave] *)
Definition replicateGroupInvitePolicyAfterLocalSave (groupID policy actorPeerID : string) : SV unit :=
  packed <-! sql_try (rt (InvitePolicy.packSignedGroupInvitePolicyPayload se groupID policy actorPeerID)) ;
  match packed with
  | inr _ => sql_ret tt
  | inl (wire, sig) =>
      if is_empty wire || is_empty sig then sql_ret tt
      else
        saved <-! sql_try (rt (InvitePolicy.persistOwnReplicatedGroupInvitePolicy se wire sig)) ;
        match saved with
        | inr _ => sql_ret tt
        | inl _ =>
            Service.go (GPublishRecord Replicated.NamespaceGroupInvitePolicyV1 wire sig []) ;;!
            push_verified Replicated.NamespaceGroupInvitePolicyV1 (TrimSpace groupID) wire sig []
        end
  end.

(** *** Records of other nodes *)

(** A stale record is not an error of a push. *)
Definition tolerate (stale : GoError) (m : SV unit) : SV unit :=
  r <-! sql_try m ;
  match r with
  | inl _ => sql_ret tt
  | inr e => if errors_Is e stale then sql_ret tt else sql_throw e
  end.

Definition apply_profile (owner : string) (wire signature blob : bytes) : SV unit :=
  rt (Profiles.applySignedRemoteProfilePush re owner wire signature blob).
Definition apply_avatar (signer : string) (wire signature blob : bytes) : SV unit :=
  rt (GroupAvatar.applySignedRemoteGroupAvatarPush re signer wire signature blob).
Definition apply_role (actor : string) (wire signature : bytes) : SV unit :=
  rt (Membership.applySignedRemoteGroupRolePush re actor (bytes_str wire) signature).
Definition apply_policy (actor : string) (wire signature : bytes) : SV unit :=
  InvitePolicy.applySignedRemoteGroupInvitePolicyPush se fuel actor wire signature.

Definition peer_verified (p : peerID) : bool :=
  match re_node re, se_auth se with Some _, Some l => bool_decide (p ∈ l) | _, _ => false end.

(** [handleReplicaStorePush] *)
Definition handleReplicaStorePush (remote : peerID) (meta : ReplicaPushMetaV1) (wire signature blob : bytes) : SV unit :=
  let ns := TrimSpace (pm_Namespace meta) in
  let key := TrimSpace (pm_RecordKey meta) in
  if negb (pm_V meta =? 1) then sql_throw (ErrText "unsupported replica meta version")
  else if negb (peer_verified remote) then sql_throw (ErrText "replica push: peer not verified")
  else if str_eqb ns Replicated.NamespaceUserProfileV1 then
    if str_eqb key "" || negb (str_eqb key (peer_String remote)) then sql_throw (ErrText "replica push record_key must match remote peer")
    else tolerate Profiles.errReplicationStaleProfile (apply_profile key wire signature blob)
  else if str_eqb ns Replicated.NamespaceGroupAvatarV1 then
    if str_eqb key "" then sql_throw (ErrText "replica push: group record_key required")
    else match json_Unmarshal wire with
         | None => sql_throw (ErrText "group avatar wire: invalid character in JSON")
         | Some w =>
             if negb (str_eqb (TrimSpace (gw_GroupID w)) key) then sql_throw (ErrText "replica push: group_id mismatch")
             else if negb (str_eqb (TrimSpace (gw_CreatorPeerID w)) (peer_String remote)) then
               sql_throw (ErrText "replica push: creator must match remote peer")
             else tolerate GroupAvatar.errReplicationStaleGroupAvatar (apply_avatar (peer_String remote) wire signature blob)
         end
  else if str_eqb ns Replicated.NamespaceGroupRoleV1 then
    if str_eqb key "" then sql_throw (ErrText "replica push: group role record_key required")
    else match re_role_Unmarshal re (bytes_str wire) with
         | None => sql_throw (ErrText "group role wire: invalid character in JSON")
         | Some w =>
             if negb (str_eqb (Membership.groupRoleRecordKey (rw_GroupID w) (rw_TargetPeerID w)) key) then
               sql_throw (ErrText "replica push: group role key mismatch")
             else if str_eqb (TrimSpace (rw_ActorPeerID w)) "" then sql_throw (ErrText "replica push: group role actor required")
             else tolerate Membership.errReplicationStaleGroupRole (apply_role (TrimSpace (rw_ActorPeerID w)) wire signature)
         end
  else if str_eqb ns Replicated.NamespaceGroupInvitePolicyV1 then
    if str_eqb key "" then sql_throw (ErrText "replica push: group invite policy record_key required")
    else match json_Unmarshal wire with
         | None => sql_throw (ErrText "group invite policy wire: invalid character in JSON")
         | Some w =>
             if negb (str_eqb (TrimSpace (ow_GroupID w)) key) then sql_throw (ErrText "replica push: group invite policy key mismatch")
             else if str_eqb (TrimSpace (ow_ActorPeerID w)) "" then sql_throw (ErrText "replica push: group invite policy actor required")
             else tolerate InvitePolicy.errReplicationStaleGroupInvitePolicy (apply_policy (TrimSpace (ow_ActorPeerID w)) wire signature)
         end
  else sql_throw (ErrText "unsupported namespace").

(** The stream handler of the push protocol: an error is logged *)
Definition handle_push_stream (remote : peerID) (input : bytes) : SV unit :=
  match ReplicaFrames.read_push input with
  | Some (meta, wire, sig, blob) => sql_ignore (handleReplicaStorePush remote meta wire sig blob)
  | None => sql_ret tt
  end.

(** [handleUserProfilePush] of [profile.go] *)
Definition handleUserProfilePush (remote : peerID) (wire signature blob : bytes) : SV unit :=
  if negb (peer_verified remote) then sql_throw (ErrText "profile push: peer not verified")
  else tolerate Profiles.errReplicationStaleProfile (apply_profile (peer_String remote) wire signature blob).

(** The stream handler of the profile protocol *)
Definition handle_profile_stream (remote : peerID) (input : bytes) : SV unit :=
  match ReplicaFrames.read_profile_push input with
  | Some (wire, sig, blob) => sql_ignore (handleUserProfilePush remote wire sig blob)
  | None => sql_ret tt
  end.

(** *** Serving a pull *)

(** [avatarBlobAttachmentForProfileWire], [avatarBlobAttachmentForGroupAvatarWire]: the
    blob of the hash a wire names *)
Definition attachment (hash : option string) : SV bytes :=
  let h := TrimSpace (ToLower (default "" hash)) in
  if str_eqb h "" || negb (re_db re) then sql_ret []
  else b <-! sql_try (db (ProfileStore.GetAvatarBlob h)) ; sql_ret (match b with inl b => b.2 | inr _ => [] end).
Definition avatarBlobAttachmentForProfileWire (wire : bytes) : SV bytes := attachment (pf_AvatarHash <$> json_Unmarshal wire).
Definition avatarBlobAttachmentForGroupAvatarWire (wire : bytes) : SV bytes := attachment (gw_AvatarHash <$> json_Unmarshal wire).

(** The loop over the keys: what is written, and the error that ended it *)
Fixpoint serve_keys (ns : string) (attach : bytes -> SV bytes) (cursors : gmap string Z) (keys : list string)
  : SV (bytes * option GoError) :=
  match keys with
  | [] => sql_ret ([], None)
  | k :: keys =>
      let key := TrimSpace k in
      if str_eqb key "" then serve_keys ns attach cursors keys
      else
        row <-! sql_try (db (Replicated.GetReplicatedRecord ns key)) ;
        match row with
        | inr _ => serve_keys ns attach cursors keys
        | inl row =>
            if rr_Revision row <=? default 0 (cursors !! key) then serve_keys ns attach cursors keys
            else
              let body := str_bytes (rr_BodyJSON row) in
              blob <-! attach body ;
              match ReplicaFrames.emit_record key (rr_Revision row) body (rr_Signature row) blob with
              | (b, Some e) => sql_ret (b, Some e)
              | (b, None) => rest <-! serve_keys ns attach cursors keys ; sql_ret (b ++ rest.1, rest.2)
              end
        end
  end.

Definition no_blob (_ : bytes) : SV bytes := sql_ret [].
(** The namespaces that are served, with the bound on the keys and the blobs *)
Definition served (ns : string) : option (Z * (bytes -> SV bytes)) :=
  if str_eqb ns Replicated.NamespaceUserProfileV1 then Some (256, avatarBlobAttachmentForProfileWire)
  else if str_eqb ns Replicated.NamespaceGroupAvatarV1 then Some (256, avatarBlobAttachmentForGroupAvatarWire)
  else if str_eqb ns Replicated.NamespaceGroupRoleV1 then Some (512, no_blob)
  else if str_eqb ns Replicated.NamespaceGroupInvitePolicyV1 then Some (256, no_blob)
  else None.

(** [serveReplicaStoreP2P] *)
Definition serveReplicaStoreP2P (remote : peerID) (req : ReplicaPullRequestV1) : SV (bytes * option GoError) :=
  let failed msg := sql_ret ([], Some (ErrText msg)) in
  if negb (pq_V req =? 1) then failed "unsupported pull version"
  else if negb (bool_decide (is_Some (re_node re))) || negb (re_db re) then failed "app not ready"
  else if negb (peer_verified remote) then failed "replica pull: peer not verified"
  else match served (TrimSpace (pq_Namespace req)) with
       | Some (max, attach) =>
           if Z.of_nat (length (pq_Keys req)) >? max then failed "replica pull: too many keys"
           else serve_keys (TrimSpace (pq_Namespace req)) attach (pq_Cursors req) (pq_Keys req)
       | None => sql_ret ([], None)
       end.

(** The stream handler of the sync protocol: what it writes, with the empty
    frame at the end unless serving failed *)
Definition end_frame : bytes := Auth.put_be32 0.
Definition handle_sync_stream (remote : peerID) (input : bytes) : SV bytes :=
  match ReplicaFrames.read_request input with
  | None => sql_ret []
  | Some req => r <-! serveReplicaStoreP2P remote req ;
                sql_ret (match r with (b, None) => b ++ end_frame | (b, Some _) => b end)
  end.

(** *** Pulling *)

(** The loop of [PullReplicaStoreRecords] over the answer; a round takes at least
    four bytes, so that [steps] above the length of the stream are enough. *)
Fixpoint read_records (steps : nat) (s : bytes) (onRecord : ReplicaFrames.Pulled -> SV unit) : SV unit :=
  match steps with
  | O => sql_throw (ErrText "unexpected EOF")
  | S steps =>
      match ReplicaFrames.next_record s with
      | inr e => sql_throw e
      | inl None => sql_ret tt
      | inl (Some (rec, s)) => onRecord rec ;;! read_records steps s onRecord
      end
  end.

(** [PullReplicaStoreRecords] *)
Definition PullReplicaStoreRecords (remote : peerID) (req : ReplicaPullRequestV1) (onRecord : ReplicaFrames.Pulled -> SV unit) : SV unit :=
  match ReplicaFrames.write_request req with
  | inr e => sql_throw e
  | inl _ =>
      match answer remote (mkPullRequest 1 (pq_Namespace req) (pq_Keys req) (pq_Cursors req)) with
      | inr e => sql_throw e
      | inl s => read_records (S (length s)) s onRecord
      end
  end.

(** What a pull does with a record once it has been applied: the cursor moves
    when the record was merged or is older than the one that is there; a record
    that is refused is left out. *)
Definition settle_record (remote : peerID) (ns : string) (stale : GoError) (rec : ReplicaFrames.Pulled) (m : SV unit) : SV unit :=
  r <-! sql_try m ;
  let move := db (Replicated.UpsertReplicatedPullCursor (peer_String remote) ns (ReplicaFrames.pu_key rec) (ReplicaFrames.pu_revision rec)) in
  match r with
  | inl _ => move
  | inr e => if errors_Is e stale then move else sql_ret tt
  end.

Definition on_profile (remote : peerID) (rec : ReplicaFrames.Pulled) : SV unit :=
  settle_record remote Replicated.NamespaceUserProfileV1 Profiles.errReplicationStaleProfile rec
    (apply_profile (ReplicaFrames.pu_key rec) (ReplicaFrames.pu_wire rec) (ReplicaFrames.pu_signature rec) (ReplicaFrames.pu_blob rec)).
Definition on_avatar (remote : peerID) (rec : ReplicaFrames.Pulled) : SV unit :=
  match json_Unmarshal (ReplicaFrames.pu_wire rec) with
  | None => sql_ret tt
  | Some w =>
      let creator := TrimSpace (gw_CreatorPeerID w) in
      if str_eqb creator "" then sql_ret tt
      else settle_record remote Replicated.NamespaceGroupAvatarV1 GroupAvatar.errReplicationStaleGroupAvatar rec
             (apply_avatar creator (ReplicaFrames.pu_wire rec) (ReplicaFrames.pu_signature rec) (ReplicaFrames.pu_blob rec))
  end.
Definition on_role (remote : peerID) (rec : ReplicaFrames.Pulled) : SV unit :=
  match re_role_Unmarshal re (bytes_str (ReplicaFrames.pu_wire rec)) with
  | None => sql_ret tt
  | Some w =>
      let actor := TrimSpace (rw_ActorPeerID w) in
      if str_eqb actor "" then sql_ret tt
      else settle_record remote Replicated.NamespaceGroupRoleV1 Membership.errReplicationStaleGroupRole rec
             (apply_role actor (ReplicaFrames.pu_wire rec) (ReplicaFrames.pu_signature rec))
  end.
Definition on_policy (remote : peerID) (rec : ReplicaFrames.Pulled) : SV unit :=
  match json_Unmarshal (ReplicaFrames.pu_wire rec) with
  | None => sql_ret tt
  | Some w =>
      let actor := TrimSpace (ow_ActorPeerID w) in
      if str_eqb actor "" then sql_ret tt
      else settle_record remote Replicated.NamespaceGroupInvitePolicyV1 InvitePolicy.errReplicationStaleGroupInvitePolicy rec
             (apply_policy actor (ReplicaFrames.pu_wire rec) (ReplicaFrames.pu_signature rec))
  end.

(** The cursors of a request *)
Fixpoint read_cursors (remote : peerID) (ns : string) (keys : list string) (acc : gmap string Z) : SV (gmap string Z) :=
  match keys with
  | [] => sql_ret acc
  | k :: keys =>
      cur <-! db (Replicated.GetReplicatedPullCursor (peer_String remote) ns k) ;
      read_cursors remote ns keys (<[k := cur]> acc)
  end.
Definition pull_request (remote : peerID) (ns : string) (keys : list string) : SV ReplicaPullRequestV1 :=
  cursors <-! read_cursors remote ns keys ∅ ; sql_ret (mkPullRequest 0 ns keys cursors).

(** Keys without repetitions, in order *)
Fixpoint dedup_keys (seen : gset string) (keys : list string) : list string :=
  match keys with
  | [] => []
  | k :: keys => if bool_decide (k ∈ seen) then dedup_keys seen keys else k :: dedup_keys ({[k]} ∪ seen) keys
  end.

(** [buildReplicatedProfilePullRequest] *)
Definition buildReplicatedProfilePullRequest (remote self : peerID) : SV ReplicaPullRequestV1 :=
  known <-! db (ProfileStore.ListKnownProfilePeerIDs (peer_String self) 256) ;
  pull_request remote Replicated.NamespaceUserProfileV1 (dedup_keys ∅ (peer_String remote :: known)).

(** [buildReplicatedGroupAvatarPullRequest], [buildReplicatedGroupInvitePolicyPullRequest];
    [None] is the nil of a request without keys *)
Definition group_request (ns : string) (remote : peerID) : SV (option ReplicaPullRequestV1) :=
  keys <-! db (GroupMeta.ListJoinedGroupChatIDsForReplication 256) ;
  if is_empty keys then sql_ret None else req <-! pull_request remote ns keys ; sql_ret (Some req).
Definition buildReplicatedGroupAvatarPullRequest : peerID -> SV (option ReplicaPullRequestV1) :=
  group_request Replicated.NamespaceGroupAvatarV1.
Definition buildReplicatedGroupInvitePolicyPullRequest : peerID -> SV (option ReplicaPullRequestV1) :=
  group_request Replicated.NamespaceGroupInvitePolicyV1.

(** [buildReplicatedGroupRolePullRequest] *)
Fixpoint role_keys (groups : list string) : SV (list string) :=
  match groups with
  | [] => sql_ret []
  | g :: groups =>
      members <-! sql_try (db (Roster.ListGroupMembers g [])) ;
      rest <-! role_keys groups ;
      sql_ret (match members with
        | inl ms => ((fun m => Membership.groupRoleRecordKey g (gm_PeerID m)) <$>
            List.filter (fun m => negb (str_eqb (gm_PeerID m) "") && str_eqb (gm_Status m) Roster.GroupMemberStatusActive) ms)
        | inr _ => [] end ++ rest)
  end.
Definition buildReplicatedGroupRolePullRequest (remote : peerID) : SV (option ReplicaPullRequestV1) :=
  groups <-! db (GroupMeta.ListJoinedGroupChatIDsForReplication 256) ;
  keys <-! role_keys groups ;
  let keys := dedup_keys ∅ (List.filter (fun k => negb (str_eqb k "|")) keys) in
  if is_empty keys then sql_ret None
  else req <-! pull_request remote Replicated.NamespaceGroupRoleV1 keys ; sql_ret (Some req).

Definition pull_optional (remote : peerID) (req : option ReplicaPullRequestV1) (onRecord : ReplicaFrames.Pulled -> SV unit) : SV unit :=
  match req with Some req => PullReplicaStoreRecords remote req onRecord | None => sql_ret tt end.

(** [pullReplicatedProfilesFromPeerOnce] *)
Definition pullReplicatedProfilesFromPeerOnce (remote : peerID) : SV unit :=
  match re_node re, re_db re, se_auth se with
  | Some self, true, Some verified =>
      if negb (bool_decide (remote ∈ verified)) then sql_throw (ErrText "peer not verified")
      else
        req <-! buildReplicatedProfilePullRequest remote self ;
        PullReplicaStoreRecords remote req (on_profile remote) ;;!
        greq <-! buildReplicatedGroupAvatarPullRequest remote ;
        pull_optional remote greq (on_avatar remote) ;;!
        rreq <-! buildReplicatedGroupRolePullRequest remote ;
        pull_optional remote rreq (on_role remote) ;;!
        preq <-! buildReplicatedGroupInvitePolicyPullRequest remote ;
        pull_optional remote preq (on_policy remote)
  | _, _, _ => sql_ret tt
  end.

(** A round of [replicatedProfileRepairLoop] *)
Fixpoint pull_each (peers : list peerID) : SV unit :=
  match peers with [] => sql_ret tt | p :: peers => Service.go (GPullReplicas p) ;;! pull_each peers end.
Definition repair_round : SV unit :=
  match re_node re, se_auth se with
  | Some self, Some verified =>
      pull_each (filter (fun p => p <> self) verified) ;;!
      if negb (re_db re) then sql_ret tt
      else
        now <-! unix_now ;
        let cutoff := now - 7 * 24 * 3600 in
        sql_ignore (db (Replicated.GCUnreferencedReplicatedBlobs cutoff 128)) ;;!
        sql_ignore (db (ProfileStore.GCUnreferencedAvatarBlobs cutoff 128))
  | _, _ => sql_ret tt
  end.

End Methods.

Section Schedule.
Context {PC : PeerCodec} {ED : Ed25519} {WC : WireCodec} {PJ : PayloadJSON}.
Context {JP : JSON profileWireV1} {JA : JSON groupAvatarWireV1} {JO : JSON groupInvitePolicyWireV1}.
Context {JM : JSON ReplicaPushMetaV1} {JQ : JSON ReplicaPullRequestV1} {JH : JSON ReplicaPullRecordHeaderV1}.
Variable se : SvEnv.
Variable fuel : nat.
(** of each attempt: whether the peer is connected, and what it answers *)
Variable connected : nat -> bool.
Variable answers : nat -> peerID -> ReplicaPullRequestV1 -> result bytes.

(** [scheduleReplicatedProfilePull]: three pulls at most, one after the other,
    as long as the peer is connected and does not know the protocol *)
Fixpoint scheduled_pull (attempts : nat) (remote : peerID) : SV unit :=
  match attempts with
  | O => sql_ret tt
  | S attempts =>
      if negb (bool_decide (is_Some (re_node (se_rt se)))) || negb (connected attempts) then sql_ret tt
      else
        r <-! sql_try (pullReplicatedProfilesFromPeerOnce se (answers attempts) fuel remote) ;
        match r with
        | inl _ => sql_ret tt
        | inr e => if Contains (err_Error e) "protocols not supported" then scheduled_pull attempts remote else sql_ret tt
        end
  end.
Definition scheduleReplicatedProfilePull : peerID -> SV unit := scheduled_pull 3.
End Schedule.
End Replication.
