(* ===== verification/BlindStore.v ===== *)
(** * The blind store

    [service/blind_store.go]: envelopes, key packages, Welcomes and replicated
    records are published on a gossip topic for the peers that are closest to
    them; a peer retains what is targeted to it, a store node retains all.

    The peers of the topic, the answers of the routing table and the order in
    which Go iterates over a map are arguments. *)
From S2P Require Import Prelude GoStrings Sha256 Types Config Hlc Epoch ActiveView SingleWriter.
From S2P Require Import ForkDetector Helpers Database Store StoreSpec HealStore AppDatabase Identity Roster.
From S2P Require Import InviteStore Replicated AddOperations InviteRequests Wire.
From S2P Require Import Runtime Categories CategoryService Auth Frames Membership Profiles ReplicaFrames.
From S2P Require Import Coordinator CoordBroadcast CoordApplication CoordCommit.
From S2P Require Import CoordMessage CoordMembers.
From S2P Require Import CoordReplay CoordHeal Node Service Invites InviteFlow Replication.

Module BlindStore.

Definition blindStoreTopic : string := "/org/offline-store/v1".
Definition blindStoreObjectEnvelope : string := "group-envelope".
Definition blindStoreObjectKeyPackage : string := "key-package".
Definition blindStoreObjectWelcome : string := "welcome".
Definition blindStoreObjectReplicatedRecord : string := "replicated-record".

(** [blindStoreLayer] *)
Record blindStoreLayer := mkLayer { bl_participant : bool; bl_storeNode : bool; bl_replicaK : Z }.

(** The layer that runs, the peers on the topic, the routing table, and the
    order of the iteration over a set of peers *)
Record BlindEnv := mkBlindEnv {
  be_layer : option blindStoreLayer;
  be_ListPeers : list peerID;
  be_DHT : option (string -> result (list peerID));
  be_order : gset peerID -> list peerID;
}.

(** [initBlindStoreLocked]: the layer, and whether it reads the topic; [join] and
    [subscribe] are the errors of the topic *)
Definition initBlindStoreLocked (running : bool) (participant storeNode : bool) (replicaK : Z) (join subscribe : option GoError)
  : result (option (blindStoreLayer * bool)) :=
  if negb running then inl None
  else match join with
       | Some e => inr (ErrWrap "blind-store join topic" e)
       | None =>
           let layer := mkLayer participant storeNode replicaK in
           if participant || storeNode then
             match subscribe with
             | Some e => inr (ErrWrap "blind-store subscribe" e)
             | None => inl (Some (layer, true))
             end
           else inl (Some (layer, false))
       end.

(** ** Routing *)

(** [xorDistance] *)
Fixpoint xor_bytes (a b : bytes) : list N :=
  match a, b with
  | x :: a, y :: b => N.lxor (Byte.to_N x) (Byte.to_N y) :: xor_bytes a b
  | _, _ => []
  end.
Definition xorDistance (a b : bytes) : Z :=
  if negb (length a =? length b)%nat then 0
  else foldl (fun v x => v * 256 + Z.of_N x) 0 (xor_bytes a b).

(** The loop over the answer of the routing table: the candidates it names, and
    those that are left *)
Fixpoint pick (named : list peerID) (candidates : gset peerID) : list peerID * gset peerID :=
  match named with
  | [] => ([], candidates)
  | p :: named =>
      if bool_decide (p ∈ candidates) then let '(l, rest) := pick named (candidates ∖ {[p]}) in (p :: l, rest)
      else pick named candidates
  end.

Section Routing.
Context {PC : PeerCodec} (se : SvEnv) (be : BlindEnv).
Abbreviation re := (se_rt se).

(** [sortByXORDistance] *)
Definition distance (routingKey : string) (p : peerID) : Z :=
  xorDistance (sha256_sum (str_bytes routingKey)) (sha256_sum (str_bytes (peer_String p))).
Definition sortByXORDistance (peers : list peerID) (routingKey : string) : list peerID :=
  stable_sort (fun i j => distance routingKey i <? distance routingKey j) peers.

(** [closestByRoutingKey] *)
Definition named_by_dht (routingKey : string) : list peerID :=
  match be_DHT be with
  | Some closest => if str_eqb routingKey "" then [] else match closest routingKey with inl l => l | inr _ => [] end
  | None => []
  end.
Definition closestByRoutingKey (eligible : list peerID) (routingKey : string) : list peerID :=
  let '(ordered, rest) := pick (named_by_dht routingKey) (list_to_set eligible) in
  if bool_decide (rest = ∅) then ordered else ordered ++ sortByXORDistance (be_order be rest) routingKey.

(** The peers of the topic without the node itself and those not verified *)
Definition eligible (local : peerID) : list peerID :=
  List.filter (fun p => negb (bool_decide (p = local)) &&
    match se_auth se with Some verified => bool_decide (p ∈ verified) | None => true end) (be_ListPeers be).

(** [selectReplicaTargets] *)
Definition selectReplicaTargets (layer : blindStoreLayer) (local : peerID) (routingKey : string) : list string :=
  if bl_replicaK layer <=? 0 then []
  else if negb (bool_decide (is_Some (re_node re))) then []
  else if is_empty (eligible local) then []
  else peer_String <$> take (Z.to_nat (bl_replicaK layer)) (closestByRoutingKey (eligible local) routingKey).

(** [blindStoreFetchCandidates] *)
Definition blindStoreFetchCandidates (local : peerID) (routingKey : string) : list peerID :=
  match be_layer be, re_node re with
  | Some _, Some _ => if is_empty (eligible local) then [] else closestByRoutingKey (eligible local) routingKey
  | _, _ => []
  end.
End Routing.

(** ** Publishing *)

Section Publishing.
Context {PC : PeerCodec} {JA : JSON groupAvatarWireV1} {JO : JSON groupInvitePolicyWireV1} {JB : JSON blindStoreEnvelopeV1}.
Variable se : SvEnv.
Variable be : BlindEnv.
Abbreviation re := (se_rt se).
Abbreviation db := Service.db.

(** The frames *)
Definition envelope_frame (msgType groupID : string) (wire : bytes) (now : Z) (targets : list string) : blindStoreEnvelopeV1 :=
  mkBlindObject 1 now blindStoreObjectEnvelope groupID msgType wire (sha256_sum wire) "" [] "" "" "" "" [] 0 [] targets "" "" [] [] [].
Definition key_package_frame (peer : string) (kp : bytes) (now : Z) (targets : list string) : blindStoreEnvelopeV1 :=
  mkBlindObject 1 now blindStoreObjectKeyPackage "" "" [] [] peer kp "" "" "" "" [] 0 [] targets "" "" [] [] [].
Definition welcome_frame (invitee groupID groupType categoryID source : string) (welcome : bytes) (anchorEpoch : Z)
  (anchorHistoryHash : bytes) (now : Z) (targets : list string) : blindStoreEnvelopeV1 :=
  mkBlindObject 1 now blindStoreObjectWelcome groupID "" [] [] "" [] invitee groupType categoryID source welcome anchorEpoch
    anchorHistoryHash targets "" "" [] [] [].
Definition record_frame (ns key : string) (wire signature blob : bytes) (now : Z) (targets : list string) : blindStoreEnvelopeV1 :=
  mkBlindObject 1 now blindStoreObjectReplicatedRecord "" "" [] [] "" [] "" "" "" "" [] 0 [] targets ns key wire signature blob.

(** [publishBlindStoreFrame] *)
Definition publishBlindStoreFrame (frame : blindStoreEnvelopeV1) : SV unit :=
  match be_layer be with
  | Some _ => Service.out (PublishTopic blindStoreTopic (json_Marshal frame))
  | None => sql_ret tt
  end.

(** [publishBlindStoreEnvelopeToTargets] *)
Definition publishBlindStoreEnvelopeToTargets (msgType : MessageType) (groupID : string) (wire : bytes) (targets : list string) : SV unit :=
  if is_empty targets || is_empty wire then sql_ret tt
  else now <-! unix_milli_now ; publishBlindStoreFrame (envelope_frame msgType groupID wire now targets).

Definition storable (msgType : MessageType) : bool := str_eqb msgType MsgApplication || str_eqb msgType MsgCommit.
(** [publishBlindStoreEnvelope] *)
Definition publishBlindStoreEnvelope (msgType : MessageType) (groupID : string) (wire : bytes) : SV unit :=
  match be_layer be, re_node re with
  | Some layer, Some self =>
      if is_empty wire || negb (storable msgType) then sql_ret tt
      else publishBlindStoreEnvelopeToTargets msgType groupID wire
             (selectReplicaTargets se be layer self ("env:" +:+ groupID +:+ ":" +:+ hex_EncodeToString (sha256_sum wire)))
  | _, _ => sql_ret tt
  end.

(** [publishBlindStoreKeyPackage] *)
Definition publishBlindStoreKeyPackage (peer : string) (publicKP : bytes) : SV unit :=
  match be_layer be, re_node re with
  | Some layer, Some self =>
      if str_eqb peer "" || is_empty publicKP then sql_ret tt
      else now <-! unix_milli_now ;
           publishBlindStoreFrame (key_package_frame peer publicKP now (selectReplicaTargets se be layer self ("kp:" +:+ peer)))
  | _, _ => sql_ret tt
  end.

(** [publishBlindStoreWelcome] *)
Definition publishBlindStoreWelcome (invitee groupID groupType categoryID : string) (welcome : bytes) (anchorEpoch : Z)
  (anchorHistoryHash : bytes) : SV unit :=
  match be_layer be, re_node re with
  | Some layer, Some self =>
      if str_eqb invitee "" || str_eqb groupID "" || is_empty welcome then sql_ret tt
      else
        creator <-! (if re_db re then
                       c <-! sql_try (db (Roster.GetGroupCreatorPeerID groupID)) ;
                       sql_ret (match c with inl c => if str_eqb c "" then peer_String self else c | inr _ => peer_String self end)
                     else sql_ret (peer_String self)) ;
        now <-! unix_milli_now ;
        publishBlindStoreFrame (welcome_frame invitee groupID groupType categoryID creator welcome anchorEpoch anchorHistoryHash now
          (selectReplicaTargets se be layer self ("welcome:" +:+ invitee +:+ ":" +:+ groupID)))
  | _, _ => sql_ret tt
  end.

(** The common end of the four functions that publish a record *)
Definition publish_record (layer : blindStoreLayer) (self : peerID) (ns key : string) (wire signature blob : bytes) : SV unit :=
  let routing := "replica:" +:+ ns +:+ ":" +:+ key +:+ ":" +:+ hex_EncodeToString (sha256_sum wire) in
  now <-! unix_milli_now ;
  publishBlindStoreFrame (record_frame ns key wire signature blob now (selectReplicaTargets se be layer self routing)).

(** [publishBlindStoreReplicatedProfile] *)
Definition publishBlindStoreReplicatedProfile (wire signature blob : bytes) : SV unit :=
  match be_layer be, re_node re with
  | Some layer, Some self =>
      if is_empty wire then sql_ret tt
      else info <-! sql_try (Service.rt (Runtime.GetOnboardingInfo re)) ;
           match info with
           | inr _ => sql_ret tt
           | inl key => publish_record layer self Replicated.NamespaceUserProfileV1 key wire signature blob
           end
  | _, _ => sql_ret tt
  end.

(** [publishBlindStoreReplicatedGroupAvatar] *)
Definition publishBlindStoreReplicatedGroupAvatar (wire signature blob : bytes) : SV unit :=
  match be_layer be, re_node re with
  | Some layer, Some self =>
      if negb (re_db re) || negb (bool_decide (is_Some (re_privKey re))) || is_empty wire then sql_ret tt
      else match json_Unmarshal wire with
           | None => sql_ret tt
           | Some w => let g := TrimSpace (gw_GroupID w) in
                       if str_eqb g "" then sql_ret tt
                       else publish_record layer self Replicated.NamespaceGroupAvatarV1 g wire signature blob
           end
  | _, _ => sql_ret tt
  end.

(** [publishBlindStoreReplicatedGroupRole] *)
Definition publishBlindStoreReplicatedGroupRole (wire signature : bytes) : SV unit :=
  match be_layer be, re_node re with
  | Some layer, Some self =>
      if is_empty wire then sql_ret tt
      else match re_role_Unmarshal re (bytes_str wire) with
           | None => sql_ret tt
           | Some w =>
               let key := Membership.groupRoleRecordKey (rw_GroupID w) (rw_TargetPeerID w) in
               if str_eqb (TrimSpace (rw_GroupID w)) "" || str_eqb (TrimSpace (rw_TargetPeerID w)) "" || str_eqb key "|" then sql_ret tt
               else publish_record layer self Replicated.NamespaceGroupRoleV1 key wire signature []
           end
  | _, _ => sql_ret tt
  end.

(** [publishBlindStoreReplicatedGroupInvitePolicy] *)
Definition publishBlindStoreReplicatedGroupInvitePolicy (wire signature : bytes) : SV unit :=
  match be_layer be, re_node re with
  | Some layer, Some self =>
      if is_empty wire then sql_ret tt
      else match json_Unmarshal wire with
           | None => sql_ret tt
           | Some w => let g := TrimSpace (ow_GroupID w) in
                       if str_eqb g "" then sql_ret tt
                       else publish_record layer self Replicated.NamespaceGroupInvitePolicyV1 g wire signature []
           end
  | _, _ => sql_ret tt
  end.

(** [replicateRecentEnvelopesToStorePeer] *)
Definition coord_ids : SV (list string) := fun _ t s => (inl (stable_sort str_ltb (elements (dom (sv_coords s)))), t, s).
Fixpoint publish_envelopes (recs : list EnvelopeRecord) (targets : list string) : SV unit :=
  match recs with
  | [] => sql_ret tt
  | r :: recs =>
      (if storable (er_MsgType r) then publishBlindStoreEnvelopeToTargets (er_MsgType r) (er_GroupID r) (er_Envelope r) targets
       else sql_ret tt) ;;! publish_envelopes recs targets
  end.
Fixpoint publish_groups (groups : list string) (targets : list string) : SV unit :=
  match groups with
  | [] => sql_ret tt
  | g :: groups =>
      recs <-! sql_try (db (core (Store.GetEnvelopesSince g 0 500))) ;
      match recs with inl recs => publish_envelopes recs targets | inr _ => sql_ret tt end ;;!
      publish_groups groups targets
  end.
Definition replicateRecentEnvelopesToStorePeer (storePeer : peerID) : SV unit :=
  match re_node re with
  | None => sql_ret tt
  | Some _ =>
      if negb (se_stack se) || str_eqb storePeer "" then sql_ret tt
      else if match se_auth se with Some verified => negb (bool_decide (storePeer ∈ verified)) | None => false end then sql_ret tt
      else ids <-! coord_ids ; publish_groups ids [peer_String storePeer]
  end.
End Publishing.

(** ** Retaining *)

Section Retaining.
Context {PC : PeerCodec} {ED : Ed25519} {WC : WireCodec} {PJ : PayloadJSON}.
Context {JP : JSON profileWireV1} {JA : JSON groupAvatarWireV1} {JO : JSON groupInvitePolicyWireV1} {JB : JSON blindStoreEnvelopeV1}.
Variable se : SvEnv.
Variable fuel : nat.
Abbreviation re := (se_rt se).
Abbreviation db := Service.db.

(** An envelope *)
Definition retain_envelope (msg : blindStoreEnvelopeV1) : SV unit :=
  if negb (se_stack se) then sql_ret tt
  else if str_eqb (bo_GroupID msg) "" || is_empty (bo_Envelope msg) then sql_ret tt
  else match dec_envelope (bo_Envelope msg) with
       | inr _ => sql_ret tt
       | inl env =>
           if negb (str_eqb (env_GroupID env) (bo_GroupID msg)) then sql_ret tt
           else if negb (storable (env_Type env)) then sql_ret tt
           else
             seq <-! sql_try (db (core (Store.AppendEnvelopeWithSource (env_GroupID env) (env_Type env) (env_Epoch env) (env_Timestamp env)
                      (bo_Envelope msg) "blind_store"))) ;
             match seq with
             | inl seq => if seq >? 0 then Service.go (GReplayPending (bo_GroupID msg) "blind_store") else sql_ret tt
             | inr _ => sql_ret tt
             end
       end.

(** A key package *)
Definition retain_key_package (from : peerID) (msg : blindStoreEnvelopeV1) : SV unit :=
  if str_eqb (bo_PeerID msg) "" || is_empty (bo_PublicKP msg) || (bo_PublishedAt msg <=? 0) then sql_ret tt
  else sql_ignore (db (InviteStore.SaveStoredKeyPackageIfNewer (bo_PeerID msg) (bo_PublicKP msg) (peer_String from) (bo_PublishedAt msg))).

(** A Welcome *)
Definition retain_welcome (from self : peerID) (msg : blindStoreEnvelopeV1) : SV unit :=
  if str_eqb (bo_InviteePeerID msg) "" || str_eqb (bo_GroupID msg) "" || is_empty (bo_Welcome msg) || (bo_PublishedAt msg <=? 0)
  then sql_ret tt
  else
    let src := if str_eqb (TrimSpace (bo_SourcePeerID msg)) "" then peer_String from else TrimSpace (bo_SourcePeerID msg) in
    sql_ignore (db (InviteStore.SaveStoredWelcomeIfNewer (bo_InviteePeerID msg) (bo_GroupID msg) (bo_GroupType msg) (bo_CategoryID msg)
      (bo_Welcome msg) src (bo_PublishedAt msg) (bo_AnchorEpoch msg) (bo_AnchorHistoryHash msg))) ;;!
    (if str_eqb (bo_InviteePeerID msg) (peer_String self)
     then sql_ignore (Invites.savePendingInviteFromWelcome se (bo_GroupID msg) (bo_GroupType msg) (bo_CategoryID msg) (bo_Welcome msg)
            src false (bo_AnchorEpoch msg) (bo_AnchorHistoryHash msg))
     else sql_ret tt).

(** A replicated record; an error is logged *)
Definition retain_record (msg : blindStoreEnvelopeV1) : SV unit :=
  let ns := TrimSpace (bo_RecordNamespace msg) in
  let key := TrimSpace (bo_RecordKey msg) in
  let wire := bo_RecordWireJSON msg in
  let sig := bo_RecordSignature msg in
  let complete (m : SV unit) : SV unit := if str_eqb key "" || is_empty wire || is_empty sig then sql_ret tt else sql_ignore m in
  if str_eqb ns Replicated.NamespaceUserProfileV1 then
    complete (Replication.apply_profile se key wire sig (bo_RecordBlob msg))
  else if str_eqb ns Replicated.NamespaceGroupAvatarV1 then
    complete (match json_Unmarshal wire with
              | None => sql_ret tt
              | Some w =>
                  if negb (str_eqb (TrimSpace (gw_GroupID w)) key) || str_eqb (TrimSpace (gw_CreatorPeerID w)) "" then sql_ret tt
                  else Replication.apply_avatar se (TrimSpace (gw_CreatorPeerID w)) wire sig (bo_RecordBlob msg)
              end)
  else if str_eqb ns Replicated.NamespaceGroupRoleV1 then
    complete (match re_role_Unmarshal re (bytes_str wire) with
              | None => sql_ret tt
              | Some w =>
                  if negb (str_eqb (Membership.groupRoleRecordKey (rw_GroupID w) (rw_TargetPeerID w)) key) ||
                     str_eqb (TrimSpace (rw_ActorPeerID w)) "" then sql_ret tt
                  else Replication.apply_role se (TrimSpace (rw_ActorPeerID w)) wire sig
              end)
  else if str_eqb ns Replicated.NamespaceGroupInvitePolicyV1 then
    complete (match json_Unmarshal wire with
              | None => sql_ret tt
              | Some w =>
                  if negb (str_eqb (TrimSpace (ow_GroupID w)) key) || str_eqb (TrimSpace (ow_ActorPeerID w)) "" then sql_ret tt
                  else Replication.apply_policy se fuel (TrimSpace (ow_ActorPeerID w)) wire sig
              end)
  else sql_ret tt.

(** What a message of the topic is for this node *)
Definition addressed (layer : blindStoreLayer) (from : peerID) (data : bytes) : option (peerID * blindStoreEnvelopeV1) :=
  match re_node re, re_db re with
  | Some self, true =>
      if match se_auth se with Some verified => negb (bool_decide (from ∈ verified)) | None => false end then None
      else match json_Unmarshal data with
           | None => None
           | Some msg =>
               if negb (bo_V msg =? 1) || str_eqb (bo_ObjectType msg) "" then None
               else if bl_storeNode layer || existsb (fun t => str_eqb t (peer_String self)) (bo_ReplicaTargets msg)
               then Some (self, msg) else None
           end
  | _, _ => None
  end.

(** [handleInbound] *)
Definition handleInbound (layer : blindStoreLayer) (from : peerID) (data : bytes) : SV unit :=
  match addressed layer from data with
  | None => sql_ret tt
  | Some (self, msg) =>
      let ty := bo_ObjectType msg in
      if str_eqb ty blindStoreObjectEnvelope then retain_envelope msg
      else if str_eqb ty blindStoreObjectKeyPackage then retain_key_package from msg
      else if str_eqb ty blindStoreObjectWelcome then retain_welcome from self msg
      else if str_eqb ty blindStoreObjectReplicatedRecord then retain_record msg
      else sql_ret tt
  end.

(** One message of [readLoop] *)
Definition read_message (layer : blindStoreLayer) (from : peerID) (data : bytes) : SV unit :=
  match re_node re with
  | Some self => if bool_decide (from = self) then sql_ret tt else handleInbound layer from data
  | None => sql_ret tt
  end.
End Retaining.
End BlindStore.
