(* ===== verification/BlindStoreSpec.v ===== *)
(** * The blind store finds what it published

    The order in which the store ranks peers is a strict order on the place in
    the answer of the routing table and then on the XOR distance, so that two
    nodes that see the same peers, each without itself, rank them alike.  What
    a node publishes is retained by the peers it targets and another node asks
    those peers first. *)
From S2P Require Import Prelude GoStrings Sha256 Types Config Hlc Epoch ActiveView SingleWriter.
From S2P Require Import ForkDetector Helpers Database Store StoreSpec HealStore AppDatabase Identity Roster.
From S2P Require Import InviteStore Replicated AddOperations InviteRequests Wire.
From S2P Require Import Runtime Categories CategoryService Auth Frames Membership Profiles ReplicaFrames.
From S2P Require Import Coordinator CoordBroadcast CoordApplication CoordCommit.
From S2P Require Import CoordMessage CoordMembers.
From S2P Require Import CoordReplay CoordHeal Node Service Invites InviteFlow Replication BlindStore.
Import BlindStore.

(** ** Distances *)

Lemma lxor_byte_bound x y : (N.lxor (Byte.to_N x) (Byte.to_N y) < 256)%N.
Proof. destruct x, y; vm_compute; reflexivity. Qed.
Lemma xor_bytes_length a b : length a = length b -> length (xor_bytes a b) = length a.
Proof. revert b. induction a as [|x a IH]; intros [|y b] H; simpl in *; try done. f_equal. apply IH. lia. Qed.
Lemma xor_bytes_bound a b : Forall (fun v => (v < 256)%N) (xor_bytes a b).
Proof. revert b. induction a as [|x a IH]; intros [|y b]; simpl; constructor; [apply lxor_byte_bound|apply IH]. Qed.
Lemma xor_bytes_inj k a b : length k = length a -> length k = length b -> xor_bytes k a = xor_bytes k b -> a = b.
Proof.
  revert a b. induction k as [|x k IH]; intros [|y a] [|z b] Ha Hb E; simpl in *; try done.
  injection E as Ex E. f_equal; [|apply IH; [lia|lia|done]]. apply to_N_inj.
  rewrite <-(N.lxor_0_l (Byte.to_N y)), <-(N.lxor_0_l (Byte.to_N z)), <-(N.lxor_nilpotent (Byte.to_N x)), !N.lxor_assoc.
  by rewrite Ex.
Qed.

(** Big-endian numbers of the same length are equal only when their digits are. *)
Lemma foldl_shift (l : list N) v : foldl (fun v x => v * 256 + Z.of_N x) v l = v * 256 ^ Z.of_nat (length l) + foldl (fun v x => v * 256 + Z.of_N x) 0 l.
Proof.
  revert v. induction l as [|x l IH]; intros v; cbn [foldl length]; [lia|]. rewrite IH, (IH (0 * 256 + Z.of_N x)).
  rewrite Nat2Z.inj_succ, Z.pow_succ_r by lia. lia.
Qed.
Lemma foldl_digits_bound l : Forall (fun v => (v < 256)%N) l -> 0 <= foldl (fun v x => v * 256 + Z.of_N x) 0 l < 256 ^ Z.of_nat (length l).
Proof.
  induction 1 as [|x l Hx _ IH]; cbn [foldl length]; [lia|]. rewrite foldl_shift. rewrite Nat2Z.inj_succ, Z.pow_succ_r by lia. nia.
Qed.
Lemma foldl_digits_inj l l' : length l = length l' -> Forall (fun v => (v < 256)%N) l -> Forall (fun v => (v < 256)%N) l' ->
  foldl (fun v x => v * 256 + Z.of_N x) 0 l = foldl (fun v x => v * 256 + Z.of_N x) 0 l' -> l = l'.
Proof.
  revert l'. induction l as [|x l IH]; intros [|y l'] Hlen H H' E; cbn [foldl length] in *; try done.
  inversion H as [|? ? Hx Hl]; inversion H' as [|? ? Hy Hl']; subst. rewrite (foldl_shift l), (foldl_shift l') in E.
  injection Hlen as Hlen. pose proof (foldl_digits_bound l Hl) as B. pose proof (foldl_digits_bound l' Hl') as B'. rewrite Hlen in *.
  assert (x = y) as -> by nia. f_equal. apply IH; [done..|lia].
Qed.

Lemma xorDistance_inj k a b : length k = length a -> length k = length b -> xorDistance k a = xorDistance k b -> a = b.
Proof.
  intros Ha Hb. unfold xorDistance. rewrite <-Ha, <-Hb, Nat.eqb_refl. simpl. intros E. apply (xor_bytes_inj k); [done..|].
  apply foldl_digits_inj; [|apply xor_bytes_bound..|done]. by rewrite !xor_bytes_length.
Qed.

(** ** The order of the peers *)

(** The place of a peer in the answer of the routing table. *)
Fixpoint place (named : list peerID) (p : peerID) : nat :=
  match named with
  | [] => O
  | q :: named => if bool_decide (p = q) then O else S (place named p)
  end.
Lemma place_le named p : (place named p <= length named)%nat.
Proof. induction named as [|q named IH]; simpl; [lia|]. case_bool_decide; lia. Qed.
Lemma place_in named p : p ∈ named <-> (place named p < length named)%nat.
Proof.
  induction named as [|q named IH]; simpl; [by rewrite elem_of_nil; split; [|lia]|]. rewrite elem_of_cons, IH.
  case_bool_decide; [split; [lia|by left]|]. split; [intros [?|?]; [done|lia]|right; lia].
Qed.

Lemma pick_elem named C p : (p ∈ (pick named C).1 <-> p ∈ C /\ p ∈ named) /\ (p ∈ (pick named C).2 <-> p ∈ C /\ p ∉ named).
Proof.
  revert C. induction named as [|q named IH]; intros C; simpl; [set_solver|]. case_bool_decide as Hq.
  - specialize (IH (C ∖ {[q]})). destruct (pick named (C ∖ {[q]})) as [l rest]. simpl in *. destruct IH as [I1 I2].
    rewrite elem_of_cons, I1, I2. destruct (decide (p = q)) as [->|]; set_solver.
  - specialize (IH C). destruct IH as [I1 I2]. rewrite I1, I2. destruct (decide (p = q)) as [->|]; set_solver.
Qed.
Lemma pick_sorted named C : StronglySorted (fun p q => (place named p < place named q)%nat) (pick named C).1.
Proof.
  assert (Hmono : forall named q l, q ∉ l -> StronglySorted (fun p q => (place named p < place named q)%nat) l ->
    StronglySorted (fun p q0 => (place (q :: named) p < place (q :: named) q0)%nat) l).
  { clear. intros named q l Hq Hs. induction Hs as [|x l _ IH Hx]; constructor; [set_solver|].
    rewrite Forall_forall in Hx |- *. intros y Hy. specialize (Hx y Hy). simpl. rewrite !bool_decide_false by set_solver. lia. }
  revert C. induction named as [|q named IH]; intros C; [constructor|]. cbn [pick]. case_bool_decide as Hq.
  - pose proof (IH (C ∖ {[q]})) as Hs. pose proof (fun p => proj1 (pick_elem named (C ∖ {[q]}) p)) as He.
    destruct (pick named (C ∖ {[q]})) as [l rest]. simpl in *. assert (q ∉ l) by (rewrite He; set_solver). constructor; [by apply Hmono|].
    apply Forall_forall. intros y Hy. simpl. rewrite (bool_decide_true (q = q)), bool_decide_false by set_solver. lia.
  - apply Hmono; [|apply IH]. rewrite (proj1 (pick_elem named C q)). tauto.
Qed.

Section Order.
Context {PC : PeerCodec} {PCL : PeerCodecLaws}.
Variable key : string.

(** [p] is ranked before [q]. *)
Definition nearer (named : list peerID) (p q : peerID) : Prop :=
  (place named p < place named q)%nat \/ place named p = place named q /\ distance key p < distance key q.
#[global] Instance nearer_dec named p q : Decision (nearer named p q).
Proof. unfold nearer. apply _. Qed.
Lemma nearer_asym named p q : nearer named p q -> ~ nearer named q p.
Proof. unfold nearer. lia. Qed.

Lemma distance_weak : StrictWeak (fun i j => distance key i <? distance key j).
Proof. split; intros; lia. Qed.

(** No two of the peers have the same hash. *)
Definition hashes_differ (peers : list peerID) : Prop :=
  forall p q, p ∈ peers -> q ∈ peers -> sha256_sum (str_bytes (peer_String p)) = sha256_sum (str_bytes (peer_String q)) -> p = q.

Lemma hashes_differ_NoDup peers : NoDup ((fun p => sha256_sum (str_bytes (peer_String p))) <$> peers) -> hashes_differ peers.
Proof.
  intros Hn p q [i Hi]%list_elem_of_lookup [j Hj]%list_elem_of_lookup E.
  assert (i = j) as ->; [|congruence]. eapply NoDup_lookup; [exact Hn| |]; rewrite list_lookup_fmap.
  - by rewrite Hi.
  - rewrite Hj. simpl. by rewrite E.
Qed.
Lemma hashes_differ_sub l l' : (forall p, p ∈ l -> p ∈ l') -> hashes_differ l' -> hashes_differ l.
Proof. intros H Hd p q Hp Hq. apply Hd; auto. Qed.

Lemma distance_inj peers p q : hashes_differ peers -> p ∈ peers -> q ∈ peers -> distance key p = distance key q -> p = q.
Proof. intros H Hp Hq E. apply H; [done..|]. by apply xorDistance_inj in E; rewrite ?Sha256.length_sha256. Qed.

Variable be : BlindEnv.
Hypothesis be_order_ok : forall C, be_order be C ≡ₚ elements C.

Lemma closest_elem E p : p ∈ closestByRoutingKey be E key <-> p ∈ E.
Proof.
  unfold closestByRoutingKey. pose proof (pick_elem (named_by_dht be key) (list_to_set E) p) as [H1 H2].
  destruct (pick _ _) as [l rest]. simpl in *. rewrite elem_of_list_to_set in H1, H2. case_bool_decide as Er.
  - rewrite H1. split; [tauto|]. intros Hp. split; [done|]. destruct (decide (p ∈ named_by_dht be key)); [done|].
    assert (p ∈ rest) as Hr by tauto. rewrite Er in Hr. set_solver.
  - unfold sortByXORDistance. rewrite elem_of_app, stable_sort_elem, be_order_ok, elem_of_elements, H1, H2.
    destruct (decide (p ∈ named_by_dht be key)); tauto.
Qed.

Lemma sort_strict peers : hashes_differ peers -> NoDup peers ->
  StronglySorted (fun p q => distance key p < distance key q) (sortByXORDistance peers key).
Proof.
  intros Hh Hn. pose proof distance_weak as Hw. pose proof (stable_sort_sorted (fun i j => distance key i <? distance key j) peers) as Hs.
  fold (sortByXORDistance peers key) in Hs. assert (Hp : sortByXORDistance peers key ≡ₚ peers) by apply stable_sort_perm.
  rewrite <-Hp in Hn. assert (Hin : forall x, x ∈ sortByXORDistance peers key -> x ∈ peers) by (intros x; by rewrite Hp).
  clear Hp. induction Hs as [|x l _ IH Hx]; constructor; [apply IH; [by inversion Hn|set_solver]|].
  rewrite Forall_forall in Hx |- *. intros y Hy. specialize (Hx y Hy). unfold sort_le in Hx.
  destruct (Z.eq_dec (distance key x) (distance key y)) as [E|]; [|lia].
  apply (distance_inj peers) in E as ->; [by inversion Hn|done|set_solver..].
Qed.

Lemma closest_sorted E : hashes_differ E -> StronglySorted (nearer (named_by_dht be key)) (closestByRoutingKey be E key).
Proof.
  intros Hh. unfold closestByRoutingKey. pose proof (pick_elem (named_by_dht be key) (list_to_set E)) as He.
  pose proof (pick_sorted (named_by_dht be key) (list_to_set E)) as Hs. destruct (pick _ _) as [l rest]. simpl in *.
  assert (Hl : StronglySorted (nearer (named_by_dht be key)) l).
  { eapply StronglySorted_impl; [|exact Hs]. intros p q H. by left. }
  case_bool_decide; [done|]. apply StronglySorted_app_2; [|done|].
  - intros p q Hp Hq. left. unfold sortByXORDistance in Hq. rewrite stable_sort_elem, be_order_ok, elem_of_elements in Hq.
    apply He in Hp as [_ Hp%place_in], Hq as [_ Hq]. rewrite place_in in Hq. lia.
  - assert (Hr : StronglySorted (fun p q => distance key p < distance key q) (sortByXORDistance (be_order be rest) key)).
    { apply sort_strict; [|rewrite be_order_ok; apply NoDup_elements]. intros p q. rewrite !be_order_ok, !elem_of_elements.
      intros [Hp _]%He [Hq _]%He. rewrite elem_of_list_to_set in Hp, Hq. by apply Hh. }
    assert (Hin : forall p, p ∈ sortByXORDistance (be_order be rest) key -> place (named_by_dht be key) p = length (named_by_dht be key)).
    { intros p. unfold sortByXORDistance. rewrite stable_sort_elem, be_order_ok, elem_of_elements. intros [_ Hp]%He.
      rewrite place_in in Hp. pose proof (place_le (named_by_dht be key) p). lia. }
    induction Hr as [|x t _ IH Hx]; constructor; [set_solver|]. rewrite Forall_forall in Hx |- *. intros y Hy. right.
    rewrite !Hin by set_solver. split; [done|]. by apply Hx.
Qed.
End Order.

Lemma filter_keeps_all {A} (P : A -> Prop) `{!forall x, Decision (P x)} l : Forall P l -> filter P l = l.
Proof. induction 1 as [|x l Hx _ IH]; [done|]. by rewrite filter_cons_True, IH. Qed.
Lemma filter_keeps_none {A} (P : A -> Prop) `{!forall x, Decision (P x)} l : Forall (fun x => ~ P x) l -> filter P l = [].
Proof. induction 1 as [|x l Hx _ IH]; [done|]. by rewrite filter_cons_False, IH. Qed.

Lemma sorted_NoDup {A} (R : A -> A -> Prop) l : (forall y, ~ R y y) -> StronglySorted R l -> NoDup l.
Proof.
  intros Hirr. induction 1 as [|x l _ IH Hx]; constructor; [|done]. intros Hin. rewrite Forall_forall in Hx. by apply (Hirr x), Hx.
Qed.

(** The place of an element of a sorted list is the number of elements before it. *)
Lemma sorted_take {A} (R : A -> A -> Prop) `{!forall x y, Decision (R x y)} (l : list A) x n :
  (forall y z, R y z -> ~ R z y) -> StronglySorted R l -> x ∈ l -> (x ∈ take n l <-> (length (filter (fun y => R y x) l) < n)%nat).
Proof.
  intros Hasym Hs Hx. apply list_elem_of_split in Hx as (l1 & l2 & ->).
  assert (H1 : filter (fun y => R y x) l1 = l1).
  { apply filter_keeps_all. apply Forall_forall. intros y Hy. apply (StronglySorted_app_1_elem_of _ _ _ _ _ Hs Hy). left. }
  apply StronglySorted_app_1_r in Hs. inversion Hs as [|? ? _ Hf]; subst. rewrite Forall_forall in Hf.
  assert (H2 : filter (fun y => R y x) (x :: l2) = []).
  { rewrite filter_cons_False by (intros Hxx; by apply (Hasym x x)). apply filter_keeps_none. apply Forall_forall. intros y Hy. by apply Hasym, Hf. }
  rewrite filter_app, H1, H2, app_nil_r. split.
  - intros Hin. destruct (decide (length l1 < n)%nat) as [|Hn]; [done|].
    rewrite take_app_le in Hin by lia. assert (Hxx : x ∈ l1) by (rewrite elem_of_take in Hin; destruct Hin as (i & Hi & _); by eapply list_elem_of_lookup_2).
    rewrite <-H1 in Hxx. apply list_elem_of_filter in Hxx as [Hxx _]. by destruct (Hasym x x).
  - intros Hn. rewrite take_app_ge by lia. apply elem_of_app. right. destruct (n - length l1)%nat eqn:E; [lia|]. left.
Qed.

(** ** Two nodes *)

Section TwoNodes.
Context {PC : PeerCodec} {PCL : PeerCodecLaws}.
Variables (seP seF : SvEnv) (beP beF : BlindEnv) (P F : peerID) (key : string).

(** The publisher [P] and the node [F] that fetches see the same peers on the
    topic, apart from themselves, and trust the same ones. *)
Record alike : Prop := {
  al_orderP : forall C, be_order beP C ≡ₚ elements C;
  al_orderF : forall C, be_order beF C ≡ₚ elements C;
  al_peers : forall p, p <> P -> p <> F -> p ∈ eligible seP beP P <-> p ∈ eligible seF beF F;
  al_hashes : hashes_differ (eligible seP beP P ++ eligible seF beF F);
}.

Lemma eligible_self se be local : local ∉ eligible se be local.
Proof. unfold eligible. rewrite list_elem_of_In, filter_In. intros [_ H]. by rewrite bool_decide_true in H. Qed.

(** The rank of a peer among the candidates of [F] is at most one more than
    among those of [P], if both got the same answer from the routing table: only
    [P] itself can come in between. *)
Lemma rank_kept n p : alike -> named_by_dht beP key = named_by_dht beF key -> p <> F -> p ∈ take n (closestByRoutingKey beP (eligible seP beP P) key) ->
  p ∈ take (S n) (closestByRoutingKey beF (eligible seF beF F) key).
Proof.
  intros [HP HF Hpeers Hh] Hn HpF Hp.
  assert (HsP := closest_sorted key beP HP _ (hashes_differ_sub _ _ (fun p H => proj2 (elem_of_app _ _ p) (or_introl H)) Hh)).
  assert (HsF := closest_sorted key beF HF _ (hashes_differ_sub _ _ (fun p H => proj2 (elem_of_app _ _ p) (or_intror H)) Hh)).
  assert (Hin : p ∈ closestByRoutingKey beP (eligible seP beP P) key).
  { apply elem_of_take in Hp as (i & Hi & _). by eapply list_elem_of_lookup_2. }
  apply (proj1 (sorted_take _ _ p n (nearer_asym key _) HsP Hin)) in Hp. apply (proj1 (closest_elem key beP HP _ _)) in Hin.
  assert (p <> P) by (intros ->; by apply (eligible_self seP beP P)).
  apply (sorted_take _ _ _ _ (nearer_asym key _) HsF); [apply closest_elem; [done|by apply Hpeers]|].
  enough (Hlen : (length (filter (fun y => nearer key (named_by_dht beF key) y p) (closestByRoutingKey beF (eligible seF beF F) key)) <=
    length (P :: filter (fun y => nearer key (named_by_dht beP key) y p) (closestByRoutingKey beP (eligible seP beP P) key)))%nat)
    by (simpl in Hlen; lia).
  apply submseteq_length, NoDup_submseteq.
  - apply NoDup_filter. eapply sorted_NoDup; [|exact HsF]. intros y Hy. by destruct (nearer_asym _ _ _ _ Hy).
  - intros y [Hy1 Hy2]%list_elem_of_filter. apply (proj1 (closest_elem key beF HF _ _)) in Hy2. destruct (decide (y = P)) as [->|HyP]; [left|right].
    apply list_elem_of_filter. rewrite Hn. split; [done|]. apply closest_elem; [done|].
    apply Hpeers; [done| |done]. intros ->. by eapply eligible_self.
Qed.
(** Whatever the answers of the routing table, [F] asks every peer that [P] may
    choose. *)
Lemma candidate_kept p : alike -> p <> F -> p ∈ eligible seP beP P -> p ∈ closestByRoutingKey beF (eligible seF beF F) key.
Proof.
  intros [HP HF Hpeers _] HpF Hp. apply closest_elem; [done|]. apply Hpeers; [|done|done].
  intros ->. by apply (eligible_self seP beP P).
Qed.
End TwoNodes.

(** ** A published key package *)

Section Published.
Context {PC : PeerCodec} {PCL : PeerCodecLaws} {ED : Ed25519} {WC : WireCodec} {PJ : PayloadJSON}.
Context {JP : JSON profileWireV1} {JA : JSON groupAvatarWireV1} {JO : JSON groupInvitePolicyWireV1}.
Context {JB : JSON blindStoreEnvelopeV1} {JBL : JSONLaws blindStoreEnvelopeV1}.

Lemma target_peer se be layer local key p : peer_String p ∈ selectReplicaTargets se be layer local key ->
  p ∈ take (Z.to_nat (bl_replicaK layer)) (closestByRoutingKey be (eligible se be local) key).
Proof.
  unfold selectReplicaTargets. repeat (case_match; [by intros ?%elem_of_nil|]). rewrite list_elem_of_fmap.
  by intros (q & ->%peer_String_inj & Hq).
Qed.

(** A message for a peer it names as a target is read, whoever relays it. *)
Lemma addressed_target se layer T hop msg : re_node (se_rt se) = Some T -> re_db (se_rt se) = true ->
  (forall verified, se_auth se = Some verified -> hop ∈ verified) -> json_valid msg -> bo_V msg = 1 -> bo_ObjectType msg <> "" ->
  peer_String T ∈ bo_ReplicaTargets msg -> addressed se layer hop (json_Marshal msg) = Some (T, msg).
Proof.
  intros Hn Hd Ha Hv H1 Ht Hin. unfold addressed. rewrite Hn, Hd, json_round_trip, H1 by done. simpl.
  assert (Hauth : match se_auth se with Some verified => negb (bool_decide (hop ∈ verified)) | None => false end = false).
  { destruct (se_auth se); [|done]. by rewrite bool_decide_true by auto. }
  rewrite Hauth. destruct (str_eqb_spec (bo_ObjectType msg) ""); [done|]. simpl.
  assert (existsb (fun t => str_eqb t (peer_String T)) (bo_ReplicaTargets msg) = true) as ->.
  { apply existsb_exists. exists (peer_String T). split; [by apply list_elem_of_In|]. by destruct (str_eqb_spec (peer_String T) (peer_String T)). }
  by rewrite orb_true_r.
Qed.

(** What a database that does not fail keeps of a key package. *)
Lemma retain_key_package_keeps hop owner kp now targets e t s :
  (forall n, sql_fails e n = None) -> owner <> "" -> kp <> [] -> 0 < now ->
  adb_stored_kps (sv_app (retain_key_package hop (key_package_frame owner kp now targets) e t s).2) =
    InviteStore.put_newer_kp owner (mkStoredKP kp (peer_String hop) now) (adb_stored_kps (sv_app s)).
Proof.
  intros He Ho Hk Hnow. unfold retain_key_package. simpl. destruct (str_eqb_spec owner ""); [done|]. destruct kp as [|b kp]; [done|]. simpl.
  destruct (Z.leb_spec now 0); [lia|]. unfold sql_ignore, Service.db, InviteStore.SaveStoredKeyPackageIfNewer, sql_wrap, sql_bind,
    HealStore.sql_not_null, sql_exec. simpl. destruct (nil_blob_null e); simpl; by rewrite ?He.
Qed.

End Published.
