(* ===== verification/ReplicationSpec.v ===== *)
(** * Which records a node takes over

    Records of other nodes, pushed or pulled: what is stored is signed by its
    author under the key that the directory has for him, and its author was
    entitled to it; every stored record can be verified again, so that a node
    may pass it on. *)
From S2P Require Import Prelude GoStrings Sha256 Types Config Hlc Epoch ActiveView SingleWriter.
From S2P Require Import ForkDetector Helpers Database Store StoreSpec HealStore AppDatabase Identity Roster.
From S2P Require Import InviteStore Replicated AddOperations InviteRequests Wire.
From S2P Require Import Runtime Categories CategoryService Auth Frames Membership Profiles ReplicaFrames.
From S2P Require Import SqlLogic InviteStoreSpec MembershipSpec.
From S2P Require Import Coordinator CoordBroadcast CoordApplication CoordCommit.
From S2P Require Import CoordMessage CoordMembers CoordLogic.
From S2P Require Import CoordReplay CoordHeal Node Service ServiceLogic ServiceSpec Invites InviteFlow.
From S2P Require Import InviteFlowSpec Replication.

(** ** Errors that do not settle a record *)

(** The errors that tell that a later record is there. *)
Definition stales : list GoError :=
  [Profiles.errReplicationStaleProfile; GroupAvatar.errReplicationStaleGroupAvatar; Membership.errReplicationStaleGroupRole;
   InvitePolicy.errReplicationStaleGroupInvitePolicy; Replicated.ErrReplicatedStaleRevision].
Definition fresh_error (e : GoError) : Prop := Forall (fun st => errors_Is e st = false) stales.
#[export] Instance fresh_error_dec e : Decision (fresh_error e).
Proof. unfold fresh_error. apply _. Defined.
Ltac not_stale := by apply (bool_decide_unpack _); vm_compute.
Lemma fresh_text s : fresh_error (ErrText s).
Proof. by repeat constructor. Qed.
Lemma fresh_wrap (c : string) e : fresh_error e -> fresh_error (ErrWrap c e).
Proof. unfold fresh_error, stales. rewrite !Forall_cons. naive_solver. Qed.

(** Computations that end in no other error. *)
Definition clean {D A} (m : SQLs D A) : Prop := forall env t d e, (m env t d).1.1 = inr e -> fresh_error e.
Section Clean.
Context {D : Type}.
Lemma clean_succeeds {A} (m : SQLs D A) : succeeds m -> clean m.
Proof. intros H env t d e E. destruct (H env t d) as [a Ea]. congruence. Qed.
Lemma clean_ret {A} (a : A) : clean (@sql_ret D A a).
Proof. by intros env t d e [=]. Qed.
Lemma clean_throw {A} e : fresh_error e -> clean (@sql_throw D A e).
Proof. by intros H env t d e' [= <-]. Qed.
Lemma clean_bind {A B} (m : SQLs D A) (k : A -> SQLs D B) : clean m -> (forall a, clean (k a)) -> clean (sql_bind m k).
Proof.
  intros Hm Hk env t d e E. unfold sql_bind in E. specialize (Hm env t d). destruct (m env t d) as [[[a|e'] t'] d'].
  - by apply (Hk a env t' d').
  - apply Hm. by injection E as <-.
Qed.
Lemma clean_wrap {A} c (m : SQLs D A) : clean m -> clean (sql_wrap c m).
Proof.
  intros Hm env t d e E. unfold sql_wrap in E. specialize (Hm env t d). destruct (m env t d) as [[[a|e'] t'] d']; [done|].
  injection E as <-. by apply fresh_wrap, Hm.
Qed.
Lemma clean_query {A} (f : D -> A) : clean (sql_query f).
Proof. intros env t d e. unfold sql_query. destruct (sql_fails env t); [|done]. intros [= <-]. apply fresh_text. Qed.
Lemma clean_row {A} (f : D -> option A) : clean (sql_row f).
Proof. apply clean_bind; [apply clean_query|]. intros [a|]; [apply clean_ret|apply clean_throw; not_stale]. Qed.
Lemma clean_exec (f : D -> D) : clean (sql_exec f).
Proof. intros env t d e. unfold sql_exec. destruct (sql_fails env t); [|done]. intros [= <-]. apply fresh_text. Qed.
Lemma clean_unix_now : clean (@unix_now D).
Proof. by intros env t d e [=]. Qed.
(** An error that is handed on *)
Lemma clean_try {A B} (m : SQLs D A) (k : result A -> SQLs D B) :
  clean m -> (forall a, clean (k (inl a))) -> (forall e, fresh_error e -> clean (k (inr e))) -> clean (sql_bind (sql_try m) k).
Proof.
  intros Hm Hk Hke env t d e E. unfold sql_bind, sql_try in E. specialize (Hm env t d). destruct (m env t d) as [[[a|e'] t'] d'].
  - by apply (Hk a env t' d').
  - apply (Hke e') with (env := env) (t := t') (d := d'); [by apply Hm|done].
Qed.
(** What is known of the errors of [m] *)
Lemma swp_clean {A} (m : SQLs D A) Q d :
  clean m -> swp m (fun r d' => match r with inl _ => Q r d' | inr e => fresh_error e -> Q r d' end) d -> swp m Q d.
Proof.
  intros Hm H env t. specialize (H env t). specialize (Hm env t d). destruct ((m env t d).1.1); [done|]. apply H. by apply Hm.
Qed.
End Clean.
Lemma clean_app {A} (m : ASQL A) : clean m -> clean (Runtime.app m).
Proof.
  intros Hm env t s e E. unfold Runtime.app in E. specialize (Hm env t (rt_app s)). destruct (m env t (rt_app s)) as [[r t'] d].
  by apply Hm.
Qed.
Lemma clean_of_result {D A} (r : result A) : (forall e, r = inr e -> fresh_error e) -> clean (@Roster.of_result D A r).
Proof. destruct r; intros H; [apply clean_ret|by apply clean_throw, H]. Qed.
Ltac clean_step :=
  match goal with
  | |- clean (sql_ret _) => apply clean_ret
  | |- clean (sql_throw _) => apply clean_throw; first [done | apply fresh_text | not_stale | idtac]
  | |- clean (sql_bind (sql_try _) _) => apply clean_try; [|intros ?|intros ? ?]
  | |- clean (sql_bind _ _) => apply clean_bind; [|intro]
  | |- clean (sql_wrap _ _) => apply clean_wrap
  | |- clean (sql_try _) => apply clean_succeeds, succeeds_try
  | |- clean (sql_ignore _) => apply clean_succeeds, succeeds_ignore
  | |- clean (sql_query _) => apply clean_query
  | |- clean (sql_row _) => apply clean_row
  | |- clean (sql_exec _) => apply clean_exec
  | |- clean unix_now => apply clean_unix_now
  | |- clean (Runtime.app _) => apply clean_app
  | |- clean (Roster.of_result _) => apply clean_of_result; intros
  | |- clean (if ?b then _ else _) => destruct b
  | |- clean (match ?o with _ => _ end) => destruct o eqn:?
  end.
Ltac unchanged := repeat first [progress cbv zeta|swp_step]; simpl; rewrite ?rt_eta; try done.

(** ** Records and their authors *)
Section Records.
Context {PC : PeerCodec} {ED : Ed25519} {WC : WireCodec} {PJ : PayloadJSON}.
Context {JP : JSON profileWireV1} {JA : JSON groupAvatarWireV1} {JO : JSON groupInvitePolicyWireV1}.
Variable re : RtEnv.

(** What the body of a record says: its namespace, the group it is about, its
    key, its author and its revision. *)
Inductive names (body : string) : string -> string -> string -> string -> Z -> Prop :=
| names_profile w : json_Unmarshal (str_bytes body) = Some w ->
    names body Replicated.NamespaceUserProfileV1 "" (TrimSpace (pf_PeerID w)) (TrimSpace (pf_PeerID w)) (pf_ProfileRevision w)
| names_avatar w : json_Unmarshal (str_bytes body) = Some w ->
    names body Replicated.NamespaceGroupAvatarV1 (TrimSpace (gw_GroupID w)) (TrimSpace (gw_GroupID w))
      (GroupAvatar.signerPeerID w) (gw_Revision w)
| names_role w : re_role_Unmarshal re body = Some w ->
    names body Replicated.NamespaceGroupRoleV1 (TrimSpace (rw_GroupID w))
      (TrimSpace (Membership.groupRoleRecordKey (rw_GroupID w) (rw_TargetPeerID w))) (TrimSpace (rw_ActorPeerID w)) (rw_Revision w)
| names_policy w : json_Unmarshal (str_bytes body) = Some w ->
    names body Replicated.NamespaceGroupInvitePolicyV1 (TrimSpace (ow_GroupID w)) (TrimSpace (ow_GroupID w))
      (TrimSpace (ow_ActorPeerID w)) (ow_Revision w).

(** A body says one thing in a namespace. *)
Lemma names_functional body ns g k o v g' k' o' v' :
  names body ns g k o v -> names body ns g' k' o' v' -> g = g' /\ k = k' /\ o = o' /\ v = v'.
Proof. intros H1 H2. inversion H1; subst; inversion H2; subst; simplify_eq; auto. Qed.

(** [p] is an active admin or the creator of the group. *)
Definition admin_of (g p : string) (d : AppDB) : Prop :=
  (exists row, adb_members d !! (g, p) = Some row /\ gm_Status row = Roster.GroupMemberStatusActive /\
     (gm_Role row = Roster.GroupMemberRoleCreator \/ gm_Role row = Roster.GroupMemberRoleAdmin)) \/
  recognized g p d.
(** Who may write a record: a profile its owner, a role the creator of the
    group, avatar and policy of a group its admins. *)
Definition entitled (ns g p : string) (d : AppDB) : Prop :=
  if str_eqb ns Replicated.NamespaceUserProfileV1 then True
  else if str_eqb ns Replicated.NamespaceGroupRoleV1 then recognized g p d
  else admin_of g p d.

(** A signature that verifies under a key of the right size. *)
Definition signed (keyHex body : string) (sig : bytes) : Prop :=
  exists pub, hex_DecodeString keyHex = Some pub /\ length pub = 32%nat /\ length sig = 64%nat /\
    ed_Verify pub (str_bytes body) sig = true.
(** The author of a body, by the key of the directory. *)
Definition signed_by (p body : string) (sig : bytes) (d : AppDB) : Prop :=
  exists profile, List.find (Roster.pd_key p) (adb_directory d) = Some profile /\
    signed (TrimSpace (pd_PublicKeyHex profile)) body sig.

(** A record that can be checked again. *)
Record verified (k : string * string) (r : ReplicatedRecordRow) : Prop := {
  vf_ok : Replicated.record_ok k r;
  vf_names : exists g, names (rr_BodyJSON r) k.1 g k.2 (rr_OwnerPeerID r) (rr_Revision r);
  vf_signed : signed (rr_SigningPublicKeyHex r) (rr_BodyJSON r) (rr_Signature r);
}.
Definition records_verified (d : AppDB) : Prop := map_Forall verified (adb_records d).

(** One record is taken over, in place of an older one. *)
Inductive takes (body : string) (sig : bytes) (d : AppDB) : gmap (string * string) ReplicatedRecordRow -> Prop :=
| takes_record ns g k p row :
    names body ns g k p (rr_Revision row) -> signed_by p body sig d -> (Roster.members_ok d -> entitled ns g p d) ->
    (forall old, adb_records d !! (ns, k) = Some old -> rr_Revision old < rr_Revision row) ->
    rr_OwnerPeerID row = p -> rr_BodyJSON row = body -> rr_Signature row = sig -> verified (ns, k) row ->
    takes body sig d (<[(ns, k) := row]> (adb_records d)).

(** The record, or a later one, is there. *)
Definition reached (k : string * string) (v : Z) (recs : gmap (string * string) ReplicatedRecordRow) : Prop :=
  exists r, recs !! k = Some r /\ v <= rr_Revision r.
(** The outcome of applying a record: nothing is stored, or the record is; and
    a success, or the report of a later record, tells that it has been reached. *)
Definition settles {A} (r : result A) : Prop := match r with inl _ => True | inr e => ~ fresh_error e end.
Definition applied {A} (ns body : string) (sig : bytes) (d : AppDB) (r : result A) (d' : AppDB) : Prop :=
  (adb_records d' = adb_records d \/ takes body sig d (adb_records d')) /\
  (settles r -> exists g k p v, names body ns g k p v /\ reached (ns, k) v (adb_records d')).

Lemma applied_none {A} ns body sig d e d' :
  adb_records d' = adb_records d -> fresh_error e -> applied (A := A) ns body sig d (inr e) d'.
Proof. intros Hd He. split; [by left|]. intros H. by destruct H. Qed.

(** ** Merging *)

(** What [TryMergeReplicatedRecord] does to the table. *)
Inductive merge_outcome (x : Replicated.ReplicatedPut) (d : AppDB) (r : result unit) (d' : AppDB) : Prop :=
| mo_refused e : r = inr e -> fresh_error e -> adb_records d' = adb_records d -> merge_outcome x d r d'
| mo_there : reached (Replicated.put_key x) (Replicated.rp_revision x) (adb_records d) ->
    adb_records d' = adb_records d -> merge_outcome x d r d'
| mo_stored now : 0 < Replicated.rp_revision x ->
    ToLower (TrimSpace (Replicated.rp_bodyHash x)) = Replicated.ReplicatedBodyHash (Replicated.rp_bodyJSON x) ->
    (forall old, adb_records d !! Replicated.put_key x = Some old -> rr_Revision old < Replicated.rp_revision x) ->
    adb_records d' = <[Replicated.put_key x := Replicated.put_row x now]> (adb_records d) -> merge_outcome x d r d'.

Lemma write_row_clean ctx x : clean (Replicated.write_row ctx x).
Proof.
  unfold Replicated.write_row. repeat clean_step. intros env t d e. unfold HealStore.sql_not_null.
  destruct (nil_blob_null env && _); [|done]. intros [= <-]. apply fresh_text.
Qed.
Lemma put_invalid_fresh m x e : Replicated.put_invalid m x = Some e -> fresh_error e.
Proof. unfold Replicated.put_invalid. repeat case_match; try done; intros [= <-]; apply fresh_text. Qed.

(** Writing the row and then the references *)
Lemma write_outcome ctx x refs d :
  Replicated.put_invalid "replicated: body_hash required" x = None ->
  (forall old, adb_records d !! Replicated.put_key x = Some old -> rr_Revision old < Replicated.rp_revision x) ->
  swp (Replicated.write_row ctx x ;;! Replicated.replaceReplicatedRecordBlobRefs (Replicated.put_key x).1 (Replicated.put_key x).2 refs)
    (merge_outcome x d) d.
Proof.
  intros Hok Hnew. apply Replicated.put_valid in Hok as [Hv Hh]. apply swp_bind, swp_clean; [apply write_row_clean|].
  intros env t. destruct (Replicated.write_row ctx x env t d) as [[r t'] d'] eqn:E. simpl.
  apply Replicated.write_row_run in E as [[-> Hne]|[-> (now & ->)]].
  - destruct r as [[]|e]; [done|]. intros He. by eapply mo_refused.
  - eapply swp_respects; [apply Replicated.replace_same|]. intros r d' Hd'. eapply mo_stored; [done..|]. by rewrite Hd'.
Qed.
Lemma merge_outcomes x d : swp (Replicated.TryMergeReplicatedRecord x) (merge_outcome x d) d.
Proof.
  unfold Replicated.TryMergeReplicatedRecord. destruct (Replicated.put_invalid _ x) eqn:Hok.
  { apply swp_throw. eapply mo_refused; [done|by eapply put_invalid_fresh|done]. }
  cbv zeta. apply swp_bind, swp_query; [|intros e; by eapply mo_refused; [|apply fresh_text|]].
  destruct (adb_records d !! Replicated.put_key x) as [old|] eqn:Eo.
  2: { apply write_outcome; [done|]. by rewrite Eo. }
  assert (Hr : Replicated.rp_revision x <= rr_Revision old -> reached (Replicated.put_key x) (Replicated.rp_revision x) (adb_records d))
    by (intros H; by exists old).
  destruct (Z.gtb_spec (rr_Revision old) (Replicated.rp_revision x)); [apply swp_throw, mo_there; [apply Hr; lia|done]|].
  destruct (Z.eqb_spec (rr_Revision old) (Replicated.rp_revision x)).
  - destruct (EqualFold _ _); [|apply swp_throw, mo_there; [apply Hr; lia|done]].
    eapply swp_respects; [apply Replicated.replace_same|]. intros r d' Hd'. apply mo_there; [apply Hr; lia|done].
  - apply write_outcome; [done|]. rewrite Eo. intros ? [= <-]. lia.
Qed.

(** A merge of a record whose author has been checked. *)
Lemma merged_applied {A} ns g k p v body sig keyHex refs d d1 r1 d1' (r : result A) d' :
  TrimSpace ns = ns -> TrimSpace p = p -> names body ns g (TrimSpace k) p v -> signed_by p body sig d ->
  signed (ToLower (TrimSpace keyHex)) body sig -> (Roster.members_ok d -> entitled ns g p d) -> adb_records d1 = adb_records d ->
  merge_outcome (Replicated.mkPut ns k p v 1 body (Replicated.ReplicatedBodyHash body) sig keyHex 0 refs) d1 r1 d1' ->
  adb_records d' = adb_records d1' -> (settles r -> settles r1) -> applied ns body sig d r d'.
Proof.
  intros Hns Hp Hn Hby Hs He H1 Hm Hd' Hr.
  assert (Hr' : reached (ns, TrimSpace k) v (adb_records d') -> settles r ->
    exists g' k' p' v', names body ns g' k' p' v' /\ reached (ns, k') v' (adb_records d'))
    by (intros; eauto 6).
  assert (Hk : Replicated.put_key (Replicated.mkPut ns k p v 1 body (Replicated.ReplicatedBodyHash body) sig keyHex 0 refs)
    = (ns, TrimSpace k)) by (unfold Replicated.put_key; simpl; by rewrite Hns).
  inversion Hm as [e -> Hf Hsame|Hre Hsame|now Hpos Hh Hnew Hrow].
  - split; [left; congruence|]. intros Hset. by destruct (Hr Hset).
  - split; [left; congruence|]. apply Hr'. rewrite Hd', Hsame. rewrite <- Hk. exact Hre.
  - simpl in Hpos, Hh, Hnew. rewrite Hk, H1 in Hrow, Hnew. unfold applied. rewrite Hd', Hrow in Hr' |- *. split.
    + right. apply takes_record with (g := g) (p := p); simpl; try done.
      split; simpl; [split; simpl; [by rewrite Hns|done|done]|exists g; by rewrite Hp|done].
    + apply Hr'. eexists. rewrite lookup_insert_eq. split; [done|]. simpl. lia.
Qed.

Lemma swp_mergerec {A} stale ns g k p v body sig keyHex refs d (m : RT A) s :
  stale ∈ stales -> TrimSpace ns = ns -> TrimSpace p = p -> names body ns g (TrimSpace k) p v -> signed_by p body sig d ->
  signed (ToLower (TrimSpace keyHex)) body sig -> (Roster.members_ok d -> entitled ns g p d) -> adb_records (rt_app s) = adb_records d ->
  respects (rt_on (same adb_records)) m ->
  swp (Profiles.merge_record stale
    (Replicated.mkPut ns k p v 1 body (Replicated.ReplicatedBodyHash body) sig keyHex 0 refs) ;;! m)
    (fun r s' => applied ns body sig d r (rt_app s')) s.
Proof.
  intros Hst Hns Hp Hn Hby Hs He H1 Hm. apply swp_bind. unfold Profiles.merge_record. apply swp_bind, swp_try, swp_app.
  eapply swp_mono; [|apply merge_outcomes]. intros r1 d1' Hout. destruct r1 as [[]|e].
  - apply swp_ret. eapply swp_respects; [exact Hm|]. intros r s' Hs'. by eapply merged_applied.
  - apply swp_throw. eapply merged_applied; [done..|]. simpl. destruct (errors_Is e _) eqn:Ee; [|done]. intros _ Hf.
    unfold fresh_error, stales in Hf. rewrite !Forall_cons in Hf. destruct Hf as (_ & _ & _ & _ & Hf & _). congruence.
Qed.

(** The key of a signer, and the check of the signature. *)
Lemma swp_directory p Q s :
  TrimSpace p = p -> (forall e, fresh_error e -> Q (inr e) s) ->
  (forall profile, List.find (Roster.pd_key p) (adb_directory (rt_app s)) = Some profile -> Q (inl profile) s) ->
  swp (Runtime.app (Roster.GetPeerDirectoryProfile p)) Q s.
Proof.
  intros Hp He H. apply swp_app. unfold Roster.GetPeerDirectoryProfile. rewrite Hp.
  destruct (str_eqb p ""); [apply swp_throw; rewrite rt_eta; apply He; not_stale|].
  apply swp_row; [intros a Ha|intros _|intros]; rewrite rt_eta; [by apply H|apply He; not_stale|apply He, fresh_text].
Qed.
Lemma swp_signing_key p Q s :
  TrimSpace p = p -> (forall e, fresh_error e -> Q (inr e) s) ->
  (forall profile pub, List.find (Roster.pd_key p) (adb_directory (rt_app s)) = Some profile ->
     hex_DecodeString (TrimSpace (pd_PublicKeyHex profile)) = Some pub -> length pub = 32%nat -> Q (inl (profile, pub)) s) ->
  swp (Profiles.signing_key p) Q s.
Proof.
  intros Hp He H. unfold Profiles.signing_key. apply swp_bind, swp_directory; [done|done|]. intros profile Hpr. cbv zeta.
  destruct (str_eqb _ ""); [apply swp_throw, He; not_stale|].
  destruct (hex_DecodeString _) as [pub|] eqn:Ek; [|apply swp_throw, He, fresh_text].
  destruct (Nat.eqb_spec (length pub) 32); [apply swp_ret; by apply H|apply swp_throw, He, fresh_text].
Qed.
Lemma swp_check pub wire sig Q s :
  (forall e, fresh_error e -> Q (inr e) s) -> (length sig = 64%nat -> ed_Verify pub wire sig = true -> Q (inl tt) s) ->
  swp (Profiles.check_signature pub wire sig) Q s.
Proof.
  intros He H. unfold Profiles.check_signature, Membership.verifyProfileWire.
  destruct (Nat.eqb_spec (length sig) 64); cbn [negb andb]; [|apply swp_throw, He, fresh_text].
  destruct (ed_Verify pub wire sig) eqn:Ev; [apply swp_ret; by apply H|apply swp_throw, He, fresh_text].
Qed.
Lemma signed_lower keyHex body sig : signed (TrimSpace keyHex) body sig -> signed (ToLower (TrimSpace keyHex)) body sig.
Proof.
  intros (pub & Hk & H). exists pub. split; [|done]. apply ToLower_hex_digits in Hk as ->. apply hex_Decode_Encode.
Qed.
Lemma signed_encoded pub body sig :
  length pub = 32%nat -> length sig = 64%nat -> ed_Verify pub (str_bytes body) sig = true ->
  signed (ToLower (TrimSpace (ToLower (hex_EncodeToString pub)))) body sig.
Proof. intros. exists pub. autorewrite with gostr. rewrite hex_Decode_Encode. auto. Qed.

(** Sessions and blobs *)
Lemma session_clean : clean (Runtime.ensureSessionActive re).
Proof.
  unfold Runtime.ensureSessionActive, Runtime.GetSessionStatus, Runtime.readInt64Config, Identity.GetConfig.
  repeat first [progress cbv zeta|clean_step]; auto.
Qed.
Lemma swp_session_fresh Q s :
  (forall e, fresh_error e -> Q (inr e) s) -> Q (inl tt) s -> swp (Runtime.ensureSessionActive re) Q s.
Proof. intros He H. apply swp_clean; [apply session_clean|]. apply swp_session; [done|by intros _]. Qed.
Lemma validate_fresh data e : Profiles.validateAvatarImageBytes data = inr e -> fresh_error e.
Proof. unfold Profiles.validateAvatarImageBytes. repeat case_match; try done; intros [= <-]; apply fresh_text. Qed.
Lemma blob_clean hash mime blob : clean (Profiles.store_avatar_blob hash mime blob).
Proof.
  unfold Profiles.store_avatar_blob, ProfileStore.UpsertAvatarBlob. repeat first [progress cbv zeta|clean_step].
  by eapply validate_fresh.
Qed.
Lemma blob_keeps hash mime blob : respects (rt_on (same adb_records)) (Profiles.store_avatar_blob hash mime blob).
Proof.
  unfold Profiles.store_avatar_blob, ProfileStore.UpsertAvatarBlob, ProfileStore.touch_blob, Roster.of_result.
  repeat first [progress cbv zeta|on_step]; try done. unfold same. by case_match.
Qed.
Lemma swp_blob hash mime blob (Q : result unit -> RtState -> Prop) s :
  (forall e s', adb_records (rt_app s') = adb_records (rt_app s) -> fresh_error e -> Q (inr e) s') ->
  (forall s', adb_records (rt_app s') = adb_records (rt_app s) -> Q (inl tt) s') ->
  swp (Profiles.store_avatar_blob hash mime blob) Q s.
Proof.
  intros He H. apply swp_clean; [apply blob_clean|]. eapply swp_respects; [apply blob_keeps|].
  intros [[]|e] s' Hs'; [by apply H|intros Hf; by apply He].
Qed.

(** Admins *)
Lemma creator_clean g p : clean (Runtime.isActiveGroupCreatorPeer re g p).
Proof.
  unfold Runtime.isActiveGroupCreatorPeer, Runtime.creator_from, Roster.GetGroupCreatorPeerID, Roster.ListGroupMembers,
    InviteStore.GetGroupInviteCreatorHint. repeat first [progress cbv zeta|clean_step].
Qed.
Lemma authorized_clean g p : clean (Runtime.isActiveGroupAuthorizedPeer re g p).
Proof.
  unfold Runtime.isActiveGroupAuthorizedPeer, Runtime.with_db, Runtime.not_initialized, Roster.GetGroupMember.
  repeat first [progress cbv zeta|apply creator_clean|clean_step].
Qed.
(** What a computation that changes nothing finds out under an assumption. *)
Lemma swp_guarded {D A} (P : Prop) (G : result A -> Prop) (m : SQLs D A) Q d :
  clean m -> swp m (fun _ d' => d' = d) d -> (P -> swp m (fun r _ => G r) d) ->
  (forall e, fresh_error e -> Q (inr e) d) -> (forall a, (P -> G (inl a)) -> Q (inl a) d) -> swp m Q d.
Proof.
  intros Hc Hd HG He H env t. rewrite (Hd env t). specialize (Hc env t d).
  assert (HG' : P -> G (m env t d).1.1) by (intros HP; apply (HG HP env t)).
  destruct ((m env t d).1.1); [by apply H|by apply He, Hc].
Qed.
Lemma creator_from_unchanged g p c s : swp (Runtime.creator_from g p c) (fun _ s' => s' = s) s.
Proof.
  unfold Runtime.creator_from, Roster.ListGroupMembers, InviteStore.GetGroupInviteCreatorHint. destruct (negb _); [by apply swp_ret|]. unchanged.
Qed.
Lemma creator_unchanged g p s : swp (Runtime.isActiveGroupCreatorPeer re g p) (fun _ s' => s' = s) s.
Proof.
  unfold Runtime.isActiveGroupCreatorPeer, Roster.GetGroupCreatorPeerID. unchanged; apply creator_from_unchanged.
Qed.
Lemma swp_creator g p Q s :
  TrimSpace p = p -> (forall e, fresh_error e -> Q (inr e) s) ->
  (forall b : bool, (Roster.members_ok (rt_app s) -> b = true -> recognized (TrimSpace g) p (rt_app s)) -> Q (inl b) s) ->
  swp (Runtime.isActiveGroupCreatorPeer re g p) Q s.
Proof.
  intros Hp He H. apply (swp_guarded (Roster.members_ok (rt_app s))
    (fun r => match r with inl b => b = true -> recognized (TrimSpace g) p (rt_app s) | inr _ => True end));
    [apply creator_clean|apply creator_unchanged| |done|done].
  intros Hd. apply swp_creatorPeer; [done|done|]. by rewrite Hp.
Qed.
Lemma swp_authorized g p Q s :
  TrimSpace p = p -> (forall e, fresh_error e -> Q (inr e) s) ->
  (forall b : bool, (Roster.members_ok (rt_app s) -> b = true -> admin_of (TrimSpace g) p (rt_app s)) -> Q (inl b) s) ->
  swp (Runtime.isActiveGroupAuthorizedPeer re g p) Q s.
Proof.
  intros Hp He H. apply (swp_guarded (Roster.members_ok (rt_app s))
    (fun r => match r with inl b => b = true -> admin_of (TrimSpace g) p (rt_app s) | inr _ => True end));
    [apply authorized_clean| | |done|done]; unfold Runtime.isActiveGroupAuthorizedPeer, Runtime.with_db, Runtime.not_initialized;
    cbv zeta; rewrite Hp.
  { unfold Roster.GetGroupMember. unchanged; apply creator_unchanged. }
  intros Hd. destruct (_ || _); [by apply swp_ret|].
  destruct (re_db re); [|by apply swp_bind, swp_throw]. apply swp_bind, swp_member; [done|]. intros row Hrow.
  rewrite (scan_ok _ _ _ Hd Hrow). rewrite Hp in Hrow. destruct (_ && _) eqn:E.
  - apply swp_ret. intros _. left. exists row. apply andb_true_iff in E as [E1 E2]. apply str_eqb_true in E1.
    destruct (Hd _ _ Hrow) as [_ _ _ _ Hr _]. rewrite admin_role_known in E2 by done. by apply bool_decide_eq_true in E2.
  - apply swp_creatorPeer; [done|done|]. intros b Hb Hb'. right. rewrite Hp in Hb. by apply Hb.
Qed.
Lemma swp_has g Q s :
  (forall e, fresh_error e -> Q (inr e) s) -> (forall b, Q (inl b) s) -> swp (Runtime.app (Roster.HasGroup g)) Q s.
Proof.
  intros He H. apply swp_clean.
  - unfold Roster.HasGroup. repeat first [progress cbv zeta|clean_step].
  - apply swp_app. unfold Roster.HasGroup. repeat first [progress cbv zeta|swp_step]; rewrite rt_eta; auto.
Qed.

(** ** Applying a record *)

Definition applies {A} (ns body : string) (sig : bytes) (s : RtState) (r : result A) (s' : RtState) : Prop :=
  applied ns body sig (rt_app s) r (rt_app s').

(** [applySignedRemoteProfilePush] *)
Lemma profile_applied p wire sig blob s :
  swp (Profiles.applySignedRemoteProfilePush re p wire sig blob) (applies Replicated.NamespaceUserProfileV1 (bytes_str wire) sig s) s.
Proof.
  assert (He : forall e, fresh_error e -> applies (A := unit) Replicated.NamespaceUserProfileV1 (bytes_str wire) sig s (inr e) s)
    by (intros; by apply applied_none).
  unfold Profiles.applySignedRemoteProfilePush. apply swp_bind, swp_session_fresh; [done|]. cbv zeta.
  assert (Hp : TrimSpace (TrimSpace p) = TrimSpace p) by apply TrimSpace_idemp. set (q := TrimSpace p) in *.
  destruct (str_eqb q ""); [apply swp_throw, He, fresh_text|].
  unfold Profiles.with_app, Profiles.not_ready. destruct (re_db re); [|apply swp_throw, He, fresh_text].
  apply swp_bind, swp_signing_key; [done|done|]. intros profile pub Hpr Hk Hlen. cbn [fst snd].
  apply swp_bind, swp_check; [done|]. intros Hsl Hv.
  destruct (json_Unmarshal wire) as [w|] eqn:Ew; [|apply swp_throw, He, fresh_text].
  destruct (negb _); [apply swp_throw, He, fresh_text|].
  destruct (str_eqb_spec (TrimSpace (pf_PeerID w)) q) as [Eq|]; cbn [negb]; [|apply swp_throw, He, fresh_text].
  destruct (negb _); [apply swp_throw, He, fresh_text|].
  assert (Hs : signed (TrimSpace (pd_PublicKeyHex profile)) (bytes_str wire) sig)
    by (exists pub; rewrite str_bytes_str; auto).
  apply swp_bind, swp_blob; [intros e s' Hs' Hf; by apply applied_none|]. intros s1 H1.
  eapply swp_mergerec with (g := ""); [set_solver|done|done| | | |done|exact H1|].
  - rewrite Hp. pattern q at 1 2. rewrite <- Eq. apply names_profile. by rewrite str_bytes_str.
  - by exists profile.
  - apply signed_lower. by rewrite !TrimSpace_idemp.
  - unfold ProfileStore.MergePeerDirectoryProfile, ProfileStore.UpsertPeerDirectorySigned, Roster.GetPeerDirectoryProfile.
    repeat first [progress cbv zeta|on_step]; done.
Qed.

(** [applySignedRemoteGroupAvatarPush] *)
Lemma avatar_applied p wire sig blob s :
  swp (GroupAvatar.applySignedRemoteGroupAvatarPush re p wire sig blob)
    (applies Replicated.NamespaceGroupAvatarV1 (bytes_str wire) sig s) s.
Proof.
  assert (He : forall e, fresh_error e -> applies (A := unit) Replicated.NamespaceGroupAvatarV1 (bytes_str wire) sig s (inr e) s)
    by (intros; by apply applied_none).
  unfold GroupAvatar.applySignedRemoteGroupAvatarPush. apply swp_bind, swp_session_fresh; [done|]. cbv zeta.
  assert (Hp : TrimSpace (TrimSpace p) = TrimSpace p) by apply TrimSpace_idemp. set (q := TrimSpace p) in *.
  destruct (str_eqb q ""); [apply swp_throw, He, fresh_text|].
  unfold Profiles.with_app, Profiles.not_ready. destruct (re_db re); [|apply swp_throw, He, fresh_text].
  apply swp_bind, swp_signing_key; [done|done|]. intros profile pub Hpr Hk Hlen. cbn [fst snd].
  apply swp_bind, swp_check; [done|]. intros Hsl Hv.
  destruct (json_Unmarshal wire) as [w|] eqn:Ew; [|apply swp_throw, He, fresh_text].
  destruct (negb _); [apply swp_throw, He, fresh_text|]. destruct (str_eqb _ ""); [apply swp_throw, He, fresh_text|].
  destruct (str_eqb_spec (GroupAvatar.signerPeerID w) q) as [Eq|]; cbn [negb]; [|apply swp_throw, He, fresh_text].
  apply swp_bind, swp_has; [done|]. intros b. destruct b; cbn [negb]; [|apply swp_throw, He, fresh_text].
  apply swp_bind, swp_authorized; [done|done|]. intros [] Hadm; cbn [negb]; [|apply swp_throw, He, fresh_text].
  rewrite TrimSpace_idemp in Hadm.
  apply swp_bind, swp_blob; [intros e s' Hs' Hf; by apply applied_none|]. intros s1 H1.
  eapply swp_mergerec; [set_solver|done|done| | | |intros Hok; exact (Hadm Hok eq_refl)|exact H1|].
  - rewrite TrimSpace_idemp, <- Eq. apply names_avatar. by rewrite str_bytes_str.
  - exists profile. split; [done|]. exists pub. rewrite str_bytes_str. auto.
  - apply signed_encoded; [done|done|]. by rewrite str_bytes_str.
  - unfold GroupAvatar.set_group_avatar, GroupMeta.ClearGroupChatAvatar, GroupMeta.SetGroupChatAvatar.
    repeat first [progress cbv zeta|on_step]; try done; unfold same, Roster.update_group; by case_match.
Qed.

(** [applySignedRemoteGroupRolePush] *)
Lemma merge_role_applied q wire sig pub w b s :
  TrimSpace q = q -> re_role_Unmarshal re wire = Some w -> TrimSpace (rw_ActorPeerID w) = q -> length pub = 32%nat ->
  length sig = 64%nat -> ed_Verify pub (str_bytes wire) sig = true -> signed_by q wire sig (rt_app s) ->
  (Roster.members_ok (rt_app s) -> recognized (TrimSpace (rw_GroupID w)) q (rt_app s)) ->
  swp (Membership.mergeGroupRole q wire sig pub w b) (applies Replicated.NamespaceGroupRoleV1 wire sig s) s.
Proof.
  intros Hq Hw Ha Hlen Hsl Hv Hby Hrec. unfold Membership.mergeGroupRole. apply swp_bind, swp_try, swp_app.
  eapply swp_mono; [|apply merge_outcomes]. intros r1 d1' Hout.
  assert (Hdone : forall (r : result unit) s', adb_records (rt_app s') = adb_records d1' -> (settles r -> settles r1) ->
    applies Replicated.NamespaceGroupRoleV1 wire sig s r s').
  { intros r s' Hs' Hset. eapply merged_applied; [done|exact Hq| |exact Hby| | | |exact Hout|done|done].
    - rewrite <- Ha. by apply names_role.
    - by apply signed_encoded.
    - exact Hrec.
    - done. }
  destruct r1 as [[]|e].
  - eapply swp_respects.
    + instantiate (1 := rt_on (same adb_records)). unfold Roster.SetGroupMemberRole, Roster.GetGroupMember, Roster.update_member.
      repeat first [progress cbv zeta|on_step]; try done; unfold same; by repeat case_match.
    + intros r s' Hs'. by apply Hdone.
  - destruct (errors_Is e _) eqn:Ee; apply swp_throw, Hdone; try done. simpl. intros _ Hf.
    unfold fresh_error, stales in Hf. rewrite !Forall_cons in Hf. destruct Hf as (_ & _ & _ & _ & Hf & _). congruence.
Qed.
Lemma role_applied p wire sig s :
  swp (Membership.applySignedRemoteGroupRolePush re p wire sig) (applies Replicated.NamespaceGroupRoleV1 wire sig s) s.
Proof.
  assert (He : forall e, fresh_error e -> applies (A := unit) Replicated.NamespaceGroupRoleV1 wire sig s (inr e) s)
    by (intros; by apply applied_none).
  unfold Membership.applySignedRemoteGroupRolePush. cbv zeta.
  assert (Hp : TrimSpace (TrimSpace p) = TrimSpace p) by apply TrimSpace_idemp. set (q := TrimSpace p) in *.
  destruct (str_eqb q ""); [apply swp_throw, He, fresh_text|].
  unfold Runtime.with_db, Runtime.not_initialized. destruct (re_db re); [|apply swp_throw, He, fresh_text].
  apply swp_bind, swp_directory; [done|done|]. intros profile Hpr.
  destruct (hex_DecodeString _) as [pub|] eqn:Hk; [|apply swp_throw, He, fresh_text].
  destruct (Nat.eqb_spec (length pub) 32) as [Hlen|]; cbn [negb]; [|apply swp_throw, He, fresh_text].
  unfold Membership.verifyProfileWire.
  destruct (Nat.eqb_spec (length sig) 64) as [Hsl|]; cbn [negb andb]; [|apply swp_throw, He, fresh_text].
  destruct (ed_Verify _ _ _) eqn:Hv; cbn [negb]; [|apply swp_throw, He, fresh_text].
  destruct (re_role_Unmarshal re wire) as [w|] eqn:Ew; [|apply swp_throw, He, fresh_text].
  destruct (negb _); [apply swp_throw, He, fresh_text|].
  destruct (str_eqb_spec (TrimSpace (rw_ActorPeerID w)) q) as [Eq|]; cbn [negb]; [|apply swp_throw, He, fresh_text].
  apply swp_bind, swp_creator; [done|done|]. intros [] Hrec; cbn [negb]; [|apply swp_throw, He, fresh_text].
  assert (Hrest : forall b : bool, swp (Membership.mergeGroupRole q wire sig pub w b) (applies Replicated.NamespaceGroupRoleV1 wire sig s) s).
  { intros b. apply merge_role_applied; [done..| |by auto]. by exists profile; split; [|exists pub]. }
  apply swp_bind, swp_try, swp_member; [intros e; apply Hrest|]. intros row Hrow.
  destruct (str_eqb (gm_Status _) _); cbn [andb]; [|apply Hrest].
  destruct (Runtime.isCreatorRole _); [apply swp_throw, He, fresh_text|apply Hrest].
Qed.
End Records.

(** ** The service *)
Section Service.
Context {PC : PeerCodec} {ED : Ed25519} {WC : WireCodec} {PJ : PayloadJSON}.
Context {JP : JSON profileWireV1} {JA : JSON groupAvatarWireV1} {JO : JSON groupInvitePolicyWireV1}.
Context {JM : JSON ReplicaPushMetaV1} {JQ : JSON ReplicaPullRequestV1} {JH : JSON ReplicaPullRecordHeaderV1}.
Variable se : SvEnv.
Variable fuel : nat.
Abbreviation re := (se_rt se).

(** Requests to invite do not touch the records. *)
Definition kept (d : AppDB) := (adb_records d, adb_pull_state d, adb_identity d).
Lemma beside_kept d d' : same beside d d' -> same kept d d'.
Proof. unfold same, beside, kept. by intros [= _ -> -> ->]. Qed.
Lemma move_kept id from to p : respects (same kept) (InviteRequests.TryTransitionInviteRequest id from to p).
Proof.
  unfold InviteRequests.TryTransitionInviteRequest. repeat first [progress cbv zeta|asql_step]; try done. by repeat case_match.
Qed.
Lemma link_kept id op : respects (same kept) (InviteRequests.LinkInviteRequestToAddOperation id op).
Proof.
  unfold InviteRequests.LinkInviteRequestToAddOperation. repeat first [progress cbv zeta|asql_step]; try done. by repeat case_match.
Qed.
Lemma process_kept id b : respects (sv_on (same kept)) (InviteFlow.processInviteRequest se fuel id b).
Proof.
  apply (process_sane se fuel (same kept) (TrimSpace id)); [apply beside_kept|intros; apply move_kept|intros; apply link_kept|done].
Qed.
Lemma queue_kept g total queue : forall p a, respects (sv_on (same kept)) (InviteFlow.process_queue se fuel g total queue p a).
Proof.
  induction queue as [|item queue IH]; intros p a; simpl; unfold Service.emit;
    repeat first [progress cbv zeta|apply IH|apply process_kept|on_step].
Qed.
Lemma policy_tail_kept g p : respects (sv_on (same kept)) (
  Service.db (Roster.SetGroupInvitePolicy g p) ;;!
  (if str_eqb p "any_member" then sql_ignore (InviteFlow.processPolicySwitchAnyMember se fuel g) else sql_ret tt) ;;!
  Service.emit "group:invite_policy_changed" [("group_id", g); ("policy", p)]).
Proof.
  unfold InviteFlow.processPolicySwitchAnyMember, InviteFlow.with_db, InviteFlow.not_initialized, Service.emit.
  repeat first [progress cbv zeta|apply queue_kept|on_step].
  - eapply respects_weaken; [apply beside_kept|apply SetPolicy_quiet].
  - eapply respects_weaken; [apply beside_kept|apply ListByStatus_quiet].
Qed.

(** [applySignedRemoteGroupInvitePolicyPush] *)
Lemma merge_policy_applied p wire sig s :
  swp (InvitePolicy.merge_policy se p wire sig)
    (applies re Replicated.NamespaceGroupInvitePolicyV1 (bytes_str wire) sig s) s.
Proof.
  assert (He : forall e, fresh_error e ->
    applies re (A := groupInvitePolicyWireV1) Replicated.NamespaceGroupInvitePolicyV1 (bytes_str wire) sig s (inr e) s)
    by (intros; by apply applied_none).
  unfold InvitePolicy.merge_policy. cbv zeta.
  assert (Hp : TrimSpace (TrimSpace p) = TrimSpace p) by apply TrimSpace_idemp. set (q := TrimSpace p) in *.
  destruct (str_eqb q ""); [apply swp_throw, He, fresh_text|].
  unfold Runtime.with_db, Runtime.not_initialized. destruct (re_db re); [|apply swp_throw, He, fresh_text].
  apply swp_bind, swp_directory; [done|done|]. intros profile Hpr.
  destruct (hex_DecodeString _) as [pub|] eqn:Hk; [|apply swp_throw, He, fresh_text].
  destruct (Nat.eqb_spec (length pub) 32) as [Hlen|]; cbn [negb]; [|apply swp_throw, He, fresh_text].
  apply swp_bind, swp_check; [done|]. intros Hsl Hv.
  destruct (json_Unmarshal wire) as [w|] eqn:Ew; [|apply swp_throw, He, fresh_text].
  destruct (negb _); [apply swp_throw, He, fresh_text|].
  destruct (str_eqb_spec (TrimSpace (ow_ActorPeerID w)) q) as [Eq|]; cbn [negb]; [|apply swp_throw, He, fresh_text].
  apply swp_bind. unfold Roster.of_result, Roster.NormalizeGroupInvitePolicy.
  destruct (_ : result string) as [norm|e] eqn:En.
  2: { apply swp_throw, He. revert En. repeat case_match; try done; intros [= <-]; apply fresh_text. }
  apply swp_ret. apply swp_bind, swp_authorized; [done|done|].
  intros [] Hadm; cbn [negb]; [|apply swp_throw, He, fresh_text].
  eapply swp_mergerec; [set_solver|done|done| | | |intros Hok; exact (Hadm Hok eq_refl)|done|].
  - rewrite TrimSpace_idemp, <- Eq. apply names_policy. by rewrite str_bytes_str.
  - exists profile. split; [done|]. exists pub. rewrite str_bytes_str. auto.
  - apply signed_encoded; [done|done|]. by rewrite str_bytes_str.
  - by on_step.
Qed.

Definition sv_applies {A} (ns body : string) (sig : bytes) (s : Svc) (r : result A) (s' : Svc) : Prop :=
  applied re ns body sig (sv_app s) r (sv_app s').
Lemma apply_profile_applied p wire sig blob s :
  swp (Replication.apply_profile se p wire sig blob) (sv_applies Replicated.NamespaceUserProfileV1 (bytes_str wire) sig s) s.
Proof. apply swp_rt. exact (profile_applied re p wire sig blob _). Qed.
Lemma apply_avatar_applied p wire sig blob s :
  swp (Replication.apply_avatar se p wire sig blob) (sv_applies Replicated.NamespaceGroupAvatarV1 (bytes_str wire) sig s) s.
Proof. apply swp_rt. exact (avatar_applied re p wire sig blob _). Qed.
Lemma apply_role_applied p wire sig s :
  swp (Replication.apply_role se p wire sig) (sv_applies Replicated.NamespaceGroupRoleV1 (bytes_str wire) sig s) s.
Proof. apply swp_rt. exact (role_applied re p (bytes_str wire) sig _). Qed.
Lemma apply_policy_applied p wire sig s :
  swp (Replication.apply_policy se fuel p wire sig) (sv_applies Replicated.NamespaceGroupInvitePolicyV1 (bytes_str wire) sig s) s.
Proof.
  unfold Replication.apply_policy, InvitePolicy.applySignedRemoteGroupInvitePolicyPush. apply swp_bind, swp_rt.
  eapply swp_mono; [|apply merge_policy_applied]. intros [w|e] s1 [H1 H2]; simpl in *.
  - eapply swp_respects; [apply policy_tail_kept|]. unfold sv_on, same, kept. simpl. intros r s' [= Hr _ _].
    unfold sv_applies, applied. rewrite Hr. split; [done|]. intros _. by apply H2.
  - done.
Qed.

(** *** What a record does not touch *)

Definition steady (d : AppDB) := (adb_pull_state d, adb_identity d).
Lemma kept_steady d d' : same kept d d' -> same steady d d'.
Proof. unfold same, kept, steady. by intros [= _ -> ->]. Qed.
Lemma beside_steady d d' : same beside d d' -> same steady d d'.
Proof. intros H. by apply kept_steady, beside_kept. Qed.
Lemma quiet_steady {A} (m : RT A) : respects (rt_on (same beside)) m -> respects (rt_on (same steady)) m.
Proof. apply respects_weaken. intros s s'. apply beside_steady. Qed.
Lemma merge_steady x : respects (same steady) (Replicated.TryMergeReplicatedRecord x).
Proof. by apply Replicated.merge_only. Qed.
Lemma blob_steady hash mime blob : respects (rt_on (same steady)) (Profiles.store_avatar_blob hash mime blob).
Proof.
  unfold Profiles.store_avatar_blob, ProfileStore.UpsertAvatarBlob, ProfileStore.touch_blob, Roster.of_result.
  repeat first [progress cbv zeta|on_step]; try done. unfold same. by case_match.
Qed.
Lemma creator_steady g p : respects (rt_on (same steady)) (Runtime.isActiveGroupCreatorPeer re g p).
Proof. intros env t s. by rewrite (creator_unchanged re g p s env t). Qed.
Lemma authorized_unchanged g p s : swp (Runtime.isActiveGroupAuthorizedPeer re g p) (fun _ s' => s' = s) s.
Proof.
  unfold Runtime.isActiveGroupAuthorizedPeer, Runtime.with_db, Runtime.not_initialized, Roster.GetGroupMember.
  unchanged; apply creator_unchanged.
Qed.
Lemma authorized_steady g p : respects (rt_on (same steady)) (Runtime.isActiveGroupAuthorizedPeer re g p).
Proof. intros env t s. by rewrite (authorized_unchanged g p s env t). Qed.
Ltac steady_step :=
  match goal with
  | |- respects _ (Runtime.ensureSessionActive _) => apply quiet_steady, request_session_quiet
  | |- respects _ (Replicated.TryMergeReplicatedRecord _) => apply merge_steady
  | |- respects _ (Profiles.store_avatar_blob _ _ _) => apply blob_steady
  | |- respects _ (Runtime.isActiveGroupCreatorPeer _ _ _) => apply creator_steady
  | |- respects _ (Runtime.isActiveGroupAuthorizedPeer _ _ _) => apply authorized_steady
  | _ => first [progress cbv zeta | on_step]
  end.
Ltac steady_auto := repeat steady_step; try done; unfold same, Roster.update_group; simpl; repeat case_match; done.

Lemma profile_push_steady p wire sig blob : respects (rt_on (same steady)) (Profiles.applySignedRemoteProfilePush re p wire sig blob).
Proof.
  unfold Profiles.applySignedRemoteProfilePush, Profiles.with_app, Profiles.not_ready, Profiles.signing_key,
    Profiles.check_signature, Profiles.merge_record, ProfileStore.MergePeerDirectoryProfile, ProfileStore.UpsertPeerDirectorySigned,
    Roster.GetPeerDirectoryProfile. steady_auto.
Qed.
Lemma apply_profile_steady p wire sig blob : respects (sv_on (same steady)) (Replication.apply_profile se p wire sig blob).
Proof. apply on_rt, profile_push_steady. Qed.
Lemma apply_avatar_steady p wire sig blob : respects (sv_on (same steady)) (Replication.apply_avatar se p wire sig blob).
Proof.
  unfold Replication.apply_avatar, GroupAvatar.applySignedRemoteGroupAvatarPush, Profiles.with_app, Profiles.not_ready,
    Profiles.signing_key, Profiles.check_signature, Profiles.merge_record, GroupAvatar.set_group_avatar, GroupMeta.ClearGroupChatAvatar,
    GroupMeta.SetGroupChatAvatar, Roster.GetPeerDirectoryProfile, Roster.HasGroup. steady_auto.
Qed.
Lemma apply_role_steady p wire sig : respects (sv_on (same steady)) (Replication.apply_role se p wire sig).
Proof.
  unfold Replication.apply_role, Membership.applySignedRemoteGroupRolePush, Membership.mergeGroupRole, Runtime.with_db,
    Runtime.not_initialized, Roster.SetGroupMemberRole, Roster.GetGroupMember, Roster.update_member, Roster.GetPeerDirectoryProfile.
  steady_auto.
Qed.
Lemma apply_policy_steady p wire sig : respects (sv_on (same steady)) (Replication.apply_policy se fuel p wire sig).
Proof.
  unfold Replication.apply_policy, InvitePolicy.applySignedRemoteGroupInvitePolicyPush. apply respects_bind; [apply _| |intros w].
  - unfold InvitePolicy.merge_policy, Runtime.with_db, Runtime.not_initialized, Profiles.check_signature, Profiles.merge_record,
      Roster.of_result, Roster.GetPeerDirectoryProfile. steady_auto.
  - eapply respects_weaken; [|apply policy_tail_kept]. intros s s'. apply kept_steady.
Qed.

(** ** Records of other nodes *)

(** The ways in which one record arrives: pushed on either protocol, or in the
    answer to a pull. *)
Inductive Arrival :=
| Pushed (meta : ReplicaPushMetaV1) (wire sig blob : bytes)
| PushedProfile (wire sig blob : bytes)
| PulledProfile (rec : ReplicaFrames.Pulled) | PulledAvatar (rec : ReplicaFrames.Pulled)
| PulledRole (rec : ReplicaFrames.Pulled) | PulledPolicy (rec : ReplicaFrames.Pulled).
Definition arrive (remote : peerID) (a : Arrival) : SV unit :=
  match a with
  | Pushed meta wire sig blob => Replication.handleReplicaStorePush se fuel remote meta wire sig blob
  | PushedProfile wire sig blob => Replication.handleUserProfilePush se remote wire sig blob
  | PulledProfile rec => Replication.on_profile se remote rec
  | PulledAvatar rec => Replication.on_avatar se remote rec
  | PulledRole rec => Replication.on_role se remote rec
  | PulledPolicy rec => Replication.on_policy se fuel remote rec
  end.

(** A record that is taken over at most. *)
Definition takes_at_most (s s' : Svc) : Prop :=
  adb_records (sv_app s') = adb_records (sv_app s) \/ exists body sig, takes re body sig (sv_app s) (adb_records (sv_app s')).
Definition may_take (m : SV unit) : Prop := forall s, swp m (fun _ s' => takes_at_most s s') s.
Lemma may_take_throw e : may_take (sql_throw e).
Proof. intros s. apply swp_throw. by left. Qed.
Lemma may_take_ret : may_take (sql_ret tt).
Proof. intros s. apply swp_ret. by left. Qed.
Lemma applies_takes {A} ns body sig s (r : result A) s' : sv_applies ns body sig s r s' -> takes_at_most s s'.
Proof. intros [[H|H] _]; [by left|right; eauto]. Qed.
Lemma may_take_applies ns body sig m : (forall s, swp m (sv_applies ns body sig s) s) -> may_take m.
Proof. intros H s. eapply swp_mono; [|apply H]. intros r s'. apply applies_takes. Qed.
Lemma may_take_tolerate stale m : may_take m -> may_take (Replication.tolerate stale m).
Proof.
  intros H s. unfold Replication.tolerate. apply swp_bind, swp_try. eapply swp_mono; [|apply H]. intros [[]|e] s' Hs; simpl.
  - by apply swp_ret.
  - by case_match; [apply swp_ret|apply swp_throw].
Qed.
Lemma cursor_keeps remote ns k v : respects (sv_on (same adb_records)) (Service.db (Replicated.UpsertReplicatedPullCursor remote ns k v)).
Proof. apply on_db. unfold Replicated.UpsertReplicatedPullCursor. by repeat first [progress cbv zeta|asql_step]. Qed.
Lemma may_take_settle remote ns stale rec m : may_take m -> may_take (Replication.settle_record remote ns stale rec m).
Proof.
  intros H s. unfold Replication.settle_record. apply swp_bind, swp_try. eapply swp_mono; [|apply H]. intros r s1 Hs. cbv zeta.
  assert (Hm : swp (Service.db (Replicated.UpsertReplicatedPullCursor (peer_String remote) ns (ReplicaFrames.pu_key rec) (ReplicaFrames.pu_revision rec)))
    (fun _ s' => takes_at_most s s') s1).
  { eapply swp_respects; [apply cursor_keeps|]. unfold sv_on, same, takes_at_most. intros r' s' ->. exact Hs. }
  destruct r as [[]|e]; [done|]. case_match; [done|by apply swp_ret].
Qed.
Lemma arrive_takes remote a : may_take (arrive remote a).
Proof.
  destruct a as [meta wire sig blob|wire sig blob|rec|rec|rec|rec]; simpl.
  - unfold Replication.handleReplicaStorePush. cbv zeta.
    repeat case_match; first [apply may_take_throw | apply may_take_tolerate]; eapply may_take_applies; intros s';
      first [apply apply_profile_applied|apply apply_avatar_applied|apply apply_role_applied|apply apply_policy_applied].
  - unfold Replication.handleUserProfilePush. case_match; [apply may_take_throw|apply may_take_tolerate].
    eapply may_take_applies. intros s'. apply apply_profile_applied.
  - apply may_take_settle. eapply may_take_applies. intros s'. apply apply_profile_applied.
  - unfold Replication.on_avatar. cbv zeta. repeat case_match; try apply may_take_ret. apply may_take_settle. eapply may_take_applies.
    intros s'. apply apply_avatar_applied.
  - unfold Replication.on_role. cbv zeta. repeat case_match; try apply may_take_ret. apply may_take_settle. eapply may_take_applies.
    intros s'. apply apply_role_applied.
  - unfold Replication.on_policy. cbv zeta. repeat case_match; try apply may_take_ret. apply may_take_settle. eapply may_take_applies.
    intros s'. apply apply_policy_applied.
Qed.

(** C12: Records are taken over from their authors only.  Whatever a peer pushes or
    answers, and whatever statement fails: a record that arrives changes at
    most one row of the table of replicated records, to a later revision; the
    new row carries the bytes that its author signed, under the key that the
    directory of the node has for him, and says about itself what its body
    says; and its author may write it: a profile is its owner's, a role is
    written by the creator of the group, the avatar and the invite policy of a
    group by one of its active admins or its creator. *)
Theorem remote_records_are_authorised remote a env t s r t' s' :
  Roster.members_ok (sv_app s) -> arrive remote a env t s = (r, t', s') ->
  adb_records (sv_app s') = adb_records (sv_app s) \/
  exists ns g k row,
    adb_records (sv_app s') = <[(ns, k) := row]> (adb_records (sv_app s)) /\
    (forall old, adb_records (sv_app s) !! (ns, k) = Some old -> rr_Revision old < rr_Revision row) /\
    names re (rr_BodyJSON row) ns g k (rr_OwnerPeerID row) (rr_Revision row) /\
    signed_by (rr_OwnerPeerID row) (rr_BodyJSON row) (rr_Signature row) (sv_app s) /\
    entitled ns g (rr_OwnerPeerID row) (sv_app s).
Proof.
  intros Hok E. destruct (swp_run _ _ _ _ _ _ _ _ (arrive_takes remote a s) E) as [H|(body & sig & H)]; [by left|right].
  remember (adb_records (sv_app s')) as recs eqn:Er. destruct H as [ns g k p row Hn Hs He Hnew Ep Eb Es Hv].
  exists ns, g, k, row. rewrite Ep, Eb, Es. split_and!; auto.
Qed.
End Service.
