(* ===== verification/ReplicationInv.v ===== *)
(** * Stored records can be checked again

    The records of the node itself are signed with its own key; together with
    the records of other nodes every stored record verifies, whatever the node
    does. *)
From S2P Require Import Prelude GoStrings Sha256 Types Config Hlc Epoch ActiveView SingleWriter.
From S2P Require Import ForkDetector Helpers Database Store StoreSpec HealStore AppDatabase Identity Roster.
From S2P Require Import InviteStore Replicated AddOperations InviteRequests Wire.
From S2P Require Import Runtime Categories CategoryService Auth Frames Membership Profiles ReplicaFrames.
From S2P Require Import SqlLogic InviteStoreSpec MembershipSpec.
From S2P Require Import Coordinator CoordBroadcast CoordApplication CoordCommit.
From S2P Require Import CoordMessage CoordMembers CoordLogic.
From S2P Require Import CoordReplay CoordHeal Node Service ServiceLogic ServiceSpec Invites InviteFlow.
From S2P Require Import InviteFlowSpec Replication ReplicationSpec.

Section Own.
Context {PC : PeerCodec} {ED : Ed25519} {EL : Ed25519Laws} {WC : WireCodec} {PJ : PayloadJSON}.
Context {JP : JSON profileWireV1} {JA : JSON groupAvatarWireV1} {JO : JSON groupInvitePolicyWireV1}.
Context {JM : JSON ReplicaPushMetaV1} {JQ : JSON ReplicaPullRequestV1} {JH : JSON ReplicaPullRecordHeaderV1}.
Variable se : SvEnv.
Variable fuel : nat.
Abbreviation re := (se_rt se).

(** The public key of the identity belongs to its private key. *)
Definition key_pair (d : AppDB) : Prop :=
  forall id priv, adb_identity d = Some id -> Membership.normalizeMLSEd25519PrivateKey (mi_SigningKeyPrivate id) = inl priv ->
    mi_PublicKey id = ed_Public priv.
(** A signature of the local user. *)
Definition own_signed (raw sig : bytes) (d : AppDB) : Prop :=
  exists id priv, adb_identity d = Some id /\ Membership.normalizeMLSEd25519PrivateKey (mi_SigningKeyPrivate id) = inl priv /\
    sig = ed_Sign priv raw.

Lemma normalized_length key priv : Membership.normalizeMLSEd25519PrivateKey key = inl priv -> length priv = 64%nat.
Proof.
  unfold Membership.normalizeMLSEd25519PrivateKey.
  destruct (Nat.eqb_spec (length key) 32); [intros [= <-]; by apply ed_seed_length|].
  destruct (Nat.eqb_spec (length key) 64); [|done]. by intros [= <-].
Qed.
Lemma own_verifies raw sig d id :
  key_pair d -> own_signed raw sig d -> adb_identity d = Some id ->
  signed (ToLower (TrimSpace (ToLower (hex_EncodeToString (mi_PublicKey id))))) (bytes_str raw) sig.
Proof.
  intros Hk (id' & priv & Hi & Hn & ->) Hi'. simplify_eq. pose proof (normalized_length _ _ Hn). rewrite (Hk _ _ Hi Hn).
  apply signed_encoded; rewrite ?str_bytes_str; [by apply ed_public_length|by apply ed_sign_length|by apply ed_verify_sign].
Qed.

(** The tables a record of the node depends on. *)
Definition sealed (d : AppDB) := (adb_records d, adb_identity d).
Definition sustains (d d' : AppDB) : Prop :=
  adb_identity d' = adb_identity d /\ (key_pair d -> records_verified re d -> records_verified re d').
#[export] Instance sustains_preorder : PreOrder sustains.
Proof.
  split; [by intros d; split|]. intros d1 d2 d3 [I1 H1] [I2 H2]. split; [congruence|]. intros Hk Hv.
  apply H2; [|by apply H1]. unfold key_pair. by rewrite I1.
Qed.
Lemma sealed_sustains d d' : same sealed d d' -> sustains d d'.
Proof. unfold same, sealed. intros [= Hr Hi]. split; [done|]. intros _. unfold records_verified. by rewrite Hr. Qed.
Lemma beside_sealed d d' : same beside d d' -> same sealed d d'.
Proof. unfold same, beside, sealed. by intros [= _ -> _ ->]. Qed.

(** Storing an own record. *)
Lemma force_sustains ns g k p v body sig keyHex refs d :
  TrimSpace ns = ns -> names re body ns g (TrimSpace k) (TrimSpace p) v ->
  (key_pair d -> signed (ToLower (TrimSpace keyHex)) body sig) ->
  swp (Replicated.PutReplicatedRecordForce (Replicated.mkPut ns k p v 1 body (Replicated.ReplicatedBodyHash body) sig keyHex 0 refs))
    (fun _ d' => sustains d d') d.
Proof.
  intros Hns Hn Hs. unfold Replicated.PutReplicatedRecordForce. destruct (Replicated.put_invalid _ _) eqn:Hok; [by apply swp_throw|].
  assert (Hrefs : forall refs', respects (same sealed) (Replicated.replaceReplicatedRecordBlobRefs
    (Replicated.put_key (Replicated.mkPut ns k p v 1 body (Replicated.ReplicatedBodyHash body) sig keyHex 0 refs)).1
    (Replicated.put_key (Replicated.mkPut ns k p v 1 body (Replicated.ReplicatedBodyHash body) sig keyHex 0 refs)).2 refs'))
    by (intros; by apply Replicated.replace_refs_only).
  apply swp_bind. intros env t. destruct (Replicated.write_row _ _ env t d) as [[r t'] d'] eqn:E. simpl.
  apply Replicated.write_row_run in E as [[-> Hne]|[-> (now & ->)]]; [by destruct r as [[]|e]|].
  eapply swp_respects; [apply Hrefs|]. intros r d' Hd'%sealed_sustains. etrans; [|exact Hd']. split; [done|]. intros Hk Hv.
  unfold records_verified. simpl. apply map_Forall_insert_2; [|done]. unfold Replicated.put_key, Replicated.put_row. simpl. rewrite Hns.
  apply Replicated.put_valid in Hok as [Hpos Hh]. simpl in Hpos, Hh.
  split; simpl; [by split|by exists g|by apply Hs].
Qed.

(** Reading the identity, and signing *)
Lemma swp_identity Q s :
  (forall e, Q (inr e) s) -> (forall id, adb_identity (rt_app s) = Some id -> Q (inl id) s) -> swp Runtime.GetMLSIdentity Q s.
Proof.
  intros He H. apply swp_app. unfold Identity.GetMLSIdentity. swp_step; rewrite rt_eta; auto.
Qed.
Lemma swp_sign id raw Q s :
  adb_identity (rt_app s) = Some id -> (forall e, Q (inr e) s) -> (forall sig, own_signed raw sig (rt_app s) -> Q (inl sig) s) ->
  swp (Profiles.sign_wire id raw) Q s.
Proof.
  intros Hi He H. unfold Profiles.sign_wire. apply swp_bind. destruct (Membership.normalizeMLSEd25519PrivateKey _) eqn:En; simpl.
  - apply swp_ret, swp_ret, H. by eexists _, _.
  - by apply swp_throw.
Qed.

(** What a payload of the node is: bytes with a signature of its own. *)
Definition packs {X} (part : X -> bytes * bytes) (m : RT X) : Prop := forall s, swp m (fun r s' =>
  same sealed (rt_app s) (rt_app s') /\ match r with inl x => own_signed (part x).1 (part x).2 (rt_app s') | inr _ => True end) s.
Section Packing.
Context {X : Type} (part : X -> bytes * bytes).
Lemma packs_throw e : packs part (sql_throw e).
Proof. intros s. by apply swp_throw. Qed.
Lemma packs_bind {A} (m : RT A) (k : A -> RT X) : respects (rt_on (same sealed)) m -> (forall a, packs part (k a)) -> packs part (sql_bind m k).
Proof.
  intros Hm Hk s. apply swp_bind. eapply swp_respects; [exact Hm|]. intros [a|e] s1 H1; [|done].
  eapply swp_mono; [|apply Hk]. intros r s' [H' Hr]. split; [|done]. by etrans.
Qed.
Lemma packs_identity (k : MLSIdentity -> RT X) :
  (forall id s, adb_identity (rt_app s) = Some id -> swp (k id) (fun r s' => same sealed (rt_app s) (rt_app s') /\
     match r with inl x => own_signed (part x).1 (part x).2 (rt_app s') | inr _ => True end) s) ->
  packs part (sql_bind Runtime.GetMLSIdentity k).
Proof. intros H s. apply swp_bind, swp_identity; [done|]. intros id Hi. by apply H. Qed.
(** After the identity has been read *)
Definition signs (id : MLSIdentity) (m : RT X) : Prop := forall s, adb_identity (rt_app s) = Some id -> swp m (fun r s' =>
  same sealed (rt_app s) (rt_app s') /\ match r with inl x => own_signed (part x).1 (part x).2 (rt_app s') | inr _ => True end) s.
Lemma signs_bind {A} id (m : RT A) (k : A -> RT X) :
  respects (rt_on (same sealed)) m -> (forall a, signs id (k a)) -> signs id (sql_bind m k).
Proof.
  intros Hm Hk s Hi. apply swp_bind. eapply swp_respects; [exact Hm|]. intros [a|e] s1 H1; [|done].
  assert (Hi1 : adb_identity (rt_app s1) = Some id) by (unfold rt_on, same, sealed in H1; congruence).
  eapply swp_mono; [|by apply Hk]. intros r s' [H' Hr]. split; [|done]. by etrans.
Qed.
Lemma signs_sign id raw (k : bytes -> RT X) :
  (forall sig s, own_signed raw sig (rt_app s) -> swp (k sig) (fun r s' => same sealed (rt_app s) (rt_app s') /\
     match r with inl x => own_signed (part x).1 (part x).2 (rt_app s') | inr _ => True end) s) ->
  signs id (sql_bind (Profiles.sign_wire id raw) k).
Proof. intros H s Hi. apply swp_bind, swp_sign; [done|done|]. intros sig Hs. by apply H. Qed.
Lemma signed_end {A} raw sig (m : RT A) (f : A -> X) s :
  respects (rt_on (same sealed)) m -> own_signed raw sig (rt_app s) -> (forall a, part (f a) = (raw, sig)) ->
  swp (a <-! m ; sql_ret (f a)) (fun r s' => same sealed (rt_app s) (rt_app s') /\
     match r with inl x => own_signed (part x).1 (part x).2 (rt_app s') | inr _ => True end) s.
Proof.
  intros Hm Ho Hf. apply swp_bind. eapply swp_respects; [exact Hm|]. intros [a|e] s1 H1; [|done]. apply swp_ret. split; [done|].
  rewrite Hf. simpl. unfold own_signed in *. unfold rt_on, same, sealed in H1. injection H1 as _ ->. done.
Qed.
End Packing.

Lemma seal_quiet {A} (m : RT A) : respects (rt_on (same beside)) m -> respects (rt_on (same sealed)) m.
Proof. apply respects_weaken. intros s s'. apply beside_sealed. Qed.
Ltac sealed_step :=
  match goal with
  | |- respects _ (Runtime.ensureSessionActive _) => apply seal_quiet, request_session_quiet
  | |- respects _ (Runtime.GetOnboardingInfo _) => apply seal_quiet, onboarding_quiet
  | |- respects _ Runtime.GetMLSIdentity => apply seal_quiet, identity_quiet
  | _ => first [progress cbv zeta | on_step]
  end.
Ltac sealed_auto := repeat sealed_step; try done; unfold same, Roster.update_group; simpl; repeat case_match; done.

Lemma seeded_sealed : respects (rt_on (same sealed)) (Profiles.ensureLocalProfileSeeded re).
Proof.
  unfold Profiles.ensureLocalProfileSeeded, Profiles.with_key, Profiles.not_ready, ProfileStore.EnsureLocalProfileRow,
    ProfileStore.EnsureLocalProfileRevisionFloor, ProfileStore.SyncLocalProfileIdentity, ProfileStore.update_local. sealed_auto.
Qed.
Definition payload (x : bytes * bytes * bytes) : bytes * bytes := x.1.
Lemma profile_packs cleared : packs payload (Profiles.packSignedProfilePushPayload re cleared).
Proof.
  unfold Profiles.packSignedProfilePushPayload, Profiles.with_key, Profiles.not_ready.
  destruct (_ && _); [|apply packs_throw]. apply packs_bind; [apply seeded_sealed|intros _].
  apply packs_bind; [apply seal_quiet, onboarding_quiet|intros p]. apply packs_identity. intros id. apply signs_bind.
  { unfold ProfileStore.GetLocalProfile. sealed_auto. }
  intros local. cbv zeta. apply signs_sign. intros sig s Ho.
  apply (signed_end payload (json_Marshal (Profiles.local_wire p id local cleared)) sig); [|done|done].
  unfold ProfileStore.GetAvatarBlob. sealed_auto.
Qed.
Lemma avatar_packs g : packs payload (GroupAvatar.packSignedGroupAvatarPushPayload re g).
Proof.
  unfold GroupAvatar.packSignedGroupAvatarPushPayload, Profiles.with_key, Profiles.not_ready. cbv zeta.
  destruct (str_eqb _ ""); [apply packs_throw|]. destruct (_ && _); [|apply packs_throw].
  apply packs_bind; [apply seal_quiet, onboarding_quiet|intros p]. apply packs_identity. intros id. apply signs_bind.
  { unfold GroupAvatar.nextGroupAvatarReplicationRevision, Profiles.with_app, Profiles.not_ready, Replicated.GetReplicatedRecord. sealed_auto. }
  intros rev. apply signs_bind; [unfold GroupMeta.GetGroupChatAvatarMeta; sealed_auto|]. intros [[hash mime] at_].
  apply signs_sign. intros sig s Ho. eapply signed_end; [|exact Ho|done]. unfold ProfileStore.GetAvatarBlob. sealed_auto.
Qed.
Lemma policy_packs g pol actor : packs (fun x : bytes * bytes => x) (InvitePolicy.packSignedGroupInvitePolicyPayload se g pol actor).
Proof.
  unfold InvitePolicy.packSignedGroupInvitePolicyPayload, Runtime.with_db, Runtime.not_initialized.
  apply packs_bind; [unfold Roster.of_result; sealed_auto|intros norm]. destruct (re_db re); [|apply packs_throw].
  apply packs_identity. intros id. apply signs_bind.
  { unfold InvitePolicy.nextGroupInvitePolicyRevision, Runtime.with_db, Runtime.not_initialized, Replicated.GetReplicatedRecord. sealed_auto. }
  intros rev. apply signs_bind; [sealed_auto|intros now]. cbv zeta. apply signs_sign. intros sig s Ho. apply swp_ret. done.
Qed.
Lemma role_packs g p role actor : packs (fun x : string * bytes => (str_bytes x.1, x.2)) (Membership.packSignedGroupRolePayload re g p role actor).
Proof.
  unfold Membership.packSignedGroupRolePayload, Runtime.with_db, Runtime.not_initialized. destruct (re_db re); [|apply packs_throw].
  apply packs_identity. intros id. apply signs_bind.
  { unfold Membership.nextGroupRoleRevision, Runtime.with_db, Runtime.not_initialized, Replicated.GetReplicatedRecord. sealed_auto. }
  intros rev. apply signs_bind; [apply respects_try, on_app, (respects_weaken _ _ _ beside_sealed), GetGroupRecord_quiet|intros rec].
  apply signs_bind; [sealed_auto|intros now]. cbv zeta. intros s Hi. apply swp_bind.
  destruct (Membership.normalizeMLSEd25519PrivateKey _) as [priv|e] eqn:En; simpl; [|by apply swp_throw]. apply swp_ret, swp_ret.
  split; [done|]. by exists id, priv.
Qed.

(** *** Storing own records *)

Lemma persist_own ns g k p v wire sig refs s :
  own_signed wire sig (rt_app s) -> TrimSpace ns = ns -> names re (bytes_str wire) ns g (TrimSpace k) (TrimSpace p) v ->
  swp (identity <-! Runtime.GetMLSIdentity ;
       Runtime.app (Replicated.PutReplicatedRecordForce (Replicated.mkPut ns k p v 1 (bytes_str wire)
         (Replicated.ReplicatedBodyHash (bytes_str wire)) sig (ToLower (hex_EncodeToString (mi_PublicKey identity))) 0 refs)))
    (fun _ s' => rt_on sustains s s') s.
Proof.
  intros Ho Hns Hn. apply swp_bind, swp_identity; [intros e; reflexivity|]. intros id Hi. apply swp_app.
  eapply swp_mono; [|eapply force_sustains]; [by intros r d' H|done|exact Hn|]. intros Hk. by eapply own_verifies.
Qed.
Lemma persist_profile wire sig s :
  own_signed wire sig (rt_app s) -> swp (Profiles.persistOwnReplicatedProfile re wire sig) (fun _ s' => rt_on sustains s s') s.
Proof.
  intros Ho. unfold Profiles.persistOwnReplicatedProfile, Profiles.with_app, Profiles.not_ready.
  destruct (json_Unmarshal wire) as [w|] eqn:Ew; [|apply swp_throw; reflexivity]. destruct (re_db re); [|apply swp_throw; reflexivity].
  cbv zeta. eapply persist_own; [done|done|]. apply names_profile. by rewrite str_bytes_str.
Qed.
Lemma signer_trimmed w : TrimSpace (GroupAvatar.signerPeerID w) = GroupAvatar.signerPeerID w.
Proof. unfold GroupAvatar.signerPeerID. case_match; apply TrimSpace_idemp. Qed.
Lemma persist_avatar wire sig s :
  own_signed wire sig (rt_app s) -> swp (GroupAvatar.persistOwnReplicatedGroupAvatar re wire sig) (fun _ s' => rt_on sustains s s') s.
Proof.
  intros Ho. unfold GroupAvatar.persistOwnReplicatedGroupAvatar, Profiles.with_app, Profiles.not_ready.
  destruct (json_Unmarshal wire) as [w|] eqn:Ew; [|apply swp_throw; reflexivity]. destruct (re_db re); [|apply swp_throw; reflexivity].
  cbv zeta. eapply persist_own; [done|done|]. rewrite signer_trimmed. apply names_avatar. by rewrite str_bytes_str.
Qed.
Lemma persist_policy wire sig s :
  own_signed wire sig (rt_app s) -> swp (InvitePolicy.persistOwnReplicatedGroupInvitePolicy se wire sig) (fun _ s' => rt_on sustains s s') s.
Proof.
  intros Ho. unfold InvitePolicy.persistOwnReplicatedGroupInvitePolicy, Runtime.with_db, Runtime.not_initialized.
  destruct (json_Unmarshal wire) as [w|] eqn:Ew; [|apply swp_throw; reflexivity]. destruct (re_db re); [|apply swp_throw; reflexivity].
  cbv zeta. eapply persist_own; [done|done|]. apply names_policy. by rewrite str_bytes_str.
Qed.
Lemma persist_role wire sig s :
  own_signed (str_bytes wire) sig (rt_app s) -> swp (Membership.persistOwnReplicatedGroupRole re wire sig) (fun _ s' => rt_on sustains s s') s.
Proof.
  intros Ho. unfold Membership.persistOwnReplicatedGroupRole, Runtime.with_db, Runtime.not_initialized.
  destruct (re_role_Unmarshal re wire) as [w|] eqn:Ew; [|apply swp_throw; reflexivity]. destruct (re_db re); [|apply swp_throw; reflexivity].
  rewrite <- (bytes_str_bytes wire). eapply persist_own; [done|done|]. apply names_role. by rewrite bytes_str_bytes.
Qed.

(** *** The calls *)

Lemma respects_swp {D A} (R : D -> D -> Prop) (m : SQLs D A) : (forall d, swp m (fun _ d' => R d d') d) -> respects R m.
Proof. intros H env t d. apply H. Qed.
(** A payload that is packed and then used. *)
Lemma own_call {X A} (part : X -> bytes * bytes) (pack : RT X) (k : result X -> SV A) :
  packs part pack -> (forall e, respects (sv_on sustains) (k (inr e))) ->
  (forall x s, own_signed (part x).1 (part x).2 (sv_app s) -> swp (k (inl x)) (fun _ s' => sv_on sustains s s') s) ->
  respects (sv_on sustains) (packed <-! sql_try (Service.rt pack) ; k packed).
Proof.
  intros Hp He Hk. apply respects_swp. intros s. apply swp_bind, swp_try, swp_rt. eapply swp_mono; [|apply Hp].
  intros r s1 [H1%sealed_sustains Ho]. simpl in *. destruct r as [x|e].
  - eapply swp_mono; [|by apply Hk]. intros r s'. unfold sv_on. simpl. intros H'. by etrans.
  - eapply swp_respects; [apply He|]. intros r s'. unfold sv_on. simpl. intros H'. by etrans.
Qed.
(** What follows a payload that has been stored *)
Lemma stored_then {A B} (m : RT A) (k : result A -> SV B) s :
  swp m (fun _ s' => rt_on sustains (mkRtState (sv_app s) (dom (sv_coords s)) (sv_trace s)) s')
    (mkRtState (sv_app s) (dom (sv_coords s)) (sv_trace s)) ->
  (forall r, respects (sv_on sustains) (k r)) -> swp (saved <-! sql_try (Service.rt m) ; k saved) (fun _ s' => sv_on sustains s s') s.
Proof.
  intros Hm Hk. apply swp_bind, swp_try, swp_rt. eapply swp_mono; [|exact Hm]. intros r s1 H1. simpl.
  eapply swp_respects; [apply Hk|]. intros r' s'. unfold sv_on, rt_on in *. simpl in *. intros H'. by etrans.
Qed.
Lemma sealed_call {A} (m : RT A) : respects (rt_on (same sealed)) m -> respects (sv_on sustains) (Service.rt m).
Proof. intros H. apply on_rt. eapply respects_weaken; [|exact H]. intros s s'. apply sealed_sustains. Qed.
Lemma push_sustains ps f : respects (sv_on sustains) (Replication.push_each ps f).
Proof. induction ps as [|p ps IH]; simpl; repeat first [apply IH|on_step]. Qed.
Lemma push_verified_sustains ns k wire sig blob : respects (sv_on sustains) (Replication.push_verified se ns k wire sig blob).
Proof. unfold Replication.push_verified. repeat case_match; first [apply push_sustains | on_step]. Qed.
Ltac send_step :=
  match goal with
  | |- respects _ (Replication.push_verified _ _ _ _ _ _) => apply push_verified_sustains
  | |- respects _ (Service.rt (Runtime.GetOnboardingInfo _)) => apply sealed_call, seal_quiet, onboarding_quiet
  | _ => on_step
  end.

Lemma publish_profile_sustains cleared : respects (sv_on sustains) (Replication.replicateLocalProfileNow se cleared).
Proof.
  unfold Replication.replicateLocalProfileNow. eapply own_call; [apply profile_packs|intros e; on_step|].
  intros [[wire sig] blob] s Ho. destruct (_ || _); [by apply swp_ret|]. apply stored_then; [by apply persist_profile|].
  intros r. unfold Service.go. repeat send_step.
Qed.
Lemma send_profile_sustains remote : respects (sv_on sustains) (Replication.replicateLocalProfilePushToPeer se remote).
Proof.
  unfold Replication.replicateLocalProfilePushToPeer. eapply own_call; [apply profile_packs|intros e; on_step|].
  intros [[wire sig] blob] s Ho. destruct (_ || _); [by apply swp_ret|]. apply stored_then; [by apply persist_profile|].
  intros r. repeat send_step.
Qed.
Lemma publish_avatar_sustains g : respects (sv_on sustains) (Replication.replicateGroupChatAvatarAfterLocalSave se g).
Proof.
  unfold Replication.replicateGroupChatAvatarAfterLocalSave. cbv zeta. destruct (str_eqb _ ""); [on_step|].
  eapply own_call; [apply avatar_packs|intros e; on_step|]. intros [[wire sig] blob] s Ho. destruct (_ || _); [by apply swp_ret|].
  apply stored_then; [by apply persist_avatar|]. intros r. unfold Service.go. repeat send_step.
Qed.
Lemma publish_policy_sustains g p a : respects (sv_on sustains) (Replication.replicateGroupInvitePolicyAfterLocalSave se g p a).
Proof.
  unfold Replication.replicateGroupInvitePolicyAfterLocalSave. eapply own_call; [apply policy_packs|intros e; on_step|].
  intros [wire sig] s Ho. destruct (_ || _); [by apply swp_ret|]. apply stored_then; [by apply persist_policy|].
  intros r. unfold Service.go. repeat send_step.
Qed.
Lemma publish_role_sustains g p role a : respects (sv_on sustains) (Service.rt (Membership.replicateGroupRoleAfterLocalSave re g p role a)).
Proof.
  apply on_rt. unfold Membership.replicateGroupRoleAfterLocalSave. apply respects_swp. intros s. apply swp_bind, swp_try.
  eapply swp_mono; [|apply role_packs]. intros r s1 [H1%sealed_sustains Ho]. destruct r as [[wire sig]|e]; [|by apply swp_ret].
  destruct (_ || _); [by apply swp_ret|]. apply swp_bind, swp_try. eapply swp_mono; [|by apply persist_role].
  intros r s2 H2. assert (H3 : rt_on sustains s s2) by (etrans; [exact H1|exact H2]).
  destruct r; [by apply swp_effect|by apply swp_ret].
Qed.

(** *** Records of other nodes *)

(** A relation that applying a record and moving a cursor keep. *)
Lemma arrive_respects (R : Svc -> Svc -> Prop) `{!PreOrder R} remote a :
  (forall p wire sig blob, respects R (Replication.apply_profile se p wire sig blob)) ->
  (forall p wire sig blob, respects R (Replication.apply_avatar se p wire sig blob)) ->
  (forall p wire sig, respects R (Replication.apply_role se p wire sig)) ->
  (forall p wire sig, respects R (Replication.apply_policy se fuel p wire sig)) ->
  (forall p ns k v, respects R (Service.db (Replicated.UpsertReplicatedPullCursor p ns k v))) ->
  respects R (arrive se fuel remote a).
Proof.
  intros H1 H2 H3 H4 H5. destruct a as [meta wire sig blob|wire sig blob|rec|rec|rec|rec]; simpl;
    unfold Replication.handleReplicaStorePush, Replication.handleUserProfilePush, Replication.tolerate, Replication.on_profile,
      Replication.on_avatar, Replication.on_role, Replication.on_policy, Replication.settle_record; cbv zeta.
  all: repeat first [apply H1|apply H2|apply H3|apply H4|apply H5|asql_step].
Qed.
Lemma same_steady_identity s s' : sv_on (same steady) s s' -> sv_on (same adb_identity) s s'.
Proof. unfold sv_on, same, steady. by intros [= _ ->]. Qed.
Lemma arrive_identity remote a : respects (sv_on (same adb_identity)) (arrive se fuel remote a).
Proof.
  apply arrive_respects; [apply _|intros; eapply respects_weaken; [apply same_steady_identity|]..|].
  - apply apply_profile_steady.
  - apply apply_avatar_steady.
  - apply apply_role_steady.
  - apply apply_policy_steady.
  - intros. apply on_db. unfold Replicated.UpsertReplicatedPullCursor. by repeat first [progress cbv zeta|asql_step].
Qed.
Lemma takes_sustains d d' :
  same adb_identity d d' -> adb_records d' = adb_records d \/ (exists body sig, takes re body sig d (adb_records d')) -> sustains d d'.
Proof.
  intros Hi Ht. split; [done|]. intros _ Hv. unfold records_verified. destruct Ht as [->|(body & sig & Ht)]; [done|].
  destruct Ht. by apply map_Forall_insert_2.
Qed.
Lemma arrive_sustains remote a : respects (sv_on sustains) (arrive se fuel remote a).
Proof. intros env t s. apply takes_sustains; [apply arrive_identity|apply arrive_takes]. Qed.
Lemma annex_sustains remote tok wire sig : respects (sv_on sustains) (Service.rt (Profiles.handleAuthProfileAnnex re remote tok wire sig)).
Proof.
  apply on_rt. unfold Profiles.handleAuthProfileAnnex, Roster.UpsertPeerProfileWithKey. repeat first [progress cbv zeta|on_step].
  1: by apply sealed_sustains.
  apply respects_swp. intros s env t. apply takes_sustains.
  - pose proof (profile_push_steady se (peer_String remote) wire sig [] env t s) as H. unfold rt_on, same, steady in *. congruence.
  - destruct (profile_applied re (peer_String remote) wire sig [] s env t) as [[Ht|Ht] _]; [by left|eauto].
Qed.

(** A pull, whatever the peer answers. *)
Lemma read_respects (R : Svc -> Svc -> Prop) `{!PreOrder R} onRecord steps : (forall rec, respects R (onRecord rec)) ->
  forall s, respects R (Replication.read_records steps s onRecord).
Proof.
  intros H. induction steps as [|steps IH]; intros s; simpl; repeat first [apply H|apply IH|asql_step].
Qed.
Lemma pull_respects (R : Svc -> Svc -> Prop) `{!PreOrder R} answer remote req onRecord : (forall rec, respects R (onRecord rec)) ->
  respects R (Replication.PullReplicaStoreRecords answer remote req onRecord).
Proof.
  intros H. unfold Replication.PullReplicaStoreRecords. repeat case_match; first [by apply read_respects | asql_step].
Qed.

Lemma db_sustains {A} (m : ASQL A) : respects (same sealed) m -> respects (sv_on sustains) (Service.db m).
Proof. intros H. apply on_db. eapply respects_weaken; [|exact H]. apply sealed_sustains. Qed.
Lemma cursors_sustains remote ns keys : forall acc, respects (sv_on sustains) (Replication.read_cursors remote ns keys acc).
Proof.
  induction keys as [|k keys IH]; intros acc; simpl; unfold Replicated.GetReplicatedPullCursor; repeat first [apply IH|on_step].
Qed.
Lemma request_sustains remote ns keys : respects (sv_on sustains) (Replication.pull_request remote ns keys).
Proof. unfold Replication.pull_request. repeat first [apply cursors_sustains|on_step]. Qed.
Lemma role_keys_sustains gs : respects (sv_on sustains) (Replication.role_keys gs).
Proof.
  induction gs as [|g gs IH]; simpl; repeat first [apply IH|on_step]. eapply respects_weaken; [|apply ListMembers_quiet].
  intros d d' H. by apply sealed_sustains, beside_sealed.
Qed.
Lemma pull_sustains answer remote : respects (sv_on sustains) (Replication.pullReplicatedProfilesFromPeerOnce se answer fuel remote).
Proof.
  unfold Replication.pullReplicatedProfilesFromPeerOnce, Replication.buildReplicatedProfilePullRequest,
    Replication.buildReplicatedGroupAvatarPullRequest, Replication.buildReplicatedGroupRolePullRequest,
    Replication.buildReplicatedGroupInvitePolicyPullRequest, Replication.group_request, Replication.pull_optional,
    ProfileStore.ListKnownProfilePeerIDs, GroupMeta.ListJoinedGroupChatIDsForReplication.
  repeat first [progress cbv zeta|apply request_sustains|apply role_keys_sustains|apply pull_respects; [apply _|intros rec]|on_step].
  - apply (arrive_sustains remote (PulledProfile rec)).
  - apply (arrive_sustains remote (PulledAvatar rec)).
  - apply (arrive_sustains remote (PulledRole rec)).
  - apply (arrive_sustains remote (PulledPolicy rec)).
Qed.

(** *** The user's calls *)

Lemma sign_sealed id raw : respects (rt_on (same sealed)) (Profiles.sign_wire id raw).
Proof. unfold Profiles.sign_wire, Roster.of_result. sealed_auto. Qed.
Lemma refresh_sealed cleared : respects (rt_on (same sealed)) (Profiles.refreshSignedSelfPeerDirectory re cleared).
Proof.
  unfold Profiles.refreshSignedSelfPeerDirectory, Profiles.with_key, Profiles.not_ready, ProfileStore.GetLocalProfile,
    Roster.UpsertPeerProfileWithKey, ProfileStore.UpsertPeerDirectorySigned.
  repeat first [apply sign_sealed|sealed_step]; try done; unfold same; simpl; repeat case_match; done.
Qed.
Lemma upsert_blob_sealed h m b : respects (same sealed) (ProfileStore.UpsertAvatarBlob h m b).
Proof.
  unfold ProfileStore.UpsertAvatarBlob, ProfileStore.touch_blob. repeat first [progress cbv zeta|asql_step]; try done.
  unfold same. by case_match.
Qed.
Ltac profile_step :=
  match goal with
  | |- respects _ (Profiles.refreshSignedSelfPeerDirectory _ _) => apply refresh_sealed
  | |- respects _ (Profiles.ensureLocalProfileSeeded _) => apply seeded_sealed
  | |- respects _ (ProfileStore.UpsertAvatarBlob _ _ _) => apply upsert_blob_sealed
  | _ => sealed_step
  end.
Lemma save_profile_sealed email phone image change : respects (rt_on (same sealed)) (Profiles.save_profile re email phone image change).
Proof.
  unfold Profiles.save_profile, Profiles.with_key, Profiles.not_ready, Profiles.nextLocalProfileRevision, Profiles.save_avatar,
    ProfileStore.GetLocalProfile, ProfileStore.SaveLocalProfileContacts, ProfileStore.SaveLocalProfileAvatar,
    ProfileStore.ClearLocalProfileAvatar, ProfileStore.update_local, Roster.of_result. repeat profile_step; done.
Qed.
Lemma clear_avatar_sealed : respects (rt_on (same sealed)) (Profiles.clear_avatar re).
Proof.
  unfold Profiles.clear_avatar, Profiles.with_key, Profiles.not_ready, Profiles.nextLocalProfileRevision,
    ProfileStore.GetLocalProfile, ProfileStore.ClearLocalProfileAvatar, ProfileStore.update_local. repeat profile_step; done.
Qed.
Lemma my_profile_sealed : respects (rt_on (same sealed)) (Profiles.GetMyProfile re).
Proof.
  unfold Profiles.GetMyProfile, Profiles.with_key, Profiles.not_ready, Profiles.buildUserProfileInfo, ProfileStore.GetLocalProfile,
    ProfileStore.GetAvatarBlob, Roster.GetPeerDirectoryProfile. repeat profile_step; done.
Qed.
Lemma SaveMyProfile_sustains email phone image change : respects (sv_on sustains) (Replication.SaveMyProfile se email phone image change).
Proof.
  unfold Replication.SaveMyProfile. apply respects_bind; [apply _|apply sealed_call, save_profile_sealed|intros clears].
  apply respects_bind; [apply _|apply publish_profile_sustains|intros _]. apply sealed_call, my_profile_sealed.
Qed.
Lemma ClearMyAvatar_sustains : respects (sv_on sustains) (Replication.ClearMyAvatar se).
Proof.
  unfold Replication.ClearMyAvatar. apply respects_bind; [apply _|apply sealed_call, clear_avatar_sealed|intros clears].
  apply publish_profile_sustains.
Qed.
Lemma SaveGroupChatAvatar_sustains g image change : respects (sv_on sustains) (Replication.SaveGroupChatAvatar se g image change).
Proof.
  unfold Replication.SaveGroupChatAvatar, Roster.of_result, Service.go, GroupMeta.SetGroupChatAvatar, GroupMeta.ClearGroupChatAvatar.
  repeat match goal with
  | |- respects _ (Service.rt (Runtime.ensureSessionActive _)) => apply sealed_call, seal_quiet, request_session_quiet
  | |- respects _ (Service.rt (Runtime.requireGroupPermission _ _ _)) => apply sealed_call, seal_quiet, permission_quiet
  | |- respects _ (Service.db (core (Store.GetGroupRecord _))) =>
      apply db_sustains, (respects_weaken _ _ _ beside_sealed), GetGroupRecord_quiet
  | |- respects _ (Service.db (ProfileStore.UpsertAvatarBlob _ _ _)) => apply db_sustains, upsert_blob_sealed
  | |- respects _ (Service.db _) => apply db_sustains
  | _ => first [progress cbv zeta | on_step]
  end; unfold same, Roster.update_group; simpl; try case_match; done.
Qed.
Lemma attachment_sustains h : respects (sv_on sustains) (Replication.attachment se h).
Proof. unfold Replication.attachment, ProfileStore.GetAvatarBlob. repeat first [progress cbv zeta|on_step]. Qed.
Lemma serve_sustains ns attach cursors keys : (forall b, respects (sv_on sustains) (attach b)) ->
  respects (sv_on sustains) (Replication.serve_keys ns attach cursors keys).
Proof.
  intros Ha. induction keys as [|k keys IH]; simpl; unfold Replicated.GetReplicatedRecord;
    repeat first [progress cbv zeta|apply Ha|apply IH|on_step].
Qed.
Lemma served_sustains ns max attach b : Replication.served se ns = Some (max, attach) -> respects (sv_on sustains) (attach b).
Proof.
  unfold Replication.served. repeat case_match; intros [= <- <-]; first [apply attachment_sustains | unfold Replication.no_blob; on_step].
Qed.
Lemma stream_sustains remote input : respects (sv_on sustains) (Replication.handle_sync_stream se remote input).
Proof.
  unfold Replication.handle_sync_stream, Replication.serveReplicaStoreP2P. destruct (ReplicaFrames.read_request input) as [req|]; [|on_step].
  cbv zeta. destruct (Replication.served se (TrimSpace (pq_Namespace req))) as [[max attach]|] eqn:Es; repeat on_step.
  apply serve_sustains. intros b. by eapply served_sustains.
Qed.
Lemma gc_sealed hs : forall n, respects (same sealed) (Replicated.gc_delete hs n).
Proof. induction hs as [|h hs IH]; intros n; simpl; repeat first [apply IH|asql_step]; done. Qed.
Lemma gc_avatars_sealed hs : forall n, respects (same sealed) (ProfileStore.gc_avatars hs n).
Proof. induction hs as [|h hs IH]; intros n; simpl; repeat first [apply IH|asql_step]; done. Qed.
Lemma pull_each_sustains ps : respects (sv_on sustains) (Replication.pull_each ps).
Proof. induction ps as [|p ps IH]; simpl; unfold Service.go; repeat first [apply IH|on_step]. Qed.
Lemma repair_sustains : respects (sv_on sustains) (Replication.repair_round se).
Proof.
  unfold Replication.repair_round, Replicated.GCUnreferencedReplicatedBlobs, ProfileStore.GCUnreferencedAvatarBlobs.
  repeat match goal with
  | |- respects _ (Replication.pull_each _) => apply pull_each_sustains
  | |- respects _ (Service.db _) => apply db_sustains
  | |- respects _ (Replicated.gc_delete _ _) => apply gc_sealed
  | |- respects _ (ProfileStore.gc_avatars _ _) => apply gc_avatars_sealed
  | _ => first [progress cbv zeta | on_step]
  end.
Qed.

(** Everything a node does with records: its own, those that arrive, those it
    pulls and those it serves. *)
Inductive ReplicaOp :=
| OSaveProfile (email phone : string) (image : bytes) (change : Z) | OClearAvatar | OSendProfile (remote : peerID)
| OSaveGroupAvatar (groupID : string) (image : bytes) (change : Z) | OPublishGroupAvatar (groupID : string)
| OPublishPolicy (groupID policy actor : string) | OPublishRole (groupID target role actor : string)
| OArrive (remote : peerID) (a : Arrival) | OAnnex (remote : peerID) (tok : option InvitationToken) (wire sig : bytes)
| OPull (remote : peerID) (answer : peerID -> ReplicaPullRequestV1 -> result bytes)
| OServe (remote : peerID) (input : bytes) | ORepair.
Definition replica_op (op : ReplicaOp) : SV unit :=
  match op with
  | OSaveProfile email phone image change => sql_ignore (Replication.SaveMyProfile se email phone image change)
  | OClearAvatar => Replication.ClearMyAvatar se
  | OSendProfile remote => Replication.replicateLocalProfilePushToPeer se remote
  | OSaveGroupAvatar g image change => Replication.SaveGroupChatAvatar se g image change
  | OPublishGroupAvatar g => Replication.replicateGroupChatAvatarAfterLocalSave se g
  | OPublishPolicy g p a => Replication.replicateGroupInvitePolicyAfterLocalSave se g p a
  | OPublishRole g p role a => Service.rt (Membership.replicateGroupRoleAfterLocalSave re g p role a)
  | OArrive remote a => arrive se fuel remote a
  | OAnnex remote tok wire sig => Service.rt (Profiles.handleAuthProfileAnnex re remote tok wire sig)
  | OPull remote answer => Replication.pullReplicatedProfilesFromPeerOnce se answer fuel remote
  | OServe remote input => sql_ignore (Replication.handle_sync_stream se remote input)
  | ORepair => Replication.repair_round se
  end.
Fixpoint replica_ops (ops : list ReplicaOp) : SV unit :=
  match ops with
  | [] => sql_ret tt
  | op :: ops => sql_ignore (replica_op op) ;;! replica_ops ops
  end.
Lemma replica_op_sustains op : respects (sv_on sustains) (replica_op op).
Proof.
  destruct op; simpl; try apply respects_ignore.
  - apply SaveMyProfile_sustains.
  - apply ClearMyAvatar_sustains.
  - apply send_profile_sustains.
  - apply SaveGroupChatAvatar_sustains.
  - apply publish_avatar_sustains.
  - apply publish_policy_sustains.
  - apply publish_role_sustains.
  - apply arrive_sustains.
  - apply annex_sustains.
  - apply pull_sustains.
  - apply stream_sustains.
  - apply repair_sustains.
Qed.
Lemma replica_ops_sustain ops : respects (sv_on sustains) (replica_ops ops).
Proof. induction ops as [|op ops IH]; simpl; repeat on_step; [apply replica_op_sustains|apply IH]. Qed.

(** C13: Every stored record can be checked by whoever it is passed on to.  Whatever
    the user, the peers and the timer of a node do, in any order, whatever the
    peers answer and whatever statement fails: if the keys of the identity
    belong together, every row of the table of replicated records is stored
    under the namespace and the key that its body says, with the author and
    the revision that its body says, carries the hash of its body, and its
    signature verifies under the key it names.  (The records that arrive by
    gossip of the blind store are not among these operations; they pass
    through the same checks.) *)
Theorem replicated_records_verify ops env t s r t' s' :
  key_pair (sv_app s) -> records_verified re (sv_app s) -> replica_ops ops env t s = (r, t', s') ->
  forall k row, adb_records (sv_app s') !! k = Some row -> verified re k row.
Proof.
  intros Hk Hv E. pose proof (replica_ops_sustain ops env t s) as [_ H]. rewrite E in H. intros k row. by apply H.
Qed.
End Own.
