(* ===== verification/ReplicationPull.v ===== *)
(** * Pulling from a peer

    What a peer serves is read back frame by frame, and a cursor never passes
    the record it stands for: a record that a node does not ask for again is
    one that it has, or has a later one of. *)
From S2P Require Import Prelude GoStrings Sha256 Types Config Hlc Epoch ActiveView SingleWriter.
From S2P Require Import ForkDetector Helpers Database Store StoreSpec HealStore AppDatabase Identity Roster.
From S2P Require Import InviteStore Replicated AddOperations InviteRequests Wire.
From S2P Require Import Runtime Categories CategoryService Auth Frames Membership Profiles ReplicaFrames.
From S2P Require Import SqlLogic InviteStoreSpec AuthSpec MembershipSpec.
From S2P Require Import Coordinator CoordBroadcast CoordApplication CoordCommit.
From S2P Require Import CoordMessage CoordMembers CoordLogic.
From S2P Require Import CoordReplay CoordHeal Node Service ServiceLogic ServiceSpec Invites InviteFlow.
From S2P Require Import InviteFlowSpec Replication ReplicationSpec ReplicationInv.

(** ** Frames *)

(** A frame that has been written is read back. *)
Lemma record_read_written payload max b rest : ReplicaFrames.replicaWriteFrame payload max = inl b -> 0 <= max < 2 ^ 32 ->
  ReplicaFrames.replicaReadFrame (b ++ rest) max = inl (payload, rest).
Proof.
  unfold ReplicaFrames.replicaWriteFrame, ReplicaFrames.replicaReadFrame.
  destruct (Z.gtb_spec (Z.of_nat (length payload)) max) as [|Hl]; [intros E; discriminate E|]. intros E Hm. apply (inj inl) in E as <-.
  pose proof (put_be32_length (Z.of_nat (length payload))) as H4. rewrite <- app_assoc.
  assert (Hlen : (length (Auth.put_be32 (Z.of_nat (length payload)) ++ payload ++ rest) <? 4)%nat = false)
    by (apply Nat.ltb_ge; rewrite length_app, H4; lia).
  rewrite Hlen, (take_app_length' _ _ 4), (drop_app_length' _ _ 4) by done. rewrite be32_put by lia.
  destruct (Z.gtb_spec (Z.of_nat (length payload)) max); [lia|].
  destruct (Z.eqb_spec (Z.of_nat (length payload)) 0) as [E|E].
  { destruct payload; [done|simpl in E; lia]. }
  destruct (Z.ltb_spec (Z.of_nat (length (payload ++ rest))) (Z.of_nat (length payload))) as [Hc|]; [rewrite length_app in Hc; lia|].
  rewrite Nat2Z.id. by rewrite take_app_length, drop_app_length.
Qed.
Lemma read_nothing max : ReplicaFrames.replicaReadFrame [] max = inr (ErrText "unexpected EOF").
Proof. done. Qed.

Section Emit.
Context {JH : JSON ReplicaPullRecordHeaderV1} {LH : JSONLaws ReplicaPullRecordHeaderV1}.
(** A record that has been emitted is the next one read; a record that was cut
    off is read as an error. *)
Lemma next_emitted key v wire sig blob b rest :
  json_valid (mkPullHeader 1 key v) -> ReplicaFrames.emit_record key v wire sig blob = (b, None) ->
  ReplicaFrames.next_record (b ++ rest) = inl (Some (ReplicaFrames.mkPulled key v wire sig blob, rest)).
Proof.
  intros Hj. unfold ReplicaFrames.emit_record, ReplicaFrames.record_frames, ReplicaFrames.next_record, ReplicaFrames.read_record.
  cbn [ReplicaFrames.write_all]. intros E.
  destruct (ReplicaFrames.replicaWriteFrame (json_Marshal _) _) as [b1|] eqn:E1; [|done].
  destruct (ReplicaFrames.replicaWriteFrame wire _) as [b2|] eqn:E2; [|done].
  destruct (ReplicaFrames.replicaWriteFrame sig _) as [b3|] eqn:E3; [|done].
  destruct (ReplicaFrames.replicaWriteFrame blob _) as [b4|] eqn:E4; [|done]. injection E as <-. rewrite app_nil_r, <- !app_assoc.
  rewrite (record_read_written _ _ _ _ E1 ltac:(done)). pose proof (json_nonempty (mkPullHeader 1 key v)) as Hne.
  apply is_empty_false in Hne as ->. rewrite json_round_trip by done.
  rewrite (record_read_written _ _ _ _ E2 ltac:(done)), (record_read_written _ _ _ _ E3 ltac:(done)), (record_read_written _ _ _ _ E4 ltac:(done)). done.
Qed.
Lemma next_cut key v wire sig blob b e :
  json_valid (mkPullHeader 1 key v) -> ReplicaFrames.emit_record key v wire sig blob = (b, Some e) ->
  exists e', ReplicaFrames.next_record b = inr e'.
Proof.
  intros Hj. unfold ReplicaFrames.emit_record, ReplicaFrames.record_frames, ReplicaFrames.next_record, ReplicaFrames.read_record.
  cbn [ReplicaFrames.write_all]. intros E.
  destruct (ReplicaFrames.replicaWriteFrame (json_Marshal _) _) as [b1|] eqn:E1.
  2: { injection E as <- _. eauto. }
  pose proof (json_nonempty (mkPullHeader 1 key v)) as Hne. apply is_empty_false in Hne.
  destruct (ReplicaFrames.replicaWriteFrame wire _) as [b2|] eqn:E2.
  2: { injection E as <- _. rewrite (record_read_written _ _ _ _ E1 ltac:(done)), Hne, json_round_trip by done. eauto. }
  destruct (ReplicaFrames.replicaWriteFrame sig _) as [b3|] eqn:E3.
  2: { injection E as <- _. rewrite (record_read_written _ _ _ _ E1 ltac:(done)), Hne, json_round_trip, (record_read_written _ _ _ _ E2 ltac:(done)) by done. eauto. }
  destruct (ReplicaFrames.replicaWriteFrame blob _) as [b4|] eqn:E4; [done|]. injection E as <- _.
  rewrite (record_read_written _ _ _ _ E1 ltac:(done)), Hne, json_round_trip, (record_read_written _ _ _ _ E2 ltac:(done)),
    (record_read_written _ _ _ _ E3 ltac:(done)) by done. eauto.
Qed.

(** The records of a stream, up to its end or the first error. *)
Fixpoint stream_of (good : ReplicaFrames.Pulled -> Prop) (n : nat) (s : bytes) : Prop :=
  match n with
  | O => True
  | S n =>
      match ReplicaFrames.next_record s with
      | inl (Some (rec, s)) => good rec /\ stream_of good n s
      | _ => True
      end
  end.
Lemma stream_emitted good key v wire sig blob b rest n :
  json_valid (mkPullHeader 1 key v) -> ReplicaFrames.emit_record key v wire sig blob = (b, None) ->
  good (ReplicaFrames.mkPulled key v wire sig blob) -> (forall n, stream_of good n rest) -> stream_of good n (b ++ rest).
Proof. intros Hj E Hg Hr. destruct n as [|n]; simpl; [done|]. by rewrite (next_emitted _ _ _ _ _ _ _ Hj E). Qed.
Lemma stream_cut good key v wire sig blob b e n :
  json_valid (mkPullHeader 1 key v) -> ReplicaFrames.emit_record key v wire sig blob = (b, Some e) -> stream_of good n b.
Proof. intros Hj E. destruct n as [|n]; simpl; [done|]. by destruct (next_cut _ _ _ _ _ _ _ Hj E) as [e' ->]. Qed.
Lemma stream_end good n : stream_of good n Replication.end_frame.
Proof. destruct n as [|n]; [done|]. by vm_compute. Qed.
Lemma stream_nil good n : stream_of good n [].
Proof. by destruct n. Qed.
End Emit.

(** ** Serving *)
Section Serving.
Context {PC : PeerCodec} {ED : Ed25519} {WC : WireCodec} {PJ : PayloadJSON}.
Context {JP : JSON profileWireV1} {JA : JSON groupAvatarWireV1} {JO : JSON groupInvitePolicyWireV1}.
Context {JM : JSON ReplicaPushMetaV1} {JQ : JSON ReplicaPullRequestV1} {JH : JSON ReplicaPullRecordHeaderV1}.
Context {LH : JSONLaws ReplicaPullRecordHeaderV1}.
Variable se : SvEnv.
Abbreviation re := (se_rt se).

(** What a record of an answer says is what its body says. *)
Definition truthful (ns : string) (rec : ReplicaFrames.Pulled) : Prop :=
  TrimSpace (ReplicaFrames.pu_key rec) = ReplicaFrames.pu_key rec /\
  exists g p, names re (bytes_str (ReplicaFrames.pu_wire rec)) ns g (ReplicaFrames.pu_key rec) p (ReplicaFrames.pu_revision rec).
(** The headers of the records can be sent. *)
Definition sendable (d : AppDB) : Prop :=
  forall k row, adb_records d !! k = Some row -> json_valid (mkPullHeader 1 k.2 (rr_Revision row)).

Definition closing (e : option GoError) : bytes := match e with None => Replication.end_frame | Some _ => [] end.
(** The answer to the request for a namespace. *)
Definition answers (ns : string) (s : Svc) (r : result (bytes * option GoError)) (s' : Svc) : Prop :=
  s' = s /\ match r with inl be => forall n, stream_of (truthful ns) n (be.1 ++ closing be.2) | inr _ => True end.

Lemma svc_eta s : mkSvc (sv_app s) (sv_coords s) (sv_hlc s) (sv_trace s) = s.
Proof. by destruct s. Qed.
Definition reads_only {A} (m : SV A) : Prop := forall s, swp m (fun _ s' => s' = s) s.
Lemma attachment_reads h : reads_only (Replication.attachment se h).
Proof.
  intros s. unfold Replication.attachment, ProfileStore.GetAvatarBlob. cbv zeta. destruct (_ || _); [by apply swp_ret|].
  apply swp_bind, swp_try, swp_db. repeat swp_step; simpl; apply swp_ret || idtac; try apply svc_eta.
Qed.
Lemma served_reads ns max attach b : Replication.served se ns = Some (max, attach) -> reads_only (attach b).
Proof.
  unfold Replication.served. repeat case_match; intros [= <- <-]; first [apply attachment_reads | intros s; by apply swp_ret].
Qed.

Lemma serve_answers ns attach cursors keys s :
  TrimSpace ns = ns -> (forall b, reads_only (attach b)) -> records_verified re (sv_app s) -> sendable (sv_app s) ->
  swp (Replication.serve_keys ns attach cursors keys) (answers ns s) s.
Proof.
  intros Hns Ha Hv Hj. induction keys as [|k keys IH]; cbn [Replication.serve_keys].
  { apply swp_ret. split; [done|]. intros n. apply stream_end. }
  cbv zeta. destruct (str_eqb (TrimSpace k) "") eqn:Ek; [apply IH|]. apply swp_bind, swp_try, swp_db.
  unfold Replicated.GetReplicatedRecord. rewrite Hns, TrimSpace_idemp, Ek, orb_false_r.
  destruct (str_eqb ns ""); [apply swp_throw; rewrite svc_eta; apply IH|].
  apply swp_row; [|intros _; rewrite svc_eta; apply IH|intros; rewrite svc_eta; apply IH].
  intros row Hrow. rewrite svc_eta. destruct (_ <=? _); [apply IH|]. apply swp_bind. eapply swp_mono; [|apply Ha].
  intros [blob|e] s1 ->; [|done]. pose proof (Hj _ _ Hrow) as Hjr. simpl in Hjr. pose proof (Hv _ _ Hrow) as Hvr.
  assert (Hg : truthful ns (ReplicaFrames.mkPulled (TrimSpace k) (rr_Revision row) (str_bytes (rr_BodyJSON row)) (rr_Signature row) blob)).
  { split; simpl; [apply TrimSpace_idemp|]. rewrite bytes_str_bytes. destruct (vf_names _ _ _ Hvr) as [g Hn]. eauto. }
  destruct (ReplicaFrames.emit_record _ _ _ _ _) as [b [e|]] eqn:Ee.
  - apply swp_ret. split; [done|]. intros n. simpl. rewrite app_nil_r. by eapply stream_cut.
  - apply swp_bind. eapply swp_mono; [|apply IH]. intros [[rest e]|e] s1 [-> Hs]; [|done]. apply swp_ret. split; [done|].
    intros n. cbn [fst snd]. rewrite <- app_assoc. by eapply stream_emitted.
Qed.

(** What the stream of a peer with verified records carries is truthful. *)
Lemma stream_truthful remote input req s :
  ReplicaFrames.read_request input = Some req -> records_verified re (sv_app s) -> sendable (sv_app s) ->
  swp (Replication.handle_sync_stream se remote input)
    (fun r _ => match r with inl b => forall n, stream_of (truthful (TrimSpace (pq_Namespace req))) n b | inr _ => True end) s.
Proof.
  intros Hreq Hv Hj. unfold Replication.handle_sync_stream. rewrite Hreq. apply swp_bind.
  apply (swp_mono _ (answers (TrimSpace (pq_Namespace req)) s)).
  - intros [[b e]|e] s' [_ H]; [|done]. apply swp_ret. intros n. specialize (H n). simpl in H. destruct e; simpl in H; [by rewrite app_nil_r in H|done].
  - assert (Hf : forall msg, answers (TrimSpace (pq_Namespace req)) s (inl ([], Some (ErrText msg))) s)
      by (intros msg; split; [done|]; intros n; apply stream_nil).
    unfold Replication.serveReplicaStoreP2P. cbv zeta.
    destruct (negb (_ =? 1)); [by apply swp_ret|]. destruct (_ || _); [by apply swp_ret|]. destruct (negb _); [by apply swp_ret|].
    destruct (Replication.served se _) as [[max attach]|] eqn:Es.
    + destruct (_ >? _); [by apply swp_ret|]. apply serve_answers; [apply TrimSpace_idemp| |done|done]. intros b. by eapply served_reads.
    + apply swp_ret. split; [done|]. intros n. apply stream_end.
Qed.
End Serving.

(** ** Cursors *)
Section Cursors.
Context {PC : PeerCodec} {ED : Ed25519} {EL : Ed25519Laws} {WC : WireCodec} {PJ : PayloadJSON}.
Context {JP : JSON profileWireV1} {JA : JSON groupAvatarWireV1} {JO : JSON groupInvitePolicyWireV1}.
Context {JM : JSON ReplicaPushMetaV1} {JQ : JSON ReplicaPullRequestV1} {JH : JSON ReplicaPullRecordHeaderV1}.
Context {LH : JSONLaws ReplicaPullRecordHeaderV1}.
Variable se : SvEnv.
Variable fuel : nat.
Abbreviation re := (se_rt se).

(** Every cursor stands for a record that is there, or a later one. *)
Definition cursors_reached (d : AppDB) : Prop :=
  forall p ns k c, adb_pull_state d !! (p, ns, k) = Some c -> reached (ns, k) c (adb_records d).
(** Records only move forward, and cursors stay behind them. *)
Definition chases (d d' : AppDB) : Prop :=
  (forall k v, reached k v (adb_records d) -> reached k v (adb_records d')) /\ (cursors_reached d -> cursors_reached d').
#[export] Instance chases_preorder : PreOrder chases.
Proof. split; [by intros d; split|]. intros d1 d2 d3 [G1 K1] [G2 K2]. split; auto. Qed.

Lemma takes_reached recs body sig d k v : takes re body sig d recs -> reached k v (adb_records d) -> reached k v recs.
Proof.
  intros [ns g k' p row Hn Hs He Hnew _ _ _ Hv] (r & Hr & Hle). destruct (decide ((ns, k') = k)) as [<-|Hne].
  - exists row. rewrite lookup_insert_eq. split; [done|]. specialize (Hnew _ Hr). lia.
  - exists r. by rewrite lookup_insert_ne.
Qed.
Lemma applied_chases {A} ns body sig d (r : result A) d' : applied re ns body sig d r d' -> same steady d d' -> chases d d'.
Proof.
  intros [Ht _] Hs. unfold same, steady in Hs. injection Hs as Hp _.
  assert (Hg : forall k v, reached k v (adb_records d) -> reached k v (adb_records d')).
  { intros k v H. destruct Ht as [->|Ht]; [done|]. by eapply takes_reached. }
  split; [done|]. intros H p ns' k c Hc. rewrite Hp in Hc. by eapply Hg, H.
Qed.
Lemma same_chases d d' : same kept d d' -> chases d d'.
Proof.
  unfold same, kept. intros [= Hr Hp _]. unfold chases, cursors_reached. by rewrite Hr, Hp.
Qed.

Lemma cursor_chases p ns k v d :
  reached (TrimSpace ns, TrimSpace k) v (adb_records d) ->
  swp (Replicated.UpsertReplicatedPullCursor p ns k v) (fun _ d' => chases d d') d.
Proof.
  intros Hr. unfold Replicated.UpsertReplicatedPullCursor. cbv zeta. apply swp_wrap, swp_exec; [|intros e; reflexivity].
  split; [done|]. intros H p' ns' k' c. simpl. destruct (decide (Replicated.cursor_key p ns k = (p', ns', k'))) as [E|Hne].
  - rewrite E, lookup_insert_eq. injection E as <- <- <-.
    destruct (adb_pull_state d !! _) as [cur|] eqn:Ec; intros [= <-]; [|done].
    destruct (H _ _ _ _ Ec) as (r1 & H1 & L1). destruct Hr as (r2 & H2 & L2). rewrite H1 in H2. injection H2 as <-. exists r1. split; [done|lia].
  - rewrite lookup_insert_ne by done. apply H.
Qed.

(** A truthful record that is pulled: the cursor moves to it only when it has
    been reached. *)
Lemma settle_chases remote ns stale rec sig m :
  TrimSpace ns = ns -> stale ∈ stales -> truthful se ns rec ->
  (forall s, swp m (sv_applies se ns (bytes_str (ReplicaFrames.pu_wire rec)) sig s) s) -> respects (sv_on (same steady)) m ->
  respects (sv_on chases) (Replication.settle_record remote ns stale rec m).
Proof.
  intros Hns Hst [Hk (g & p & Hn)] Hm Hsteady. apply respects_swp. intros s. unfold Replication.settle_record. apply swp_bind, swp_try.
  intros env t. pose proof (Hm s env t) as Ha. pose proof (Hsteady env t s) as Hs. destruct (m env t s) as [[r t1] s1]. simpl in *.
  pose proof (applied_chases _ _ _ _ _ _ Ha Hs) as H1. destruct Ha as [_ Hset].
  assert (Hmove : settles r -> swp (Service.db (Replicated.UpsertReplicatedPullCursor (peer_String remote) ns (ReplicaFrames.pu_key rec)
    (ReplicaFrames.pu_revision rec))) (fun _ s' => sv_on chases s s') s1).
  { intros Hr. apply swp_db. destruct (Hset Hr) as (g' & k' & p' & v' & Hn' & Hreach).
    destruct (names_functional _ _ _ _ _ _ _ _ _ _ _ Hn Hn') as (_ & <- & _ & <-).
    eapply swp_mono; [|apply cursor_chases; by rewrite Hns, Hk]. intros r' d' H'. unfold sv_on. simpl. by etrans. }
  destruct r as [[]|e]; [by apply Hmove|]. destruct (errors_Is e stale) eqn:Ee; [|by apply swp_ret]. apply Hmove. simpl. intros Hf.
  unfold fresh_error in Hf. rewrite Forall_forall in Hf. rewrite (Hf _ Hst) in Ee. done.
Qed.
Lemma on_profile_chases remote rec : truthful se Replicated.NamespaceUserProfileV1 rec ->
  respects (sv_on chases) (Replication.on_profile se remote rec).
Proof.
  intros H. eapply settle_chases; [done|set_solver|done|intros s; apply apply_profile_applied|apply apply_profile_steady].
Qed.
Lemma on_avatar_chases remote rec : truthful se Replicated.NamespaceGroupAvatarV1 rec ->
  respects (sv_on chases) (Replication.on_avatar se remote rec).
Proof.
  intros H. unfold Replication.on_avatar. cbv zeta. repeat case_match; try by on_step.
  eapply settle_chases; [done|set_solver|done|intros s; apply apply_avatar_applied|apply apply_avatar_steady].
Qed.
Lemma on_role_chases remote rec : truthful se Replicated.NamespaceGroupRoleV1 rec ->
  respects (sv_on chases) (Replication.on_role se remote rec).
Proof.
  intros H. unfold Replication.on_role. cbv zeta. repeat case_match; try by on_step.
  eapply settle_chases; [done|set_solver|done|intros s; apply apply_role_applied|apply apply_role_steady].
Qed.
Lemma on_policy_chases remote rec : truthful se Replicated.NamespaceGroupInvitePolicyV1 rec ->
  respects (sv_on chases) (Replication.on_policy se fuel remote rec).
Proof.
  intros H. unfold Replication.on_policy. cbv zeta. repeat case_match; try by on_step.
  eapply settle_chases; [done|set_solver|done|intros s; apply apply_policy_applied|apply apply_policy_steady].
Qed.

(** ** An honest peer *)

(** The answers are what the handler of a node writes whose records verify, and
    which reads role changes the same way. *)
Definition honest (answer : peerID -> ReplicaPullRequestV1 -> result bytes) (remote : peerID) : Prop :=
  forall req b, answer remote req = inl b ->
    exists se' self input env t s', re_role_Unmarshal (se_rt se') = re_role_Unmarshal re /\
      ReplicaFrames.read_request input = Some req /\ records_verified (se_rt se') (sv_app s') /\ sendable (sv_app s') /\
      (Replication.handle_sync_stream se' self input env t s').1.1 = inl b.
Lemma names_codec (re1 re2 : RtEnv) body ns g k p v :
  re_role_Unmarshal re1 = re_role_Unmarshal re2 -> names re1 body ns g k p v -> names re2 body ns g k p v.
Proof. intros E [w H|w H|w H|w H]; [by apply names_profile|by apply names_avatar|apply names_role; by rewrite <- E|by apply names_policy]. Qed.
Lemma stream_mono (P Q : ReplicaFrames.Pulled -> Prop) n s : (forall rec, P rec -> Q rec) -> stream_of P n s -> stream_of Q n s.
Proof.
  intros H. revert s. induction n as [|n IH]; intros s; simpl; [done|]. repeat case_match; try done. intros [HP HS]. auto.
Qed.
Lemma honest_stream answer remote req b : honest answer remote -> answer remote req = inl b ->
  forall n, stream_of (truthful se (TrimSpace (pq_Namespace req))) n b.
Proof.
  intros Hh E n. destruct (Hh _ _ E) as (se' & self & input & env & t & s' & Hc & Hr & Hv & Hj & Hb).
  pose proof (stream_truthful se' self input req s' Hr Hv Hj env t) as H. rewrite Hb in H. eapply stream_mono; [|apply H].
  intros rec [Hk (g & p & Hn)]. split; [done|]. exists g, p. by eapply names_codec.
Qed.
Lemma read_chases good onRecord steps : (forall rec, good rec -> respects (sv_on chases) (onRecord rec)) ->
  forall s, stream_of good steps s -> respects (sv_on chases) (Replication.read_records steps s onRecord).
Proof.
  intros H. induction steps as [|steps IH]; intros s Hs; simpl; [by on_step|]. simpl in Hs.
  destruct (ReplicaFrames.next_record s) as [[[rec s1]|]|e]; try by on_step. destruct Hs as [Hg Hs].
  apply respects_bind; [apply _|by apply H|intros _; by apply IH].
Qed.
Lemma pull_chases answer remote req onRecord : honest answer remote ->
  (forall rec, truthful se (TrimSpace (pq_Namespace req)) rec -> respects (sv_on chases) (onRecord rec)) ->
  respects (sv_on chases) (Replication.PullReplicaStoreRecords answer remote req onRecord).
Proof.
  intros Hh H. unfold Replication.PullReplicaStoreRecords. destruct (ReplicaFrames.write_request req); [|by on_step].
  destruct (answer remote _) as [s|e] eqn:Ea; [|by on_step]. eapply read_chases; [exact H|]. by apply (honest_stream _ _ _ _ Hh Ea).
Qed.

(** *** A whole pull *)

(** A step with a value that satisfies [P]. *)
Definition yields {X} (P : X -> Prop) (m : SV X) : Prop :=
  forall s, swp m (fun r s' => sv_on chases s s' /\ match r with inl x => P x | inr _ => True end) s.
Lemma yields_bind {X A} (P : X -> Prop) (m : SV X) (k : X -> SV A) :
  yields P m -> (forall x, P x -> respects (sv_on chases) (k x)) -> respects (sv_on chases) (sql_bind m k).
Proof.
  intros Hm Hk. apply respects_swp. intros s. apply swp_bind. eapply swp_mono; [|apply Hm]. intros [x|e] s1 [H1 Hx]; [|done].
  eapply swp_respects; [by apply Hk|]. intros r s' H'. by etrans.
Qed.
Lemma yields_after {X A} (P : X -> Prop) (m : SV A) (k : A -> SV X) :
  respects (sv_on chases) m -> (forall a, yields P (k a)) -> yields P (sql_bind m k).
Proof.
  intros Hm Hk s. apply swp_bind. eapply swp_respects; [exact Hm|]. intros [a|e] s1 H1; [|done].
  eapply swp_mono; [|apply Hk]. intros r s' [H' Hr]. split; [by etrans|done].
Qed.
Lemma yields_ret {X} (P : X -> Prop) x : P x -> yields P (sql_ret x).
Proof. intros H s. by apply swp_ret. Qed.
Lemma db_chases {A} (m : ASQL A) : respects (same kept) m -> respects (sv_on chases) (Service.db m).
Proof. intros H. apply on_db. eapply respects_weaken; [|exact H]. apply same_chases. Qed.

Lemma cursors_read_chases remote ns keys : forall acc, respects (sv_on chases) (Replication.read_cursors remote ns keys acc).
Proof.
  induction keys as [|k keys IH]; intros acc; simpl; unfold Replicated.GetReplicatedPullCursor; repeat first [apply IH|on_step].
Qed.
Lemma request_yields remote ns keys : yields (fun req => pq_Namespace req = ns) (Replication.pull_request remote ns keys).
Proof. unfold Replication.pull_request. apply yields_after; [apply cursors_read_chases|intros c]. by apply yields_ret. Qed.
Definition asks (ns : string) (req : option ReplicaPullRequestV1) : Prop := forall r, req = Some r -> pq_Namespace r = ns.
Lemma some_request_yields remote ns keys : yields (asks ns) (req <-! Replication.pull_request remote ns keys ; sql_ret (Some req)).
Proof.
  intros s. apply swp_bind. eapply swp_mono; [|apply request_yields]. intros [req|e] s' [H1 H2]; [|done]. apply swp_ret.
  split; [done|]. by intros r [= <-].
Qed.
Lemma group_request_yields ns remote : yields (asks ns) (Replication.group_request ns remote).
Proof.
  unfold Replication.group_request. apply yields_after.
  - unfold GroupMeta.ListJoinedGroupChatIDsForReplication. repeat first [progress cbv zeta|on_step].
  - intros keys. case_match; [by apply yields_ret|apply some_request_yields].
Qed.
Lemma role_keys_chases gs : respects (sv_on chases) (Replication.role_keys gs).
Proof.
  induction gs as [|g gs IH]; simpl; unfold Roster.ListGroupMembers; repeat first [progress cbv zeta|apply IH|on_step].
Qed.
Lemma role_request_yields remote : yields (asks Replicated.NamespaceGroupRoleV1) (Replication.buildReplicatedGroupRolePullRequest remote).
Proof.
  unfold Replication.buildReplicatedGroupRolePullRequest. apply yields_after.
  - unfold GroupMeta.ListJoinedGroupChatIDsForReplication. repeat first [progress cbv zeta|on_step].
  - intros gs. apply yields_after; [apply role_keys_chases|intros keys]. cbv zeta.
    case_match; [by apply yields_ret|apply some_request_yields].
Qed.
Lemma optional_chases answer remote ns req onRecord : honest answer remote -> TrimSpace ns = ns -> asks ns req ->
  (forall rec, truthful se ns rec -> respects (sv_on chases) (onRecord rec)) ->
  respects (sv_on chases) (Replication.pull_optional answer remote req onRecord).
Proof.
  intros Hh Hns Ha H. destruct req as [req|]; simpl; [|by on_step]. apply pull_chases; [done|]. by rewrite (Ha req), Hns.
Qed.
Lemma pull_once_chases answer remote : honest answer remote ->
  respects (sv_on chases) (Replication.pullReplicatedProfilesFromPeerOnce se answer fuel remote).
Proof.
  intros Hh. unfold Replication.pullReplicatedProfilesFromPeerOnce.
  destruct (re_node re) as [self|], (re_db re), (se_auth se) as [auth|]; try by on_step. destruct (negb _); [by on_step|].
  apply (yields_bind (fun req => pq_Namespace req = Replicated.NamespaceUserProfileV1)).
  { unfold Replication.buildReplicatedProfilePullRequest, ProfileStore.ListKnownProfilePeerIDs. apply yields_after.
    - repeat first [progress cbv zeta|on_step].
    - intros known. apply request_yields. }
  intros req Hreq. apply respects_bind; [apply _| |intros _].
  { apply pull_chases; [done|]. rewrite Hreq. intros rec. apply on_profile_chases. }
  apply (yields_bind (asks Replicated.NamespaceGroupAvatarV1)); [apply group_request_yields|]. intros greq Hg.
  apply respects_bind; [apply _| |intros _]; [by eapply optional_chases; [..|intros rec; apply on_avatar_chases]|].
  apply (yields_bind (asks Replicated.NamespaceGroupRoleV1)); [apply role_request_yields|]. intros rreq Hr.
  apply respects_bind; [apply _| |intros _]; [by eapply optional_chases; [..|intros rec; apply on_role_chases]|].
  apply (yields_bind (asks Replicated.NamespaceGroupInvitePolicyV1)); [apply group_request_yields|]. intros preq Hp.
  by eapply optional_chases; [..|intros rec; apply on_policy_chases].
Qed.

(** *** Pushes *)
Definition pushed (a : Arrival) : bool := match a with Pushed _ _ _ _ | PushedProfile _ _ _ => true | _ => false end.
Lemma apply_chases ns body sig (m : SV unit) : (forall s, swp m (sv_applies se ns body sig s) s) -> respects (sv_on (same steady)) m ->
  respects (sv_on chases) m.
Proof. intros Ha Hs env t s. eapply applied_chases; [apply Ha|apply Hs]. Qed.
Lemma push_chases remote a : pushed a = true -> respects (sv_on chases) (arrive se fuel remote a).
Proof.
  intros Hp. destruct a as [meta wire sig blob|wire sig blob| | | |]; try done; simpl;
    unfold Replication.handleReplicaStorePush, Replication.handleUserProfilePush, Replication.tolerate; cbv zeta.
  all: repeat match goal with
  | |- respects _ (Replication.apply_profile _ _ _ _ _) => eapply apply_chases; [intros; apply apply_profile_applied|apply apply_profile_steady]
  | |- respects _ (Replication.apply_avatar _ _ _ _ _) => eapply apply_chases; [intros; apply apply_avatar_applied|apply apply_avatar_steady]
  | |- respects _ (Replication.apply_role _ _ _ _) => eapply apply_chases; [intros; apply apply_role_applied|apply apply_role_steady]
  | |- respects _ (Replication.apply_policy _ _ _ _ _) => eapply apply_chases; [intros; apply apply_policy_applied|apply apply_policy_steady]
  | _ => asql_step
  end.
Qed.

(** Pulls from honest peers and pushes of any peer, in any order. *)
Inductive ChaseOp := CPull (remote : peerID) (answer : peerID -> ReplicaPullRequestV1 -> result bytes) | CPush (remote : peerID) (a : Arrival).
Definition chase_op (op : ChaseOp) : SV unit :=
  match op with
  | CPull remote answer => Replication.pullReplicatedProfilesFromPeerOnce se answer fuel remote
  | CPush remote a => arrive se fuel remote a
  end.
Definition fair (op : ChaseOp) : Prop :=
  match op with CPull remote answer => honest answer remote | CPush _ a => pushed a = true end.
Fixpoint chase_ops (ops : list ChaseOp) : SV unit :=
  match ops with [] => sql_ret tt | op :: ops => sql_ignore (chase_op op) ;;! chase_ops ops end.
Lemma chase_ops_chase ops : Forall fair ops -> respects (sv_on chases) (chase_ops ops).
Proof.
  induction 1 as [|op ops Hop _ IH]; simpl; repeat on_step; [|exact IH].
  destruct op as [remote answer|remote a]; simpl in *; [by apply pull_once_chases|by apply push_chases].
Qed.

(** C14: A cursor never passes its record.  Whatever peers push, whatever is pulled
    from peers whose records verify, in any order and whatever statement fails:
    the node has, for every cursor it keeps for a peer, the record the cursor
    stands for at that revision or a later one.  So a record that is left out
    of the answer to its next request, because its revision is not above the
    cursor, is not newer than what the node has. *)
Theorem pull_never_skips_records ops env t s r t' s' :
  Forall fair ops -> cursors_reached (sv_app s) -> chase_ops ops env t s = (r, t', s') ->
  forall p ns k c, adb_pull_state (sv_app s') !! (p, ns, k) = Some c ->
    exists row, adb_records (sv_app s') !! (ns, k) = Some row /\ c <= rr_Revision row.
Proof.
  intros Hf Hc E. pose proof (chase_ops_chase ops Hf env t s) as [_ H]. rewrite E in H. exact (H Hc).
Qed.
End Cursors.
