(* ===== verification/ReplicationDemo.v ===== *)
(** * Replication at concrete inputs

    Two nodes that have verified each other: A saves its profile, B takes it
    over from a push or pulls it; the properties of replication applied to
    them, and what happens to a field that is cleared while a peer is away and
    to a request for more keys than a peer serves.

    Five nodes of the blind store: A publishes its key package, two of the
    others are its replicas and B asks them first.  A key package with a date
    in the future keeps later ones out. *)
From S2P Require Import Prelude GoStrings Sha256 Types Config Hlc Epoch ActiveView SingleWriter.
From S2P Require Import ForkDetector Helpers Database Store StoreSpec HealStore AppDatabase Identity Roster.
From S2P Require Import InviteStore Replicated AddOperations InviteRequests Wire.
From S2P Require Import Runtime Categories CategoryService Auth Frames Membership Profiles ReplicaFrames.
From S2P Require Import SqlLogic InviteStoreSpec MembershipSpec.
From S2P Require Import Coordinator CoordBroadcast CoordApplication CoordCommit.
From S2P Require Import CoordMessage CoordMembers CoordLogic CoordDemo.
From S2P Require Import CoordReplay CoordHeal Node OfflineSyncDemo Service ServiceLogic ServiceSpec ServiceDemo.
From S2P Require Import Invites InviteFlow InviteFlowSpec Replication BlindStore BlindStoreSpec.
From S2P Require Import ReplicationSpec ReplicationInv ReplicationPull.
Import BlindStore.

#[local] Existing Instance plain_codec.
#[local] Existing Instance plain_codec_laws.
#[local] Existing Instance toy_ed25519.
#[local] Existing Instance toy_ed25519_laws.

(** ** Texts of the wires *)

#[export] Instance profile_json : JSON profileWireV1 :=
  ser_json (fun w => (pf_V w, (pf_PeerID w, (pf_DisplayName w, (pf_Email w, (pf_Phone w, (pf_AvatarHash w, (pf_AvatarMime w,
                     (pf_AvatarUpdatedAt w, (pf_ProfileRevision w, pf_ClearedFields w))))))))))
    (fun x => let '(v, (p, (n, (e, (ph, (h, (m, (at_, (r, c))))))))) := x in mkProfileWire v p n e ph h m at_ r c).
#[export] Instance avatar_json : JSON groupAvatarWireV1 :=
  ser_json (fun w => (gw_V w, (gw_GroupID w, (gw_ActorPeerID w, (gw_CreatorPeerID w, (gw_AvatarHash w, (gw_AvatarMime w,
                     (gw_AvatarUpdatedAt w, (gw_Revision w, gw_ClearedFields w)))))))))
    (fun x => let '(v, (g, (a, (cr, (h, (m, (at_, (r, c)))))))) := x in mkAvatarWire v g a cr h m at_ r c).
#[export] Instance policy_json : JSON groupInvitePolicyWireV1 :=
  ser_json (fun w => (ow_V w, (ow_GroupID w, (ow_Policy w, (ow_ActorPeerID w, (ow_CreatedAt w, ow_Revision w))))))
    (fun x => let '(v, (g, (p, (a, (at_, r))))) := x in mkPolicyWire v g p a at_ r).
#[export] Instance meta_json : JSON ReplicaPushMetaV1 :=
  ser_json (fun w => (pm_V w, (pm_Namespace w, pm_RecordKey w))) (fun x => mkPushMeta x.1 x.2.1 x.2.2).
#[export] Instance pull_json : JSON ReplicaPullRequestV1 :=
  ser_json (B := Z * (string * (list string * list (string * Z))))
    (fun w => (pq_V w, (pq_Namespace w, (pq_Keys w, map_to_list (pq_Cursors w)))))
    (fun x => mkPullRequest x.1 x.2.1 x.2.2.1 (list_to_map (M := gmap string Z) x.2.2.2)).
#[export] Instance header_json : JSON ReplicaPullRecordHeaderV1 :=
  ser_json (fun w => (ph_V w, (ph_Key w, ph_Revision w))) (fun x => mkPullHeader x.1 x.2.1 x.2.2).
#[export] Instance header_json_laws : JSONLaws ReplicaPullRecordHeaderV1.
Proof.
  split.
  - intros [v k r] _. cbn [json_Marshal json_Unmarshal header_json ser_json]. by rewrite <- (app_nil_r (put _)), get_put.
  - by intros [[|p|p] k r].
Qed.

(** ** Two nodes *)

Definition node_se (self other : peerID) : SvEnv := {|
  se_rt := demo_re self; se_shared := CoordDemo.demo; se_stack := true; se_auth := Some [other]; se_peers := [other];
  se_history := fun _ => adb_empty; se_reach := fun _ => true; se_kp_direct := fun _ => inr (ErrText "no key package");
  se_kp_fetch := fun _ => None; se_welcome_fetch := fun _ _ => None; se_welcome_list := fun _ => None; se_blind := fun _ => [];
|}.
Definition se_A : SvEnv := node_se "A" "B".
Definition se_B : SvEnv := node_se "B" "A".
Definition key_A : bytes := repeat x02 64.
(** A has an identity, B knows its name and its key. *)
Definition svc_A : Svc :=
  mkSvc (set_adb_identity (Some (mkMLSIdentity "Alice" (ed_Public key_A) key_A [x03])) adb_empty) ∅ (Hlc.NewHLC "A") [].
Definition svc_B : Svc :=
  mkSvc (set_adb_directory [mkPeerDirectoryRow "A" "Alice" (hex_EncodeToString (ed_Public key_A)) None None None None 0 0 None 0]
    (sv_app join_init)) ∅ (Hlc.NewHLC "B") [].
Local Notation on_A ops s := (replica_ops se_A 3 ops join_env O s).
Local Notation on_B ops s := (replica_ops se_B 3 ops join_env O s).
Definition no_avatar (email : string) : ReplicaOp := OSaveProfile email "" [] 0.
Definition saved : Svc := (on_A [no_avatar "a@x"] svc_A).2.
(** The pushes to B that a run has sent. *)
Definition pushes (s : Svc) : list Arrival :=
  omap (fun e => match e with Send _ (FReplicaPush m w sig blob) => Some (Pushed m w sig blob) | _ => None end) (sv_trace s).
Definition email_of (s : Svc) : option string := List.find (Roster.pd_key "A") (adb_directory (sv_app s)) ≫= pd_Email.
Definition revision_of (s : Svc) : option Z := rr_Revision <$> adb_records (sv_app s) !! (Replicated.NamespaceUserProfileV1, "A").
Definition arrived (s : Svc) : Svc := (on_B (OArrive "A" <$> pushes s) svc_B).2.
(** What A answers. *)
Definition answer_of (s : Svc) (_ : peerID) (req : ReplicaPullRequestV1) : result bytes :=
  match ReplicaFrames.write_request req, pq_V req =? 1 with
  | inl input, true => (Replication.handle_sync_stream se_A "B" input join_env O s).1.1
  | _, _ => inr (ErrText "stream reset")
  end.
Definition cursor_of (s : Svc) : option Z := adb_pull_state (sv_app s) !! ("A", Replicated.NamespaceUserProfileV1, "A").

(** The profile that A saves reaches B by the push, or by a pull. *)
Example profile_travels :
  (revision_of (arrived saved), email_of (arrived saved)) = (Some 2, Some "a@x") /\
  let pulled := (on_B [OPull "A" (answer_of saved)] svc_B).2 in
  (revision_of pulled, email_of pulled, cursor_of pulled) = (Some 2, Some "a@x", Some 2).
Proof. split; vm_compute; reflexivity. Qed.

(** The new row on B is signed by A. *)
Lemma remote_records_are_authorised_witness :
  exists a row, pushes saved = [a] /\ adb_records (sv_app (arrive se_B 3 "A" a join_env O svc_B).2) !! (Replicated.NamespaceUserProfileV1, "A") = Some row /\
    rr_OwnerPeerID row = "A" /\ rr_Revision row = 2 /\ signed_by (rr_OwnerPeerID row) (rr_BodyJSON row) (rr_Signature row) (sv_app svc_B).
Proof.
  assert (Ep : pushes saved = [default (PushedProfile [] [] []) (pushes saved !! 0%nat)]) by (vm_compute; reflexivity).
  set (a := default (PushedProfile [] [] []) (pushes saved !! 0%nat)) in *. exists a.
  assert (Hm : Roster.members_ok (sv_app svc_B)) by (intros k r H; discriminate H).
  assert (E : option_map (fun row => (rr_OwnerPeerID row, rr_Revision row))
    (adb_records (sv_app (arrive se_B 3 "A" a join_env O svc_B).2) !! (Replicated.NamespaceUserProfileV1, "A")) = Some ("A", 2))
    by (vm_compute; reflexivity).
  destruct (remote_records_are_authorised se_B 3 "A" a join_env O svc_B _ _ _ Hm (run_parts _)) as [H|(ns & g & k & row & H & _ & _ & Hs & _)];
    rewrite H in E |- *; [discriminate E|].
  assert (Hk : (ns, k) = (Replicated.NamespaceUserProfileV1, "A")).
  { destruct (decide ((ns, k) = (Replicated.NamespaceUserProfileV1, "A"))) as [Hk|Hne]; [exact Hk|].
    rewrite lookup_insert_ne in E by exact Hne. discriminate E. }
  rewrite Hk, lookup_insert_eq in E |- *. injection E as Eo Er. exists row. repeat split; assumption.
Defined.

Lemma key_pair_A : key_pair (sv_app svc_A).
Proof. intros id priv [= <-] H. vm_compute in H. injection H as <-. reflexivity. Qed.
Lemma verified_svc_A : records_verified (se_rt se_A) (sv_app svc_A).
Proof. apply map_Forall_empty. Qed.

(** The record of A verifies under the key of A. *)
Lemma replicated_records_verify_witness :
  exists row, adb_records (sv_app saved) !! (Replicated.NamespaceUserProfileV1, "A") = Some row /\ rr_Revision row = 2 /\
    verified (se_rt se_A) (Replicated.NamespaceUserProfileV1, "A") row.
Proof.
  assert (E : option_map rr_Revision (adb_records (sv_app saved) !! (Replicated.NamespaceUserProfileV1, "A")) = Some 2)
    by (vm_compute; reflexivity).
  pose proof (replicated_records_verify se_A 3 [no_avatar "a@x"] join_env O svc_A _ _ _ key_pair_A verified_svc_A (run_parts _)) as H.
  fold saved in H. destruct (adb_records (sv_app saved) !! (Replicated.NamespaceUserProfileV1, "A")) as [row|] eqn:Er; [|discriminate E].
  simpl in E. injection E as E. exists row. split; [reflexivity|]. split; [exact E|]. exact (H _ _ Er).
Defined.

(** A is an honest peer: it answers what it is asked, from records that verify. *)
Lemma request_round_trip req input : ReplicaFrames.write_request req = inl input -> pq_V req = 1 -> ReplicaFrames.read_request input = Some req.
Proof.
  destruct req as [v ns keys cursors]. unfold ReplicaFrames.write_request, ReplicaFrames.read_request. cbn [pq_V pq_Namespace pq_Keys pq_Cursors].
  intros E ->. destruct (Z.of_nat _ >? _); [done|]. rewrite <- (app_nil_r input), (record_read_written _ _ _ _ E ltac:(done)).
  cbn [json_Marshal json_Unmarshal pull_json ser_json]. rewrite <- (app_nil_r (put _)) at 2. rewrite get_put. simpl.
  rewrite list_to_map_to_list. done.
Qed.
Lemma honest_A : honest se_B (answer_of saved) "A".
Proof.
  intros req b E. unfold answer_of in E. destruct (ReplicaFrames.write_request req) as [input|] eqn:Ew; [|discriminate E].
  destruct (pq_V req =? 1) eqn:Ev; [|discriminate E]. apply Z.eqb_eq in Ev. exists se_A, "B", input, join_env, O, saved.
  split; [reflexivity|]. split; [by apply request_round_trip|]. split; [|split; [by intros k row _|exact E]].
  exact (proj2 (replica_ops_sustain se_A 3 [no_avatar "a@x"] join_env O svc_A) key_pair_A verified_svc_A).
Qed.

(** After a pull the cursor is at the revision of the record. *)
Local Notation pulled := (chase_ops se_B 3 [CPull "A" (answer_of saved)] join_env O svc_B).
Lemma pull_never_skips_records_witness :
  cursor_of pulled.2 = Some 2 /\
  exists row, adb_records (sv_app pulled.2) !! (Replicated.NamespaceUserProfileV1, "A") = Some row /\ 2 <= rr_Revision row.
Proof.
  assert (Ec : cursor_of pulled.2 = Some 2) by (vm_compute; reflexivity). split; [exact Ec|].
  refine (pull_never_skips_records se_B 3 [CPull "A" (answer_of saved)] join_env O svc_B _ _ _ _ _ (run_parts _) "A" _ _ _ Ec).
  - constructor; [exact honest_A|constructor].
  - intros p ns k c H. discriminate H.
Defined.

(** ** What does not work *)

(** A clears its mail address while B is away.  The push to a peer that comes
    back repeats the revision without the list of cleared fields, and stores
    it in place of the record that had the list: B keeps the address, and has
    the same revision as A. *)
Definition cleared : Svc := (on_A [no_avatar ""] saved).2.
Definition returned : Svc := (on_A [OSendProfile "B"] (mkSvc (sv_app cleared) ∅ (Hlc.NewHLC "A") [])).2.
Example cleared_field_survives_absence :
  let B := (on_B (OArrive "A" <$> pushes returned) (arrived saved)).2 in
  let B' := (on_B [OPull "A" (answer_of returned)] (arrived saved)).2 in
  (lp_Email <$> adb_local_profile (sv_app returned)) = Some None /\ revision_of returned = Some 3 /\
  (revision_of B, email_of B) = (Some 3, Some "a@x") /\ (revision_of B', email_of B') = (Some 3, Some "a@x").
Proof. vm_compute. auto. Qed.

(** A peer that is not among the 256 most recent ones of the directory is asked
    for 257 keys, which it refuses. *)
Definition crowd : list PeerDirectoryRow :=
  (fun n => mkPeerDirectoryRow (print_Z (Z.of_nat n)) "" "" None None None None 0 0 None 9) <$> seq 0 256.
Definition crowded : Svc :=
  mkSvc (set_adb_directory (adb_directory (sv_app svc_B) ++ crowd) (sv_app svc_B)) ∅ (Hlc.NewHLC "B") [].
Example crowded_pull_is_refused :
  let req := (Replication.buildReplicatedProfilePullRequest "A" "B" join_env O crowded).1.1 in
  match req with inl q => length (pq_Keys q) = 257%nat | inr _ => False end /\
  (Replication.pullReplicatedProfilesFromPeerOnce se_B (answer_of saved) 3 "A" join_env O crowded).1.1 = inr (ErrText "unexpected EOF").
Proof. split; vm_compute; reflexivity. Qed.

(** ** The blind store *)

#[export] Instance blind_json : JSON blindStoreEnvelopeV1 :=
  ser_json (fun w => (bo_V w, (bo_PublishedAt w, (bo_ObjectType w, (bo_GroupID w, (bo_MsgType w, (bo_Envelope w, (bo_EnvelopeHash w,
    (bo_PeerID w, (bo_PublicKP w, (bo_InviteePeerID w, (bo_GroupType w, (bo_CategoryID w, (bo_SourcePeerID w, (bo_Welcome w,
    (bo_AnchorEpoch w, (bo_AnchorHistoryHash w, (bo_ReplicaTargets w, (bo_RecordNamespace w, (bo_RecordKey w, (bo_RecordWireJSON w,
    (bo_RecordSignature w, bo_RecordBlob w))))))))))))))))))))))
    (fun x => let '(v, (pa, (ot, (g, (mt, (en, (eh, (pe, (kp, (inv, (gt, (cat, (src, (we, (ae, (ah, (rt, (ns, (rk, (rw, (rs, rb))))))))))))))))))))) := x in
       mkBlindObject v pa ot g mt en eh pe kp inv gt cat src we ae ah rt ns rk rw rs rb).
#[export] Instance blind_json_laws : JSONLaws blindStoreEnvelopeV1.
Proof.
  split.
  - intros w _. cbn [json_Marshal json_Unmarshal blind_json ser_json]. rewrite <- (app_nil_r (put _)), get_put. by destruct w.
  - intros w. destruct w as [[|p|p]]; done.
Qed.

Definition all_peers : list peerID := ["A"; "B"; "C"; "D"; "E"].
Definition peer_se (self : peerID) : SvEnv := {|
  se_rt := demo_re self; se_shared := CoordDemo.demo; se_stack := true; se_auth := Some all_peers; se_peers := all_peers;
  se_history := fun _ => adb_empty; se_reach := fun _ => true; se_kp_direct := fun _ => inr (ErrText "no key package");
  se_kp_fetch := fun _ => None; se_welcome_fetch := fun _ _ => None; se_welcome_list := fun _ => None; se_blind := fun _ => [];
|}.
Definition two_replicas : blindStoreLayer := mkLayer true false 2.
(** The routing table knows E only. *)
Definition peer_be (peers : list peerID) : BlindEnv := mkBlindEnv (Some two_replicas) peers (Some (fun _ => inl ["E"])) elements.
Definition be_A : BlindEnv := peer_be ["B"; "C"; "D"; "E"].
Definition be_B : BlindEnv := peer_be ["E"; "D"; "C"; "A"].
Definition quiet (p : peerID) : Svc := mkSvc adb_empty ∅ (Hlc.NewHLC p) [].

(** The replicas of A's key package, and whom B asks for it. *)
Example routing_sample :
  (selectReplicaTargets (peer_se "A") be_A two_replicas "A" "kp:A", blindStoreFetchCandidates (peer_se "B") be_B "B" "kp:A") =
  (["E"; "C"], ["E"; "C"; "A"; "D"]).
Proof. vm_compute. reflexivity. Qed.

Definition kp_A : bytes := [x0a].
Lemma peers_alike : alike (peer_se "A") (peer_se "B") be_A be_B "A" "B".
Proof.
  split; [done|done| |].
  - intros p HA HB.
    assert (E1 : eligible (peer_se "A") be_A "A" = ["B"; "C"; "D"; "E"]) by (vm_compute; reflexivity).
    assert (E2 : eligible (peer_se "B") be_B "B" = ["E"; "D"; "C"; "A"]) by (vm_compute; reflexivity).
    rewrite E1, E2. set_solver.
  - apply (hashes_differ_sub _ all_peers); [|apply hashes_differ_NoDup; refine (bool_decide_unpack (NoDup _) _); vm_compute; exact I].
    assert (E : eligible (peer_se "A") be_A "A" ++ eligible (peer_se "B") be_B "B" = ["B"; "C"; "D"; "E"; "E"; "D"; "C"; "A"])
      by (vm_compute; reflexivity).
    rewrite E. unfold all_peers. set_solver.
Qed.

(** A publishes; C is a replica that B asks, and keeps the key package. *)
Local Notation published := (publishBlindStoreKeyPackage (peer_se "A") be_A "A" kp_A join_env 1%nat (quiet "A")).2.
Local Notation heard_by p payload := (handleInbound (peer_se p) 3 two_replicas "D" payload join_env O (quiet p)).2.

(** A replica that the publisher has found in the routing table is the last one
    asked by a node whose own query of the table failed. *)
Definition be_B_timeout : BlindEnv :=
  mkBlindEnv (Some two_replicas) ["E"; "D"; "C"; "A"] (Some (fun _ => inr (ErrText "context deadline exceeded"))) elements.
Example failed_query_changes_ranks :
  "E" ∈ selectReplicaTargets (peer_se "A") be_A two_replicas "A" "kp:A" /\
  blindStoreFetchCandidates (peer_se "B") be_B_timeout "B" "kp:A" = ["C"; "A"; "D"; "E"].
Proof. split; vm_compute; [left|reflexivity]. Qed.

(** B, which A has not authorised for anything, announces a key package for A
    with a date in the future: the replica does not take over A's own. *)
Definition planted : bytes := json_Marshal (key_package_frame "A" [x66] (2 ^ 62) ["C"]).
Local Notation taken s payload hop := (handleInbound (peer_se "C") 3 two_replicas hop payload join_env O s).2.
Example planted_key_package_stays :
  let s := taken (taken (quiet "C") planted "B") (json_Marshal (key_package_frame "A" kp_A 1000 ["C"])) "A" in
  sk_public_kp <$> adb_stored_kps (sv_app s) !! "A" = Some [x66].
Proof. vm_compute. reflexivity. Qed.
